(* ===== verification/_CoqProject ===== *)
-Q . S2P
Prelude.v
Jsmn.v
JsmnTree.v
CStd.v
Json.v
Ring.v
Uart.v
RtosList.v
Heap2.v
Alloc.v
Tasks.v
Queue.v
QueueSync.v
Mem.v
Memp.v
Pbuf.v
Checksum.v
IpAddr.v
Timers.v
Netconn.v
EchoThreads.v
TcpConn.v
TcpEcho.v
TcpServer.v
TcpClient.v
Etharp.v
Autoip.v
EthInput.v
Ip.v
Udp.v
DhcpMsg.v
Dhcp.v
DhcpInv.v
DhcpBind.v
Net.v
Netconf.v
