(* ===== verification/Prelude.v ===== *)
(** * popcorn5 firmware: verification library

    The firmware of an STM32F4x7 Ethernet board that reads sensors, posts the
    measures to a server as JSON over TCP and takes commands over a serial
    port. The live application is Project/FreeRTOS/working (FreeRTOS, lwIP
    with its sequential interface); Project/Standalone/tcp_echo_client is the
    same application without an operating system, over lwIP's callbacks. This
    library models the parts of src/ that carry its logic and proves what
    makes them correct, or where they are not.

    ** Parts, files and sources

    - [Prelude]: machine integers, the type [outcome] of a C computation (a
      value, [UB] for an access the C code must not make, [NoFuel] for a bound
      on a loop that was too small), arrays, transition relations, tactics,
      lemmas on lists.
    - [Jsmn], [JsmnTree]: jsmn.c, the JSON tokenizer. [JsmnTree] states what
      it is for: the tokens of the text of a JSON tree.
    - [CStd], [Json]: working/src/json.c, the request the device posts and
      the reader of the answer, over the C library functions it calls.
    - [Ring], [Uart]: UART_Perlib.c, the serial driver, with the DMA
      controller and the transmitter as steps that interleave with the calls.
    - [RtosList]: FreeRTOS list.c, at the level of pointers.
    - [Heap2]: FreeRTOS portable/MemMang/heap_2.c; [Alloc]: the interface of
      an allocator, of which heap_2 is an instance ([Heap2.heap2_allocator])
      and over which queue.c is verified.
    - [Tasks]: FreeRTOS tasks.c; [Queue]: queue.c, section by section;
      [QueueSync]: the sections of several tasks, of interrupts, of the tick
      and of context switches interleaved on one queue.
    - [Mem], [Memp], [Pbuf]: lwIP core/mem.c, memp.c and pbuf.c. [Pbuf] is
      over the interface [Mem.RamHeap] of a heap, which mem.c implements
      ([Mem.memheap_ram]).
    - [Checksum]: lwIP core/ipv4/inet_chksum.c. [IpAddr]: core/ipv4/ip_addr.c
      and the byte order of core/def.c. [Timers]: core/timers.c and the loop
      of the lwIP thread around it.
    - [TcpConn]: what the three TCP programs below share. The fields of a
      connection with the setters of core/tcp.c, the memory of an application
      with its packet buffers, and the interface [TcpConn.TcpStack] to the
      protocol engine (tcp_write, tcp_recved, tcp_close, tcp_abort), whose laws
      say what the documentation of lwIP promises.
    - [TcpEcho]: Standalone/tcp_echo_server, tcp_echoserver.c. [TcpServer]:
      Standalone/tcp_echo_client, tcp_server.c and its json.c, the server that
      takes a serial number. [TcpClient]: tcp_echoclient.c, the client that
      posts the request and the report.
    - [Netconn]: the TCP connections of lwIP's sequential interface
      (src/src/api/api_msg.c and api_lib.c, version 1.3.2, whose interface
      the live application calls); the thread of the stack waits in err_tcp
      while a mailbox is full. [EchoThreads]: working/src/tcpecho.c, the two
      kinds of threads of the live application over the variables they share.
      Every access to these is a step, and post_packet is a buffer that
      json_Packet_Gen writes byte by byte and that netconn_write points to.

    - [Etharp]: lwIP netif/etharp.c, the ARP table, its messages and the
      output of IP packets; [Autoip]: the addresses of an interface
      (core/netif.c) and the link-local client (core/ipv4/autoip.c);
      [EthInput]: the frames that come in (etharp_arp_input, ethernet_input)
      and all operations of the three files in any order. The memory and the
      driver are the record [Etharp.lower]; ip_input, dhcp_arp_reply and
      tcp_abort are events of the log there.
    - [Ip]: lwIP core/ipv4/ip.c and icmp.c: packets with their room, routing,
      output, the decisions of ip_input, echo replies and unreachable
      messages. [Udp]: core/udp.c: the blocks, their ports, sending and the
      choice of a block.
    - [DhcpMsg], [Dhcp]: lwIP core/dhcp.c, the options of a message and the
      client. [DhcpInv]: its invariant and every call in any order.
      [DhcpBind]: the way to an address, and the timers.
    - [Net]: the layers put together. The events of [EthInput] become calls;
      ip_input calls udp_input, icmp_input and, through the callback of a
      block, dhcp_recv. A TCP segment is a result.
    - [Netconf]: working/src/netconf.c, with the parts of the port's
      ethernetif.c and of netif.c that LwIP_Init needs: LwIP_DHCP_task and the
      turns of the thread of the stack (tcpip.c, timers.c) that feed it frames
      and let the timers of ARP and DHCP run. A turn is not interrupted; the
      code does not see to that for the calls of LwIP_DHCP_task.
    - The layers from [Etharp] to [Netconf] have the options of
      working/inc/lwipopts.h: no reassembly, no fragments, no queue of packets
      in ARP, no trust in the addresses of IP packets. The programs under
      Standalone leave these at 1.

    Every definition that models code has the name of the C function or type
    it translates (a loop of a function has a name of its own); a function
    takes the state it reads and returns the state it leaves. A C integer is
    a Z that is reduced ([u8], [u16], [u32], [s32]) where the compiler
    reduces it. A pointer is an index or an offset; NULL is [None] or the
    value the source tests. Undefined behaviour is never given a result.

    ** What the theorems show

    - Tokenizer: a round trip with the printer for every JSON tree, memory
      safety and termination on every text, the shape of every accepted
      result, agreement of the counting pass with the filling pass.
    - Application: the document json_Packet_Gen posts is well-formed JSON
      with the members it should have, the number reader is exact; the jsmn
      client recognises nothing and the buffers are too small for some
      floats.
    - Serial driver: the transmit side is a FIFO under every interleaving
      and delivers, the receive side is a FIFO through GetChar, the printers
      print decimal numbers; what goes wrong outside those bounds.
    - Kernel: the lists refine sequences; the allocator keeps blocks disjoint
      over every sequence of calls; delays are exact over the overflow of the
      tick counter; the scheduler is fair among the tasks of one priority;
      mutexes lend priorities and restore them; and, for the interleaved
      queue, linearizability (a bounded FIFO), absence of lost wake-ups and
      that no section is stuck.
    - lwIP memory: first fit and its inverse for the heap, the layout of the
      pools; for packet buffers the exactness of the reference counts over
      every sequence of calls, the round trip of the copy functions, and the
      behaviour of the search.
    - lwIP, the rest: the checksum routines compute the checksum of RFC 1071
      over every split into buffers and alignment (the partial one for less
      than 32767 bytes, where its assertion holds), and what they compute
      verifies; addresses round-trip through their text; the list of timeouts
      is an agenda of deadlines, and the periodic timers of the thread run
      without drift.
    - ARP: in every order of operations and whatever frames come, the table
      keeps its invariant, no packet is lost or freed twice (packets that end
      in an empty pbuf excepted: an assertion fails), and a packet
      goes to the Ethernet address that its next hop announced last; which
      entry is recycled and how long an entry lives; two devices that run this
      code resolve each other's addresses.
    - Link-local addresses: an address is used only after three probes and
      5.5 seconds without a conflict; without a conflict the client binds
      within 91 ticks; after 256 conflicts it forgets that it had any.
    - DHCP: no call, message or timer makes the client fail, in any order that
      keeps the rules of its functions; the options round-trip; with the answers of a server the client binds the
      address, and it declines an address that is taken. Where a message
      makes dhcp_parse_reply loop or stops a timer, a theorem says so.
    - IP, UDP, ICMP: a datagram that one device sends reaches the block of
      another with its data; an echo request is answered.
    - Network configuration: every order of frames, timers and passes of
      LwIP_DHCP_task is safe, with memory and a pbuf for every frame; without
      a server the device takes its static address at the first pass behind
      the 124th fine tick, not before; an address from a server is used and
      never renewed.
    - Live application: in every interleaving of its threads, with the engine
      and with the tasks that change the measures, the server echoes what it
      receives; while one sender is busy at a time, every report is the JSON
      document for a number the server has read; netconn_write hands over all
      of its data or an error, when nothing comes in on the connection before
      the thread wakes up. But two senders write into each other's report,
      requests are lost or reported twice, a thread that loses its connection
      never sends again, and a full mailbox stops the stack: theorems say so.
    - Standalone TCP programs: what the echo server sends is what it has received, in
      order; no sequence of callbacks makes it touch freed memory; it closes
      and frees when the other side has; the client sends exactly the request
      that was prepared. Where the two servers and the client leak or hang on
      to a connection, a theorem says so.

    A theorem that has hypotheses is followed by [<name>_witness], which
    applies it at a concrete input.

    ** Bounds and fuel

    A loop that is not structural takes fuel, and a run out of fuel is the
    error [NoFuel], different from every result. The functional theorems
    conclude that the call returns, so that they cover termination: the fuel
    the definitions pass is the length of the text (tokenizer), the number
    of items or blocks of the list (lists, allocators), of pbufs of the store
    (chains), of characters (printers, copies), of dynamic ports (0x4001 steps
    of [Udp.udp_new_port] see each of the 0x4000 ports). dhcp_parse_reply gets
    eight passes ([Dhcp.parse_fuel]); three are enough when the option
    overload is in the options field only, and with it in file or sname the
    code may never end ([DhcpMsg.dhcp_parse_hangs]), which the hypothesis
    [DhcpInv.parses] excludes. Machine widths are those of the
    Cortex-M4: 32-bit pointers, int and portTickType, 16-bit lengths in lwIP.

    ** Not modelled

    - The hardware and its drivers: CMSIS, the STM32F4xx peripheral library,
      the Ethernet driver, ethernetif.c, the board support files, the start-up
      files and system_stm32f4xx.c: sequences of register accesses whose
      meaning is in the reference manual of the chip, not in the repository.
      The serial driver is modelled above its registers: TXE, TC, DR and NDTR
      are the steps of its environment.
    - The float formatter of the C library is a parameter of [Json].
    - The protocol engine of lwIP 1.4.1 (tcp_in.c, tcp_out.c), its optional
      protocols and the rest of its sequential interface. Its callers see TCP
      through [TcpConn.TcpStack] and [Netconn.tcp_env].
    - Of the layers below: fragments and reassembly, raw connections, DNS and
      IGMP, none of them in the configuration of the device; the main loops
      and the netconf.c of the programs under Standalone, whose options are
      others.
    - lwip-2.0.2, the rest of lwip_v1.3.2/src/src (lwIP 1.3.2), FatFs, the
      Discovery board files, the programs for the PC and the http
      demonstrations are in the repository but not in the image of the
      device.

    ** What could come next

    1. The protocol engine of TCP (tcp_in.c, tcp_out.c) as an instance of
       [TcpConn.TcpStack].
    2. The http server of Project/Standalone/httpserver (parser of requests,
       the file system image, the SSI state machine).
    3. sys_arch.c over [Queue], the mailboxes of lwIP's sequential interface.
    4. The codec of the SNMP agent (asn1_enc.c, asn1_dec.c).
*)

From Stdlib Require Export ZArith Lia.
From stdpp Require Export base tactics option list numbers.
#[global] Open Scope Z_scope.

(** ** Machine integers

    A w-bit C integer is a [Z]; the conversions below are the reductions the
    compiler performs when a value is stored in a variable of that type
    (unsigned arithmetic wraps, conversion to a signed type is two's
    complement, as armcc and gcc define it on Cortex-M). *)

Definition u8 (z : Z) : Z := z mod 2 ^ 8.
Definition u16 (z : Z) : Z := z mod 2 ^ 16.
Definition u32 (z : Z) : Z := z mod 2 ^ 32.
Definition s32 (z : Z) : Z := (z + 2 ^ 31) mod 2 ^ 32 - 2 ^ 31.

Lemma u8_small z : 0 <= z < 2 ^ 8 -> u8 z = z.
Proof. apply Z.mod_small. Qed.
Lemma u16_small z : 0 <= z < 2 ^ 16 -> u16 z = z.
Proof. apply Z.mod_small. Qed.
Lemma u32_small z : 0 <= z < 2 ^ 32 -> u32 z = z.
Proof. apply Z.mod_small. Qed.
Lemma s32_small z : - 2 ^ 31 <= z < 2 ^ 31 -> s32 z = z.
Proof. intros. unfold s32. rewrite Z.mod_small; lia. Qed.
Lemma u16_range z : 0 <= u16 z < 2 ^ 16.
Proof. apply Z.mod_pos_bound. lia. Qed.
Lemma u32_range z : 0 <= u32 z < 2 ^ 32.
Proof. apply Z.mod_pos_bound. lia. Qed.
Lemma s32_range z : - 2 ^ 31 <= s32 z < 2 ^ 31.
Proof. unfold s32. pose proof (Z.mod_pos_bound (z + 2 ^ 31) (2 ^ 32)). lia. Qed.

(** Fields of a word: a value below 2^k under a multiple of 2^k, and eight
    bits at position k. *)
Lemma lor_field a b k : 0 <= k -> 0 <= b < 2 ^ k -> Z.lor (a * 2 ^ k) b = a * 2 ^ k + b.
Proof.
  intros Hk Hb. assert (Hd : Z.land (a * 2 ^ k) b = 0); [|pose proof (Z.add_lor_land (a * 2 ^ k) b); lia].
  apply Z.bits_inj'. intros i Hi. rewrite Z.land_spec, Z.bits_0, <- Z.shiftl_mul_pow2 by done.
  destruct (Z.lt_ge_cases i k); [by rewrite Z.shiftl_spec_low|].
  replace (Z.testbit b i) with false; [by rewrite andb_false_r|]. symmetry. apply Z.testbit_false; [done|].
  rewrite Z.div_small; [done|]. split; [lia|]. apply Z.lt_le_trans with (2 ^ k); [lia|]. by apply Z.pow_le_mono_r; lia.
Qed.

Lemma land_byte n k : 0 <= k -> Z.land n (255 * 2 ^ k) = (n / 2 ^ k mod 256) * 2 ^ k.
Proof.
  intros Hk. rewrite <- !Z.shiftl_mul_pow2, <- Z.shiftr_div_pow2 by done. change 256 with (2 ^ 8).
  rewrite <- Z.land_ones by done. change (Z.ones 8) with 255. rewrite Z.shiftl_land.
  apply Z.bits_inj'. intros i Hi. rewrite !Z.land_spec.
  destruct (Z.lt_ge_cases i k); [by rewrite !(Z.shiftl_spec_low _ _ i), !andb_false_r by done|].
  by rewrite !Z.shiftl_spec, Z.shiftr_spec, Z.sub_add by lia.
Qed.

(** ** Outcomes

    [Ok a] is a C computation that returns; [UB] one that leaves the
    language (an access outside its object, a dereference of NULL or of a
    freed block, a signed overflow); [NoFuel] a loop whose fuel ran out
    before its exit test failed. Theorems of safety say that the outcome is
    [Ok]. *)

Inductive outcome (A : Type) : Type :=
  | Ok (a : A)
  | UB
  | NoFuel.
Arguments Ok {A} a.
Arguments UB {A}.
Arguments NoFuel {A}.

Definition obind {A B} (m : outcome A) (k : A -> outcome B) : outcome B :=
  match m with
  | Ok a => k a
  | UB => UB
  | NoFuel => NoFuel
  end.

Declare Scope c_scope.
Delimit Scope c_scope with c.
Notation "'let!' x ':=' m 'in' k" := (obind m (fun x => k))
  (at level 10, x pattern, m at level 100, k at level 200,
   format "'[v' 'let!'  x  ':='  m  'in' '/' k ']'") : c_scope.
#[global] Open Scope c_scope.

Lemma obind_ok {A B} (m : outcome A) (k : A -> outcome B) b :
  obind m k = Ok b <-> exists a, m = Ok a /\ k a = Ok b.
Proof. destruct m; simpl; split; try (by intros (?&[= ->]&?)); try done; eauto. Qed.

(** [wp m Q]: [m] returns, with a result that satisfies [Q] (total
    correctness: neither undefined nor out of fuel). *)
Definition wp {A} (m : outcome A) (Q : A -> Prop) : Prop :=
  match m with Ok a => Q a | _ => False end.

Lemma wp_ok {A} (m : outcome A) Q : wp m Q <-> exists a, m = Ok a /\ Q a.
Proof. destruct m; simpl; split; try (by intros (?&[= ->]&?)); try done; eauto. Qed.

Lemma wp_ret {A} (a : A) (Q : A -> Prop) : Q a -> wp (Ok a) Q.
Proof. done. Qed.

Lemma wp_bind {A B} (m : outcome A) (k : A -> outcome B) Q :
  wp m (fun a => wp (k a) Q) -> wp (obind m k) Q.
Proof. by destruct m. Qed.

Lemma wp_mono {A} (m : outcome A) (Q Q' : A -> Prop) :
  wp m Q -> (forall a, Q a -> Q' a) -> wp m Q'.
Proof. destruct m; simpl; auto. Qed.

Lemma wp_bind_mono {A B} (m : outcome A) (k : A -> outcome B) Q Q' :
  wp m Q' -> (forall a, Q' a -> wp (k a) Q) -> wp (obind m k) Q.
Proof. destruct m; simpl; auto. Qed.

(** [guard_ub b] continues when [b] holds and is undefined otherwise. *)
Definition guard_ub (b : bool) : outcome unit := if b then Ok tt else UB.

(** ** Arrays: an access with a C index is defined inside the array only. *)

Definition rd {A} (l : list A) (i : Z) : outcome A :=
  if i <? 0 then UB else match l !! Z.to_nat i with Some x => Ok x | None => UB end.

Definition wr {A} (l : list A) (i : Z) (x : A) : outcome (list A) :=
  if (i <? 0) || (Z.of_nat (length l) <=? i) then UB else Ok (<[Z.to_nat i := x]> l).

Lemma rd_ok {A} (l : list A) i :
  0 <= i < Z.of_nat (length l) -> exists x, rd l i = Ok x /\ l !! Z.to_nat i = Some x.
Proof.
  intros H. unfold rd. destruct (Z.ltb_spec i 0); [lia|].
  destruct (lookup_lt_is_Some_2 l (Z.to_nat i)) as [x Hx]; [lia|].
  rewrite Hx. eauto.
Qed.

Lemma rd_lookup {A} (l : list A) i x : 0 <= i -> l !! Z.to_nat i = Some x -> rd l i = Ok x.
Proof. intros Hi Hx. unfold rd. destruct (Z.ltb_spec i 0); [lia|]. by rewrite Hx. Qed.

Lemma rd_inv {A} (l : list A) i x :
  rd l i = Ok x -> 0 <= i < Z.of_nat (length l) /\ l !! Z.to_nat i = Some x.
Proof.
  unfold rd. destruct (Z.ltb_spec i 0); [done|].
  destruct (l !! Z.to_nat i) eqn:E; [|done]. intros [= ->].
  apply lookup_lt_Some in E as ?. split; [lia|done].
Qed.

Lemma wr_ok {A} (l : list A) i x :
  0 <= i < Z.of_nat (length l) -> wr l i x = Ok (<[Z.to_nat i := x]> l).
Proof.
  intros H. unfold wr. destruct (Z.ltb_spec i 0), (Z.leb_spec (Z.of_nat (length l)) i); done || lia.
Qed.

Lemma wr_inv {A} (l l' : list A) i x :
  wr l i x = Ok l' -> 0 <= i < Z.of_nat (length l) /\ l' = <[Z.to_nat i := x]> l.
Proof.
  unfold wr. destruct (Z.ltb_spec i 0), (Z.leb_spec (Z.of_nat (length l)) i); simpl; try done.
  intros [= <-]. split; [lia|done].
Qed.

Lemma wp_rd {A} (l : list A) i (Q : A -> Prop) :
  0 <= i < Z.of_nat (length l) ->
  (forall x, l !! Z.to_nat i = Some x -> Q x) -> wp (rd l i) Q.
Proof. intros Hi HQ. destruct (rd_ok l i Hi) as (x & -> & Hx). by apply HQ. Qed.

Lemma wp_wr {A} (l : list A) i x (Q : list A -> Prop) :
  0 <= i < Z.of_nat (length l) -> Q (<[Z.to_nat i := x]> l) -> wp (wr l i x) Q.
Proof. intros Hi HQ. by rewrite wr_ok. Qed.

(** ** Lengths as integers *)

Definition zlen {A} (l : list A) : Z := Z.of_nat (length l).

Lemma zlen_app {A} (l1 l2 : list A) : zlen (l1 ++ l2) = zlen l1 + zlen l2.
Proof. unfold zlen. rewrite length_app. lia. Qed.
Lemma zlen_cons {A} (x : A) l : zlen (x :: l) = zlen l + 1.
Proof. unfold zlen. simpl. lia. Qed.
Lemma zlen_nil {A} : zlen (@nil A) = 0.
Proof. done. Qed.
Lemma zlen_nonneg {A} (l : list A) : 0 <= zlen l.
Proof. unfold zlen. lia. Qed.

Lemma wr_mid {A} (l r : list A) x y i :
  zlen l = i -> wr (l ++ x :: r) i y = Ok (l ++ y :: r).
Proof.
  unfold zlen. intros <-. rewrite wr_ok by (rewrite length_app; simpl; lia).
  rewrite Nat2Z.id. f_equal. rewrite insert_app_r_alt by lia. by rewrite Nat.sub_diag.
Qed.

Lemma rd_mid {A} (l r : list A) x i : zlen l = i -> rd (l ++ x :: r) i = Ok x.
Proof. unfold zlen. intros <-. apply rd_lookup; [lia|]. by rewrite Nat2Z.id, list_lookup_middle. Qed.

Lemma alter_app_mid {A} (f : A -> A) (l1 l2 : list A) x :
  alter f (length l1) (l1 ++ x :: l2) = l1 ++ f x :: l2.
Proof. induction l1; simpl; [done|]. by f_equal. Qed.

Lemma list_alter_inv {A} (f : A -> A) i (l : list A) p x :
  alter f i l !! p = Some x ->
  (p = i /\ exists y, l !! i = Some y /\ x = f y) \/ (p <> i /\ l !! p = Some x).
Proof.
  rewrite list_lookup_alter. case_decide as E.
  - subst. intros (y & Hy & ->)%fmap_Some. left. eauto.
  - intros H. right. split; [congruence|done].
Qed.

Lemma list_insert_alter_Some {A} (l : list A) i f x :
  l !! i = Some x -> <[i := f x]> l = alter f i l.
Proof. intros H. rewrite list_insert_alter. apply list_alter_ext; [|done]. congruence. Qed.

(** ** Finite sequences of steps of a transition relation *)

Section Star.
Context {S : Type} (R : S -> S -> Prop).

Inductive star : S -> S -> Prop :=
  | star_refl s : star s s
  | star_step s1 s2 s3 : R s1 s2 -> star s2 s3 -> star s1 s3.

Lemma star_one s1 s2 : R s1 s2 -> star s1 s2.
Proof. eauto using star. Qed.

Lemma star_trans s1 s2 s3 : star s1 s2 -> star s2 s3 -> star s1 s3.
Proof. induction 1; eauto using star. Qed.

(** Rule induction for invariants: what holds at the start and is kept by
    every step holds in every reachable state. *)
Lemma star_invariant (I : S -> Prop) s1 s2 :
  (forall a b, I a -> R a b -> I b) -> I s1 -> star s1 s2 -> I s2.
Proof. intros Hstep H1 Hs. revert H1. induction Hs; eauto. Qed.
End Star.

(** ** Occurrences in a list *)

Section Occurrences.
Context {A : Type} `{!EqDecision A}.
Implicit Types (t u : A) (l : list A).

Fixpoint occ t l : Z :=
  match l with
  | [] => 0
  | u :: r => Z.b2z (bool_decide (u = t)) + occ t r
  end.

Lemma b2z_bounds b : 0 <= Z.b2z b <= 1.
Proof. by destruct b. Qed.

Lemma occ_app t l1 l2 : occ t (l1 ++ l2) = occ t l1 + occ t l2.
Proof. induction l1; cbn; lia. Qed.

Lemma occ_nonneg t l : 0 <= occ t l.
Proof. induction l as [|u r IH]; cbn; [lia|]. pose proof (b2z_bounds (bool_decide (u = t))). lia. Qed.

Lemma occ_elem t l : t ∈ l <-> 0 < occ t l.
Proof.
  induction l as [|u r IH]; cbn; [rewrite elem_of_nil; lia|].
  pose proof (occ_nonneg t r). rewrite elem_of_cons, IH. case_bool_decide; cbn; split; try lia; auto.
  intros [<-|?]; [done|lia].
Qed.

Lemma occ_not_elem t l : t ∉ l <-> occ t l = 0.
Proof. rewrite occ_elem. pose proof (occ_nonneg t l). lia. Qed.

Lemma occ_filter t u l : occ t (filter (fun v => v <> u) l) = if bool_decide (t = u) then 0 else occ t l.
Proof.
  induction l as [|v r IH]; [cbn; by case_bool_decide|]. rewrite filter_cons.
  destruct (decide (v <> u)) as [E|E]; cbn [occ]; rewrite IH; repeat case_bool_decide; subst; cbn;
    done || lia || naive_solver.
Qed.

Lemma occ_hd_tl t l : occ t l = occ t (take 1 l) + occ t (tail l).
Proof. destruct l; [done|]. cbn [take tail occ]. rewrite take_0. cbn. lia. Qed.

Lemma occ_take_drop t n l : occ t l = occ t (take n l) + occ t (drop n l).
Proof. rewrite <- occ_app. by rewrite take_drop. Qed.

Lemma occ_nodup l : NoDup l -> forall t, occ t l <= 1.
Proof.
  induction 1 as [|u r Hu _ IH]; intros t; cbn; [lia|]. specialize (IH t).
  case_bool_decide; cbn; [subst|lia]. rewrite occ_elem in Hu. lia.
Qed.

Lemma occ_perm t l1 l2 : Permutation l1 l2 -> occ t l1 = occ t l2.
Proof. induction 1; cbn; lia. Qed.

Lemma occ_permutation l1 l2 : (forall t, occ t l1 = occ t l2) -> Permutation l1 l2.
Proof.
  revert l2. induction l1 as [|u r IH]; intros l2 Ho.
  - destruct l2 as [|u r]; [done|]. specialize (Ho u). cbn in Ho. rewrite bool_decide_true in Ho by done.
    pose proof (occ_nonneg u r). cbn in Ho. lia.
  - assert (0 < occ u l2) as Hu%occ_elem.
    { rewrite <- Ho. cbn. rewrite bool_decide_true by done. pose proof (occ_nonneg u r). cbn. lia. }
    apply list_elem_of_split in Hu as (l3 & l4 & ->). rewrite <- Permutation_middle. apply perm_skip, IH.
    intros t. specialize (Ho t). rewrite occ_app in *. cbn in Ho. lia.
Qed.

Lemma occ_filter_notin (ts : list A) `{!forall v, Decision (v ∉ ts)} t l :
  occ t (filter (fun v => v ∉ ts) l) = if bool_decide (t ∈ ts) then 0 else occ t l.
Proof.
  induction l as [|v r IH]; [cbn; by case_bool_decide|]. rewrite filter_cons.
  destruct (decide (v ∉ ts)) as [E|E]; cbn [occ]; rewrite IH; repeat case_bool_decide; subst; cbn; done || lia || tauto.
Qed.

Lemma occ_concat_alter t (f : list A -> list A) i l (ls : list (list A)) :
  ls !! i = Some l -> occ t (concat (alter f i ls)) = occ t (concat ls) - occ t l + occ t (f l).
Proof.
  revert i. induction ls as [|l0 ls IH]; intros [|i] Hi; try done; cbn in *; rewrite !occ_app.
  - injection Hi as ->. lia.
  - rewrite (IH i Hi). lia.
Qed.

Lemma occ_concat_map_filter t u (ls : list (list A)) :
  occ t (concat (map (filter (fun v => v <> u)) ls)) = if bool_decide (t = u) then 0 else occ t (concat ls).
Proof.
  induction ls as [|l ls IH]; cbn; [by case_bool_decide|]. rewrite !occ_app, IH, occ_filter. by case_bool_decide.
Qed.

Lemma occ_concat_elem t (ls : list (list A)) : 0 < occ t (concat ls) <-> exists i l, ls !! i = Some l /\ t ∈ l.
Proof.
  induction ls as [|l ls IH]; cbn; [split; [lia|by intros (i & l & Hi & _)]|].
  rewrite occ_app. pose proof (occ_nonneg t l). pose proof (occ_nonneg t (concat ls)). split.
  - intros H1. destruct (decide (0 < occ t l)) as [Hl|Hl]; [exists O, l; split; [done|by apply occ_elem]|].
    destruct (proj1 IH) as (i & l' & Hi & Hl'); [lia|]. by exists (S i), l'.
  - intros ([|i] & l' & Hi & Hl'); cbn in Hi.
    + injection Hi as ->. apply occ_elem in Hl'. lia.
    + assert (0 < occ t (concat ls)) by (apply IH; eauto). lia.
Qed.
End Occurrences.

(** ** Automation *)

Create HintDb cmodel.
#[export] Hint Resolve u16_range u32_range s32_range star_refl : cmodel.
#[export] Hint Constructors star : cmodel.

(** [ztests] turns the boolean comparisons of the code into facts of [lia]. *)
Ltac ztest1 :=
  match goal with
  | H : context [?a <? ?b] |- _ => destruct (Z.ltb_spec a b)
  | H : context [?a <=? ?b] |- _ => destruct (Z.leb_spec a b)
  | H : context [?a =? ?b] |- _ => destruct (Z.eqb_spec a b)
  | |- context [?a <? ?b] => destruct (Z.ltb_spec a b)
  | |- context [?a <=? ?b] => destruct (Z.leb_spec a b)
  | |- context [?a =? ?b] => destruct (Z.eqb_spec a b)
  end.
Ltac ztests := repeat (ztest1; try lia; simpl in *).

(** [wpr] and [wpw] step over an array read and write at the head of a
    [wp] goal, [wpb H] over a call whose specification is [H]. *)
Ltac wpr := apply wp_bind, wp_rd; [try lia|].
Ltac wpw := apply wp_bind, wp_wr; [try lia|].
Tactic Notation "wpb" uconstr(H) := eapply wp_bind_mono; [eapply H|].

(** [solve_perm] proves permutations of lists built with [++] and [::]. *)
Ltac solve_perm :=
  apply occ_permutation; intros; repeat progress (cbn [occ app option_list option_rect]; rewrite ?occ_app); lia.

(** [list_norm] associates concatenations to the right. *)
Ltac list_norm := repeat (rewrite <- app_assoc || rewrite <- app_comm_cons).

(** [obinv H] opens the equation [H : m = Ok x] of a sequence of binds. *)
Ltac obinv H :=
  repeat match type of H with
  | obind ?m _ = Ok _ =>
      let E := fresh "E" in destruct m eqn:E; simpl in H; [|discriminate H|discriminate H]
  end.
