(* ===== verification/Jsmn.v ===== *)
(** * The jsmn JSON tokenizer: Project/*/src/jsmn.c, jsmn.h

    The source is compiled without JSMN_STRICT and JSMN_PARENT_LINKS. The
    text is a list of character codes 0..255 (armcc's plain char is unsigned;
    the two range tests of the source read the same for a signed char), the
    token array an [option (list jsmntok_t)], [None] for NULL. Every access
    to the text or to the token array outside of it is [UB]. *)

From S2P Require Import Prelude.

(** ** Data *)

Inductive jsmntype_t : Type :=
  | JSMN_UNDEFINED
  | JSMN_OBJECT
  | JSMN_ARRAY
  | JSMN_STRING
  | JSMN_PRIMITIVE.

#[export] Instance jsmntype_eq_dec : EqDecision jsmntype_t.
Proof. solve_decision. Defined.

Definition JSMN_ERROR_NOMEM : Z := -1.
Definition JSMN_ERROR_INVAL : Z := -2.
Definition JSMN_ERROR_PART : Z := -3.

Record jsmntok_t : Type := Tok {
  type : jsmntype_t;
  start : Z;
  tend : Z;
  size : Z;
}.

Record jsmn_parser : Type := Parser {
  pos : Z;
  toknext : Z;
  toksuper : Z;
}.

Definition set_pos (p : jsmn_parser) (x : Z) : jsmn_parser := Parser x (toknext p) (toksuper p).
Definition set_super (p : jsmn_parser) (x : Z) : jsmn_parser := Parser (pos p) (toknext p) x.

Definition jsmn_init : jsmn_parser := Parser 0 0 (-1).

(** ** Token allocation *)

(** The fresh token keeps the type field it had in the array; [None] is the
    NULL the function returns when the array is full. *)
Definition jsmn_alloc_token (p : jsmn_parser) (tokens : list jsmntok_t) (num_tokens : Z)
    : outcome (option (Z * jsmn_parser * list jsmntok_t)) :=
  if num_tokens <=? toknext p then Ok None
  else
    let! old := rd tokens (toknext p) in
    let! tokens' := wr tokens (toknext p) (Tok (type old) (-1) (-1) 0) in
    Ok (Some (toknext p, Parser (pos p) (u32 (toknext p + 1)) (toksuper p), tokens')).

Definition jsmn_fill_token (tokens : list jsmntok_t) (i : Z) (ty : jsmntype_t) (st en : Z)
    : outcome (list jsmntok_t) :=
  wr tokens i (Tok ty st en 0).

(** [tokens[i].size++] *)
Definition size_incr (tokens : list jsmntok_t) (i : Z) : outcome (list jsmntok_t) :=
  let! t := rd tokens i in
  wr tokens i (Tok (type t) (start t) (tend t) (s32 (size t + 1))).

(** ** Primitives *)

Definition is_space (c : Z) : bool := (c =? 9) || (c =? 13) || (c =? 10) || (c =? 32).

(** The characters of the switch that ends a primitive. *)
Definition is_prim_end (c : Z) : bool :=
  (c =? 58) || is_space c || (c =? 44) || (c =? 93) || (c =? 125).

(** The loop: [Some pos] where it stops (at [found] or at the end of the
    text), [None] on a character that is not printable ASCII. *)
Fixpoint jsmn_primitive_loop (fuel : nat) (js : list Z) (len p : Z) : outcome (option Z) :=
  match fuel with
  | O => NoFuel
  | S fuel =>
      if p <? len then
        let! c := rd js p in
        if c =? 0 then Ok (Some p)
        else if is_prim_end c then Ok (Some p)
        else if (c <? 32) || (127 <=? c) then Ok None
        else jsmn_primitive_loop fuel js len (u32 (p + 1))
      else Ok (Some p)
  end.

Abbreviation pstate := (Z * jsmn_parser * option (list jsmntok_t))%type.

Definition jsmn_parse_primitive (p : jsmn_parser) (js : list Z) (len : Z)
    (tokens : option (list jsmntok_t)) (num_tokens : Z) : outcome pstate :=
  let start := s32 (pos p) in
  let! found := jsmn_primitive_loop (S (Z.to_nat len)) js len (pos p) in
  match found with
  | None => Ok (JSMN_ERROR_INVAL, set_pos p (u32 start), tokens)
  | Some q =>
      match tokens with
      | None => Ok (0, set_pos p (u32 (q - 1)), None)
      | Some toks =>
          let! a := jsmn_alloc_token (set_pos p q) toks num_tokens in
          match a with
          | None => Ok (JSMN_ERROR_NOMEM, set_pos p (u32 start), tokens)
          | Some (i, p', toks') =>
              let! toks'' := jsmn_fill_token toks' i JSMN_PRIMITIVE start (s32 q) in
              Ok (0, set_pos p' (u32 (q - 1)), Some toks'')
          end
      end
  end.

(** ** Strings *)

Definition is_hex (c : Z) : bool :=
  ((48 <=? c) && (c <=? 57)) || ((65 <=? c) && (c <=? 70)) || ((97 <=? c) && (c <=? 102)).

Definition is_escape (c : Z) : bool :=
  (c =? 34) || (c =? 47) || (c =? 92) || (c =? 98) || (c =? 102) || (c =? 114)
  || (c =? 110) || (c =? 116).

(** The loop over the four hexadecimal digits of a \u escape: [n] turns
    left; [None] when a character is not a digit. *)
Fixpoint jsmn_hex_loop (n : nat) (js : list Z) (len p : Z) : outcome (option Z) :=
  match n with
  | O => Ok (Some p)
  | S n =>
      if p <? len then
        let! c := rd js p in
        if c =? 0 then Ok (Some p)
        else if is_hex c then jsmn_hex_loop n js len (u32 (p + 1))
        else Ok None
      else Ok (Some p)
  end.

Inductive string_scan : Type :=
  | SQuote (p : Z)
  | SInval
  | SPart.

(** One turn of the loop at a character [c] that is not the quote: the
    position at the end of the body, [None] for JSMN_ERROR_INVAL. *)
Definition jsmn_string_char (js : list Z) (len p c : Z) : outcome (option Z) :=
  if (c =? 92) && (u32 (p + 1) <? len) then
    let p1 := u32 (p + 1) in
    let! e := rd js p1 in
    if is_escape e then Ok (Some p1)
    else if e =? 117 then
      let! h := jsmn_hex_loop 4 js len (u32 (p1 + 1)) in
      match h with
      | Some q => Ok (Some (u32 (q - 1)))
      | None => Ok None
      end
    else Ok None
  else Ok (Some p).

Fixpoint jsmn_string_loop (fuel : nat) (js : list Z) (len p : Z) : outcome string_scan :=
  match fuel with
  | O => NoFuel
  | S fuel =>
      if p <? len then
        let! c := rd js p in
        if c =? 0 then Ok SPart
        else if c =? 34 then Ok (SQuote p)
        else
          let! q := jsmn_string_char js len p c in
          match q with
          | None => Ok SInval
          | Some q => jsmn_string_loop fuel js len (u32 (q + 1))
          end
      else Ok SPart
  end.

Definition jsmn_parse_string (p : jsmn_parser) (js : list Z) (len : Z)
    (tokens : option (list jsmntok_t)) (num_tokens : Z) : outcome pstate :=
  let start := s32 (pos p) in
  let! scan := jsmn_string_loop (S (Z.to_nat len)) js len (u32 (pos p + 1)) in
  match scan with
  | SInval => Ok (JSMN_ERROR_INVAL, set_pos p (u32 start), tokens)
  | SPart => Ok (JSMN_ERROR_PART, set_pos p (u32 start), tokens)
  | SQuote q =>
      match tokens with
      | None => Ok (0, set_pos p q, None)
      | Some toks =>
          let! a := jsmn_alloc_token (set_pos p q) toks num_tokens in
          match a with
          | None => Ok (JSMN_ERROR_NOMEM, set_pos p (u32 start), tokens)
          | Some (i, p', toks') =>
              let! toks'' := jsmn_fill_token toks' i JSMN_STRING (s32 (start + 1)) (s32 q) in
              Ok (0, p', Some toks'')
          end
      end
  end.

(** ** Brackets, commas and the end of the text *)

(** [tokens[i].start != -1 && tokens[i].end == -1] *)
Definition tok_open (t : jsmntok_t) : bool := negb (start t =? -1) && (tend t =? -1).

Definition is_container (t : jsmntok_t) : bool :=
  match type t with JSMN_OBJECT | JSMN_ARRAY => true | _ => false end.

(** The descending loops [for (i = n - 1; i >= 0; i--)] that stop at the
    first token satisfying [f]; [None] is [i == -1]. *)
Fixpoint find_down (f : jsmntok_t -> bool) (tokens : list jsmntok_t) (n : nat)
    : outcome (option Z) :=
  match n with
  | O => Ok None
  | S n =>
      let! t := rd tokens (Z.of_nat n) in
      if f t then Ok (Some (Z.of_nat n)) else find_down f tokens n
  end.

(** Result of a bracket or comma: an error code or the new state. *)
Definition jsmn_close (p : jsmn_parser) (toks : list jsmntok_t) (ty : jsmntype_t)
    : outcome (Z + jsmn_parser * list jsmntok_t) :=
  let! o := find_down tok_open toks (Z.to_nat (toknext p)) in
  match o with
  | None => Ok (inl JSMN_ERROR_INVAL)
  | Some i =>
      let! t := rd toks i in
      if decide (type t = ty) then
        let! toks' := wr toks i (Tok (type t) (start t) (s32 (pos p + 1)) (size t)) in
        (* the second loop starts at i, which is closed now *)
        let! o' := find_down tok_open toks' (S (Z.to_nat i)) in
        match o' with
        | None => Ok (inr (set_super p (-1), toks'))
        | Some j => Ok (inr (set_super p j, toks'))
        end
      else Ok (inl JSMN_ERROR_INVAL)
  end.

Definition jsmn_comma (p : jsmn_parser) (toks : list jsmntok_t) : outcome jsmn_parser :=
  if toksuper p =? -1 then Ok p
  else
    let! t := rd toks (toksuper p) in
    if is_container t then Ok p
    else
      let! o := find_down (fun t => is_container t && tok_open t) toks
                  (Z.to_nat (toknext p)) in
      match o with
      | None => Ok p
      | Some i => Ok (set_super p i)
      end.

(** ** The main loop *)

(** State of the loop: parser, tokens and [count]. *)
Record jstate : Type := JState {
  jp : jsmn_parser;
  jtoks : option (list jsmntok_t);
  jcount : Z;
}.

(** [if (parser->toksuper != -1 && tokens != NULL) tokens[toksuper].size++] *)
Definition super_incr (p : jsmn_parser) (tokens : option (list jsmntok_t))
    : outcome (option (list jsmntok_t)) :=
  match tokens with
  | None => Ok None
  | Some toks =>
      if toksuper p =? -1 then Ok (Some toks)
      else let! toks' := size_incr toks (toksuper p) in Ok (Some toks')
  end.

(** '{' and '['. *)
Definition jsmn_open (p : jsmn_parser) (toks : list jsmntok_t) (num_tokens : Z)
    (ty : jsmntype_t) : outcome (option (jsmn_parser * list jsmntok_t)) :=
  let! a := jsmn_alloc_token p toks num_tokens in
  match a with
  | None => Ok None
  | Some (i, p', toks') =>
      let! toks'' :=
        (if toksuper p' =? -1 then Ok toks' else size_incr toks' (toksuper p')) in
      let! t := rd toks'' i in
      let! toks3 := wr toks'' i (Tok ty (s32 (pos p')) (tend t) (size t)) in
      Ok (Some (set_super p' (s32 (toknext p' - 1)), toks3))
  end.

(** A string or a primitive that was parsed, then counted. *)
Definition jsmn_counted (r : outcome pstate) (count : Z) : outcome (Z * jstate + jstate) :=
  let! (ret, p, tokens) := r in
  if ret <? 0 then Ok (inl (ret, JState p tokens count))
  else
    let! tokens' := super_incr p tokens in
    Ok (inr (JState p tokens' (s32 (count + 1)))).

(** The switch of one turn at character [c]: [inl] returns from jsmn_parse,
    [inr] goes on to [parser->pos++]. *)
Definition jsmn_parse_char (js : list Z) (len num_tokens : Z) (st : jstate) (c : Z)
    : outcome (Z * jstate + jstate) :=
  let p := jp st in
  if (c =? 123) || (c =? 91) then
    let count := s32 (jcount st + 1) in
    match jtoks st with
    | None => Ok (inr (JState p None count))
    | Some toks =>
        let! o := jsmn_open p toks num_tokens (if c =? 123 then JSMN_OBJECT else JSMN_ARRAY) in
        match o with
        | None => Ok (inl (JSMN_ERROR_NOMEM, JState p (Some toks) count))
        | Some (p', toks') => Ok (inr (JState p' (Some toks') count))
        end
    end
  else if (c =? 125) || (c =? 93) then
    match jtoks st with
    | None => Ok (inr st)
    | Some toks =>
        let! r := jsmn_close p toks (if c =? 125 then JSMN_OBJECT else JSMN_ARRAY) in
        match r with
        | inl e => Ok (inl (e, st))
        | inr (p', toks') => Ok (inr (JState p' (Some toks') (jcount st)))
        end
    end
  else if c =? 34 then
    jsmn_counted (jsmn_parse_string p js len (jtoks st) num_tokens) (jcount st)
  else if is_space c then Ok (inr st)
  else if c =? 58 then
    Ok (inr (JState (set_super p (s32 (toknext p - 1))) (jtoks st) (jcount st)))
  else if c =? 44 then
    match jtoks st with
    | None => Ok (inr st)
    | Some toks =>
        let! p' := jsmn_comma p toks in
        Ok (inr (JState p' (Some toks) (jcount st)))
    end
  else
    jsmn_counted (jsmn_parse_primitive p js len (jtoks st) num_tokens) (jcount st).

(** After the loop: an open token is JSMN_ERROR_PART, else the count. *)
Definition jsmn_finish (st : jstate) : outcome Z :=
  match jtoks st with
  | None => Ok (jcount st)
  | Some toks =>
      let! o := find_down tok_open toks (Z.to_nat (toknext (jp st))) in
      match o with
      | Some _ => Ok JSMN_ERROR_PART
      | None => Ok (jcount st)
      end
  end.

Definition jstate_next (st : jstate) : jstate :=
  JState (set_pos (jp st) (u32 (pos (jp st) + 1))) (jtoks st) (jcount st).

Fixpoint jsmn_loop (fuel : nat) (js : list Z) (len num_tokens : Z) (st : jstate)
    : outcome (Z * jstate) :=
  match fuel with
  | O => NoFuel
  | S fuel =>
      if pos (jp st) <? len then
        let! c := rd js (pos (jp st)) in
        if c =? 0 then let! r := jsmn_finish st in Ok (r, st)
        else
          let! r := jsmn_parse_char js len num_tokens st c in
          match r with
          | inl ret => Ok ret
          | inr st' => jsmn_loop fuel js len num_tokens (jstate_next st')
          end
      else let! r := jsmn_finish st in Ok (r, st)
  end.

(** jsmn_parse: its return value and the parser and tokens it leaves. *)
Definition jsmn_parse (p : jsmn_parser) (js : list Z) (len : Z)
    (tokens : option (list jsmntok_t)) (num_tokens : Z)
    : outcome (Z * jsmn_parser * option (list jsmntok_t)) :=
  let! (r, st) :=
    jsmn_loop (S (Z.to_nat len)) js len num_tokens (JState p tokens (s32 (toknext p))) in
  Ok (r, jp st, jtoks st).

(** ** Specifications of the scanning loops *)

Section Scan.
Context (js : list Z) (len : Z).
Hypothesis Hlen : 0 <= len < 2 ^ 31.
Hypothesis Hjs : len <= Z.of_nat (length js).

Lemma primitive_loop_spec fuel p :
  0 <= p <= len -> len - p < Z.of_nat fuel ->
  wp (jsmn_primitive_loop fuel js len p)
     (fun o => match o with
               | Some q => p <= q <= len /\
                   (forall c, p < len -> js !! Z.to_nat p = Some c -> c <> 0 ->
                      is_prim_end c = false -> p < q)
               | None => True
               end).
Proof.
  revert p. induction fuel as [|fuel IH]; intros p Hp Hf; [lia|]. simpl.
  destruct (Z.ltb_spec p len); [|split; [lia|intros; lia]].
  wpr. intros c Hc.
  destruct (Z.eqb_spec c 0) as [->|]; [split; [lia|congruence]|].
  destruct (is_prim_end c) eqn:E; [split; [lia|congruence]|].
  destruct ((c <? 32) || (127 <=? c)); [done|].
  rewrite u32_small by lia.
  eapply wp_mono; [apply IH; lia|].
  intros [q|]; [|done]. intros [??]. split; lia.
Qed.

Lemma hex_loop_spec n p :
  0 <= p <= len ->
  wp (jsmn_hex_loop n js len p)
     (fun o => match o with Some q => p <= q <= len | None => True end).
Proof.
  revert p. induction n as [|n IH]; intros p Hp; simpl; [lia|].
  destruct (Z.ltb_spec p len); [|simpl; lia].
  wpr. intros c Hc.
  destruct (c =? 0); [simpl; lia|]. destruct (is_hex c); [|done].
  rewrite u32_small by lia.
  eapply wp_mono; [apply IH; lia|]. intros [q|]; [|done]. lia.
Qed.

Lemma string_char_spec p c :
  0 <= p < len ->
  wp (jsmn_string_char js len p c)
     (fun o => match o with Some q => p <= q < len | None => True end).
Proof.
  intros Hp. unfold jsmn_string_char. rewrite !(u32_small (p + 1)) by lia.
  destruct (c =? 92); cbn [andb]; [|simpl; lia].
  destruct (Z.ltb_spec (p + 1) len); [|simpl; lia].
  wpr. intros e He. destruct (is_escape e); [simpl; lia|].
  destruct (e =? 117); [|done].
  rewrite u32_small by lia.
  eapply wp_bind_mono; [apply hex_loop_spec; lia|].
  intros [q|]; simpl; [|done]. intros. rewrite u32_small; lia.
Qed.

Lemma string_loop_spec fuel p :
  0 <= p <= len -> len - p < Z.of_nat fuel ->
  wp (jsmn_string_loop fuel js len p)
     (fun r => match r with SQuote q => p <= q < len | _ => True end).
Proof.
  revert p. induction fuel as [|fuel IH]; intros p Hp Hf; [lia|]. simpl.
  destruct (Z.ltb_spec p len); [|done].
  wpr. intros c Hc.
  destruct (c =? 0); [done|]. destruct (c =? 34); [simpl; lia|].
  eapply wp_bind_mono; [apply string_char_spec; lia|].
  intros [q|]; [|done]. intros Hq. rewrite u32_small by lia.
  eapply wp_mono; [apply IH; lia|]. intros [?| |]; simpl; try done. lia.
Qed.
End Scan.

(** ** The token array: what holds of the tokens in use *)

(** A token that lies before position [P] of the text: it starts before [P],
    and it is an open container or ends at or before [P]. *)
Definition tok_ok (P : Z) (t : jsmntok_t) : Prop :=
  0 <= start t < P /\
  ((tend t = -1 /\ is_container t = true) \/ start t <= tend t <= P).

(** Two tokens in allocation order: the second starts later, and lies after
    the first or inside it. *)
Definition nested (t1 t2 : jsmntok_t) : Prop :=
  start t1 < start t2 /\
  (tend t1 = -1 \/ tend t1 <= start t2 \/ (tend t2 <> -1 /\ tend t2 <= tend t1)).

Definition toks_ok (P : Z) (l : list jsmntok_t) : Prop :=
  (forall i t, l !! i = Some t -> tok_ok P t) /\
  (forall i j t1 t2, (i < j)%nat -> l !! i = Some t1 -> l !! j = Some t2 -> nested t1 t2).

Lemma toks_ok_nil P : toks_ok P [].
Proof. split; intros *; rewrite lookup_nil; done. Qed.

Lemma toks_ok_mono P P' l : toks_ok P l -> P <= P' -> toks_ok P' l.
Proof.
  intros [H1 H2] HP. split; [|done]. intros i t Ht.
  destruct (H1 i t Ht) as [? [?|?]]; (split; [lia|]); [left; done|right; lia].
Qed.

Lemma toks_ok_snoc P P' l t :
  toks_ok P l -> P <= start t -> tok_ok P' t -> toks_ok P' (l ++ [t]).
Proof.
  intros [H1 H2] HP Ht. split.
  - intros i t' [Hi|[? Hi]]%lookup_app_Some.
    + destruct (H1 _ _ Hi) as [? H3]. destruct Ht as [Ht _]. split; [lia|].
      destruct H3 as [H3|H3]; [left; done|right; lia].
    + apply list_lookup_singleton_Some in Hi as [_ <-]. done.
  - intros i j t1 t2 Hij Hi Hj.
    apply lookup_app_Some in Hj as [Hj|[Hj1 Hj2]].
    + apply lookup_lt_Some in Hj as ?. rewrite lookup_app_l in Hi by lia. eauto.
    + apply list_lookup_singleton_Some in Hj2 as [? <-].
      rewrite lookup_app_l in Hi by lia.
      destruct (H1 _ _ Hi) as [? H3]. split; [lia|]. destruct H3 as [[??]|?]; lia.
Qed.

(** The invariant does not look at [size]. *)
Lemma toks_ok_size P l i t n :
  toks_ok P l -> l !! i = Some t ->
  toks_ok P (<[i := Tok (type t) (start t) (tend t) n]> l).
Proof.
  intros [H1 H2] Hi.
  assert (Hs : forall j t', <[i := Tok (type t) (start t) (tend t) n]> l !! j = Some t' ->
    exists t0, l !! j = Some t0 /\ type t0 = type t' /\ start t0 = start t' /\ tend t0 = tend t').
  { intros j t' [(-> & <- & ?)|[??]]%list_lookup_insert_Some; eauto 6. }
  split.
  - intros j t' (t0 & Hj & E1 & E2 & E3)%Hs. pose proof (H1 _ _ Hj) as Hok.
    unfold tok_ok, is_container in *. by rewrite <- E1, <- E2, <- E3.
  - intros j k t1 t2 Hjk (? & Hj & _ & E2 & E3)%Hs (? & Hk & _ & E5 & E6)%Hs.
    pose proof (H2 _ _ _ _ Hjk Hj Hk). unfold nested in *. by rewrite <- E2, <- E3, <- E5, <- E6.
Qed.

(** Closing the last open token at the end of the text read so far. *)
Lemma toks_ok_close P l i t :
  toks_ok P l -> l !! i = Some t -> tend t = -1 ->
  (forall j t', (i < j)%nat -> l !! j = Some t' -> tend t' <> -1) ->
  toks_ok (P + 1) (<[i := Tok (type t) (start t) (P + 1) (size t)]> l).
Proof.
  intros [H1 H2] Hi He Hlast. split.
  - intros j t' [(-> & <- & ?)|[? Hj]]%list_lookup_insert_Some.
    + destruct (H1 _ _ Hi). split; simpl; [lia|right; lia].
    + destruct (H1 _ _ Hj) as [? [?|?]]; (split; [lia|]); [left; done|right; lia].
  - intros j k t1 t2 Hjk [(-> & <- & ?)|[? Hj]]%list_lookup_insert_Some
      [(-> & <- & ?)|[? Hk]]%list_lookup_insert_Some; try lia.
    + destruct (H2 _ _ _ _ Hjk Hi Hk) as [? _]. split; simpl; [lia|].
      right; right. assert (tend t2 <> -1) by (by apply (Hlast k)).
      split; [done|]. destruct (H1 _ _ Hk) as [? [[? _]|?]]; [done|simpl; lia].
    + destruct (H2 _ _ _ _ Hjk Hj Hi) as [? [?|[?|?]]]; split; simpl; try lia.
    + eauto.
Qed.

(** ** The parser invariant and the steps that keep it *)

(** [toks_ok] of the tokens in use, and indices inside the array. *)
Record jinv (num P : Z) (p : jsmn_parser) (toks : list jsmntok_t) : Prop := JInv {
  jinv_len : Z.of_nat (length toks) = num;
  jinv_num : 0 <= num < 2 ^ 31;
  jinv_next : 0 <= toknext p <= num;
  jinv_super : -1 <= toksuper p < toknext p;
  jinv_toks : toks_ok P (take (Z.to_nat (toknext p)) toks);
}.

Lemma jinv_mono num P P' p toks : jinv num P p toks -> P <= P' -> jinv num P' p toks.
Proof. intros [] ?. split; eauto using toks_ok_mono. Qed.

Lemma jinv_set_pos num P p toks x : jinv num P p toks -> jinv num P (set_pos p x) toks.
Proof. by intros []. Qed.

Lemma jinv_set_super num P p toks x :
  jinv num P p toks -> -1 <= x < toknext p -> jinv num P (set_super p x) toks.
Proof. by intros []. Qed.

Lemma find_down_spec f toks n :
  (n <= length toks)%nat ->
  wp (find_down f toks n)
     (fun o => match o with
       | Some i => exists t, 0 <= i < Z.of_nat n /\ toks !! Z.to_nat i = Some t /\ f t = true /\
           (forall j t', (Z.to_nat i < j < n)%nat -> toks !! j = Some t' -> f t' = false)
       | None => forall j t', (j < n)%nat -> toks !! j = Some t' -> f t' = false
       end).
Proof.
  induction n as [|n IH]; intros Hn; [simpl; lia|]. cbn [find_down].
  apply wp_bind, wp_rd; [lia|]. rewrite Nat2Z.id. intros t Ht. destruct (f t) eqn:E.
  - exists t. rewrite Nat2Z.id. split; [lia|]. do 2 (split; [done|]). lia.
  - eapply wp_mono; [apply IH; lia|].
    assert (Hstep : forall j t', (j < S n)%nat -> toks !! j = Some t' ->
      f t' = false \/ (j < n)%nat).
    { intros j t' Hj Hjt. destruct (decide (j = n)) as [->|]; [left; congruence|right; lia]. }
    intros [i|].
    + intros (t' & ? & ? & ? & Hm). exists t'. split; [lia|]. do 2 (split; [done|]).
      intros j t2 Hj Hjt. destruct (Hstep j t2); [lia|done|done|]. apply (Hm j); [lia|done].
    + intros Hm j t2 Hj Hjt. destruct (Hstep j t2); [lia|done|done|]. by apply (Hm j).
Qed.

Lemma alloc_spec num P p toks :
  jinv num P p toks ->
  wp (jsmn_alloc_token p toks num)
     (fun a => match a with
       | None => toknext p = num
       | Some (i, p', toks') => i = toknext p /\ toknext p < num /\
           p' = Parser (pos p) (toknext p + 1) (toksuper p) /\
           exists ty, toks' = <[Z.to_nat i := Tok ty (-1) (-1) 0]> toks
       end).
Proof.
  intros []. unfold jsmn_alloc_token. destruct (Z.leb_spec num (toknext p)); [simpl; lia|].
  wpr. intros old Hold. wpw. rewrite u32_small by lia. simpl. eauto 6.
Qed.

Lemma take_insert_snoc {A} (l : list A) n x :
  (n < length l)%nat -> take (S n) (<[n := x]> l) = take n l ++ [x].
Proof.
  intros H. rewrite (take_S_r _ _ x) by (by apply list_lookup_insert_eq).
  by rewrite take_insert_ge by lia.
Qed.

(** A token allocated and then filled is appended to the tokens in use. *)
Lemma jinv_push num P P' p toks t x :
  jinv num P p toks -> toknext p < num -> P <= start t -> tok_ok P' t ->
  jinv num P' (Parser x (toknext p + 1) (toksuper p)) (<[Z.to_nat (toknext p) := t]> toks).
Proof.
  intros [] ???. split; simpl; rewrite ?length_insert; try lia.
  replace (Z.to_nat (toknext p + 1)) with (S (Z.to_nat (toknext p))) by lia.
  rewrite take_insert_snoc by lia. by eapply toks_ok_snoc.
Qed.

Lemma jinv_update num P p toks i t :
  jinv num P p toks -> (i < Z.to_nat (toknext p))%nat ->
  toks_ok P (<[i := t]> (take (Z.to_nat (toknext p)) toks)) ->
  jinv num P p (<[i := t]> toks).
Proof.
  intros [] ??. split; rewrite ?length_insert; try done.
  by rewrite take_insert_lt.
Qed.

Lemma size_incr_spec num P p toks i :
  jinv num P p toks -> 0 <= i < toknext p ->
  wp (size_incr toks i) (fun toks' => jinv num P p toks' /\
    exists t, toks !! Z.to_nat i = Some t /\
      toks' = <[Z.to_nat i := Tok (type t) (start t) (tend t) (s32 (size t + 1))]> toks).
Proof.
  intros H ?. pose proof H as []. unfold size_incr. wpr. intros t Ht.
  apply wp_wr; [lia|]. split; [|eauto]. apply jinv_update; [done|lia|].
  apply toks_ok_size; [done|]. rewrite lookup_take_lt by lia. done.
Qed.

Lemma super_incr_spec num P p toks :
  jinv num P p toks ->
  wp (super_incr p (Some toks)) (fun o => exists toks', o = Some toks' /\ jinv num P p toks').
Proof.
  intros H. pose proof H as []. simpl. destruct (Z.eqb_spec (toksuper p) (-1)); [simpl; eauto|].
  wpb size_incr_spec; [done|lia|]. simpl. naive_solver.
Qed.

Lemma open_spec num p toks ty :
  jinv num (pos p) p toks -> 0 <= pos p < 2 ^ 31 - 1 ->
  ty = JSMN_OBJECT \/ ty = JSMN_ARRAY ->
  wp (jsmn_open p toks num ty)
     (fun o => match o with
       | None => toknext p = num
       | Some (p', toks') => jinv num (pos p + 1) p' toks' /\ pos p' = pos p /\
           toknext p < num /\ toknext p' = toknext p + 1
       end).
Proof.
  intros H Hp Hty. pose proof H as []. unfold jsmn_open.
  wpb alloc_spec; [done|]. intros [[[i p'] toks']|]; [|done].
  intros (-> & Hlt & -> & ty0 & ->).
  set (t0 := Tok ty0 (-1) (-1) 0).
  eapply (wp_bind_mono _ _ _ (fun toks2 => exists toks3, jinv num (pos p) p toks3 /\
            toks2 = <[Z.to_nat (toknext p) := t0]> toks3)); simpl.
  { destruct (Z.eqb_spec (toksuper p) (-1)); [simpl; eauto|].
    unfold size_incr. apply wp_bind, wp_rd; [rewrite length_insert; lia|].
    rewrite list_lookup_insert_ne by lia. intros t Ht.
    apply wp_wr; [rewrite length_insert; lia|].
    rewrite list_insert_insert_ne by lia. eexists. split; [|done].
    apply jinv_update; [done|lia|]. apply toks_ok_size; [done|].
    rewrite lookup_take_lt by lia. done. }
  intros ? (toks3 & H3 & ->). pose proof H3 as [].
  apply wp_bind, wp_rd; [rewrite length_insert; lia|].
  rewrite list_lookup_insert_eq by lia. intros ? [= <-].
  apply wp_bind, wp_wr; [rewrite length_insert; lia|]. simpl.
  rewrite list_insert_insert_eq, !s32_small by lia.
  split; [|lia]. apply (jinv_set_super _ _ (Parser (pos p) (toknext p + 1) (toksuper p)));
    [|simpl; lia].
  eapply jinv_push; [done|lia|simpl; lia|]. split; simpl; [lia|]. left.
  by destruct Hty as [-> | ->].
Qed.

Lemma close_spec num p toks ty :
  jinv num (pos p) p toks -> 0 <= pos p < 2 ^ 31 - 1 ->
  wp (jsmn_close p toks ty)
     (fun r => match r with
       | inl e => e = JSMN_ERROR_INVAL
       | inr (p', toks') => jinv num (pos p + 1) p' toks' /\ pos p' = pos p /\
           toknext p' = toknext p
       end).
Proof.
  intros H Hp. pose proof H as []. unfold jsmn_close.
  eapply wp_bind_mono; [apply find_down_spec; lia|].
  intros [i|]; [|done]. intros (t & Hi & Ht & Hopen & Hlast).
  apply wp_bind. rewrite (rd_lookup _ _ t) by (lia || done). apply wp_ret.
  case_decide; [|done].
  apply wp_bind, wp_wr; [lia|].
  apply andb_true_iff in Hopen as [_ Hend%Z.eqb_eq].
  set (toks2 := <[_ := _]> toks).
  assert (H2 : jinv num (pos p + 1) p toks2).
  { apply jinv_update; [eapply jinv_mono; [done|lia]|lia|].
    rewrite s32_small by lia. apply toks_ok_close; [done| |done|].
    - by rewrite lookup_take_lt by lia.
    - intros j t' Hj [Hjt Hjn]%lookup_take_Some.
      pose proof (Hlast j t' ltac:(lia) Hjt) as Hcl. unfold tok_open in Hcl.
      destruct jinv_toks0 as [Hok _].
      destruct (Hok j t') as [? _]; [by rewrite lookup_take_lt by lia|].
      intros E. rewrite E in Hcl. destruct (Z.eqb_spec (start t') (-1)); [lia|done]. }
  eapply wp_bind_mono; [apply find_down_spec; subst toks2; rewrite length_insert; lia|].
  intros [j|].
  - intros (? & ? & _). simpl. split; [|done]. apply jinv_set_super; [done|lia].
  - intros _. simpl. split; [|done]. apply jinv_set_super; [done|lia].
Qed.

Lemma comma_spec num P p toks :
  jinv num P p toks ->
  wp (jsmn_comma p toks) (fun p' => jinv num P p' toks /\ pos p' = pos p /\
    toknext p' = toknext p).
Proof.
  intros H. pose proof H as []. unfold jsmn_comma.
  destruct (Z.eqb_spec (toksuper p) (-1)); [done|]. wpr. intros t Ht.
  destruct (is_container t); [done|].
  eapply wp_bind_mono; [apply find_down_spec; lia|].
  intros [i|]; [|done]. intros (? & ? & _). simpl. split; [|done].
  apply jinv_set_super; [done|lia].
Qed.

(** The specification of the two token parsers: an error code, or a token
    appended that ends the text read so far. *)
Definition pushed (num len : Z) (p : jsmn_parser) (r : pstate) : Prop :=
  let '(ret, p', o) := r in
  (ret = JSMN_ERROR_NOMEM /\ toknext p = num) \/ ret = JSMN_ERROR_INVAL \/ ret = JSMN_ERROR_PART \/
  (ret = 0 /\ exists toks', o = Some toks' /\ jinv num (pos p' + 1) p' toks' /\
     pos p <= pos p' < len /\ toknext p' = toknext p + 1 /\ toknext p < num).

Section Steps.
Context (js : list Z) (len num : Z).
Hypothesis Hlen : 0 <= len < 2 ^ 31.
Hypothesis Hjs : len <= Z.of_nat (length js).

Lemma fill_spec p toks q x ty st en P :
  jinv num (pos p) p toks -> pos p <= st -> tok_ok P (Tok ty st en 0) ->
  wp (let! a := jsmn_alloc_token (set_pos p q) toks num in
      match a with
      | None => Ok (JSMN_ERROR_NOMEM, set_pos p x, Some toks)
      | Some (i, p', toks') =>
          let! toks'' := jsmn_fill_token toks' i ty st en in
          Ok (0, p', Some toks'')
      end)
     (fun r => let '(ret, p', o) := r in
        (ret = JSMN_ERROR_NOMEM /\ toknext p = num) \/
        (ret = 0 /\ p' = Parser q (toknext p + 1) (toksuper p) /\ toknext p < num /\
         exists toks', o = Some toks' /\ jinv num P p' toks')).
Proof.
  intros H Hst Htok. pose proof H as [].
  wpb alloc_spec; [by apply jinv_set_pos|].
  intros [[[i p'] toks']|]; [|left; auto]. intros (-> & ? & -> & ty0 & ->); simpl in *.
  unfold jsmn_fill_token. apply wp_bind, wp_wr; [rewrite length_insert; lia|].
  right. do 3 (split; [done|]). rewrite list_insert_insert_eq. eexists; split; [done|].
  by eapply jinv_push.
Qed.

Lemma parse_string_spec p toks :
  jinv num (pos p) p toks -> 0 <= pos p < len ->
  wp (jsmn_parse_string p js len (Some toks) num) (pushed num len p).
Proof.
  intros H Hp. unfold jsmn_parse_string.
  rewrite !(s32_small (pos p)), !u32_small by lia.
  eapply wp_bind_mono; [apply (string_loop_spec js len); lia|].
  intros [q| |]; [|simpl; auto..]. intros Hq. rewrite !s32_small by lia.
  eapply wp_mono.
  { eapply (fill_spec p toks q _ _ _ _ (q + 1)); [done|simpl; lia|].
    split; simpl; [lia|right; lia]. }
  intros [[ret p'] o] [?|(-> & -> & ? & toks' & -> & ?)]; [left; done|].
  right; right; right. split; [done|]. simpl. eexists; split; [done|]. split; [done|lia].
Qed.

Lemma parse_primitive_spec p toks c :
  jinv num (pos p) p toks -> 0 <= pos p < len ->
  js !! Z.to_nat (pos p) = Some c -> c <> 0 -> is_prim_end c = false ->
  wp (jsmn_parse_primitive p js len (Some toks) num) (pushed num len p).
Proof.
  intros H Hp Hc ??. unfold jsmn_parse_primitive.
  rewrite !(s32_small (pos p)), !(u32_small (pos p)) by lia.
  eapply wp_bind_mono; [apply (primitive_loop_spec js len); lia|].
  intros [q|]; [|simpl; auto]. intros [Hq Hpq].
  specialize (Hpq c ltac:(lia) Hc ltac:(done) ltac:(done)).
  rewrite !s32_small, !u32_small by lia.
  set (m := jsmn_alloc_token _ _ _).
  assert (Hf : wp (let! a := m in match a with
      | None => Ok (JSMN_ERROR_NOMEM, set_pos p (pos p), Some toks)
      | Some (i, p', toks') =>
          let! toks'' := jsmn_fill_token toks' i JSMN_PRIMITIVE (pos p) q in
          Ok (0, p', Some toks'')
      end)
     (fun r => let '(ret, p', o) := r in
        (ret = JSMN_ERROR_NOMEM /\ toknext p = num) \/
        (ret = 0 /\ p' = Parser q (toknext p + 1) (toksuper p) /\ toknext p < num /\
         exists toks', o = Some toks' /\ jinv num q p' toks'))).
  { apply fill_spec; [done|lia|]. split; simpl; [lia|right; lia]. }
  revert Hf. destruct m as [[[[i p'] toks']|]| |]; simpl;
    [|by intros [?|[? _]]; [left|]|done..].
  destruct (jsmn_fill_token _ _ _ _ _) as [toks2| |]; simpl; [|done..].
  intros [[??]|(_ & -> & ? & toks3 & -> & Hinv)]; [done|].
  right; right; right. split; [done|]. eexists; split; [done|]. simpl.
  split; [|lia]. replace (q - 1 + 1) with q by lia. by apply jinv_set_pos.
Qed.

(** *** One turn of the main loop with a token array *)

Definition jst_inv (st : jstate) : Prop :=
  exists toks, jtoks st = Some toks /\ jinv num (pos (jp st)) (jp st) toks /\
    jcount st = toknext (jp st) /\ 0 <= pos (jp st).

Definition step_post (st : jstate) (r : Z * jstate + jstate) : Prop :=
  match r with
  | inl (ret, _) =>
      (ret = JSMN_ERROR_NOMEM /\ jcount st = num) \/ ret = JSMN_ERROR_INVAL \/
      ret = JSMN_ERROR_PART
  | inr st' => jst_inv (jstate_next st') /\ pos (jp st) <= pos (jp st') < len
  end.

Lemma jst_inv_next p toks n :
  jinv num (pos p + 1) p toks -> n = toknext p -> 0 <= pos p < 2 ^ 31 ->
  jst_inv (jstate_next (JState p (Some toks) n)).
Proof.
  intros Hinv -> Hp. exists toks. unfold jstate_next; simpl. rewrite u32_small by lia.
  split; [done|]. split; [by apply jinv_set_pos|lia].
Qed.

Lemma counted_post st r :
  jst_inv st -> pos (jp st) < len -> wp r (pushed num len (jp st)) ->
  wp (jsmn_counted r (jcount st)) (step_post st).
Proof.
  intros (toks & Ht & Hinv & Hc & Hpos) Hlt Hr. unfold jsmn_counted.
  eapply wp_bind_mono; [exact Hr|].
  intros [[ret p'] o] [[-> ?]|[->|[->|(-> & toks' & -> & Hinv' & Hp & Hn & ?)]]].
  1-3: simpl; rewrite ?Hc; auto.
  change (0 <? 0) with false. cbv iota.
  eapply wp_bind_mono; [by apply super_incr_spec|].
  intros ? (toks2 & -> & H2). pose proof Hinv as []. simpl. split; [|lia].
  apply jst_inv_next; [done| |lia]. rewrite s32_small by lia. lia.
Qed.

Lemma not_prim_end c :
  (c =? 93) = false -> (c =? 125) = false -> (c =? 58) = false -> (c =? 44) = false ->
  is_space c = false -> is_prim_end c = false.
Proof. unfold is_prim_end. by intros -> -> -> -> ->. Qed.

Lemma parse_char_spec st c :
  jst_inv st -> pos (jp st) < len ->
  js !! Z.to_nat (pos (jp st)) = Some c -> c <> 0 ->
  wp (jsmn_parse_char js len num st c) (step_post st).
Proof.
  intros Hst Hlt Hc H0. pose proof Hst as (toks & Ht & Hinv & Hcnt & Hpos).
  pose proof Hinv as [].
  assert (Hnext : forall p', pos p' = pos (jp st) -> toknext p' = toknext (jp st) ->
    forall toks', jinv num (pos p' + 1) p' toks' ->
    step_post st (inr (JState p' (Some toks') (jcount st)))).
  { intros p' Hp Hn toks' Hinv'. split; [|simpl; lia]. apply jst_inv_next; [done|lia|lia]. }
  unfold jsmn_parse_char. rewrite Ht.
  destruct (Z.eqb_spec c 123) as [->|]; simpl; [| destruct (Z.eqb_spec c 91) as [->|]; simpl].
  1-2: eapply wp_bind_mono; [apply open_spec; [done|lia|auto]|].
  1-2: intros [[p' toks']|]; [intros (? & Hp & ? & Hn); simpl | intros; left; split; [done|lia]].
  1-2: split; [|lia]; apply jst_inv_next; [by rewrite Hp|rewrite s32_small by lia; lia|lia].
  assert (Hcl : forall ty, wp (let! r := jsmn_close (jp st) toks ty in
      match r with
      | inl e => Ok (inl (e, st))
      | inr (p', toks') => Ok (inr (JState p' (Some toks') (jcount st)))
      end) (step_post st)).
  { intros ty. eapply wp_bind_mono; [apply close_spec; [done|lia]|].
    intros [?|[p' toks']]; [simpl; auto|]. intros (? & Hp & Hn). apply Hnext; try done.
    by rewrite Hp. }
  assert (Hsame : step_post st (inr st)).
  { destruct st as [p o cnt]. simpl in *. subst o. apply Hnext; try done.
    eapply jinv_mono; [done|lia]. }
  destruct (Z.eqb_spec c 125) as [->|]; simpl; [done|].
  destruct (Z.eqb_spec c 93) as [->|]; simpl; [done|].
  destruct (Z.eqb_spec c 34) as [->|].
  { apply counted_post; [done|done|]. apply parse_string_spec; [done|lia]. }
  destruct (is_space c) eqn:Esp; [done|].
  destruct (Z.eqb_spec c 58) as [->|].
  { apply Hnext; try done. rewrite s32_small by lia.
    apply jinv_set_super; [|lia]. eapply jinv_mono; [done|simpl; lia]. }
  destruct (Z.eqb_spec c 44) as [->|].
  { eapply wp_bind_mono; [by apply comma_spec|]. intros p' (? & Hp & ?).
    apply Hnext; try done. eapply jinv_mono; [done|lia]. }
  apply counted_post; [done|done|]. apply parse_primitive_spec with c; try done; try lia.
  apply not_prim_end; try by apply Z.eqb_neq. done.
Qed.
End Steps.

(** ** The main loop *)

(** The array after a successful parse: every token is closed inside the
    text, tokens start in order, and two of them are disjoint or nested. *)
Definition well_nested (len : Z) (l : list jsmntok_t) : Prop :=
  (forall i t, l !! i = Some t -> 0 <= start t <= tend t /\ tend t <= len) /\
  (forall i j t1 t2, (i < j)%nat -> l !! i = Some t1 -> l !! j = Some t2 ->
     start t1 < start t2 /\ (tend t1 <= start t2 \/ tend t2 <= tend t1)).

Definition loop_post (num len : Z) (r : Z * jstate) : Prop :=
  let '(ret, st) := r in
  ret = JSMN_ERROR_NOMEM \/ ret = JSMN_ERROR_INVAL \/ ret = JSMN_ERROR_PART \/
  (ret = toknext (jp st) /\ 0 <= ret <= num /\
   exists toks, jtoks st = Some toks /\ Z.of_nat (length toks) = num /\
     well_nested len (take (Z.to_nat ret) toks)).

Section Loop.
Context (js : list Z) (len num : Z).
Hypothesis Hlen : 0 <= len < 2 ^ 31.
Hypothesis Hjs : len <= Z.of_nat (length js).

Lemma finish_spec st :
  jst_inv num st -> pos (jp st) <= len ->
  wp (let! r := jsmn_finish st in Ok (r, st)) (loop_post num len).
Proof.
  intros (toks & Ht & Hinv & Hc & Hpos) Hle. pose proof Hinv as [].
  unfold jsmn_finish. rewrite Ht.
  apply wp_bind. eapply wp_bind_mono; [apply find_down_spec; lia|].
  intros [i|]; simpl; [auto|]. intros Hclosed. right; right; right.
  rewrite Hc. do 2 (split; [lia|]). exists toks. do 2 (split; [done|]).
  destruct jinv_toks0 as [H1 H2].
  assert (Hend : forall i t, take (Z.to_nat (toknext (jp st))) toks !! i = Some t -> tend t <> -1).
  { intros i t Hi. pose proof (H1 _ _ Hi) as [? _]. apply lookup_take_Some in Hi as [Hi ?].
    specialize (Hclosed i t ltac:(done) Hi). unfold tok_open in Hclosed.
    intros E. rewrite E in Hclosed. destruct (Z.eqb_spec (start t) (-1)); [lia|done]. }
  split.
  - intros i t Hi. pose proof (Hend _ _ Hi). destruct (H1 _ _ Hi) as [? [[? _]|?]]; lia.
  - intros i j t1 t2 Hij Hi Hj. pose proof (Hend _ _ Hi).
    destruct (H2 _ _ _ _ Hij Hi Hj) as [? [?|[?|?]]]; lia.
Qed.

Lemma loop_spec fuel st :
  jst_inv num st -> pos (jp st) <= len -> len - pos (jp st) < Z.of_nat fuel ->
  wp (jsmn_loop fuel js len num st) (loop_post num len).
Proof.
  revert st. induction fuel as [|fuel IH]; intros st Hst Hle Hf; [lia|]. simpl.
  pose proof Hst as (toks & Ht & Hinv & Hc & Hpos).
  destruct (Z.ltb_spec (pos (jp st)) len); [|by apply finish_spec].
  wpr. intros c Hjc. destruct (Z.eqb_spec c 0); [by apply finish_spec|].
  eapply wp_bind_mono; [by apply (parse_char_spec js len num)|].
  intros [[ret st']|st']; simpl.
  - intros [[? _]|[?|?]]; auto.
  - intros [Hst' Hp']. apply IH; [done| |]; simpl; rewrite u32_small by lia; lia.
Qed.

(** *** The counting mode: [tokens == NULL] *)

Definition lockstep (st sn : jstate) : Prop :=
  jtoks sn = None /\ pos (jp sn) = pos (jp st) /\ jcount sn = jcount st.

Lemma lockstep_next st sn : lockstep st sn -> lockstep (jstate_next st) (jstate_next sn).
Proof. intros (?&Hp&?). unfold lockstep, jstate_next; simpl. by rewrite Hp. Qed.

Lemma alloc_pos p toks i p' toks' :
  jsmn_alloc_token p toks num = Ok (Some (i, p', toks')) -> pos p' = pos p.
Proof.
  unfold jsmn_alloc_token. destruct (num <=? _); [done|]. intros H. obinv H. by simplify_eq.
Qed.

Lemma string_lockstep p pn toks numn ret p' o :
  pos pn = pos p ->
  jsmn_parse_string p js len (Some toks) num = Ok (ret, p', o) ->
  exists pn', (ret < 0 \/ ret = 0 /\ pos pn' = pos p') /\
    (ret = 0 \/ ret = JSMN_ERROR_NOMEM ->
     jsmn_parse_string pn js len None numn = Ok (0, pn', None)).
Proof.
  intros Hp. unfold jsmn_parse_string. rewrite Hp. intros H. obinv H. destruct a as [q| |].
  2-3: simplify_eq; eexists pn; split; [by left|intros [?|?]; done].
  exists (set_pos pn q). split; [|done].
  obinv H. destruct a as [[[i p1] toks1]|]; [|simplify_eq; by left].
  apply alloc_pos in E0. obinv H. simplify_eq. simpl in *. right. by rewrite ?E0.
Qed.

Lemma primitive_lockstep p pn toks numn ret p' o :
  pos pn = pos p ->
  jsmn_parse_primitive p js len (Some toks) num = Ok (ret, p', o) ->
  exists pn', (ret < 0 \/ ret = 0 /\ pos pn' = pos p') /\
    (ret = 0 \/ ret = JSMN_ERROR_NOMEM ->
     jsmn_parse_primitive pn js len None numn = Ok (0, pn', None)).
Proof.
  intros Hp. unfold jsmn_parse_primitive. rewrite Hp. intros H. obinv H. destruct a as [q|].
  2: simplify_eq; eexists pn; split; [by left|intros [?|?]; done].
  exists (set_pos pn (u32 (q - 1))). split; [|done].
  obinv H. destruct a as [[[i p1] toks1]|]; [|simplify_eq; by left].
  apply alloc_pos in E0. obinv H. simplify_eq. simpl in *. right. by rewrite ?E0.
Qed.

Definition char_locked (st sn : jstate) (c : Z) (r : Z * jstate + jstate) : Prop :=
  match r with
  | inr st' => exists sn', jsmn_parse_char js len 0 sn c = Ok (inr sn') /\ lockstep st' sn'
  | inl (ret, _) => ret = JSMN_ERROR_NOMEM ->
      exists sn', jsmn_parse_char js len 0 sn c = Ok (inr sn') /\
        jcount sn' = s32 (jcount st + 1)
  end.

Lemma counted_lockstep st sn c m n r :
  jcount sn = jcount st ->
  jsmn_parse_char js len 0 sn c = jsmn_counted n (jcount sn) ->
  (forall ret p' o, m = Ok (ret, p', o) -> exists pn',
     (ret < 0 \/ ret = 0 /\ pos pn' = pos p') /\
     (ret = 0 \/ ret = JSMN_ERROR_NOMEM -> n = Ok (0, pn', None))) ->
  jsmn_counted m (jcount st) = Ok r -> char_locked st sn c r.
Proof.
  intros Hcnt Hn Hm. unfold jsmn_counted. destruct m as [[[ret p'] o]| |]; simpl; [|done..].
  destruct (Hm _ _ _ eq_refl) as (pn' & Hret & Hnull).
  destruct (Z.ltb_spec ret 0).
  - intros [= <-]. intros ->. rewrite Hnull in Hn by auto. rewrite Hn. simpl.
    eexists; split; [done|]. simpl. by rewrite Hcnt.
  - destruct Hret as [?|[-> Hpos]]; [lia|]. intros Hr. obinv Hr. simplify_eq.
    simpl. rewrite Hn, Hnull by auto. simpl. eexists; split; [done|].
    split; [done|]. simpl. by rewrite Hcnt.
Qed.

Lemma open_pos p toks ty p' toks' :
  jsmn_open p toks num ty = Ok (Some (p', toks')) -> pos p' = pos p.
Proof.
  unfold jsmn_open. intros H. obinv H. destruct a as [[[i p1] toks1]|]; [|done].
  apply alloc_pos in E. obinv H. by simplify_eq.
Qed.

Lemma close_pos p toks ty p' toks' :
  jsmn_close p toks ty = Ok (inr (p', toks')) -> pos p' = pos p.
Proof.
  unfold jsmn_close. intros H. obinv H. destruct a as [i|]; [|done]. obinv H.
  case_decide; [|done]. obinv H. destruct a1; by simplify_eq.
Qed.

Lemma comma_pos p toks p' : jsmn_comma p toks = Ok p' -> pos p' = pos p.
Proof.
  unfold jsmn_comma. destruct (_ =? _); [by intros [= <-]|]. intros H. obinv H.
  destruct (is_container a); [by simplify_eq|]. obinv H. destruct a0; by simplify_eq.
Qed.

Lemma char_lockstep st sn c toks r :
  lockstep st sn -> jtoks st = Some toks ->
  jsmn_parse_char js len num st c = Ok r -> char_locked st sn c r.
Proof.
  intros (Hnull & Hp & Hcnt) Ht H. unfold jsmn_parse_char in H. rewrite Ht in H.
  assert (Hn : jsmn_parse_char js len 0 sn c = jsmn_parse_char js len 0 sn c) by done.
  unfold jsmn_parse_char in Hn at 2. rewrite Hnull in Hn.
  destruct ((c =? 123) || (c =? 91)).
  { obinv H. destruct a as [[p' toks']|]; simplify_eq.
    - eexists; split; [exact Hn|]. apply open_pos in E. split; [done|]. simpl.
      by rewrite E, Hp, Hcnt.
    - intros _. eexists; split; [exact Hn|]. simpl. by rewrite Hcnt. }
  destruct ((c =? 125) || (c =? 93)).
  { obinv H. destruct a as [?|[p' toks']]; simplify_eq.
    - intros ->. unfold jsmn_close in E. obinv E. destruct a; [|done]. obinv E.
      case_decide; [|done]. obinv E. by destruct a1.
    - eexists; split; [exact Hn|]. apply close_pos in E. split; [done|]. simpl.
      by rewrite E, Hp. }
  destruct (c =? 34); [|destruct (is_space c); [|destruct (c =? 58); [|destruct (c =? 44)]]].
  - eapply counted_lockstep; [done|exact Hn| |exact H].
    intros ret p' o Hm. by eapply string_lockstep.
  - simplify_eq. by exists sn.
  - simplify_eq. eexists; split; [exact Hn|]. done.
  - obinv H. simplify_eq. eexists; split; [exact Hn|]. apply comma_pos in E.
    split; [done|]. simpl. by rewrite E, Hp.
  - eapply counted_lockstep; [done|exact Hn| |exact H].
    intros ret p' o Hm. by eapply primitive_lockstep.
Qed.

(** *** Totality of the counting mode *)

(** The three error codes of jsmn.h. *)
Definition jsmn_error (ret : Z) : Prop :=
  ret = JSMN_ERROR_NOMEM \/ ret = JSMN_ERROR_INVAL \/ ret = JSMN_ERROR_PART.

Lemma jsmn_error_neg ret : jsmn_error ret -> ret < 0.
Proof. unfold jsmn_error, JSMN_ERROR_NOMEM, JSMN_ERROR_INVAL, JSMN_ERROR_PART. lia. Qed.

Definition null_inv (sn : jstate) : Prop :=
  jtoks sn = None /\ 0 <= jcount sn <= pos (jp sn).

Definition null_post (sn : jstate) (r : Z * jstate + jstate) : Prop :=
  match r with
  | inl (ret, _) => jsmn_error ret
  | inr sn' => jtoks sn' = None /\ pos (jp sn) <= pos (jp sn') < len /\
      jcount sn <= jcount sn' <= jcount sn + 1
  end.

Lemma null_counted sn m :
  null_inv sn -> pos (jp sn) < len ->
  wp m (fun r => let '(ret, p', o) := r in
          jsmn_error ret \/ ret = 0 /\ o = None /\ pos (jp sn) <= pos p' < len) ->
  wp (jsmn_counted m (jcount sn)) (null_post sn).
Proof.
  intros [Hn Hc] Hlt Hm. unfold jsmn_counted. eapply wp_bind_mono; [exact Hm|].
  intros [[ret p'] o] [Hr|(-> & -> & Hp)].
  - pose proof (jsmn_error_neg _ Hr). destruct (Z.ltb_spec ret 0); [done|lia].
  - simpl. rewrite s32_small by lia. split; [done|lia].
Qed.

Lemma null_char_spec sn c :
  null_inv sn -> pos (jp sn) < len ->
  js !! Z.to_nat (pos (jp sn)) = Some c -> c <> 0 ->
  wp (jsmn_parse_char js len 0 sn c) (null_post sn).
Proof.
  intros Hinv Hlt Hc H0. pose proof Hinv as [Hn Hcnt]. unfold jsmn_parse_char. rewrite Hn.
  assert (Hsame : null_post sn (inr sn)) by (split; [done|lia]).
  destruct (_ || _); [simpl; rewrite s32_small by lia; split; [done|simpl; lia]|].
  destruct (Z.eqb_spec c 125); [done|]. destruct (Z.eqb_spec c 93); [done|]. simpl.
  destruct (c =? 34).
  { apply null_counted; [done|done|]. unfold jsmn_parse_string.
    rewrite !u32_small by lia.
    eapply wp_bind_mono; [apply (string_loop_spec js len); lia|].
    intros [q| |]; simpl; [|intros _; left; unfold jsmn_error; tauto..].
    right. split; [done|]. split; [done|lia]. }
  destruct (is_space c) eqn:Esp; [done|]. destruct (Z.eqb_spec c 58); [split; [done|simpl; lia]|].
  destruct (Z.eqb_spec c 44); [done|].
  apply null_counted; [done|done|]. unfold jsmn_parse_primitive.
  eapply wp_bind_mono; [apply (primitive_loop_spec js len); lia|].
  intros [q|]; [|by left; right; left]. intros [Hq Hpq]. right. do 2 (split; [done|]).
  assert (pos (jp sn) < q).
  { apply (Hpq c); try done. apply not_prim_end; try by apply Z.eqb_neq. done. }
  simpl. rewrite u32_small; lia.
Qed.

Lemma null_loop_spec fuel sn :
  null_inv sn -> pos (jp sn) <= len -> len - pos (jp sn) < Z.of_nat fuel ->
  wp (jsmn_loop fuel js len 0 sn)
     (fun r => jsmn_error (fst r) \/ (jcount sn <= fst r <= len)).
Proof.
  revert sn. induction fuel as [|fuel IH]; intros sn Hinv Hle Hf; [lia|]. simpl.
  pose proof Hinv as [Hn Hc]. unfold jsmn_finish. rewrite Hn.
  destruct (Z.ltb_spec (pos (jp sn)) len); [|simpl; lia].
  wpr. intros c Hjc. destruct (Z.eqb_spec c 0); [simpl; lia|].
  eapply wp_bind_mono; [by apply null_char_spec|].
  intros [[ret sn']|sn']; simpl; [by left|]. intros (? & ? & ?).
  assert (pos (jp (jstate_next sn')) = pos (jp sn') + 1) as E
    by (simpl; rewrite u32_small; lia).
  eapply wp_mono; [apply IH|]; rewrite ?E; try lia.
  - split; [done|]. rewrite E. simpl. lia.
  - intros [r ?]; simpl. intros [?|?]; [by left|right; lia].
Qed.

(** The counting pass and the filling pass over the same text. *)
Lemma loop_lockstep fuel st sn r st' n sn' :
  jst_inv num st -> null_inv sn -> lockstep st sn -> pos (jp st) <= len ->
  len - pos (jp st) < Z.of_nat fuel ->
  jsmn_loop fuel js len num st = Ok (r, st') ->
  jsmn_loop fuel js len 0 sn = Ok (n, sn') ->
  (0 <= r -> n = r) /\ (0 <= n <= num -> r <> JSMN_ERROR_NOMEM).
Proof.
  revert st sn. induction fuel as [|fuel IH]; intros st sn Hst Hsn Hl Hle Hf Hr Hn; [done|].
  simpl in Hr, Hn. pose proof Hl as (Hnull & Hp & Hcnt).
  pose proof Hst as (toks & Ht & Hinv & Hc & Hpos).
  assert (Hfin : forall r st', (let! r := jsmn_finish st in Ok (r, st)) = Ok (r, st') ->
    forall n sn', (let! r := jsmn_finish sn in Ok (r, sn)) = Ok (n, sn') ->
    (0 <= r -> n = r) /\ (0 <= n <= num -> r <> JSMN_ERROR_NOMEM)).
  { unfold jsmn_finish. rewrite Ht, Hnull, Hcnt. intros r0 ? H0 n0 ? [= <- <-].
    pose proof Hinv as []. obinv H0. obinv E. destruct a0; simplify_eq; [by split|].
    split; [done|]. intros _. unfold JSMN_ERROR_NOMEM. lia. }
  rewrite Hp in Hn. destruct (Z.ltb_spec (pos (jp st)) len); [|by eapply Hfin].
  obinv Hr. simpl in Hn. destruct (Z.eqb_spec a 0); [by eapply Hfin|].
  apply rd_inv in E as [_ Hjc].
  pose proof (parse_char_spec js len num Hlen Hjs st a Hst ltac:(lia) Hjc ltac:(done)) as Hsp.
  assert (Hnp : wp (jsmn_parse_char js len 0 sn a) (null_post sn))
    by (apply null_char_spec; rewrite ?Hp; done).
  obinv Hr. pose proof (char_lockstep _ _ _ _ _ Hl Ht E) as Hlk.
  destruct a0 as [[ret st1]|st1]; simpl in *.
  - simplify_eq.
    destruct (decide (r = JSMN_ERROR_NOMEM)) as [->|Hne].
    + split; [done|]. intros Hrange _. destruct (Hlk eq_refl) as (sn1 & Hs1 & Hc1).
      rewrite Hs1 in Hn, Hnp. destruct Hsp as [[_ Hfull]|[?|?]]; [|done..].
      destruct Hnp as (? & ? & ?). destruct Hsn as [_ ?]. simpl in Hn.
      rewrite s32_small in Hc1 by lia.
      assert (Hbig : wp (jsmn_loop fuel js len 0 (jstate_next sn1))
                (fun r => jsmn_error (fst r) \/ (jcount (jstate_next sn1) <= fst r <= len))).
      { apply null_loop_spec; [split|..]; simpl; rewrite ?u32_small by lia; try done; lia. }
      rewrite Hn in Hbig. simpl in Hbig. destruct Hbig as [Hbig%jsmn_error_neg|Hbig]; lia.
    + split; [|done]. unfold JSMN_ERROR_NOMEM, JSMN_ERROR_INVAL, JSMN_ERROR_PART in *. lia.
  - destruct Hlk as (sn1 & Hs1 & Hl1). rewrite Hs1 in Hn, Hnp. simpl in Hn, Hnp.
    destruct Hsp as [Hst1 Hp1]. destruct Hnp as (? & ? & ?). destruct Hsn as [_ ?].
    eapply (IH (jstate_next st1) (jstate_next sn1)); try done.
    + split; [done|]. simpl. rewrite u32_small by lia. lia.
    + by apply lockstep_next.
    + simpl. rewrite u32_small by lia. lia.
    + simpl. rewrite u32_small by lia. lia.
Qed.
End Loop.

(** ** The parser on a fresh parser *)

Lemma jst_inv_init num toks :
  Z.of_nat (length toks) = num -> num < 2 ^ 31 ->
  jst_inv num (JState jsmn_init (Some toks) (s32 (toknext jsmn_init))).
Proof.
  intros Hl Hn. exists toks. split; [done|]. split; [|done].
  split; simpl; try lia. apply toks_ok_nil.
Qed.

Lemma jsmn_parse_spec js len toks num :
  0 <= len < 2 ^ 31 -> len <= Z.of_nat (length js) ->
  Z.of_nat (length toks) = num -> num < 2 ^ 31 ->
  wp (jsmn_parse jsmn_init js len (Some toks) num)
     (fun r => let '(ret, p, o) := r in
        ret = JSMN_ERROR_NOMEM \/ ret = JSMN_ERROR_INVAL \/ ret = JSMN_ERROR_PART \/
        (ret = toknext p /\ 0 <= ret <= num /\
         exists toks', o = Some toks' /\ Z.of_nat (length toks') = num /\
           well_nested len (take (Z.to_nat ret) toks'))).
Proof.
  intros Hlen Hjs Hl Hn. unfold jsmn_parse.
  eapply wp_bind_mono; [eapply (loop_spec js len num)|].
  - exact Hlen.
  - exact Hjs.
  - by apply jst_inv_init.
  - simpl; lia.
  - simpl; lia.
  - intros [ret st]. simpl. naive_solver.
Qed.

Lemma jsmn_count_spec js len :
  0 <= len < 2 ^ 31 -> len <= Z.of_nat (length js) ->
  wp (jsmn_parse jsmn_init js len None 0)
     (fun r => let '(ret, p, o) := r in jsmn_error ret \/ 0 <= ret <= len).
Proof.
  intros Hlen Hjs. unfold jsmn_parse. eapply wp_bind_mono; [eapply (null_loop_spec js len)|].
  - exact Hlen.
  - exact Hjs.
  - by split.
  - simpl; lia.
  - simpl; lia.
  - intros [ret st]. simpl. intros [?|H]; [by left|right; change (s32 0) with 0 in H; lia].
Qed.

(** ** Properties *)

(** C25: jsmn_parse is memory safe and terminates. On a text of which [len]
    characters exist and a token array of [num] entries (or NULL), a fresh
    parser never reads outside the text, never reads or writes a token
    outside the array, and returns one of the three error codes or a count
    between 0 and the number of tokens (of characters, with NULL). *)
Theorem jsmn_parse_safe js len toks num :
  0 <= len < 2 ^ 31 -> len <= Z.of_nat (length js) ->
  Z.of_nat (length toks) = num -> num < 2 ^ 31 ->
  (exists ret p o, jsmn_parse jsmn_init js len (Some toks) num = Ok (ret, p, o) /\
     (ret = JSMN_ERROR_NOMEM \/ ret = JSMN_ERROR_INVAL \/ ret = JSMN_ERROR_PART \/
      0 <= ret <= num)) /\
  (exists ret p o, jsmn_parse jsmn_init js len None 0 = Ok (ret, p, o) /\
     (ret = JSMN_ERROR_NOMEM \/ ret = JSMN_ERROR_INVAL \/ ret = JSMN_ERROR_PART \/
      0 <= ret <= len)).
Proof.
  intros Hlen Hjs Hl Hn. split.
  - pose proof (jsmn_parse_spec js len toks num Hlen Hjs Hl Hn) as H.
    apply wp_ok in H as ([[ret p] o] & -> & H). exists ret, p, o. split; [done|]. intuition auto.
  - pose proof (jsmn_count_spec js len Hlen Hjs) as H.
    apply wp_ok in H as ([[ret p] o] & -> & H). exists ret, p, o. split; [done|].
    unfold jsmn_error in H. tauto.
Qed.

(** The text [{"a":[1]}] *)
Definition sample_text : list Z := [123; 34; 97; 34; 58; 91; 49; 93; 125].

Lemma jsmn_parse_safe_witness :
  let js := sample_text in let toks := replicate 4 (Tok JSMN_UNDEFINED 0 0 0) in
  (exists ret p o, jsmn_parse jsmn_init js 9 (Some toks) 4 = Ok (ret, p, o) /\
     (ret = JSMN_ERROR_NOMEM \/ ret = JSMN_ERROR_INVAL \/ ret = JSMN_ERROR_PART \/
      0 <= ret <= 4)) /\
  (exists ret p o, jsmn_parse jsmn_init js 9 None 0 = Ok (ret, p, o) /\ 
     (ret = JSMN_ERROR_NOMEM \/ ret = JSMN_ERROR_INVAL \/ ret = JSMN_ERROR_PART \/
      0 <= ret <= 9)).
Proof. apply (jsmn_parse_safe sample_text 9 (replicate 4 (Tok JSMN_UNDEFINED 0 0 0)) 4); simpl; lia. Defined.

(** C26: when jsmn_parse accepts a text, its result is the number of tokens
    filled, each token lies in the text and is closed, the tokens are in the
    order in which they start, and any two of them are disjoint or nested:
    the array is a forest in preorder. *)
Theorem jsmn_parse_well_nested js len toks num ret p o :
  0 <= len < 2 ^ 31 -> len <= Z.of_nat (length js) ->
  Z.of_nat (length toks) = num -> num < 2 ^ 31 ->
  jsmn_parse jsmn_init js len (Some toks) num = Ok (ret, p, o) -> 0 <= ret ->
  ret = toknext p /\ ret <= num /\
  exists toks', o = Some toks' /\ length toks' = length toks /\
    well_nested len (take (Z.to_nat ret) toks').
Proof.
  intros Hlen Hjs Hl Hn Hr Hret.
  pose proof (jsmn_parse_spec js len toks num Hlen Hjs Hl Hn) as H. rewrite Hr in H. simpl in H.
  unfold JSMN_ERROR_NOMEM, JSMN_ERROR_INVAL, JSMN_ERROR_PART in H.
  destruct H as [?|[?|[?|(? & ? & toks' & ? & ? & ?)]]]; [lia..|].
  split; [done|]. split; [lia|]. exists toks'. split; [done|]. split; [lia|done].
Qed.

Lemma jsmn_parse_well_nested_witness :
  exists p o, jsmn_parse jsmn_init sample_text 9
    (Some (replicate 4 (Tok JSMN_UNDEFINED 0 0 0))) 4 = Ok (4, p, o) /\ 4 = toknext p /\ 4 <= 4 /\
  exists toks', o = Some toks' /\ length toks' = 4%nat /\ well_nested 9 (take (Z.to_nat 4) toks').
Proof.
  eexists _, _. split; [vm_compute; reflexivity|].
  refine (jsmn_parse_well_nested sample_text 9 (replicate 4 (Tok JSMN_UNDEFINED 0 0 0)) 4 4 _ _
    _ _ _ _ _ _); [lia|simpl; lia|reflexivity|lia|vm_compute; reflexivity|lia].
Defined.

(** C27: the counting pass (tokens == NULL) predicts the filling pass: if
    filling succeeds it returns the number counted, and an array of at least
    that number of tokens never gives JSMN_ERROR_NOMEM. *)
Theorem jsmn_counting_pass js len toks num n pn on r p o :
  0 <= len < 2 ^ 31 -> len <= Z.of_nat (length js) ->
  Z.of_nat (length toks) = num -> num < 2 ^ 31 ->
  jsmn_parse jsmn_init js len None 0 = Ok (n, pn, on) ->
  jsmn_parse jsmn_init js len (Some toks) num = Ok (r, p, o) ->
  (0 <= r -> n = r) /\ (0 <= n <= num -> r <> JSMN_ERROR_NOMEM).
Proof.
  unfold jsmn_parse. intros Hlen Hjs Hl Hn Hnull Hr.
  obinv Hnull. obinv Hr. destruct a as [n' sn'], a0 as [r' st']. simplify_eq.
  eapply loop_lockstep; [exact Hlen|exact Hjs|by apply jst_inv_init| | | | |exact E0|exact E].
  - by split.
  - done.
  - simpl; lia.
  - simpl; lia.
Qed.

Lemma jsmn_counting_pass_witness :
  exists n pn on r p o,
  jsmn_parse jsmn_init sample_text 9 None 0 = Ok (n, pn, on) /\
  jsmn_parse jsmn_init sample_text 9 (Some (replicate 4 (Tok JSMN_UNDEFINED 0 0 0))) 4
    = Ok (r, p, o) /\
  (0 <= r -> n = r) /\ (0 <= n <= 4 -> r <> JSMN_ERROR_NOMEM).
Proof.
  do 6 eexists. split; [vm_compute; reflexivity|]. split; [vm_compute; reflexivity|].
  refine (jsmn_counting_pass sample_text 9 (replicate 4 (Tok JSMN_UNDEFINED 0 0 0)) 4
    _ _ _ _ _ _ _ _ _ _ _ _); [lia|simpl; lia|reflexivity|lia| |]; vm_compute; reflexivity.
Defined.
