(* ===== verification/JsmnTree.v ===== *)
(** * jsmn reads back what a JSON printer writes

    JSON trees, their text without white space, and the tokens jsmn.c is
    specified to produce for it: one per value and one per key, in preorder,
    with the bounds of each in the text and the number of its children. The
    parser of [Jsmn] is shown to return exactly these. *)

From S2P Require Import Prelude Jsmn.

(** ** JSON trees and their text *)

Inductive json : Type :=
  | JPrim (s : list Z)
  | JStr (s : list Z)
  | JArr (l : list json)
  | JObj (l : list (list Z * json)).

Section JsonInd.
Context (P : json -> Prop).
Hypothesis HPrim : forall s, P (JPrim s).
Hypothesis HStr : forall s, P (JStr s).
Hypothesis HArr : forall l, Forall P l -> P (JArr l).
Hypothesis HObj : forall l, Forall (fun f => P (snd f)) l -> P (JObj l).

Fixpoint json_tree_ind (v : json) : P v :=
  match v with
  | JPrim s => HPrim s
  | JStr s => HStr s
  | JArr l => HArr l ((fix go l := match l return Forall P l with
      | [] => Forall_nil_2 P
      | x :: r => Forall_cons_2 P x r (json_tree_ind x) (go r)
      end) l)
  | JObj l => HObj l ((fix go l := match l return Forall (fun f => P (snd f)) l with
      | [] => Forall_nil_2 _
      | x :: r => Forall_cons_2 _ x r (json_tree_ind (snd x)) (go r)
      end) l)
  end.
End JsonInd.

Definition quoted (s : list Z) : list Z := 34 :: s ++ [34].

Fixpoint join (ls : list (list Z)) : list Z :=
  match ls with
  | [] => []
  | x :: r => match r with [] => x | _ :: _ => x ++ 44 :: join r end
  end.

Fixpoint render (v : json) : list Z :=
  match v with
  | JPrim s => s
  | JStr s => quoted s
  | JArr l => 91 :: join (map render l) ++ [93]
  | JObj l => 123 :: join (map (fun f => quoted (fst f) ++ 58 :: render (snd f)) l) ++ [125]
  end.

(** The tokens of a tree printed at offset [off]. *)
Fixpoint tokens_of (off : Z) (v : json) : list jsmntok_t :=
  match v with
  | JPrim s => [Tok JSMN_PRIMITIVE off (off + zlen s) 0]
  | JStr s => [Tok JSMN_STRING (off + 1) (off + 1 + zlen s) 0]
  | JArr l =>
      Tok JSMN_ARRAY off (off + zlen (render (JArr l))) (zlen l) ::
      (fix els off l := match l with
       | [] => []
       | v :: r => tokens_of off v ++ els (off + zlen (render v) + 1) r
       end) (off + 1) l
  | JObj l =>
      Tok JSMN_OBJECT off (off + zlen (render (JObj l))) (zlen l) ::
      (fix fields off l := match l with
       | [] => []
       | f :: r =>
           Tok JSMN_STRING (off + 1) (off + 1 + zlen (fst f)) 1 ::
           tokens_of (off + zlen (fst f) + 3) (snd f) ++
           fields (off + zlen (fst f) + 3 + zlen (render (snd f)) + 1) r
       end) (off + 1) l
  end.

Fixpoint els (off : Z) (l : list json) : list jsmntok_t :=
  match l with
  | [] => []
  | v :: r => tokens_of off v ++ els (off + zlen (render v) + 1) r
  end.

Fixpoint fields (off : Z) (l : list (list Z * json)) : list jsmntok_t :=
  match l with
  | [] => []
  | f :: r =>
      Tok JSMN_STRING (off + 1) (off + 1 + zlen (fst f)) 1 ::
      tokens_of (off + zlen (fst f) + 3) (snd f) ++
      fields (off + zlen (fst f) + 3 + zlen (render (snd f)) + 1) r
  end.

Lemma tokens_of_arr off l :
  tokens_of off (JArr l) =
  Tok JSMN_ARRAY off (off + zlen (render (JArr l))) (zlen l) :: els (off + 1) l.
Proof. reflexivity. Qed.

Lemma tokens_of_obj off l :
  tokens_of off (JObj l) =
  Tok JSMN_OBJECT off (off + zlen (render (JObj l))) (zlen l) :: fields (off + 1) l.
Proof. reflexivity. Qed.

(** ** Well-formed trees *)

(** The body of a string: no quote, no NUL, escapes as JSON has them. *)
Fixpoint str_ok (s : list Z) : bool :=
  match s with
  | [] => true
  | c :: r =>
      if c =? 92 then
        match r with
        | [] => false
        | e :: r =>
            if is_escape e then str_ok r
            else if e =? 117 then
              match r with
              | h1 :: h2 :: h3 :: h4 :: r =>
                  is_hex h1 && is_hex h2 && is_hex h3 && is_hex h4 && str_ok r
              | _ => false
              end
            else false
        end
      else negb (c =? 0) && negb (c =? 34) && str_ok r
  end.

(** A primitive: printable, not empty, without the separators, and not
    starting as a string or a container does. *)
Definition prim_char (c : Z) : bool := (32 <? c) && (c <? 127) && negb (is_prim_end c).
Definition prim_ok (s : list Z) : bool :=
  match s with
  | [] => false
  | c :: _ => negb (c =? 34) && negb (c =? 91) && negb (c =? 123) && forallb prim_char s
  end.

Fixpoint json_ok (v : json) : bool :=
  match v with
  | JPrim s => prim_ok s
  | JStr s => str_ok s
  | JArr l => forallb json_ok l
  | JObj l => forallb (fun f => str_ok (fst f) && json_ok (snd f)) l
  end.

(** ** Pieces of a text *)

(** [s] is the text of [js] at offset [off]. *)
Definition sub (js : list Z) (off : Z) (s : list Z) : Prop :=
  0 <= off /\ forall i c, s !! i = Some c -> js !! (Z.to_nat off + i)%nat = Some c.

Lemma sub_app js off s1 s2 :
  sub js off (s1 ++ s2) <-> sub js off s1 /\ sub js (off + zlen s1) s2.
Proof.
  unfold sub, zlen. split.
  - intros [H0 H]. split; (split; [lia|]); intros i c Hi.
    + apply H. by apply lookup_app_l_Some.
    + replace (Z.to_nat (off + Z.of_nat (length s1)) + i)%nat
        with (Z.to_nat off + (length s1 + i))%nat by lia.
      apply H. rewrite lookup_app_r by lia. by replace (length s1 + i - length s1)%nat with i by lia.
  - intros [[H0 H1] [_ H2]]. split; [lia|]. intros i c [Hi|[Hle Hi]]%lookup_app_Some; [eauto|].
    apply H2 in Hi. rewrite <- Hi. f_equal. lia.
Qed.

Lemma sub_cons js off c s :
  sub js off (c :: s) <-> 0 <= off /\ js !! Z.to_nat off = Some c /\ sub js (off + 1) s.
Proof.
  change (c :: s) with ([c] ++ s). rewrite sub_app. unfold sub at 1. change (zlen [c]) with 1.
  split.
  - intros [[? H] ?]. split; [done|]. split; [|done]. specialize (H 0%nat c eq_refl).
    by rewrite Nat.add_0_r in H.
  - intros (? & H & ?). split; [|done]. split; [done|]. intros [|i] c'; [|done].
    rewrite Nat.add_0_r. simpl. congruence.
Qed.

Definition closed (l : list jsmntok_t) : Prop := Forall (fun t => tok_open t = false) l.

(** ** The last token that satisfies a test *)

Fixpoint flast (f : jsmntok_t -> bool) (l : list jsmntok_t) : option Z :=
  match l with
  | [] => None
  | t :: r =>
      match flast f r with
      | Some i => Some (i + 1)
      | None => if f t then Some 0 else None
      end
  end.

Lemma flast_app f l1 l2 :
  flast f (l1 ++ l2) =
  match flast f l2 with Some i => Some (zlen l1 + i) | None => flast f l1 end.
Proof.
  induction l1 as [|t l1 IH]; simpl.
  - by destruct (flast f l2).
  - rewrite IH. destruct (flast f l2); [|done]. rewrite zlen_cons. f_equal. lia.
Qed.

Lemma flast_none f l : Forall (fun t => f t = false) l -> flast f l = None.
Proof. induction 1 as [|t l Ht _ IH]; simpl; [done|]. by rewrite IH, Ht. Qed.

Lemma find_down_flast f l n :
  (n <= length l)%nat -> find_down f l n = Ok (flast f (take n l)).
Proof.
  induction n as [|n IH]; intros Hn; [done|]. cbn [find_down].
  destruct (lookup_lt_is_Some_2 l n) as [t Ht]; [lia|].
  rewrite (rd_lookup _ _ t) by (lia || by rewrite Nat2Z.id). simpl.
  rewrite (take_S_r _ _ _ Ht), flast_app, IH by lia. simpl.
  destruct (f t); [|done]. unfold zlen. rewrite length_take. do 2 f_equal. lia.
Qed.

(** ** Turns of the main loop *)

Definition incr_size (t : jsmntok_t) : jsmntok_t :=
  Tok (type t) (start t) (tend t) (s32 (size t + 1)).

(** The tokens in use after the parent [s] counts one more child. *)
Definition bump (s : Z) (l : list jsmntok_t) : list jsmntok_t :=
  if s =? -1 then l else alter incr_size (Z.to_nat s) l.

Lemma length_bump s l : length (bump s l) = length l.
Proof. unfold bump. destruct (s =? -1); [done|]. apply length_alter. Qed.

(** A state of the loop: [n] tokens in use, which is also the count. *)
Definition St (p n s : Z) (toks : list jsmntok_t) : jstate :=
  JState (Parser p n s) (Some toks) n.

Section Turns.
Context (js : list Z) (len num : Z).
Hypothesis Hlen : 0 <= len < 2 ^ 31.
Hypothesis Hnum : 0 <= num < 2 ^ 31.

Definition turn (st st' : jstate) : Prop :=
  exists c st1, pos (jp st) < len /\ 0 <= pos (jp st) /\ js !! Z.to_nat (pos (jp st)) = Some c /\
    c <> 0 /\ jsmn_parse_char js len num st c = Ok (inr st1) /\ st' = jstate_next st1.

Lemma turn_loop st st' :
  star turn st st' -> exists k, forall fuel,
    jsmn_loop (k + fuel) js len num st = jsmn_loop fuel js len num st'.
Proof.
  induction 1 as [st|st1 st2 st3 (c & s1 & Hlt & H0 & Hc & Hne & Hp & ->) _ [k IH]].
  - by exists O.
  - exists (S k). intros fuel. simpl. destruct (Z.ltb_spec (pos (jp st1)) len); [|lia].
    rewrite (rd_lookup _ _ _ H0 Hc). simpl. destruct (Z.eqb_spec c 0); [done|].
    rewrite Hp. simpl. apply IH.
Qed.

Definition stop (q : Z) : Prop :=
  q = len \/ exists c, js !! Z.to_nat q = Some c /\ (c = 0 \/ is_prim_end c = true).

Lemma stop_cons q c s : sub js q (c :: s) -> is_prim_end c = true -> stop q.
Proof. intros (? & ? & _)%sub_cons ?. right. eauto. Qed.

(** *** Scanning a string and a primitive *)

Lemma hex_loop_run p h1 h2 h3 h4 s :
  sub js p (h1 :: h2 :: h3 :: h4 :: s) -> p + 4 < len ->
  is_hex h1 = true -> is_hex h2 = true -> is_hex h3 = true -> is_hex h4 = true ->
  jsmn_hex_loop 4 js len p = Ok (Some (p + 4)).
Proof.
  intros (H0 & H1 & (_ & H2 & (_ & H3 & (_ & H4 & _)%sub_cons)%sub_cons)%sub_cons)%sub_cons Hp
    E1 E2 E3 E4.
  assert (Hstep : forall n q h, p <= q <= p + 3 -> js !! Z.to_nat q = Some h -> is_hex h = true ->
    jsmn_hex_loop (S n) js len q = jsmn_hex_loop n js len (q + 1)).
  { intros n q h Hq Hh Hx. cbn [jsmn_hex_loop]. destruct (Z.ltb_spec q len); [|lia].
    rewrite (rd_lookup _ _ h) by (lia || done). simpl.
    destruct (Z.eqb_spec h 0) as [->|]; [done|]. by rewrite Hx, u32_small by lia. }
  rewrite (Hstep _ _ h1), (Hstep _ _ h2), (Hstep _ _ h3), (Hstep _ _ h4) by (done || lia).
  simpl. do 2 f_equal. lia.
Qed.

Lemma string_loop_run n s p fuel :
  (length s <= n)%nat -> sub js p (s ++ [34]) -> str_ok s = true -> p + zlen s < len ->
  (length s < fuel)%nat ->
  jsmn_string_loop fuel js len p = Ok (SQuote (p + zlen s)).
Proof.
  revert s p fuel. induction n as [|n IH]; intros s p fuel Hn Hsub Hok Hp Hf.
  all: destruct fuel as [|fuel]; [lia|]; cbn [jsmn_string_loop].
  all: pose proof (zlen_nonneg s); destruct (Z.ltb_spec p len); [|lia].
  all: destruct s as [|c s]; [|try (simpl in Hn; lia)].
  1-2: apply sub_cons in Hsub as (? & Hc & _); rewrite (rd_lookup js p 34) by done; simpl.
  1-2: by rewrite zlen_nil, Z.add_0_r.
  rewrite <- app_comm_cons, sub_cons in Hsub. destruct Hsub as (Hp0 & Hc & Hsub).
  rewrite (rd_lookup _ _ _ Hp0 Hc). cbn [obind]. rewrite zlen_cons in *. simpl in Hok, Hn, Hf.
  unfold jsmn_string_char. rewrite (u32_small (p + 1)) by (pose proof (zlen_nonneg s); lia).
  destruct (Z.eqb_spec c 92) as [->|].
  2: { destruct (Z.eqb_spec c 0); [done|]. destruct (Z.eqb_spec c 34); [done|]. simpl in *.
       rewrite u32_small by (pose proof (zlen_nonneg s); lia).
       rewrite (IH s) by (done || lia). do 2 f_equal. lia. }
  destruct s as [|e s]; [done|]. rewrite zlen_cons in *. pose proof (zlen_nonneg s).
  rewrite <- app_comm_cons, sub_cons in Hsub. destruct Hsub as (_ & He & Hsub).
  destruct (Z.ltb_spec (p + 1) len); [|lia]. cbn [andb Z.eqb Pos.eqb].
  rewrite (rd_lookup _ _ e) by (lia || done). cbn [obind]. simpl in Hn, Hf.
  destruct (is_escape e).
  { cbn [obind]. rewrite u32_small by lia. rewrite (IH s) by (done || lia). do 2 f_equal. lia. }
  destruct (e =? 117); [|done].
  destruct s as [|h1 [|h2 [|h3 [|h4 s]]]]; try done.
  repeat (apply andb_true_iff in Hok as [Hok ?]).
  rewrite !zlen_cons in *. pose proof (zlen_nonneg s). rewrite u32_small by lia.
  rewrite (hex_loop_run _ h1 h2 h3 h4 (s ++ [34])) by (done || lia). cbn [obind].
  rewrite (u32_small (p + 1 + 1 + 4 - 1)), u32_small by lia. simpl in Hn, Hf.
  do 4 (rewrite <- app_comm_cons, sub_cons in Hsub; destruct Hsub as (_ & _ & Hsub)).
  rewrite (IH s); [do 2 f_equal; lia|lia| |done|lia|lia].
  replace (p + 1 + 1 + 4 - 1 + 1) with (p + 1 + 1 + 1 + 1 + 1 + 1) by lia. done.
Qed.

Lemma primitive_loop_run s p fuel :
  sub js p s -> forallb prim_char s = true -> p + zlen s <= len -> stop (p + zlen s) ->
  (length s < fuel)%nat ->
  jsmn_primitive_loop fuel js len p = Ok (Some (p + zlen s)).
Proof.
  revert p fuel. induction s as [|c s IH]; intros p fuel Hsub Hok Hp Hstop Hf;
    (destruct fuel as [|fuel]; [simpl in Hf; lia|]); cbn [jsmn_primitive_loop].
  - rewrite zlen_nil, Z.add_0_r in *. destruct Hsub as [H0 _].
    destruct (Z.ltb_spec p len); [|done]. destruct Hstop as [->|(c & Hc & Hstop)]; [lia|].
    rewrite (rd_lookup _ _ _ H0 Hc). simpl.
    destruct (Z.eqb_spec c 0); [done|]. by destruct Hstop as [?| ->].
  - rewrite zlen_cons in *. pose proof (zlen_nonneg s). apply sub_cons in Hsub as (H0 & Hc & Hsub).
    destruct (Z.ltb_spec p len); [|lia]. rewrite (rd_lookup _ _ _ H0 Hc). simpl in *.
    apply andb_true_iff in Hok as [Hc1 Hok]. unfold prim_char in Hc1.
    apply andb_true_iff in Hc1 as [Hc1 Hpe%negb_true_iff].
    destruct (Z.ltb_spec 32 c), (Z.ltb_spec c 127); try done.
    destruct (Z.eqb_spec c 0); [lia|]. rewrite Hpe.
    destruct (Z.ltb_spec c 32), (Z.leb_spec 127 c); try lia. simpl.
    rewrite u32_small by lia.
    replace (p + (zlen s + 1)) with (p + 1 + zlen s) in * by lia.
    apply IH; try done; lia.
Qed.

(** *** The operations on an array [done ++ rest] with [n] tokens in use *)

Definition super_ok (s n : Z) : Prop := s = -1 \/ 0 <= s < n.

Lemma size_incr_run l r s :
  0 <= s < zlen l -> size_incr (l ++ r) s = Ok (bump s l ++ r).
Proof.
  unfold zlen. intros Hs. unfold size_incr, bump. destruct (Z.eqb_spec s (-1)); [lia|].
  destruct (lookup_lt_is_Some_2 l (Z.to_nat s)) as [t Ht]; [lia|].
  rewrite (rd_lookup _ _ t) by (lia || by apply lookup_app_l_Some). simpl.
  rewrite wr_ok by (rewrite length_app; lia).
  rewrite insert_app_l by lia. do 2 f_equal.
  apply (list_insert_alter_Some _ _ incr_size t Ht).
Qed.

Lemma super_incr_run l r p n s :
  super_ok s (zlen l) -> super_incr (Parser p n s) (Some (l ++ r)) = Ok (Some (bump s l ++ r)).
Proof.
  intros Hs. simpl. destruct (Z.eqb_spec s (-1)) as [->|]; [done|].
  by rewrite size_incr_run by (destruct Hs; lia).
Qed.

Lemma alloc_run l r x p s n :
  zlen l = n -> n + 1 + zlen r = num ->
  jsmn_alloc_token (Parser p n s) (l ++ x :: r) num =
  Ok (Some (n, Parser p (n + 1) s, l ++ Tok (type x) (-1) (-1) 0 :: r)).
Proof.
  intros Hl Hn. unfold jsmn_alloc_token. simpl. pose proof (zlen_nonneg l).
  pose proof (zlen_nonneg r).
  destruct (Z.leb_spec num n); [lia|]. rewrite (rd_mid _ _ x) by done. simpl.
  rewrite (wr_mid _ _ x) by done. simpl. by rewrite u32_small by lia.
Qed.

Lemma turn_at p n s toks c r p' n' s' toks' :
  p < len -> sub js p (c :: r) -> c <> 0 ->
  jsmn_parse_char js len num (St p n s toks) c = Ok (inr (St (p' - 1) n' s' toks')) ->
  p <= p' - 1 < len -> turn (St p n s toks) (St p' n' s' toks').
Proof.
  intros Hp (H0 & Hc & _)%sub_cons Hne Hr Hp'. exists c, (St (p' - 1) n' s' toks').
  do 5 (split; [done|]). unfold jstate_next, St, set_pos. simpl. rewrite u32_small by lia.
  do 2 f_equal. lia.
Qed.

Lemma turn_string b p n s l x r :
  str_ok b = true -> sub js p (quoted b) -> p + zlen b + 2 <= len ->
  zlen l = n -> n + 1 + zlen r = num -> super_ok s n ->
  turn (St p n s (l ++ x :: r))
       (St (p + zlen b + 2) (n + 1) s
           (bump s l ++ Tok JSMN_STRING (p + 1) (p + 1 + zlen b) 0 :: r)).
Proof.
  intros Hb Hsub Hp Hl Hn Hs. pose proof (zlen_nonneg b). pose proof (zlen_nonneg l).
  pose proof (zlen_nonneg r).
  eapply turn_at; [lia|exact Hsub|done| |lia].
  unfold jsmn_parse_char, jsmn_counted, jsmn_parse_string.
  cbn -[jsmn_string_loop jsmn_alloc_token jsmn_fill_token super_incr s32 u32 Z.ltb Z.add Z.sub].
  assert (0 <= p) by apply Hsub.
  rewrite (s32_small p), (u32_small (p + 1)) by lia.
  assert (sub js (p + 1) (b ++ [34])) by (by apply sub_cons in Hsub as (_ & _ & ?)).
  rewrite (string_loop_run (length b) b (p + 1)) by (done || unfold zlen in *; lia).
  unfold set_pos. cbn [obind toknext toksuper]. rewrite alloc_run by done. cbn [obind].
  rewrite (s32_small (p + 1)), (s32_small (p + 1 + zlen b)) by lia.
  unfold jsmn_fill_token. rewrite (wr_mid _ _ _) by done. cbn [obind].
  change (0 <? 0) with false. cbv iota.
  rewrite super_incr_run by (by rewrite Hl). cbn [obind].
  unfold St. rewrite s32_small by lia. do 4 f_equal. lia.
Qed.

Lemma turn_prim b p n s l x r :
  prim_ok b = true -> sub js p b -> p + zlen b <= len -> stop (p + zlen b) ->
  zlen l = n -> n + 1 + zlen r = num -> super_ok s n ->
  turn (St p n s (l ++ x :: r))
       (St (p + zlen b) (n + 1) s
           (bump s l ++ Tok JSMN_PRIMITIVE p (p + zlen b) 0 :: r)).
Proof.
  intros Hb Hsub Hp Hstop Hl Hn Hs. destruct b as [|c b]; [done|].
  pose proof (zlen_nonneg b). pose proof (zlen_nonneg l). pose proof (zlen_nonneg r).
  unfold prim_ok in Hb. apply andb_true_iff in Hb as [Hc Hb].
  assert (Hc0 : prim_char c = true) by (simpl in Hb; by apply andb_true_iff in Hb as [? _]).
  unfold prim_char, is_prim_end in Hc0.
  repeat (apply andb_true_iff in Hc0 as [Hc0 ?]). apply andb_true_iff in Hc as [Hc ?%negb_true_iff].
  apply andb_true_iff in Hc as [?%negb_true_iff ?%negb_true_iff].
  destruct (Z.ltb_spec 32 c); [|done].
  match goal with H : negb _ = true |- _ => apply negb_true_iff in H; rename H into Hend end.
  repeat (apply orb_false_iff in Hend as [Hend ?]).
  eapply turn_at; [rewrite zlen_cons in *; lia|exact Hsub|lia| |rewrite zlen_cons in *; lia].
  unfold jsmn_parse_char, jsmn_counted, jsmn_parse_primitive. cbn [jp jtoks jcount St].
  repeat match goal with H : (c =? ?k) = false |- _ => rewrite H; clear H end.
  match goal with H : is_space c = false |- _ => rewrite H; clear H end. cbn [orb pos].
  assert (0 <= p) by apply Hsub.
  rewrite (s32_small p) by (rewrite zlen_cons in *; lia).
  rewrite (primitive_loop_run (c :: b) p) by (try done; unfold zlen in *; simpl in *; lia).
  unfold set_pos. cbn [obind toknext toksuper]. rewrite alloc_run by done.
  cbn [obind]. rewrite (s32_small (p + zlen (c :: b))) by (rewrite zlen_cons in *; lia).
  unfold jsmn_fill_token. rewrite (wr_mid _ _ _) by done. cbn [obind].
  change (0 <? 0) with false. cbv iota. cbn [toknext toksuper].
  rewrite super_incr_run by (by rewrite Hl). cbn [obind].
  unfold St. rewrite s32_small by lia. rewrite u32_small by (rewrite zlen_cons in *; lia). done.
Qed.

Definition container_type (c : Z) : jsmntype_t :=
  if (c =? 123) || (c =? 125) then JSMN_OBJECT else JSMN_ARRAY.

Lemma turn_open c q p n s l x r :
  c = 123 \/ c = 91 -> p < len -> sub js p (c :: q) ->
  zlen l = n -> n + 1 + zlen r = num -> super_ok s n ->
  turn (St p n s (l ++ x :: r))
       (St (p + 1) (n + 1) n (bump s l ++ Tok (container_type c) p (-1) 0 :: r)).
Proof.
  intros Hc Hp Hsub Hl Hn Hs. pose proof (zlen_nonneg l). pose proof (zlen_nonneg r).
  assert (0 <= p) by apply Hsub.
  eapply turn_at; [done|exact Hsub|lia| |lia]. rewrite Z.add_simpl_r.
  set (ty := container_type c).
  assert (Ho : jsmn_open (Parser p n s) (l ++ x :: r) num ty =
    Ok (Some (Parser p (n + 1) n, bump s l ++ Tok ty p (-1) 0 :: r))).
  { unfold jsmn_open. rewrite alloc_run by done. cbn [obind toksuper].
    assert (Hsi : (if s =? -1 then Ok (l ++ Tok (type x) (-1) (-1) 0 :: r)
        else size_incr (l ++ Tok (type x) (-1) (-1) 0 :: r) s) =
        Ok (bump s l ++ Tok (type x) (-1) (-1) 0 :: r)).
    { unfold bump at 1. destruct (Z.eqb_spec s (-1)) as [->|]; [done|].
      rewrite size_incr_run by (destruct Hs; lia). unfold bump.
      by destruct (Z.eqb_spec s (-1)). }
    rewrite Hsi. cbn [obind].
    assert (zlen (bump s l) = n) by (unfold zlen; rewrite length_bump; exact Hl).
    rewrite (rd_mid _ _ _) by done. cbn [obind]. rewrite (wr_mid _ _ _) by done. cbn.
    rewrite !s32_small by lia. do 4 f_equal. unfold set_super. simpl. f_equal; lia. }
  unfold jsmn_parse_char. cbn [jp jtoks jcount St]. rewrite s32_small by lia.
  destruct Hc as [-> | ->]; cbn -[jsmn_open]; unfold ty, container_type in Ho; simpl in Ho;
    rewrite Ho; done.
Qed.

Definition opt (o : option Z) : Z := match o with Some i => i | None => -1 end.

Lemma turn_close c q p n s base k inner off rest :
  c = 125 \/ c = 93 -> p < len -> sub js p (c :: q) ->
  zlen base + 1 + zlen inner = n -> 0 <= off ->
  closed inner ->
  turn (St p n s (base ++ Tok (container_type c) off (-1) k :: inner ++ rest))
       (St (p + 1) n (opt (flast tok_open base))
           (base ++ Tok (container_type c) off (p + 1) k :: inner ++ rest)).
Proof.
  intros Hc Hp Hsub Hn Hoff Hin. assert (0 <= p) by apply Hsub.
  pose proof (zlen_nonneg base). pose proof (zlen_nonneg inner).
  eapply turn_at; [done|exact Hsub|lia| |lia]. rewrite Z.add_simpl_r.
  set (ty := container_type c).
  assert (Hoff1 : (off =? -1) = false) by (apply Z.eqb_neq; lia).
  assert (Hcl : jsmn_close (Parser p n s) (base ++ Tok ty off (-1) k :: inner ++ rest) ty =
    Ok (inr (Parser p n (opt (flast tok_open base)),
             base ++ Tok ty off (p + 1) k :: inner ++ rest))).
  { unfold jsmn_close. cbn [toknext pos].
    rewrite find_down_flast by (rewrite length_app; simpl; rewrite length_app; unfold zlen in *; lia).
    replace (take (Z.to_nat n) _) with (base ++ Tok ty off (-1) k :: inner).
    2: { replace (base ++ _ :: inner ++ rest) with ((base ++ Tok ty off (-1) k :: inner) ++ rest)
           by (by rewrite <- app_assoc).
         rewrite take_app_length'; [done|]. rewrite length_app; simpl. unfold zlen in *; lia. }
    rewrite flast_app. simpl flast. rewrite (flast_none _ inner) by done.
    unfold tok_open at 1. cbn [start tend]. rewrite Hoff1. cbn [negb andb Z.eqb Pos.eqb].
    cbn [obind]. rewrite Z.add_0_r, rd_mid by done. cbn [obind type start size].
    destruct (decide (ty = ty)); [|done]. rewrite wr_mid by done. cbn [obind]. rewrite s32_small by lia.
    rewrite find_down_flast by (rewrite length_app; simpl; unfold zlen in *; lia).
    assert (take (S (Z.to_nat (zlen base))) (base ++ Tok ty off (p + 1) k :: inner ++ rest) =
            base ++ [Tok ty off (p + 1) k]) as ->.
    { unfold zlen. rewrite Nat2Z.id. rewrite take_app_ge by lia.
      replace (S (length base) - length base)%nat with 1%nat by lia. done. }
    rewrite flast_app. simpl. unfold tok_open at 1. simpl. rewrite Hoff1.
    destruct (Z.eqb_spec (p + 1) (-1)); [lia|]. simpl.
    by destruct (flast tok_open base). }
  unfold jsmn_parse_char. cbn [jp jtoks jcount St].
  destruct Hc as [-> | ->]; cbn -[jsmn_close]; unfold ty, container_type in Hcl; simpl in Hcl;
    rewrite Hcl; done.
Qed.

Lemma turn_colon q p n s toks :
  p < len -> sub js p (58 :: q) -> 0 <= n <= num ->
  turn (St p n s toks) (St (p + 1) n (n - 1) toks).
Proof.
  intros Hp Hsub Hn. assert (0 <= p) by apply Hsub.
  eapply turn_at; [done|exact Hsub|lia| |lia]. rewrite Z.add_simpl_r.
  unfold jsmn_parse_char. cbn -[s32]. rewrite s32_small by lia. done.
Qed.

(** At a comma the parent becomes the innermost open container again. *)
Lemma turn_comma q p n s base ty k inner off rest :
  p < len -> sub js p (44 :: q) -> zlen base + 1 + zlen inner = n -> 0 <= off ->
  ty = JSMN_OBJECT \/ ty = JSMN_ARRAY -> closed inner ->
  let toks := base ++ Tok ty off (-1) k :: inner in
  s = zlen base \/ (0 <= s < n /\ exists t, toks !! Z.to_nat s = Some t /\ is_container t = false) ->
  turn (St p n s (toks ++ rest)) (St (p + 1) n (zlen base) (toks ++ rest)).
Proof.
  intros Hp Hsub Hn Hoff Hty Hin toks Hs. assert (0 <= p) by apply Hsub.
  pose proof (zlen_nonneg base). pose proof (zlen_nonneg inner).
  assert (Hzl : zlen toks = n) by (subst toks; rewrite zlen_app, zlen_cons; lia).
  eapply turn_at; [done|exact Hsub|lia| |lia]. rewrite Z.add_simpl_r.
  assert (Hcm : jsmn_comma (Parser p n s) (toks ++ rest) = Ok (Parser p n (zlen base))).
  { unfold jsmn_comma. cbn [toksuper toknext]. destruct (Z.eqb_spec s (-1)); [lia|].
    destruct Hs as [->|[Hs (t & Ht & Hnc)]].
    - subst toks. rewrite <- app_assoc. simpl. rewrite rd_mid by done. simpl.
      by destruct Hty as [-> | ->].
    - rewrite (rd_lookup _ _ t) by (lia || by apply lookup_app_l_Some). simpl. rewrite Hnc.
      rewrite find_down_flast by (rewrite length_app; unfold zlen in *; lia).
      rewrite take_app_length' by (unfold zlen in *; lia).
      subst toks. rewrite flast_app. simpl.
      rewrite (flast_none _ inner) by (eapply Forall_impl; [|exact Hin];
        intros ? E; simpl; rewrite E; apply andb_false_r).
      unfold tok_open, is_container. simpl.
      destruct (Z.eqb_spec off (-1)); [lia|]. simpl.
      by destruct Hty as [-> | ->]; simpl; rewrite Z.add_0_r. }
  unfold jsmn_parse_char. cbn -[jsmn_comma]. rewrite Hcm. done.
Qed.

(** *** Trees *)

Definition fits (off : Z) (s : list Z) : Prop := sub js off s /\ off + zlen s <= len.

Lemma fits_app off s1 s2 : fits off (s1 ++ s2) -> fits off s1 /\ fits (off + zlen s1) s2.
Proof.
  unfold fits. rewrite zlen_app, sub_app. pose proof (zlen_nonneg s1).
  pose proof (zlen_nonneg s2). intros [[??]?]. split; (split; [done|lia]).
Qed.

Lemma fits_cons off c s : fits off (c :: s) -> sub js off (c :: s) /\ off < len /\ fits (off + 1) s.
Proof.
  intros [Hs ?]. pose proof (zlen_nonneg s). rewrite zlen_cons in *.
  split; [done|]. split; [lia|]. split; [|lia]. by apply sub_cons in Hs as (?&?&?).
Qed.

Definition after (v : json) (s : Z) (l : list jsmntok_t) : Z :=
  match v with JPrim _ | JStr _ => s | JArr _ | JObj _ => opt (flast tok_open l) end.

Definition runs_value (v : json) : Prop :=
  forall p n s l rest,
    json_ok v = true -> fits p (render v) -> stop (p + zlen (render v)) ->
    zlen l = n -> zlen (tokens_of p v) <= zlen rest -> n + zlen rest = num -> super_ok s n ->
    star turn (St p n s (l ++ rest))
      (St (p + zlen (render v)) (n + zlen (tokens_of p v)) (after v s (bump s l))
          (bump s l ++ tokens_of p v ++ drop (length (tokens_of p v)) rest)).

Lemma tok_closed ty st en k : 0 <= en -> tok_open (Tok ty st en k) = false.
Proof. intros. unfold tok_open. simpl. destruct (Z.eqb_spec en (-1)); [lia|]. apply andb_false_r. Qed.

Lemma els_closed_from l :
  Forall (fun v => forall off, 0 <= off -> closed (tokens_of off v)) l ->
  forall off, 0 <= off -> closed (els off l).
Proof.
  induction 1 as [|v l Hv _ IHl]; intros o Ho; simpl; [constructor|].
  pose proof (zlen_nonneg (render v)). apply Forall_app. split; [by apply Hv|apply IHl; lia].
Qed.

Lemma fields_closed_from l :
  Forall (fun f => forall off, 0 <= off -> closed (tokens_of off (snd f))) l ->
  forall off, 0 <= off -> closed (fields off l).
Proof.
  induction 1 as [|[b v] l Hv _ IHl]; intros o Ho; simpl; [constructor|].
  pose proof (zlen_nonneg b). pose proof (zlen_nonneg (render v)).
  constructor; [apply tok_closed; lia|]. apply Forall_app. split; [apply Hv|apply IHl]; simpl; lia.
Qed.

Lemma tokens_closed v : forall off, 0 <= off -> closed (tokens_of off v).
Proof.
  induction v as [b|b|l IH|l IH] using json_tree_ind; intros off Hoff.
  - pose proof (zlen_nonneg b). repeat constructor. apply tok_closed. lia.
  - pose proof (zlen_nonneg b). repeat constructor. apply tok_closed. lia.
  - rewrite tokens_of_arr. pose proof (zlen_nonneg (render (JArr l))).
    constructor; [apply tok_closed; lia|]. apply els_closed_from; [done|lia].
  - rewrite tokens_of_obj. pose proof (zlen_nonneg (render (JObj l))).
    constructor; [apply tok_closed; lia|]. apply fields_closed_from; [done|lia].
Qed.

Lemma tokens_closed_els l off : 0 <= off -> closed (els off l).
Proof. apply els_closed_from, Forall_true. intros v. apply tokens_closed. Qed.

Lemma tokens_closed_fields l off : 0 <= off -> closed (fields off l).
Proof. apply fields_closed_from, Forall_true. intros f. apply tokens_closed. Qed.

(** The container being filled: its token, open, after the tokens [base],
    followed by the closed tokens of the children read so far. *)
Definition filling (base : list jsmntok_t) ty off k inner : list jsmntok_t :=
  base ++ Tok ty off (-1) k :: inner.

Lemma zlen_filling base ty off k inner :
  zlen (filling base ty off k inner) = zlen base + 1 + zlen inner.
Proof. unfold filling. rewrite zlen_app, zlen_cons. lia. Qed.

Lemma bump_filling base ty off k inner :
  0 <= k < 2 ^ 31 - 1 ->
  bump (zlen base) (filling base ty off k inner) = filling base ty off (k + 1) inner.
Proof.
  intros Hk. pose proof (zlen_nonneg base). unfold bump.
  destruct (Z.eqb_spec (zlen base) (-1)); [lia|].
  unfold zlen. rewrite Nat2Z.id. unfold filling. rewrite alter_app_mid.
  unfold incr_size. simpl. by rewrite s32_small by lia.
Qed.

Lemma flast_filling base ty off k inner :
  0 <= off -> closed inner ->
  flast tok_open (filling base ty off k inner) = Some (zlen base).
Proof.
  intros Hoff Hin. unfold filling. rewrite flast_app. simpl. rewrite (flast_none _ inner) by done.
  unfold tok_open. simpl. destruct (Z.eqb_spec off (-1)); [lia|]. simpl. by rewrite Z.add_0_r.
Qed.

Lemma filling_app base ty off k inner l r :
  filling base ty off k (inner ++ l) ++ r = filling base ty off k inner ++ l ++ r.
Proof. unfold filling. by rewrite <- !app_assoc, <- !app_comm_cons, <- app_assoc. Qed.

Lemma after_filling v base ty off k inner :
  0 <= off -> closed inner ->
  after v (zlen base) (filling base ty off k inner) = zlen base.
Proof. intros. unfold after. rewrite flast_filling by done. by destruct v. Qed.

Lemma zlen_drop {A} (l : list A) n : zlen l >= Z.of_nat n -> zlen (drop n l) = zlen l - Z.of_nat n.
Proof. unfold zlen. rewrite length_drop. lia. Qed.

(** A value that is a direct child of the container being filled. *)
Lemma run_child v base off k inner rest p c r :
  runs_value v -> json_ok v = true -> fits p (render v ++ c :: r) -> is_prim_end c = true ->
  0 <= off -> closed inner -> 0 <= k < 2 ^ 31 - 1 ->
  zlen (tokens_of p v) <= zlen rest -> zlen base + 1 + zlen inner + zlen rest = num ->
  star turn
    (St p (zlen base + 1 + zlen inner) (zlen base)
       (filling base JSMN_ARRAY off k inner ++ rest))
    (St (p + zlen (render v)) (zlen base + 1 + zlen inner + zlen (tokens_of p v)) (zlen base)
       (filling base JSMN_ARRAY off (k + 1) (inner ++ tokens_of p v) ++
        drop (length (tokens_of p v)) rest)).
Proof.
  intros Hv Hok [Hfv Hft]%fits_app Hc Hoff Hin Hk Hrest Hnum'.
  pose proof (zlen_nonneg base). pose proof (zlen_nonneg inner).
  rewrite filling_app, <- bump_filling by done.
  rewrite <- (zlen_filling base JSMN_ARRAY off k inner) in *.
  set (D := filling base JSMN_ARRAY off k inner) in *.
  assert (Haft : after v (zlen base) (bump (zlen base) D) = zlen base)
    by (unfold D; rewrite bump_filling by done; by apply after_filling).
  assert (Hst : stop (p + zlen (render v))) by (apply (stop_cons _ c r); [apply Hft|done]).
  assert (Hs : super_ok (zlen base) (zlen D)) by (right; unfold D; rewrite zlen_filling; lia).
  pose proof (Hv p (zlen D) (zlen base) D rest Hok Hfv Hst eq_refl Hrest Hnum' Hs) as Hgo.
  rewrite Haft in Hgo. exact Hgo.
Qed.

Lemma run_els l base off : 0 <= off -> Forall runs_value l ->
  forall p k inner rest,
    forallb json_ok l = true ->
    fits p (join (map render l) ++ [93]) ->
    closed inner ->
    zlen (els p l) <= zlen rest ->
    zlen base + 1 + zlen inner + zlen rest = num -> 0 <= k -> k + zlen l < 2 ^ 31 ->
    let a := zlen base in
    let n := a + 1 + zlen inner in
    star turn (St p n a (filling base JSMN_ARRAY off k inner ++ rest))
      (St (p + zlen (join (map render l))) (n + zlen (els p l)) a
          (filling base JSMN_ARRAY off (k + zlen l) (inner ++ els p l) ++
           drop (length (els p l)) rest)).
Proof.
  intros Hoff HV. pose proof (zlen_nonneg base).
  induction HV as [|v l Hv HV IH]; intros p k inner rest Hok Hfit Hin Hrest Hnum' Hk Hk2 a n.
  { simpl. rewrite app_nil_r, !zlen_nil, !Z.add_0_r, drop_0. apply star_refl. }
  assert (0 <= p) as Hp by apply Hfit.
  simpl in Hok. apply andb_true_iff in Hok as [Hokv Hokl].
  pose proof (zlen_nonneg inner). pose proof (zlen_nonneg l). rewrite zlen_cons in *.
  pose proof (zlen_nonneg (els (p + zlen (render v) + 1) l)).
  cbn [els] in *. rewrite zlen_app in Hrest. set (vt := tokens_of p v) in *.
  destruct l as [|w l].
  { cbn [els map join] in *. rewrite app_nil_r. rewrite zlen_nil, Z.add_0_l in *.
    eapply run_child; [done|done|exact Hfit|done|done|done|lia|fold vt; lia|done]. }
  change (join (map render (v :: w :: l))) with (render v ++ 44 :: join (map render (w :: l))) in *.
  rewrite <- app_assoc, <- app_comm_cons in Hfit.
  eapply star_trans.
  { eapply run_child; [done|done|exact Hfit|done|done|done|lia|fold vt; lia|done]. }
  fold vt. apply fits_app in Hfit as [_ Hfit]. apply fits_cons in Hfit as (Hcs & Hclt & Hfit).
  assert (Hvt : zlen (drop (length vt) rest) = zlen rest - zlen vt)
    by (apply zlen_drop; unfold zlen in *; lia).
  assert (Hcl : closed (inner ++ vt))
    by (apply Forall_app; split; [done|by apply tokens_closed]).
  eapply star_step.
  { unfold filling. apply (turn_comma (join (map render (w :: l)) ++ [93]) _ _ a);
      try done; [rewrite zlen_app; unfold n, a; lia|by right|by left]. }
  specialize (IH (p + zlen (render v) + 1) (k + 1) (inner ++ vt) (drop (length vt) rest)).
  rewrite (zlen_app (render v)), (zlen_cons 44), (zlen_app vt), (length_app vt), (app_assoc inner),
    <- drop_drop.
  rewrite (zlen_app inner), Hvt in IH. fold a in IH.
  replace (a + 1 + (zlen inner + zlen vt)) with (n + zlen vt) in IH by (unfold n; lia).
  replace (k + 1 + zlen (w :: l)) with (k + (zlen (w :: l) + 1)) in IH by lia.
  replace (p + (zlen (render v) + (zlen (join (map render (w :: l))) + 1)))
    with (p + zlen (render v) + 1 + zlen (join (map render (w :: l)))) by lia.
  rewrite (Z.add_assoc n). apply IH; try done; unfold n, a in *; lia.
Qed.

Definition render_field (f : list Z * json) : list Z := quoted (fst f) ++ 58 :: render (snd f).

Lemma zlen_field f : zlen (render_field f) = zlen (fst f) + 3 + zlen (render (snd f)).
Proof.
  unfold render_field, quoted. rewrite zlen_app, !zlen_cons, zlen_app, zlen_cons, zlen_nil. lia.
Qed.

Definition field_toks (p : Z) (f : list Z * json) : list jsmntok_t :=
  Tok JSMN_STRING (p + 1) (p + 1 + zlen (fst f)) 1 ::
  tokens_of (p + zlen (fst f) + 3) (snd f).

Lemma field_toks_closed p f : 0 <= p -> closed (field_toks p f).
Proof.
  intros. pose proof (zlen_nonneg (fst f)). constructor; [apply tok_closed; lia|].
  apply tokens_closed. lia.
Qed.

(** After a member of an object the parent is the object or the key just read. *)
Definition member_super (base inner : list jsmntok_t) (s : Z) : Prop :=
  s = zlen base \/ s = zlen base + 1 + zlen inner.

Lemma run_field f base off k inner rest p c r :
  runs_value (snd f) -> str_ok (fst f) = true -> json_ok (snd f) = true ->
  fits p (render_field f ++ c :: r) -> is_prim_end c = true ->
  0 <= off -> closed inner -> 0 <= k < 2 ^ 31 - 1 ->
  zlen (field_toks p f) <= zlen rest -> zlen base + 1 + zlen inner + zlen rest = num ->
  exists s, member_super base inner s /\
  star turn
    (St p (zlen base + 1 + zlen inner) (zlen base)
       (filling base JSMN_OBJECT off k inner ++ rest))
    (St (p + zlen (render_field f)) (zlen base + 1 + zlen inner + zlen (field_toks p f)) s
       (filling base JSMN_OBJECT off (k + 1) (inner ++ field_toks p f) ++
        drop (length (field_toks p f)) rest)).
Proof.
  destruct f as [b v]. simpl fst. simpl snd. intros Hv Hb Hok Hfit Hc Hoff Hin Hk Hrest Hnum'.
  pose proof (zlen_nonneg base). pose proof (zlen_nonneg inner). pose proof (zlen_nonneg b).
  unfold render_field in Hfit. simpl fst in Hfit. simpl snd in Hfit.
  rewrite <- app_assoc, <- app_comm_cons in Hfit.
  assert (Hqb : zlen (quoted b) = zlen b + 2)
    by (unfold quoted; rewrite zlen_cons, zlen_app, zlen_cons, zlen_nil; lia).
  assert (0 <= p) by apply Hfit.
  apply fits_app in Hfit as [[Hsb Hlb] Hfit]. rewrite Hqb in Hlb, Hfit.
  apply fits_cons in Hfit as (Hcol & Hcol' & Hfit). apply fits_app in Hfit as [Hfv Hft].
  unfold field_toks in *. simpl fst in *. simpl snd in *. rewrite zlen_cons in Hrest.
  replace (p + (zlen b + 2) + 1) with (p + zlen b + 3) in * by lia.
  set (vt := tokens_of (p + zlen b + 3) v) in *. pose proof (zlen_nonneg vt).
  destruct rest as [|x rest]; [rewrite zlen_nil in Hrest; lia|]. rewrite zlen_cons in *.
  set (a := zlen base) in *. set (n := a + 1 + zlen inner) in *.
  set (key := fun i => Tok JSMN_STRING (p + 1) (p + 1 + zlen b) i).
  set (D1 := filling base JSMN_OBJECT off (k + 1) inner).
  assert (HzD1 : zlen D1 = n) by (unfold D1; rewrite zlen_filling; done).
  assert (Hclk : closed (inner ++ [key 1]))
    by (apply Forall_app; split; [done|]; repeat constructor; apply tok_closed; lia).
  exists (after v n (D1 ++ [key 1])). split.
  { unfold after. rewrite <- (app_nil_r (D1 ++ [key 1])). unfold D1.
    rewrite <- app_assoc, <- filling_app, app_nil_r, flast_filling by done.
    destruct v; [by right|by right|by left|by left]. }
  eapply star_step.
  { apply (turn_string b); [done|exact Hsb|lia|by rewrite zlen_filling| |right]; unfold n; lia. }
  eapply star_step.
  { apply (turn_colon (render v ++ c :: r)); [lia| |unfold n; lia].
    by replace (p + zlen b + 2) with (p + (zlen b + 2)) by lia. }
  assert (bump a (filling base JSMN_OBJECT off k inner) = D1) as -> by (by apply bump_filling).
  replace (n + 1 - 1) with n by lia. replace (p + zlen b + 2 + 1) with (p + zlen b + 3) by lia.
  assert (Hbump : bump n (D1 ++ [key 0]) = D1 ++ [key 1]).
  { unfold bump. destruct (Z.eqb_spec n (-1)); [unfold n in *; lia|].
    rewrite <- HzD1. unfold zlen. by rewrite Nat2Z.id, alter_app_mid. }
  assert (Hz2 : zlen (D1 ++ [key 0]) = n + 1) by (rewrite zlen_app, HzD1; done).
  assert (Hst : stop (p + zlen b + 3 + zlen (render v)))
    by (apply (stop_cons _ c r); [apply Hft|done]).
  pose proof (Hv (p + zlen b + 3) (n + 1) n (D1 ++ [key 0]) rest Hok Hfv Hst Hz2
    ltac:(fold vt; lia) ltac:(unfold n; lia) ltac:(right; unfold n; lia)) as Hgo.
  rewrite Hbump, <- !app_assoc in Hgo. fold vt in Hgo.
  replace (p + zlen (render_field (b, v))) with (p + zlen b + 3 + zlen (render v))
    by (rewrite zlen_field; simpl; lia).
  rewrite filling_app. replace (n + (zlen vt + 1)) with (n + 1 + zlen vt) by lia.
  exact Hgo.
Qed.

Lemma key_at base off k inner p f :
  let n := zlen base + 1 + zlen inner in
  0 <= n < n + zlen (field_toks p f) /\
  exists t, filling base JSMN_OBJECT off k (inner ++ field_toks p f) !! Z.to_nat n = Some t /\
    is_container t = false.
Proof.
  pose proof (zlen_nonneg base). pose proof (zlen_nonneg inner). unfold field_toks, filling.
  pose proof (zlen_nonneg (tokens_of (p + zlen (fst f) + 3) (snd f))). rewrite zlen_cons.
  split; [lia|]. exists (Tok JSMN_STRING (p + 1) (p + 1 + zlen (fst f)) 1). split; [|done].
  rewrite app_comm_cons, app_assoc. apply list_lookup_middle.
  rewrite length_app. simpl. unfold zlen. lia.
Qed.

Lemma run_fields l base off : 0 <= off -> Forall (fun f => runs_value (snd f)) l ->
  forall p k inner rest,
    forallb (fun f => str_ok (fst f) && json_ok (snd f)) l = true ->
    fits p (join (map render_field l) ++ [125]) ->
    closed inner ->
    zlen (fields p l) <= zlen rest ->
    zlen base + 1 + zlen inner + zlen rest = num -> 0 <= k -> k + zlen l < 2 ^ 31 ->
    let n := zlen base + 1 + zlen inner in
    exists s, star turn (St p n (zlen base) (filling base JSMN_OBJECT off k inner ++ rest))
      (St (p + zlen (join (map render_field l))) (n + zlen (fields p l)) s
          (filling base JSMN_OBJECT off (k + zlen l) (inner ++ fields p l) ++
           drop (length (fields p l)) rest)).
Proof.
  intros Hoff HV. pose proof (zlen_nonneg base).
  induction HV as [|f l Hv HV IH]; intros p k inner rest Hok Hfit Hin Hrest Hnum' Hk Hk2 n.
  { eexists. simpl. rewrite app_nil_r, !zlen_nil, !Z.add_0_r, drop_0. apply star_refl. }
  assert (0 <= p) as Hp by apply Hfit.
  simpl in Hok. apply andb_true_iff in Hok as [Hokv Hokl].
  apply andb_true_iff in Hokv as [Hokk Hokv].
  pose proof (zlen_nonneg inner). pose proof (zlen_nonneg l). rewrite zlen_cons in *.
  set (p' := p + zlen (render_field f) + 1).
  assert (Hfl : fields p (f :: l) = field_toks p f ++ fields p' l).
  { unfold p'. rewrite zlen_field. cbn [fields]. unfold field_toks. simpl. do 4 f_equal. lia. }
  rewrite Hfl in *. pose proof (zlen_nonneg (fields p' l)). rewrite zlen_app in Hrest.
  destruct l as [|g l].
  { cbn [fields map join] in *. rewrite app_nil_r. rewrite zlen_nil, Z.add_0_l in *.
    destruct (run_field f base off k inner rest p 125 []) as (s & _ & Hs); try done; try lia.
    by exists s. }
  change (join (map render_field (f :: g :: l)))
    with (render_field f ++ 44 :: join (map render_field (g :: l))) in *.
  rewrite <- app_assoc, <- app_comm_cons in Hfit.
  destruct (run_field f base off k inner rest p 44 (join (map render_field (g :: l)) ++ [125]))
    as (s & Hs & Hrun); try done; try lia.
  apply fits_app in Hfit as [_ Hfit]. apply fits_cons in Hfit as (Hcs & Hclt & Hfit).
  set (ft := field_toks p f) in *. fold p' in Hfit.
  assert (Hvt : zlen (drop (length ft) rest) = zlen rest - zlen ft)
    by (apply zlen_drop; unfold zlen in *; lia).
  assert (Hcl : closed (inner ++ ft))
    by (apply Forall_app; split; [done|by apply field_toks_closed]).
  specialize (IH p' (k + 1) (inner ++ ft) (drop (length ft) rest)).
  rewrite (zlen_app inner), Hvt in IH.
  replace (zlen base + 1 + (zlen inner + zlen ft)) with (n + zlen ft) in IH by (unfold n; lia).
  destruct IH as [s2 IH]; try done; try (unfold n; lia).
  exists s2. eapply star_trans; [exact Hrun|]. eapply star_step.
  { unfold filling. apply (turn_comma (join (map render_field (g :: l)) ++ [125]));
      try done; [rewrite zlen_app; unfold n; lia|by left|].
    destruct Hs as [->| ->]; [by left|right]. by apply key_at. }
  fold p' n. rewrite (zlen_app (render_field f)), (zlen_cons 44), (zlen_app ft), (length_app ft),
    (app_assoc inner), <- drop_drop.
  replace (k + 1 + zlen (g :: l)) with (k + (zlen (g :: l) + 1)) in IH by lia.
  replace (p + (zlen (render_field f) + (zlen (join (map render_field (g :: l))) + 1)))
    with (p' + zlen (join (map render_field (g :: l)))) by (unfold p'; lia).
  rewrite (Z.add_assoc n). exact IH.
Qed.

Lemma run_container c1 c2 body inner m p n s l rest :
  (c1 = 123 /\ c2 = 125) \/ (c1 = 91 /\ c2 = 93) ->
  fits p (c1 :: body ++ [c2]) -> zlen l = n -> 1 + zlen inner <= zlen rest ->
  n + zlen rest = num -> super_ok s n -> closed inner ->
  (forall rest', zlen l + 1 + zlen rest' = num -> zlen inner <= zlen rest' ->
     exists s', star turn
       (St (p + 1) (n + 1) n (filling (bump s l) (container_type c1) p 0 [] ++ rest'))
       (St (p + 1 + zlen body) (n + 1 + zlen inner) s'
           (filling (bump s l) (container_type c1) p m inner ++ drop (length inner) rest'))) ->
  star turn (St p n s (l ++ rest))
    (St (p + zlen (c1 :: body ++ [c2])) (n + (1 + zlen inner)) (opt (flast tok_open (bump s l)))
        (bump s l ++ Tok (container_type c1) p (p + zlen (c1 :: body ++ [c2])) m ::
           inner ++ drop (S (length inner)) rest)).
Proof.
  intros Hc Hfit Hl Hrest Hn Hs Hin Hbody. pose proof (zlen_nonneg inner).
  pose proof (zlen_nonneg body). pose proof (zlen_nonneg l). assert (0 <= p) by apply Hfit.
  destruct rest as [|x rest]; [rewrite zlen_nil in Hrest; lia|]. rewrite (zlen_cons x) in *.
  apply fits_cons in Hfit as (Ho & Hlt & Hfit). apply fits_app in Hfit as [_ Hfit].
  apply fits_cons in Hfit as (Hcl & Hclt & _).
  destruct (Hbody rest) as [s' Hrun]; [lia|lia|].
  unfold filling in Hrun. rewrite <- !app_assoc, <- !app_comm_cons in Hrun. simpl in Hrun.
  eapply star_step.
  { apply (turn_open c1 (body ++ [c2])); try done; [naive_solver|lia]. }
  eapply star_trans; [exact Hrun|]. apply star_one.
  assert (Hcc : container_type c1 = container_type c2)
    by (destruct Hc as [[-> ->]|[-> ->]]; done).
  rewrite Hcc. simpl drop.
  rewrite zlen_cons, zlen_app, zlen_cons, zlen_nil.
  replace (p + (zlen body + (0 + 1) + 1)) with (p + 1 + zlen body + 1) by lia.
  replace (n + (1 + zlen inner)) with (n + 1 + zlen inner) by lia.
  apply (turn_close c2 []); try done; [naive_solver|].
  unfold zlen at 1. rewrite length_bump. fold (zlen l). lia.
Qed.

Lemma zlen_els_le l off : zlen l <= zlen (els off l).
Proof.
  revert off. induction l as [|v l IH]; intros off; [done|]. cbn [els].
  rewrite zlen_cons, zlen_app. specialize (IH (off + zlen (render v) + 1)).
  assert (1 <= zlen (tokens_of off v)); [|lia].
  destruct v; cbn [tokens_of]; rewrite zlen_cons; match goal with |- context [zlen ?l + 1] =>
    pose proof (zlen_nonneg l) end; lia.
Qed.

Lemma zlen_fields_le l off : zlen l <= zlen (fields off l).
Proof.
  revert off. induction l as [|f l IH]; intros off; [done|]. cbn [fields].
  rewrite !zlen_cons, zlen_app.
  specialize (IH (off + zlen (fst f) + 3 + zlen (render (snd f)) + 1)).
  pose proof (zlen_nonneg (tokens_of (off + zlen (fst f) + 3) (snd f))). lia.
Qed.

Lemma run_value v : runs_value v.
Proof.
  induction v as [b|b|l IH|l IH] using json_tree_ind;
    intros p n s D rest Hok Hfit Hstop Hl Hrest Hn Hs.
  - destruct rest as [|x rest]; [done|]. rewrite zlen_cons in Hn. destruct Hfit as [Hsub Hle].
    apply star_one. simpl tokens_of. simpl drop. rewrite drop_0.
    apply turn_prim; try done. lia.
  - destruct rest as [|x rest]; [done|]. rewrite zlen_cons in Hn. destruct Hfit as [Hsub Hle].
    simpl render in *. unfold quoted in *. rewrite zlen_cons, zlen_app, zlen_cons, zlen_nil in *.
    apply star_one. simpl tokens_of. simpl drop. rewrite drop_0.
    replace (p + (zlen b + (0 + 1) + 1)) with (p + zlen b + 2) by lia.
    apply turn_string; try done; lia.
  - rewrite tokens_of_arr in *. rewrite zlen_cons in *. pose proof (zlen_els_le l (p + 1)).
    pose proof (zlen_nonneg l). pose proof (zlen_nonneg D).
    rewrite (Z.add_comm (zlen (els _ _)) 1) in *.
    assert (0 <= p) by apply Hfit.
    apply (run_container 91 93 (join (map render l))); try done; [by right|apply tokens_closed_els; lia|].
    intros rest' Hr1 Hr2. exists n. change (container_type 91) with JSMN_ARRAY.
    assert (Hzb : zlen (bump s D) = n) by (unfold zlen; by rewrite length_bump).
    apply fits_cons in Hfit as (_ & _ & Hfit).
    pose proof (run_els l (bump s D) p ltac:(done) IH (p + 1) 0 [] rest' Hok Hfit
      ltac:(constructor) Hr2 ltac:(rewrite zlen_nil; lia) ltac:(lia) ltac:(lia)) as Hgo.
    cbv zeta in Hgo. rewrite Hzb, zlen_nil, Z.add_0_r, Z.add_0_l in Hgo. exact Hgo.
  - rewrite tokens_of_obj in *. rewrite zlen_cons in *. pose proof (zlen_fields_le l (p + 1)).
    pose proof (zlen_nonneg l). pose proof (zlen_nonneg D).
    rewrite (Z.add_comm (zlen (fields _ _)) 1) in *.
    assert (0 <= p) by apply Hfit.
    apply (run_container 123 125 (join (map render_field l))); try done;
      [by left|apply tokens_closed_fields; lia|].
    intros rest' Hr1 Hr2. change (container_type 123) with JSMN_OBJECT.
    assert (Hzb : zlen (bump s D) = n) by (unfold zlen; by rewrite length_bump).
    apply fits_cons in Hfit as (_ & _ & Hfit).
    destruct (run_fields l (bump s D) p ltac:(done) IH (p + 1) 0 [] rest' Hok Hfit
      ltac:(constructor) Hr2 ltac:(rewrite zlen_nil; lia) ltac:(lia) ltac:(lia)) as [s' Hgo].
    exists s'. cbv zeta in Hgo. rewrite Hzb, zlen_nil, Z.add_0_r, Z.add_0_l in Hgo. exact Hgo.
Qed.
End Turns.

(** ** The parser on the text of a tree *)

Lemma jsmn_loop_fuel fuel extra js len num st r :
  jsmn_loop fuel js len num st = Ok r -> jsmn_loop (fuel + extra) js len num st = Ok r.
Proof.
  revert st. induction fuel as [|fuel IH]; intros st; [done|]. simpl.
  destruct (_ <? _); [|done]. destruct (rd _ _) as [c| |]; simpl; [|done..].
  destruct (c =? 0); [done|]. destruct (jsmn_parse_char _ _ _ _ _) as [[?|?]| |]; simpl; auto.
Qed.

Lemma after_top v : after v (-1) [] = -1.
Proof. by destruct v. Qed.

Lemma find_down_none f toks n :
  (n <= length toks)%nat -> Forall (fun t => f t = false) (take n toks) ->
  find_down f toks n = Ok None.
Proof. intros Hn Hf. rewrite find_down_flast by done. by rewrite flast_none. Qed.

Lemma parse_render v tail toks :
  json_ok v = true -> zlen (render v) < 2 ^ 31 -> zlen toks < 2 ^ 31 ->
  zlen (tokens_of 0 v) <= zlen toks ->
  jsmn_parse jsmn_init (render v ++ tail) (zlen (render v)) (Some toks) (zlen toks) =
  Ok (zlen (tokens_of 0 v), Parser (zlen (render v)) (zlen (tokens_of 0 v)) (-1),
      Some (tokens_of 0 v ++ drop (length (tokens_of 0 v)) toks)).
Proof.
  intros Hok Hlen Hnum Hroom. set (js := render v ++ tail). set (len := zlen (render v)). set (num := zlen toks).
  pose proof (zlen_nonneg (render v)). pose proof (zlen_nonneg tail). pose proof (zlen_nonneg toks). pose proof (zlen_nonneg (tokens_of 0 v)).
  assert (Hl : 0 <= len < 2 ^ 31) by done. assert (Hn : 0 <= num < 2 ^ 31) by done.
  set (st0 := St 0 0 (-1) ([] ++ toks)).
  set (fin := St len (zlen (tokens_of 0 v)) (-1)
                (tokens_of 0 v ++ drop (length (tokens_of 0 v)) toks)).
  assert (Hjs : len <= Z.of_nat (length js)).
  { subst js len. rewrite length_app. unfold zlen. lia. }
  assert (Hfit : fits js len 0 (render v)).
  { split; [|lia]. split; [lia|]. intros i c Hc. by apply lookup_app_l_Some. }
  assert (Hrun : star (turn js len num) st0 fin).
  { pose proof (run_value js len num Hl Hn v 0 0 (-1) [] toks Hok Hfit
      ltac:(by left) eq_refl Hroom eq_refl ltac:(by left)) as Hgo.
    change (bump (-1) []) with (@nil jsmntok_t) in Hgo. rewrite after_top in Hgo. exact Hgo. }
  apply turn_loop in Hrun as [k Hk]. specialize (Hk 1%nat).
  assert (Hfin : jsmn_loop 1 js len num fin = Ok (zlen (tokens_of 0 v), fin)).
  { simpl. destruct (Z.ltb_spec len len); [lia|]. unfold jsmn_finish. cbn [jtoks fin St jp toknext].
    rewrite find_down_none; [done| |].
    - rewrite length_app. unfold zlen. lia.
    - rewrite take_app_length' by (unfold zlen; lia). apply (tokens_closed v 0). lia. }
  rewrite Hfin in Hk. apply (jsmn_loop_fuel _ (S (Z.to_nat len))) in Hk.
  pose proof (jsmn_parse_spec js len toks num Hl Hjs eq_refl Hnum) as Hsafe.
  unfold jsmn_parse in *. change (s32 (toknext jsmn_init)) with 0 in *.
  change (JState jsmn_init (Some toks) 0) with st0 in *.
  destruct (jsmn_loop (S (Z.to_nat len)) js len num st0) as [r| |] eqn:E; [|done..].
  apply (jsmn_loop_fuel _ (k + 1)) in E.
  replace (S (Z.to_nat len) + (k + 1))%nat with (k + 1 + S (Z.to_nat len))%nat in E by lia.
  rewrite Hk in E. injection E as <-. reflexivity.
Qed.

(** C24: jsmn_parse inverts the printer. On the text of any well-formed JSON
    tree (objects, arrays, strings with escapes, primitives) and an array
    with room for its tokens, jsmn_parse returns the number of values and
    keys of the tree, and fills the array with exactly one token for each, in
    preorder, with its type, its bounds in the text and its number of
    children (1 for a key); the rest of the array is untouched. *)
Theorem jsmn_parse_render v toks :
  json_ok v = true -> zlen (render v) < 2 ^ 31 -> zlen toks < 2 ^ 31 ->
  zlen (tokens_of 0 v) <= zlen toks ->
  jsmn_parse jsmn_init (render v) (zlen (render v)) (Some toks) (zlen toks) =
  Ok (zlen (tokens_of 0 v), Parser (zlen (render v)) (zlen (tokens_of 0 v)) (-1),
      Some (tokens_of 0 v ++ drop (length (tokens_of 0 v)) toks)).
Proof.
  intros Hok Hlen Hnum Hroom. rewrite <- (app_nil_r (render v)) at 1. by apply parse_render.
Qed.

(** The tree [{"a":[1,"b"]}]. *)
Definition sample_tree : json := JObj [([97], JArr [JPrim [49]; JStr [98]])].

Lemma jsmn_parse_render_witness :
  jsmn_parse jsmn_init (render sample_tree) (zlen (render sample_tree))
    (Some (replicate 6 (Tok JSMN_UNDEFINED 0 0 0))) 6 =
  Ok (5, Parser 13 5 (-1),
      Some [Tok JSMN_OBJECT 0 13 1; Tok JSMN_STRING 2 3 1; Tok JSMN_ARRAY 5 12 2;
            Tok JSMN_PRIMITIVE 6 7 0; Tok JSMN_STRING 9 10 0; Tok JSMN_UNDEFINED 0 0 0]).
Proof.
  apply (jsmn_parse_render sample_tree (replicate 6 (Tok JSMN_UNDEFINED 0 0 0))).
  - vm_compute; reflexivity.
  - vm_compute; reflexivity.
  - vm_compute; reflexivity.
  - vm_compute. intros [=].
Defined.
