(* ===== verification/CStd.v ===== *)
(** * The parts of the C library the firmware uses

    Strings in memory, [strlen], [strncmp], and the [sprintf] conversions
    %d, %.Nd, %02X. A memory area is the list of the bytes that are there: a
    read past its end is [UB], so a missing terminator is visible. *)

From S2P Require Import Prelude.
From Stdlib Require Ascii String.
Export String.StringSyntax.
Delimit Scope string_scope with string.
Bind Scope string_scope with String.string.

(** ** Character codes of a literal *)

Fixpoint codes (s : String.string) : list Z :=
  match s with
  | String.EmptyString => []
  | String.String a r => Z.of_nat (Ascii.nat_of_ascii a) :: codes r
  end.

(** ** Signed 32-bit arithmetic: overflow is undefined *)

Definition int_ok (z : Z) : bool := (- 2 ^ 31 <=? z) && (z <? 2 ^ 31).
Definition chk32 (z : Z) : outcome Z := if int_ok z then Ok z else UB.

Lemma chk32_ok z : - 2 ^ 31 <= z < 2 ^ 31 -> chk32 z = Ok z.
Proof.
  intros. unfold chk32, int_ok. destruct (Z.leb_spec (- 2 ^ 31) z), (Z.ltb_spec z (2 ^ 31)); done || lia.
Qed.

Lemma chk32_ub z : z < - 2 ^ 31 \/ 2 ^ 31 <= z -> chk32 z = UB.
Proof.
  intros. unfold chk32, int_ok. destruct (Z.leb_spec (- 2 ^ 31) z), (Z.ltb_spec z (2 ^ 31)); done || lia.
Qed.

Lemma chk32_inv z r : chk32 z = Ok r -> r = z /\ - 2 ^ 31 <= z < 2 ^ 31.
Proof.
  unfold chk32, int_ok. destruct (Z.leb_spec (- 2 ^ 31) z), (Z.ltb_spec z (2 ^ 31)); simpl; try done.
  intros [= <-]. lia.
Qed.

(** ** Strings in memory *)

Fixpoint strlen (m : list Z) : outcome Z :=
  match m with
  | [] => UB
  | c :: r => if c =? 0 then Ok 0 else let! n := strlen r in Ok (n + 1)
  end.

(** The characters before the terminator. *)
Fixpoint cstring (m : list Z) : outcome (list Z) :=
  match m with
  | [] => UB
  | c :: r => if c =? 0 then Ok [] else let! s := cstring r in Ok (c :: s)
  end.

Lemma cstring_app s r : Forall (fun c => c <> 0) s -> cstring (s ++ 0 :: r) = Ok s.
Proof.
  induction 1 as [|c s Hc _ IH]; [done|]. simpl. destruct (Z.eqb_spec c 0); [done|]. by rewrite IH.
Qed.

Lemma strlen_app s r : Forall (fun c => c <> 0) s -> strlen (s ++ 0 :: r) = Ok (zlen s).
Proof.
  induction 1 as [|c s Hc _ IH]; [done|]. simpl. destruct (Z.eqb_spec c 0); [done|].
  rewrite IH. simpl. by rewrite zlen_cons.
Qed.

(** [strncmp(a, b, n) == 0] *)
Fixpoint strncmp0 (n : nat) (a b : list Z) : outcome bool :=
  match n with
  | O => Ok true
  | S n =>
      match a, b with
      | x :: a, y :: b =>
          if x =? y then if x =? 0 then Ok true else strncmp0 n a b else Ok false
      | _, _ => UB
      end
  end.

Lemma strncmp0_spec s1 s2 r1 r2 :
  length s1 = length s2 -> Forall (fun c => c <> 0) s2 ->
  exists b, strncmp0 (length s1) (s1 ++ r1) (s2 ++ r2) = Ok b /\ (b = true <-> s1 = s2).
Proof.
  intros Hl Hs. revert s1 Hl. induction Hs as [|y s2 Hy _ IH]; intros [|x s1] Hl; try done; simpl.
  - by exists true.
  - destruct (Z.eqb_spec x y) as [->|Hne].
    + destruct (Z.eqb_spec y 0); [done|]. destruct (IH s1) as (b & -> & Hb); [by injection Hl|].
      exists b. split; [done|]. rewrite Hb. split; [by intros ->|by intros [= ->]].
    + exists false. split; [done|]. split; [done|congruence].
Qed.

(** ** Decimal text *)

Definition is_digit (c : Z) : bool := (48 <=? c) && (c <=? 57).

(** The value of a string of decimal digits. *)
Definition dval (l : list Z) : Z := fold_left (fun a c => a * 10 + (c - 48)) l 0.

Fixpoint dec_loop (fuel : nat) (n : Z) (acc : list Z) : list Z :=
  match fuel with
  | O => acc
  | S fuel =>
      let acc := (48 + n mod 10) :: acc in
      if n <? 10 then acc else dec_loop fuel (n / 10) acc
  end.

(** The decimal digits of [0 <= n]: at most as many as its bits. *)
Definition dec (n : Z) : list Z := dec_loop (S (Z.to_nat (Z.log2 n))) n [].

(** %d *)
Definition fmt_d (n : Z) : list Z := if n <? 0 then 45 :: dec (- n) else dec n.

(** %.Nd: at least [w] digits. *)
Definition fmt_pd (w : nat) (n : Z) : list Z :=
  let d := dec (Z.abs n) in
  (if n <? 0 then [45] else []) ++ replicate (w - length d) 48 ++ d.

(** %02X of a byte. *)
Definition hexdigit (n : Z) : Z := if n <? 10 then 48 + n else 55 + n.
Definition fmt_02X (n : Z) : list Z := [hexdigit (n / 16); hexdigit (n mod 16)].

Lemma fold_dval l a : fold_left (fun a c => a * 10 + (c - 48)) l a = a * 10 ^ zlen l + dval l.
Proof.
  unfold dval. revert a. induction l as [|c l IH]; intros a; [rewrite zlen_nil; simpl; lia|].
  simpl fold_left. rewrite (IH (a * 10 + (c - 48))), (IH (0 * 10 + (c - 48))), zlen_cons.
  pose proof (zlen_nonneg l). rewrite Z.pow_add_r by lia. lia.
Qed.

Lemma dval_cons c l : dval (c :: l) = (c - 48) * 10 ^ zlen l + dval l.
Proof. unfold dval at 1. simpl. by rewrite fold_dval. Qed.

Lemma dval_app l1 l2 : dval (l1 ++ l2) = dval l1 * 10 ^ zlen l2 + dval l2.
Proof. unfold dval at 1. rewrite fold_left_app. fold (dval l1). apply fold_dval. Qed.

(** What the digits of [n] are: their value is [n], without a leading zero. *)
Record dec_of (n : Z) (d : list Z) : Prop := DecOf {
  dec_of_val : dval d = n;
  dec_of_digits : Forall (fun c => is_digit c = true) d;
  dec_of_len : 1 <= zlen d;
  dec_of_short : zlen d = 1 \/ 10 ^ (zlen d - 1) <= n;
}.

Lemma digit_mod n : is_digit (48 + n mod 10) = true.
Proof.
  pose proof (Z.mod_pos_bound n 10 ltac:(lia)). unfold is_digit.
  destruct (Z.leb_spec 48 (48 + n mod 10)), (Z.leb_spec (48 + n mod 10) 57); done || lia.
Qed.

Lemma dec_of_snoc n d : 10 <= n -> dec_of (n / 10) d -> dec_of n (d ++ [48 + n mod 10]).
Proof.
  intros Hn []. pose proof (Z.div_mod n 10 ltac:(lia)).
  split; rewrite ?zlen_app; change (zlen [48 + n mod 10]) with 1.
  - rewrite dval_app. change (zlen [48 + n mod 10]) with 1. unfold dval at 2. simpl. lia.
  - apply Forall_app. split; [done|]. repeat constructor. apply digit_mod.
  - lia.
  - right. replace (zlen d + 1 - 1) with (zlen d - 1 + 1) by lia.
    rewrite Z.pow_add_r by lia. change (10 ^ 1) with 10.
    pose proof (Z.mod_pos_bound n 10 ltac:(lia)).
    destruct dec_of_short0 as [->|]; [simpl; lia|lia].
Qed.

Lemma dec_loop_spec fuel n acc :
  0 <= n < 2 ^ Z.of_nat fuel -> (0 < fuel)%nat ->
  exists d, dec_loop fuel n acc = d ++ acc /\ dec_of n d.
Proof.
  revert n acc. induction fuel as [|fuel IH]; intros n acc Hn Hf; [lia|]. simpl.
  destruct (Z.ltb_spec n 10) as [Hlt|Hge].
  - exists [48 + n mod 10]. split; [done|]. split; [|by repeat constructor; apply digit_mod|done|by left].
    unfold dval. simpl. rewrite Z.mod_small; lia.
  - destruct (IH (n / 10) ((48 + n mod 10) :: acc)) as (d & -> & Hd).
    { rewrite Nat2Z.inj_succ, Z.pow_succ_r in Hn by lia.
      split; [apply Z.div_pos; lia|]. apply Z.div_lt_upper_bound; lia. }
    { destruct fuel; [simpl in Hn; lia|lia]. }
    exists (d ++ [48 + n mod 10]). rewrite <- app_assoc. split; [done|]. by apply dec_of_snoc.
Qed.

Lemma dec_spec n : 0 <= n -> dec_of n (dec n).
Proof.
  intros Hn. unfold dec. destruct (dec_loop_spec (S (Z.to_nat (Z.log2 n))) n []) as (d & -> & Hd).
  - split; [done|]. rewrite Nat2Z.inj_succ, Z2Nat.id by apply Z.log2_nonneg.
    destruct (decide (n = 0)) as [->|]; [done|]. apply Z.log2_spec. lia.
  - lia.
  - by rewrite app_nil_r.
Qed.

Lemma dec_len n k : 0 <= n < 10 ^ k -> 1 <= k -> zlen (dec n) <= k.
Proof.
  intros Hn Hk. destruct (dec_spec n ltac:(lia)) as [_ _ Hl [?|Hs]]; [lia|].
  destruct (Z.le_gt_cases (zlen (dec n)) k); [done|].
  pose proof (Z.pow_le_mono_r 10 k (zlen (dec n) - 1)). lia.
Qed.

(** Two digit strings of the same value and length are equal. *)
Lemma dval_bound l : Forall (fun c => is_digit c = true) l -> 0 <= dval l < 10 ^ zlen l.
Proof.
  induction 1 as [|c l Hc _ IH]; [done|]. rewrite dval_cons, zlen_cons.
  pose proof (zlen_nonneg l). rewrite Z.pow_add_r by lia. unfold is_digit in Hc.
  destruct (Z.leb_spec 48 c), (Z.leb_spec c 57); try done. nia.
Qed.

Lemma dval_inj l1 l2 :
  Forall (fun c => is_digit c = true) l1 -> Forall (fun c => is_digit c = true) l2 ->
  zlen l1 = zlen l2 -> dval l1 = dval l2 -> l1 = l2.
Proof.
  intros H1. revert l2. induction H1 as [|c l1 Hc H1 IH]; intros [|e l2] H2 Hl Hv; try done.
  inversion H2 as [|? ? He H2']; subst; clear H2; rename H2' into H2. rewrite !zlen_cons in Hl. rewrite !dval_cons in Hv.
  pose proof (dval_bound _ H1). pose proof (dval_bound _ H2).
  assert (zlen l1 = zlen l2) as Hll by lia. rewrite Hll in *.
  assert (c = e) as -> by nia. f_equal. apply IH; try done. lia.
Qed.

Lemma dec_unique n d : dec_of n d -> dec n = d.
Proof.
  intros Hd. pose proof Hd as [Hv Hf Hl Hs].
  assert (Hn : 0 <= n) by (pose proof (dval_bound d Hf); lia).
  pose proof (dec_spec n Hn) as [Hv' Hf' Hl' Hs'].
  apply dval_inj; try done; [|congruence].
  pose proof (dval_bound d Hf). pose proof (dval_bound _ Hf'). rewrite Hv, Hv' in *.
  assert (Hmono : forall a b, 1 <= a -> 1 <= b -> (a = 1 \/ 10 ^ (a - 1) <= n) -> n < 10 ^ b -> a <= b).
  { intros a b Ha Hb Hab Hlt. destruct (Z.le_gt_cases a b); [done|].
    pose proof (Z.pow_le_mono_r 10 b (a - 1)). lia. }
  apply Z.le_antisymm; apply Hmono; done || lia.
Qed.

Lemma digit_range c : is_digit c = true <-> 48 <= c <= 57.
Proof. unfold is_digit. destruct (Z.leb_spec 48 c), (Z.leb_spec c 57); simpl; split; done || lia. Qed.

(** ** %f of a float

    A finite binary32 value is [(-1)^neg * m * 2^e]; [printf] promotes it to
    double without loss and prints the exact value rounded to six decimals,
    ties to even. *)

Inductive float32 : Type :=
  | Fin (neg : bool) (m e : Z)
  | Inf (neg : bool)
  | NaN.

(** The magnitude in millionths. *)
Definition millionths (m e : Z) : Z :=
  if 0 <=? e then m * 2 ^ e * 10 ^ 6
  else
    let n := m * 10 ^ 6 in
    let d := 2 ^ (- e) in
    let q := n / d in
    let r := n mod d in
    if (d <? 2 * r) || ((2 * r =? d) && Z.odd q) then q + 1 else q.

Definition fmt_f (x : float32) : list Z :=
  match x with
  | NaN => codes "nan"
  | Inf neg => (if neg then [45] else []) ++ codes "inf"
  | Fin neg m e =>
      let n := millionths m e in
      (if neg then [45] else []) ++ dec (n / 10 ^ 6) ++ 46 :: fmt_pd 6 (n mod 10 ^ 6)
  end.

(** ** sprintf with the conversions the firmware uses *)

Inductive arg : Type :=
  | AInt (z : Z)
  | AStr (m : list Z)
  | AFlt (x : float32).

Definition is_chr (c : Ascii.ascii) (k : Z) : bool := Z.of_nat (Ascii.nat_of_ascii c) =? k.

(** The text of a format: %d, %s, %f, %.Nd and %02X; anything else, or an
    argument of another type, is undefined. *)
Fixpoint format (f : String.string) (args : list arg) : outcome (list Z) :=
  match f with
  | String.EmptyString => Ok []
  | String.String c r =>
      if is_chr c 37 then
        match r, args with
        | String.String c1 r1, a :: args' =>
            if is_chr c1 100 then
              match a with
              | AInt n => let! s := format r1 args' in Ok (fmt_d n ++ s)
              | _ => UB
              end
            else if is_chr c1 115 then
              match a with
              | AStr m => let! t := cstring m in let! s := format r1 args' in Ok (t ++ s)
              | _ => UB
              end
            else if is_chr c1 102 then
              match a with
              | AFlt x => let! s := format r1 args' in Ok (fmt_f x ++ s)
              | _ => UB
              end
            else
              match r1, a with
              | String.String c2 (String.String c3 r3), AInt n =>
                  if is_chr c1 46 && is_chr c3 100 then
                    let! s := format r3 args' in
                    Ok (fmt_pd (Ascii.nat_of_ascii c2 - 48) n ++ s)
                  else if is_chr c1 48 && is_chr c2 50 && is_chr c3 88 then
                    let! s := format r3 args' in Ok (fmt_02X n ++ s)
                  else UB
              | _, _ => UB
              end
        | _, _ => UB
        end
      else let! s := format r args in Ok (Z.of_nat (Ascii.nat_of_ascii c) :: s)
  end.

(** [sprintf(buf, f, ...)] on a buffer of [length buf] bytes: undefined when
    the text and its terminator do not fit. *)
Definition sprintf (buf : list Z) (f : String.string) (args : list arg) : outcome (list Z) :=
  let! t := format f args in
  if zlen t + 1 <=? zlen buf then Ok (t ++ 0 :: drop (S (length t)) buf) else UB.

(** In the literals of the model, ['] stands for the double quote. *)
Fixpoint q (s : String.string) : String.string :=
  match s with
  | String.EmptyString => String.EmptyString
  | String.String c r =>
      String.String (if is_chr c 39 then Ascii.ascii_of_nat 34 else c) (q r)
  end.

Lemma sprintf_ok buf f args t :
  format f args = Ok t -> zlen t < zlen buf ->
  sprintf buf f args = Ok (t ++ 0 :: drop (S (length t)) buf).
Proof. intros E Hl. unfold sprintf. rewrite E. simpl. destruct (Z.leb_spec (zlen t + 1) (zlen buf)); done || lia. Qed.

Lemma sprintf_ub buf f args t :
  format f args = Ok t -> zlen buf <= zlen t -> sprintf buf f args = UB.
Proof. intros E Hl. unfold sprintf. rewrite E. simpl. destruct (Z.leb_spec (zlen t + 1) (zlen buf)); done || lia. Qed.

(** *** Characters of the printed numbers *)

(** Printable, and neither the quote nor the backslash. *)
Definition plain (c : Z) : bool := (32 <=? c) && (c <? 127) && negb (c =? 34) && negb (c =? 92).

Lemma digit_plain c : is_digit c = true -> plain c = true.
Proof.
  rewrite digit_range. intros. unfold plain.
  destruct (Z.leb_spec 32 c), (Z.ltb_spec c 127), (Z.eqb_spec c 34), (Z.eqb_spec c 92); done || lia.
Qed.

Lemma plain_nonzero l : Forall (fun c => plain c = true) l -> Forall (fun c => c <> 0) l.
Proof. intros H. eapply Forall_impl; [|exact H]. by intros c Hc ->. Qed.

Lemma dec_plain n : 0 <= n -> Forall (fun c => plain c = true) (dec n).
Proof. intros Hn. destruct (dec_spec n Hn) as [_ Hf _ _]. eapply Forall_impl; [|exact Hf]. apply digit_plain. Qed.

Lemma fmt_d_plain n : Forall (fun c => plain c = true) (fmt_d n).
Proof.
  unfold fmt_d. destruct (Z.ltb_spec n 0); [constructor; [done|]|]; apply dec_plain; lia.
Qed.

Lemma fmt_pd_plain w n : Forall (fun c => plain c = true) (fmt_pd w n).
Proof.
  unfold fmt_pd. rewrite !Forall_app. split; [destruct (n <? 0); by repeat constructor|].
  split; [by apply Forall_replicate|]. apply dec_plain. lia.
Qed.

Lemma hexdigit_plain n : 0 <= n < 16 -> plain (hexdigit n) = true.
Proof.
  intros. unfold hexdigit, plain.
  destruct (Z.ltb_spec n 10); ztests.
Qed.

Lemma fmt_02X_plain n : 0 <= n < 256 -> Forall (fun c => plain c = true) (fmt_02X n).
Proof.
  intros. pose proof (Z.mod_pos_bound n 16). assert (0 <= n / 16 < 16).
  { split; [apply Z.div_pos|apply Z.div_lt_upper_bound]; lia. }
  repeat constructor; apply hexdigit_plain; lia.
Qed.

Definition finite_ok (x : float32) : Prop := match x with Fin _ m _ => 0 <= m | _ => True end.

Lemma millionths_nonneg m e : 0 <= m -> 0 <= millionths m e.
Proof.
  intros Hm. unfold millionths. destruct (Z.leb_spec 0 e).
  - pose proof (Z.pow_pos_nonneg 2 e). nia.
  - pose proof (Z.pow_pos_nonneg 2 (- e)).
    assert (0 <= m * 10 ^ 6 / 2 ^ (- e)) by (apply Z.div_pos; lia).
    simpl. destruct (_ || _); lia.
Qed.

Lemma fmt_f_plain x : finite_ok x -> Forall (fun c => plain c = true) (fmt_f x).
Proof.
  destruct x as [neg m e|neg|]; intros H; simpl;
    [|by destruct neg; repeat constructor|by repeat constructor].
  pose proof (millionths_nonneg m e H).
  rewrite Forall_app. split; [destruct neg; by repeat constructor|].
  rewrite Forall_app. split; [apply dec_plain, Z.div_pos; lia|].
  constructor; [done|]. apply fmt_pd_plain.
Qed.

(** *** Lengths of the printed numbers *)

Lemma fmt_d_len n : - 2 ^ 31 <= n < 2 ^ 31 -> zlen (fmt_d n) <= 11.
Proof.
  intros. unfold fmt_d. assert (2 ^ 31 < 10 ^ 10) by lia.
  destruct (Z.ltb_spec n 0); [rewrite zlen_cons|].
  - pose proof (dec_len (- n) 10). lia.
  - pose proof (dec_len n 10). lia.
Qed.

Lemma zlen_replicate {A} n (x : A) : zlen (replicate n x) = Z.of_nat n.
Proof. unfold zlen. by rewrite length_replicate. Qed.

Lemma fmt_pd_len w n : 0 <= n < 10 ^ Z.of_nat w -> (0 < w)%nat -> zlen (fmt_pd w n) = Z.of_nat w.
Proof.
  intros Hn Hw. unfold fmt_pd. rewrite Z.abs_eq by lia.
  pose proof (dec_len n (Z.of_nat w) Hn) as Hd. destruct (Z.ltb_spec n 0); [lia|].
  rewrite app_nil_l, zlen_app, zlen_replicate. unfold zlen in *. lia.
Qed.

(** The float prints with at most [k] digits before the point. *)
Definition prints_below (k : Z) (x : float32) : Prop :=
  match x with Fin _ m e => 0 <= m /\ millionths m e < 10 ^ (k + 6) | _ => True end.

Lemma fmt_f_len k x : 1 <= k -> prints_below k x -> zlen (fmt_f x) <= k + 8.
Proof.
  intros Hk. destruct x as [neg m e|neg|]; cbn -[Z.pow Z.div dec fmt_pd millionths];
    [|destruct neg; unfold zlen; simpl; lia|unfold zlen; simpl; lia].
  intros [Hm Hb]. pose proof (millionths_nonneg m e Hm) as H0.
  rewrite Z.pow_add_r in Hb by lia.
  rewrite !zlen_app, zlen_cons, fmt_pd_len by (try lia; apply Z.mod_pos_bound; lia).
  pose proof (dec_len (millionths m e / 10 ^ 6) k) as Hd.
  assert (zlen (if neg then [45] else []) <= 1) by (destruct neg; done).
  assert (0 <= millionths m e / 10 ^ 6 < 10 ^ k).
  { split; [apply Z.div_pos; lia|apply Z.div_lt_upper_bound; lia]. }
  lia.
Qed.
