(* ===== verification/Json.v ===== *)
(** * The JSON layer of the device: Project/FreeRTOS/working/src/json.c

    The request the device posts (json_Packet_Gen), the reader of the
    server's answer (str2int) and the jsmn client json_Parser. Text is a list
    of character codes; the local buffers of json_Packet_Gen are arguments
    with arbitrary content, so that the theorems cover uninitialised ones. *)

From S2P Require Import Prelude CStd Jsmn JsmnTree.

(** ** str2int *)

Definition is_sign (c : Z) : bool := (45 =? c) || (c =? 43).

(** The loop over the signs: the sign collected, and the memory from where
    it stops. *)
Fixpoint str2int_signs (str : list Z) (puiss : Z) : outcome (Z * list Z) :=
  match str with
  | [] => UB
  | c :: r =>
      if is_sign c then str2int_signs r (if c =? 45 then puiss * -1 else puiss)
      else Ok (puiss, str)
  end.

Fixpoint str2int_digits (str : list Z) (result : Z) : outcome Z :=
  match str with
  | [] => UB
  | c :: r =>
      if is_digit c then
        let! ten := chk32 (result * 10) in
        let! result' := chk32 (ten + (c - 48)) in
        str2int_digits r result'
      else Ok result
  end.

Definition str2int (str : list Z) : outcome Z :=
  let! (puiss, str') := str2int_signs str 1 in
  let! result := str2int_digits str' 0 in
  chk32 (result * puiss).

(** ** json_Parser *)

Definition JSON_1_macAddr : String.string := "iot_mac_addr".
Definition JSON_2_reqSerial : String.string := "request_serial_no".
Definition JSON_3_chkTime : String.string := "check_time".
Definition JSON_4_chkData : String.string := "check_data".

(** 0 when the token is a string equal to [s], -1 otherwise. *)
Definition jsoneq (json : list Z) (tok : jsmntok_t) (s : String.string) : outcome Z :=
  if decide (type tok = JSMN_STRING) then
    let n := tend tok - start tok in
    if zlen (codes s) =? n then
      let! _ := guard_ub (0 <=? start tok) in
      let! e := strncmp0 (Z.to_nat n) (drop (Z.to_nat (start tok)) json) (codes s ++ [0]) in
      Ok (if e then 0 else -1)
    else Ok (-1)
  else Ok (-1).

(** The loop over the keys of the root object. For iot_mac_addr the code
    prints through the uninitialised pointer [string]. *)
Fixpoint json_keys (fuel : nat) (str : list Z) (t : list jsmntok_t) (r i : Z) : outcome unit :=
  match fuel with
  | O => NoFuel
  | S fuel =>
      if i <? r then
        let! ti := rd t i in
        let! e1 := jsoneq str ti JSON_1_macAddr in
        if e1 =? 0 then UB
        else
          let! e2 := jsoneq str ti JSON_2_reqSerial in
          if e2 =? 0 then json_keys fuel str t r (i + 1 + 1)
          else
            let! e3 := jsoneq str ti JSON_3_chkTime in
            if e3 =? 0 then json_keys fuel str t r (i + 1 + 1)
            else
              let! e4 := jsoneq str ti JSON_4_chkData in
              if e4 =? 0 then
                let! v := rd t (i + 1) in
                if decide (type v = JSMN_ARRAY) then
                  json_keys fuel str t r (i + (size v + 1) + 1)
                else json_keys fuel str t r (i + 1)
              else json_keys fuel str t r (i + 1)
      else Ok tt
  end.

(** [sizeof(t) / sizeof(t[0])] for the pointer parameter [t]: 4 / 16. *)
Definition json_num_tokens : Z := 4 / 16.

Definition json_Parser (t : list jsmntok_t) (p : jsmn_parser) (str : list Z) : outcome Z :=
  let! len := strlen str in
  let! (r, _, o) := jsmn_parse p str len (Some t) json_num_tokens in
  if r <? 0 then Ok 1
  else if r <? 1 then Ok 1
  else
    match o with
    | None => UB
    | Some t' =>
        let! t0 := rd t' 0 in
        if decide (type t0 = JSMN_OBJECT) then
          let! _ := json_keys (S (Z.to_nat r)) str t' r 1 in Ok 0
        else Ok 1
    end.

(** ** json_Packet_Gen *)

Definition MAC_ADDR : list Z := [0xA0; 0xCA; 0x11; 0x1A; 0x17; 0xFF].

(** The globals of the file the function reads, and the packet it writes. *)
Record globals : Type := Globals {
  recv_serial : Z;
  iot_item_1 : float32;
  iot_item_2 : float32;
  RTC_year : Z;
  RTC_month : Z;
  RTC_day : Z;
  RTC_hour : Z;
  RTC_minute : Z;
  RTC_second : Z;
  post_packet : list Z;
}.

(** Its local buffers. *)
Record gen_frame : Type := Frame {
  json_packet : list Z;
  mac_addr : list Z;
  request_serial_no : list Z;
  check_Time : list Z;
  check_data : list Z;
}.

Definition frame_ok (f : gen_frame) : Prop :=
  zlen (json_packet f) = 300 /\ zlen (mac_addr f) = 40 /\ zlen (request_serial_no f) = 40 /\
  zlen (check_Time f) = 40 /\ zlen (check_data f) = 150.

Definition crlf : String.string :=
  String.String (Ascii.ascii_of_nat 13) (String.String (Ascii.ascii_of_nat 10) String.EmptyString).

Definition json_Packet_Gen (g : globals) (fr : gen_frame) : outcome (Z * globals) :=
  let! mac_addr := sprintf (mac_addr fr) (q "'iot_mac_addr':'%02X:%02X:%02X:%02X:%02X:%02X'")
    (map AInt MAC_ADDR) in
  let! request_serial_no := sprintf (request_serial_no fr) (q "'iot_request_history_id':'%d'")
    [AInt (recv_serial g)] in
  let! check_Time := sprintf (check_Time fr) (q "'check_time':'%.4d-%.2d-%.2d:%.2d:%.2d:%.2d'")
    [AInt (RTC_year g); AInt (RTC_month g); AInt (RTC_day g);
     AInt (RTC_hour g); AInt (RTC_minute g); AInt (RTC_second g)] in
  let! check_data := sprintf (check_data fr)
    (q "'check_data':[{'iot_item_id':'5','data':'%f'},{'iot_item_id':'6','data':'%f'}]")
    [AFlt (iot_item_1 g); AFlt (iot_item_2 g)] in
  let! json_packet := sprintf (json_packet fr) "{%s,%s,%s,%s}"
    [AStr mac_addr; AStr request_serial_no; AStr check_Time; AStr check_data] in
  let! contentLength := strlen json_packet in
  let! post := sprintf (post_packet g) (String.append "%sEOF" crlf) [AStr json_packet] in
  Ok (1, Globals (recv_serial g) (iot_item_1 g) (iot_item_2 g) (RTC_year g) (RTC_month g)
           (RTC_day g) (RTC_hour g) (RTC_minute g) (RTC_second g) post).

(** ** What the packet says *)

Definition time_text (g : globals) : list Z :=
  fmt_pd 4 (RTC_year g) ++ 45 :: fmt_pd 2 (RTC_month g) ++ 45 :: fmt_pd 2 (RTC_day g) ++ 58 ::
  fmt_pd 2 (RTC_hour g) ++ 58 :: fmt_pd 2 (RTC_minute g) ++ 58 :: fmt_pd 2 (RTC_second g).

Definition item_tree (id : String.string) (x : float32) : json :=
  JObj [(codes "iot_item_id", JStr (codes id)); (codes "data", JStr (fmt_f x))].

(** The request as a JSON document. *)
Definition packet_tree (g : globals) : json :=
  JObj [(codes "iot_mac_addr", JStr (codes "A0:CA:11:1A:17:FF"));
        (codes "iot_request_history_id", JStr (fmt_d (recv_serial g)));
        (codes "check_time", JStr (time_text g));
        (codes "check_data", JArr [item_tree "5" (iot_item_1 g); item_tree "6" (iot_item_2 g)])].

(** The values the globals have when the firmware runs: an int, a calendar
    date, and measures that print below 10^28. *)
Record globals_ok (g : globals) : Prop := GlobalsOk {
  ok_serial : - 2 ^ 31 <= recv_serial g < 2 ^ 31;
  ok_item_1 : prints_below 28 (iot_item_1 g);
  ok_item_2 : prints_below 28 (iot_item_2 g);
  ok_year : 0 <= RTC_year g < 10000;
  ok_month : 0 <= RTC_month g < 100;
  ok_day : 0 <= RTC_day g < 100;
  ok_hour : 0 <= RTC_hour g < 100;
  ok_minute : 0 <= RTC_minute g < 100;
  ok_second : 0 <= RTC_second g < 100;
  ok_post : zlen (post_packet g) = 450;
}.

(** ** Proofs *)

(** *** str2int *)

(** The sign of a run of sign characters: -1 for an odd number of '-'. *)
Definition sign_of (signs : list Z) : Z :=
  if Nat.odd (length (filter (fun c => c = 45) signs)) then -1 else 1.

Lemma sign_of_cons c signs :
  sign_of (c :: signs) = (if c =? 45 then - sign_of signs else sign_of signs).
Proof.
  unfold sign_of. rewrite filter_cons. destruct (Z.eqb_spec c 45), (decide (c = 45)); try done.
  simpl length. rewrite Nat.odd_succ, <- Nat.negb_odd. by destruct (Nat.odd _).
Qed.

Lemma signs_run signs rest puiss :
  Forall (fun c => is_sign c = true) signs ->
  str2int_signs (signs ++ rest) puiss = str2int_signs rest (puiss * sign_of signs).
Proof.
  intros H. revert puiss. induction H as [|c signs Hc _ IH]; intros puiss.
  - simpl. f_equal. unfold sign_of. simpl. lia.
  - simpl. rewrite Hc, IH, sign_of_cons. f_equal. destruct (c =? 45); lia.
Qed.

Lemma digits_run ds rest a :
  Forall (fun c => is_digit c = true) ds -> 0 <= a -> a * 10 ^ zlen ds + dval ds < 2 ^ 31 ->
  str2int_digits (ds ++ rest) a = str2int_digits rest (a * 10 ^ zlen ds + dval ds).
Proof.
  intros H. revert a. induction H as [|c ds Hc Hds IH]; intros a Ha Hb.
  - simpl. rewrite zlen_nil. change (dval []) with 0. f_equal. lia.
  - pose proof (dval_bound ds Hds). pose proof (zlen_nonneg ds).
    pose proof (Z.pow_pos_nonneg 10 (zlen ds)).
    apply digit_range in Hc as Hr. rewrite zlen_cons, dval_cons in *.
    rewrite Z.pow_add_r in * by lia. change (10 ^ 1) with 10 in *.
    assert (a * 10 + (c - 48) <= a * (10 ^ zlen ds * 10) + (c - 48) * 10 ^ zlen ds) by nia.
    simpl. rewrite Hc, !chk32_ok by lia. simpl. rewrite chk32_ok by lia. simpl.
    rewrite IH by nia. f_equal. nia.
Qed.

Lemma digits_overflow ds rest a :
  Forall (fun c => is_digit c = true) ds -> 0 <= a < 2 ^ 31 ->
  2 ^ 31 <= a * 10 ^ zlen ds + dval ds -> str2int_digits (ds ++ rest) a = UB.
Proof.
  intros H. revert a. induction H as [|c ds Hc Hds IH]; intros a Ha Hb.
  - rewrite zlen_nil in Hb. change (dval []) with 0 in Hb. lia.
  - apply digit_range in Hc as Hr. rewrite zlen_cons, dval_cons in Hb. pose proof (zlen_nonneg ds).
    rewrite Z.pow_add_r in Hb by lia. change (10 ^ 1) with 10 in Hb. simpl. rewrite Hc.
    destruct (Z.lt_ge_cases (a * 10) (2 ^ 31)); [|by rewrite chk32_ub by lia].
    rewrite chk32_ok by lia. simpl.
    destruct (Z.lt_ge_cases (a * 10 + (c - 48)) (2 ^ 31)); [|by rewrite chk32_ub by lia].
    rewrite chk32_ok by lia. simpl. apply IH; nia.
Qed.

(** Str2int, on all inputs it can be given. A buffer of signs, decimal
    digits and a character that ends the number is read as the value of the
    digits, negated for an odd number of '-' (0 without digits); a value of
    2^31 or more overflows the int, and a buffer that ends within the number
    is read past its end: both are undefined. *)
Theorem str2int_spec signs digits c rest :
  Forall (fun c => is_sign c = true) signs -> Forall (fun c => is_digit c = true) digits ->
  is_digit c = false -> (digits = [] -> is_sign c = false) ->
  str2int (signs ++ digits ++ c :: rest) =
    (if dval digits <? 2 ^ 31 then Ok (sign_of signs * dval digits) else UB) /\
  str2int (signs ++ digits) = UB.
Proof.
  intros Hs Hd Hc Hsep. pose proof (dval_bound digits Hd) as Hv.
  assert (Hstop : forall tail puiss, (digits <> [] \/ exists r, tail = c :: r) ->
            str2int_signs (digits ++ tail) puiss = Ok (puiss, digits ++ tail)).
  { intros tail puiss Ht. destruct Hd as [|d ds Hd1 Hd].
    - destruct Ht as [[]|[r ->]]; [done|]. simpl. by rewrite Hsep.
    - simpl. assert (Hns : is_sign d = false).
      { apply digit_range in Hd1. unfold is_sign. destruct (Z.eqb_spec 45 d), (Z.eqb_spec d 43); done || lia. }
      by rewrite Hns. }
  assert (Hsg : sign_of signs = 1 \/ sign_of signs = -1).
  { unfold sign_of. destruct (Nat.odd _); auto. }
  split; unfold str2int; rewrite signs_run by done.
  - rewrite Hstop by eauto. cbn [obind]. destruct (Z.ltb_spec (dval digits) (2 ^ 31)).
    + rewrite digits_run by (done || lia). simpl. rewrite Hc. cbn [obind].
      rewrite chk32_ok by lia. f_equal. lia.
    + by rewrite digits_overflow by (done || lia).
  - rewrite <- (app_nil_r digits). destruct (decide (digits = [])) as [->|Hne]; [done|].
    rewrite Hstop by auto. cbn [obind]. destruct (Z.lt_ge_cases (dval digits) (2 ^ 31)).
    + by rewrite digits_run by (done || lia).
    + by rewrite digits_overflow by (done || lia).
Qed.

Lemma str2int_spec_witness :
  str2int ([45] ++ [49; 50] ++ 13 :: [10]) =
    (if dval [49; 50] <? 2 ^ 31 then Ok (sign_of [45] * dval [49; 50]) else UB) /\
  str2int ([45] ++ [49; 50]) = UB.
Proof. apply (str2int_spec [45] [49; 50] 13 [10]); [by repeat constructor..|done]. Defined.

(** Str2int reads back what sprintf's %d writes, for every int but the
    least one (whose magnitude overflows on the way). *)
Theorem str2int_fmt_d n c rest :
  - 2 ^ 31 <= n < 2 ^ 31 -> is_digit c = false ->
  str2int (fmt_d n ++ c :: rest) = (if n =? - 2 ^ 31 then UB else Ok n).
Proof.
  intros Hn Hc.
  assert (Hrun : forall m signs, 0 <= m <= 2 ^ 31 -> signs = [] \/ signs = [45] ->
            str2int ((signs ++ dec m) ++ c :: rest) =
            if m =? 2 ^ 31 then UB else Ok (sign_of signs * m)).
  { intros m signs Hm Hsigns. destruct (dec_spec m) as [Hv Hf Hl _]; [lia|].
    rewrite <- app_assoc. unfold str2int.
    rewrite signs_run by (destruct Hsigns as [-> | ->]; by repeat constructor).
    assert (Hstop : forall p tail, str2int_signs (dec m ++ tail) p = Ok (p, dec m ++ tail)).
    { intros p tail. destruct Hf as [|d ds Hd1 _]; [done|]. simpl.
      apply digit_range in Hd1. unfold is_sign.
      destruct (Z.eqb_spec 45 d), (Z.eqb_spec d 43); done || lia. }
    rewrite Hstop. cbn [obind]. destruct (Z.eqb_spec m (2 ^ 31)) as [->|].
    - by rewrite digits_overflow by (done || lia).
    - rewrite digits_run by (done || lia). simpl. rewrite Hc, Hv. cbn [obind].
      destruct Hsigns as [-> | ->]; rewrite chk32_ok; unfold sign_of; simpl; f_equal; lia. }
  unfold fmt_d. destruct (Z.ltb_spec n 0).
  - change (45 :: dec (- n)) with ([45] ++ dec (- n)). rewrite Hrun by (lia || auto).
    destruct (Z.eqb_spec (- n) (2 ^ 31)), (Z.eqb_spec n (- 2 ^ 31)); try lia; [done|].
    f_equal. unfold sign_of. simpl. lia.
  - rewrite <- (app_nil_l (dec n)), Hrun by (lia || auto).
    destruct (Z.eqb_spec n (2 ^ 31)), (Z.eqb_spec n (- 2 ^ 31)); try lia.
    f_equal. unfold sign_of. simpl. lia.
Qed.

Lemma str2int_fmt_d_witness : str2int (fmt_d (-305) ++ 0 :: []) = Ok (-305).
Proof. apply (str2int_fmt_d (-305) 0 []); [lia|done]. Defined.

(** *** The packet *)

Definition mac_text : list Z := quoted (codes "iot_mac_addr") ++ 58 :: quoted (codes "A0:CA:11:1A:17:FF").
Definition serial_text (g : globals) : list Z :=
  quoted (codes "iot_request_history_id") ++ 58 :: quoted (fmt_d (recv_serial g)).
Definition chk_text (g : globals) : list Z :=
  quoted (codes "check_time") ++ 58 :: quoted (time_text g).
Definition data_text (g : globals) : list Z :=
  quoted (codes "check_data") ++ 58 ::
  render (JArr [item_tree "5" (iot_item_1 g); item_tree "6" (iot_item_2 g)]).

Lemma mac_format :
  format (q "'iot_mac_addr':'%02X:%02X:%02X:%02X:%02X:%02X'") (map AInt MAC_ADDR) = Ok mac_text.
Proof. vm_compute. reflexivity. Qed.

Lemma serial_format n :
  format (q "'iot_request_history_id':'%d'") [AInt n] =
  Ok (quoted (codes "iot_request_history_id") ++ 58 :: quoted (fmt_d n)).
Proof. reflexivity. Qed.

Lemma chk_format g :
  format (q "'check_time':'%.4d-%.2d-%.2d:%.2d:%.2d:%.2d'")
    [AInt (RTC_year g); AInt (RTC_month g); AInt (RTC_day g);
     AInt (RTC_hour g); AInt (RTC_minute g); AInt (RTC_second g)] = Ok (chk_text g).
Proof.
  unfold chk_text, time_text, quoted. list_norm. lazy -[fmt_pd RTC_year RTC_month RTC_day
    RTC_hour RTC_minute RTC_second]. reflexivity.
Qed.

Lemma data_format g :
  format (q "'check_data':[{'iot_item_id':'5','data':'%f'},{'iot_item_id':'6','data':'%f'}]")
    [AFlt (iot_item_1 g); AFlt (iot_item_2 g)] = Ok (data_text g).
Proof.
  unfold data_text, item_tree. cbn [render map join fst snd]. unfold quoted. list_norm.
  lazy -[fmt_f iot_item_1 iot_item_2]. reflexivity.
Qed.

Lemma render_packet g :
  render (packet_tree g) =
  123 :: mac_text ++ 44 :: serial_text g ++ 44 :: chk_text g ++ 44 :: data_text g ++ [125].
Proof.
  unfold packet_tree, mac_text, serial_text, chk_text, data_text.
  cbn [render map join fst snd]. unfold quoted.
  list_norm. reflexivity.
Qed.

Lemma time_len g : globals_ok g -> zlen (time_text g) = 19.
Proof.
  intros []. unfold time_text. rewrite !zlen_app, !zlen_cons, !zlen_app, !zlen_cons, !zlen_app, !zlen_cons.
  rewrite !zlen_app, !zlen_cons, !zlen_app, !zlen_cons, !fmt_pd_len by (simpl; lia). lia.
Qed.

Lemma packet_format m1 m2 m3 m4 t1 t2 t3 t4 :
  cstring m1 = Ok t1 -> cstring m2 = Ok t2 -> cstring m3 = Ok t3 -> cstring m4 = Ok t4 ->
  format "{%s,%s,%s,%s}" [AStr m1; AStr m2; AStr m3; AStr m4] =
  Ok (123 :: t1 ++ 44 :: t2 ++ 44 :: t3 ++ 44 :: t4 ++ [125]).
Proof. intros H1 H2 H3 H4. cbn -[cstring Z.of_nat]. rewrite H4, H3, H2, H1. reflexivity. Qed.

Lemma post_format m t :
  cstring m = Ok t -> format (String.append "%sEOF" crlf) [AStr m] = Ok (t ++ [69; 79; 70; 13; 10]).
Proof. intros H. cbn -[cstring Z.of_nat]. by rewrite H. Qed.

Lemma prints_finite k x : prints_below k x -> finite_ok x.
Proof. destruct x; simpl; tauto. Qed.

Lemma plain_str_ok l : Forall (fun c => plain c = true) l -> str_ok l = true.
Proof.
  induction 1 as [|c l Hc _ IH]; [done|]. unfold plain in Hc.
  apply andb_prop in Hc as [Hc H92]. apply andb_prop in Hc as [Hc H34].
  apply andb_prop in Hc as [H32 _]. apply Z.leb_le in H32. simpl.
  destruct (Z.eqb_spec c 92); [done|]. destruct (Z.eqb_spec c 0); [lia|]. by rewrite H34.
Qed.

Lemma time_plain g : Forall (fun c => plain c = true) (time_text g).
Proof.
  unfold time_text.
  repeat first [apply fmt_pd_plain | apply Forall_cons_2; [done|] | apply Forall_app_2].
Qed.

Lemma packet_ok g : globals_ok g -> json_ok (packet_tree g) = true.
Proof.
  intros []. unfold packet_tree, item_tree. cbn [json_ok forallb fst snd].
  rewrite !(plain_str_ok (fmt_f _)) by eauto using fmt_f_plain, prints_finite.
  rewrite (plain_str_ok (fmt_d _)) by apply fmt_d_plain.
  rewrite (plain_str_ok (time_text g)) by apply time_plain.
  vm_compute. reflexivity.
Qed.

(** Every text printed is free of NUL, so that the next sprintf reads all of it. *)
Lemma quoted_nonzero l : Forall (fun c => plain c = true) l -> Forall (fun c => c <> 0) (quoted l).
Proof.
  intros H. unfold quoted. constructor; [done|]. rewrite Forall_app.
  split; [by apply plain_nonzero|by repeat constructor].
Qed.

Lemma codes_plain_nonzero s : forallb plain (codes s) = true -> Forall (fun c => c <> 0) (quoted (codes s)).
Proof. intros H. apply quoted_nonzero, Forall_forall. intros c Hc. rewrite forallb_forall in H. by apply H. Qed.

Lemma member_nonzero k l :
  forallb plain (codes k) = true -> Forall (fun c => plain c = true) l ->
  Forall (fun c => c <> 0) (quoted (codes k) ++ 58 :: quoted l).
Proof.
  intros. rewrite Forall_app. split; [by apply codes_plain_nonzero|].
  constructor; [done|]. by apply quoted_nonzero.
Qed.

Lemma item_nonzero id x :
  forallb plain (codes id) = true -> finite_ok x ->
  Forall (fun c => c <> 0) (render (item_tree id x)).
Proof.
  intros. unfold item_tree. cbn [render map join fst snd]. constructor; [done|].
  rewrite !Forall_app. split; [|by repeat constructor]. split; [split|].
  - by apply codes_plain_nonzero.
  - constructor; [done|]. by apply codes_plain_nonzero.
  - constructor; [done|]. apply member_nonzero; [done|]. by apply fmt_f_plain.
Qed.

Lemma data_nonzero g : globals_ok g -> Forall (fun c => c <> 0) (data_text g).
Proof.
  intros []. unfold data_text. cbn [render map join].
  rewrite Forall_app. split; [by apply codes_plain_nonzero|].
  do 2 (constructor; [done|]). rewrite !Forall_app.
  repeat split; [eauto using item_nonzero, prints_finite| |by repeat constructor].
  constructor; [done|]. eauto using item_nonzero, prints_finite.
Qed.

Lemma data_len g : globals_ok g -> zlen (data_text g) <= 149.
Proof.
  intros []. pose proof (fmt_f_len 28 _ ltac:(lia) ok_item_3).
  pose proof (fmt_f_len 28 _ ltac:(lia) ok_item_4).
  unfold data_text, item_tree. cbn [render map join fst snd]. unfold quoted.
  repeat (rewrite zlen_app || rewrite zlen_cons || rewrite zlen_nil).
  repeat match goal with |- context [zlen (codes ?s)] =>
    let v := eval vm_compute in (zlen (codes s)) in change (zlen (codes s)) with v end.
  lia.
Qed.

Lemma mac_nonzero : Forall (fun c => c <> 0) mac_text.
Proof. apply Forall_forall. by vm_compute; intuition congruence. Qed.

Lemma serial_nonzero g : Forall (fun c => c <> 0) (serial_text g).
Proof. apply member_nonzero; [done|apply fmt_d_plain]. Qed.

Lemma chk_nonzero g : Forall (fun c => c <> 0) (chk_text g).
Proof. apply member_nonzero; [done|apply time_plain]. Qed.

Lemma serial_len g : globals_ok g -> zlen (serial_text g) <= 38.
Proof.
  intros []. pose proof (fmt_d_len _ ok_serial0). unfold serial_text, quoted.
  rewrite !zlen_app, !zlen_cons, !zlen_app. vm_compute (zlen (codes _)).
  change (zlen [34]) with 1. lia.
Qed.

Lemma chk_len g : globals_ok g -> zlen (chk_text g) = 34.
Proof.
  intros H. unfold chk_text, quoted. rewrite !zlen_app, !zlen_cons, !zlen_app, time_len by done.
  vm_compute (zlen (codes _)). change (zlen [34]) with 1. lia.
Qed.

Lemma packet_len g : globals_ok g -> zlen (render (packet_tree g)) <= 260.
Proof.
  intros H. rewrite render_packet. pose proof (serial_len g H). pose proof (data_len g H).
  repeat (rewrite zlen_cons || rewrite zlen_app). rewrite (chk_len g H).
  change (zlen mac_text) with 34. change (zlen (@nil Z)) with 0. lia.
Qed.

Lemma packet_nonzero g : globals_ok g -> Forall (fun c => c <> 0) (render (packet_tree g)).
Proof.
  intros H. rewrite render_packet.
  apply Forall_cons_2; [done|]. apply Forall_app_2; [apply mac_nonzero|].
  apply Forall_cons_2; [done|]. apply Forall_app_2; [apply serial_nonzero|].
  apply Forall_cons_2; [done|]. apply Forall_app_2; [apply chk_nonzero|].
  apply Forall_cons_2; [done|]. apply Forall_app_2; [by apply data_nonzero|].
  by repeat constructor.
Qed.

(** What json_Packet_Gen writes. *)
Lemma packet_gen_spec g fr :
  frame_ok fr -> globals_ok g ->
  exists g', json_Packet_Gen g fr = Ok (1, g') /\
    post_packet g' = render (packet_tree g) ++ [69; 79; 70; 13; 10] ++
      0 :: drop (S (length (render (packet_tree g) ++ [69; 79; 70; 13; 10]))) (post_packet g).
Proof.
  intros (Hj & Hm & Hr & Ht & Hd) Hg. unfold json_Packet_Gen.
  pose proof (serial_len g Hg). pose proof (chk_len g Hg). pose proof (data_len g Hg).
  pose proof (packet_len g Hg).
  rewrite (sprintf_ok _ _ _ _ mac_format) by (rewrite Hm; done). cbn [obind].
  rewrite (sprintf_ok _ _ _ _ (serial_format (recv_serial g))) by (fold (serial_text g); lia).
  cbn [obind]. fold (serial_text g).
  rewrite (sprintf_ok _ _ _ _ (chk_format g)) by lia. cbn [obind].
  rewrite (sprintf_ok _ _ _ _ (data_format g)) by lia. cbn [obind].
  rewrite (sprintf_ok _ _ _ (render (packet_tree g))) by
    (rewrite ?render_packet; try apply packet_format;
     first [apply cstring_app, mac_nonzero | apply cstring_app, serial_nonzero
       | apply cstring_app, chk_nonzero | by apply cstring_app, data_nonzero
       | rewrite <- render_packet; lia]).
  cbn [obind]. rewrite strlen_app by (by apply packet_nonzero). cbn [obind].
  rewrite (sprintf_ok _ _ _ _ (post_format _ _ (cstring_app _ _ (packet_nonzero g Hg)))).
  2: { rewrite zlen_app, (ok_post g Hg). change (zlen [69; 79; 70; 13; 10]) with 5. lia. }
  cbn [obind]. eexists. split; [reflexivity|]. cbn [post_packet]. by rewrite <- app_assoc.
Qed.

Lemma packet_tokens g : zlen (tokens_of 0 (packet_tree g)) = 19.
Proof. reflexivity. Qed.

(** C40: json_Packet_Gen posts the JSON document it means to. With its globals
    in their ranges and buffers of any previous content, no sprintf
    overflows its buffer, the function returns 1, post_packet holds the text
    of the request document, the marker EOF CR LF and a terminator, and jsmn
    reads that text back as the document, in 19 tokens. *)
Theorem json_Packet_Gen_posts_document g fr toks :
  frame_ok fr -> globals_ok g -> 19 <= zlen toks < 2 ^ 31 ->
  exists g', json_Packet_Gen g fr = Ok (1, g') /\
    cstring (post_packet g') = Ok (render (packet_tree g) ++ [69; 79; 70; 13; 10]) /\
    zlen (post_packet g') = 450 /\
    jsmn_parse jsmn_init (post_packet g') (zlen (render (packet_tree g))) (Some toks) (zlen toks) =
      Ok (19, Parser (zlen (render (packet_tree g))) 19 (-1),
          Some (tokens_of 0 (packet_tree g) ++ drop 19 toks)).
Proof.
  intros Hfr Hg Htoks. destruct (packet_gen_spec g fr Hfr Hg) as (g' & Hrun & Hpost).
  pose proof (packet_len g Hg) as Hlen. exists g'. split; [done|]. rewrite Hpost.
  split; [|split].
  - rewrite app_assoc. apply cstring_app, Forall_app_2; [by apply packet_nonzero|by repeat constructor].
  - pose proof (ok_post g Hg). revert Hlen. generalize (render (packet_tree g)). intros t Hlen.
    unfold zlen in *. rewrite !length_app. simpl length.
    rewrite length_drop. lia.
  - rewrite (parse_render (packet_tree g) _ toks); [done|by apply packet_ok|lia|lia|].
    rewrite packet_tokens. lia.
Qed.

(** The values the file initialises its globals with, a serial number of 7. *)
Definition sample_globals : globals :=
  Globals 7 (Fin false 11639194 (-20)) (Fin false 12687770 (-20)) 2017 7 10 10 15 7 (replicate 450 0).
Definition sample_frame : gen_frame :=
  Frame (replicate 300 0) (replicate 40 0) (replicate 40 0) (replicate 40 0) (replicate 150 0).

Lemma json_Packet_Gen_posts_document_witness :
  exists g', json_Packet_Gen sample_globals sample_frame = Ok (1, g') /\
    cstring (post_packet g') = Ok (render (packet_tree sample_globals) ++ [69; 79; 70; 13; 10]) /\
    zlen (post_packet g') = 450 /\
    jsmn_parse jsmn_init (post_packet g') (zlen (render (packet_tree sample_globals)))
      (Some (replicate 19 (Tok JSMN_UNDEFINED 0 0 0))) 19 =
      Ok (19, Parser (zlen (render (packet_tree sample_globals))) 19 (-1),
          Some (tokens_of 0 (packet_tree sample_globals) ++ [])).
Proof.
  apply (json_Packet_Gen_posts_document sample_globals sample_frame
           (replicate 19 (Tok JSMN_UNDEFINED 0 0 0))).
  - by repeat split.
  - split; simpl; try lia; try (split; [lia|vm_compute; reflexivity]). done.
  - simpl. unfold zlen. simpl. lia.
Defined.

(** The buffers of json_Packet_Gen are not large enough for every float:
    with the two measures at the largest finite value (a sensor that
    overflowed) the text of check_data is 150 characters or more. *)
Theorem json_Packet_Gen_overflow fr :
  frame_ok fr ->
  let big := Fin true (2 ^ 24 - 1) 104 in
  json_Packet_Gen (Globals 7 big big 2017 7 10 10 15 7 (replicate 450 0)) fr = UB.
Proof.
  intros (Hj & Hm & Hr & Ht & Hd) big. set (g := Globals _ _ _ _ _ _ _ _ _ _). unfold json_Packet_Gen.
  rewrite (sprintf_ok _ _ _ _ mac_format) by (rewrite Hm; done). cbn [obind].
  rewrite (sprintf_ok _ _ _ _ (serial_format (recv_serial g))) by (rewrite Hr; done). cbn [obind].
  rewrite (sprintf_ok _ _ _ _ (chk_format g)) by (rewrite Ht; vm_compute; done). cbn [obind].
  rewrite (sprintf_ub _ _ _ _ (data_format g)); [done|]. rewrite Hd. vm_compute. done.
Qed.

Lemma json_Packet_Gen_overflow_witness :
  json_Packet_Gen (Globals 7 (Fin true (2 ^ 24 - 1) 104) (Fin true (2 ^ 24 - 1) 104)
    2017 7 10 10 15 7 (replicate 450 0)) sample_frame = UB.
Proof. apply json_Packet_Gen_overflow. by repeat split. Defined.

(** *** json_Parser *)

(** With room for no token, the parser finds none. *)
Section NoTokens.
Context (js : list Z) (len : Z) (toks : list jsmntok_t).
Hypothesis Hlen : 0 <= len < 2 ^ 31.
Hypothesis Hjs : len <= Z.of_nat (length js).

Definition at_pos (p : Z) : jstate := JState (Parser p 0 (-1)) (Some toks) 0.

Lemma counted_no_room (r : outcome pstate) p :
  wp r (fun x => fst (fst x) < 0) ->
  wp (jsmn_counted r 0) (fun o => match o with inl (ret, _) => ret < 0 | inr st => st = at_pos p end).
Proof.
  intros H. unfold jsmn_counted. wpb H. intros [[ret p'] o] Hr. simpl in Hr.
  destruct (Z.ltb_spec ret 0); [done|lia].
Qed.

Lemma string_no_room p :
  0 <= p < len -> wp (jsmn_parse_string (Parser p 0 (-1)) js len (Some toks) 0) (fun x => fst (fst x) < 0).
Proof.
  intros Hp. unfold jsmn_parse_string. cbn [pos]. rewrite (u32_small (p + 1)) by lia.
  wpb string_loop_spec; [lia..|]. by intros [qp| |] _.
Qed.

Lemma primitive_no_room p :
  0 <= p < len -> wp (jsmn_parse_primitive (Parser p 0 (-1)) js len (Some toks) 0) (fun x => fst (fst x) < 0).
Proof.
  intros Hp. unfold jsmn_parse_primitive. cbn [pos].
  wpb primitive_loop_spec; [lia..|]. by intros [qp|] _.
Qed.

Lemma char_no_room p c :
  0 <= p < len ->
  wp (jsmn_parse_char js len 0 (at_pos p) c)
     (fun o => match o with inl (ret, _) => ret < 0 | inr st => st = at_pos p end).
Proof.
  intros Hp. unfold jsmn_parse_char, at_pos. cbn [jp jtoks jcount].
  destruct ((c =? 123) || (c =? 91)); [done|].
  destruct ((c =? 125) || (c =? 93)); [done|].
  destruct (c =? 34); [by apply counted_no_room, string_no_room|].
  destruct (is_space c); [done|]. destruct (c =? 58); [done|]. destruct (c =? 44); [done|].
  by apply counted_no_room, primitive_no_room.
Qed.

Lemma loop_no_room fuel p :
  0 <= p <= len -> len - p < Z.of_nat fuel ->
  wp (jsmn_loop fuel js len 0 (at_pos p)) (fun r => fst r <= 0).
Proof.
  revert p. induction fuel as [|fuel IH]; intros p Hp Hf; [lia|]. simpl.
  destruct (Z.ltb_spec p len); [|done]. wpr. intros c _. destruct (c =? 0); [done|].
  wpb char_no_room; [lia|]. intros [[ret st]|st]; simpl; [lia|]. intros ->.
  unfold jstate_next, at_pos, set_pos. cbn [jp jtoks jcount pos toknext toksuper].
  rewrite u32_small by lia. apply IH; lia.
Qed.
End NoTokens.

(** Json_Parser recognises nothing. It passes the number of elements of
    its array as [sizeof(t) / sizeof(t[0])] of a pointer, which is 0, so on
    every text and every token array a fresh parser finds no token and the
    function returns 1, its error result. *)
Theorem json_Parser_rejects_all t s rest :
  Forall (fun c => c <> 0) s -> zlen s < 2 ^ 31 ->
  json_Parser t jsmn_init (s ++ 0 :: rest) = Ok 1.
Proof.
  intros Hs Hl. unfold json_Parser. rewrite strlen_app by done. cbn [obind].
  change json_num_tokens with 0. unfold jsmn_parse.
  pose proof (loop_no_room (s ++ 0 :: rest) (zlen s) t) as H. pose proof (zlen_nonneg s).
  specialize (H ltac:(lia)). rewrite length_app in H. specialize (H ltac:(unfold zlen; lia)).
  specialize (H (S (Z.to_nat (zlen s))) 0 ltac:(lia) ltac:(lia)).
  apply wp_ok in H as ([r st] & E & Hr). simpl in Hr. unfold at_pos in E.
  change (s32 (toknext jsmn_init)) with 0. unfold jsmn_init. rewrite E. cbn [obind].
  destruct (Z.ltb_spec r 0); [done|]. by destruct (Z.ltb_spec r 1); [|lia].
Qed.

Lemma json_Parser_rejects_all_witness :
  json_Parser (replicate 128 (Tok JSMN_UNDEFINED 0 0 0)) jsmn_init (sample_text ++ 0 :: []) = Ok 1.
Proof. apply json_Parser_rejects_all; [by repeat constructor|done]. Defined.
