(* ===== verification/Ring.v ===== *)
(** * Circular buffers

    [ring_at buf get l]: the elements of [l], oldest first, lie in [buf] from
    index [get] on, around the end of the array. The serial driver keeps its
    transmit and receive buffers in this form. *)

From S2P Require Import Prelude.

Section Ring.
Context {A : Type}.
Implicit Types (buf l : list A) (get size : Z) (x : A).

Record ring_at (size : Z) buf get l : Prop := RingAt {
  ring_size : zlen buf = size;
  ring_get : 0 <= get < size;
  ring_len : zlen l <= size;
  ring_elem : forall k y, l !! k = Some y -> buf !! Z.to_nat ((get + Z.of_nat k) mod size) = Some y;
}.

Lemma ring_empty size buf get : zlen buf = size -> 0 <= get < size -> ring_at size buf get [].
Proof. intros. split; [done..|rewrite zlen_nil; lia|done]. Qed.

(** The slot after the last element is not one of the elements. *)
Lemma ring_slot_fresh size get n k :
  0 <= k < n -> n < size -> (get + k) mod size <> (get + n) mod size.
Proof.
  intros Hk Hn E. assert (Hd : (n - k) mod size = 0).
  { replace (n - k) with ((get + n) - (get + k)) by lia.
    rewrite Zminus_mod, E, Z.sub_diag. apply Z.mod_0_l. lia. }
  rewrite Z.mod_small in Hd; lia.
Qed.

(** Storing behind the last element appends. *)
Lemma ring_push size buf get l x :
  ring_at size buf get l -> zlen l < size ->
  ring_at size (<[Z.to_nat ((get + zlen l) mod size) := x]> buf) get (l ++ [x]).
Proof.
  intros [Hs Hg Hl He] Hroom. pose proof (zlen_nonneg l).
  split; [unfold zlen; by rewrite length_insert|done|rewrite zlen_app; change (zlen [x]) with 1; lia|].
  assert (Hm : forall k, 0 <= (get + k) mod size < size) by (intros; apply Z.mod_pos_bound; lia).
  intros k y Hk. destruct (decide (k < length l)%nat) as [Hlt|Hge].
  - rewrite lookup_app_l in Hk by done.
    rewrite list_lookup_insert_ne; [by apply He|].
    intros E. apply Z2Nat.inj in E; [|apply Hm..].
    symmetry in E. revert E. apply ring_slot_fresh; unfold zlen in *; lia.
  - apply lookup_lt_Some in Hk as Hlen. rewrite length_app in Hlen. simpl in Hlen.
    assert (k = length l) as -> by lia.
    rewrite lookup_app_r, Nat.sub_diag in Hk by lia. injection Hk as <-.
    apply list_lookup_insert_eq. pose proof (Hm (zlen l)). unfold zlen in *. lia.
Qed.

(** The oldest element is at [get], and the others start behind it. *)
Lemma ring_pop size buf get l x :
  ring_at size buf get (x :: l) ->
  buf !! Z.to_nat get = Some x /\ ring_at size buf ((get + 1) mod size) l.
Proof.
  intros [Hs Hg Hl He]. rewrite zlen_cons in Hl. split.
  - specialize (He O x eq_refl). change (Z.of_nat 0) with 0 in He.
    by rewrite Z.add_0_r, Z.mod_small in He.
  - split; [done|apply Z.mod_pos_bound; lia|lia|].
    intros k y Hk. specialize (He (S k) y Hk).
    rewrite Zplus_mod_idemp_l. by replace (get + 1 + Z.of_nat k) with (get + Z.of_nat (S k)) by lia.
Qed.

(** Storing in the slot in front of the oldest element prepends. *)
Lemma ring_push_front size buf get l x :
  ring_at size buf get l -> zlen l < size ->
  ring_at size (<[Z.to_nat ((get - 1) mod size) := x]> buf) ((get - 1) mod size) (x :: l).
Proof.
  intros [Hs Hg Hl He] Hroom. pose proof (zlen_nonneg l).
  assert (Hm : forall k, 0 <= k mod size < size) by (intros; apply Z.mod_pos_bound; lia).
  assert (Hnext : forall k, ((get - 1) mod size + Z.of_nat (S k)) mod size = (get + Z.of_nat k) mod size).
  { intros k. rewrite Zplus_mod_idemp_l. f_equal. lia. }
  split; [unfold zlen; by rewrite length_insert|apply Hm|rewrite zlen_cons; lia|].
  intros [|k] y Hk.
  - injection Hk as <-. change (Z.of_nat 0) with 0. rewrite Z.add_0_r, Z.mod_mod by lia.
    apply list_lookup_insert_eq. specialize (Hm (get - 1)). unfold zlen in *. lia.
  - cbn in Hk. rewrite Hnext. apply lookup_lt_Some in Hk as Hlt. unfold zlen in *.
    rewrite list_lookup_insert_ne; [by apply He|].
    intros E. apply Z2Nat.inj in E; [|apply Hm..].
    assert (Hz : (get - 1) mod size = (get + (size - 1)) mod size).
    { replace (get + (size - 1)) with (get - 1 + 1 * size) by lia. by rewrite Z_mod_plus_full. }
    rewrite Hz in E. symmetry in E. revert E.
    apply ring_slot_fresh; lia.
Qed.

(** Writing a slot outside of the elements keeps them. *)
Lemma ring_other size buf get l x i :
  ring_at size buf get l ->
  (forall k, 0 <= k < zlen l -> i <> (get + k) mod size) -> 0 <= i ->
  ring_at size (<[Z.to_nat i := x]> buf) get l.
Proof.
  intros [Hs Hg Hl He] Hi Hpos. split; [unfold zlen; by rewrite length_insert|done|done|].
  intros k y Hk. apply lookup_lt_Some in Hk as Hlt.
  rewrite list_lookup_insert_ne; [by apply He|].
  intros E. apply Z2Nat.inj in E; [|done|apply Z.mod_pos_bound; lia].
  apply (Hi (Z.of_nat k)); [unfold zlen; lia|done].
Qed.

(** *** Indices: with less than [size] elements, the distance of the two
    indices is their number. *)
Lemma ring_count size buf get l :
  ring_at size buf get l -> zlen l < size ->
  ((get + zlen l) mod size - get) mod size = zlen l.
Proof.
  intros [] ?. rewrite Zminus_mod_idemp_l. pose proof (zlen_nonneg l).
  replace (get + zlen l - get) with (zlen l) by lia. apply Z.mod_small. lia.
Qed.

Lemma ring_full_empty size buf get l :
  ring_at size buf get l -> zlen l < size ->
  (get = (get + zlen l) mod size <-> l = []).
Proof.
  intros Hr Hl. split; [|intros ->; destruct Hr; rewrite zlen_nil, Z.add_0_r, Z.mod_small; done].
  intros E. pose proof (ring_count _ _ _ _ Hr Hl) as Hc. rewrite <- E, Z.sub_diag in Hc.
  rewrite Zmod_0_l in Hc. destruct l; [done|]. rewrite zlen_cons in Hc. pose proof (zlen_nonneg l). lia.
Qed.

End Ring.
