(* ===== verification/Uart.v ===== *)
(** * The serial driver: Project/*/*/src/UART_Perlib.c

    Transmission on USART2 goes through a circular buffer of 256 entries that
    the interrupt handler empties, on USART3 straight to the data register;
    reception on USART2 is a circular DMA buffer. The text printers of the
    two ports are the same code over another PutChar: they are written once,
    over the interface [CharSink]. *)

From S2P Require Import Prelude CStd Ring.

(** ** Printers over a character sink *)

(** What a port promises its printers: a PutChar. *)
Class CharSink (S : Type) : Type := put_char : S -> Z -> outcome S.

Section Printers.
Context {S : Type} `{!CharSink S}.

(** Writing a list of characters one by one: what the printers amount to. *)
Fixpoint puts (st : S) (s : list Z) : outcome S :=
  match s with
  | [] => Ok st
  | c :: r => let! st' := put_char st c in puts st' r
  end.

Fixpoint put_string (st : S) (str : list Z) : outcome S :=
  match str with
  | [] => UB
  | c :: r => if c =? 0 then Ok st else let! st' := put_char st (u8 c) in put_string st' r
  end.

(** [while (n / r) r *= 10;] *)
Fixpoint int_scale (fuel : nat) (n r : Z) : outcome Z :=
  match fuel with
  | O => NoFuel
  | Datatypes.S fuel =>
      if n ÷ r =? 0 then Ok r else let! r' := chk32 (r * 10) in int_scale fuel n r'
  end.

(** [while (r != 1) ...] *)
Fixpoint int_digits (fuel : nat) (st : S) (n r : Z) : outcome S :=
  match fuel with
  | O => NoFuel
  | Datatypes.S fuel =>
      if r =? 1 then Ok st
      else
        let r' := r ÷ 10 in
        let! r10 := chk32 (r' * 10) in
        let! st' := put_char st (u8 (Z.rem n r10 ÷ r' + 48)) in
        int_digits fuel st' n r'
  end.

Definition put_int (st : S) (n : Z) : outcome S :=
  if n =? 0 then put_char st 48
  else
    let! (st', n') :=
      (if n <? 0 then
         let! st' := put_char st 45 in
         let! n' := chk32 (- n) in Ok (st', n')
       else Ok (st, n)) in
    let! r := int_scale 11 n' 1 in
    int_digits 11 st' n' r.

(** *** What they print *)

Lemma puts_app st s1 s2 : puts st (s1 ++ s2) = let! st' := puts st s1 in puts st' s2.
Proof. revert st. induction s1 as [|c s1 IH]; intros st; [done|]. simpl. by destruct (put_char st c); simpl. Qed.

Lemma put_string_spec st s r :
  Forall (fun c => 0 < c < 256) s -> put_string st (s ++ 0 :: r) = puts st s.
Proof.
  intros H. revert st. induction H as [|c s Hc _ IH]; intros st; [done|]. simpl.
  destruct (Z.eqb_spec c 0); [lia|]. rewrite u8_small by lia. by destruct (put_char st c); simpl.
Qed.

(** The last [k] decimal digits. *)
Fixpoint digs (k : nat) (n : Z) : list Z :=
  match k with
  | O => []
  | Datatypes.S k => (48 + n mod 10 ^ Z.of_nat (Datatypes.S k) / 10 ^ Z.of_nat k) :: digs k n
  end.

Lemma digs_zlen k n : zlen (digs k n) = Z.of_nat k.
Proof. induction k; [done|]. simpl digs. rewrite zlen_cons, IHk. lia. Qed.

Lemma pow10_S k : 10 ^ Z.of_nat (Datatypes.S k) = 10 * 10 ^ Z.of_nat k.
Proof. rewrite Nat2Z.inj_succ, Z.pow_succ_r; lia. Qed.

Lemma pow10_pos k : 0 < 10 ^ Z.of_nat k.
Proof. apply Z.pow_pos_nonneg; lia. Qed.

Lemma top_digit k n :
  0 <= n -> 0 <= n mod 10 ^ Z.of_nat (Datatypes.S k) / 10 ^ Z.of_nat k <= 9.
Proof.
  intros Hn. pose proof (pow10_pos k). rewrite pow10_S.
  pose proof (Z.mod_pos_bound n (10 * 10 ^ Z.of_nat k) ltac:(lia)).
  split; [apply Z.div_pos; lia|]. apply Z.lt_succ_r, Z.div_lt_upper_bound; lia.
Qed.

Lemma digs_digits k n : 0 <= n -> Forall (fun c => is_digit c = true) (digs k n).
Proof.
  intros Hn. induction k; [constructor|]. cbn [digs]. constructor; [|done].
  apply digit_range. pose proof (top_digit k n Hn). lia.
Qed.

Lemma digs_value k n : 0 <= n -> dval (digs k n) = n mod 10 ^ Z.of_nat k.
Proof.
  intros Hn. induction k as [|k IH]; [by rewrite Z.mod_1_r|].
  cbn [digs]. rewrite dval_cons, digs_zlen, IH. pose proof (pow10_pos k). rewrite pow10_S.
  rewrite (Z.mul_comm 10), Z.rem_mul_r by lia.
  pose proof (Z.mod_pos_bound n (10 ^ Z.of_nat k) ltac:(lia)).
  rewrite (Z.mul_comm (10 ^ _) (_ mod 10)), Z.div_add by lia.
  rewrite (Z.div_small (n mod _)) by lia. lia.
Qed.

Lemma digs_dec k n : 10 ^ (Z.of_nat k - 1) <= n < 10 ^ Z.of_nat k -> (0 < k)%nat -> digs k n = dec n.
Proof.
  intros Hn Hk. assert (0 <= n) by (pose proof (Z.pow_nonneg 10 (Z.of_nat k - 1)); lia).
  symmetry. apply dec_unique. split.
  - rewrite digs_value by done. apply Z.mod_small. lia.
  - by apply digs_digits.
  - rewrite digs_zlen. lia.
  - rewrite digs_zlen. right. lia.
Qed.

Lemma int_scale_spec fuel j n :
  0 < n < 10 ^ 9 -> (j <= 9)%nat -> (10 <= fuel + j)%nat ->
  (j = 0%nat \/ 10 ^ (Z.of_nat j - 1) <= n) ->
  exists k, int_scale fuel n (10 ^ Z.of_nat j) = Ok (10 ^ Z.of_nat k) /\ (0 < k <= 9)%nat /\
    10 ^ (Z.of_nat k - 1) <= n < 10 ^ Z.of_nat k.
Proof.
  intros Hn. revert j. induction fuel as [|fuel IH]; intros j Hj Hf Hlo; [lia|]. simpl.
  pose proof (pow10_pos j). rewrite Z.quot_div_nonneg by lia.
  destruct (Z.eqb_spec (n / 10 ^ Z.of_nat j) 0) as [E|E].
  - exists j. apply Z.div_small_iff in E; [|lia]. split; [done|].
    destruct Hlo as [->|Hlo]; [simpl in E; lia|]. split; [|lia].
    destruct j; [simpl in *; lia|lia].
  - assert (10 ^ Z.of_nat j <= n).
    { destruct (Z.le_gt_cases (10 ^ Z.of_nat j) n); [done|]. by rewrite Z.div_small in E by lia. }
    assert (j < 9)%nat.
    { destruct (decide (j < 9)%nat); [done|]. assert (j = 9%nat) as -> by lia. lia. }
    rewrite (Z.mul_comm _ 10), <- pow10_S.
    assert (10 ^ Z.of_nat (Datatypes.S j) <= 10 ^ 9) by (apply Z.pow_le_mono_r; lia).
    pose proof (pow10_pos (Datatypes.S j)).
    rewrite chk32_ok by lia. cbn [obind]. apply IH; [lia|lia|]. right.
    by replace (Z.of_nat (Datatypes.S j) - 1) with (Z.of_nat j) by lia.
Qed.

Lemma int_scale_overflow fuel j n :
  10 ^ 9 <= n -> (j <= 9)%nat -> (10 <= fuel + j)%nat ->
  int_scale fuel n (10 ^ Z.of_nat j) = UB.
Proof.
  intros Hn. revert j. induction fuel as [|fuel IH]; intros j Hj Hf; [lia|]. simpl.
  pose proof (pow10_pos j). rewrite Z.quot_div_nonneg by lia.
  assert (10 ^ Z.of_nat j <= 10 ^ 9) by (apply Z.pow_le_mono_r; lia).
  destruct (Z.eqb_spec (n / 10 ^ Z.of_nat j) 0) as [E|_].
  { apply Z.div_small_iff in E; lia. }
  rewrite (Z.mul_comm _ 10), <- pow10_S.
  destruct (decide (j = 9%nat)) as [->|]; [done|].
  assert (10 ^ Z.of_nat (Datatypes.S j) <= 10 ^ 9) by (apply Z.pow_le_mono_r; lia).
  pose proof (pow10_pos (Datatypes.S j)).
  rewrite chk32_ok by lia. cbn [obind]. apply IH; lia.
Qed.

Lemma int_digits_spec fuel st n k :
  0 <= n -> (k < fuel)%nat -> (k <= 9)%nat ->
  int_digits fuel st n (10 ^ Z.of_nat k) = puts st (digs k n).
Proof.
  intros Hn. revert st k. induction fuel as [|fuel IH]; intros st k Hk Hk9; [lia|].
  destruct k as [|k]; [done|]. cbn [int_digits digs puts].
  pose proof (pow10_pos k). rewrite pow10_S.
  destruct (Z.eqb_spec (10 * 10 ^ Z.of_nat k) 1); [lia|].
  rewrite (Z.mul_comm 10), Z.quot_mul by lia.
  assert (10 ^ Z.of_nat k <= 10 ^ 8) by (apply Z.pow_le_mono_r; lia).
  rewrite chk32_ok by lia. cbn [obind].
  rewrite Z.rem_mod_nonneg by lia.
  pose proof (Z.mod_pos_bound n (10 ^ Z.of_nat k * 10) ltac:(lia)).
  rewrite Z.quot_div_nonneg by lia.
  pose proof (top_digit k n Hn) as Htop. rewrite pow10_S, (Z.mul_comm 10) in Htop.
  rewrite Z.add_comm, u8_small by lia.
  destruct (put_char st _) as [st'| |]; [|done..]. cbn [obind]. apply IH; lia.
Qed.

(** On every int: the decimal text below 10^9, an overflow from there on. *)
Lemma put_int_eq st n :
  - 2 ^ 31 <= n < 2 ^ 31 ->
  put_int st n =
    if Z.abs n <? 10 ^ 9 then puts st (fmt_d n)
    else let! _ := (if n <? 0 then put_char st 45 else Ok st) in UB.
Proof.
  intros Hn. unfold put_int, fmt_d. destruct (Z.eqb_spec n 0) as [->|Hz].
  { change (dec 0) with [48]. simpl. by destruct (put_char st 48). }
  assert (Hrun : forall m st', 0 < m < 2 ^ 31 ->
    (let! r := int_scale 11 m 1 in int_digits 11 st' m r) =
    if m <? 10 ^ 9 then puts st' (dec m) else UB).
  { intros m st' Hm. change 1 with (10 ^ Z.of_nat 0). destruct (Z.ltb_spec m (10 ^ 9)).
    - destruct (int_scale_spec 11 0 m) as (k & -> & Hk & Hb); [lia..|by left|]. cbn [obind].
      rewrite int_digits_spec, digs_dec by lia. done.
    - rewrite int_scale_overflow by lia. done. }
  destruct (Z.ltb_spec n 0).
  - destruct (put_char st 45) as [st'| |] eqn:E; cbn [obind puts]; rewrite ?E;
      [|by destruct (_ <? _)..]. cbn [obind].
    replace (Z.abs n) with (- n) by lia. destruct (Z.lt_ge_cases (- n) (2 ^ 31)).
    + rewrite chk32_ok by lia. cbn [obind]. by rewrite Hrun by lia.
    + rewrite chk32_ub by lia. by destruct (Z.ltb_spec (- n) (10 ^ 9)); [lia|].
  - cbn [obind]. rewrite Hrun by lia. by rewrite Z.abs_eq by lia.
Qed.

End Printers.

(** ** USART2: state *)

Definition USART2_RX_BUFFER_SIZE : Z := 256.
Definition USART2_TX_BUFFER_SIZE : Z := 256.

(** The variables of the driver and the registers it uses: [TXEIE] the
    enable bit of the transmit interrupt, [TXE] whether the data register is
    free, [DR] what was last written to it, [line] what left the port,
    [NDTR] the transfers left of the receive DMA. *)
Record usart2 : Type := Usart2 {
  TxBuffer : list Z;
  TxPutIndex : Z;
  TxGetIndex : Z;
  TXEIE : bool;
  TXE : bool;
  DR : Z;
  line : list Z;
  RxBuffer : list Z;
  RxGetIndex : Z;
  NDTR : Z;
}.

Definition set_tx (u : usart2) (b : list Z) (p g : Z) : usart2 :=
  Usart2 b p g (TXEIE u) (TXE u) (DR u) (line u) (RxBuffer u) (RxGetIndex u) (NDTR u).
Definition set_ie (u : usart2) (ie : bool) : usart2 :=
  Usart2 (TxBuffer u) (TxPutIndex u) (TxGetIndex u) ie (TXE u) (DR u) (line u)
    (RxBuffer u) (RxGetIndex u) (NDTR u).
Definition set_dr (u : usart2) (e : bool) (d : Z) (l : list Z) : usart2 :=
  Usart2 (TxBuffer u) (TxPutIndex u) (TxGetIndex u) (TXEIE u) e d l
    (RxBuffer u) (RxGetIndex u) (NDTR u).
Definition set_rx (u : usart2) (b : list Z) (g n : Z) : usart2 :=
  Usart2 (TxBuffer u) (TxPutIndex u) (TxGetIndex u) (TXEIE u) (TXE u) (DR u) (line u) b g n.

(** *** Transmission *)

(** The three statements of USART2_PutChar. *)
Definition put_store (u : usart2) (c : Z) : outcome usart2 :=
  let! b := wr (TxBuffer u) (TxPutIndex u) c in
  Ok (set_tx u b (TxPutIndex u) (TxGetIndex u)).
Definition put_advance (u : usart2) : usart2 :=
  set_tx u (TxBuffer u) (u16 ((TxPutIndex u + 1) mod USART2_TX_BUFFER_SIZE)) (TxGetIndex u).
Definition put_enable (u : usart2) : usart2 := set_ie u true.

Definition USART2_PutChar (u : usart2) (c : Z) : outcome usart2 :=
  let! u1 := put_store u c in Ok (put_enable (put_advance u1)).

#[export] Instance usart2_sink : CharSink usart2 := USART2_PutChar.

Definition USART2_PutString (u : usart2) (str : list Z) : outcome usart2 := put_string u str.
Definition USART2_PutInt (u : usart2) (n : Z) : outcome usart2 := put_int u n.
Definition USART2_PutUINT8 (u : usart2) (n : Z) : outcome usart2 := USART2_PutInt u n.
Definition USART2_PutINT8 (u : usart2) (n : Z) : outcome usart2 := USART2_PutInt u n.
Definition USART2_PutUINT16 (u : usart2) (n : Z) : outcome usart2 := USART2_PutInt u n.
Definition USART2_PutINT16 (u : usart2) (n : Z) : outcome usart2 := USART2_PutInt u n.
Definition USART2_PutUINT32 (u : usart2) (n : Z) : outcome usart2 := USART2_PutInt u (s32 n).
Definition USART2_PutINT32 (u : usart2) (n : Z) : outcome usart2 := USART2_PutInt u n.

(** The handler: the TXE status is the flag masked by its enable bit; a
    write to the data register clears the flag. *)
Definition USART2_IRQHandler (u : usart2) : outcome usart2 :=
  if TXE u && TXEIE u then
    if negb (TxGetIndex u =? TxPutIndex u) then
      let! c := rd (TxBuffer u) (TxGetIndex u) in
      let u1 := set_dr u false c (line u) in
      Ok (set_tx u1 (TxBuffer u1) (TxPutIndex u1)
            (u16 ((TxGetIndex u1 + 1) mod USART2_TX_BUFFER_SIZE)))
    else Ok (set_ie u false)
  else Ok u.

(** The port shifts the data register out. *)
Definition tx_shift (u : usart2) : usart2 := set_dr u true (DR u) (line u ++ [DR u]).

(** *** Reception *)

Definition USART2_GetRxBufferCount (u : usart2) : Z :=
  u16 (Z.rem (u16 (NDTR u) + USART2_RX_BUFFER_SIZE - RxGetIndex u) USART2_RX_BUFFER_SIZE).

Definition USART2_SniffRxBuffer (u : usart2) (index : Z) : outcome Z :=
  if negb (RxGetIndex u =? u16 (NDTR u)) then
    rd (RxBuffer u) (Z.rem (RxGetIndex u + index) USART2_RX_BUFFER_SIZE)
  else Ok 0.

Definition USART2_ClearRxBuffer (u : usart2) : usart2 :=
  set_rx u (RxBuffer u) (u16 (NDTR u)) (NDTR u).

(** The character stored through the pointer, [None] when 0 is returned. *)
Definition USART2_GetChar (u : usart2) : outcome (option Z * usart2) :=
  let putIndex := u16 (USART2_RX_BUFFER_SIZE - u16 (NDTR u)) in
  if negb (RxGetIndex u =? putIndex) then
    let! c := rd (RxBuffer u) (RxGetIndex u) in
    Ok (Some (u8 c), set_rx u (RxBuffer u) (u16 (Z.rem (RxGetIndex u + 1) USART2_RX_BUFFER_SIZE)) (NDTR u))
  else Ok (None, u).

(** The loop of USART2_ReadExisting into the memory at [str]. *)
Fixpoint read_existing_loop (fuel : nat) (u : usart2) (str : list Z) (cnt putIndex : Z)
    : outcome (Z * list Z * usart2) :=
  match fuel with
  | O => NoFuel
  | S fuel =>
      if negb (RxGetIndex u =? putIndex) then
        let! c := rd (RxBuffer u) (RxGetIndex u) in
        let! str' := wr str cnt (u8 c) in
        read_existing_loop fuel
          (set_rx u (RxBuffer u) (u16 (Z.rem (RxGetIndex u + 1) USART2_RX_BUFFER_SIZE)) (NDTR u))
          str' (u16 (cnt + 1)) putIndex
      else Ok (cnt, str, u)
  end.

Definition USART2_ReadExisting (fuel : nat) (u : usart2) (str : list Z)
    : outcome (Z * list Z * usart2) :=
  let! (cnt, str', u') := read_existing_loop fuel u str 0 (u16 (NDTR u)) in
  let! str'' := wr str' cnt 0 in
  Ok (cnt, str'', u').

(** The circular DMA stores a received half word and counts down; after the
    last transfer the count is reloaded. *)
Definition dma_receive (u : usart2) (c : Z) : outcome usart2 :=
  let! b := wr (RxBuffer u) (USART2_RX_BUFFER_SIZE - NDTR u) c in
  Ok (set_rx u b (RxGetIndex u)
        (if NDTR u - 1 =? 0 then USART2_RX_BUFFER_SIZE else NDTR u - 1)).

(** ** USART3: a polled transmitter, and a receiver of calibration commands *)

Definition BUFFER_ARRAY_SIZE : Z := 10.

Record usart3 : Type := Usart3 {
  sent : list Z;
  Buffer_Array : list Z;
  IsReceive : Z;
  exit_calib : Z;
  Rx_GetIndex : Z;
  Buffer_Size : Z;
}.

(** The wait for TXE ends when the port is ready; then the byte is sent. *)
Definition USART3_PutChar (u : usart3) (c : Z) : outcome usart3 :=
  Ok (Usart3 (sent u ++ [c]) (Buffer_Array u) (IsReceive u) (exit_calib u)
        (Rx_GetIndex u) (Buffer_Size u)).

#[export] Instance usart3_sink : CharSink usart3 := USART3_PutChar.

Definition USART3_PutString (u : usart3) (str : list Z) : outcome usart3 := put_string u str.
Definition USART3_PutInt (u : usart3) (n : Z) : outcome usart3 := put_int u n.
Definition USART3_PutUINT8 (u : usart3) (n : Z) : outcome usart3 := USART3_PutInt u n.
Definition USART3_PutINT8 (u : usart3) (n : Z) : outcome usart3 := USART3_PutInt u n.
Definition USART3_PutUINT16 (u : usart3) (n : Z) : outcome usart3 := USART3_PutInt u n.
Definition USART3_PutINT16 (u : usart3) (n : Z) : outcome usart3 := USART3_PutInt u n.
Definition USART3_PutUINT32 (u : usart3) (n : Z) : outcome usart3 := USART3_PutInt u (s32 n).
Definition USART3_PutINT32 (u : usart3) (n : Z) : outcome usart3 := USART3_PutInt u n.

Definition ESC : Z := 27.
Definition Clear_screen (u : usart3) : outcome usart3 :=
  let! u1 := USART3_PutChar u ESC in
  let! u2 := USART3_PutString u1 (codes "[2J" ++ [0]) in
  let! u3 := USART3_PutChar u2 ESC in
  USART3_PutString u3 (codes "[H" ++ [0]).

(** [USART_ReceiveString] on the half word [dr] of the data register (which
    USART_ReceiveChar returns whatever the RXNE flag says). *)
Definition USART_ReceiveChar (dr : Z) : Z := u16 dr.

Definition USART_ReceiveString (u : usart3) (dr : Z) : outcome usart3 :=
  let Receive_Data := USART_ReceiveChar dr in
  let! b := wr (Buffer_Array u) (Rx_GetIndex u) Receive_Data in
  let! i := chk32 (Rx_GetIndex u + 1) in
  let u1 := Usart3 (sent u) b (IsReceive u) (exit_calib u) i (Buffer_Size u) in
  let u2 := if Receive_Data =? 99 (* 'c' *)
            then Usart3 (sent u1) b 1 (exit_calib u1) 0 (Rx_GetIndex u1) else u1 in
  let u3 := if Receive_Data =? 113 (* 'q' *)
            then Usart3 (sent u2) b (IsReceive u2) 1 0 (Rx_GetIndex u2) else u2 in
  Ok u3.

(** The handler when RXNE is pending: one call per received half word. *)
Definition USART3_IRQHandler (u : usart3) (rxne : option Z) : outcome usart3 :=
  match rxne with
  | Some dr => USART_ReceiveString u dr
  | None => Ok u
  end.

(** ** Transmission as interleaved steps *)

(** Where the task is in USART2_PutChar: the interrupt handler and the port
    run between any two of its statements. *)
Inductive tx_pc : Type :=
  | Idle
  | AtStore (c : Z)
  | AtAdvance (c : Z)
  | AtEnable.

(** [accepted]: the characters whose call passed its second statement. *)
Record tx_sys : Type := TxSys {
  dev : usart2;
  thread : tx_pc;
  accepted : list Z;
}.

(** The entries waiting, as the two indices show them. *)
Definition tx_pending (u : usart2) : Z :=
  (TxPutIndex u - TxGetIndex u) mod USART2_TX_BUFFER_SIZE.

(** What the hardware does on its own. *)
Inductive hw_step : usart2 -> usart2 -> Prop :=
  | hw_irq u u' : TXE u && TXEIE u = true -> USART2_IRQHandler u = Ok u' -> hw_step u u'
  | hw_shift u : TXE u = false -> hw_step u (tx_shift u).

(** A task calls PutChar only while at most 254 entries wait. *)
Inductive tx_step : tx_sys -> tx_sys -> Prop :=
  | tx_call u a c : tx_pending u < 255 -> tx_step (TxSys u Idle a) (TxSys u (AtStore c) a)
  | tx_store u a c u' :
      put_store u c = Ok u' -> tx_step (TxSys u (AtStore c) a) (TxSys u' (AtAdvance c) a)
  | tx_advance u a c :
      tx_step (TxSys u (AtAdvance c) a) (TxSys (put_advance u) AtEnable (a ++ [c]))
  | tx_enable u a : tx_step (TxSys u AtEnable a) (TxSys (put_enable u) Idle a)
  | tx_hw u u' pc a : hw_step u u' -> tx_step (TxSys u pc a) (TxSys u' pc a).

(** The driver after its configuration: nothing waits, the port is free. *)
Definition usart2_reset : usart2 :=
  Usart2 (replicate 256 0) 0 0 false true 0 [] (replicate 256 0) 0 256.

(** The queue [q] of the characters that wait. *)
Record tx_queue (u : usart2) (q : list Z) : Prop := TxQueue {
  tq_ring : ring_at 256 (TxBuffer u) (TxGetIndex u) q;
  tq_put : TxPutIndex u = (TxGetIndex u + zlen q) mod 256;
  tq_room : zlen q <= 255;
}.

(** In the data register. *)
Definition in_dr (u : usart2) : list Z := if TXE u then [] else [DR u].

Lemma tx_queue_pending u q : tx_queue u q -> tx_pending u = zlen q.
Proof.
  intros [Hr Hp Hl]. unfold tx_pending, USART2_TX_BUFFER_SIZE. rewrite Hp. apply (ring_count _ _ _ _ Hr). lia.
Qed.

Lemma tx_queue_put u q : tx_queue u q -> 0 <= TxPutIndex u < 256.
Proof. intros [Hr Hp Hl]. rewrite Hp. apply Z.mod_pos_bound. lia. Qed.

Lemma put_store_spec u q c :
  tx_queue u q ->
  exists b, put_store u c = Ok (set_tx u b (TxPutIndex u) (TxGetIndex u)) /\
    tx_queue (set_tx u b (TxPutIndex u) (TxGetIndex u)) q /\
    ring_at 256 b (TxGetIndex u) (q ++ [c]).
Proof.
  intros Hq. pose proof (tx_queue_put u q Hq) as Hput. destruct Hq as [Hr Hp Hl].
  unfold put_store. rewrite wr_ok by (pose proof (ring_size _ _ _ _ Hr); unfold zlen in *; lia).
  cbn [obind]. eexists. split; [reflexivity|]. rewrite Hp. split.
  - split; [|by cbn [set_tx TxPutIndex TxGetIndex]|done]. cbn [set_tx TxBuffer TxGetIndex].
    apply ring_other; [done| |apply Z.mod_pos_bound; lia].
    intros k Hk E. symmetry in E. revert E. apply ring_slot_fresh; lia.
  - apply ring_push; [done|lia].
Qed.

Lemma put_advance_spec u q c :
  tx_queue u q -> zlen q <= 254 -> ring_at 256 (TxBuffer u) (TxGetIndex u) (q ++ [c]) ->
  tx_queue (put_advance u) (q ++ [c]).
Proof.
  intros [Hr Hp Hl] Hroom Hr'. split; cbn [put_advance set_tx TxBuffer TxGetIndex TxPutIndex].
  - done.
  - rewrite Hp, zlen_app. change (zlen [c]) with 1. unfold USART2_TX_BUFFER_SIZE.
    rewrite Zplus_mod_idemp_l, Z.add_assoc. apply u16_small.
    pose proof (Z.mod_pos_bound (TxGetIndex u + zlen q + 1) 256). lia.
  - rewrite zlen_app. change (zlen [c]) with 1. lia.
Qed.

(** One call without interruption appends its character. *)
Lemma USART2_PutChar_spec u q c :
  tx_queue u q -> zlen q <= 254 ->
  exists u', USART2_PutChar u c = Ok u' /\ tx_queue u' (q ++ [c]) /\ TXEIE u' = true /\
    TXE u' = TXE u /\ DR u' = DR u /\ line u' = line u.
Proof.
  intros Hq Hroom. destruct (put_store_spec u q c Hq) as (b & Hb & Hq' & Hr).
  unfold USART2_PutChar. rewrite Hb. cbn [obind]. eexists. split; [reflexivity|].
  destruct (put_advance_spec _ q c Hq' Hroom Hr) as [H1 H2 H3]. split; [|done]. by split.
Qed.

(** The handler: the oldest character goes to the data register, or the
    interrupt is disabled when none waits. *)
Lemma USART2_IRQHandler_spec u q :
  tx_queue u q -> TXE u && TXEIE u = true ->
  match q with
  | [] => USART2_IRQHandler u = Ok (set_ie u false) /\ tx_queue (set_ie u false) []
  | c :: r => exists u', USART2_IRQHandler u = Ok u' /\ tx_queue u' r /\
      TXE u' = false /\ DR u' = c /\ TXEIE u' = TXEIE u /\ line u' = line u
  end.
Proof.
  intros [Hr Hp Hl] Hen. unfold USART2_IRQHandler. rewrite Hen.
  pose proof (ring_full_empty _ _ _ _ Hr ltac:(lia)) as Hfe. rewrite Hp.
  destruct (Z.eqb_spec (TxGetIndex u) ((TxGetIndex u + zlen q) mod 256)) as [E|E].
  - apply Hfe in E as ->. split; [done|]. by split.
  - destruct q as [|c r]; [tauto|]. destruct (ring_pop _ _ _ _ _ Hr) as [Hc Hr'].
    pose proof (ring_get _ _ _ _ Hr). cbn [negb]. rewrite (rd_lookup _ _ c) by (lia || done).
    cbn [obind]. eexists. split; [reflexivity|]. rewrite zlen_cons in *. split; [|done].
    assert (Hm : u16 ((TxGetIndex u + 1) mod USART2_TX_BUFFER_SIZE) = (TxGetIndex u + 1) mod 256).
    { apply u16_small. unfold USART2_TX_BUFFER_SIZE.
      pose proof (Z.mod_pos_bound (TxGetIndex u + 1) 256). lia. }
    split; cbn [set_tx set_dr TxBuffer TxGetIndex TxPutIndex]; rewrite ?Hm; [done| |lia].
    rewrite Hp, Zplus_mod_idemp_l. f_equal. lia.
Qed.

(** *** The invariant of the interleaving *)

Definition pc_ok (u : usart2) (q : list Z) (pc : tx_pc) : Prop :=
  match pc with
  | Idle | AtEnable => True
  | AtStore _ => zlen q <= 254
  | AtAdvance c => zlen q <= 254 /\ ring_at 256 (TxBuffer u) (TxGetIndex u) (q ++ [c])
  end.

Record tx_inv (s : tx_sys) (q : list Z) : Prop := TxInv {
  ti_queue : tx_queue (dev s) q;
  ti_pc : pc_ok (dev s) q (thread s);
  ti_fifo : accepted s = line (dev s) ++ in_dr (dev s) ++ q;
  ti_wake : q <> [] -> TXEIE (dev s) = true \/ thread s = AtEnable;
}.

Lemma pc_ok_pop u u' q c pc :
  pc_ok u (c :: q) pc -> TxBuffer u' = TxBuffer u -> TxGetIndex u' = (TxGetIndex u + 1) mod 256 ->
  pc_ok u' q pc.
Proof.
  destruct pc as [|c'|c'|]; simpl; try done; rewrite zlen_cons; [lia|].
  intros [? Hr] -> ->. split; [lia|]. by apply (ring_pop _ _ _ _ c).
Qed.

Lemma irq_get u u' c q :
  tx_queue u (c :: q) -> TXE u && TXEIE u = true -> USART2_IRQHandler u = Ok u' ->
  TxBuffer u' = TxBuffer u /\ TxGetIndex u' = (TxGetIndex u + 1) mod 256.
Proof.
  intros Hq Hen Hirq. destruct (USART2_IRQHandler_spec u _ Hq Hen) as (u2 & H2 & Hq2 & _).
  pose proof H2 as H2'. rewrite Hirq in H2'. injection H2' as <-.
  unfold USART2_IRQHandler in Hirq. rewrite Hen in Hirq.
  destruct (TxGetIndex u =? TxPutIndex u); cbn [negb] in Hirq.
  - injection Hirq as <-. destruct Hq2 as [_ Hp _], Hq as [Hr Hp' Hl]. exfalso.
    cbn [set_ie TxPutIndex TxGetIndex] in Hp. rewrite Hp in Hp'.
    revert Hp'. rewrite zlen_cons in *. apply ring_slot_fresh; pose proof (zlen_nonneg q); lia.
  - obinv Hirq. injection Hirq as <-. split; [done|].
    cbn [set_tx set_dr TxGetIndex]. apply u16_small. unfold USART2_TX_BUFFER_SIZE.
    pose proof (Z.mod_pos_bound (TxGetIndex u + 1) 256). lia.
Qed.

Lemma hw_step_inv u u' pc a q :
  hw_step u u' -> tx_inv (TxSys u pc a) q -> exists q', tx_inv (TxSys u' pc a) q'.
Proof.
  intros Hs [Hq Hpc Hfifo Hwake]. cbn [dev thread accepted] in *.
  destruct Hs as [u u' Hen Hirq|u Htxe].
  - pose proof (USART2_IRQHandler_spec u q Hq Hen) as Hspec. destruct q as [|c q].
    + destruct Hspec as [E Hq']. rewrite E in Hirq. injection Hirq as <-. exists [].
      split; cbn [dev thread accepted]; [done|by destruct pc|done|done].
    + destruct (irq_get u u' c q Hq Hen Hirq) as [Hb Hg].
      destruct Hspec as (u2 & E & Hq' & Ht & Hd & Hie & Hline). rewrite E in Hirq. injection Hirq as <-.
      exists q. apply andb_prop in Hen as [Htxe Hen].
      split; cbn [dev thread accepted]; [done|by eapply pc_ok_pop| |].
      * rewrite Hfifo, Hline. unfold in_dr. by rewrite Ht, Htxe, Hd.
      * intros _. left. congruence.
  - exists q. split; cbn [dev thread accepted tx_shift set_dr TXEIE line]; try done.
    + by destruct Hq.
    + rewrite Hfifo. unfold in_dr. cbn [tx_shift set_dr TXE]. rewrite Htxe.
      by rewrite <- app_assoc.
Qed.

Lemma tx_step_inv s s' q : tx_step s s' -> tx_inv s q -> exists q', tx_inv s' q'.
Proof.
  intros Hs Hi. destruct Hs as [u a c Hroom|u a c u' Hst|u a c|u a|u u' pc a Hhw];
    [| | | |by eapply hw_step_inv]; destruct Hi as [Hq Hpc Hfifo Hwake];
    cbn [dev thread accepted] in *.
  - exists q. split; cbn [dev thread accepted]; try done.
    + rewrite (tx_queue_pending u q Hq) in Hroom. simpl. lia.
    + intros Hne. left. by destruct (Hwake Hne).
  - destruct (put_store_spec u q c Hq) as (b & Hb & Hq' & Hr). rewrite Hb in Hst.
    injection Hst as <-. exists q. split; cbn [dev thread accepted]; try done.
    intros Hne. left. by destruct (Hwake Hne).
  - destruct Hpc as [Hroom Hr]. exists (q ++ [c]). split; cbn [dev thread accepted].
    + by apply put_advance_spec.
    + done.
    + rewrite Hfifo. unfold in_dr. cbn [put_advance set_tx TXE DR line]. by rewrite <- !app_assoc.
    + by right.
  - exists q. split; cbn [dev thread accepted]; try done; [by destruct Hq|by left].
Qed.

Lemma tx_reachable_inv s : star tx_step (TxSys usart2_reset Idle []) s -> exists q, tx_inv s q.
Proof.
  intros Hs. refine (star_invariant tx_step (fun s => exists q, tx_inv s q) _ _ _ _ Hs).
  - intros a b [q Hq] Hab. by eapply tx_step_inv.
  - exists []. split; [|done..]. split; [|done..]. by apply ring_empty.
Qed.

Lemma tx_queue_reset : tx_queue usart2_reset [].
Proof. split; [by apply ring_empty|done..]. Qed.

(** No character is lost, repeated or reordered, and nothing goes wrong,
    whatever the interleaving. In every state the driver reaches from its
    configuration when the task's statements, the interrupt handler and the
    port alternate freely, and the task calls PutChar only with at most 254
    entries waiting: the characters accepted are those on the line, then the
    one in the data register, then those waiting, in order; the next store of
    the task and the next run of the handler are defined; and while
    characters wait with the task out of PutChar, the interrupt is enabled. *)
Theorem uart_tx_fifo s :
  star tx_step (TxSys usart2_reset Idle []) s ->
  exists waiting,
    accepted s = line (dev s) ++ in_dr (dev s) ++ waiting /\
    zlen waiting = tx_pending (dev s) /\ zlen waiting <= 255 /\
    (forall c, exists u, put_store (dev s) c = Ok u) /\
    (exists u, USART2_IRQHandler (dev s) = Ok u) /\
    (thread s = Idle -> waiting <> [] -> TXEIE (dev s) = true).
Proof.
  intros Hs. destruct (tx_reachable_inv s Hs) as [q [Hq Hpc Hfifo Hwake]].
  exists q. split; [done|]. split; [by rewrite (tx_queue_pending _ q)|].
  split; [by destruct Hq|]. split.
  { intros c. destruct (put_store_spec _ q c Hq) as (b & -> & _). eauto. }
  split.
  - destruct (TXE (dev s) && TXEIE (dev s)) eqn:E; [|unfold USART2_IRQHandler; rewrite E; eauto].
    pose proof (USART2_IRQHandler_spec _ q Hq E) as H. destruct q; [destruct H as [-> _]|
      destruct H as (u & -> & _)]; eauto.
  - intros Hidle Hne. destruct (Hwake Hne) as [?|E]; [done|]. by rewrite Hidle in E.
Qed.

Lemma uart_tx_fifo_witness :
  exists s, star tx_step (TxSys usart2_reset Idle []) s /\
  exists waiting,
    accepted s = line (dev s) ++ in_dr (dev s) ++ waiting /\
    zlen waiting = tx_pending (dev s) /\ zlen waiting <= 255 /\
    (forall c, exists u, put_store (dev s) c = Ok u) /\
    (exists u, USART2_IRQHandler (dev s) = Ok u) /\
    (thread s = Idle -> waiting <> [] -> TXEIE (dev s) = true).
Proof.
  eexists. assert (Hs : star tx_step (TxSys usart2_reset Idle []) (TxSys usart2_reset (AtStore 65) [])).
  { apply star_one. by constructor. }
  split; [exact Hs|]. exact (uart_tx_fifo _ Hs).
Defined.

(** *** The port drains the queue *)

Definition hw_measure (u : usart2) : Z :=
  2 * tx_pending u + (if TXE u then 0 else 1) + (if TXEIE u then 1 else 0).

Lemma hw_step_measure u u' q :
  hw_step u u' -> tx_queue u q -> hw_measure u' < hw_measure u /\ 0 <= hw_measure u'.
Proof.
  intros Hs Hq. unfold hw_measure. rewrite (tx_queue_pending u q Hq).
  destruct Hs as [u u' Hen Hirq|u Htxe].
  - pose proof (USART2_IRQHandler_spec u q Hq Hen) as H. apply andb_prop in Hen as [Ht Hie].
    rewrite Ht, Hie.
    destruct q as [|c q].
    + destruct H as [E Hq']. rewrite E in Hirq. injection Hirq as <-.
      rewrite (tx_queue_pending _ [] Hq'). cbn [set_ie TXE TXEIE]. rewrite Ht. change (zlen (@nil Z)) with 0. lia.
    + destruct H as (u2 & E & Hq' & Ht2 & _). rewrite E in Hirq. injection Hirq as ->. rewrite Ht2.
      rewrite (tx_queue_pending _ q Hq'), zlen_cons. pose proof (zlen_nonneg q). destruct (TXEIE u'); lia.
  - assert (Hq' : tx_queue (tx_shift u) q) by (by destruct Hq). rewrite (tx_queue_pending _ q Hq').
    cbn [tx_shift set_dr TXE TXEIE]. rewrite Htxe. pose proof (zlen_nonneg q). destruct (TXEIE u); lia.
Qed.

Lemma hw_progress s q :
  tx_inv s q -> thread s = Idle ->
  (exists u', hw_step (dev s) u') \/ (line (dev s) = accepted s /\ TXE (dev s) = true /\ TXEIE (dev s) = false).
Proof.
  intros [Hq Hpc Hfifo Hwake] Hidle. destruct (TXE (dev s)) eqn:Ht; [|left; eexists; by apply hw_shift].
  destruct (TXEIE (dev s)) eqn:Hie.
  - left. pose proof (USART2_IRQHandler_spec _ q Hq) as H. rewrite Ht, Hie in H. specialize (H eq_refl).
    assert (exists u, USART2_IRQHandler (dev s) = Ok u) as [u Hu].
    { destruct q; [destruct H as [-> _]|destruct H as (u & -> & _)]; eauto. }
    exists u. apply hw_irq; [by rewrite Ht, Hie|done].
  - right. destruct q as [|c q]; [|destruct (Hwake ltac:(done)); congruence].
    rewrite Hfifo. unfold in_dr. rewrite Ht. by rewrite !app_nil_r.
Qed.

Lemma hw_drains n s q :
  tx_inv s q -> thread s = Idle -> hw_measure (dev s) < Z.of_nat n ->
  exists u, star hw_step (dev s) u /\ line u = accepted s /\ TXE u = true /\ TXEIE u = false.
Proof.
  revert s q. induction n as [|n IH]; intros s q Hi Hidle Hm.
  - unfold hw_measure in Hm. pose proof (tx_queue_pending _ q (ti_queue _ _ Hi)) as E.
    pose proof (zlen_nonneg q). destruct (TXE _), (TXEIE _); lia.
  - destruct (hw_progress s q Hi Hidle) as [[u' Hs]|?]; [|exists (dev s); by split; [constructor|]].
    destruct s as [u pc a]. cbn [dev thread accepted] in *. subst pc.
    destruct (hw_step_inv u u' Idle a q Hs Hi) as [q' Hi'].
    pose proof (hw_step_measure u u' q Hs (ti_queue _ _ Hi)) as Hdec.
    destruct (IH (TxSys u' Idle a) q' Hi' eq_refl) as (u2 & Hrun & Hrest).
    { cbn [dev]. lia. }
    exists u2. split; [econstructor; eauto|done].
Qed.

(** C39: the port delivers. From any state reached with the task out of
    PutChar (the task having called it only with at most 254 characters
    waiting), the hardware on its own runs at most [hw_measure] steps, in any
    order of its choice; wherever it comes to a stop, every accepted
    character is on the line, in order, the port is free and the interrupt is
    off, and there is a run that comes there. *)
Theorem uart_tx_delivers s :
  star tx_step (TxSys usart2_reset Idle []) s -> thread s = Idle ->
  (exists u, star hw_step (dev s) u /\ forall u', ~ hw_step u u') /\
  (forall u, star hw_step (dev s) u -> (forall u', ~ hw_step u u') ->
     line u = accepted s /\ TXE u = true /\ TXEIE u = false) /\
  (forall u u', star hw_step (dev s) u -> hw_step u u' -> 0 <= hw_measure u' < hw_measure u).
Proof.
  intros Hs Hidle. destruct (tx_reachable_inv s Hs) as [q Hi].
  assert (Hkeep : forall u, star hw_step (dev s) u -> exists q', tx_inv (TxSys u Idle (accepted s)) q').
  { intros u Hu. refine (star_invariant hw_step (fun u => exists q', tx_inv (TxSys u Idle (accepted s)) q')
      _ _ _ _ Hu).
    - intros a b [q' Hq'] Hab. by eapply hw_step_inv.
    - exists q. destruct s. cbn [thread] in Hidle. by subst. }
  split; [|split].
  - destruct (hw_drains (S (Z.to_nat (hw_measure (dev s)))) s q Hi Hidle) as (u & Hu & _ & Ht & Hie); [lia|].
    exists u. split; [done|]. intros u' Hstep. destruct Hstep as [u u' Hen _|u Htxe]; [|congruence].
    by rewrite Hie, andb_false_r in Hen.
  - intros u Hu Hstop. destruct (Hkeep u Hu) as [q' Hq'].
    by destruct (hw_progress _ _ Hq' eq_refl) as [[u' Hstep%Hstop]|].
  - intros u u' Hu Hstep. destruct (Hkeep u Hu) as [q' Hq'].
    pose proof (hw_step_measure u u' q' Hstep (ti_queue _ _ Hq')). lia.
Qed.

(** The device after PutChar of two characters with no interrupt between. *)
Definition usart2_two : usart2 :=
  Usart2 (<[1%nat := 66]> (<[0%nat := 65]> (replicate 256 0))) 2 0 true true 0 [] (replicate 256 0) 0 256.

Lemma uart_tx_delivers_witness :
  let s := TxSys usart2_two Idle [65; 66] in
  (exists u, star hw_step (dev s) u /\ forall u', ~ hw_step u u') /\
  (forall u, star hw_step (dev s) u -> (forall u', ~ hw_step u u') ->
     line u = [65; 66] /\ TXE u = true /\ TXEIE u = false) /\
  (forall u u', star hw_step (dev s) u -> hw_step u u' -> 0 <= hw_measure u' < hw_measure u).
Proof.
  intros s. apply (uart_tx_delivers s); [|reflexivity].
  eapply star_step; [apply (tx_call _ _ 65); vm_compute; reflexivity|].
  eapply star_step; [apply tx_store; vm_compute; reflexivity|].
  eapply star_step; [apply tx_advance|]. eapply star_step; [apply tx_enable|].
  eapply star_step; [apply (tx_call _ _ 66); vm_compute; reflexivity|].
  eapply star_step; [apply tx_store; vm_compute; reflexivity|].
  eapply star_step; [apply tx_advance|]. eapply star_step; [apply tx_enable|].
  vm_compute. apply star_refl.
Defined.

(** *** Uninterrupted printing *)

Lemma puts_tx u q s :
  tx_queue u q -> zlen q + zlen s <= 255 ->
  exists u', puts u s = Ok u' /\ tx_queue u' (q ++ s) /\ (s <> [] -> TXEIE u' = true) /\
    TXE u' = TXE u /\ DR u' = DR u /\ line u' = line u.
Proof.
  revert u q. induction s as [|c s IH]; intros u q Hq Hl.
  - exists u. by rewrite app_nil_r.
  - rewrite zlen_cons in Hl. pose proof (zlen_nonneg s).
    destruct (USART2_PutChar_spec u q c Hq) as (u1 & Hp & Hq1 & Hie & Ht & Hd & Hline); [lia|].
    destruct (IH u1 (q ++ [c]) Hq1) as (u2 & Hp2 & Hq2 & Hie2 & Ht2 & Hd2 & Hline2).
    { rewrite zlen_app. change (zlen [c]) with 1. lia. }
    exists u2. simpl. unfold put_char, usart2_sink. rewrite Hp. cbn [obind].
    rewrite <- app_assoc in Hq2. split; [done|]. split; [done|].
    split; [|by rewrite Ht2, Hd2, Hline2]. intros _.
    destruct s as [|d s]; [injection Hp2 as <-; done|by apply Hie2].
Qed.

(** USART2_PutInt appends the decimal text of its argument to the
    waiting characters for every int below 10^9 in magnitude (when there is
    room); from 10^9 on, and for the least int, its arithmetic overflows. *)
Theorem USART2_PutInt_prints u q n :
  tx_queue u q -> - 2 ^ 31 <= n < 2 ^ 31 -> zlen q + zlen (fmt_d n) <= 255 ->
  (Z.abs n < 10 ^ 9 -> exists u', USART2_PutInt u n = Ok u' /\ tx_queue u' (q ++ fmt_d n) /\
     TXEIE u' = true /\ line u' = line u) /\
  (10 ^ 9 <= Z.abs n -> USART2_PutInt u n = UB).
Proof.
  intros Hq Hn Hroom. unfold USART2_PutInt. rewrite (put_int_eq u n Hn).
  destruct (puts_tx u q (fmt_d n) Hq Hroom) as (u' & Hp & Hq' & Hie & _ & _ & Hline).
  assert (Hne : fmt_d n <> []).
  { intros E. pose proof (dec_of_len _ _ (dec_spec (Z.abs n) ltac:(lia))) as Hl.
    unfold fmt_d in E. destruct (n <? 0) eqn:En; [done|]. apply Z.ltb_ge in En.
    rewrite Z.abs_eq, E in Hl by lia. done. }
  split; intros Hm; destruct (Z.ltb_spec (Z.abs n) (10 ^ 9)); try lia.
  - exists u'. rewrite Hp. auto.
  - destruct (Z.ltb_spec n 0) as [Hneg|]; [|done].
    unfold fmt_d in Hroom. destruct (Z.ltb_spec n 0); [|lia]. rewrite zlen_cons in Hroom.
    pose proof (zlen_nonneg (dec (- n))).
    pose proof (dec_of_len _ _ (dec_spec (- n) ltac:(lia))).
    destruct (USART2_PutChar_spec u q 45 Hq) as (u1 & Hp1 & _); [lia|].
    unfold put_char, usart2_sink. by rewrite Hp1.
Qed.

Lemma USART2_PutInt_prints_witness :
  (Z.abs (-307) < 10 ^ 9 -> exists u', USART2_PutInt usart2_reset (-307) = Ok u' /\
     tx_queue u' ([] ++ fmt_d (-307)) /\ TXEIE u' = true /\ line u' = line usart2_reset) /\
  (10 ^ 9 <= Z.abs (-307) -> USART2_PutInt usart2_reset (-307) = UB).
Proof. apply (USART2_PutInt_prints usart2_reset [] (-307)); [exact tx_queue_reset|lia|vm_compute; discriminate]. Defined.

(** The transmit buffer holds 255 characters, not 256: nothing stops a
    task from writing more, and after 256 characters without an interrupt the
    two indices are equal, so that the handler finds the buffer empty,
    disables the interrupt, and none of the characters is ever sent. *)
Theorem uart_tx_overflow s r :
  Forall (fun c => 0 < c < 256) s -> zlen s = 256 ->
  exists u, USART2_PutString usart2_reset (s ++ 0 :: r) = Ok u /\
    tx_pending u = 0 /\ USART2_IRQHandler u = Ok (set_ie u false) /\ line u = [] /\ TXE u = true.
Proof.
  intros Hs Hl. unfold USART2_PutString. rewrite put_string_spec by done.
  destruct (exists_last (l := s)) as (l & c & ->); [by intros ->|].
  rewrite zlen_app in Hl. change (zlen [c]) with 1 in Hl.
  destruct (puts_tx usart2_reset [] l tx_queue_reset) as (u & Hp & [Hr Hput Hroom] & _ & Ht & _ & Hline).
  { change (zlen (@nil Z)) with 0. lia. }
  rewrite puts_app, Hp. cbn [obind puts].
  destruct (put_store_spec u l c) as (b & Hb & [_ _ _] & _); [by split|].
  unfold put_char, usart2_sink, USART2_PutChar. rewrite Hb. cbn [obind].
  eexists. split; [reflexivity|].
  assert (Hwrap : u16 ((TxPutIndex u + 1) mod USART2_TX_BUFFER_SIZE) = TxGetIndex u).
  { rewrite Hput. cbn [app]. unfold USART2_TX_BUFFER_SIZE. rewrite Zplus_mod_idemp_l.
    pose proof (ring_get _ _ _ _ Hr). replace (TxGetIndex u + zlen l + 1) with (TxGetIndex u + 1 * 256) by lia.
    rewrite Z.mod_add, Z.mod_small by lia. apply u16_small. lia. }
  unfold tx_pending, USART2_IRQHandler.
  cbn [put_enable put_advance set_ie set_tx TxPutIndex TxGetIndex TXE TXEIE line]. rewrite Hwrap, Ht.
  rewrite Z.sub_diag, Z.eqb_refl. by repeat split.
Qed.

Lemma uart_tx_overflow_witness :
  exists u, USART2_PutString usart2_reset (replicate 256 65 ++ 0 :: []) = Ok u /\
    tx_pending u = 0 /\ USART2_IRQHandler u = Ok (set_ie u false) /\ line u = [] /\ TXE u = true.
Proof. apply uart_tx_overflow; [by apply Forall_replicate|reflexivity]. Defined.

(** ** Reception on USART2 *)

Record rx_queue (u : usart2) (q : list Z) : Prop := RxQueue {
  rq_ring : ring_at 256 (RxBuffer u) (RxGetIndex u) q;
  rq_ndtr : 1 <= NDTR u <= 256;
  rq_put : 256 - NDTR u = (RxGetIndex u + zlen q) mod 256;
  rq_room : zlen q <= 255;
}.

(** What happens to the port: a half word arrives, or a task calls GetChar. *)
Inductive rx_op : Type :=
  | Arrive (c : Z)
  | Get.

(** The characters GetChar delivers. *)
Fixpoint rx_run (u : usart2) (ops : list rx_op) : outcome (list Z * usart2) :=
  match ops with
  | [] => Ok ([], u)
  | Arrive c :: r => let! u' := dma_receive u c in rx_run u' r
  | Get :: r =>
      let! (o, u') := USART2_GetChar u in
      let! (l, u'') := rx_run u' r in
      Ok (match o with Some c => c :: l | None => l end, u'')
  end.

(** The specification: a queue of at most 255 half words, [None] beyond. *)
Fixpoint fifo_run (q : list Z) (ops : list rx_op) : option (list Z * list Z) :=
  match ops with
  | [] => Some ([], q)
  | Arrive c :: r => if zlen q <? 255 then fifo_run (q ++ [c]) r else None
  | Get :: r =>
      match q with
      | [] => fifo_run [] r
      | c :: q => match fifo_run q r with Some (l, q') => Some (u8 c :: l, q') | None => None end
      end
  end.

Lemma dma_receive_spec u q c :
  rx_queue u q -> zlen q < 255 -> exists u', dma_receive u c = Ok u' /\ rx_queue u' (q ++ [c]).
Proof.
  intros [Hr Hn Hp Hl] Hroom. unfold dma_receive, USART2_RX_BUFFER_SIZE.
  rewrite wr_ok by (pose proof (ring_size _ _ _ _ Hr); unfold zlen in *; lia). cbn [obind].
  eexists. split; [reflexivity|]. split; cbn [set_rx RxBuffer RxGetIndex NDTR].
  - rewrite Hp. apply ring_push; [done|lia].
  - destruct (Z.eqb_spec (NDTR u - 1) 0); lia.
  - rewrite zlen_app. change (zlen [c]) with 1. rewrite Z.add_assoc, <- Zplus_mod_idemp_l, <- Hp.
    destruct (Z.eqb_spec (NDTR u - 1) 0) as [E|].
    + by replace (256 - NDTR u + 1) with (1 * 256) by lia.
    + rewrite Z.mod_small; lia.
  - rewrite zlen_app. change (zlen [c]) with 1. lia.
Qed.

Lemma USART2_GetChar_spec u q :
  rx_queue u q ->
  match q with
  | [] => USART2_GetChar u = Ok (None, u)
  | c :: r => exists u', USART2_GetChar u = Ok (Some (u8 c), u') /\ rx_queue u' r
  end.
Proof.
  intros [Hr Hn Hp Hl]. unfold USART2_GetChar, USART2_RX_BUFFER_SIZE.
  pose proof (ring_full_empty _ _ _ _ Hr ltac:(lia)) as Hfe. rewrite <- Hp in Hfe.
  rewrite (u16_small (NDTR u)), u16_small by lia.
  destruct (Z.eqb_spec (RxGetIndex u) (256 - NDTR u)) as [E|E]; cbn [negb].
  - apply Hfe in E as ->. done.
  - destruct q as [|c r]; [tauto|]. destruct (ring_pop _ _ _ _ _ Hr) as [Hc Hr'].
    pose proof (ring_get _ _ _ _ Hr). rewrite (rd_lookup _ _ c) by (lia || done). cbn [obind].
    eexists. split; [reflexivity|]. rewrite zlen_cons in *.
    rewrite Z.rem_mod_nonneg by lia.
    assert (Hm : u16 ((RxGetIndex u + 1) mod 256) = (RxGetIndex u + 1) mod 256).
    { apply u16_small. pose proof (Z.mod_pos_bound (RxGetIndex u + 1) 256). lia. }
    split; cbn [set_rx RxBuffer RxGetIndex NDTR]; rewrite ?Hm; [done|done| |lia].
    rewrite Hp, Zplus_mod_idemp_l. f_equal. lia.
Qed.

Lemma rx_run_spec u q ops got q' :
  rx_queue u q -> fifo_run q ops = Some (got, q') ->
  exists u', rx_run u ops = Ok (got, u') /\ rx_queue u' q'.
Proof.
  revert u q got. induction ops as [|[c|] ops IH]; intros u q got Hq Hf; cbn [fifo_run rx_run] in *.
  - injection Hf as <- <-. eauto.
  - destruct (Z.ltb_spec (zlen q) 255); [|done].
    destruct (dma_receive_spec u q c Hq) as (u' & -> & Hq'); [done|]. cbn [obind]. eauto.
  - pose proof (USART2_GetChar_spec u q Hq) as Hg. destruct q as [|c q].
    + rewrite Hg. cbn [obind]. destruct (IH u [] got Hq Hf) as (u' & -> & ?). cbn [obind]. eauto.
    + destruct Hg as (u1 & -> & Hq1). cbn [obind].
      destruct (fifo_run q ops) as [[l q2]|] eqn:E; [|done]. injection Hf as <- <-.
      destruct (IH u1 q l Hq1 E) as (u' & -> & ?). cbn [obind]. eauto.
Qed.

Lemma rx_queue_reset : rx_queue usart2_reset [].
Proof. split; [by apply ring_empty|simpl; lia|done|done]. Qed.

(** DMA reception with USART2_GetChar is a FIFO. For every sequence of
    arrivals and calls in which at most 255 half words wait, the calls
    deliver exactly what the queue of the specification delivers: the
    characters in order of arrival, each once, and nothing on an empty
    queue. *)
Theorem uart_rx_fifo ops got q :
  fifo_run [] ops = Some (got, q) ->
  exists u, rx_run usart2_reset ops = Ok (got, u) /\ rx_queue u q.
Proof. apply rx_run_spec, rx_queue_reset. Qed.

Lemma uart_rx_fifo_witness :
  exists u, rx_run usart2_reset [Arrive 72; Get; Get; Arrive 105; Arrive 33; Get] = Ok ([72; 105], u) /\
    rx_queue u [33].
Proof. apply uart_rx_fifo. vm_compute. reflexivity. Defined.

Lemma read_existing_stuck fuel u str cnt r :
  0 <= RxGetIndex u < 256 -> read_existing_loop fuel u str cnt 256 <> Ok r.
Proof.
  revert u str cnt. induction fuel as [|fuel IH]; intros u str cnt Hg; [done|]. cbn [read_existing_loop].
  destruct (Z.eqb_spec (RxGetIndex u) 256); [lia|]. cbn [negb].
  destruct (rd _ _); [|done..]. cbn [obind]. destruct (wr _ _ _); [|done..]. cbn [obind].
  apply IH. cbn [set_rx RxGetIndex]. unfold USART2_RX_BUFFER_SIZE.
  rewrite Z.rem_mod_nonneg by lia. pose proof (Z.mod_pos_bound (RxGetIndex u + 1) 256 ltac:(lia)).
  rewrite u16_small; lia.
Qed.

(** Only GetChar knows that NDTR counts down. The other receive functions
    take NDTR itself for the index of the next half word: the number
    USART2_GetRxBufferCount returns is off by 2 NDTR modulo 256, so it is
    right only when NDTR is 128 or 256; with NDTR at its reload value 256,
    the state of a port that received nothing, USART2_ReadExisting never
    returns, and after USART2_ClearRxBuffer the next USART2_GetChar reads
    past the end of the buffer. *)
Theorem uart_rx_index_mixup u q :
  rx_queue u q ->
  USART2_GetRxBufferCount u = (zlen q + 2 * NDTR u) mod 256 /\
  (USART2_GetRxBufferCount u = zlen q <-> NDTR u = 128 \/ NDTR u = 256) /\
  (NDTR u = 256 -> (forall fuel str r, USART2_ReadExisting fuel u str <> Ok r) /\
                   USART2_GetChar (USART2_ClearRxBuffer u) = UB).
Proof.
  intros [Hr Hn Hp Hl]. pose proof (ring_get _ _ _ _ Hr) as Hg. pose proof (zlen_nonneg q).
  assert (Hc : USART2_GetRxBufferCount u = (zlen q + 2 * NDTR u) mod 256).
  { unfold USART2_GetRxBufferCount, USART2_RX_BUFFER_SIZE. rewrite (u16_small (NDTR u)) by lia.
    rewrite Z.rem_mod_nonneg by lia.
    pose proof (Z.mod_pos_bound (NDTR u + 256 - RxGetIndex u) 256 ltac:(lia)).
    rewrite u16_small by lia. pose proof (Z.div_mod (RxGetIndex u + zlen q) 256 ltac:(lia)) as Hd.
    rewrite <- Hp in Hd.
    replace (NDTR u + 256 - RxGetIndex u) with
      (zlen q + 2 * NDTR u + (- ((RxGetIndex u + zlen q) / 256)) * 256) by lia.
    apply Z.mod_add. lia. }
  split; [done|]. rewrite Hc. split.
  - pose proof (Z.div_mod (zlen q + 2 * NDTR u) 256 ltac:(lia)).
    pose proof (Z.mod_pos_bound (zlen q + 2 * NDTR u) 256 ltac:(lia)). split; lia.
  - intros E. split.
    + intros fuel str r. unfold USART2_ReadExisting. rewrite E. change (u16 256) with 256.
      pose proof (read_existing_stuck fuel u str 0) as Hstuck.
      destruct (read_existing_loop fuel u str 0 256) as [a| |]; [|done..]. by destruct (Hstuck a).
    + unfold USART2_GetChar, USART2_ClearRxBuffer. cbn [set_rx RxGetIndex NDTR RxBuffer].
      rewrite E. change (negb (u16 256 =? u16 (USART2_RX_BUFFER_SIZE - u16 256))) with true. cbv iota.
      unfold rd. change (u16 256 <? 0) with false. cbv iota.
      rewrite lookup_ge_None_2; [done|]. pose proof (ring_size _ _ _ _ Hr). unfold zlen in *.
      change (Z.to_nat (u16 256)) with 256%nat. lia.
Qed.

Lemma uart_rx_index_mixup_witness :
  USART2_GetRxBufferCount usart2_reset = (zlen (@nil Z) + 2 * NDTR usart2_reset) mod 256 /\
  (USART2_GetRxBufferCount usart2_reset = zlen (@nil Z) <->
     NDTR usart2_reset = 128 \/ NDTR usart2_reset = 256) /\
  (NDTR usart2_reset = 256 ->
     (forall fuel str r, USART2_ReadExisting fuel usart2_reset str <> Ok r) /\
     USART2_GetChar (USART2_ClearRxBuffer usart2_reset) = UB).
Proof. apply (uart_rx_index_mixup usart2_reset []). exact rx_queue_reset. Defined.

(** ** Reception of calibration commands on USART3 *)

Fixpoint receive_all (u : usart3) (cs : list Z) : outcome usart3 :=
  match cs with
  | [] => Ok u
  | c :: r => let! u' := USART3_IRQHandler u (Some c) in receive_all u' r
  end.

(** A character of a command: neither of the two terminators. *)
Definition cmd_char (c : Z) : Prop := 0 <= c < 2 ^ 16 /\ c <> 99 /\ c <> 113.

Lemma receive_char u c :
  cmd_char c -> 0 <= Rx_GetIndex u < zlen (Buffer_Array u) -> zlen (Buffer_Array u) < 2 ^ 31 ->
  USART3_IRQHandler u (Some c) =
  Ok (Usart3 (sent u) (<[Z.to_nat (Rx_GetIndex u) := c]> (Buffer_Array u)) (IsReceive u) (exit_calib u)
        (Rx_GetIndex u + 1) (Buffer_Size u)).
Proof.
  intros (Hc & H1 & H2) Hi Hb. cbn [USART3_IRQHandler]. unfold USART_ReceiveString, USART_ReceiveChar.
  rewrite u16_small, wr_ok by (unfold zlen in *; lia). cbn [obind].
  rewrite chk32_ok by (unfold zlen in *; lia). cbn [obind].
  destruct (Z.eqb_spec c 99); [done|]. by destruct (Z.eqb_spec c 113).
Qed.

Lemma receive_chars u cs :
  Forall cmd_char cs -> 0 <= Rx_GetIndex u -> Rx_GetIndex u + zlen cs <= zlen (Buffer_Array u) ->
  zlen (Buffer_Array u) < 2 ^ 31 ->
  exists b, receive_all u cs =
    Ok (Usart3 (sent u) b (IsReceive u) (exit_calib u) (Rx_GetIndex u + zlen cs) (Buffer_Size u)) /\
    zlen b = zlen (Buffer_Array u) /\
    take (Z.to_nat (Rx_GetIndex u + zlen cs)) b =
    take (Z.to_nat (Rx_GetIndex u)) (Buffer_Array u) ++ cs.
Proof.
  intros Hcs. revert u. induction Hcs as [|c cs Hc _ IH]; intros u Hi Hl Hb.
  - exists (Buffer_Array u). rewrite zlen_nil, Z.add_0_r, app_nil_r. destruct u. done.
  - rewrite zlen_cons in *. pose proof (zlen_nonneg cs). cbn [receive_all].
    rewrite receive_char by (done || lia). cbn [obind].
    destruct (IH (Usart3 (sent u) (<[Z.to_nat (Rx_GetIndex u):=c]> (Buffer_Array u)) (IsReceive u)
                (exit_calib u) (Rx_GetIndex u + 1) (Buffer_Size u))) as (b & Hrun & Hlen & Htake);
      cbn [Buffer_Array Rx_GetIndex sent IsReceive exit_calib Buffer_Size] in *;
      try (unfold zlen in *; rewrite ?length_insert in *; lia).
    exists b. split; [|split].
    + rewrite Hrun. do 2 f_equal; lia.
    + rewrite Hlen. unfold zlen. by rewrite length_insert.
    + replace (Rx_GetIndex u + (zlen cs + 1)) with (Rx_GetIndex u + 1 + zlen cs) by lia.
      rewrite Htake. replace (Z.to_nat (Rx_GetIndex u + 1)) with (S (Z.to_nat (Rx_GetIndex u))) by lia.
      rewrite (take_S_r _ _ c).
      * rewrite take_insert_ge by lia. by rewrite <- app_assoc.
      * apply list_lookup_insert_eq. unfold zlen in *. lia.
Qed.

Lemma receive_all_app u a b : receive_all u (a ++ b) = let! u' := receive_all u a in receive_all u' b.
Proof.
  revert u. induction a as [|c a IH]; intros u; [done|]. cbn [app receive_all].
  by destruct (USART3_IRQHandler u (Some c)); cbn [obind].
Qed.

(** The calibration receiver. A command of at most nine characters and
    its terminator 'c' or 'q' lands in Buffer_Array from index 0, its length
    in Buffer_Size, its flag is raised, the other flag is kept, and the
    receiver is ready for the next command; an eleventh character before any
    terminator is written past the end of Buffer_Array. *)
Theorem calibration_command u cs t :
  Rx_GetIndex u = 0 -> zlen (Buffer_Array u) = BUFFER_ARRAY_SIZE -> Forall cmd_char cs ->
  (zlen cs <= 9 -> t = 99 \/ t = 113 ->
   exists u', receive_all u (cs ++ [t]) = Ok u' /\
     take (Z.to_nat (Buffer_Size u')) (Buffer_Array u') = cs ++ [t] /\
     Buffer_Size u' = zlen cs + 1 /\ Rx_GetIndex u' = 0 /\
     zlen (Buffer_Array u') = BUFFER_ARRAY_SIZE /\
     IsReceive u' = (if t =? 99 then 1 else IsReceive u) /\
     exit_calib u' = (if t =? 99 then exit_calib u else 1)) /\
  (11 <= zlen cs -> receive_all u cs = UB).
Proof.
  intros Hi Hb Hcs. unfold BUFFER_ARRAY_SIZE in *. pose proof (zlen_nonneg cs). split.
  - intros Hl Ht. destruct (receive_chars u cs Hcs) as (b & Hrun & Hlen & Htake); [lia..|].
    rewrite receive_all_app, Hrun. cbn [obind receive_all USART3_IRQHandler].
    unfold USART_ReceiveString, USART_ReceiveChar.
    cbn [Buffer_Array Rx_GetIndex sent IsReceive exit_calib Buffer_Size].
    rewrite (u16_small t), wr_ok by (unfold zlen in *; lia). cbn [obind].
    rewrite chk32_ok by lia. cbn [obind].
    eexists. split; [reflexivity|]. rewrite Hi, Z.add_0_l in *.
    assert (Hmsg : take (Z.to_nat (zlen cs + 1)) (<[Z.to_nat (zlen cs) := t]> b) = cs ++ [t]).
    { replace (Z.to_nat (zlen cs + 1)) with (S (Z.to_nat (zlen cs))) by lia.
      rewrite (take_S_r _ _ t) by (apply list_lookup_insert_eq; unfold zlen in *; lia).
      rewrite take_insert_ge by lia. by rewrite Htake. }
    assert (Hblen : zlen (<[Z.to_nat (zlen cs) := t]> b) = 10).
    { unfold zlen in *. rewrite length_insert. lia. }
    destruct Ht as [-> | ->]; simpl; auto 10.
  - intros Hl.
    assert (zlen (take 10 cs) = 10).
    { unfold zlen in *. rewrite length_take. lia. }
    rewrite <- (take_drop 10 cs) in Hcs. apply Forall_app in Hcs as [H1 H2].
    destruct (receive_chars u _ H1) as (b & Hrun & Hlen & _); [lia..|].
    rewrite <- (take_drop 10 cs) at 1. rewrite receive_all_app, Hrun. cbn [obind].
    destruct (drop 10 cs) as [|c r] eqn:E.
    { apply (f_equal length) in E. rewrite length_drop in E. unfold zlen in *. simpl in E. lia. }
    cbn [receive_all USART3_IRQHandler]. unfold USART_ReceiveString. cbn [Buffer_Array Rx_GetIndex].
    unfold wr. rewrite Hi. destruct (Z.leb_spec (Z.of_nat (length b)) (0 + zlen (take 10 cs))).
    + by rewrite orb_true_r.
    + unfold zlen in *. lia.
Qed.

(** The receiver after reset, on the command "12c". *)
Definition usart3_reset : usart3 := Usart3 [] (replicate 10 0) 0 0 0 0.

Lemma calibration_command_witness :
  (zlen [49; 50] <= 9 -> 99 = 99 \/ 99 = 113 ->
   exists u', receive_all usart3_reset ([49; 50] ++ [99]) = Ok u' /\
     take (Z.to_nat (Buffer_Size u')) (Buffer_Array u') = [49; 50] ++ [99] /\
     Buffer_Size u' = zlen [49; 50] + 1 /\ Rx_GetIndex u' = 0 /\
     zlen (Buffer_Array u') = BUFFER_ARRAY_SIZE /\
     IsReceive u' = (if 99 =? 99 then 1 else IsReceive usart3_reset) /\
     exit_calib u' = (if 99 =? 99 then exit_calib usart3_reset else 1)) /\
  (11 <= zlen [49; 50] -> receive_all usart3_reset [49; 50] = UB).
Proof.
  apply (calibration_command usart3_reset [49; 50] 99); [reflexivity|reflexivity|].
  repeat constructor; lia.
Defined.
