(* ===== verification/RtosList.v ===== *)
(** * The kernel's lists: FreeRTOS_v6.1.0/list.c, include/list.h

    Circular doubly linked lists with an end marker, over a store of items
    and lists: pointers are followed and written as the code does, an access
    to an item or list that is not in the store is [UB]. The abstract state
    of a list is a zipper: the items up to pxIndex and the items after it. *)

From S2P Require Import Prelude.
From stdpp Require Import gmap.
From Stdlib Require Import Sorting.Sorted.
#[local] Open Scope Z_scope.

(** ** Data *)

Definition portMAX_DELAY : Z := 2 ^ 32 - 1.

(** A pointer to an item of the store, or to the xListEnd of a list. *)
Inductive ptr : Type :=
  | PItem (i : nat)
  | PEnd (l : nat).

#[export] Instance ptr_eq_dec : EqDecision ptr.
Proof. solve_decision. Defined.

#[export] Instance PItem_inj : Inj (=) (=) PItem.
Proof. by intros ?? [=]. Qed.

Record xListItem : Type := ListItem {
  xItemValue : Z;
  pxNext : ptr;
  pxPrevious : ptr;
  pvOwner : Z;
  pvContainer : option nat;
}.

(** xListEnd is a mini item: it has no owner and no container. *)
Record xList : Type := XList {
  uxNumberOfItems : Z;
  pxIndex : ptr;
  end_value : Z;
  end_next : ptr;
  end_prev : ptr;
}.

Record store : Type := Store {
  items : gmap nat xListItem;
  lists : gmap nat xList;
}.

(** ** Reading and writing through pointers *)

Definition of_opt {A} (o : option A) : outcome A := match o with Some a => Ok a | None => UB end.

Section Access.
Context (h : store).

Definition nx (p : ptr) : option ptr :=
  match p with PItem i => pxNext <$> items h !! i | PEnd l => end_next <$> lists h !! l end.
Definition pv (p : ptr) : option ptr :=
  match p with PItem i => pxPrevious <$> items h !! i | PEnd l => end_prev <$> lists h !! l end.
Definition vl (p : ptr) : option Z :=
  match p with PItem i => xItemValue <$> items h !! i | PEnd l => end_value <$> lists h !! l end.
Definition ow (i : nat) : option Z := pvOwner <$> items h !! i.
Definition ct (i : nat) : option (option nat) := pvContainer <$> items h !! i.
Definition cnt (l : nat) : option Z := uxNumberOfItems <$> lists h !! l.
Definition ix (l : nat) : option ptr := pxIndex <$> lists h !! l.

Definition upd_item (i : nat) (f : xListItem -> xListItem) : outcome store :=
  let! it := of_opt (items h !! i) in Ok (Store (<[i := f it]> (items h)) (lists h)).
Definition upd_list (l : nat) (f : xList -> xList) : outcome store :=
  let! L := of_opt (lists h !! l) in Ok (Store (items h) (<[l := f L]> (lists h))).

Definition set_next (p q : ptr) : outcome store :=
  match p with
  | PItem i => upd_item i (fun t => ListItem (xItemValue t) q (pxPrevious t) (pvOwner t) (pvContainer t))
  | PEnd l => upd_list l (fun L => XList (uxNumberOfItems L) (pxIndex L) (end_value L) q (end_prev L))
  end.
Definition set_prev (p q : ptr) : outcome store :=
  match p with
  | PItem i => upd_item i (fun t => ListItem (xItemValue t) (pxNext t) q (pvOwner t) (pvContainer t))
  | PEnd l => upd_list l (fun L => XList (uxNumberOfItems L) (pxIndex L) (end_value L) (end_next L) q)
  end.
Definition set_container (i : nat) (c : option nat) : outcome store :=
  upd_item i (fun t => ListItem (xItemValue t) (pxNext t) (pxPrevious t) (pvOwner t) c).
Definition set_value (i : nat) (v : Z) : outcome store :=
  upd_item i (fun t => ListItem v (pxNext t) (pxPrevious t) (pvOwner t) (pvContainer t)).
Definition set_owner (i : nat) (o : Z) : outcome store :=
  upd_item i (fun t => ListItem (xItemValue t) (pxNext t) (pxPrevious t) o (pvContainer t)).
Definition set_count (l : nat) (n : Z) : outcome store :=
  upd_list l (fun L => XList n (pxIndex L) (end_value L) (end_next L) (end_prev L)).
Definition set_index (l : nat) (p : ptr) : outcome store :=
  upd_list l (fun L => XList (uxNumberOfItems L) p (end_value L) (end_next L) (end_prev L)).
End Access.

(** ** The operations of list.c *)

Definition vListInitialise (h : store) (l : nat) : outcome store :=
  upd_list h l (fun _ => XList 0 (PEnd l) portMAX_DELAY (PEnd l) (PEnd l)).

Definition vListInitialiseItem (h : store) (i : nat) : outcome store := set_container h i None.

Definition vListInsertEnd (h : store) (l : nat) (n : nat) : outcome store :=
  let! pxIndex := of_opt (ix h l) in
  let! next := of_opt (nx h pxIndex) in
  let! h := set_next h (PItem n) next in
  let! index := of_opt (ix h l) in
  let! h := set_prev h (PItem n) index in
  let! next := of_opt (nx h pxIndex) in
  let! h := set_prev h next (PItem n) in
  let! h := set_next h pxIndex (PItem n) in
  let! h := set_index h l (PItem n) in
  let! h := set_container h n (Some l) in
  let! c := of_opt (cnt h l) in
  set_count h l (u32 (c + 1)).

(** The loop of vListInsert: from the end marker while the next item's value
    is at most the new one. *)
Fixpoint insert_scan (fuel : nat) (h : store) (p : ptr) (v : Z) : outcome ptr :=
  match fuel with
  | O => NoFuel
  | S fuel =>
      let! q := of_opt (nx h p) in
      let! w := of_opt (vl h q) in
      if w <=? v then insert_scan fuel h q v else Ok p
  end.

Definition vListInsert (fuel : nat) (h : store) (l : nat) (n : nat) : outcome store :=
  let! v := of_opt (vl h (PItem n)) in
  let! pxIterator :=
    (if v =? portMAX_DELAY then of_opt (pv h (PEnd l)) else insert_scan fuel h (PEnd l) v) in
  let! next := of_opt (nx h pxIterator) in
  let! h := set_next h (PItem n) next in
  let! next := of_opt (nx h (PItem n)) in
  let! h := set_prev h next (PItem n) in
  let! h := set_prev h (PItem n) pxIterator in
  let! h := set_next h pxIterator (PItem n) in
  let! h := set_container h n (Some l) in
  let! c := of_opt (cnt h l) in
  set_count h l (u32 (c + 1)).

Definition vListRemove (h : store) (n : nat) : outcome store :=
  let! next := of_opt (nx h (PItem n)) in
  let! prev := of_opt (pv h (PItem n)) in
  let! h := set_prev h next prev in
  let! prev := of_opt (pv h (PItem n)) in
  let! next := of_opt (nx h (PItem n)) in
  let! h := set_next h prev next in
  let! c := of_opt (ct h n) in
  let! l := of_opt c in
  let! index := of_opt (ix h l) in
  let! h :=
    (if decide (index = PItem n) then
       let! prev := of_opt (pv h (PItem n)) in set_index h l prev
     else Ok h) in
  let! h := set_container h n None in
  let! k := of_opt (cnt h l) in
  set_count h l (u32 (k - 1)).

(** ** The macros of list.h *)

Definition listSET_LIST_ITEM_OWNER (h : store) (i : nat) (o : Z) : outcome store := set_owner h i o.
Definition listSET_LIST_ITEM_VALUE (h : store) (i : nat) (v : Z) : outcome store := set_value h i v.
Definition listGET_LIST_ITEM_VALUE (h : store) (i : nat) : outcome Z := of_opt (vl h (PItem i)).
Definition listLIST_IS_EMPTY (h : store) (l : nat) : outcome bool :=
  let! n := of_opt (cnt h l) in Ok (n =? 0).
Definition listCURRENT_LIST_LENGTH (h : store) (l : nat) : outcome Z := of_opt (cnt h l).

(** The owner of what a pointer to an item points to; the end marker has
    none. *)
Definition owner_at (h : store) (p : ptr) : outcome Z :=
  match p with PItem i => of_opt (ow h i) | PEnd _ => UB end.

Definition listGET_OWNER_OF_NEXT_ENTRY (h : store) (l : nat) : outcome (Z * store) :=
  let! index := of_opt (ix h l) in
  let! next := of_opt (nx h index) in
  let! h := set_index h l next in
  let! h :=
    (if decide (next = PEnd l) then
       let! next := of_opt (nx h next) in set_index h l next
     else Ok h) in
  let! index := of_opt (ix h l) in
  let! o := owner_at h index in
  Ok (o, h).

(** [None] is NULL. *)
Definition listGET_OWNER_OF_HEAD_ENTRY (h : store) (l : nat) : outcome (option Z) :=
  let! n := of_opt (cnt h l) in
  if n =? 0 then Ok None
  else
    let! p := of_opt (nx h (PEnd l)) in
    let! o := owner_at h p in Ok (Some o).

Definition listIS_CONTAINED_WITHIN (h : store) (l i : nat) : outcome bool :=
  let! c := of_opt (ct h i) in Ok (bool_decide (c = Some l)).

(** ** Linked sequences of pointers *)

Section Linked.
Implicit Types (nx pv : ptr -> option ptr) (a b cs : list ptr) (p q n : ptr).

Fixpoint linked nx pv cs : Prop :=
  match cs with
  | [] => True
  | x :: r => match r with
              | [] => True
              | y :: _ => nx x = Some y /\ pv y = Some x /\ linked nx pv r
              end
  end.

Lemma linked_cons nx pv x y r :
  linked nx pv (x :: y :: r) <-> nx x = Some y /\ pv y = Some x /\ linked nx pv (y :: r).
Proof. done. Qed.

Lemma linked_app nx pv a x b :
  linked nx pv (a ++ x :: b) <-> linked nx pv (a ++ [x]) /\ linked nx pv (x :: b).
Proof.
  induction a as [|y a IH]; [simpl; tauto|]. destruct a as [|z a].
  - cbn [app]. rewrite !linked_cons. simpl. tauto.
  - cbn [app] in *. rewrite !linked_cons, IH. tauto.
Qed.

(** Only the next fields of the sources and the previous fields of the
    targets matter. *)
Lemma linked_frame nx pv nx' pv' cs :
  linked nx pv cs -> (forall x, x ∈ removelast cs -> nx' x = nx x) ->
  (forall y, y ∈ tail cs -> pv' y = pv y) -> linked nx' pv' cs.
Proof.
  induction cs as [|x [|y r] IH]; [done..|]. rewrite !linked_cons. intros (H1 & H2 & H3) Hn Hp.
  cbn [removelast tail] in *. rewrite Hn, Hp by (constructor). split; [done|]. split; [done|].
  apply IH; [done| |].
  - intros z Hz. apply Hn. by constructor.
  - intros z Hz. apply Hp. by constructor.
Qed.

Lemma removelast_mid {A} (l r : list A) x : removelast (l ++ x :: r) = l ++ removelast (x :: r).
Proof. by apply removelast_app. Qed.

Lemma removelast_two {A} (l r : list A) x y :
  removelast (l ++ x :: y :: r) = l ++ x :: removelast (y :: r).
Proof. by rewrite removelast_mid. Qed.

Lemma tail_mid {A} (l r : list A) x y :
  tail (l ++ x :: y :: r) = tail (l ++ [x]) ++ y :: r.
Proof. destruct l; simpl; [done|]. by rewrite <- app_assoc. Qed.

Lemma linked_insert nx pv nx' pv' a p q b n :
  linked nx pv (a ++ p :: q :: b) ->
  NoDup (removelast (a ++ p :: q :: b)) -> NoDup (tail (a ++ p :: q :: b)) ->
  n ∉ a ++ p :: q :: b ->
  nx' n = Some q -> nx' p = Some n -> (forall r, r <> n -> r <> p -> nx' r = nx r) ->
  pv' q = Some n -> pv' n = Some p -> (forall r, r <> n -> r <> q -> pv' r = pv r) ->
  linked nx' pv' (a ++ p :: n :: q :: b).
Proof.
  intros Hl Hs Ht Hn N1 N2 N3 P1 P2 P3.
  apply linked_app in Hl as [Ha Hb]. rewrite linked_cons in Hb. destruct Hb as (_ & _ & Hb).
  rewrite removelast_two in Hs. rewrite tail_mid in Ht.
  apply NoDup_app in Hs as (_ & Hpa & Hs). apply NoDup_cons in Hs as [Hpb _].
  apply NoDup_app in Ht as (_ & Htq & Ht). apply NoDup_cons in Ht as [Hqb _].
  rewrite linked_app. split; [|rewrite !linked_cons; split; [done|]; split; [done|]; split; [done|]; split; [done|]].
  - apply (linked_frame nx pv); [done| |].
    + rewrite removelast_last. intros x Hx. apply N3; intros ->; [set_solver|].
      by apply (Hpa p Hx), elem_of_cons; left.
    + intros y Hy. apply P3; intros ->.
      * apply Hn. destruct a; simpl in Hy; set_solver.
      * by apply (Htq q Hy), elem_of_cons; left.
  - apply (linked_frame nx pv); [done| |].
    + intros x Hx. apply N3; intros ->; [|done].
      apply Hn. apply elem_of_app; right. apply elem_of_cons; right.
      revert Hx. generalize (q :: b). intros l. induction l as [|z [|w l] IH]; simpl; set_solver.
    + intros y Hy. simpl in Hy. apply P3; intros ->; set_solver.
Qed.

Lemma linked_remove nx pv nx' pv' a p n q b :
  linked nx pv (a ++ p :: n :: q :: b) ->
  NoDup (removelast (a ++ p :: n :: q :: b)) -> NoDup (tail (a ++ p :: n :: q :: b)) ->
  nx' p = Some q -> (forall r, r <> p -> nx' r = nx r) ->
  pv' q = Some p -> (forall r, r <> q -> pv' r = pv r) ->
  linked nx' pv' (a ++ p :: q :: b).
Proof.
  intros Hl Hs Ht N1 N2 P1 P2.
  apply linked_app in Hl as [Ha Hb]. rewrite !linked_cons in Hb. destruct Hb as (_ & _ & _ & _ & Hb).
  rewrite removelast_two in Hs. rewrite tail_mid in Ht.
  apply NoDup_app in Hs as (_ & Hpa & Hs). apply NoDup_cons in Hs as [Hpb _].
  apply NoDup_app in Ht as (_ & Htq & Ht). apply NoDup_cons in Ht as [_ Ht]. apply NoDup_cons in Ht as [Hqb _].
  rewrite linked_app. split; [|rewrite linked_cons; split; [done|]; split; [done|]].
  - apply (linked_frame nx pv); [done| |].
    + rewrite removelast_last. intros x Hx. apply N2; intros ->. set_solver.
    + intros y Hy. apply P2; intros ->. set_solver.
  - apply (linked_frame nx pv); [done| |].
    + intros x Hx. apply N2; intros ->. apply Hpb. cbn [removelast]. by constructor.
    + intros y Hy. simpl in Hy. apply P2; intros ->. set_solver.
Qed.
End Linked.

(** The pointers of a list, from the end marker round to it. *)
Definition cyc (l : nat) (xs : list nat) : list ptr := PEnd l :: map PItem xs ++ [PEnd l].
Definition lastp (l : nat) (xs : list nat) : ptr :=
  match last xs with Some i => PItem i | None => PEnd l end.
Definition headp (l : nat) (xs : list nat) : ptr :=
  match xs with i :: _ => PItem i | [] => PEnd l end.

Lemma cyc_split l xs ys :
  exists a b, cyc l (xs ++ ys) = a ++ lastp l xs :: headp l ys :: b /\
    forall n, cyc l (xs ++ n :: ys) = a ++ lastp l xs :: PItem n :: headp l ys :: b.
Proof.
  assert (exists a, PEnd l :: map PItem xs = a ++ [lastp l xs]) as [a Ha].
  { destruct xs as [|x xs _] using rev_ind; [by exists []|].
    exists (PEnd l :: map PItem xs). unfold lastp. rewrite last_snoc, map_app. done. }
  assert (exists b, map PItem ys ++ [PEnd l] = headp l ys :: b) as [b Hb].
  { destruct ys as [|y ys]; [by exists []|]. by exists (map PItem ys ++ [PEnd l]). }
  exists a, b. unfold cyc. split; [|intros n]; rewrite map_app.
  - rewrite <- app_assoc, Hb, app_comm_cons, Ha, <- app_assoc. done.
  - rewrite <- app_assoc. cbn [map app]. rewrite Hb, app_comm_cons, Ha, <- app_assoc. done.
Qed.

Lemma cyc_nodup l xs :
  NoDup xs -> NoDup (removelast (cyc l xs)) /\ NoDup (tail (cyc l xs)).
Proof.
  intros H. assert (Hm : NoDup (map PItem xs)) by (by apply NoDup_fmap_2; [apply _|]).
  assert (PEnd l ∉ map PItem xs).
  { intros Hi. apply list_elem_of_fmap in Hi as (i & [=] & _). }
  split; unfold cyc; cbn [tail].
  - rewrite app_comm_cons, removelast_last. by constructor.
  - apply NoDup_app. split; [done|]. split; [|apply NoDup_singleton]. set_solver.
Qed.

Lemma elem_of_cyc l xs p : p ∈ cyc l xs <-> p = PEnd l \/ exists i, p = PItem i /\ i ∈ xs.
Proof. unfold cyc. rewrite elem_of_cons, elem_of_app, list_elem_of_fmap, list_elem_of_singleton. naive_solver. Qed.

(** ** What a store shows through its accessors *)

Record view : Type := View {
  v_nx : ptr -> option ptr;
  v_pv : ptr -> option ptr;
  v_vl : ptr -> option Z;
  v_ow : nat -> option Z;
  v_ct : nat -> option (option nat);
  v_cnt : nat -> option Z;
  v_ix : nat -> option ptr;
}.

Record sees (h : store) (V : view) : Prop := Sees {
  s_nx : forall p, nx h p = v_nx V p;
  s_pv : forall p, pv h p = v_pv V p;
  s_vl : forall p, vl h p = v_vl V p;
  s_ow : forall i, ow h i = v_ow V i;
  s_ct : forall i, ct h i = v_ct V i;
  s_cnt : forall l, cnt h l = v_cnt V l;
  s_ix : forall l, ix h l = v_ix V l;
}.

Definition view_of (h : store) : view := View (nx h) (pv h) (vl h) (ow h) (ct h) (cnt h) (ix h).

Lemma sees_view_of h : sees h (view_of h).
Proof. by split. Qed.

Definition upd {K A} `{EqDecision K} (f : K -> option A) (k : K) (x : A) : K -> option A :=
  fun r => if decide (r = k) then Some x else f r.

Lemma upd_eq {K A} `{EqDecision K} (f : K -> option A) k x : upd f k x k = Some x.
Proof. unfold upd. by destruct (decide (k = k)). Qed.
Lemma upd_ne {K A} `{EqDecision K} (f : K -> option A) k x r : r <> k -> upd f k x r = f r.
Proof. intros. unfold upd. by destruct (decide (r = k)). Qed.
Lemma upd_some {K A} `{EqDecision K} (f : K -> option A) k x r :
  is_Some (f r) -> is_Some (upd f k x r).
Proof. intros. unfold upd. destruct (decide (r = k)); eauto. Qed.

Definition with_nx V p q := View (upd (v_nx V) p q) (v_pv V) (v_vl V) (v_ow V) (v_ct V) (v_cnt V) (v_ix V).
Definition with_pv V p q := View (v_nx V) (upd (v_pv V) p q) (v_vl V) (v_ow V) (v_ct V) (v_cnt V) (v_ix V).
Definition with_ct V i c := View (v_nx V) (v_pv V) (v_vl V) (v_ow V) (upd (v_ct V) i c) (v_cnt V) (v_ix V).
Definition with_cnt V l n := View (v_nx V) (v_pv V) (v_vl V) (v_ow V) (v_ct V) (upd (v_cnt V) l n) (v_ix V).
Definition with_ix V l p := View (v_nx V) (v_pv V) (v_vl V) (v_ow V) (v_ct V) (v_cnt V) (upd (v_ix V) l p).

Lemma wp_of_opt {A B} (o : option A) x (k : A -> outcome B) Q :
  o = Some x -> wp (k x) Q -> wp (obind (of_opt o) k) Q.
Proof. by intros ->. Qed.

Lemma wp_opt_sees {A B} (o o' : option A) x (k : A -> outcome B) Q :
  o = o' -> o' = Some x -> wp (k x) Q -> wp (obind (of_opt o) k) Q.
Proof. by intros -> ->. Qed.

Section Updates.
Context (h : store) (V : view).
Hypothesis Hs : sees h V.

(** The key looked up is the one updated, or another. *)
Ltac by_key j i :=
  destruct (decide (j = i)) as [->|];
    [rewrite lookup_insert_eq; try case_decide; done
    |rewrite lookup_insert_ne by congruence; try case_decide; congruence].

Lemma wp_upd_item {B} i f V' (k : store -> outcome B) Q :
  is_Some (v_ct V i) ->
  (forall t, items h !! i = Some t -> sees (Store (<[i := f t]> (items h)) (lists h)) V') ->
  (forall h', sees h' V' -> wp (k h') Q) -> wp (obind (upd_item h i f) k) Q.
Proof.
  intros Hi Hv Hk. unfold upd_item. rewrite <- (s_ct _ _ Hs) in Hi. unfold ct in Hi.
  destruct (items h !! i) as [t|] eqn:E; [|by destruct Hi]. cbn [of_opt obind]. by apply Hk, Hv.
Qed.

Lemma wp_upd_list {B} l f V' (k : store -> outcome B) Q :
  is_Some (v_ix V l) ->
  (forall L, lists h !! l = Some L -> sees (Store (items h) (<[l := f L]> (lists h))) V') ->
  (forall h', sees h' V' -> wp (k h') Q) -> wp (obind (upd_list h l f) k) Q.
Proof.
  intros Hi Hv Hk. unfold upd_list. rewrite <- (s_ix _ _ Hs) in Hi. unfold ix in Hi.
  destruct (lists h !! l) as [t|] eqn:E; [|by destruct Hi]. cbn [of_opt obind]. by apply Hk, Hv.
Qed.

(** An observation of the updated store is one of the old store, or the
    value written. *)
Lemma sees_item i t t' V' :
  items h !! i = Some t ->
  (forall p, v_nx V' p = if decide (p = PItem i) then Some (pxNext t') else v_nx V p) ->
  (forall p, v_pv V' p = if decide (p = PItem i) then Some (pxPrevious t') else v_pv V p) ->
  (forall p, v_vl V' p = if decide (p = PItem i) then Some (xItemValue t') else v_vl V p) ->
  (forall j, v_ow V' j = if decide (j = i) then Some (pvOwner t') else v_ow V j) ->
  (forall j, v_ct V' j = if decide (j = i) then Some (pvContainer t') else v_ct V j) ->
  (forall l, v_cnt V' l = v_cnt V l) -> (forall l, v_ix V' l = v_ix V l) ->
  sees (Store (<[i := t']> (items h)) (lists h)) V'.
Proof.
  destruct Hs as [S1 S2 S3 S4 S5 S6 S7]. intros Ht E1 E2 E3 E4 E5 E6 E7. split.
  - intros p. rewrite E1, <- S1. destruct p as [j|l]; simpl; [|done].
    by_key j i.
  - intros p. rewrite E2, <- S2. destruct p as [j|l]; simpl; [|done].
    by_key j i.
  - intros p. rewrite E3, <- S3. destruct p as [j|l]; simpl; [|done].
    by_key j i.
  - intros j. rewrite E4, <- S4. unfold ow; simpl. by_key j i.
  - intros j. rewrite E5, <- S5. unfold ct; simpl. by_key j i.
  - intros l. by rewrite E6, <- S6.
  - intros l. by rewrite E7, <- S7.
Qed.

Lemma sees_list l L L' V' :
  lists h !! l = Some L ->
  (forall p, v_nx V' p = if decide (p = PEnd l) then Some (end_next L') else v_nx V p) ->
  (forall p, v_pv V' p = if decide (p = PEnd l) then Some (end_prev L') else v_pv V p) ->
  (forall p, v_vl V' p = if decide (p = PEnd l) then Some (end_value L') else v_vl V p) ->
  (forall j, v_ow V' j = v_ow V j) -> (forall j, v_ct V' j = v_ct V j) ->
  (forall j, v_cnt V' j = if decide (j = l) then Some (uxNumberOfItems L') else v_cnt V j) ->
  (forall j, v_ix V' j = if decide (j = l) then Some (pxIndex L') else v_ix V j) ->
  sees (Store (items h) (<[l := L']> (lists h))) V'.
Proof.
  destruct Hs as [S1 S2 S3 S4 S5 S6 S7]. intros Ht E1 E2 E3 E4 E5 E6 E7. split.
  - intros p. rewrite E1, <- S1. destruct p as [j|j]; simpl; [done|].
    by_key j l.
  - intros p. rewrite E2, <- S2. destruct p as [j|j]; simpl; [done|].
    by_key j l.
  - intros p. rewrite E3, <- S3. destruct p as [j|j]; simpl; [done|].
    by_key j l.
  - intros j. by rewrite E4, <- S4.
  - intros j. by rewrite E5, <- S5.
  - intros j. rewrite E6, <- S6. unfold cnt; simpl. by_key j l.
  - intros j. rewrite E7, <- S7. unfold ix; simpl. by_key j l.
Qed.

(** The unchanged fields of the item or list written. *)
Ltac kept E :=
  destruct Hs as [S1 S2 S3 S4 S5 S6 S7]; intros r; cbn; unfold upd;
  rewrite <- ?S1, <- ?S2, <- ?S3, <- ?S4, <- ?S5, <- ?S6, <- ?S7;
  try case_decide; subst; try done;
  unfold nx, pv, vl, ow, ct, cnt, ix; by rewrite E.

Lemma wp_set_next {B} p q (k : store -> outcome B) Q :
  is_Some (v_nx V p) ->
  (forall h', sees h' (with_nx V p q) -> wp (k h') Q) -> wp (obind (set_next h p q) k) Q.
Proof.
  intros Hp Hk. rewrite <- (s_nx _ _ Hs) in Hp. destruct p as [i|l]; cbn [set_next nx] in *;
    apply fmap_is_Some in Hp as [t Ht].
  - apply (wp_upd_item _ _ (with_nx V (PItem i) q)); [|intros t' Ht'|done].
    { rewrite <- (s_ct _ _ Hs). unfold ct. by rewrite Ht. }
    apply (sees_item i t'); [done| | | | | | |]; kept Ht'.
  - apply (wp_upd_list _ _ (with_nx V (PEnd l) q)); [|intros t' Ht'|done].
    { rewrite <- (s_ix _ _ Hs). unfold ix. by rewrite Ht. }
    apply (sees_list l t'); [done| | | | | | |]; kept Ht'.
Qed.

Lemma wp_set_prev {B} p q (k : store -> outcome B) Q :
  is_Some (v_pv V p) ->
  (forall h', sees h' (with_pv V p q) -> wp (k h') Q) -> wp (obind (set_prev h p q) k) Q.
Proof.
  intros Hp Hk. rewrite <- (s_pv _ _ Hs) in Hp. destruct p as [i|l]; cbn [set_prev pv] in *;
    apply fmap_is_Some in Hp as [t Ht].
  - apply (wp_upd_item _ _ (with_pv V (PItem i) q)); [|intros t' Ht'|done].
    { rewrite <- (s_ct _ _ Hs). unfold ct. by rewrite Ht. }
    apply (sees_item i t'); [done| | | | | | |]; kept Ht'.
  - apply (wp_upd_list _ _ (with_pv V (PEnd l) q)); [|intros t' Ht'|done].
    { rewrite <- (s_ix _ _ Hs). unfold ix. by rewrite Ht. }
    apply (sees_list l t'); [done| | | | | | |]; kept Ht'.
Qed.

Lemma wp_set_container {B} i c (k : store -> outcome B) Q :
  is_Some (v_ct V i) ->
  (forall h', sees h' (with_ct V i c) -> wp (k h') Q) -> wp (obind (set_container h i c) k) Q.
Proof.
  intros Hp Hk. apply (wp_upd_item _ _ (with_ct V i c)); [done|intros t' Ht'|done].
  apply (sees_item i t'); [done| | | | | | |]; kept Ht'.
Qed.

Lemma wp_set_index {B} l p (k : store -> outcome B) Q :
  is_Some (v_ix V l) ->
  (forall h', sees h' (with_ix V l p) -> wp (k h') Q) -> wp (obind (set_index h l p) k) Q.
Proof.
  intros Hp Hk. apply (wp_upd_list _ _ (with_ix V l p)); [done|intros t' Ht'|done].
  apply (sees_list l t'); [done| | | | | | |]; kept Ht'.
Qed.

Lemma wp_set_count l n Q :
  is_Some (v_ix V l) ->
  (forall h', sees h' (with_cnt V l n) -> Q h') -> wp (set_count h l n) Q.
Proof.
  intros Hp Hk. enough (Hw : wp (obind (set_count h l n) Ok) Q) by (by destruct (set_count h l n)).
  apply (wp_upd_list _ _ (with_cnt V l n)); [done|intros t' Ht'|done].
  apply (sees_list l t'); [done| | | | | | |]; kept Ht'.
Qed.
End Updates.

(** ** The abstract lists *)

(** The items up to pxIndex (none: pxIndex is the end marker) and those after. *)
Definition zipper : Type := list nat * list nat.
Definition elems (q : zipper) : list nat := fst q ++ snd q.
(** The order in which listGET_OWNER_OF_NEXT_ENTRY will come to the items. *)
Definition order (q : zipper) : list nat := snd q ++ fst q.

Definition z_insert_end (n : nat) (q : zipper) : zipper := (fst q ++ [n], snd q).
Definition z_insert (k n : nat) (q : zipper) : zipper :=
  if decide (k < length (fst q))%nat then (take k (fst q) ++ n :: drop k (fst q), snd q)
  else (fst q, take (k - length (fst q)) (snd q) ++ n :: drop (k - length (fst q)) (snd q)).
Definition z_remove (n : nat) (q : zipper) : zipper :=
  (filter (fun i => i <> n) (fst q), filter (fun i => i <> n) (snd q)).
Definition z_next (q : zipper) : zipper :=
  match snd q with
  | x :: r => (fst q ++ [x], r)
  | [] => match fst q with x :: r => ([x], r) | [] => q end
  end.

(** A list of the store whose abstract state is [q]. *)
Record list_rep (V : view) (l : nat) (q : zipper) : Prop := ListRep {
  lr_linked : linked (v_nx V) (v_pv V) (cyc l (elems q));
  lr_nodup : NoDup (elems q);
  lr_index : v_ix V l = Some (lastp l (fst q));
  lr_count : v_cnt V l = Some (zlen (elems q));
  lr_end : v_vl V (PEnd l) = Some portMAX_DELAY;
  lr_items : forall i, i ∈ elems q -> v_ct V i = Some (Some l) /\
    exists v, v_vl V (PItem i) = Some v /\ 0 <= v <= portMAX_DELAY;
}.

(** Every list of the program is well formed, and an item is in the list its
    container field names. *)
Record lists_ok (V : view) (A : gmap nat zipper) : Prop := ListsOk {
  lo_rep : forall l q, A !! l = Some q -> list_rep V l q;
  lo_in : forall i l, v_ct V i = Some (Some l) -> exists q, A !! l = Some q /\ i ∈ elems q;
  lo_fields : forall i, is_Some (v_ct V i) ->
    is_Some (v_nx V (PItem i)) /\ is_Some (v_pv V (PItem i)) /\ is_Some (v_ow V i);
}.

Definition represents (h : store) (A : gmap nat zipper) : Prop :=
  exists V, sees h V /\ lists_ok V A.

(** The pointers of a list lead to fields that exist. *)
Lemma linked_nx nx pv cs p : linked nx pv cs -> p ∈ removelast cs -> is_Some (nx p).
Proof.
  induction cs as [|x [|y r] IH]; [set_solver..|]. rewrite linked_cons. intros (H1 & _ & H3) Hp.
  cbn [removelast] in Hp. apply elem_of_cons in Hp as [->|Hp]; [eauto|]. by apply IH.
Qed.

Lemma linked_pv nx pv cs p : linked nx pv cs -> p ∈ tail cs -> is_Some (pv p).
Proof.
  induction cs as [|x [|y r] IH]; [set_solver..|]. rewrite linked_cons. intros (_ & H2 & H3) Hp.
  cbn [tail] in *. apply elem_of_cons in Hp as [->|Hp]; [eauto|]. by apply IH.
Qed.

Lemma elem_removelast_cyc l xs p : p ∈ removelast (cyc l xs) <-> p = PEnd l \/ exists i, p = PItem i /\ i ∈ xs.
Proof.
  unfold cyc. rewrite app_comm_cons, removelast_last, elem_of_cons, list_elem_of_fmap. done.
Qed.

Lemma elem_tail_cyc l xs p : p ∈ tail (cyc l xs) <-> p = PEnd l \/ exists i, p = PItem i /\ i ∈ xs.
Proof.
  unfold cyc. cbn [tail]. rewrite elem_of_app, list_elem_of_fmap, list_elem_of_singleton. naive_solver.
Qed.

Lemma rep_nx V l q p : list_rep V l q -> p ∈ cyc l (elems q) -> is_Some (v_nx V p).
Proof.
  intros [] Hp. apply (linked_nx _ _ _ _ lr_linked0). by rewrite elem_removelast_cyc, <- elem_of_cyc.
Qed.

Lemma rep_pv V l q p : list_rep V l q -> p ∈ cyc l (elems q) -> is_Some (v_pv V p).
Proof.
  intros [] Hp. apply (linked_pv _ _ _ _ lr_linked0). by rewrite elem_tail_cyc, <- elem_of_cyc.
Qed.

(** Changes to the fields of one list and of free items leave the others. *)
Lemma lists_ok_step V V' A l q q' (touched : list nat) :
  lists_ok V A -> A !! l = Some q -> list_rep V' l q' ->
  (forall i, i ∈ elems q -> i ∈ touched) ->
  (forall i, i ∈ touched -> v_ct V i = Some None \/ v_ct V i = Some (Some l)) ->
  (forall i, i ∈ touched -> v_ct V' i = Some None \/ i ∈ elems q') ->
  (forall p, p <> PEnd l -> (forall i, i ∈ touched -> p <> PItem i) ->
     v_nx V' p = v_nx V p /\ v_pv V' p = v_pv V p) ->
  (forall p, v_vl V' p = v_vl V p) ->
  (forall i, i ∉ touched -> v_ct V' i = v_ct V i) ->
  (forall l2, l2 <> l -> v_cnt V' l2 = v_cnt V l2 /\ v_ix V' l2 = v_ix V l2) ->
  (forall p, is_Some (v_nx V p) -> is_Some (v_nx V' p)) ->
  (forall p, is_Some (v_pv V p) -> is_Some (v_pv V' p)) ->
  (forall i, v_ow V' i = v_ow V i) ->
  lists_ok V' (<[l := q']> A).
Proof.
  intros [Hrep Hin Hfld] Hl Hq' Hold Ht Ht' Hp Hv Hc Hl2 Hnx Hpv How. split.
  - intros l2 q2. destruct (decide (l2 = l)) as [->|Hne].
    { rewrite lookup_insert_eq. by intros [= <-]. }
    rewrite lookup_insert_ne by done. intros E. destruct (Hrep l2 q2 E) as [R1 R2 R3 R4 R5 R6].
    assert (Hfree : forall i, i ∈ elems q2 -> i ∉ touched).
    { intros i Hi Hti. destruct (R6 i Hi) as [E1 _]. destruct (Ht i Hti); congruence. }
    assert (Hkeep : forall p, p = PEnd l2 \/ (exists i, p = PItem i /\ i ∈ elems q2) ->
              v_nx V' p = v_nx V p /\ v_pv V' p = v_pv V p).
    { intros p Hpq. apply Hp.
      - destruct Hpq as [->|(i & -> & _)]; congruence.
      - intros i Hi ->. destruct Hpq as [[=]|(j & [= <-] & Hj)]. by apply (Hfree i). }
    destruct (Hl2 l2 Hne) as [Hcnt Hix]. split; rewrite ?Hcnt, ?Hix, ?Hv; try done.
    + apply (linked_frame (v_nx V) (v_pv V)); [done| |].
      * intros p ?%elem_removelast_cyc. by apply Hkeep.
      * intros p ?%elem_tail_cyc. by apply Hkeep.
    + intros i Hi. rewrite Hc, Hv by (by apply Hfree). by apply R6.
  - intros i l2 E. destruct (decide (i ∈ touched)) as [Hi|Hi].
    + destruct (Ht' i Hi) as [E'|Hq]; [congruence|].
      assert (l2 = l) as ->. { pose proof (lr_items _ _ _ Hq' i Hq) as [E' _]. congruence. }
      exists q'. by rewrite lookup_insert_eq.
    + rewrite Hc in E by done. destruct (Hin i l2 E) as (q2 & E2 & Hi2).
      destruct (decide (l2 = l)) as [->|Hne].
      * rewrite Hl in E2. injection E2 as <-. by apply Hold in Hi2.
      * exists q2. by rewrite lookup_insert_ne.
  - intros i Hi. rewrite How. enough (H : is_Some (v_ct V i)).
    { destruct (Hfld i H) as (? & ? & ?). auto. }
    destruct (decide (i ∈ touched)) as [Hti|Hti]; [destruct (Ht i Hti) as [-> | ->]; eauto|].
    by rewrite <- Hc.
Qed.

(** *** Inserting and removing *)

Lemma rep_neighbours V l q xs ys :
  list_rep V l q -> elems q = xs ++ ys ->
  v_nx V (lastp l xs) = Some (headp l ys) /\ v_pv V (headp l ys) = Some (lastp l xs).
Proof.
  intros [Hl _ _ _ _ _] E. rewrite E in Hl. destruct (cyc_split l xs ys) as (a & b & Hc & _).
  rewrite Hc in Hl. apply linked_app in Hl as [_ Hl]. rewrite linked_cons in Hl. tauto.
Qed.

Lemma lastp_in l xs ys : lastp l xs ∈ cyc l (xs ++ ys).
Proof. destruct (cyc_split l xs ys) as (a & b & -> & _). set_solver. Qed.
Lemma headp_in l xs ys : headp l ys ∈ cyc l (xs ++ ys).
Proof. destruct (cyc_split l xs ys) as (a & b & -> & _). set_solver. Qed.

Lemma fresh_ne l xs n p : n ∉ xs -> p ∈ cyc l xs -> p <> PItem n.
Proof. intros Hn Hp ->. apply elem_of_cyc in Hp as [[=]|(i & [= ->] & ?)]. done. Qed.

Lemma list_rep_insert V V' l q q' xs ys n :
  list_rep V l q -> elems q = xs ++ ys -> n ∉ elems q -> elems q' = xs ++ n :: ys ->
  v_nx V' (PItem n) = Some (headp l ys) -> v_nx V' (lastp l xs) = Some (PItem n) ->
  (forall r, r <> PItem n -> r <> lastp l xs -> v_nx V' r = v_nx V r) ->
  v_pv V' (headp l ys) = Some (PItem n) -> v_pv V' (PItem n) = Some (lastp l xs) ->
  (forall r, r <> PItem n -> r <> headp l ys -> v_pv V' r = v_pv V r) ->
  v_ix V' l = Some (lastp l (fst q')) -> v_cnt V' l = Some (zlen (elems q) + 1) ->
  (forall p, v_vl V' p = v_vl V p) ->
  (exists v, v_vl V (PItem n) = Some v /\ 0 <= v <= portMAX_DELAY) ->
  v_ct V' n = Some (Some l) -> (forall i, i <> n -> v_ct V' i = v_ct V i) ->
  list_rep V' l q'.
Proof.
  intros Hrep E Hn E' N1 N2 N3 P1 P2 P3 Hix Hcnt Hvl Hv Hct Hct'.
  destruct Hrep as [R1 R2 R3 R4 R5 R6].
  destruct (cyc_split l xs ys) as (a & b & Hc & Hc').
  destruct (cyc_nodup l _ R2) as [Hs Ht]. rewrite E, Hc in R1, Hs, Ht.
  assert (Hncyc : PItem n ∉ cyc l (xs ++ ys)).
  { rewrite <- E, elem_of_cyc. naive_solver. }
  split; rewrite ?E', ?Hvl; try done.
  - rewrite Hc'. apply (linked_insert (v_nx V) (v_pv V)); try done. by rewrite <- Hc.
  - rewrite E in Hn, R2. apply NoDup_app in R2 as (Hxs & Hd & Hys).
    apply NoDup_app. split; [done|]. split; [|constructor; [set_solver|done]]. set_solver.
  - rewrite Hcnt, E. f_equal. rewrite !zlen_app, zlen_cons. lia.
  - intros i Hi. rewrite Hvl. destruct (decide (i = n)) as [->|Hne]; [by split|].
    rewrite Hct' by done. apply R6. rewrite E. set_solver.
Qed.

(** The view after inserting [n] between its two neighbours. *)
Definition inserted (V V' : view) (l n : nat) (xs ys : list nat) : Prop :=
  (forall r, v_nx V' r = if decide (r = PItem n) then Some (headp l ys)
                         else if decide (r = lastp l xs) then Some (PItem n) else v_nx V r) /\
  (forall r, v_pv V' r = if decide (r = PItem n) then Some (lastp l xs)
                         else if decide (r = headp l ys) then Some (PItem n) else v_pv V r) /\
  (forall p, v_vl V' p = v_vl V p) /\ (forall i, v_ow V' i = v_ow V i) /\
  (forall i, v_ct V' i = if decide (i = n) then Some (Some l) else v_ct V i).

Lemma insert_represents V V' A l q q' xs ys n :
  lists_ok V A -> A !! l = Some q -> elems q = xs ++ ys -> elems q' = xs ++ n :: ys ->
  v_ct V n = Some None -> (exists v, v_vl V (PItem n) = Some v /\ 0 <= v <= portMAX_DELAY) ->
  inserted V V' l n xs ys ->
  v_ix V' l = Some (lastp l (fst q')) -> v_cnt V' l = Some (zlen (elems q) + 1) ->
  (forall l2, l2 <> l -> v_cnt V' l2 = v_cnt V l2 /\ v_ix V' l2 = v_ix V l2) ->
  lists_ok V' (<[l := q']> A).
Proof.
  intros Hok Hl E E' Hn Hv (N & P & Hvl & How & Hct) Hix Hcnt Hl2.
  pose proof (lo_rep _ _ Hok l q Hl) as Hrep.
  assert (Hfree : n ∉ elems q).
  { intros Hi. destruct (lr_items _ _ _ Hrep n Hi) as [? _]. congruence. }
  pose proof (lastp_in l xs ys) as Hlast. pose proof (headp_in l xs ys) as Hhead. rewrite <- E in Hlast, Hhead.
  pose proof (fresh_ne _ _ _ _ Hfree Hlast) as Hlne. pose proof (fresh_ne _ _ _ _ Hfree Hhead) as Hhne.
  apply (lists_ok_step V V' A l q q' (n :: elems q)); try done.
  - eapply (list_rep_insert V V' l q q' xs ys n); try done; rewrite ?N, ?P, ?Hct; repeat case_decide; try done.
    + intros r ??. rewrite N. by repeat case_decide.
    + intros r ??. rewrite P. by repeat case_decide.
    + intros i ?. rewrite Hct. by case_decide.
  - intros i Hi. by constructor.
  - intros i [->|Hi]%elem_of_cons; [by left|]. right. apply (lr_items _ _ _ Hrep i Hi).
  - intros i [->|Hi]%elem_of_cons; right; rewrite E'; [set_solver|].
    rewrite E in Hi. set_solver.
  - intros p Hp Hpt. rewrite N, P.
    assert (Hout : p ∉ cyc l (elems q)).
    { rewrite elem_of_cyc. intros [->|(i & -> & Hi)]; [done|]. apply (Hpt i); [by constructor|done]. }
    assert (p <> PItem n) by (apply Hpt; constructor).
    by repeat case_decide; subst.
  - intros i Hi. rewrite Hct. case_decide; [subst; set_solver|done].
  - intros p ?. rewrite N. repeat case_decide; eauto.
  - intros p ?. rewrite P. repeat case_decide; eauto.
Qed.

Ltac read_v H := eapply wp_opt_sees; [apply H|try done|].

Lemma vListInsertEnd_spec h A l q n v :
  represents h A -> A !! l = Some q -> ct h n = Some None ->
  vl h (PItem n) = Some v -> 0 <= v <= portMAX_DELAY -> zlen (elems q) + 1 < 2 ^ 32 ->
  wp (vListInsertEnd h l n) (fun h' => represents h' (<[l := z_insert_end n q]> A) /\
    (forall p, vl h' p = vl h p) /\ (forall i, ow h' i = ow h i)).
Proof.
  intros (V & Hs & Hok) Hl Hn Hv Hvr Hlen.
  pose proof (lo_rep _ _ Hok l q Hl) as Hrep.
  destruct (rep_neighbours V l q (fst q) (snd q) Hrep eq_refl) as [Hnx Hpv].
  pose proof (lr_index _ _ _ Hrep) as Hix. pose proof (lr_count _ _ _ Hrep) as Hcnt.
  rewrite (s_ct _ _ Hs) in Hn. rewrite (s_vl _ _ Hs) in Hv.
  assert (Hfree : n ∉ elems q).
  { intros Hi. destruct (lr_items _ _ _ Hrep n Hi) as [? _]. congruence. }
  pose proof (fresh_ne _ _ _ _ Hfree (lastp_in l (fst q) (snd q))) as Hlne.
  pose proof (fresh_ne _ _ _ _ Hfree (headp_in l (fst q) (snd q))) as Hhne.
  destruct (lo_fields _ _ Hok n) as (Fn & Fp & _); [rewrite Hn; eauto|].
  unfold vListInsertEnd.
  read_v (s_ix _ _ Hs). read_v (s_nx _ _ Hs).
  apply (wp_set_next h V Hs); [done|]. intros h1 H1.
  read_v (s_ix _ _ H1). apply (wp_set_prev h1 _ H1); [done|]. intros h2 H2.
  read_v (s_nx _ _ H2). { cbn. by rewrite upd_ne. }
  apply (wp_set_prev h2 _ H2). { cbn. apply upd_some. eauto. } intros h3 H3.
  apply (wp_set_next h3 _ H3). { cbn. apply upd_some. eauto. } intros h4 H4.
  apply (wp_set_index h4 _ H4). { cbn. eauto. } intros h5 H5.
  apply (wp_set_container h5 _ H5). { cbn. eauto. } intros h6 H6.
  read_v (s_cnt _ _ H6).
  apply (wp_set_count h6 _ H6). { cbn. apply upd_some. eauto. } intros h' H'.
  split; [|split].
  - eexists. split; [exact H'|]. rewrite u32_small by (pose proof (zlen_nonneg (elems q)); lia).
    apply (insert_represents V _ A l q (z_insert_end n q) (fst q) (snd q) n); try done; [|by eauto| | | |].
    + unfold elems, z_insert_end. cbn. by rewrite <- app_assoc.
    + split; [|split; [|split; [|split]]]; cbn; try done; intros r; unfold upd;
        repeat case_decide; subst; done.
    + cbn. rewrite upd_eq. unfold lastp. by rewrite last_snoc.
    + cbn. by rewrite upd_eq.
    + intros l2 Hne. cbn. by rewrite !upd_ne.
  - intros p. rewrite (s_vl _ _ H'), (s_vl _ _ Hs). done.
  - intros i. rewrite (s_ow _ _ H'), (s_ow _ _ Hs). done.
Qed.

(** *** Sorted insertion *)

Definition val (h : store) (i : nat) : Z := default 0 (vl h (PItem i)).

(** The longest prefix of items that satisfy [f], and the rest. *)
Fixpoint span (f : nat -> bool) (xs : list nat) : list nat * list nat :=
  match xs with
  | [] => ([], [])
  | x :: r => if f x then let (a, b) := span f r in (x :: a, b) else ([], xs)
  end.

Lemma span_app f xs : fst (span f xs) ++ snd (span f xs) = xs.
Proof. induction xs as [|x r IH]; [done|]. simpl. destruct (f x); [|done]. destruct (span f r). simpl in *. by f_equal. Qed.

Lemma span_all f xs : Forall (fun x => f x = true) xs -> span f xs = (xs, []).
Proof. induction 1 as [|x r Hx _ IH]; [done|]. simpl. by rewrite Hx, IH. Qed.

Lemma span_fst f xs : Forall (fun x => f x = true) (fst (span f xs)).
Proof.
  induction xs as [|x r IH]; [constructor|]. simpl. destruct (f x) eqn:E; [|constructor].
  destruct (span f r). by constructor.
Qed.

Lemma span_snd f xs : match snd (span f xs) with x :: _ => f x = false | [] => True end.
Proof. induction xs as [|x r IH]; [done|]. simpl. destruct (f x) eqn:E; [|done]. by destruct (span f r). Qed.

(** Where vListInsert puts an item of value [v]. *)
Definition at_most (h : store) (v : Z) (i : nat) : bool := val h i <=? v.
Definition insert_pos (h : store) (v : Z) (q : zipper) : nat :=
  length (fst (span (at_most h v) (elems q))).

Lemma elems_z_insert k n q :
  (k <= length (elems q))%nat -> elems (z_insert k n q) = take k (elems q) ++ n :: drop k (elems q).
Proof.
  destruct q as [b a]. unfold elems, z_insert. cbn [fst snd]. intros Hk.
  rewrite length_app in Hk. destruct (decide (k < length b)%nat); cbn [fst snd].
  - rewrite take_app_le, drop_app_le by lia. by rewrite <- app_assoc.
  - rewrite take_app_ge, drop_app_ge by lia. by rewrite <- app_assoc.
Qed.

Lemma z_insert_index l k n q : lastp l (fst (z_insert k n q)) = lastp l (fst q).
Proof.
  destruct q as [b a]. unfold z_insert. cbn [fst snd]. destruct (decide (k < length b)%nat); [|done].
  cbn [fst]. unfold lastp. rewrite <- (take_drop k b) at 3. rewrite !last_app.
  destruct (drop k b) as [|x r] eqn:E; [|done].
  apply (f_equal length) in E. rewrite length_drop in E. simpl in E. lia.
Qed.

Lemma z_insert_span h v n q :
  elems (z_insert (insert_pos h v q) n q) =
  fst (span (at_most h v) (elems q)) ++ n :: snd (span (at_most h v) (elems q)).
Proof.
  pose proof (span_app (at_most h v) (elems q)) as E. unfold insert_pos.
  rewrite elems_z_insert by (rewrite <- E at 2; rewrite length_app; lia).
  rewrite <- E at 2 4. by rewrite take_app_length, drop_app_length.
Qed.

Lemma rep_val h V l q i :
  sees h V -> list_rep V l q -> i ∈ elems q ->
  v_vl V (PItem i) = Some (val h i) /\ 0 <= val h i <= portMAX_DELAY.
Proof.
  intros Hs Hrep Hi. destruct (lr_items _ _ _ Hrep i Hi) as (_ & v & Hv & Hr).
  unfold val. rewrite (s_vl _ _ Hs), Hv. done.
Qed.

Lemma insert_scan_spec h V l q v fuel xs ys :
  sees h V -> list_rep V l q -> v < portMAX_DELAY -> elems q = xs ++ ys -> (length ys < fuel)%nat ->
  insert_scan fuel h (lastp l xs) v = Ok (lastp l (xs ++ fst (span (at_most h v) ys))).
Proof.
  intros Hs Hrep Hv. revert xs ys. induction fuel as [|fuel IH]; intros xs ys E Hf; [lia|].
  cbn [insert_scan]. destruct (rep_neighbours V l q xs ys Hrep E) as [Hnx _].
  rewrite (s_nx _ _ Hs), Hnx. cbn [of_opt obind]. rewrite (s_vl _ _ Hs).
  destruct ys as [|y ys]; cbn [headp span].
  - rewrite (lr_end _ _ _ Hrep). cbn [of_opt obind]. destruct (Z.leb_spec portMAX_DELAY v); [lia|].
    cbn [fst]. by rewrite app_nil_r.
  - destruct (rep_val h V l q y Hs Hrep) as [Hy _]; [rewrite E; set_solver|].
    rewrite Hy. cbn [of_opt obind]. unfold at_most at 1. destruct (val h y <=? v).
    + change (PItem y) with (lastp l [y]). replace (lastp l [y]) with (lastp l (xs ++ [y])).
      2: { unfold lastp. by rewrite !last_snoc. }
      rewrite (IH (xs ++ [y]) ys) by (rewrite <- ?app_assoc; simpl in *; done || lia).
      rewrite <- app_assoc. destruct (span _ ys). done.
    + cbn [fst]. by rewrite app_nil_r.
Qed.

Lemma vListInsert_iterator h V l q v :
  sees h V -> list_rep V l q -> 0 <= v <= portMAX_DELAY ->
  (if v =? portMAX_DELAY then of_opt (pv h (PEnd l))
   else insert_scan (S (length (elems q))) h (PEnd l) v) =
  Ok (lastp l (fst (span (at_most h v) (elems q)))).
Proof.
  intros Hs Hrep Hv. destruct (Z.eqb_spec v portMAX_DELAY) as [->|Hne].
  - rewrite span_all.
    + destruct (rep_neighbours V l q (elems q) [] Hrep) as [_ Hp]; [by rewrite app_nil_r|].
      rewrite (s_pv _ _ Hs). cbn [headp] in Hp. by rewrite Hp.
    + apply Forall_forall. intros i Hi.
      destruct (rep_val h V l q i Hs Hrep Hi) as [_ Hr]. unfold at_most. apply Z.leb_le. lia.
  - change (PEnd l) with (lastp l []). apply (insert_scan_spec h V l q v _ [] (elems q)); [done..|lia|done|lia].
Qed.

(** All that an insertion of [n] between [xs] and [ys] writes: the links of the
    item and of its two neighbours, its container and the count of the list. *)
Definition writes_insert (h h' : store) (l n : nat) (xs ys : list nat) : Prop :=
  (forall r, nx h' r = if decide (r = PItem n) then Some (headp l ys)
                       else if decide (r = lastp l xs) then Some (PItem n) else nx h r) /\
  (forall r, pv h' r = if decide (r = PItem n) then Some (lastp l xs)
                       else if decide (r = headp l ys) then Some (PItem n) else pv h r) /\
  (forall p, vl h' p = vl h p) /\ (forall i, ow h' i = ow h i) /\
  (forall i, ct h' i = if decide (i = n) then Some (Some l) else ct h i) /\
  (forall k, cnt h' k = if decide (k = l) then Some (zlen (xs ++ ys) + 1) else cnt h k) /\
  (forall k, ix h' k = ix h k).

Lemma vListInsert_spec h A l q n v :
  represents h A -> A !! l = Some q -> ct h n = Some None ->
  vl h (PItem n) = Some v -> 0 <= v <= portMAX_DELAY -> zlen (elems q) + 1 < 2 ^ 32 ->
  wp (vListInsert (S (length (elems q))) h l n) (fun h' =>
    represents h' (<[l := z_insert (insert_pos h v q) n q]> A) /\
    writes_insert h h' l n (fst (span (at_most h v) (elems q))) (snd (span (at_most h v) (elems q)))).
Proof.
  intros (V & Hs & Hok) Hl Hn Hv Hvr Hlen.
  pose proof (lo_rep _ _ Hok l q Hl) as Hrep.
  set (xs := fst (span (at_most h v) (elems q))). set (ys := snd (span (at_most h v) (elems q))).
  assert (E : elems q = xs ++ ys) by (symmetry; apply span_app).
  destruct (rep_neighbours V l q xs ys Hrep E) as [Hnx Hpv].
  pose proof (lr_index _ _ _ Hrep) as Hix. pose proof (lr_count _ _ _ Hrep) as Hcnt.
  rewrite (s_ct _ _ Hs) in Hn.
  assert (Hfree : n ∉ elems q).
  { intros Hi. destruct (lr_items _ _ _ Hrep n Hi) as [? _]. congruence. }
  rewrite E in Hfree.
  pose proof (fresh_ne _ _ _ _ Hfree (lastp_in l xs ys)) as Hlne.
  pose proof (fresh_ne _ _ _ _ Hfree (headp_in l xs ys)) as Hhne.
  destruct (lo_fields _ _ Hok n) as (Fn & Fp & _); [rewrite Hn; eauto|].
  unfold vListInsert. rewrite Hv. cbn [of_opt obind].
  rewrite (vListInsert_iterator h V l q v Hs Hrep Hvr). fold xs. cbn [obind].
  rewrite (s_vl _ _ Hs) in Hv.
  read_v (s_nx _ _ Hs).
  apply (wp_set_next h V Hs); [done|]. intros h1 H1.
  read_v (s_nx _ _ H1). { cbn. by rewrite upd_eq. }
  apply (wp_set_prev h1 _ H1). { cbn. eauto. } intros h2 H2.
  apply (wp_set_prev h2 _ H2). { cbn. apply upd_some. eauto. } intros h3 H3.
  apply (wp_set_next h3 _ H3). { cbn. apply upd_some. eauto. } intros h4 H4.
  apply (wp_set_container h4 _ H4). { cbn. eauto. } intros h5 H5.
  read_v (s_cnt _ _ H5).
  apply (wp_set_count h5 _ H5). { cbn. eauto. } intros h' H'.
  rewrite u32_small in H' by (pose proof (zlen_nonneg (elems q)); lia).
  split.
  - eexists. split; [exact H'|].
    apply (insert_represents V _ A l q _ xs ys n); try done; [apply z_insert_span|by eauto| | | |].
    + split; [|split; [|split; [|split]]]; cbn; try done; intros r; unfold upd;
        repeat case_decide; subst; done.
    + cbn. by rewrite z_insert_index.
    + cbn. by rewrite upd_eq.
    + intros l2 Hne. cbn. by rewrite !upd_ne.
  - fold xs ys. unfold writes_insert. split_and!; intros r;
      rewrite ?(s_nx _ _ H'), ?(s_nx _ _ Hs), ?(s_pv _ _ H'), ?(s_pv _ _ Hs), ?(s_vl _ _ H'), ?(s_vl _ _ Hs),
        ?(s_ow _ _ H'), ?(s_ow _ _ Hs), ?(s_ct _ _ H'), ?(s_ct _ _ Hs), ?(s_cnt _ _ H'), ?(s_cnt _ _ Hs),
        ?(s_ix _ _ H'), ?(s_ix _ _ Hs), <- ?E; cbn; unfold upd; repeat case_decide; subst; done.
Qed.

(** *** Removal *)

Lemma filter_notin n (xs : list nat) : n ∉ xs -> filter (fun i => i <> n) xs = xs.
Proof.
  induction xs as [|x r IH]; [done|]. intros Hn. rewrite filter_cons.
  destruct (decide (x <> n)); [f_equal; apply IH; set_solver|set_solver].
Qed.

Lemma filter_mid n (xs ys : list nat) :
  n ∉ xs -> n ∉ ys -> filter (fun i => i <> n) (xs ++ n :: ys) = xs ++ ys.
Proof.
  intros. rewrite filter_app, filter_cons_False by tauto. by rewrite !filter_notin.
Qed.

Lemma lastp_snoc l xs x : lastp l (xs ++ [x]) = PItem x.
Proof. unfold lastp. by rewrite last_snoc. Qed.

(** What removing [n] from the zipper does to its list and to its cursor. *)
Lemma z_remove_split q n l :
  NoDup (elems q) -> n ∈ elems q ->
  exists xs ys, elems q = xs ++ n :: ys /\ elems (z_remove n q) = xs ++ ys /\
    lastp l (fst (z_remove n q)) =
      (if decide (lastp l (fst q) = PItem n) then lastp l xs else lastp l (fst q)).
Proof.
  destruct q as [b a]. unfold elems, z_remove. cbn [fst snd]. intros Hnd Hin.
  apply NoDup_app in Hnd as (Hb & Hd & Ha). apply elem_of_app in Hin as [Hin|Hin].
  - apply list_elem_of_split in Hin as (xs & b2 & ->).
    apply NoDup_app in Hb as (_ & Hx & Hb2). apply NoDup_cons in Hb2 as [Hnb2 _].
    assert (n ∉ xs) by (intros ?; by apply (Hx n); [|left]).
    assert (n ∉ a) by (apply Hd; set_solver).
    exists xs, (b2 ++ a). rewrite <- app_assoc. split; [done|].
    rewrite filter_mid, (filter_notin n a), <- app_assoc by done. split; [done|].
    destruct b2 as [|y b2 _] using rev_ind.
    + rewrite app_nil_r, lastp_snoc. by destruct (decide _).
    + rewrite (app_assoc xs b2), app_comm_cons, (app_assoc xs), !lastp_snoc.
      destruct (decide (PItem y = PItem n)) as [[= ->]|]; [set_solver|done].
  - assert (n ∉ b) by (intros ?; by apply (Hd n)).
    apply list_elem_of_split in Hin as (a1 & a2 & ->).
    apply NoDup_app in Ha as (_ & Hx & Ha2). apply NoDup_cons in Ha2 as [Hna2 _].
    assert (n ∉ a1) by (intros ?; by apply (Hx n); [|left]).
    exists (b ++ a1), a2. rewrite <- !app_assoc. split; [done|].
    rewrite filter_mid, (filter_notin n b) by done. split; [done|].
    destruct (decide (lastp l b = PItem n)) as [E|]; [|done].
    exfalso. destruct b as [|y b _] using rev_ind; [done|].
    rewrite lastp_snoc in E. injection E as ->. set_solver.
Qed.

(** The view after unlinking [n] from between its two neighbours. *)
Definition removed (V V' : view) (l n : nat) (xs ys : list nat) : Prop :=
  (forall r, v_nx V' r = upd (v_nx V) (lastp l xs) (headp l ys) r) /\
  (forall r, v_pv V' r = upd (v_pv V) (headp l ys) (lastp l xs) r) /\
  (forall p, v_vl V' p = v_vl V p) /\ (forall i, v_ow V' i = v_ow V i) /\
  (forall i, v_ct V' i = upd (v_ct V) n None i).

Lemma nodup_mid (xs ys : list nat) n :
  NoDup (xs ++ n :: ys) -> NoDup (xs ++ ys) /\ n ∉ xs ++ ys.
Proof.
  intros H. apply NoDup_app in H as (Hx & Hd & Hy). apply NoDup_cons in Hy as [Hny Hy].
  split.
  - apply NoDup_app. split; [done|]. split; [|done]. set_solver.
  - intros [Hi|Hi]%elem_of_app; [|done]. apply (Hd n Hi). by left.
Qed.

Lemma remove_represents V V' A l q xs ys n :
  lists_ok V A -> A !! l = Some q -> elems q = xs ++ n :: ys -> elems (z_remove n q) = xs ++ ys ->
  removed V V' l n xs ys ->
  v_ix V' l = Some (lastp l (fst (z_remove n q))) -> v_cnt V' l = Some (zlen (elems q) - 1) ->
  (forall l2, l2 <> l -> v_cnt V' l2 = v_cnt V l2 /\ v_ix V' l2 = v_ix V l2) ->
  lists_ok V' (<[l := z_remove n q]> A).
Proof.
  intros Hok Hl E E' (N & P & Hvl & How & Hct) Hix Hcnt Hl2.
  destruct (lo_rep _ _ Hok l q Hl) as [R1 R2 R3 R4 R5 R6].
  destruct (cyc_split l xs ys) as (a & b & Hc' & Hc). specialize (Hc n).
  destruct (cyc_nodup l _ R2) as [Hnd1 Hnd2]. rewrite E, Hc in R1, Hnd1, Hnd2.
  pose proof R2 as R2'. rewrite E in R2'. destruct (nodup_mid _ _ _ R2') as [Hnd Hn].
  apply (lists_ok_step V V' A l q _ (elems q)); try done.
  - split; rewrite ?Hvl, ?E', ?Hcnt, ?E; try done.
    + rewrite Hc'. apply (linked_remove (v_nx V) (v_pv V) _ _ a (lastp l xs) (PItem n)); try done;
        rewrite ?N, ?P; try (by rewrite upd_eq); intros r ?; rewrite ?N, ?P; by rewrite upd_ne.
    + f_equal. rewrite !zlen_app, zlen_cons. lia.
    + intros i Hi. rewrite Hct, Hvl, upd_ne by (intros ->; done). apply R6. rewrite E. set_solver.
  - intros i Hi. right. by apply R6.
  - intros i Hi. destruct (decide (i = n)) as [->|]; [left; by rewrite Hct, upd_eq|right].
    rewrite E'. rewrite E in Hi. set_solver.
  - intros p Hp Hpt. assert (Hout : p ∉ cyc l (xs ++ ys)).
    { intros [?|(i & -> & Hi)]%elem_of_cyc; [done|]. apply (Hpt i); [rewrite E; set_solver|done]. }
    rewrite N, P, !upd_ne; [done| |]; intros ->; apply Hout; [apply headp_in|apply lastp_in].
  - intros i Hi. rewrite Hct, upd_ne; [done|]. intros ->. apply Hi. rewrite E. set_solver.
  - intros p ?. rewrite N. by apply upd_some.
  - intros p ?. rewrite P. by apply upd_some.
Qed.

Lemma vListRemove_spec h A l q n :
  represents h A -> A !! l = Some q -> n ∈ elems q -> zlen (elems q) < 2 ^ 32 ->
  wp (vListRemove h n) (fun h' => represents h' (<[l := z_remove n q]> A) /\ ct h' n = Some None /\
    (forall p, vl h' p = vl h p) /\ (forall i, ow h' i = ow h i)).
Proof.
  intros (V & Hs & Hok) Hl Hin Hlen.
  pose proof (lo_rep _ _ Hok l q Hl) as Hrep. destruct Hrep as [R1 R2 R3 R4 R5 R6].
  destruct (z_remove_split q n l R2 Hin) as (xs & ys & E & E' & Hcur).
  destruct (cyc_split l xs ys) as (a & b & Hc' & Hc). specialize (Hc n).
  pose proof R1 as R1'. rewrite E, Hc in R1'.
  pose proof R1' as Hlinks. apply linked_app in Hlinks as [_ Hlinks]. rewrite !linked_cons in Hlinks.
  destruct Hlinks as (N1 & P1 & N2 & P2 & _). destruct (R6 n Hin) as [Hct _].
  pose proof R2 as R2'. rewrite E in R2'. destruct (nodup_mid _ _ _ R2') as [_ Hn].
  pose proof (fresh_ne _ _ _ _ Hn (lastp_in l xs ys)) as Hlne.
  pose proof (fresh_ne _ _ _ _ Hn (headp_in l xs ys)) as Hhne.
  unfold vListRemove.
  read_v (s_nx _ _ Hs). read_v (s_pv _ _ Hs).
  apply (wp_set_prev h V Hs); [eauto|]. intros h1 H1.
  read_v (s_pv _ _ H1). { cbn. by rewrite upd_ne. }
  read_v (s_nx _ _ H1).
  apply (wp_set_next h1 _ H1). { cbn. eauto. } intros h2 H2.
  read_v (s_ct _ _ H2). eapply wp_of_opt; [done|].
  read_v (s_ix _ _ H2).
  set (V2 := with_nx (with_pv V (headp l ys) (lastp l xs)) (lastp l xs) (headp l ys)) in *.
  eapply (wp_bind_mono _ _ _ (fun h3 => sees h3 (with_ix V2 l (lastp l (fst (z_remove n q)))))).
  { rewrite Hcur. destruct (decide (lastp l (fst q) = PItem n)).
    - read_v (s_pv _ _ H2). { cbn. by rewrite upd_ne. }
      enough (Hw : wp (let! h3 := set_index h2 l (lastp l xs) in Ok h3)
                     (fun h3 => sees h3 (with_ix V2 l (lastp l xs))))
        by (by destruct (set_index h2 l (lastp l xs))).
      apply (wp_set_index h2 _ H2); [cbn; eauto|done].
    - cbn [wp]. destruct H2 as [S1 S2 S3 S4 S5 S6 S7]. split; try done.
      intros l2. rewrite S7. cbn. unfold upd. case_decide; by subst. }
  intros h3 H3.
  apply (wp_set_container h3 _ H3). { cbn. eauto. } intros h4 H4.
  read_v (s_cnt _ _ H4).
  apply (wp_set_count h4 _ H4). { cbn. apply upd_some. eauto. } intros h' H'.
  assert (Hz : zlen (elems q) = zlen (xs ++ ys) + 1) by (rewrite E, !zlen_app, zlen_cons; lia).
  rewrite u32_small in H' by (pose proof (zlen_nonneg (xs ++ ys)); lia).
  split; [|split; [|split]].
  - eexists. split; [exact H'|]. apply (remove_represents V _ A l q xs ys n); try done.
    + cbn [with_cnt with_ct with_ix with_nx with_pv v_ix]. by rewrite upd_eq.
    + cbn. by rewrite upd_eq.
    + intros l2 ?. cbn. by rewrite !upd_ne.
  - rewrite (s_ct _ _ H'). cbn. by rewrite upd_eq.
  - intros p. rewrite (s_vl _ _ H'), (s_vl _ _ Hs). done.
  - intros i. rewrite (s_ow _ _ H'), (s_ow _ _ Hs). done.
Qed.

(** *** Walking a list *)

Lemma z_next_order q x r : order q = x :: r ->
  elems (z_next q) = elems q /\ order (z_next q) = r ++ [x].
Proof.
  destruct q as [b a]. unfold order, elems, z_next. cbn [fst snd].
  destruct a as [|y a]; cbn [app].
  - intros ->. cbn [fst snd]. by rewrite app_nil_r.
  - intros [= -> <-]. cbn [fst snd]. by rewrite <- !app_assoc.
Qed.

(** The pointer the macro leaves in pxIndex. *)
Lemma next_pointer V l q x r :
  list_rep V l q -> order q = x :: r ->
  exists p, v_nx V (lastp l (fst q)) = Some p /\
    (if decide (p = PEnd l) then v_nx V p else Some p) = Some (PItem x) /\
    lastp l (fst (z_next q)) = PItem x.
Proof.
  intros Hrep Ho. destruct q as [b a]. unfold order in Ho. cbn [fst snd] in Ho.
  destruct (rep_neighbours V l (b, a) b a Hrep eq_refl) as [Hnx _].
  destruct a as [|y a]; cbn [app] in Ho.
  - subst b. exists (PEnd l). split; [done|]. rewrite decide_True by done.
    destruct (rep_neighbours V l (x :: r, []) [] (x :: r) Hrep) as [Hnx0 _]; [apply app_nil_r|].
    by split.
  - injection Ho as -> <-. exists (PItem x). split; [done|]. cbn [z_next fst snd].
    split; [by destruct (decide (PItem x = PEnd l))|apply lastp_snoc].
Qed.

Lemma next_entry_spec h A l q x r :
  represents h A -> A !! l = Some q -> order q = x :: r ->
  wp (listGET_OWNER_OF_NEXT_ENTRY h l) (fun res =>
    ow h x = Some (fst res) /\ represents (snd res) (<[l := z_next q]> A) /\
    (forall p, vl (snd res) p = vl h p) /\ (forall i, ow (snd res) i = ow h i)).
Proof.
  intros (V & Hs & Hok) Hl Ho. pose proof (lo_rep _ _ Hok l q Hl) as Hrep.
  destruct (next_pointer V l q x r Hrep Ho) as (p & Hp & Hp' & Hlast).
  destruct (z_next_order q x r Ho) as [He _].
  destruct Hrep as [R1 R2 R3 R4 R5 R6].
  assert (Hx : x ∈ elems q).
  { unfold order in Ho. unfold elems. assert (x ∈ snd q ++ fst q) by (rewrite Ho; left). set_solver. }
  destruct (R6 x Hx) as [Hct _]. destruct (lo_fields _ _ Hok x) as (_ & _ & [o Ho']); [eauto|].
  unfold listGET_OWNER_OF_NEXT_ENTRY. read_v (s_ix _ _ Hs). read_v (s_nx _ _ Hs).
  apply (wp_set_index h V Hs); [eauto|]. intros h1 H1.
  eapply (wp_bind_mono _ _ _ (fun h2 => sees h2 (with_ix V l (PItem x)))).
  { destruct (decide (p = PEnd l)).
    - read_v (s_nx _ _ H1).
      enough (Hw : wp (let! h2 := set_index h1 l (PItem x) in Ok h2) (fun h2 => sees h2 (with_ix V l (PItem x))))
        by (by destruct (set_index h1 l (PItem x))).
      apply (wp_set_index h1 _ H1); [cbn; rewrite upd_eq; eauto|].
      intros h2 [S1 S2 S3 S4 S5 S6 S7]. split; try done. intros l2. rewrite S7. cbn.
      unfold upd. by case_decide.
    - cbn [wp]. by injection Hp' as ->. }
  intros h2 H2. read_v (s_ix _ _ H2). { cbn. by rewrite upd_eq. }
  cbn [owner_at]. read_v (s_ow _ _ H2). cbn [wp fst snd].
  split; [by rewrite (s_ow _ _ Hs)|]. split; [|split].
  - exists (with_ix V l (PItem x)). split; [done|].
    apply (lists_ok_step V _ A l q _ (elems q)); try done.
    + split; cbn [with_ix v_nx v_pv v_ix v_cnt v_vl v_ct]; rewrite ?He, ?upd_eq, ?Hlast; done.
    + intros i Hi. right. by apply R6.
    + intros i Hi. right. by rewrite He.
    + intros l2 ?. cbn. by rewrite upd_ne.
  - intros p'. rewrite (s_vl _ _ H2), (s_vl _ _ Hs). done.
  - intros i. rewrite (s_ow _ _ H2), (s_ow _ _ Hs). done.
Qed.

(** [k] calls of the macro: the owners it returns. *)
Fixpoint next_owners (k : nat) (h : store) (l : nat) : outcome (list Z * store) :=
  match k with
  | O => Ok ([], h)
  | S k =>
      let! (o, h1) := listGET_OWNER_OF_NEXT_ENTRY h l in
      let! (os, h2) := next_owners k h1 l in
      Ok (o :: os, h2)
  end.

Lemma next_owners_spec h A l q xs ys :
  represents h A -> A !! l = Some q -> order q = xs ++ ys ->
  wp (next_owners (length xs) h l) (fun res =>
    map Some (fst res) = map (ow h) xs /\
    exists q', represents (snd res) (<[l := q']> A) /\ elems q' = elems q /\ order q' = ys ++ xs).
Proof.
  revert h A q ys. induction xs as [|x xs IH]; intros h A q ys Hrep Hl Ho.
  - cbn [next_owners length wp fst snd map]. split; [done|]. exists q.
    rewrite insert_id, app_nil_r by done. done.
  - cbn [next_owners length]. cbn [app] in Ho. wpb (next_entry_spec h A l q x (xs ++ ys)); [done..|].
    intros [o h1] (E & Hrep1 & _ & How). cbn [fst snd] in *.
    destruct (z_next_order q x (xs ++ ys) Ho) as [He Hord].
    wpb (IH h1 (<[l := z_next q]> A) (z_next q) (ys ++ [x])).
    { done. }
    { by rewrite lookup_insert_eq. }
    { rewrite Hord. by rewrite app_assoc. }
    intros [os h2] (Eos & q' & Hrep2 & He' & Ho'). cbn [wp fst snd map] in *.
    split; [|exists q'; rewrite insert_insert_eq in Hrep2; rewrite Ho', He', He, <- app_assoc; done].
    rewrite E, Eos. f_equal. apply map_ext. exact How.
Qed.

(** *** Initialisation *)

Lemma vListInitialise_spec h A l :
  represents h A -> A !! l = None -> is_Some (ix h l) ->
  wp (vListInitialise h l) (fun h' => represents h' (<[l := ([], [])]> A)).
Proof.
  intros (V & Hs & Hok) Hl Hix. unfold vListInitialise.
  enough (Hw : wp (let! h' := upd_list h l (fun _ => XList 0 (PEnd l) portMAX_DELAY (PEnd l) (PEnd l)) in Ok h')
    (fun h' => represents h' (<[l := ([], [])]> A))) by (by destruct (upd_list _ _ _)).
  set (V' := View (upd (v_nx V) (PEnd l) (PEnd l)) (upd (v_pv V) (PEnd l) (PEnd l))
    (upd (v_vl V) (PEnd l) portMAX_DELAY) (v_ow V) (v_ct V) (upd (v_cnt V) l 0) (upd (v_ix V) l (PEnd l))).
  apply (wp_upd_list h V Hs _ _ V'); [by rewrite <- (s_ix _ _ Hs)| |].
  { intros L HL. apply (sees_list h V Hs l L); try done. }
  intros h' H'. exists V'. split; [done|]. destruct Hok as [Hrep Hin Hfld]. split.
  - intros l2 q. destruct (decide (l2 = l)) as [->|Hne].
    + rewrite lookup_insert_eq. intros [= <-]. split; cbn; rewrite ?upd_eq; try done.
      * constructor.
      * intros i Hi. by apply elem_of_nil in Hi.
    + rewrite lookup_insert_ne by done. intros E. destruct (Hrep l2 q E) as [R1 R2 R3 R4 R5 R6].
      split; unfold V'; cbn [v_nx v_pv v_vl v_ct v_cnt v_ix]; rewrite ?upd_ne by congruence; try done.
      * apply (linked_frame (v_nx V) (v_pv V)); [done| |].
        -- intros p [->|(i & -> & _)]%elem_removelast_cyc; rewrite upd_ne; congruence.
        -- intros p [->|(i & -> & _)]%elem_tail_cyc; rewrite upd_ne; congruence.
  - intros i l2 E. destruct (Hin i l2 E) as (q & E2 & Hi). exists q.
    rewrite lookup_insert_ne; [done|congruence].
  - intros i Hi. destruct (Hfld i Hi) as (? & ? & ?). cbn. rewrite !upd_ne by done. done.
Qed.

(** ** What the lists promise *)

(** A store of two items and one list, before any call. *)
Definition sample_item (v o : Z) : xListItem := ListItem v (PEnd 0) (PEnd 0) o None.
Definition sample_store : store :=
  Store {[ 1%nat := sample_item 5 101; 2%nat := sample_item 3 102 ]} {[ 0%nat := XList 77 (PEnd 9) 0 (PEnd 9) (PEnd 9) ]}.
Definition sample_init : store := match vListInitialise sample_store 0 with Ok h => h | _ => sample_store end.

Lemma sample_empty : represents sample_store ∅.
Proof.
  exists (view_of sample_store). split; [apply sees_view_of|]. split.
  - intros l q. by rewrite lookup_empty.
  - intros i l. cbn. unfold ct, sample_store. cbn [items].
    destruct (decide (i = 1%nat)) as [->|]; [by rewrite lookup_insert_eq|].
    destruct (decide (i = 2%nat)) as [->|]; [by rewrite lookup_insert_ne, lookup_singleton_eq by done|].
    by rewrite lookup_insert_ne, lookup_singleton_ne by congruence.
  - intros i. unfold view_of, ct, nx, pv, ow. cbn. intros Hi. rewrite !fmap_is_Some in *. auto.
Qed.

Lemma sample_ready : represents sample_init {[ 0%nat := ([], []) ]}.
Proof.
  pose proof (vListInitialise_spec sample_store ∅ 0 sample_empty eq_refl) as H.
  specialize (H (ex_intro _ _ eq_refl)). unfold sample_init.
  destruct (vListInitialise sample_store 0); [done|by destruct H..].
Qed.

(** The values of a list in its order. *)
Definition sorted (h : store) (xs : list nat) : Prop := StronglySorted Z.le (map (val h) xs).

Lemma sorted_app_inv (xs ys : list Z) :
  StronglySorted Z.le (xs ++ ys) ->
  StronglySorted Z.le xs /\ StronglySorted Z.le ys /\ Forall (fun x => Forall (Z.le x) ys) xs.
Proof.
  induction xs as [|x xs IH]; [by repeat constructor|]. cbn [app]. intros H.
  apply StronglySorted_inv in H as [H Hx]. apply Forall_app in Hx as [Hx Hy].
  destruct (IH H) as (? & ? & ?). repeat split; [by constructor|done|by constructor].
Qed.

Lemma sorted_insert (xs ys : list Z) v :
  StronglySorted Z.le (xs ++ ys) -> Forall (fun x => x <= v) xs ->
  match ys with y :: _ => v < y | [] => True end -> StronglySorted Z.le (xs ++ v :: ys).
Proof.
  intros H Hx Hy. apply sorted_app_inv in H as (H1 & H2 & H3).
  assert (Hv : Forall (Z.le v) ys).
  { destruct ys as [|y ys]; [constructor|]. apply StronglySorted_inv in H2 as [_ H2].
    constructor; [lia|]. eapply Forall_impl; [exact H2|]. simpl. lia. }
  clear Hy. induction Hx as [|x xs Hxv _ IH]; [by constructor|]. cbn [app].
  apply StronglySorted_inv in H1 as [H1 Hx1]. inversion H3; subst.
  constructor; [by apply IH|]. apply Forall_app. split; [done|]. by constructor.
Qed.

Lemma val_same h h' xs : (forall p, vl h' p = vl h p) -> map (val h') xs = map (val h) xs.
Proof. intros Hv. apply map_ext. intros i. unfold val. by rewrite Hv. Qed.

(** C38: vListInsert, for every well-formed store, list and item in no list:
    it terminates and the list is well formed again, with the item between the
    longest run of first items whose value is at most its own and the rest; in
    a sorted list (ascending: the comment of list.h says descending) these are
    all the items of at most its value and all those of a larger one, so that
    the list stays sorted and equal values keep their order of arrival, also
    for the value portMAX_DELAY of the end marker. Nothing else is touched:
    it writes the links of the item and of its two neighbours, its container
    and the count of this list; every value, owner and index and every other
    list is as before. *)
Theorem vListInsert_sorts h A l q n v :
  represents h A -> A !! l = Some q -> ct h n = Some None ->
  vl h (PItem n) = Some v -> 0 <= v <= portMAX_DELAY -> zlen (elems q) + 1 < 2 ^ 32 ->
  exists h' xs ys, vListInsert (S (length (elems q))) h l n = Ok h' /\
    let q' := z_insert (length xs) n q in
    represents h' (<[l := q']> A) /\ elems q = xs ++ ys /\ elems q' = xs ++ n :: ys /\
    Forall (fun i => val h i <= v) xs /\ match ys with y :: _ => v < val h y | [] => True end /\
    (sorted h (elems q) -> Forall (fun i => v < val h i) ys /\ sorted h' (elems q')) /\
    writes_insert h h' l n xs ys.
Proof.
  intros Hrep Hl Hn Hv Hvr Hlen.
  pose proof (vListInsert_spec h A l q n v Hrep Hl Hn Hv Hvr Hlen) as H.
  apply wp_ok in H as (h' & E & Hrep' & Hw).
  pose proof (span_app (at_most h v) (elems q)) as Hq.
  pose proof (span_fst (at_most h v) (elems q)) as Hxs. pose proof (span_snd (at_most h v) (elems q)) as Hys.
  pose proof (z_insert_span h v n q) as Hq'. unfold insert_pos in Hq', Hrep'.
  set (xs := fst (span _ _)) in *. set (ys := snd (span _ _)) in *.
  exists h', xs, ys. split; [exact E|]. cbv zeta.
  assert (H1 : Forall (fun i => val h i <= v) xs).
  { eapply Forall_impl; [exact Hxs|]. intros i. unfold at_most. cbn. lia. }
  assert (H2 : match ys with y :: _ => v < val h y | [] => True end).
  { destruct ys as [|y ys']; [done|]. unfold at_most in Hys. lia. }
  split_and!; try done. pose proof Hw as (_ & _ & Hvl & _).
  unfold sorted. rewrite (val_same h h') by done. rewrite Hq', <- Hq, !map_app. cbn [map]. intros Hs. split.
  - apply sorted_app_inv in Hs as (_ & Hs & _). destruct ys as [|y ys']; [constructor|].
    cbn [map] in Hs. apply StronglySorted_inv in Hs as [_ Hs]. constructor; [done|].
    clear -Hs H2. induction ys' as [|z ys' IH]; [constructor|].
    cbn [map] in Hs. inversion Hs; subst. constructor; [lia|by apply IH].
  - unfold val at 2. rewrite Hv. cbn [default]. apply sorted_insert; [done| |].
    + clear -H1. induction H1; constructor; done.
    + by destruct ys.
Qed.

(** A list with an item of value 5, into which one of value 3 is inserted. *)
Definition sample_five : store := match vListInsert 1 sample_init 0 1 with Ok h => h | _ => sample_store end.

Lemma sample_five_ready : represents sample_five (<[0%nat := ([], [1%nat])]> {[ 0%nat := ([], []) ]}).
Proof.
  pose proof (vListInsert_spec sample_init {[ 0%nat := ([], []) ]} 0 ([], []) 1 5 sample_ready eq_refl) as H.
  specialize (H ltac:(vm_compute; reflexivity) ltac:(vm_compute; reflexivity)
    ltac:(vm_compute; split; discriminate) ltac:(vm_compute; reflexivity)).
  unfold sample_five. change (vListInsert (S (length (elems ([], []))))) with (vListInsert 1) in H.
  destruct (vListInsert 1 sample_init 0 1); [by destruct H|by destruct H..].
Qed.

Lemma vListInsert_sorts_witness :
  exists h' xs ys, vListInsert 2 sample_five 0 2 = Ok h' /\
    let q := ([], [1%nat]) in let q' := z_insert (length xs) 2 q in
    represents h' (<[0%nat := q']> (<[0%nat := q]> {[ 0%nat := ([], []) ]})) /\ elems q = xs ++ ys /\
    elems q' = xs ++ 2%nat :: ys /\ Forall (fun i => val sample_five i <= 3) xs /\
    match ys with y :: _ => 3 < val sample_five y | [] => True end /\
    (sorted sample_five (elems q) -> Forall (fun i => 3 < val sample_five i) ys /\ sorted h' (elems q')) /\
    writes_insert sample_five h' 0 2 xs ys.
Proof.
  apply (vListInsert_sorts sample_five (<[0%nat := ([], [1%nat])]> {[ 0%nat := ([], []) ]}) 0 ([], [1%nat]) 2 3 sample_five_ready);
    [reflexivity|vm_compute; reflexivity|vm_compute; reflexivity|vm_compute; split; discriminate
    |vm_compute; reflexivity].
Defined.

(** VListInsertEnd, for every well-formed store, list and item in no
    list: the item is the last one that listGET_OWNER_OF_NEXT_ENTRY will come
    to, after all the others in the order they had, and every other list is
    as before. *)
Theorem vListInsertEnd_last h A l q n v :
  represents h A -> A !! l = Some q -> ct h n = Some None ->
  vl h (PItem n) = Some v -> 0 <= v <= portMAX_DELAY -> zlen (elems q) + 1 < 2 ^ 32 ->
  exists h' q', vListInsertEnd h l n = Ok h' /\ represents h' (<[l := q']> A) /\
    order q' = order q ++ [n] /\ cnt h' l = Some (zlen (elems q) + 1).
Proof.
  intros Hrep Hl Hn Hv Hvr Hlen.
  pose proof (vListInsertEnd_spec h A l q n v Hrep Hl Hn Hv Hvr Hlen) as H.
  apply wp_ok in H as (h' & E & Hrep' & _ & _).
  exists h', (z_insert_end n q). split; [done|]. split; [done|]. split.
  - unfold order, z_insert_end. cbn. by rewrite app_assoc.
  - destruct Hrep' as (V & Hs & Hok). rewrite (s_cnt _ _ Hs).
    rewrite (lr_count _ _ _ (lo_rep _ _ Hok l _ (lookup_insert_eq _ _ _))). f_equal.
    unfold elems, z_insert_end. cbn. rewrite !zlen_app. change (zlen [n]) with 1. lia.
Qed.

Lemma vListInsertEnd_last_witness :
  exists h' q', vListInsertEnd sample_init 0 2 = Ok h' /\
    represents h' (<[0%nat := q']> {[ 0%nat := ([], []) ]}) /\
    order q' = order ([], []) ++ [2%nat] /\ cnt h' 0 = Some (zlen (elems ([], [])) + 1).
Proof.
  apply (vListInsertEnd_last sample_init {[ 0%nat := ([], []) ]} 0 ([], []) 2 3 sample_ready);
    [reflexivity|vm_compute; reflexivity|vm_compute; reflexivity|vm_compute; split; discriminate
    |vm_compute; reflexivity].
Defined.

(** the round robin is fair. As many calls of
    listGET_OWNER_OF_NEXT_ENTRY as the list has items return the owner of
    each item exactly once, in order from the one after pxIndex, never the
    end marker's, and leave the list with the same items in the same order
    of service. *)
Theorem next_entry_round_robin h A l q :
  represents h A -> A !! l = Some q ->
  exists os h' q', next_owners (length (elems q)) h l = Ok (os, h') /\
    map Some os = map (ow h) (order q) /\ Permutation (order q) (elems q) /\ NoDup (order q) /\
    represents h' (<[l := q']> A) /\ elems q' = elems q /\ order q' = order q.
Proof.
  intros Hrep Hl. assert (Hp : Permutation (order q) (elems q)) by apply Permutation_app_comm.
  pose proof (next_owners_spec h A l q (order q) [] Hrep Hl ltac:(by rewrite app_nil_r)) as H.
  rewrite (Permutation_length Hp) in H.
  apply wp_ok in H as ([os h'] & E & Hos & q' & Hrep' & He & Ho). cbn [fst snd] in *.
  exists os, h', q'. split; [done|]. split; [done|]. split; [done|]. split; [|done].
  rewrite Hp. destruct Hrep as (V & _ & Hok). apply (lr_nodup _ _ _ (lo_rep _ _ Hok l q Hl)).
Qed.

Lemma next_entry_round_robin_witness :
  exists os h' q', next_owners (length (elems ([], []))) sample_init 0 = Ok (os, h') /\
    map Some os = map (ow sample_init) (order ([], [])) /\
    Permutation (order ([], [])) (elems ([], [])) /\ NoDup (order ([], [])) /\
    represents h' (<[0%nat := q']> {[ 0%nat := ([], []) ]}) /\
    elems q' = elems ([], []) /\ order q' = order ([], []).
Proof. apply (next_entry_round_robin sample_init _ 0 ([], []) sample_ready). reflexivity. Defined.

(** vListRemove, for every well-formed store and item of a list: the item
    is in no list afterwards, the list has the other items, in the order and
    in the order of service they had (pxIndex steps back when it pointed to
    the item), and every other list is as before. *)
Theorem vListRemove_unlinks h A l q n :
  represents h A -> A !! l = Some q -> n ∈ elems q -> zlen (elems q) < 2 ^ 32 ->
  exists h' q', vListRemove h n = Ok h' /\ represents h' (<[l := q']> A) /\ ct h' n = Some None /\
    elems q' = filter (fun i => i <> n) (elems q) /\ order q' = filter (fun i => i <> n) (order q) /\
    cnt h' l = Some (zlen (elems q) - 1).
Proof.
  intros Hrep Hl Hin Hlen. pose proof (vListRemove_spec h A l q n Hrep Hl Hin Hlen) as H.
  apply wp_ok in H as (h' & E & Hrep' & Hct & _ & _).
  exists h', (z_remove n q). split; [done|]. split; [done|]. split; [done|].
  split; [unfold elems, z_remove; cbn; by rewrite filter_app|].
  split; [unfold order, z_remove; cbn; by rewrite filter_app|].
  destruct Hrep' as (V & Hs & Hok). rewrite (s_cnt _ _ Hs).
  rewrite (lr_count _ _ _ (lo_rep _ _ Hok l _ (lookup_insert_eq _ _ _))). f_equal.
  destruct Hrep as (V0 & _ & Hok0).
  destruct (z_remove_split q n l (lr_nodup _ _ _ (lo_rep _ _ Hok0 l q Hl)) Hin) as (xs & ys & E1 & E2 & _).
  rewrite E1, E2, !zlen_app, zlen_cons. lia.
Qed.

(** The list of [sample_store] with item 2 in it. *)
Definition sample_one : store := match vListInsertEnd sample_init 0 2 with Ok h => h | _ => sample_init end.

Lemma sample_one_ready : represents sample_one {[ 0%nat := ([2%nat], []) ]}.
Proof.
  pose proof (vListInsertEnd_spec sample_init {[ 0%nat := ([], []) ]} 0 ([], []) 2 3 sample_ready) as H.
  specialize (H eq_refl eq_refl eq_refl ltac:(vm_compute; split; discriminate) eq_refl). unfold sample_one.
  destruct (vListInsertEnd sample_init 0 2); [|by destruct H..]. destruct H as (H & _).
  by rewrite insert_singleton_eq in H.
Qed.

Lemma vListRemove_unlinks_witness :
  exists h' q', vListRemove sample_one 2 = Ok h' /\
    represents h' (<[0%nat := q']> {[ 0%nat := ([2%nat], []) ]}) /\ ct h' 2 = Some None /\
    elems q' = filter (fun i => i <> 2%nat) (elems ([2%nat], [])) /\
    order q' = filter (fun i => i <> 2%nat) (order ([2%nat], [])) /\
    cnt h' 0 = Some (zlen (elems ([2%nat], [])) - 1).
Proof.
  apply (vListRemove_unlinks sample_one _ 0 ([2%nat], []) 2 sample_one_ready);
    [reflexivity|by left|reflexivity].
Defined.
