(* ===== verification/Heap2.v ===== *)
(** * The kernel's allocator: FreeRTOS_v6.1.0/portable/MemMang/heap_2.c

    A best-fit allocator over one array: every block starts with a link
    structure, the free blocks are linked in order of size between the
    markers xStart and xEnd, adjacent free blocks are not joined. A pointer
    into the array is its offset; the memory is seen through the link
    structures that were written to it. *)

From S2P Require Import Prelude.
From stdpp Require Import gmap.
From Stdlib Require Import Sorting.Sorted.
#[local] Open Scope Z_scope.

(** ** Configuration: working/inc/FreeRTOSConfig.h, portmacro.h *)

Definition configTOTAL_HEAP_SIZE : Z := 15 * 1024.
Definition portBYTE_ALIGNMENT : Z := 8.
Definition portBYTE_ALIGNMENT_MASK : Z := 7.
Definition sizeof_xBlockLink : Z := 8.
Definition heapSTRUCT_SIZE : Z :=
  u16 (sizeof_xBlockLink + portBYTE_ALIGNMENT - sizeof_xBlockLink mod portBYTE_ALIGNMENT).
Definition heapMINIMUM_BLOCK_SIZE : Z := heapSTRUCT_SIZE * 2.

(** ** Data *)

Inductive bptr : Type :=
  | BNull
  | BStart
  | BEnd
  | BBlk (off : Z).

#[export] Instance bptr_eq_dec : EqDecision bptr.
Proof. solve_decision. Defined.

#[export] Instance BBlk_inj : Inj (=) (=) BBlk.
Proof. by intros ?? [=]. Qed.

Record xBlockLink : Type := BlockLink {
  pxNextFreeBlock : bptr;
  xBlockSize : Z;
}.

Record heap2 : Type := Heap2 {
  ucHeap : gmap Z xBlockLink;
  xStart : xBlockLink;
  xEnd : xBlockLink;
  xFreeBytesRemaining : Z;
  xHeapHasBeenInitialised : bool;
}.

(** ** Memory *)

Definition lk (h : heap2) (p : bptr) : option xBlockLink :=
  match p with
  | BNull => None
  | BStart => Some (xStart h)
  | BEnd => Some (xEnd h)
  | BBlk o => ucHeap h !! o
  end.

Definition rd_link (h : heap2) (p : bptr) : outcome xBlockLink :=
  match lk h p with Some b => Ok b | None => UB end.

(** A link structure is written inside the array only. *)
Definition wr_link (h : heap2) (p : bptr) (b : xBlockLink) : outcome heap2 :=
  match p with
  | BNull => UB
  | BStart => Ok (Heap2 (ucHeap h) b (xEnd h) (xFreeBytesRemaining h) (xHeapHasBeenInitialised h))
  | BEnd => Ok (Heap2 (ucHeap h) (xStart h) b (xFreeBytesRemaining h) (xHeapHasBeenInitialised h))
  | BBlk o =>
      if (0 <=? o) && (o + sizeof_xBlockLink <=? configTOTAL_HEAP_SIZE) then
        Ok (Heap2 (<[o := b]> (ucHeap h)) (xStart h) (xEnd h) (xFreeBytesRemaining h)
              (xHeapHasBeenInitialised h))
      else UB
  end.

Definition wr_next (h : heap2) (p q : bptr) : outcome heap2 :=
  let! b := rd_link h p in wr_link h p (BlockLink q (xBlockSize b)).
Definition wr_size (h : heap2) (p : bptr) (s : Z) : outcome heap2 :=
  let! b := rd_link h p in wr_link h p (BlockLink (pxNextFreeBlock b) s).
Definition set_free (h : heap2) (n : Z) : heap2 :=
  Heap2 (ucHeap h) (xStart h) (xEnd h) n (xHeapHasBeenInitialised h).

(** ** The operations *)

(** No list is longer: a block has at least 8 bytes. *)
Definition heap_fuel : nat := Z.to_nat (configTOTAL_HEAP_SIZE / 8).

Fixpoint free_scan (fuel : nat) (h : heap2) (pxIterator : bptr) (size : Z) : outcome bptr :=
  match fuel with
  | O => NoFuel
  | S fuel =>
      let! it := rd_link h pxIterator in
      let! nxt := rd_link h (pxNextFreeBlock it) in
      if xBlockSize nxt <? size then free_scan fuel h (pxNextFreeBlock it) size
      else Ok pxIterator
  end.

Definition prvInsertBlockIntoFreeList (h : heap2) (p : bptr) : outcome heap2 :=
  let! b := rd_link h p in
  let! pxIterator := free_scan heap_fuel h BStart (xBlockSize b) in
  let! it := rd_link h pxIterator in
  let! h := wr_next h p (pxNextFreeBlock it) in
  wr_next h pxIterator p.

Definition prvHeapInit (h : heap2) : heap2 :=
  Heap2 (<[0 := BlockLink BEnd configTOTAL_HEAP_SIZE]> (ucHeap h)) (BlockLink (BBlk 0) 0)
    (BlockLink BNull configTOTAL_HEAP_SIZE) (xFreeBytesRemaining h) true.

(** The search of pvPortMalloc: previous block and block. *)
Fixpoint malloc_scan (fuel : nat) (h : heap2) (pxPreviousBlock pxBlock : bptr) (xWantedSize : Z)
    : outcome (bptr * bptr) :=
  match fuel with
  | O => NoFuel
  | S fuel =>
      let! b := rd_link h pxBlock in
      if (xBlockSize b <? xWantedSize) && negb (bool_decide (pxNextFreeBlock b = BNull)) then
        malloc_scan fuel h pxBlock (pxNextFreeBlock b) xWantedSize
      else Ok (pxPreviousBlock, pxBlock)
  end.

(** The size with the link structure, aligned. *)
Definition adjust_size (xWantedSize : Z) : Z :=
  if 0 <? xWantedSize then
    let w := u32 (xWantedSize + heapSTRUCT_SIZE) in
    if negb (Z.land w portBYTE_ALIGNMENT_MASK =? 0) then
      u32 (w + (portBYTE_ALIGNMENT - Z.land w portBYTE_ALIGNMENT_MASK))
    else w
  else xWantedSize.

(** Offset of a block pointer plus the structure: what is returned. *)
Definition payload (p : bptr) : outcome Z :=
  match p with BBlk o => Ok (o + heapSTRUCT_SIZE) | _ => UB end.

(** Cutting a block of the wanted size off [pxBlock] when enough is left.
    The next field of the new block is not written before the insertion
    sets it. *)
Definition split_block (h : heap2) (pxBlock : bptr) (xWantedSize : Z) : outcome heap2 :=
  let! b := rd_link h pxBlock in
  if heapMINIMUM_BLOCK_SIZE <? u32 (xBlockSize b - xWantedSize) then
    match pxBlock with
    | BBlk o =>
        let pxNewBlockLink := BBlk (o + xWantedSize) in
        let! h := wr_link h pxNewBlockLink (BlockLink BNull (u32 (xBlockSize b - xWantedSize))) in
        let! h := wr_size h pxBlock xWantedSize in
        prvInsertBlockIntoFreeList h pxNewBlockLink
    | _ => UB
    end
  else Ok h.

(** [None] is NULL. *)
Definition pvPortMalloc (h : heap2) (xWantedSize : Z) : outcome (option Z * heap2) :=
  let h := if xHeapHasBeenInitialised h then h else prvHeapInit h in
  let w := adjust_size xWantedSize in
  if (0 <? w) && (w <? configTOTAL_HEAP_SIZE) then
    let! (pxPreviousBlock, pxBlock) := malloc_scan heap_fuel h BStart (pxNextFreeBlock (xStart h)) w in
    if decide (pxBlock = BEnd) then Ok (None, h)
    else
      let! prev := rd_link h pxPreviousBlock in
      let! pvReturn := payload (pxNextFreeBlock prev) in
      let! b := rd_link h pxBlock in
      let! h := wr_next h pxPreviousBlock (pxNextFreeBlock b) in
      let! h := split_block h pxBlock w in
      let! b := rd_link h pxBlock in
      Ok (Some pvReturn, set_free h (u32 (xFreeBytesRemaining h - xBlockSize b)))
  else Ok (None, h).

Definition vPortFree (h : heap2) (pv : option Z) : outcome heap2 :=
  match pv with
  | None => Ok h
  | Some puc =>
      let pxLink := BBlk (puc - heapSTRUCT_SIZE) in
      let! h := prvInsertBlockIntoFreeList h pxLink in
      let! b := rd_link h pxLink in
      Ok (set_free h (u32 (xFreeBytesRemaining h + xBlockSize b)))
  end.

Definition xPortGetFreeHeapSize (h : heap2) : Z := xFreeBytesRemaining h.

(** The static data before any call; the array is uninitialised. *)
Definition heap_boot (m : gmap Z xBlockLink) : heap2 :=
  Heap2 m (BlockLink BNull 0) (BlockLink BNull 0) configTOTAL_HEAP_SIZE false.

(** ** Memory, as its readers see it *)

(** A pointer a link structure can be written through. *)
Definition writable (p : bptr) : Prop :=
  match p with
  | BNull => False
  | BStart | BEnd => True
  | BBlk o => 0 <= o /\ o + sizeof_xBlockLink <= configTOTAL_HEAP_SIZE
  end.

(** [h'] is [h] with [b] at [p]. *)
Record written (h : heap2) (p : bptr) (b : xBlockLink) (h' : heap2) : Prop := Written {
  w_lk : forall q, lk h' q = if decide (q = p) then Some b else lk h q;
  w_free : xFreeBytesRemaining h' = xFreeBytesRemaining h;
  w_init : xHeapHasBeenInitialised h' = xHeapHasBeenInitialised h;
}.

Lemma wr_link_spec h p b : writable p -> wp (wr_link h p b) (written h p b).
Proof.
  unfold wr_link. destruct p as [| | |o]; cbn [writable]; [done| | |].
  - intros _. split; [|done..]. intros q; case_decide; [by subst|by destruct q].
  - intros _. split; [|done..]. intros q; case_decide; [by subst|by destruct q].
  - intros [H1 H2]. destruct (Z.leb_spec 0 o); [|lia].
    destruct (Z.leb_spec (o + sizeof_xBlockLink) configTOTAL_HEAP_SIZE); [|lia]. cbn [andb wp].
    split; [|done..]. intros q. case_decide; [subst; apply lookup_insert_eq|].
    destruct q; try done. apply lookup_insert_ne. congruence.
Qed.

Lemma wr_next_spec h p q b :
  lk h p = Some b -> writable p -> wp (wr_next h p q) (written h p (BlockLink q (xBlockSize b))).
Proof. intros E Hp. unfold wr_next, rd_link. rewrite E. by apply wr_link_spec. Qed.

Lemma wr_size_spec h p s b :
  lk h p = Some b -> writable p -> wp (wr_size h p s) (written h p (BlockLink (pxNextFreeBlock b) s)).
Proof. intros E Hp. unfold wr_size, rd_link. rewrite E. by apply wr_link_spec. Qed.

(** ** Chains of link structures *)

Abbreviation node := (bptr * Z)%type.

Definition hdp (ns : list node) (q : bptr) : bptr := match ns with n :: _ => fst n | [] => q end.

(** The nodes are linked in order, the last one to [q]. *)
Fixpoint chain (h : heap2) (ns : list node) (q : bptr) : Prop :=
  match ns with
  | [] => True
  | n :: r => lk h (fst n) = Some (BlockLink (hdp r q) (snd n)) /\ chain h r q
  end.

Lemma hdp_app a b q : hdp (a ++ b) q = hdp a (hdp b q).
Proof. by destruct a. Qed.

Lemma chain_app h a b q : chain h (a ++ b) q <-> chain h a (hdp b q) /\ chain h b q.
Proof. induction a as [|n a IH]; simpl; [tauto|]. rewrite IH, hdp_app. tauto. Qed.

Lemma chain_frame h h' ns q :
  chain h ns q -> (forall p, p ∈ map fst ns -> lk h' p = lk h p) -> chain h' ns q.
Proof.
  induction ns as [|n r IH]; [done|]. cbn [chain map]. intros [H1 H2] Hk.
  rewrite Hk by (by left). split; [done|]. apply IH; [done|]. intros p Hp. apply Hk. by right.
Qed.

Lemma chain_rd h a n b q : chain h (a ++ n :: b) q -> lk h (fst n) = Some (BlockLink (hdp b q) (snd n)).
Proof. rewrite chain_app. intros [_ [H _]]. done. Qed.

(** Putting a node between two, and taking one out. *)
Lemma chain_insert h h1 h2 a n m b q :
  chain h (a ++ n :: b) q -> NoDup (map fst (a ++ n :: m :: b)) ->
  written h (fst m) (BlockLink (hdp b q) (snd m)) h1 ->
  written h1 (fst n) (BlockLink (fst m) (snd n)) h2 -> chain h2 (a ++ n :: m :: b) q.
Proof.
  intros Hc Hnd [W1 _ _] [W2 _ _]. apply chain_app in Hc as [Ha [Hn Hb]].
  rewrite map_app in Hnd. apply NoDup_app in Hnd as (_ & Hd & Hnd). cbn [map] in *.
  apply NoDup_cons in Hnd as [Hn1 Hnd]. apply NoDup_cons in Hnd as [Hm _].
  assert (Hsame : forall p, p <> fst n -> p <> fst m -> lk h2 p = lk h p).
  { intros p ??. rewrite W2, W1. by repeat case_decide. }
  apply chain_app. cbn [chain hdp]. split; [|split; [|split]].
  - apply (chain_frame h); [done|]. intros p Hp. apply Hsame; intros ->; apply (Hd _ Hp); set_solver.
  - rewrite W2. by case_decide.
  - rewrite W2, W1. repeat case_decide; [set_solver|done..].
  - apply (chain_frame h); [done|]. intros p Hp. apply Hsame; intros ->; set_solver.
Qed.

Lemma chain_remove h h1 a n m b q :
  chain h (a ++ n :: m :: b) q -> NoDup (map fst (a ++ n :: m :: b)) ->
  written h (fst n) (BlockLink (hdp b q) (snd n)) h1 -> chain h1 (a ++ n :: b) q.
Proof.
  intros Hc Hnd [W1 _ _]. apply chain_app in Hc as [Ha (Hn & Hm & Hb)].
  rewrite map_app in Hnd. apply NoDup_app in Hnd as (_ & Hd & Hnd). cbn [map] in *.
  apply NoDup_cons in Hnd as [Hn1 Hnd].
  apply chain_app. cbn [chain hdp]. split; [|split].
  - apply (chain_frame h); [done|]. intros p Hp. rewrite W1. case_decide; [|done].
    subst. exfalso. apply (Hd _ Hp). by left.
  - rewrite W1. by case_decide.
  - apply (chain_frame h); [done|]. intros p Hp. rewrite W1. case_decide; [|done]. subst. set_solver.
Qed.

(** ** The free list *)

Abbreviation block := (Z * Z)%type.

Definition bnode (b : block) : node := (BBlk (fst b), snd b).
Definition start_node : node := (BStart, 0).
Definition end_node : node := (BEnd, configTOTAL_HEAP_SIZE).
Definition free_nodes (fs : list block) : list node := start_node :: map bnode fs ++ [end_node].

Lemma free_nodes_nodup fs : NoDup (map fst fs) -> NoDup (map fst (free_nodes fs)).
Proof.
  intros H. unfold free_nodes. cbn [map]. rewrite map_app, map_map. cbn [map fst].
  assert (Hb : NoDup (map (fun b => fst (bnode b)) fs)).
  { assert (E : map (fun b => fst (bnode b)) fs = map BBlk (map fst fs)) by (by rewrite map_map).
    rewrite E. by apply (NoDup_fmap_2 BBlk). }
  constructor.
  - rewrite elem_of_app, list_elem_of_fmap. intros [(b & [=] & _)|Hi]. by apply list_elem_of_singleton in Hi.
  - apply NoDup_app. split; [done|]. split; [|apply NoDup_singleton].
    intros p Hp. apply list_elem_of_fmap in Hp as (b & -> & _). by rewrite list_elem_of_singleton.
Qed.

(** The free nodes, cut behind the blocks [l1]: the last node before the cut,
    and the nodes after it. *)
Lemma free_nodes_cut l1 l2 :
  exists a n, free_nodes (l1 ++ l2) = a ++ n :: map bnode l2 ++ [end_node] /\
    (forall b, free_nodes (l1 ++ b :: l2) = a ++ n :: bnode b :: map bnode l2 ++ [end_node]) /\
    n = (match last l1 with Some b => bnode b | None => start_node end).
Proof.
  destruct l1 as [|x l1 _] using rev_ind.
  - by exists [], start_node.
  - exists (start_node :: map bnode l1), (bnode x). rewrite last_snoc.
    unfold free_nodes. rewrite <- !app_assoc. cbn [app]. split; [|split; [|done]].
    + by rewrite !map_app, <- app_assoc.
    + intros b. rewrite !map_app, <- !app_assoc. done.
Qed.

(** Blocks before the first of at least the given size, and the rest. *)
Fixpoint below (s : Z) (fs : list block) : list block * list block :=
  match fs with
  | [] => ([], [])
  | b :: r => if snd b <? s then let (l1, l2) := below s r in (b :: l1, l2) else ([], fs)
  end.

Lemma below_app s fs : fst (below s fs) ++ snd (below s fs) = fs.
Proof. induction fs as [|b r IH]; [done|]. simpl. destruct (snd b <? s); [|done]. destruct (below s r). simpl in *. by f_equal. Qed.

Lemma below_fst s fs : Forall (fun b => snd b < s) (fst (below s fs)).
Proof.
  induction fs as [|b r IH]; [constructor|]. simpl. destruct (Z.ltb_spec (snd b) s); [|constructor].
  destruct (below s r). by constructor.
Qed.

Lemma below_snd s fs : match snd (below s fs) with b :: _ => s <= snd b | [] => True end.
Proof.
  induction fs as [|b r IH]; [done|]. simpl. destruct (Z.ltb_spec (snd b) s); [|done].
  by destruct (below s r).
Qed.

Definition last_node (fs : list block) : node :=
  match last fs with Some b => bnode b | None => start_node end.

Lemma last_node_snoc l b : last_node (l ++ [b]) = bnode b.
Proof. unfold last_node. by rewrite last_snoc. Qed.

(** Both scans stop at the cut. *)
Lemma free_scan_spec fuel h s l1 l2 :
  chain h (free_nodes (l1 ++ l2)) BNull -> s <= configTOTAL_HEAP_SIZE -> (length l2 < fuel)%nat ->
  free_scan fuel h (fst (last_node l1)) s = Ok (fst (last_node (l1 ++ fst (below s l2)))).
Proof.
  intros Hc Hs. revert l1 l2 Hc. induction fuel as [|fuel IH]; intros l1 l2 Hc Hf; [lia|].
  cbn [free_scan]. destruct (free_nodes_cut l1 l2) as (a & n & Hcut & _ & Hn). fold (last_node l1) in Hn.
  pose proof Hc as Hc0. rewrite Hcut in Hc. pose proof (chain_rd _ _ _ _ _ Hc) as Hrd. rewrite Hn in Hrd.
  unfold rd_link at 1. rewrite Hrd. cbn [obind pxNextFreeBlock].
  apply chain_app in Hc as [_ [_ Hc]].
  destruct l2 as [|b l2]; cbn [map app hdp chain] in *.
  - destruct Hc as [He _]. unfold rd_link. rewrite He. cbn [obind xBlockSize snd end_node].
    destruct (Z.ltb_spec configTOTAL_HEAP_SIZE s); [lia|]. cbn [below fst]. by rewrite app_nil_r.
  - destruct Hc as [He _]. unfold rd_link. rewrite He. cbn [obind xBlockSize below].
    cbn [snd bnode]. destruct (snd b <? s).
    + rewrite <- (last_node_snoc l1 b).
      rewrite (IH (l1 ++ [b]) l2) by (rewrite <- ?app_assoc; simpl in *; done || lia).
      rewrite <- app_assoc. destruct (below s l2). done.
    + cbn [fst]. by rewrite app_nil_r.
Qed.

Lemma malloc_scan_spec fuel h w l1 l2 :
  chain h (free_nodes (l1 ++ l2)) BNull -> w < configTOTAL_HEAP_SIZE -> (length l2 < fuel)%nat ->
  malloc_scan fuel h (fst (last_node l1)) (hdp (map bnode l2) BEnd) w =
  Ok (fst (last_node (l1 ++ fst (below w l2))), hdp (map bnode (snd (below w l2))) BEnd).
Proof.
  intros Hc Hw. revert l1 l2 Hc. induction fuel as [|fuel IH]; intros l1 l2 Hc Hf; [lia|].
  cbn [malloc_scan]. destruct (free_nodes_cut l1 l2) as (a & n & Hcut & _ & _).
  pose proof Hc as Hc0. rewrite Hcut in Hc. apply chain_app in Hc as [_ [_ Hc]].
  destruct l2 as [|b l2]; cbn [map app hdp chain below fst snd] in *.
  - destruct Hc as [He _]. unfold rd_link. cbn [fst end_node] in He. rewrite He. cbn [obind xBlockSize snd end_node].
    destruct (Z.ltb_spec configTOTAL_HEAP_SIZE w); [lia|]. cbn [andb]. by rewrite app_nil_r.
  - destruct Hc as [He _]. unfold rd_link. rewrite He. cbn [obind xBlockSize pxNextFreeBlock].
    cbn [snd bnode]. destruct (snd b <? w); cbn [andb].
    + assert (Hne : hdp (map bnode l2 ++ [end_node]) BNull <> BNull) by (by destruct l2).
      rewrite bool_decide_eq_false_2 by done. cbn [negb].
      rewrite hdp_app. cbn [hdp fst end_node]. rewrite <- (last_node_snoc l1 b).
      rewrite (IH (l1 ++ [b]) l2) by (rewrite <- ?app_assoc; simpl in *; done || lia).
      rewrite <- app_assoc. destruct (below w l2). done.
    + by rewrite app_nil_r.
Qed.

Definition in_heap (b : block) : Prop :=
  0 <= fst b /\ fst b + sizeof_xBlockLink <= configTOTAL_HEAP_SIZE.

Lemma last_node_writable l : Forall in_heap l -> writable (fst (last_node l)).
Proof.
  intros H. destruct l as [|x l _] using rev_ind; [done|]. rewrite last_node_snoc.
  apply Forall_app in H as [_ H]. by inversion H.
Qed.

(** [h'] differs from [h] at most in the links at the given offsets, and in
    the markers. *)
Definition links_kept (h h' : heap2) (os : list Z) : Prop :=
  (forall o, o ∉ os -> lk h' (BBlk o) = lk h (BBlk o)) /\
  xHeapHasBeenInitialised h' = xHeapHasBeenInitialised h.

Lemma last_node_offset l (o : Z) : fst (last_node l) = BBlk o -> o ∈ map fst l.
Proof.
  destruct l as [|x l _] using rev_ind; [done|]. rewrite last_node_snoc. intros [= <-].
  rewrite map_app. set_solver.
Qed.

(** Where a block goes in the free list. *)
Definition insert_block (b : block) (fs : list block) : list block :=
  fst (below (snd b) fs) ++ b :: snd (below (snd b) fs).

Lemma prvInsert_spec h fs o s nx :
  chain h (free_nodes fs) BNull -> NoDup (o :: map fst fs) -> Forall in_heap ((o, s) :: fs) ->
  lk h (BBlk o) = Some (BlockLink nx s) -> s <= configTOTAL_HEAP_SIZE -> (length fs < heap_fuel)%nat ->
  wp (prvInsertBlockIntoFreeList h (BBlk o)) (fun h' =>
    chain h' (free_nodes (insert_block (o, s) fs)) BNull /\
    links_kept h h' (o :: map fst fs) /\ xFreeBytesRemaining h' = xFreeBytesRemaining h).
Proof.
  intros Hc Hnd Hin Hlk Hs Hf. unfold prvInsertBlockIntoFreeList, rd_link at 1. rewrite Hlk.
  cbn [obind xBlockSize]. change BStart with (fst (last_node [])).
  rewrite (free_scan_spec heap_fuel h s [] fs Hc Hs Hf). cbn [app obind].
  unfold insert_block. cbn [snd].
  pose proof (below_app s fs) as E. set (l1 := fst (below s fs)) in *. set (l2 := snd (below s fs)) in *.
  rewrite <- E in Hc. destruct (free_nodes_cut l1 l2) as (a & n & Hcut & Hcut' & Hn). fold (last_node l1) in Hn.
  rewrite Hcut in Hc. pose proof (chain_rd _ _ _ _ _ Hc) as Hrd.
  inversion Hin as [|? ? Hino Hinf]; subst x l.
  assert (Hnd' : NoDup (map fst (a ++ n :: bnode (o, s) :: map bnode l2 ++ [end_node]))).
  { rewrite <- Hcut'. apply free_nodes_nodup. rewrite map_app. cbn [map fst].
    rewrite <- Permutation_middle, <- map_app, E. done. }
  assert (Hno : fst n <> BBlk o).
  { rewrite map_app in Hnd'. apply NoDup_app in Hnd' as (_ & _ & Hnd'). cbn [map] in Hnd'.
    apply NoDup_cons in Hnd' as [Hx _]. intros Ex. apply Hx. rewrite Ex. by left. }
  rewrite <- Hn. unfold rd_link. rewrite Hrd. cbn [obind pxNextFreeBlock].
  wpb (wr_next_spec h (BBlk o)); [exact Hlk|exact Hino|]. intros h1 W1. cbn [xBlockSize] in W1.
  eapply wp_mono; [eapply wr_next_spec|].
  { rewrite (w_lk _ _ _ _ W1). rewrite decide_False by done. exact Hrd. }
  { rewrite Hn. apply last_node_writable. rewrite <- E in Hinf. by apply Forall_app in Hinf as [? _]. }
  intros h2 W2. cbn [xBlockSize] in W2. split; [|split; [split|]].
  - rewrite Hcut'. by apply (chain_insert h h1 h2 a n (bnode (o, s)) _ BNull).
  - intros o' Ho'. rewrite (w_lk _ _ _ _ W2), (w_lk _ _ _ _ W1).
    rewrite !decide_False; [done|intros [= ->]; set_solver|].
    intros Ex. symmetry in Ex. rewrite Hn in Ex. apply last_node_offset in Ex.
    apply Ho'. right. rewrite <- E, map_app. set_solver.
  - by rewrite (w_init _ _ _ _ W2), (w_init _ _ _ _ W1).
  - by rewrite (w_free _ _ _ _ W2), (w_free _ _ _ _ W1).
Qed.

Lemma insert_block_perm b fs : Permutation (insert_block b fs) (b :: fs).
Proof. unfold insert_block. by rewrite <- Permutation_middle, below_app. Qed.

Definition by_size (fs : list block) : Prop := StronglySorted Z.le (map snd fs).

Lemma insert_block_sorted b fs : by_size fs -> by_size (insert_block b fs).
Proof.
  unfold by_size, insert_block. pose proof (below_app (snd b) fs) as E.
  pose proof (below_fst (snd b) fs) as H1. pose proof (below_snd (snd b) fs) as H2.
  set (l1 := fst (below _ _)) in *. set (l2 := snd (below _ _)) in *. rewrite <- E. clear E.
  rewrite !map_app. cbn [map]. clearbody l1 l2. induction H1 as [|x l1 Hx _ IH]; cbn [map app].
  - intros Hs. constructor; [done|]. destruct l2 as [|y l2]; [constructor|]. cbn [map] in *.
    apply StronglySorted_inv in Hs as [_ Hy]. constructor; [done|].
    eapply Forall_impl; [exact Hy|]. simpl. lia.
  - intros Hs. apply StronglySorted_inv in Hs as [Hs Hy]. constructor; [by apply IH|].
    apply Forall_app in Hy as [Hy1 Hy2]. apply Forall_app. split; [done|]. constructor; [lia|done].
Qed.

Lemma by_size_app l1 l2 : by_size (l1 ++ l2) -> by_size l2.
Proof.
  unfold by_size. induction l1; [done|]. cbn [map app]. intros H. apply StronglySorted_inv in H as [H _]. auto.
Qed.

Lemma by_size_remove l1 b l2 : by_size (l1 ++ b :: l2) -> by_size (l1 ++ l2).
Proof.
  unfold by_size. induction l1 as [|x l1 IH]; cbn [map app]; intros H; apply StronglySorted_inv in H as [H Hx];
    [done|]. constructor; [by apply IH|].
  rewrite map_app in *. cbn [map] in Hx. apply Forall_app in Hx as [H1 H2]. inversion H2. by apply Forall_app.
Qed.

(** ** The blocks tile the array *)

Fixpoint tiles (lo hi : Z) (bs : list block) : Prop :=
  match bs with
  | [] => lo = hi
  | b :: r => fst b = lo /\ 24 <= snd b /\ fst b mod 8 = 0 /\ snd b mod 8 = 0 /\
              tiles (lo + snd b) hi r
  end.

Lemma tiles_app lo hi a b : tiles lo hi (a ++ b) <-> exists m, tiles lo m a /\ tiles m hi b.
Proof.
  revert lo. induction a as [|x a IH]; intros lo; cbn [app tiles].
  - split; [intros H; exists lo; by split|by intros (m & -> & H)].
  - rewrite IH. naive_solver.
Qed.

Definition sum_sizes (bs : list block) : Z := foldr (fun b z => snd b + z) 0 bs.

Lemma sum_sizes_perm a b : Permutation a b -> sum_sizes a = sum_sizes b.
Proof. unfold sum_sizes. induction 1; simpl; lia. Qed.

Lemma sum_sizes_app a b : sum_sizes (a ++ b) = sum_sizes a + sum_sizes b.
Proof. unfold sum_sizes. induction a; simpl; lia. Qed.

Lemma tiles_sum lo hi bs : tiles lo hi bs -> sum_sizes bs = hi - lo /\ 24 * zlen bs <= hi - lo.
Proof.
  revert lo. induction bs as [|b bs IH]; intros lo; cbn [tiles sum_sizes foldr].
  - intros ->. unfold zlen. simpl. lia.
  - intros (E & Hs & _ & _ & H). apply IH in H as [H1 H2]. fold (sum_sizes bs). rewrite zlen_cons. lia.
Qed.

Lemma tiles_bounds lo hi bs b :
  tiles lo hi bs -> b ∈ bs ->
  lo <= fst b /\ fst b + snd b <= hi /\ 24 <= snd b /\ fst b mod 8 = 0 /\ snd b mod 8 = 0.
Proof.
  intros H Hb. revert lo H. induction Hb as [b bs|b x bs _ IH]; intros lo; cbn [tiles];
    intros (E & Hs & Ho & Hm & H).
  - pose proof (tiles_sum _ _ _ H). pose proof (zlen_nonneg bs). lia.
  - specialize (IH _ H). lia.
Qed.

Definition disjoint_blocks (b1 b2 : block) : Prop :=
  fst b1 + snd b1 <= fst b2 \/ fst b2 + snd b2 <= fst b1.

Lemma tiles_disjoint lo hi bs b1 b2 :
  tiles lo hi bs -> b1 ∈ bs -> b2 ∈ bs -> b1 <> b2 -> disjoint_blocks b1 b2.
Proof.
  unfold disjoint_blocks. revert lo. induction bs as [|b bs IH]; intros lo H H1 H2 Hne; [set_solver|].
  cbn [tiles] in H. destruct H as (E & Hs & _ & _ & H).
  apply elem_of_cons in H1, H2. destruct H1 as [->|H1], H2 as [->|H2]; [done| | |eauto].
  - pose proof (tiles_bounds _ _ _ _ H H2). lia.
  - pose proof (tiles_bounds _ _ _ _ H H1). lia.
Qed.

Lemma tiles_nodup lo hi bs : tiles lo hi bs -> NoDup (map fst bs).
Proof.
  revert lo. induction bs as [|b bs IH]; intros lo; cbn [tiles map]; [constructor|].
  intros (E & Hs & _ & _ & H). constructor; [|by eapply IH].
  intros Hi. apply list_elem_of_fmap in Hi as (b' & E' & Hb').
  pose proof (tiles_bounds _ _ _ _ H Hb'). lia.
Qed.

Lemma tiles_split lo hi a o s w b :
  tiles lo hi (a ++ (o, s) :: b) -> 24 <= w -> 24 <= s - w -> w mod 8 = 0 ->
  tiles lo hi (a ++ (o, w) :: (o + w, s - w) :: b).
Proof.
  rewrite !tiles_app. intros (m & Ha & Hb) Hw Hs Hm. exists m. split; [done|]. cbn [tiles fst snd] in *.
  destruct Hb as (-> & H24 & Ho & Hsm & Hb).
  assert ((m + w) mod 8 = 0) by (rewrite Z.add_mod, Ho, Hm by lia; done).
  assert ((s - w) mod 8 = 0) by (rewrite Zminus_mod, Hm, Hsm; done).
  replace (m + w + (s - w)) with (m + s) by lia. done.
Qed.

(** A block of the tiling, found in any arrangement of it. *)
Lemma tiles_split_perm o s w fs us bs :
  tiles 0 configTOTAL_HEAP_SIZE bs -> Permutation bs ((o, s) :: fs ++ us) ->
  24 <= w -> 24 <= s - w -> w mod 8 = 0 ->
  exists bs', tiles 0 configTOTAL_HEAP_SIZE bs' /\ Permutation bs' ((o + w, s - w) :: fs ++ (o, w) :: us).
Proof.
  intros Ht Hp Hw Hs Hm.
  assert (Hin : (o, s) ∈ bs) by (rewrite Hp; by left).
  apply list_elem_of_split in Hin as (a & b & ->).
  exists (a ++ (o, w) :: (o + w, s - w) :: b). split; [by apply tiles_split|].
  rewrite <- Permutation_middle in Hp. apply Permutation_cons_inv in Hp.
  rewrite <- !Permutation_middle. rewrite Hp. by rewrite perm_swap.
Qed.

(** ** The invariant *)

Definition has_link (h : heap2) (b : block) : Prop :=
  exists nx, lk h (BBlk (fst b)) = Some (BlockLink nx (snd b)).

(** The free blocks [fs], in the order of the list, and the blocks in use:
    together they tile the array, each with its link structure. *)
Record parts (h : heap2) (fs us : list block) : Prop := Parts {
  p_chain : chain h (free_nodes fs) BNull;
  p_used : Forall (has_link h) us;
  p_sorted : by_size fs;
  p_tiles : exists bs, tiles 0 configTOTAL_HEAP_SIZE bs /\ Permutation bs (fs ++ us);
}.

Record heap_inv (h : heap2) (fs us : list block) : Prop := HeapInv {
  hi_init : xHeapHasBeenInitialised h = true;
  hi_parts : parts h fs us;
  hi_free : xFreeBytesRemaining h = sum_sizes fs;
}.

(** Before the first allocation the list is not set up yet. *)
Definition heap_ok (h : heap2) (fs us : list block) : Prop :=
  heap_inv h fs us \/
  (xHeapHasBeenInitialised h = false /\ fs = [(0, configTOTAL_HEAP_SIZE)] /\ us = [] /\
   xFreeBytesRemaining h = configTOTAL_HEAP_SIZE).

Lemma prvHeapInit_spec h :
  xFreeBytesRemaining h = configTOTAL_HEAP_SIZE ->
  heap_inv (prvHeapInit h) [(0, configTOTAL_HEAP_SIZE)] [].
Proof.
  intros Hf. split; [done| |done]. split.
  - cbn. rewrite lookup_insert_eq. done.
  - constructor.
  - unfold by_size. cbn [map]. apply SSorted_cons; [apply SSorted_nil|by apply Forall_nil].
  - exists [(0, configTOTAL_HEAP_SIZE)]. split; [|done]. by vm_compute.
Qed.

Section Parts.
Context (h : heap2) (fs us : list block).
Hypothesis Hok : parts h fs us.

Lemma parts_block b :
  b ∈ fs \/ b ∈ us -> 0 <= fst b /\ fst b + snd b <= configTOTAL_HEAP_SIZE /\ 24 <= snd b /\
                     fst b mod 8 = 0 /\ snd b mod 8 = 0.
Proof.
  intros Hb. destruct (p_tiles _ _ _ Hok) as (bs & Ht & Hp). apply (tiles_bounds _ _ _ _ Ht).
  rewrite Hp. set_solver.
Qed.

Lemma parts_nodup : NoDup (map fst (fs ++ us)).
Proof.
  destruct (p_tiles _ _ _ Hok) as (bs & Ht & Hp). apply tiles_nodup in Ht.
  by rewrite <- Hp.
Qed.

Lemma parts_length : (length fs < heap_fuel)%nat.
Proof.
  destruct (p_tiles _ _ _ Hok) as (bs & Ht & Hp). apply tiles_sum in Ht as [_ Hl].
  apply Permutation_length in Hp. rewrite length_app in Hp. unfold zlen, configTOTAL_HEAP_SIZE in Hl.
  unfold heap_fuel, configTOTAL_HEAP_SIZE. change (15 * 1024 / 8) with 1920. lia.
Qed.

Lemma parts_sum : sum_sizes fs + sum_sizes us = configTOTAL_HEAP_SIZE.
Proof.
  destruct (p_tiles _ _ _ Hok) as (bs & Ht & Hp). apply tiles_sum in Ht as [Hs _].
  rewrite (sum_sizes_perm _ _ Hp), sum_sizes_app in Hs. lia.
Qed.

Lemma parts_in_heap b : b ∈ fs \/ b ∈ us -> in_heap b.
Proof. intros Hb. pose proof (parts_block b Hb). unfold in_heap, sizeof_xBlockLink. lia. Qed.

Lemma parts_disjoint b1 b2 :
  b1 ∈ fs ++ us -> b2 ∈ fs ++ us -> b1 <> b2 -> disjoint_blocks b1 b2.
Proof.
  intros H1 H2. destruct (p_tiles _ _ _ Hok) as (bs & Ht & Hp). rewrite <- Hp in H1, H2.
  by apply (tiles_disjoint _ _ _ _ _ Ht).
Qed.

Lemma sizes_nonneg l : (forall b, b ∈ l -> b ∈ fs \/ b ∈ us) -> 0 <= sum_sizes l.
Proof.
  induction l as [|b l IH]; intros Hl; [done|]. cbn [sum_sizes foldr]. fold (sum_sizes l).
  pose proof (parts_block b (Hl b ltac:(by left))).
  specialize (IH (fun x Hx => Hl x (list_elem_of_further _ _ _ Hx))). lia.
Qed.
End Parts.

(** *** Changes of the parts *)

Lemma parts_set_free h fs us n : parts h fs us -> parts (set_free h n) fs us.
Proof.
  intros [Hc Hu Hs Ht]. split; [|done..]. apply (chain_frame h); [done|]. by intros [].
Qed.

Lemma used_kept h h' us (os : list Z) :
  Forall (has_link h) us -> (forall o, o ∉ os -> lk h' (BBlk o) = lk h (BBlk o)) ->
  (forall b, b ∈ us -> fst b ∉ os) -> Forall (has_link h') us.
Proof.
  intros Hu Hk Hd. induction Hu as [|b us [nx Hb] _ IH]; constructor.
  - exists nx. rewrite Hk; [done|]. apply Hd. by left.
  - apply IH. intros b' ?. apply Hd. by right.
Qed.

Lemma free_has_link h fs b : chain h (free_nodes fs) BNull -> b ∈ fs -> has_link h b.
Proof.
  intros Hc Hb. apply list_elem_of_split in Hb as (l1 & l2 & ->).
  destruct (free_nodes_cut l1 l2) as (a & n & _ & Hcut & _). rewrite Hcut in Hc.
  apply chain_app in Hc as [_ (_ & Hc & _)]. eexists. exact Hc.
Qed.

(** Freeing the first block in use. *)
Lemma parts_insert h fs (us : list block) o s :
  parts h fs ((o, s) :: us) ->
  wp (prvInsertBlockIntoFreeList h (BBlk o)) (fun h' =>
    parts h' (insert_block (o, s) fs) us /\
    xFreeBytesRemaining h' = xFreeBytesRemaining h /\
    xHeapHasBeenInitialised h' = xHeapHasBeenInitialised h).
Proof.
  intros Hok. pose proof Hok as [Hc Hu Hs (bs & Ht & Hp)].
  inversion Hu as [|? ? [nx Hlk] Hu']; subst. cbn [fst snd] in Hlk.
  pose proof (parts_nodup _ _ _ Hok) as Hnd. rewrite map_app in Hnd. cbn [map fst] in Hnd.
  rewrite <- Permutation_middle in Hnd.
  pose proof (parts_block _ _ _ Hok (o, s) ltac:(right; by left)) as Hb. cbn [fst snd] in Hb.
  eapply wp_mono; [eapply (prvInsert_spec h fs o s nx)|]; try done.
  - apply NoDup_cons in Hnd as [Hn Hnd]. apply NoDup_app in Hnd as (Hnd & _).
    constructor; [set_solver|done].
  - constructor; [apply (parts_in_heap _ _ _ Hok); right; by left|].
    apply Forall_forall. intros b Hbf. apply (parts_in_heap _ _ _ Hok). by left.
  - lia.
  - apply (parts_length _ _ _ Hok).
  - intros h' (Hc' & [Hk Hi] & Hf). split; [|done]. split; [done| |by apply insert_block_sorted|].
    + apply (used_kept h h' us (o :: map fst fs)); [done..|].
      intros b Hbu Hin. apply NoDup_cons in Hnd as [Hn Hnd]. apply NoDup_app in Hnd as (_ & Hd & _).
      assert (fst b ∈ map fst us) by (by apply list_elem_of_fmap_2).
      apply elem_of_cons in Hin as [E|Hin]; [|by apply (Hd _ Hin)].
      apply Hn. rewrite <- E. set_solver.
    + exists bs. split; [done|]. rewrite Hp, insert_block_perm. cbn [app]. by rewrite Permutation_middle.
Qed.

(** Taking a free block into use. *)
Lemma parts_take h fs us (l1 : list block) o s (l2 : list block) h1 :
  parts h fs us -> fs = l1 ++ (o, s) :: l2 ->
  written h (fst (last_node l1)) (BlockLink (hdp (map bnode l2 ++ [end_node]) BNull) (snd (last_node l1))) h1 ->
  parts h1 (l1 ++ l2) ((o, s) :: us).
Proof.
  intros Hok -> W. pose proof Hok as [Hc Hu Hs (bs & Ht & Hp)].
  pose proof (parts_nodup _ _ _ Hok) as Hnd. rewrite map_app in Hnd.
  destruct (free_nodes_cut l1 l2) as (a & n & Hcut & Hcut' & Hn). fold (last_node l1) in Hn.
  rewrite Hcut' in Hc. rewrite <- Hn in W.
  pose proof Hnd as Hnd0. apply NoDup_app in Hnd as (Hndf & Hd & _).
  split.
  - rewrite Hcut. apply (chain_remove h h1 a n (bnode (o, s))); try done.
    rewrite <- Hcut'. by apply free_nodes_nodup.
  - assert (Hk : forall o', o' ∉ map fst l1 -> lk h1 (BBlk o') = lk h (BBlk o')).
    { intros o' Ho'. rewrite (w_lk _ _ _ _ W), decide_False; [done|].
      rewrite Hn. intros E. symmetry in E. by apply last_node_offset in E. }
    constructor.
    + exists (hdp (map bnode l2 ++ [end_node]) BNull). cbn [fst snd]. rewrite Hk.
      * change (a ++ n :: bnode (o, s) :: map bnode l2 ++ [end_node]) with
          (a ++ [n] ++ bnode (o, s) :: map bnode l2 ++ [end_node]) in Hc.
        rewrite app_assoc in Hc. apply (chain_rd _ _ _ _ _ Hc).
      * rewrite map_app in Hndf. apply NoDup_app in Hndf as (_ & Hx & _). intros Hi. apply (Hx o Hi). by left.
    + apply (used_kept h h1 us (map fst l1)); [done..|]. intros b Hb Hi.
      apply (Hd (fst b)); [rewrite map_app; set_solver|]. by apply list_elem_of_fmap_2.
  - by apply by_size_remove in Hs.
  - exists bs. split; [done|]. rewrite Hp, <- !app_assoc, <- Permutation_middle. done.
Qed.

(** ** Sizes *)

(** The size of the block a request needs. *)
Definition need (w : Z) : Z := (w + heapSTRUCT_SIZE + 7) / 8 * 8.

Lemma land_7 w : 0 <= w -> Z.land w portBYTE_ALIGNMENT_MASK = w mod 8.
Proof. intros. change portBYTE_ALIGNMENT_MASK with (Z.ones 3). by rewrite Z.land_ones. Qed.

Lemma need_bounds w :
  need w mod 8 = 0 /\ w + 16 <= need w < w + 24.
Proof.
  unfold need. change heapSTRUCT_SIZE with 16.
  pose proof (Z.div_mod (w + 16 + 7) 8 ltac:(lia)). pose proof (Z.mod_pos_bound (w + 16 + 7) 8 ltac:(lia)).
  split; [apply Z_mod_mult|lia].
Qed.

Lemma adjust_size_spec w : 0 < w <= 2 ^ 32 - 24 -> adjust_size w = need w.
Proof.
  intros Hw. unfold adjust_size. destruct (Z.ltb_spec 0 w); [|lia]. change heapSTRUCT_SIZE with 16.
  rewrite u32_small by lia. rewrite land_7 by lia. unfold need. change heapSTRUCT_SIZE with 16.
  pose proof (Z.div_mod (w + 16) 8 ltac:(lia)) as Hd. pose proof (Z.mod_pos_bound (w + 16) 8 ltac:(lia)).
  destruct (Z.eqb_spec ((w + 16) mod 8) 0) as [E|E]; cbn [negb].
  - rewrite <- (Z.div_unique (w + 16 + 7) 8 ((w + 16) / 8) 7) by lia. lia.
  - change portBYTE_ALIGNMENT with 8. rewrite u32_small by lia.
    rewrite <- (Z.div_unique (w + 16 + 7) 8 ((w + 16) / 8 + 1) ((w + 16) mod 8 - 1)) by lia. lia.
Qed.

(** *** Splitting *)

Lemma parts_split h fs (us : list block) o s n :
  parts h fs ((o, s) :: us) -> 24 <= n <= s -> n mod 8 = 0 ->
  wp (split_block h (BBlk o) n) (fun h' => exists fs' s',
    parts h' fs' ((o, s') :: us) /\ n <= s' <= n + 32 /\ s' <= s /\
    sum_sizes fs' = sum_sizes fs + (s - s') /\
    xFreeBytesRemaining h' = xFreeBytesRemaining h /\
    xHeapHasBeenInitialised h' = xHeapHasBeenInitialised h).
Proof.
  intros Hok Hn Hm. pose proof Hok as [Hc Hu Hs (bs & Ht & Hp)].
  inversion Hu as [|? ? [nx Hlk] Hu']; subst. cbn [fst snd] in Hlk.
  pose proof (parts_block _ _ _ Hok (o, s) ltac:(right; by left)) as Hb. cbn [fst snd] in Hb.
  unfold split_block, rd_link. rewrite Hlk. cbn [obind xBlockSize].
  change heapMINIMUM_BLOCK_SIZE with 32. unfold configTOTAL_HEAP_SIZE in Hb.
  rewrite u32_small by lia. destruct (Z.ltb_spec 32 (s - n)) as [Hbig|Hsmall].
  2: { cbn [wp]. exists fs, s. split; [done|]. repeat (split; [lia|]). done. }
  destruct (tiles_split_perm o s n fs us bs Ht) as (bs' & Ht' & Hp'); [|lia..|done|].
  { by rewrite Hp, <- Permutation_middle. }
  pose proof (tiles_nodup _ _ _ Ht') as Hnd. rewrite Hp' in Hnd. cbn [map fst] in Hnd.
  apply NoDup_cons in Hnd as [Hnew Hnd]. rewrite map_app in Hnd, Hnew. cbn [map fst] in Hnd, Hnew.
  wpb (wr_link_spec h (BBlk (o + n))).
  { unfold writable, sizeof_xBlockLink, configTOTAL_HEAP_SIZE. lia. }
  intros h1 W1.
  assert (Hlk1 : lk h1 (BBlk o) = Some (BlockLink nx s)).
  { rewrite (w_lk _ _ _ _ W1), decide_False; [done|]. intros [= E]. lia. }
  wpb (wr_size_spec h1 (BBlk o) n _ Hlk1).
  { unfold writable, sizeof_xBlockLink, configTOTAL_HEAP_SIZE. lia. }
  intros h2 W2. cbn [pxNextFreeBlock] in W2.
  assert (Hk : forall p, p <> BBlk o -> p <> BBlk (o + n) -> lk h2 p = lk h p).
  { intros p ??. rewrite (w_lk _ _ _ _ W2), (w_lk _ _ _ _ W1). by rewrite !decide_False. }
  apply NoDup_app in Hnd as (Hndf & Hdf & Hndu). apply NoDup_cons in Hndu as [Ho Hndu].
  assert (Hok2 : parts h2 fs ((o + n, s - n) :: (o, n) :: us)).
  { split; [| |done|].
    - apply (chain_frame h); [done|]. intros p Hpn. unfold free_nodes in Hpn. cbn [map] in Hpn.
      rewrite map_app, map_map in Hpn.
      apply Hk; intros ->; apply elem_of_cons in Hpn as [[=]|Hpn]; apply elem_of_app in Hpn as [Hpn|Hpn];
        try (by apply list_elem_of_singleton in Hpn);
        apply list_elem_of_fmap in Hpn as (b & Eb & Hb'); injection Eb as Eb.
      + apply (Hdf o); [|by left]. rewrite Eb. by apply list_elem_of_fmap_2.
      + apply Hnew, elem_of_app. left. rewrite Eb. by apply list_elem_of_fmap_2.
    - constructor; [|constructor].
      + exists BNull. cbn [fst snd]. rewrite (w_lk _ _ _ _ W2), decide_False by (intros [= E]; lia).
        rewrite (w_lk _ _ _ _ W1). by case_decide.
      + exists nx. cbn [fst snd]. rewrite (w_lk _ _ _ _ W2). by case_decide.
      + apply (used_kept h h2 us [o; o + n]); [done| |].
        * intros o' Ho'. apply Hk; intros [= ->]; set_solver.
        * intros b Hbu Hin. assert (fst b ∈ map fst us) by (by apply list_elem_of_fmap_2). set_solver.
    - exists bs'. split; [done|]. by rewrite Hp', Permutation_middle. }
  eapply wp_mono; [apply (parts_insert h2 fs ((o, n) :: us) (o + n) (s - n) Hok2)|].
  intros h' (Hok' & Hf & Hi). exists (insert_block (o + n, s - n) fs), n.
  split; [done|]. split; [lia|]. split; [lia|]. split.
  - rewrite (sum_sizes_perm _ _ (insert_block_perm _ _)). cbn [sum_sizes foldr snd]. unfold sum_sizes. lia.
  - rewrite Hf, Hi, (w_free _ _ _ _ W2), (w_init _ _ _ _ W2), (w_free _ _ _ _ W1), (w_init _ _ _ _ W1). done.
Qed.

(** *** Allocation *)

Lemma sum_sizes_mid l1 b l2 : sum_sizes (l1 ++ b :: l2) = snd b + sum_sizes (l1 ++ l2).
Proof. rewrite !sum_sizes_app. cbn [sum_sizes foldr]. unfold sum_sizes. lia. Qed.

(** From the initialised state, with the adjusted size. *)
Lemma malloc_found h fs (us : list block) w (l1 : list block) o s (l2 : list block) :
  heap_inv h fs us -> 24 <= w < configTOTAL_HEAP_SIZE -> w mod 8 = 0 ->
  below w fs = (l1, (o, s) :: l2) ->
  wp (let! prev := rd_link h (fst (last_node l1)) in
      let! pvReturn := payload (pxNextFreeBlock prev) in
      let! b := rd_link h (BBlk o) in
      let! h := wr_next h (fst (last_node l1)) (pxNextFreeBlock b) in
      let! h := split_block h (BBlk o) w in
      let! b := rd_link h (BBlk o) in
      Ok (Some pvReturn, set_free h (u32 (xFreeBytesRemaining h - xBlockSize b))))
   (fun r => exists fs' s', fst r = Some (o + 16) /\ heap_inv (snd r) fs' ((o, s') :: us) /\
      w <= s' <= w + 32).
Proof.
  intros [Hi Hok Hf] Hw Hm Hb.
  pose proof (below_app w fs) as E. pose proof (below_snd w fs) as Hs. rewrite Hb in E, Hs. cbn [fst snd] in E, Hs.
  pose proof Hok as [Hc Hu Hsort (bs & Ht & Hp)]. rewrite <- E in Hc.
  destruct (free_nodes_cut l1 l2) as (a & n & Hcut & Hcut' & Hn). fold (last_node l1) in Hn.
  pose proof Hc as Hc0. rewrite (Hcut' (o, s)) in Hc0. pose proof (chain_rd _ _ _ _ _ Hc0) as Hprev.
  change (a ++ n :: bnode (o, s) :: map bnode l2 ++ [end_node]) with
    (a ++ [n] ++ bnode (o, s) :: map bnode l2 ++ [end_node]) in Hc0.
  rewrite app_assoc in Hc0. pose proof (chain_rd _ _ _ _ _ Hc0) as Hblk. cbn [fst snd bnode] in Hblk.
  rewrite <- Hn. unfold rd_link at 1. rewrite Hprev. cbn [obind pxNextFreeBlock hdp fst bnode payload].
  unfold rd_link at 1. rewrite Hblk. cbn [obind pxNextFreeBlock].
  wpb (wr_next_spec h (fst n)); [exact Hprev| |].
  { rewrite Hn. apply last_node_writable, Forall_forall. intros b Hbl. apply (parts_in_heap _ _ _ Hok).
    left. rewrite <- E. set_solver. }
  intros h1 W. cbn [xBlockSize] in W. rewrite Hn in W.
  pose proof (parts_take h fs us l1 o s l2 h1 Hok (eq_sym E) W) as Hok1.
  wpb (parts_split h1 (l1 ++ l2) us o s w Hok1); [lia|done|].
  intros h2 (fs' & s' & Hok2 & Hs' & Hle & Hsum & Hfr & Hin).
  pose proof (p_used _ _ _ Hok2) as Hu2. inversion Hu2 as [|? ? [nx Hlk2] _]; subst. cbn [fst snd] in Hlk2.
  unfold rd_link. rewrite Hlk2. cbn [obind xBlockSize wp fst snd]. exists fs', s'. split; [done|].
  split; [|done]. rewrite Hfr, (w_free _ _ _ _ W), Hf.
  rewrite sum_sizes_mid in *. cbn [snd] in *.
  pose proof (parts_sum _ _ _ Hok2) as Htot.
  assert (0 <= sum_sizes fs') by (apply (sizes_nonneg _ _ _ Hok2); auto).
  assert (0 <= sum_sizes us) by (apply (sizes_nonneg _ _ _ Hok2); intros b ?; right; by right).
  unfold configTOTAL_HEAP_SIZE in *. cbn [sum_sizes foldr snd] in Htot. fold (sum_sizes us) in Htot.
  rewrite u32_small by lia. split; [|by apply parts_set_free|].
  - cbn [set_free xHeapHasBeenInitialised]. by rewrite Hin, (w_init _ _ _ _ W).
  - cbn [set_free xFreeBytesRemaining]. lia.
Qed.

Lemma heap_ok_init h fs us :
  heap_ok h fs us -> heap_inv (if xHeapHasBeenInitialised h then h else prvHeapInit h) fs us.
Proof.
  intros [Hi|(E & -> & -> & Hf)]; [by rewrite (hi_init _ _ _ Hi)|].
  rewrite E. by apply prvHeapInit_spec.
Qed.

Lemma need_24 w : 0 < w -> 24 <= need w.
Proof.
  intros. destruct (need_bounds w) as [Hm Hb].
  pose proof (Z.div_mod (need w) 8 ltac:(lia)). lia.
Qed.

Lemma malloc_spec h fs us w :
  heap_ok h fs us -> 0 <= w <= 2 ^ 32 - 24 ->
  wp (pvPortMalloc h w) (fun r =>
    match fst r with
    | None => heap_inv (snd r) fs us /\
        (w = 0 \/ configTOTAL_HEAP_SIZE <= need w \/ Forall (fun b => snd b < need w) fs)
    | Some p => exists fs' s l1 l2 s0, heap_inv (snd r) fs' ((p - 16, s) :: us) /\
        need w <= s <= need w + 32 /\ 0 < w /\
        fs = l1 ++ (p - 16, s0) :: l2 /\ Forall (fun b => snd b < need w) l1
    end).
Proof.
  intros Hok Hw. apply heap_ok_init in Hok. unfold pvPortMalloc.
  set (h0 := if xHeapHasBeenInitialised h then h else prvHeapInit h) in *. clearbody h0.
  destruct (Z.eqb_spec w 0) as [->|Hnz]; [cbn; auto|].
  rewrite adjust_size_spec by lia. pose proof (need_24 w ltac:(lia)).
  destruct (Z.ltb_spec 0 (need w)); [|lia].
  destruct (Z.ltb_spec (need w) configTOTAL_HEAP_SIZE) as [Hlt|]; cbn [andb]; [|cbn; auto].
  pose proof (hi_parts _ _ _ Hok) as Hp. pose proof (p_chain _ _ _ Hp) as Hc.
  assert (Hhead : pxNextFreeBlock (xStart h0) = hdp (map bnode fs) BEnd).
  { unfold free_nodes in Hc. cbn [chain] in Hc. destruct Hc as [Hs _]. cbn in Hs. injection Hs as ->.
    by rewrite hdp_app. }
  rewrite Hhead. change BStart with (fst (last_node [])).
  rewrite (malloc_scan_spec heap_fuel h0 (need w) [] fs Hc Hlt (parts_length _ _ _ Hp)).
  cbn [app obind]. destruct (below (need w) fs) as [l1 l2] eqn:Hb. cbn [fst snd].
  pose proof (below_fst (need w) fs) as H1. pose proof (below_app (need w) fs) as E.
  rewrite Hb in H1, E. cbn [fst snd] in H1, E.
  destruct l2 as [|[o s] l2]; cbn [map hdp].
  - rewrite decide_True by done. cbn [wp fst snd]. rewrite app_nil_r in E. subst. auto.
  - rewrite decide_False by done. cbn [fst bnode].
    destruct (need_bounds w) as [Hm _].
    eapply wp_mono; [apply (malloc_found h0 fs us (need w) l1 o s l2 Hok ltac:(lia) Hm Hb)|].
    intros [r h'] (fs' & s' & E' & Hok' & Hs'). cbn [fst snd] in *. subst r.
    replace (o + 16 - 16) with o by lia.
    exists fs', s', l1, l2, s. split; [done|]. split; [done|]. split; [lia|done].
Qed.

Lemma free_spec h fs (us us' : list block) p s :
  heap_inv h fs us -> Permutation us ((p - 16, s) :: us') ->
  wp (vPortFree h (Some p)) (fun h' => heap_inv h' (insert_block (p - 16, s) fs) us').
Proof.
  intros [Hi Hok Hf] Hperm.
  assert (Hok' : parts h fs ((p - 16, s) :: us')).
  { destruct Hok as [Hc Hu Hs (bs & Ht & Hp)]. split; [done| |done|].
    - by rewrite <- Hperm.
    - exists bs. by rewrite <- Hperm. }
  unfold vPortFree. change heapSTRUCT_SIZE with 16.
  wpb (parts_insert h fs us' (p - 16) s Hok'). intros h1 (Hp1 & Hf1 & Hi1).
  destruct (free_has_link h1 (insert_block (p - 16, s) fs) (p - 16, s)) as [nx Hlk];
    [apply (p_chain _ _ _ Hp1)|rewrite insert_block_perm; by left|]. cbn [fst snd] in Hlk.
  unfold rd_link. rewrite Hlk. cbn [obind xBlockSize wp].
  pose proof (parts_sum _ _ _ Hok') as Ht. cbn [sum_sizes foldr snd] in Ht. fold (sum_sizes us') in Ht.
  assert (0 <= sum_sizes us') by (apply (sizes_nonneg _ _ _ Hok'); intros b ?; right; by right).
  assert (0 <= sum_sizes fs) by (apply (sizes_nonneg _ _ _ Hok'); auto).
  pose proof (parts_block _ _ _ Hok' (p - 16, s) ltac:(right; by left)) as Hb. cbn [fst snd] in Hb.
  unfold configTOTAL_HEAP_SIZE in *. rewrite Hf1, Hf, u32_small by lia.
  split; [by cbn; rewrite Hi1|by apply parts_set_free|].
  cbn [set_free xFreeBytesRemaining]. rewrite (sum_sizes_perm _ _ (insert_block_perm _ _)).
  cbn [sum_sizes foldr snd]. unfold sum_sizes. lia.
Qed.

(** ** What the allocator promises *)

(** pvPortMalloc, from every state of the heap and for every request below
    2^32 - 23: the searches end and nothing outside the array or a link
    structure is touched. It returns NULL only for a request of 0 bytes, one
    larger than the array, or when no free block is large enough. Otherwise
    the memory returned is aligned to 8 bytes, lies in the array with at
    least the requested size, overlaps no block in use and no free block,
    comes from the first (smallest) free block that is large enough, wastes
    at most 55 bytes with its link structure, and is deducted from the bytes
    remaining; the blocks in use keep their structures. *)
Theorem pvPortMalloc_allocates h fs us w :
  heap_ok h fs us -> 0 <= w <= 2 ^ 32 - 24 ->
  (exists h', pvPortMalloc h w = Ok (None, h') /\ heap_inv h' fs us /\
     (w = 0 \/ configTOTAL_HEAP_SIZE <= need w \/ Forall (fun b => snd b < need w) fs)) \/
  (exists p h' fs' s, pvPortMalloc h w = Ok (Some p, h') /\ heap_inv h' fs' ((p - 16, s) :: us) /\
     p mod 8 = 0 /\ 16 <= p /\ p + w <= p - 16 + s <= configTOTAL_HEAP_SIZE /\ s <= w + 55 /\
     (forall b, b ∈ fs' ++ us -> disjoint_blocks (p - 16, s) b) /\
     (exists l1 s0 l2, fs = l1 ++ (p - 16, s0) :: l2 /\ Forall (fun b => snd b < need w) l1) /\
     xPortGetFreeHeapSize h' = sum_sizes fs - s).
Proof.
  intros Hok Hw. pose proof (malloc_spec h fs us w Hok Hw) as H.
  apply wp_ok in H as ([[p|] h'] & -> & H); cbn [fst snd] in H; [right|left; eauto].
  destruct H as (fs' & s & l1 & l2 & s0 & Hinv & Hs & Hpos & E & H1).
  pose proof (hi_parts _ _ _ Hinv) as Hp.
  pose proof (parts_block _ _ _ Hp (p - 16, s) ltac:(right; by left)) as Hb. cbn [fst snd] in Hb.
  pose proof (need_bounds w) as [_ Hn].
  exists p, h', fs', s. split; [done|]. split; [done|]. split.
  { rewrite <- (Z.sub_add 16 p), Z.add_mod by lia. destruct Hb as (_ & _ & _ & -> & _). done. }
  split; [lia|]. split; [lia|]. split; [lia|]. split; [|split].
  - intros b Hbin. apply (parts_disjoint _ _ _ Hp); [set_solver|set_solver|].
    intros <-. pose proof (parts_nodup _ _ _ Hp) as Hnd. rewrite <- Permutation_middle in Hnd.
    cbn [map fst] in Hnd. apply NoDup_cons in Hnd as [Hnd _]. apply Hnd.
    by apply (list_elem_of_fmap_2 fst _ (p - 16, s)).
  - eauto.
  - unfold xPortGetFreeHeapSize. rewrite (hi_free _ _ _ Hinv).
    pose proof (heap_ok_init _ _ _ Hok) as Hok0.
    pose proof (parts_sum _ _ _ (hi_parts _ _ _ Hok0)). pose proof (parts_sum _ _ _ Hp) as Ht.
    cbn [sum_sizes foldr snd] in Ht. fold (sum_sizes us) in Ht. lia.
Qed.

Lemma boot_ok m : heap_ok (heap_boot m) [(0, configTOTAL_HEAP_SIZE)] [].
Proof. right. done. Qed.

Lemma pvPortMalloc_allocates_witness :
  let h := heap_boot ∅ in let fs := [(0, configTOTAL_HEAP_SIZE)] in
  (exists h', pvPortMalloc h 100 = Ok (None, h') /\ heap_inv h' fs [] /\
     (100 = 0 \/ configTOTAL_HEAP_SIZE <= need 100 \/ Forall (fun b => snd b < need 100) fs)) \/
  (exists p h' fs' s, pvPortMalloc h 100 = Ok (Some p, h') /\ heap_inv h' fs' ((p - 16, s) :: []) /\
     p mod 8 = 0 /\ 16 <= p /\ p + 100 <= p - 16 + s <= configTOTAL_HEAP_SIZE /\ s <= 100 + 55 /\
     (forall b, b ∈ fs' ++ [] -> disjoint_blocks (p - 16, s) b) /\
     (exists l1 s0 l2, fs = l1 ++ (p - 16, s0) :: l2 /\ Forall (fun b => snd b < need 100) l1) /\
     xPortGetFreeHeapSize h' = sum_sizes fs - s).
Proof. intros h fs. apply (pvPortMalloc_allocates h fs [] 100); [apply boot_ok|lia]. Defined.

(** vPortFree, on memory in use from pvPortMalloc: it ends, the block is
    back in the free list at its place in the order of sizes, the other
    blocks in use are untouched, and its size is added to the bytes
    remaining; NULL is ignored. *)
Theorem vPortFree_frees h fs (us1 us2 : list block) p s :
  heap_inv h fs (us1 ++ (p - 16, s) :: us2) ->
  exists h' fs', vPortFree h (Some p) = Ok h' /\ heap_inv h' fs' (us1 ++ us2) /\
    Permutation fs' ((p - 16, s) :: fs) /\ by_size fs' /\
    xPortGetFreeHeapSize h' = xPortGetFreeHeapSize h + s /\ vPortFree h None = Ok h.
Proof.
  intros Hinv. pose proof (free_spec h fs (us1 ++ (p - 16, s) :: us2) (us1 ++ us2) p s Hinv) as H.
  specialize (H ltac:(by rewrite <- Permutation_middle)).
  apply wp_ok in H as (h' & E & Hinv'). exists h', (insert_block (p - 16, s) fs).
  split; [done|]. split; [done|]. split; [apply insert_block_perm|].
  split; [apply (p_sorted _ _ _ (hi_parts _ _ _ Hinv'))|]. split; [|done].
  unfold xPortGetFreeHeapSize. rewrite (hi_free _ _ _ Hinv), (hi_free _ _ _ Hinv').
  rewrite (sum_sizes_perm _ _ (insert_block_perm _ _)). cbn [sum_sizes foldr snd]. unfold sum_sizes. lia.
Qed.

(** The heap after one allocation of 100 bytes. *)
Definition heap_one : heap2 :=
  match pvPortMalloc (heap_boot ∅) 100 with Ok (_, h) => h | _ => heap_boot ∅ end.

Lemma heap_one_ok : heap_inv heap_one [(120, configTOTAL_HEAP_SIZE - 120)] [(0, 120)].
Proof.
  split; [by vm_compute| |by vm_compute]. split.
  - vm_compute. auto.
  - constructor; [|constructor]. eexists. vm_compute. reflexivity.
  - unfold by_size. cbn [map]. apply SSorted_cons; [apply SSorted_nil|by apply Forall_nil].
  - exists [(0, 120); (120, configTOTAL_HEAP_SIZE - 120)]. split; [by vm_compute|apply perm_swap].
Qed.

Lemma vPortFree_frees_witness :
  exists h' fs', vPortFree heap_one (Some 16) = Ok h' /\ heap_inv h' fs' ([] ++ []) /\
    Permutation fs' ((16 - 16, 120) :: [(120, configTOTAL_HEAP_SIZE - 120)]) /\ by_size fs' /\
    xPortGetFreeHeapSize h' = xPortGetFreeHeapSize heap_one + 120 /\ vPortFree heap_one None = Ok heap_one.
Proof. apply (vPortFree_frees heap_one _ [] [] 16 120). exact heap_one_ok. Defined.

(** ** The allocator and its users *)

(** The owners of the blocks in use write what they like into them: any link
    structure that overlaps their memory may change. *)
Record user_write (us : list block) (h h' : heap2) : Prop := UserWrite {
  uw_links : forall o, (forall b, b ∈ us -> o + sizeof_xBlockLink <= fst b + heapSTRUCT_SIZE \/
                                            fst b + snd b <= o) -> ucHeap h' !! o = ucHeap h !! o;
  uw_start : xStart h' = xStart h;
  uw_end : xEnd h' = xEnd h;
  uw_free : xFreeBytesRemaining h' = xFreeBytesRemaining h;
  uw_init : xHeapHasBeenInitialised h' = xHeapHasBeenInitialised h;
}.

(** The heap, and the blocks its users hold. *)
Inductive heap_step : heap2 * list block -> heap2 * list block -> Prop :=
  | hs_none h us w h' :
      0 <= w <= 2 ^ 32 - 24 -> pvPortMalloc h w = Ok (None, h') -> heap_step (h, us) (h', us)
  | hs_malloc h us w p h' nx s :
      0 <= w <= 2 ^ 32 - 24 -> pvPortMalloc h w = Ok (Some p, h') ->
      lk h' (BBlk (p - heapSTRUCT_SIZE)) = Some (BlockLink nx s) ->
      heap_step (h, us) (h', (p - heapSTRUCT_SIZE, s) :: us)
  | hs_free h us1 us2 p s h' :
      vPortFree h (Some p) = Ok h' ->
      heap_step (h, us1 ++ (p - heapSTRUCT_SIZE, s) :: us2) (h', us1 ++ us2)
  | hs_write h us h' : user_write us h h' -> heap_step (h, us) (h', us).

Lemma user_write_ok h h' fs us : user_write us h h' -> heap_ok h fs us -> heap_ok h' fs us.
Proof.
  intros [Wl Ws We Wf Wi] [[Hi Hok Hf]|(E & -> & -> & Hf)]; [left|right; by rewrite Wi, Wf].
  split; [by rewrite Wi| |by rewrite Wf].
  assert (Hkeep : forall b, b ∈ fs ++ us -> ucHeap h' !! fst b = ucHeap h !! fst b).
  { intros b Hb. apply Wl. intros b' Hb'. unfold sizeof_xBlockLink. change heapSTRUCT_SIZE with 16.
    pose proof (parts_block _ _ _ Hok b' (or_intror Hb')).
    assert (Hb0 : b ∈ fs \/ b ∈ us) by set_solver. pose proof (parts_block _ _ _ Hok b Hb0).
    destruct (decide (b = b')) as [->|Hne]; [left; lia|].
    pose proof (parts_disjoint _ _ _ Hok b b' Hb ltac:(set_solver) Hne) as [?|?]; [left|right]; lia. }
  destruct Hok as [Hc Hu Hs Ht]. split; [| |done|done].
  - apply (chain_frame h); [done|]. intros p Hp. unfold free_nodes in Hp. cbn [map] in Hp.
    rewrite map_app, map_map in Hp. apply elem_of_cons in Hp as [->|Hp]; [cbn; by rewrite Ws|].
    apply elem_of_app in Hp as [Hp|Hp].
    + apply list_elem_of_fmap in Hp as (b & -> & Hb). cbn. apply Hkeep. set_solver.
    + apply list_elem_of_singleton in Hp as ->. cbn. by rewrite We.
  - apply Forall_forall. intros b Hb. rewrite Forall_forall in Hu. destruct (Hu b Hb) as [nx E].
    exists nx. cbn. rewrite Hkeep; [done|]. set_solver.
Qed.

Lemma heap_step_ok s s' fs : heap_step s s' -> heap_ok (fst s) fs (snd s) -> exists fs', heap_ok (fst s') fs' (snd s').
Proof.
  intros Hs. destruct Hs as [h us w h' Hw E|h us w p h' nx s Hw E Hlk|h us1 us2 p s h' E|h us h' W];
    cbn [fst snd]; intros Hok.
  - pose proof (malloc_spec h fs us w Hok Hw) as H. rewrite E in H. cbn [wp fst snd] in H.
    exists fs. left. tauto.
  - pose proof (malloc_spec h fs us w Hok Hw) as H. rewrite E in H. cbn [wp fst snd] in H.
    destruct H as (fs' & s' & _ & _ & _ & Hinv & _). exists fs'. left.
    change heapSTRUCT_SIZE with 16 in *.
    pose proof (p_used _ _ _ (hi_parts _ _ _ Hinv)) as Hu. inversion Hu as [|? ? [nx' Hlk'] _]; subst.
    cbn [fst snd] in Hlk'. rewrite Hlk in Hlk'. by injection Hlk' as _ ->.
  - change heapSTRUCT_SIZE with 16 in *. destruct Hok as [Hinv|(_ & _ & Hnil & _)].
    + pose proof (free_spec h fs _ (us1 ++ us2) p s Hinv) as H.
      specialize (H ltac:(by rewrite <- Permutation_middle)). rewrite E in H. eexists. by left.
    + by destruct us1.
  - exists fs. by apply (user_write_ok h).
Qed.

(** C36: the heap is safe for its users. After any sequence of allocations
    (each below 2^32 - 23 bytes), releases of memory in use and writes of the
    users anywhere inside their own memory: the blocks in use are aligned,
    inside the array and pairwise disjoint, the bytes remaining are those of
    no block in use, and the next allocation, whatever its size, and the
    release of any block in use are defined. *)
Theorem heap2_safe m h us :
  star heap_step (heap_boot m, []) (h, us) ->
  (forall b1 b2, b1 ∈ us -> b2 ∈ us -> b1 <> b2 -> disjoint_blocks b1 b2) /\
  (forall b, b ∈ us -> 0 <= fst b /\ fst b + snd b <= configTOTAL_HEAP_SIZE /\ fst b mod 8 = 0) /\
  xPortGetFreeHeapSize h = configTOTAL_HEAP_SIZE - sum_sizes us /\
  (forall w, 0 <= w <= 2 ^ 32 - 24 -> exists r, pvPortMalloc h w = Ok r) /\
  (forall b, b ∈ us -> exists h', vPortFree h (Some (fst b + 16)) = Ok h').
Proof.
  intros Hs. assert (exists fs, heap_ok h fs us) as [fs Hok].
  { refine (star_invariant heap_step (fun s => exists fs, heap_ok (fst s) fs (snd s)) _ _ _ _ Hs).
    - intros a b [fs Hok] Hab. by eapply heap_step_ok.
    - eexists. apply boot_ok. }
  pose proof (heap_ok_init _ _ _ Hok) as Hinv0. pose proof (hi_parts _ _ _ Hinv0) as Hp.
  pose proof (parts_sum _ _ _ Hp) as Hsum.
  split; [|split; [|split; [|split]]].
  - intros b1 b2 H1 H2. apply (parts_disjoint _ _ _ Hp); set_solver.
  - intros b Hb. pose proof (parts_block _ _ _ Hp b (or_intror Hb)). tauto.
  - unfold xPortGetFreeHeapSize. destruct Hok as [Hinv|(_ & -> & -> & ->)]; [|done].
    rewrite (hi_free _ _ _ Hinv). lia.
  - intros w Hw. pose proof (malloc_spec h fs us w Hok Hw) as H. apply wp_ok in H as (r & -> & _). eauto.
  - intros [o s] Hb. destruct Hok as [Hinv|(_ & _ & -> & _)]; [|set_solver].
    apply list_elem_of_split in Hb as (us1 & us2 & ->).
    pose proof (free_spec h fs _ (us1 ++ us2) (o + 16) s Hinv) as H.
    rewrite Z.add_simpl_r in H. specialize (H ltac:(by rewrite <- Permutation_middle)).
    apply wp_ok in H as (h' & E & _). exists h'. exact E.
Qed.

Lemma heap2_safe_witness :
  let us := [(0, 120)] in
  (forall b1 b2, b1 ∈ us -> b2 ∈ us -> b1 <> b2 -> disjoint_blocks b1 b2) /\
  (forall b, b ∈ us -> 0 <= fst b /\ fst b + snd b <= configTOTAL_HEAP_SIZE /\ fst b mod 8 = 0) /\
  xPortGetFreeHeapSize heap_one = configTOTAL_HEAP_SIZE - sum_sizes us /\
  (forall w, 0 <= w <= 2 ^ 32 - 24 -> exists r, pvPortMalloc heap_one w = Ok r) /\
  (forall b, b ∈ us -> exists h', vPortFree heap_one (Some (fst b + 16)) = Ok h').
Proof.
  intros us. apply (heap2_safe ∅). apply star_one.
  apply (hs_malloc _ _ 100 16 heap_one BEnd 120); [lia|vm_compute; reflexivity|vm_compute; reflexivity].
Defined.

(** The sum of the requested size and the link structure is not checked
    for overflow. A request of 2^32 - 8 bytes wraps to a block of 8 bytes: the
    allocation succeeds, and the memory returned at offset 16 lies in the
    free block that starts at offset 8. *)
Lemma pvPortMalloc_wraps :
  exists h', pvPortMalloc (heap_boot ∅) (2 ^ 32 - 8) = Ok (Some 16, h') /\
    pxNextFreeBlock (xStart h') = BBlk 8 /\
    lk h' (BBlk 8) = Some (BlockLink BEnd (configTOTAL_HEAP_SIZE - 8)).
Proof. eexists. split; [vm_compute; reflexivity|]. split; vm_compute; reflexivity. Qed.
