(* ===== verification/Alloc.v ===== *)
(** * The allocator as its clients see it

    [Allocator] states what queue.c, tasks.c and the port of lwIP rely on:
    memory in use is described by its address and size. heap_2.c is an
    instance ([Heap2]). *)

From S2P Require Import Prelude Heap2.
From stdpp Require Import gmap.
#[local] Open Scope Z_scope.

(** Memory in use: address, bytes. *)
Abbreviation region := (Z * Z)%type.

Definition region_disjoint (r1 r2 : region) : Prop :=
  fst r1 + snd r1 <= fst r2 \/ fst r2 + snd r2 <= fst r1.

(** The largest request whose size computation does not overflow. *)
Definition max_request : Z := 2 ^ 32 - 24.

Class Allocator (H : Type) : Type := {
  malloc : H -> Z -> outcome (option Z * H);
  free : H -> option Z -> outcome H;
  in_use : H -> list region -> Prop;
  malloc_ok h us w : in_use h us -> 0 <= w <= max_request ->
    wp (malloc h w) (fun r =>
      match fst r with
      | None => in_use (snd r) us
      | Some p => 0 < w /\ exists n, w <= n /\ in_use (snd r) ((p, n) :: us) /\
                  Forall (region_disjoint (p, n)) us
      end);
  free_ok h us us' p n : in_use h us -> Permutation us ((p, n) :: us') ->
    wp (free h (Some p)) (fun h' => in_use h' us');
  free_null h : free h None = Ok h;
}.

(** ** heap_2.c *)

Definition region_block (r : region) : Z * Z := (fst r - heapSTRUCT_SIZE, snd r + heapSTRUCT_SIZE).

Definition heap2_in_use (h : heap2) (us : list region) : Prop :=
  exists fs, heap_ok h fs (map region_block us).

Lemma heap2_malloc_ok h us w :
  heap2_in_use h us -> 0 <= w <= max_request ->
  wp (pvPortMalloc h w) (fun r =>
    match fst r with
    | None => heap2_in_use (snd r) us
    | Some p => 0 < w /\ exists n, w <= n /\ heap2_in_use (snd r) ((p, n) :: us) /\
                Forall (region_disjoint (p, n)) us
    end).
Proof.
  intros [fs Hok] Hw. eapply wp_mono; [exact (malloc_spec h fs _ w Hok Hw)|].
  intros [[p|] h']; cbn [fst snd]; [|intros [Hi _]; exists fs; by left].
  intros (fs' & s & l1 & l2 & s0 & Hinv & Hs & Hpos & _). split; [done|].
  exists (s - 16). pose proof (need_bounds w) as [_ Hn]. split; [lia|].
  pose proof (hi_parts _ _ _ Hinv) as Hp. split.
  - exists fs'. left. cbn [map]. unfold region_block at 1. cbn [fst snd].
    change heapSTRUCT_SIZE with 16. by rewrite Z.sub_add.
  - apply Forall_forall. intros r Hr.
    assert (Hrb : region_block r ∈ map region_block us) by (by apply list_elem_of_fmap_2).
    assert (Hne : (p - 16, s) <> region_block r).
    { intros E. pose proof (parts_nodup _ _ _ Hp) as Hnd. rewrite <- Permutation_middle in Hnd.
      cbn [map] in Hnd. apply NoDup_cons in Hnd as [Hnd _]. apply Hnd. rewrite E, map_app.
      apply elem_of_app. right. by apply list_elem_of_fmap_2. }
    assert (H1 : (p - 16, s) ∈ fs' ++ (p - 16, s) :: map region_block us) by set_solver.
    assert (H2 : region_block r ∈ fs' ++ (p - 16, s) :: map region_block us) by set_solver.
    pose proof (parts_disjoint _ _ _ Hp _ _ H1 H2 Hne) as Hd.
    unfold disjoint_blocks, region_block in Hd. unfold region_disjoint. cbn [fst snd] in *.
    change heapSTRUCT_SIZE with 16 in *. lia.
Qed.

Lemma heap2_free_ok h us us' p n :
  heap2_in_use h us -> Permutation us ((p, n) :: us') ->
  wp (vPortFree h (Some p)) (fun h' => heap2_in_use h' us').
Proof.
  intros [fs Hok] Hperm. apply (Permutation_map region_block) in Hperm. cbn [map] in Hperm.
  destruct Hok as [Hinv|(_ & _ & Hnil & _)].
  - unfold region_block at 2 in Hperm. cbn [fst snd] in Hperm. change heapSTRUCT_SIZE with 16 in *.
    eapply wp_mono; [exact (free_spec h fs _ _ p (n + 16) Hinv Hperm)|].
    intros h' Hinv'. eexists. left. exact Hinv'.
  - rewrite Hnil in Hperm. by apply Permutation_nil_cons in Hperm.
Qed.

#[export] Instance heap2_allocator : Allocator heap2 := {
  malloc := pvPortMalloc;
  free := vPortFree;
  in_use := heap2_in_use;
  malloc_ok := heap2_malloc_ok;
  free_ok := heap2_free_ok;
  free_null := fun h => eq_refl;
}.

Lemma heap_boot_in_use m : in_use (heap_boot m) [].
Proof. eexists. apply boot_ok. Qed.
