(* ===== verification/Tasks.v ===== *)
(** * The scheduler: FreeRTOS_v6.1.0/tasks.c

    Tasks, their ready, delayed, pending and termination lists, the tick,
    suspension of the scheduler, context switches, priorities and their
    inheritance, in the configuration of working/inc/FreeRTOSConfig.h
    (preemption, mutexes, deletion; no suspension of single tasks, no
    vTaskDelayUntil).

    A list of the kernel is the sequence of its tasks ([RtosList] relates the
    linked structure to it): for a ready list in the order in which
    listGET_OWNER_OF_NEXT_ENTRY visits them, so that vListInsertEnd appends,
    vListRemove deletes and a visit moves the head to the end. The event
    lists belong to the queues: an operation that unlinks a task from its
    event list returns the task. *)

From S2P Require Import Prelude.
From Stdlib Require Import Sorting.Sorted.
From stdpp Require Import gmap.
From S2P Require Import Heap2 Alloc.
#[local] Open Scope Z_scope.

Definition configMAX_PRIORITIES : Z := 7.
Definition tskIDLE_PRIORITY : Z := 0.
Definition configMINIMAL_STACK_SIZE : Z := 128.
Definition tskIDLE_STACK_SIZE : Z := configMINIMAL_STACK_SIZE.
Definition sizeof_tskTCB : Z := 76.
Definition sizeof_portSTACK_TYPE : Z := 4.

(** ** Data *)

(** [event_value] is the xItemValue of xEventListItem, [wake_time] that of
    xGenericListItem. *)
Record tskTCB : Type := TCB {
  uxPriority : Z;
  uxBasePriority : Z;
  event_value : Z;
  wake_time : Z;
  pxStack : Z;
}.

(** The variables of tasks.c; a task is the address of its TCB. *)
Record kernel : Type := Kernel {
  tcbs : gmap nat tskTCB;
  pxCurrentTCB : option nat;
  pxReadyTasksLists : list (list nat);
  uxTopReadyPriority : Z;
  pxDelayedTaskList : list nat;
  pxOverflowDelayedTaskList : list nat;
  xPendingReadyList : list nat;
  xTasksWaitingTermination : list nat;
  uxTasksDeleted : Z;
  uxCurrentNumberOfTasks : Z;
  uxTopUsedPriority : Z;
  uxTaskNumber : Z;
  xTickCount : Z;
  xNumOfOverflows : Z;
  xSchedulerRunning : bool;
  uxSchedulerSuspended : Z;
  uxMissedTicks : Z;
  xMissedYield : bool;
  yields : nat;
}.

Definition set_tcbs (k : kernel) (m : gmap nat tskTCB) : kernel :=
  Kernel m (pxCurrentTCB k) (pxReadyTasksLists k) (uxTopReadyPriority k) (pxDelayedTaskList k)
    (pxOverflowDelayedTaskList k) (xPendingReadyList k) (xTasksWaitingTermination k)
    (uxTasksDeleted k) (uxCurrentNumberOfTasks k) (uxTopUsedPriority k) (uxTaskNumber k)
    (xTickCount k) (xNumOfOverflows k) (xSchedulerRunning k) (uxSchedulerSuspended k)
    (uxMissedTicks k) (xMissedYield k) (yields k).
Definition set_current (k : kernel) (t : nat) : kernel :=
  Kernel (tcbs k) (Some t) (pxReadyTasksLists k) (uxTopReadyPriority k) (pxDelayedTaskList k)
    (pxOverflowDelayedTaskList k) (xPendingReadyList k) (xTasksWaitingTermination k)
    (uxTasksDeleted k) (uxCurrentNumberOfTasks k) (uxTopUsedPriority k) (uxTaskNumber k)
    (xTickCount k) (xNumOfOverflows k) (xSchedulerRunning k) (uxSchedulerSuspended k)
    (uxMissedTicks k) (xMissedYield k) (yields k).
Definition set_ready (k : kernel) (l : list (list nat)) (top : Z) : kernel :=
  Kernel (tcbs k) (pxCurrentTCB k) l top (pxDelayedTaskList k) (pxOverflowDelayedTaskList k)
    (xPendingReadyList k) (xTasksWaitingTermination k) (uxTasksDeleted k)
    (uxCurrentNumberOfTasks k) (uxTopUsedPriority k) (uxTaskNumber k) (xTickCount k)
    (xNumOfOverflows k) (xSchedulerRunning k) (uxSchedulerSuspended k) (uxMissedTicks k)
    (xMissedYield k) (yields k).
Definition set_delayed (k : kernel) (d o : list nat) : kernel :=
  Kernel (tcbs k) (pxCurrentTCB k) (pxReadyTasksLists k) (uxTopReadyPriority k) d o
    (xPendingReadyList k) (xTasksWaitingTermination k) (uxTasksDeleted k)
    (uxCurrentNumberOfTasks k) (uxTopUsedPriority k) (uxTaskNumber k) (xTickCount k)
    (xNumOfOverflows k) (xSchedulerRunning k) (uxSchedulerSuspended k) (uxMissedTicks k)
    (xMissedYield k) (yields k).
Definition set_pending (k : kernel) (l : list nat) : kernel :=
  Kernel (tcbs k) (pxCurrentTCB k) (pxReadyTasksLists k) (uxTopReadyPriority k)
    (pxDelayedTaskList k) (pxOverflowDelayedTaskList k) l (xTasksWaitingTermination k)
    (uxTasksDeleted k) (uxCurrentNumberOfTasks k) (uxTopUsedPriority k) (uxTaskNumber k)
    (xTickCount k) (xNumOfOverflows k) (xSchedulerRunning k) (uxSchedulerSuspended k)
    (uxMissedTicks k) (xMissedYield k) (yields k).
Definition set_termination (k : kernel) (l : list nat) (n : Z) : kernel :=
  Kernel (tcbs k) (pxCurrentTCB k) (pxReadyTasksLists k) (uxTopReadyPriority k)
    (pxDelayedTaskList k) (pxOverflowDelayedTaskList k) (xPendingReadyList k) l n
    (uxCurrentNumberOfTasks k) (uxTopUsedPriority k) (uxTaskNumber k) (xTickCount k)
    (xNumOfOverflows k) (xSchedulerRunning k) (uxSchedulerSuspended k) (uxMissedTicks k)
    (xMissedYield k) (yields k).
Definition set_counts (k : kernel) (n used number : Z) : kernel :=
  Kernel (tcbs k) (pxCurrentTCB k) (pxReadyTasksLists k) (uxTopReadyPriority k)
    (pxDelayedTaskList k) (pxOverflowDelayedTaskList k) (xPendingReadyList k)
    (xTasksWaitingTermination k) (uxTasksDeleted k) n used number (xTickCount k)
    (xNumOfOverflows k) (xSchedulerRunning k) (uxSchedulerSuspended k) (uxMissedTicks k)
    (xMissedYield k) (yields k).
Definition set_tick (k : kernel) (n o : Z) : kernel :=
  Kernel (tcbs k) (pxCurrentTCB k) (pxReadyTasksLists k) (uxTopReadyPriority k)
    (pxDelayedTaskList k) (pxOverflowDelayedTaskList k) (xPendingReadyList k)
    (xTasksWaitingTermination k) (uxTasksDeleted k) (uxCurrentNumberOfTasks k)
    (uxTopUsedPriority k) (uxTaskNumber k) n o (xSchedulerRunning k) (uxSchedulerSuspended k)
    (uxMissedTicks k) (xMissedYield k) (yields k).
Definition set_suspended (k : kernel) (n : Z) : kernel :=
  Kernel (tcbs k) (pxCurrentTCB k) (pxReadyTasksLists k) (uxTopReadyPriority k)
    (pxDelayedTaskList k) (pxOverflowDelayedTaskList k) (xPendingReadyList k)
    (xTasksWaitingTermination k) (uxTasksDeleted k) (uxCurrentNumberOfTasks k)
    (uxTopUsedPriority k) (uxTaskNumber k) (xTickCount k) (xNumOfOverflows k)
    (xSchedulerRunning k) n (uxMissedTicks k) (xMissedYield k) (yields k).
Definition set_missed_ticks (k : kernel) (n : Z) : kernel :=
  Kernel (tcbs k) (pxCurrentTCB k) (pxReadyTasksLists k) (uxTopReadyPriority k)
    (pxDelayedTaskList k) (pxOverflowDelayedTaskList k) (xPendingReadyList k)
    (xTasksWaitingTermination k) (uxTasksDeleted k) (uxCurrentNumberOfTasks k)
    (uxTopUsedPriority k) (uxTaskNumber k) (xTickCount k) (xNumOfOverflows k)
    (xSchedulerRunning k) (uxSchedulerSuspended k) n (xMissedYield k) (yields k).
Definition set_missed_yield (k : kernel) (b : bool) : kernel :=
  Kernel (tcbs k) (pxCurrentTCB k) (pxReadyTasksLists k) (uxTopReadyPriority k)
    (pxDelayedTaskList k) (pxOverflowDelayedTaskList k) (xPendingReadyList k)
    (xTasksWaitingTermination k) (uxTasksDeleted k) (uxCurrentNumberOfTasks k)
    (uxTopUsedPriority k) (uxTaskNumber k) (xTickCount k) (xNumOfOverflows k)
    (xSchedulerRunning k) (uxSchedulerSuspended k) (uxMissedTicks k) b (yields k).
Definition set_running (k : kernel) (b : bool) : kernel :=
  Kernel (tcbs k) (pxCurrentTCB k) (pxReadyTasksLists k) (uxTopReadyPriority k)
    (pxDelayedTaskList k) (pxOverflowDelayedTaskList k) (xPendingReadyList k)
    (xTasksWaitingTermination k) (uxTasksDeleted k) (uxCurrentNumberOfTasks k)
    (uxTopUsedPriority k) (uxTaskNumber k) (xTickCount k) (xNumOfOverflows k) b
    (uxSchedulerSuspended k) (uxMissedTicks k) (xMissedYield k) (yields k).

(** A request for a context switch (portYIELD_WITHIN_API), counted. *)
Definition yield_request (k : kernel) : kernel :=
  Kernel (tcbs k) (pxCurrentTCB k) (pxReadyTasksLists k) (uxTopReadyPriority k)
    (pxDelayedTaskList k) (pxOverflowDelayedTaskList k) (xPendingReadyList k)
    (xTasksWaitingTermination k) (uxTasksDeleted k) (uxCurrentNumberOfTasks k)
    (uxTopUsedPriority k) (uxTaskNumber k) (xTickCount k) (xNumOfOverflows k)
    (xSchedulerRunning k) (uxSchedulerSuspended k) (uxMissedTicks k) (xMissedYield k)
    (S (yields k)).

Record xTimeOutType : Type := TimeOut {
  xOverflowCount : Z;
  xTimeOnEntering : Z;
}.

Definition tcb_of (k : kernel) (t : nat) : outcome tskTCB :=
  match tcbs k !! t with Some b => Ok b | None => UB end.

Definition current (k : kernel) : outcome nat :=
  match pxCurrentTCB k with Some t => Ok t | None => UB end.

Definition set_tcb (k : kernel) (t : nat) (b : tskTCB) : kernel := set_tcbs k (<[t := b]> (tcbs k)).

(** Before any task is created. *)
Definition kernel_boot : kernel :=
  Kernel ∅ None [] tskIDLE_PRIORITY [] [] [] [] 0 0 tskIDLE_PRIORITY 0 0 0 false 0 0 false 0.

(** ** Lists *)

Definition without (t : nat) (l : list nat) : list nat := filter (fun u => u <> t) l.

(** The lists a generic item can be in. *)
Definition generic_lists (k : kernel) : list nat :=
  concat (pxReadyTasksLists k) ++ pxDelayedTaskList k ++ pxOverflowDelayedTaskList k ++
  xTasksWaitingTermination k.

(** vListRemove of the generic item, from the list that contains it. *)
Definition remove_generic (k : kernel) (t : nat) : outcome kernel :=
  if decide (t ∈ generic_lists k) then
    let k := set_ready k (map (without t) (pxReadyTasksLists k)) (uxTopReadyPriority k) in
    let k := set_delayed k (without t (pxDelayedTaskList k)) (without t (pxOverflowDelayedTaskList k)) in
    Ok (set_termination k (without t (xTasksWaitingTermination k)) (uxTasksDeleted k))
  else UB.

(** vListInsert: behind every task of a value at most the new one's. *)
Fixpoint sorted_insert (k : kernel) (key : tskTCB -> Z) (v : Z) (t : nat) (l : list nat)
    : outcome (list nat) :=
  match l with
  | [] => Ok [t]
  | u :: r =>
      let! b := tcb_of k u in
      if key b <=? v then let! r' := sorted_insert k key v t r in Ok (u :: r')
      else Ok (t :: l)
  end.

Definition prvAddTaskToReadyQueue (k : kernel) (t : nat) : outcome kernel :=
  let! b := tcb_of k t in
  let top := (if uxTopReadyPriority k <? uxPriority b then uxPriority b else uxTopReadyPriority k) in
  let! l := rd (pxReadyTasksLists k) (uxPriority b) in
  let! ls := wr (pxReadyTasksLists k) (uxPriority b) (l ++ [t]) in
  Ok (set_ready k ls top).

(** The task goes to the delayed list its wake time belongs to. *)
Definition add_delayed (k : kernel) (t : nat) (xTimeToWake : Z) : outcome kernel :=
  let! b := tcb_of k t in
  let k := set_tcb k t (TCB (uxPriority b) (uxBasePriority b) (event_value b) xTimeToWake (pxStack b)) in
  if xTimeToWake <? xTickCount k then
    let! o := sorted_insert k wake_time xTimeToWake t (pxOverflowDelayedTaskList k) in
    Ok (set_delayed k (pxDelayedTaskList k) o)
  else
    let! d := sorted_insert k wake_time xTimeToWake t (pxDelayedTaskList k) in
    Ok (set_delayed k d (pxOverflowDelayedTaskList k)).

(** ** The tick *)

(** prvCheckDelayedTasks; the result lists the woken tasks, which leave their
    event lists. *)
Fixpoint check_delayed (k : kernel) (dl : list nat) : outcome (kernel * list nat) :=
  match dl with
  | [] => Ok (k, [])
  | t :: dl' =>
      let! b := tcb_of k t in
      if xTickCount k <? wake_time b then Ok (k, [])
      else
        let! k := remove_generic k t in
        let k := set_pending k (without t (xPendingReadyList k)) in
        let! k := prvAddTaskToReadyQueue k t in
        let! (k, woken) := check_delayed k dl' in
        Ok (k, t :: woken)
  end.

Definition prvCheckDelayedTasks (k : kernel) : outcome (kernel * list nat) :=
  check_delayed k (pxDelayedTaskList k).

Definition vTaskIncrementTick (k : kernel) : outcome (kernel * list nat) :=
  if uxSchedulerSuspended k =? 0 then
    let n := u32 (xTickCount k + 1) in
    let k := (if n =? 0 then
                let k := set_delayed k (pxOverflowDelayedTaskList k) (pxDelayedTaskList k) in
                set_tick k n (s32 (xNumOfOverflows k + 1))
              else set_tick k n (xNumOfOverflows k)) in
    prvCheckDelayedTasks k
  else Ok (set_missed_ticks k (u32 (uxMissedTicks k + 1)), []).

(** ** Suspension *)

Definition vTaskSuspendAll (k : kernel) : kernel :=
  set_suspended k (u32 (uxSchedulerSuspended k + 1)).

Definition vTaskMissedYield (k : kernel) : kernel := set_missed_yield k true.

(** The loop of xTaskResumeAll over the pending tasks. *)
Fixpoint resume_pending (k : kernel) (ps : list nat) (yield : bool) : outcome (kernel * bool) :=
  match ps with
  | [] => Ok (k, yield)
  | t :: r =>
      let k := set_pending k r in
      let! k := remove_generic k t in
      let! k := prvAddTaskToReadyQueue k t in
      let! b := tcb_of k t in
      let! cur := current k in
      let! c := tcb_of k cur in
      resume_pending k r (yield || (uxPriority c <=? uxPriority b))
  end.

(** The loop over the missed ticks. *)
Fixpoint missed_ticks (n : nat) (k : kernel) : outcome (kernel * list nat) :=
  match n with
  | O => Ok (k, [])
  | S n =>
      let! (k, w1) := vTaskIncrementTick k in
      let k := set_missed_ticks k (u32 (uxMissedTicks k - 1)) in
      let! (k, w2) := missed_ticks n k in
      Ok (k, w1 ++ w2)
  end.

(** xAlreadyYielded, the kernel, and the tasks unlinked from event lists. *)
Definition xTaskResumeAll (k : kernel) : outcome (bool * kernel * list nat) :=
  let k := set_suspended k (u32 (uxSchedulerSuspended k - 1)) in
  if (uxSchedulerSuspended k =? 0) && (0 <? uxCurrentNumberOfTasks k) then
    let! (k, yield) := resume_pending k (xPendingReadyList k) false in
    let yield := yield || (0 <? uxMissedTicks k) in
    let! (k, woken) := missed_ticks (Z.to_nat (uxMissedTicks k)) k in
    if yield || xMissedYield k then Ok (true, yield_request (set_missed_yield k false), woken)
    else Ok (false, k, woken)
  else Ok (false, k, []).

Definition xTaskGetTickCount (k : kernel) : Z := xTickCount k.
Definition xTaskGetTickCountFromISR (k : kernel) : Z := xTickCount k.
Definition uxTaskGetNumberOfTasks (k : kernel) : Z := uxCurrentNumberOfTasks k.
Definition xTaskGetCurrentTaskHandle (k : kernel) : option nat := pxCurrentTCB k.

(** ** Context switches *)

(** The search for the highest priority with a ready task. *)
Fixpoint top_ready (fuel : nat) (k : kernel) (top : Z) : outcome Z :=
  match fuel with
  | O => NoFuel
  | S fuel =>
      let! l := rd (pxReadyTasksLists k) top in
      if decide (l = []) then top_ready fuel k (top - 1) else Ok top
  end.

(** listGET_OWNER_OF_NEXT_ENTRY. *)
Definition next_entry (l : list nat) : outcome (nat * list nat) :=
  match l with [] => UB | t :: r => Ok (t, r ++ [t]) end.

Definition vTaskSwitchContext (k : kernel) : outcome kernel :=
  if negb (uxSchedulerSuspended k =? 0) then Ok (set_missed_yield k true)
  else
    let! top := top_ready (S (Z.to_nat configMAX_PRIORITIES)) k (uxTopReadyPriority k) in
    let! l := rd (pxReadyTasksLists k) top in
    let! (t, l) := next_entry l in
    let! ls := wr (pxReadyTasksLists k) top l in
    Ok (set_current (set_ready k ls top) t).

(** ** Delays and events *)

(** The second component of the results: tasks unlinked from event lists. *)
Definition vTaskDelay (k : kernel) (xTicksToDelay : Z) : outcome (kernel * list nat) :=
  if 0 <? xTicksToDelay then
    let k := vTaskSuspendAll k in
    let xTimeToWake := u32 (xTickCount k + xTicksToDelay) in
    let! t := current k in
    let! k := remove_generic k t in
    let! k := add_delayed k t xTimeToWake in
    let! (xAlreadyYielded, k, woken) := xTaskResumeAll k in
    Ok (if xAlreadyYielded : bool then k else yield_request k, woken)
  else Ok (yield_request k, []).

(** The current task joins the event list [el] and the delayed tasks. *)
Definition vTaskPlaceOnEventList (k : kernel) (el : list nat) (xTicksToWait : Z)
    : outcome (kernel * list nat) :=
  let! t := current k in
  let! b := tcb_of k t in
  let! el' := sorted_insert k event_value (event_value b) t el in
  let! k := remove_generic k t in
  let! k := add_delayed k t (u32 (xTickCount k + xTicksToWait)) in
  Ok (k, el').

(** The first task of the list becomes ready, or pending while the scheduler
    is suspended; the result is whether it should run before the current
    one. *)
Definition xTaskRemoveFromEventList (k : kernel) (el : list nat) : outcome (bool * kernel * list nat) :=
  match el with
  | [] => UB
  | t :: el' =>
      let! k :=
        (if uxSchedulerSuspended k =? 0 then
           let! k := remove_generic k t in prvAddTaskToReadyQueue k t
         else Ok (set_pending k (xPendingReadyList k ++ [t]))) in
      let! b := tcb_of k t in
      let! cur := current k in
      let! c := tcb_of k cur in
      Ok (uxPriority c <=? uxPriority b, k, el')
  end.

(** ** Time-outs *)

Definition vTaskSetTimeOutState (k : kernel) : xTimeOutType :=
  TimeOut (xNumOfOverflows k) (xTickCount k).

Definition xTaskCheckForTimeOut (k : kernel) (t : xTimeOutType) (xTicksToWait : Z)
    : bool * xTimeOutType * Z :=
  let elapsed := u32 (xTickCount k - xTimeOnEntering t) in
  if negb (xNumOfOverflows k =? xOverflowCount t) && (xTimeOnEntering t <=? xTickCount k) then
    (true, t, xTicksToWait)
  else if elapsed <? xTicksToWait then
    (false, vTaskSetTimeOutState k, u32 (xTicksToWait - elapsed))
  else (true, t, xTicksToWait).

(** ** Priorities *)

Definition with_priority (b : tskTCB) (p base ev : Z) : tskTCB :=
  TCB p base ev (wake_time b) (pxStack b).

(** listIS_CONTAINED_WITHIN of the ready list of a priority. *)
Definition in_ready_list (k : kernel) (p : Z) (t : nat) : outcome bool :=
  let! l := rd (pxReadyTasksLists k) p in Ok (bool_decide (t ∈ l)).

(** The holder's handle is followed without a test. *)
Definition vTaskPriorityInherit (k : kernel) (pxMutexHolder : option nat) : outcome kernel :=
  match pxMutexHolder with
  | None => UB
  | Some t =>
      let! b := tcb_of k t in
      let! cur := current k in
      let! c := tcb_of k cur in
      if uxPriority b <? uxPriority c then
        let raised := with_priority b (uxPriority c) (uxBasePriority b)
                        (u32 (configMAX_PRIORITIES - uxPriority c)) in
        let! ready := in_ready_list k (uxPriority b) t in
        if ready : bool then
          let! k := remove_generic k t in
          prvAddTaskToReadyQueue (set_tcb k t raised) t
        else Ok (set_tcb k t raised)
      else Ok k
  end.

Definition vTaskPriorityDisinherit (k : kernel) (pxMutexHolder : option nat) : outcome kernel :=
  match pxMutexHolder with
  | None => Ok k
  | Some t =>
      let! b := tcb_of k t in
      if negb (uxPriority b =? uxBasePriority b) then
        let! k := remove_generic k t in
        let lowered := with_priority b (uxBasePriority b) (uxBasePriority b)
                         (u32 (configMAX_PRIORITIES - uxBasePriority b)) in
        prvAddTaskToReadyQueue (set_tcb k t lowered) t
      else Ok k
  end.

(** prvGetTCBFromHandle: NULL is the current task. *)
Definition prvGetTCBFromHandle (k : kernel) (pxTask : option nat) : outcome nat :=
  match pxTask with None => current k | Some t => Ok t end.

Definition uxTaskPriorityGet (k : kernel) (pxTask : option nat) : outcome Z :=
  let! t := prvGetTCBFromHandle k pxTask in
  let! b := tcb_of k t in Ok (uxPriority b).

Definition vTaskPrioritySet (k : kernel) (pxTask : option nat) (uxNewPriority : Z) : outcome kernel :=
  let p := (if configMAX_PRIORITIES <=? uxNewPriority then configMAX_PRIORITIES - 1 else uxNewPriority) in
  let pxTask := (if decide (pxTask = pxCurrentTCB k) then None else pxTask) in
  let! t := prvGetTCBFromHandle k pxTask in
  let! b := tcb_of k t in
  let uxCurrentPriority := uxBasePriority b in
  if negb (uxCurrentPriority =? p) then
    let self := bool_decide (pxTask = None) in
    let xYieldRequired := (if uxCurrentPriority <? p then negb self else self) in
    let used := (if uxBasePriority b =? uxPriority b then p else uxPriority b) in
    let k := set_tcb k t (with_priority b used p (u32 (configMAX_PRIORITIES - p))) in
    let! ready := in_ready_list k uxCurrentPriority t in
    let! k := (if ready : bool then let! k := remove_generic k t in prvAddTaskToReadyQueue k t else Ok k) in
    Ok (if xYieldRequired : bool then yield_request k else k)
  else Ok k.

(** ** Creation and deletion, over any allocator *)

Section Create.
Context {H : Type} `{!Allocator H}.

(** The addresses of the TCB and of the stack. *)
Definition prvAllocateTCBAndStack (h : H) (usStackDepth : Z) : outcome (option (Z * Z) * H) :=
  let! (pxNewTCB, h) := malloc h sizeof_tskTCB in
  match pxNewTCB with
  | None => Ok (None, h)
  | Some tcb =>
      let! (stack, h) := malloc h (u32 (u16 usStackDepth * sizeof_portSTACK_TYPE)) in
      match stack with
      | None => let! h := free h (Some tcb) in Ok (None, h)
      | Some stack => Ok (Some (tcb, stack), h)
      end
  end.

Definition prvInitialiseTCBVariables (uxPriority stack : Z) : tskTCB :=
  let p := (if configMAX_PRIORITIES <=? uxPriority then configMAX_PRIORITIES - 1 else uxPriority) in
  TCB p p (u32 (configMAX_PRIORITIES - p)) 0 stack.

Definition prvInitialiseTaskLists (k : kernel) : kernel :=
  let k := set_ready k (repeat [] (Z.to_nat configMAX_PRIORITIES)) (uxTopReadyPriority k) in
  let k := set_pending (set_delayed k [] []) [] in
  set_termination k [] (uxTasksDeleted k).

(** The result is the handle, [None] for
    errCOULD_NOT_ALLOCATE_REQUIRED_MEMORY. The name and the initial contents
    of the stack are not in the model. *)
Definition xTaskGenericCreate (k : kernel) (h : H) (usStackDepth uxPriority0 : Z)
    : outcome (option nat * kernel * H) :=
  let! (mem, h) := prvAllocateTCBAndStack h usStackDepth in
  match mem with
  | None => Ok (None, k, h)
  | Some (addr, stack) =>
      let t := Z.to_nat addr in
      let b := prvInitialiseTCBVariables uxPriority0 stack in
      let k := set_tcb k t b in
      let n := u32 (uxCurrentNumberOfTasks k + 1) in
      let! k :=
        match pxCurrentTCB k with
        | None => Ok (if n =? 1 then prvInitialiseTaskLists (set_current k t) else set_current k t)
        | Some cur =>
            if negb (xSchedulerRunning k) then
              let! c := tcb_of k cur in
              Ok (if uxPriority c <=? uxPriority0 then set_current k t else k)
            else Ok k
        end in
      let used := (if uxTopUsedPriority k <? uxPriority b then uxPriority b else uxTopUsedPriority k) in
      let k := set_counts k n used (u32 (uxTaskNumber k + 1)) in
      let! k := prvAddTaskToReadyQueue k t in
      if xSchedulerRunning k then
        let! cur := current k in
        let! c := tcb_of k cur in
        Ok (Some t, if uxPriority c <? uxPriority0 then yield_request k else k, h)
      else Ok (Some t, k, h)
  end.

(** The task is unlinked from its event list, if it is in one. *)
Definition vTaskDelete (k : kernel) (pxTaskToDelete : option nat) : outcome (kernel * list nat) :=
  let pxTask := (if decide (pxTaskToDelete = pxCurrentTCB k) then None else pxTaskToDelete) in
  let! t := prvGetTCBFromHandle k pxTask in
  let! _ := tcb_of k t in
  let! k := remove_generic k t in
  let k := set_pending k (without t (xPendingReadyList k)) in
  let k := set_termination k (xTasksWaitingTermination k ++ [t]) (u32 (uxTasksDeleted k + 1)) in
  let k := set_counts k (uxCurrentNumberOfTasks k) (uxTopUsedPriority k) (u32 (uxTaskNumber k + 1)) in
  Ok (if xSchedulerRunning k && bool_decide (pxTask = None) then yield_request k else k, [t]).

Definition prvDeleteTCB (k : kernel) (h : H) (t : nat) : outcome (kernel * H) :=
  let! b := tcb_of k t in
  let! h := free h (Some (pxStack b)) in
  let! h := free h (Some (Z.of_nat t)) in
  Ok (set_tcbs k (delete t (tcbs k)), h).

(** One pass of the idle task's loop: the memory of a deleted task. *)
Definition prvCheckTasksWaitingTermination (k : kernel) (h : H) : outcome (kernel * H * list nat) :=
  if 0 <? uxTasksDeleted k then
    let k := vTaskSuspendAll k in
    let xListIsEmpty := bool_decide (xTasksWaitingTermination k = []) in
    let! (_, k, woken) := xTaskResumeAll k in
    if negb xListIsEmpty then
      match xTasksWaitingTermination k with
      | [] => UB
      | t :: _ =>
          let! k := remove_generic k t in
          let k := set_counts k (u32 (uxCurrentNumberOfTasks k - 1)) (uxTopUsedPriority k) (uxTaskNumber k) in
          let k := set_termination k (xTasksWaitingTermination k) (u32 (uxTasksDeleted k - 1)) in
          let! (k, h) := prvDeleteTCB k h t in
          Ok (k, h, woken)
      end
    else Ok (k, h, woken)
  else Ok (k, h, []).

(** Up to the call that starts the first task. *)
Definition vTaskStartScheduler (k : kernel) (h : H) : outcome (kernel * H) :=
  let! (xReturn, k, h) := xTaskGenericCreate k h tskIDLE_STACK_SIZE tskIDLE_PRIORITY in
  match xReturn with
  | Some _ => Ok (set_tick (set_running k true) 0 (xNumOfOverflows k), h)
  | None => Ok (k, h)
  end.

End Create.

(** ** The kernel's invariant *)

Definition known (k : kernel) (t : nat) : Prop := is_Some (tcbs k !! t).

Definition tcb_get {A} (f : tskTCB -> A) (d : A) (k : kernel) (t : nat) : A :=
  match tcbs k !! t with Some b => f b | None => d end.
Definition priority (k : kernel) (t : nat) : Z := tcb_get uxPriority 0 k t.
Definition base_priority (k : kernel) (t : nat) : Z := tcb_get uxBasePriority 0 k t.
Definition wake (k : kernel) (t : nat) : Z := tcb_get wake_time 0 k t.

Lemma tcb_of_known k t : known k t -> exists b, tcb_of k t = Ok b /\ tcbs k !! t = Some b.
Proof. unfold tcb_of. intros [b ->]. eauto. Qed.

Definition ready_tasks (k : kernel) : list nat := concat (pxReadyTasksLists k).
Definition blocked_tasks (k : kernel) : list nat := pxDelayedTaskList k ++ pxOverflowDelayedTaskList k.

(** In order of the wake times. *)
Definition by_wake (k : kernel) (l : list nat) : Prop := StronglySorted Z.le (map (wake k) l).

(** Each task is in one list at most, the ready lists are those of the tasks'
    priorities, no priority above uxTopReadyPriority has a ready task, the
    delayed lists are sorted, and hold the wake times after the current tick
    and, in the overflow list, before it (for the time after the next
    overflow of the tick). During the tick interrupt [slack] is 1: tasks that
    are due are still in the delayed list. *)
Record kernel_inv (slack : Z) (k : kernel) : Prop := KernelInv {
  ko_ready_len : length (pxReadyTasksLists k) = 7%nat;
  ko_once : forall t, occ t (generic_lists k) <= 1;
  ko_known : forall t, t ∈ generic_lists k -> known k t;
  ko_current : exists c, pxCurrentTCB k = Some c /\ known k c;
  ko_prio : forall t, known k t -> 0 <= priority k t < 7 /\ 0 <= base_priority k t < 7;
  ko_ready : forall p l t, pxReadyTasksLists k !! p = Some l -> t ∈ l -> priority k t = Z.of_nat p;
  ko_top : 0 <= uxTopReadyPriority k < 7;
  ko_above : forall p l, pxReadyTasksLists k !! p = Some l -> uxTopReadyPriority k < Z.of_nat p -> l = [];
  ko_delayed_sorted : by_wake k (pxDelayedTaskList k);
  ko_overflow_sorted : by_wake k (pxOverflowDelayedTaskList k);
  ko_delayed : forall t, t ∈ pxDelayedTaskList k -> xTickCount k - slack < wake k t < 2 ^ 32;
  ko_overflow : forall t, t ∈ pxOverflowDelayedTaskList k -> 0 <= wake k t < xTickCount k;
  ko_tick : 0 <= xTickCount k < 2 ^ 32;
}.

Abbreviation kernel_ok := (kernel_inv 0).

Lemma occ_generic t k :
  occ t (generic_lists k) = occ t (ready_tasks k) + occ t (pxDelayedTaskList k) +
    occ t (pxOverflowDelayedTaskList k) + occ t (xTasksWaitingTermination k).
Proof. unfold generic_lists, ready_tasks. rewrite !occ_app. lia. Qed.

Lemma occ_blocked t k :
  occ t (blocked_tasks k) = occ t (pxDelayedTaskList k) + occ t (pxOverflowDelayedTaskList k).
Proof. apply occ_app. Qed.

(** *** Removal of the generic item *)

Definition removed (k : kernel) (t : nat) : kernel :=
  let k := set_ready k (map (without t) (pxReadyTasksLists k)) (uxTopReadyPriority k) in
  let k := set_delayed k (without t (pxDelayedTaskList k)) (without t (pxOverflowDelayedTaskList k)) in
  set_termination k (without t (xTasksWaitingTermination k)) (uxTasksDeleted k).

Lemma remove_generic_ok k t : t ∈ generic_lists k -> remove_generic k t = Ok (removed k t).
Proof. intros H. unfold remove_generic. by rewrite decide_True. Qed.

Lemma without_elem t u l : u ∈ without t l <-> u <> t /\ u ∈ l.
Proof. unfold without. by rewrite list_elem_of_filter. Qed.

Lemma by_wake_without k t l : by_wake k l -> by_wake k (without t l).
Proof.
  unfold by_wake, without. induction l as [|u r IH]; cbn [map]; intros Hs; [done|].
  apply StronglySorted_inv in Hs as [Hs Hall]. rewrite filter_cons.
  destruct (decide (u <> t)); [|by apply IH]. cbn [map]. constructor; [by apply IH|].
  rewrite list.Forall_forall in *. intros x (v & -> & Hv)%list_elem_of_fmap. apply Hall.
  apply list_elem_of_fmap_2. by apply list_elem_of_filter in Hv as [_ Hv].
Qed.

Lemma occ_removed u k t :
  occ u (ready_tasks (removed k t)) = (if bool_decide (u = t) then 0 else occ u (ready_tasks k)) /\
  occ u (generic_lists (removed k t)) = (if bool_decide (u = t) then 0 else occ u (generic_lists k)).
Proof.
  assert (Hr : occ u (ready_tasks (removed k t)) = if bool_decide (u = t) then 0 else occ u (ready_tasks k)).
  { apply occ_concat_map_filter. }
  split; [done|]. rewrite !occ_generic, Hr. cbn. unfold without. rewrite !occ_filter. by case_bool_decide.
Qed.

Lemma removed_ok s k t : kernel_inv s k -> kernel_inv s (removed k t).
Proof.
  intros [H1 H2 H3 H4 H5 H6 H7 H8 H9 H10 H11 H12 H13]. split; try done.
  - cbn. by rewrite length_map.
  - intros u. rewrite (proj2 (occ_removed u k t)). case_bool_decide; [lia|]. apply H2.
  - intros u Hu. apply H3. apply occ_elem in Hu. rewrite (proj2 (occ_removed u k t)) in Hu. apply occ_elem.
    case_bool_decide; [lia|done].
  - cbn. intros p l u Hl Hu. rewrite list_lookup_fmap in Hl. apply fmap_Some in Hl as (l0 & Hl0 & ->).
    apply without_elem in Hu as [_ Hu]. by eapply H6.
  - cbn. intros p l Hl Hp. rewrite list_lookup_fmap in Hl. apply fmap_Some in Hl as (l0 & Hl0 & ->).
    by rewrite (H8 _ _ Hl0 Hp).
  - by apply by_wake_without.
  - by apply by_wake_without.
  - cbn. intros u [_ Hu]%without_elem. by apply H11.
  - cbn. intros u [_ Hu]%without_elem. by apply H12.
Qed.

(** *** The ready lists *)

Definition added (k : kernel) (t : nat) : kernel :=
  set_ready k (alter (fun l => l ++ [t]) (Z.to_nat (priority k t)) (pxReadyTasksLists k))
    (Z.max (uxTopReadyPriority k) (priority k t)).

Lemma add_ready_ok s k t :
  kernel_inv s k -> known k t -> prvAddTaskToReadyQueue k t = Ok (added k t).
Proof.
  intros Hk Ht. destruct (ko_prio _ _ Hk t Ht) as [Hp _]. unfold prvAddTaskToReadyQueue, added.
  destruct (tcb_of_known _ _ Ht) as (b & -> & Hb). cbn [obind].
  assert (Hpb : priority k t = uxPriority b) by (unfold priority, tcb_get; by rewrite Hb). rewrite Hpb in *.
  pose proof (ko_ready_len _ _ Hk) as Hlen.
  destruct (rd_ok (pxReadyTasksLists k) (uxPriority b)) as (l & -> & Hl); [lia|]. cbn [obind].
  rewrite wr_ok by lia. cbn [obind]. f_equal. f_equal.
  - exact (list_insert_alter_Some _ _ (fun l => l ++ [t]) _ Hl).
  - destruct (Z.ltb_spec (uxTopReadyPriority k) (uxPriority b)); lia.
Qed.

Lemma occ_added s u k t :
  kernel_inv s k -> known k t ->
  occ u (ready_tasks (added k t)) = occ u (ready_tasks k) + Z.b2z (bool_decide (t = u)) /\
  occ u (generic_lists (added k t)) = occ u (generic_lists k) + Z.b2z (bool_decide (t = u)).
Proof.
  intros Hk Ht. destruct (ko_prio _ _ Hk t Ht) as [Hp _]. pose proof (ko_ready_len _ _ Hk) as Hlen.
  assert (Hr : occ u (ready_tasks (added k t)) = occ u (ready_tasks k) + Z.b2z (bool_decide (t = u))).
  { unfold ready_tasks, added. cbn [set_ready pxReadyTasksLists].
    destruct (lookup_lt_is_Some_2 (pxReadyTasksLists k) (Z.to_nat (priority k t))) as [l Hl]; [lia|].
    rewrite (occ_concat_alter u _ _ l) by done. rewrite occ_app. cbn [occ]. lia. }
  split; [done|]. rewrite !occ_generic, Hr. cbn. lia.
Qed.

Lemma added_ok s k t : kernel_inv s k -> known k t -> t ∉ generic_lists k -> kernel_inv s (added k t).
Proof.
  intros Hk Ht Hnew. pose proof (fun u => occ_added s u k t Hk Ht) as Hocc.
  destruct (ko_prio _ _ Hk t Ht) as [Hp _]. destruct Hk as [H1 H2 H3 H4 H5 H6 H7 H8 H9 H10 H11 H12 H13].
  apply occ_not_elem in Hnew. split; try done.
  - cbn. by rewrite length_alter.
  - intros u. rewrite (proj2 (Hocc u)). case_bool_decide as E; cbn; [subst; lia|]. rewrite Z.add_0_r. apply H2.
  - intros u Hu. apply occ_elem in Hu. rewrite (proj2 (Hocc u)) in Hu. case_bool_decide as E; [by subst|].
    apply H3, occ_elem. cbn in Hu. lia.
  - intros p l u Hl Hu. change (priority k u = Z.of_nat p). cbn in Hl.
    apply list_alter_inv in Hl. destruct Hl as [(-> & l0 & Hl0 & ->)|[Hne Hl]]; [|by eapply H6].
    apply elem_of_app in Hu as [Hu|Hu]; [by eapply H6|]. apply list_elem_of_singleton in Hu as ->. lia.
  - cbn. lia.
  - cbn. intros p l Hl Hpp. apply list_alter_inv in Hl.
    destruct Hl as [(-> & l0 & Hl0 & ->)|[Hne Hl]]; [lia|]. apply (H8 p l Hl). lia.
Qed.

(** *** The delayed lists *)

Lemma without_none t l : occ t l = 0 -> without t l = l.
Proof.
  induction l as [|u r IH]; cbn [occ]; intros H; [done|]. pose proof (occ_nonneg t r).
  unfold without. rewrite filter_cons. case_bool_decide as E; cbn in H; [lia|].
  rewrite decide_True by done. f_equal. apply IH. lia.
Qed.

Lemma sorted_insert_perm k key v t l :
  Forall (known k) l -> exists l', sorted_insert k key v t l = Ok l' /\ Permutation l' (t :: l).
Proof.
  induction l as [|u r IH]; intros Hk; cbn [sorted_insert]; [by exists [t]|].
  apply Forall_cons in Hk as [Hu Hk]. destruct (tcb_of_known _ _ Hu) as (b & -> & _). cbn [obind].
  destruct (key b <=? v); [|by exists (t :: u :: r)].
  destruct (IH Hk) as (l' & -> & Hp). cbn [obind]. exists (u :: l'). split; [done|].
  rewrite Hp. apply perm_swap.
Qed.

Lemma sorted_insert_wake k t l l' :
  sorted_insert k wake_time (wake k t) t l = Ok l' -> by_wake k l -> by_wake k l'.
Proof.
  unfold by_wake. revert l'. induction l as [|u r IH]; intros l'; cbn [sorted_insert]; intros E Hs.
  - injection E as <-. repeat constructor.
  - unfold tcb_of in E. destruct (tcbs k !! u) as [b|] eqn:Hb; [|done]. cbn [obind] in E.
    assert (Hw : wake k u = wake_time b) by (unfold wake, tcb_get; by rewrite Hb). rewrite <- Hw in E.
    cbn [map] in Hs. apply StronglySorted_inv in Hs as [Hs Hall]. destruct (Z.leb_spec (wake k u) (wake k t)) as [Hle|Hlt].
    + destruct (sorted_insert k wake_time (wake k t) t r) as [r'| |] eqn:Er; [|done..]. injection E as <-.
      cbn [map]. constructor; [by apply IH|].
      assert (Hp : Permutation r' (t :: r)).
      { clear -Er. revert r' Er. induction r as [|v r IH]; intros r'; cbn [sorted_insert]; [by intros [= <-]|].
        destruct (tcb_of k v) as [b| |]; [|done..]. cbn [obind]. destruct (_ <=? _); [|by intros [= <-]].
        destruct (sorted_insert k wake_time (wake k t) t r) as [r''| |]; [|done..]. intros [= <-].
        rewrite (IH r'' eq_refl). apply perm_swap. }
      rewrite Hp. cbn [map]. by constructor.
    + injection E as <-. cbn [map]. constructor; [by constructor|]. constructor; [lia|].
      eapply Forall_impl; [exact Hall|]. intros x; cbn. lia.
Qed.

Definition set_wake (k : kernel) (t : nat) (w : Z) : kernel :=
  match tcbs k !! t with
  | Some b => set_tcb k t (TCB (uxPriority b) (uxBasePriority b) (event_value b) w (pxStack b))
  | None => k
  end.

Lemma set_wake_known k t w u : known (set_wake k t w) u <-> known k u.
Proof.
  unfold set_wake, known. destruct (tcbs k !! t) as [b|] eqn:Hb; [|done]. cbn.
  destruct (decide (u = t)) as [->|]; [rewrite lookup_insert_eq, Hb; split; eauto|by rewrite lookup_insert_ne].
Qed.
Lemma set_wake_priority k t w u :
  priority (set_wake k t w) u = priority k u /\ base_priority (set_wake k t w) u = base_priority k u.
Proof.
  unfold set_wake, priority, base_priority, tcb_get. destruct (tcbs k !! t) as [b|] eqn:Hb; [|done]. cbn.
  destruct (decide (u = t)) as [->|]; [by rewrite lookup_insert_eq, Hb|by rewrite lookup_insert_ne].
Qed.
Lemma set_wake_wake k t w u :
  known k t -> wake (set_wake k t w) u = if bool_decide (u = t) then w else wake k u.
Proof.
  unfold set_wake, wake, tcb_get, known. intros [b ->]. cbn.
  case_bool_decide; [subst; by rewrite lookup_insert_eq|by rewrite lookup_insert_ne].
Qed.

Lemma set_wake_lists k t w :
  pxCurrentTCB (set_wake k t w) = pxCurrentTCB k /\
  pxReadyTasksLists (set_wake k t w) = pxReadyTasksLists k /\
  uxTopReadyPriority (set_wake k t w) = uxTopReadyPriority k /\
  generic_lists (set_wake k t w) = generic_lists k /\
  pxDelayedTaskList (set_wake k t w) = pxDelayedTaskList k /\
  pxOverflowDelayedTaskList (set_wake k t w) = pxOverflowDelayedTaskList k /\
  xTickCount (set_wake k t w) = xTickCount k.
Proof. unfold set_wake. by destruct (tcbs k !! t). Qed.

Lemma by_wake_ext k k' l : (forall u, u ∈ l -> wake k' u = wake k u) -> by_wake k l -> by_wake k' l.
Proof.
  intros He. unfold by_wake. replace (map (wake k') l) with (map (wake k) l); [done|].
  induction l as [|u r IH]; cbn; [done|]. rewrite IH by (intros; apply He; set_solver). f_equal.
  symmetry. apply He. set_solver.
Qed.

(** The wake time of a task that is not delayed. *)
Lemma set_wake_ok s k t w :
  kernel_inv s k -> known k t -> t ∉ generic_lists k -> kernel_inv s (set_wake k t w).
Proof.
  intros Hk Ht Hnew. pose proof (set_wake_lists k t w) as (E1 & E2 & E3 & E4 & E5 & E6 & E7).
  destruct Hk as [H1 H2 H3 H4 H5 H6 H7 H8 H9 H10 H11 H12 H13].
  assert (Hw : forall u, u ∈ pxDelayedTaskList k \/ u ∈ pxOverflowDelayedTaskList k -> wake (set_wake k t w) u = wake k u).
  { intros u Hu. rewrite set_wake_wake by done. rewrite bool_decide_false; [done|]. intros ->.
    apply Hnew. unfold generic_lists. set_solver. }
  split; rewrite ?E2, ?E3, ?E4, ?E5, ?E6, ?E7; try done.
  - intros u Hu. apply set_wake_known. auto.
  - destruct H4 as (c & Hc & Hcc). exists c. rewrite E1, set_wake_known. done.
  - intros u Hu. destruct (set_wake_priority k t w u) as [-> ->]. apply H5. by apply set_wake_known in Hu.
  - intros p l u Hl Hu. rewrite (proj1 (set_wake_priority k t w u)). by eapply H6.
  - eapply by_wake_ext; [|exact H9]. intros; apply Hw; auto.
  - eapply by_wake_ext; [|exact H10]. intros; apply Hw; auto.
  - intros u Hu. rewrite Hw by auto. auto.
  - intros u Hu. rewrite Hw by auto. auto.
Qed.

(** A task joins the delayed list its wake time belongs to. *)
Lemma insert_delayed_ok k t w :
  kernel_ok k -> known k t -> t ∉ generic_lists k -> wake k t = w -> 0 <= w < 2 ^ 32 -> w <> xTickCount k ->
  exists d o, (if w <? xTickCount k then
      let! o := sorted_insert k wake_time w t (pxOverflowDelayedTaskList k) in
      Ok (set_delayed k (pxDelayedTaskList k) o)
    else
      let! d := sorted_insert k wake_time w t (pxDelayedTaskList k) in
      Ok (set_delayed k d (pxOverflowDelayedTaskList k))) = Ok (set_delayed k d o) /\
    kernel_ok (set_delayed k d o) /\
    (if w <? xTickCount k
     then d = pxDelayedTaskList k /\ Permutation o (t :: pxOverflowDelayedTaskList k)
     else o = pxOverflowDelayedTaskList k /\ Permutation d (t :: pxDelayedTaskList k)).
Proof.
  intros Hk Hkn1 Hnew Ewt Hw Hne. apply occ_not_elem in Hnew.
  assert (Hkn : Forall (known k) (pxDelayedTaskList k) /\ Forall (known k) (pxOverflowDelayedTaskList k)).
  { split; apply Forall_forall; intros u Hu; apply (ko_known _ _ Hk); unfold generic_lists; set_solver. }
  destruct Hkn as [Hkd Hko]. rewrite occ_generic in Hnew.
  pose proof (occ_nonneg t (ready_tasks k)). pose proof (occ_nonneg t (pxDelayedTaskList k)).
  pose proof (occ_nonneg t (pxOverflowDelayedTaskList k)). pose proof (occ_nonneg t (xTasksWaitingTermination k)).
  assert (Hfin : forall d o, (forall u, occ u d + occ u o = occ u (t :: blocked_tasks k)) ->
    by_wake k d -> by_wake k o -> (forall u, u ∈ d -> xTickCount k - 0 < wake k u < 2 ^ 32) ->
    (forall u, u ∈ o -> 0 <= wake k u < xTickCount k) -> kernel_ok (set_delayed k d o)).
  { intros d o Hocc Hd Ho Hdw How. destruct Hk as [K1 K2 K3 K4 K5 K6 K7 K8 K9 K10 K11 K12 K13].
    assert (Hg : forall u, occ u (generic_lists (set_delayed k d o)) = occ u (generic_lists k) + Z.b2z (bool_decide (t = u))).
    { intros u. rewrite !occ_generic. cbn. specialize (Hocc u). cbn [occ] in Hocc. rewrite occ_blocked in Hocc.
      unfold ready_tasks. lia. }
    split; try done.
    - intros u. rewrite Hg. case_bool_decide as E; cbn; [subst; rewrite occ_generic; lia|].
      rewrite Z.add_0_r. apply K2.
    - intros u Hu. apply occ_elem in Hu. rewrite Hg in Hu. case_bool_decide as E; [by subst|].
      apply K3, occ_elem. cbn in Hu. lia. }
  destruct (Z.ltb_spec w (xTickCount k)) as [Hlt|Hge].
  - destruct (sorted_insert_perm k wake_time w t _ Hko) as (o & E & Hp). rewrite E. cbn [obind].
    eexists _, o. split; [done|]. split; [|by split]. apply Hfin.
    + intros u. rewrite (occ_perm u _ _ Hp). cbn. rewrite occ_blocked. lia.
    + apply (ko_delayed_sorted _ _ Hk).
    + rewrite <- Ewt in E. eapply sorted_insert_wake; [exact E|apply (ko_overflow_sorted _ _ Hk)].
    + apply (ko_delayed _ _ Hk).
    + intros u. rewrite Hp. intros [->|Hu]%elem_of_cons; [lia|]. by apply (ko_overflow _ _ Hk).
  - destruct (sorted_insert_perm k wake_time w t _ Hkd) as (d & E & Hp). rewrite E. cbn [obind].
    eexists d, _. split; [done|]. split; [|by split]. apply Hfin.
    + intros u. rewrite (occ_perm u _ _ Hp). cbn. rewrite occ_blocked. lia.
    + rewrite <- Ewt in E. eapply sorted_insert_wake; [exact E|apply (ko_delayed_sorted _ _ Hk)].
    + apply (ko_overflow_sorted _ _ Hk).
    + intros u. rewrite Hp. intros [->|Hu]%elem_of_cons; [lia|]. by apply (ko_delayed _ _ Hk).
    + apply (ko_overflow _ _ Hk).
Qed.

Lemma add_delayed_ok k t w :
  kernel_ok k -> known k t -> t ∉ generic_lists k -> 0 <= w < 2 ^ 32 -> w <> xTickCount k ->
  exists d o, add_delayed k t w = Ok (set_delayed (set_wake k t w) d o) /\
    kernel_ok (set_delayed (set_wake k t w) d o) /\
    (if w <? xTickCount k
     then d = pxDelayedTaskList k /\ Permutation o (t :: pxOverflowDelayedTaskList k)
     else o = pxOverflowDelayedTaskList k /\ Permutation d (t :: pxDelayedTaskList k)).
Proof.
  intros Hk Ht Hnew Hw Hne. pose proof (set_wake_lists k t w) as (E1 & E2 & E3 & E4 & E5 & E6 & E7).
  pose proof (set_wake_wake k t w t Ht) as Ewt. rewrite bool_decide_true in Ewt by done.
  pose proof (insert_delayed_ok (set_wake k t w) t w (set_wake_ok 0 k t w Hk Ht Hnew)) as Hins.
  rewrite set_wake_known, E4, E5, E6, E7 in Hins.
  destruct (Hins Ht Hnew Ewt Hw Hne) as (d & o & E & Hok & Hl). exists d, o. split; [|done].
  unfold add_delayed. destruct (tcb_of_known _ _ Ht) as (b & -> & Hb). cbn [obind]. rewrite <- E.
  unfold set_wake. by rewrite Hb.
Qed.

(** *** Tasks that become ready *)

(** [k'] is [k] with the tasks [ts] added to the ready lists; the delayed and
    pending lists aside. *)
Record moved (k k' : kernel) (ts : list nat) : Prop := Moved {
  mv_tcbs : tcbs k' = tcbs k;
  mv_current : pxCurrentTCB k' = pxCurrentTCB k;
  mv_ready : forall u, occ u (ready_tasks k') = occ u (ready_tasks k) + occ u ts;
  mv_termination : xTasksWaitingTermination k' = xTasksWaitingTermination k;
  mv_number : uxCurrentNumberOfTasks k' = uxCurrentNumberOfTasks k;
  mv_suspended : uxSchedulerSuspended k' = uxSchedulerSuspended k;
}.

Lemma moved_refl k : moved k k [].
Proof. split; try done. intros u. cbn. lia. Qed.

Lemma moved_trans k1 k2 k3 ts us : moved k1 k2 ts -> moved k2 k3 us -> moved k1 k3 (ts ++ us).
Proof.
  intros [H1 H2 H3 H4 H5 H6] [G1 G2 G3 G4 G5 G6]. split; try congruence.
  intros u. rewrite G3, H3, occ_app. lia.
Qed.

Lemma moved_known k k' ts t : moved k k' ts -> known k t -> known k' t.
Proof. intros [E _ _ _ _ _]. unfold known. by rewrite E. Qed.

(** A delayed task moves to its ready list. *)
Definition readied (k : kernel) (t : nat) : kernel := added (removed k t) t.

Lemma readied_ok s k t : kernel_inv s k -> t ∈ generic_lists k -> kernel_inv s (readied k t).
Proof.
  intros Hk Ht. pose proof (ko_known _ _ Hk t Ht) as Hkn. apply added_ok; [by apply removed_ok|done|].
  apply occ_not_elem. rewrite (proj2 (occ_removed t k t)). by rewrite bool_decide_true.
Qed.

Lemma readied_moved s k t :
  kernel_inv s k -> t ∈ blocked_tasks k ->
  moved k (readied k t) [t] /\
  pxDelayedTaskList (readied k t) = without t (pxDelayedTaskList k) /\
  pxOverflowDelayedTaskList (readied k t) = without t (pxOverflowDelayedTaskList k) /\
  xPendingReadyList (readied k t) = xPendingReadyList k /\
  xTickCount (readied k t) = xTickCount k /\ xNumOfOverflows (readied k t) = xNumOfOverflows k /\
  uxMissedTicks (readied k t) = uxMissedTicks k /\ xMissedYield (readied k t) = xMissedYield k.
Proof.
  intros Hk Ht. pose proof (ko_once _ _ Hk t) as H1. rewrite occ_generic in H1.
  apply occ_elem in Ht. rewrite occ_blocked in Ht.
  pose proof (occ_nonneg t (ready_tasks k)). pose proof (occ_nonneg t (xTasksWaitingTermination k)).
  assert (Hg : t ∈ generic_lists k) by (apply occ_elem; rewrite occ_generic; lia).
  split; [|done]. split; try done.
  - intros u. unfold readied. rewrite (proj1 (occ_added s u _ t (removed_ok s k t Hk) (ko_known _ _ Hk t Hg))).
    rewrite (proj1 (occ_removed u k t)). cbn [occ].
    destruct (decide (u = t)) as [->|]; [rewrite bool_decide_true by done; lia|].
    rewrite (bool_decide_false (u = t)), bool_decide_false by congruence. lia.
  - cbn. apply without_none. lia.
Qed.

Lemma ready_step s k t :
  kernel_inv s k -> t ∈ generic_lists k ->
  remove_generic k t = Ok (removed k t) /\ prvAddTaskToReadyQueue (removed k t) t = Ok (readied k t).
Proof.
  intros Hk Ht. split; [by apply remove_generic_ok|].
  apply (add_ready_ok s); [by apply removed_ok|]. exact (ko_known _ _ Hk t Ht).
Qed.

Lemma set_pending_ok s k l : kernel_inv s k -> kernel_inv s (set_pending k l).
Proof. intros []. by split. Qed.

Lemma set_pending_id k l : xPendingReadyList k = l -> set_pending k l = k.
Proof. destruct k. cbn. by intros <-. Qed.

(** *** The tick *)

Lemma wake_tcb k t b : tcbs k !! t = Some b -> wake k t = wake_time b.
Proof. unfold wake, tcb_get. by intros ->. Qed.

Lemma wake_set_tick k n o t : wake (set_tick k n o) t = wake k t.
Proof. done. Qed.
Lemma wake_set_delayed k d o t : wake (set_delayed k d o) t = wake k t.
Proof. done. Qed.

Lemma check_delayed_ok k dl :
  kernel_inv 1 k -> pxDelayedTaskList k = dl -> xPendingReadyList k = [] ->
  exists k' woken, check_delayed k dl = Ok (k', woken) /\ kernel_ok k' /\ moved k k' woken /\
    dl = woken ++ pxDelayedTaskList k' /\ (forall t, t ∈ woken -> wake k t = xTickCount k) /\
    pxOverflowDelayedTaskList k' = pxOverflowDelayedTaskList k /\ xPendingReadyList k' = [] /\
    xTickCount k' = xTickCount k /\ xNumOfOverflows k' = xNumOfOverflows k /\
    uxMissedTicks k' = uxMissedTicks k /\ xMissedYield k' = xMissedYield k.
Proof.
  revert k. induction dl as [|t dl IH]; intros k Hk Hdl Hp; cbn [check_delayed].
  - exists k, []. split; [done|]. split; [|split; [apply moved_refl|split_and!; try done; set_solver]].
    destruct Hk as [H1 H2 H3 H4 H5 H6 H7 H8 H9 H10 H11 H12 H13]. split; try done.
    rewrite Hdl. set_solver.
  - assert (Hg : t ∈ generic_lists k) by (unfold generic_lists; rewrite Hdl; set_solver).
    assert (Hbl : t ∈ blocked_tasks k) by (unfold blocked_tasks; rewrite Hdl; set_solver).
    destruct (tcb_of_known _ _ (ko_known _ _ Hk t Hg)) as (b & -> & Hb). cbn [obind].
    rewrite <- (wake_tcb _ _ _ Hb). destruct (Z.ltb_spec (xTickCount k) (wake k t)) as [Hlt|Hle].
    + exists k, []. split; [done|]. split; [|split; [apply moved_refl|split_and!; try done; set_solver]].
      pose proof (ko_delayed_sorted _ _ Hk) as Hs. unfold by_wake in Hs. rewrite Hdl in Hs. cbn [map] in Hs.
      apply StronglySorted_inv in Hs as [_ Hall]. rewrite Forall_forall in Hall.
      destruct Hk as [H1 H2 H3 H4 H5 H6 H7 H8 H9 H10 H11 H12 H13]. split; try done.
      intros u Hu. pose proof (H11 u Hu). rewrite Hdl in Hu. apply elem_of_cons in Hu as [->|Hu]; [lia|].
      specialize (Hall (wake k u) (list_elem_of_fmap_2 _ _ _ Hu)). lia.
    + destruct (ready_step 1 k t Hk Hg) as [-> Hadd]. cbn [obind].
      assert (Esp : set_pending (removed k t) (without t (xPendingReadyList (removed k t))) = removed k t).
      { change (xPendingReadyList (removed k t)) with (xPendingReadyList k). rewrite Hp. by apply set_pending_id. }
      rewrite Esp, Hadd. cbn [obind]. clear Esp Hadd.
      destruct (readied_moved 1 k t Hk Hbl) as (Hmv & D1 & D2 & D3 & D4 & D5 & D6 & D7).
      pose proof (ko_once _ _ Hk t) as Honce. rewrite occ_generic, Hdl in Honce. cbn [occ] in Honce.
      rewrite bool_decide_true in Honce by done. cbn [Z.b2z] in Honce.
      pose proof (occ_nonneg t (ready_tasks k)). pose proof (occ_nonneg t dl).
      pose proof (occ_nonneg t (pxOverflowDelayedTaskList k)). pose proof (occ_nonneg t (xTasksWaitingTermination k)).
      rewrite Hdl in D1. unfold without in D1. rewrite filter_cons, decide_False in D1 by tauto.
      fold (without t dl) in D1. rewrite without_none in D1 by lia.
      rewrite without_none in D2 by lia. rewrite Hp in D3.
      destruct (IH (readied k t) (readied_ok 1 k t Hk Hg) D1 D3) as
        (k' & woken & -> & Hok & Hmv' & Hdl' & Hw & G1 & G2 & G3 & G4 & G5 & G6). cbn [obind].
      exists k', (t :: woken). split; [done|]. split; [done|]. split; [exact (moved_trans _ _ _ _ _ Hmv Hmv')|].
      split; [cbn; by rewrite <- Hdl'|]. split; [|split_and!; congruence].
      intros u [->|Hu]%elem_of_cons.
      * pose proof (ko_delayed _ _ Hk t). rewrite Hdl in *. specialize (H3 ltac:(set_solver)). lia.
      * specialize (Hw u Hu). unfold wake, tcb_get in *. rewrite (mv_tcbs _ _ _ Hmv) in Hw. congruence.
Qed.

(** How many ticks a blocked task still has to wait. *)
Definition remaining (k : kernel) (t : nat) : option Z :=
  if decide (t ∈ pxDelayedTaskList k) then Some (wake k t - xTickCount k)
  else if decide (t ∈ pxOverflowDelayedTaskList k) then Some (2 ^ 32 + wake k t - xTickCount k)
  else None.

Lemma tick_ok k :
  kernel_ok k -> uxSchedulerSuspended k = 0 -> xPendingReadyList k = [] ->
  exists k' woken, vTaskIncrementTick k = Ok (k', woken) /\ kernel_ok k' /\ moved k k' woken /\
    (forall u, occ u (blocked_tasks k) = occ u (blocked_tasks k') + occ u woken) /\
    xPendingReadyList k' = [] /\ xTickCount k' = u32 (xTickCount k + 1) /\
    uxMissedTicks k' = uxMissedTicks k /\ xMissedYield k' = xMissedYield k /\
    (forall t, t ∈ woken <-> remaining k t = Some 1) /\
    (forall t r, remaining k t = Some r -> 1 < r -> remaining k' t = Some (r - 1)).
Proof.
  intros Hk Hs Hp. unfold vTaskIncrementTick. rewrite Hs. cbn [Z.eqb]. pose proof (ko_tick _ _ Hk) as Ht.
  set (n := u32 (xTickCount k + 1)).
  set (k1 := if n =? 0 then _ else _).
  assert (Hk1 : kernel_inv 1 k1 /\ moved k k1 [] /\ xPendingReadyList k1 = [] /\ xTickCount k1 = n /\
    uxMissedTicks k1 = uxMissedTicks k /\ xMissedYield k1 = xMissedYield k /\
    (forall u, occ u (blocked_tasks k1) = occ u (blocked_tasks k)) /\
    (forall t r, remaining k t = Some r <-> remaining k1 t = Some (r - 1))).
  { destruct (Z.eq_dec (xTickCount k) (2 ^ 32 - 1)) as [E|E].
    - assert (En : n = 0) by (unfold n; rewrite E; reflexivity). unfold k1. rewrite En. cbn [Z.eqb].
      assert (Hd : pxDelayedTaskList k = []).
      { destruct (pxDelayedTaskList k) as [|t l] eqn:Ed; [done|].
        pose proof (ko_delayed _ _ Hk t). rewrite Ed in *. specialize (H ltac:(set_solver)). lia. }
      destruct Hk as [H1 H2 H3 H4 H5 H6 H7 H8 H9 H10 H11 H12 H13]. split.
      + split; try done; cbn.
        * intros t. specialize (H2 t). unfold generic_lists in *. cbn. rewrite !occ_app in *. lia.
        * intros t Hg. apply H3. apply occ_elem in Hg. apply occ_elem. unfold generic_lists in *. cbn in Hg.
          rewrite !occ_app in *. lia.
        * intros t Hg. specialize (H12 t Hg). change (0 - 1 < wake k t < 2 ^ 32). lia.
        * rewrite Hd. set_solver.
      + split; [split; try done; intros; cbn; unfold ready_tasks; cbn; lia|].
        do 4 (split; [done|]). split; [intros u; rewrite !occ_blocked; cbn; lia|].
        intros t r. unfold remaining. cbn [set_tick set_delayed pxDelayedTaskList pxOverflowDelayedTaskList xTickCount].
        rewrite wake_set_tick, wake_set_delayed, Hd, E.
        rewrite (decide_False (P := t ∈ [])) by set_solver. case_decide; [|split; done].
        split; intros [= ?]; f_equal; lia.
    - assert (En : n = xTickCount k + 1) by (apply u32_small; lia).
      unfold k1. destruct (Z.eqb_spec n 0); [lia|].
      destruct Hk as [H1 H2 H3 H4 H5 H6 H7 H8 H9 H10 H11 H12 H13]. split.
      + split; try done; cbn; [| |lia].
        * intros t Hg. specialize (H11 t Hg). change (n - 1 < wake k t < 2 ^ 32). lia.
        * intros t Hg. specialize (H12 t Hg). change (0 <= wake k t < n). lia.
      + split; [split; try done; intros; cbn; unfold ready_tasks; cbn; lia|].
        do 4 (split; [done|]). split; [done|].
        intros t r. unfold remaining. cbn [set_tick pxDelayedTaskList pxOverflowDelayedTaskList xTickCount].
        rewrite wake_set_tick, En.
        repeat case_decide; split; intros [= ?]; f_equal; lia. }
  clearbody k1. destruct Hk1 as (Hk1 & Hm1 & Hp1 & Hn1 & Hms1 & Hy1 & Hb1 & Hr1).
  unfold prvCheckDelayedTasks.
  destruct (check_delayed_ok k1 _ Hk1 eq_refl Hp1) as (k' & woken & -> & Hok & Hmv & Hdl & Hw & G1 & G2 & G3 & G4 & G5 & G6).
  assert (Hbl : forall u, occ u (blocked_tasks k1) = occ u (blocked_tasks k') + occ u woken).
  { intros u. rewrite !occ_blocked, Hdl, G1, occ_app. lia. }
  assert (Honce : forall u, occ u (blocked_tasks k1) <= 1).
  { intros u. pose proof (ko_once _ _ Hk1 u) as H. rewrite occ_generic in H. rewrite occ_blocked.
    pose proof (occ_nonneg u (ready_tasks k1)). pose proof (occ_nonneg u (xTasksWaitingTermination k1)). lia. }
  assert (Hwk : forall u, wake k' u = wake k1 u) by (intros u; unfold wake, tcb_get; by rewrite (mv_tcbs _ _ _ Hmv)).
  exists k', woken. split; [done|]. split; [done|]. split; [exact (moved_trans _ _ _ _ _ Hm1 Hmv)|].
  split; [intros u; by rewrite <- Hb1|]. split; [done|]. split; [congruence|]. split; [congruence|].
  split; [congruence|]. split.
  - intros t. rewrite Hr1. unfold remaining. rewrite Hdl. split.
    + intros Ht'. specialize (Hw t Ht'). rewrite decide_True by (rewrite elem_of_app; tauto). f_equal. lia.
    + case_decide as Hin.
      * apply elem_of_app in Hin as [Hin|Hin]; [done|]. intros [= E].
        pose proof (ko_delayed _ _ Hok t Hin). rewrite Hwk in *. lia.
      * case_decide as Hin2; [|done]. intros [= E].
        pose proof (ko_overflow _ _ Hk1 t Hin2). pose proof (ko_tick _ _ Hk1). lia.
  - intros t r Hrem Hr. apply Hr1 in Hrem. rewrite <- Hrem. unfold remaining in *.
    rewrite G1, G3, Hwk. rewrite Hdl. rewrite Hdl in Hrem.
    destruct (decide (t ∈ woken)) as [Hin|Hin].
    + specialize (Hw t Hin). rewrite decide_True in Hrem by (rewrite elem_of_app; tauto). injection Hrem as Hrem. lia.
    + destruct (decide (t ∈ pxDelayedTaskList k')) as [Hin'|Hin'].
      * by rewrite decide_True by (rewrite elem_of_app; tauto).
      * by rewrite (decide_False (P := t ∈ woken ++ _)) by (rewrite elem_of_app; tauto).
Qed.

(** *** Resumption *)

(** The tasks on the pending list are still on a delayed list. *)
Definition pending_ok (k : kernel) : Prop :=
  (forall t, t ∈ xPendingReadyList k -> t ∈ blocked_tasks k) /\ (forall t, occ t (xPendingReadyList k) <= 1).

Lemma blocked_generic k t : t ∈ blocked_tasks k -> t ∈ generic_lists k.
Proof. rewrite !occ_elem, occ_generic, occ_blocked. pose proof (occ_nonneg t (ready_tasks k)).
  pose proof (occ_nonneg t (xTasksWaitingTermination k)). lia. Qed.

Lemma readied_blocked s k t u :
  kernel_inv s k -> t ∈ blocked_tasks k ->
  occ u (blocked_tasks k) = occ u (blocked_tasks (readied k t)) + occ u [t].
Proof.
  intros Hk Ht. destruct (readied_moved s k t Hk Ht) as (_ & D1 & D2 & _).
  rewrite !occ_blocked, D1, D2. unfold without. rewrite !occ_filter. cbn [occ].
  pose proof (ko_once _ _ Hk t) as H1. rewrite occ_generic in H1. apply occ_elem in Ht. rewrite occ_blocked in Ht.
  pose proof (occ_nonneg t (ready_tasks k)). pose proof (occ_nonneg t (xTasksWaitingTermination k)).
  destruct (decide (u = t)) as [->|].
  - rewrite !bool_decide_true by done. cbn. lia.
  - rewrite !bool_decide_false by congruence. cbn. lia.
Qed.

Lemma current_ok s k : kernel_inv s k -> exists c b, current k = Ok c /\ tcb_of k c = Ok b /\ pxCurrentTCB k = Some c.
Proof.
  intros Hk. destruct (ko_current _ _ Hk) as (c & Hc & Hkn). destruct (tcb_of_known _ _ Hkn) as (b & Hb & _).
  exists c, b. unfold current. by rewrite Hc.
Qed.

Lemma resume_pending_ok k y :
  kernel_ok k -> pending_ok k ->
  exists k' y', resume_pending k (xPendingReadyList k) y = Ok (k', y') /\ kernel_ok k' /\
    moved k k' (xPendingReadyList k) /\
    (forall u, occ u (blocked_tasks k) = occ u (blocked_tasks k') + occ u (xPendingReadyList k)) /\
    xPendingReadyList k' = [] /\ uxMissedTicks k' = uxMissedTicks k.
Proof.
  remember (xPendingReadyList k) as ps eqn:Hps. revert k y Hps.
  induction ps as [|t r IH]; intros k y Hps Hk [Hbl Hnd]; rewrite <- Hps in *; cbn [resume_pending].
  - exists k, y. split; [done|]. split; [done|]. split; [apply moved_refl|]. split; [|done]. intros u. cbn. lia.
  - set (k0 := set_pending k r). assert (Hk0 : kernel_ok k0) by by apply set_pending_ok.
    assert (Ht : t ∈ blocked_tasks k0) by (apply Hbl; set_solver).
    destruct (ready_step 0 k0 t Hk0 (blocked_generic _ _ Ht)) as [-> Hadd]. cbn [obind]. rewrite Hadd. cbn [obind].
    clear Hadd. pose proof (readied_ok 0 k0 t Hk0 (blocked_generic _ _ Ht)) as Hk1.
    destruct (readied_moved 0 k0 t Hk0 Ht) as (Hmv & D1 & D2 & D3 & D4 & D5 & D6 & D7).
    assert (Hmv0 : moved k (readied k0 t) [t]) by (destruct Hmv; by split).
    pose proof (fun u => readied_blocked 0 k0 t u Hk0 Ht) as Hrb.
    set (k1 := readied k0 t) in *. clearbody k1.
    assert (Hkn : known k1 t).
    { apply (moved_known _ _ _ _ Hmv0). apply (ko_known _ _ Hk). apply blocked_generic, Hbl. set_solver. }
    destruct (tcb_of_known _ _ Hkn) as (b & -> & _). destruct (current_ok 0 k1 Hk1) as (c & cb & -> & Ecb & _).
    cbn [obind]. rewrite Ecb. cbn [obind].
    assert (Hpo : pending_ok k1).
    { split; rewrite D3; cbn [k0 set_pending xPendingReadyList].
      - intros u Hu. assert (u <> t).
        { intros ->. specialize (Hnd t). cbn in Hnd. rewrite bool_decide_true in Hnd by done.
          apply occ_elem in Hu. cbn in Hnd. lia. }
        specialize (Hrb u). cbn [occ] in Hrb. rewrite bool_decide_false in Hrb by congruence. cbn in Hrb.
        apply occ_elem. assert (Hu' : u ∈ blocked_tasks k) by (apply Hbl; set_solver). apply occ_elem in Hu'.
        unfold k0, blocked_tasks in *. cbn in Hrb. lia.
      - intros u. specialize (Hnd u). cbn in Hnd. pose proof (b2z_bounds (bool_decide (t = u))). lia. }
    destruct (IH k1 (y || (uxPriority cb <=? uxPriority b)) (eq_sym D3) Hk1 Hpo)
      as (k' & y' & -> & Hok & Hmv' & Hb' & Hp' & Hms').
    exists k', y'. split; [done|]. split; [done|]. split; [exact (moved_trans _ _ _ _ _ Hmv0 Hmv')|].
    split; [|split; [done|by rewrite Hms', D6]].
    intros u. specialize (Hrb u). rewrite Hb' in Hrb. cbn [occ] in *. unfold k0, blocked_tasks in *. cbn in Hrb. lia.
Qed.

Lemma set_missed_ticks_ok s k n : kernel_inv s k -> kernel_inv s (set_missed_ticks k n).
Proof. intros []. by split. Qed.

Lemma missed_ticks_ok n k :
  kernel_ok k -> uxSchedulerSuspended k = 0 -> xPendingReadyList k = [] -> uxMissedTicks k = Z.of_nat n ->
  Z.of_nat n < 2 ^ 32 ->
  exists k' woken, missed_ticks n k = Ok (k', woken) /\ kernel_ok k' /\ moved k k' woken /\
    (forall u, occ u (blocked_tasks k) = occ u (blocked_tasks k') + occ u woken) /\
    xPendingReadyList k' = [] /\ uxMissedTicks k' = 0.
Proof.
  revert k. induction n as [|n IH]; intros k Hk Hs Hp Hm Hlt; cbn [missed_ticks].
  - exists k, []. split; [done|]. split; [done|]. split; [apply moved_refl|]. split; [intros; cbn; lia|done].
  - destruct (tick_ok k Hk Hs Hp) as (k1 & w1 & -> & Hk1 & Hmv & Hb & Hp1 & _ & Hms & _). cbn [obind].
    rewrite Hms, Hm, u32_small by lia.
    destruct (IH (set_missed_ticks k1 (Z.of_nat (S n) - 1))) as (k' & w2 & -> & Hok & Hmv' & Hb' & Hp' & Hm').
    + by apply set_missed_ticks_ok.
    + cbn. by rewrite (mv_suspended _ _ _ Hmv).
    + done.
    + cbn. lia.
    + lia.
    + cbn [obind]. exists k', (w1 ++ w2). split; [done|]. split; [done|]. split.
      { apply (moved_trans _ k1); [done|]. destruct Hmv'. by split. }
      split; [|done]. intros u. rewrite occ_app, Hb. specialize (Hb' u).
      unfold blocked_tasks in *. cbn in Hb'. lia.
Qed.

(** What the queues need to know of a kernel operation. *)
Record keeps_tasks (k k' : kernel) : Prop := KeepsTasks {
  kt_known : forall t, known k t -> known k' t;
  kt_current : pxCurrentTCB k' = pxCurrentTCB k;
  kt_number : uxCurrentNumberOfTasks k' = uxCurrentNumberOfTasks k;
}.

Lemma moved_keeps k k' ts : moved k k' ts -> keeps_tasks k k'.
Proof. intros H. split; [intros t; by apply (moved_known _ _ _ t H)|by destruct H|by destruct H]. Qed.

Lemma keeps_tasks_refl k : keeps_tasks k k.
Proof. by split. Qed.

Lemma set_suspended_ok s k n : kernel_inv s k -> kernel_inv s (set_suspended k n).
Proof. intros []. by split. Qed.

Lemma resume_all_ok k :
  kernel_ok k -> pending_ok k -> uxSchedulerSuspended k = 1 -> 0 < uxCurrentNumberOfTasks k ->
  0 <= uxMissedTicks k < 2 ^ 32 ->
  exists y k' woken, xTaskResumeAll k = Ok (y, k', woken) /\ kernel_ok k' /\ keeps_tasks k k' /\
    uxSchedulerSuspended k' = 0 /\ xPendingReadyList k' = [] /\ uxMissedTicks k' = 0 /\
    (forall u, occ u (ready_tasks k') = occ u (ready_tasks k) + occ u (xPendingReadyList k) + occ u woken) /\
    (forall u, occ u (blocked_tasks k) = occ u (blocked_tasks k') + occ u (xPendingReadyList k) + occ u woken).
Proof.
  intros Hk Hpo Hs Hn Hm. unfold xTaskResumeAll. rewrite Hs. change (u32 (1 - 1)) with 0.
  set (k0 := set_suspended k 0). assert (Hk0 : kernel_ok k0) by by apply set_suspended_ok.
  change (uxSchedulerSuspended k0) with 0. change (uxCurrentNumberOfTasks k0) with (uxCurrentNumberOfTasks k).
  cbn [Z.eqb]. destruct (Z.ltb_spec 0 (uxCurrentNumberOfTasks k)); [|lia]. cbn [andb].
  destruct (resume_pending_ok k0 false Hk0 Hpo) as (k1 & y1 & -> & Hk1 & Hmv1 & Hb1 & Hp1 & Hms1). cbn [obind].
  assert (Hs1 : uxSchedulerSuspended k1 = 0) by (by rewrite (mv_suspended _ _ _ Hmv1)).
  destruct (missed_ticks_ok (Z.to_nat (uxMissedTicks k1)) k1 Hk1 Hs1 Hp1) as (k2 & woken & -> & Hk2 & Hmv2 & Hb2 & Hp2 & Hms2).
  { rewrite Hms1. cbn. lia. }
  { rewrite Hms1. cbn. lia. }
  cbn [obind].
  assert (Hmv : moved k0 k2 (xPendingReadyList k ++ woken)) by exact (moved_trans _ _ _ _ _ Hmv1 Hmv2).
  assert (Hr : forall u, occ u (ready_tasks k2) = occ u (ready_tasks k) + occ u (xPendingReadyList k) + occ u woken).
  { intros u. rewrite (mv_ready _ _ _ Hmv), occ_app. change (ready_tasks k0) with (ready_tasks k). lia. }
  assert (Hb : forall u, occ u (blocked_tasks k) = occ u (blocked_tasks k2) + occ u (xPendingReadyList k) + occ u woken).
  { intros u. specialize (Hb1 u). specialize (Hb2 u). change (blocked_tasks k0) with (blocked_tasks k) in Hb1.
    change (xPendingReadyList k0) with (xPendingReadyList k) in Hb1. lia. }
  assert (Hsu : uxSchedulerSuspended k2 = 0) by (by rewrite (mv_suspended _ _ _ Hmv)).
  assert (Hkt : keeps_tasks k k2) by (destruct (moved_keeps _ _ _ Hmv); by split).
  destruct (y1 || (0 <? uxMissedTicks k1) || xMissedYield k2).
  - eexists _, _, woken. split; [done|]. split; [destruct Hk2; by split|].
    split; [destruct Hkt; by split|]. do 3 (split; [done|]). by split.
  - eexists _, _, woken. split; [done|]. split; [done|]. split; [done|]. do 3 (split; [done|]). by split.
Qed.

(** *** Event lists *)

Lemma removed_ready s k t :
  kernel_inv s k -> t ∈ ready_tasks k ->
  (forall u, occ u (ready_tasks (removed k t)) = occ u (ready_tasks k) - Z.b2z (bool_decide (t = u))) /\
  pxDelayedTaskList (removed k t) = pxDelayedTaskList k /\
  pxOverflowDelayedTaskList (removed k t) = pxOverflowDelayedTaskList k /\
  t ∈ generic_lists k /\ t ∉ generic_lists (removed k t).
Proof.
  intros Hk Ht. pose proof (ko_once _ _ Hk t) as H1. rewrite occ_generic in H1. apply occ_elem in Ht.
  pose proof (occ_nonneg t (pxDelayedTaskList k)). pose proof (occ_nonneg t (pxOverflowDelayedTaskList k)).
  pose proof (occ_nonneg t (xTasksWaitingTermination k)). split.
  { intros u. rewrite (proj1 (occ_removed u k t)). destruct (decide (u = t)) as [->|].
    - rewrite !bool_decide_true by done. cbn. lia.
    - rewrite !bool_decide_false by congruence. cbn. lia. }
  split; [cbn; apply without_none; lia|]. split; [cbn; apply without_none; lia|]. split.
  - apply occ_elem. rewrite occ_generic. lia.
  - apply occ_not_elem. rewrite (proj2 (occ_removed t k t)). by rewrite bool_decide_true.
Qed.

(** The current task, which is ready, blocks for [n] ticks. *)
Lemma block_current_ok k t n :
  kernel_ok k -> t ∈ ready_tasks k -> 0 < n < 2 ^ 32 ->
  exists k', remove_generic k t = Ok (removed k t) /\
    add_delayed (removed k t) t (u32 (xTickCount k + n)) = Ok k' /\ kernel_ok k' /\ keeps_tasks k k' /\
    (forall u, occ u (ready_tasks k') = occ u (ready_tasks k) - Z.b2z (bool_decide (t = u))) /\
    (forall u, occ u (blocked_tasks k') = occ u (blocked_tasks k) + Z.b2z (bool_decide (t = u))) /\
    remaining k' t = Some n /\
    xPendingReadyList k' = xPendingReadyList k /\ uxSchedulerSuspended k' = uxSchedulerSuspended k /\
    uxMissedTicks k' = uxMissedTicks k /\ yields k' = yields k.
Proof.
  intros Hk Ht Hn. destruct (removed_ready 0 k t Hk Ht) as (Hr & D1 & D2 & Hg & Hng).
  pose proof (removed_ok 0 k t Hk) as Hk1. pose proof (ko_known _ _ Hk t Hg) as Hkn.
  pose proof (ko_tick _ _ Hk) as Htick. change (xTickCount k) with (xTickCount (removed k t)) in *.
  set (k1 := removed k t) in *. set (w := u32 (xTickCount k1 + n)).
  assert (Hw : 0 <= w < 2 ^ 32) by apply u32_range.
  assert (Hwn : w = xTickCount k1 + n /\ xTickCount k1 < w \/ w = xTickCount k1 + n - 2 ^ 32 /\ w < xTickCount k1).
  { unfold w. destruct (Z.ltb_spec (xTickCount k1 + n) (2 ^ 32)).
    - left. rewrite u32_small; lia.
    - right. unfold u32. rewrite <- (Z_mod_plus_full _ (-1)), Z.mod_small; lia. }
  destruct (add_delayed_ok k1 t w Hk1 Hkn Hng Hw ltac:(lia)) as (d & o & E & Hok & Hdo).
  eexists. split; [by apply remove_generic_ok|]. split; [exact E|]. split; [done|].
  pose proof (set_wake_lists k1 t w) as (E1 & E2 & E3 & E4 & E5 & E6 & E7).
  assert (Hkk : forall u, known (set_wake k1 t w) u <-> known k u) by (intros u; exact (set_wake_known k1 t w u)).
  assert (Erest : xPendingReadyList (set_wake k1 t w) = xPendingReadyList k1 /\
    uxSchedulerSuspended (set_wake k1 t w) = uxSchedulerSuspended k1 /\
    uxMissedTicks (set_wake k1 t w) = uxMissedTicks k1 /\
    uxCurrentNumberOfTasks (set_wake k1 t w) = uxCurrentNumberOfTasks k1 /\
    yields (set_wake k1 t w) = yields k1).
  { unfold set_wake. by destruct (tcbs k1 !! t). }
  destruct Erest as (R1 & R2 & R3 & R4 & R5).
  split; [split; cbn; [intros u; apply Hkk|by rewrite E1|by rewrite R4]|]. split.
  { intros u. rewrite <- Hr. unfold ready_tasks. cbn. by rewrite E2. }
  split; [|split; [|split; [exact R1|split; [exact R2|split; [exact R3|exact R5]]]]].
  - intros u. rewrite !occ_blocked. cbn [set_delayed pxDelayedTaskList pxOverflowDelayedTaskList].
    rewrite <- D1, <- D2. destruct (Z.ltb_spec w (xTickCount k1)); destruct Hdo as [-> Hp];
      rewrite (occ_perm u _ _ Hp); cbn [occ]; lia.
  - unfold remaining. cbn [set_delayed pxDelayedTaskList pxOverflowDelayedTaskList xTickCount].
    rewrite wake_set_delayed, E7, (set_wake_wake k1 t w t Hkn), bool_decide_true by done.
    destruct (Z.ltb_spec w (xTickCount k1)); destruct Hdo as [-> Hp].
    + rewrite decide_False.
      * rewrite decide_True by (rewrite Hp; apply list_elem_of_here). f_equal. lia.
      * intros Hin. apply Hng. unfold generic_lists. rewrite !elem_of_app. tauto.
    + rewrite decide_True by (rewrite Hp; apply list_elem_of_here). f_equal. lia.
Qed.

Lemma vTaskPlaceOnEventList_ok k c el n :
  kernel_ok k -> pxCurrentTCB k = Some c -> c ∈ ready_tasks k -> Forall (known k) el -> 0 < n < 2 ^ 32 ->
  exists k' el', vTaskPlaceOnEventList k el n = Ok (k', el') /\ kernel_ok k' /\ keeps_tasks k k' /\
    Permutation el' (c :: el) /\
    (forall u, occ u (ready_tasks k') = occ u (ready_tasks k) - Z.b2z (bool_decide (c = u))) /\
    (forall u, occ u (blocked_tasks k') = occ u (blocked_tasks k) + Z.b2z (bool_decide (c = u))) /\
    remaining k' c = Some n /\
    xPendingReadyList k' = xPendingReadyList k /\ uxSchedulerSuspended k' = uxSchedulerSuspended k /\
    uxMissedTicks k' = uxMissedTicks k.
Proof.
  intros Hk Hc Hr Hel Hn. unfold vTaskPlaceOnEventList, current. rewrite Hc. cbn [obind].
  destruct (block_current_ok k c n Hk Hr Hn) as (k' & E1 & E2 & Hok & Hkt & B1 & B2 & B3 & B4 & B5 & B6 & _).
  destruct (removed_ready 0 k c Hk Hr) as (_ & _ & _ & Hg & _).
  destruct (tcb_of_known _ _ (ko_known _ _ Hk c Hg)) as (b & -> & _). cbn [obind].
  destruct (sorted_insert_perm k event_value (event_value b) c el Hel) as (el' & -> & Hp). cbn [obind].
  rewrite E1. cbn [obind]. change (xTickCount (removed k c)) with (xTickCount k). rewrite E2. cbn [obind].
  exists k', el'. split_and!; done.
Qed.

(** The effect of waking a task: ready, or pending while the scheduler is
    suspended. *)
Record woke (k k' : kernel) (t : nat) : Prop := Woke {
  wk_keeps : keeps_tasks k k';
  wk_lists : if uxSchedulerSuspended k =? 0
    then xPendingReadyList k' = xPendingReadyList k /\
         (forall u, occ u (ready_tasks k') = occ u (ready_tasks k) + Z.b2z (bool_decide (t = u))) /\
         (forall u, occ u (blocked_tasks k') = occ u (blocked_tasks k) - Z.b2z (bool_decide (t = u)))
    else xPendingReadyList k' = xPendingReadyList k ++ [t] /\
         pxReadyTasksLists k' = pxReadyTasksLists k /\ blocked_tasks k' = blocked_tasks k;
  wk_suspended : uxSchedulerSuspended k' = uxSchedulerSuspended k;
  wk_missed : uxMissedTicks k' = uxMissedTicks k;
}.

Lemma xTaskRemoveFromEventList_ok k t el :
  kernel_ok k -> t ∈ blocked_tasks k ->
  exists y k', xTaskRemoveFromEventList k (t :: el) = Ok (y, k', el) /\ kernel_ok k' /\ woke k k' t.
Proof.
  intros Hk Ht. pose proof (blocked_generic _ _ Ht) as Hg. unfold xTaskRemoveFromEventList.
  set (k1 := if uxSchedulerSuspended k =? 0 then readied k t else set_pending k (xPendingReadyList k ++ [t])).
  assert (E : (if uxSchedulerSuspended k =? 0 then let! k := remove_generic k t in prvAddTaskToReadyQueue k t
               else Ok (set_pending k (xPendingReadyList k ++ [t]))) = Ok k1).
  { unfold k1. destruct (uxSchedulerSuspended k =? 0); [|done].
    destruct (ready_step 0 k t Hk Hg) as [-> E2]. exact E2. }
  rewrite E. cbn [obind]. clear E.
  assert (H1 : kernel_ok k1 /\ woke k k1 t).
  { unfold k1. destruct (uxSchedulerSuspended k =? 0) eqn:Es.
    - split; [by apply readied_ok|]. destruct (readied_moved 0 k t Hk Ht) as (Hmv & D1 & D2 & D3 & D4 & D5 & D6 & D7).
      split; [by eapply moved_keeps| |by apply (mv_suspended _ _ _ Hmv)|done]. rewrite Es.
      split; [done|]. split; [intros u; rewrite (mv_ready _ _ _ Hmv); cbn; lia|].
      intros u. rewrite (readied_blocked 0 k t u Hk Ht). cbn. lia.
    - split; [by apply set_pending_ok|]. split; [by split| |done|done]. by rewrite Es. }
  clearbody k1. destruct H1 as [Hk1 Hw].
  destruct (tcb_of_known k1 t) as (b & -> & _); [apply (kt_known _ _ (wk_keeps _ _ _ Hw)), (ko_known _ _ Hk t Hg)|].
  destruct (current_ok 0 k1 Hk1) as (c & cb & -> & Ecb & _). cbn [obind]. rewrite Ecb. cbn [obind]. eauto.
Qed.

(** ** Context switches *)

Lemma top_ready_ok k top p fuel :
  kernel_ok k -> (exists l, pxReadyTasksLists k !! p = Some l /\ l <> []) ->
  (forall i l, pxReadyTasksLists k !! i = Some l -> (p < i)%nat -> l = []) ->
  Z.of_nat p <= top < 7 -> (Z.to_nat (top - Z.of_nat p) < fuel)%nat ->
  top_ready fuel k top = Ok (Z.of_nat p).
Proof.
  intros Hk Hp Habove. revert top. induction fuel as [|fuel IH]; intros top Ht Hf; [lia|].
  cbn [top_ready]. pose proof (ko_ready_len _ _ Hk) as Hlen.
  destruct (rd_ok (pxReadyTasksLists k) top) as (l & -> & Hl); [lia|]. cbn [obind].
  destruct (Z.eq_dec top (Z.of_nat p)) as [->|Hne].
  - destruct Hp as (l' & Hl' & Hne). rewrite Nat2Z.id in Hl. rewrite decide_False; [done|congruence].
  - rewrite decide_True by (apply (Habove _ _ Hl); lia). apply IH; lia.
Qed.

(** The highest priority of the ready tasks. *)
Lemma top_priority (ls : list (list nat)) :
  (exists l, l ∈ ls /\ l <> []) ->
  exists p (l : list nat), ls !! p = Some l /\ l <> [] /\
    forall i l', ls !! i = Some l' -> (p < i)%nat -> l' = [].
Proof.
  induction ls as [|l ls IH]; intros (l0 & Hin & Hne); [set_solver|].
  destruct (decide (Forall (fun l => l = []) ls)) as [Hall|Hall].
  - exists O, l. split; [done|]. split.
    + apply elem_of_cons in Hin as [->|Hin]; [done|]. rewrite Forall_forall in Hall. by specialize (Hall _ Hin).
    + intros [|i] l' Hl' Hi; [lia|]. cbn in Hl'. rewrite Forall_lookup in Hall. by apply (Hall i).
  - apply not_Forall_Exists in Hall; [|intros x; apply _]. apply Exists_exists in Hall as (l1 & Hin1 & Hne1).
    destruct IH as (p & l2 & H1 & H2 & H3); [by exists l1|]. exists (S p), l2. split; [done|]. split; [done|].
    intros [|i] l' Hl' Hi; [lia|]. cbn in Hl'. apply (H3 i l' Hl'). lia.
Qed.

Lemma set_current_ok s k t : kernel_inv s k -> known k t -> kernel_inv s (set_current k t).
Proof. intros [] Ht. split; try done. by exists t. Qed.

(** Rotation of the list of the highest priority. *)
Lemma rotate_ok k p t r :
  kernel_ok k -> pxReadyTasksLists k !! p = Some (t :: r) ->
  (forall i l, pxReadyTasksLists k !! i = Some l -> (p < i)%nat -> l = []) ->
  kernel_ok (set_current (set_ready k (<[p := r ++ [t]]> (pxReadyTasksLists k)) (Z.of_nat p)) t).
Proof.
  intros Hk Hl Habove. pose proof (ko_ready_len _ _ Hk) as Hlen. apply lookup_lt_Some in Hl as Hlt.
  assert (Hocc : forall u, occ u (generic_lists (set_ready k (<[p := r ++ [t]]> (pxReadyTasksLists k)) (Z.of_nat p))) =
                           occ u (generic_lists k)).
  { intros u. rewrite !occ_generic. unfold ready_tasks. cbn [set_ready pxReadyTasksLists pxDelayedTaskList
      pxOverflowDelayedTaskList xTasksWaitingTermination].
    rewrite (list_insert_alter_Some _ _ (fun _ => r ++ [t]) _ Hl), (occ_concat_alter u _ _ _ _ Hl), occ_app. cbn. lia. }
  assert (Hkt : known k t).
  { apply (ko_known _ _ Hk), occ_elem. rewrite occ_generic.
    pose proof (occ_nonneg t (pxDelayedTaskList k)). pose proof (occ_nonneg t (pxOverflowDelayedTaskList k)).
    pose proof (occ_nonneg t (xTasksWaitingTermination k)).
    assert (0 < occ t (ready_tasks k)) by (apply occ_concat_elem; exists p, (t :: r); set_solver). lia. }
  apply set_current_ok; [|done]. destruct Hk as [H1 H2 H3 H4 H5 H6 H7 H8 H9 H10 H11 H12 H13]. split; try done.
  - cbn. by rewrite length_insert.
  - intros u. by rewrite Hocc.
  - intros u Hu. apply H3, occ_elem. apply occ_elem in Hu. by rewrite Hocc in Hu.
  - intros i l u Hi Hu. cbn in Hi. change (priority k u = Z.of_nat i). destruct (decide (i = p)) as [->|Hne].
    + rewrite list_lookup_insert_eq in Hi by done. injection Hi as <-. apply (H6 p _ u Hl). set_solver.
    + rewrite list_lookup_insert_ne in Hi by done. by eapply H6.
  - cbn. lia.
  - cbn. intros i l Hi Hip. rewrite list_lookup_insert_ne in Hi by lia. apply (Habove i l Hi). lia.
Qed.

Lemma switch_ok k p t r :
  kernel_ok k -> uxSchedulerSuspended k = 0 -> pxReadyTasksLists k !! p = Some (t :: r) ->
  (forall i l, pxReadyTasksLists k !! i = Some l -> (p < i)%nat -> l = []) ->
  vTaskSwitchContext k =
    Ok (set_current (set_ready k (<[p := r ++ [t]]> (pxReadyTasksLists k)) (Z.of_nat p)) t).
Proof.
  intros Hk Hs Hl Habove. unfold vTaskSwitchContext. rewrite Hs. cbn [Z.eqb negb].
  pose proof (ko_top _ _ Hk) as Htop. pose proof (ko_ready_len _ _ Hk) as Hlen. apply lookup_lt_Some in Hl as Hlt.
  assert (Hp : Z.of_nat p <= uxTopReadyPriority k).
  { destruct (Z.le_gt_cases (Z.of_nat p) (uxTopReadyPriority k)); [done|].
    by pose proof (ko_above _ _ Hk p _ Hl ltac:(lia)). }
  rewrite (top_ready_ok k _ p) by (done || eauto || lia || (change (Z.to_nat configMAX_PRIORITIES) with 7%nat; lia)).
  cbn [obind]. rewrite (rd_lookup _ _ (t :: r)) by (rewrite ?Nat2Z.id; done || lia). cbn [obind next_entry].
  rewrite wr_ok by lia. cbn [obind]. by rewrite Nat2Z.id.
Qed.

(** [n] context switches. *)
Fixpoint switches (n : nat) (k : kernel) : outcome kernel :=
  match n with O => Ok k | S n => let! k := vTaskSwitchContext k in switches n k end.

Lemma switches_ok n k p l1 t l2 :
  kernel_ok k -> uxSchedulerSuspended k = 0 -> pxReadyTasksLists k !! p = Some (l1 ++ t :: l2) ->
  (forall i l, pxReadyTasksLists k !! i = Some l -> (p < i)%nat -> l = []) -> n = length l1 ->
  exists k', switches (S n) k = Ok k' /\ kernel_ok k' /\ pxCurrentTCB k' = Some t /\
    pxReadyTasksLists k' = <[p := l2 ++ l1 ++ [t]]> (pxReadyTasksLists k).
Proof.
  revert k l1 l2. induction n as [|n IH]; intros k l1 l2 Hk Hs Hl Habove Hn.
  - destruct l1; [|done]. cbn [switches]. cbn in Hl. rewrite (switch_ok k p t l2) by done. cbn [obind].
    eexists. split; [done|]. split; [by apply rotate_ok|done].
  - destruct l1 as [|u l1]; [done|]. change (switches (S (S n)) k) with (let! k := vTaskSwitchContext k in switches (S n) k).
    cbn in Hl. rewrite (switch_ok k p u (l1 ++ t :: l2)) by done. cbn [obind]. apply lookup_lt_Some in Hl as Hlt.
    set (k1 := set_current _ _). assert (Hk1 : kernel_ok k1) by (by apply rotate_ok).
    assert (E1 : pxReadyTasksLists k1 = <[p := l1 ++ t :: (l2 ++ [u])]> (pxReadyTasksLists k)).
    { unfold k1. cbn. by rewrite <- app_assoc. }
    destruct (IH k1 l1 (l2 ++ [u])) as (k' & -> & Hk' & Hc' & E'); [done|done| | |by injection Hn|].
    + rewrite E1. by apply list_lookup_insert_eq.
    + intros i l Hi Hip. rewrite E1, list_lookup_insert_ne in Hi by lia. by apply (Habove i).
    + exists k'. split; [done|]. split; [done|]. split; [done|]. rewrite E', E1, list_insert_insert_eq.
      by rewrite <- app_assoc.
Qed.

(** ** Priorities *)

(** The task's control block, its wake time aside. *)
Definition same_wake (k : kernel) (t : nat) (b : tskTCB) : Prop := wake k t = wake_time b.

Lemma set_tcb_ok s k t b :
  kernel_inv s k -> known k t -> t ∉ ready_tasks k -> same_wake k t b ->
  0 <= uxPriority b < 7 -> 0 <= uxBasePriority b < 7 -> kernel_inv s (set_tcb k t b).
Proof.
  intros Hk Ht Hr Hw Hp Hb. unfold same_wake in Hw.
  assert (Hget : forall A (f : tskTCB -> A) d u,
    tcb_get f d (set_tcb k t b) u = if bool_decide (u = t) then f b else tcb_get f d k u).
  { intros A f d u. unfold tcb_get, set_tcb. cbn. case_bool_decide as E.
    - subst. by rewrite lookup_insert_eq.
    - by rewrite lookup_insert_ne. }
  assert (Hwk : forall u, wake (set_tcb k t b) u = wake k u).
  { intros u. unfold wake at 1. rewrite Hget. case_bool_decide; [by subst|done]. }
  assert (Hkn : forall u, known (set_tcb k t b) u <-> known k u).
  { intros u. unfold known, set_tcb. cbn. destruct (decide (u = t)) as [->|Hne].
    - rewrite lookup_insert_eq. split; intros _; [exact Ht|by eexists].
    - by rewrite lookup_insert_ne. }
  destruct Hk as [H1 H2 H3 H4 H5 H6 H7 H8 H9 H10 H11 H12 H13]. split; try done.
  - intros u Hu. by apply Hkn, H3.
  - destruct H4 as (c & Hc & Hcc). exists c. by rewrite Hkn.
  - intros u Hu. apply Hkn, H5 in Hu as [Hu1 Hu2]. unfold priority, base_priority. rewrite !Hget.
    by case_bool_decide.
  - intros p l u Hl Hu. unfold priority. rewrite Hget. case_bool_decide as E; [|by eapply H6].
    subst. destruct Hr. apply occ_elem, occ_concat_elem. eauto.
  - eapply by_wake_ext; [|exact H9]. intros; apply Hwk.
  - eapply by_wake_ext; [|exact H10]. intros; apply Hwk.
  - intros u Hu. rewrite Hwk. by apply H11.
  - intros u Hu. rewrite Hwk. by apply H12.
Qed.

Lemma in_ready_list_ok k t p b :
  kernel_ok k -> priority k t = p -> known k t -> in_ready_list k p t = Ok b ->
  b = bool_decide (t ∈ ready_tasks k).
Proof.
  intros Hk Hp Ht. destruct (ko_prio _ _ Hk t Ht) as [Hr _]. unfold in_ready_list.
  destruct (rd_ok (pxReadyTasksLists k) p) as (l & -> & Hl); [rewrite (ko_ready_len _ _ Hk); lia|].
  cbn [obind]. intros [= <-]. apply bool_decide_ext. unfold ready_tasks. rewrite (occ_elem t (concat _)), occ_concat_elem.
  split; [eauto|]. intros (i & l' & Hi & Hin). pose proof (ko_ready _ _ Hk _ _ _ Hi Hin).
  assert (i = Z.to_nat p) as -> by lia. congruence.
Qed.

(** The effect of a change of priorities: [t] has the given ones, and is
    ready or not as before. *)
Record reprioritized (k k' : kernel) (t : nat) (p base : Z) : Prop := Reprioritized {
  rp_priority : priority k' t = p;
  rp_base : base_priority k' t = base;
  rp_others : forall u, u <> t -> tcbs k' !! u = tcbs k !! u;
  rp_keeps : keeps_tasks k k';
  rp_ready : forall u, occ u (ready_tasks k') = occ u (ready_tasks k);
  rp_blocked : blocked_tasks k' = blocked_tasks k;
  rp_pending : xPendingReadyList k' = xPendingReadyList k;
  rp_suspended : uxSchedulerSuspended k' = uxSchedulerSuspended k;
  rp_missed : uxMissedTicks k' = uxMissedTicks k;
}.

Lemma reprioritized_refl k t : reprioritized k k t (priority k t) (base_priority k t).
Proof. by split. Qed.

(** The step of all three functions that change a priority: a ready task moves
    to the ready list of its new priority. *)
Lemma reprioritize_ok k t b b' :
  kernel_ok k -> tcbs k !! t = Some b -> wake_time b' = wake_time b ->
  0 <= uxPriority b' < 7 -> 0 <= uxBasePriority b' < 7 ->
  (t ∉ ready_tasks k ->
     kernel_ok (set_tcb k t b') /\
     reprioritized k (set_tcb k t b') t (uxPriority b') (uxBasePriority b')) /\
  (t ∈ ready_tasks k ->
     exists k', (let! k := remove_generic k t in prvAddTaskToReadyQueue (set_tcb k t b') t) = Ok k' /\
       (let! k := remove_generic (set_tcb k t b') t in prvAddTaskToReadyQueue k t) = Ok k' /\
       kernel_ok k' /\ reprioritized k k' t (uxPriority b') (uxBasePriority b')).
Proof.
  intros Hk Hb Hwk Hp Hbp. assert (Hkn : known k t) by (by eexists).
  assert (Hsw : same_wake k t b') by (unfold same_wake; by rewrite (wake_tcb _ _ _ Hb)).
  assert (Hget : forall (k1 : kernel), tcbs k1 = <[t:=b']> (tcbs k) ->
    priority k1 t = uxPriority b' /\ base_priority k1 t = uxBasePriority b' /\
    (forall u, u <> t -> tcbs k1 !! u = tcbs k !! u) /\ (forall u, known k u -> known k1 u)).
  { intros k1 E. unfold priority, base_priority, tcb_get, known. rewrite E, lookup_insert_eq.
    split; [done|]. split; [done|]. split; [intros u Hu; by apply lookup_insert_ne|].
    intros u Hu. destruct (decide (u = t)) as [->|]; [rewrite lookup_insert_eq; by eexists|by rewrite lookup_insert_ne]. }
  split; intros Hr.
  - split; [by apply set_tcb_ok|]. destruct (Hget (set_tcb k t b') eq_refl) as (G1 & G2 & G3 & G4). by split.
  - destruct (removed_ready 0 k t Hk Hr) as (Hocc & D1 & D2 & Hg & Hng).
    pose proof (removed_ok 0 k t Hk) as Hk1. set (k1 := removed k t) in *.
    assert (Hnr : t ∉ ready_tasks k1) by (intros Hin; apply Hng; unfold generic_lists; set_solver).
    pose proof (set_tcb_ok 0 k1 t b' Hk1 Hkn Hnr Hsw Hp Hbp) as Hk2. set (k2 := set_tcb k1 t b') in *.
    assert (Hkn2 : known k2 t) by (unfold known, k2; cbn; rewrite lookup_insert_eq; by eexists).
    rewrite (remove_generic_ok k t Hg), (remove_generic_ok (set_tcb k t b') t Hg). cbn [obind].
    change (removed (set_tcb k t b') t) with k2. fold k1. fold k2. rewrite (add_ready_ok 0 k2 t Hk2 Hkn2).
    exists (added k2 t). split; [done|]. split; [done|]. split; [by apply added_ok|].
    destruct (Hget (added k2 t) eq_refl) as (G1 & G2 & G3 & G4). split; try done.
    + intros u. rewrite (proj1 (occ_added 0 u k2 t Hk2 Hkn2)). change (ready_tasks k2) with (ready_tasks k1).
      rewrite Hocc. lia.
    + unfold blocked_tasks. change (pxDelayedTaskList (added k2 t)) with (pxDelayedTaskList k1).
      change (pxOverflowDelayedTaskList (added k2 t)) with (pxOverflowDelayedTaskList k1). by rewrite D1, D2.
Qed.

Lemma priority_tcb k t b : tcbs k !! t = Some b -> priority k t = uxPriority b /\ base_priority k t = uxBasePriority b.
Proof. unfold priority, base_priority, tcb_get. by intros ->. Qed.

Lemma known_tcb k t : known k t -> exists b, tcb_of k t = Ok b /\ tcbs k !! t = Some b /\
  priority k t = uxPriority b /\ base_priority k t = uxBasePriority b.
Proof. intros (b & E1 & E2)%tcb_of_known. exists b. pose proof (priority_tcb _ _ _ E2). tauto. Qed.

Lemma in_ready_list_is k t :
  kernel_ok k -> known k t -> in_ready_list k (priority k t) t = Ok (bool_decide (t ∈ ready_tasks k)).
Proof.
  intros Hk Ht. destruct (ko_prio _ _ Hk t Ht) as [Hr _].
  assert (exists b, in_ready_list k (priority k t) t = Ok b) as [b Hb].
  { unfold in_ready_list. destruct (rd_ok (pxReadyTasksLists k) (priority k t)) as (l & -> & Hl);
      [rewrite (ko_ready_len _ _ Hk); lia|]. cbn. eauto. }
  rewrite Hb. f_equal. by eapply in_ready_list_ok.
Qed.

Lemma vTaskPriorityInherit_ok k t c :
  kernel_ok k -> known k t -> pxCurrentTCB k = Some c ->
  exists k', vTaskPriorityInherit k (Some t) = Ok k' /\ kernel_ok k' /\
    reprioritized k k' t (priority k t `max` priority k c) (base_priority k t).
Proof.
  intros Hk Ht Hc. destruct (ko_current _ _ Hk) as (c' & Ec & Hkc). assert (c' = c) as -> by congruence.
  destruct (known_tcb k t Ht) as (b & Eb & Hb & Pb & Bb), (known_tcb k c Hkc) as (cb & Ecb & Hcb & Pc & Bc).
  unfold vTaskPriorityInherit, current. rewrite Eb, Hc. cbn [obind]. rewrite Ecb. cbn [obind]. rewrite <- Pb, <- Pc, <- Bb.
  destruct (Z.ltb_spec (priority k t) (priority k c)) as [Hlt|Hge].
  - rewrite (in_ready_list_is k t Hk Ht). cbn [obind]. rewrite Z.max_r by lia.
    set (b' := with_priority b _ _ _). pose proof (ko_prio _ _ Hk c Hkc). pose proof (ko_prio _ _ Hk t Ht).
    destruct (reprioritize_ok k t b b' Hk Hb eq_refl ltac:(cbn; lia) ltac:(cbn; lia)) as [H1 H2].
    case_bool_decide as Hr.
    + destruct (H2 Hr) as (k' & -> & _ & ? & ?). eauto.
    + destruct (H1 Hr). eauto.
  - rewrite Z.max_l by lia. exists k. split; [done|]. split; [done|]. apply reprioritized_refl.
Qed.

Lemma vTaskPriorityDisinherit_ok k t :
  kernel_ok k -> t ∈ ready_tasks k ->
  exists k', vTaskPriorityDisinherit k (Some t) = Ok k' /\ kernel_ok k' /\
    reprioritized k k' t (base_priority k t) (base_priority k t).
Proof.
  intros Hk Hr. destruct (removed_ready 0 k t Hk Hr) as (_ & _ & _ & Hg & _).
  pose proof (ko_known _ _ Hk t Hg) as Ht. destruct (known_tcb k t Ht) as (b & Eb & Hb & Pb & Bb).
  unfold vTaskPriorityDisinherit. rewrite Eb. cbn [obind]. rewrite <- Pb, <- Bb.
  destruct (Z.eqb_spec (priority k t) (base_priority k t)) as [E|E]; cbn [negb].
  - exists k. split; [done|]. split; [done|]. rewrite <- E at 1. apply reprioritized_refl.
  - set (b' := with_priority b _ _ _). pose proof (ko_prio _ _ Hk t Ht).
    destruct (reprioritize_ok k t b b' Hk Hb eq_refl ltac:(cbn; lia) ltac:(cbn; lia)) as [_ H2].
    destruct (H2 Hr) as (k' & E1 & _ & ? & ?). exists k'. split; [|done].
    destruct (remove_generic k t); [exact E1|done|done].
Qed.

(** A task that keeps its priority may be ready. *)
Lemma set_same_priority_ok k t b b' :
  kernel_ok k -> tcbs k !! t = Some b -> wake_time b' = wake_time b -> uxPriority b' = uxPriority b ->
  0 <= uxBasePriority b' < 7 ->
  kernel_ok (set_tcb k t b') /\ reprioritized k (set_tcb k t b') t (uxPriority b') (uxBasePriority b').
Proof.
  intros Hk Hb Hw Hp Hbp. destruct (priority_tcb _ _ _ Hb) as [Pb _].
  assert (Hkn : forall u, known (set_tcb k t b') u <-> known k u).
  { intros u. unfold known, set_tcb. cbn. destruct (decide (u = t)) as [->|Hne].
    - rewrite lookup_insert_eq, Hb. split; by eexists.
    - by rewrite lookup_insert_ne. }
  assert (Hget : forall u, priority (set_tcb k t b') u = priority k u /\ wake (set_tcb k t b') u = wake k u /\
    (base_priority (set_tcb k t b') u = base_priority k u \/ base_priority (set_tcb k t b') u = uxBasePriority b')).
  { intros u. unfold priority, base_priority, wake, tcb_get, set_tcb. cbn. destruct (decide (u = t)) as [->|Hne].
    - rewrite lookup_insert_eq, Hb. auto.
    - rewrite lookup_insert_ne by done. auto. }
  split.
  - destruct Hk as [H1 H2 H3 H4 H5 H6 H7 H8 H9 H10 H11 H12 H13]. split; try done.
    + intros u Hu. by apply Hkn, H3.
    + destruct H4 as (c & Hc & Hcc). exists c. by rewrite Hkn.
    + intros u Hu. apply Hkn, H5 in Hu. destruct (Hget u) as (-> & _ & [->| ->]); [done|]. lia.
    + intros p l u Hl Hu. rewrite (proj1 (Hget u)). by eapply H6.
    + eapply by_wake_ext; [|exact H9]. intros u _; apply Hget.
    + eapply by_wake_ext; [|exact H10]. intros u _; apply Hget.
    + intros u Hu. rewrite (proj1 (proj2 (Hget u))). by apply H11.
    + intros u Hu. rewrite (proj1 (proj2 (Hget u))). by apply H12.
  - split; try done.
    + destruct (Hget t) as [-> _]. by rewrite Pb, Hp.
    + unfold base_priority, tcb_get. cbn. by rewrite lookup_insert_eq.
    + intros u Hu. cbn. by apply lookup_insert_ne.
    + split; [|done..]. intros u Hu. by apply Hkn.
Qed.

(** ** Properties of the scheduler *)

Lemma yield_request_ok s k : kernel_inv s k -> kernel_inv s (yield_request k).
Proof. intros []. by split. Qed.

(** A change of priority by a task, of its own or another's: the new
    value (at most configMAX_PRIORITIES - 1) becomes the task's base priority,
    and its priority unless it runs with an inherited one; a ready task is in
    the ready list of its new priority, every other task is unaffected, and
    the kernel's lists stay consistent. *)
Theorem vTaskPrioritySet_sets k h t new :
  kernel_ok k -> known k t -> prvGetTCBFromHandle k h = Ok t -> 0 <= new < 2 ^ 32 ->
  exists k', vTaskPrioritySet k h new = Ok k' /\ kernel_ok k' /\
    reprioritized k k' t
      (if decide (priority k t = base_priority k t) then new `min` 6 else priority k t) (new `min` 6).
Proof.
  intros Hk Ht Hh Hnew. unfold vTaskPrioritySet.
  set (p := if configMAX_PRIORITIES <=? new then configMAX_PRIORITIES - 1 else new).
  assert (Ep : p = new `min` 6).
  { unfold p, configMAX_PRIORITIES. destruct (Z.leb_spec 7 new); lia. }
  clearbody p.
  assert (Hh' : prvGetTCBFromHandle k (if decide (h = pxCurrentTCB k) then None else h) = Ok t).
  { case_decide as E; [|done]. subst h. unfold prvGetTCBFromHandle, current in *.
    destruct (pxCurrentTCB k); done. }
  rewrite Hh'. clear Hh'. cbn [obind]. destruct (known_tcb k t Ht) as (b & Eb & Hb & Pb & Bb). rewrite Eb. cbn [obind].
  rewrite <- Pb, <- Bb, <- Ep. pose proof (ko_prio _ _ Hk t Ht) as Hpr.
  destruct (Z.eqb_spec (base_priority k t) p) as [E|E]; cbn [negb].
  - exists k. split; [done|]. split; [done|].
    assert (Eq : (if decide (priority k t = base_priority k t) then p else priority k t) = priority k t)
      by (case_decide; lia).
    rewrite Eq, <- E. apply reprioritized_refl.
  - set (used := if base_priority k t =? priority k t then p else priority k t).
    assert (Eu : used = if decide (priority k t = base_priority k t) then p else priority k t).
    { unfold used. destruct (Z.eqb_spec (base_priority k t) (priority k t)); case_decide; lia. }
    rewrite <- Eu. set (b' := with_priority b _ _ _). set (y := if base_priority k t <? p then _ else _).
    destruct (reprioritize_ok k t b b' Hk Hb eq_refl) as [H1 H2].
    { cbn. rewrite Eu. case_decide; lia. }
    { cbn. lia. }
    assert (Hin : exists r, in_ready_list (set_tcb k t b') (base_priority k t) t = Ok r /\
      ((r = true -> t ∈ ready_tasks k) /\ (r = false -> priority k t = base_priority k t -> t ∉ ready_tasks k))).
    { unfold in_ready_list. cbn [set_tcb set_tcbs pxReadyTasksLists].
      destruct (rd_ok (pxReadyTasksLists k) (base_priority k t)) as (l & -> & Hl);
        [rewrite (ko_ready_len _ _ Hk); lia|]. cbn [obind]. eexists. split; [done|]. split.
      - intros Hr%bool_decide_eq_true. apply occ_elem, occ_concat_elem. eauto.
      - intros Hr%bool_decide_eq_false Hpb. rewrite occ_elem. unfold ready_tasks. rewrite occ_concat_elem.
        intros (i & l' & Hi & Hin). pose proof (ko_ready _ _ Hk _ _ _ Hi Hin).
        assert (i = Z.to_nat (base_priority k t)) as -> by lia. congruence. }
    destruct Hin as (r & -> & Hrt & Hrf). cbn [obind].
    assert (Hres : exists k', (if r then let! k := remove_generic (set_tcb k t b') t in prvAddTaskToReadyQueue k t
                               else Ok (set_tcb k t b')) = Ok k' /\ kernel_ok k' /\
                     reprioritized k k' t used p).
    { destruct r.
      - destruct (H2 (Hrt eq_refl)) as (k' & _ & -> & ? & ?). eauto.
      - destruct (decide (t ∈ ready_tasks k)) as [Hr|Hr]; [|destruct (H1 Hr); eauto].
        assert (Hne : priority k t <> base_priority k t) by (intros Hpb; by apply (Hrf eq_refl Hpb)).
        assert (Hused : used = priority k t) by (rewrite Eu; by rewrite decide_False).
        exists (set_tcb k t b'). split; [done|].
        apply (set_same_priority_ok k t b b' Hk Hb eq_refl); cbn; congruence || lia. }
    destruct Hres as (k' & -> & Hk' & Hrp). cbn [obind]. destruct y; [|eauto].
    eexists. split; [done|]. split; [by apply yield_request_ok|]. destruct Hrp as [? ? ? [] ? ? ? ? ?]. by split.
Qed.

(** *** Delays *)

(** [n] ticks, the tasks they unlink from event lists aside. *)
Fixpoint ticks (n : nat) (k : kernel) : outcome kernel :=
  match n with
  | O => Ok k
  | S n => let! (k, _) := vTaskIncrementTick k in ticks n k
  end.

Lemma remaining_not_ready k t r : kernel_ok k -> remaining k t = Some r -> t ∉ ready_tasks k.
Proof.
  intros Hk Hr. pose proof (ko_once _ _ Hk t) as H1. rewrite occ_generic in H1. rewrite occ_elem.
  pose proof (occ_nonneg t (pxDelayedTaskList k)). pose proof (occ_nonneg t (pxOverflowDelayedTaskList k)).
  pose proof (occ_nonneg t (xTasksWaitingTermination k)). unfold remaining in Hr.
  repeat case_decide; try done; rewrite occ_elem in *; lia.
Qed.

(** A blocked task sleeps for as many ticks as remain, and is ready from then
    on. *)
Lemma ticks_remaining n k t r :
  kernel_ok k -> uxSchedulerSuspended k = 0 -> xPendingReadyList k = [] ->
  (remaining k t = Some r /\ 0 < r) \/ (t ∈ ready_tasks k /\ r <= 0) ->
  exists k', ticks n k = Ok k' /\ kernel_ok k' /\
    (Z.of_nat n < r -> remaining k' t = Some (r - Z.of_nat n)) /\ (r <= Z.of_nat n -> t ∈ ready_tasks k').
Proof.
  revert k r. induction n as [|n IH]; intros k r Hk Hs Hp Ht.
  - exists k. split; [done|]. split; [done|]. cbn. split; intros ?.
    + destruct Ht as [[-> _]|[_ ?]]; [f_equal|]; lia.
    + destruct Ht as [[_ ?]|[? _]]; [lia|done].
  - cbn [ticks]. destruct (tick_ok k Hk Hs Hp)
      as (k1 & woken & -> & Hk1 & Hmv & _ & Hp1 & _ & _ & _ & Hwk & Hrem). cbn [obind].
    destruct (IH k1 (r - 1) Hk1) as (k' & -> & Hk' & H1 & H2); [by rewrite (mv_suspended _ _ _ Hmv)|done| |].
    + destruct Ht as [[Hr Hpos]|[Hr Hneg]].
      * destruct (decide (r = 1)) as [->|]; [right|left; split; [apply Hrem; [done|lia]|lia]].
        split; [|lia]. apply occ_elem. rewrite (mv_ready _ _ _ Hmv). apply Hwk, occ_elem in Hr.
        pose proof (occ_nonneg t (ready_tasks k)). lia.
      * right. split; [|lia]. apply occ_elem. rewrite (mv_ready _ _ _ Hmv). apply occ_elem in Hr.
        pose proof (occ_nonneg t woken). lia.
    + exists k'. split; [done|]. split; [done|]. split; intros ?.
      * rewrite H1 by lia. f_equal. lia.
      * apply H2. lia.
Qed.

(** The scheduler is resumed with nothing to catch up. *)
Lemma resume_idle k :
  uxSchedulerSuspended k = 1 -> 0 < uxCurrentNumberOfTasks k -> xPendingReadyList k = [] -> uxMissedTicks k = 0 ->
  xTaskResumeAll k = Ok (if xMissedYield k then (true, yield_request (set_missed_yield (set_suspended k 0) false), [])
                         else (false, set_suspended k 0, [])).
Proof.
  intros Hs Hn Hp Hm. unfold xTaskResumeAll. rewrite Hs. change (u32 (1 - 1)) with 0.
  cbn [set_suspended uxSchedulerSuspended uxCurrentNumberOfTasks xPendingReadyList].
  destruct (Z.ltb_spec 0 (uxCurrentNumberOfTasks k)); [|lia]. cbn [Z.eqb andb]. rewrite Hp. cbn [resume_pending obind].
  cbn [uxMissedTicks set_suspended]. rewrite Hm. cbn [Z.ltb Z.compare orb Z.to_nat missed_ticks obind].
  change (Z.to_nat 0) with O. cbn [missed_ticks obind xMissedYield set_suspended]. by destruct (xMissedYield k).
Qed.

(** VTaskDelay sleeps for exactly the requested number of ticks, over the
    overflow of the 32-bit tick counter too. The running task leaves the
    ready lists and a context switch is requested; it is not ready before the
    n-th tick, and ready from the n-th tick on; the kernel's lists stay
    consistent throughout. *)
Theorem vTaskDelay_exact k t n :
  kernel_ok k -> pxCurrentTCB k = Some t -> t ∈ ready_tasks k -> uxSchedulerSuspended k = 0 ->
  xPendingReadyList k = [] -> uxMissedTicks k = 0 -> 0 < uxCurrentNumberOfTasks k -> 0 < n < 2 ^ 32 ->
  exists k1, vTaskDelay k n = Ok (k1, []) /\ kernel_ok k1 /\ t ∉ ready_tasks k1 /\ yields k1 = S (yields k) /\
    forall m, exists k2, ticks m k1 = Ok k2 /\ kernel_ok k2 /\
      (Z.of_nat m < n -> t ∉ ready_tasks k2 /\ remaining k2 t = Some (n - Z.of_nat m)) /\
      (n <= Z.of_nat m -> t ∈ ready_tasks k2).
Proof.
  intros Hk Hc Hr Hs Hp Hm Hnum Hn. unfold vTaskDelay. destruct (Z.ltb_spec 0 n); [|lia].
  set (k0 := vTaskSuspendAll k). assert (Hk0 : kernel_ok k0) by (by apply set_suspended_ok).
  assert (Hc0 : current k0 = Ok t) by (unfold current; by change (pxCurrentTCB k0) with (pxCurrentTCB k); rewrite Hc).
  rewrite Hc0. cbn [obind].
  destruct (block_current_ok k0 t n Hk0 Hr Hn) as (k1 & E1 & E2 & Hk1 & Hkt & B1 & B2 & Brem & B4 & B5 & B6 & By).
  rewrite E1. cbn [obind]. rewrite E2. cbn [obind].
  assert (Hs0 : uxSchedulerSuspended k0 = 1) by (unfold k0, vTaskSuspendAll; cbn; by rewrite Hs).
  change (xPendingReadyList k0) with (xPendingReadyList k) in B4. change (uxMissedTicks k0) with (uxMissedTicks k) in B6.
  change (yields k0) with (yields k) in By.
  rewrite resume_idle; [|congruence|by rewrite (kt_number _ _ Hkt)|congruence|congruence]. cbn [obind].
  set (k2 := if xMissedYield k1 then yield_request (set_missed_yield (set_suspended k1 0) false)
             else yield_request (set_suspended k1 0)).
  assert (Hk2 : kernel_ok k2 /\ remaining k2 t = Some n /\ uxSchedulerSuspended k2 = 0 /\
    xPendingReadyList k2 = [] /\ yields k2 = S (yields k)).
  { unfold k2. pose proof (set_suspended_ok 0 k1 0 Hk1) as Hk1'.
    destruct (xMissedYield k1); (split; [by apply yield_request_ok; destruct Hk1'|]);
      (split; [exact Brem|]); (split; [done|]); (split; [exact (eq_trans B4 Hp)|]); cbn; by rewrite By. }
  destruct Hk2 as (Hk2 & Hrem2 & Hs2 & Hp2 & Hy2).
  exists k2. split; [unfold k2; by destruct (xMissedYield k1)|]. split; [done|].
  split; [by eapply remaining_not_ready|]. split; [done|]. intros m.
  destruct (ticks_remaining m k2 t n Hk2 Hs2 Hp2) as (k3 & E3 & Hk3 & H1 & H2); [left; split; [done|lia]|].
  exists k3. split; [done|]. split; [done|]. split; [|done]. intros Hlt. split; [|by apply H1].
  eapply remaining_not_ready; [done|by apply H1].
Qed.

(** *** Context switches *)

Lemma ready_tasks_elem k t :
  t ∈ ready_tasks k <-> exists p l, pxReadyTasksLists k !! p = Some l /\ t ∈ l.
Proof. rewrite occ_elem. apply occ_concat_elem. Qed.

(** What a context switch leaves. *)
Lemma switch_inv k k' :
  kernel_ok k -> uxSchedulerSuspended k = 0 -> vTaskSwitchContext k = Ok k' ->
  kernel_ok k' /\ (forall u, occ u (ready_tasks k') = occ u (ready_tasks k)) /\
  blocked_tasks k' = blocked_tasks k /\ xPendingReadyList k' = xPendingReadyList k /\
  uxSchedulerSuspended k' = 0 /\ uxMissedTicks k' = uxMissedTicks k /\
  uxCurrentNumberOfTasks k' = uxCurrentNumberOfTasks k.
Proof.
  intros Hk Hs E. destruct (top_priority (pxReadyTasksLists k)) as (p & l & Hl & Hlne & Habove).
  { unfold vTaskSwitchContext in E. rewrite Hs in E. cbn [Z.eqb negb] in E.
    apply obind_ok in E as (top & _ & E). apply obind_ok in E as (l & Hl%rd_inv & E). exists l.
    split; [by eapply list_elem_of_lookup_2; apply Hl|by intros ->]. }
  destruct l as [|t r]; [done|]. rewrite (switch_ok k p t r) in E by done. injection E as <-.
  split; [by apply rotate_ok|]. split; [|done]. intros u. unfold ready_tasks.
  cbn [set_current set_ready pxReadyTasksLists].
  rewrite (list_insert_alter_Some _ _ (fun _ => r ++ [t]) _ Hl), (occ_concat_alter u _ _ _ _ Hl), occ_app. cbn. lia.
Qed.

(** C37: the scheduler runs a ready task of the highest priority, and the tasks
    of that priority take turns. A context switch selects a ready task no
    ready task is above; and every such task is selected within as many
    switches as there are ready tasks of its priority. *)
Theorem vTaskSwitchContext_fair k :
  kernel_ok k -> uxSchedulerSuspended k = 0 -> ready_tasks k <> [] ->
  (exists k' t, vTaskSwitchContext k = Ok k' /\ kernel_ok k' /\ pxCurrentTCB k' = Some t /\
     t ∈ ready_tasks k /\ (forall u, u ∈ ready_tasks k -> priority k u <= priority k t) /\
     forall u, occ u (ready_tasks k') = occ u (ready_tasks k)) /\
  (forall t, t ∈ ready_tasks k -> (forall u, u ∈ ready_tasks k -> priority k u <= priority k t) ->
     exists l n k', pxReadyTasksLists k !! Z.to_nat (priority k t) = Some l /\ (n < length l)%nat /\
       switches (S n) k = Ok k' /\ kernel_ok k' /\ pxCurrentTCB k' = Some t).
Proof.
  intros Hk Hs Hne. destruct (top_priority (pxReadyTasksLists k)) as (p & l & Hl & Hlne & Habove).
  { destruct (ready_tasks k) as [|t r] eqn:E; [done|].
    assert (0 < occ t (ready_tasks k)) as (i & l & Hi & Hin)%occ_concat_elem.
    { apply occ_elem. rewrite E. apply list_elem_of_here. }
    exists l. split; [by eapply list_elem_of_lookup_2|intros ->; by apply elem_of_nil in Hin]. }
  pose proof (ready_tasks_elem k) as Hin.
  assert (Hle : forall u, u ∈ ready_tasks k -> priority k u <= Z.of_nat p).
  { intros u (i & l' & Hi & Hu)%Hin. rewrite (ko_ready _ _ Hk _ _ _ Hi Hu).
    destruct (decide (p < i)%nat) as [Hpi|]; [|lia]. rewrite (Habove _ _ Hi Hpi) in Hu. by apply elem_of_nil in Hu. }
  split.
  - destruct l as [|t r]; [done|]. exists (set_current (set_ready k (<[p := r ++ [t]]> (pxReadyTasksLists k)) (Z.of_nat p)) t), t.
    split; [by apply switch_ok|]. split; [by apply rotate_ok|]. split; [done|].
    assert (Ht : t ∈ ready_tasks k) by (apply Hin; exists p, (t :: r); split; [done|apply list_elem_of_here]).
    split; [done|]. split.
    + rewrite (ko_ready _ _ Hk _ _ t Hl) by apply list_elem_of_here. exact Hle.
    + intros u. unfold ready_tasks. cbn [set_current set_ready pxReadyTasksLists].
      rewrite (list_insert_alter_Some _ _ (fun _ => r ++ [t]) _ Hl), (occ_concat_alter u _ _ _ _ Hl), occ_app. cbn. lia.
  - intros t Ht Hmax. pose proof Ht as (i & l' & Hi & Hu)%Hin. pose proof (ko_ready _ _ Hk _ _ _ Hi Hu) as Hp.
    assert (i = p) as ->.
    { destruct (decide (p < i)%nat) as [Hpi|]; [rewrite (Habove _ _ Hi Hpi) in Hu; by apply elem_of_nil in Hu|].
      destruct l as [|u r]; [done|]. assert (Hur : u ∈ u :: r) by apply list_elem_of_here.
      specialize (Hmax u). rewrite (ko_ready _ _ Hk _ _ _ Hl Hur) in Hmax.
      assert (u ∈ ready_tasks k) by (apply Hin; eauto). specialize (Hmax H). lia. }
    rewrite Hl in Hi. injection Hi as <-. apply list_elem_of_split in Hu as (l1 & l2 & ->).
    destruct (switches_ok (length l1) k p l1 t l2 Hk Hs Hl Habove eq_refl) as (k' & E & Hk' & Hc & _).
    exists (l1 ++ t :: l2), (length l1), k'. rewrite Hp, Nat2Z.id. split; [done|]. split; [|done].
    rewrite length_app. cbn. lia.
Qed.

(** *** A concrete kernel: tasks 1 and 2 of priority 3, task 0 of priority 0;
    all ready, and task 1 runs close to the overflow of the tick. *)
Definition demo_kernel : kernel :=
  Kernel {[0%nat := TCB 0 0 7 0 1000; 1%nat := TCB 3 3 4 0 1100; 2%nat := TCB 3 3 4 0 1200]} (Some 1%nat)
    [[0%nat]; []; []; [2%nat; 1%nat]; []; []; []] 3 [] [] [] [] 0 3 3 3 (2 ^ 32 - 2) 0 true 0 0 false 0.

Lemma known_inv_demo t : known demo_kernel t -> t = 0%nat \/ t = 1%nat \/ t = 2%nat.
Proof.
  unfold known, demo_kernel. cbn [tcbs]. intros [b Hb].
  repeat (apply lookup_insert_Some in Hb as [[<- _]|[_ Hb]]; [tauto|]).
  apply lookup_singleton_Some in Hb as [<- _]. tauto.
Qed.

Lemma demo_kernel_ok : kernel_ok demo_kernel.
Proof.
  assert (Hg : generic_lists demo_kernel = [0%nat; 2%nat; 1%nat]) by reflexivity.
  split.
  - reflexivity.
  - intros t. rewrite Hg. apply occ_nodup. repeat constructor; set_solver.
  - intros t. rewrite Hg. rewrite !elem_of_cons, elem_of_nil.
    intros [->|[->|[->|[]]]]; eexists; vm_compute; reflexivity.
  - exists 1%nat. split; [reflexivity|]. eexists. vm_compute. reflexivity.
  - intros t [->|[->| ->]]%known_inv_demo; vm_compute; split; split; congruence.
  - intros p l t Hl Ht. do 7 (destruct p as [|p]; [cbn in Hl; injection Hl as <-;
      rewrite ?elem_of_cons, ?elem_of_nil in Ht; naive_solver|]). done.
  - cbn. lia.
  - intros p l Hl. do 7 (destruct p as [|p]; [cbn in *; injection Hl as <-; done || lia|]). done.
  - constructor.
  - constructor.
  - intros t. cbn. by rewrite elem_of_nil.
  - intros t. cbn. by rewrite elem_of_nil.
  - cbn. lia.
Qed.

Lemma vTaskPrioritySet_sets_witness :
  exists k', vTaskPrioritySet demo_kernel (Some 2%nat) 9 = Ok k' /\ kernel_ok k' /\
    reprioritized demo_kernel k' 2 6 6.
Proof.
  apply (vTaskPrioritySet_sets demo_kernel (Some 2%nat) 2 9 demo_kernel_ok);
    [eexists; vm_compute; reflexivity|reflexivity|lia].
Defined.

Lemma vTaskDelay_exact_witness :
  exists k1, vTaskDelay demo_kernel 5 = Ok (k1, []) /\ kernel_ok k1 /\ 1%nat ∉ ready_tasks k1 /\ yields k1 = 1%nat /\
    forall m, exists k2, ticks m k1 = Ok k2 /\ kernel_ok k2 /\
      (Z.of_nat m < 5 -> 1%nat ∉ ready_tasks k2 /\ remaining k2 1 = Some (5 - Z.of_nat m)) /\
      (5 <= Z.of_nat m -> 1%nat ∈ ready_tasks k2).
Proof.
  apply (vTaskDelay_exact demo_kernel 1 5 demo_kernel_ok); try reflexivity; [|lia].
  apply list_elem_of_further, list_elem_of_further, list_elem_of_here.
Defined.

Lemma vTaskSwitchContext_fair_witness :
  exists l n k', pxReadyTasksLists demo_kernel !! Z.to_nat (priority demo_kernel 1) = Some l /\ (n < length l)%nat /\
    switches (S n) demo_kernel = Ok k' /\ kernel_ok k' /\ pxCurrentTCB k' = Some 1%nat.
Proof.
  apply (proj2 (vTaskSwitchContext_fair demo_kernel demo_kernel_ok eq_refl ltac:(discriminate)) 1%nat).
  - apply list_elem_of_further, list_elem_of_further, list_elem_of_here.
  - change (ready_tasks demo_kernel) with [0%nat; 2%nat; 1%nat]. intros u.
    rewrite !elem_of_cons, elem_of_nil. intros [->|[->|[->|[]]]]; vm_compute; discriminate.
Defined.
