(* ===== verification/Queue.v ===== *)
(** * Queues, semaphores and mutexes: FreeRTOS_v6.1.0/queue.c

    A queue is a structure and, unless it is a mutex, a storage area of
    [uxLength] slots of [uxItemSize] bytes and one byte more. The blocking
    functions are modelled section by section: between two sections the
    interrupts, and while the scheduler runs the other tasks, may use the
    queue ([QueueSync] composes them). *)

From S2P Require Import Prelude Ring.
From stdpp Require Import gmap.
From S2P Require Import Tasks Heap2 Alloc.
#[local] Open Scope Z_scope.

(** ** Constants *)

Definition queueUNLOCKED : Z := -1.
Definition queueLOCKED_UNMODIFIED : Z := 0.
Definition queueSEND_TO_BACK : Z := 0.
Definition queueSEND_TO_FRONT : Z := 1.
Definition queueSEMAPHORE_QUEUE_ITEM_LENGTH : Z := 0.
Definition sizeof_xQUEUE : Z := 76.

(** ** Data *)

(** [pcHead] is the address of [storage], [None] is NULL, which marks a
    mutex ([uxQueueType] is the same field, and [pxMutexHolder] the same as
    [pcTail]). *)
Record xQUEUE : Type := Queue {
  pcHead : option Z;
  storage : list Z;
  pcTail : Z;
  pcWriteTo : Z;
  pcReadFrom : Z;
  pxMutexHolder : option nat;
  xTasksWaitingToSend : list nat;
  xTasksWaitingToReceive : list nat;
  uxMessagesWaiting : Z;
  uxLength : Z;
  uxItemSize : Z;
  xRxLock : Z;
  xTxLock : Z;
}.

Definition set_data (q : xQUEUE) (st : list Z) (w r n : Z) (holder : option nat) : xQUEUE :=
  Queue (pcHead q) st (pcTail q) w r holder (xTasksWaitingToSend q) (xTasksWaitingToReceive q)
    n (uxLength q) (uxItemSize q) (xRxLock q) (xTxLock q).
Definition set_count (q : xQUEUE) (n : Z) : xQUEUE :=
  set_data q (storage q) (pcWriteTo q) (pcReadFrom q) n (pxMutexHolder q).
Definition set_holder (q : xQUEUE) (t : option nat) : xQUEUE :=
  set_data q (storage q) (pcWriteTo q) (pcReadFrom q) (uxMessagesWaiting q) t.
Definition set_read (q : xQUEUE) (r : Z) : xQUEUE :=
  set_data q (storage q) (pcWriteTo q) r (uxMessagesWaiting q) (pxMutexHolder q).
Definition set_wait (q : xQUEUE) (s r : list nat) : xQUEUE :=
  Queue (pcHead q) (storage q) (pcTail q) (pcWriteTo q) (pcReadFrom q) (pxMutexHolder q) s r
    (uxMessagesWaiting q) (uxLength q) (uxItemSize q) (xRxLock q) (xTxLock q).
Definition set_lock (q : xQUEUE) (rx tx : Z) : xQUEUE :=
  Queue (pcHead q) (storage q) (pcTail q) (pcWriteTo q) (pcReadFrom q) (pxMutexHolder q)
    (xTasksWaitingToSend q) (xTasksWaitingToReceive q)
    (uxMessagesWaiting q) (uxLength q) (uxItemSize q) rx tx.

(** ** memcpy, from and to an object *)

Definition slice (buf : list Z) (off n : Z) : list Z :=
  take (Z.to_nat n) (drop (Z.to_nat off) buf).

Definition blit (buf : list Z) (off : Z) (src : list Z) : list Z :=
  take (Z.to_nat off) buf ++ src ++ drop (Z.to_nat off + length src) buf.

Definition memcpy_from (buf : list Z) (off n : Z) : outcome (list Z) :=
  if (0 <=? off) && (off + n <=? zlen buf) then Ok (slice buf off n) else UB.

Definition memcpy_to (buf : list Z) (off : Z) (src : list Z) (n : Z) : outcome (list Z) :=
  let! bytes := memcpy_from src 0 n in
  if (0 <=? off) && (off + n <=? zlen buf) then Ok (blit buf off bytes) else UB.

(** ** Copying *)

Definition prvCopyDataToQueue (k : kernel) (q : xQUEUE) (pvItemToQueue : list Z) (xPosition : Z)
    : outcome (kernel * xQUEUE) :=
  let! (k, q) :=
    (if uxItemSize q =? 0 then
       match pcHead q with
       | None =>
           let! k := vTaskPriorityDisinherit k (pxMutexHolder q) in Ok (k, set_holder q None)
       | Some _ => Ok (k, q)
       end
     else
       match pcHead q with
       | None => UB
       | Some head =>
           if xPosition =? queueSEND_TO_BACK then
             let! st := memcpy_to (storage q) (pcWriteTo q - head) pvItemToQueue (uxItemSize q) in
             let w := pcWriteTo q + uxItemSize q in
             let w := if pcTail q <=? w then head else w in
             Ok (k, set_data q st w (pcReadFrom q) (uxMessagesWaiting q) (pxMutexHolder q))
           else
             let! st := memcpy_to (storage q) (pcReadFrom q - head) pvItemToQueue (uxItemSize q) in
             let r := pcReadFrom q - uxItemSize q in
             let r := if r <? head then pcTail q - uxItemSize q else r in
             Ok (k, set_data q st (pcWriteTo q) r (uxMessagesWaiting q) (pxMutexHolder q))
       end) in
  Ok (k, set_count q (u32 (uxMessagesWaiting q + 1))).

(** The bytes written to [pvBuffer]: none for a mutex. *)
Definition prvCopyDataFromQueue (q : xQUEUE) : outcome (xQUEUE * list Z) :=
  match pcHead q with
  | None => Ok (q, [])
  | Some head =>
      let r := pcReadFrom q + uxItemSize q in
      let r := if pcTail q <=? r then head else r in
      let! data := memcpy_from (storage q) (r - head) (uxItemSize q) in
      Ok (set_read q r, data)
  end.

(** ** Waking *)

(** The test for an empty event list and the removal of its first task: the
    result is what xTaskRemoveFromEventList returns. *)
Definition wake_receiver (k : kernel) (q : xQUEUE) : outcome (bool * kernel * xQUEUE) :=
  if decide (xTasksWaitingToReceive q = []) then Ok (false, k, q)
  else
    let! (woken, k, el) := xTaskRemoveFromEventList k (xTasksWaitingToReceive q) in
    Ok (woken, k, set_wait q (xTasksWaitingToSend q) el).

Definition wake_sender (k : kernel) (q : xQUEUE) : outcome (bool * kernel * xQUEUE) :=
  if decide (xTasksWaitingToSend q = []) then Ok (false, k, q)
  else
    let! (woken, k, el) := xTaskRemoveFromEventList k (xTasksWaitingToSend q) in
    Ok (woken, k, set_wait q el (xTasksWaitingToReceive q)).

Definition yield_if (b : bool) (k : kernel) : kernel := if b then yield_request k else k.

(** ** Locking *)

Definition prvLockQueue (q : xQUEUE) : xQUEUE :=
  set_lock q (if xRxLock q =? queueUNLOCKED then queueLOCKED_UNMODIFIED else xRxLock q)
             (if xTxLock q =? queueUNLOCKED then queueLOCKED_UNMODIFIED else xTxLock q).

(** The loops of prvUnlockQueue: a task for each item added or removed while
    the queue was locked, as long as there are tasks. *)
Fixpoint unlock_loop (k : kernel) (el : list nat) (lock : Z) : outcome (kernel * list nat) :=
  match el with
  | [] => Ok (k, el)
  | _ :: el' =>
      if queueLOCKED_UNMODIFIED <? lock then
        let! (woken, k, _) := xTaskRemoveFromEventList k el in
        unlock_loop (if woken then vTaskMissedYield k else k) el' (lock - 1)
      else Ok (k, el)
  end.

(** Its two critical sections. *)
Definition unlock_tx (k : kernel) (q : xQUEUE) : outcome (kernel * xQUEUE) :=
  let! (k, el) := unlock_loop k (xTasksWaitingToReceive q) (xTxLock q) in
  Ok (k, set_lock (set_wait q (xTasksWaitingToSend q) el) (xRxLock q) queueUNLOCKED).

Definition unlock_rx (k : kernel) (q : xQUEUE) : outcome (kernel * xQUEUE) :=
  let! (k, el) := unlock_loop k (xTasksWaitingToSend q) (xRxLock q) in
  Ok (k, set_lock (set_wait q el (xTasksWaitingToReceive q)) queueUNLOCKED (xTxLock q)).

Definition prvUnlockQueue (k : kernel) (q : xQUEUE) : outcome (kernel * xQUEUE) :=
  let! (k, q) := unlock_tx k q in unlock_rx k q.

(** ++ of a lock count, a signed long. *)
Definition lock_incr (n : Z) : outcome Z := if n + 1 <? 2 ^ 31 then Ok (n + 1) else UB.

(** ** Queries *)

Definition prvIsQueueEmpty (q : xQUEUE) : bool := uxMessagesWaiting q =? 0.
Definition prvIsQueueFull (q : xQUEUE) : bool := uxMessagesWaiting q =? uxLength q.
Definition xQueueIsQueueEmptyFromISR (q : xQUEUE) : bool := uxMessagesWaiting q =? 0.
Definition xQueueIsQueueFullFromISR (q : xQUEUE) : bool := uxMessagesWaiting q =? uxLength q.
Definition uxQueueMessagesWaiting (q : xQUEUE) : Z := uxMessagesWaiting q.
Definition uxQueueMessagesWaitingFromISR (q : xQUEUE) : Z := uxMessagesWaiting q.

(** ** Calls of the blocking functions *)

(** Why the queue is unlocked: the task was put on the event list, the queue
    is ready after all, or the time is up. *)
Inductive outlook : Type := Placed | Retry | TimedOut.

(** Where a call is. *)
Inductive point : Type :=
  | Top
  | AtSuspend
  | AtLock
  | AtTimeOut
  | AtCheck
  | AtInherit
  | AtPlace
  | AtUnlockTx (o : outlook)
  | AtUnlockRx (o : outlook)
  | AtResume (o : outlook)
  | Returned (pass : bool).

(** The arguments and local variables of xQueueGenericSend ([c_buf] the item,
    [c_opt] xCopyPosition) and xQueueGenericReceive ([c_buf] the buffer,
    [c_opt] xJustPeeking). [c_entry] is xTimeOut once it is set. *)
Record call : Type := Call {
  c_point : point;
  c_buf : list Z;
  c_ticks : Z;
  c_opt : Z;
  c_entry : option xTimeOutType;
}.

Definition at_point (c : call) (p : point) : call :=
  Call p (c_buf c) (c_ticks c) (c_opt c) (c_entry c).
Definition enter_wait (k : kernel) (c : call) : call :=
  Call AtSuspend (c_buf c) (c_ticks c) (c_opt c)
    (match c_entry c with None => Some (vTaskSetTimeOutState k) | Some t => Some t end).
Definition new_call (buf : list Z) (ticks opt : Z) : call := Call Top buf ticks opt None.

(** Tasks that the tick made ready leave the event lists. *)
Definition unlink (woken : list nat) (q : xQUEUE) : xQUEUE :=
  set_wait q (filter (fun t => t ∉ woken) (xTasksWaitingToSend q))
             (filter (fun t => t ∉ woken) (xTasksWaitingToReceive q)).

(** The sections both functions share: suspension, lock, time-out, unlock,
    resumption. *)
Definition wait_section (k : kernel) (q : xQUEUE) (c : call) : outcome (kernel * xQUEUE * call) :=
  match c_point c with
  | AtSuspend => Ok (vTaskSuspendAll k, q, at_point c AtLock)
  | AtLock => Ok (k, prvLockQueue q, at_point c AtTimeOut)
  | AtTimeOut =>
      match c_entry c with
      | None => UB
      | Some t =>
          let '(expired, t, ticks) := xTaskCheckForTimeOut k t (c_ticks c) in
          let c := Call (c_point c) (c_buf c) ticks (c_opt c) (Some t) in
          Ok (k, q, at_point c (if expired then AtUnlockTx TimedOut else AtCheck))
      end
  | AtUnlockTx o => let! (k, q) := unlock_tx k q in Ok (k, q, at_point c (AtUnlockRx o))
  | AtUnlockRx o => let! (k, q) := unlock_rx k q in Ok (k, q, at_point c (AtResume o))
  | AtResume o =>
      let! (yielded, k, woken) := xTaskResumeAll k in
      let q := unlink woken q in
      match o with
      | Placed => Ok (yield_if (negb yielded) k, q, at_point c Top)
      | Retry => Ok (k, q, at_point c Top)
      | TimedOut => Ok (k, q, at_point c (Returned false))
      end
  | _ => UB
  end.

(** One section of xQueueGenericSend. *)
Definition xQueueGenericSend (k : kernel) (q : xQUEUE) (c : call) : outcome (kernel * xQUEUE * call) :=
  match c_point c with
  | Top =>
      if uxMessagesWaiting q <? uxLength q then
        let! (k, q) := prvCopyDataToQueue k q (c_buf c) (c_opt c) in
        let! (woken, k, q) := wake_receiver k q in
        Ok (yield_if woken k, q, at_point c (Returned true))
      else if c_ticks c =? 0 then Ok (k, q, at_point c (Returned false))
      else Ok (k, q, enter_wait k c)
  | AtCheck => Ok (k, q, at_point c (if prvIsQueueFull q then AtPlace else AtUnlockTx Retry))
  | AtPlace =>
      let! (k, el) := vTaskPlaceOnEventList k (xTasksWaitingToSend q) (c_ticks c) in
      Ok (k, set_wait q el (xTasksWaitingToReceive q), at_point c (AtUnlockTx Placed))
  | _ => wait_section k q c
  end.

Definition is_mutex (q : xQUEUE) : bool := match pcHead q with None => true | Some _ => false end.

(** One section of xQueueGenericReceive. *)
Definition xQueueGenericReceive (k : kernel) (q : xQUEUE) (c : call) : outcome (kernel * xQUEUE * call) :=
  match c_point c with
  | Top =>
      if 0 <? uxMessagesWaiting q then
        let pcOriginalReadPosition := pcReadFrom q in
        let! (q, data) := prvCopyDataFromQueue q in
        let c := Call (c_point c) data (c_ticks c) (c_opt c) (c_entry c) in
        if c_opt c =? 0 then
          let q := set_count q (uxMessagesWaiting q - 1) in
          let q := (if is_mutex q then set_holder q (pxCurrentTCB k) else q) in
          let! (woken, k, q) := wake_sender k q in
          Ok (yield_if woken k, q, at_point c (Returned true))
        else
          let q := set_read q pcOriginalReadPosition in
          let! (woken, k, q) := wake_receiver k q in
          Ok (yield_if woken k, q, at_point c (Returned true))
      else if c_ticks c =? 0 then Ok (k, q, at_point c (Returned false))
      else Ok (k, q, enter_wait k c)
  | AtCheck =>
      Ok (k, q, at_point c (if prvIsQueueEmpty q then (if is_mutex q then AtInherit else AtPlace)
                            else AtUnlockTx Retry))
  | AtInherit => let! k := vTaskPriorityInherit k (pxMutexHolder q) in Ok (k, q, at_point c AtPlace)
  | AtPlace =>
      let! (k, el) := vTaskPlaceOnEventList k (xTasksWaitingToReceive q) (c_ticks c) in
      Ok (k, set_wait q (xTasksWaitingToSend q) el, at_point c (AtUnlockTx Placed))
  | _ => wait_section k q c
  end.

(** ** Calls from interrupts: they neither block nor touch the event lists of
    a locked queue. *)

Definition xQueueGenericSendFromISR (k : kernel) (q : xQUEUE) (pvItemToQueue : list Z)
    (pxHigherPriorityTaskWoken : bool) (xCopyPosition : Z) : outcome (bool * bool * kernel * xQUEUE) :=
  if uxMessagesWaiting q <? uxLength q then
    let! (k, q) := prvCopyDataToQueue k q pvItemToQueue xCopyPosition in
    if xTxLock q =? queueUNLOCKED then
      let! (woken, k, q) := wake_receiver k q in
      Ok (true, pxHigherPriorityTaskWoken || woken, k, q)
    else
      let! n := lock_incr (xTxLock q) in
      Ok (true, pxHigherPriorityTaskWoken, k, set_lock q (xRxLock q) n)
  else Ok (false, pxHigherPriorityTaskWoken, k, q).

Definition xQueueReceiveFromISR (k : kernel) (q : xQUEUE) (pxTaskWoken : bool)
    : outcome (bool * list Z * bool * kernel * xQUEUE) :=
  if 0 <? uxMessagesWaiting q then
    let! (q, data) := prvCopyDataFromQueue q in
    let q := set_count q (uxMessagesWaiting q - 1) in
    if xRxLock q =? queueUNLOCKED then
      let! (woken, k, q) := wake_sender k q in
      Ok (true, data, pxTaskWoken || woken, k, q)
    else
      let! n := lock_incr (xRxLock q) in
      Ok (true, data, pxTaskWoken, k, set_lock q n (xTxLock q))
  else Ok (false, [], pxTaskWoken, k, q).

(** ** Creation and deletion, over any allocator *)

Section Create.
Context {H : Type} `{!Allocator H}.

(** The storage holds [fill] at first (the contents of fresh memory are
    unspecified). A queue is at the address of its structure. *)
Definition xQueueCreate (h : H) (fill : nat -> list Z) (len itemsize : Z)
    : outcome (option (Z * xQUEUE) * H) :=
  if 0 <? len then
    let! (pxNewQueue, h) := malloc h sizeof_xQUEUE in
    match pxNewQueue with
    | None => Ok (None, h)
    | Some addr =>
        let xQueueSizeInBytes := u32 (u32 (len * itemsize) + 1) in
        let! (head, h) := malloc h xQueueSizeInBytes in
        match head with
        | Some head =>
            Ok (Some (addr,
                  Queue (Some head) (fill (Z.to_nat xQueueSizeInBytes))
                    (head + u32 (len * itemsize)) head (head + u32 (u32 (len - 1) * itemsize)) None
                    [] [] 0 len itemsize queueUNLOCKED queueUNLOCKED), h)
        | None => let! h := free h (Some addr) in Ok (None, h)
        end
    end
  else Ok (None, h).

Definition xQueueCreateCountingSemaphore (h : H) (fill : nat -> list Z) (uxCountValue uxInitialCount : Z)
    : outcome (option (Z * xQUEUE) * H) :=
  let! (pxHandle, h) := xQueueCreate h fill uxCountValue queueSEMAPHORE_QUEUE_ITEM_LENGTH in
  match pxHandle with
  | Some (addr, q) => Ok (Some (addr, set_count q uxInitialCount), h)
  | None => Ok (None, h)
  end.

(** Created taken, then given once. *)
Definition xQueueCreateMutex (k : kernel) (h : H) : outcome (option (Z * xQUEUE) * kernel * H) :=
  let! (pxNewQueue, h) := malloc h sizeof_xQUEUE in
  match pxNewQueue with
  | None => Ok (None, k, h)
  | Some addr =>
      let q := Queue None [] 0 0 0 None [] [] 0 1 0 queueUNLOCKED queueUNLOCKED in
      let! (k, q, _) := xQueueGenericSend k q (new_call [] 0 queueSEND_TO_BACK) in
      Ok (Some (addr, q), k, h)
  end.

Definition vQueueDelete (h : H) (addr : Z) (q : xQUEUE) : outcome H :=
  let! h := free h (pcHead q) in free h (Some addr).

End Create.

(** ** Slots *)

Lemma length_concat_uniform (slots : list (list Z)) n :
  Forall (fun s => length s = n) slots -> length (concat slots) = (length slots * n)%nat.
Proof. induction 1 as [|s r Hs _ IH]; cbn; [done|]. rewrite length_app. lia. Qed.

Lemma slots_split (slots : list (list Z)) i x n :
  Forall (fun s => length s = n) slots -> slots !! i = Some x ->
  exists l1 l2, slots = l1 ++ x :: l2 /\ length l1 = i /\ length x = n /\
    length (concat l1) = (i * n)%nat.
Proof.
  intros Hf Hi. apply list_elem_of_split_length in Hi as (l1 & l2 & -> & ->).
  exists l1, l2. apply Forall_app in Hf as [Hf1 Hf2]. apply Forall_cons in Hf2 as [Hx _].
  split_and!; [done|done|done|]. by apply length_concat_uniform.
Qed.

Lemma slice_slot slots i x n rest :
  Forall (fun s => length s = n) slots -> slots !! i = Some x ->
  slice (concat slots ++ rest) (Z.of_nat i * Z.of_nat n) (Z.of_nat n) = x.
Proof.
  intros Hf Hi. destruct (slots_split _ _ _ _ Hf Hi) as (l1 & l2 & -> & <- & Hx & Hl).
  unfold slice. rewrite <- Nat2Z.inj_mul, !Nat2Z.id, concat_app, <- app_assoc.
  rewrite drop_app_length' by done. cbn [concat]. rewrite <- app_assoc. by apply take_app_length'.
Qed.

Lemma blit_slot slots i x y n rest :
  Forall (fun s => length s = n) slots -> slots !! i = Some x -> length y = n ->
  blit (concat slots ++ rest) (Z.of_nat i * Z.of_nat n) y = concat (<[i := y]> slots) ++ rest.
Proof.
  intros Hf Hi Hy. destruct (slots_split _ _ _ _ Hf Hi) as (l1 & l2 & -> & <- & Hx & Hl).
  unfold blit. rewrite <- Nat2Z.inj_mul, !Nat2Z.id, Hy.
  rewrite concat_app, <- app_assoc, take_app_length' by done.
  rewrite insert_app_r_alt, Nat.sub_diag by lia. cbn [list_insert concat insert].
  rewrite concat_app. cbn [concat]. rewrite <- !app_assoc. f_equal. f_equal.
  rewrite app_assoc. rewrite drop_app_length'; [done|]. rewrite length_app. lia.
Qed.

(** ** What a queue holds

    [queue_at q items]: [q] is a queue with storage that holds [items], the
    next one to be received first. Its slots form a ring whose oldest element
    is in the slot behind [pcReadFrom]. *)

Record layout (q : xQUEUE) (items : list (list Z)) (head : Z) (slots : list (list Z)) (marker : list Z)
    (rd : Z) : Prop := Layout {
  lay_head : pcHead q = Some head;
  lay_tail : pcTail q = head + uxLength q * uxItemSize q;
  lay_storage : storage q = concat slots ++ marker;
  lay_size : Forall (fun s => length s = Z.to_nat (uxItemSize q)) slots;
  lay_rd : 0 <= rd < uxLength q;
  lay_ring : ring_at (uxLength q) slots ((rd + 1) mod uxLength q) items;
  lay_read : pcReadFrom q = head + rd * uxItemSize q;
  lay_write : pcWriteTo q = head + ((rd + 1 + zlen items) mod uxLength q) * uxItemSize q;
}.

Record queue_at (q : xQUEUE) (items : list (list Z)) : Prop := QueueAt {
  qa_layout : exists head slots marker rd, layout q items head slots marker rd;
  qa_count : uxMessagesWaiting q = zlen items;
  qa_length : uxLength q < 2 ^ 32;
  qa_item : 0 <= uxItemSize q;
}.

(** The change of the data leaves the rest of the queue. *)
Definition data_only (q q' : xQUEUE) : Prop :=
  q' = set_data q (storage q') (pcWriteTo q') (pcReadFrom q') (uxMessagesWaiting q') (pxMutexHolder q').

Lemma next_slot head size i n :
  0 <= i < n -> 0 <= size ->
  (if head + n * size <=? head + i * size + size then head else head + i * size + size)
  = head + ((i + 1) mod n) * size.
Proof.
  intros Hi Hs. destruct (Z.eq_dec size 0) as [->|Hnz].
  { rewrite !Z.mul_0_r, !Z.add_0_r. by destruct (_ <=? _). }
  destruct (Z.eq_dec (i + 1) n) as [<-|Hne].
  - rewrite Z_mod_same_full.
    destruct (Z.leb_spec (head + (i + 1) * size) (head + i * size + size)); lia.
  - rewrite Z.mod_small by lia.
    destruct (Z.leb_spec (head + n * size) (head + i * size + size)); [nia|lia].
Qed.

Lemma prev_slot head size i n :
  0 <= i < n -> 0 < size ->
  (if head + i * size - size <? head then head + n * size - size else head + i * size - size)
  = head + ((i - 1) mod n) * size.
Proof.
  intros Hi Hs. destruct (Z.eq_dec i 0) as [->|Hne].
  - destruct (Z.ltb_spec (head + 0 * size - size) head); [|lia].
    rewrite <- (Z_mod_plus_full (0 - 1) 1), Z.mod_small by lia. lia.
  - rewrite Z.mod_small by lia. destruct (Z.ltb_spec (head + i * size - size) head); [nia|lia].
Qed.

Section Slots.
Context (slots : list (list Z)) (marker : list Z) (n : Z).
Hypothesis (Hsize : Forall (fun s => length s = Z.to_nat n) slots) (Hn : 0 <= n).

Lemma slot_bounds i : 0 <= i < zlen slots -> i * n + n <= zlen (concat slots ++ marker).
Proof.
  intros Hi. rewrite zlen_app. unfold zlen in *. rewrite (length_concat_uniform _ _ Hsize), Nat2Z.inj_mul.
  rewrite Z2Nat.id by done. nia.
Qed.

Lemma memcpy_from_slot i x :
  0 <= i -> slots !! Z.to_nat i = Some x -> memcpy_from (concat slots ++ marker) (i * n) n = Ok x.
Proof.
  intros Hi Hx. apply lookup_lt_Some in Hx as Hlt. unfold memcpy_from.
  pose proof (slot_bounds i ltac:(unfold zlen; lia)).
  destruct (Z.leb_spec 0 (i * n)); [|nia]. destruct (Z.leb_spec (i * n + n) (zlen (concat slots ++ marker))); [|lia].
  cbn [andb]. f_equal. rewrite <- (Z2Nat.id i), <- (Z2Nat.id n) by lia.
  by apply slice_slot.
Qed.

Lemma memcpy_to_slot i y :
  0 <= i < zlen slots -> zlen y = n ->
  memcpy_to (concat slots ++ marker) (i * n) y n = Ok (concat (<[Z.to_nat i := y]> slots) ++ marker).
Proof.
  intros Hi Hy. unfold memcpy_to, memcpy_from. cbn [Z.leb Z.compare andb].
  rewrite Z.add_0_l, Hy, Z.leb_refl. cbn [obind].
  pose proof (slot_bounds i Hi).
  destruct (Z.leb_spec 0 (i * n)); [|nia]. destruct (Z.leb_spec (i * n + n) (zlen (concat slots ++ marker))); [|lia].
  cbn [andb]. f_equal.
  assert (Hs : slice y 0 n = y).
  { unfold slice. cbn [Z.to_nat drop]. apply take_ge. unfold zlen in Hy. lia. }
  rewrite Hs. unfold zlen in *.
  destruct (lookup_lt_is_Some_2 slots (Z.to_nat i)) as [x Hx]; [lia|].
  replace (i * n) with (Z.of_nat (Z.to_nat i) * Z.of_nat (Z.to_nat n)) by lia.
  apply (blit_slot slots (Z.to_nat i) x y (Z.to_nat n) marker); [done|done|lia].
Qed.
End Slots.

Lemma layout_slots q items head slots marker rd :
  layout q items head slots marker rd -> zlen slots = uxLength q.
Proof. intros HL. apply (ring_size _ _ _ _ (lay_ring _ _ _ _ _ _ HL)). Qed.

Lemma length_items q items item : queue_at q items -> item ∈ items -> zlen item = uxItemSize q.
Proof.
  intros [(head & slots & marker & rd & HL) _ _ Hs] Hin.
  apply list_elem_of_lookup in Hin as [k Hk].
  pose proof (ring_elem _ _ _ _ (lay_ring _ _ _ _ _ _ HL) k item Hk) as Hsl.
  pose proof (lay_size _ _ _ _ _ _ HL) as Hf. rewrite Forall_lookup in Hf.
  pose proof (Hf _ _ Hsl). unfold zlen. lia.
Qed.

(** A zero item size: every slot is empty, so that the position of the ring
    does not matter. *)
Lemma empty_slots (slots : list (list Z)) i (y : list Z) :
  Forall (fun s => length s = 0%nat) slots -> y = [] -> <[i := y]> slots = slots.
Proof.
  intros Hf ->. destruct (slots !! i) as [x|] eqn:Hx.
  - apply list_insert_id. rewrite Hx. rewrite Forall_lookup in Hf. specialize (Hf _ _ Hx).
    by apply nil_length_inv in Hf as ->.
  - apply list_insert_ge. by apply lookup_ge_None in Hx.
Qed.

(** ** Copying in and out *)

Lemma copy_back k q items item :
  queue_at q items -> zlen items < uxLength q -> zlen item = uxItemSize q ->
  exists q', prvCopyDataToQueue k q item queueSEND_TO_BACK = Ok (k, q') /\
    queue_at q' (items ++ [item]) /\ data_only q q'.
Proof.
  intros Hq Hroom Hitem. pose proof Hq as [(head & slots & marker & rd & HL) Hc Hlen Hs].
  pose proof (layout_slots _ _ _ _ _ _ HL) as Hsl. destruct HL as [Hh Ht Hst Hsz Hrd Hring Hr Hw].
  pose proof (zlen_nonneg items). pose proof (ring_push _ _ _ _ item Hring Hroom) as Hpush.
  assert (Hm : 0 <= (rd + 1 + zlen items) mod uxLength q < uxLength q) by (apply Z.mod_pos_bound; lia).
  rewrite Zplus_mod_idemp_l in Hpush.
  assert (Hcount : u32 (uxMessagesWaiting q + 1) = zlen (items ++ [item])).
  { rewrite zlen_app. change (zlen [item]) with 1. rewrite Hc. apply u32_small. lia. }
  unfold prvCopyDataToQueue. rewrite Hh. destruct (Z.eqb_spec (uxItemSize q) 0) as [Hz|Hnz]; cbn [obind].
  - eexists. split; [done|]. split; [|done]. split; [|done..].
    exists head, slots, marker, rd. split; cbn; try done.
    + rewrite Hz in Hsz, Hitem. rewrite (empty_slots slots _ item Hsz) in Hpush; [done|].
      apply nil_length_inv. unfold zlen in Hitem. lia.
    + rewrite Hw, Hz. lia.
  - rewrite Z.eqb_refl, Hw, Z.add_simpl_l, Hst, (memcpy_to_slot slots marker) by done || lia. cbn [obind].
    eexists. split; [done|]. split; [|done]. split; [|done..].
    exists head, (<[Z.to_nat ((rd + 1 + zlen items) mod uxLength q):=item]> slots), marker, rd.
    split; cbn; try done.
    + apply Forall_insert; [done|]. unfold zlen in Hitem. lia.
    + rewrite Ht, next_slot by done. rewrite Zplus_mod_idemp_l, zlen_app, Z.add_assoc. done.
Qed.

Lemma copy_front k q items item :
  queue_at q items -> zlen items < uxLength q -> zlen item = uxItemSize q ->
  exists q', prvCopyDataToQueue k q item queueSEND_TO_FRONT = Ok (k, q') /\
    queue_at q' (item :: items) /\ data_only q q'.
Proof.
  intros Hq Hroom Hitem. pose proof Hq as [(head & slots & marker & rd & HL) Hc Hlen Hs].
  pose proof (layout_slots _ _ _ _ _ _ HL) as Hsl. destruct HL as [Hh Ht Hst Hsz Hrd Hring Hr Hw].
  pose proof (zlen_nonneg items). pose proof (ring_push_front _ _ _ _ item Hring Hroom) as Hpush.
  rewrite Zminus_mod_idemp_l, Z.add_simpl_r, (Z.mod_small rd) in Hpush by lia.
  assert (Hm : 0 <= (rd - 1) mod uxLength q < uxLength q) by (apply Z.mod_pos_bound; lia).
  assert (Hback : ((rd - 1) mod uxLength q + 1) mod uxLength q = rd).
  { rewrite Zplus_mod_idemp_l, Z.sub_add. apply Z.mod_small. lia. }
  assert (Hcount : u32 (uxMessagesWaiting q + 1) = zlen (item :: items)).
  { rewrite zlen_cons, Hc. apply u32_small. lia. }
  unfold prvCopyDataToQueue. rewrite Hh. destruct (Z.eqb_spec (uxItemSize q) 0) as [Hz|Hnz]; cbn [obind].
  - eexists. split; [done|]. split; [|done]. split; [|done..].
    exists head, slots, marker, ((rd - 1) mod uxLength q). split; cbn; try done.
    + rewrite Hz in Hsz, Hitem. rewrite (empty_slots slots _ item Hsz) in Hpush; [by rewrite Hback|].
      apply nil_length_inv. unfold zlen in Hitem. lia.
    + rewrite Hr, Hz. lia.
    + rewrite Hw, Hz. lia.
  - change (queueSEND_TO_FRONT =? queueSEND_TO_BACK) with false. cbn [obind].
    rewrite Hr, Z.add_simpl_l, Hst, (memcpy_to_slot slots marker) by done || lia. cbn [obind].
    eexists. split; [done|]. split; [|done]. split; [|done..].
    exists head, (<[Z.to_nat rd:=item]> slots), marker, ((rd - 1) mod uxLength q).
    split; cbn; try done.
    + apply Forall_insert; [done|]. unfold zlen in Hitem. lia.
    + by rewrite Hback.
    + rewrite Ht, prev_slot by lia. done.
    + rewrite Hw, zlen_cons. do 2 f_equal.
      rewrite <- (Z.add_assoc (_ mod _)), Zplus_mod_idemp_l. f_equal. lia.
Qed.

Lemma copy_out q items item :
  queue_at q (item :: items) ->
  exists r, prvCopyDataFromQueue q = Ok (set_read q r, item) /\
    queue_at (set_count (set_read q r) (uxMessagesWaiting q - 1)) items.
Proof.
  intros [(head & slots & marker & rd & HL) Hc Hlen Hs].
  pose proof (layout_slots _ _ _ _ _ _ HL) as Hsl. destruct HL as [Hh Ht Hst Hsz Hrd Hring Hr Hw].
  destruct (ring_pop _ _ _ _ _ Hring) as [Hslot Hring'].
  assert (Hm : 0 <= (rd + 1) mod uxLength q < uxLength q) by (apply Z.mod_pos_bound; lia).
  unfold prvCopyDataFromQueue. rewrite Hh. cbn zeta. rewrite Ht, Hr, next_slot, Z.add_simpl_l by done.
  rewrite Hst, (memcpy_from_slot slots marker _ Hsz Hs _ _ (proj1 Hm) Hslot). cbn [obind].
  eexists. split; [done|]. rewrite zlen_cons in Hc. split; cbn; [|lia|done..].
  exists head, slots, marker, ((rd + 1) mod uxLength q). split; cbn; try done.
  rewrite Hw, zlen_cons. do 2 f_equal. rewrite <- (Z.add_assoc (_ mod _)), Zplus_mod_idemp_l. f_equal. lia.
Qed.

(** ** Event lists *)

(** The kernel and the tasks that wait on the queue, which are blocked. *)
Record queue_tasks (k : kernel) (q : xQUEUE) : Prop := QueueTasks {
  qt_kernel : kernel_ok k;
  qt_send : forall t, t ∈ xTasksWaitingToSend q -> t ∈ blocked_tasks k;
  qt_receive : forall t, t ∈ xTasksWaitingToReceive q -> t ∈ blocked_tasks k;
}.

(** The tasks [ts] are woken: made ready, or pending while the scheduler is
    suspended. *)
Record wakes (k k' : kernel) (ts : list nat) : Prop := Wakes {
  ws_ok : kernel_ok k';
  ws_keeps : keeps_tasks k k';
  ws_lists : if uxSchedulerSuspended k =? 0
    then xPendingReadyList k' = xPendingReadyList k /\
         (forall u, occ u (ready_tasks k') = occ u (ready_tasks k) + occ u ts) /\
         (forall u, occ u (blocked_tasks k) = occ u (blocked_tasks k') + occ u ts)
    else xPendingReadyList k' = xPendingReadyList k ++ ts /\
         (forall u, occ u (ready_tasks k') = occ u (ready_tasks k)) /\ blocked_tasks k' = blocked_tasks k;
  ws_suspended : uxSchedulerSuspended k' = uxSchedulerSuspended k;
  ws_missed : uxMissedTicks k' = uxMissedTicks k;
}.

Lemma wakes_none k : kernel_ok k -> wakes k k [].
Proof.
  intros Hk. split; try done. destruct (_ =? 0); split; try done.
  - split; intros u; cbn; lia.
  - by rewrite app_nil_r.
Qed.

Lemma wakes_yield b k k' ts : wakes k k' ts -> wakes k (yield_if b k') ts.
Proof. destruct b; [|done]. intros [? [] ? ? ?]. split; try done. by apply yield_request_ok. Qed.

Lemma wakes_missed_yield k k' ts : wakes k k' ts -> wakes k (vTaskMissedYield k') ts.
Proof. intros [[] [] ? ? ?]. by split. Qed.

Lemma wakes_trans k1 k2 k3 ts us :
  uxSchedulerSuspended k1 <> 0 -> wakes k1 k2 ts -> wakes k2 k3 us -> wakes k1 k3 (ts ++ us).
Proof.
  intros Hs [_ [A1 A2 A3] A4 A5 A6] [B0 [B1 B2 B3] B4 B5 B6]. rewrite A5 in B4.
  apply Z.eqb_neq in Hs. rewrite Hs in *.
  destruct A4 as (C1 & C2 & C3), B4 as (D1 & D2 & D3).
  split; [done|split; [auto|congruence|congruence]| |congruence|congruence].
  rewrite Hs. split; [by rewrite D1, C1, <- app_assoc|]. split; [intros u; by rewrite D2, C2|congruence].
Qed.

Lemma wakes_one k t el :
  kernel_ok k -> t ∈ blocked_tasks k ->
  exists y k', xTaskRemoveFromEventList k (t :: el) = Ok (y, k', el) /\ wakes k k' [t].
Proof.
  intros Hk Ht. destruct (xTaskRemoveFromEventList_ok k t el Hk Ht) as (y & k' & E & Hk' & [H1 H2 H3 H4]).
  exists y, k'. split; [done|]. split; try done. destruct (_ =? 0).
  - destruct H2 as (G1 & G2 & G3). split; [done|]. split; intros u; [rewrite G2|rewrite G3]; cbn; lia.
  - destruct H2 as (G1 & G2 & G3). split; [done|]. split; [|done]. intros u. unfold ready_tasks. by rewrite G2.
Qed.

Lemma wake_receiver_spec k q :
  queue_tasks k q ->
  exists b k', wake_receiver k q = Ok (b, k', set_wait q (xTasksWaitingToSend q) (tail (xTasksWaitingToReceive q))) /\
    wakes k k' (take 1 (xTasksWaitingToReceive q)).
Proof.
  intros [Hk _ Hr]. unfold wake_receiver. destruct (xTasksWaitingToReceive q) as [|t el] eqn:E.
  - rewrite decide_True by done. exists false, k. cbn [tail take]. split; [|by apply wakes_none].
    destruct q; cbn in *. by subst.
  - rewrite decide_False by done.
    destruct (wakes_one k t el Hk (Hr t ltac:(apply list_elem_of_here))) as (b & k' & -> & Hw). cbn [obind take tail].
    rewrite take_0. eauto.
Qed.

Lemma wake_sender_spec k q :
  queue_tasks k q ->
  exists b k', wake_sender k q = Ok (b, k', set_wait q (tail (xTasksWaitingToSend q)) (xTasksWaitingToReceive q)) /\
    wakes k k' (take 1 (xTasksWaitingToSend q)).
Proof.
  intros [Hk Hr _]. unfold wake_sender. destruct (xTasksWaitingToSend q) as [|t el] eqn:E.
  - rewrite decide_True by done. exists false, k. cbn [tail take]. split; [|by apply wakes_none].
    destruct q; cbn in *. by subst.
  - rewrite decide_False by done.
    destruct (wakes_one k t el Hk (Hr t ltac:(apply list_elem_of_here))) as (b & k' & -> & Hw). cbn [obind take tail].
    rewrite take_0. eauto.
Qed.

(** What a queue holds does not depend on its event lists and locks. *)
Lemma queue_at_wait q items s r : queue_at q items -> queue_at (set_wait q s r) items.
Proof.
  intros [(head & slots & marker & rd & HL) Hc Hlen Hs]. split; [|done..].
  exists head, slots, marker, rd. by destruct HL; split.
Qed.
Lemma queue_at_lock q items rx tx : queue_at q items -> queue_at (set_lock q rx tx) items.
Proof.
  intros [(head & slots & marker & rd & HL) Hc Hlen Hs]. split; [|done..].
  exists head, slots, marker, rd. by destruct HL; split.
Qed.
Lemma queue_at_not_mutex q items : queue_at q items -> is_mutex q = false.
Proof. intros [(head & slots & marker & rd & HL) _ _ _]. unfold is_mutex. by rewrite (lay_head _ _ _ _ _ _ HL). Qed.
Lemma queue_at_bound q items : queue_at q items -> zlen items <= uxLength q.
Proof. intros [(head & slots & marker & rd & HL) _ _ _]. apply (ring_len _ _ _ _ (lay_ring _ _ _ _ _ _ HL)). Qed.

(** ** One section on a queue with storage *)

(** The items after a send to the back or to the front. *)
Definition enqueue (pos : Z) (item : list Z) (items : list (list Z)) : list (list Z) :=
  if pos =? queueSEND_TO_BACK then items ++ [item] else item :: items.

Lemma zlen_enqueue pos item items : zlen (enqueue pos item items) = zlen items + 1.
Proof. unfold enqueue. destruct (_ =? _); rewrite ?zlen_app, ?zlen_cons; reflexivity. Qed.

Lemma copy_in k q items item pos :
  queue_at q items -> zlen items < uxLength q -> zlen item = uxItemSize q ->
  pos = queueSEND_TO_BACK \/ pos = queueSEND_TO_FRONT ->
  exists q', prvCopyDataToQueue k q item pos = Ok (k, q') /\
    queue_at q' (enqueue pos item items) /\ data_only q q'.
Proof. intros ??? [->| ->]; [by apply copy_back|by apply copy_front]. Qed.

(** [q'] differs from [q] in the data it holds and has the given lists. *)
Record same_queue (q q' : xQUEUE) (s r : list nat) : Prop := SameQueue {
  sq_head : pcHead q' = pcHead q;
  sq_length : uxLength q' = uxLength q;
  sq_item : uxItemSize q' = uxItemSize q;
  sq_rx : xRxLock q' = xRxLock q;
  sq_tx : xTxLock q' = xTxLock q;
  sq_send : xTasksWaitingToSend q' = s;
  sq_receive : xTasksWaitingToReceive q' = r;
}.

Lemma data_only_wait q q' s r : data_only q q' -> same_queue q (set_wait q' s r) s r.
Proof. intros ->. by split. Qed.
Lemma data_only_lists q q' : data_only q q' ->
  xTasksWaitingToSend q' = xTasksWaitingToSend q /\ xTasksWaitingToReceive q' = xTasksWaitingToReceive q.
Proof. by intros ->. Qed.
Lemma data_only_tasks k q q' : data_only q q' -> queue_tasks k q -> queue_tasks k q'.
Proof. intros -> []; by split. Qed.

(** xQueueGenericSend, entered on a queue that holds [items]. With room
    it returns pdPASS in its first section: the item is copied behind the
    others (or in front of them with queueSEND_TO_FRONT), the first task that
    waits to receive, and no other, is made ready. On a full queue it changes
    nothing: it returns errQUEUE_FULL when no block time is left, and goes to
    suspend the scheduler otherwise. *)
Lemma xQueueGenericSend_top k q items c :
  queue_at q items -> queue_tasks k q -> c_point c = Top -> zlen (c_buf c) = uxItemSize q ->
  c_opt c = queueSEND_TO_BACK \/ c_opt c = queueSEND_TO_FRONT ->
  if decide (zlen items < uxLength q) then
    exists k' q', xQueueGenericSend k q c = Ok (k', q', at_point c (Returned true)) /\
      queue_at q' (enqueue (c_opt c) (c_buf c) items) /\
      same_queue q q' (xTasksWaitingToSend q) (tail (xTasksWaitingToReceive q)) /\
      wakes k k' (take 1 (xTasksWaitingToReceive q))
  else xQueueGenericSend k q c =
    Ok (k, q, if c_ticks c =? 0 then at_point c (Returned false) else enter_wait k c).
Proof.
  intros Hq Hk Hp Hb Ho. unfold xQueueGenericSend. rewrite Hp, (qa_count _ _ Hq). case_decide as Hroom.
  - destruct (Z.ltb_spec (zlen items) (uxLength q)); [|lia].
    destruct (copy_in k q items _ _ Hq Hroom Hb Ho) as (q' & -> & Hq' & Hd). cbn [obind].
    destruct (data_only_lists _ _ Hd) as [Es Er].
    destruct (wake_receiver_spec k q' (data_only_tasks _ _ _ Hd Hk)) as (b & k' & -> & Hw). cbn [obind].
    rewrite Es, Er in *. eexists _, _. split; [done|]. split; [by apply queue_at_wait|].
    split; [by apply data_only_wait|]. by apply wakes_yield.
  - destruct (Z.ltb_spec (zlen items) (uxLength q)); [lia|]. by destruct (_ =? _).
Qed.

Lemma set_read_id q r : set_read (set_read q r) (pcReadFrom q) = q.
Proof. by destruct q. Qed.

(** xQueueGenericReceive, entered on a queue that holds [items]. When
    there is an item it returns pdPASS in its first section with the bytes of
    the oldest item: taken out of the queue, with the first task that waits
    to send made ready; or left in it when peeking, with the queue's data
    unchanged and the first task that waits to receive made ready. On an
    empty queue it changes nothing: it returns errQUEUE_EMPTY when no block
    time is left, and goes to suspend the scheduler otherwise. *)
Lemma xQueueGenericReceive_top k q items c :
  queue_at q items -> queue_tasks k q -> c_point c = Top ->
  match items with
  | item :: items' =>
      exists k' q', xQueueGenericReceive k q c =
          Ok (k', q', Call (Returned true) item (c_ticks c) (c_opt c) (c_entry c)) /\
        (if c_opt c =? 0 then
           queue_at q' items' /\
           same_queue q q' (tail (xTasksWaitingToSend q)) (xTasksWaitingToReceive q) /\
           wakes k k' (take 1 (xTasksWaitingToSend q))
         else
           q' = set_wait q (xTasksWaitingToSend q) (tail (xTasksWaitingToReceive q)) /\
           wakes k k' (take 1 (xTasksWaitingToReceive q)))
  | [] => xQueueGenericReceive k q c =
      Ok (k, q, if c_ticks c =? 0 then at_point c (Returned false) else enter_wait k c)
  end.
Proof.
  intros Hq Hk Hp. unfold xQueueGenericReceive. rewrite Hp. destruct items as [|item items'].
  { rewrite (qa_count _ _ Hq). change (0 <? zlen []) with false. by destruct (_ =? _). }
  pose proof (qa_count _ _ Hq) as Hc. rewrite zlen_cons in Hc. pose proof (zlen_nonneg items').
  destruct (Z.ltb_spec 0 (uxMessagesWaiting q)); [|lia].
  destruct (copy_out q items' item Hq) as (r & -> & Hq'). cbn [obind c_opt].
  destruct (Z.eqb_spec (c_opt c) 0) as [E|E].
  - set (q1 := set_count (set_read q r) (uxMessagesWaiting (set_read q r) - 1)).
    assert (Hm : is_mutex q1 = false) by exact (queue_at_not_mutex _ _ Hq).
    rewrite Hm. assert (Hk1 : queue_tasks k q1) by (by destruct Hk; split).
    destruct (wake_sender_spec k q1 Hk1) as (b & k' & -> & Hw). cbn [obind].
    eexists _, _. split; [done|]. split; [apply queue_at_wait, Hq'|]. split; [done|]. by apply wakes_yield.
  - rewrite set_read_id. destruct (wake_receiver_spec k q Hk) as (b & k' & -> & Hw). cbn [obind].
    eexists _, _. split; [done|]. split; [done|]. by apply wakes_yield.
Qed.

(** ** Creation and deletion *)

Section CreateSpec.
Context {H : Type} `{!Allocator H} (fill : nat -> list Z).
Hypothesis (Hfill : forall n, length (fill n) = n).

(** [n] slots of [size] bytes, cut from a storage area. *)
Fixpoint chunks (n size : nat) (l : list Z) : list (list Z) :=
  match n with
  | O => []
  | S n => take size l :: chunks n size (drop size l)
  end.

Lemma chunks_spec n size l :
  (n * size <= length l)%nat ->
  length (chunks n size l) = n /\ Forall (fun s => length s = size) (chunks n size l) /\
  concat (chunks n size l) = take (n * size) l.
Proof.
  revert l. induction n as [|n IH]; intros l Hl; cbn [chunks Nat.mul]; [by rewrite take_0|].
  destruct (IH (drop size l)) as (H1 & H2 & H3); [rewrite length_drop; lia|].
  split; [cbn; lia|]. split; [constructor; [rewrite length_take; lia|done]|].
  cbn [concat]. by rewrite H3, take_take_drop.
Qed.

(** A new queue is empty. *)
Lemma new_queue_empty head len itemsize :
  0 < len < 2 ^ 32 -> 0 <= itemsize -> len * itemsize + 1 <= max_request ->
  queue_at (Queue (Some head) (fill (Z.to_nat (u32 (u32 (len * itemsize) + 1))))
              (head + u32 (len * itemsize)) head (head + u32 (u32 (len - 1) * itemsize)) None
              [] [] 0 len itemsize queueUNLOCKED queueUNLOCKED) [].
Proof.
  unfold max_request. intros Hlen Hi Hmax.
  rewrite (u32_small (len * itemsize)), (u32_small (len - 1)), !u32_small by nia.
  split; cbn; [|done|lia|done].
  set (st := fill (Z.to_nat (len * itemsize + 1))).
  destruct (chunks_spec (Z.to_nat len) (Z.to_nat itemsize) st) as (H1 & H2 & H3);
    [unfold st; rewrite Hfill; nia|].
  exists head, (chunks (Z.to_nat len) (Z.to_nat itemsize) st),
    (drop (Z.to_nat len * Z.to_nat itemsize) st), (len - 1).
  assert (Hz : (len - 1 + 1) mod len = 0) by (rewrite Z.sub_add; apply Z_mod_same_full).
  split; cbn; try done; [|lia| |].
  - by rewrite H3, take_drop.
  - rewrite Hz. apply ring_empty; [unfold zlen; lia|lia].
  - rewrite zlen_nil, Z.add_0_r, Hz. lia.
Qed.

(** xQueueCreate, over any allocator that keeps its promises, for sizes
    whose product does not overflow. Either nothing is created and the memory
    in use is what it was (a structure whose storage cannot be allocated is
    given back), or the result is an empty unlocked queue of the requested
    length without waiting tasks, whose structure and storage are two new
    regions of sufficient size, disjoint from each other and from all memory
    in use; vQueueDelete then gives both back. *)
Theorem xQueueCreate_creates h us len itemsize :
  in_use h us -> 0 <= len < 2 ^ 32 -> 0 <= itemsize -> len * itemsize + 1 <= max_request ->
  exists r h', xQueueCreate h fill len itemsize = Ok (r, h') /\
    match r with
    | None => in_use h' us
    | Some (addr, q) =>
        0 < len /\ queue_at q [] /\ uxLength q = len /\ uxItemSize q = itemsize /\
        same_queue q q [] [] /\ xRxLock q = queueUNLOCKED /\ xTxLock q = queueUNLOCKED /\
        (exists head n1 n2, pcHead q = Some head /\ in_use h' ((head, n2) :: (addr, n1) :: us) /\
           sizeof_xQUEUE <= n1 /\ zlen (storage q) <= n2 /\
           Forall (region_disjoint (addr, n1)) us /\
           Forall (region_disjoint (head, n2)) ((addr, n1) :: us)) /\
        exists h'', vQueueDelete h' addr q = Ok h'' /\ in_use h'' us
    end.
Proof.
  intros Hh Hlen Hi Hmax. unfold xQueueCreate.
  destruct (Z.ltb_spec 0 len); [|by exists None, h].
  pose proof (malloc_ok h us sizeof_xQUEUE Hh ltac:(split; vm_compute; congruence)) as Hm.
  apply wp_ok in Hm as ([[addr|] h1] & -> & Hm); cbn [fst snd obind] in *; [|by eexists None, _].
  destruct Hm as (_ & n1 & Hn1 & Hh1 & Hd1).
  assert (Hsize : u32 (u32 (len * itemsize) + 1) = len * itemsize + 1).
  { unfold max_request in Hmax. rewrite (u32_small (len * itemsize)), u32_small by nia. done. }
  pose proof (malloc_ok h1 _ (len * itemsize + 1) Hh1 ltac:(nia)) as Hm.
  rewrite Hsize. apply wp_ok in Hm as ([[head|] h2] & -> & Hm); cbn [fst snd obind] in *.
  - destruct Hm as (_ & n2 & Hn2 & Hh2 & Hd2).
    pose proof (new_queue_empty head len itemsize ltac:(lia) Hi Hmax) as Hnew. rewrite Hsize in Hnew.
    eexists (Some (_, _)), _. split; [done|]. split; [done|]. split; [exact Hnew|]. clear Hnew.
    do 5 (split; [done|]). split.
    + exists head, n1, n2. split_and!; try done. cbn. unfold zlen. rewrite Hfill. nia.
    + unfold vQueueDelete. cbn [pcHead].
      pose proof (free_ok h2 _ _ head n2 Hh2 (Permutation_refl _)) as Hf.
      apply wp_ok in Hf as (h3 & -> & Hh3). cbn [obind].
      pose proof (free_ok h3 _ _ addr n1 Hh3 (Permutation_refl _)) as Hf.
      apply wp_ok in Hf as (h4 & -> & Hh4). eauto.
  - pose proof (free_ok h2 _ _ addr n1 Hm (Permutation_refl _)) as Hf.
    apply wp_ok in Hf as (h3 & -> & Hh3). cbn [obind]. by eexists None, _.
Qed.
End CreateSpec.

(** *** Concrete queues *)

Definition zeros (n : nat) : list Z := repeat 0 n.
Lemma length_zeros n : length (zeros n) = n.
Proof. apply repeat_length. Qed.

Lemma xQueueCreate_creates_witness :
  let H0 := heap_boot_in_use ∅ in
  exists r h', xQueueCreate (heap_boot ∅) zeros 6 4 = Ok (r, h') /\
    match r with
    | None => in_use h' []
    | Some (addr, q) =>
        0 < 6 /\ queue_at q [] /\ uxLength q = 6 /\ uxItemSize q = 4 /\
        same_queue q q [] [] /\ xRxLock q = queueUNLOCKED /\ xTxLock q = queueUNLOCKED /\
        (exists head n1 n2, pcHead q = Some head /\ in_use h' ((head, n2) :: (addr, n1) :: []) /\
           sizeof_xQUEUE <= n1 /\ zlen (storage q) <= n2 /\
           Forall (region_disjoint (addr, n1)) [] /\
           Forall (region_disjoint (head, n2)) ((addr, n1) :: [])) /\
        exists h'', vQueueDelete h' addr q = Ok h'' /\ in_use h'' []
    end.
Proof.
  intros H0. apply (xQueueCreate_creates zeros length_zeros (heap_boot ∅) [] 6 4 H0);
    [lia|lia|vm_compute; congruence].
Defined.

(** The product of length and item size is not checked for overflow. A
    queue of 2^16 items of 2^16 bytes is created with a storage area of one
    byte; it accepts an item, and writes 2^16 bytes into that area. *)
Lemma xQueueCreate_overflows :
  exists addr q h', xQueueCreate (heap_boot ∅) zeros (2 ^ 16) (2 ^ 16) = Ok (Some (addr, q), h') /\
    zlen (storage q) = 1 /\ uxLength q = 2 ^ 16 /\ uxItemSize q = 2 ^ 16 /\
    forall k item ticks, xQueueGenericSend k q (new_call item ticks queueSEND_TO_BACK) = UB.
Proof.
  eexists _, _, _. split; [vm_compute; reflexivity|]. split; [reflexivity|].
  split; [reflexivity|]. split; [reflexivity|]. intros k item ticks.
  unfold xQueueGenericSend, prvCopyDataToQueue, memcpy_to, memcpy_from, new_call.
  cbn [c_point uxMessagesWaiting uxLength uxItemSize pcHead pcWriteTo storage c_buf c_opt].
  change (0 <? 65536) with true. change (65536 =? 0) with false.
  change (queueSEND_TO_BACK =? queueSEND_TO_BACK) with true. cbn [Z.leb Z.compare andb].
  destruct (0 + 65536 <=? zlen item); reflexivity.
Qed.

(** ** Mutexes *)

(** A mutex and who holds it. *)
Record mutex_at (q : xQUEUE) (holder : option nat) : Prop := MutexAt {
  ma_head : pcHead q = None;
  ma_item : uxItemSize q = 0;
  ma_length : uxLength q = 1;
  ma_count : uxMessagesWaiting q = match holder with None => 1 | Some _ => 0 end;
  ma_holder : pxMutexHolder q = holder;
}.

(** A mutex created by xQueueCreateMutex is free, and creating one takes
    no more memory than its structure. *)
Lemma xQueueCreateMutex_creates {H} `{!Allocator H} k (h : H) us :
  in_use h us ->
  exists r h', xQueueCreateMutex k h = Ok (r, k, h') /\
    match r with
    | None => in_use h' us
    | Some (addr, q) => mutex_at q None /\ same_queue q q [] [] /\
        exists n, sizeof_xQUEUE <= n /\ in_use h' ((addr, n) :: us)
    end.
Proof.
  intros Hh. unfold xQueueCreateMutex.
  pose proof (malloc_ok h us sizeof_xQUEUE Hh ltac:(split; vm_compute; congruence)) as Hm.
  apply wp_ok in Hm as ([[addr|] h1] & -> & Hm); cbn [fst snd obind] in *; [|by eexists None, _].
  destruct Hm as (_ & n & Hn & Hh1 & _). eexists (Some (_, _)), _. split; [reflexivity|].
  split; [done|]. split; [done|]. eauto.
Qed.

(** Priority inheritance. Taking a free mutex records the caller as its
    holder. A task that is about to wait for a taken mutex raises the holder
    to its own priority if that is higher, and leaves every other task's and
    the holder's base priority as they are. The next give, by the holder or
    not, sets the holder back to its base priority, frees the mutex and makes
    ready the first task that waits for it. *)
Theorem mutex_priority_inheritance k q c t p :
  queue_tasks k q -> mutex_at q (Some t) -> known k t -> pxCurrentTCB k = Some p ->
  (forall q0, mutex_at q0 None -> xTasksWaitingToSend q0 = [] -> c_point c = Top -> c_opt c = 0 ->
    exists q', xQueueGenericReceive k q0 c =
        Ok (k, q', Call (Returned true) [] (c_ticks c) (c_opt c) (c_entry c)) /\
      mutex_at q' (Some p)) /\
  (c_point c = AtInherit ->
    exists k', xQueueGenericReceive k q c = Ok (k', q, at_point c AtPlace) /\ kernel_ok k' /\
      reprioritized k k' t (priority k t `max` priority k p) (base_priority k t)) /\
  (c_point c = Top -> t ∈ ready_tasks k ->
    exists k1 k' q', xQueueGenericSend k q c = Ok (k', q', at_point c (Returned true)) /\
      mutex_at q' None /\ xTasksWaitingToReceive q' = tail (xTasksWaitingToReceive q) /\
      reprioritized k k1 t (base_priority k t) (base_priority k t) /\
      wakes k1 k' (take 1 (xTasksWaitingToReceive q))).
Proof.
  intros [Hk Hqs Hqr] Hm Ht Hp. split; [|split].
  - intros q0 [Hh Hi Hl Hc Hd] Hs Hpt Ho. unfold xQueueGenericReceive. rewrite Hpt, Hc.
    cbn [Z.ltb Z.compare]. unfold prvCopyDataFromQueue. rewrite Hh. cbn [obind c_opt]. rewrite Ho.
    cbn [Z.eqb]. unfold is_mutex. cbn [set_count set_data pcHead]. rewrite Hh.
    unfold wake_sender. cbn [set_holder set_count set_data xTasksWaitingToSend]. rewrite Hs.
    rewrite decide_True by done. cbn [obind]. eexists. split; [done|]. split; cbn; try done. lia.
  - intros Hpt. unfold xQueueGenericReceive. rewrite Hpt, (ma_holder _ _ Hm).
    destruct (vTaskPriorityInherit_ok k t p Hk Ht Hp) as (k' & -> & H1 & H2). cbn [obind]. eauto.
  - intros Hpt Hr. unfold xQueueGenericSend, prvCopyDataToQueue. destruct Hm as [Hh Hi Hl Hc Hd].
    rewrite Hpt, Hc, Hl, Hi, Hh, Hd. cbn [Z.ltb Z.compare Z.eqb].
    destruct (vTaskPriorityDisinherit_ok k t Hk Hr) as (k1 & -> & Hk1 & Hrp). cbn [obind].
    set (q1 := set_count _ _). assert (Hq1 : queue_tasks k1 q1).
    { split; [done|..]; intros u; rewrite (rp_blocked _ _ _ _ _ Hrp); [apply Hqs|apply Hqr]. }
    destruct (wake_receiver_spec k1 q1 Hq1) as (w & k2 & -> & Hw). cbn [obind].
    eexists k1, _, _. split; [done|]. split; [|split; [done|split; [done|by apply wakes_yield]]].
    split; cbn; try done. by rewrite Hc.
Qed.

(** Task 1 runs, and waits for the mutex task 0 holds, whose priority is lower. *)
Definition held_mutex : xQUEUE := Queue None [] 0 0 0 (Some 0%nat) [] [] 0 1 0 queueUNLOCKED queueUNLOCKED.

Lemma held_mutex_tasks : queue_tasks demo_kernel held_mutex.
Proof. split; [apply demo_kernel_ok|..]; intros t; cbn; by rewrite elem_of_nil. Qed.

Lemma mutex_priority_inheritance_witness :
  exists k', xQueueGenericReceive demo_kernel held_mutex (Call AtInherit [] 10 0 None) =
      Ok (k', held_mutex, Call AtPlace [] 10 0 None) /\ kernel_ok k' /\
    reprioritized demo_kernel k' 0 3 0.
Proof.
  refine (proj1 (proj2 (mutex_priority_inheritance demo_kernel held_mutex (Call AtInherit [] 10 0 None)
    0 1 held_mutex_tasks _ _ eq_refl)) eq_refl); [by split|].
  eexists. vm_compute. reflexivity.
Defined.
