(* ===== verification/QueueSync.v ===== *)
(** * Tasks and interrupts on one queue: FreeRTOS_v6.1.0/queue.c

    The sections of the blocking calls of [Queue] interleaved by the scheduler
    of [Tasks]: the current task executes its next section, if it is ready or
    has suspended the scheduler; between any two sections a context switch,
    the tick interrupt, or interrupts that send and receive may come. A task
    whose block time ends is made ready by the tick. *)

From S2P Require Import Prelude Ring.
From stdpp Require Import functions gmap list.
From S2P Require Import Tasks Queue.
#[local] Open Scope Z_scope.

(** ** The system *)

(** A task and its current or last call: of xQueueGenericReceive or of
    xQueueGenericSend. *)
Record task : Type := Task {
  receiving : bool;
  tcall : call;
}.

Record sys : Type := Sys {
  sk : kernel;
  sq : xQUEUE;
  stasks : nat -> task;
}.

(** What happened to the queue, in order. *)
Inductive event : Type :=
  | Enq (pos : Z) (item : list Z)
  | Deq (item : list Z)
  | Peek (item : list Z)
  | Full
  | Empty.

Definition task_point (x : task) : point := c_point (tcall x).

Definition section (k : kernel) (q : xQUEUE) (x : task) : outcome (kernel * xQUEUE * call) :=
  if receiving x then xQueueGenericReceive k q (tcall x) else xQueueGenericSend k q (tcall x).

(** A call that returns from its first section has used the queue, or found
    it full or empty. *)
Definition section_events (x : task) (c' : call) : list event :=
  match task_point x, c_point c' with
  | Top, Returned true =>
      [if receiving x then (if c_opt (tcall x) =? 0 then Deq (c_buf c') else Peek (c_buf c'))
       else Enq (c_opt (tcall x)) (c_buf (tcall x))]
  | Top, Returned false => [if receiving x then Empty else Full]
  | _, _ => []
  end.

(** Which task may execute: the current one, unless it is blocked and the
    context switch is still to come. *)
Definition can_run (k : kernel) (t : nat) : Prop :=
  pxCurrentTCB k = Some t /\ (uxSchedulerSuspended k = 0 -> t ∈ ready_tasks k).

(** A proper argument of a send. *)
Definition proper (q : xQUEUE) (item : list Z) (pos : Z) : Prop :=
  zlen item = uxItemSize q /\ (pos = queueSEND_TO_BACK \/ pos = queueSEND_TO_FRONT).

Inductive sys_step : sys -> list event -> sys -> Prop :=
  | st_call k q f t b recv buf ticks opt :
      uxSchedulerSuspended k = 0 -> can_run k t -> task_point (f t) = Returned b ->
      (recv = false -> proper q buf opt) -> 0 <= ticks < 2 ^ 32 ->
      sys_step (Sys k q f) [] (Sys k q (<[t := Task recv (new_call buf ticks opt)]> f))
  | st_section k q f t k' q' c' :
      can_run k t -> section k q (f t) = Ok (k', q', c') ->
      sys_step (Sys k q f) (section_events (f t) c')
        (Sys k' q' (<[t := Task (receiving (f t)) c']> f))
  | st_isr_send k q f item pos w pass w' k' q' :
      proper q item pos ->
      xQueueGenericSendFromISR k q item w pos = Ok (pass, w', k', q') ->
      sys_step (Sys k q f) [if pass then Enq pos item else Full] (Sys k' q' f)
  | st_isr_receive k q f w pass data w' k' q' :
      xQueueReceiveFromISR k q w = Ok (pass, data, w', k', q') ->
      sys_step (Sys k q f) [if pass then Deq data else Empty] (Sys k' q' f)
  | st_tick k q f k' woken :
      vTaskIncrementTick k = Ok (k', woken) -> sys_step (Sys k q f) [] (Sys k' (unlink woken q) f)
  | st_switch k q f k' : vTaskSwitchContext k = Ok k' -> sys_step (Sys k q f) [] (Sys k' q f).

Inductive sys_run : sys -> list event -> sys -> Prop :=
  | run_nil s : sys_run s [] s
  | run_cons s1 es s2 fs s3 : sys_run s1 es s2 -> sys_step s2 fs s3 -> sys_run s1 (es ++ fs) s3.

(** A new queue, and tasks that are in no call. *)
Record initial (s : sys) : Prop := Initial {
  in_queue : queue_at (sq s) [];
  in_lists : same_queue (sq s) (sq s) [] [];
  in_rx : xRxLock (sq s) = queueUNLOCKED;
  in_tx : xTxLock (sq s) = queueUNLOCKED;
  in_kernel : kernel_ok (sk s);
  in_number : 0 < uxCurrentNumberOfTasks (sk s);
  in_missed : 0 <= uxMissedTicks (sk s) < 2 ^ 32;
  in_suspended : uxSchedulerSuspended (sk s) = 0;
  in_pending : xPendingReadyList (sk s) = [];
  in_calls : forall t, exists b, task_point (stasks s t) = Returned b;
}.

(** ** The specification: a bounded FIFO *)

Definition fifo_step (len : Z) (items : list (list Z)) (e : event) : option (list (list Z)) :=
  match e with
  | Enq pos item => if decide (zlen items < len) then Some (enqueue pos item items) else None
  | Deq item =>
      match items with x :: items' => if decide (x = item) then Some items' else None | [] => None end
  | Peek item =>
      match items with x :: _ => if decide (x = item) then Some items else None | [] => None end
  | Full => if decide (zlen items = len) then Some items else None
  | Empty => if decide (items = []) then Some items else None
  end.

Fixpoint fifo_run (len : Z) (items : list (list Z)) (es : list event) : option (list (list Z)) :=
  match es with
  | [] => Some items
  | e :: r => match fifo_step len items e with Some items' => fifo_run len items' r | None => None end
  end.

Lemma fifo_run_app len items es fs :
  fifo_run len items (es ++ fs) =
  match fifo_run len items es with Some items' => fifo_run len items' fs | None => None end.
Proof. revert items. induction es as [|e r IH]; intros items; cbn; [done|]. by destruct (fifo_step _ _ _). Qed.

(** ** Counting *)

(** A call that goes on to test the queue. *)
Definition will_test (p : point) : bool :=
  match p with
  | Top => true
  | AtUnlockTx o | AtUnlockRx o | AtResume o =>
      match o with TimedOut => false | Placed | Retry => true end
  | _ => false
  end.

Definition tests (b : bool) (x : task) : bool := eqb (receiving x) b && will_test (task_point x).

(** How many tasks of a list will test the queue, to receive or to send. *)
Fixpoint testers (b : bool) (f : nat -> task) (l : list nat) : Z :=
  match l with
  | [] => 0
  | u :: r => Z.b2z (tests b (f u)) + testers b f r
  end.

Lemma testers_app b f l1 l2 : testers b f (l1 ++ l2) = testers b f l1 + testers b f l2.
Proof. induction l1; cbn; lia. Qed.
Lemma testers_perm b f l1 l2 : Permutation l1 l2 -> testers b f l1 = testers b f l2.
Proof. induction 1; cbn; lia. Qed.
Lemma testers_occ b f l l1 l2 :
  (forall u, occ u l = occ u l1 + occ u l2) -> testers b f l = testers b f l1 + testers b f l2.
Proof.
  intros Ho. rewrite <- testers_app. apply testers_perm, occ_permutation. intros u. by rewrite Ho, occ_app.
Qed.
Lemma testers_nonneg b f l : 0 <= testers b f l.
Proof. induction l as [|u r IH]; cbn; [lia|]. pose proof (b2z_bounds (tests b (f u))). lia. Qed.
Lemma testers_update b f t x l :
  testers b (<[t := x]> f) l = testers b f l + occ t l * (Z.b2z (tests b x) - Z.b2z (tests b (f t))).
Proof.
  induction l as [|u r IH]; cbn; [lia|]. rewrite IH. case_bool_decide as E; cbn.
  - subst. rewrite fn_lookup_insert. lia.
  - rewrite fn_lookup_insert_ne by done. lia.
Qed.
Lemma testers_all b f l : (forall t, t ∈ l -> tests b (f t) = true) -> testers b f l = zlen l.
Proof.
  induction l as [|u r IH]; intros Ha; [done|]. rewrite zlen_cons. cbn.
  rewrite Ha by set_solver. rewrite IH by set_solver. cbn. lia.
Qed.
Lemma testers_pos b f l : 0 < testers b f l -> exists t, t ∈ l /\ tests b (f t) = true.
Proof.
  induction l as [|u r IH]; cbn; [lia|]. destruct (tests b (f u)) eqn:E; [intros _; exists u; set_solver|].
  cbn. intros Hp. destruct IH as (t & Ht & Hx); [lia|]. exists t. set_solver.
Qed.

(** ** The invariant

    Both sides of the queue in one form: [v_wait true] are the tasks that
    wait to receive, [v_lock true] is xTxLock and [v_avail true] the number
    of messages; [v_wait false] are the tasks that wait to send, [v_lock
    false] is xRxLock and [v_avail false] the number of free slots. *)

Record view : Type := View {
  v_ready : list nat;
  v_pend : list nat;
  v_susp : Z;
  v_cur : nat;
  v_wait : bool -> list nat;
  v_lock : bool -> Z;
  v_avail : bool -> Z;
  v_task : nat -> task;
}.

Definition free_point (p : point) : bool :=
  match p with Top | AtSuspend | Returned _ => true | _ => false end.

(** The lock counts at the points of the suspended region (of a queue that is
    not a mutex: there is no inheritance). *)
Definition lock_state (p : point) (lock : bool -> Z) : Prop :=
  match p with
  | AtLock | AtResume _ => lock true = queueUNLOCKED /\ lock false = queueUNLOCKED
  | AtTimeOut | AtCheck | AtPlace | AtUnlockTx _ => 0 <= lock true /\ 0 <= lock false
  | AtUnlockRx _ => lock true = queueUNLOCKED /\ 0 <= lock false
  | _ => False
  end.

Record vinv (v : view) : Prop := VInv {
  vi_once : forall t, occ t (v_ready v) + occ t (v_pend v) + occ t (v_wait v true) + occ t (v_wait v false) <= 1;
  vi_test : forall b t, t ∈ v_wait v b -> tests b (v_task v t) = true;
  vi_pend : forall t, t ∈ v_pend v -> will_test (task_point (v_task v t)) = true;
  vi_susp :
    (v_susp v = 0 /\ v_pend v = [] /\ (forall b, v_lock v b = queueUNLOCKED) /\
       forall t, free_point (task_point (v_task v t)) = true) \/
    (v_susp v = 1 /\ lock_state (task_point (v_task v (v_cur v))) (v_lock v) /\
       forall t, t <> v_cur v -> free_point (task_point (v_task v t)) = true);
  vi_wake : forall b, v_wait v b <> [] ->
    v_avail v b <= testers b (v_task v) (v_ready v ++ v_pend v) + Z.max 0 (v_lock v b);
  vi_place : v_susp v = 1 -> task_point (v_task v (v_cur v)) = AtPlace ->
    let b := receiving (v_task v (v_cur v)) in v_avail v b <= Z.max 0 (v_lock v b);
}.

Lemma vi_at_rest v : vinv v -> v_susp v = 0 ->
  v_pend v = [] /\ (forall b, v_lock v b = queueUNLOCKED) /\
  forall t, free_point (task_point (v_task v t)) = true.
Proof. intros [_ _ _ [(_ & H)|(E & _)] _ _] ?; [done|lia]. Qed.

Lemma tests_point b x : tests b x = true -> receiving x = b /\ will_test (task_point x) = true.
Proof. unfold tests. rewrite andb_true_iff, eqb_true_iff. done. Qed.

Lemma tests_other b x : receiving x = negb b -> tests b x = false.
Proof. unfold tests. intros ->. by destruct b. Qed.

Lemma tests_no b x : will_test (task_point x) = false -> tests b x = false.
Proof. unfold tests. intros ->. apply andb_false_r. Qed.

Lemma tests_yes x : will_test (task_point x) = true -> tests (receiving x) x = true.
Proof. unfold tests. intros ->. by destruct (receiving x). Qed.

(** A task is in one list only. *)
Lemma ready_not_waiting v t b : vinv v -> t ∈ v_ready v -> t ∉ v_wait v b.
Proof.
  intros Hv. rewrite !occ_elem. pose proof (vi_once _ Hv t) as H.
  pose proof (occ_nonneg t (v_pend v)). pose proof (occ_nonneg t (v_wait v true)).
  pose proof (occ_nonneg t (v_wait v false)). destruct b; lia.
Qed.

Lemma take_1_elem {A} (l : list A) x : x ∈ take 1 l -> x ∈ l.
Proof. destruct l; cbn; [done|]. rewrite take_0. set_solver. Qed.

Lemma tail_elem {A} (l : list A) x : x ∈ tail l -> x ∈ l.
Proof. destruct l; cbn; [done|]. set_solver. Qed.

Lemma tail_not_nil {A} (l : list A) : tail l <> [] -> l <> [] /\ length (take 1 l) = 1%nat.
Proof. by destruct l. Qed.

Lemma bool_or_neg b (P : bool -> Prop) : P b -> P (negb b) -> forall b', P b'.
Proof. destruct b; intros ?? []; done. Qed.

(** The woken tasks count. *)
Lemma testers_woken v b t x :
  vinv v -> t ∈ v_ready v -> testers b (<[t := x]> (v_task v)) (take 1 (v_wait v b)) = zlen (take 1 (v_wait v b)).
Proof.
  intros Hv Ht. apply testers_all. intros u Hu%take_1_elem.
  rewrite fn_lookup_insert_ne; [by apply (vi_test _ Hv)|]. intros <-.
  by apply (ready_not_waiting v t b Hv Ht).
Qed.

(** At the first section: the task uses what is available on its side, adds
    [g] to the other side and wakes the first task of the side [w]. *)
Lemma vi_top v v' t b w g u x :
  vinv v -> v_susp v = 0 -> t ∈ v_ready v -> receiving (v_task v t) = b -> task_point (v_task v t) = Top ->
  v_task v' = <[t := x]> (v_task v) -> receiving x = b ->
  will_test (task_point x) = false -> free_point (task_point x) = true ->
  v_susp v' = 0 -> v_pend v' = [] ->
  (forall y, occ y (v_ready v') = occ y (v_ready v) + occ y (take 1 (v_wait v w))) ->
  v_wait v' w = tail (v_wait v w) -> v_wait v' (negb w) = v_wait v (negb w) ->
  (forall s, v_lock v' s = v_lock v s) ->
  v_avail v' b = v_avail v b - u -> v_avail v' (negb b) = v_avail v (negb b) + g ->
  (w = b /\ u = 0 /\ g = 0) \/ (w = negb b /\ u = 1 /\ g = 1) ->
  vinv v'.
Proof.
  intros Hv Hs Ht Hr Hp Hf Hxr Hxp Hfp Hs' Hpd Hrd Hw Hnw Hl Hab Hanb Hc.
  destruct (vi_at_rest _ Hv Hs) as (Hpend & Hlock & Hfree).
  assert (Hocc : occ t (v_ready v) = 1).
  { pose proof (vi_once _ Hv t). apply occ_elem in Ht. pose proof (occ_nonneg t (v_pend v)).
    pose proof (occ_nonneg t (v_wait v true)). pose proof (occ_nonneg t (v_wait v false)). lia. }
  assert (Hsub : forall s y, y ∈ v_wait v' s -> y ∈ v_wait v s).
  { refine (bool_or_neg w (fun s => forall y, y ∈ v_wait v' s -> y ∈ v_wait v s) _ _);
      [rewrite Hw; intros y; apply tail_elem|by rewrite Hnw]. }
  split.
  - intros y. pose proof (vi_once _ Hv y) as Ho. rewrite Hpd, Hrd. rewrite Hpend in Ho. cbn [occ] in *.
    pose proof (occ_hd_tl y (v_wait v w)). destruct w; cbn [negb] in *; rewrite Hw, Hnw; lia.
  - intros s y Hy%Hsub. rewrite Hf, fn_lookup_insert_ne; [by apply (vi_test _ Hv)|].
    intros <-. by apply (ready_not_waiting v t s Hv Ht).
  - rewrite Hpd. set_solver.
  - left. rewrite Hf. split_and!; [done|done| |].
    + intros s. by rewrite Hl.
    + intros y. destruct (decide (y = t)) as [->|]; [by rewrite fn_lookup_insert|].
      rewrite fn_lookup_insert_ne by done. apply Hfree.
  - intros s Hne. rewrite Hf, Hpd, app_nil_r, (testers_occ _ _ _ _ _ Hrd), Hl, testers_update, Hocc, (tests_no s x Hxp).
    assert (Hne0 : v_wait v s <> []).
    { intros E. apply Hne. destruct (v_wait v' s) as [|y l] eqn:Ey; [done|].
      specialize (Hsub s y). rewrite Ey, E in Hsub. set_solver. }
    pose proof (vi_wake _ Hv s Hne0) as Hwk. rewrite Hpend, app_nil_r in Hwk.
    pose proof (testers_nonneg s (<[t := x]> (v_task v)) (take 1 (v_wait v w))) as Hnn.
    assert (Hwoken : s = w -> testers s (<[t := x]> (v_task v)) (take 1 (v_wait v w)) = 1).
    { intros ->. rewrite (testers_woken v w t x Hv Ht). rewrite Hw in Hne.
      apply tail_not_nil in Hne as [_ Hlen]. unfold zlen. lia. }
    pose proof (b2z_bounds (tests s (v_task v t))). cbn [Z.b2z].
    destruct (decide (s = b)) as [->|Hsb].
    + rewrite Hab. destruct Hc as [(-> & -> & ->)|(-> & -> & ->)]; [rewrite Hwoken by done|]; lia.
    + assert (s = negb b) as -> by (by destruct s, b).
      rewrite (tests_other (negb b) (v_task v t)) by (by destruct b). cbn [Z.b2z].
      rewrite Hanb. destruct Hc as [(-> & -> & ->)|(-> & -> & ->)]; [|rewrite Hwoken by done]; lia.
  - lia.
Qed.

(** A task moves on; no task leaves or joins an event list. It may stop being
    one that will test its side when nothing is available there. *)
Lemma vi_retag v v' t x :
  vinv v -> v_task v' = <[t := x]> (v_task v) ->
  (forall y, occ y (v_ready v') + occ y (v_pend v') = occ y (v_ready v) + occ y (v_pend v)) ->
  (forall y, y ∈ v_pend v' -> y ∈ v_pend v) ->
  (forall s, v_wait v' s = v_wait v s) -> (forall s, v_avail v' s = v_avail v s) ->
  (forall s, Z.max 0 (v_lock v' s) = Z.max 0 (v_lock v s)) ->
  (forall s, t ∈ v_wait v s -> tests s x = true) -> (t ∈ v_pend v' -> will_test (task_point x) = true) ->
  (forall s, (tests s (v_task v t) = true -> tests s x = true) \/ v_avail v s <= 0) ->
  (v_susp v' = 0 /\ v_pend v' = [] /\ (forall b, v_lock v' b = queueUNLOCKED) /\
     (forall y, y <> t -> free_point (task_point (v_task v y)) = true) /\ free_point (task_point x) = true) \/
  (v_susp v' = 1 /\ v_cur v' = t /\ lock_state (task_point x) (v_lock v') /\
     (forall y, y <> t -> free_point (task_point (v_task v y)) = true) /\
     (task_point x = AtPlace -> v_avail v (receiving x) <= Z.max 0 (v_lock v (receiving x)))) ->
  vinv v'.
Proof.
  intros Hv Hf Hrp Hpd Hw Ha Hl Hwt Hpt Htst Hsusp.
  assert (Hne : forall y, y <> t -> v_task v' y = v_task v y).
  { intros y Hy. rewrite Hf. by apply fn_lookup_insert_ne. }
  assert (Heq : v_task v' t = x) by (rewrite Hf; apply fn_lookup_insert).
  split.
  - intros y. rewrite !Hw. pose proof (vi_once _ Hv y). specialize (Hrp y). lia.
  - intros s y. rewrite Hw. intros Hy. destruct (decide (y = t)) as [->|Hyt].
    + rewrite Heq. by apply Hwt.
    + rewrite Hne by done. by apply (vi_test _ Hv).
  - intros y Hy. destruct (decide (y = t)) as [->|Hyt]; [rewrite Heq; auto|].
    rewrite Hne by done. by apply (vi_pend _ Hv), Hpd.
  - destruct Hsusp as [(H1 & H2 & H3 & H4 & H5)|(H1 & H2 & H3 & H4 & _)]; [left|right].
    + split_and!; try done. intros y. destruct (decide (y = t)) as [->|]; [by rewrite Heq|rewrite Hne by done; auto].
    + rewrite H2, Heq. split_and!; try done. intros y Hy. rewrite Hne by done. auto.
  - intros s. assert (Hperm : Permutation (v_ready v' ++ v_pend v') (v_ready v ++ v_pend v)).
    { apply occ_permutation. intros y. rewrite !occ_app. apply Hrp. }
    rewrite Hw, Ha, Hl, (testers_perm _ _ _ _ Hperm), Hf, testers_update. intros Hs. pose proof (vi_wake _ Hv s Hs).
    pose proof (testers_nonneg s (<[t := x]> (v_task v)) (v_ready v ++ v_pend v)) as Hnn.
    rewrite testers_update in Hnn. pose proof (occ_nonneg t (v_ready v ++ v_pend v)).
    destruct (Htst s) as [Hi|Hi]; [|lia].
    assert (Z.b2z (tests s (v_task v t)) <= Z.b2z (tests s x)).
    { destruct (tests s (v_task v t)); [rewrite Hi by done; done|apply b2z_bounds]. }
    nia.
  - intros H1 H2. destruct Hsusp as [(H3 & _)|(_ & H3 & _ & _ & H4)]; [lia|].
    rewrite H3, Heq in *. cbn zeta. rewrite Ha, Hl. auto.
Qed.

(** The current task of the suspended region joins the event list of its side. *)
Lemma vi_placed v v' t x b :
  vinv v -> v_cur v = t -> v_susp v = 1 -> task_point (v_task v t) = AtPlace -> receiving (v_task v t) = b ->
  v_task v' = <[t := x]> (v_task v) -> receiving x = b -> task_point x = AtUnlockTx Placed ->
  v_susp v' = 1 -> v_cur v' = t -> v_pend v' = v_pend v ->
  (forall y, occ y (v_ready v) = occ y (v_ready v') + Z.b2z (bool_decide (t = y))) ->
  Permutation (v_wait v' b) (t :: v_wait v b) -> v_wait v' (negb b) = v_wait v (negb b) ->
  (forall s, v_lock v' s = v_lock v s) -> (forall s, v_avail v' s = v_avail v s) -> vinv v'.
Proof.
  intros Hv Hcur Hs Hp Hb Hf Hxb Hxp Hs' Hc' Hpd Hrd Hperm Hnw Hl Ha.
  assert (Hnt : will_test (task_point (v_task v t)) = false) by (by rewrite Hp).
  assert (Hoccp : occ t (v_pend v) = 0).
  { pose proof (occ_nonneg t (v_pend v)). destruct (decide (t ∈ v_pend v)) as [H0%(vi_pend _ Hv)|H0];
      [congruence|rewrite occ_elem in H0; lia]. }
  assert (Hnw' : forall s, t ∉ v_wait v s).
  { intros s H%(vi_test _ Hv)%tests_point. destruct H. congruence. }
  destruct (vi_susp _ Hv) as [(E & _)|(_ & Hlock & Hfree)]; [lia|]. rewrite Hcur, Hp in Hlock. rewrite Hcur in Hfree.
  assert (Hocc0 : forall s, occ t (v_wait v s) = 0).
  { intros s. pose proof (Hnw' s) as H. rewrite occ_elem in H. pose proof (occ_nonneg t (v_wait v s)). lia. }
  assert (Hxt : tests b x = true) by (unfold tests; rewrite Hxb, Hxp; by destruct b).
  split.
  - intros y. pose proof (vi_once _ Hv y). rewrite Hpd. pose proof (occ_perm y _ _ Hperm) as Hy.
    cbn [occ] in Hy. specialize (Hrd y). destruct b; cbn [negb] in *; rewrite Hnw; lia.
  - intros s y. rewrite Hf. destruct (decide (s = b)) as [->|Hsb].
    + rewrite Hperm. intros [->|Hy]%elem_of_cons; [by rewrite fn_lookup_insert|].
      rewrite fn_lookup_insert_ne; [by apply (vi_test _ Hv)|]. intros <-. by apply (Hnw' b).
    + assert (s = negb b) as -> by (by destruct s, b). rewrite Hnw. intros Hy.
      rewrite fn_lookup_insert_ne; [by apply (vi_test _ Hv)|]. intros <-. by apply (Hnw' (negb b)).
  - intros y. rewrite Hpd, Hf. intros Hy. rewrite fn_lookup_insert_ne; [by apply (vi_pend _ Hv)|].
    intros <-. rewrite occ_elem in Hy. lia.
  - right. rewrite Hc', Hf, fn_lookup_insert, Hxp. split; [done|]. split.
    + cbn in *. by rewrite !Hl.
    + intros y Hy. rewrite fn_lookup_insert_ne by congruence. by apply Hfree.
  - intros s Hne. rewrite Ha, Hl, Hpd, Hf.
    destruct (decide (s = b)) as [->|Hsb].
    + pose proof (vi_place _ Hv Hs) as Hpl. cbn zeta in Hpl. rewrite Hcur, Hb in Hpl. specialize (Hpl Hp).
      pose proof (testers_nonneg b (<[t:=x]> (v_task v)) (v_ready v' ++ v_pend v)). lia.
    + assert (s = negb b) as -> by (by destruct s, b). rewrite Hnw in Hne.
      pose proof (vi_wake _ Hv _ Hne) as H. rewrite testers_update, (tests_no _ _ Hnt), tests_other by (by rewrite negb_involutive).
      assert (Hrd' : forall y, occ y (v_ready v) = occ y (v_ready v') + occ y [t]) by (intros y; rewrite Hrd; cbn; lia).
      rewrite testers_app in H. rewrite testers_app, (testers_occ _ _ _ _ _ Hrd') in *. cbn [testers] in H.
      rewrite (tests_no _ _ Hnt) in H. cbn in *. lia.
  - intros _. rewrite Hc', Hf, fn_lookup_insert, Hxp. done.
Qed.

(** Unlocking one side: a task for each item that came while it was locked. *)
Lemma vi_unlock v v' t x b n :
  vinv v -> v_cur v = t -> v_susp v = 1 -> 0 <= v_lock v b ->
  Z.of_nat n = v_lock v b \/ (Z.of_nat n <= v_lock v b /\ n = length (v_wait v b)) ->
  receiving x = receiving (v_task v t) ->
  will_test (task_point x) = will_test (task_point (v_task v t)) -> task_point x <> AtPlace ->
  v_task v' = <[t := x]> (v_task v) -> v_susp v' = 1 -> v_cur v' = t ->
  (forall y, occ y (v_ready v') = occ y (v_ready v)) -> v_pend v' = v_pend v ++ take n (v_wait v b) ->
  v_wait v' b = drop n (v_wait v b) -> v_wait v' (negb b) = v_wait v (negb b) ->
  v_lock v' b = queueUNLOCKED -> v_lock v' (negb b) = v_lock v (negb b) ->
  lock_state (task_point x) (v_lock v') -> (forall s, v_avail v' s = v_avail v s) -> vinv v'.
Proof.
  intros Hv Hcur Hs Hlk Hn Hxr Hxw Hxp Hf Hs' Hc' Hrd Hpd Hwb Hnw Hlb Hnl Hls Ha.
  destruct (vi_susp _ Hv) as [(E & _)|(_ & _ & Hfree)]; [lia|]. rewrite Hcur in Hfree.
  assert (Htests : forall s y, tests s (<[t := x]> (v_task v) y) = tests s (v_task v y)).
  { intros s y. destruct (decide (y = t)) as [->|]; [|by rewrite fn_lookup_insert_ne].
    rewrite fn_lookup_insert. unfold tests. by rewrite Hxr, Hxw. }
  assert (Hall : forall s l, testers s (<[t := x]> (v_task v)) l = testers s (v_task v) l).
  { intros s l. induction l as [|u r IH]; cbn; [done|]. by rewrite Htests, IH. }
  split.
  - intros y. pose proof (vi_once _ Hv y). pose proof (occ_take_drop y n (v_wait v b)).
    rewrite Hrd, Hpd, occ_app. destruct b; cbn [negb] in *; rewrite Hwb, Hnw; lia.
  - intros s y. rewrite Hf, Htests. intros Hy. apply (vi_test _ Hv).
    destruct (decide (s = b)) as [->|Hsb].
    + rewrite Hwb in Hy. apply occ_elem. apply occ_elem in Hy. pose proof (occ_take_drop y n (v_wait v b)).
      pose proof (occ_nonneg y (take n (v_wait v b))). lia.
    + assert (s = negb b) as -> by (by destruct s, b). by rewrite <- Hnw.
  - intros y. rewrite Hpd, Hf. intros Hy.
    assert (Hw : will_test (task_point (v_task v y)) = true).
    { apply elem_of_app in Hy as [Hy|Hy]; [by apply (vi_pend _ Hv)|].
      apply (tests_point b). apply (vi_test _ Hv). apply occ_elem. apply occ_elem in Hy.
      pose proof (occ_take_drop y n (v_wait v b)). pose proof (occ_nonneg y (drop n (v_wait v b))). lia. }
    destruct (decide (y = t)) as [->|]; [rewrite fn_lookup_insert; congruence|by rewrite fn_lookup_insert_ne].
  - right. rewrite Hc', Hf, fn_lookup_insert. split; [done|]. split; [done|].
    intros y Hy. rewrite fn_lookup_insert_ne by congruence. by apply Hfree.
  - intros s Hne. rewrite Ha, Hf, Hpd, app_assoc, testers_app, !Hall.
    rewrite (testers_perm _ _ (v_ready v' ++ v_pend v) (v_ready v ++ v_pend v))
      by (apply occ_permutation; intros y; by rewrite !occ_app, Hrd).
    destruct (decide (s = b)) as [->|Hsb].
    + rewrite Hwb in Hne. rewrite Hlb. pose proof (vi_wake _ Hv b) as H.
      assert (v_wait v b <> []) as Hne0 by (intros E; by rewrite E, drop_nil in Hne). specialize (H Hne0).
      assert (Hlen : (n < length (v_wait v b))%nat).
      { destruct (decide (n < length (v_wait v b))%nat); [done|]. rewrite drop_ge in Hne by lia. done. }
      rewrite (testers_all b (v_task v) (take n (v_wait v b))).
      * unfold zlen, queueUNLOCKED. rewrite length_take. lia.
      * intros y Hy. apply (vi_test _ Hv). apply elem_of_take in Hy as (i & Hi & _).
        by eapply list_elem_of_lookup_2.
    + assert (s = negb b) as -> by (by destruct s, b). rewrite Hnw in Hne. rewrite Hnl.
      pose proof (vi_wake _ Hv _ Hne). pose proof (testers_nonneg (negb b) (v_task v) (take n (v_wait v b))). lia.
  - intros _. rewrite Hc', Hf, fn_lookup_insert. done.
Qed.

(** An interrupt takes from the side [b] and adds to the other. *)
Lemma vi_isr v v' b :
  vinv v -> v_task v' = v_task v -> v_susp v' = v_susp v -> v_cur v' = v_cur v ->
  v_wait v' b = v_wait v b -> v_lock v' b = v_lock v b ->
  v_avail v' b = v_avail v b - 1 -> v_avail v' (negb b) = v_avail v (negb b) + 1 ->
  (v_lock v (negb b) = queueUNLOCKED /\ v_lock v' (negb b) = queueUNLOCKED /\
   v_wait v' (negb b) = tail (v_wait v (negb b)) /\
   (if v_susp v =? 0
    then (forall y, occ y (v_ready v') = occ y (v_ready v) + occ y (take 1 (v_wait v (negb b)))) /\ v_pend v' = v_pend v
    else (forall y, occ y (v_ready v') = occ y (v_ready v)) /\ v_pend v' = v_pend v ++ take 1 (v_wait v (negb b)))) \/
  (v_lock v (negb b) <> queueUNLOCKED /\ v_lock v' (negb b) = v_lock v (negb b) + 1 /\
   v_wait v' (negb b) = v_wait v (negb b) /\ (forall y, occ y (v_ready v') = occ y (v_ready v)) /\ v_pend v' = v_pend v) ->
  vinv v'.
Proof.
  intros Hv Hf Hs Hc Hwb Hlb Hab Hanb [(L1 & L2 & Hw & Hrp)|(L1 & L2 & Hw & Hrd & Hpd)].
  - assert (Hocc : forall y, occ y (v_ready v') + occ y (v_pend v') =
      occ y (v_ready v) + occ y (v_pend v) + occ y (take 1 (v_wait v (negb b)))).
    { intros y. destruct (v_susp v =? 0); destruct Hrp as [Hr ->]; rewrite ?occ_app, Hr; lia. }
    assert (Htst : forall s, testers s (v_task v) (v_ready v' ++ v_pend v') =
      testers s (v_task v) (v_ready v ++ v_pend v) + testers s (v_task v) (take 1 (v_wait v (negb b)))).
    { intros s. apply testers_occ. intros y. rewrite !occ_app. apply Hocc. }
    assert (Hsub : forall s y, y ∈ v_wait v' s -> y ∈ v_wait v s).
    { refine (bool_or_neg b (fun s => forall y, y ∈ v_wait v' s -> y ∈ v_wait v s) _ _);
        [by rewrite Hwb|rewrite Hw; intros y; apply tail_elem]. }
    split.
    + intros y. pose proof (vi_once _ Hv y). specialize (Hocc y). pose proof (occ_hd_tl y (v_wait v (negb b))).
      destruct b; cbn [negb] in *; rewrite Hw, Hwb; lia.
    + intros s y Hy. rewrite Hf. by apply (vi_test _ Hv), Hsub.
    + intros y Hy. rewrite Hf. destruct (v_susp v =? 0); destruct Hrp as [_ Hpd]; rewrite Hpd in Hy;
        [by apply (vi_pend _ Hv)|]. apply elem_of_app in Hy as [Hy|Hy]; [by apply (vi_pend _ Hv)|].
      apply (tests_point (negb b)), (vi_test _ Hv). by apply take_1_elem.
    + rewrite Hf, Hs, Hc. assert (Hl : forall s, v_lock v' s = v_lock v s).
      { apply (bool_or_neg b); congruence. }
      destruct (vi_susp _ Hv) as [(E & Hp & Hl0 & Hfr)|(E & Hls & Hfr)]; [left|right].
      * rewrite E in Hrp. destruct Hrp as [_ Hpd]. split_and!; try done; [congruence|].
        intros s. by rewrite Hl.
      * split_and!; try done. destruct (task_point _); cbn in *; by rewrite ?Hl.
    + intros s Hne. rewrite Hf, Htst. destruct (decide (s = b)) as [->|Hsb].
      * rewrite Hwb in Hne. rewrite Hlb, Hab. pose proof (vi_wake _ Hv _ Hne).
        pose proof (testers_nonneg b (v_task v) (take 1 (v_wait v (negb b)))). lia.
      * assert (s = negb b) as -> by (by destruct s, b). rewrite Hw in Hne. apply tail_not_nil in Hne as [Hne Hlen].
        rewrite Hanb, (testers_all _ _ (take 1 _)); [|intros y Hy%take_1_elem; by apply (vi_test _ Hv)].
        pose proof (vi_wake _ Hv _ Hne). unfold zlen. rewrite Hlen, L2. rewrite L1 in *. lia.
    + rewrite Hf, Hs, Hc. intros E1 E2. exfalso.
      destruct (vi_susp _ Hv) as [(E & _)|(_ & Hls & _)]; [lia|]. rewrite E2 in Hls. cbn in Hls.
      unfold queueUNLOCKED in L1. destruct b; cbn in *; lia.
  - assert (Hnn : 0 <= v_lock v (negb b)).
    { destruct (vi_susp _ Hv) as [(_ & _ & E & _)|(_ & Hls & _)]; [by rewrite E in L1|].
      destruct (task_point _), b; cbn in *; unfold queueUNLOCKED in *; try done; lia. }
    split.
    + intros y. pose proof (vi_once _ Hv y). rewrite Hrd, Hpd. destruct b; cbn [negb] in *; rewrite Hw, Hwb; lia.
    + intros s y. rewrite Hf. intros Hy. apply (vi_test _ Hv). revert s Hy.
      refine (bool_or_neg b (fun s => y ∈ v_wait v' s -> y ∈ v_wait v s) _ _); congruence.
    + rewrite Hf, Hpd. apply (vi_pend _ Hv).
    + rewrite Hf, Hs, Hc, Hpd. destruct (vi_susp _ Hv) as [(_ & _ & E & _)|(E & Hls & Hfr)]; [by rewrite E in L1|].
      right. split_and!; try done. destruct b; cbn [negb] in *;
      destruct (task_point _); cbn in *; rewrite ?Hlb, ?L2 in *; unfold queueUNLOCKED in *; try done; lia.
    + intros s. rewrite Hf, Hpd, (testers_perm _ _ (v_ready v' ++ v_pend v) (v_ready v ++ v_pend v))
        by (apply occ_permutation; intros y; by rewrite !occ_app, Hrd). revert s.
      refine (bool_or_neg b (fun s => v_wait v' s <> [] -> v_avail v' s <= _ + Z.max 0 (v_lock v' s)) _ _).
      * rewrite Hwb, Hlb, Hab. intros Hne. pose proof (vi_wake _ Hv _ Hne). lia.
      * rewrite Hw, L2, Hanb. intros Hne. pose proof (vi_wake _ Hv _ Hne). lia.
    + rewrite Hf, Hs, Hc. intros E1 E2. pose proof (vi_place _ Hv E1 E2) as H. cbn zeta in *. revert H.
      generalize (receiving (v_task v (v_cur v))).
      refine (bool_or_neg b (fun s => v_avail v s <= _ -> v_avail v' s <= Z.max 0 (v_lock v' s)) _ _); lia.
Qed.

(** The block time of the tasks [ws] ends. *)
Lemma vi_time_out v v' ws :
  vinv v -> v_susp v = 0 -> v_task v' = v_task v -> v_susp v' = 0 -> v_pend v' = [] ->
  (forall y, occ y (v_ready v') = occ y (v_ready v) + occ y ws) ->
  (forall y, occ y (v_ready v') + occ y (v_wait v' true) + occ y (v_wait v' false) <= 1) ->
  (forall s, v_wait v' s = filter (fun u => u ∉ ws) (v_wait v s)) ->
  (forall s, v_lock v' s = v_lock v s) -> (forall s, v_avail v' s = v_avail v s) -> vinv v'.
Proof.
  intros Hv Hs Hf Hs' Hpd Hrd Honce Hw Hl Ha. destruct (vi_at_rest _ Hv Hs) as (Hpend & Hlock & Hfree).
  assert (Hsub : forall s y, y ∈ v_wait v' s -> y ∈ v_wait v s).
  { intros s y. rewrite Hw. by intros [_ Hy]%list_elem_of_filter. }
  split.
  - intros y. rewrite Hpd. cbn [occ]. specialize (Honce y). lia.
  - intros s y Hy. rewrite Hf. by apply (vi_test _ Hv), Hsub.
  - rewrite Hpd. intros t Ht. by apply elem_of_nil in Ht.
  - left. rewrite Hf. split_and!; try done. intros s. by rewrite Hl.
  - intros s Hne. rewrite Ha, Hl, Hf, Hpd, app_nil_r, (testers_occ _ _ _ _ _ Hrd).
    assert (Hne0 : v_wait v s <> []) by (intros E; by rewrite Hw, E in Hne).
    pose proof (vi_wake _ Hv s Hne0) as H. rewrite Hpend, app_nil_r in H.
    pose proof (testers_nonneg s (v_task v) ws). lia.
  - lia.
Qed.

(** ** The invariant of the system *)

Definition cur_of (k : kernel) : nat := default 0%nat (pxCurrentTCB k).
#[local] Arguments cur_of : simpl never.

Definition view_of (s : sys) : view :=
  View (ready_tasks (sk s)) (xPendingReadyList (sk s)) (uxSchedulerSuspended (sk s)) (cur_of (sk s))
    (fun b => if b then xTasksWaitingToReceive (sq s) else xTasksWaitingToSend (sq s))
    (fun b => if b then xTxLock (sq s) else xRxLock (sq s))
    (fun b => if b then uxMessagesWaiting (sq s) else uxLength (sq s) - uxMessagesWaiting (sq s))
    (stasks s).

(** The kernel, whose pending tasks and those that wait on the queue are
    different blocked tasks. *)
Record kernel_side (k : kernel) (q : xQUEUE) : Prop := KernelSide {
  ks_ok : kernel_ok k;
  ks_number : 0 < uxCurrentNumberOfTasks k;
  ks_missed : 0 <= uxMissedTicks k < 2 ^ 32;
  ks_blocked : forall t, occ t (xPendingReadyList k) + occ t (xTasksWaitingToReceive q) +
    occ t (xTasksWaitingToSend q) <= occ t (blocked_tasks k);
}.

(** A call in progress: its item fits the queue, its time-out is set when it
    is tested, and a call that waits has time left. *)
Record call_ok (q : xQUEUE) (x : task) : Prop := CallOk {
  co_proper : receiving x = false -> (forall b, task_point x <> Returned b) ->
    proper q (c_buf (tcall x)) (c_opt (tcall x));
  co_entry : match task_point x with
             | AtSuspend | AtLock | AtTimeOut => c_entry (tcall x) <> None
             | _ => True
             end;
  co_ticks : match task_point x with
             | Returned _ => True
             | Top => 0 <= c_ticks (tcall x) < 2 ^ 32
             | _ => 0 < c_ticks (tcall x) < 2 ^ 32
             end;
}.

(** The task that suspended the scheduler is ready until it blocks. *)
Definition needs_ready (p : point) : bool :=
  match p with AtLock | AtTimeOut | AtCheck | AtInherit | AtPlace => true | _ => false end.

Record inv (len size : Z) (s : sys) (items : list (list Z)) : Prop := Inv {
  i_queue : queue_at (sq s) items;
  i_length : uxLength (sq s) = len;
  i_item : uxItemSize (sq s) = size;
  i_view : vinv (view_of s);
  i_kernel : kernel_side (sk s) (sq s);
  i_running : uxSchedulerSuspended (sk s) = 1 ->
    needs_ready (task_point (stasks s (cur_of (sk s)))) = true -> cur_of (sk s) ∈ ready_tasks (sk s);
  i_calls : forall t, call_ok (sq s) (stasks s t);
}.

Lemma ready_or_blocked k : kernel_ok k -> forall t, occ t (ready_tasks k) + occ t (blocked_tasks k) <= 1.
Proof.
  intros Hk t. pose proof (ko_once _ _ Hk t) as H. rewrite occ_generic in H. rewrite occ_blocked.
  pose proof (occ_nonneg t (xTasksWaitingTermination k)). lia.
Qed.

(** Each task is in one list at most. *)
Lemma kernel_side_once k q t :
  kernel_side k q ->
  occ t (ready_tasks k) + occ t (xPendingReadyList k) + occ t (xTasksWaitingToReceive q) +
    occ t (xTasksWaitingToSend q) <= 1.
Proof. intros [Hk _ _ Hb]. pose proof (ready_or_blocked k Hk t). specialize (Hb t). lia. Qed.

Lemma kernel_side_tasks k q : kernel_side k q -> queue_tasks k q.
Proof.
  intros [Hk _ _ Hb]. split; [done|..]; intros t Ht; apply occ_elem in Ht; apply occ_elem; specialize (Hb t);
    pose proof (occ_nonneg t (xPendingReadyList k)); pose proof (occ_nonneg t (xTasksWaitingToReceive q));
    pose proof (occ_nonneg t (xTasksWaitingToSend q)); lia.
Qed.

Lemma kernel_side_pending k q : kernel_side k q -> pending_ok k.
Proof.
  intros [Hk _ _ Hb]. split; intros t; [intros Ht%occ_elem; apply occ_elem|]; specialize (Hb t);
    pose proof (occ_nonneg t (xTasksWaitingToReceive q)); pose proof (occ_nonneg t (xTasksWaitingToSend q));
    pose proof (ready_or_blocked k Hk t); pose proof (occ_nonneg t (ready_tasks k)); lia.
Qed.

(** After some tasks have been woken. *)
Lemma wakes_side k q k' q' ts :
  kernel_side k q -> wakes k k' ts ->
  (forall t, occ t (xTasksWaitingToReceive q') + occ t (xTasksWaitingToSend q') + occ t ts <=
             occ t (xTasksWaitingToReceive q) + occ t (xTasksWaitingToSend q)) ->
  kernel_side k' q'.
Proof.
  intros [Hk Hn Hm Hb] [Hk' [_ _ En] Hl _ Em] Hw. split; [done|congruence|congruence|].
  intros t. specialize (Hb t). specialize (Hw t). destruct (_ =? 0).
  - destruct Hl as (-> & _ & Hbl). specialize (Hbl t). lia.
  - destruct Hl as (-> & _ & ->). rewrite occ_app. lia.
Qed.

Lemma kernel_side_lists k q q' :
  xTasksWaitingToReceive q' = xTasksWaitingToReceive q -> xTasksWaitingToSend q' = xTasksWaitingToSend q ->
  kernel_side k q -> kernel_side k q'.
Proof. intros E1 E2 []. split; try done. by rewrite E1, E2. Qed.

Lemma wakes_running k k' ts :
  uxSchedulerSuspended k = 0 -> wakes k k' ts ->
  uxSchedulerSuspended k' = 0 /\ cur_of k' = cur_of k /\ xPendingReadyList k' = xPendingReadyList k /\
  (forall u, occ u (ready_tasks k') = occ u (ready_tasks k) + occ u ts).
Proof.
  intros Hs [_ [_ Ec _] Hl Es _]. rewrite Hs in Hl. cbn in Hl. unfold cur_of. rewrite Ec.
  split; [congruence|]. tauto.
Qed.

Lemma wakes_suspended k k' ts :
  uxSchedulerSuspended k = 1 -> wakes k k' ts ->
  uxSchedulerSuspended k' = 1 /\ cur_of k' = cur_of k /\ xPendingReadyList k' = xPendingReadyList k ++ ts /\
  (forall u, occ u (ready_tasks k') = occ u (ready_tasks k)).
Proof.
  intros Hs [_ [_ Ec _] Hl Es _]. rewrite Hs in Hl. cbn in Hl. unfold cur_of. rewrite Ec.
  split; [congruence|]. tauto.
Qed.

Lemma initial_inv s : initial s -> inv (uxLength (sq s)) (uxItemSize (sq s)) s [].
Proof.
  intros [Hq [_ _ _ _ _ Es Er] Hrx Htx Hk Hn Hm Hs Hp Hcalls].
  assert (Hks : kernel_side (sk s) (sq s)).
  { split; try done. rewrite Hp, Es, Er. intros t. apply occ_nonneg. }
  split; try done.
  - split; cbn; rewrite ?Es, ?Er, ?Hp.
    + intros t. pose proof (kernel_side_once _ _ t Hks) as H. by rewrite Es, Er, Hp in H.
    + intros []; intros t Ht; by apply elem_of_nil in Ht.
    + intros t Ht. by apply elem_of_nil in Ht.
    + left. rewrite Hs. split_and!; [done|done|by intros []|]. intros t. by destruct (Hcalls t) as [b ->].
    + by intros [].
    + lia.
  - lia.
  - intros t. destruct (Hcalls t) as [b Hb]. split; rewrite Hb; [|done..]. intros _ Hne. by destruct (Hne b).
Qed.

Lemma unlock_loop_spec k el lock :
  uxSchedulerSuspended k = 1 -> kernel_ok k -> (forall t, t ∈ el -> t ∈ blocked_tasks k) ->
  exists k' n, unlock_loop k el lock = Ok (k', drop n el) /\ wakes k k' (take n el) /\
    (lock <= 0 /\ n = 0%nat \/ Z.of_nat n = lock \/ (Z.of_nat n <= lock /\ n = length el)).
Proof.
  revert k lock. induction el as [|t el IH]; intros k lock Hs Hk Hb; cbn [unlock_loop].
  - exists k, 0%nat. split; [done|]. split; [by apply wakes_none|]. cbn. lia.
  - unfold queueLOCKED_UNMODIFIED. destruct (Z.ltb_spec 0 lock).
    + destruct (wakes_one k t el Hk (Hb t ltac:(apply list_elem_of_here))) as (w & k0 & -> & Hw). cbn [obind].
      set (k1 := if w then vTaskMissedYield k0 else k0).
      assert (Hw1 : wakes k k1 [t]) by (unfold k1; destruct w; [by apply wakes_missed_yield|done]).
      clearbody k1. destruct (IH k1 (lock - 1)) as (k2 & n & -> & Hw2 & Hn).
      * by apply (wakes_suspended k k1 [t]).
      * by apply (ws_ok _ _ _ Hw1).
      * pose proof (ws_lists _ _ _ Hw1) as Hl. rewrite Hs in Hl. destruct Hl as (_ & _ & ->).
        intros u Hu. apply Hb. by apply list_elem_of_further.
      * exists k2, (S n). cbn [drop take]. split; [done|]. split.
        -- apply (wakes_trans k k1 k2 [t]); [lia|done|done].
        -- cbn [length]. lia.
    + exists k, 0%nat. split; [done|]. split; [by apply wakes_none|]. lia.
Qed.

(** A call that moves on. *)
Lemma call_moved q x x' :
  call_ok q x -> (forall b, task_point x <> Returned b) -> task_point x <> Top -> receiving x' = receiving x ->
  c_buf (tcall x') = c_buf (tcall x) -> c_opt (tcall x') = c_opt (tcall x) ->
  c_ticks (tcall x') = c_ticks (tcall x) ->
  match task_point x' with
  | AtSuspend | AtLock | AtTimeOut => c_entry (tcall x') <> None
  | _ => True
  end -> call_ok q x'.
Proof.
  intros [H1 H2 H3] Hn Ht E1 E2 E3 E4 He. split; [by rewrite E1, E2, E3; auto|done|].
  rewrite E4. destruct (task_point x) as [| | | | | | | | | |b]; try done; try (by destruct (Hn b));
    destruct (task_point x'); try done; lia.
Qed.

(** ** Each section keeps the invariant, is defined, and does to the items
    what its events say *)

Section Sections.
Context (len size : Z) (k : kernel) (q : xQUEUE) (f : nat -> task) (items : list (list Z)) (t : nat).
Hypothesis (Hinv : inv len size (Sys k q f) items) (Hcur : pxCurrentTCB k = Some t).

Definition section_ok (m : outcome (kernel * xQUEUE * call)) : Prop :=
  wp m (fun '(k', q', c') =>
    exists items', fifo_run len items (section_events (f t) c') = Some items' /\
      inv len size (Sys k' q' (<[t := Task (receiving (f t)) c']> f)) items').

Lemma cur_is : cur_of k = t.
Proof. unfold cur_of. by rewrite Hcur. Qed.

Lemma calls_update q' x :
  uxItemSize q' = size -> call_ok q' x -> forall u, call_ok q' (<[t := x]> f u).
Proof.
  intros Hsz Hc u. destruct (decide (u = t)) as [->|Hne]; [by rewrite fn_lookup_insert|].
  rewrite fn_lookup_insert_ne by done. destruct (i_calls _ _ _ _ Hinv u) as [H1 H2 H3]. split; [|done|done].
  pose proof (i_item _ _ _ _ Hinv). cbn in *. intros E1 E2. destruct (H1 E1 E2). split; [congruence|done].
Qed.

Lemma returned_ok q' x b : task_point x = Returned b -> call_ok q' x.
Proof. intros E. split; rewrite E; [|done..]. intros _ Hn. by destruct (Hn b). Qed.

(** The end of the first section when nothing is available. *)
Lemma nothing_available :
  uxSchedulerSuspended k = 0 -> t ∈ ready_tasks k -> task_point (f t) = Top ->
  v_avail (view_of (Sys k q f)) (receiving (f t)) <= 0 ->
  inv len size (Sys k q
    (<[t := Task (receiving (f t))
        (if c_ticks (tcall (f t)) =? 0 then at_point (tcall (f t)) (Returned false)
         else enter_wait k (tcall (f t)))]> f)) items.
Proof.
  intros Hs Ht Hp Ha. destruct Hinv as [Hq Hlen Hsz Hv Hk Hr Hc].
  destruct (vi_at_rest _ Hv Hs) as (Hpend & Hlock & Hfree). set (x := Task _ _).
  pose proof (co_ticks _ _ (Hc t)) as Htk. cbn in Htk. rewrite Hp in Htk.
  assert (Hx : task_point x = Returned false \/
    (task_point x = AtSuspend /\ c_entry (tcall x) <> None /\ 0 < c_ticks (tcall x) < 2 ^ 32)).
  { unfold x. destruct (Z.eqb_spec (c_ticks (tcall (f t))) 0); [by left|right]. split; [done|]. cbn.
    split; [by destruct (c_entry _)|lia]. }
  split; [done|done|done| |done|cbn; lia|].
  - apply (vi_retag _ _ t x Hv); cbn; try done.
    + intros s Hin. exfalso. by apply (ready_not_waiting _ t s Hv Ht).
    + cbn in Hpend. rewrite Hpend. intros Hin. by apply elem_of_nil in Hin.
    + intros s. destruct (decide (s = receiving (f t))) as [->|]; [by right|left].
      rewrite tests_other by (by destruct s, (receiving (f t))). done.
    + left. do 3 (split; [done|]). split; [intros; apply Hfree|]. by destruct Hx as [->|[-> _]].
  - apply calls_update; [done|]. destruct Hx as [Hx|(Hx & He & Hti)]; [by apply (returned_ok _ _ false)|].
    pose proof (co_proper _ _ (Hc t)) as Hpr.
    split; rewrite ?Hx; [|done..]. intros E _. cbn in Hpr. specialize (Hpr E ltac:(by rewrite Hp)).
    unfold x. cbn. by destruct (_ =? 0).
Qed.

(** The end of a first section that woke [ts], of the side [w]. *)
Lemma send_top :
  uxSchedulerSuspended k = 0 -> t ∈ ready_tasks k -> receiving (f t) = false -> task_point (f t) = Top ->
  section_ok (section k q (f t)).
Proof.
  intros Hs Ht Hr Hp. pose proof Hinv as [Hq Hlen Hsz Hv Hk _ Hc]. cbn in Hq, Hlen, Hsz.
  change (forall u, call_ok q (f u)) in Hc. change (kernel_side k q) in Hk.
  destruct (co_proper _ _ (Hc t) Hr) as [Hb Ho]; [by rewrite Hp|].
  pose proof (xQueueGenericSend_top k q items (tcall (f t)) Hq (kernel_side_tasks _ _ Hk) Hp Hb Ho) as Hsend.
  unfold section. rewrite Hr. destruct (vi_at_rest _ Hv Hs) as (Hpend & Hlock & Hfree).
  case_decide as Hroom.
  - destruct Hsend as (k' & q' & -> & Hq' & [S1 S2 S3 S4 S5 S6 S7] & Hw). cbn [wp].
    exists (enqueue (c_opt (tcall (f t))) (c_buf (tcall (f t))) items). unfold section_events.
    rewrite Hp, Hr. cbn [c_point at_point fifo_run fifo_step]. rewrite Hlen in Hroom.
    rewrite decide_True by done. split; [done|].
    destruct (wakes_running _ _ _ Hs Hw) as (W1 & W2 & W3 & W4).
    split; [done|cbn; congruence|cbn; congruence| | |cbn; lia|].
    + pose proof (qa_count _ _ Hq) as N1. pose proof (qa_count _ _ Hq') as N2. rewrite zlen_enqueue in N2.
      apply (vi_top _ _ t false true 1 1 (Task false (at_point (tcall (f t)) (Returned true))) Hv Hs Ht Hr Hp);
        cbn; try done; try congruence; try lia.
      * by rewrite W3.
      * intros []; congruence.
    + apply (wakes_side k q k' q' _ Hk Hw). intros u. rewrite S6, S7, (occ_hd_tl u (xTasksWaitingToReceive q)). lia.
    + apply calls_update; [cbn; congruence|]. by apply (returned_ok _ _ true).
  - rewrite Hsend. cbn [wp]. exists items. rewrite Hlen in Hroom. pose proof (queue_at_bound _ _ Hq).
    pose proof (qa_count _ _ Hq) as N1. split.
    { unfold section_events. rewrite Hp, Hr. destruct (_ =? 0); cbn; [|done].
      by rewrite decide_True by lia. }
    apply nothing_available; [done..|]. rewrite Hr. cbn. lia.
Qed.

Lemma receive_top :
  uxSchedulerSuspended k = 0 -> t ∈ ready_tasks k -> receiving (f t) = true -> task_point (f t) = Top ->
  section_ok (section k q (f t)).
Proof.
  intros Hs Ht Hr Hp. pose proof Hinv as [Hq Hlen Hsz Hv Hk _ Hc]. cbn in Hq, Hlen, Hsz.
  change (forall u, call_ok q (f u)) in Hc. change (kernel_side k q) in Hk.
  pose proof (xQueueGenericReceive_top k q items (tcall (f t)) Hq (kernel_side_tasks _ _ Hk) Hp) as Hrecv.
  unfold section. rewrite Hr. destruct (vi_at_rest _ Hv Hs) as (Hpend & Hlock & Hfree).
  pose proof (qa_count _ _ Hq) as N1. pose proof (nothing_available Hs Ht Hp) as Hgu.
  pose proof calls_update as Hcu. unfold section_ok. rewrite Hr in *. destruct items as [|item items'].
  - rewrite Hrecv. cbn [wp]. exists []. split.
    { unfold section_events. rewrite Hp, Hr. by destruct (_ =? 0). }
    apply Hgu. cbn. by rewrite N1.
  - destruct Hrecv as (k' & q' & -> & Hres). cbn [wp]. set (x := Task _ _).
    set (el := if c_opt (tcall (f t)) =? 0 then xTasksWaitingToSend q else xTasksWaitingToReceive q).
    assert (Hw : wakes k k' (take 1 el)) by (unfold el; destruct (_ =? 0); tauto).
    destruct (wakes_running _ _ _ Hs Hw) as (W1 & W2 & W3 & W4).
    unfold section_events. rewrite Hp, Hr. cbn [c_point c_buf fifo_run].
    unfold el in *. clear el. destruct (c_opt (tcall (f t)) =? 0) eqn:Hpk.
    + destruct Hres as (Hq' & [S1 S2 S3 S4 S5 S6 S7] & _). exists items'.
      cbn [fifo_step]. rewrite decide_True by done. split; [done|].
      split; [done|cbn; congruence|cbn; congruence| | |cbn; lia|].
      * pose proof (qa_count _ _ Hq') as N2. rewrite zlen_cons in N1.
        apply (vi_top _ _ t true false 1 1 x Hv Hs Ht Hr Hp); cbn; try done; try congruence; try lia.
        -- by rewrite W3.
        -- intros []; congruence.
      * apply (wakes_side k q k' q' _ Hk Hw). intros u. rewrite S6, S7, (occ_hd_tl u (xTasksWaitingToSend q)). lia.
      * apply Hcu; [cbn; congruence|]. by apply (returned_ok _ _ true).
    + destruct Hres as (-> & _). exists (item :: items').
      cbn [fifo_step]. rewrite decide_True by done. split; [done|].
      split; [by apply queue_at_wait|done|done| | |cbn; lia|].
      * apply (vi_top _ _ t true true 0 0 x Hv Hs Ht Hr Hp); cbn; try done; try lia. by rewrite W3.
      * apply (wakes_side k q k' _ _ Hk Hw). intros u. cbn. rewrite (occ_hd_tl u (xTasksWaitingToReceive q)). lia.
      * apply Hcu; [done|]. by apply (returned_ok _ _ true).
Qed.

(** *** While the scheduler is suspended *)

Lemma section_wait :
  match task_point (f t) with Top | AtCheck | AtPlace | AtInherit => False | _ => True end ->
  section k q (f t) = wait_section k q (tcall (f t)).
Proof.
  unfold section, xQueueGenericReceive, xQueueGenericSend, task_point.
  destruct (c_point (tcall (f t))), (receiving (f t)); done.
Qed.

Lemma no_events c' :
  task_point (f t) <> Top -> section_events (f t) c' = [].
Proof. unfold section_events. by destruct (task_point (f t)). Qed.

Lemma section_ok_silent m :
  task_point (f t) <> Top ->
  wp m (fun '(k', q', c') => inv len size (Sys k' q' (<[t := Task (receiving (f t)) c']> f)) items) ->
  section_ok m.
Proof.
  intros Hp H. eapply wp_mono; [exact H|]. intros [[k' q'] c'] Hi. exists items.
  by rewrite no_events.
Qed.

(** A step that touches neither the lists nor the data. *)
Lemma moved_inv rx tx x :
  Z.max 0 rx = Z.max 0 (xRxLock q) -> Z.max 0 tx = Z.max 0 (xTxLock q) ->
  (forall s, tests s (f t) = true -> tests s x = true) ->
  call_ok q x -> t ∈ ready_tasks k \/ needs_ready (task_point x) = false ->
  (forall y, y <> t -> free_point (task_point (f y)) = true) ->
  lock_state (task_point x) (fun b : bool => if b then tx else rx) ->
  (task_point x = AtPlace -> v_avail (view_of (Sys k q f)) (receiving x) <= 0) ->
  inv len size (Sys (set_suspended k 1) (set_lock q rx tx) (<[t := x]> f)) items.
Proof.
  intros Hrx Htx Htst Hcall Hrdy Hfr Hls Hpl. destruct Hinv as [Hq Hlen Hsz Hv Hk Hr Hc].
  pose proof cur_is as Hct. split; [by apply queue_at_lock|done|done| | | |].
  - apply (vi_retag _ _ t x Hv); cbn; try done.
    + by intros [].
    + intros s Hin. apply Htst. by apply (vi_test _ Hv).
    + intros Hin. pose proof (vi_pend _ Hv t Hin) as Hw. cbn in Hw.
      apply (tests_point (receiving (f t))), Htst, tests_yes, Hw.
    + intros s. left. apply Htst.
    + right. change (cur_of (set_suspended k 1)) with (cur_of k). rewrite Hct. split_and!; try done.
      intros E. specialize (Hpl E). cbn in Hpl. lia.
  - destruct Hk as [K1 K2 K3 K4]. split; [by apply set_suspended_ok|done|done|exact K4].
  - intros _. cbn. change (cur_of (set_suspended k 1)) with (cur_of k). rewrite Hct, fn_lookup_insert.
    intros Hn. destruct Hrdy as [Hrdy|Hrdy]; [exact Hrdy|congruence].
  - apply calls_update; [done|]. destruct Hcall. by split.
Qed.

Lemma set_lock_id : set_lock q (xRxLock q) (xTxLock q) = q.
Proof. by destruct q. Qed.

Lemma at_suspend :
  uxSchedulerSuspended k = 0 -> t ∈ ready_tasks k -> task_point (f t) = AtSuspend ->
  section_ok (section k q (f t)).
Proof.
  intros Hs Ht Hp. apply section_ok_silent; [congruence|]. pose proof (i_view _ _ _ _ Hinv) as Hv.
  destruct (vi_at_rest _ Hv Hs) as (Hpend & Hlock & Hfree).
  rewrite section_wait by (by rewrite Hp). unfold wait_section.
  change (c_point (tcall (f t))) with (task_point (f t)). rewrite Hp. cbn [wp].
  rewrite <- set_lock_id. unfold vTaskSuspendAll. rewrite Hs. change (u32 (0 + 1)) with 1.
  pose proof (Hlock true) as Htx. pose proof (Hlock false) as Hrx. cbn in Htx, Hrx.
  apply moved_inv; try done; [| |by left].
  - intros s. by rewrite tests_no by (by rewrite Hp).
  - pose proof (co_entry _ _ (i_calls _ _ _ _ Hinv t)) as He. cbn in He. rewrite Hp in He.
    apply (call_moved q (f t)); try done; try (by rewrite Hp). exact (i_calls _ _ _ _ Hinv t).
Qed.

Hypothesis (Hsusp : uxSchedulerSuspended k = 1).

Lemma set_suspended_id : set_suspended k 1 = k.
Proof. rewrite <- Hsusp. by destruct k. Qed.

Lemma suspended_state :
  lock_state (task_point (f t)) (fun b : bool => if b then xTxLock q else xRxLock q) /\
  (forall y, y <> t -> free_point (task_point (f y)) = true) /\
  (needs_ready (task_point (f t)) = true -> t ∈ ready_tasks k).
Proof.
  destruct Hinv as [_ _ _ Hv _ Hr _]. pose proof cur_is as Hct.
  destruct (vi_susp _ Hv) as [(E & _)|(_ & H1 & H2)]; cbn in *; [lia|].
  rewrite Hct in *. split; [done|]. split; [done|]. by apply Hr.
Qed.

(** Steps that only move the call. *)
Lemma moved_only x :
  lock_state (task_point x) (fun b : bool => if b then xTxLock q else xRxLock q) ->
  (forall s, tests s (f t) = true -> tests s x = true) -> call_ok q x ->
  t ∈ ready_tasks k \/ needs_ready (task_point x) = false ->
  (task_point x = AtPlace -> v_avail (view_of (Sys k q f)) (receiving x) <= 0) ->
  inv len size (Sys k q (<[t := x]> f)) items.
Proof.
  intros Hls Htst Hcall Hr Hpl. rewrite <- set_lock_id at 1. rewrite <- set_suspended_id at 1.
  apply moved_inv; try done. apply suspended_state.
Qed.

Lemma at_lock : task_point (f t) = AtLock -> section_ok (section k q (f t)).
Proof.
  intros Hp. apply section_ok_silent; [congruence|]. destruct suspended_state as (Hls & Hfr & Hr).
  rewrite Hp in Hls, Hr. cbn in Hls. destruct Hls as [Htx Hrx].
  rewrite section_wait by (by rewrite Hp). unfold wait_section.
  change (c_point (tcall (f t))) with (task_point (f t)). rewrite Hp. cbn [wp].
  unfold prvLockQueue. rewrite Htx, Hrx. rewrite <- set_suspended_id at 1.
  apply moved_inv; try done; rewrite ?Htx, ?Hrx; try done; [| |left; by apply Hr].
  - intros s. by rewrite tests_no by (by rewrite Hp).
  - pose proof (i_calls _ _ _ _ Hinv t) as Hc. cbn in Hc. pose proof (co_entry _ _ Hc) as He. rewrite Hp in He.
    apply (call_moved q (f t)); try done; by rewrite Hp.
Qed.

Lemma time_out_ticks to n :
  0 < n < 2 ^ 32 ->
  let '(_, _, m) := xTaskCheckForTimeOut k to n in 0 < m < 2 ^ 32.
Proof.
  intros Hn. unfold xTaskCheckForTimeOut. pose proof (u32_range (xTickCount k - xTimeOnEntering to)).
  destruct (negb _ && _); [done|]. destruct (Z.ltb_spec (u32 (xTickCount k - xTimeOnEntering to)) n); [|done].
  rewrite u32_small; lia.
Qed.

Lemma at_time_out : task_point (f t) = AtTimeOut -> section_ok (section k q (f t)).
Proof.
  intros Hp. apply section_ok_silent; [congruence|]. destruct suspended_state as (Hls & Hfr & Hr).
  rewrite Hp in Hls, Hr. cbn in Hls. pose proof (i_calls _ _ _ _ Hinv t) as Hc. cbn in Hc.
  destruct Hc as [Hpr He Hti]. rewrite Hp in He, Hti, Hpr.
  rewrite section_wait by (by rewrite Hp). unfold wait_section.
  change (c_point (tcall (f t))) with (task_point (f t)). rewrite Hp.
  destruct (c_entry (tcall (f t))) as [to|]; [|done].
  pose proof (time_out_ticks to (c_ticks (tcall (f t))) Hti) as Htt.
  destruct (xTaskCheckForTimeOut k to (c_ticks (tcall (f t)))) as [[expired to'] ticks]. cbn [wp].
  apply moved_only.
  - by destruct expired.
  - intros s. by rewrite tests_no by (by rewrite Hp).
  - split; cbn; [intros E _; by apply Hpr|by destruct expired|by destruct expired].
  - left. by apply Hr.
  - by destruct expired.
Qed.

Lemma at_check : task_point (f t) = AtCheck -> section_ok (section k q (f t)).
Proof.
  intros Hp. apply section_ok_silent; [congruence|]. destruct suspended_state as (Hls & Hfr & Hr).
  rewrite Hp in Hls, Hr. cbn in Hls.
  pose proof (i_calls _ _ _ _ Hinv t) as Hc. pose proof (i_queue _ _ _ _ Hinv) as Hq. cbn in Hc, Hq.
  assert (He : exists p, section k q (f t) = Ok (k, q, at_point (tcall (f t)) p) /\
    (p = AtUnlockTx Retry \/ (p = AtPlace /\ v_avail (view_of (Sys k q f)) (receiving (f t)) <= 0))).
  { unfold section, xQueueGenericReceive, xQueueGenericSend.
    change (c_point (tcall (f t))) with (task_point (f t)). rewrite Hp, (queue_at_not_mutex _ _ Hq).
    unfold prvIsQueueEmpty, prvIsQueueFull. destruct (receiving (f t)); cbn [view_of v_avail].
    - destruct (Z.eqb_spec (uxMessagesWaiting q) 0); eexists; (split; [done|]); [right|by left]. split; [done|]. cbn. lia.
    - destruct (Z.eqb_spec (uxMessagesWaiting q) (uxLength q)); eexists; (split; [done|]); [right|by left].
      split; [done|]. cbn. lia. }
  destruct He as (p & -> & Hpt). cbn [wp]. apply moved_only.
  - by destruct Hpt as [->|[-> _]].
  - intros s. by rewrite tests_no by (by rewrite Hp).
  - apply (call_moved q (f t)); try done; try (by rewrite Hp). by destruct Hpt as [->|[-> _]].
  - left. by apply Hr.
  - destruct Hpt as [->|[_ Ha]]; done.
Qed.

Lemma at_place : task_point (f t) = AtPlace -> section_ok (section k q (f t)).
Proof.
  intros Hp. apply section_ok_silent; [congruence|]. destruct suspended_state as (Hls & Hfr & Hr).
  rewrite Hp in Hls, Hr. pose proof Hinv as [Hq Hlen Hsz Hv Hk _ Hc]. pose proof cur_is as Hct.
  change (forall u, call_ok q (f u)) in Hc. change (kernel_side k q) in Hk.
  pose proof (co_ticks _ _ (Hc t)) as Hti. rewrite Hp in Hti. specialize (Hr eq_refl).
  set (el := if receiving (f t) then xTasksWaitingToReceive q else xTasksWaitingToSend q).
  assert (Hel : Forall (known k) el).
  { apply Forall_forall. intros u Hu. apply (ko_known _ _ (ks_ok _ _ Hk)), blocked_generic.
    destruct (kernel_side_tasks _ _ Hk). unfold el in Hu. destruct (receiving (f t)); auto. }
  destruct (vTaskPlaceOnEventList_ok k t el _ (ks_ok _ _ Hk) Hcur Hr Hel Hti)
    as (k' & el' & E & Hok & [K1 K2 K3] & Hperm & Hrd & Hbl & _ & Ep & Es & Em).
  set (q' := if receiving (f t) then set_wait q (xTasksWaitingToSend q) el'
             else set_wait q el' (xTasksWaitingToReceive q)).
  assert (Hsec : section k q (f t) = Ok (k', q', at_point (tcall (f t)) (AtUnlockTx Placed))).
  { unfold section, xQueueGenericReceive, xQueueGenericSend.
    change (c_point (tcall (f t))) with (task_point (f t)). rewrite Hp.
    unfold q', el in *. by destruct (receiving (f t)); rewrite E. }
  rewrite Hsec. cbn [wp]. assert (Hct' : cur_of k' = t) by (unfold cur_of in *; by rewrite K2).
  split; [unfold q'; destruct (receiving (f t)); by apply queue_at_wait|by unfold q'; destruct (receiving (f t))
    |by unfold q'; destruct (receiving (f t))| | | |].
  - apply (vi_placed (view_of (Sys k q f)) _ t (Task (receiving (f t)) (at_point (tcall (f t)) (AtUnlockTx Placed)))
      (receiving (f t)) Hv); cbn; try done; try congruence;
      try (by unfold q', el in *; destruct (receiving (f t))). intros y. rewrite Hrd. lia.
  - destruct Hk as [_ Hn Hm Hb]. split; [done|cbn; by rewrite K3|cbn; by rewrite Em|]. cbn. intros y. specialize (Hb y).
    rewrite Hbl, Ep. pose proof (occ_perm y _ _ Hperm) as Hy. cbn [occ] in Hy.
    unfold q', el in *. destruct (receiving (f t)); cbn; lia.
  - intros _. cbn. rewrite Hct', fn_lookup_insert. done.
  - apply calls_update; [by unfold q'; destruct (receiving (f t))|].
    assert (Hmv : call_ok q (Task (receiving (f t)) (at_point (tcall (f t)) (AtUnlockTx Placed)))).
    { apply (call_moved q (f t)); try done; by rewrite Hp. }
    unfold q'. destruct Hmv. by destruct (receiving (f t)); split.
Qed.

(** Both halves of the unlock. *)
Lemma unlocked_inv (b : bool) k' n x lk :
  let el := if b then xTasksWaitingToReceive q else xTasksWaitingToSend q in
  wakes k k' (take n el) ->
  lk = (if b then xTxLock q else xRxLock q) -> 0 <= lk ->
  lk <= 0 /\ n = 0%nat \/ Z.of_nat n = lk \/ (Z.of_nat n <= lk /\ n = length el) ->
  receiving x = receiving (f t) -> will_test (task_point x) = will_test (task_point (f t)) ->
  task_point x <> AtPlace -> needs_ready (task_point x) = false ->
  lock_state (task_point x) (fun s : bool => if s then (if b then queueUNLOCKED else xTxLock q)
                                             else (if b then xRxLock q else queueUNLOCKED)) ->
  call_ok q x ->
  inv len size (Sys k' (if b then set_lock (set_wait q (xTasksWaitingToSend q) (drop n el)) (xRxLock q) queueUNLOCKED
                        else set_lock (set_wait q (drop n el) (xTasksWaitingToReceive q)) queueUNLOCKED (xTxLock q))
                  (<[t := x]> f)) items.
Proof.
  intros el Hw Elk Hlk Hn Hxr Hxw Hxp Hnr Hls Hcall. destruct Hinv as [Hq Hlen Hsz Hv Hk _ Hc].
  destruct (wakes_suspended _ _ _ Hsusp Hw) as (W1 & W2 & W3 & W4). pose proof cur_is as Hct.
  split; cbn; [by destruct b; apply queue_at_lock, queue_at_wait|by destruct b|by destruct b| | | |].
  - apply (vi_unlock (view_of (Sys k q f)) _ t x b n Hv); cbn; try done; unfold el in *; destruct b; cbn in *;
      try done; try lia; congruence.
  - apply (wakes_side k q k' _ _ Hk Hw). intros u. pose proof (occ_take_drop u n el). unfold el in *.
    destruct b; cbn; lia.
  - intros _. by rewrite W2, Hct, fn_lookup_insert, Hnr.
  - apply calls_update; [by destruct b|]. destruct Hcall. by destruct b; split.
Qed.

Lemma at_unlock_tx o : task_point (f t) = AtUnlockTx o -> section_ok (section k q (f t)).
Proof.
  intros Hp. apply section_ok_silent; [congruence|]. destruct suspended_state as (Hls & _ & _).
  rewrite Hp in Hls. cbn in Hls. destruct Hls as [Htx Hrx].
  pose proof (i_calls _ _ _ _ Hinv t) as Hc. destruct (kernel_side_tasks _ _ (i_kernel _ _ _ _ Hinv)) as [K1 K2 K3].
  cbn in K1, K2, K3. rewrite section_wait by (by rewrite Hp). unfold wait_section, unlock_tx.
  change (c_point (tcall (f t))) with (task_point (f t)). rewrite Hp.
  destruct (unlock_loop_spec k (xTasksWaitingToReceive q) (xTxLock q) Hsusp K1 K3)
    as (k' & n & -> & Hw & Hn). cbn [obind wp].
  apply (unlocked_inv true k' n _ (xTxLock q)); try done; cbn; [by rewrite Hp|].
  apply (call_moved q (f t)); try done; by rewrite Hp.
Qed.

Lemma at_unlock_rx o : task_point (f t) = AtUnlockRx o -> section_ok (section k q (f t)).
Proof.
  intros Hp. apply section_ok_silent; [congruence|]. destruct suspended_state as (Hls & _ & _).
  rewrite Hp in Hls. cbn in Hls. destruct Hls as [Htx Hrx].
  pose proof (i_calls _ _ _ _ Hinv t) as Hc. destruct (kernel_side_tasks _ _ (i_kernel _ _ _ _ Hinv)) as [K1 K2 K3].
  cbn in K1, K2, K3. rewrite section_wait by (by rewrite Hp). unfold wait_section, unlock_rx.
  change (c_point (tcall (f t))) with (task_point (f t)). rewrite Hp.
  destruct (unlock_loop_spec k (xTasksWaitingToSend q) (xRxLock q) Hsusp K1 K2)
    as (k' & n & -> & Hw & Hn). cbn [obind wp].
  apply (unlocked_inv false k' n _ (xRxLock q)); try done; cbn; [by rewrite Hp|].
  apply (call_moved q (f t)); try done; by rewrite Hp.
Qed.

(** Tasks that become ready leave the event lists. *)
Lemma unlinked_side k1 q1 woken :
  kernel_ok k1 -> 0 < uxCurrentNumberOfTasks k1 -> 0 <= uxMissedTicks k1 < 2 ^ 32 -> xPendingReadyList k1 = [] ->
  (forall u, occ u (xTasksWaitingToReceive q1) + occ u (xTasksWaitingToSend q1) <= occ u (blocked_tasks k1) + occ u woken) ->
  kernel_side k1 (unlink woken q1).
Proof.
  intros Hk Hn Hm Hp Hb. split; try done. intros u. rewrite Hp. cbn. rewrite !occ_filter_notin.
  specialize (Hb u). pose proof (occ_nonneg u (blocked_tasks k1)). case_bool_decide as E; [lia|].
  apply occ_not_elem in E. lia.
Qed.

Lemma at_resume o : task_point (f t) = AtResume o -> section_ok (section k q (f t)).
Proof.
  intros Hp. apply section_ok_silent; [congruence|]. destruct suspended_state as (Hls & Hfr & _).
  rewrite Hp in Hls. cbn in Hls. destruct Hls as [Htx Hrx].
  pose proof Hinv as [Hq Hlen Hsz Hv Hk _ Hc]. change (kernel_side k q) in Hk.
  rewrite section_wait by (by rewrite Hp). unfold wait_section.
  change (c_point (tcall (f t))) with (task_point (f t)). rewrite Hp.
  destruct (resume_all_ok k (ks_ok _ _ Hk) (kernel_side_pending _ _ Hk) Hsusp (ks_number _ _ Hk) (ks_missed _ _ Hk))
    as (y & k1 & woken & -> & Hok & [K1 K2 K3] & Es & Ep & Em & Er & Eb). cbn [obind].
  set (p := match o with TimedOut => Returned false | _ => Top end).
  set (k' := match o with Placed => yield_if (negb y) k1 | _ => k1 end).
  assert (Hk' : kernel_ok k' /\ uxCurrentNumberOfTasks k' = uxCurrentNumberOfTasks k /\ uxMissedTicks k' = 0 /\
    uxSchedulerSuspended k' = 0 /\ xPendingReadyList k' = [] /\ ready_tasks k' = ready_tasks k1 /\
    blocked_tasks k' = blocked_tasks k1).
  { unfold k'. destruct o; try done. destruct y; [done|]. cbn. split; [by apply yield_request_ok|done]. }
  assert (Hw : inv len size (Sys k' (unlink woken q) (<[t := Task (receiving (f t)) (at_point (tcall (f t)) p)]> f)) items).
  2: { unfold p, k' in Hw. by destruct o. }
  clearbody k'. destruct Hk' as (F0 & F1 & F2 & F3 & F4 & F5 & F6). set (x := Task _ _).
  assert (Hside : kernel_side k' (unlink woken q)).
  { destruct Hk as [_ Hn _ Hb]. apply unlinked_side; [done|by rewrite F1|by rewrite F2|done|].
    intros u. rewrite F6. specialize (Hb u). specialize (Eb u). lia. }
  split; [by apply queue_at_wait|done|done| |exact Hside|cbn; lia|].
  - set (v1 := View (ready_tasks k ++ xPendingReadyList k) [] 0 (cur_of k)
      (v_wait (view_of (Sys k q f))) (v_lock (view_of (Sys k q f))) (v_avail (view_of (Sys k q f))) (<[t := x]> f)).
    assert (Hv1 : vinv v1).
    { apply (vi_retag _ _ t x Hv); cbn; try done.
      - intros z. rewrite occ_app. lia.
      - intros z Hz. by apply elem_of_nil in Hz.
      - intros s Hin%(vi_test _ Hv). cbn in Hin. unfold tests in *. rewrite Hp in Hin. unfold x, p. by destruct o.
      - intros Hz. by apply elem_of_nil in Hz.
      - intros s. left. unfold tests. rewrite Hp. unfold x, p. by destruct o.
      - left. split_and!; try done; [by intros []|]. unfold x, p. by destruct o. }
    apply (vi_time_out v1 _ woken Hv1); cbn; try done.
    + intros z. rewrite F5, Er, occ_app. lia.
    + intros z. pose proof (kernel_side_once _ _ z Hside) as Ho. rewrite F4 in Ho. cbn in Ho. lia.
    + by intros [].
  - apply calls_update; [done|].
    assert (Hmv : call_ok q x); [|by destruct Hmv; split].
    apply (call_moved q (f t)); try done; try (by rewrite Hp). unfold x, p. by destruct o.
Qed.
End Sections.

(** ** Every step keeps the invariant *)

Lemma section_keeps len size k q f items t :
  inv len size (Sys k q f) items -> can_run k t -> (forall b, task_point (f t) <> Returned b) ->
  section_ok len size f items t (section k q (f t)).
Proof.
  intros Hinv [Hcur Hrun] Hact.
  destruct (vi_susp _ (i_view _ _ _ _ Hinv)) as [(Hs & _ & _ & Hfree)|(Hs & Hls & _)]; cbn in Hs.
  - specialize (Hfree t). cbn in Hfree. specialize (Hrun Hs). destruct (task_point (f t)) eqn:Hp; try done.
    + destruct (receiving (f t)) eqn:Hr; [by eapply receive_top|by eapply send_top].
    + by eapply at_suspend.
    + by destruct (Hact pass).
  - cbn in Hls. rewrite (cur_is _ _ Hcur) in Hls. destruct (task_point (f t)) eqn:Hp; try done.
    + by eapply at_lock.
    + by eapply at_time_out.
    + by eapply at_check.
    + by eapply at_place.
    + by eapply at_unlock_tx.
    + by eapply at_unlock_rx.
    + by eapply at_resume.
Qed.

Lemma unlink_nil q : unlink [] q = q.
Proof.
  unfold unlink. assert (E : forall l : list nat, filter (fun t => t ∉ []) l = l).
  { induction l as [|u r IH]; [done|]. rewrite filter_cons, decide_True by (intros H; by apply elem_of_nil in H). by rewrite IH. }
  rewrite !E. by destruct q.
Qed.

(** The queue and the calls do not matter to a step of the kernel. *)
Lemma calls_unlink q woken x : call_ok q x -> call_ok (unlink woken q) x.
Proof. intros []. by split. Qed.

Lemma running_or_suspended len size s items :
  inv len size s items -> uxSchedulerSuspended (sk s) = 0 \/ uxSchedulerSuspended (sk s) = 1.
Proof. intros Hinv. destruct (vi_susp _ (i_view _ _ _ _ Hinv)) as [(E & _)|(E & _)]; auto. Qed.

(** A step of the kernel with the scheduler running: tasks become ready. *)
Lemma kernel_step_keeps len size k q f items k' woken :
  inv len size (Sys k q f) items -> uxSchedulerSuspended k = 0 ->
  kernel_ok k' -> uxCurrentNumberOfTasks k' = uxCurrentNumberOfTasks k -> uxMissedTicks k' = uxMissedTicks k ->
  uxSchedulerSuspended k' = 0 -> xPendingReadyList k' = [] ->
  (forall u, occ u (ready_tasks k') = occ u (ready_tasks k) + occ u woken) ->
  (forall u, occ u (blocked_tasks k) = occ u (blocked_tasks k') + occ u woken) ->
  inv len size (Sys k' (unlink woken q) f) items.
Proof.
  intros [Hq Hlen Hsz Hv Hk _ Hc] Hs Hk' En Em Es Ep Er Eb. change (kernel_side k q) in Hk.
  assert (Hside : kernel_side k' (unlink woken q)).
  { destruct Hk as [_ Hn Hm Hb]. apply unlinked_side; [done|by rewrite En|by rewrite Em|done|].
    intros u. specialize (Hb u). specialize (Eb u). pose proof (occ_nonneg u (xPendingReadyList k)). lia. }
  split; [by apply queue_at_wait|done|done| |exact Hside|cbn; lia|intros u; apply calls_unlink, Hc].
  apply (vi_time_out _ _ woken Hv); cbn; try done.
  - intros z. pose proof (kernel_side_once _ _ z Hside) as Ho. rewrite Ep in Ho. cbn in Ho. lia.
  - by intros [].
Qed.

Lemma tick_keeps len size k q f items k' woken :
  inv len size (Sys k q f) items -> vTaskIncrementTick k = Ok (k', woken) ->
  inv len size (Sys k' (unlink woken q) f) items.
Proof.
  intros Hinv E. pose proof (i_kernel _ _ _ _ Hinv) as Hk. cbn in Hk.
  destruct (running_or_suspended _ _ _ _ Hinv) as [Hs|Hs]; cbn in Hs.
  - destruct (vi_at_rest _ (i_view _ _ _ _ Hinv) Hs) as (Hp & _). cbn in Hp.
    destruct (tick_ok k (ks_ok _ _ Hk) Hs Hp) as (k1 & w & E1 & Hok & Hmv & Hb & Hp1 & _ & Hm & _).
    rewrite E in E1. injection E1 as <- <-.
    apply (kernel_step_keeps len size k q f items k' woken Hinv Hs Hok); try done.
    + by rewrite (mv_number _ _ _ Hmv).
    + by rewrite (mv_suspended _ _ _ Hmv).
    + apply (mv_ready _ _ _ Hmv).
  - unfold vTaskIncrementTick in E. rewrite Hs in E. cbn [Z.eqb] in E. injection E as <- <-. rewrite unlink_nil.
    destruct Hinv as [Hq Hlen Hsz Hv _ Hr Hc]. split; try done.
    destruct Hk as [K1 K2 K3 K4]. split; [by apply set_missed_ticks_ok|done|apply u32_range|exact K4].
Qed.

Lemma switch_keeps len size k q f items k' :
  inv len size (Sys k q f) items -> vTaskSwitchContext k = Ok k' -> inv len size (Sys k' q f) items.
Proof.
  intros Hinv E. pose proof (i_kernel _ _ _ _ Hinv) as Hk. cbn in Hk.
  destruct (running_or_suspended _ _ _ _ Hinv) as [Hs|Hs]; cbn in Hs.
  - destruct (vi_at_rest _ (i_view _ _ _ _ Hinv) Hs) as (Hp & _). cbn in Hp.
    destruct (switch_inv k k' (ks_ok _ _ Hk) Hs E) as (Hok & Er & Eb & Ep & Es & Em & En).
    rewrite <- (unlink_nil q). apply (kernel_step_keeps len size k q f items k' [] Hinv Hs Hok); try done.
    + congruence.
    + intros u. rewrite Er. cbn. lia.
    + intros u. rewrite Eb. cbn. lia.
  - unfold vTaskSwitchContext in E. rewrite Hs in E. cbn [Z.eqb negb] in E. injection E as <-.
    destruct Hinv as [Hq Hlen Hsz Hv _ Hr Hc]. split; try done.
    destruct Hk as [[] K2 K3 K4]. by split.
Qed.

Section Interrupts.
Context (len size : Z) (k : kernel) (q : xQUEUE) (f : nat -> task) (items : list (list Z)).
Hypothesis (Hinv : inv len size (Sys k q f) items).

(** An interrupt that takes from the side [b]: the queue [q1] after the copy,
    then either a wake or a count. *)
Lemma isr_keeps (b : bool) q1 items' :
  queue_at q1 items' -> same_queue q q1 (xTasksWaitingToSend q) (xTasksWaitingToReceive q) ->
  zlen items' = zlen items + (if b then -1 else 1) ->
  let el := if b then xTasksWaitingToSend q else xTasksWaitingToReceive q in
  let lk := if b then xRxLock q else xTxLock q in
  (lk = queueUNLOCKED -> forall k', wakes k k' (take 1 el) ->
   inv len size (Sys k'
     (if b then set_wait q1 (tail el) (xTasksWaitingToReceive q) else set_wait q1 (xTasksWaitingToSend q) (tail el)) f)
     items') /\
  (lk <> queueUNLOCKED ->
   inv len size (Sys k (if b then set_lock q1 (lk + 1) (xTxLock q) else set_lock q1 (xRxLock q) (lk + 1)) f) items').
Proof.
  intros Hq' [S1 S2 S3 S4 S5 S6 S7] Hn el lk. pose proof (running_or_suspended _ _ _ _ Hinv) as Hss.
  destruct Hinv as [Hq Hlen Hsz Hv Hk Hr Hc].
  cbn in Hq, Hlen, Hsz, Hk, Hss. pose proof (qa_count _ _ Hq) as N1. pose proof (qa_count _ _ Hq') as N2.
  assert (Hc' : forall qx, uxItemSize qx = uxItemSize q -> forall u, call_ok qx (f u)).
  { intros qx E u. destruct (Hc u) as [H1 H2 H3]. split; [|done|done]. unfold proper. rewrite E. exact H1. }
  split; intros Hlk.
  - intros k' Hw. pose proof Hw as [_ [_ Ec _] Hl Es _].
    assert (Ec' : cur_of k' = cur_of k) by (unfold cur_of; by rewrite Ec).
    split; cbn; [by destruct b; apply queue_at_wait|destruct b; cbn; congruence|destruct b; cbn; congruence| | | |].
    + apply (vi_isr (view_of (Sys k q f)) _ b Hv); cbn; try done; unfold el, lk in *; destruct b; cbn; try congruence;
        try lia; left; (split; [done|]); (split; [congruence|]); (split; [done|]); destruct (_ =? 0); tauto.
    + apply (wakes_side k q k' _ _ Hk Hw). intros u. unfold el in *.
      destruct b; cbn; [rewrite (occ_hd_tl u (xTasksWaitingToSend q))|rewrite (occ_hd_tl u (xTasksWaitingToReceive q))]; lia.
    + rewrite Es, Ec'. intros Hs1 Hnr. specialize (Hr Hs1 Hnr). cbn in Hr. apply occ_elem. apply occ_elem in Hr.
      rewrite Hs1 in Hl. cbn in Hl. destruct Hl as (_ & -> & _). done.
    + apply Hc'. by destruct b.
  - split; cbn; [by destruct b; apply queue_at_lock|destruct b; cbn; congruence|destruct b; cbn; congruence| | |done|].
    + apply (vi_isr (view_of (Sys k q f)) _ b Hv); cbn; try done; unfold el, lk in *; destruct b; cbn; try congruence;
        try lia; right; split_and!; done || congruence.
    + apply (kernel_side_lists k q); [destruct b; cbn; congruence|destruct b; cbn; congruence|done].
    + apply Hc'. by destruct b.
Qed.

Lemma isr_send_keeps item w pos pass w' k' q' :
  proper q item pos -> xQueueGenericSendFromISR k q item w pos = Ok (pass, w', k', q') ->
  exists items', fifo_run len items [if pass then Enq pos item else Full] = Some items' /\
    inv len size (Sys k' q' f) items'.
Proof.
  intros [Hb Ho] Hisr. pose proof Hinv as [Hq Hlen Hsz Hv Hk Hr Hc]. cbn in Hq, Hlen, Hsz, Hk.
  unfold xQueueGenericSendFromISR in Hisr. pose proof (qa_count _ _ Hq) as N1. pose proof (queue_at_bound _ _ Hq).
  destruct (Z.ltb_spec (uxMessagesWaiting q) (uxLength q)) as [Hroom|Hfull].
  - destruct (copy_in k q items item pos Hq ltac:(lia) Hb Ho) as (q1 & E & Hq1 & Hd). rewrite E in Hisr.
    cbn [obind] in Hisr. exists (enqueue pos item items).
    assert (Hsame : same_queue q q1 (xTasksWaitingToSend q) (xTasksWaitingToReceive q)) by (rewrite Hd; by split).
    pose proof (isr_keeps false q1 _ Hq1 Hsame ltac:(apply zlen_enqueue)) as [Hun Hlk]. cbn in Hun, Hlk.
    pose proof (data_only_tasks k _ _ Hd (kernel_side_tasks _ _ Hk)) as Hkn.
    destruct Hsame as [S1 S2 S3 S4 S5 S6 S7]. rewrite S5 in Hisr.
    assert (Hpass : pass = true /\ inv len size (Sys k' q' f) (enqueue pos item items)).
    { destruct (Z.eqb_spec (xTxLock q) queueUNLOCKED) as [E1|E1].
      - destruct (wake_receiver_spec k q1 Hkn) as (y & k2 & Ew & Hw). rewrite Ew in Hisr. cbn [obind] in Hisr.
        injection Hisr as <- <- <- <-. rewrite S6, S7 in *. split; [done|]. by apply Hun.
      - unfold lock_incr in Hisr. destruct (_ <? _); [|done]. cbn [obind] in Hisr.
        injection Hisr as <- <- <- <-. rewrite S4. split; [done|]. by apply Hlk. }
    destruct Hpass as [-> Hi]. split; [|done]. cbn. by rewrite decide_True by lia.
  - injection Hisr as <- <- <- <-. exists items. split; [|done]. cbn. by rewrite decide_True by lia.
Qed.

Lemma isr_receive_keeps w pass data w' k' q' :
  xQueueReceiveFromISR k q w = Ok (pass, data, w', k', q') ->
  exists items', fifo_run len items [if pass then Deq data else Empty] = Some items' /\
    inv len size (Sys k' q' f) items'.
Proof.
  intros Hisr. pose proof Hinv as [Hq Hlen Hsz Hv Hk Hr Hc]. cbn in Hq, Hlen, Hsz, Hk.
  unfold xQueueReceiveFromISR in Hisr. pose proof (qa_count _ _ Hq) as N1.
  pose proof isr_keeps as Hkeeps. destruct items as [|item items'].
  - rewrite N1 in Hisr. change (0 <? zlen []) with false in Hisr. injection Hisr as <- <- <- <- <-.
    by exists [].
  - rewrite zlen_cons in N1. pose proof (zlen_nonneg items').
    destruct (Z.ltb_spec 0 (uxMessagesWaiting q)); [|lia].
    destruct (copy_out q items' item Hq) as (r & E & Hq1). rewrite E in Hisr. cbn [obind] in Hisr.
    set (q1 := set_count (set_read q r) (uxMessagesWaiting (set_read q r) - 1)) in *. exists items'.
    assert (Hsame : same_queue q q1 (xTasksWaitingToSend q) (xTasksWaitingToReceive q)) by by split.
    assert (Hkn : queue_tasks k q1) by (destruct (kernel_side_tasks _ _ Hk); by split).
    change (queue_at q1 items') in Hq1. clearbody q1.
    pose proof (Hkeeps true q1 items' Hq1 Hsame ltac:(rewrite zlen_cons; lia)) as [Hun Hlk]. cbn in Hun, Hlk.
    destruct Hsame as [S1 S2 S3 S4 S5 S6 S7]. rewrite S4 in Hisr.
    assert (Hpass : pass = true /\ data = item /\ inv len size (Sys k' q' f) items').
    { destruct (Z.eqb_spec (xRxLock q) queueUNLOCKED) as [E1|E1].
      - destruct (wake_sender_spec k q1 Hkn) as (y & k2 & Ew & Hw). rewrite Ew in Hisr. cbn [obind] in Hisr.
        injection Hisr as <- <- <- <- <-. rewrite S6, S7 in *. split; [done|]. split; [done|]. by apply Hun.
      - unfold lock_incr in Hisr. destruct (_ <? _); [|done]. cbn [obind] in Hisr.
        injection Hisr as <- <- <- <- <-. rewrite S5. split; [done|]. split; [done|]. by apply Hlk. }
    destruct Hpass as (-> & -> & Hi). split; [|done]. cbn. by rewrite decide_True by done.
Qed.
End Interrupts.

Lemma call_keeps len size k q f items t b recv buf ticks opt :
  inv len size (Sys k q f) items -> uxSchedulerSuspended k = 0 -> can_run k t ->
  task_point (f t) = Returned b -> (recv = false -> proper q buf opt) -> 0 <= ticks < 2 ^ 32 ->
  inv len size (Sys k q (<[t := Task recv (new_call buf ticks opt)]> f)) items.
Proof.
  intros Hinv Hs [Hcur Ht] Hp Hpr Hti. specialize (Ht Hs). pose proof Hinv as [Hq Hlen Hsz Hv Hk Hr Hc].
  destruct (vi_at_rest _ Hv Hs) as (Hpend & Hlock & Hfree).
  split; [done|done|done| |done|cbn; lia|].
  - apply (vi_retag _ _ t (Task recv (new_call buf ticks opt)) Hv); cbn; try done.
    + intros s Hin. exfalso. by apply (ready_not_waiting _ t s Hv Ht).
    + intros s. left. by rewrite tests_no by (by rewrite Hp).
    + left. do 3 (split; [done|]). split; [intros; apply Hfree|done].
  - apply (calls_update _ _ _ _ _ _ t Hinv); [done|]. split; [|done|done]. intros E _. apply Hpr, E.
Qed.

Lemma step_keeps len size s1 es s2 items :
  inv len size s1 items -> sys_step s1 es s2 ->
  exists items', fifo_run len items es = Some items' /\ inv len size s2 items'.
Proof.
  intros Hinv Hst. destruct Hst as [k q f t b recv buf ticks opt Hs Ht Hp Hpr Hti|k q f t k' q' c' Hrun Hsec
    |k q f item pos w pass w' k' q' Hpr Hisr|k q f w pass data w' k' q' Hisr|k q f k' woken Hti|k q f k' Hsw].
  - exists items. split; [done|]. by eapply call_keeps.
  - assert (Hact : forall b, task_point (f t) <> Returned b).
    { intros b Hb. unfold section, xQueueGenericReceive, xQueueGenericSend in Hsec. unfold task_point in Hb.
      rewrite Hb in Hsec. unfold wait_section in Hsec. rewrite Hb in Hsec. by destruct (receiving (f t)). }
    pose proof (section_keeps _ _ _ _ _ _ t Hinv Hrun Hact) as Hok. unfold section_ok in Hok. by rewrite Hsec in Hok.
  - by eapply isr_send_keeps.
  - by eapply isr_receive_keeps.
  - exists items. split; [done|]. by eapply tick_keeps.
  - exists items. split; [done|]. by eapply switch_keeps.
Qed.

Lemma run_keeps len size s1 es s2 items :
  inv len size s1 items -> sys_run s1 es s2 ->
  exists items', fifo_run len items es = Some items' /\ inv len size s2 items'.
Proof.
  intros Hinv Hr. induction Hr as [s|s1 es s2 fs s3 _ IH Hst]; [by exists items|].
  destruct (IH Hinv) as (items1 & E & Hinv1). destruct (step_keeps _ _ _ _ _ _ Hinv1 Hst) as (items2 & E2 & Hinv2).
  exists items2. by rewrite fifo_run_app, E.
Qed.

(** *** Progress of the suspended region *)

(** How many sections are left before the scheduler is resumed, at most. *)
Definition rank (p : point) : Z :=
  match p with
  | AtLock => 8 | AtTimeOut => 7 | AtCheck => 6 | AtInherit => 5 | AtPlace => 4
  | AtUnlockTx _ => 3 | AtUnlockRx _ => 2 | AtResume _ => 1
  | Top | AtSuspend | Returned _ => 0
  end.

Lemma section_rank k q x k' q' c' :
  free_point (task_point x) = false -> section k q x = Ok (k', q', c') -> rank (c_point c') < rank (task_point x).
Proof.
  unfold section, xQueueGenericReceive, xQueueGenericSend, wait_section, task_point. intros Hf Hs.
  destruct (receiving x), (c_point (tcall x)) eqn:Hp; try done;
    repeat match goal with
    | o : outlook |- _ => destruct o
    | H : obind _ _ = Ok _ |- _ => apply obind_ok in H as (? & _ & H)
    | p : _ * _ |- _ => destruct p
    | H : context [c_entry ?c] |- _ => destruct (c_entry c); [|done]
    | H : context [xTaskCheckForTimeOut ?a ?b ?c] |- _ => destruct (xTaskCheckForTimeOut a b c) as [[[] ?] ?]
    end; injection Hs as <- <- <-; cbn; repeat case_match; done.
Qed.

(** ** Executing the system *)

Inductive action : Type :=
  | DoCall (t : nat) (recv : bool) (buf : list Z) (ticks opt : Z)
  | DoSection (t : nat)
  | DoIsrSend (item : list Z)
  | DoIsrReceive
  | DoTick
  | DoSwitch.

Definition exec (a : action) (s : sys) : option (list event * sys) :=
  let '(Sys k q f) := s in
  match a with
  | DoCall t recv buf ticks opt =>
      match task_point (f t) with
      | Returned _ =>
          if decide (uxSchedulerSuspended k = 0 /\ pxCurrentTCB k = Some t /\ t ∈ ready_tasks k /\
                     zlen buf = uxItemSize q /\ opt = 0 /\ 0 <= ticks < 2 ^ 32)
          then Some ([], Sys k q (<[t := Task recv (new_call buf ticks opt)]> f))
          else None
      | _ => None
      end
  | DoSection t =>
      if bool_decide (pxCurrentTCB k = Some t) &&
         (negb (uxSchedulerSuspended k =? 0) || bool_decide (t ∈ ready_tasks k))
      then match section k q (f t) with
           | Ok (k', q', c') => Some (section_events (f t) c', Sys k' q' (<[t := Task (receiving (f t)) c']> f))
           | _ => None
           end
      else None
  | DoIsrSend item =>
      if decide (zlen item = uxItemSize q) then
        match xQueueGenericSendFromISR k q item false queueSEND_TO_BACK with
        | Ok (pass, _, k', q') => Some ([if pass then Enq queueSEND_TO_BACK item else Full], Sys k' q' f)
        | _ => None
        end
      else None
  | DoIsrReceive =>
      match xQueueReceiveFromISR k q false with
      | Ok (pass, data, _, k', q') => Some ([if pass then Deq data else Empty], Sys k' q' f)
      | _ => None
      end
  | DoTick =>
      match vTaskIncrementTick k with Ok (k', woken) => Some ([], Sys k' (unlink woken q) f) | _ => None end
  | DoSwitch => match vTaskSwitchContext k with Ok k' => Some ([], Sys k' q f) | _ => None end
  end.

Fixpoint exec_all (l : list action) (s : sys) : option (list event * sys) :=
  match l with
  | [] => Some ([], s)
  | a :: r =>
      match exec a s with
      | Some (es, s') =>
          match exec_all r s' with Some (fs, s'') => Some (es ++ fs, s'') | None => None end
      | None => None
      end
  end.

Lemma exec_sound a s es s' : exec a s = Some (es, s') -> sys_step s es s'.
Proof.
  destruct s as [k q f], a as [t recv buf ticks opt|t|item| | |]; cbn [exec].
  - destruct (task_point (f t)) eqn:Hp; try done. case_decide as Hd; [|done]. intros [= <- <-].
    destruct Hd as (H1 & H2 & H3 & H4 & -> & H5). eapply st_call; [done|by split|done| |done].
    intros _. split; [done|by left].
  - destruct (_ && _) eqn:Hrun; [|done].
    destruct (section _ _ _) as [[[k' q'] c']| |] eqn:Hs; [|done..]. intros [= <- <-].
    apply st_section; [|done]. apply andb_true_iff in Hrun as [H1%bool_decide_eq_true H2].
    split; [done|]. intros E. rewrite E in H2. cbn in H2. by apply bool_decide_eq_true in H2.
  - case_decide as Hd; [|done].
    destruct (xQueueGenericSendFromISR _ _ _ _ _) as [[[[pass w] k'] q']| |] eqn:Hs; [|done..].
    intros [= <- <-]. eapply st_isr_send; [split; [done|by left]|done].
  - destruct (xQueueReceiveFromISR _ _ _) as [[[[[pass data] w] k'] q']| |] eqn:Hs; [|done..].
    intros [= <- <-]. by eapply st_isr_receive.
  - destruct (vTaskIncrementTick k) as [[k' woken]| |] eqn:E; [|done..]. intros [= <- <-]. by apply st_tick.
  - destruct (vTaskSwitchContext k) as [k'| |] eqn:E; [|done..]. intros [= <- <-]. by apply st_switch.
Qed.

Lemma run_front s1 es s2 fs s3 : sys_step s1 es s2 -> sys_run s2 fs s3 -> sys_run s1 (es ++ fs) s3.
Proof.
  intros H1 H2. induction H2 as [s|s2 fs s3 gs s4 _ IH Hs].
  - rewrite app_nil_r. apply (run_cons s1 [] s1); [apply run_nil|done].
  - rewrite app_assoc. eapply run_cons; [by apply IH|done].
Qed.

Lemma exec_all_sound l s es s' : exec_all l s = Some (es, s') -> sys_run s es s'.
Proof.
  revert s es. induction l as [|a r IH]; intros s es; cbn; [intros [= <- <-]; apply run_nil|].
  destruct (exec a s) as [[es1 s1]|] eqn:Ha; [|done].
  destruct (exec_all r s1) as [[fs s2]|] eqn:Hr; [|done]. intros [= <- <-].
  eapply run_front; [by eapply exec_sound|by apply IH].
Qed.

(** Three tasks, of which task 1 runs, and a new queue of two slots of two
    bytes. *)
Definition new_queue : xQUEUE :=
  Queue (Some 32) (zeros 5) 36 32 34 None [] [] 0 2 2 queueUNLOCKED queueUNLOCKED.
Definition demo_start : sys :=
  Sys demo_kernel new_queue (fun _ => Task false (Call (Returned true) [] 0 0 None)).

Lemma demo_initial : initial demo_start.
Proof.
  split; cbn; try done.
  - exact (new_queue_empty zeros length_zeros 32 2 2 ltac:(lia) ltac:(lia) ltac:(vm_compute; congruence)).
  - apply demo_kernel_ok.
  - intros t. by exists true.
Qed.

(** Tasks 1 and 2 wait to receive; an item arrives while task 2 has the queue
    locked, and the tick counter overflows. *)
Definition demo_run : list action :=
  DoCall 1 true [0; 0] 100 0 :: repeat (DoSection 1) 9 ++ [DoSwitch; DoTick] ++
  DoCall 2 true [0; 0] 100 0 :: repeat (DoSection 2) 5 ++
  [DoTick; DoIsrSend [5; 6]] ++ repeat (DoSection 2) 4.

Definition demo_end : list event * sys :=
  match exec_all demo_run demo_start with Some r => r | None => ([], demo_start) end.

Lemma demo_end_run : sys_run demo_start (fst demo_end) (snd demo_end).
Proof.
  unfold demo_end. destruct (exec_all demo_run demo_start) as [[es s]|] eqn:E; [|apply run_nil].
  by apply exec_all_sound in E.
Qed.

(** ** The claims *)

(** C1: a queue is a bounded FIFO for all its users at once. Whatever the
    interleaving of the sections of the tasks' calls with context switches,
    ticks, time-outs and interrupts, from a new queue: the items the successful calls put in
    (behind or in front) and took out or peeked at, and the calls that found
    the queue full or empty, are, in the order of the sections that used the
    queue, a run of the sequential bounded FIFO, and its result is what the
    storage area holds; and the kernel's lists stay consistent. *)
Theorem queue_linearizable s0 es s :
  initial s0 -> sys_run s0 es s ->
  exists items, fifo_run (uxLength (sq s0)) [] es = Some items /\ queue_at (sq s) items /\
    uxLength (sq s) = uxLength (sq s0) /\ kernel_ok (sk s).
Proof.
  intros Hi Hr. destruct (run_keeps _ _ _ _ _ _ (initial_inv _ Hi) Hr) as (items & E & [Hq Hl _ _ Hk _ _]).
  exists items. split_and!; try done. apply (ks_ok _ _ Hk).
Qed.

Lemma queue_linearizable_witness :
  exists items, fifo_run 2 [] (fst demo_end) = Some items /\ queue_at (sq (snd demo_end)) items /\
    uxLength (sq (snd demo_end)) = 2 /\ kernel_ok (sk (snd demo_end)).
Proof. exact (queue_linearizable demo_start _ _ demo_initial demo_end_run). Defined.

(** C2: no wake-up is lost. In every state the tasks and interrupts can reach
    with the scheduler running: when tasks wait to receive, at most as many
    items lie in the queue as there are ready tasks about to test it for one;
    when tasks wait to send, at most as many slots are free as there are
    ready tasks about to fill one. In particular no task sleeps on a queue
    that has what it waits for unless a ready task is on its way to take
    it. *)
Theorem queue_no_lost_wakeup s0 es s :
  initial s0 -> sys_run s0 es s -> uxSchedulerSuspended (sk s) = 0 ->
  (xTasksWaitingToReceive (sq s) <> [] ->
     uxMessagesWaiting (sq s) <= testers true (stasks s) (ready_tasks (sk s)) /\
     (0 < uxMessagesWaiting (sq s) -> exists t, t ∈ ready_tasks (sk s) /\
        receiving (stasks s t) = true /\ task_point (stasks s t) = Top)) /\
  (xTasksWaitingToSend (sq s) <> [] ->
     uxLength (sq s) - uxMessagesWaiting (sq s) <= testers false (stasks s) (ready_tasks (sk s)) /\
     (uxMessagesWaiting (sq s) < uxLength (sq s) -> exists t, t ∈ ready_tasks (sk s) /\
        receiving (stasks s t) = false /\ task_point (stasks s t) = Top)).
Proof.
  intros Hi Hr Hs. destruct (run_keeps _ _ _ _ _ _ (initial_inv _ Hi) Hr) as (items & _ & [_ _ _ Hv _ _ _]).
  destruct (vi_at_rest _ Hv Hs) as (Hp & Hl & Hf). cbn in Hp, Hf.
  assert (Hready : forall b, 0 < testers b (stasks s) (ready_tasks (sk s)) -> exists t, t ∈ ready_tasks (sk s) /\
    receiving (stasks s t) = b /\ task_point (stasks s t) = Top).
  { intros b (t & Ht & [H1 H2]%tests_point)%testers_pos. exists t. split_and!; try done.
    specialize (Hf t). by destruct (task_point (stasks s t)). }
  pose proof (vi_wake _ Hv true) as Wr. pose proof (vi_wake _ Hv false) as Ws.
  rewrite Hl in Wr, Ws. unfold queueUNLOCKED in Wr, Ws. cbn in Wr, Ws. rewrite Hp, app_nil_r in Wr, Ws.
  split; intros Hne; [specialize (Wr Hne)|specialize (Ws Hne)];
    (split; [lia|]); intros ?; apply Hready; lia.
Qed.

(** Task 1 or 2 sleeps, the other is ready for the item. *)
Lemma queue_no_lost_wakeup_witness :
  xTasksWaitingToReceive (sq (snd demo_end)) <> [] /\ uxMessagesWaiting (sq (snd demo_end)) = 1 /\
  exists t, t ∈ ready_tasks (sk (snd demo_end)) /\
    receiving (stasks (snd demo_end) t) = true /\ task_point (stasks (snd demo_end) t) = Top.
Proof.
  assert (Hne : xTasksWaitingToReceive (sq (snd demo_end)) <> []) by (vm_compute; discriminate).
  assert (Hone : uxMessagesWaiting (sq (snd demo_end)) = 1) by (vm_compute; reflexivity).
  split; [exact Hne|]. split; [exact Hone|].
  apply (proj1 (queue_no_lost_wakeup demo_start _ _ demo_initial demo_end_run
    ltac:(vm_compute; reflexivity)) Hne). rewrite Hone. reflexivity.
Defined.

(** C28: the blocking calls are safe and do not keep the scheduler suspended.
    In every reachable state the next section of a call of a task that may
    execute is defined, and while the scheduler is suspended each section of
    the task that suspended it brings the resumption nearer, which is at most
    eight sections away. *)
Theorem queue_sections_defined s0 es s t :
  initial s0 -> sys_run s0 es s -> can_run (sk s) t ->
  (forall b, task_point (stasks s t) <> Returned b) ->
  exists k' q' c', section (sk s) (sq s) (stasks s t) = Ok (k', q', c') /\
    (uxSchedulerSuspended (sk s) = 1 ->
     uxSchedulerSuspended k' = 0 \/
     (uxSchedulerSuspended k' = 1 /\ 0 < rank (c_point c') < rank (task_point (stasks s t)) /\
        rank (task_point (stasks s t)) <= 8)).
Proof.
  intros Hi Hr Hrun Hact. destruct (run_keeps _ _ _ _ _ _ (initial_inv _ Hi) Hr) as (items & _ & Hinv).
  destruct s as [k q f]. cbn [sk sq stasks] in *.
  pose proof (section_keeps _ _ _ _ _ _ t Hinv Hrun Hact) as Hok.
  apply wp_ok in Hok as ([[k' q'] c'] & E & items' & _ & Hinv'). exists k', q', c'. split; [done|]. intros Hs.
  destruct (vi_susp _ (i_view _ _ _ _ Hinv')) as [(Hs' & _)|(Hs' & Hls' & Hfr')]; [by left|right]. cbn in Hs', Hls', Hfr'.
  split; [done|]. destruct Hrun as [Hcur _].
  destruct (vi_susp _ (i_view _ _ _ _ Hinv)) as [(Hs0 & _)|(_ & Hls & Hfr)]; cbn in *; [lia|].
  rewrite (cur_is _ _ Hcur) in Hls, Hfr.
  assert (Hp : free_point (task_point (f t)) = false) by (by destruct (task_point (f t))).
  pose proof (section_rank _ _ _ _ _ _ Hp E). split; [split; [|done]|by destruct (task_point (f t))].
  destruct (decide (cur_of k' = t)) as [Ec|Ec].
  - rewrite Ec, fn_lookup_insert in Hls'. cbn in Hls'. unfold task_point in Hls'. cbn in Hls'. by destruct (c_point c').
  - exfalso. rewrite fn_lookup_insert_ne in Hls' by congruence. specialize (Hfr (cur_of k') Ec).
    by destruct (task_point (f (cur_of k'))).
Qed.

Lemma queue_sections_defined_witness :
  exists k' q' c', section (sk demo_start) (sq demo_start)
      (Task true (new_call [0; 0] 100 0)) = Ok (k', q', c') /\
    (uxSchedulerSuspended (sk demo_start) = 1 ->
     uxSchedulerSuspended k' = 0 \/
     (uxSchedulerSuspended k' = 1 /\ 0 < rank (c_point c') < rank Top /\ rank Top <= 8)).
Proof.
  assert (Hr : exists s, exec_all [DoCall 1 true [0; 0] 100 0] demo_start = Some ([], s) /\
    stasks s 1%nat = Task true (new_call [0; 0] 100 0) /\ sk s = sk demo_start /\
    sq s = sq demo_start /\ uxSchedulerSuspended (sk s) = 0 /\ can_run (sk s) 1).
  { eexists. split; [vm_compute; reflexivity|]. do 4 (split; [reflexivity|]).
    split; [reflexivity|]. intros _. apply list_elem_of_further, list_elem_of_further, list_elem_of_here. }
  destruct Hr as (s & E & Et & Ek & Eq & Es & Hrun). apply exec_all_sound in E.
  destruct (queue_sections_defined demo_start [] s 1 demo_initial E Hrun) as (k' & q' & c' & Hsec & _).
  { rewrite Et. discriminate. }
  rewrite Et, Ek, Eq in Hsec. exists k', q', c'. split; [exact Hsec|]. cbn. discriminate.
Defined.
