(* ===== verification/Mem.v ===== *)
(** * The heap of lwIP: src/Utilities/lwip_v1.3.2/src/core/mem.c

    A first-fit allocator over one array. Every block starts with a struct
    mem that holds the offsets of the next and the previous block; adjacent
    free blocks are joined; lfree is the lowest free block. A pointer into
    the array is its offset from ram; the memory is seen through the
    structures that were written to it. The configuration is the one of
    tcp_echo_client/inc/lwipopts.h: no operating system (the mutex is
    empty), no statistics, empty assertions. *)

From S2P Require Import Prelude.
From stdpp Require Import gmap.
#[local] Open Scope Z_scope.

(** ** Configuration *)

Definition MEM_ALIGNMENT : Z := 4.
Definition MEM_SIZE : Z := 10 * 1024.

(** The macro computes in int; the result is reduced where it is stored. *)
Definition LWIP_MEM_ALIGN_SIZE (size : Z) : Z :=
  Z.land (size + MEM_ALIGNMENT - 1) (Z.lnot (MEM_ALIGNMENT - 1)).

Definition MIN_SIZE_ALIGNED : Z := LWIP_MEM_ALIGN_SIZE 12.
(** Two u16_t and a u8_t: six bytes with the padding. *)
Definition sizeof_mem : Z := 6.
Definition SIZEOF_STRUCT_MEM : Z := LWIP_MEM_ALIGN_SIZE sizeof_mem.
Definition MEM_SIZE_ALIGNED : Z := LWIP_MEM_ALIGN_SIZE MEM_SIZE.

(** ** Data *)

Record mem : Type := Mem {
  next : Z;
  prev : Z;
  used : bool;
}.

Record memheap : Type := MemHeap {
  ram : gmap Z mem;
  lfree : Z;
}.

Definition ram_end : Z := MEM_SIZE_ALIGNED.

Definition rd_mem (h : memheap) (p : Z) : outcome mem :=
  match ram h !! p with Some m => Ok m | None => UB end.

(** A structure is written inside the array only. *)
Definition wr_mem (h : memheap) (p : Z) (m : mem) : outcome memheap :=
  if (0 <=? p) && (p <=? ram_end) then Ok (MemHeap (<[p := m]> (ram h)) (lfree h)) else UB.

Definition set_next (h : memheap) (p n : Z) : outcome memheap :=
  let! m := rd_mem h p in wr_mem h p (Mem n (prev m) (used m)).
Definition set_prev (h : memheap) (p v : Z) : outcome memheap :=
  let! m := rd_mem h p in wr_mem h p (Mem (next m) v (used m)).
Definition set_used (h : memheap) (p : Z) (b : bool) : outcome memheap :=
  let! m := rd_mem h p in wr_mem h p (Mem (next m) (prev m) b).
Definition set_lfree (h : memheap) (p : Z) : memheap := MemHeap (ram h) p.

(** ** The operations *)

(** The two halves of plug_holes. *)
Definition plug_forward (h : memheap) (mem : Z) : outcome memheap :=
  let! m := rd_mem h mem in
  let nmem := next m in
  let! n := rd_mem h nmem in
  if negb (mem =? nmem) && negb (used n) && negb (nmem =? ram_end) then
    let h := if lfree h =? nmem then set_lfree h mem else h in
    let! h := set_next h mem (next n) in
    set_prev h (next n) mem
  else Ok h.

Definition plug_backward (h : memheap) (mem : Z) : outcome memheap :=
  let! m := rd_mem h mem in
  let pmem := prev m in
  let! p := rd_mem h pmem in
  if negb (pmem =? mem) && negb (used p) then
    let h := if lfree h =? mem then set_lfree h pmem else h in
    let! h := set_next h pmem (next m) in
    set_prev h (next m) pmem
  else Ok h.

Definition plug_holes (h : memheap) (mem : Z) : outcome memheap :=
  let! h := plug_forward h mem in
  plug_backward h mem.

Definition mem_init (h : memheap) : memheap :=
  MemHeap (<[MEM_SIZE_ALIGNED := Mem MEM_SIZE_ALIGNED MEM_SIZE_ALIGNED true]>
             (<[0 := Mem MEM_SIZE_ALIGNED 0 false]> (ram h))) 0.

Definition mem_free (h : memheap) (rmem : option Z) : outcome memheap :=
  match rmem with
  | None => Ok h
  | Some rmem =>
      if (rmem <? 0) || (ram_end <=? rmem) then Ok h
      else
        let mem := rmem - SIZEOF_STRUCT_MEM in
        let! h := set_used h mem false in
        let h := if mem <? lfree h then set_lfree h mem else h in
        plug_holes h mem
  end.

(** The size a block gets: aligned in a u16_t, at least the minimum. *)
Definition block_size (size : Z) : Z :=
  let size := u16 (LWIP_MEM_ALIGN_SIZE size) in
  if size <? MIN_SIZE_ALIGNED then MIN_SIZE_ALIGNED else size.

(** Linking a new free block at [ptr2] between [ptr] and [nxt]; back
    pointers of the end marker are left alone. *)
Definition link_rest (h : memheap) (ptr ptr2 nxt : Z) : outcome memheap :=
  let! h := wr_mem h ptr2 (Mem nxt ptr false) in
  let! h := set_next h ptr ptr2 in
  if negb (nxt =? MEM_SIZE_ALIGNED) then set_prev h nxt ptr2 else Ok h.

Definition mem_trim (h : memheap) (rmem : Z) (newsize : Z) : outcome (option Z * memheap) :=
  let newsize := block_size newsize in
  if MEM_SIZE_ALIGNED <? newsize then Ok (None, h)
  else if (rmem <? 0) || (ram_end <=? rmem) then Ok (Some rmem, h)
  else
    let ptr := u16 (rmem - SIZEOF_STRUCT_MEM) in
    let! m := rd_mem h (rmem - SIZEOF_STRUCT_MEM) in
    let size := u16 (next m - ptr - SIZEOF_STRUCT_MEM) in
    if size <? newsize then Ok (None, h)
    else if newsize =? size then Ok (Some rmem, h)
    else
      let! m2 := rd_mem h (next m) in
      let ptr2 := u16 (ptr + SIZEOF_STRUCT_MEM + newsize) in
      if negb (used m2) then
        let h := if lfree h =? next m then set_lfree h ptr2 else h in
        let! h := link_rest h ptr ptr2 (next m2) in
        Ok (Some rmem, h)
      else if u32 (newsize + SIZEOF_STRUCT_MEM + MIN_SIZE_ALIGNED) <=? size then
        let h := if ptr2 <? lfree h then set_lfree h ptr2 else h in
        let! h := link_rest h ptr ptr2 (next m) in
        Ok (Some rmem, h)
      else Ok (Some rmem, h).

(** A block takes 20 bytes at least. *)
Definition mem_fuel : nat := Z.to_nat (MEM_SIZE_ALIGNED / 20 + 2).

(** The next free block after [cur], or the end of the heap. *)
Fixpoint next_free (fuel : nat) (h : memheap) (cur : Z) : outcome Z :=
  match fuel with
  | O => NoFuel
  | S fuel =>
      let! m := rd_mem h cur in
      if used m && negb (cur =? ram_end) then next_free fuel h (next m) else Ok cur
  end.

(** Taking the free block [mem]: what is left is cut off when a block fits. *)
Definition take_block (h : memheap) (mem size : Z) : outcome memheap :=
  let! m := rd_mem h mem in
  let! h :=
    if u32 (size + SIZEOF_STRUCT_MEM + MIN_SIZE_ALIGNED) <=? u32 (next m - (mem + SIZEOF_STRUCT_MEM)) then
      let! h := link_rest h mem (u16 (mem + SIZEOF_STRUCT_MEM + size)) (next m) in
      set_used h mem true
    else set_used h mem true in
  if mem =? lfree h then
    let! cur := next_free mem_fuel h (lfree h) in
    Ok (set_lfree h cur)
  else Ok h.

Fixpoint malloc_loop (fuel : nat) (h : memheap) (ptr size : Z) : outcome (option Z * memheap) :=
  match fuel with
  | O => NoFuel
  | S fuel =>
      if ptr <? MEM_SIZE_ALIGNED - size then
        let! m := rd_mem h ptr in
        if negb (used m) && (size <=? u32 (next m - (ptr + SIZEOF_STRUCT_MEM))) then
          let! h := take_block h ptr size in
          Ok (Some (ptr + SIZEOF_STRUCT_MEM), h)
        else malloc_loop fuel h (next m) size
      else Ok (None, h)
  end.

Definition mem_malloc (h : memheap) (size : Z) : outcome (option Z * memheap) :=
  if size =? 0 then Ok (None, h)
  else
    let size := block_size size in
    if MEM_SIZE_ALIGNED <? size then Ok (None, h)
    else malloc_loop mem_fuel h (lfree h) size.

(** ** The blocks of a heap

    The abstract heap is the list of its blocks in address order: size with
    the structure, in use or not. *)

Abbreviation block := (Z * bool)%type.

Fixpoint total (bs : list block) : Z :=
  match bs with
  | [] => 0
  | (n, _) :: r => n + total r
  end.

(** Offset and flag of the last block, [pv] and [u] when there is none. *)
Fixpoint last_off (pv p : Z) (bs : list block) : Z :=
  match bs with
  | [] => pv
  | (n, _) :: r => last_off p (p + n) r
  end.
Fixpoint last_used (u : bool) (bs : list block) : bool :=
  match bs with
  | [] => u
  | (_, u') :: r => last_used u' r
  end.

(** The structures of consecutive blocks that start at [p], [pv] before. *)
Fixpoint seg (m : gmap Z mem) (pv p : Z) (bs : list block) : Prop :=
  match bs with
  | [] => True
  | (n, u) :: r => m !! p = Some (Mem (p + n) pv u) /\ 20 <= n /\ (4 | n) /\ seg m p (p + n) r
  end.

Definition end_marker (m : gmap Z mem) : Prop := exists v, m !! ram_end = Some (Mem ram_end v true).

(** The blocks from [p] to the end of the heap. *)
Definition blocks (m : gmap Z mem) (pv p : Z) (bs : list block) : Prop :=
  seg m pv p bs /\ p + total bs = ram_end /\ end_marker m.

(** No two neighbours are free ([u]: the block before is in use). *)
Fixpoint joined (u : bool) (bs : list block) : Prop :=
  match bs with
  | [] => True
  | (_, u') :: r => u || u' = true /\ joined u' r
  end.

Fixpoint first_free (p : Z) (bs : list block) : Z :=
  match bs with
  | [] => p
  | (n, u) :: r => if u then first_free (p + n) r else p
  end.

Definition heap_rep (h : memheap) (bs : list block) : Prop :=
  blocks (ram h) 0 0 bs /\ joined true bs /\ lfree h = first_free 0 bs.

(** First fit on the list: the block's offset and the new list. *)
Definition cut (n s : Z) : list block :=
  if s + 28 <=? n then [(s + 8, true); (n - (s + 8), false)] else [(n, true)].

Fixpoint first_fit (p : Z) (bs : list block) (s : Z) : option (Z * list block) :=
  match bs with
  | [] => None
  | (n, u) :: r =>
      if negb u && (s + 8 <=? n) then Some (p, cut n s ++ r)
      else '(q, r') ← first_fit (p + n) r s; Some (q, (n, u) :: r')
  end.

(** Freeing on the list: the block becomes free and is joined with its free
    neighbours. *)
Definition cons_free (n : Z) (r : list block) : list block :=
  match r with
  | (n2, false) :: r' => (n + n2, false) :: r'
  | _ => (n, false) :: r
  end.

Fixpoint free_block (p q : Z) (bs : list block) : list block :=
  match bs with
  | [] => []
  | (n, u) :: r =>
      if p =? q then cons_free n r
      else if u then (n, u) :: free_block (p + n) q r
      else cons_free n (free_block (p + n) q r)
  end.

(** *** Lemmas on lists of blocks *)

Lemma total_app l r : total (l ++ r) = total l + total r.
Proof. induction l as [|[n u] l IH]; cbn; lia. Qed.

Lemma seg_app m pv p l r :
  seg m pv p (l ++ r) <-> seg m pv p l /\ seg m (last_off pv p l) (p + total l) r.
Proof.
  revert pv p. induction l as [|[n u] l IH]; intros pv p; cbn; [rewrite Z.add_0_r; tauto|].
  rewrite IH, Z.add_assoc. tauto.
Qed.

Lemma joined_app u l r : joined u (l ++ r) <-> joined u l /\ joined (last_used u l) r.
Proof. revert u. induction l as [|[n u'] l IH]; intros u; cbn; [tauto|]. rewrite IH. tauto. Qed.

Lemma seg_total m pv p bs : seg m pv p bs -> 20 * zlen bs <= total bs /\ (4 | total bs).
Proof.
  revert pv p. induction bs as [|[n u] r IH]; intros pv p; cbn [seg total].
  - intros _. split; [done|]. apply Z.divide_0_r.
  - intros (_ & Hn & Hd & Hs). destruct (IH _ _ Hs). rewrite zlen_cons.
    split; [lia|]. by apply Z.divide_add_r.
Qed.

Lemma seg_sizes m pv p l : seg m pv p l -> Forall (fun b => 20 <= fst b) l.
Proof.
  revert pv p. induction l as [|[n u] l IH]; intros pv p; cbn; [done|]. intros (_ & Hn & _ & Hs).
  constructor; [done|]. by eapply IH.
Qed.

Lemma seg_frame m m' pv p bs :
  seg m pv p bs -> (forall o, p <= o < p + total bs -> m' !! o = m !! o) -> seg m' pv p bs.
Proof.
  revert pv p. induction bs as [|[n u] r IH]; intros pv p; cbn; [done|].
  intros (Hm & Hn & Hd & Hs) Hf. pose proof (seg_total _ _ _ _ Hs) as [Ht _]. pose proof (zlen_nonneg r).
  split_and!; try done; [rewrite Hf by lia; done|]. apply IH; [done|]. intros o Ho. apply Hf. lia.
Qed.

Lemma seg_insert m o e pv p bs :
  seg m pv p bs -> o < p \/ p + total bs <= o -> seg (<[o := e]> m) pv p bs.
Proof. intros Hs Ho. apply (seg_frame m); [done|]. intros o' Ho'. rewrite lookup_insert_ne; [done|lia]. Qed.

Lemma blocks_app m pv p l r :
  blocks m pv p (l ++ r) <-> seg m pv p l /\ blocks m (last_off pv p l) (p + total l) r.
Proof. unfold blocks. rewrite seg_app, total_app, Z.add_assoc. tauto. Qed.

Lemma blocks_cons m pv p n u r :
  blocks m pv p ((n, u) :: r) <->
  m !! p = Some (Mem (p + n) pv u) /\ 20 <= n /\ (4 | n) /\ blocks m p (p + n) r.
Proof. unfold blocks. cbn. rewrite Z.add_assoc. tauto. Qed.

Lemma blocks_end m pv p bs : blocks m pv p bs -> p + total bs = ram_end /\ p <= ram_end.
Proof.
  intros (Hs & He & _). destruct (seg_total _ _ _ _ Hs) as [Ht _]. pose proof (zlen_nonneg bs). lia.
Qed.

Lemma blocks_insert m o e pv p bs : blocks m pv p bs -> o < p -> blocks (<[o := e]> m) pv p bs.
Proof.
  intros Hb Ho. pose proof (blocks_end _ _ _ _ Hb) as [_ Hp]. destruct Hb as (Hs & He & [v Hv]).
  split_and!; [apply seg_insert; [done|lia]|done|]. exists v. rewrite lookup_insert_ne; [done|lia].
Qed.

(** The structure at the head of the rest of the heap, end included. *)
Lemma blocks_head m pv p bs :
  blocks m pv p bs ->
  exists q v u, m !! p = Some (Mem q v u) /\ p <= q <= ram_end /\
  u = match bs with (_, u) :: _ => u | [] => true end.
Proof.
  intros Hb. destruct bs as [|[n u] r].
  - destruct Hb as (_ & He & [v Hv]). cbn in He. rewrite Z.add_0_r in He. subst p.
    exists ram_end, v, true. split_and!; [done|lia..|done].
  - apply blocks_cons in Hb as (Hm & Hn & _ & Hb). apply blocks_end in Hb as [_ ?].
    exists (p + n), pv, u. split_and!; [done|lia..|done].
Qed.

Lemma blocks_set_prev m lf pv p bs v :
  0 <= p -> blocks m pv p bs ->
  exists e, set_prev (MemHeap m lf) p v = Ok (MemHeap (<[p := e]> m) lf) /\ blocks (<[p := e]> m) v p bs.
Proof.
  intros Hp Hb. pose proof (blocks_end _ _ _ _ Hb) as [_ Hpe].
  pose proof (blocks_head _ _ _ _ Hb) as (q & v0 & u0 & Hm & _ & _).
  unfold set_prev, rd_mem, wr_mem. cbn [ram lfree]. rewrite Hm. cbn [obind next used].
  rewrite (proj2 (Z.leb_le 0 p) Hp), (proj2 (Z.leb_le p ram_end) Hpe). cbn [andb].
  eexists. split; [done|]. destruct bs as [|[n u] r].
  - destruct Hb as (_ & He & [v1 Hv]). split; [done|]. split; [done|].
    cbn in He. rewrite Z.add_0_r in He. subst p. rewrite Hv in Hm. injection Hm as <- <- <-.
    exists v. by rewrite lookup_insert_eq.
  - apply blocks_cons in Hb as (Hm' & Hn & Hd & Hb). rewrite Hm' in Hm. injection Hm as <- <- <-.
    apply blocks_cons. rewrite lookup_insert_eq. split_and!; try done. apply blocks_insert; [done|lia].
Qed.

Lemma blocks_any_prev m pv p v : blocks m pv p [] -> blocks m v p [].
Proof. done. Qed.

Lemma wr_mem_ok m lf p e : 0 <= p <= ram_end -> wr_mem (MemHeap m lf) p e = Ok (MemHeap (<[p := e]> m) lf).
Proof.
  intros H. unfold wr_mem. rewrite (proj2 (Z.leb_le 0 p)), (proj2 (Z.leb_le p ram_end)) by lia. done.
Qed.

(** *** Linking and joining blocks *)

Lemma link_rest_ok m lf l n0 u a b r q :
  seg m 0 0 l -> m !! total l = Some (Mem n0 (last_off 0 0 l) u) ->
  blocks m q (total l + a + b) r -> 20 <= a -> (4 | a) -> 20 <= b -> (4 | b) ->
  exists m', link_rest (MemHeap m lf) (total l) (total l + a) (total l + a + b) = Ok (MemHeap m' lf) /\
             blocks m' 0 0 (l ++ (a, u) :: (b, false) :: r).
Proof.
  intros Hl Hm Hr Ha Hda Hb Hdb. pose proof (blocks_end _ _ _ _ Hr) as [_ He].
  pose proof (seg_total _ _ _ _ Hl) as [Ht _]. pose proof (zlen_nonneg l).
  unfold link_rest. rewrite wr_mem_ok by lia. cbn [obind].
  unfold set_next, rd_mem. cbn [ram lfree]. rewrite lookup_insert_ne by lia. rewrite Hm. cbn [obind prev used].
  rewrite wr_mem_ok by lia. cbn [obind].
  set (m1 := <[total l := _]> _).
  assert (Hpre : blocks m1 q (total l + a + b) r) by (do 2 (apply blocks_insert; [|lia]); done).
  assert (Hfin : forall m2, blocks m2 (total l + a) (total l + a + b) r ->
            (forall o, o < total l + a + b -> m2 !! o = m1 !! o) ->
            blocks m2 0 0 (l ++ (a, u) :: (b, false) :: r)).
  { intros m2 H2 Hf. apply blocks_app. cbn [Z.add]. split.
    - apply (seg_frame m); [done|]. intros o Ho. rewrite Hf by lia. unfold m1.
      rewrite !lookup_insert_ne by lia. done.
    - rewrite !blocks_cons, !Hf by lia. unfold m1. rewrite lookup_insert_eq.
      rewrite lookup_insert_ne, lookup_insert_eq by lia. done. }
  destruct (negb (total l + a + b =? MEM_SIZE_ALIGNED)) eqn:E.
  - destruct (blocks_set_prev m1 lf q (total l + a + b) r (total l + a)) as (e & -> & H2); [lia|done|].
    eexists. split; [done|]. apply Hfin; [done|]. intros o Ho. rewrite lookup_insert_ne; [done|lia].
  - exists m1. split; [done|]. apply Hfin; [|done].
    apply negb_false_iff, Z.eqb_eq in E. destruct r as [|[n2 u2] r]; [by apply (blocks_any_prev _ q)|].
    apply blocks_cons in Hpre as (_ & Hn2 & _ & Hr2). apply blocks_end in Hr2 as [_ ?].
    unfold ram_end in *. lia.
Qed.

(** Writing a block over the structure at the end of a prefix. *)
Lemma join_ok m lf l n0 u n r q :
  seg m 0 0 l -> m !! total l = Some (Mem n0 (last_off 0 0 l) u) ->
  blocks m q (total l + n) r -> 20 <= n -> (4 | n) ->
  exists m', (let! h := set_next (MemHeap m lf) (total l) (total l + n) in set_prev h (total l + n) (total l))
             = Ok (MemHeap m' lf) /\ blocks m' 0 0 (l ++ (n, u) :: r).
Proof.
  intros Hl Hm Hr Hn Hd. pose proof (blocks_end _ _ _ _ Hr) as [_ He].
  pose proof (seg_total _ _ _ _ Hl) as [Ht _]. pose proof (zlen_nonneg l).
  unfold set_next, rd_mem. cbn [ram lfree]. rewrite Hm. cbn [obind prev used].
  rewrite wr_mem_ok by lia. cbn [obind].
  set (m1 := <[total l := _]> _).
  assert (Hpre : blocks m1 q (total l + n) r) by (apply blocks_insert; [done|lia]).
  destruct (blocks_set_prev m1 lf q (total l + n) r (total l)) as (e & -> & H2); [lia|done|].
  eexists. split; [done|]. apply blocks_app. cbn [Z.add]. split.
  - apply seg_insert; [|lia]. apply seg_insert; [done|lia].
  - rewrite blocks_cons. rewrite lookup_insert_ne by lia. unfold m1. rewrite lookup_insert_eq. done.
Qed.

Lemma blocks_mid m l n u r :
  blocks m 0 0 (l ++ (n, u) :: r) <->
  seg m 0 0 l /\ m !! total l = Some (Mem (total l + n) (last_off 0 0 l) u) /\
  20 <= n /\ (4 | n) /\ blocks m (total l) (total l + n) r.
Proof. by rewrite blocks_app, blocks_cons. Qed.

Lemma rd_at_ok m lf l n u r :
  blocks m 0 0 (l ++ (n, u) :: r) ->
  rd_mem (MemHeap m lf) (total l) = Ok (Mem (total l + n) (last_off 0 0 l) u).
Proof. intros (_ & Hm & _)%blocks_mid. unfold rd_mem. cbn [ram]. by rewrite Hm. Qed.

Lemma rd_rest_ok m lf l n u r :
  blocks m 0 0 (l ++ (n, u) :: r) ->
  exists q v, rd_mem (MemHeap m lf) (total l + n) =
    Ok (Mem q v (match r with (_, u2) :: _ => u2 | [] => true end)) /\
    match r with (n2, _) :: _ => q = total l + n + n2 | [] => q = ram_end end.
Proof.
  intros (_ & _ & _ & _ & Hr)%blocks_mid. unfold rd_mem. cbn [ram].
  destruct r as [|[n2 u2] r].
  - destruct Hr as (_ & He & [v Hv]). cbn in He. rewrite Z.add_0_r in He. rewrite He, Hv. by eexists _, _.
  - apply blocks_cons in Hr as (Hm & _). rewrite Hm. by eexists _, _.
Qed.

Lemma blocks_prefix_pos m pv p l r : blocks m pv p (l ++ r) -> 0 <= total l /\ Forall (fun b => 20 <= fst b) l.
Proof.
  intros [Hs _]%blocks_app. destruct (seg_total _ _ _ _ Hs) as [Ht _]. pose proof (zlen_nonneg l).
  split; [lia|]. by eapply seg_sizes.
Qed.

Lemma first_free_swap p l n n' r r' :
  first_free p (l ++ (n, false) :: r) = first_free p (l ++ (n', false) :: r').
Proof. revert p. induction l as [|[n0 []] l IH]; intros p; cbn; [done|apply IH|done]. Qed.

Lemma first_free_le p l n r :
  Forall (fun b => 20 <= fst b) l -> p <= first_free p (l ++ (n, false) :: r) <= p + total l.
Proof.
  intros Hl. revert p. induction Hl as [|[n0 u0] l Hn _ IH]; intros p; cbn in *; [lia|].
  assert (0 <= total l) by (specialize (IH 0); lia). destruct u0; [|lia]. specialize (IH (p + n0)). lia.
Qed.

Lemma last_off_snoc pv p l n u : last_off pv p (l ++ [(n, u)]) = p + total l.
Proof. revert pv p. induction l as [|[n0 u0] l IH]; intros pv p; cbn; [lia|]. rewrite IH. lia. Qed.
Lemma last_used_snoc v l n u : last_used v (l ++ [(n, u)]) = u.
Proof. revert v. induction l as [|[n0 u0] l IH]; intros v; cbn; [done|]. apply IH. Qed.

Lemma free_block_prefix v p l k t :
  Forall (fun b => 20 <= fst b) l -> joined v l -> last_used true l = true -> 0 <= k ->
  free_block p (p + total l + k) (l ++ t) = l ++ free_block (p + total l) (p + total l + k) t.
Proof.
  intros Hl. revert v p. induction Hl as [|[n u] l Hn Hl IH]; intros v p Hj Hu Hk; cbn in *.
  - by rewrite Z.add_0_r.
  - assert (0 <= total l) by (clear -Hl; induction Hl as [|[]]; cbn in *; lia).
    destruct (Z.eqb_spec p (p + (n + total l) + k)); [lia|].
    destruct Hj as [_ Hj]. replace (p + (n + total l)) with (p + n + total l) by lia.
    destruct u; [by rewrite (IH true)|].
    rewrite (IH false); [|done| |done].
    + destruct l as [|[n1 []] l]; done || by destruct Hj.
    + destruct l as [|[n1 u1] l]; [done|exact Hu].
Qed.

Lemma cons_free_shape n r :
  joined true r -> exists n1 r1, cons_free n r = (n1, false) :: r1 /\ joined false r1.
Proof.
  destruct r as [|[n2 []] r]; cbn; intros Hj; eexists _, _; (split; [reflexivity|]); cbn; tauto.
Qed.

(** *** plug_holes and mem_free *)

Lemma plug_forward_ok m l n r :
  blocks m 0 0 (l ++ (n, false) :: r) -> joined true r ->
  exists m' n1 r1, let lf := first_free 0 (l ++ (n, false) :: r) in
    plug_forward (MemHeap m lf) (total l) = Ok (MemHeap m' lf) /\
    cons_free n r = (n1, false) :: r1 /\ joined false r1 /\
    blocks m' 0 0 (l ++ (n1, false) :: r1) /\ lf = first_free 0 (l ++ (n1, false) :: r1).
Proof.
  intros Hb Hj. destruct (cons_free_shape n r Hj) as (n1 & r1 & Hc & Hj1).
  pose proof (blocks_prefix_pos _ _ _ _ _ Hb) as [Hpos Hl].
  pose proof (first_free_le 0 l n r Hl) as [_ Hle].
  rewrite (first_free_swap 0 l n n1 r r1) in *. set (lf := first_free _ _) in *.
  unfold plug_forward. rewrite (rd_at_ok _ lf _ _ _ _ Hb). cbn [obind next].
  destruct (rd_rest_ok _ lf _ _ _ _ Hb) as (q & v & -> & Hq). cbn [obind used next].
  apply blocks_mid in Hb as Hb'. destruct Hb' as (Hs & Hm & Hn & Hd & Hr).
  destruct (Z.eqb_spec (total l) (total l + n)); [lia|]. cbn [negb andb].
  destruct r as [|[n2 []] r]; cbn [negb andb].
  - injection Hc as <- <-. by exists m, n, [].
  - injection Hc as <- <-. by exists m, n, ((n2, true) :: r).
  - injection Hc as <- <-. apply blocks_cons in Hr as (Hm2 & Hn2 & Hd2 & Hr2).
    pose proof (blocks_end _ _ _ _ Hr2) as [_ He].
    destruct (Z.eqb_spec (total l + n) ram_end); [lia|]. cbn [negb].
    cbn [lfree]. destruct (Z.eqb_spec lf (total l + n)); [lia|].
    subst q. rewrite <- Z.add_assoc.
    destruct (join_ok m lf l (total l + n) false (n + n2) r (total l + n)) as (m' & -> & Hb').
    + done.
    + done.
    + by rewrite Z.add_assoc.
    + lia.
    + by apply Z.divide_add_r.
    + by exists m', (n + n2), r.
Qed.

Lemma plug_backward_first m lf n r :
  blocks m 0 0 ((n, false) :: r) -> plug_backward (MemHeap m lf) 0 = Ok (MemHeap m lf).
Proof.
  intros (Hm & _)%blocks_cons. unfold plug_backward, rd_mem. cbn [ram]. rewrite Hm. cbn [obind prev].
  by rewrite Hm.
Qed.

Lemma plug_backward_used m lf l n0 n r :
  blocks m 0 0 (l ++ (n0, true) :: (n, false) :: r) ->
  plug_backward (MemHeap m lf) (total l + n0) = Ok (MemHeap m lf).
Proof.
  intros Hb. apply blocks_mid in Hb as (Hs & Hm & _ & _ & (Hm2 & _)%blocks_cons).
  unfold plug_backward, rd_mem. cbn [ram]. rewrite Hm2. cbn [obind prev]. rewrite Hm. cbn [obind used negb].
  by rewrite andb_false_r.
Qed.

Lemma plug_backward_free m l n0 n r :
  blocks m 0 0 (l ++ (n0, false) :: (n, false) :: r) ->
  exists m', let lf := first_free 0 (l ++ (n0, false) :: (n, false) :: r) in
    plug_backward (MemHeap m lf) (total l + n0) = Ok (MemHeap m' lf) /\
    blocks m' 0 0 (l ++ (n0 + n, false) :: r).
Proof.
  intros Hb. pose proof (blocks_prefix_pos _ _ _ _ _ Hb) as [_ Hl].
  pose proof (first_free_le 0 l n0 ((n, false) :: r) Hl) as [_ Hle]. set (lf := first_free _ _) in *.
  apply blocks_mid in Hb as (Hs & Hm & Hn0 & Hd0 & Hb). apply blocks_cons in Hb as (Hm2 & Hn & Hd & Hr).
  unfold plug_backward. unfold rd_mem at 1 2. cbn [ram]. rewrite Hm2. cbn [obind prev next]. rewrite Hm.
  cbn [obind used negb lfree]. destruct (Z.eqb_spec (total l) (total l + n0)); [lia|].
  cbn [negb andb]. destruct (Z.eqb_spec lf (total l + n0)); [lia|].
  rewrite <- Z.add_assoc in *.
  destruct (join_ok m lf l (total l + n0) false (n0 + n) r (total l + n0)) as (m' & -> & Hb');
    [done..|lia|by apply Z.divide_add_r|]. by exists m'.
Qed.

Lemma free_block_after_used l n0 n u r :
  Forall (fun b => 20 <= fst b) (l ++ [(n0, true)]) -> joined true l ->
  free_block 0 (total l + n0) (l ++ (n0, true) :: (n, u) :: r) = l ++ (n0, true) :: cons_free n r.
Proof.
  intros Hl Hj. pose proof (free_block_prefix true 0 (l ++ [(n0, true)]) 0 ((n, u) :: r) Hl) as Hf.
  rewrite total_app, <- !app_assoc in Hf. cbn [total app] in Hf. rewrite !Z.add_0_r, !Z.add_0_l in Hf.
  rewrite Hf; [|rewrite joined_app; cbn [joined]; rewrite orb_true_r; tauto|apply last_used_snoc|done].
  cbn [free_block]. by rewrite Z.eqb_refl.
Qed.

Lemma free_block_after_free l n0 n u r :
  Forall (fun b => 20 <= fst b) l -> 20 <= n0 -> joined true l -> last_used true l = true ->
  free_block 0 (total l + n0) (l ++ (n0, false) :: (n, u) :: r) = l ++ cons_free n0 (cons_free n r).
Proof.
  intros Hl Hn Hj Hu. pose proof (free_block_prefix true 0 l n0 ((n0, false) :: (n, u) :: r) Hl Hj Hu) as Hf.
  rewrite !Z.add_0_l in Hf. rewrite Hf by lia. cbn [free_block].
  destruct (Z.eqb_spec (total l) (total l + n0)); [lia|]. by rewrite Z.eqb_refl.
Qed.

Lemma plug_holes_ok m l n u r :
  blocks m 0 0 (l ++ (n, false) :: r) -> joined true l -> joined true r ->
  exists h', plug_holes (MemHeap m (first_free 0 (l ++ (n, false) :: r))) (total l) = Ok h' /\
             heap_rep h' (free_block 0 (total l) (l ++ (n, u) :: r)).
Proof.
  intros Hb Hjl Hjr. pose proof (blocks_prefix_pos _ _ _ _ _ Hb) as [_ Hl].
  destruct (plug_forward_ok _ _ _ _ Hb Hjr) as (m1 & n1 & r1 & E & Hc & Hj1 & Hb1 & Hlf).
  cbv zeta in *. unfold plug_holes. rewrite E. cbn [obind]. rewrite Hlf. clear E Hlf Hb m.
  destruct l as [|[n0 u0] l _] using rev_ind.
  - cbn [total app] in *. rewrite (plug_backward_first _ _ _ _ Hb1).
    eexists. split; [done|]. cbn [free_block]. by rewrite Z.eqb_refl, Hc.
  - rewrite total_app. cbn [total]. rewrite Z.add_0_r. rewrite <- !app_assoc in *. cbn [app] in *.
    apply joined_app in Hjl as [Hjl [Hu _]]. destruct u0.
    + rewrite (plug_backward_used _ _ _ _ _ _ Hb1). eexists. split; [done|].
      rewrite free_block_after_used by done. rewrite Hc. split; [exact Hb1|]. split; [|done].
      rewrite joined_app. cbn [joined]. tauto.
    + rewrite orb_false_r in Hu. apply Forall_app in Hl as [Hl Hl1]. inversion_clear Hl1.
      destruct (plug_backward_free _ _ _ _ _ Hb1) as (m' & E & Hb'). cbv zeta in E. rewrite E.
      eexists. split; [done|]. rewrite free_block_after_free by done. rewrite Hc. cbn [cons_free].
      rewrite (first_free_swap 0 l n0 (n0 + n1) _ r1). split; [done|]. split; [|done].
      rewrite joined_app. cbn [joined]. rewrite Hu. tauto.
Qed.

Lemma first_free_app p l r :
  Forall (fun b => 20 <= fst b) l ->
  first_free p (l ++ r) =
  if first_free p l =? p + total l then first_free (p + total l) r else first_free p l.
Proof.
  intros Hl. revert p. induction Hl as [|[n u] l Hn Hl IH]; intros p; cbn in *.
  - rewrite Z.add_0_r, Z.eqb_refl. done.
  - assert (0 <= total l) by (clear -Hl; induction Hl as [|[]]; cbn in *; lia).
    destruct u; [|destruct (Z.eqb_spec p (p + (n + total l))); [lia|done]].
    by rewrite IH, Z.add_assoc.
Qed.

Lemma first_free_range p l : Forall (fun b => 20 <= fst b) l -> p <= first_free p l <= p + total l.
Proof.
  intros Hl. revert p. induction Hl as [|[n u] l Hn Hl IH]; intros p; cbn in *; [lia|].
  pose proof (IH (p + n)). destruct u; lia.
Qed.

Lemma set_used_ok m lf l n u b r :
  blocks m 0 0 (l ++ (n, u) :: r) ->
  exists m', set_used (MemHeap m lf) (total l) b = Ok (MemHeap m' lf) /\ blocks m' 0 0 (l ++ (n, b) :: r).
Proof.
  intros Hb. pose proof (blocks_prefix_pos _ _ _ _ _ Hb) as [Hpos _].
  apply blocks_mid in Hb as (Hs & Hm & Hn & Hd & Hr). pose proof (blocks_end _ _ _ _ Hr) as [_ He].
  unfold set_used, rd_mem. cbn [ram]. rewrite Hm. cbn [obind next prev]. rewrite wr_mem_ok by lia.
  eexists. split; [done|]. apply blocks_mid. rewrite lookup_insert_eq.
  split_and!; [apply seg_insert; [done|lia]|done..|apply blocks_insert; [done|lia]].
Qed.

(** The used block at [total l] of a heap. *)
Lemma mem_free_ok h l n r :
  heap_rep h (l ++ (n, true) :: r) ->
  exists h', mem_free h (Some (total l + 8)) = Ok h' /\
             heap_rep h' (free_block 0 (total l) (l ++ (n, true) :: r)).
Proof.
  destruct h as [m lf]. intros (Hb & Hj & Hlf). cbn [ram lfree] in *.
  pose proof (blocks_prefix_pos _ _ _ _ _ Hb) as [Hpos Hl].
  apply joined_app in Hj as [Hjl [_ Hjr]].
  apply blocks_mid in Hb as (Hs & Hm & Hn & Hd & Hr). pose proof (blocks_end _ _ _ _ Hr) as [_ He].
  unfold mem_free. change SIZEOF_STRUCT_MEM with 8. rewrite Z.add_simpl_r.
  destruct (Z.ltb_spec (total l + 8) 0); [lia|]. destruct (Z.leb_spec ram_end (total l + 8)); [lia|].
  cbn [orb]. destruct (set_used_ok m lf l n true false r) as (m' & -> & Hb); [by apply blocks_mid|].
  cbn [obind lfree].
  replace (if total l <? lf then _ else _) with (MemHeap m' (first_free 0 (l ++ (n, false) :: r))).
  - by apply plug_holes_ok.
  - rewrite Hlf. rewrite !first_free_app by done. cbn [first_free]. rewrite Z.add_0_l in *.
    pose proof (first_free_range 0 l Hl) as Hrg.
    destruct (Z.eqb_spec (first_free 0 l) (total l)) as [E|E].
    + destruct Hr as [Hsr _]. apply seg_sizes in Hsr.
      pose proof (first_free_range (total l + n) r Hsr).
      destruct (Z.ltb_spec (total l) (first_free (total l + n) r)); [done|lia].
    + destruct (Z.ltb_spec (total l) (first_free 0 l)); [lia|done].
Qed.

(** *** mem_malloc *)

Lemma next_free_ok m lf l r fuel :
  blocks m 0 0 (l ++ r) -> (length r < fuel)%nat ->
  next_free fuel (MemHeap m lf) (total l) = Ok (first_free (total l) r).
Proof.
  revert l fuel. induction r as [|[n u] r IH]; intros l [|fuel] Hb Hf; cbn [length] in Hf; try lia; cbn [next_free].
  - apply blocks_app in Hb as [_ Hb]. rewrite Z.add_0_l in Hb. destruct Hb as (_ & He & [v Hv]).
    cbn in He. rewrite Z.add_0_r in He. unfold rd_mem. cbn [ram]. rewrite He, Hv. cbn [obind used].
    by rewrite Z.eqb_refl.
  - rewrite (rd_at_ok _ _ _ _ _ _ Hb). cbn [obind used next first_free].
    apply blocks_mid in Hb as Hb'. destruct Hb' as (_ & _ & Hn & _ & Hr). apply blocks_end in Hr as [_ He].
    destruct u; [|done]. destruct (Z.eqb_spec (total l) ram_end); [lia|]. cbn [negb andb].
    specialize (IH (l ++ [(n, true)]) fuel). rewrite total_app, <- app_assoc in IH. cbn [total app] in IH.
    rewrite Z.add_0_r in IH. apply IH; [done|lia].
Qed.

Lemma blocks_length m l : blocks m 0 0 l -> (length l < mem_fuel)%nat.
Proof.
  intros (Hs & He & _). destruct (seg_total _ _ _ _ Hs) as [Ht _]. unfold zlen in Ht.
  change mem_fuel with 514%nat. change ram_end with 10240 in He. lia.
Qed.

Lemma cut_joined l n s r :
  joined true (l ++ (n, false) :: r) -> joined true (l ++ cut n s ++ r).
Proof.
  rewrite !joined_app. intros (Hl & Hu & Hr). rewrite orb_false_r in Hu. split; [done|]. unfold cut.
  destruct (s + 28 <=? n); cbn; rewrite ?orb_true_r; [by split_and!|]. split; [done|].
  destruct r as [|[n2 u2] r]; [done|]. cbn in *. tauto.
Qed.

(** Marking the block and cutting off what is left. *)
Lemma cut_ok m lf l n r s :
  blocks m 0 0 (l ++ (n, false) :: r) -> 12 <= s -> (4 | s) -> s + 8 <= n ->
  exists m', (if s + 8 + 12 <=? total l + n - (total l + 8)
      then let! h := link_rest (MemHeap m lf) (total l) (total l + 8 + s) (total l + n) in set_used h (total l) true
      else set_used (MemHeap m lf) (total l) true) = Ok (MemHeap m' lf) /\ blocks m' 0 0 (l ++ cut n s ++ r).
Proof.
  intros Hb Hs Hds Hsn. unfold cut.
  destruct (Z.leb_spec (s + 8 + 12) (total l + n - (total l + 8))), (Z.leb_spec (s + 28) n); try lia.
  - apply blocks_mid in Hb as (Hseg & Hm & Hn & Hd & Hr).
    assert (Hd8 : (4 | s + 8)) by (apply Z.divide_add_r; [done|by exists 2]).
    assert (E : total l + n = total l + (s + 8) + (n - (s + 8))) by lia.
    destruct (link_rest_ok m lf l (total l + n) false (s + 8) (n - (s + 8)) r (total l)) as (m' & El & Hb');
      [done|done|by rewrite <- E|lia|done|lia|by apply Z.divide_sub_r|].
    rewrite <- E in El. replace (total l + 8 + s) with (total l + (s + 8)) by lia. rewrite El. cbn [obind].
    by eapply set_used_ok.
  - by eapply set_used_ok.
Qed.

Lemma take_block_ok h l n r s :
  heap_rep h (l ++ (n, false) :: r) -> 12 <= s -> (4 | s) -> s + 8 <= n ->
  exists h', take_block h (total l) s = Ok h' /\ heap_rep h' (l ++ cut n s ++ r).
Proof.
  destruct h as [m lf]. intros (Hb & Hj & Hlf) Hs Hds Hsn. cbn [ram lfree] in *.
  pose proof (blocks_prefix_pos _ _ _ _ _ Hb) as [Hpos Hl]. pose proof (cut_joined l n s r Hj) as Hjn.
  unfold take_block. rewrite (rd_at_ok _ _ _ _ _ _ Hb). cbn [obind next].
  destruct (cut_ok m lf l n r s Hb Hs Hds Hsn) as (m' & Hstep & Hb').
  apply blocks_mid in Hb as (Hseg & Hm & Hn & Hd & Hr). apply blocks_end in Hr as [_ He].
  change ram_end with 10240 in He. change SIZEOF_STRUCT_MEM with 8. change MIN_SIZE_ALIGNED with 12.
  rewrite !u32_small, u16_small by lia. rewrite Hstep. cbn [obind lfree].
  rewrite Hlf. rewrite first_free_app, Z.add_0_l by done. cbn [first_free].
  destruct (Z.eqb_spec (first_free 0 l) (total l)) as [E|E].
  - rewrite Z.eqb_refl. rewrite (next_free_ok m' _ l (cut n s ++ r) mem_fuel); [|done|].
    + eexists. split; [done|]. split; [done|]. split; [done|]. cbn [lfree set_lfree].
      rewrite (first_free_app 0 l), Z.add_0_l by done. by rewrite E, Z.eqb_refl.
    + apply blocks_length in Hb'. rewrite length_app in Hb'. lia.
  - destruct (Z.eqb_spec (total l) (first_free 0 l)); [lia|]. eexists. split; [done|]. split; [done|]. split; [done|].
    cbn [lfree]. rewrite (first_free_app 0 l), Z.add_0_l by done. by destruct (Z.eqb_spec (first_free 0 l) (total l)).
Qed.

Lemma first_fit_app_used p l r s :
  Forall (fun b => snd b = true) l ->
  first_fit p (l ++ r) s = '(q, r') ← first_fit (p + total l) r s; Some (q, l ++ r').
Proof.
  intros Hl. revert p. induction Hl as [|[n u] l Hu Hl IH]; intros p; cbn in *.
  - rewrite Z.add_0_r. by destruct (first_fit p r s) as [[q r']|].
  - subst u. cbn [negb andb]. rewrite IH, Z.add_assoc. by destruct (first_fit (p + n + total l) r s) as [[q r']|].
Qed.

Lemma first_free_split p bs :
  exists l r, bs = l ++ r /\ Forall (fun b => snd b = true) l /\ first_free p bs = p + total l.
Proof.
  revert p. induction bs as [|[n u] r IH]; intros p; cbn.
  - exists [], []. cbn. split_and!; [done..|lia].
  - destruct u.
    + destruct (IH (p + n)) as (l & r' & -> & Hl & ->). exists ((n, true) :: l), r'. cbn.
      split_and!; [done|by constructor|lia].
    + exists [], ((n, false) :: r). cbn. split_and!; [done..|lia].
Qed.

Lemma first_fit_small p r s : Forall (fun b => 20 <= fst b) r -> total r < s + 8 -> first_fit p r s = None.
Proof.
  intros Hr. revert p. induction Hr as [|[n u] r Hn Hr IH]; intros p Ht; cbn in *; [done|].
  assert (0 <= total r) by (clear -Hr; induction Hr as [|[]]; cbn in *; lia).
  destruct (Z.leb_spec (s + 8) n); [lia|]. rewrite andb_false_r, IH by lia. done.
Qed.

Lemma malloc_loop_ok fuel h l r s :
  heap_rep h (l ++ r) -> 12 <= s -> (4 | s) -> s <= MEM_SIZE_ALIGNED -> (length r < fuel)%nat ->
  exists o h', malloc_loop fuel h (total l) s = Ok (o, h') /\
    match first_fit (total l) r s with
    | Some (q, r') => o = Some (q + 8) /\ heap_rep h' (l ++ r')
    | None => o = None /\ h' = h
    end.
Proof.
  intros Hh Hs Hd Hsm. revert l fuel Hh. induction r as [|[n u] r IH]; intros l [|fuel] Hh Hf; cbn [length] in Hf; try lia;
    cbn [malloc_loop]; destruct h as [m lf]; pose proof Hh as (Hb & _); cbn [ram] in Hb;
    destruct (proj1 (blocks_app _ _ _ _ _) Hb) as [_ (Hsr & He & _)]; rewrite Z.add_0_l in *.
  - cbn [total] in He. rewrite Z.add_0_r in He. rewrite He. unfold ram_end.
    destruct (Z.ltb_spec MEM_SIZE_ALIGNED (MEM_SIZE_ALIGNED - s)); [lia|]. by eexists _, _.
  - destruct (Z.ltb_spec (total l) (MEM_SIZE_ALIGNED - s)).
    2: { eexists _, _. split; [done|]. rewrite first_fit_small; [done|by eapply seg_sizes|]. unfold ram_end in He. lia. }
    rewrite (rd_at_ok _ _ _ _ _ _ Hb). cbn [obind used next first_fit].
    apply blocks_mid in Hb as (Hseg & _ & Hn & _ & Hr). apply blocks_end in Hr as [_ Her].
    destruct (seg_total _ _ _ _ Hseg) as [Hpos _]. pose proof (zlen_nonneg l). change ram_end with 10240 in *.
    change SIZEOF_STRUCT_MEM with 8. rewrite u32_small by lia.
    replace (s <=? total l + n - (total l + 8)) with (s + 8 <=? n)
      by (apply eq_bool_prop_intro; rewrite !Is_true_true, !Z.leb_le; lia).
    assert (Hskip : exists o h', malloc_loop fuel (MemHeap m lf) (total l + n) s = Ok (o, h') /\
      match ('(q, r') ← first_fit (total l + n) r s; Some (q, (n, u) :: r')) with
      | Some (q, r') => o = Some (q + 8) /\ heap_rep h' (l ++ r')
      | None => o = None /\ h' = MemHeap m lf
      end).
    { destruct (IH (l ++ [(n, u)]) fuel) as (o & h' & E & Hm); [by rewrite <- app_assoc|lia|].
      rewrite total_app in *. cbn [total] in *. rewrite Z.add_0_r in *. rewrite E. eexists _, _. split; [done|].
      destruct (first_fit (total l + n) r s) as [[q r']|]; [|done]. destruct Hm as [-> Hm].
      split; [done|]. by rewrite <- app_assoc in Hm. }
    destruct u; cbn [negb andb]; [done|]. destruct (Z.leb_spec (s + 8) n); [|done].
    destruct (take_block_ok _ l n r s Hh) as (h' & -> & Hh'); [done..|]. by eexists _, _.
Qed.

Lemma align_size_spec z : 0 <= z -> exists k, LWIP_MEM_ALIGN_SIZE z = 4 * k /\ z <= 4 * k < z + 4.
Proof.
  intros Hz. unfold LWIP_MEM_ALIGN_SIZE, MEM_ALIGNMENT.
  change (Z.lnot (4 - 1)) with (Z.lnot (Z.ones 2)). rewrite <- Z.ldiff_land, Z.ldiff_ones_r by lia.
  rewrite Z.shiftl_mul_pow2, Z.shiftr_div_pow2 by lia. change (2 ^ 2) with 4.
  exists ((z + 4 - 1) / 4). split; [lia|].
  pose proof (Z.div_mod (z + 4 - 1) 4). pose proof (Z.mod_pos_bound (z + 4 - 1) 4). lia.
Qed.

Lemma block_size_spec w :
  0 <= w <= 65532 -> exists k, block_size w = 4 * k /\ w <= block_size w < Z.max 13 (w + 4) /\ 12 <= block_size w.
Proof.
  intros Hw. unfold block_size. destruct (align_size_spec w) as (k & -> & Hk); [lia|].
  rewrite u16_small by lia. change MIN_SIZE_ALIGNED with 12.
  destruct (Z.ltb_spec (4 * k) 12); [exists 3|exists k]; lia.
Qed.

(** A request whose alignment does not leave a u16_t is served first fit;
    when no free block is large enough the heap is unchanged. *)
Lemma mem_malloc_ok h bs w :
  heap_rep h bs -> 0 < w <= 65532 ->
  exists o h', mem_malloc h w = Ok (o, h') /\
    match first_fit 0 bs (block_size w) with
    | Some (q, bs') => o = Some (q + 8) /\ heap_rep h' bs'
    | None => o = None /\ h' = h
    end.
Proof.
  intros Hh Hw. unfold mem_malloc. destruct (Z.eqb_spec w 0); [lia|].
  destruct (block_size_spec w) as (k & Hk & Hb & H12); [lia|].
  pose proof Hh as (Hbl & _ & Hlf). pose proof (blocks_length _ _ Hbl) as Hlen.
  destruct (blocks_end _ _ _ _ Hbl) as [He _]. destruct Hbl as [Hseg _].
  destruct (Z.ltb_spec MEM_SIZE_ALIGNED (block_size w)).
  { eexists _, _. split; [done|]. rewrite first_fit_small; [done|by eapply seg_sizes|]. unfold ram_end in He. lia. }
  destruct (first_free_split 0 bs) as (l & r & -> & Hl & Hff). rewrite Hlf, Hff, Z.add_0_l.
  destruct (malloc_loop_ok mem_fuel h l r (block_size w)) as (o & h' & E & Hm);
    [done|lia|by exists k; lia|done|rewrite length_app in Hlen; lia|].
  rewrite E. eexists _, _. split; [done|]. rewrite first_fit_app_used, Z.add_0_l by done.
  by destruct (first_fit (total l) r (block_size w)) as [[q r']|].
Qed.

(** *** mem_trim *)

Definition trim_blocks (n s : Z) (r : list block) : list block :=
  if s =? n - 8 then (n, true) :: r
  else match r with
       | (n2, false) :: r' => (s + 8, true) :: (n + n2 - (s + 8), false) :: r'
       | _ => if s + 20 <=? n - 8 then (s + 8, true) :: (n - (s + 8), false) :: r else (n, true) :: r
       end.

Lemma trim_case h l n r s k lf' q r' :
  heap_rep h (l ++ (n, true) :: r) -> 12 <= s -> (4 | s) -> s + 20 <= k - 8 -> (4 | k) ->
  joined false r' -> blocks (ram h) q (total l + k) r' ->
  lf' = first_free 0 (l ++ (s + 8, true) :: (k - (s + 8), false) :: r') ->
  exists h', link_rest (set_lfree h lf') (total l) (total l + 8 + s) (total l + k) = Ok h' /\
             heap_rep h' (l ++ (s + 8, true) :: (k - (s + 8), false) :: r').
Proof.
  destruct h as [m lf]. intros (Hb & Hj & _) Hs Hds Hsk Hdk Hjr Hr Hlf. cbn [ram] in *.
  apply joined_app in Hj as [Hjl _]. apply blocks_mid in Hb as (Hseg & Hm & _).
  assert (Hd8 : (4 | s + 8)) by (apply Z.divide_add_r; [done|by exists 2]).
  assert (E : total l + k = total l + (s + 8) + (k - (s + 8))) by lia.
  destruct (link_rest_ok m lf' l (total l + n) true (s + 8) (k - (s + 8)) r' q) as (m' & El & Hb');
    [done|done|by rewrite <- E|lia|done|lia|by apply Z.divide_sub_r|].
  rewrite <- E in El. replace (total l + 8 + s) with (total l + (s + 8)) by lia.
  eexists. split; [exact El|]. split; [done|]. split; [|done].
  rewrite joined_app. cbn [joined]. rewrite orb_true_r. tauto.
Qed.

Lemma if_lfree (c : bool) h x : (if c then set_lfree h x else h) = set_lfree h (if c then x else lfree h).
Proof. by destruct c, h. Qed.

Lemma mem_trim_ok h l n r w :
  heap_rep h (l ++ (n, true) :: r) -> 0 <= w <= 65532 -> block_size w <= n - 8 ->
  exists h', mem_trim h (total l + 8) w = Ok (Some (total l + 8), h') /\
             heap_rep h' (l ++ trim_blocks n (block_size w) r).
Proof.
  intros Hh Hw Hs. destruct (block_size_spec w Hw) as (k & Hk & Hb & H12). destruct h as [m lf].
  pose proof Hh as (Hbl & Hj & Hlf). cbn [ram lfree] in *.
  pose proof (blocks_prefix_pos _ _ _ _ _ Hbl) as [Hpos Hl].
  pose proof (proj1 (blocks_mid _ _ _ _ _) Hbl) as (Hseg & Hm & Hn & Hd & Hr).
  pose proof (blocks_end _ _ _ _ Hr) as [_ He]. apply joined_app in Hj as [Hjl [_ Hjr]].
  unfold mem_trim. set (s := block_size w) in *. change ram_end with 10240 in *. change MEM_SIZE_ALIGNED with 10240.
  change SIZEOF_STRUCT_MEM with 8. change MIN_SIZE_ALIGNED with 12. rewrite Z.add_simpl_r, (u16_small (total l)) by lia.
  destruct (Z.ltb_spec 10240 s); [lia|]. destruct (Z.ltb_spec (total l + 8) 0); [lia|].
  destruct (Z.leb_spec 10240 (total l + 8)); [lia|]. cbn [orb].
  rewrite (rd_at_ok _ lf _ _ _ _ Hbl). cbn [obind next]. replace (total l + n - total l - 8) with (n - 8) by lia.
  rewrite (u16_small (n - 8)) by lia. destruct (Z.ltb_spec (n - 8) s); [lia|]. unfold trim_blocks.
  destruct (Z.eqb_spec s (n - 8)); [by eexists|].
  rewrite !u16_small by lia.
  destruct (rd_rest_ok _ lf _ _ _ _ Hbl) as (q & v & -> & Hq). cbn [obind used next].
  rewrite u32_small, !if_lfree by lia. replace (s + 8 + 12) with (s + 20) by lia. cbn [lfree].
  rewrite first_free_app, Z.add_0_l in Hlf by done. cbn [first_free] in Hlf.
  pose proof (first_free_range 0 l Hl) as Hfl.
  assert (Hff : forall k' r', first_free 0 (l ++ (s + 8, true) :: (k', false) :: r') =
                 if first_free 0 l =? total l then total l + (s + 8) else first_free 0 l).
  { intros k' r'. by rewrite first_free_app, Z.add_0_l by done. }
  assert (Hds : (4 | s)) by (exists k; lia).
  assert (Hsplit : joined false r -> s + 20 <= n - 8 -> exists h',
    (let! h := link_rest (set_lfree (MemHeap m lf) (if total l + 8 + s <? lf then total l + 8 + s else lf))
      (total l) (total l + 8 + s) (total l + n) in Ok (Some (total l + 8), h)) = Ok (Some (total l + 8), h') /\
    heap_rep h' (l ++ (s + 8, true) :: (n - (s + 8), false) :: r)).
  { intros Hjf Hsn.
    destruct (trim_case _ l n _ s n (if total l + 8 + s <? lf then total l + 8 + s else lf) (total l) r Hh)
      as (h' & -> & Hh'); [done..| |by eexists].
    rewrite Hff, Hlf. destruct Hr as [Hsr _]. apply seg_sizes in Hsr.
    pose proof (first_free_range (total l + n) _ Hsr) as Hfr.
    destruct (Z.eqb_spec (first_free 0 l) (total l)).
    - destruct (Z.ltb_spec (total l + 8 + s) (first_free (total l + n) r)); lia.
    - destruct (Z.ltb_spec (total l + 8 + s) (first_free 0 l)); lia. }
  destruct r as [|[n2 [] ] r]; cbn [negb].
  - destruct (Z.leb_spec (s + 20) (n - 8)); [by apply Hsplit|by eexists].
  - destruct (Z.leb_spec (s + 20) (n - 8)); [|by eexists]. by apply Hsplit.
  - apply blocks_cons in Hr as (_ & Hn2 & Hd2 & Hr). subst q.
    replace (total l + n + n2) with (total l + (n + n2)) in * by lia.
    destruct (trim_case _ l n _ s (n + n2) (if lf =? total l + n then total l + 8 + s else lf) (total l + n) r Hh)
      as (h' & -> & Hh'); [done|done|lia|by apply Z.divide_add_r|by destruct Hjr|exact Hr| |by eexists].
    rewrite Hff, Hlf. cbn [first_free]. destruct (Z.eqb_spec (first_free 0 l) (total l)).
    + rewrite Z.eqb_refl. lia.
    + destruct (Z.eqb_spec (first_free 0 l) (total l + n)); lia.
Qed.

(** ** What the operations promise *)

Lemma mem_init_rep h : heap_rep (mem_init h) [(MEM_SIZE_ALIGNED, false)].
Proof.
  split; [|by split]. apply blocks_cons. cbn [mem_init ram].
  rewrite lookup_insert_ne, lookup_insert_eq by done. split_and!; [done|done|by exists 2560|].
  split; [done|]. split; [done|]. exists MEM_SIZE_ALIGNED. by rewrite lookup_insert_eq.
Qed.

Lemma first_fit_spec p bs s :
  match first_fit p bs s with
  | Some (q, bs') => exists l n r, bs = l ++ (n, false) :: r /\ q = p + total l /\ s + 8 <= n /\
      Forall (fun b => snd b = true \/ fst b < s + 8) l /\ bs' = l ++ cut n s ++ r
  | None => Forall (fun b => snd b = true \/ fst b < s + 8) bs
  end.
Proof.
  revert p. induction bs as [|[n u] r IH]; intros p; cbn; [done|].
  destruct (negb u && (s + 8 <=? n)) eqn:E.
  - apply andb_true_iff in E as [Hu%negb_true_iff Hs%Z.leb_le]. subst u. exists [], n, r. cbn. split_and!; [done|lia|done..].
  - assert (Hskip : u = true \/ n < s + 8).
    { apply andb_false_iff in E as [Hu%negb_false_iff|?%Z.leb_gt]; auto. }
    specialize (IH (p + n)). destruct (first_fit (p + n) r s) as [[q bs']|]; cbn; [|by constructor].
    destruct IH as (l & n' & r' & -> & -> & Hs & Hl & ->). exists ((n, u) :: l), n', r'. cbn [app total].
    split_and!; [done|lia|done|by constructor|done].
Qed.

(** Mem_malloc is first fit: a request of up to 65532 bytes is given
    the lowest free block that can hold it (aligned, and at least twelve
    bytes), cut to size when a block of the minimum size is left, and the
    other blocks stay as they are; NULL is returned, with the heap
    unchanged, exactly when no free block is large enough. *)
Theorem mem_malloc_first_fit (h : memheap) (bs : list block) (w : Z) :
  heap_rep h bs -> 0 < w <= 65532 ->
  exists o h', mem_malloc h w = Ok (o, h') /\
  match o with
  | Some p => exists l n r, bs = l ++ (n, false) :: r /\ p = total l + SIZEOF_STRUCT_MEM /\
      (4 | p) /\ w <= n - SIZEOF_STRUCT_MEM /\
      Forall (fun b => snd b = true \/ fst b - SIZEOF_STRUCT_MEM < block_size w) l /\
      heap_rep h' (l ++ cut n (block_size w) ++ r)
  | None => h' = h /\ Forall (fun b => snd b = true \/ fst b - SIZEOF_STRUCT_MEM < block_size w) bs
  end.
Proof.
  intros Hh Hw. destruct (mem_malloc_ok h bs w Hh Hw) as (o & h' & E & Hm). exists o, h'. split; [done|].
  destruct (block_size_spec w) as (k & Hk & Hb & _); [lia|]. change SIZEOF_STRUCT_MEM with 8.
  assert (Himp : forall l, Forall (fun b => snd b = true \/ fst b < block_size w + 8) l ->
                 Forall (fun b => snd b = true \/ fst b - 8 < block_size w) l).
  { intros l Hl. eapply Forall_impl; [exact Hl|]. intros b [?|?]; [by left|right; lia]. }
  pose proof (first_fit_spec 0 bs (block_size w)) as Hf.
  destruct (first_fit 0 bs (block_size w)) as [[q bs']|]; destruct Hm as [-> Hm]; [|by auto].
  destruct Hf as (l & n & r & -> & -> & Hs & Hl & ->). exists l, n, r.
  destruct Hh as [[Hsl _]%blocks_app _]. destruct (seg_total _ _ _ _ Hsl) as [_ Hd].
  split_and!; auto; [apply Z.divide_add_r; [done|by exists 2]|lia].
Qed.

Lemma mem_malloc_first_fit_witness :
  exists o h', mem_malloc (mem_init (MemHeap empty 0)) 100 = Ok (o, h') /\
  match o with
  | Some p => exists l n r, [(MEM_SIZE_ALIGNED, false)] = l ++ (n, false) :: r /\ p = total l + SIZEOF_STRUCT_MEM /\
      (4 | p) /\ 100 <= n - SIZEOF_STRUCT_MEM /\
      Forall (fun b => snd b = true \/ fst b - SIZEOF_STRUCT_MEM < block_size 100) l /\
      heap_rep h' (l ++ cut n (block_size 100) ++ r)
  | None => h' = mem_init (MemHeap empty 0) /\
      Forall (fun b => snd b = true \/ fst b - SIZEOF_STRUCT_MEM < block_size 100) [(MEM_SIZE_ALIGNED, false)]
  end.
Proof. apply (mem_malloc_first_fit _ [(MEM_SIZE_ALIGNED, false)] 100); [apply mem_init_rep|done]. Defined.

Lemma free_block_cut l n s r :
  Forall (fun b => 20 <= fst b) l -> 0 < s -> joined true (l ++ (n, false) :: r) ->
  free_block 0 (total l) (l ++ cut n s ++ r) = l ++ (n, false) :: r.
Proof.
  intros Hl Hs Hj. apply joined_app in Hj as (Hjl & Hu & Hjr). rewrite orb_false_r in Hu.
  pose proof (free_block_prefix true 0 l 0 (cut n s ++ r) Hl Hjl Hu) as Hf.
  rewrite Z.add_0_l, Z.add_0_r in Hf. rewrite Hf by done. f_equal. unfold cut.
  destruct (s + 28 <=? n); cbn [free_block app cons_free]; rewrite Z.eqb_refl; cbn [cons_free].
  - by replace (s + 8 + (n - (s + 8))) with n by lia.
  - destruct r as [|[n2 []] r]; done || by destruct Hjr.
Qed.

(** Freeing what mem_malloc returned undoes it: the heap is again made
    of the same blocks, with the lowest-free pointer on the same block. *)
Theorem mem_free_malloc (h h' : memheap) (bs : list block) (w p : Z) :
  heap_rep h bs -> 0 < w <= 65532 -> mem_malloc h w = Ok (Some p, h') ->
  exists h'', mem_free h' (Some p) = Ok h'' /\ heap_rep h'' bs /\ lfree h'' = lfree h.
Proof.
  intros Hh Hw E. destruct (mem_malloc_ok h bs w Hh Hw) as (o & h1 & E' & Hm).
  rewrite E in E'. injection E' as <- <-. destruct (block_size_spec w) as (k & Hk & Hb & H12); [lia|].
  pose proof (first_fit_spec 0 bs (block_size w)) as Hf.
  destruct (first_fit 0 bs (block_size w)) as [[q bs']|]; [|by destruct Hm].
  destruct Hm as [[= ->] Hm]. destruct Hf as (l & n & r & -> & -> & Hs & _ & ->). rewrite Z.add_0_l.
  pose proof Hh as (Hbl & Hj & Hlf). pose proof (blocks_prefix_pos _ _ _ _ _ Hbl) as [_ Hl].
  assert (exists n' r', cut n (block_size w) ++ r = (n', true) :: r') as (n' & r' & Ec).
  { unfold cut. destruct (_ <=? n); by eexists _, _. }
  rewrite Ec in Hm. destruct (mem_free_ok _ _ _ _ Hm) as (h'' & -> & Hh'').
  rewrite <- Ec, free_block_cut in Hh'' by (done || lia). exists h''. split_and!; [done|done|].
  destruct Hh'' as (_ & _ & ->). done.
Qed.

Lemma mem_free_malloc_witness :
  exists h'', mem_free (match mem_malloc (mem_init (MemHeap empty 0)) 100 with Ok (_, h) => h | _ => MemHeap empty 0 end)
                (Some 8) = Ok h'' /\
    heap_rep h'' [(MEM_SIZE_ALIGNED, false)] /\ lfree h'' = lfree (mem_init (MemHeap empty 0)).
Proof. apply (mem_free_malloc (mem_init (MemHeap empty 0)) _ _ 100); [apply mem_init_rep|done|by vm_compute]. Defined.

(** The alignment of a request above 65532 wraps in mem_size_t: the caller
    gets twelve bytes. *)
Lemma mem_malloc_wraps : exists h', mem_malloc (mem_init (MemHeap empty 0)) 65533 = Ok (Some 8, h') /\
  ram h' !! 0 = Some (Mem 20 0 true).
Proof. eexists. by vm_compute. Qed.

(** ** The heap as its clients see it

    [RamHeap] states what pbuf.c relies on: a region in use is described by
    its address and size; trimming keeps the address. *)

Abbreviation region := (Z * Z)%type.

Class RamHeap (H : Type) : Type := {
  ram_malloc : H -> Z -> outcome (option Z * H);
  ram_free : H -> option Z -> outcome H;
  ram_trim : H -> Z -> Z -> outcome (option Z * H);
  ram_used : H -> list region -> Prop;
  ram_malloc_ok h us w : ram_used h us -> 0 < w <= 65532 ->
    wp (ram_malloc h w) (fun r =>
      match fst r with
      | None => ram_used (snd r) us
      | Some p => exists n, w <= n /\ ram_used (snd r) ((p, n) :: us)
      end);
  ram_free_ok h us us' p n : ram_used h us -> Permutation us ((p, n) :: us') ->
    wp (ram_free h (Some p)) (fun h' => ram_used h' us');
  ram_trim_ok h us us' p n w : ram_used h us -> Permutation us ((p, n) :: us') -> 0 <= w <= n ->
    wp (ram_trim h p w) (fun r => fst r = Some p /\ exists n', w <= n' /\ ram_used (snd r) ((p, n') :: us'));
  ram_used_nodup h us : ram_used h us -> NoDup (fst <$> us);
}.

Fixpoint regions (p : Z) (bs : list block) : list region :=
  match bs with
  | [] => []
  | (n, u) :: r => if u then (p + 8, n - 8) :: regions (p + n) r else regions (p + n) r
  end.

Lemma regions_app p l r : regions p (l ++ r) = regions p l ++ regions (p + total l) r.
Proof.
  revert p. induction l as [|[n u] l IH]; intros p; cbn; [by rewrite Z.add_0_r|].
  rewrite IH, Z.add_assoc. by destruct u.
Qed.

Lemma regions_cons_free p n r : regions p (cons_free n r) = regions (p + n) r.
Proof. destruct r as [|[n2 []] r]; cbn; by rewrite ?Z.add_assoc. Qed.

Lemma regions_free_block p l n u r :
  Forall (fun b => 20 <= fst b) l ->
  regions p (free_block p (p + total l) (l ++ (n, u) :: r)) = regions p l ++ regions (p + total l + n) r.
Proof.
  intros Hl. revert p. induction Hl as [|[n0 u0] l Hn Hl IH]; intros p; cbn in *.
  - rewrite Z.add_0_r, Z.eqb_refl. apply regions_cons_free.
  - assert (0 <= total l) by (clear -Hl; induction Hl as [|[]]; cbn in *; lia).
    destruct (Z.eqb_spec p (p + (n0 + total l))); [lia|].
    rewrite !Z.add_assoc. destruct u0; cbn [regions app]; [by rewrite IH|]. by rewrite regions_cons_free, IH.
Qed.

Lemma regions_elem p bs q n :
  (q, n) ∈ regions p bs -> exists l r, bs = l ++ (n + 8, true) :: r /\ q = p + total l + 8.
Proof.
  revert p. induction bs as [|[n0 u0] r IH]; intros p; cbn [regions]; [by intros ?%elem_of_nil|].
  assert (Hrec : (q, n) ∈ regions (p + n0) r ->
    exists l r0, (n0, u0) :: r = l ++ (n + 8, true) :: r0 /\ q = p + total l + 8).
  { intros (l & r' & -> & ->)%IH. exists ((n0, u0) :: l), r'. split; [done|cbn; lia]. }
  destruct u0; [|done]. intros [[= -> ->]|?]%elem_of_cons; [|by apply Hrec].
  exists [], r. cbn. split; [by replace (n0 - 8 + 8) with n0 by lia|lia].
Qed.

Lemma regions_bound p bs q n :
  Forall (fun b => 20 <= fst b) bs -> (q, n) ∈ regions p bs -> p < q.
Proof.
  intros Hbs (l & r & -> & ->)%regions_elem. apply Forall_app in Hbs as [Hl _].
  assert (0 <= total l) by (clear -Hl; induction Hl as [|[]]; cbn in *; lia). lia.
Qed.

Lemma regions_nodup p bs : Forall (fun b => 20 <= fst b) bs -> NoDup (fst <$> regions p bs).
Proof.
  intros Hbs. revert p. induction Hbs as [|[n u] r Hn Hr IH]; intros p; cbn; [constructor|].
  destruct u; [|apply IH]. cbn. constructor; [|apply IH].
  intros ([q n'] & Hq & Hin)%list_elem_of_fmap. cbn in *. apply regions_bound in Hin; [|done]. lia.
Qed.

Definition mem_used (h : memheap) (us : list region) : Prop :=
  exists bs, heap_rep h bs /\ Permutation us (regions 0 bs).

Lemma regions_cut p n s r :
  exists n', (s <= n' /\ regions p (cut n s ++ r) = (p + 8, n') :: regions (p + n) r) \/ n < s + 8.
Proof.
  unfold cut. destruct (Z.leb_spec (s + 28) n).
  - exists s. left. split; [done|]. cbn [app regions]. rewrite Z.add_simpl_r.
    by replace (p + (s + 8) + (n - (s + 8))) with (p + n) by lia.
  - destruct (Z.le_gt_cases (s + 8) n); [|by exists 0; right]. exists (n - 8). left. split; [lia|done].
Qed.

Lemma mem_used_split h us us' p n :
  mem_used h us -> Permutation us ((p, n) :: us') ->
  exists l r, heap_rep h (l ++ (n + 8, true) :: r) /\ p = total l + 8 /\
    Permutation us' (regions 0 l ++ regions (total l + (n + 8)) r) /\ Forall (fun b => 20 <= fst b) l.
Proof.
  intros (bs & Hh & Hp) Hperm. rewrite Hp in Hperm.
  assert (Hin : (p, n) ∈ regions 0 bs) by (rewrite Hperm; left).
  apply regions_elem in Hin as (l & r & -> & ->). exists l, r. rewrite Z.add_0_l in *.
  pose proof Hh as (Hbl & _). pose proof (blocks_prefix_pos _ _ _ _ _ Hbl) as [_ Hl].
  split_and!; [done|done| |done].
  rewrite regions_app in Hperm. cbn [regions] in Hperm. rewrite <- Permutation_middle, Z.add_0_l in Hperm.
  replace (n + 8 - 8) with n in Hperm by lia. by apply Permutation_cons_inv in Hperm.
Qed.

Lemma mem_ram_malloc_ok h us w : mem_used h us -> 0 < w <= 65532 ->
  wp (mem_malloc h w) (fun r =>
    match fst r with
    | None => mem_used (snd r) us
    | Some p => exists n, w <= n /\ mem_used (snd r) ((p, n) :: us)
    end).
Proof.
  intros (bs & Hh & Hp) Hw. destruct (mem_malloc_ok h bs w Hh Hw) as (o & h' & -> & Hm). cbn.
  destruct (block_size_spec w) as (k & Hk & Hb & _); [lia|].
  pose proof (first_fit_spec 0 bs (block_size w)) as Hf.
  destruct (first_fit 0 bs (block_size w)) as [[q bs']|]; destruct Hm as [-> Hm]; [|subst; by exists bs].
  destruct Hf as (l & n & r & -> & -> & Hs & _ & ->).
  destruct (regions_cut (total l) n (block_size w) r) as (n' & [[Hn' Er]|]); [|lia].
  exists n'. split; [lia|]. eexists. split; [done|]. rewrite Hp, !(regions_app 0 l), !Z.add_0_l, Er. cbn [regions].
  by rewrite <- Permutation_middle.
Qed.

Lemma mem_ram_free_ok h us us' p n : mem_used h us -> Permutation us ((p, n) :: us') ->
  wp (mem_free h (Some p)) (fun h' => mem_used h' us').
Proof.
  intros Hu Hp. destruct (mem_used_split _ _ _ _ _ Hu Hp) as (l & r & Hh & -> & Hperm & Hl).
  destruct (mem_free_ok _ _ _ _ Hh) as (h' & -> & Hh'). cbn. eexists. split; [done|].
  pose proof (regions_free_block 0 l (n + 8) true r Hl) as Er. rewrite Z.add_0_l in Er. by rewrite Er.
Qed.

Lemma mem_ram_trim_ok h us us' p n w : mem_used h us -> Permutation us ((p, n) :: us') -> 0 <= w <= n ->
  wp (mem_trim h p w) (fun r => fst r = Some p /\ exists n', w <= n' /\ mem_used (snd r) ((p, n') :: us')).
Proof.
  intros Hu Hp Hw. destruct (mem_used_split _ _ _ _ _ Hu Hp) as (l & r & Hh & -> & Hperm & Hl).
  pose proof Hh as (Hbl & _). apply blocks_mid in Hbl as (_ & _ & Hn & [j Hd] & Hr). apply blocks_end in Hr as [_ He].
  pose proof (proj1 (Forall_forall _ _) Hl) as _. change ram_end with 10240 in He.
  assert (0 <= total l) by (clear -Hl; induction Hl as [|[]]; cbn in *; lia).
  destruct (block_size_spec w) as (k & Hk & Hb & _); [lia|].
  destruct (mem_trim_ok _ _ _ _ w Hh) as (h' & -> & Hh'); [lia..|]. cbn. split; [done|].
  set (s := block_size w) in *. unfold trim_blocks in Hh'.
  assert (Hn' : exists n', s <= n' /\ regions (total l) (trim_blocks (n + 8) s r) =
            (total l + 8, n') :: regions (total l + (n + 8)) r).
  { unfold trim_blocks. destruct (Z.eqb_spec s (n + 8 - 8)); [by exists (n + 8 - 8); split; [lia|]|].
    assert (Hcut : s + 20 <= n + 8 - 8 -> exists n', s <= n' /\
      regions (total l) ((s + 8, true) :: (n + 8 - (s + 8), false) :: r) = (total l + 8, n') :: regions (total l + (n + 8)) r).
    { intros _. exists s. split; [done|]. cbn [regions]. rewrite Z.add_simpl_r.
      by replace (total l + (s + 8) + (n + 8 - (s + 8))) with (total l + (n + 8)) by lia. }
    destruct r as [|[n2 []] r].
    - destruct (Z.leb_spec (s + 20) (n + 8 - 8)); [by apply Hcut|]. by exists (n + 8 - 8); split; [lia|].
    - destruct (Z.leb_spec (s + 20) (n + 8 - 8)); [by apply Hcut|]. by exists (n + 8 - 8); split; [lia|].
    - exists s. split; [done|]. cbn [regions]. rewrite Z.add_simpl_r.
      by replace (total l + (s + 8) + (n + 8 + n2 - (s + 8))) with (total l + (n + 8) + n2) by lia. }
  destruct Hn' as (n' & Hn' & Er). exists n'. split; [lia|]. eexists. split; [exact Hh'|].
  unfold trim_blocks in Er. rewrite regions_app, Z.add_0_l, Er, Hperm. by rewrite <- Permutation_middle.
Qed.

Lemma mem_used_nodup h us : mem_used h us -> NoDup (fst <$> us).
Proof. intros (bs & ((Hs & _) & _) & ->). apply regions_nodup. by eapply seg_sizes. Qed.

#[export] Instance memheap_ram : RamHeap memheap := {
  ram_malloc := mem_malloc;
  ram_free := mem_free;
  ram_trim := mem_trim;
  ram_used := mem_used;
  ram_malloc_ok := mem_ram_malloc_ok;
  ram_free_ok := mem_ram_free_ok;
  ram_trim_ok := mem_ram_trim_ok;
  ram_used_nodup := mem_used_nodup;
}.

Lemma mem_init_used h : ram_used (mem_init h) [].
Proof. exists [(MEM_SIZE_ALIGNED, false)]. split; [apply mem_init_rep|done]. Qed.
