(* ===== verification/Memp.v ===== *)
(** * The fixed-size pools of lwIP: src/Utilities/lwip_v1.3.2/src/core/memp.c

    One block of memory cut into the elements of all pools; the free
    elements of a pool form a linked list. The number of elements and the
    element sizes of the pools come from the configuration through the
    macros of memp_std.h: they are parameters here. An element is its offset
    from the aligned start of memp_memory. No overflow or sanity checks, no
    statistics, one block for all pools (MEMP_SEPARATE_POOLS is 0). *)

From S2P Require Import Prelude.
From stdpp Require Import gmap.
#[local] Open Scope Z_scope.

(** ** Data *)

Record memp_state : Type := MempState {
  memp_tab : list (option Z);
  memp_next : gmap Z (option Z);
}.

Section Pools.
Context (memp_num memp_sizes : list Z).

Definition MEMP_MAX : Z := zlen memp_num.

(** ** The operations *)

(** The inner loop of memp_init: [j] elements from [memp] on. *)
Fixpoint init_elements (j : nat) (s : memp_state) (i memp : Z) (size : Z) : outcome (Z * memp_state) :=
  match j with
  | O => Ok (memp, s)
  | S j =>
      let! head := rd (memp_tab s) i in
      let! tab := wr (memp_tab s) i (Some memp) in
      init_elements j (MempState tab (<[memp := head]> (memp_next s))) i (memp + size) size
  end.

Fixpoint init_pools (n : nat) (s : memp_state) (i memp : Z) : outcome memp_state :=
  match n with
  | O => Ok s
  | S n =>
      let! tab := wr (memp_tab s) i None in
      let! num := rd memp_num i in
      let! size := rd memp_sizes i in
      let! (memp, s) := init_elements (Z.to_nat num) (MempState tab (memp_next s)) i memp size in
      init_pools n s (i + 1) memp
  end.

Definition memp_init (s : memp_state) : outcome memp_state :=
  init_pools (Z.to_nat MEMP_MAX) s 0 0.

Definition memp_malloc (s : memp_state) (type : Z) : outcome (option Z * memp_state) :=
  if MEMP_MAX <=? type then Ok (None, s)
  else
    let! memp := rd (memp_tab s) type in
    match memp with
    | Some e =>
        match memp_next s !! e with
        | Some n =>
            let! tab := wr (memp_tab s) type n in
            Ok (Some e, MempState tab (memp_next s))
        | None => UB
        end
    | None => Ok (None, s)
    end.

Definition memp_free (s : memp_state) (type : Z) (mem : option Z) : outcome memp_state :=
  match mem with
  | None => Ok s
  | Some e =>
      let! head := rd (memp_tab s) type in
      let! tab := wr (memp_tab s) type (Some e) in
      Ok (MempState tab (<[e := head]> (memp_next s)))
  end.

(** ** The free lists *)

Fixpoint chain (m : gmap Z (option Z)) (head : option Z) (l : list Z) : Prop :=
  match l with
  | [] => head = None
  | e :: r => head = Some e /\ exists n, m !! e = Some n /\ chain m n r
  end.

(** [free !! i] holds the free elements of pool [i], the next one first. *)
Definition memp_rep (s : memp_state) (free : list (list Z)) : Prop :=
  Forall2 (chain (memp_next s)) (memp_tab s) free /\ NoDup (concat free) /\ zlen free = MEMP_MAX.

Lemma flist_insert m e n head l : e ∉ l -> chain m head l -> chain (<[e := n]> m) head l.
Proof.
  revert head. induction l as [|e' r IH]; intros head Hn; cbn; [done|].
  intros (-> & n' & Hm & Hc). apply not_elem_of_cons in Hn as [Hne Hn].
  split; [done|]. exists n'. rewrite lookup_insert_ne by done. auto.
Qed.

Lemma elem_of_concat_lookup (free : list (list Z)) i l e : free !! i = Some l -> e ∈ l -> e ∈ concat free.
Proof.
  intros Hi He. apply list_elem_of_In, in_concat. exists l. rewrite <- !list_elem_of_In.
  split; [by eapply list_elem_of_lookup_2|done].
Qed.

Lemma nodup_concat_lookup (free : list (list Z)) i l : free !! i = Some l -> NoDup (concat free) -> NoDup l.
Proof.
  revert i. induction free as [|l0 free IH]; intros [|i] Hi; try done; cbn in *.
  - injection Hi as ->. by intros (? & _ & _)%NoDup_app.
  - intros (_ & _ & ?)%NoDup_app. by eapply IH.
Qed.

Lemma nodup_concat_disjoint (free : list (list Z)) i k l l' e :
  free !! i = Some l -> free !! k = Some l' -> i <> k -> NoDup (concat free) -> e ∈ l -> e ∈ l' -> False.
Proof.
  revert i k. induction free as [|l0 free IH]; intros [|i] [|k] Hi Hk Hne Hnd He He'; try done; cbn in *;
    apply NoDup_app in Hnd as (_ & Hd & Hnd).
  - injection Hi as ->. apply (Hd e); [done|]. by eapply elem_of_concat_lookup.
  - injection Hk as ->. apply (Hd e); [done|]. by eapply elem_of_concat_lookup.
  - eapply (IH i k); done || congruence.
Qed.

Lemma nodup_concat_insert (free : list (list Z)) i l l' :
  free !! i = Some l -> NoDup (concat free) -> (forall e, e ∈ l' -> e ∈ l \/ e ∉ concat free) -> NoDup l' ->
  NoDup (concat (<[i := l']> free)).
Proof.
  revert i. induction free as [|l0 free IH]; intros [|i] Hi Hnd Hsub Hl'; try done; cbn in *.
  - injection Hi as ->. apply NoDup_app in Hnd as (_ & Hd & Hf). apply NoDup_app. split_and!; [done| |done].
    intros e He Hin. destruct (Hsub e He) as [H|H]; [by apply (Hd e)|]. apply H, elem_of_app. by right.
  - apply NoDup_app in Hnd as (H0 & Hd & Hf). apply NoDup_app. split_and!; [done| |].
    + intros e He Hin. apply list_elem_of_In, in_concat in Hin as (l1 & Hl1 & He1).
      apply list_elem_of_In in Hl1, He1. apply list_elem_of_lookup in Hl1 as [j Hj].
      apply list_lookup_insert_Some in Hj as [(-> & <- & _)|[Hne Hj]].
      * destruct (Hsub e He1) as [H|H]; [|apply H, elem_of_app; by left].
        apply (Hd e He). by eapply elem_of_concat_lookup.
      * apply (Hd e He). by eapply elem_of_concat_lookup.
    + apply (IH _ Hi Hf); [|done]. intros e He. destruct (Hsub e He) as [H|H]; [by left|right].
      intros Hin. apply H, elem_of_app. by right.
Qed.

Lemma memp_malloc_ok s free i l :
  memp_rep s free -> free !! Z.to_nat i = Some l -> 0 <= i ->
  match l with
  | e :: r => exists s', memp_malloc s i = Ok (Some e, s') /\ memp_rep s' (<[Z.to_nat i := r]> free)
  | [] => memp_malloc s i = Ok (None, s)
  end.
Proof.
  intros (Hf & Hnd & Hlen) Hi H0. pose proof (lookup_lt_Some _ _ _ Hi) as Hlt.
  destruct (Forall2_lookup_r _ _ _ _ _ Hf Hi) as (head & Hh & Hc).
  unfold memp_malloc. destruct (Z.leb_spec MEMP_MAX i); [unfold zlen in Hlen; lia|].
  rewrite (rd_lookup _ _ head) by done. cbn [obind]. destruct l as [|e r]; [by cbn in Hc; subst|].
  destruct Hc as (-> & n & Hm & Hc). rewrite Hm. pose proof (lookup_lt_Some _ _ _ Hh).
  rewrite wr_ok by lia. cbn [obind]. eexists. split; [done|]. split_and!.
  - cbn. by apply Forall2_insert.
  - apply (nodup_concat_insert _ _ _ _ Hi Hnd).
    + intros e' He'. left. by right.
    + by apply (nodup_concat_lookup _ _ _ Hi), NoDup_cons in Hnd as [_ ?].
  - unfold zlen in *. by rewrite length_insert.
Qed.

Lemma memp_free_ok s free i l e :
  memp_rep s free -> free !! Z.to_nat i = Some l -> 0 <= i -> e ∉ concat free ->
  exists s', memp_free s i (Some e) = Ok s' /\ memp_rep s' (<[Z.to_nat i := e :: l]> free).
Proof.
  intros (Hf & Hnd & Hlen) Hi H0 He. pose proof (lookup_lt_Some _ _ _ Hi) as Hlt.
  destruct (Forall2_lookup_r _ _ _ _ _ Hf Hi) as (head & Hh & Hc). pose proof (lookup_lt_Some _ _ _ Hh).
  unfold memp_free. rewrite (rd_lookup _ _ head) by done. cbn [obind]. rewrite wr_ok by lia. cbn [obind].
  assert (Hin : forall j l', free !! j = Some l' -> e ∉ l').
  { intros j l' Hj Hel. by eapply He, elem_of_concat_lookup. }
  eexists. split; [done|]. split_and!; cbn.
  - apply Forall2_insert.
    + apply Forall2_same_length_lookup_2; [by eapply Forall2_length|].
      intros j hd l' Hhd Hl'. apply flist_insert; [by eapply Hin|].
      by eapply Forall2_lookup_lr; [exact Hf|exact Hhd|exact Hl'].
    + split; [done|]. exists head. rewrite lookup_insert_eq. split; [done|]. apply flist_insert; [|done].
      by eapply Hin.
  - apply (nodup_concat_insert _ _ _ _ Hi Hnd).
    + intros e' [->|He']%elem_of_cons; [by right|by left].
    + constructor; [by eapply Hin|by eapply nodup_concat_lookup].
  - unfold zlen in *. by rewrite length_insert.
Qed.

(** ** memp_init cuts the memory into the pools *)

Fixpoint elements (memp size : Z) (j : nat) : list Z :=
  match j with
  | O => []
  | S j => memp :: elements (memp + size) size j
  end.

(** The free lists after the start: the last element of a pool is first. *)
Fixpoint pools_at (nums sizes : list Z) (memp : Z) : list (list Z) :=
  match nums, sizes with
  | n :: nums, size :: sizes =>
      rev (elements memp size (Z.to_nat n)) :: pools_at nums sizes (memp + Z.of_nat (Z.to_nat n) * size)
  | _, _ => []
  end.

Definition memp_boot : memp_state := MempState (replicate (length memp_num) None) ∅.

Lemma init_elements_step j s i memp size :
  init_elements (S j) s i memp size =
  let! s := memp_free s i (Some memp) in init_elements j s i (memp + size) size.
Proof. cbn. destruct (rd (memp_tab s) i); [cbn|done..]. by destruct (wr (memp_tab s) i (Some memp)). Qed.

Lemma elements_lt e memp size j : 0 < size -> e ∈ elements memp size j -> e < memp + Z.of_nat j * size.
Proof.
  intros Hs. revert memp. induction j as [|j IH]; intros memp; cbn; [by intros ?%elem_of_nil|].
  intros [->|He]%elem_of_cons; [nia|]. apply IH in He. lia.
Qed.

Lemma init_elements_ok j s free i memp size l :
  memp_rep s free -> free !! Z.to_nat i = Some l -> 0 <= i -> 0 < size ->
  (forall e, e ∈ concat free -> e < memp) ->
  exists s', init_elements j s i memp size = Ok (memp + Z.of_nat j * size, s') /\
    memp_rep s' (<[Z.to_nat i := rev (elements memp size j) ++ l]> free).
Proof.
  intros Hr Hi H0 Hs. revert s free memp l Hr Hi. induction j as [|j IH]; intros s free memp l Hr Hi Hlt.
  - exists s. cbn. rewrite list_insert_id by done. by rewrite Z.add_0_r.
  - rewrite init_elements_step.
    destruct (memp_free_ok s free i l memp Hr Hi H0) as (s1 & -> & Hr1); [intros He%Hlt; lia|]. cbn [obind].
    destruct (IH s1 _ (memp + size) (memp :: l) Hr1) as (s2 & -> & Hr2).
    + apply list_lookup_insert_eq. by eapply lookup_lt_Some.
    + intros e He. apply list_elem_of_In, in_concat in He as (l1 & Hl1 & He1).
      apply list_elem_of_In in Hl1, He1. apply list_elem_of_lookup in Hl1 as [k Hk].
      apply list_lookup_insert_Some in Hk as [(_ & <- & _)|[_ Hk]].
      * apply elem_of_cons in He1 as [->|He1]; [lia|].
        assert (e < memp) by (by eapply Hlt, elem_of_concat_lookup). lia.
      * assert (e < memp) by (by eapply Hlt, elem_of_concat_lookup). lia.
    + exists s2. split; [f_equal; f_equal; lia|]. rewrite list_insert_insert_eq in Hr2. cbn [elements rev].
      by rewrite <- app_assoc.
Qed.

Lemma concat_replicate_nil {A} n : concat (replicate n (@nil A)) = [].
Proof. by induction n. Qed.

Lemma init_pools_ok nums sizes pn ps pre s memp :
  memp_num = pn ++ nums -> memp_sizes = ps ++ sizes -> length pn = length pre -> length ps = length pre ->
  length sizes = length nums -> Forall (fun z => 0 < z) sizes ->
  memp_rep s (pre ++ replicate (length nums) []) -> (forall e, e ∈ concat pre -> e < memp) ->
  exists s', init_pools (length nums) s (zlen pre) memp = Ok s' /\ memp_rep s' (pre ++ pools_at nums sizes memp).
Proof.
  revert sizes pn ps pre s memp.
  induction nums as [|n nums IH]; intros sizes pn ps pre s memp En Es Ln Ls Hlen Hpos Hr Hlt.
  - exists s. split; [done|]. by destruct sizes.
  - destruct sizes as [|size sizes]; [done|]. apply Forall_cons in Hpos as [Hsize Hpos]. cbn [length init_pools].
    pose proof Hr as (Hf & _). pose proof (Forall2_length _ _ _ Hf) as Hlt2.
    rewrite length_app, length_replicate in Hlt2. cbn [length] in Hlt2.
    assert (Hi : Z.to_nat (zlen pre) = length pre) by (unfold zlen; lia).
    assert (Hpre : (pre ++ replicate (S (length nums)) []) !! length pre = Some (@nil Z)).
    { by rewrite lookup_app_r, Nat.sub_diag by lia. }
    destruct (Forall2_lookup_r _ _ _ _ _ Hf Hpre) as (hd & Hhd & Hc). cbn in Hc. subst hd.
    rewrite wr_ok by (unfold zlen; lia). cbn [obind]. rewrite Hi, (list_insert_id (memp_tab s)) by done.
    rewrite En, Es, !rd_mid by (unfold zlen; lia). cbn [obind].
    replace (MempState (memp_tab s) (memp_next s)) with s by (by destruct s).
    destruct (init_elements_ok (Z.to_nat n) s _ (zlen pre) memp size [] Hr) as (s1 & -> & Hr1);
      [by rewrite Hi|apply zlen_nonneg|done| |].
    { intros e. rewrite concat_app, concat_replicate_nil, app_nil_r. apply Hlt. }
    cbn [obind]. rewrite app_nil_r, Hi in Hr1. cbn [length replicate] in Hr1.
    rewrite insert_app_r_alt, Nat.sub_diag in Hr1 by lia. cbn [pools_at].
    set (p := rev (elements memp size (Z.to_nat n))) in *.
    change (<[0%nat := p]> ([] :: replicate (length nums) [])) with (p :: replicate (length nums) []) in Hr1.
    destruct (IH sizes (pn ++ [n]) (ps ++ [size]) (pre ++ [p]) s1 (memp + Z.of_nat (Z.to_nat n) * size))
      as (s' & Es' & Hr'); rewrite <- ?app_assoc; rewrite ?length_app; cbn [length]; auto with lia.
    + intros e. rewrite concat_app, elem_of_app. cbn [concat]. rewrite app_nil_r. intros [He|He].
      * apply Hlt in He. nia.
      * unfold p in He. apply list_elem_of_In, in_rev, list_elem_of_In in He. by apply elements_lt.
    + exists s'. rewrite <- app_assoc in Hr'. rewrite zlen_app in Es'. by split.
Qed.

(** Memp_init gives every pool its own elements: pool [i] is a list of
    [memp_num[i]] consecutive elements of [memp_sizes[i]] bytes, the pools
    follow each other in memory and share no element. *)
Theorem memp_init_pools :
  length memp_sizes = length memp_num -> Forall (fun z => 0 < z) memp_sizes ->
  exists s, memp_init memp_boot = Ok s /\ memp_rep s (pools_at memp_num memp_sizes 0).
Proof.
  intros Hlen Hpos. unfold memp_init, MEMP_MAX.
  replace (Z.to_nat (zlen memp_num)) with (length memp_num) by (unfold zlen; lia).
  apply (init_pools_ok memp_num memp_sizes [] [] [] memp_boot 0); try done.
  - split_and!.
    + cbn. clear Hlen. by induction (length memp_num); constructor.
    + rewrite concat_app, concat_replicate_nil. constructor.
    + unfold MEMP_MAX, zlen. cbn. by rewrite length_replicate.
  - intros e He. by apply elem_of_nil in He.
Qed.

End Pools.

Lemma memp_init_pools_witness :
  exists s, memp_init [2; 3] [16; 516] (memp_boot [2; 3]) = Ok s /\ memp_rep [2; 3] s (pools_at [2; 3] [16; 516] 0).
Proof. apply memp_init_pools; [reflexivity|by repeat constructor]. Defined.
