(* ===== verification/Pbuf.v ===== *)
(** * Packet buffers: src/Utilities/lwip_v1.3.2/src/core/pbuf.c

    A packet is a chain of pbufs, each with its own buffer (RAM, POOL) or a
    pointer to memory of somebody else (ROM, REF, custom). The pbufs that are
    allocated are a store of structures; their memory comes from the heap
    ([RamHeap]) and from two pools of memp.c. Assertions are empty in this
    port (LWIP_PLATFORM_ASSERT), LWIP_ERROR runs its handler. *)

From S2P Require Import Prelude Mem Memp.
From stdpp Require Import gmap.
#[local] Open Scope Z_scope.

(** ** Configuration: pbuf.h, opt.h, tcp_echo_client/inc/lwipopts.h *)

Definition PBUF_LINK_HLEN : Z := 14.
Definition PBUF_IP_HLEN : Z := 20.
Definition PBUF_TRANSPORT_HLEN : Z := 20.
Definition PBUF_FLAG_IS_CUSTOM : Z := 2.
Definition PBUF_POOL_BUFSIZE : Z := 500.
Definition PBUF_POOL_BUFSIZE_ALIGNED : Z := LWIP_MEM_ALIGN_SIZE PBUF_POOL_BUFSIZE.
(** Two pointers, two u16_t, two u8_t, a u16_t. *)
Definition SIZEOF_STRUCT_PBUF : Z := LWIP_MEM_ALIGN_SIZE 16.

Definition ERR_OK : Z := 0.
Definition ERR_MEM : Z := -1.
Definition ERR_VAL : Z := -6.
Definition ERR_ARG : Z := -14.

(** ** Data *)

Inductive pbuf_layer : Type := PBUF_TRANSPORT | PBUF_IP | PBUF_LINK | PBUF_RAW.
Inductive pbuf_type : Type := PBUF_RAM | PBUF_ROM | PBUF_REF | PBUF_POOL.

#[export] Instance pbuf_type_eq_dec : EqDecision pbuf_type.
Proof. solve_decision. Defined.

(** The address of a pbuf: in the heap, in the memory of the pools, or a
    structure of the caller. *)
Inductive pptr : Type :=
  | PHeap (off : Z)
  | PMemp (off : Z)
  | PCust (id : Z).

#[export] Instance pptr_eq_dec : EqDecision pptr.
Proof. solve_decision. Defined.

#[export] Instance pptr_countable : Countable pptr.
Proof.
  refine (inj_countable' (fun p => match p with PHeap o => inl (inl o) | PMemp o => inl (inr o) | PCust i => inr i end)
    (fun x => match x with inl (inl o) => PHeap o | inl (inr o) => PMemp o | inr i => PCust i end) _).
  by intros [].
Defined.

(** A payload pointer: NULL, [off] bytes after the structure of the pbuf
    itself, or into an object of somebody else. *)
Inductive loc : Type :=
  | LNull
  | LBuf (off : Z)
  | LExt (obj off : Z).

(** A byte of memory; [None] was never written. *)
Abbreviation mbyte := (option Z).

Record pbuf : Type := PbufC {
  next : option pptr;
  payload : loc;
  tot_len : Z;
  len : Z;
  type : pbuf_type;
  flags : Z;
  ref : Z;
  mem_bytes : list mbyte;
}.

Section Pbuf.
Context {H : Type} `{!RamHeap H} (memp_num : list Z) (MEMP_PBUF MEMP_PBUF_POOL : Z).

(** [stale] keeps the flags field of pool elements that were freed,
    [ext] the objects payloads refer to, [custom_freed] the custom pbufs
    that were handed back through their callback. *)
Record pstate : Type := PState {
  store : gmap pptr pbuf;
  heap : H;
  pools : memp_state;
  stale : gmap pptr Z;
  ext : gmap Z (list mbyte);
  custom_freed : list pptr;
}.

Definition set_store (s : pstate) (m : gmap pptr pbuf) : pstate :=
  PState m (heap s) (pools s) (stale s) (ext s) (custom_freed s).
Definition set_heap (s : pstate) (h : H) : pstate :=
  PState (store s) h (pools s) (stale s) (ext s) (custom_freed s).
Definition set_pools (s : pstate) (m : memp_state) : pstate :=
  PState (store s) (heap s) m (stale s) (ext s) (custom_freed s).
Definition set_stale (s : pstate) (m : gmap pptr Z) : pstate :=
  PState (store s) (heap s) (pools s) m (ext s) (custom_freed s).
Definition set_ext (s : pstate) (m : gmap Z (list mbyte)) : pstate :=
  PState (store s) (heap s) (pools s) (stale s) m (custom_freed s).
Definition set_custom (s : pstate) (l : list pptr) : pstate :=
  PState (store s) (heap s) (pools s) (stale s) (ext s) l.

(** ** Access to structures and payloads *)

Definition get (s : pstate) (p : pptr) : outcome pbuf :=
  match store s !! p with Some b => Ok b | None => UB end.
Definition put (s : pstate) (p : pptr) (b : pbuf) : pstate := set_store s (<[p := b]> (store s)).

Definition set_next (b : pbuf) (q : option pptr) : pbuf :=
  PbufC q (payload b) (tot_len b) (len b) (type b) (flags b) (ref b) (mem_bytes b).
Definition set_payload (b : pbuf) (l : loc) : pbuf :=
  PbufC (next b) l (tot_len b) (len b) (type b) (flags b) (ref b) (mem_bytes b).
Definition set_tot_len (b : pbuf) (n : Z) : pbuf :=
  PbufC (next b) (payload b) n (len b) (type b) (flags b) (ref b) (mem_bytes b).
Definition set_len (b : pbuf) (n : Z) : pbuf :=
  PbufC (next b) (payload b) (tot_len b) n (type b) (flags b) (ref b) (mem_bytes b).
Definition set_flags (b : pbuf) (n : Z) : pbuf :=
  PbufC (next b) (payload b) (tot_len b) (len b) (type b) n (ref b) (mem_bytes b).
Definition set_ref (b : pbuf) (n : Z) : pbuf :=
  PbufC (next b) (payload b) (tot_len b) (len b) (type b) (flags b) n (mem_bytes b).
Definition set_bytes (b : pbuf) (l : list mbyte) : pbuf :=
  PbufC (next b) (payload b) (tot_len b) (len b) (type b) (flags b) (ref b) l.

(** [n] bytes of an object from [i] on; outside the object is undefined. *)
Definition slice {A} (l : list A) (i n : Z) : outcome (list A) :=
  if (i <? 0) || (n <? 0) || (zlen l <? i + n) then UB
  else Ok (take (Z.to_nat n) (drop (Z.to_nat i) l)).

Definition splice {A} (l : list A) (i : Z) (bs : list A) : outcome (list A) :=
  if (i <? 0) || (zlen l <? i + zlen bs) then UB
  else Ok (take (Z.to_nat i) l ++ bs ++ drop (Z.to_nat i + length bs) l).

Definition read_payload (s : pstate) (b : pbuf) (off n : Z) : outcome (list mbyte) :=
  if n =? 0 then Ok []
  else match payload b with
       | LNull => UB
       | LBuf o => slice (mem_bytes b) (o + off) n
       | LExt x o => match ext s !! x with Some l => slice l (o + off) n | None => UB end
       end.

Definition write_payload (s : pstate) (p : pptr) (off : Z) (bs : list mbyte) : outcome pstate :=
  let! b := get s p in
  match bs with
  | [] => Ok s
  | _ =>
      match payload b with
      | LNull => UB
      | LBuf o => let! l := splice (mem_bytes b) (o + off) bs in Ok (put s p (set_bytes b l))
      | LExt x o =>
          match ext s !! x with
          | Some l => let! l := splice l (o + off) bs in Ok (set_ext s (<[x := l]> (ext s)))
          | None => UB
          end
      end
  end.

(** No chain is longer than the store. *)
Definition chain_fuel (s : pstate) : nat := S (size (store s)).

(** ** Release *)

(** The memory of a pbuf nobody refers to any more goes back. *)
Definition dealloc (s : pstate) (p : pptr) (b : pbuf) : outcome pstate :=
  let s := set_store s (delete p (store s)) in
  if negb (Z.land (flags b) PBUF_FLAG_IS_CUSTOM =? 0) then
    Ok (set_custom s (custom_freed s ++ [p]))
  else
    let pool_free (i : Z) :=
      match p with
      | PMemp e =>
          let! m := memp_free (pools s) i (Some e) in
          Ok (set_stale (set_pools s m) (<[p := flags b]> (stale s)))
      | _ => UB
      end in
    match type b with
    | PBUF_POOL => pool_free MEMP_PBUF_POOL
    | PBUF_ROM | PBUF_REF => pool_free MEMP_PBUF
    | PBUF_RAM =>
        match p with
        | PHeap o => let! h := ram_free (heap s) (Some o) in Ok (set_heap s h)
        | _ => UB
        end
    end.

Fixpoint free_loop (fuel : nat) (s : pstate) (p : option pptr) (count : Z) : outcome (Z * pstate) :=
  match fuel with
  | O => NoFuel
  | S fuel =>
      match p with
      | None => Ok (count, s)
      | Some p =>
          let! b := get s p in
          let ref := u16 (ref b - 1) in
          let s := put s p (set_ref b ref) in
          if ref =? 0 then
            let! s := dealloc s p (set_ref b ref) in
            free_loop fuel s (next b) (u8 (count + 1))
          else Ok (count, s)
      end
  end.

Definition pbuf_free (s : pstate) (p : option pptr) : outcome (Z * pstate) :=
  match p with
  | None => Ok (0, s)
  | Some _ => free_loop (S (chain_fuel s)) s p 0
  end.

(** ** Allocation *)

(** LWIP_MEM_ALIGN of the address after the structure and [offset] bytes:
    the structure is aligned, so the distance is the aligned one. *)
Definition payload_at (offset : Z) : loc :=
  LBuf (LWIP_MEM_ALIGN_SIZE (SIZEOF_STRUCT_PBUF + offset) - SIZEOF_STRUCT_PBUF).

Definition layer_offset (l : pbuf_layer) : Z :=
  match l with
  | PBUF_TRANSPORT => PBUF_LINK_HLEN + PBUF_IP_HLEN + PBUF_TRANSPORT_HLEN
  | PBUF_IP => PBUF_LINK_HLEN + PBUF_IP_HLEN
  | PBUF_LINK => PBUF_LINK_HLEN
  | PBUF_RAW => 0
  end.

Definition fresh (n : Z) : list mbyte := replicate (Z.to_nat n) None.

(** A pool element; its flags are what the previous user left. *)
Definition pool_malloc (s : pstate) (i : Z) : outcome (option pptr * pstate) :=
  let! (e, m) := memp_malloc memp_num (pools s) i in
  Ok (option_map PMemp e, set_pools s m).

(** The tail of a PBUF_POOL chain that starts at [p]; [r] is the last pbuf
    so far. *)
Fixpoint pool_tail (fuel : nat) (s : pstate) (p r : pptr) (rem_len : Z) : outcome (option pptr * pstate) :=
  match fuel with
  | O => NoFuel
  | S fuel =>
      if 0 <? rem_len then
        let! (q, s) := pool_malloc s MEMP_PBUF_POOL in
        match q with
        | None =>
            let! (_, s) := pbuf_free s (Some p) in
            Ok (None, s)
        | Some q =>
            let qlen := Z.min (u16 rem_len) PBUF_POOL_BUFSIZE_ALIGNED in
            let! rb := get s r in
            let s := put s r (set_next rb (Some q)) in
            let s := put s q (PbufC None (LBuf 0) (u16 rem_len) qlen PBUF_POOL 0 1
                                    (fresh PBUF_POOL_BUFSIZE_ALIGNED)) in
            pool_tail fuel s p q (rem_len - qlen)
        end
      else Ok (Some p, s)
  end.

(** A u16_t length takes at most 132 buffers of 500 bytes. *)
Definition pool_fuel : nat := 134.

Definition pbuf_alloc (s : pstate) (layer : pbuf_layer) (length : Z) (t : pbuf_type)
    : outcome (option pptr * pstate) :=
  let offset := layer_offset layer in
  match t with
  | PBUF_POOL =>
      let! (p, s) := pool_malloc s MEMP_PBUF_POOL in
      match p with
      | None => Ok (None, s)
      | Some p =>
          let plen := u16 (Z.min length (PBUF_POOL_BUFSIZE_ALIGNED - LWIP_MEM_ALIGN_SIZE offset)) in
          let s := put s p (PbufC None (payload_at offset) length plen PBUF_POOL (default 0 (stale s !! p)) 1
                                  (fresh PBUF_POOL_BUFSIZE_ALIGNED)) in
          let! (r, s) := pool_tail pool_fuel s p p (length - plen) in
          match r with
          | None => Ok (None, s)
          | Some p =>
              let! b := get s p in
              Ok (Some p, put s p (set_flags (set_ref b 1) 0))
          end
      end
  | PBUF_RAM =>
      let sz := u16 (LWIP_MEM_ALIGN_SIZE (SIZEOF_STRUCT_PBUF + offset) + LWIP_MEM_ALIGN_SIZE length) in
      let! (o, h) := ram_malloc (heap s) sz in
      let s := set_heap s h in
      match o with
      | None => Ok (None, s)
      | Some o =>
          (* the structure is written to the block *)
          let! _ := guard_ub (SIZEOF_STRUCT_PBUF <=? sz) in
          Ok (Some (PHeap o), put s (PHeap o)
                (PbufC None (payload_at offset) length length PBUF_RAM 0 1 (fresh (sz - SIZEOF_STRUCT_PBUF))))
      end
  | PBUF_ROM | PBUF_REF =>
      let! (p, s) := pool_malloc s MEMP_PBUF in
      match p with
      | None => Ok (None, s)
      | Some p => Ok (Some p, put s p (PbufC None LNull length length t 0 1 []))
      end
  end.

(** [payload_mem]: an object of the caller or NULL. *)
Definition pbuf_alloced_custom (s : pstate) (l : pbuf_layer) (length : Z) (t : pbuf_type) (p : Z)
    (payload_mem : option Z) (payload_mem_len : Z) : option pptr * pstate :=
  let offset := layer_offset l in
  if payload_mem_len <? LWIP_MEM_ALIGN_SIZE offset + length then (None, s)
  else
    let pay := match payload_mem with Some x => LExt x (LWIP_MEM_ALIGN_SIZE offset) | None => LNull end in
    (Some (PCust p), put s (PCust p) (PbufC None pay length length t PBUF_FLAG_IS_CUSTOM 1 [])).

(** ** Lengths *)

(** Stepping over the pbufs that remain. *)
Fixpoint realloc_skip (fuel : nat) (s : pstate) (q : pptr) (rem_len grow : Z) : outcome (pptr * Z * pstate) :=
  match fuel with
  | O => NoFuel
  | S fuel =>
      let! b := get s q in
      if len b <? rem_len then
        let s := put s q (set_tot_len b (u16 (tot_len b + u16 grow))) in
        match next b with
        | Some q' => realloc_skip fuel s q' (u16 (rem_len - len b)) grow
        | None => UB
        end
      else Ok (q, rem_len, s)
  end.

Definition pbuf_realloc (s : pstate) (p : pptr) (new_len : Z) : outcome pstate :=
  let! b := get s p in
  if tot_len b <=? new_len then Ok s
  else
    let! (q, rem_len, s) := realloc_skip (chain_fuel s) s p new_len (new_len - tot_len b) in
    let! qb := get s q in
    let! s :=
      if bool_decide (type qb = PBUF_RAM) && negb (rem_len =? len qb) then
        match q, payload qb with
        | PHeap o, LBuf off =>
            let newsize := u16 (u16 (SIZEOF_STRUCT_PBUF + off) + rem_len) in
            let! (r, h) := ram_trim (heap s) o newsize in
            (* the result is used as q *)
            let! _ := guard_ub (bool_decide (r = Some o)) in
            Ok (put (set_heap s h) q (set_bytes qb (take (Z.to_nat (newsize - SIZEOF_STRUCT_PBUF)) (mem_bytes qb))))
        | _, _ => UB
        end
      else Ok s in
    let! qb := get s q in
    let s := put s q (set_tot_len (set_len qb rem_len) rem_len) in
    let! s :=
      match next qb with
      | Some n => let! (_, s) := pbuf_free s (Some n) in Ok s
      | None => Ok s
      end in
    let! qb := get s q in
    Ok (put s q (set_next qb None)).

(** Zero for success; [inc] is an s16_t. *)
Definition pbuf_header (s : pstate) (p : option pptr) (inc : Z) : outcome (Z * pstate) :=
  match p with
  | None => Ok (0, s)
  | Some p =>
      if inc =? 0 then Ok (0, s)
      else
        let! b := get s p in
        let mag := u16 (if inc <? 0 then - inc else inc) in
        if (inc <? 0) && (len b <? mag) then Ok (1, s)
        else
          let finish (pay : loc) :=
            Ok (0, put s p (set_tot_len (set_len (set_payload b pay) (u16 (len b + inc))) (u16 (tot_len b + inc)))) in
          match type b with
          | PBUF_RAM | PBUF_POOL =>
              match payload b with
              | LBuf o => if o - inc <? 0 then Ok (1, s) else finish (LBuf (o - inc))
              | _ => UB (* an address of another object is compared *)
              end
          | PBUF_REF | PBUF_ROM =>
              if (inc <? 0) && (mag <=? len b) then
                match payload b with
                | LNull => UB
                | LBuf o => finish (LBuf (o - inc))
                | LExt x o => finish (LExt x (o - inc))
                end
              else Ok (1, s)
          end
  end.

Fixpoint clen_loop (fuel : nat) (s : pstate) (p : option pptr) (n : Z) : outcome Z :=
  match fuel with
  | O => NoFuel
  | S fuel =>
      match p with
      | None => Ok n
      | Some p => let! b := get s p in clen_loop fuel s (next b) (u8 (n + 1))
      end
  end.

Definition pbuf_clen (s : pstate) (p : option pptr) : outcome Z := clen_loop (S (chain_fuel s)) s p 0.

Definition pbuf_ref (s : pstate) (p : option pptr) : outcome pstate :=
  match p with
  | None => Ok s
  | Some p => let! b := get s p in Ok (put s p (set_ref b (u16 (ref b + 1))))
  end.

(** ** Chains *)

Fixpoint cat_loop (fuel : nat) (s : pstate) (p t : pptr) : outcome (pptr * pstate) :=
  match fuel with
  | O => NoFuel
  | S fuel =>
      let! b := get s p in
      match next b with
      | Some q =>
          let! tb := get s t in
          cat_loop fuel (put s p (set_tot_len b (u16 (tot_len b + tot_len tb)))) q t
      | None => Ok (p, s)
      end
  end.

Definition pbuf_cat (s : pstate) (h t : option pptr) : outcome pstate :=
  match h, t with
  | Some h, Some t =>
      let! (p, s) := cat_loop (chain_fuel s) s h t in
      let! b := get s p in
      let! tb := get s t in
      Ok (put s p (set_next (set_tot_len b (u16 (tot_len b + tot_len tb))) (Some t)))
  | _, _ => Ok s
  end.

Definition pbuf_chain (s : pstate) (h t : option pptr) : outcome pstate :=
  let! s := pbuf_cat s h t in pbuf_ref s t.

Definition pbuf_dechain (s : pstate) (p : pptr) : outcome (option pptr * pstate) :=
  let! b := get s p in
  match next b with
  | Some q =>
      let! qb := get s q in
      let s := put s q (set_tot_len qb (u16 (tot_len b - len b))) in
      let! b := get s p in
      let s := put s p (set_tot_len (set_next b None) (len b)) in
      let! (tail_gone, s) := pbuf_free s (Some q) in
      Ok (if 0 <? tail_gone then None else Some q, s)
  | None => Ok (None, s)
  end.

(** ** Contents *)

Fixpoint copy_partial_loop (fuel : nat) (s : pstate) (p : option pptr) (dst : list mbyte)
    (left len' offset copied_total : Z) : outcome (Z * list mbyte) :=
  match fuel with
  | O => NoFuel
  | S fuel =>
      match p with
      | Some p =>
          if len' =? 0 then Ok (copied_total, dst)
          else
            let! b := get s p in
            if negb (offset =? 0) && (len b <=? offset) then
              copy_partial_loop fuel s (next b) dst left len' (u16 (offset - len b)) copied_total
            else
              let n := u16 (len b - offset) in
              let n := if len' <? n then len' else n in
              let! bs := read_payload s b offset n in
              let! dst := splice dst left bs in
              copy_partial_loop fuel s (next b) dst (u16 (left + n)) (u16 (len' - n)) 0 (u16 (copied_total + n))
      | None => Ok (copied_total, dst)
      end
  end.

(** [dst]: the bytes of the buffer of the application, None for NULL. *)
Definition pbuf_copy_partial (s : pstate) (buf : option pptr) (dst : option (list mbyte)) (len' offset : Z)
    : outcome (Z * option (list mbyte)) :=
  match buf, dst with
  | Some p, Some dst =>
      let! (n, dst) := copy_partial_loop (S (chain_fuel s)) s (Some p) dst 0 len' offset 0 in
      Ok (n, Some dst)
  | _, _ => Ok (0, dst)
  end.

Fixpoint take_loop (fuel : nat) (s : pstate) (p : option pptr) (data : list mbyte)
    (total_copy_len copied_total : Z) : outcome pstate :=
  match fuel with
  | O => NoFuel
  | S fuel =>
      if total_copy_len =? 0 then Ok s
      else
        match p with
        | None => UB
        | Some p =>
            let! b := get s p in
            let n := if len b <? total_copy_len then len b else total_copy_len in
            let! bs := slice data copied_total n in
            let! s := write_payload s p 0 bs in
            take_loop fuel s (next b) data (u16 (total_copy_len - n)) (u16 (copied_total + n))
        end
  end.

Definition pbuf_take (s : pstate) (buf : option pptr) (data : option (list mbyte)) (len' : Z) : outcome (Z * pstate) :=
  match buf, data with
  | Some p, Some data =>
      let! b := get s p in
      if tot_len b <? len' then Ok (ERR_ARG, s)
      else
        let! s := take_loop (S (chain_fuel s)) s (Some p) data len' 0 in
        Ok (ERR_OK, s)
  | _, _ => Ok (0, s)
  end.

(** One pass of the do-while loop per step; a pass moves on in one of the
    chains. *)
Fixpoint copy_loop (fuel : nat) (s : pstate) (p_to : option pptr) (p_from : pptr) (offset_to offset_from : Z)
    : outcome (Z * pstate) :=
  match fuel with
  | O => NoFuel
  | S fuel =>
      match p_to with
      | None => UB
      | Some t =>
          let! tb := get s t in
          let! fb := get s p_from in
          let n := u16 (if len fb - offset_from <=? len tb - offset_to then len fb - offset_from
                        else len tb - offset_to) in
          let! bs := read_payload s fb offset_from n in
          let! s := write_payload s t offset_to bs in
          let offset_to := u16 (offset_to + n) in
          let offset_from := u16 (offset_from + n) in
          let '(offset_from, p_from) :=
            if len fb <=? offset_from then (0, next fb) else (offset_from, Some p_from) in
          let '(offset_to, p_to) :=
            if offset_to =? len tb then (0, next tb) else (offset_to, Some t) in
          if bool_decide (p_to = None) && negb (bool_decide (p_from = None)) then Ok (ERR_ARG, s)
          else
            (* no packet queues *)
            let queue (p : option pptr) : outcome bool :=
              match p with
              | None => Ok false
              | Some p => let! b := get s p in Ok ((len b =? tot_len b) && negb (bool_decide (next b = None)))
              end in
            let! qf := queue p_from in
            if qf then Ok (ERR_VAL, s)
            else
              let! qt := queue p_to in
              if qt then Ok (ERR_VAL, s)
              else
                match p_from with
                | None => Ok (ERR_OK, s)
                | Some f => copy_loop fuel s p_to f offset_to offset_from
                end
      end
  end.

Definition pbuf_copy (s : pstate) (p_to p_from : option pptr) : outcome (Z * pstate) :=
  match p_to, p_from with
  | Some t, Some f =>
      let! tb := get s t in
      let! fb := get s f in
      if tot_len tb <? tot_len fb then Ok (ERR_ARG, s)
      else copy_loop (chain_fuel s + chain_fuel s) s (Some t) f 0 0
  | _, _ => Ok (ERR_ARG, s)
  end.

Definition pbuf_coalesce (s : pstate) (p : pptr) (layer : pbuf_layer) : outcome (pptr * pstate) :=
  let! b := get s p in
  if bool_decide (next b = None) then Ok (p, s)
  else
    let! (q, s) := pbuf_alloc s layer (tot_len b) PBUF_RAM in
    match q with
    | None => Ok (p, s)
    | Some q =>
        let! (_, s) := pbuf_copy s (Some q) (Some p) in
        let! (_, s) := pbuf_free s (Some p) in
        Ok (q, s)
    end.

(** ** Search *)

(** The pbuf that holds byte [copy_from] and the offset in it. *)
Fixpoint skip_to (fuel : nat) (s : pstate) (q : option pptr) (copy_from : Z) : outcome (option pbuf * Z) :=
  match fuel with
  | O => NoFuel
  | S fuel =>
      match q with
      | None => Ok (None, copy_from)
      | Some q =>
          let! b := get s q in
          if len b <=? copy_from then skip_to fuel s (next b) (u16 (copy_from - len b))
          else Ok (Some b, copy_from)
      end
  end.

(** A byte that was never written has no value. *)
Definition payload_byte (s : pstate) (b : pbuf) (off : Z) : outcome Z :=
  let! bs := read_payload s b off 1 in
  match bs with [Some v] => Ok v | _ => UB end.

Definition pbuf_get_at (s : pstate) (p : option pptr) (offset : Z) : outcome Z :=
  let! (q, copy_from) := skip_to (S (chain_fuel s)) s p offset in
  match q with
  | Some b => if copy_from <? len b then payload_byte s b copy_from else Ok 0
  | None => Ok 0
  end.

(** The pointer is kept for the comparison that follows. *)
Fixpoint skip_ptr (fuel : nat) (s : pstate) (q : option pptr) (start : Z) : outcome (option pptr * Z) :=
  match fuel with
  | O => NoFuel
  | S fuel =>
      match q with
      | None => Ok (None, start)
      | Some p =>
          let! b := get s p in
          if len b <=? start then skip_ptr fuel s (next b) (u16 (start - len b)) else Ok (Some p, start)
      end
  end.

(** The comparison of [n - i] bytes from [i] on. *)
Fixpoint memcmp_loop (k : nat) (s : pstate) (q : option pptr) (start : Z) (s2 : list Z) (i : Z) : outcome Z :=
  match k with
  | O => Ok 0
  | S k =>
      let! a := pbuf_get_at s q (u16 (start + i)) in
      let! b := rd s2 i in
      if a =? b then memcmp_loop k s q start s2 (i + 1) else Ok (u16 (i + 1))
  end.

Definition pbuf_memcmp (s : pstate) (p : option pptr) (offset : Z) (s2 : list Z) (n : Z) : outcome Z :=
  let! (q, start) := skip_ptr (S (chain_fuel s)) s p offset in
  match q with
  | Some q' =>
      let! b := get s q' in
      if start <? len b then memcmp_loop (Z.to_nat n) s q start s2 0 else Ok 65535
  | None => Ok 65535
  end.

Fixpoint memfind_loop (fuel : nat) (s : pstate) (p : option pptr) (mem : list Z) (mem_len max i : Z) : outcome Z :=
  match fuel with
  | O => NoFuel
  | S fuel =>
      if i <=? max then
        let! plus := pbuf_memcmp s p i mem mem_len in
        if plus =? 0 then Ok i else memfind_loop fuel s p mem mem_len max (u16 (i + plus))
      else Ok 65535
  end.

Definition memfind_fuel : nat := Z.to_nat (2 ^ 16 + 1).

Definition pbuf_memfind (s : pstate) (p : pptr) (mem : list Z) (mem_len start_offset : Z) : outcome Z :=
  let! b := get s p in
  let max := u16 (tot_len b - mem_len) in
  if mem_len + start_offset <=? tot_len b then memfind_loop memfind_fuel s (Some p) mem mem_len max start_offset
  else Ok 65535.

(** [substr]: the bytes of the string with its terminator, None for NULL;
    strlen reads up to the terminator. *)
Fixpoint strlen (l : list Z) : outcome Z :=
  match l with
  | [] => UB
  | c :: r => if c =? 0 then Ok 0 else let! n := strlen r in Ok (n + 1)
  end.

Definition pbuf_strstr (s : pstate) (p : pptr) (substr : option (list Z)) : outcome Z :=
  match substr with
  | None => Ok 65535
  | Some str =>
      let! c := rd str 0 in
      if c =? 0 then Ok 65535
      else
        let! b := get s p in
        if tot_len b =? 65535 then Ok 65535
        else
          let! substr_len := strlen str in
          if 65535 <=? substr_len then Ok 65535 else pbuf_memfind s p str (u16 substr_len) 0
  end.

(** ** Theory: chains and contents *)

(** The payload lies in the buffer of the pbuf itself. *)
Definition own (b : pbuf) : Prop :=
  match payload b with
  | LBuf o => 0 <= o /\ 0 <= len b /\ o + len b <= zlen (mem_bytes b)
  | _ => False
  end.

(** [l] lists the pbufs from [p] up to the pointer [e]. *)
Fixpoint chain (m : gmap pptr pbuf) (p : option pptr) (l : list (pptr * pbuf)) (e : option pptr) : Prop :=
  match l with
  | [] => p = e
  | (q, b) :: r => p = Some q /\ m !! q = Some b /\ chain m (next b) r e
  end.

Fixpoint lens (l : list (pptr * pbuf)) : Z :=
  match l with
  | [] => 0
  | (_, b) :: r => len b + lens r
  end.

(** The total lengths, [k] bytes missing at the end. *)
Fixpoint tots (l : list (pptr * pbuf)) (k : Z) : Prop :=
  match l with
  | [] => True
  | (_, b) :: r => tot_len b = len b + lens r + k /\ tots r k
  end.

Lemma pchain_app m p l1 l2 e : chain m p (l1 ++ l2) e <-> exists q, chain m p l1 q /\ chain m q l2 e.
Proof.
  revert p. induction l1 as [|[q b] l1 IH]; intros p; cbn.
  - split; [by intros; exists p|by intros (q & -> & ?)].
  - rewrite IH. naive_solver.
Qed.

Lemma lens_app l1 l2 : lens (l1 ++ l2) = lens l1 + lens l2.
Proof. induction l1 as [|[q b] l1 IH]; cbn; lia. Qed.

Lemma tots_app l1 l2 k : tots (l1 ++ l2) k <-> tots l1 (lens l2 + k) /\ tots l2 k.
Proof. induction l1 as [|[q b] l1 IH]; cbn; [tauto|]. rewrite IH, lens_app. intuition lia. Qed.

Lemma chain_fun m p l l' : chain m p l None -> chain m p l' None -> l = l'.
Proof.
  revert p l'. induction l as [|[q b] l IH]; intros p [|[q' b'] l']; cbn; try done.
  - intros -> (? & _). done.
  - intros (-> & _) ?. done.
  - intros (-> & Hq & Hc) ([= <-] & Hq' & Hc'). rewrite Hq in Hq'. injection Hq' as <-.
    by rewrite (IH _ _ Hc Hc').
Qed.

Lemma chain_nodup m p l : chain m p l None -> NoDup (fst <$> l).
Proof.
  revert p. induction l as [|[q b] l IH]; intros p Hc; [constructor|]. cbn.
  pose proof Hc as (-> & Hq & Hc'). constructor; [|by eapply IH].
  intros ([q' b'] & E & Hin)%list_elem_of_fmap. cbn in E. subst q'.
  apply list_elem_of_split in Hin as (l1 & l2 & ->).
  apply pchain_app in Hc' as (q0 & _ & Hc2). pose proof Hc2 as (-> & _ & _).
  pose proof (chain_fun _ _ _ _ Hc Hc2) as E. apply (f_equal length) in E. cbn in E.
  rewrite length_app in E. cbn in E. lia.
Qed.

Lemma pchain_insert m p l e q b : chain m p l e -> q ∉ (fst <$> l) -> chain (<[q := b]> m) p l e.
Proof.
  revert p. induction l as [|[q' b'] l IH]; intros p; cbn; [done|]. intros (-> & Hq' & Hc) [Hne Hn]%not_elem_of_cons.
  rewrite lookup_insert_ne by done. auto.
Qed.

Lemma chain_lookup m p l e q b : chain m p l e -> (q, b) ∈ l -> m !! q = Some b.
Proof.
  revert p. induction l as [|[q' b'] l IH]; intros p; cbn; [by intros _ ?%elem_of_nil|].
  intros (-> & Hq' & Hc) [[= -> ->]|Hin]%elem_of_cons; [done|by eapply IH].
Qed.

Lemma chain_length m p l : chain m p l None -> (length l <= size m)%nat.
Proof.
  intros Hc. pose proof (chain_nodup _ _ _ Hc) as Hnd.
  assert (Hsub : list_to_set (fst <$> l) ⊆ dom m).
  { intros q. rewrite elem_of_list_to_set. intros ([q' b] & -> & Hin)%list_elem_of_fmap.
    apply elem_of_dom. exists b. by eapply chain_lookup. }
  apply subseteq_size in Hsub. rewrite size_list_to_set, size_dom, length_fmap in Hsub by done. done.
Qed.

Lemma put_put s q b1 b2 : put (put s q b1) q b2 = put s q b2.
Proof. unfold put, set_store. cbn. by rewrite insert_insert_eq. Qed.
Lemma put_id s q b : store s !! q = Some b -> put s q b = s.
Proof. intros Hq. unfold put, set_store. rewrite insert_id by done. by destruct s. Qed.

Definition bytes_of (b : pbuf) : list mbyte :=
  match payload b with
  | LBuf o => take (Z.to_nat (len b)) (drop (Z.to_nat o) (mem_bytes b))
  | _ => []
  end.

Fixpoint contents (l : list (pptr * pbuf)) : list mbyte :=
  match l with
  | [] => []
  | (_, b) :: r => bytes_of b ++ contents r
  end.

Lemma bytes_of_len b : own b -> zlen (bytes_of b) = len b.
Proof.
  unfold own, bytes_of, zlen. destruct (payload b); try done. intros (? & ? & ?).
  rewrite length_take, length_drop. lia.
Qed.

Lemma contents_len l : Forall (fun x => own (snd x)) l -> zlen (contents l) = lens l /\ 0 <= lens l.
Proof.
  induction 1 as [|[q b] l Hb _ IH]; cbn; [done|]. rewrite zlen_app, bytes_of_len by done.
  pose proof (bytes_of_len b Hb). pose proof (zlen_nonneg (bytes_of b)). cbn in *. lia.
Qed.

Lemma slice_ok {A} (l : list A) i n :
  0 <= i -> 0 <= n -> i + n <= zlen l -> slice l i n = Ok (take (Z.to_nat n) (drop (Z.to_nat i) l)).
Proof.
  intros Hi Hn Hl. unfold slice. destruct (Z.ltb_spec i 0), (Z.ltb_spec n 0), (Z.ltb_spec (zlen l) (i + n)); done || lia.
Qed.

Lemma splice_ok {A} (l : list A) i bs :
  0 <= i -> i + zlen bs <= zlen l ->
  splice l i bs = Ok (take (Z.to_nat i) l ++ bs ++ drop (Z.to_nat i + length bs) l).
Proof.
  intros Hi Hl. unfold splice. destruct (Z.ltb_spec i 0), (Z.ltb_spec (zlen l) (i + zlen bs)); done || lia.
Qed.

Lemma read_own s b off n :
  own b -> 0 <= off -> 0 <= n -> off + n <= len b ->
  read_payload s b off n = Ok (take (Z.to_nat n) (drop (Z.to_nat off) (bytes_of b))).
Proof.
  intros Hb Hoff Hn Hl. unfold read_payload. destruct (Z.eqb_spec n 0) as [->|]; [done|].
  unfold own, bytes_of in *. destruct (payload b) as [|o|]; try done.
  rewrite slice_ok by lia. f_equal. rewrite skipn_firstn_comm, take_take, drop_drop.
  replace (Z.to_nat (o + off)) with (Z.to_nat o + Z.to_nat off)%nat by lia. f_equal. lia.
Qed.

(** Bytes [off .. off + |bs|) of the payload are replaced. *)
Definition fill (b : pbuf) (off : Z) (bs : list mbyte) : pbuf :=
  match payload b with
  | LBuf o => set_bytes b (take (Z.to_nat (o + off)) (mem_bytes b) ++ bs ++ drop (Z.to_nat (o + off) + length bs) (mem_bytes b))
  | _ => b
  end.

Lemma write_own s p b off bs :
  store s !! p = Some b -> own b -> 0 <= off -> off + zlen bs <= len b ->
  write_payload s p off bs = Ok (put s p (fill b off bs)).
Proof.
  intros Hp Hb Hoff Hl. unfold write_payload, get, fill. rewrite Hp. cbn [obind].
  unfold own in Hb. destruct (payload b) as [|o|] eqn:Epay; try done. destruct bs as [|v bs].
  - f_equal. cbn [length app]. rewrite Nat.add_0_r, take_drop. symmetry. apply put_id. rewrite Hp. by destruct b.
  - rewrite splice_ok by lia. done.
Qed.

Lemma fill_bytes b off bs :
  own b -> 0 <= off -> off + zlen bs <= len b ->
  own (fill b off bs) /\ zlen (mem_bytes (fill b off bs)) = zlen (mem_bytes b) /\
  bytes_of (fill b off bs) =
    take (Z.to_nat off) (bytes_of b) ++ bs ++ drop (Z.to_nat off + length bs) (bytes_of b).
Proof.
  intros Hb Hoff Hl. unfold own, bytes_of, fill in *. destruct (payload b) as [|o|] eqn:Epay; try done.
  unfold zlen in *. cbn. rewrite Epay. rewrite !length_app, length_take, length_drop. split; [lia|]. split; [lia|].
  rewrite drop_app_le by (rewrite length_take; lia). rewrite skipn_firstn_comm.
  replace (Z.to_nat (o + off) - Z.to_nat o)%nat with (Z.to_nat off) by lia.
  rewrite take_app_ge by (rewrite length_take, length_drop; lia).
  rewrite take_take. rewrite Nat.min_l by lia. f_equal. rewrite length_take, length_drop, Nat.min_l by lia.
  rewrite take_app_ge by lia. f_equal. rewrite skipn_firstn_comm, drop_drop. f_equal; [lia|f_equal; lia].
Qed.


(** The same pbufs with other bytes. *)
Definition same_shape (l l' : list (pptr * pbuf)) : Prop :=
  Forall2 (fun x y => fst y = fst x /\ exists bs, snd y = set_bytes (snd x) bs /\
    zlen bs = zlen (mem_bytes (snd x)) /\ own (snd y)) l l'.

Lemma same_shape_keys l l' : same_shape l l' -> (fst <$> l') = (fst <$> l).
Proof. induction 1 as [|[p b] [p' b'] l l' [E _] _ IH]; cbn in *; [done|]. by rewrite E, IH. Qed.

Lemma same_shape_lens l l' : same_shape l l' -> lens l' = lens l /\ (forall k, tots l k -> tots l' k) /\ Forall (fun x => own (snd x)) l'.
Proof.
  induction 1 as [|[p b] [p' b'] l l' (E & bs & Eb & _ & Ho) _ (IH1 & IH2 & IH3)]; cbn in *; [done|].
  subst b'. cbn. split; [lia|]. split; [|by constructor]. intros k [Ht Hts]. rewrite IH1. auto.
Qed.

Lemma same_shape_refl l : Forall (fun x => own (snd x)) l -> same_shape l l.
Proof.
  induction 1 as [|[p b] l Hb _ IH]; constructor; [|done]. split; [done|]. exists (mem_bytes b). by destruct b.
Qed.

Lemma fill_set_bytes b off bs : own b -> exists l, fill b off bs = set_bytes b l.
Proof. unfold own, fill. destruct (payload b); try done. by eexists. Qed.

(** What no overwriting of bytes can change. *)
Definition bytes_blind (P : pstate -> Prop) : Prop :=
  forall s p b mb, P s -> store s !! p = Some b -> own b -> own (set_bytes b mb) -> zlen mb = zlen (mem_bytes b) ->
    P (put s p (set_bytes b mb)).

Lemma take_loop_ok fuel s p l data total copied :
  chain (store s) p l None -> Forall (fun x => own (snd x)) l ->
  0 <= total <= lens l -> 0 <= copied -> copied + total <= zlen data -> copied + total <= 65535 ->
  (length l < fuel)%nat ->
  exists s' l', take_loop fuel s p data total copied = Ok s' /\ chain (store s') p l' None /\ same_shape l l' /\
    contents l' = take (Z.to_nat total) (drop (Z.to_nat copied) data) ++ drop (Z.to_nat total) (contents l) /\
    (forall q, q ∉ (fst <$> l) -> store s' !! q = store s !! q) /\ (forall P, bytes_blind P -> P s -> P s').
Proof.
  revert s p l total copied. induction fuel as [|fuel IH]; intros s p l total copied Hc Ho Ht H0 Hd H16 Hf; [lia|].
  cbn [take_loop]. destruct (Z.eqb_spec total 0) as [->|Hne].
  { exists s, l. split_and!; try done. by apply same_shape_refl. }
  destruct l as [|[p0 b] l]; [cbn in Ht; lia|]. cbn [length] in Hf.
  pose proof (chain_nodup _ _ _ Hc) as Hnd. cbn in Hnd. apply NoDup_cons in Hnd as [Hpl _].
  destruct Hc as (-> & Hp & Hc). apply Forall_cons in Ho as [Hob Ho]. cbn [snd lens] in *.
  unfold get. rewrite Hp. cbn [obind]. set (n := if len b <? total then len b else total).
  assert (Hlen : 0 <= len b) by (unfold own in Hob; destruct (payload b); done || lia).
  assert (Hn : 0 <= n <= total /\ n <= len b /\ (n < len b -> n = total)) by (unfold n; destruct (Z.ltb_spec (len b) total); lia).
  rewrite slice_ok by lia. cbn [obind].
  set (bs := take (Z.to_nat n) (drop (Z.to_nat copied) data)).
  assert (Hbs : zlen bs = n) by (unfold bs, zlen in *; rewrite length_take, length_drop; lia).
  rewrite (write_own s p0 b 0 bs Hp Hob) by lia. cbn [obind].
  destruct (fill_bytes b 0 bs Hob ltac:(lia) ltac:(lia)) as (Hob' & Hz & Hfb).
  destruct (fill_set_bytes b 0 bs Hob) as [mb Emb].
  rewrite !u16_small by lia.
  destruct (contents_len l Ho) as [_ Hlens].
  destruct (IH (put s p0 (fill b 0 bs)) (next b) l (total - n) (copied + n)) as (s' & l' & -> & Hc' & Hsh & Hcon & Hfr & HP);
    [by apply pchain_insert|done|lia|lia|lia|lia|lia|].
  exists s', ((p0, fill b 0 bs) :: l'). split; [done|].
  assert (Hp' : store s' !! p0 = Some (fill b 0 bs)) by (rewrite Hfr by done; cbn; by rewrite lookup_insert_eq).
  split_and!.
  - cbn. rewrite Hp', Emb. done.
  - constructor; [|done]. split; [done|]. exists mb. cbn [fst snd]. split_and!; [done|by rewrite Emb in Hz|done].
  - cbn [contents]. rewrite Hfb, Hcon. change (Z.to_nat 0) with 0%nat. rewrite take_0. cbn [app Nat.add]. unfold zlen in Hbs.
    rewrite <- app_assoc. rewrite (drop_app (bytes_of b)).
    pose proof (bytes_of_len b Hob) as Hbl. unfold zlen in Hbl.
    replace (take (Z.to_nat total) (drop (Z.to_nat copied) data))
      with (bs ++ take (Z.to_nat (total - n)) (drop (Z.to_nat (copied + n)) data)).
    + rewrite <- !app_assoc. f_equal. destruct (decide (n < len b)) as [Hlt|Hge].
      * assert (En : n = total) by lia. rewrite En, Z.sub_diag. change (Z.to_nat 0) with 0%nat. rewrite take_0, drop_0. cbn [app].
        f_equal; [f_equal; lia|]. replace (Z.to_nat total - length (bytes_of b))%nat with 0%nat by lia. done.
      * rewrite (drop_ge (bytes_of b)) by lia. rewrite (drop_ge (bytes_of b)) by lia. cbn [app]. f_equal. f_equal. lia.
    + unfold bs. replace (Z.to_nat total) with (Z.to_nat n + Z.to_nat (total - n))%nat by lia.
      rewrite <- (take_take_drop (drop (Z.to_nat copied) data)), drop_drop. do 3 f_equal; lia.
  - intros q Hq. cbn in Hq. apply not_elem_of_cons in Hq as [Hq1 Hq2]. rewrite Hfr by done. cbn.
    by rewrite lookup_insert_ne.
  - intros P HPb HPs. apply (HP P HPb). rewrite Emb in Hob', Hz |- *. by apply HPb.
Qed.

Lemma copy_partial_loop_ok fuel s p l dst left len' offset copied :
  chain (store s) p l None -> Forall (fun x => own (snd x)) l ->
  0 <= len' -> 0 <= offset <= 65535 -> 0 <= left -> 0 <= copied -> copied + len' <= 65535 -> left + len' <= 65535 ->
  (length l < fuel)%nat -> lens l <= 65535 ->
  let d := take (Z.to_nat len') (drop (Z.to_nat offset) (contents l)) in
  left + zlen d <= zlen dst ->
  copy_partial_loop fuel s p dst left len' offset copied =
    Ok (copied + zlen d, take (Z.to_nat left) dst ++ d ++ drop (Z.to_nat left + length d) dst).
Proof.
  revert s p l dst left len' offset copied.
  induction fuel as [|fuel IH]; intros s p l dst left len' offset copied Hc Ho Hl Hoff Hleft Hcop H16 H16' Hf Hlens d Hd; [lia|].
  cbn [copy_partial_loop]. destruct l as [|[p0 b] l].
  { cbn in Hc. subst p. subst d. cbn [contents]. rewrite drop_nil, take_nil. cbn [zlen length app].
    rewrite Nat.add_0_r, take_drop. change (zlen []) with 0. by rewrite Z.add_0_r. }
  cbn [length] in Hf. destruct Hc as (-> & Hp & Hc). apply Forall_cons in Ho as [Hob Ho]. cbn [snd] in *.
  assert (Hlen : 0 <= len b) by (unfold own in Hob; destruct (payload b); done || lia).
  pose proof (bytes_of_len b Hob) as Hbl. destruct (Z.eqb_spec len' 0) as [->|Hne].
  { subst d. change (Z.to_nat 0) with 0%nat. rewrite take_0. cbn [app length]. rewrite Nat.add_0_r, take_drop. change (zlen []) with 0. by rewrite Z.add_0_r. }
  unfold get. rewrite Hp. cbn [obind].
  assert (Hcont : contents ((p0, b) :: l) = bytes_of b ++ contents l) by done.
  destruct (contents_len l Ho) as [_ Hl0]. cbn [lens] in Hlens.
  destruct (negb (offset =? 0) && (len b <=? offset)) eqn:Eskip.
  - apply andb_true_iff in Eskip as [_ Hsk%Z.leb_le]. rewrite u16_small by lia.
    assert (Ed : d = take (Z.to_nat len') (drop (Z.to_nat (offset - len b)) (contents l))).
    { subst d. rewrite Hcont, drop_app_ge by (unfold zlen in Hbl; lia). do 2 f_equal. unfold zlen in Hbl. lia. }
    rewrite Ed in *. apply (IH s (next b) l); try done; lia.
  - assert (Hoffb : offset <= len b).
    { apply andb_false_iff in Eskip as [E%negb_false_iff%Z.eqb_eq|?%Z.leb_gt]; lia. }
    rewrite (u16_small (len b - offset)) by lia.
    set (n := if len' <? len b - offset then len' else len b - offset).
    assert (Hn : 0 <= n <= len' /\ n <= len b - offset /\ (n < len b - offset -> n = len'))
      by (unfold n; destruct (Z.ltb_spec len' (len b - offset)); lia).
    rewrite read_own by (done || lia). cbn [obind].
    set (d1 := take (Z.to_nat n) (drop (Z.to_nat offset) (bytes_of b))).
    assert (Hd1 : zlen d1 = n) by (unfold d1, zlen in *; rewrite length_take, length_drop; lia).
    set (d2 := take (Z.to_nat (len' - n)) (drop (Z.to_nat 0) (contents l))).
    assert (Ed : d = d1 ++ d2).
    { subst d d1 d2. rewrite Hcont. unfold zlen in Hbl. rewrite drop_app_le by lia. change (Z.to_nat 0) with 0%nat. rewrite drop_0.
      destruct (decide (n < len b - offset)) as [Hlt|Hge].
      - assert (n = len') as -> by lia. rewrite Z.sub_diag. change (Z.to_nat 0) with 0%nat. rewrite take_0, app_nil_r.
        apply take_app_le. rewrite length_drop. lia.
      - rewrite take_app_ge by (rewrite length_drop; lia). rewrite length_drop.
        rewrite (take_ge (drop _ _)) by (rewrite length_drop; lia). do 2 f_equal. lia. }
    rewrite Ed, zlen_app, length_app in *. rewrite splice_ok by (pose proof (zlen_nonneg d2); lia). cbn [obind].
    set (dst' := take (Z.to_nat left) dst ++ d1 ++ drop (Z.to_nat left + length d1) dst).
    assert (Hdst : zlen dst' = zlen dst).
    { unfold dst', zlen in *. rewrite !length_app, length_take, length_drop. lia. }
    rewrite !u16_small by lia.
    rewrite (IH s (next b) l dst' (left + n) (len' - n) 0 (copied + n)) by (done || lia || (fold d2; lia)).
    fold d2. f_equal. f_equal; [lia|]. unfold dst', zlen in *.
    pose proof (length_take dst (Z.to_nat left)) as Ht. set (t := take (Z.to_nat left) dst) in *.
    rewrite !(app_assoc t d1).
    rewrite take_app_ge, drop_app_ge by (rewrite length_app; lia). rewrite length_app.
    replace (Z.to_nat (left + n) - (length t + length d1))%nat with 0%nat by lia.
    rewrite take_0, app_nil_r, <- !app_assoc, drop_drop. do 3 f_equal. f_equal. lia.
Qed.

(** *** Search *)

(** The chain from [p] holds the bytes [bs], all of them written. *)
Definition holds (s : pstate) (p : option pptr) (bs : list Z) : Prop :=
  exists l, chain (store s) p l None /\ Forall (fun x => own (snd x)) l /\ contents l = Some <$> bs.

Lemma holds_step s p bs :
  holds s (Some p) bs ->
  exists b bs1 bs2, get s p = Ok b /\ own b /\ bs = bs1 ++ bs2 /\ bytes_of b = Some <$> bs1 /\ zlen bs1 = len b /\
    holds s (next b) bs2.
Proof.
  intros (l & Hc & Ho & Hcon). destruct l as [|[p0 b] l]; [done|]. destruct Hc as ([= <-] & Hp & Hc).
  apply Forall_cons in Ho as [Hob Ho]. cbn [contents snd] in *. symmetry in Hcon.
  apply fmap_app_inv in Hcon as (bs1 & bs2 & E1 & E2 & ->).
  exists b, bs1, bs2. unfold get. rewrite Hp. split_and!; try done.
  - rewrite <- (bytes_of_len b Hob), E1. unfold zlen. by rewrite length_fmap.
  - exists l. done.
Qed.

Lemma skip_to_ok fuel s p l bs off :
  chain (store s) p l None -> Forall (fun x => own (snd x)) l -> contents l = Some <$> bs ->
  0 <= off <= 65535 -> (length l < fuel)%nat ->
  exists q o, skip_to fuel s p off = Ok (q, o) /\
    match q with
    | Some b => 0 <= o < len b /\ own b /\ exists v, bytes_of b !! Z.to_nat o = Some (Some v) /\ bs !! Z.to_nat off = Some v
    | None => bs !! Z.to_nat off = None
    end.
Proof.
  revert s p l bs off. induction fuel as [|fuel IH]; intros s p l bs off Hc Ho Hcon Hoff Hf; [lia|]. cbn [skip_to].
  destruct l as [|[p0 b] l].
  { cbn in Hc. subst p. destruct bs; [|done]. by eexists _, _. }
  destruct Hc as (-> & Hp & Hc). apply Forall_cons in Ho as [Hob Ho]. cbn [snd contents length] in *.
  unfold get. rewrite Hp. cbn [obind]. pose proof (bytes_of_len b Hob) as Hbl. unfold zlen in Hbl.
  symmetry in Hcon. apply fmap_app_inv in Hcon as (bs1 & bs2 & E1 & E2 & ->).
  assert (Hl1 : Z.of_nat (length bs1) = len b) by (by rewrite <- Hbl, E1, length_fmap).
  destruct (Z.leb_spec (len b) off).
  - rewrite u16_small by lia.
    destruct (IH s (next b) l bs2 (off - len b) Hc Ho E2) as (q & o & -> & Hq); [lia|lia|].
    exists q, o. split; [done|]. rewrite lookup_app_r by lia.
    replace (Z.to_nat off - length bs1)%nat with (Z.to_nat (off - len b)) by lia. done.
  - exists (Some b), off. split; [done|]. split; [lia|]. split; [done|].
    rewrite E1, list_lookup_fmap, lookup_app_l by lia.
    destruct (lookup_lt_is_Some_2 bs1 (Z.to_nat off)) as [v Hv]; [lia|]. exists v. by rewrite Hv.
Qed.

(** pbuf_get_at: the byte, zero past the end. *)
Lemma pbuf_get_at_ok s p bs off :
  holds s p bs -> 0 <= off <= 65535 -> pbuf_get_at s p off = Ok (default 0 (bs !! Z.to_nat off)).
Proof.
  intros (l & Hc & Ho & Hcon) Hoff. unfold pbuf_get_at.
  destruct (skip_to_ok (S (chain_fuel s)) s p l bs off Hc Ho Hcon Hoff) as (q & o & -> & Hq);
    [pose proof (chain_length _ _ _ Hc); unfold chain_fuel; lia|].
  cbn [obind]. destruct q as [b|]; [|by rewrite Hq]. destruct Hq as (Ho2 & Hob & v & Hv & ->).
  destruct (Z.ltb_spec o (len b)); [|lia]. unfold payload_byte. rewrite read_own by (done || lia).
  assert (Hlk : drop (Z.to_nat o) (bytes_of b) !! 0%nat = Some (Some v)) by (rewrite lookup_drop, Nat.add_0_r; done).
  destruct (drop (Z.to_nat o) (bytes_of b)) as [|w r]; [done|]. injection Hlk as ->. done.
Qed.

Lemma skip_ptr_ok fuel s p l bs off :
  chain (store s) p l None -> Forall (fun x => own (snd x)) l -> contents l = Some <$> bs ->
  0 <= off <= 65535 -> (length l < fuel)%nat ->
  exists q o, skip_ptr fuel s p off = Ok (q, o) /\
    match q with
    | Some q' => exists b pre suf, get s q' = Ok b /\ 0 <= o < len b /\ bs = pre ++ suf /\
        off = zlen pre + o /\ holds s (Some q') suf
    | None => zlen bs <= off
    end.
Proof.
  revert s p l bs off. induction fuel as [|fuel IH]; intros s p l bs off Hc Ho Hcon Hoff Hf; [lia|]. cbn [skip_ptr].
  destruct l as [|[p0 b] l].
  { cbn in Hc. subst p. destruct bs; [|done]. eexists _, _. split; [done|]. unfold zlen. cbn. lia. }
  pose proof Hc as (-> & Hp & Hc'). pose proof Ho as Ho'. apply Forall_cons in Ho as [Hob Ho]. cbn [snd length] in *.
  unfold get at 1. rewrite Hp. cbn [obind]. pose proof (bytes_of_len b Hob) as Hbl. unfold zlen in Hbl.
  destruct (Z.leb_spec (len b) off).
  - cbn [contents] in Hcon. symmetry in Hcon. apply fmap_app_inv in Hcon as (bs1 & bs2 & E1 & E2 & ->).
    assert (Hl1 : Z.of_nat (length bs1) = len b) by (by rewrite <- Hbl, E1, length_fmap).
    rewrite u16_small by lia.
    destruct (IH s (next b) l bs2 (off - len b) Hc' Ho E2) as (q & o & -> & Hq); [lia|lia|].
    exists q, o. split; [done|]. destruct q as [q'|].
    + destruct Hq as (b' & pre & suf & Hg & Hr & -> & Hoff' & Hh). exists b', (bs1 ++ pre), suf.
      split; [done|]. split; [done|]. split; [by rewrite app_assoc|]. split; [|done].
      rewrite zlen_app. unfold zlen in *. lia.
    + rewrite zlen_app. unfold zlen in *. lia.
  - exists (Some p0), off. split; [done|]. exists b, [], bs. split; [by unfold get; rewrite Hp|]. split; [lia|]. split; [done|].
    split; [unfold zlen; cbn; lia|]. by exists ((p0, b) :: l).
Qed.

Lemma memcmp_loop_ok k s q start s2 i suf :
  holds s q suf -> 0 <= start -> 0 <= i -> start + i + Z.of_nat k <= zlen suf -> zlen suf <= 65535 ->
  i + Z.of_nat k <= zlen s2 ->
  exists r, memcmp_loop k s q start s2 i = Ok r /\
    (if r =? 0 then forall j, (j < k)%nat -> s2 !! (Z.to_nat i + j)%nat = suf !! (Z.to_nat (start + i) + j)%nat
     else i < r <= i + Z.of_nat k).
Proof.
  intros Hh. revert i. induction k as [|k IH]; intros i Hs Hi Hl H16 H2; cbn [memcmp_loop].
  { exists 0. split; [done|]. cbn. intros j Hj. lia. }
  rewrite u16_small by lia. rewrite (pbuf_get_at_ok s q suf) by (done || lia). cbn [obind].
  destruct (lookup_lt_is_Some_2 suf (Z.to_nat (start + i))) as [a Ha]; [unfold zlen in *; lia|].
  destruct (lookup_lt_is_Some_2 s2 (Z.to_nat i)) as [b Hb]; [unfold zlen in *; lia|].
  rewrite (rd_lookup s2 i b) by done. rewrite Ha. cbn [obind default from_option id].
  destruct (Z.eqb_spec a b) as [->|Hne].
  - destruct (IH (i + 1)) as (r & -> & Hr); [lia..|]. exists r. split; [done|].
    destruct (Z.eqb_spec r 0); [|lia]. intros [|j] Hj; [by rewrite !Nat.add_0_r, Ha, Hb|].
    specialize (Hr j ltac:(lia)). replace (Z.to_nat (i + 1) + j)%nat with (Z.to_nat i + S j)%nat in Hr by lia.
    by replace (Z.to_nat (start + (i + 1)) + j)%nat with (Z.to_nat (start + i) + S j)%nat in Hr by lia.
  - rewrite u16_small by lia. exists (i + 1). split; [done|]. destruct (Z.eqb_spec (i + 1) 0); lia.
Qed.

Lemma pbuf_memcmp_ok s p off s2 n bs :
  holds s p bs -> 0 <= off -> 0 < n -> off + n <= zlen bs -> zlen bs <= 65535 -> n <= zlen s2 ->
  exists r, pbuf_memcmp s p off s2 n = Ok r /\
    (if r =? 0 then take (Z.to_nat n) (drop (Z.to_nat off) bs) = take (Z.to_nat n) s2 else 0 < r <= n).
Proof.
  intros (l & Hc & Ho & Hcon) Hoff Hn Hl H16 H2. unfold pbuf_memcmp.
  destruct (skip_ptr_ok (S (chain_fuel s)) s p l bs off Hc Ho Hcon) as (q & o & -> & Hq);
    [lia|pose proof (chain_length _ _ _ Hc); unfold chain_fuel; lia|].
  cbn [obind]. destruct q as [q|]; [|lia]. destruct Hq as (b & pre & suf & -> & Ho2 & -> & Hoff' & Hh). cbn [obind].
  destruct (Z.ltb_spec o (len b)); [|lia]. rewrite zlen_app in *. pose proof (zlen_nonneg pre).
  destruct (memcmp_loop_ok (Z.to_nat n) s (Some q) o s2 0 suf Hh) as (r & -> & Hr); [lia..|].
  exists r. split; [done|]. destruct (r =? 0); [|lia]. subst off.
  rewrite drop_app_ge by (unfold zlen in *; lia). replace (Z.to_nat (zlen pre + o) - length pre)%nat with (Z.to_nat o) by (unfold zlen in *; lia).
  apply list_eq. intros j. destruct (decide (j < Z.to_nat n)%nat).
  - rewrite !lookup_take_lt, lookup_drop by done. specialize (Hr j ltac:(done)).
    change (Z.to_nat 0) with 0%nat in Hr. rewrite Z.add_0_r in Hr. by rewrite <- Hr.
  - rewrite !lookup_take_ge by lia. done.
Qed.

Lemma memfind_loop_ok fuel s p mem mem_len i bs :
  holds s p bs -> 0 < mem_len <= zlen mem -> 0 <= i -> mem_len <= zlen bs -> zlen bs <= 65534 ->
  i <= zlen bs -> zlen bs - i < Z.of_nat fuel ->
  exists r, memfind_loop fuel s p mem mem_len (zlen bs - mem_len) i = Ok r /\
    (r = 65535 \/ i <= r <= zlen bs - mem_len /\
      take (Z.to_nat mem_len) (drop (Z.to_nat r) bs) = take (Z.to_nat mem_len) mem).
Proof.
  intros Hh. revert i. induction fuel as [|fuel IH]; intros i Hm Hi Hml H16 Hib Hf; [lia|]. cbn [memfind_loop].
  destruct (Z.leb_spec i (zlen bs - mem_len)); [|by exists 65535; auto].
  destruct (pbuf_memcmp_ok s p i mem mem_len bs Hh) as (r & -> & Hr); [lia..|]. cbn [obind].
  destruct (Z.eqb_spec r 0).
  - exists i. split; [done|]. right. split; [lia|done].
  - rewrite u16_small by lia. destruct (IH (i + r)) as (r' & -> & Hr'); [lia..|]. exists r'. split; [done|].
    destruct Hr' as [?|[? ?]]; [by left|right]. split; [lia|done].
Qed.

(** pbuf_memfind ends and is never wrong about a match: in a chain of up
    to 65534 bytes it returns 0xFFFF or an index from the start offset on at
    which the searched bytes stand in the packet, also across the borders of
    the pbufs. (It may miss an occurrence: see pbuf_memfind_misses.) *)
Theorem pbuf_memfind_sound (s : pstate) (p : pptr) (bs mem : list Z) (mem_len start_offset : Z) (b : pbuf) :
  holds s (Some p) bs -> get s p = Ok b -> tot_len b = zlen bs -> zlen bs <= 65534 ->
  0 < mem_len <= zlen mem -> 0 <= start_offset ->
  exists r, pbuf_memfind s p mem mem_len start_offset = Ok r /\
    (r = 65535 \/ start_offset <= r <= zlen bs - mem_len /\
      take (Z.to_nat mem_len) (drop (Z.to_nat r) bs) = take (Z.to_nat mem_len) mem).
Proof.
  intros Hh Hg Ht Hl Hm Hs. unfold pbuf_memfind. rewrite Hg. cbn [obind]. rewrite Ht.
  destruct (Z.leb_spec (mem_len + start_offset) (zlen bs)); [|by exists 65535; auto].
  rewrite u16_small by lia. apply memfind_loop_ok; try done; try lia. unfold memfind_fuel. lia.
Qed.

(** ** Theory: reference counts

    [roots] lists the references that are not next pointers: those of the
    application and of the stack, one entry per reference. *)

Definition links (m : gmap pptr pbuf) : list pptr := omap (fun kv => next (snd kv)) (map_to_list m).

Abbreviation olist := option_list.

Lemma links_insert m p b : m !! p = None -> Permutation (links (<[p := b]> m)) (olist (next b) ++ links m).
Proof.
  intros Hp. unfold links. rewrite map_to_list_insert by done. cbn. by destruct (next b).
Qed.

Lemma occ_links_delete m p b q :
  m !! p = Some b -> occ q (links (delete p m)) = occ q (links m) - occ q (olist (next b)).
Proof.
  intros Hp. rewrite <- (insert_delete_id m p b Hp) at 2.
  rewrite (occ_perm q _ _ (links_insert _ _ _ (lookup_delete_eq m p))), occ_app. lia.
Qed.

Lemma occ_links_put m p b b' q :
  m !! p = Some b -> occ q (links (<[p := b']> m)) = occ q (links m) - occ q (olist (next b)) + occ q (olist (next b')).
Proof.
  intros Hp. rewrite <- (insert_delete_eq m p b').
  rewrite (occ_perm q _ _ (links_insert _ _ _ (lookup_delete_eq m p))), occ_app, (occ_links_delete m p b q Hp). lia.
Qed.

Lemma occ_links_new m p b q :
  m !! p = None -> occ q (links (<[p := b]> m)) = occ q (links m) + occ q (olist (next b)).
Proof. intros Hp. rewrite (occ_perm q _ _ (links_insert _ _ _ Hp)), occ_app. lia. Qed.

(** Every pbuf in use has as many references as its count says, and at
    least one; nothing refers to a pbuf that is not in use. *)
Definition refs_ok (m : gmap pptr pbuf) (roots : list pptr) : Prop :=
  forall p, match m !! p with
            | Some b => 1 <= ref b <= 65535 /\ ref b = occ p roots + occ p (links m)
            | None => occ p roots + occ p (links m) = 0
            end.

Definition custom (b : pbuf) : bool := negb (Z.land (flags b) PBUF_FLAG_IS_CUSTOM =? 0).

Definition kind_ok (us : list region) (free : list (list Z)) (p : pptr) (b : pbuf) : Prop :=
  match p with
  | PHeap o => type b = PBUF_RAM /\ custom b = false /\ (own b /\ zlen (mem_bytes b) <= 65519) /\
      exists n, (o, n) ∈ us /\ SIZEOF_STRUCT_PBUF + zlen (mem_bytes b) <= n
  | PMemp e => type b <> PBUF_RAM /\ custom b = false /\
      (type b = PBUF_POOL -> own b /\ zlen (mem_bytes b) <= 65519) /\ e ∉ concat free
  | PCust _ => custom b = true /\ type b <> PBUF_RAM /\ type b <> PBUF_POOL
  end.

(** Every pbuf in use owns its memory, and its payload lies in it. *)
Definition mem_ok (s : pstate) : Prop :=
  exists us free, ram_used (heap s) us /\ memp_rep memp_num (pools s) free /\
    (forall p b, store s !! p = Some b -> kind_ok us free p b) /\
    (forall p f, stale s !! p = Some f -> Z.land f PBUF_FLAG_IS_CUSTOM = 0).

Definition pinv (s : pstate) (roots : list pptr) : Prop := refs_ok (store s) roots /\ mem_ok s.

Context (Hpool_lt : 0 <= MEMP_PBUF_POOL < zlen memp_num) (Hpbuf_lt : 0 <= MEMP_PBUF < zlen memp_num).

Lemma memp_pool s free i : memp_rep memp_num s free -> 0 <= i < zlen memp_num -> exists l, free !! Z.to_nat i = Some l.
Proof.
  intros (_ & _ & Hlen) Hi. apply lookup_lt_is_Some_2. unfold MEMP_MAX, zlen in *. lia.
Qed.

Lemma elem_concat_insert (free : list (list Z)) i l e e' :
  free !! i = Some l -> e' ∈ concat (<[i := e :: l]> free) -> e' = e \/ e' ∈ concat free.
Proof.
  intros Hi (l1 & Hl1 & He)%list_elem_of_In%in_concat.
  apply list_elem_of_In in Hl1, He. apply list_elem_of_lookup in Hl1 as [k Hk].
  apply list_lookup_insert_Some in Hk as [(_ & <- & _)|[_ Hk]].
  - apply elem_of_cons in He as [->|He]; [by left|right]. by eapply elem_of_concat_lookup.
  - right. by eapply elem_of_concat_lookup.
Qed.

Lemma dealloc_ok s p b b' :
  mem_ok s -> store s !! p = Some b -> type b' = type b -> flags b' = flags b ->
  exists s', dealloc s p b' = Ok s' /\ mem_ok s' /\ store s' = delete p (store s) /\ ext s' = ext s.
Proof.
  intros (us & free & Hu & Hf & Hk & Hst) Hp Ht Hfl. pose proof (Hk p b Hp) as Hb.
  unfold dealloc. rewrite Ht, Hfl. change (negb (Z.land (flags b) PBUF_FLAG_IS_CUSTOM =? 0)) with (custom b).
  destruct p as [o|e|c]; cbn in Hb.
  - destruct Hb as (Hty & -> & _ & n & Hn & _). rewrite Hty. cbn [heap set_store].
    apply list_elem_of_split in Hn as (u1 & u2 & ->).
    assert (Hperm : Permutation (u1 ++ (o, n) :: u2) ((o, n) :: u1 ++ u2)) by (by rewrite Permutation_middle).
    pose proof (ram_free_ok _ _ _ o n Hu Hperm) as (h' & -> & Hu')%wp_ok. cbn [obind].
    eexists. split; [done|]. split; [|done]. exists (u1 ++ u2), free. split_and!; try done.
    intros q b0. cbn. rewrite lookup_delete_Some. intros [Hne Hq]. specialize (Hk q b0 Hq).
    destruct q as [o'|e'|]; [|done..]. destruct Hk as (? & ? & ? & n' & Hin & ?). split_and!; [tauto..|].
    exists n'. split; [|done]. rewrite Hperm in Hin. apply elem_of_cons in Hin as [[= -> ->]|?]; done.
  - destruct Hb as (Hty & -> & _ & He).
    assert (Hgen : forall i, 0 <= i < zlen memp_num -> exists s',
      (let! m := memp_free (pools (set_store s (delete (PMemp e) (store s)))) i (Some e) in
       Ok (set_stale (set_pools (set_store s (delete (PMemp e) (store s))) m)
            (<[PMemp e := flags b]> (stale (set_store s (delete (PMemp e) (store s))))))) = Ok s' /\
      mem_ok s' /\ store s' = delete (PMemp e) (store s) /\ ext s' = ext s).
    { intros i Hi. destruct (memp_pool _ _ i Hf Hi) as [l Hl].
      destruct (memp_free_ok memp_num (pools s) free i l e Hf Hl) as (m & E & Hm); [lia|done|].
      cbn [pools set_store]. rewrite E. cbn [obind]. eexists. split; [done|]. split; [|done].
      exists us, (<[Z.to_nat i := e :: l]> free). split_and!; try done.
      - intros q b0. cbn. rewrite lookup_delete_Some. intros [Hne Hq]. specialize (Hk q b0 Hq).
        destruct q as [o'|e'|]; [done| |done]. destruct Hk as (? & ? & ? & Hn). split_and!; [done..|].
        intros [->|?]%(elem_concat_insert _ _ _ _ _ Hl); done.
      - intros q f. cbn. rewrite lookup_insert_Some. intros [[<- <-]|[_ Hq]]; [|by eapply Hst].
        pose proof (Hk (PMemp e) b Hp) as (_ & Hc & _ & _). apply negb_false_iff, Z.eqb_eq in Hc. done. }
    destruct (type b); done || by apply Hgen.
  - destruct Hb as [-> _]. eexists. split; [done|]. split; [|done]. exists us, free. split_and!; try done.
    intros q b0. cbn. rewrite lookup_delete_Some. intros [_ Hq]. by apply Hk.
Qed.

Lemma mem_ok_put s p b b' :
  mem_ok s -> store s !! p = Some b -> type b' = type b -> custom b' = custom b ->
  zlen (mem_bytes b') <= zlen (mem_bytes b) -> (type b = PBUF_RAM \/ type b = PBUF_POOL -> own b -> own b') ->
  mem_ok (put s p b').
Proof.
  intros (us & free & Hu & Hf & Hk & Hst) Hp Ht Hfl Hl Ho. exists us, free. split_and!; try done.
  intros q b0. cbn. rewrite lookup_insert_Some. intros [[<- <-]|[_ Hq]]; [|by apply Hk].
  specialize (Hk p b Hp). unfold kind_ok in *. rewrite Ht, Hfl. destruct p; [| |done].
  - destruct Hk as (? & ? & [? ?] & n & ? & ?). split_and!; auto; [lia|]. exists n. split; [done|lia].
  - destruct Hk as (? & ? & Hp' & ?). split_and!; auto; intros E; destruct (Hp' E); split; [auto|lia].
Qed.

(** Changing one pbuf and the roots so that the counts stay exact. *)
Lemma refs_put m p b b' roots roots' :
  refs_ok m roots -> m !! p = Some b -> 1 <= ref b' <= 65535 ->
  (forall q, occ q roots' + occ q (olist (next b')) - occ q (olist (next b)) =
             occ q roots + (if decide (q = p) then ref b' - ref b else 0)) ->
  refs_ok (<[p := b']> m) roots'.
Proof.
  intros Hr Hp Hb Hq q. specialize (Hr q). specialize (Hq q).
  pose proof (occ_links_put m p b b' q Hp) as Hl.
  destruct (decide (q = p)) as [->|Hne].
  - rewrite lookup_insert_eq. rewrite Hp in Hr. split; [done|lia].
  - rewrite lookup_insert_ne by done. destruct (m !! q); [split; [lia|]|]; lia.
Qed.

Lemma pinv_put s p b b' roots :
  pinv s roots -> store s !! p = Some b -> type b' = type b -> custom b' = custom b -> next b' = next b ->
  ref b' = ref b -> zlen (mem_bytes b') <= zlen (mem_bytes b) ->
  (type b = PBUF_RAM \/ type b = PBUF_POOL -> own b -> own b') -> pinv (put s p b') roots.
Proof.
  intros [Hr Hm] Hp Ht Hf Hn Href Hl Ho. split; [|by eapply mem_ok_put].
  pose proof (Hr p) as Hb. rewrite Hp in Hb. apply (refs_put _ _ b _ roots); [done..|lia|].
  intros q. rewrite Hn. destruct (decide (q = p)); lia.
Qed.

Lemma pinv_root s p roots : pinv s roots -> p ∈ roots -> exists b, store s !! p = Some b.
Proof.
  intros [Hr _] Hp. specialize (Hr p). apply occ_elem in Hp. pose proof (occ_nonneg p (links (store s))).
  destruct (store s !! p) as [b|]; [by exists b|lia].
Qed.

Lemma pinv_next s p b q roots : pinv s roots -> store s !! p = Some b -> next b = Some q -> exists b', store s !! q = Some b'.
Proof.
  intros [Hr _] Hp Hn. specialize (Hr q). pose proof (occ_nonneg q roots).
  destruct (store s !! q) as [b'|]; [by exists b'|].
  pose proof (occ_links_delete (store s) p b q Hp) as Hl. rewrite Hn in Hl. cbn in Hl.
  rewrite bool_decide_true in Hl by done. pose proof (occ_nonneg q (links (delete p (store s)))). cbn in Hl. lia.
Qed.

(** What a release leaves: the pbufs that are still in use, unchanged but
    for their counts. *)
Definition released (s s' : pstate) : Prop :=
  ext s' = ext s /\
  forall q b', store s' !! q = Some b' -> exists b, store s !! q = Some b /\ b' = set_ref b (ref b') /\ ref b' <= ref b.

Lemma released_trans s1 s2 s3 : released s1 s2 -> released s2 s3 -> released s1 s3.
Proof.
  intros [E1 H1] [E2 H2]. split; [congruence|]. intros q b3 Hq.
  destruct (H2 q b3 Hq) as (b2 & Hb2 & -> & ?). destruct (H1 q b2 Hb2) as (b1 & Hb1 & -> & ?). exists b1. cbn in *. split_and!; done || lia.
Qed.

Lemma released_put s p b n : store s !! p = Some b -> n <= ref b -> released s (put s p (set_ref b n)).
Proof.
  intros Hp Hn. split; [done|]. intros q b'. cbn. rewrite lookup_insert_Some. intros [[<- <-]|[_ Hq]].
  - by exists b.
  - exists b'. split; [done|]. split; [by destruct b'|done].
Qed.

Lemma occ_cons_root q p (roots : list pptr) : occ q (p :: roots) = Z.b2z (bool_decide (p = q)) + occ q roots.
Proof. done. Qed.

Lemma refs_unref m p b roots :
  refs_ok m (p :: roots) -> m !! p = Some b ->
  if decide (ref b = 1) then refs_ok (delete p m) (olist (next b) ++ roots)
  else refs_ok (<[p := set_ref b (ref b - 1)]> m) roots.
Proof.
  intros Hr Hp. pose proof (Hr p) as Hb. rewrite Hp in Hb. destruct (decide (ref b = 1)) as [E|E].
  - intros q. specialize (Hr q). rewrite occ_app, (occ_links_delete m p b q Hp). rewrite occ_cons_root in *.
    destruct (decide (q = p)) as [->|Hne].
    + rewrite lookup_delete_eq. rewrite bool_decide_true in * by done. cbn in *. lia.
    + rewrite lookup_delete_ne by done. rewrite bool_decide_false in Hr by congruence. cbn [Z.b2z] in Hr.
      destruct (m !! q); [split|]; lia.
  - apply (refs_put _ _ b _ (p :: roots)); [done..|cbn; lia|]. intros q. rewrite occ_cons_root. cbn.
    destruct (decide (q = p)) as [->|Hne]; [rewrite bool_decide_true by done|rewrite bool_decide_false by congruence];
      cbn; lia.
Qed.

Lemma free_loop_ok fuel s p roots count :
  pinv s (p :: roots) -> (size (store s) < fuel)%nat ->
  exists n s', free_loop fuel s (Some p) count = Ok (n, s') /\ pinv s' roots /\ released s s'.
Proof.
  revert s p count. induction fuel as [|fuel IH]; intros s p count Hi Hf; [lia|].
  destruct (pinv_root s p _ Hi) as [b Hp]; [by left|]. cbn [free_loop]. unfold get. rewrite Hp. cbn [obind].
  destruct Hi as [Hr Hm]. pose proof (Hr p) as Hb. rewrite Hp in Hb. destruct Hb as [Hb _].
  pose proof (refs_unref _ _ _ _ Hr Hp) as Hr'. rewrite u16_small by lia.
  assert (Hm1 : mem_ok (put s p (set_ref b (ref b - 1)))) by (by eapply mem_ok_put).
  destruct (Z.eqb_spec (ref b - 1) 0) as [E|E].
  - rewrite decide_True in Hr' by lia.
    destruct (dealloc_ok (put s p (set_ref b (ref b - 1))) p (set_ref b (ref b - 1)) (set_ref b (ref b - 1)))
      as (s1 & -> & Hm2 & Hs & He); [done|by cbn; rewrite lookup_insert_eq|done..|].
    cbn [obind]. cbn [put store set_store ext] in Hs, He. rewrite delete_insert_eq in Hs.
    assert (Hrel : released s s1).
    { split; [done|]. rewrite Hs. intros q b'. rewrite lookup_delete_Some. intros [_ Hq].
      exists b'. split; [done|]. split; [by destruct b'|done]. }
    destruct (next b) as [q|] eqn:Hn; cbn [olist app] in Hr'.
    + destruct (IH s1 q (u8 (count + 1))) as (n & s' & -> & Hi' & Hrel').
      * split; [by rewrite Hs|done].
      * rewrite Hs, map_size_delete_Some by done. assert (size (store s) <> 0%nat); [|lia].
        apply map_size_ne_0_lookup. by exists p; exists b.
      * eexists _, _. split; [done|]. split; [done|]. by eapply released_trans.
    + destruct fuel as [|fuel].
      * exfalso. assert (size (store s) <> 0%nat); [|lia]. apply map_size_ne_0_lookup. by exists p; exists b.
      * cbn [free_loop]. eexists _, _. split; [done|]. split; [|done]. split; [by rewrite Hs|done].
  - rewrite decide_False in Hr' by lia. eexists _, _. split; [done|]. split; [by split|]. apply released_put; [done|lia].
Qed.

(** Dropping one reference. *)
Lemma pbuf_free_ok s p roots :
  pinv s (p :: roots) ->
  exists n s', pbuf_free s (Some p) = Ok (n, s') /\ pinv s' roots /\ released s s'.
Proof. intros Hi. apply free_loop_ok; [done|]. unfold chain_fuel. lia. Qed.

(** *** Allocation *)

Lemma pool_malloc_ok s i :
  mem_ok s -> 0 <= i < zlen memp_num ->
  exists q s', pool_malloc s i = Ok (q, s') /\ mem_ok s' /\ store s' = store s /\ ext s' = ext s /\ stale s' = stale s /\
  match q with
  | Some p => store s !! p = None /\ (exists e, p = PMemp e) /\
      forall b, type b <> PBUF_RAM -> custom b = false ->
        (type b = PBUF_POOL -> own b /\ zlen (mem_bytes b) <= 65519) -> mem_ok (put s' p b)
  | None => True
  end.
Proof.
  intros (us & free & Hu & Hf & Hk & Hst) Hi. destruct (memp_pool _ _ i Hf Hi) as [l Hl].
  pose proof (memp_malloc_ok memp_num (pools s) free i l Hf Hl ltac:(lia)) as Hm. unfold pool_malloc.
  destruct l as [|e r].
  - rewrite Hm. cbn [obind option_map]. eexists _, _. split; [done|]. split_and!; try done. by exists us, free.
  - destruct Hm as (m & -> & Hm). cbn [obind option_map].
    assert (Hsub : forall e', e' ∈ concat (<[Z.to_nat i := r]> free) -> e' ∈ concat free /\ e' <> e).
    { intros e' (l1 & Hl1 & He)%list_elem_of_In%in_concat.
      apply list_elem_of_In in Hl1, He. apply list_elem_of_lookup in Hl1 as [k Hk'].
      destruct Hf as (_ & Hnd & _). apply list_lookup_insert_Some in Hk' as [(_ & <- & _)|[Hne Hk']].
      - split; [eapply elem_of_concat_lookup; [exact Hl|by right]|]. intros ->.
        by apply (nodup_concat_lookup _ _ _ Hl), NoDup_cons in Hnd as [? _].
      - split; [by eapply elem_of_concat_lookup|]. intros ->.
        apply (nodup_concat_disjoint _ _ _ _ _ e Hl Hk'); [congruence|done|by left|done]. }
    assert (Hnew : mem_ok (set_pools s m)).
    { exists us, (<[Z.to_nat i := r]> free). split_and!; try done. intros p b Hp. specialize (Hk p b Hp).
      destruct p; try done. destruct Hk as (? & ? & ? & Hn). split_and!; try done. by intros [? _]%Hsub. }
    eexists _, _. split; [done|]. split; [done|]. split_and!; try done.
    + destruct (store s !! PMemp e) as [b|] eqn:E; [|done]. destruct (Hk _ _ E) as (_ & _ & _ & Hn).
      exfalso. apply Hn. eapply elem_of_concat_lookup; [exact Hl|by left].
    + by exists e.
    + intros b Ht Hc Ho. destruct Hnew as (us' & free' & Hu' & Hf' & Hk' & Hst').
      exists us, (<[Z.to_nat i := r]> free). split_and!; try done. intros p b0. cbn. rewrite lookup_insert_Some.
      intros [[<- <-]|[_ Hp]]; [split_and!; try done; by intros [_ ?]%Hsub|].
      specialize (Hk p b0 Hp). destruct p; try done. destruct Hk as (? & ? & ? & Hn). split_and!; try done. by intros [? _]%Hsub.
Qed.

Lemma refs_new m p b roots :
  refs_ok m roots -> m !! p = None -> next b = None -> ref b = 1 -> refs_ok (<[p := b]> m) (p :: roots).
Proof.
  intros Hr Hp Hn Hb q. specialize (Hr q). rewrite occ_cons_root, (occ_links_new m p b q Hp), Hn. cbn [olist].
  destruct (decide (q = p)) as [->|Hne].
  - rewrite lookup_insert_eq, bool_decide_true by done. rewrite Hp in Hr. cbn. lia.
  - rewrite lookup_insert_ne, bool_decide_false by congruence. cbn. destruct (m !! q); [split|]; lia.
Qed.

Lemma fresh_len n : 0 <= n -> zlen (fresh n) = n.
Proof. intros Hn. unfold zlen, fresh. rewrite length_replicate. lia. Qed.

(** As pbuf_alloc makes it: one reference, and no byte written. *)
Definition blank (b : pbuf) : Prop := ref b = 1 /\ Forall (eq None) (mem_bytes b).

Lemma fresh_blank n : Forall (eq None) (fresh n).
Proof. by apply Forall_replicate. Qed.

(** The chain under construction from [p]: [l] and its last pbuf [r],
    [rem] bytes missing, beside the pbufs of [m0]. *)
Definition building (m0 : gmap pptr pbuf) (s : pstate) (p : pptr) (l : list (pptr * pbuf)) (rem : Z) : Prop :=
  chain (store s) (Some p) l None /\ tots l rem /\ 
  Forall (fun x => (own (snd x) /\ blank (snd x)) /\ m0 !! fst x = None) l /\ m0 ⊆ store s.

Lemma building_snoc m0 s1 s p l r rb q rem :
  building m0 s p (l ++ [(r, rb)]) rem -> store s1 = store s -> store s !! q = None -> 0 < rem <= 65535 ->
  let qlen := Z.min (u16 rem) PBUF_POOL_BUFSIZE_ALIGNED in
  let qb := PbufC None (LBuf 0) (u16 rem) qlen PBUF_POOL 0 1 (fresh PBUF_POOL_BUFSIZE_ALIGNED) in
  building m0 (put (put s1 r (set_next rb (Some q))) q qb) p ((l ++ [(r, set_next rb (Some q))]) ++ [(q, qb)]) (rem - qlen).
Proof.
  intros (Hc & Ht & Ho & Hsub) E Hq Hrem qlen qb.
  pose proof (chain_nodup _ _ _ Hc) as Hnd. rewrite fmap_app in Hnd. apply NoDup_app in Hnd as (_ & Hnr & _).
  apply pchain_app in Hc as (r0 & Hc & (-> & Hr & Hn)).
  assert (Hqr : q <> r) by congruence.
  assert (Hql : q ∉ (fst <$> l)).
  { intros ([q' b'] & Eq & Hin)%list_elem_of_fmap. cbn in Eq. subst q'. rewrite (chain_lookup _ _ _ _ _ _ Hc Hin) in Hq. done. }
  apply tots_app in Ht as [Htl (Htr & _)]. apply Forall_app in Ho as [Hol Hor].
  apply Forall_singleton in Hor as [Hor Hm0]. cbn [fst snd] in *.
  change PBUF_POOL_BUFSIZE_ALIGNED with 500 in *. subst qlen. rewrite u16_small by lia. cbn [lens] in *. rewrite Z.add_0_r in *.
  repeat split; cbn [put set_store store]; rewrite ?E.
  - apply pchain_app. exists (Some q). split.
    + apply pchain_app. exists (Some r). split.
      * apply pchain_insert; [|done]. apply pchain_insert; [done|]. intros Hin. apply (Hnr r Hin). left.
      * cbn. rewrite lookup_insert_ne, lookup_insert_eq by done. done.
    + cbn. by rewrite lookup_insert_eq.
  - rewrite !tots_app. cbn [tots lens qb len tot_len set_next]. rewrite u16_small by lia.
    split_and!; try done; try lia. replace (_ + _) with (len rb + rem) by lia. done.
  - rewrite !Forall_app, !Forall_singleton. split_and!; try done; cbn [fst snd]; try apply Hor.
    + cbn. rewrite fresh_len by done. pose proof (u16_range rem). lia.
    + split; [done|apply fresh_blank].
    + destruct (m0 !! q) eqn:Em; [|done]. rewrite (lookup_weaken _ _ _ _ Em Hsub) in Hq. done.
  - apply insert_subseteq_r; [|apply insert_subseteq_r; [done|]].
    + destruct (m0 !! q) eqn:Em; [|done]. rewrite (lookup_weaken _ _ _ _ Em Hsub) in Hq. done.
    + done.
Qed.

Lemma pool_tail_ok m0 fuel s p l r rb rem roots :
  pinv s (p :: roots) -> building m0 s p (l ++ [(r, rb)]) rem -> 0 <= rem <= 65535 ->
  rem <= 500 * (Z.of_nat fuel - 1) ->
  exists q s', pool_tail fuel s p r rem = Ok (q, s') /\ ext s' = ext s /\
    match q with
    | None => pinv s' roots
    | Some p' => p' = p /\ pinv s' (p :: roots) /\ exists l', building m0 s' p l' 0 /\ lens l' = lens (l ++ [(r, rb)]) + rem
    end.
Proof.
  revert s l r rb rem. induction fuel as [|fuel IH]; intros s l r rb rem Hi Hb Hrem Hfuel; [lia|]. cbn [pool_tail].
  destruct (Z.ltb_spec 0 rem) as [Hpos|Hz].
  2: { assert (rem = 0) as -> by lia. eexists _, _. split; [done|]. split_and!; try done. eexists. split; [exact Hb|lia]. }
  destruct Hi as [Hr Hm].
  destruct (pool_malloc_ok s MEMP_PBUF_POOL Hm Hpool_lt) as (q & s1 & -> & Hm1 & Es & Ee & _ & Hq). cbn [obind].
  destruct q as [q|].
  - destruct Hq as (Hq & _ & Hmq). pose proof Hb as (Hc & _). apply pchain_app in Hc as (? & _ & (-> & Hrb & Hn)).
    unfold get. rewrite Es, Hrb. cbn [obind].
    pose proof (building_snoc m0 s1 s p l r rb q rem Hb Es Hq ltac:(lia)) as Hb'. cbv zeta in Hb'.
    set (qb := PbufC None _ _ _ _ _ _ _) in *. set (qlen := Z.min _ _) in *.
    set (s2 := put (put s1 r (set_next rb (Some q))) q qb) in *.
    assert (Hqlen : 0 < qlen <= rem /\ (500 <= qlen \/ qlen = rem)).
    { unfold qlen. change PBUF_POOL_BUFSIZE_ALIGNED with 500. rewrite u16_small by lia. lia. }
    destruct (IH s2 (l ++ [(r, set_next rb (Some q))]) q qb (rem - qlen)) as (o & s' & E & Ee' & Ho).
    + assert (Hqr : q <> r) by congruence. split.
      * subst s2. cbn. rewrite Es, insert_insert_ne by done.
        pose proof (refs_new (store s) q qb _ Hr Hq eq_refl eq_refl) as Hrn.
        pose proof (Hr r) as Href. rewrite Hrb in Href.
        apply (refs_put _ _ rb _ (q :: p :: roots)); [done|by rewrite lookup_insert_ne|cbn; lia|].
        intros q'. rewrite !occ_cons_root, Hn. cbn. destruct (decide (q' = r)); lia.
      * subst s2. assert (Hqb : own qb /\ zlen (mem_bytes qb) <= 65519).
        { unfold own, qb. cbn. rewrite fresh_len by done. unfold qlen in *. change PBUF_POOL_BUFSIZE_ALIGNED with 500 in *. lia. }
        specialize (Hmq qb ltac:(done) eq_refl ltac:(done)).
        apply (mem_ok_put _ r rb (set_next rb (Some q))) in Hmq; [|cbn; by rewrite lookup_insert_ne, Es|done..].
        unfold put in *. cbn in *. by rewrite insert_insert_ne in Hmq.
    + done.
    + lia.
    + lia.
    + rewrite E. exists o, s'. split; [done|]. split; [by rewrite Ee'|]. destruct o as [p'|]; [|done].
      destruct Ho as (-> & Hi' & l' & Hb'' & Hl'). split_and!; try done. exists l'. split; [done|].
      rewrite Hl', !lens_app. cbn [lens]. change (len qb) with qlen. change (len (set_next rb (Some q))) with (len rb). lia.
  - destruct (pbuf_free_ok s1 p roots) as (n & s' & -> & Hi' & He' & _).
    + split; [cbn; by rewrite Es|]. destruct Hm1 as (us & free & ? & ? & ? & ?). exists us, free. done.
    + cbn [obind]. exists None, s'. split; [done|]. split; [|done]. rewrite He'. done.
Qed.

Lemma layer_offset_cases layer :
  exists o, payload_at (layer_offset layer) = LBuf o /\ 0 <= o <= 56 /\ LWIP_MEM_ALIGN_SIZE (layer_offset layer) = o /\
    LWIP_MEM_ALIGN_SIZE (SIZEOF_STRUCT_PBUF + layer_offset layer) = SIZEOF_STRUCT_PBUF + o.
Proof. destruct layer; eexists; (split; [reflexivity|]); vm_compute; done. Qed.

(** What the caller of pbuf_alloc gets. *)
Definition allocated (s s' : pstate) (p : pptr) (t : pbuf_type) (n : Z) : Prop :=
  store s ⊆ store s' /\
  exists l, chain (store s') (Some p) l None /\ tots l 0 /\ lens l = n /\
    Forall (fun x => (store s !! fst x = None /\ blank (snd x)) /\ (t = PBUF_RAM \/ t = PBUF_POOL -> own (snd x))) l.

Lemma allocated_one s s1 p b t n :
  store s1 = store s -> store s !! p = None -> next b = None -> len b = n -> tot_len b = n -> blank b ->
  (t = PBUF_RAM \/ t = PBUF_POOL -> own b) -> allocated s (put s1 p b) p t n.
Proof.
  intros E Hp Hn Hl Ht Hr Ho. split.
  - cbn. rewrite E. by apply insert_subseteq.
  - exists [(p, b)]. cbn. rewrite lookup_insert_eq, Hn. split_and!; try done; try lia.
    by apply Forall_singleton.
Qed.

Lemma alloc_pool_ok s layer n roots :
  pinv s roots -> 0 <= n <= 65535 ->
  exists q s', pbuf_alloc s layer n PBUF_POOL = Ok (q, s') /\ ext s' = ext s /\
    match q with
    | None => pinv s' roots
    | Some p => pinv s' (p :: roots) /\ allocated s s' p PBUF_POOL n
    end.
Proof.
  intros [Hr Hm] Hn. unfold pbuf_alloc. destruct (layer_offset_cases layer) as (o & -> & Ho & -> & _).
  destruct (pool_malloc_ok s MEMP_PBUF_POOL Hm Hpool_lt) as (q & s1 & -> & Hm1 & Es & Ee & Est & Hq). cbn [obind].
  destruct q as [p|].
  2: { eexists _, _. split; [done|]. split; [done|]. split; [by rewrite <- Es in Hr|].
       destruct Hm1 as (us & free & ? & ? & ? & ?). by exists us, free. }
  destruct Hq as (Hp & [e ->] & Hmq). set (p := PMemp e) in *. change PBUF_POOL_BUFSIZE_ALIGNED with 500. rewrite u16_small by lia.
  set (plen := Z.min n (500 - o)). set (b0 := PbufC _ _ _ _ _ _ _ _).
  assert (Hcust : custom b0 = false).
  { unfold custom, b0. cbn [flags]. rewrite Est. destruct (stale s !! p) as [f|] eqn:Ef; [|done].
    destruct Hm as (_ & _ & _ & _ & _ & Hst). cbn. by rewrite (Hst _ _ Ef). }
  assert (Hown : own b0) by (unfold own, b0; cbn; rewrite fresh_len by done; lia).
  assert (Hi : pinv (put s1 p b0) (p :: roots)).
  { split; [|apply Hmq; [done|done|]; intros _; split; [done|]; unfold b0; cbn; by rewrite fresh_len]. cbn. rewrite Es. by apply refs_new. }
  destruct (pool_tail_ok (store s) pool_fuel (put s1 p b0) p [] p b0 (n - plen) roots Hi) as (r & s2 & -> & Ee2 & Hres).
  - split; [cbn; by rewrite lookup_insert_eq|]. cbn [tots app lens]. split; [cbn; lia|].
    split; [by apply Forall_singleton; split; [split; [done|split; [done|apply fresh_blank]]|]|]. cbn. rewrite Es. by apply insert_subseteq.
  - lia.
  - change (Z.of_nat pool_fuel) with 134. lia.
  - cbn [obind]. destruct r as [p'|]; [|by exists None, s2; rewrite Ee2].
    destruct Hres as (-> & Hi2 & l & (Hc & Ht & Hf & Hsub) & Hl). destruct l as [|[p0 b] l]; [done|].
    destruct Hc as ([= <-] & Hb & Hc). apply Forall_cons in Hf as [[[Hob [Hrefb Hblank]] Hpn] Hf]. cbn [fst snd] in *.
    unfold get. rewrite Hb. cbn [obind]. eexists _, _. split; [done|]. split; [cbn; by rewrite Ee2|].
    assert (Hcb : custom (set_flags (set_ref b 1) 0) = custom b).
    { destruct Hi2 as [_ (us & free & _ & _ & Hk & _)]. by destruct (Hk p b Hb) as (_ & -> & _). }
    split; [by eapply pinv_put|]. split.
    + cbn. by apply insert_subseteq_r.
    + exists ((p, set_flags (set_ref b 1) 0) :: l). cbn. rewrite lookup_insert_eq. split_and!; try done.
      * apply pchain_insert; [done|]. pose proof (chain_nodup (store s2) (Some p) ((p, b) :: l)) as Hnd.
        cbn in Hnd. specialize (Hnd ltac:(done)). by apply NoDup_cons in Hnd as [? _].
      * apply Ht.
      * apply Ht.
      * cbn in Hl. lia.
      * constructor; [by repeat split|]. eapply Forall_impl; [exact Hf|]. cbn. tauto.
Qed.

Lemma alloc_ram_ok s layer n roots :
  pinv s roots -> 0 <= n <= 65460 ->
  exists q s', pbuf_alloc s layer n PBUF_RAM = Ok (q, s') /\ ext s' = ext s /\
    match q with
    | None => pinv s' roots
    | Some p => pinv s' (p :: roots) /\ allocated s s' p PBUF_RAM n
    end.
Proof.
  intros [Hr (us & free & Hu & Hf & Hk & Hst)] Hn. unfold pbuf_alloc.
  destruct (layer_offset_cases layer) as (o & -> & Ho & _ & ->). change SIZEOF_STRUCT_PBUF with 16.
  destruct (align_size_spec n) as (k & -> & Hk4); [lia|]. rewrite u16_small by lia.
  pose proof (ram_malloc_ok _ _ (16 + o + 4 * k) Hu ltac:(lia)) as (r & -> & Hres)%wp_ok.
  destruct r as [a h']. cbn [obind fst snd] in *. destruct a as [a|].
  2: { eexists _, _. split; [done|]. split; [done|]. split; [done|]. by exists us, free. }
  destruct Hres as (m & Hm & Hu'). destruct (Z.leb_spec 16 (16 + o + 4 * k)); [|lia]. cbn [guard_ub obind].
  pose proof (ram_used_nodup _ _ Hu') as Hnd. cbn in Hnd. apply NoDup_cons in Hnd as [Hnew _].
  assert (Hp : store s !! PHeap a = None).
  { destruct (store s !! PHeap a) as [b|] eqn:E; [|done]. destruct (Hk _ _ E) as (_ & _ & _ & m' & Hin & _).
    exfalso. apply Hnew, list_elem_of_fmap. by exists (a, m'). }
  eexists _, _. split; [done|]. split; [done|]. split.
  - split; [by apply refs_new|]. exists ((a, m) :: us), free. split_and!; try done. intros q b. cbn.
    rewrite lookup_insert_Some. intros [[<- <-]|[_ Hq]].
    + unfold kind_ok, own. cbn. rewrite fresh_len by lia. change SIZEOF_STRUCT_PBUF with 16.
      split_and!; [done|done|lia..|]. exists m. split; [left|lia].
    + specialize (Hk q b Hq). destruct q; [|done..]. destruct Hk as (? & ? & ? & m' & ? & ?). split_and!; [tauto..|].
      exists m'. split; [by right|done].
  - apply allocated_one; try done; [split; [done|apply fresh_blank]|]. intros _. unfold own. cbn. rewrite fresh_len by lia. lia.
Qed.

Lemma alloc_ref_ok s layer n t roots :
  pinv s roots -> t = PBUF_ROM \/ t = PBUF_REF ->
  exists q s', pbuf_alloc s layer n t = Ok (q, s') /\ ext s' = ext s /\
    match q with
    | None => pinv s' roots
    | Some p => pinv s' (p :: roots) /\ allocated s s' p t n
    end.
Proof.
  intros [Hr Hm] Ht.
  assert (Hgen : exists q s', (let! (p, s0) := pool_malloc s MEMP_PBUF in
      match p with
      | Some p => Ok (Some p, put s0 p (PbufC None LNull n n t 0 1 []))
      | None => Ok (None, s0)
      end) = Ok (q, s') /\ ext s' = ext s /\
    match q with Some p => pinv s' (p :: roots) /\ allocated s s' p t n | None => pinv s' roots end).
  { destruct (pool_malloc_ok s MEMP_PBUF Hm Hpbuf_lt) as (q & s1 & -> & Hm1 & Es & Ee & _ & Hq). cbn [obind].
    destruct q as [p|]; [|eexists _, _; split; [done|]; split; [done|]; by rewrite <- Es in Hr].
    destruct Hq as (Hp & _ & Hmq). eexists _, _. split; [done|]. split; [done|]. split.
    - split; [cbn; rewrite Es; by apply refs_new|]. apply Hmq; [|done|]; by destruct Ht as [-> | ->].
    - apply allocated_one; try done. by destruct Ht as [-> | ->]; intros [?|?]. }
  by destruct Ht as [-> | ->].
Qed.

(** ** The other operations on references *)

Lemma pbuf_ref_ok s p b roots :
  pinv s roots -> store s !! p = Some b -> ref b < 65535 ->
  exists s', pbuf_ref s (Some p) = Ok s' /\ pinv s' (p :: roots).
Proof.
  intros [Hr Hm] Hp Hb. pose proof (Hr p) as Hb1. rewrite Hp in Hb1. unfold pbuf_ref, get. rewrite Hp. cbn [obind].
  rewrite u16_small by lia. eexists. split; [done|]. split; [|by eapply mem_ok_put].
  apply (refs_put _ _ b _ roots); [done..|cbn; lia|]. intros q. rewrite occ_cons_root. cbn.
  destruct (decide (q = p)) as [->|Hne]; [rewrite bool_decide_true by done|rewrite bool_decide_false by congruence];
    cbn; lia.
Qed.

(** The walk to the end of a chain: only total lengths change. *)
Lemma cat_loop_ok fuel s p t l roots :
  pinv s roots -> chain (store s) (Some p) l None -> t ∈ roots -> (length l <= fuel)%nat ->
  exists e eb s', cat_loop fuel s p t = Ok (e, s') /\ pinv s' roots /\ store s' !! e = Some eb /\ next eb = None.
Proof.
  revert s p l. induction fuel as [|fuel IH]; intros s p l Hi Hc Ht Hl; destruct l as [|[p0 b] l]; cbn [length] in Hl; try done; try lia.
  pose proof (chain_nodup _ _ _ Hc) as Hnd. cbn in Hnd. apply NoDup_cons in Hnd as [Hpl _].
  destruct Hc as ([= <-] & Hp & Hc). cbn [cat_loop]. unfold get. rewrite Hp. cbn [obind].
  destruct (next b) as [q|] eqn:Hn; [|by eexists _, _, _].
  destruct (pinv_root s t _ Hi Ht) as [tb Htb]. rewrite Htb. cbn [obind].
  apply (IH _ q l); [by eapply pinv_put| |done|lia]. apply pchain_insert; [done|]. done.
Qed.

Lemma pbuf_cat_ok s h t l roots :
  pinv s (t :: roots) -> chain (store s) (Some h) l None ->
  exists s', pbuf_cat s (Some h) (Some t) = Ok s' /\ pinv s' roots.
Proof.
  intros Hi Hc. cbn [pbuf_cat].
  destruct (cat_loop_ok (chain_fuel s) s h t l (t :: roots) Hi Hc) as (e & eb & s1 & -> & Hi1 & He & Hn);
    [by left|pose proof (chain_length _ _ _ Hc); unfold chain_fuel; lia|]. cbn [obind].
  destruct (pinv_root s1 t _ Hi1) as [tb Htb]; [by left|]. unfold get. rewrite He, Htb. cbn [obind].
  eexists. split; [done|]. destruct Hi1 as [Hr Hm]. split; [|by eapply mem_ok_put].
  pose proof (Hr e) as Hre. rewrite He in Hre. apply (refs_put _ _ eb _ (t :: roots)); [done..|cbn; lia|].
  intros q. rewrite occ_cons_root, Hn. cbn. destruct (decide (q = e)); lia.
Qed.

(** The tail stays referenced by the caller: its count must not overflow. *)
Lemma pbuf_chain_ok s h t tb l roots :
  pinv s (t :: roots) -> chain (store s) (Some h) l None -> store s !! t = Some tb -> ref tb < 65535 ->
  exists s', pbuf_chain s (Some h) (Some t) = Ok s' /\ pinv s' (t :: roots).
Proof.
  intros Hi Hc Htb Href. unfold pbuf_chain.
  destruct (pbuf_cat_ok s h t l roots Hi Hc) as (s1 & E & Hi1). rewrite E. cbn [obind].
  pose proof Hi as [Hr _]. pose proof Hi1 as [Hr1 _].
  assert (exists tb1, store s1 !! t = Some tb1 /\ ref tb1 = ref tb) as (tb1 & Ht1 & Hreft).
  { clear Hi1 Hr1. cbn [pbuf_cat] in E.
    assert (Hrel : forall fuel s p e s', cat_loop fuel s p t = Ok (e, s') -> forall b, store s !! t = Some b ->
      exists b', store s' !! t = Some b' /\ ref b' = ref b).
    { induction fuel as [|fuel IH]; intros s0 p e s' Ec b0 Hb0; [done|]. cbn [cat_loop] in Ec. obinv Ec.
      destruct (next a) as [q|]; [|injection Ec as <- <-; by exists b0]. obinv Ec.
      unfold get in *. destruct (store s0 !! p) as [pb|] eqn:Hp; [|done]. injection E0 as ->.
      destruct (decide (p = t)) as [->|Hne].
      - rewrite Hp in Hb0. injection Hb0 as <-.
        destruct (IH _ _ _ _ Ec (set_tot_len a (u16 (tot_len a + tot_len a0)))) as (b' & ? & ?);
          [cbn; by rewrite lookup_insert_eq|]. by exists b'.
      - apply (IH _ _ _ _ Ec b0). cbn. by rewrite lookup_insert_ne. }
    obinv E. destruct a as [e se]. obinv E. injection E as <-.
    destruct (Hrel _ _ _ _ _ E0 _ Htb) as (b' & Hb' & Er). unfold get in *.
    destruct (store se !! e) as [eb|] eqn:He; [|done]. destruct (store se !! t) as [tb'|] eqn:Ht; [|done].
    injection E1 as ->. injection E2 as ->. injection Hb' as ->. cbn. destruct (decide (e = t)) as [->|Hne].
    - rewrite lookup_insert_eq. eexists. split; [done|]. rewrite He in Ht. injection Ht as ->. done.
    - rewrite lookup_insert_ne by done. by exists b'. }
  by apply (pbuf_ref_ok s1 t tb1 roots); [done..|rewrite Hreft].
Qed.

Lemma pbuf_dechain_ok s p b roots :
  pinv s roots -> store s !! p = Some b ->
  exists o s', pbuf_dechain s p = Ok (o, s') /\ pinv s' roots.
Proof.
  intros Hi Hp. unfold pbuf_dechain. unfold get at 1. rewrite Hp. cbn [obind].
  destruct (next b) as [q|] eqn:Hn; [|by eexists _, _].
  destruct (pinv_next s p b q roots Hi Hp Hn) as [qb Hq]. unfold get at 1. rewrite Hq. cbn [obind].
  set (s1 := put s q _). assert (Hi1 : pinv s1 roots) by (by eapply pinv_put).
  assert (exists b1, store s1 !! p = Some b1 /\ next b1 = Some q) as (b1 & Hp1 & Hn1).
  { subst s1. cbn. destruct (decide (q = p)) as [->|Hne].
    - rewrite lookup_insert_eq. eexists. split; [done|]. rewrite Hp in Hq. by injection Hq as <-.
    - rewrite lookup_insert_ne by done. by exists b. }
  unfold get. rewrite Hp1. cbn [obind].
  destruct (pbuf_free_ok (put s1 p (set_tot_len (set_next b1 None) (len b1))) q roots) as (n & s' & -> & Hi' & _).
  - destruct Hi1 as [Hr1 Hm1]. split; [|by eapply mem_ok_put]. pose proof (Hr1 p) as Hb. rewrite Hp1 in Hb.
    apply (refs_put _ _ b1 _ roots); [done..|cbn; lia|]. intros q'. rewrite occ_cons_root, Hn1. cbn.
    destruct (decide (q' = p)); lia.
  - cbn [obind]. by eexists _, _.
Qed.

Lemma pinv_own s p b roots :
  pinv s roots -> store s !! p = Some b -> type b = PBUF_RAM \/ type b = PBUF_POOL ->
  own b /\ zlen (mem_bytes b) <= 65519.
Proof.
  intros [_ (us & free & _ & _ & Hk & _)] Hp Ht. specialize (Hk p b Hp).
  destruct p; cbn in Hk; destruct Hk as (H1 & H2 & H3); [tauto| |tauto].
  destruct Ht; [done|]. by apply H3.
Qed.

(** pbuf_header keeps the payload inside the buffer. *)
Lemma pbuf_header_ok s p b inc roots :
  pinv s roots -> store s !! p = Some b -> - 32768 <= inc < 32768 ->
  (type b = PBUF_REF \/ type b = PBUF_ROM -> payload b <> LNull) ->
  exists r s', pbuf_header s (Some p) inc = Ok (r, s') /\ pinv s' roots.
Proof.
  intros Hi Hp Hinc Hext. pose proof (pinv_own s p b roots Hi Hp) as Hown. cbn [pbuf_header]. destruct (Z.eqb_spec inc 0); [by eexists _, _|].
  unfold get. rewrite Hp. cbn [obind]. rewrite u16_small by (destruct (Z.ltb_spec inc 0); lia).
  destruct ((inc <? 0) && (len b <? (if inc <? 0 then - inc else inc))) eqn:E; [by eexists _, _|].
  assert (Hram : type b = PBUF_RAM \/ type b = PBUF_POOL -> forall o, payload b = LBuf o -> 0 <= o - inc ->
    pinv (put s p (set_tot_len (set_len (set_payload b (LBuf (o - inc))) (u16 (len b + inc))) (u16 (tot_len b + inc)))) roots).
  { intros Ht o Hpay Ho. destruct (Hown Ht) as [Hob Hkind].
    eapply pinv_put; [done|done|done|done|done|done|done|]. intros _ _. unfold own in *. rewrite Hpay in Hob. cbn.
    assert (0 <= len b + inc).
    { destruct (Z.ltb_spec inc 0); cbn in E; [apply Z.ltb_ge in E|]; lia. }
    rewrite u16_small by lia. lia. }
  assert (Href : type b = PBUF_REF \/ type b = PBUF_ROM -> forall pay,
    pinv (put s p (set_tot_len (set_len (set_payload b pay) (u16 (len b + inc))) (u16 (tot_len b + inc)))) roots).
  { intros Ht pay. eapply pinv_put; [done|done|done|done|done|done|done|]. intros [H1|H1]; destruct Ht; congruence. }
  destruct (type b) eqn:Ety.
  - destruct (Hown ltac:(by left)) as [Hob _]. unfold own in Hob. destruct (payload b) as [|o|] eqn:Epay; try done.
    destruct (Z.ltb_spec (o - inc) 0); [by eexists _, _|]. eexists _, _. split; [done|]. apply Hram; auto.
  - destruct ((inc <? 0) && ((if inc <? 0 then - inc else inc) <=? len b)); [|by eexists _, _]. specialize (Hext ltac:(by right)).
    destruct (payload b); [done| |]; (eexists _, _; split; [done|]; apply Href; auto).
  - destruct ((inc <? 0) && ((if inc <? 0 then - inc else inc) <=? len b)); [|by eexists _, _]. specialize (Hext ltac:(by left)).
    destruct (payload b); [done| |]; (eexists _, _; split; [done|]; apply Href; auto).
  - destruct (Hown ltac:(by right)) as [Hob _]. unfold own in Hob. destruct (payload b) as [|o|] eqn:Epay; try done.
    destruct (Z.ltb_spec (o - inc) 0); [by eexists _, _|]. eexists _, _. split; [done|]. apply Hram; auto.
Qed.

(** *** pbuf_realloc *)

Lemma put_comm s p q b1 b2 : p <> q -> put (put s p b1) q b2 = put (put s q b2) p b1.
Proof. intros Hne. unfold put, set_store. cbn. by rewrite insert_insert_ne. Qed.

(** A release does not look at the pbufs outside of the chain. *)
Lemma dealloc_frame s p b q qb s' : p <> q -> dealloc s p b = Ok s' -> dealloc (put s q qb) p b = Ok (put s' q qb).
Proof.
  intros Hne. unfold dealloc. destruct (negb _).
  - intros [= <-]. unfold put, set_store, set_custom. cbn. by rewrite delete_insert_ne.
  - destruct (type b), p as [o|e|c]; try done; cbn [heap pools put set_store];
      (destruct (ram_free _ _) || destruct (memp_free _ _ _)); try done; cbn [obind]; intros [= <-];
      unfold put, set_store, set_heap, set_pools, set_stale; cbn; by rewrite delete_insert_ne.
Qed.

Lemma free_loop_frame fuel s p l c q qb n s' :
  chain (store s) p l None -> q ∉ (fst <$> l) -> free_loop fuel s p c = Ok (n, s') ->
  free_loop fuel (put s q qb) p c = Ok (n, put s' q qb).
Proof.
  revert s p l c. induction fuel as [|fuel IH]; intros s p l c Hc Hq; [done|].
  destruct l as [|[p0 b] l]; cbn in Hc; [subst; by intros [= <- <-]|].
  pose proof (chain_nodup (store s) p ((p0, b) :: l) Hc) as Hnd. cbn in Hnd. apply NoDup_cons in Hnd as [Hp0 _].
  destruct Hc as (-> & Hp & Hc). apply not_elem_of_cons in Hq as [Hne Hq]. cbn [free_loop].
  unfold get. cbn [put set_store store]. rewrite lookup_insert_ne by done. rewrite Hp. cbn [obind].
  change (set_store (set_store s (<[q := qb]> (store s))) (<[p0 := ?b0]> (<[q := qb]> (store s))))
    with (put (put s q qb) p0 b0).
  assert (Hne' : p0 <> q) by (cbn in Hne; congruence).
  destruct (u16 (ref b - 1) =? 0).
  - destruct (dealloc _ p0 _) as [s1| |] eqn:E; cbn [obind]; try done.
    assert (Es1 : store s1 = delete p0 (store s)).
    { clear -E. unfold dealloc in E. destruct (negb _); [injection E as <-; cbn; by rewrite delete_insert_eq|].
      destruct (type _), p0; try done; cbn in E; obinv E; injection E as <-; cbn; by rewrite delete_insert_eq. }
    change (set_store (put s q qb) _) with (put (put s q qb) p0 (set_ref b (u16 (ref b - 1)))).
    rewrite put_comm by done. rewrite (dealloc_frame _ _ _ _ qb _ Hne' E). cbn [obind].
    intros Hf. apply (IH _ _ l); [|done|done]. rewrite Es1. clear -Hc Hp0.
    revert Hc. generalize (next b). induction l as [|[q b'] l IH]; intros p; cbn; [done|].
    apply not_elem_of_cons in Hp0 as [? ?]. intros (-> & Hq & Hc). rewrite lookup_delete_ne by done. auto.
  - intros [= <- <-]. by rewrite put_comm.
Qed.

Lemma realloc_skip_ok fuel s p l rem grow roots :
  pinv s roots -> chain (store s) (Some p) l None -> Forall (fun x => 0 <= len (snd x) <= 65535) l ->
  0 <= rem <= lens l -> rem <= 65535 -> (length l <= fuel)%nat ->
  exists q b rem' l2 s', realloc_skip fuel s p rem grow = Ok (q, rem', s') /\ pinv s' roots /\
    chain (store s') (Some q) ((q, b) :: l2) None /\ 0 <= rem' <= len b.
Proof.
  revert s p l rem. induction fuel as [|fuel IH]; intros s p l rem Hi Hc Hl Hrem Hr16 Hf;
    destruct l as [|[p0 b] l]; cbn [length] in Hf; try done; try lia.
  pose proof (chain_nodup _ _ _ Hc) as Hnd. cbn in Hnd. apply NoDup_cons in Hnd as [Hpl _].
  pose proof Hc as ([= <-] & Hp & Hc'). cbn [realloc_skip]. unfold get. rewrite Hp. cbn [obind].
  apply Forall_cons in Hl as [Hb Hl]. cbn [lens snd] in *.
  destruct (Z.ltb_spec (len b) rem); [|exists p, b, rem, l, s; split_and!; done || lia].
  destruct (next b) as [q|] eqn:Hn.
  2: { destruct l as [|[q ?] l]; [cbn in Hrem; lia|]. by destruct Hc' as (? & _). }
  rewrite (u16_small (rem - len b)) by lia. apply (IH _ q l); [by eapply pinv_put| |done|lia..].
  by apply pchain_insert.
Qed.

(** The rest of the chain is released. *)
Lemma realloc_finish s q b l2 roots :
  pinv s roots -> chain (store s) (Some q) ((q, b) :: l2) None ->
  exists s', (let! s := match next b with
                        | Some n => let! (_, s) := pbuf_free s (Some n) in Ok s
                        | None => Ok s
                        end in
              let! qb := get s q in Ok (put s q (set_next qb None))) = Ok s' /\ pinv s' roots /\
    store s' !! q = Some (set_next b None).
Proof.
  intros Hi Hc. pose proof (chain_nodup _ _ _ Hc) as Hnd. cbn in Hnd. apply NoDup_cons in Hnd as [Hql _].
  destruct Hc as (_ & Hq & Hc). destruct (next b) as [n|] eqn:Hn.
  2: { cbn [obind]. unfold get. rewrite Hq. cbn [obind]. eexists. split; [done|]. split; [|cbn; by rewrite lookup_insert_eq].
       by eapply pinv_put. }
  set (s1 := put s q (set_next b None)).
  assert (Hi1 : pinv s1 (n :: roots)).
  { destruct Hi as [Hr Hm]. split; [|by eapply mem_ok_put]. pose proof (Hr q) as Hb. rewrite Hq in Hb.
    apply (refs_put _ _ b _ roots); [done..|cbn; lia|]. intros q'. rewrite occ_cons_root, Hn. cbn.
    destruct (decide (q' = q)); lia. }
  destruct (pbuf_free_ok s1 n roots Hi1) as (k & s2 & E & Hi2 & _).
  assert (Hc1 : chain (store s1) (Some n) l2 None) by (by apply pchain_insert).
  assert (Hsz : chain_fuel s = chain_fuel s1).
  { unfold chain_fuel, s1. cbn. by rewrite map_size_insert_Some by (by eexists). }
  cbn [pbuf_free] in E. pose proof (free_loop_frame _ _ _ _ _ q b _ _ Hc1 Hql E) as E1.
  pose proof (free_loop_frame _ _ _ _ _ q (set_next b None) _ _ Hc1 Hql E) as E2.
  assert (Eb : put s1 q b = s) by (unfold s1; by rewrite put_put, put_id).
  assert (Eb' : put s1 q (set_next b None) = s1) by (unfold s1; by rewrite put_put).
  rewrite Eb in E1. rewrite Eb', E in E2. injection E2 as E2. cbn [pbuf_free]. rewrite Hsz, E1. cbn [obind]. unfold get. cbn [put set_store store].
  rewrite lookup_insert_eq. cbn [obind]. exists s2. split; [|split; [done|]].
  - f_equal. change (put (put s2 q b) q (set_next b None) = s2). by rewrite put_put, <- E2.
  - rewrite E2. cbn. by rewrite lookup_insert_eq.
Qed.

(** The new last pbuf, with its memory trimmed when it is in RAM. *)
Lemma realloc_trim_ok s q b l2 rem roots :
  pinv s roots -> chain (store s) (Some q) ((q, b) :: l2) None -> 0 <= rem <= len b ->
  exists s', (let! s := if bool_decide (type b = PBUF_RAM) && negb (rem =? len b) then
        match q, payload b with
        | PHeap o, LBuf off =>
            let newsize := u16 (u16 (SIZEOF_STRUCT_PBUF + off) + rem) in
            let! (r, h) := ram_trim (heap s) o newsize in
            let! _ := guard_ub (bool_decide (r = Some o)) in
            Ok (put (set_heap s h) q (set_bytes b (take (Z.to_nat (newsize - SIZEOF_STRUCT_PBUF)) (mem_bytes b))))
        | _, _ => UB
        end
      else Ok s in
    let! qb := get s q in Ok (put s q (set_tot_len (set_len qb rem) rem))) = Ok s' /\
    pinv s' roots /\ exists b', chain (store s') (Some q) ((q, b') :: l2) None /\ next b' = next b /\
      len b' = rem /\ tot_len b' = rem.
Proof.
  intros Hi Hc Hrem. pose proof (chain_nodup _ _ _ Hc) as Hnd. cbn in Hnd. apply NoDup_cons in Hnd as [Hql _].
  pose proof Hc as (_ & Hq & Hc'). pose proof (pinv_own s q b roots Hi Hq) as Hown.
  destruct (bool_decide (type b = PBUF_RAM) && negb (rem =? len b)) eqn:E.
  - apply andb_true_iff in E as [Ht%bool_decide_eq_true _]. destruct (Hown ltac:(by left)) as [Hob Hsz].
    destruct Hi as [Hr (us & free & Hu & Hf & Hk & Hst)]. pose proof (Hk q b Hq) as Hkq.
    destruct q as [o| |]; [|by destruct Hkq|by destruct Hkq as (_ & ? & _)].
    destruct Hkq as (_ & Hcu & _ & n & Hin & Hn). unfold own in Hob. destruct (payload b) as [|off|] eqn:Epay; try done.
    change SIZEOF_STRUCT_PBUF with 16 in *. rewrite (u16_small (16 + off)), u16_small by lia. cbv zeta.
    apply list_elem_of_split in Hin as (u1 & u2 & ->).
    assert (Hperm : Permutation (u1 ++ (o, n) :: u2) ((o, n) :: u1 ++ u2)) by (by rewrite Permutation_middle).
    pose proof (ram_trim_ok _ _ _ o n (16 + off + rem) Hu Hperm ltac:(lia)) as ([r h] & -> & Er & n' & Hn' & Hu')%wp_ok.
    cbn [fst snd] in *. subst r. cbn [obind]. rewrite bool_decide_true by done. cbn [guard_ub obind].
    unfold get. cbn [put set_store set_heap store]. rewrite lookup_insert_eq. cbn [obind].
    eexists. split; [done|]. set (b' := set_tot_len _ _).
    assert (Hb' : zlen (mem_bytes b') = off + rem).
    { subst b'. cbn. unfold zlen in *. rewrite length_take. lia. }
    split; [split|].
    + cbn. rewrite insert_insert_eq. pose proof (Hr (PHeap o)) as Hrq. rewrite Hq in Hrq.
      apply (refs_put _ _ b _ roots); [done..|cbn; lia|]. intros q'. cbn. destruct (decide _); lia.
    + exists ((o, n') :: u1 ++ u2), free. split_and!; try done. intros q' b0. cbn. rewrite insert_insert_eq, lookup_insert_Some.
      intros [[<- <-]|[Hne Hq']].
      * unfold kind_ok, own. rewrite Hb'. change SIZEOF_STRUCT_PBUF with 16. cbn. rewrite Epay.
        split_and!; try done; try lia. exists n'. split; [left|lia].
      * specialize (Hk q' b0 Hq'). destruct q' as [o'| |]; [|done..]. destruct Hk as (? & ? & ? & n0 & Hin & ?).
        split_and!; [tauto..|]. exists n0. split; [|done]. rewrite Hperm in Hin.
        apply elem_of_cons in Hin as [[= -> ->]|?]; [done|by right].
    + exists b'. cbn. rewrite lookup_insert_eq, insert_insert_eq. split_and!; try done. by apply pchain_insert.
  - cbn [obind]. unfold get. rewrite Hq. cbn [obind]. eexists. split; [done|]. split.
    + eapply pinv_put; [done|done|done|done|done|done|done|]. intros _. unfold own. cbn. destruct (payload b); try done. lia.
    + eexists. cbn. rewrite lookup_insert_eq. split_and!; try done. by apply pchain_insert.
Qed.

Lemma pbuf_realloc_ok s p l n roots :
  pinv s roots -> chain (store s) (Some p) l None -> tots l 0 -> Forall (fun x => 0 <= len (snd x) <= 65535) l ->
  0 <= n <= 65535 -> exists s', pbuf_realloc s p n = Ok s' /\ pinv s' roots.
Proof.
  intros Hi Hc Ht Hl Hn. unfold pbuf_realloc. destruct l as [|[p0 b0] l]; [done|].
  pose proof Hc as ([= <-] & Hp & _). unfold get at 1. rewrite Hp. cbn [obind].
  destruct (Z.leb_spec (tot_len b0) n); [by eexists|].
  destruct Ht as [Ht _].
  destruct (realloc_skip_ok (chain_fuel s) s p ((p, b0) :: l) n (n - tot_len b0) roots)
    as (q & b & rem & l2 & s1 & -> & Hi1 & Hc1 & Hrem); [done|done|done|cbn; lia|lia|
      pose proof (chain_length _ _ _ Hc); unfold chain_fuel; lia|].
  cbn [obind]. unfold get at 1. pose proof Hc1 as (_ & Hq & _). rewrite Hq. cbn [obind].
  destruct (realloc_trim_ok s1 q b l2 rem roots Hi1 Hc1 Hrem) as (s2 & E & Hi2 & b' & Hc2 & Hn2 & _).
  match type of E with obind ?m _ = _ => destruct m as [s1'| |]; cbn [obind] in *; [|done..] end.
  destruct (get s1' q) as [qb| |] eqn:Eq; cbn [obind] in *; [|done..]. injection E as <-.
  assert (next b' = next qb) as Hnq.
  { destruct Hc2 as (_ & Hb' & _). cbn in Hb'. rewrite lookup_insert_eq in Hb'. by injection Hb' as <-. }
  rewrite <- Hnq. destruct (realloc_finish _ q b' l2 roots Hi2 Hc2) as (s3 & E3 & Hi3 & _).
  exists s3. split; [exact E3|done].
Qed.

(** ** Sequences of calls

    The calls a client makes, with what it must respect: it frees and hands
    over only references it owns, and lengths stay below the bound at which
    the size computation of pbuf_alloc wraps. *)

Inductive pcall : Type :=
  | Calloc (l : pbuf_layer) (n : Z) (t : pbuf_type)
  | Ccustom (l : pbuf_layer) (n : Z) (t : pbuf_type) (id : Z) (mem : option Z) (mem_len : Z)
  | Cref (p : pptr)
  | Cfree (p : pptr)
  | Ccat (h t : pptr)
  | Cchain (h t : pptr)
  | Cdechain (p : pptr)
  | Cheader (p : pptr) (inc : Z)
  | Crealloc (p : pptr) (n : Z)
  | Csetpayload (p : pptr) (l : loc).

Definition no_ptr (m : outcome pstate) : outcome (option pptr * pstate) := let! s := m in Ok (None, s).

(** The pointer a call returns to its caller as a new reference. *)
Definition run (c : pcall) (s : pstate) : outcome (option pptr * pstate) :=
  match c with
  | Calloc l n t => pbuf_alloc s l n t
  | Ccustom l n t id mem k => Ok (pbuf_alloced_custom s l n t id mem k)
  | Cref p => no_ptr (pbuf_ref s (Some p))
  | Cfree p => let! (_, s) := pbuf_free s (Some p) in Ok (None, s)
  | Ccat h t => no_ptr (pbuf_cat s (Some h) (Some t))
  | Cchain h t => no_ptr (pbuf_chain s (Some h) (Some t))
  | Cdechain p => let! (_, s) := pbuf_dechain s p in Ok (None, s)
  | Cheader p inc => let! (_, s) := pbuf_header s (Some p) inc in Ok (None, s)
  | Crealloc p n => no_ptr (pbuf_realloc s p n)
  | Csetpayload p l => let! b := get s p in Ok (None, put s p (set_payload b l))
  end.

Fixpoint remove1 (p : pptr) (l : list pptr) : list pptr :=
  match l with
  | [] => []
  | q :: r => if bool_decide (q = p) then r else q :: remove1 p r
  end.

Definition roots_after (c : pcall) (r : option pptr) (roots : list pptr) : list pptr :=
  match c with
  | Calloc _ _ _ | Ccustom _ _ _ _ _ _ => olist r ++ roots
  | Cref p => p :: roots
  | Cfree p => remove1 p roots
  | Ccat _ t => remove1 t roots
  | _ => roots
  end.

Definition is_chain (s : pstate) (p : pptr) : Prop := exists l, chain (store s) (Some p) l None.

Definition allowed (s : pstate) (roots : list pptr) (c : pcall) : Prop :=
  match c with
  | Calloc _ n _ => 0 <= n <= 65460
  | Ccustom _ n t id _ _ => store s !! PCust id = None /\ (t = PBUF_ROM \/ t = PBUF_REF)
  | Cref p => exists b, store s !! p = Some b /\ ref b < 65535
  | Cfree p => p ∈ roots
  | Ccat h t => t ∈ roots /\ is_chain s h
  | Cchain h t => t ∈ roots /\ is_chain s h /\ exists b, store s !! t = Some b /\ ref b < 65535
  | Cdechain p => is_Some (store s !! p)
  | Cheader p inc => - 32768 <= inc < 32768 /\ exists b, store s !! p = Some b /\
      (type b = PBUF_REF \/ type b = PBUF_ROM -> payload b <> LNull)
  | Crealloc p n => 0 <= n <= 65535 /\ exists l, chain (store s) (Some p) l None /\ tots l 0 /\
      Forall (fun x => 0 <= len (snd x) <= 65535) l
  | Csetpayload p _ => exists b, store s !! p = Some b /\ (type b = PBUF_ROM \/ type b = PBUF_REF)
  end.

Inductive calls : pstate -> list pptr -> list pcall -> pstate -> list pptr -> Prop :=
  | calls_nil s roots : calls s roots [] s roots
  | calls_cons s roots c r s1 cs s2 roots2 :
      allowed s roots c -> run c s = Ok (r, s1) -> calls s1 (roots_after c r roots) cs s2 roots2 ->
      calls s roots (c :: cs) s2 roots2.

Lemma occ_remove1 p q l : p ∈ l -> occ q (p :: remove1 p l) = occ q l.
Proof.
  induction l as [|r l IH]; [by intros ?%elem_of_nil|]. intros [->|Hp]%elem_of_cons; cbn.
  - by rewrite (bool_decide_true (r = r)).
  - destruct (decide (r = p)) as [->|Hne]; [by rewrite (bool_decide_true (p = p))|].
    rewrite (bool_decide_false (r = p)) by done. specialize (IH Hp). cbn in *. lia.
Qed.

Lemma pinv_roots s roots roots' : (forall q, occ q roots' = occ q roots) -> pinv s roots -> pinv s roots'.
Proof. intros Ho [Hr Hm]. split; [|done]. intros q. specialize (Hr q). rewrite Ho. exact Hr. Qed.

Lemma pinv_take_root s roots t : t ∈ roots -> pinv s roots -> pinv s (t :: remove1 t roots).
Proof. intros Ht. apply pinv_roots. intros q. by apply occ_remove1. Qed.

Lemma custom_ok s l n t id mem k roots :
  pinv s roots -> store s !! PCust id = None -> t = PBUF_ROM \/ t = PBUF_REF ->
  let '(r, s') := pbuf_alloced_custom s l n t id mem k in pinv s' (olist r ++ roots).
Proof.
  intros [Hr (us & free & Hu & Hf & Hk & Hst)] Hid Ht. unfold pbuf_alloced_custom.
  destruct (k <? _); [by split; [|exists us, free]|]. split.
  - by apply refs_new.
  - exists us, free. split_and!; try done. intros q b. cbn. rewrite lookup_insert_Some.
    intros [[<- <-]|[_ Hq]]; [|by apply Hk]. cbn. by destruct Ht as [-> | ->].
Qed.

(** A call the client may make is defined and keeps the invariant. *)
Lemma run_ok c s roots :
  pinv s roots -> allowed s roots c -> exists r s', run c s = Ok (r, s') /\ pinv s' (roots_after c r roots).
Proof.
  intros Hi Ha. destruct c; cbn [allowed run roots_after no_ptr] in *.
  - assert (exists q s', pbuf_alloc s l n t = Ok (q, s') /\ ext s' = ext s /\
      match q with Some p => pinv s' (p :: roots) /\ allocated s s' p t n | None => pinv s' roots end)
      as (q & s' & E & _ & Hq).
    { destruct t; [apply alloc_ram_ok|apply alloc_ref_ok|apply alloc_ref_ok|apply alloc_pool_ok]; auto; lia. }
    exists q, s'. split; [done|]. by destruct q as [p|]; [destruct Hq|].
  - destruct Ha as [Hid Ht]. pose proof (custom_ok s l n t id mem mem_len roots Hi Hid Ht) as Hc.
    destruct (pbuf_alloced_custom _ _ _ _ _ _ _) as [r s']. by exists r, s'.
  - destruct Ha as (b & Hp & Hb). destruct (pbuf_ref_ok s p b roots Hi Hp Hb) as (s' & -> & Hi').
    by exists None, s'.
  - destruct (pbuf_free_ok s p (remove1 p roots)) as (n & s' & -> & Hi' & _); [by apply pinv_take_root|].
    by exists None, s'.
  - destruct Ha as [Ht [l Hc]].
    destruct (pbuf_cat_ok s h t l (remove1 t roots)) as (s' & -> & Hi'); [by apply pinv_take_root|done|].
    by exists None, s'.
  - destruct Ha as (Ht & [l Hc] & b & Hb & Hr).
    destruct (pbuf_chain_ok s h t b l (remove1 t roots)) as (s' & -> & Hi'); [by apply pinv_take_root|done..|].
    exists None, s'. split; [done|]. apply (pinv_roots s' (t :: remove1 t roots)); [|done].
    intros q. symmetry. by apply occ_remove1.
  - destruct Ha as [b Hb]. destruct (pbuf_dechain_ok s p b roots Hi Hb) as (o & s' & -> & Hi'). by exists None, s'.
  - destruct Ha as (Hinc & b & Hb & Hext).
    destruct (pbuf_header_ok s p b inc roots Hi Hb Hinc Hext) as (r & s' & E & Hi'). rewrite E. by exists None, s'.
  - destruct Ha as (Hn & l & Hc & Ht & Hl).
    destruct (pbuf_realloc_ok s p l n roots Hi Hc Ht Hl Hn) as (s' & E & Hi'). rewrite E. by exists None, s'.
  - destruct Ha as (b & Hb & Ht). unfold get. rewrite Hb. cbn [obind]. eexists _, _. split; [done|].
    eapply pinv_put; [done|done|done|done|done|done|done|]. intros [?|?]; destruct Ht; congruence.
Qed.

(** C32: reference counts are exact. After any sequence of calls of the
    pbuf interface in which clients free or hand over only references they
    own, every pbuf in use has as many references (of clients and next
    pointers) as its count says and at least one, no pointer refers to a
    released pbuf, every pbuf owns its memory in the heap or in its pool and
    its payload lies in it; and every further call of that kind is defined:
    no access to released memory, no loop that does not end. The clients also
    keep to these bounds ([allowed]): pbuf_alloc with at most 65460 bytes
    (beyond, the size wraps: [pbuf_alloc_wraps]); a custom pbuf of type ROM
    or REF whose structure is not in use; no further reference to a pbuf that
    has 65535; pbuf_header by a 16-bit amount, on ROM and REF only with a
    payload; pbuf_realloc only on a chain whose tot_len fields agree with its
    lengths; payloads are set only in ROM and REF pbufs. *)
Theorem pbuf_calls_exact (s s' : pstate) (roots roots' : list pptr) (cs : list pcall) :
  refs_ok (store s) roots -> mem_ok s -> calls s roots cs s' roots' ->
  refs_ok (store s') roots' /\ mem_ok s' /\
  forall c, allowed s' roots' c -> exists r s'', run c s' = Ok (r, s'').
Proof.
  intros Hr Hm Hc. assert (Hi : pinv s' roots') by
    (assert (Hi : pinv s roots) by (by split); clear Hr Hm; induction Hc as [|??????? ? Ha E _ IH]; [done|];
     apply IH; destruct (run_ok c s roots Hi Ha) as (r0 & s0 & E0 & Hi0); rewrite E in E0; by injection E0 as <- <-).
  destruct Hi as [Hr' Hm']. split; [done|]. split; [done|]. intros c Ha.
  destruct (run_ok c s' roots' ltac:(by split) Ha) as (r & s'' & E & _). by exists r, s''.
Qed.

(** pbuf_take fills a packet that pbuf_alloc has returned. *)
Lemma pbuf_take_fills (s s1 : pstate) (p : pptr) (t : pbuf_type) (n : Z) (data : list mbyte) l :
  chain (store s1) (Some p) l None -> tots l 0 -> lens l = n ->
  Forall (fun x => (store s !! fst x = None /\ blank (snd x)) /\ (t = PBUF_RAM \/ t = PBUF_POOL -> own (snd x))) l ->
  t = PBUF_RAM \/ t = PBUF_POOL -> 0 <= n <= 65535 -> n <= zlen data ->
  exists s2 l', pbuf_take s1 (Some p) (Some data) n = Ok (ERR_OK, s2) /\ chain (store s2) (Some p) l' None /\ same_shape l l' /\
    contents l' = take (Z.to_nat n) data /\ forall roots, pinv s1 roots -> pinv s2 roots.
Proof.
  intros Hc Hts Hl Hf Ht Hn Hd.
  assert (Ho : Forall (fun x => own (snd x)) l) by (eapply Forall_impl; [exact Hf|]; intros x [_ Hx]; auto).
  destruct l as [|[p0 b] l]; [done|]. pose proof Hc as ([= <-] & Hp & _). pose proof Hts as [Htot _].
  cbn [lens] in Hl. cbn [pbuf_take]. unfold get. rewrite Hp. cbn [obind]. destruct (Z.ltb_spec (tot_len b) n); [lia|].
  destruct (take_loop_ok (S (chain_fuel s1)) s1 (Some p) ((p, b) :: l) data n 0 Hc Ho)
    as (s2 & l' & -> & Hc' & Hsh & Hcon & _ & HP); [cbn; lia|done|lia|lia|
      pose proof (chain_length _ _ _ Hc); unfold chain_fuel; lia|].
  cbn [obind]. exists s2, l'. split; [done|]. split; [done|]. split; [done|]. split.
  - rewrite Hcon. change (Z.to_nat 0) with 0%nat. rewrite drop_0.
    destruct (contents_len _ Ho) as [Hcl _]. cbn [lens] in Hcl. unfold zlen in *.
    rewrite (drop_ge (contents _)), app_nil_r by lia. done.
  - intros roots. apply (HP (fun s => pinv s roots)). intros s0 q qb mb Hi Hq _ Hob Hz.
    eapply pinv_put; [exact Hi|exact Hq|done..|cbn; lia|done].
Qed.

(** What is put into a packet buffer is what comes out: for a pbuf of
    type PBUF_RAM or PBUF_POOL (a chain of pool buffers when it is longer
    than one) that pbuf_alloc has returned for [n] bytes, pbuf_take stores
    any [n] bytes, and pbuf_copy_partial then reads any part of them, as
    many bytes as there are from the offset on, into the buffer of the
    application, which it changes nowhere else. *)
Theorem pbuf_take_copy (s s1 : pstate) (roots : list pptr) (layer : pbuf_layer) (n : Z) (t : pbuf_type) (p : pptr)
    (data : list mbyte) :
  pinv s roots -> 0 <= n <= 65460 -> t = PBUF_RAM \/ t = PBUF_POOL -> zlen data = n ->
  pbuf_alloc s layer n t = Ok (Some p, s1) ->
  exists s2, pbuf_take s1 (Some p) (Some data) n = Ok (ERR_OK, s2) /\
    forall off k dst, 0 <= off <= 65535 -> 0 <= k <= zlen dst -> k <= 65535 ->
      let d := take (Z.to_nat k) (drop (Z.to_nat off) data) in
      pbuf_copy_partial s2 (Some p) (Some dst) k off = Ok (zlen d, Some (d ++ drop (length d) dst)).
Proof.
  intros Hi Hn Ht Hd E.
  assert (allocated s s1 p t n) as (_ & l & Hc & Hts & Hl & Hf).
  { assert (exists q s', pbuf_alloc s layer n t = Ok (q, s') /\ ext s' = ext s /\
      match q with Some p => pinv s' (p :: roots) /\ allocated s s' p t n | None => pinv s' roots end)
      as (q & s' & E' & _ & Hq) by (destruct Ht as [-> | ->]; [apply alloc_ram_ok|apply alloc_pool_ok]; done || lia).
    rewrite E in E'. injection E' as <- <-. tauto. }
  destruct (pbuf_take_fills s s1 p t n data l Hc Hts Hl Hf Ht ltac:(lia) ltac:(lia))
    as (s2 & l' & -> & Hc' & Hsh & Econ & _). rewrite take_ge in Econ by (unfold zlen in *; lia). exists s2. split; [done|]. intros off k dst Hoff Hk Hk16.
  set (d := take (Z.to_nat k) (drop (Z.to_nat off) data)).
  destruct (same_shape_lens _ _ Hsh) as (Hl' & _ & Ho').
  cbn [pbuf_copy_partial].
  rewrite (copy_partial_loop_ok (S (chain_fuel s2)) s2 (Some p) l' dst 0 k off 0 Hc' Ho'); rewrite ?Econ; fold d; try done; try lia.
  - pose proof (chain_length _ _ _ Hc'). unfold chain_fuel. lia.
  - unfold d, zlen in *. rewrite length_take. lia.
Qed.

End Pbuf.

(** ** A concrete instance: the heap of mem.c, two pbufs without and three
    with a buffer *)

Definition demo_num : list Z := [2; 3].
Definition demo_sizes : list Z := [16; 516].
Definition demo_pools : memp_state :=
  match memp_init demo_num demo_sizes (memp_boot demo_num) with Ok m => m | _ => memp_boot demo_num end.
Definition demo : pstate (H := memheap) := PState ∅ (mem_init (MemHeap ∅ 0)) demo_pools ∅ ∅ [].

Lemma demo_ok : refs_ok (store demo) [] /\ mem_ok demo_num demo.
Proof.
  split; [by intros p|]. exists [], (pools_at demo_num demo_sizes 0). split; [apply mem_init_used|]. split; [|done].
  destruct (memp_init_pools demo_num demo_sizes eq_refl) as (m & E & Hm); [by repeat constructor|].
  cbn [pools demo]. unfold demo_pools. by rewrite E.
Qed.

Abbreviation demo_run := (run demo_num 0 1).

(** A packet of 700 bytes (two pool buffers), a second reference to it, a
    header in front, a shorter copy, both references dropped. *)
Definition demo_calls : list pcall :=
  [Calloc PBUF_TRANSPORT 700 PBUF_POOL; Cref (PMemp 1064); Cheader (PMemp 1064) 20; Crealloc (PMemp 1064) 300;
   Cfree (PMemp 1064); Cfree (PMemp 1064)].

Definition demo_final : pstate :=
  Eval vm_compute in
  (fix go (cs : list pcall) (s : pstate) : pstate :=
     match cs with
     | [] => s
     | c :: cs => match demo_run c s with Ok (_, s) => go cs s | _ => s end
     end) demo_calls demo.

Lemma pbuf_calls_exact_witness :
  refs_ok (store demo_final) [] /\ mem_ok demo_num demo_final /\
  forall c, allowed demo_final [] c -> exists r s'', demo_run c demo_final = Ok (r, s'').
Proof.
  destruct demo_ok as [Hr Hm].
  apply (pbuf_calls_exact demo_num 0 1 (conj (Z.le_0_1) eq_refl) (conj (Z.le_refl 0) eq_refl) demo demo_final [] [] demo_calls Hr Hm).
  repeat (eapply calls_cons; [|vm_compute; reflexivity|]); [| | | | | |apply calls_nil].
  - cbn. lia.
  - eexists. split; [vm_compute; reflexivity|done].
  - split; [lia|]. eexists. split; [vm_compute; reflexivity|]. by intros [?|?].
  - split; [lia|]. eexists [(_, _); (_, _)]. split; [|split].
    + repeat split; vm_compute; reflexivity.
    + repeat split; vm_compute; reflexivity.
    + repeat constructor; vm_compute; discriminate.
  - left.
  - left.
Defined.

Definition demo_bytes : list mbyte := (fun i => Some (Z.of_nat i)) <$> seq 0 200.

Lemma pbuf_take_copy_witness :
  exists s2, pbuf_take (match pbuf_alloc demo_num 0 1 demo PBUF_RAW 200 PBUF_RAM with Ok (_, s) => s | _ => demo end)
      (Some (PHeap 8)) (Some demo_bytes) 200 = Ok (ERR_OK, s2) /\
    forall off k dst, 0 <= off <= 65535 -> 0 <= k <= zlen dst -> k <= 65535 ->
      let d := take (Z.to_nat k) (drop (Z.to_nat off) demo_bytes) in
      pbuf_copy_partial s2 (Some (PHeap 8)) (Some dst) k off = Ok (zlen d, Some (d ++ drop (length d) dst)).
Proof.
  apply (pbuf_take_copy demo_num 0 1 (conj (Z.le_0_1) eq_refl) (conj (Z.le_refl 0) eq_refl) demo _ [] PBUF_RAW 200 PBUF_RAM).
  - exact demo_ok.
  - lia.
  - by left.
  - reflexivity.
  - vm_compute. reflexivity.
Defined.

(** A packet "aab" in one pbuf. *)
Definition aab : list Z := [97; 97; 98].
Definition demo_aab : pstate :=
  Eval vm_compute in
  match pbuf_alloc demo_num 0 1 demo PBUF_RAW 3 PBUF_RAM with
  | Ok (Some p, s) => match pbuf_take s (Some p) (Some (Some <$> aab)) 3 with Ok (_, s) => s | _ => demo end
  | _ => demo
  end.

Lemma demo_aab_holds : holds demo_aab (Some (PHeap 8)) aab.
Proof.
  eexists [(_, _)]. split; [|split].
  - repeat split; vm_compute; reflexivity.
  - repeat constructor; vm_compute; discriminate.
  - vm_compute. reflexivity.
Qed.

Lemma pbuf_memfind_sound_witness :
  exists r, pbuf_memfind demo_aab (PHeap 8) [98] 1 0 = Ok r /\
    (r = 65535 \/ 0 <= r <= zlen aab - 1 /\ take (Z.to_nat 1) (drop (Z.to_nat r) aab) = take (Z.to_nat 1) [98]).
Proof.
  eapply (pbuf_memfind_sound demo_aab (PHeap 8) aab [98] 1 0); [exact demo_aab_holds|vm_compute; reflexivity|
    vm_compute; reflexivity|vm_compute; discriminate|vm_compute; by split|lia].
Defined.

(** The index is advanced by what pbuf_memcmp returns, one more than the
    matching prefix: "ab" is not found in "aab". *)
Lemma pbuf_memfind_misses :
  pbuf_strstr demo_aab (PHeap 8) (Some [97; 98; 0]) = Ok 65535 /\ take 2 (drop 1 aab) = [97; 98].
Proof. split; [by vm_compute|done]. Qed.

(** The size of a PBUF_RAM block is computed in a u16_t: a request for 65480
    bytes gets a block for none, and filling it leaves the block. *)
Lemma pbuf_alloc_wraps :
  exists p s b, pbuf_alloc demo_num 0 1 demo PBUF_TRANSPORT 65480 PBUF_RAM = Ok (Some p, s) /\
    store s !! p = Some b /\ len b = 65480 /\ mem_bytes b = [] /\
    pbuf_take s (Some p) (Some [Some 0]) 1 = UB.
Proof. eexists _, _, _. split; [vm_compute; reflexivity|]. split; [vm_compute; reflexivity|]. by vm_compute. Qed.

(** With NULL, pbuf_take reports success. *)
Lemma pbuf_take_null (s : pstate (H := memheap)) data n : pbuf_take s None data n = Ok (ERR_OK, s).
Proof. done. Qed.
