(* ===== verification/Checksum.v ===== *)
(** * The internet checksum: lwip_v1.3.2/src/core/ipv4/inet_chksum.c, def.c

    The three algorithms a port can select with LWIP_CHKSUM_ALGORITHM
    (2 is the one compiled), the checksum of a memory area, of a chain of
    pbufs, and with the pseudo header of UDP and TCP. The processor is little
    endian, LWIP_PLATFORM_BYTESWAP is 0. The reference is RFC 1071: the
    complement of the one's complement sum of the 16-bit words in network
    byte order.

    A [dataptr] is the address (of which the algorithms test the alignment)
    and the list of the bytes from there on; a read past the list is [UB]. *)

From S2P Require Import Prelude Mem Memp Pbuf.
From stdpp Require Import gmap.
#[local] Open Scope Z_scope.

(** ** Byte order: def.c, inet_chksum.h *)

Definition lwip_htons (n : Z) : Z :=
  u16 (Z.lor (Z.shiftl (Z.land n 255) 8) (Z.shiftr (Z.land n 65280) 8)).

Definition SWAP_BYTES_IN_WORD (w : Z) : Z := Z.lor (Z.shiftl (Z.land w 255) 8) (Z.shiftr (Z.land w 65280) 8).

Definition FOLD_U32T (u : Z) : Z := u32 (Z.shiftr u 16 + Z.land u 65535).

(** ** The three algorithms *)

(** while (len > 1) { sum += *ps++; len -= 2; } *)
Fixpoint sum_words (ps : list Z) (len sum : Z) : outcome (list Z * Z * Z) :=
  if len <=? 1 then Ok (ps, len, sum)
  else match ps with
       | b0 :: b1 :: ps => sum_words ps (len - 2) (u32 (sum + (b0 + 256 * b1)))
       | _ => UB
       end.

(** The byte at the end of an odd length, into the low byte of t. *)
Definition left_over (ps : list Z) (len t : Z) : outcome Z :=
  if len <=? 0 then Ok t else match ps with b0 :: _ => Ok (t + b0) | [] => UB end.

(** The byte before an aligned address, into the high byte of t. *)
Definition align16 (odd : bool) (pb : list Z) (len : Z) : outcome (list Z * Z * Z) :=
  if odd && (0 <? len)
  then match pb with b0 :: pb => Ok (pb, len - 1, 256 * b0) | [] => UB end
  else Ok (pb, len, 0).

Definition lwip_standard_chksum (addr : Z) (dataptr : list Z) (len : Z) : outcome Z :=
  let odd := negb (Z.land addr 1 =? 0) in
  let! (ps, len, t) := align16 odd dataptr len in
  let! (ps, len, sum) := sum_words ps len 0 in
  let! t := left_over ps len t in
  let sum := u32 (sum + t) in
  let sum := FOLD_U32T sum in
  let sum := FOLD_U32T sum in
  let sum := if odd then SWAP_BYTES_IN_WORD sum else sum in
  Ok (u16 sum).

Fixpoint sum_octets (octetptr : list Z) (len acc : Z) : outcome Z :=
  if len <=? 0 then Ok acc
  else match octetptr with
       | b0 :: l =>
           let src := Z.shiftl b0 8 in
           if len <=? 1 then Ok (u32 (acc + src))
           else match l with
                | b1 :: l => sum_octets l (len - 2) (u32 (acc + Z.lor src b1))
                | [] => UB
                end
       | [] => UB
       end.

Definition lwip_standard_chksum_1 (dataptr : list Z) (len : Z) : outcome Z :=
  let! acc := sum_octets dataptr len 0 in
  let acc := FOLD_U32T acc in
  let acc := if Z.land acc 4294901760 =? 0 then acc else FOLD_U32T acc in
  Ok (lwip_htons (u16 acc)).

(** One 32-bit word with the carry added back. *)
Definition add_carry (sum w : Z) : Z :=
  let tmp := u32 (sum + w) in if tmp <? sum then u32 (tmp + 1) else tmp.

(** while (len > 7) { ping; pong; len -= 8; } *)
Fixpoint sum_longs (pl : list Z) (len sum : Z) : outcome (list Z * Z * Z) :=
  if len <=? 7 then Ok (pl, len, sum)
  else match pl with
       | a0 :: a1 :: a2 :: a3 :: b0 :: b1 :: b2 :: b3 :: pl =>
           sum_longs pl (len - 8)
             (add_carry (add_carry sum (a0 + 256 * a1 + 65536 * a2 + 16777216 * a3))
                (b0 + 256 * b1 + 65536 * b2 + 16777216 * b3))
       | _ => UB
       end.

Definition lwip_standard_chksum_3 (addr : Z) (dataptr : list Z) (len : Z) : outcome Z :=
  let odd := negb (Z.land addr 1 =? 0) in
  let! (ps, len', t) := align16 odd dataptr len in
  let addr := addr + (len - len') in
  let! (ps, len, sum) :=
    if negb (Z.land addr 3 =? 0) && (1 <? len')
    then match ps with b0 :: b1 :: ps => Ok (ps, len' - 2, b0 + 256 * b1) | _ => UB end
    else Ok (ps, len', 0) in
  let! (pl, len, sum) := sum_longs ps len sum in
  let sum := FOLD_U32T sum in
  let! (ps, len, sum) := sum_words pl len sum in
  let! t := left_over ps len t in
  let sum := u32 (sum + t) in
  let sum := FOLD_U32T sum in
  let sum := FOLD_U32T sum in
  let sum := if odd then SWAP_BYTES_IN_WORD sum else sum in
  Ok (u16 sum).

Definition inet_chksum (addr : Z) (dataptr : list Z) (len : Z) : outcome Z :=
  let! c := lwip_standard_chksum addr dataptr len in Ok (u16 (Z.lnot c)).

(** ** Chains of pbufs *)

(** The bytes of a payload, all of them written. *)
Fixpoint known (l : list mbyte) : outcome (list Z) :=
  match l with
  | [] => Ok []
  | Some v :: l => let! r := known l in Ok (v :: r)
  | None :: _ => UB
  end.

Section Chains.
(** [addr_of p b] is the address of the payload of the pbuf [b] at [p]. *)
Context {H : Type} `{!RamHeap H} (addr_of : pptr -> pbuf -> Z).
Implicit Types (s : pstate (H := H)).

Definition payload_bytes s (q : pbuf) (n : Z) : outcome (list Z) :=
  let! bs := read_payload s q 0 n in known bs.

(** One round of the loops over the chain: the sum of [n] bytes of the pbuf
    is added and folded; after an odd [q->len] the sum is swapped. *)
Definition chain_round s (p : pptr) (q : pbuf) (n acc swapped : Z) : outcome (Z * Z) :=
  let! data := payload_bytes s q n in
  let! c := lwip_standard_chksum (addr_of p q) data n in
  let acc := FOLD_U32T (u32 (acc + c)) in
  Ok (if len q mod 2 =? 0 then (acc, swapped) else (SWAP_BYTES_IN_WORD acc, 1 - swapped)).

Fixpoint chain_sum (fuel : nat) s (q : option pptr) (acc swapped : Z) : outcome (Z * Z) :=
  match fuel with
  | O => NoFuel
  | S fuel =>
      match q with
      | None => Ok (acc, swapped)
      | Some p =>
          let! b := get s p in
          let! (acc, swapped) := chain_round s p b (len b) acc swapped in
          chain_sum fuel s (next b) acc swapped
      end
  end.

Definition unswap (acc swapped : Z) : Z := if swapped =? 0 then acc else SWAP_BYTES_IN_WORD acc.

Definition inet_chksum_pbuf s (p : option pptr) : outcome Z :=
  let! (acc, swapped) := chain_sum (S (chain_fuel s)) s p 0 0 in
  Ok (u16 (Z.lnot (Z.land (unswap acc swapped) 65535))).

(** What inet_chksum_pseudo and inet_chksum_pseudo_partial do after the loop:
    the addresses (as they lie in the header), the protocol, the length. *)
Definition pseudo_finish (acc swapped src dest proto proto_len : Z) : Z :=
  let acc := unswap acc swapped in
  let acc := u32 (acc + Z.land src 65535) in
  let acc := u32 (acc + Z.land (Z.shiftr src 16) 65535) in
  let acc := u32 (acc + Z.land dest 65535) in
  let acc := u32 (acc + Z.land (Z.shiftr dest 16) 65535) in
  let acc := u32 (acc + lwip_htons (u16 proto)) in
  let acc := u32 (acc + lwip_htons proto_len) in
  let acc := FOLD_U32T acc in
  let acc := FOLD_U32T acc in
  u16 (Z.lnot (Z.land acc 65535)).

Definition inet_chksum_pseudo s (p : option pptr) (src dest proto proto_len : Z) : outcome Z :=
  let! (acc, swapped) := chain_sum (S (chain_fuel s)) s p 0 0 in
  Ok (pseudo_finish acc swapped src dest proto proto_len).

(** The loop asserts that fewer than 0x7fff bytes are left after each buffer
    (LWIP_ASSERT "delete me"); a failed assertion is [UB]. *)
Fixpoint partial_sum (fuel : nat) s (q : option pptr) (chksum_len acc swapped : Z) : outcome (Z * Z) :=
  match fuel with
  | O => NoFuel
  | S fuel =>
      match q with
      | None => Ok (acc, swapped)
      | Some p =>
          if 0 <? chksum_len
          then let! b := get s p in
               let chklen := if chksum_len <? len b then chksum_len else len b in
               let! (acc, swapped) := chain_round s p b chklen acc swapped in
               let chksum_len := u16 (chksum_len - chklen) in
               if chksum_len <? 0x7fff then partial_sum fuel s (next b) chksum_len acc swapped else UB
          else Ok (acc, swapped)
      end
  end.

Definition inet_chksum_pseudo_partial s (p : option pptr) (src dest proto proto_len chksum_len : Z) : outcome Z :=
  let! (acc, swapped) := partial_sum (S (chain_fuel s)) s p chksum_len 0 0 in
  Ok (pseudo_finish acc swapped src dest proto proto_len).
End Chains.

(** ** RFC 1071 *)

Definition oc_add (x y : Z) : Z := Z.land (x + y) 65535 + Z.shiftr (x + y) 16.

(** The 16-bit words of a text in network order, zero padded. *)
Fixpoint net_words (bs : list Z) : list Z :=
  match bs with
  | [] => []
  | [a] => [256 * a]
  | a :: b :: bs => (256 * a + b) :: net_words bs
  end.

Definition rfc1071 (bs : list Z) : Z := 65535 - fold_left oc_add (net_words bs) 0.

Definition le2 (n : Z) : list Z := [n mod 256; n / 256].
Definition be2 (n : Z) : list Z := [n / 256; n mod 256].
Definition le4 (n : Z) : list Z := le2 (n mod 65536) ++ le2 (n / 65536).

(** The pseudo header: addresses, zero, protocol, length. *)
Definition pseudo_header (src dest proto proto_len : Z) : list Z :=
  le4 src ++ le4 dest ++ [0; proto] ++ be2 proto_len.

(** ** One's complement arithmetic

    [oceq a b]: the numbers have the same one's complement sum of their
    16-bit digits. *)

Definition byte (b : Z) : Prop := 0 <= b < 256.

Definition oceq (a b : Z) : Prop := 0 <= a /\ 0 <= b /\ (a = 0 <-> b = 0) /\ exists k, a = b + 65535 * k.

Lemma oceq_refl a : 0 <= a -> oceq a a.
Proof. intros. split_and!; try done. exists 0. lia. Qed.
Lemma oceq_sym a b : oceq a b -> oceq b a.
Proof. intros (?&?&?&k&?). split_and!; try lia. exists (- k). lia. Qed.
Lemma oceq_trans a b c : oceq a b -> oceq b c -> oceq a c.
Proof. intros (?&?&?&k&?) (?&?&?&k'&?). split_and!; try lia. exists (k + k'). lia. Qed.
Lemma oceq_add a a' b b' : oceq a a' -> oceq b b' -> oceq (a + b) (a' + b').
Proof. intros (?&?&?&k&?) (?&?&?&k'&?). split_and!; try lia. exists (k + k'). lia. Qed.
Lemma oceq_mul c a a' : 0 < c -> oceq a a' -> oceq (c * a) (c * a').
Proof. intros Hc (?&?&?&k&?). split_and!; try nia. exists (c * k). nia. Qed.
Lemma oceq_65536 a : 0 <= a -> oceq (65536 * a) a.
Proof. intros. split_and!; try lia. exists a. lia. Qed.
(** Two 16-bit sums that agree are equal. *)
Lemma oceq_eq a b : oceq a b -> a <= 65535 -> b <= 65535 -> a = b.
Proof. intros (?&?&?&k&?) ? ?. assert (k = 0 \/ k = 1 \/ k = -1) by lia. lia. Qed.
Lemma oceq_lin a b k : 0 <= a -> 0 <= b -> (a = 0 <-> b = 0) -> a = b + 65535 * k -> oceq a b.
Proof. intros. split_and!; try done. by exists k. Qed.
Lemma oceq_nonneg a b : oceq a b -> 0 <= a /\ 0 <= b.
Proof. by intros (?&?&_). Qed.

Lemma land_16 a : Z.land a 65535 = a mod 65536.
Proof. apply (Z.land_ones a 16). lia. Qed.
Lemma shiftr_16 a : Z.shiftr a 16 = a / 65536.
Proof. by rewrite Z.shiftr_div_pow2. Qed.

Lemma oc_add_ok x y : 0 <= x <= 65535 -> 0 <= y <= 65535 -> 0 <= oc_add x y <= 65535 /\ oceq (oc_add x y) (x + y).
Proof.
  intros Hx Hy. unfold oc_add. rewrite land_16, shiftr_16.
  pose proof (Z.div_mod (x + y) 65536 ltac:(lia)). pose proof (Z.mod_pos_bound (x + y) 65536 ltac:(lia)).
  assert (0 <= (x + y) / 65536 <= 1) by lia. split; [lia|]. apply (oceq_lin _ _ (- ((x + y) / 65536))); lia.
Qed.

Lemma FOLD_ok u : 0 <= u < 2 ^ 32 -> oceq (FOLD_U32T u) u /\ 0 <= FOLD_U32T u <= 65535 + u / 65536 /\
  (u <= 131070 -> FOLD_U32T u <= 65535).
Proof.
  intros Hu. unfold FOLD_U32T. rewrite land_16, shiftr_16.
  pose proof (Z.div_mod u 65536 ltac:(lia)). pose proof (Z.mod_pos_bound u 65536 ltac:(lia)).
  assert (0 <= u / 65536 < 65536) by (split; [apply Z.div_pos; lia|apply Z.div_lt_upper_bound; lia]). rewrite u32_small by lia.
  split; [apply (oceq_lin _ _ (- (u / 65536))); lia|]. lia.
Qed.

Lemma FOLD2_ok u : 0 <= u < 2 ^ 32 -> oceq (FOLD_U32T (FOLD_U32T u)) u /\ 0 <= FOLD_U32T (FOLD_U32T u) <= 65535.
Proof.
  intros Hu. destruct (FOLD_ok u Hu) as (E1 & B1 & _). assert (u / 65536 < 65536) by (apply Z.div_lt_upper_bound; lia).
  destruct (FOLD_ok (FOLD_U32T u)) as (E2 & B2 & B3); [lia|]. split; [by eapply oceq_trans|]. lia.
Qed.

Lemma lor_bytes a b : byte b -> Z.lor (a * 256) b = a * 256 + b.
Proof.
  intros Hb. unfold byte in Hb. pose proof (Z.add_lor_land (a * 256) b).
  assert (E : Z.land (a * 256) b = 0); [|lia]. apply Z.bits_inj'. intros n Hn. rewrite Z.land_spec, Z.bits_0.
  change 256 with (2 ^ 8). rewrite Z.mul_pow2_bits by lia.
  destruct (Z.ltb_spec n 8); [rewrite Z.testbit_neg_r by lia; done|].
  destruct (Z.eqb_spec b 0) as [->|]; [rewrite Z.bits_0; apply andb_false_r|].
  rewrite (Z.bits_above_log2 b); [apply andb_false_r|lia|].
  assert (Z.log2 b <= Z.log2 255) by (apply Z.log2_le_mono; lia). change (Z.log2 255) with 7 in *. lia.
Qed.

(** The swap of two bytes, as arithmetic. *)
Lemma swap_val x : 0 <= x <= 65535 -> SWAP_BYTES_IN_WORD x = 256 * (x mod 256) + x / 256.
Proof.
  intros Hx. unfold SWAP_BYTES_IN_WORD.
  change 255 with (Z.ones 8) at 1. rewrite Z.land_ones by lia.
  change 65280 with (Z.shiftl (Z.ones 8) 8). rewrite Z.shiftr_land, Z.shiftr_shiftl_l by lia.
  change (Z.shiftl (Z.ones 8) (8 - 8)) with (Z.ones 8). rewrite Z.land_ones by lia.
  rewrite Z.shiftr_div_pow2, Z.shiftl_mul_pow2 by lia. change (2 ^ 8) with 256.
  pose proof (Z.div_mod x 256 ltac:(lia)). pose proof (Z.mod_pos_bound x 256 ltac:(lia)).
  assert (0 <= x / 256 <= 255) by lia. rewrite (Z.mod_small (x / 256) 256) by lia.
  rewrite lor_bytes by (unfold byte; lia). lia.
Qed.

Lemma swap_ok x : 0 <= x <= 65535 -> oceq (SWAP_BYTES_IN_WORD x) (256 * x) /\ 0 <= SWAP_BYTES_IN_WORD x <= 65535.
Proof.
  intros Hx. rewrite swap_val by done.
  pose proof (Z.div_mod x 256 ltac:(lia)). pose proof (Z.mod_pos_bound x 256 ltac:(lia)).
  split; [|lia]. apply (oceq_lin _ _ (- (x / 256))); lia.
Qed.

Lemma swap_compl x : 0 <= x <= 65535 -> SWAP_BYTES_IN_WORD (65535 - x) = 65535 - SWAP_BYTES_IN_WORD x.
Proof.
  intros Hx. rewrite !swap_val by lia.
  pose proof (Z.div_mod x 256 ltac:(lia)). pose proof (Z.mod_pos_bound x 256 ltac:(lia)).
  assert (E : 65535 - x = 256 * (255 - x / 256) + (255 - x mod 256)) by lia.
  rewrite <- (Z.div_unique (65535 - x) 256 (255 - x / 256) (255 - x mod 256)) by lia.
  rewrite <- (Z.mod_unique (65535 - x) 256 (255 - x / 256) (255 - x mod 256)) by lia. lia.
Qed.

Lemma lwip_htons_swap x : 0 <= x <= 65535 -> lwip_htons x = SWAP_BYTES_IN_WORD x.
Proof. intros Hx. apply u16_small. pose proof (swap_ok x Hx). unfold SWAP_BYTES_IN_WORD in *. lia. Qed.

Lemma lnot16 c : 0 <= c <= 65535 -> u16 (Z.lnot c) = 65535 - c.
Proof.
  intros Hc. unfold u16, Z.lnot. symmetry. apply (Z.mod_unique _ _ (-1)); lia.
Qed.

(** ** The sum of a text: the number it is in little endian order *)

Fixpoint le_num (bs : list Z) : Z :=
  match bs with
  | [] => 0
  | b :: r => b + 256 * le_num r
  end.

Lemma le_num_nonneg bs : Forall byte bs -> 0 <= le_num bs.
Proof. induction 1; cbn; unfold byte in *; lia. Qed.

(** 1 or 256, the weight of a byte after [n] bytes. *)
Definition weight (n : Z) : Z := if n mod 2 =? 0 then 1 else 256.

Lemma weight_pos n : 0 < weight n.
Proof. unfold weight. by destruct (_ =? _). Qed.

Lemma weight_step n a : 0 <= a -> oceq (256 * (weight n * a)) (weight (n + 1) * a).
Proof.
  intros Ha. unfold weight. pose proof (Z.mod_pos_bound n 2 ltac:(lia)).
  destruct (Z.eqb_spec (n mod 2) 0) as [E|E].
  - replace ((n + 1) mod 2) with 1 by (rewrite Z.add_mod, E by lia; done). rewrite Z.mul_1_l. apply (oceq_refl (256 * a)). lia.
  - replace ((n + 1) mod 2) with 0 by (rewrite Z.add_mod by lia; replace (n mod 2) with 1 by lia; done).
    rewrite Z.mul_assoc. change (oceq (65536 * a) (1 * a)). rewrite Z.mul_1_l. by apply oceq_65536.
Qed.

Lemma le_num_app bs1 bs2 :
  Forall byte bs1 -> Forall byte bs2 -> oceq (le_num (bs1 ++ bs2)) (le_num bs1 + weight (zlen bs1) * le_num bs2).
Proof.
  intros H1 H2. induction H1 as [|b r Hb Hr IH]; cbn [app le_num].
  - apply le_num_nonneg in H2. apply oceq_refl in H2. by rewrite Z.mul_1_l.
  - apply le_num_nonneg in H2. unfold byte in Hb. pose proof (weight_pos (zlen r)).
    rewrite zlen_cons, <- Z.add_assoc. apply oceq_add; [apply oceq_refl; lia|].
    eapply oceq_trans; [apply (oceq_mul 256); [lia|exact IH]|]. rewrite Z.mul_add_distr_l.
    apply oceq_add; [apply oceq_refl; apply le_num_nonneg in Hr; lia|]. by apply weight_step.
Qed.

Lemma weight_even n : n mod 2 = 0 -> weight n = 1.
Proof. unfold weight. by intros ->. Qed.

(** The one's complement sum of RFC 1071. *)
Lemma net_sum bs acc :
  Forall byte bs -> 0 <= acc <= 65535 ->
  0 <= fold_left oc_add (net_words bs) acc <= 65535 /\
  oceq (fold_left oc_add (net_words bs) acc) (acc + 256 * le_num bs).
Proof.
  revert acc. assert (IH : forall n bs acc, (length bs <= n)%nat -> Forall byte bs -> 0 <= acc <= 65535 ->
    0 <= fold_left oc_add (net_words bs) acc <= 65535 /\
    oceq (fold_left oc_add (net_words bs) acc) (acc + 256 * le_num bs)); [|intros; by eapply IH].
  clear bs. induction n as [|n IH]; intros [|a [|b bs]] acc Hn Hbs Hacc; cbn [length] in Hn; try lia;
    cbn [net_words fold_left le_num].
  1,2: split; [lia|]; rewrite Z.mul_0_r, Z.add_0_r; apply oceq_refl; lia.
  - apply Forall_cons_1 in Hbs as [Ha _]. unfold byte in Ha.
    destruct (oc_add_ok acc (256 * a)) as [? ?]; [lia..|]. split; [done|]. by rewrite Z.mul_0_r, Z.add_0_r.
  - apply Forall_cons_1 in Hbs as [Ha Hbs]. apply Forall_cons_1 in Hbs as [Hb Hbs]. unfold byte in Ha, Hb.
    destruct (oc_add_ok acc (256 * a + b)) as [Hr E]; [lia..|].
    destruct (IH bs (oc_add acc (256 * a + b))) as [? E2]; [lia|done|done|]. split; [done|].
    apply le_num_nonneg in Hbs. eapply oceq_trans; [exact E2|].
    eapply oceq_trans; [apply oceq_add; [exact E|apply oceq_refl; lia]|].
    eapply oceq_sym. apply (oceq_lin _ _ (b + 256 * le_num bs)); lia.
Qed.

(** The checksum is the complement of the sum, in host order. *)
Lemma rfc1071_compl bs :
  Forall byte bs -> exists x, 0 <= x <= 65535 /\ oceq x (le_num bs) /\ lwip_htons (rfc1071 bs) = 65535 - x /\
    x = lwip_htons (fold_left oc_add (net_words bs) 0).
Proof.
  intros Hb. destruct (net_sum bs 0 Hb) as [B E]; [lia|]. unfold rfc1071. set (r := fold_left _ _ _) in *.
  destruct (swap_ok r B) as [Es Bs]. pose proof (le_num_nonneg bs Hb).
  exists (SWAP_BYTES_IN_WORD r). split; [done|]. rewrite !lwip_htons_swap, swap_compl by lia. split; [|done].
  eapply oceq_trans; [exact Es|]. eapply oceq_trans; [apply (oceq_mul 256); [lia|exact E]|].
  replace (256 * _) with (65536 * le_num bs) by lia. by apply oceq_65536.
Qed.

Lemma rfc1071_ok bs c :
  Forall byte bs -> 0 <= c <= 65535 -> oceq c (le_num bs) -> 65535 - c = lwip_htons (rfc1071 bs).
Proof.
  intros Hb Hc E. destruct (rfc1071_compl bs Hb) as (x & Hx & Ex & -> & _). f_equal. apply oceq_eq; [|lia..].
  eapply oceq_trans; [exact E|]. by apply oceq_sym.
Qed.

(** ** The algorithms compute this sum *)

(** Two bytes less are one word less. *)
Lemma le_num_word a b bs : Forall byte (a :: b :: bs) -> oceq (a + 256 * b + le_num bs) (le_num (a :: b :: bs)).
Proof.
  intros Hb. apply Forall_cons_1 in Hb as [Ha Hb]. apply Forall_cons_1 in Hb as [Hb Hbs]. unfold byte in *.
  apply le_num_nonneg in Hbs. cbn. apply (oceq_lin _ _ (- le_num bs)); lia.
Qed.

Lemma sum_words_ok rest d sum t :
  Forall byte d -> 0 <= sum -> 0 <= t -> sum + 32768 * (zlen d + 1) < 2 ^ 32 ->
  exists ps len sum' t', sum_words (d ++ rest) (zlen d) sum = Ok (ps, len, sum') /\ left_over ps len t = Ok t' /\
    oceq (sum' + t') (sum + t + le_num d) /\ 0 <= sum' + t' <= sum + t + 32768 * (zlen d + 1).
Proof.
  revert sum. assert (IH : forall n d sum, (length d <= n)%nat ->
    Forall byte d -> 0 <= sum -> 0 <= t -> sum + 32768 * (zlen d + 1) < 2 ^ 32 ->
    exists ps len sum' t', sum_words (d ++ rest) (zlen d) sum = Ok (ps, len, sum') /\ left_over ps len t = Ok t' /\
      oceq (sum' + t') (sum + t + le_num d) /\ 0 <= sum' + t' <= sum + t + 32768 * (zlen d + 1)); [|intros; by eapply IH].
  clear d. induction n as [|n IH]; intros [|a [|b d]] sum Hn Hd Hs Ht Hlen; cbn [length] in Hn; try lia.
  1,2: exists rest, 0, sum, t; rewrite zlen_nil in *; cbn [le_num]; rewrite Z.add_0_r;
    split_and!; [by destruct rest|by destruct rest|apply oceq_refl; lia|lia|lia].
  - apply Forall_cons_1 in Hd as [Ha _]. unfold byte in Ha. exists (a :: rest), 1, sum, (t + a).
    change (zlen [a]) with 1 in *. cbn. split_and!; try done; try lia. rewrite Z.mul_0_r, Z.add_0_r, Z.add_assoc. apply oceq_refl. lia.
  - pose proof (le_num_word a b d Hd) as Hw.
    apply Forall_cons_1 in Hd as [Ha Hd]. apply Forall_cons_1 in Hd as [Hb Hd]. unfold byte in Ha, Hb.
    rewrite !zlen_cons in *. pose proof (zlen_nonneg d). cbn [app sum_words].
    destruct (Z.leb_spec (zlen d + 1 + 1) 1); [lia|]. rewrite u32_small by lia.
    replace (zlen d + 1 + 1 - 2) with (zlen d) by lia.
    destruct (IH d (sum + (a + 256 * b))) as (ps & len & sum' & t' & E1 & E2 & E3 & E4); [lia|done|lia|lia|lia|].
    exists ps, len, sum', t'. split_and!; try done; try lia. eapply oceq_trans; [exact E3|].
    replace (_ + t + _) with (sum + t + (a + 256 * b + le_num d)) by lia.
    apply oceq_add; [apply oceq_refl; lia|done].
Qed.

(** The byte before the alignment is swapped with the others at the end. *)
Lemma align16_ok odd d rest :
  Forall byte d -> zlen d <= 65535 ->
  exists d' t, align16 odd (d ++ rest) (zlen d) = Ok (d' ++ rest, zlen d', t) /\ Forall byte d' /\
    zlen d - 1 <= zlen d' <= zlen d /\ 0 <= t < 65536 /\
    oceq (t + le_num d') (if odd then 256 * le_num d else le_num d).
Proof.
  intros Hd Hl. unfold align16. destruct odd; cbn [andb].
  - destruct d as [|b d]; cbn [zlen length].
    + exists [], 0. cbn. split_and!; try done. by apply oceq_refl.
    + rewrite zlen_cons. destruct (Z.ltb_spec 0 (zlen d + 1)); [|pose proof (zlen_nonneg d); lia]. cbn [app].
      apply Forall_cons_1 in Hd as [Hb Hd]. pose proof (le_num_nonneg d Hd). unfold byte in Hb.
      exists d, (256 * b). split_and!; try done; try lia; [do 2 f_equal; f_equal; lia|].
      cbn [le_num]. apply (oceq_lin _ _ (- le_num d)); lia.
  - exists d, 0. split_and!; try done; try lia. apply oceq_refl. by apply le_num_nonneg.
Qed.

(** The end of algorithms 2 and 3. *)
Lemma fold_swap_ok (odd : bool) sum n :
  0 <= sum < 2 ^ 32 -> 0 <= n -> oceq sum (if odd then 256 * n else n) ->
  let sum := FOLD_U32T (FOLD_U32T (u32 sum)) in
  let c := u16 (if odd then SWAP_BYTES_IN_WORD sum else sum) in 0 <= c <= 65535 /\ oceq c n.
Proof.
  intros Hs Hn E. rewrite u32_small by lia. cbn zeta. destruct (FOLD2_ok sum Hs) as [E2 B]. destruct odd.
  - destruct (swap_ok _ B) as [E3 B3]. rewrite u16_small by lia. split; [lia|]. eapply oceq_trans; [exact E3|].
    eapply oceq_trans; [apply (oceq_mul 256); [lia|eapply oceq_trans; [exact E2|exact E]]|].
    rewrite Z.mul_assoc. by apply oceq_65536.
  - rewrite u16_small by lia. split; [lia|]. by eapply oceq_trans.
Qed.

Lemma standard_chksum_ok addr d rest :
  Forall byte d -> zlen d <= 65535 ->
  exists c, lwip_standard_chksum addr (d ++ rest) (zlen d) = Ok c /\ 0 <= c <= 65535 /\ oceq c (le_num d).
Proof.
  intros Hd Hl. unfold lwip_standard_chksum. set (odd := negb _).
  destruct (align16_ok odd d rest Hd Hl) as (d' & t & -> & Hd' & Hl' & Ht & E). cbn [obind].
  destruct (sum_words_ok rest d' 0 t Hd') as (ps & len & sum & t' & -> & E2 & E3 & E4); [lia..|].
  cbn [obind]. rewrite E2. cbn [obind].
  pose proof (fold_swap_ok odd (sum + t') (le_num d)) as HF. cbn zeta in HF.
  eexists. split; [done|]. apply HF; [lia|by apply le_num_nonneg|]. eapply oceq_trans; [exact E3|]. by rewrite Z.add_0_l.
Qed.

Lemma sum_octets_ok rest d acc :
  Forall byte d -> 0 <= acc -> acc + 32768 * (zlen d + 1) < 2 ^ 32 ->
  exists acc', sum_octets (d ++ rest) (zlen d) acc = Ok acc' /\
    oceq acc' (acc + 256 * le_num d) /\ 0 <= acc' <= acc + 32768 * (zlen d + 1).
Proof.
  revert acc. assert (IH : forall n d acc, (length d <= n)%nat ->
    Forall byte d -> 0 <= acc -> acc + 32768 * (zlen d + 1) < 2 ^ 32 ->
    exists acc', sum_octets (d ++ rest) (zlen d) acc = Ok acc' /\
      oceq acc' (acc + 256 * le_num d) /\ 0 <= acc' <= acc + 32768 * (zlen d + 1)); [|intros; by eapply IH].
  clear d. induction n as [|n IH]; intros [|a [|b d]] acc Hn Hd Hs Hlen; cbn [length] in Hn; try lia.
  1,2: exists acc; rewrite zlen_nil in *; cbn [le_num]; rewrite Z.mul_0_r, Z.add_0_r;
    split_and!; [by destruct rest|apply oceq_refl; lia|lia|lia].
  - apply Forall_cons_1 in Hd as [Ha _]. unfold byte in Ha. exists (acc + 256 * a). change (zlen [a]) with 1 in *. cbn.
    rewrite Z.shiftl_mul_pow2 by lia. change (2 ^ 8) with 256. rewrite u32_small by lia.
    split_and!; [do 2 f_equal; lia|rewrite Z.add_0_r; apply oceq_refl; lia|lia..].
  - apply Forall_cons_1 in Hd as [Ha Hd]. apply Forall_cons_1 in Hd as [Hb Hd]. unfold byte in Ha, Hb.
    rewrite !zlen_cons in *. pose proof (zlen_nonneg d). pose proof (le_num_nonneg d Hd). cbn [app sum_octets].
    destruct (Z.leb_spec (zlen d + 1 + 1) 0); [lia|]. destruct (Z.leb_spec (zlen d + 1 + 1) 1); [lia|].
    rewrite Z.shiftl_mul_pow2 by lia. change (2 ^ 8) with 256. rewrite lor_bytes, u32_small by (done || lia).
    replace (zlen d + 1 + 1 - 2) with (zlen d) by lia.
    destruct (IH d (acc + (a * 256 + b))) as (acc' & -> & E & B); [lia|done|lia|lia|].
    exists acc'. split; [done|]. split; [|lia]. eapply oceq_trans; [exact E|]. cbn [le_num].
    apply oceq_sym, (oceq_lin _ _ (b + 256 * le_num d)); lia.
Qed.

Lemma high_half_zero x : 0 <= x < 2 ^ 32 -> Z.land x 4294901760 = 0 -> x <= 65535.
Proof.
  intros Hx E. apply (f_equal (fun z => Z.shiftr z 16)) in E. rewrite Z.shiftr_land, Z.shiftr_0_l in E.
  change (Z.shiftr 4294901760 16) with 65535 in E. rewrite shiftr_16, land_16 in E.
  pose proof (Z.div_mod x 65536 ltac:(lia)). pose proof (Z.mod_pos_bound x 65536 ltac:(lia)).
  rewrite Z.mod_small in E by (split; [apply Z.div_pos; lia|apply Z.div_lt_upper_bound; lia]). lia.
Qed.

Lemma standard_chksum_1_ok d rest :
  Forall byte d -> zlen d <= 65535 ->
  exists c, lwip_standard_chksum_1 (d ++ rest) (zlen d) = Ok c /\ 0 <= c <= 65535 /\ oceq c (le_num d).
Proof.
  intros Hd Hl. unfold lwip_standard_chksum_1. pose proof (le_num_nonneg d Hd).
  destruct (sum_octets_ok rest d 0 Hd) as (acc & -> & E & B); [lia..|]. cbn [obind]. rewrite Z.add_0_l in E.
  assert (Hacc : 0 <= acc < 2 ^ 32) by lia.
  destruct (FOLD_ok acc Hacc) as (E1 & B1 & _). destruct (FOLD2_ok acc Hacc) as [E2 B2].
  set (a := if _ =? 0 then _ else _).
  assert (oceq a acc /\ 0 <= a <= 65535) as [Ea Ba].
  { unfold a. destruct (Z.eqb_spec (Z.land (FOLD_U32T acc) 4294901760) 0) as [Ez|]; [|done].
    assert (acc / 65536 < 65536) by (apply Z.div_lt_upper_bound; lia). apply high_half_zero in Ez; [|lia]. split; [done|lia]. }
  rewrite u16_small, lwip_htons_swap by lia. destruct (swap_ok a Ba) as [E3 B3].
  eexists. split; [done|]. split; [done|]. eapply oceq_trans; [exact E3|].
  eapply oceq_trans; [apply (oceq_mul 256); [lia|eapply oceq_trans; [exact Ea|exact E]]|].
  rewrite Z.mul_assoc. by apply oceq_65536.
Qed.

Lemma add_carry_ok sum w : 0 <= sum < 2 ^ 32 -> 0 <= w < 2 ^ 32 -> 0 <= add_carry sum w < 2 ^ 32 /\ oceq (add_carry sum w) (sum + w).
Proof.
  intros Hs Hw. unfold add_carry. cbn zeta. destruct (Z.ltb_spec (sum + w) (2 ^ 32)).
  - rewrite (u32_small (sum + w)) by lia. destruct (Z.ltb_spec (sum + w) sum); [lia|]. split; [lia|]. apply oceq_refl. lia.
  - assert (E : u32 (sum + w) = sum + w - 2 ^ 32) by (symmetry; apply (Z.mod_unique _ _ 1); lia).
    rewrite E. destruct (Z.ltb_spec (sum + w - 2 ^ 32) sum); [|lia]. rewrite u32_small by lia. split; [lia|].
    apply (oceq_lin _ _ (-65537)); lia.
Qed.

(** Four bytes are one 32-bit word. *)
Lemma le_num_long a b c d bs :
  Forall byte (a :: b :: c :: d :: bs) ->
  0 <= a + 256 * b + 65536 * c + 16777216 * d < 2 ^ 32 /\ Forall byte bs /\
  oceq (a + 256 * b + 65536 * c + 16777216 * d + le_num bs) (le_num (a :: b :: c :: d :: bs)).
Proof.
  intros Hb. do 4 (apply Forall_cons_1 in Hb as [? Hb]). pose proof (le_num_nonneg bs Hb). unfold byte in *.
  split; [lia|]. split; [done|]. cbn. apply (oceq_lin _ _ (-65537 * le_num bs)); lia.
Qed.

Lemma sum_longs_ok rest d sum :
  Forall byte d -> 0 <= sum < 2 ^ 32 ->
  exists d' sum', sum_longs (d ++ rest) (zlen d) sum = Ok (d' ++ rest, zlen d', sum') /\ Forall byte d' /\
    zlen d' <= 7 /\ 0 <= sum' < 2 ^ 32 /\ oceq (sum' + le_num d') (sum + le_num d).
Proof.
  revert sum. assert (IH : forall n d sum, (length d <= n)%nat -> Forall byte d -> 0 <= sum < 2 ^ 32 ->
    exists d' sum', sum_longs (d ++ rest) (zlen d) sum = Ok (d' ++ rest, zlen d', sum') /\ Forall byte d' /\
      zlen d' <= 7 /\ 0 <= sum' < 2 ^ 32 /\ oceq (sum' + le_num d') (sum + le_num d)); [|intros; by eapply IH].
  clear d. induction n as [|n IH]; intros d sum Hn Hd Hs; (destruct (Z.leb_spec (zlen d) 7) as [Hle|Hgt];
    [exists d, sum; split_and!; try done; try lia; [|apply oceq_refl; pose proof (le_num_nonneg d Hd); lia];
     destruct (d ++ rest); cbn [sum_longs]; destruct (Z.leb_spec (zlen d) 7); done || lia|]); [unfold zlen in Hgt; lia|].
  do 8 (destruct d as [|? d]; [unfold zlen in Hgt; cbn in Hgt; lia|]).
  destruct (le_num_long _ _ _ _ _ Hd) as (B1 & Hd1 & E1). destruct (le_num_long _ _ _ _ _ Hd1) as (B2 & Hd2 & E2).
  cbn [app sum_longs]. rewrite (proj2 (Z.leb_gt _ _) Hgt). rewrite !zlen_cons in *. cbn [length] in Hn.
  destruct (add_carry_ok _ _ Hs B1) as [S1 F1]. destruct (add_carry_ok _ _ S1 B2) as [S2 F2].
  replace (_ - 8) with (zlen d) by lia.
  destruct (IH d _ ltac:(lia) Hd2 S2) as (d' & sum' & -> & Hd' & Hl' & Hs' & E'). exists d', sum'. split_and!; try done; try lia.
  pose proof (le_num_nonneg _ Hd2). eapply oceq_trans; [exact E'|].
  eapply oceq_trans; [apply oceq_add; [exact F2|by apply oceq_refl]|].
  rewrite <- Z.add_assoc. eapply oceq_trans; [apply oceq_add; [exact F1|exact E2]|].
  rewrite <- Z.add_assoc. apply oceq_add; [apply oceq_refl; lia|exact E1].
Qed.

Lemma standard_chksum_3_ok addr d rest :
  Forall byte d -> zlen d <= 65535 ->
  exists c, lwip_standard_chksum_3 addr (d ++ rest) (zlen d) = Ok c /\ 0 <= c <= 65535 /\ oceq c (le_num d).
Proof.
  intros Hd Hl. unfold lwip_standard_chksum_3. set (odd := negb (Z.land addr 1 =? 0)).
  destruct (align16_ok odd d rest Hd Hl) as (d1 & t & -> & Hd1 & Hl1 & Ht & E1). cbn [obind].
  set (m := if _ && _ then _ else _).
  assert (Hm : exists d2 w, m = Ok (d2 ++ rest, zlen d2, w) /\ Forall byte d2 /\ 0 <= w < 65536 /\
    oceq (w + le_num d2) (le_num d1)).
  { unfold m. destruct (_ && _) eqn:Ec.
    - apply andb_true_iff in Ec as [_ Ec%Z.ltb_lt]. destruct d1 as [|a [|b d1]]; [done..|].
      pose proof (le_num_word _ _ _ Hd1) as Ew. apply Forall_cons_1 in Hd1 as [Ha Hd1]. apply Forall_cons_1 in Hd1 as [Hb Hd1].
      unfold byte in Ha, Hb. exists d1, (a + 256 * b). rewrite !zlen_cons. split_and!; try done; try lia.
      cbn [app]. do 3 f_equal. lia.
    - exists d1, 0. split_and!; try done. apply oceq_refl. pose proof (le_num_nonneg d1 Hd1). lia. }
  destruct Hm as (d2 & w & -> & Hd2 & Hw & E2). cbn [obind].
  destruct (sum_longs_ok rest d2 w Hd2) as (d3 & sum & -> & Hd3 & Hl3 & Hs & E3); [lia|]. cbn [obind].
  destruct (FOLD_ok sum Hs) as (E4 & B4 & _).
  assert (sum / 65536 < 65536) by (apply Z.div_lt_upper_bound; lia).
  destruct (sum_words_ok rest d3 (FOLD_U32T sum) t Hd3) as (ps & len & sum' & t' & -> & E5 & E6 & E7); [lia..|].
  cbn [obind]. rewrite E5. cbn [obind].
  pose proof (fold_swap_ok odd (sum' + t') (le_num d)) as HF. cbn zeta in HF.
  eexists. split; [done|]. apply HF; [lia|by apply le_num_nonneg|]. eapply oceq_trans; [exact E6|].
  eapply oceq_trans; [|exact E1]. rewrite (Z.add_comm _ t), <- Z.add_assoc.
  apply oceq_add; [apply oceq_refl; lia|]. eapply oceq_trans; [|exact E2]. eapply oceq_trans; [|exact E3].
  apply oceq_add; [done|]. apply oceq_refl. by apply le_num_nonneg.
Qed.

(** The three algorithms a port can choose from agree. On every text of up to 65535 bytes, at every address
    (aligned or not, the two that test it treat an odd address in their own ways) and whatever follows the text in memory, they
    read nothing past the text and return the same 16 bits: the one's complement sum of RFC 1071, in host order. *)
Theorem chksum_algorithms_agree (addr : Z) (d rest : list Z) :
  Forall byte d -> zlen d <= 65535 ->
  let sum := lwip_htons (fold_left oc_add (net_words d) 0) in
  lwip_standard_chksum_1 (d ++ rest) (zlen d) = Ok sum /\
  lwip_standard_chksum addr (d ++ rest) (zlen d) = Ok sum /\
  lwip_standard_chksum_3 addr (d ++ rest) (zlen d) = Ok sum.
Proof.
  intros Hd Hl sum. assert (Hsum : forall c, 0 <= c <= 65535 -> oceq c (le_num d) -> c = sum).
  { intros c Hc E. destruct (rfc1071_compl d Hd) as (x & Hx & Ex & _ & Hsum). unfold sum. rewrite <- Hsum.
    apply oceq_eq; [|lia..]. eapply oceq_trans; [exact E|]. by apply oceq_sym. }
  destruct (standard_chksum_1_ok d rest Hd Hl) as (c1 & -> & B1 & E1).
  destruct (standard_chksum_ok addr d rest Hd Hl) as (c2 & -> & B2 & E2).
  destruct (standard_chksum_3_ok addr d rest Hd Hl) as (c3 & -> & B3 & E3).
  by rewrite (Hsum c1), (Hsum c2), (Hsum c3).
Qed.

Ltac zparity := Z.to_euclidean_division_equations; lia.

(** ** Chains *)

Section Chains_ok.
Context {H : Type} `{!RamHeap H} (addr_of : pptr -> pbuf -> Z).
Implicit Types (s : pstate (H := H)).

Lemma known_fmap (bs : list Z) : known (Some <$> bs) = Ok bs.
Proof. induction bs as [|b bs IH]; [done|]. cbn. cbn in IH. by rewrite IH. Qed.

(** What the loops keep: the sum of the bytes so far, once more times 256
    after an odd number of them. *)
Definition summed (acc swapped : Z) (bs : list Z) : Prop :=
  0 <= acc <= 65535 /\ oceq acc (weight (zlen bs) * le_num bs) /\ swapped = zlen bs mod 2.

Lemma weight_twice n a : 0 <= a -> oceq (weight n * (weight n * a)) a.
Proof.
  intros Ha. unfold weight. destruct (_ =? _); [apply oceq_refl in Ha; by rewrite !Z.mul_1_l|].
  rewrite Z.mul_assoc. by apply oceq_65536.
Qed.

Lemma unswap_ok a n m :
  0 <= a <= 65535 -> 0 <= m -> oceq a (weight n * m) ->
  0 <= unswap a (n mod 2) <= 65535 /\ oceq (unswap a (n mod 2)) m.
Proof.
  intros Ha Hm E. unfold unswap. pose proof (weight_twice n m Hm) as Hw. unfold weight in *. destruct (_ =? _).
  - by rewrite Z.mul_1_l in E.
  - destruct (swap_ok a Ha) as [E2 B2]. split; [done|]. eapply oceq_trans; [exact E2|].
    eapply oceq_trans; [apply (oceq_mul 256); [lia|exact E]|done].
Qed.

(** Swapped once too often, and back. *)
Lemma unswap_swap a n m :
  0 <= a <= 65535 -> 0 <= m -> oceq a (weight n * m) ->
  0 <= unswap (SWAP_BYTES_IN_WORD a) (1 - n mod 2) <= 65535 /\ oceq (unswap (SWAP_BYTES_IN_WORD a) (1 - n mod 2)) m.
Proof.
  intros Ha Hm E. destruct (swap_ok a Ha) as [E2 B2].
  replace (1 - n mod 2) with ((n + 1) mod 2) by zparity. apply unswap_ok; [done..|].
  eapply oceq_trans; [exact E2|]. eapply oceq_trans; [apply (oceq_mul 256); [lia|exact E]|]. by apply weight_step.
Qed.

Lemma summed_unswap acc swapped bs :
  Forall byte bs -> summed acc swapped bs -> 0 <= unswap acc swapped <= 65535 /\ oceq (unswap acc swapped) (le_num bs).
Proof. intros Hb (Ha & E & ->). apply unswap_ok; [done|by apply le_num_nonneg|done]. Qed.

(** The new sum before the swap. *)
Lemma round_ok s p q n acc swapped bs d d2 :
  own q -> 0 <= n <= len q -> len q <= 65535 -> bytes_of q = Some <$> (d ++ d2) -> zlen d = n -> Forall byte bs -> Forall byte d ->
  summed acc swapped bs ->
  exists a, 0 <= a <= 65535 /\ oceq a (weight (zlen bs) * le_num (bs ++ d)) /\
    chain_round addr_of s p q n acc swapped = Ok (if len q mod 2 =? 0 then (a, swapped) else (SWAP_BYTES_IN_WORD a, 1 - swapped)).
Proof.
  intros Hq Hn Hl Hb Hd Hbs Hds (Hacc & E & _). unfold chain_round, payload_bytes.
  rewrite read_own by (done || lia). rewrite Hb. change (Z.to_nat 0) with 0%nat. rewrite drop_0.
  replace (take (Z.to_nat n) (Some <$> d ++ d2)) with (Some <$> d).
  2:{ rewrite <- fmap_take, take_app_length'; [done|]. unfold zlen in Hd. lia. }
  cbn [obind]. rewrite known_fmap. cbn [obind].
  destruct (standard_chksum_ok (addr_of p q) d [] Hds) as (c & Ec & Bc & Oc); [lia|].
  rewrite app_nil_r, Hd in Ec. rewrite Ec. cbn [obind]. rewrite u32_small by lia.
  destruct (FOLD_ok (acc + c)) as (E2 & B2 & B3); [lia|].
  exists (FOLD_U32T (acc + c)). split; [lia|]. split; [|by destruct (len q mod 2 =? 0)].
  pose proof (weight_pos (zlen bs)). eapply oceq_trans; [exact E2|]. apply oceq_sym.
  eapply oceq_trans; [apply oceq_mul; [done|by apply le_num_app]|]. rewrite Z.mul_add_distr_l.
  apply oceq_add; [by apply oceq_sym|]. eapply oceq_trans; [apply weight_twice, le_num_nonneg, Hds|]. by apply oceq_sym.
Qed.

Lemma summed_swap a bs (n : Z) :
  0 <= a <= 65535 -> oceq a (weight (zlen bs - n) * le_num bs) -> Forall byte bs ->
  summed (if n mod 2 =? 0 then a else SWAP_BYTES_IN_WORD a)
    (if n mod 2 =? 0 then (zlen bs - n) mod 2 else 1 - (zlen bs - n) mod 2) bs.
Proof.
  intros Ha E Hb. pose proof (le_num_nonneg bs Hb). destruct (Z.eqb_spec (n mod 2) 0) as [En|En].
  - assert (Hm : zlen bs mod 2 = (zlen bs - n) mod 2) by zparity.
    split_and!; [lia|lia| |by rewrite Hm]. unfold weight in *. by rewrite Hm.
  - destruct (swap_ok a Ha) as [E2 B2]. split; [done|].
    assert (Hm : zlen bs mod 2 = 1 - (zlen bs - n) mod 2) by zparity. split; [|done].
    eapply oceq_trans; [exact E2|]. eapply oceq_trans; [apply (oceq_mul 256); [lia|exact E]|].
    eapply oceq_trans; [by apply weight_step|]. unfold weight. rewrite Hm.
    replace ((zlen bs - n + 1) mod 2) with (1 - (zlen bs - n) mod 2) by zparity.
    apply oceq_refl. destruct (_ =? _); lia.
Qed.

Lemma chain_sum_ok fuel s q l acc swapped bs d :
  chain (store s) q l None -> Forall (fun x => own (snd x)) l -> contents l = Some <$> d -> (length l < fuel)%nat ->
  zlen d <= 65535 -> Forall byte bs -> Forall byte d -> summed acc swapped bs ->
  exists acc' swapped', chain_sum addr_of fuel s q acc swapped = Ok (acc', swapped') /\ summed acc' swapped' (bs ++ d).
Proof.
  revert s q l acc swapped bs d. induction fuel as [|fuel IH]; intros s q l acc swapped bs d Hc Ho Hcon Hf Hd Hbs Hds HS; [lia|].
  cbn [chain_sum]. destruct l as [|[p b] l].
  { cbn in Hc. subst q. destruct d; [|done]. rewrite app_nil_r. eauto. }
  destruct Hc as (-> & Hp & Hc). apply Forall_cons_1 in Ho as [Hob Ho]. cbn [snd contents length] in *.
  unfold get. rewrite Hp. cbn [obind]. symmetry in Hcon. apply fmap_app_inv in Hcon as (d1 & d2 & E1 & E2 & ->).
  pose proof (bytes_of_len b Hob) as Hbl. rewrite E1 in Hbl. unfold zlen in Hbl. rewrite length_fmap in Hbl. fold (zlen d1) in Hbl.
  rewrite zlen_app in Hd. pose proof (zlen_nonneg d2). pose proof (zlen_nonneg d1).
  apply Forall_app in Hds as [Hd1 Hd2].
  destruct (round_ok s p b (len b) acc swapped bs d1 []) as (a & Ba & Ea & ->); try done; try lia; [by rewrite app_nil_r|].
  assert (Hbd : Forall byte (bs ++ d1)) by (by apply Forall_app).
  pose proof (summed_swap a (bs ++ d1) (len b) Ba) as HS'. rewrite zlen_app, Hbl in HS'.
  replace (zlen bs + len b - len b) with (zlen bs) in HS' by lia. specialize (HS' Ea Hbd).
  destruct HS as (_ & _ & ->). rewrite app_assoc.
  destruct (len b mod 2 =? 0); cbn [obind]; eapply IH; eauto; lia.
Qed.

Lemma partial_sum_ok fuel s q l n acc swapped bs d :
  chain (store s) q l None -> Forall (fun x => own (snd x)) l -> contents l = Some <$> d -> (length l < fuel)%nat ->
  0 <= n < 0x7fff -> zlen d <= 65535 -> Forall byte bs -> Forall byte d -> summed acc swapped bs ->
  exists acc' swapped', partial_sum addr_of fuel s q n acc swapped = Ok (acc', swapped') /\
    0 <= unswap acc' swapped' <= 65535 /\ oceq (unswap acc' swapped') (le_num (bs ++ take (Z.to_nat n) d)).
Proof.
  revert s q l n acc swapped bs d.
  induction fuel as [|fuel IH]; intros s q l n acc swapped bs d Hc Ho Hcon Hf Hn Hd Hbs Hds HS; [lia|].
  cbn [partial_sum]. destruct l as [|[p b] l].
  { cbn in Hc. subst q. destruct d; [|done]. rewrite take_nil, app_nil_r. eexists _, _. split; [done|]. by apply summed_unswap. }
  destruct Hc as (-> & Hp & Hc). apply Forall_cons_1 in Ho as [Hob Ho]. cbn [snd contents length] in *.
  destruct (Z.ltb_spec 0 n) as [Hn0|Hn0].
  2:{ replace n with 0 by lia. change (Z.to_nat 0) with 0%nat. rewrite take_0, app_nil_r.
      eexists _, _. split; [done|]. by apply summed_unswap. }
  unfold get. rewrite Hp. cbn [obind]. symmetry in Hcon. apply fmap_app_inv in Hcon as (d1 & d2 & E1 & E2 & ->).
  pose proof (bytes_of_len b Hob) as Hbl. rewrite E1 in Hbl. unfold zlen in Hbl. rewrite length_fmap in Hbl. fold (zlen d1) in Hbl.
  rewrite zlen_app in Hd. pose proof (zlen_nonneg d2). pose proof (zlen_nonneg d1).
  apply Forall_app in Hds as [Hd1 Hd2]. destruct (Z.ltb_spec n (len b)) as [Hlt|Hge].
  - (* the last pbuf, in part *)
    set (d0 := take (Z.to_nat n) d1).
    assert (Hd0 : zlen d0 = n) by (unfold d0, zlen in *; rewrite length_take; lia).
    assert (Hby : Forall byte d0) by (by apply Forall_take).
    destruct (round_ok s p b n acc swapped bs d0 (drop (Z.to_nat n) d1)) as (a & Ba & Ea & ->); try done; try lia;
      [unfold d0; by rewrite take_drop|].
    rewrite take_app_le by (unfold zlen in *; lia). fold d0.
    assert (Hbd : Forall byte (bs ++ d0)) by (by apply Forall_app). apply le_num_nonneg in Hbd.
    destruct HS as (_ & _ & ->). rewrite Z.sub_diag. change (u16 0) with 0.
    assert (Hend : forall a' sw', partial_sum addr_of fuel s (next b) 0 a' sw' = Ok (a', sw')).
    { intros a' sw'. destruct fuel; [lia|]. cbn [partial_sum]. by destruct (next b). }
    destruct (len b mod 2 =? 0); cbn [obind]; change (0 <? 0x7fff) with true; cbv iota; rewrite Hend; eexists _, _; (split; [done|]);
      [by apply unswap_ok|by apply unswap_swap].
  - destruct (round_ok s p b (len b) acc swapped bs d1 []) as (a & Ba & Ea & ->); try done; try lia; [by rewrite app_nil_r|].
    assert (Hbd : Forall byte (bs ++ d1)) by (by apply Forall_app).
    pose proof (summed_swap a (bs ++ d1) (len b) Ba) as HS'. rewrite zlen_app, Hbl in HS'.
    replace (zlen bs + len b - len b) with (zlen bs) in HS' by lia. specialize (HS' Ea Hbd).
    destruct HS as (_ & _ & ->). rewrite take_app_ge by (unfold zlen in *; lia). rewrite u16_small by lia.
    replace (n - len b <? 0x7fff) with true by lia.
    replace (Z.to_nat n - length d1)%nat with (Z.to_nat (n - len b)) by (unfold zlen in *; lia). rewrite app_assoc.
    destruct (len b mod 2 =? 0); cbn [obind]; eapply IH; eauto; lia.
Qed.
End Chains_ok.

Lemma le_num_le2 n : 0 <= n < 65536 -> le_num (le2 n) = n /\ Forall byte (le2 n).
Proof.
  intros Hn. unfold le2. cbn [le_num]. split; [zparity|]. repeat constructor; unfold byte; zparity.
Qed.

Lemma le_num_le4 n : 0 <= n < 2 ^ 32 -> oceq (le_num (le4 n)) (Z.land n 65535 + Z.land (Z.shiftr n 16) 65535) /\ Forall byte (le4 n) /\ zlen (le4 n) = 4.
Proof.
  intros Hn. rewrite shiftr_16, !land_16.
  assert (0 <= n / 65536 < 65536) by (split; [apply Z.div_pos; lia|apply Z.div_lt_upper_bound; lia]).
  rewrite (Z.mod_small (n / 65536)) by done. pose proof (Z.mod_pos_bound n 65536 ltac:(lia)).
  unfold le4. destruct (le_num_le2 (n mod 65536)) as [E1 F1]; [lia|]. destruct (le_num_le2 (n / 65536)) as [E2 F2]; [lia|].
  split; [|split; [by apply Forall_app|done]]. eapply oceq_trans; [by apply le_num_app|].
  rewrite E1, E2. change (weight (zlen (le2 (n mod 65536)))) with 1. rewrite Z.mul_1_l. apply oceq_refl. lia.
Qed.

Lemma be2_htons n : 0 <= n < 65536 -> le_num (be2 n) = lwip_htons n /\ Forall byte (be2 n).
Proof.
  intros Hn. unfold be2. rewrite lwip_htons_swap, swap_val by lia. cbn [le_num]. split; [lia|].
  repeat constructor; unfold byte; zparity.
Qed.

(** Appending after an even number of bytes adds the sums. *)
Lemma le_num_app_even bs1 bs2 x1 x2 :
  Forall byte bs1 -> Forall byte bs2 -> zlen bs1 mod 2 = 0 -> oceq (le_num bs1) x1 -> oceq (le_num bs2) x2 ->
  oceq (le_num (bs1 ++ bs2)) (x1 + x2).
Proof.
  intros H1 H2 He E1 E2. eapply oceq_trans; [by apply le_num_app|]. rewrite weight_even, Z.mul_1_l by done.
  by apply oceq_add.
Qed.

Definition wf_pseudo (src dest proto proto_len : Z) : Prop :=
  0 <= src < 2 ^ 32 /\ 0 <= dest < 2 ^ 32 /\ 0 <= proto < 256 /\ 0 <= proto_len < 65536.

Lemma pseudo_bytes src dest proto proto_len :
  wf_pseudo src dest proto proto_len ->
  Forall byte (pseudo_header src dest proto proto_len) /\ zlen (pseudo_header src dest proto proto_len) = 12 /\
  oceq (le_num (pseudo_header src dest proto proto_len))
    ((Z.land src 65535 + Z.land (Z.shiftr src 16) 65535) +
     ((Z.land dest 65535 + Z.land (Z.shiftr dest 16) 65535) + (lwip_htons proto + lwip_htons proto_len))).
Proof.
  intros (Hs & Hd & Hp & Hl). unfold pseudo_header.
  destruct (le_num_le4 src Hs) as (Es & Fs & Ls). destruct (le_num_le4 dest Hd) as (Ed & Fd & Ld).
  change ([0; proto] ++ be2 proto_len) with ([0; proto] ++ be2 proto_len).
  destruct (be2_htons proto_len Hl) as [El Fl]. destruct (be2_htons proto) as [Ep Fp]; [lia|].
  assert (Eb : be2 proto = [0; proto]) by (unfold be2; f_equal; [zparity|f_equal; zparity]). rewrite Eb in Ep, Fp.
  assert (F2 : Forall byte ([0; proto] ++ be2 proto_len)) by (by apply Forall_app).
  assert (F3 : Forall byte (le4 dest ++ [0; proto] ++ be2 proto_len)) by (by apply Forall_app).
  split; [by apply Forall_app|]. split; [done|].
  apply le_num_app_even; try done. apply le_num_app_even; try done.
  apply le_num_app_even; try done; [rewrite Ep|rewrite El]; apply oceq_refl;
    rewrite lwip_htons_swap by lia; apply swap_ok; lia.
Qed.

Lemma pseudo_finish_ok acc swapped bs src dest proto proto_len :
  0 <= unswap acc swapped <= 65535 -> oceq (unswap acc swapped) (le_num bs) -> Forall byte bs ->
  wf_pseudo src dest proto proto_len ->
  pseudo_finish acc swapped src dest proto proto_len = lwip_htons (rfc1071 (pseudo_header src dest proto proto_len ++ bs)).
Proof.
  intros B E Hb Hw. destruct (pseudo_bytes _ _ _ _ Hw) as (Fh & Lh & Eh). destruct Hw as (Hs & Hd & Hp & Hl).
  unfold pseudo_finish. cbn zeta. rewrite (u16_small proto) by lia.
  pose proof (lwip_htons_swap proto ltac:(lia)) as Hsp. pose proof (lwip_htons_swap proto_len ltac:(lia)) as Hsl.
  pose proof (swap_ok proto ltac:(lia)) as [_ Bp]. pose proof (swap_ok proto_len ltac:(lia)) as [_ Bl].
  assert (HL : forall z, 0 <= Z.land z 65535 <= 65535) by (intros z; rewrite land_16; zparity).
  pose proof (HL src). pose proof (HL dest). pose proof (HL (Z.shiftr src 16)). pose proof (HL (Z.shiftr dest 16)).
  rewrite <- Hsp in Bp. rewrite <- Hsl in Bl.
  repeat match goal with |- context [u32 ?x] => rewrite (u32_small x) by lia end.
  set (sum := unswap acc swapped + _ + _ + _ + _ + _ + _).
  destruct (FOLD2_ok sum) as [E2 B2]; [lia|].
  rewrite land_16, Z.mod_small, lnot16 by lia. apply rfc1071_ok; [by apply Forall_app|lia|].
  eapply oceq_trans; [exact E2|]. apply oceq_sym.
  eapply oceq_trans; [apply le_num_app_even; [done|done|by rewrite Lh|exact Eh|by apply oceq_sym]|].
  apply (oceq_lin _ _ 0); lia.
Qed.

Section Claims.
Context {H : Type} `{!RamHeap H} (addr_of : pptr -> pbuf -> Z).
Implicit Types (s : pstate (H := H)).

Lemma holds_sum s p d :
  Forall byte d -> zlen d <= 65535 -> holds s p d ->
  exists acc sw, chain_sum addr_of (S (chain_fuel s)) s p 0 0 = Ok (acc, sw) /\
    0 <= unswap acc sw <= 65535 /\ oceq (unswap acc sw) (le_num d).
Proof.
  intros Hd Hl (l & Hc & Ho & Hcon). assert (HS : summed 0 0 []) by (split_and!; try done; by apply oceq_refl).
  destruct (chain_sum_ok addr_of (S (chain_fuel s)) s p l 0 0 [] d Hc Ho Hcon) as (acc & sw & E1 & HS1); try done;
    [pose proof (chain_length _ _ _ Hc); unfold chain_fuel; lia|].
  exists acc, sw. split; [done|]. by apply summed_unswap.
Qed.

Lemma inet_chksum_pseudo_ok s p d src dest proto proto_len :
  Forall byte d -> zlen d <= 65535 -> holds s p d -> wf_pseudo src dest proto proto_len ->
  inet_chksum_pseudo addr_of s p src dest proto proto_len =
    Ok (lwip_htons (rfc1071 (pseudo_header src dest proto proto_len ++ d))).
Proof.
  intros Hd Hl Hs Hw. unfold inet_chksum_pseudo. destruct (holds_sum s p d Hd Hl Hs) as (acc & sw & -> & B & E).
  cbn [obind]. f_equal. by apply pseudo_finish_ok.
Qed.

(** C33: what inet_chksum.c computes is the internet checksum of RFC 1071, for every text of up to 65535 bytes: of a memory area
    at any address (whatever follows it), of a chain of pbufs however the text is cut into buffers (odd lengths and empty
    buffers too) and wherever their payloads lie, the same with the pseudo header of UDP and TCP, and of the first
    [chksum_len] < 0x7fff bytes of the chain (the loop of the partial form asserts that fewer are left). The result is in network
    order, ready to be stored in the header. All the functions return and read nothing but the text. *)
Theorem inet_chksum_is_rfc1071 s (p : option pptr) (d rest : list Z) (addr src dest proto proto_len chksum_len : Z) :
  Forall byte d -> zlen d <= 65535 -> holds s p d -> wf_pseudo src dest proto proto_len -> 0 <= chksum_len < 0x7fff ->
  let header := pseudo_header src dest proto proto_len in
  inet_chksum addr (d ++ rest) (zlen d) = Ok (lwip_htons (rfc1071 d)) /\
  inet_chksum_pbuf addr_of s p = Ok (lwip_htons (rfc1071 d)) /\
  inet_chksum_pseudo addr_of s p src dest proto proto_len = Ok (lwip_htons (rfc1071 (header ++ d))) /\
  inet_chksum_pseudo_partial addr_of s p src dest proto proto_len chksum_len =
    Ok (lwip_htons (rfc1071 (header ++ take (Z.to_nat chksum_len) d))).
Proof.
  intros Hd Hl Hs Hw Hn header. split_and!; [| |by apply inet_chksum_pseudo_ok|].
  - unfold inet_chksum. destruct (standard_chksum_ok addr d rest Hd Hl) as (c & -> & B & F). cbn [obind].
    rewrite lnot16 by lia. f_equal. by apply rfc1071_ok.
  - unfold inet_chksum_pbuf. destruct (holds_sum s p d Hd Hl Hs) as (acc & sw & -> & B & E). cbn [obind].
    rewrite land_16, Z.mod_small, lnot16 by lia. f_equal. by apply rfc1071_ok.
  - unfold inet_chksum_pseudo_partial. destruct Hs as (l & Hc & Ho & Hcon).
    destruct (partial_sum_ok addr_of (S (chain_fuel s)) s p l chksum_len 0 0 [] d Hc Ho Hcon) as (acc2 & sw2 & -> & B2 & F2);
      try done; [pose proof (chain_length _ _ _ Hc); unfold chain_fuel; lia|split_and!; try done; by apply oceq_refl|].
    cbn [obind]. f_equal. apply pseudo_finish_ok; try done. by apply Forall_take.
Qed.

(** The result is zero exactly for a sum that is a positive multiple of 65535. *)
Lemma rfc1071_zero bs :
  Forall byte bs -> (lwip_htons (rfc1071 bs) = 0 <-> oceq (le_num bs) 65535).
Proof.
  intros Hb. destruct (rfc1071_compl bs Hb) as (x & Hx & Ex & -> & _). split; intros Hz.
  - replace x with 65535 in Ex by lia. by apply oceq_sym.
  - assert (x = 65535); [|lia]. apply oceq_eq; [|lia..]. by eapply oceq_trans.
Qed.

(** A checksum stored at an even offset is added to the sum. *)
Lemma le_num_put bs1 c bs2 :
  Forall byte bs1 -> zlen bs1 mod 2 = 0 -> Forall byte bs2 -> Forall byte (le2 c) ->
  oceq (le_num (bs1 ++ le2 c ++ bs2)) (le_num (bs1 ++ [0; 0] ++ bs2) + le_num (le2 c)).
Proof.
  intros H1 He H2 Hc. pose proof (le_num_nonneg _ H1) as ?%oceq_refl. pose proof (le_num_nonneg _ H2) as ?%oceq_refl.
  pose proof (le_num_nonneg _ Hc) as ?%oceq_refl. assert (Hz : Forall byte [0; 0]) by by repeat constructor.
  assert (forall m x, Forall byte m -> zlen m mod 2 = 0 -> oceq (le_num m) x ->
    oceq (le_num (bs1 ++ m ++ bs2)) (le_num bs1 + (x + le_num bs2))) as Hm.
  { intros m x Hm Hl Hx. apply le_num_app_even; [done|by apply Forall_app|done|done|]. by apply le_num_app_even. }
  eapply oceq_trans; [by apply (Hm (le2 c))|]. rewrite (Z.add_comm (le_num (le2 c))), Z.add_assoc.
  apply oceq_add; [|done]. apply oceq_sym.
  specialize (Hm [0; 0] 0 Hz eq_refl (oceq_refl 0 ltac:(done))). by rewrite Z.add_0_l in Hm.
Qed.

(** A byte has a weight of 1 or 256. *)
Lemma le_num_insert bs i v b :
  bs !! i = Some b -> exists k, le_num (<[i := v]> bs) = le_num bs + weight (Z.of_nat i) * (v - b) + 65535 * k.
Proof.
  revert i. induction bs as [|b0 bs IH]; intros [|i] Hi; [done..| |]; cbn in *.
  - injection Hi as ->. exists 0. change (weight (Z.of_nat 0)) with 1. lia.
  - destruct (IH i Hi) as [k Hk]. setoid_rewrite (Hk : le_num (list_insert i v bs) = _). unfold weight in *. destruct (Z.eqb_spec (Z.of_nat i mod 2) 0) as [E|E].
    + replace (Z.of_nat (S i) mod 2) with 1 by zparity. exists (256 * k). cbn. lia.
    + replace (Z.of_nat (S i) mod 2) with 0 by zparity. exists (256 * k + (v - b)). cbn. lia.
Qed.

(** The checksum does its work. Of a segment with a zeroed checksum field at an even offset, take the checksum that
    inet_chksum_pseudo returns and store it in the field, as the host stores a 16-bit value: a receiver that sums the segment as
    it arrives (in whatever buffers) gets zero, which is the test of tcp_input and udp_input; and it does not get zero when a
    single byte of the segment has been changed, wherever it is. *)
Theorem inet_chksum_verifies s s' s'' (p p' p'' : option pptr) (pre post : list Z) (src dest proto proto_len c : Z) (i : nat) (b v : Z) :
  let sent := pre ++ le2 c ++ post in
  Forall byte (pre ++ post) -> zlen pre mod 2 = 0 -> zlen sent <= 65535 -> wf_pseudo src dest proto proto_len ->
  holds s p (pre ++ [0; 0] ++ post) -> inet_chksum_pseudo addr_of s p src dest proto proto_len = Ok c ->
  holds s' p' sent -> sent !! i = Some b -> byte v -> v <> b -> holds s'' p'' (<[i := v]> sent) ->
  inet_chksum_pseudo addr_of s' p' src dest proto proto_len = Ok 0 /\
  exists r, inet_chksum_pseudo addr_of s'' p'' src dest proto proto_len = Ok r /\ r <> 0.
Proof.
  intros sent Hb He Hl Hw Hs Hc Hs' Hi Hv Hne Hs''. apply Forall_app in Hb as [Hpre Hpost].
  destruct (pseudo_bytes _ _ _ _ Hw) as (Fh & Lh & _).
  assert (Hb0 : Forall byte (pre ++ [0; 0] ++ post)) by (apply Forall_app; split; [done|]; apply Forall_app; split; [by repeat constructor|done]).
  assert (Hl0 : zlen (pre ++ [0; 0] ++ post) <= 65535) by (unfold sent in Hl; rewrite !zlen_app in *; exact Hl).
  rewrite (inet_chksum_pseudo_ok s p _ _ _ _ _ Hb0 Hl0 Hs Hw) in Hc.
  set (hdr := pseudo_header src dest proto proto_len) in *.
  assert (Hc' : c = lwip_htons (rfc1071 (hdr ++ pre ++ [0; 0] ++ post))) by congruence. clear Hc.
  assert (Fh0 : Forall byte (hdr ++ pre ++ [0; 0] ++ post)) by (by apply Forall_app).
  destruct (rfc1071_compl _ Fh0) as (x & Hx & Ex & Er & _). rewrite Er in Hc'. subst c.
  destruct (le_num_le2 (65535 - x)) as [Ec Fc]; [lia|]. fold sent in Hl, Hs', Hi, Hs''.
  assert (Fs : Forall byte sent) by (apply Forall_app; split; [done|by apply Forall_app]).
  assert (Es : oceq (le_num (hdr ++ sent)) 65535).
  { unfold sent. rewrite app_assoc in Ex |- *.
    assert (Fhp : Forall byte (hdr ++ pre)) by (by apply Forall_app).
    assert (Hep : zlen (hdr ++ pre) mod 2 = 0) by (rewrite zlen_app, Lh; zparity).
    eapply oceq_trans; [by apply le_num_put|]. rewrite Ec.
    replace 65535 with (x + (65535 - x)) at 2 by lia. apply oceq_add; [by apply oceq_sym|apply oceq_refl; lia]. }
  assert (Fsi : Forall byte (<[i := v]> sent)) by (by apply Forall_insert).
  split.
  - rewrite (inet_chksum_pseudo_ok s' p' _ _ _ _ _ Fs Hl Hs' Hw). f_equal. apply rfc1071_zero; [by apply Forall_app|done].
  - eexists. rewrite (inet_chksum_pseudo_ok s'' p'' (<[i := v]> sent)); try done; [|by unfold zlen; rewrite length_insert].
    split; [done|]. fold hdr. intros Hz%rfc1071_zero; [|by apply Forall_app].
    assert (Hih : (hdr ++ sent) !! (length hdr + i)%nat = Some b) by (rewrite lookup_app_r by lia; by rewrite Nat.add_comm, Nat.add_sub).
    destruct (le_num_insert _ _ v _ Hih) as [k Hk]. rewrite insert_app_r in Hk. rewrite Hk in Hz.
    destruct Hz as (_ & _ & _ & k1 & Hk1). destruct Es as (_ & _ & _ & k2 & Hk2).
    assert (Hbb : byte b) by (eapply Forall_lookup_1; [|exact Hi]; done).
    unfold byte in Hv, Hbb. unfold weight in *. destruct (_ =? _); lia.
Qed.
End Claims.

(** ** Concrete packets *)

(** A chain of two PBUF_RAM pbufs, their payloads at offset 1. *)
Definition packet_buf (nxt : option pptr) (tot : Z) (bs : list Z) : pbuf :=
  PbufC nxt (LBuf 1) tot (zlen bs) PBUF_RAM 0 1 (None :: (Some <$> bs)).
Definition packet (bs1 bs2 : list Z) : pstate (H := memheap) :=
  PState (<[PHeap 8 := packet_buf (Some (PHeap 600)) (zlen bs1 + zlen bs2) bs1]>
    (<[PHeap 600 := packet_buf None (zlen bs2) bs2]> ∅)) (MemHeap ∅ 0) (MempState [] ∅) ∅ ∅ [].
Definition packet_addr (p : pptr) (b : pbuf) : Z := match p with PHeap o => o + 1 | _ => 0 end.

Lemma packet_own nxt tot bs : own (packet_buf nxt tot bs) /\ bytes_of (packet_buf nxt tot bs) = Some <$> bs.
Proof.
  unfold own, bytes_of, packet_buf. cbn. rewrite zlen_cons. unfold zlen. rewrite length_fmap. split; [lia|].
  rewrite Nat2Z.id. cbn. apply take_ge. by rewrite length_fmap.
Qed.

Lemma packet_holds bs1 bs2 : holds (packet bs1 bs2) (Some (PHeap 8)) (bs1 ++ bs2).
Proof.
  exists [(PHeap 8, packet_buf (Some (PHeap 600)) (zlen bs1 + zlen bs2) bs1); (PHeap 600, packet_buf None (zlen bs2) bs2)].
  split_and!; [by cbn..| |].
  - do 2 (constructor; [eapply packet_own|]). constructor.
  - cbn [contents]. rewrite !(proj2 (packet_own _ _ _)), app_nil_r. by rewrite fmap_app.
Qed.

Lemma chksum_algorithms_agree_witness :
  let d := [69; 0; 255; 1; 2; 3; 4; 5; 6; 7; 8] in
  lwip_standard_chksum_1 (d ++ [170]) 11 = Ok 4440 /\ lwip_standard_chksum 1 (d ++ [170]) 11 = Ok 4440 /\
  lwip_standard_chksum_3 1 (d ++ [170]) 11 = Ok 4440.
Proof.
  destruct (chksum_algorithms_agree 1 [69; 0; 255; 1; 2; 3; 4; 5; 6; 7; 8] [170]) as (E1 & E2 & E3);
    [repeat constructor; unfold byte; lia|done|]. vm_compute in E1, E2, E3 |- *. by split_and!.
Defined.

Lemma inet_chksum_is_rfc1071_witness :
  let d := [192; 168; 0] ++ [10; 77] in
  holds (packet [192; 168; 0] [10; 77]) (Some (PHeap 8)) d /\
  inet_chksum_pseudo packet_addr (packet [192; 168; 0] [10; 77]) (Some (PHeap 8)) 3232235521 3232235522 17 5 =
    Ok (lwip_htons (rfc1071 (pseudo_header 3232235521 3232235522 17 5 ++ d))).
Proof.
  intros d. split; [apply packet_holds|].
  destruct (inet_chksum_is_rfc1071 packet_addr (packet [192; 168; 0] [10; 77]) (Some (PHeap 8)) d [] 7 3232235521 3232235522 17 5 4)
    as (_ & _ & E & _); [repeat constructor; unfold byte; lia|done|apply packet_holds|unfold wf_pseudo; lia|lia|exact E].
Defined.

(** The assertion fails within the length of a packet: 0x7fff bytes are asked for and the first buffer is empty. *)
Example partial_asserts :
  inet_chksum_pseudo_partial packet_addr (packet [] [10; 77]) (Some (PHeap 8)) 3232235521 3232235522 17 5 0x7fff = UB.
Proof. vm_compute. reflexivity. Qed.

(** A UDP header with its checksum and one byte of data. *)
Lemma inet_chksum_verifies_witness :
  let pre := [4; 210; 0; 53; 0; 9] in let sent := pre ++ le2 21605 ++ [65] in
  inet_chksum_pseudo packet_addr (packet [4; 210; 0] [53; 0; 9; 0; 0; 65]) (Some (PHeap 8)) 3232235521 3232235522 17 9 = Ok 21605 /\
  inet_chksum_pseudo packet_addr (packet pre (le2 21605 ++ [65])) (Some (PHeap 8)) 3232235521 3232235522 17 9 = Ok 0 /\
  exists r, inet_chksum_pseudo packet_addr (packet [] (<[8%nat := 66]> sent)) (Some (PHeap 8)) 3232235521 3232235522 17 9 = Ok r /\
    r <> 0.
Proof.
  intros pre sent. assert (E : inet_chksum_pseudo packet_addr (packet [4; 210; 0] [53; 0; 9; 0; 0; 65]) (Some (PHeap 8))
    3232235521 3232235522 17 9 = Ok 21605) by (vm_compute; reflexivity).
  split; [exact E|].
  apply (inet_chksum_verifies packet_addr (packet [4; 210; 0] [53; 0; 9; 0; 0; 65]) (packet pre (le2 21605 ++ [65]))
    (packet [] (<[8%nat := 66]> sent)) (Some (PHeap 8)) (Some (PHeap 8)) (Some (PHeap 8)) pre [65]
    3232235521 3232235522 17 9 21605 8 65 66).
  - repeat constructor; unfold byte; lia.
  - done.
  - done.
  - unfold wf_pseudo. lia.
  - apply (packet_holds [4; 210; 0] [53; 0; 9; 0; 0; 65]).
  - exact E.
  - apply (packet_holds pre (le2 21605 ++ [65])).
  - done.
  - unfold byte. lia.
  - lia.
  - apply (packet_holds [] (<[8%nat := 66]> sent)).
Defined.
