(* ===== verification/IpAddr.v ===== *)
(** * Internet addresses: lwip_v1.3.2/src/core/ipv4/ip_addr.c, core/def.c

    Addresses are 32-bit words in network byte order on a little endian
    machine: the first byte of the dotted form is the low byte. *)

From S2P Require Import Prelude CStd.

(** ** Byte order: def.c *)

Definition lwip_htonl (n : Z) : Z :=
  u32 (Z.lor (Z.lor (Z.lor (Z.shiftl (Z.land n 0xff) 24) (Z.shiftl (Z.land n 0xff00) 8))
                    (Z.shiftr (Z.land n 0xff0000) 8)) (Z.shiftr (Z.land n 0xff000000) 24)).
Definition lwip_ntohl (n : Z) : Z := lwip_htonl n.

(** ** ip_addr.c *)

Definition IPADDR_NONE : Z := 0xffffffff.
Definition IPADDR_ANY : Z := 0.
Definition IPADDR_BROADCAST : Z := 0xffffffff.
Definition NETIF_FLAG_BROADCAST : Z := 2.

(** What the functions read of a struct netif. *)
Record netif_addr : Type := NetifAddr {
  nf_flags : Z;
  nf_ip_addr : Z;
  nf_netmask : Z;
}.

Definition u32_not (n : Z) : Z := u32 (Z.lnot n).

Definition ip_addr_netcmp (addr1 addr2 mask : Z) : bool := Z.land addr1 mask =? Z.land addr2 mask.

Definition ip4_addr_isbroadcast (addr : Z) (netif : netif_addr) : Z :=
  if (u32_not addr =? IPADDR_ANY) || (addr =? IPADDR_ANY) then 1
  else if Z.land (nf_flags netif) NETIF_FLAG_BROADCAST =? 0 then 0
  else if addr =? nf_ip_addr netif then 0
  else if ip_addr_netcmp addr (nf_ip_addr netif) (nf_netmask netif) &&
          (Z.land addr (u32_not (nf_netmask netif)) =? Z.land IPADDR_BROADCAST (u32_not (nf_netmask netif))) then 1
  else 0.

(** The two loops over the mask, 1 << 31 down to 0. *)
Fixpoint first_zero (fuel : nat) (nm mask : Z) : outcome Z :=
  match fuel with
  | O => NoFuel
  | S fuel =>
      if mask =? 0 then Ok mask
      else if Z.land nm mask =? 0 then Ok mask else first_zero fuel nm (Z.shiftr mask 1)
  end.

Fixpoint no_one (fuel : nat) (nm mask : Z) : outcome Z :=
  match fuel with
  | O => NoFuel
  | S fuel =>
      if mask =? 0 then Ok 1
      else if negb (Z.land nm mask =? 0) then Ok 0 else no_one fuel nm (Z.shiftr mask 1)
  end.

Definition mask_fuel : nat := 33.

Definition ip4_addr_netmask_valid (netmask : Z) : outcome Z :=
  let nm_hostorder := lwip_htonl netmask in
  let! mask := first_zero mask_fuel nm_hostorder (Z.shiftl 1 31) in
  no_one mask_fuel nm_hostorder mask.

(** *** Parsing *)

Definition in_range (c lo up : Z) : bool := (lo <=? c) && (c <=? up).
Definition isxdigit (c : Z) : bool := is_digit c || in_range c 97 102 || in_range c 65 70.
Definition islower (c : Z) : bool := in_range c 97 122.
Definition isspace (c : Z) : bool :=
  (c =? 32) || (c =? 12) || (c =? 10) || (c =? 13) || (c =? 9) || (c =? 11).

(** The inner loop: [cp] starts at the character c; the number and the
    memory from the character that ends it. *)
Fixpoint collect (base : Z) (cp : list Z) (val : Z) : outcome (Z * list Z) :=
  match cp with
  | [] => UB
  | c :: r =>
      if is_digit c then collect base r (u32 (u32 (val * base) + (c - 48)))
      else if (base =? 16) && isxdigit c then
        collect base r (Z.lor (u32 (Z.shiftl val 4)) (u32 (c + 10 - (if islower c then 97 else 65))))
      else Ok (val, cp)
  end.

(** 0x, 0 or none. *)
Definition base_prefix (cp : list Z) : outcome (Z * list Z) :=
  let! c := rd cp 0 in
  if c =? 48 then
    let cp := tail cp in
    let! c := rd cp 0 in
    if (c =? 120) || (c =? 88) then Ok (16, tail cp) else Ok (8, cp)
  else Ok (10, cp).

(** The outer loop: the parts before the last, the last, and the memory from
    the character that ended it; [None] for the two early returns. *)
Fixpoint aton_parts (fuel : nat) (cp parts : list Z) : outcome (option (list Z * Z * list Z)) :=
  match fuel with
  | O => NoFuel
  | S fuel =>
      let! c := rd cp 0 in
      if negb (is_digit c) then Ok None
      else
        let! (base, cp) := base_prefix cp in
        let! (val, cp) := collect base cp 0 in
        let! c := rd cp 0 in
        if c =? 46 then
          if 3 <=? zlen parts then Ok None else aton_parts fuel (tail cp) (parts ++ [val])
        else Ok (Some (parts, val, cp))
  end.

(** 1 and the address, or 0. *)
Definition ipaddr_aton (cp : list Z) : outcome (option Z) :=
  let! r := aton_parts 4 cp [] in
  match r with
  | None => Ok None
  | Some (parts, val, cp) =>
      let! c := rd cp 0 in
      if negb (c =? 0) && negb (isspace c) then Ok None
      else
        match parts with
        | [] => Ok (Some (lwip_htonl val))
        | [p0] => if 0xffffff <? val then Ok None else Ok (Some (lwip_htonl (Z.lor val (u32 (Z.shiftl p0 24)))))
        | [p0; p1] =>
            if 0xffff <? val then Ok None
            else Ok (Some (lwip_htonl (Z.lor val (Z.lor (u32 (Z.shiftl p0 24)) (u32 (Z.shiftl p1 16))))))
        | [p0; p1; p2] =>
            if 0xff <? val then Ok None
            else Ok (Some (lwip_htonl (Z.lor val (Z.lor (Z.lor (u32 (Z.shiftl p0 24)) (u32 (Z.shiftl p1 16))) (u32 (Z.shiftl p2 8))))))
        | _ => Ok None
        end
  end.

Definition ipaddr_addr (cp : list Z) : outcome Z :=
  let! r := ipaddr_aton cp in
  match r with Some a => Ok a | None => Ok IPADDR_NONE end.

(** *** Printing *)

(** The digits of a byte, least significant first, in the array [inv] of
    three. *)
Fixpoint byte_digits (fuel : nat) (ap : Z) (inv : list Z) (i : Z) : outcome (list Z * Z) :=
  match fuel with
  | O => NoFuel
  | S fuel =>
      let rem := ap mod 10 in
      let ap := ap / 10 in
      let! inv := wr inv i (48 + rem) in
      if ap =? 0 then Ok (inv, i + 1) else byte_digits fuel ap inv (i + 1)
  end.

(** while(i--): the digits to the buffer; [len] is also the offset of rp.
    [None] when the buffer is full. *)
Fixpoint put_digits (i : nat) (inv buf : list Z) (len : Z) (buflen : Z) : outcome (option Z * list Z) :=
  match i with
  | O => Ok (Some len, buf)
  | S i =>
      if buflen <=? len then Ok (None, buf)
      else
        let! d := rd inv (Z.of_nat i) in
        let! buf := wr buf len d in
        put_digits i inv buf (len + 1) buflen
  end.

Fixpoint ntoa_loop (aps : list Z) (inv buf : list Z) (len buflen : Z) : outcome (option Z * list Z) :=
  match aps with
  | [] => Ok (Some len, buf)
  | ap :: aps =>
      let! (inv, i) := byte_digits 3 ap inv 0 in
      let! (l, buf) := put_digits (Z.to_nat i) inv buf len buflen in
      match l with
      | None => Ok (None, buf)
      | Some len =>
          if buflen <=? len then Ok (None, buf)
          else let! buf := wr buf len 46 in ntoa_loop aps inv buf (len + 1) buflen
      end
  end.

(** The bytes of a word in memory. *)
Definition word_bytes (n : Z) : list Z := [n mod 256; n / 2 ^ 8 mod 256; n / 2 ^ 16 mod 256; n / 2 ^ 24 mod 256].

(** [true] for buf, [false] for NULL, and the buffer after the call; [inv]
    is not initialised. *)
Definition ipaddr_ntoa_r (addr : Z) (inv buf : list Z) (buflen : Z) : outcome (bool * list Z) :=
  let! (l, buf) := ntoa_loop (word_bytes addr) inv buf 0 buflen in
  match l with
  | None => Ok (false, buf)
  | Some len => let! buf := wr buf (len - 1) 0 in Ok (true, buf)
  end.

(** With the static buffer of 16 bytes. *)
Definition ipaddr_ntoa (addr : Z) (inv str : list Z) : outcome (bool * list Z) := ipaddr_ntoa_r addr inv str 16.

(** ** Theory: bytes of a word *)

Lemma word_bytes_val n : 0 <= n < 2 ^ 32 ->
  n = n mod 256 + (n / 2 ^ 8 mod 256) * 2 ^ 8 + (n / 2 ^ 16 mod 256) * 2 ^ 16 + (n / 2 ^ 24 mod 256) * 2 ^ 24.
Proof.
  intros Hn. pose proof (Z.div_mod n 256 ltac:(lia)). pose proof (Z.div_mod (n / 2 ^ 8) 256 ltac:(lia)).
  pose proof (Z.div_mod (n / 2 ^ 16) 256 ltac:(lia)). rewrite !Z.div_div in * by lia.
  change (2 ^ 8 * 256) with (2 ^ 16) in *. change (2 ^ 16 * 256) with (2 ^ 24) in *. change (n / 256) with (n / 2 ^ 8) in *.
  rewrite (Z.mod_small (n / 2 ^ 24)) by (split; [apply Z.div_pos; lia|apply Z.div_lt_upper_bound; lia]). lia.
Qed.

Lemma byte_mod n : 0 <= n mod 256 < 256.
Proof. apply Z.mod_pos_bound. lia. Qed.

(** The word of four bytes, first byte high. *)
Definition be32 (a b c d : Z) : Z := ((a * 2 ^ 8 + b) * 2 ^ 8 + c) * 2 ^ 8 + d.

Lemma be32_lor a b c d : 0 <= a < 256 -> 0 <= b < 256 -> 0 <= c < 256 -> 0 <= d < 256 ->
  Z.lor (Z.lor (Z.lor (a * 2 ^ 24) (b * 2 ^ 16)) (c * 2 ^ 8)) d = be32 a b c d.
Proof.
  intros Ha Hb Hc Hd. unfold be32.
  rewrite (lor_field a (b * 2 ^ 16) 24) by lia. replace (a * 2 ^ 24 + b * 2 ^ 16) with ((a * 2 ^ 8 + b) * 2 ^ 16) by lia.
  rewrite lor_field by lia. replace (_ * 2 ^ 16 + c * 2 ^ 8) with (((a * 2 ^ 8 + b) * 2 ^ 8 + c) * 2 ^ 8) by lia.
  by rewrite lor_field by lia.
Qed.

Lemma be32_range a b c d : 0 <= a < 256 -> 0 <= b < 256 -> 0 <= c < 256 -> 0 <= d < 256 -> 0 <= be32 a b c d < 2 ^ 32.
Proof. unfold be32. lia. Qed.

Lemma htonl_val n : 0 <= n < 2 ^ 32 ->
  lwip_htonl n = be32 (n mod 256) (n / 2 ^ 8 mod 256) (n / 2 ^ 16 mod 256) (n / 2 ^ 24 mod 256).
Proof.
  intros Hn. unfold lwip_htonl.
  change 0xff with (255 * 2 ^ 0). change 0xff00 with (255 * 2 ^ 8). change 0xff0000 with (255 * 2 ^ 16).
  change 0xff000000 with (255 * 2 ^ 24). rewrite !land_byte by lia.
  rewrite !Z.shiftl_mul_pow2, !Z.shiftr_div_pow2 by lia. change (2 ^ 0) with 1. rewrite Z.div_1_r, Z.mul_1_r.
  pose proof (byte_mod n). pose proof (byte_mod (n / 2 ^ 8)). pose proof (byte_mod (n / 2 ^ 16)). pose proof (byte_mod (n / 2 ^ 24)).
  rewrite <- Z.mul_assoc. change (2 ^ 8 * 2 ^ 8) with (2 ^ 16). rewrite (Z.div_mul _ (2 ^ 24)) by lia.
  replace (n / 2 ^ 16 mod 256 * 2 ^ 16) with (n / 2 ^ 16 mod 256 * 2 ^ 8 * 2 ^ 8) by lia. rewrite Z.div_mul by lia.
  rewrite be32_lor by done. apply u32_small. by apply be32_range.
Qed.

Lemma be32_bytes a b c d : 0 <= a < 256 -> 0 <= b < 256 -> 0 <= c < 256 -> 0 <= d < 256 ->
  word_bytes (be32 a b c d) = [d; c; b; a].
Proof.
  intros Ha Hb Hc Hd. unfold word_bytes, be32.
  assert (Hm : forall x y, 0 <= y < 256 -> (x * 2 ^ 8 + y) mod 256 = y /\ (x * 2 ^ 8 + y) / 2 ^ 8 = x).
  { intros x y Hy. split; [symmetry; apply (Z.mod_unique _ _ x); lia|symmetry; apply (Z.div_unique _ _ x y); lia]. }
  change (2 ^ 24) with (2 ^ 8 * (2 ^ 8 * 2 ^ 8)). change (2 ^ 16) with (2 ^ 8 * 2 ^ 8). rewrite <- !Z.div_div by lia.
  destruct (Hm ((a * 2 ^ 8 + b) * 2 ^ 8 + c) d Hd) as [-> ->]. destruct (Hm (a * 2 ^ 8 + b) c Hc) as [-> ->].
  destruct (Hm a b Hb) as [-> ->]. by rewrite Z.mod_small.
Qed.

Lemma htonl_be32 a b c d : 0 <= a < 256 -> 0 <= b < 256 -> 0 <= c < 256 -> 0 <= d < 256 ->
  lwip_htonl (be32 a b c d) = be32 d c b a.
Proof.
  intros Ha Hb Hc Hd. rewrite htonl_val by by apply be32_range. pose proof (be32_bytes a b c d Ha Hb Hc Hd) as E.
  unfold word_bytes in E. by injection E as -> -> -> ->.
Qed.

(** The conversion is its own inverse. *)
Lemma htonl_htonl n : 0 <= n < 2 ^ 32 -> lwip_htonl (lwip_htonl n) = n.
Proof.
  intros Hn. rewrite (htonl_val n Hn), htonl_be32 by apply byte_mod. rewrite (word_bytes_val n Hn) at 5.
  unfold be32. lia.
Qed.

Lemma htonl_range n : 0 <= n < 2 ^ 32 -> 0 <= lwip_htonl n < 2 ^ 32.
Proof. intros Hn. rewrite htonl_val by done. apply be32_range; apply byte_mod. Qed.

(** ** Netmasks *)

(** The masks of the loops: the bit under position [n], then 0. *)
Definition mask_of (n : nat) : Z := match n with O => 0 | S n => 2 ^ Z.of_nat n end.

Lemma mask_of_S n : mask_of (S n) <> 0 /\ Z.shiftr (mask_of (S n)) 1 = mask_of n.
Proof.
  cbn [mask_of]. pose proof (Z.pow_pos_nonneg 2 (Z.of_nat n)). split; [lia|]. rewrite Z.shiftr_div_pow2 by lia.
  destruct n as [|n]; [done|]. cbn [mask_of]. rewrite Nat2Z.inj_succ, Z.pow_succ_r by lia. rewrite Z.mul_comm. by rewrite Z.div_mul.
Qed.

Lemma land_mask nm n : (Z.land nm (mask_of (S n)) =? 0) = negb (Z.testbit nm (Z.of_nat n)).
Proof.
  cbn [mask_of]. destruct (Z.testbit nm (Z.of_nat n)) eqn:E; cbn [negb].
  - apply Z.eqb_neq. intros H. apply (f_equal (fun x => Z.testbit x (Z.of_nat n))) in H.
    by rewrite Z.land_spec, E, Z.pow2_bits_true, Z.bits_0 in H by lia.
  - apply Z.eqb_eq, Z.bits_inj'. intros i Hi. rewrite Z.land_spec, Z.bits_0, Z.pow2_bits_eqb by lia.
    destruct (Z.eqb_spec (Z.of_nat n) i) as [<-|]; [by rewrite E|by rewrite andb_false_r].
Qed.

Lemma first_zero_spec nm n fuel :
  (n < fuel)%nat ->
  exists i, first_zero fuel nm (mask_of n) = Ok (mask_of i) /\ (i <= n)%nat /\
    (forall j, (i <= j < n)%nat -> Z.testbit nm (Z.of_nat j) = true) /\
    match i with O => True | S i => Z.testbit nm (Z.of_nat i) = false end.
Proof.
  revert fuel. induction n as [|n IH]; intros fuel Hf; (destruct fuel as [|fuel]; [lia|]).
  - exists O. by split_and!; [|lia|lia|].
  - cbn [first_zero]. destruct (mask_of_S n) as [Hz Hs]. rewrite land_mask.
    destruct (Z.eqb_spec (mask_of (S n)) 0) as [|_]; [done|]. destruct (Z.testbit nm (Z.of_nat n)) eqn:E; cbn [negb].
    + rewrite Hs. destruct (IH fuel) as (i & -> & Hi & Hj & Hb); [lia|]. exists i. split_and!; [done|lia| |done].
      intros j Hjn. destruct (decide (j = n)) as [->|]; [done|]. apply Hj. lia.
    + exists (S n). split_and!; [done|lia|lia|done].
Qed.

Lemma no_one_spec nm n fuel :
  (n < fuel)%nat ->
  (no_one fuel nm (mask_of n) = Ok 1 /\ forall j, (j < n)%nat -> Z.testbit nm (Z.of_nat j) = false) \/
  (no_one fuel nm (mask_of n) = Ok 0 /\ exists j, (j < n)%nat /\ Z.testbit nm (Z.of_nat j) = true).
Proof.
  revert fuel. induction n as [|n IH]; intros fuel Hf; (destruct fuel as [|fuel]; [lia|]).
  - left. by split; [|lia].
  - cbn [no_one]. destruct (mask_of_S n) as [Hz Hs]. rewrite land_mask, negb_involutive.
    destruct (Z.eqb_spec (mask_of (S n)) 0) as [|_]; [done|]. destruct (Z.testbit nm (Z.of_nat n)) eqn:E.
    + right. split; [done|]. exists n. split; [lia|done].
    + rewrite Hs. destruct (IH fuel) as [[-> Hj]|[-> (j & ? & ?)]]; [lia|left|right].
      * split; [done|]. intros j Hjn. destruct (decide (j = n)) as [->|]; [done|]. apply Hj. lia.
      * split; [done|]. exists j. split; [lia|done].
Qed.

Lemma prefix_bits k j : 0 <= k <= 32 -> 0 <= j -> Z.testbit (2 ^ 32 - 2 ^ k) j = (k <=? j) && (j <? 32).
Proof.
  intros Hk Hj. replace (2 ^ 32 - 2 ^ k) with (Z.shiftl (Z.ones (32 - k)) k).
  - rewrite Z.shiftl_spec by lia. destruct (Z.leb_spec k j); cbn [andb].
    + rewrite Z.testbit_ones_nonneg by lia. destruct (Z.ltb_spec (j - k) (32 - k)), (Z.ltb_spec j 32); done || lia.
    + by apply Z.testbit_neg_r; lia.
  - rewrite Z.shiftl_mul_pow2, Z.ones_equiv by lia. replace (2 ^ 32) with (2 ^ (32 - k) * 2 ^ k); [lia|].
    rewrite <- Z.pow_add_r by lia. f_equal. lia.
Qed.

(** ip4_addr_netmask_valid accepts exactly the masks with a run of ones
    and then only zeros: the words 2^32 - 2^k, for a prefix of 32 - k bits,
    k from 0 to 32; on every other word it returns 0. *)
Theorem netmask_valid_prefix (netmask : Z) :
  0 <= netmask < 2 ^ 32 ->
  exists r, ip4_addr_netmask_valid netmask = Ok r /\ (r = 0 \/ r = 1) /\
    (r = 1 <-> exists k, 0 <= k <= 32 /\ lwip_ntohl netmask = 2 ^ 32 - 2 ^ k).
Proof.
  intros Hm. unfold ip4_addr_netmask_valid, lwip_ntohl. pose proof (htonl_range netmask Hm) as Hr. set (nm := lwip_htonl netmask) in *.
  destruct (first_zero_spec nm 32 mask_fuel) as (i & E & Hi & Hones & Hz); [unfold mask_fuel; lia|].
  change (Z.shiftl 1 31) with (mask_of 32). rewrite E. cbn [obind]. clear E.
  assert (Hhigh : forall j, 32 <= j -> Z.testbit nm j = false).
  { intros j Hj. apply Z.testbit_false; [lia|]. rewrite Z.div_small; [done|]. pose proof (Z.pow_le_mono_r 2 32 j). lia. }
  destruct (no_one_spec nm i mask_fuel) as [[-> Hj]|[-> (j & Hj & Hb)]]; [unfold mask_fuel; lia|exists 1|exists 0]; split_and!; auto.
  - split; [|done]. intros _. exists (Z.of_nat i). split; [lia|]. apply Z.bits_inj'. intros j Hj0. rewrite prefix_bits by lia.
    destruct (Z.leb_spec (Z.of_nat i) j), (Z.ltb_spec j 32); cbn [andb]; try (by apply Hhigh; lia).
    + specialize (Hones (Z.to_nat j)). rewrite Z2Nat.id in Hones by lia. apply Hones. lia.
    + specialize (Hj (Z.to_nat j)). rewrite Z2Nat.id in Hj by lia. apply Hj. lia.
  - split; [done|]. intros (k & Hk & Ek). exfalso. rewrite Ek, prefix_bits in Hb by lia.
    destruct i as [|i]; [lia|]. rewrite Ek, prefix_bits in Hz by lia. ztests; done.
Qed.

Lemma netmask_valid_prefix_witness : 0 <= 0xf8ffff < 2 ^ 32 /\
  exists r, ip4_addr_netmask_valid 0xf8ffff = Ok r /\ (r = 0 \/ r = 1) /\
    (r = 1 <-> exists k, 0 <= k <= 32 /\ lwip_ntohl 0xf8ffff = 2 ^ 32 - 2 ^ k).
Proof. split; [lia|]. apply (netmask_valid_prefix 0xf8ffff). lia. Defined.

(** ** The dotted form *)

Definition dotted (addr : Z) : list Z :=
  dec (addr mod 256) ++ 46 :: dec (addr / 2 ^ 8 mod 256) ++ 46 :: dec (addr / 2 ^ 16 mod 256) ++ 46 :: dec (addr / 2 ^ 24 mod 256).

Lemma dec_step n : 0 <= n -> dec n = if n <? 10 then [48 + n] else dec (n / 10) ++ [48 + n mod 10].
Proof.
  intros Hn. apply dec_unique. destruct (Z.ltb_spec n 10).
  - split; [unfold dval; simpl; lia| |done|by left]. repeat constructor. rewrite <- (Z.mod_small n 10) by lia. apply digit_mod.
  - apply dec_of_snoc; [lia|]. apply dec_spec, Z.div_pos; lia.
Qed.

(** *** Printing *)

Lemma byte_digits_ok fuel ap pre rest :
  0 <= ap < 10 ^ Z.of_nat fuel -> (0 < fuel)%nat -> Z.of_nat fuel <= zlen rest ->
  byte_digits fuel ap (pre ++ rest) (zlen pre) =
    Ok (pre ++ rev (dec ap) ++ drop (length (dec ap)) rest, zlen pre + zlen (dec ap)).
Proof.
  revert ap pre rest. induction fuel as [|fuel IH]; intros ap pre rest Hap Hf Hl; [lia|].
  destruct rest as [|x rest]; [unfold zlen in Hl; cbn in Hl; lia|]. rewrite zlen_cons in Hl.
  cbn [byte_digits]. rewrite Nat2Z.inj_succ, Z.pow_succ_r in Hap by lia. rewrite wr_mid by done. cbn [obind].
  pose proof (Z.div_mod ap 10 ltac:(lia)). pose proof (Z.mod_pos_bound ap 10 ltac:(lia)).
  rewrite (dec_step ap) by lia. destruct (Z.ltb_spec ap 10).
  - rewrite Z.div_small, Z.mod_small by lia. done.
  - destruct (Z.eqb_spec (ap / 10) 0); [lia|].
    change (pre ++ 48 + ap mod 10 :: rest) with (pre ++ [48 + ap mod 10] ++ rest). rewrite app_assoc.
    replace (zlen pre + 1) with (zlen (pre ++ [48 + ap mod 10])) by (rewrite zlen_app; done).
    rewrite IH; [|split; [lia|apply Z.div_lt_upper_bound; lia]|destruct fuel; [change (10 ^ Z.of_nat 0) with 1 in Hap|]; lia|lia].
    rewrite rev_app_distr, !zlen_app, length_app, <- !app_assoc. cbn [rev app length]. rewrite Nat.add_1_r. cbn [drop].
    f_equal. f_equal. change (zlen [48 + ap mod 10]) with 1. lia.
Qed.

Lemma put_digits_ok ds tl pre rest :
  put_digits (length ds) (rev ds ++ tl) (pre ++ rest) (zlen pre) (zlen (pre ++ rest)) =
    if zlen ds <=? zlen rest then Ok (Some (zlen pre + zlen ds), pre ++ ds ++ drop (length ds) rest)
    else Ok (None, pre ++ take (length rest) ds).
Proof.
  revert tl pre rest. induction ds as [|d ds IH]; intros tl pre rest.
  - cbn. rewrite zlen_nil, Z.add_0_r. destruct (Z.leb_spec 0 (zlen rest)); [done|]. pose proof (zlen_nonneg rest). lia.
  - cbn [put_digits length rev]. rewrite zlen_app, zlen_cons. destruct rest as [|x rest].
    + rewrite zlen_nil, Z.add_0_r. destruct (Z.leb_spec (zlen pre) (zlen pre)); [|lia].
      pose proof (zlen_nonneg ds). destruct (Z.leb_spec (zlen ds + 1) 0); [lia|]. done.
    + pose proof (zlen_nonneg rest). rewrite zlen_cons. destruct (Z.leb_spec (zlen pre + (zlen rest + 1)) (zlen pre)); [lia|].
      rewrite <- app_assoc. cbn [app]. rewrite rd_mid by (unfold zlen; by rewrite length_rev). cbn [obind]. rewrite wr_mid by done. cbn [obind].
      change (pre ++ d :: rest) with (pre ++ [d] ++ rest). rewrite app_assoc.
      replace (zlen pre + 1) with (zlen (pre ++ [d])) by (rewrite zlen_app; done).
      replace (zlen pre + (zlen rest + 1)) with (zlen ((pre ++ [d]) ++ rest)) by (rewrite !zlen_app; change (zlen [d]) with 1; lia).
      rewrite IH. destruct (Z.leb_spec (zlen ds) (zlen rest)), (Z.leb_spec (zlen ds + 1) (zlen rest + 1)); try lia.
      * rewrite zlen_app, <- app_assoc. change (zlen [d]) with 1. cbn [app drop length]. f_equal. f_equal. f_equal. lia.
      * rewrite <- app_assoc. done.
Qed.

(** The text of some bytes, each with a point after it. *)
Definition pointed (aps : list Z) : list Z := concat (map (fun b => dec b ++ [46]) aps).

Lemma ntoa_loop_ok aps inv pre rest :
  Forall (fun b => 0 <= b < 256) aps -> zlen inv = 3 ->
  if zlen (pointed aps) <=? zlen rest then
    ntoa_loop aps inv (pre ++ rest) (zlen pre) (zlen (pre ++ rest)) =
      Ok (Some (zlen pre + zlen (pointed aps)), pre ++ pointed aps ++ drop (length (pointed aps)) rest)
  else exists buf, ntoa_loop aps inv (pre ++ rest) (zlen pre) (zlen (pre ++ rest)) = Ok (None, buf) /\ zlen buf = zlen (pre ++ rest).
Proof.
  intros Hf. revert inv pre rest. induction Hf as [|b aps Hb Hf IH]; intros inv pre rest Hinv.
  { cbn. rewrite zlen_nil, Z.add_0_r. destruct (Z.leb_spec 0 (zlen rest)); [done|]. pose proof (zlen_nonneg rest). lia. }
  cbn [ntoa_loop pointed map concat].
  pose proof (byte_digits_ok 3 b [] inv ltac:(change (10 ^ Z.of_nat 3) with 1000; lia) ltac:(lia) ltac:(lia)) as Hd.
  change (zlen (@nil Z)) with 0 in Hd. cbn [app] in Hd. rewrite Hd. cbn [obind]. replace (Z.to_nat (0 + zlen (dec b))) with (length (dec b)) by (unfold zlen; lia).
  rewrite put_digits_ok. fold (pointed aps). pose proof (zlen_nonneg (pointed aps)). rewrite !zlen_app. change (zlen [46]) with 1.
  destruct (dec_spec b ltac:(lia)) as [_ _ Hlen _]. pose proof (dec_len b 3 ltac:(lia) ltac:(lia)) as Hlen3.
  set (inv' := rev (dec b) ++ drop (length (dec b)) inv).
  assert (Hinv' : zlen inv' = 3) by (unfold inv', zlen in *; rewrite length_app, length_rev, length_drop; lia).
  destruct (Z.leb_spec (zlen (dec b)) (zlen rest)) as [Hle|Hgt]; cbn [obind].
  2: { destruct (Z.leb_spec (zlen (dec b) + 1 + zlen (pointed aps)) (zlen rest)); [lia|]. eexists. split; [done|].
       unfold zlen in *. rewrite length_app, length_take. lia. }
  set (rest1 := drop (length (dec b)) rest).
  assert (Hrest1 : zlen rest1 = zlen rest - zlen (dec b)) by (unfold rest1, zlen in *; rewrite length_drop; lia).
  destruct rest1 as [|x rest2] eqn:Er.
  - rewrite zlen_nil in Hrest1. destruct (Z.leb_spec (zlen pre + zlen rest) (zlen pre + zlen (dec b))); [|lia].
    destruct (Z.leb_spec (zlen (dec b) + 1 + zlen (pointed aps)) (zlen rest)); [lia|]. eexists. split; [done|].
    rewrite !zlen_app, zlen_nil. lia.
  - rewrite zlen_cons in Hrest1. pose proof (zlen_nonneg rest2).
    destruct (Z.leb_spec (zlen pre + zlen rest) (zlen pre + zlen (dec b))); [lia|].
    rewrite app_assoc. rewrite wr_mid by (rewrite zlen_app; lia). cbn [obind].
    change ((pre ++ dec b) ++ 46 :: rest2) with ((pre ++ dec b) ++ [46] ++ rest2). rewrite app_assoc.
    specialize (IH inv' ((pre ++ dec b) ++ [46]) rest2 Hinv'). rewrite !zlen_app in IH. change (zlen [46]) with 1 in IH.
    replace (zlen pre + zlen (dec b) + 1 + zlen rest2) with (zlen pre + zlen rest) in IH by lia.
    destruct (Z.leb_spec (zlen (pointed aps)) (zlen rest2)), (Z.leb_spec (zlen (dec b) + 1 + zlen (pointed aps)) (zlen rest)); try lia; [|exact IH].
    rewrite IH. f_equal. f_equal; [f_equal; lia|]. rewrite <- !app_assoc. do 3 f_equal.
    assert (E2 : rest2 = drop 1 rest1) by by rewrite Er.
    rewrite E2. unfold rest1. rewrite !drop_drop, !length_app. cbn [length]. do 2 f_equal.
Qed.

Lemma word_bytes_byte n : Forall (fun b => 0 <= b < 256) (word_bytes n).
Proof. repeat constructor; apply byte_mod. Qed.

Lemma pointed_dotted n : pointed (word_bytes n) = dotted n ++ [46].
Proof. unfold pointed, word_bytes, dotted. cbn [map concat]. rewrite app_nil_r. by list_norm. Qed.

(** *** Parsing *)

Lemma collect_digits ds c rest a :
  Forall (fun c => is_digit c = true) ds -> is_digit c = false -> 0 <= a -> a * 10 ^ zlen ds + dval ds < 2 ^ 32 ->
  collect 10 (ds ++ c :: rest) a = Ok (a * 10 ^ zlen ds + dval ds, c :: rest).
Proof.
  intros Hds Hc. revert a. induction Hds as [|d ds Hd Hds IH]; intros a Ha Hb.
  - cbn. rewrite Hc. do 2 f_equal. change (dval []) with 0. change (10 ^ zlen []) with 1. lia.
  - cbn [app collect]. rewrite Hd. apply digit_range in Hd as Hr. pose proof (dval_bound ds Hds). pose proof (zlen_nonneg ds).
    pose proof (Z.pow_pos_nonneg 10 (zlen ds)). rewrite zlen_cons, dval_cons in *. rewrite Z.pow_add_r in * by lia. change (10 ^ 1) with 10 in *.
    assert (a * 10 + (d - 48) <= a * (10 ^ zlen ds * 10) + (d - 48) * 10 ^ zlen ds) by nia.
    rewrite (u32_small (a * 10)), u32_small by lia. rewrite IH by nia. do 2 f_equal. nia.
Qed.

Lemma part_ok b c rest :
  0 <= b < 256 -> is_digit c = false -> c <> 120 -> c <> 88 ->
  exists d r base cp, dec b ++ c :: rest = d :: r /\ is_digit d = true /\
    base_prefix (dec b ++ c :: rest) = Ok (base, cp) /\ collect base cp 0 = Ok (b, c :: rest).
Proof.
  intros Hb Hc Hx HX. destruct (dec_spec b ltac:(lia)) as [Hv Hf Hl Hs]. pose proof (dec_len b 3 ltac:(lia) ltac:(lia)) as H3.
  destruct (dec b) as [|d ds] eqn:E; [unfold zlen in Hl; cbn in Hl; lia|]. apply Forall_cons_1 in Hf as [Hd Hf].
  cbn [app]. assert (exists base cp, base_prefix (d :: ds ++ c :: rest) = Ok (base, cp) /\ collect base cp 0 = Ok (b, c :: rest)) as (base & cp & ? & ?);
    [|by exists d, (ds ++ c :: rest), base, cp]. unfold base_prefix. cbn [rd tail]. change (rd (d :: ds ++ c :: rest) 0) with (@Ok Z d).
  cbn [obind]. destruct (Z.eqb_spec d 48) as [->|Hne].
  - assert (ds = []) as ->.
    { rewrite dval_cons, zlen_cons in *. pose proof (dval_bound ds Hf). pose proof (zlen_nonneg ds).
      destruct ds as [|d2 ds]; [done|]. exfalso. rewrite zlen_cons in *. pose proof (zlen_nonneg ds).
      destruct Hs as [?|Hs]; [lia|]. replace (zlen ds + 1 + 1 - 1) with (zlen ds + 1) in Hs by lia. lia. }
    cbn [app]. change (rd (c :: rest) 0) with (@Ok Z c). cbn [obind].
    destruct (Z.eqb_spec c 120), (Z.eqb_spec c 88); try done. cbn [orb]. eexists _, _. split; [done|]. cbn. rewrite Hc. do 2 f_equal.
    unfold dval in Hv. cbn in Hv. lia.
  - eexists _, _. split; [done|]. pose proof (collect_digits (d :: ds) c rest 0) as Hcd. rewrite Hv in Hcd. apply Hcd; [by constructor|done|lia|lia].
Qed.

Lemma rd_0 {A} (x : A) r : rd (x :: r) 0 = Ok x.
Proof. done. Qed.

(** Printing and parsing an address. For every address and every buffer,
    ipaddr_ntoa_r writes the dotted decimal text and its terminator if they
    fit, and otherwise returns NULL without writing past the buffer; and
    ipaddr_aton reads that text back as the address, whatever follows the
    terminator. The static buffer of ipaddr_ntoa, 16 bytes, is large enough. *)
Theorem ipaddr_roundtrip (addr : Z) (inv buf rest : list Z) :
  0 <= addr < 2 ^ 32 -> zlen inv = 3 ->
  (if zlen (dotted addr) <? zlen buf then
     ipaddr_ntoa_r addr inv buf (zlen buf) = Ok (true, dotted addr ++ 0 :: drop (S (length (dotted addr))) buf)
   else exists buf', ipaddr_ntoa_r addr inv buf (zlen buf) = Ok (false, buf') /\ zlen buf' = zlen buf) /\
  zlen (dotted addr) < 16 /\ ipaddr_aton (dotted addr ++ 0 :: rest) = Ok (Some addr).
Proof.
  intros Ha Hinv. split; [|split].
  - unfold ipaddr_ntoa_r. pose proof (ntoa_loop_ok (word_bytes addr) inv [] buf (word_bytes_byte addr) Hinv) as Hl.
    cbn [app] in Hl. rewrite zlen_nil, pointed_dotted, zlen_app in Hl. change (zlen [46]) with 1 in Hl.
    destruct (Z.leb_spec (zlen (dotted addr) + 1) (zlen buf)), (Z.ltb_spec (zlen (dotted addr)) (zlen buf)); try lia.
    + rewrite Hl. cbn [obind]. rewrite Z.add_0_l, <- app_assoc. cbn [app]. rewrite wr_mid by lia. cbn [obind].
      rewrite length_app. cbn [length]. by rewrite Nat.add_1_r.
    + destruct Hl as (buf' & -> & Hl). by exists buf'.
  - unfold dotted. repeat (rewrite zlen_app || rewrite zlen_cons).
    pose proof (byte_mod addr). pose proof (byte_mod (addr / 2 ^ 8)). pose proof (byte_mod (addr / 2 ^ 16)). pose proof (byte_mod (addr / 2 ^ 24)).
    pose proof (dec_len (addr mod 256) 3). pose proof (dec_len (addr / 2 ^ 8 mod 256) 3).
    pose proof (dec_len (addr / 2 ^ 16 mod 256) 3). pose proof (dec_len (addr / 2 ^ 24 mod 256) 3). lia.
  - unfold ipaddr_aton, dotted. list_norm.
    rewrite (word_bytes_val addr Ha) at 5.
    pose proof (byte_mod addr) as B0. pose proof (byte_mod (addr / 2 ^ 8)) as B1. pose proof (byte_mod (addr / 2 ^ 16)) as B2.
    pose proof (byte_mod (addr / 2 ^ 24)) as B3.
    set (b0 := addr mod 256) in *. set (b1 := addr / 2 ^ 8 mod 256) in *. set (b2 := addr / 2 ^ 16 mod 256) in *. set (b3 := addr / 2 ^ 24 mod 256) in *.
    assert (Hround : forall fuel b tl parts, 0 <= b < 256 -> zlen parts < 3 ->
      aton_parts (S fuel) (dec b ++ 46 :: tl) parts = aton_parts fuel tl (parts ++ [b])).
    { intros fuel b tl parts Hb Hp. destruct (part_ok b 46 tl Hb) as (d & r & base & cp & E & Hd & Eb & Ec); [done..|].
      cbn [aton_parts]. rewrite Eb, E, rd_0. cbn [obind]. rewrite Hd. cbn [negb]. rewrite Ec. cbn [obind]. rewrite rd_0. cbn [obind].
      change (46 =? 46) with true. cbn iota. destruct (Z.leb_spec 3 (zlen parts)); [lia|done]. }
    rewrite !Hround by done. destruct (part_ok b3 0 rest B3) as (d & r & base & cp & E & Hd & Eb & Ec); [done..|].
    cbn [aton_parts app]. rewrite Eb, E, rd_0. cbn [obind]. rewrite Hd. cbn [negb]. rewrite Ec. cbn [obind]. rewrite rd_0. cbn [obind].
    change (0 =? 46) with false. cbn iota. cbn [obind]. rewrite rd_0. cbn [obind]. change (0 =? 0) with true. cbn [negb andb].
    destruct (Z.ltb_spec 255 b3); [lia|]. rewrite !Z.shiftl_mul_pow2 by lia. rewrite !u32_small by lia.
    rewrite Z.lor_comm, be32_lor, htonl_be32 by done. do 2 f_equal. unfold be32. lia.
Qed.

Lemma ipaddr_roundtrip_witness :
  ipaddr_ntoa_r 0x1b01a8c0 [1; 2; 3] (replicate 14 9) 14 = Ok (true, codes "192.168.1.27" ++ [0; 9]) /\
  ipaddr_aton (codes "192.168.1.27" ++ [0]) = Ok (Some 0x1b01a8c0).
Proof.
  destruct (ipaddr_roundtrip 0x1b01a8c0 [1; 2; 3] (replicate 14 9) []) as (Hp & _ & Ha); [lia|done|]. split; [exact Hp|exact Ha].
Defined.

(** The parts before the last are not compared with 255 (the comments of the
    cases say 8 bits): the bits beyond a byte go into the part before. *)
Lemma ipaddr_aton_unchecked : ipaddr_aton (codes "1.256.0.0" ++ [0]) = ipaddr_aton (codes "1.0.0.0" ++ [0]) /\
  ipaddr_aton (codes "256.0.0.1" ++ [0]) = ipaddr_aton (codes "0.0.0.1" ++ [0]).
Proof. by vm_compute. Qed.

(** ** Broadcast addresses *)

(** What makes an address a broadcast address of an interface. *)
Lemma isbroadcast_spec addr netif :
  0 <= addr < 2 ^ 32 ->
  (ip4_addr_isbroadcast addr netif = 0 \/ ip4_addr_isbroadcast addr netif = 1) /\
  (ip4_addr_isbroadcast addr netif = 1 <->
    addr = IPADDR_ANY \/ addr = IPADDR_BROADCAST \/
    Z.land (nf_flags netif) NETIF_FLAG_BROADCAST <> 0 /\ addr <> nf_ip_addr netif /\
    Z.land addr (nf_netmask netif) = Z.land (nf_ip_addr netif) (nf_netmask netif) /\
    Z.land addr (u32_not (nf_netmask netif)) = Z.land IPADDR_BROADCAST (u32_not (nf_netmask netif))).
Proof.
  intros Ha. assert (Hnot : u32_not addr = IPADDR_ANY <-> addr = IPADDR_BROADCAST).
  { unfold u32_not, u32, Z.lnot, IPADDR_ANY, IPADDR_BROADCAST. rewrite <- (Z.mod_unique _ (2 ^ 32) (-1) (2 ^ 32 - 1 - addr)) by lia. lia. }
  unfold ip4_addr_isbroadcast, ip_addr_netcmp.
  destruct (Z.eqb_spec (u32_not addr) IPADDR_ANY), (Z.eqb_spec addr IPADDR_ANY); cbn [orb]; try (split; [by right|]; tauto).
  destruct (Z.eqb_spec (Z.land (nf_flags netif) NETIF_FLAG_BROADCAST) 0); [split; [by left|]; split; [done|tauto]|].
  destruct (Z.eqb_spec addr (nf_ip_addr netif)); [split; [by left|]; split; [done|tauto]|].
  destruct (Z.eqb_spec (Z.land addr (nf_netmask netif)) (Z.land (nf_ip_addr netif) (nf_netmask netif))); cbn [andb];
    [|split; [by left|]; split; [done|tauto]].
  destruct (Z.eqb_spec (Z.land addr (u32_not (nf_netmask netif))) (Z.land IPADDR_BROADCAST (u32_not (nf_netmask netif))));
    [split; [by right|]; tauto|split; [by left|]; split; [done|tauto]].
Qed.
