(* ===== verification/Timers.v ===== *)
(** * Timeouts: lwip_v1.3.2/src/core/timers.c

    The list of timeouts, each with the time from the one before it, and the
    wait of the lwIP thread for a message, during which handlers run. In the
    configuration of Project/FreeRTOS/working the handlers are those of TCP,
    ARP, DHCP and AUTOIP (which opt.h turns on). The elements come from the
    pool MEMP_SYS_TIMEOUT ([Memp]); here the number of its free elements is
    kept. *)

From S2P Require Import Prelude.

(** ** Data *)

Inductive sys_timeout_handler : Type :=
  | tcpip_tcp_timer
  | arp_timer
  | dhcp_timer_coarse
  | dhcp_timer_fine
  | autoip_timer
  | user_handler (n : Z).

#[export] Instance sys_timeout_handler_eq_dec : EqDecision sys_timeout_handler.
Proof. solve_decision. Defined.

Record sys_timeo : Type := Timeo {
  time : Z;
  th : sys_timeout_handler;
  targ : Z;
}.

Definition set_time (t : sys_timeo) (n : Z) : sys_timeo := Timeo n (th t) (targ t).

(** [next_timeout] is the list, [free_timeo] the elements of the pool that
    are free. *)
Record timers : Type := Timers {
  next_timeout : list sys_timeo;
  free_timeo : Z;
  tcpip_tcp_timer_active : bool;
}.

Definition set_timeouts (s : timers) (l : list sys_timeo) (n : Z) : timers := Timers l n (tcpip_tcp_timer_active s).
Definition set_active (s : timers) (b : bool) : timers := Timers (next_timeout s) (free_timeo s) b.

Definition TCP_TMR_INTERVAL : Z := 250.
Definition ARP_TMR_INTERVAL : Z := 5000.
Definition DHCP_COARSE_TIMER_MSECS : Z := 60 * 1000.
Definition DHCP_FINE_TIMER_MSECS : Z := 500.
Definition AUTOIP_TMR_INTERVAL : Z := 100.
Definition SYS_ARCH_TIMEOUT : Z := 0xffffffff.

(** ** sys_timeout *)

(** The loop over the list, from [t]; [timeout] with what is left of its
    time. *)
Fixpoint insert_timeout (t : sys_timeo) (r : list sys_timeo) (timeout : sys_timeo) : list sys_timeo :=
  let timeout := set_time timeout (u32 (time timeout - time t)) in
  match r with
  | [] => [t; timeout]
  | n :: r' =>
      if time timeout <? time n then t :: timeout :: set_time n (u32 (time n - time timeout)) :: r'
      else t :: insert_timeout n r' timeout
  end.

Definition sys_timeout (s : timers) (msecs : Z) (handler : sys_timeout_handler) (arg : Z) : timers :=
  if free_timeo s =? 0 then s
  else
    let n := free_timeo s - 1 in
    let timeout := Timeo msecs handler arg in
    match next_timeout s with
    | [] => set_timeouts s [timeout] n
    | t :: r =>
        if msecs <? time t then set_timeouts s (timeout :: set_time t (u32 (time t - msecs)) :: r) n
        else set_timeouts s (insert_timeout t r timeout) n
    end.

(** ** sys_untimeout *)

(** The list without the first match, [None] when there is none. *)
Fixpoint remove_timeout (l : list sys_timeo) (handler : sys_timeout_handler) (arg : Z) : option (list sys_timeo) :=
  match l with
  | [] => None
  | t :: r =>
      if bool_decide (th t = handler) && (targ t =? arg) then
        Some (match r with
              | [] => []
              | n :: r' => set_time n (u32 (time n + time t)) :: r'
              end)
      else option_map (cons t) (remove_timeout r handler arg)
  end.

Definition sys_untimeout (s : timers) (handler : sys_timeout_handler) (arg : Z) : timers :=
  match remove_timeout (next_timeout s) handler arg with
  | Some l => set_timeouts s l (free_timeo s + 1)
  | None => s
  end.

(** ** The handlers *)

(** Each calls its timer function and sets itself again, TCP only while
    there are connections ([tcp]: active or time-wait ones, after tcp_tmr). *)
Definition tcpip_tcp_timer_cb (s : timers) (tcp : bool) : timers :=
  if tcp then sys_timeout s TCP_TMR_INTERVAL tcpip_tcp_timer 0 else set_active s false.
Definition arp_timer_cb (s : timers) : timers := sys_timeout s ARP_TMR_INTERVAL arp_timer 0.
Definition dhcp_timer_coarse_cb (s : timers) : timers := sys_timeout s DHCP_COARSE_TIMER_MSECS dhcp_timer_coarse 0.
Definition dhcp_timer_fine_cb (s : timers) : timers := sys_timeout s DHCP_FINE_TIMER_MSECS dhcp_timer_fine 0.
Definition autoip_timer_cb (s : timers) : timers := sys_timeout s AUTOIP_TMR_INTERVAL autoip_timer 0.

(** The call through the pointer. *)
Definition run_handler (s : timers) (tcp : bool) (h : sys_timeout_handler) : timers :=
  match h with
  | tcpip_tcp_timer => tcpip_tcp_timer_cb s tcp
  | arp_timer => arp_timer_cb s
  | dhcp_timer_coarse => dhcp_timer_coarse_cb s
  | dhcp_timer_fine => dhcp_timer_fine_cb s
  | autoip_timer => autoip_timer_cb s
  | user_handler _ => s
  end.

Definition tcp_timer_needed (s : timers) (tcp : bool) : timers :=
  if negb (tcpip_tcp_timer_active s) && tcp then sys_timeout (set_active s true) TCP_TMR_INTERVAL tcpip_tcp_timer 0 else s.

Definition sys_timeouts_init (s : timers) : timers :=
  let s := sys_timeout s ARP_TMR_INTERVAL arp_timer 0 in
  let s := sys_timeout s DHCP_COARSE_TIMER_MSECS dhcp_timer_coarse 0 in
  let s := sys_timeout s DHCP_FINE_TIMER_MSECS dhcp_timer_fine 0 in
  sys_timeout s AUTOIP_TMR_INTERVAL autoip_timer 0.

(** ** Waiting for a message *)

(** One round of the loop, up to the next "goto again" ([Some] handler has
    run) or the arrival of a message ([None]). [time_needed] is what
    sys_arch_mbox_fetch returns; it is not called, and the value not used,
    when the first timeout has no time left. [tcp]: the connections after
    tcp_tmr. *)
Definition fetch_round (s : timers) (time_needed : Z) (tcp : bool) : option sys_timeo * timers :=
  match next_timeout s with
  | [] => (None, s)
  | t :: r =>
      let time_needed := if 0 <? time t then time_needed else SYS_ARCH_TIMEOUT in
      if time_needed =? SYS_ARCH_TIMEOUT then
        (Some t, run_handler (set_timeouts s r (free_timeo s + 1)) tcp (th t))
      else
        let left := if time_needed <? time t then u32 (time t - time_needed) else 0 in
        (None, set_timeouts s (set_time t left :: r) (free_timeo s))
  end.

(** The loop: [answers] for its rounds; [None] when it waits for more. *)
Fixpoint sys_timeouts_mbox_fetch (s : timers) (answers : list (Z * bool)) : option timers :=
  match answers with
  | [] => None
  | (time_needed, tcp) :: answers =>
      match fetch_round s time_needed tcp with
      | (None, s) => Some s
      | (Some _, s) => sys_timeouts_mbox_fetch s answers
      end
  end.

(** *** Without an operating system (NO_SYS) *)

(** The loop of sys_check_timeouts: with the timeouts it has run, and
    timeouts_last_time; [tcp k]: the connections when k rounds are left. *)
Fixpoint check_loop (fuel : nat) (s : timers) (last now diff : Z) (tcp : nat -> bool) : outcome (list sys_timeo * timers * Z) :=
  match fuel with
  | O => NoFuel
  | S fuel =>
      match next_timeout s with
      | [] => Ok ([], s, last)
      | t :: r =>
          if time t <=? diff then
            let s := run_handler (set_timeouts s r (free_timeo s + 1)) (tcp fuel) (th t) in
            let! (l, s, last) := check_loop fuel s now now (u32 (diff - time t)) tcp in Ok (t :: l, s, last)
          else Ok ([], s, last)
      end
  end.

Definition sys_check_timeouts (fuel : nat) (s : timers) (last now : Z) (tcp : nat -> bool) : outcome (list sys_timeo * timers * Z) :=
  match next_timeout s with
  | [] => Ok ([], s, last)
  | _ => check_loop fuel s last now (u32 (now - last)) tcp
  end.

Definition sys_restart_timeouts (now : Z) : Z := now.

(** ** The agenda: the deadlines a list stands for *)

Definition entry : Type := Z * sys_timeout_handler * Z.
Definition due (e : entry) : Z := fst (fst e).

(** The list at the time [b]. *)
Fixpoint agenda (b : Z) (l : list sys_timeo) : list entry :=
  match l with
  | [] => []
  | t :: r => (b + time t, th t, targ t) :: agenda (b + time t) r
  end.

(** After the entries that are due at the same time. *)
Fixpoint agenda_add (e : entry) (l : list entry) : list entry :=
  match l with
  | [] => [e]
  | x :: r => if due e <? due x then e :: l else x :: agenda_add e r
  end.

Fixpoint agenda_remove (h : sys_timeout_handler) (a : Z) (l : list entry) : list entry :=
  match l with
  | [] => []
  | x :: r => if bool_decide (snd (fst x) = h) && (snd x =? a) then r else x :: agenda_remove h a r
  end.

Definition times_ok (l : list sys_timeo) : Prop := Forall (fun t => 0 <= time t) l.

(** Every deadline is before [m]. *)
Definition wf (m b : Z) (l : list sys_timeo) : Prop := times_ok l /\ Forall (fun e => due e < m) (agenda b l).

Lemma wf_cons m b t r : wf m b (t :: r) <-> 0 <= time t /\ b + time t < m /\ wf m (b + time t) r.
Proof.
  unfold wf, times_ok. cbn [agenda]. split.
  - by intros [[? ?]%Forall_cons_1 [? ?]%Forall_cons_1].
  - intros (? & ? & ? & ?). split; by constructor.
Qed.

Lemma insert_timeout_agenda m b t r timeout :
  wf m b (t :: r) -> m <= b + 2 ^ 32 -> time t <= time timeout < 2 ^ 32 ->
  agenda b (insert_timeout t r timeout) = agenda_add (b + time timeout, th timeout, targ timeout) (agenda b (t :: r)) /\
  times_ok (insert_timeout t r timeout).
Proof.
  revert b t timeout. induction r as [|n r IH]; intros b t timeout (Ht0 & Hd0 & Hw)%wf_cons Hm Ht; cbn [insert_timeout].
  all: set (rest := set_time timeout (u32 (time timeout - time t))).
  all: assert (Hrest : time rest = time timeout - time t) by (unfold rest; cbn; by rewrite u32_small by lia).
  all: cbn [agenda agenda_add due fst]; destruct (Z.ltb_spec (b + time timeout) (b + time t)); [lia|].
  - rewrite Hrest. split.
    + cbn. by replace (b + time t + (time timeout - time t)) with (b + time timeout) by lia.
    + constructor; [done|]. constructor; [lia|constructor].
  - pose proof Hw as (Hn & Hdn & Hw')%wf_cons. cbn [agenda_add due fst]. rewrite Hrest.
    destruct (Z.ltb_spec (time timeout - time t) (time n)), (Z.ltb_spec (b + time timeout) (b + time t + time n)); try lia.
    + cbn [agenda time set_time]. rewrite Hrest, (u32_small (time n - _)) by lia. split.
      * cbn [th targ rest set_time]. replace (b + time t + (time timeout - time t)) with (b + time timeout) by lia.
        by replace (b + time timeout + (time n - (time timeout - time t))) with (b + time t + time n) by lia.
      * constructor; [done|]. constructor; [lia|]. constructor; [cbn; lia|]. by destruct Hw' as [? _].
    + destruct (IH (b + time t) n rest Hw) as [E Hok']; [lia|lia|]. cbn [agenda]. rewrite E, Hrest. split.
      * f_equal. replace (b + time t + (time timeout - time t)) with (b + time timeout) by lia. cbn [agenda agenda_add due fst th targ set_time rest].
        destruct (Z.ltb_spec (b + time timeout) (b + time t + time n)); [lia|done].
      * by constructor.
Qed.

Lemma agenda_add_elem e x l : x ∈ agenda_add e l <-> x = e \/ x ∈ l.
Proof.
  induction l as [|y r IH]; cbn; [by rewrite elem_of_cons|]. destruct (due e <? due y); rewrite ?elem_of_cons; [done|]. rewrite IH. tauto.
Qed.

Lemma agenda_add_perm e l : Permutation (agenda_add e l) (e :: l).
Proof.
  induction l as [|y r IH]; cbn; [done|]. destruct (due e <? due y); [done|]. rewrite IH. apply perm_swap.
Qed.

Lemma wf_mono m m' b l : m <= m' -> wf m b l -> wf m' b l.
Proof. intros Hm [Hok Hd]. split; [done|]. revert Hd. apply Forall_impl. cbn. lia. Qed.

(** sys_timeout adds a deadline. *)
Lemma sys_timeout_agenda s b msecs h a :
  wf (b + 2 ^ 32) b (next_timeout s) -> 0 <= msecs < 2 ^ 32 -> free_timeo s <> 0 ->
  let s' := sys_timeout s msecs h a in
  agenda b (next_timeout s') = agenda_add (b + msecs, h, a) (agenda b (next_timeout s)) /\ wf (b + 2 ^ 32) b (next_timeout s') /\
  free_timeo s' = free_timeo s - 1 /\ tcpip_tcp_timer_active s' = tcpip_tcp_timer_active s.
Proof.
  intros Hw Hm Hf s'.
  assert (H : agenda b (next_timeout s') = agenda_add (b + msecs, h, a) (agenda b (next_timeout s)) /\ times_ok (next_timeout s') /\
    free_timeo s' = free_timeo s - 1 /\ tcpip_tcp_timer_active s' = tcpip_tcp_timer_active s).
  { subst s'. unfold sys_timeout. destruct (Z.eqb_spec (free_timeo s) 0); [done|].
    destruct (next_timeout s) as [|t r]; [split_and!; try done; constructor; [cbn; lia|constructor]|].
    destruct (Z.ltb_spec msecs (time t)).
    - apply wf_cons in Hw as (Ht & Hd & [Hok _]). cbn. rewrite u32_small by lia.
      destruct (Z.ltb_spec (b + msecs) (b + time t)); [|lia]. split_and!; try done.
      + by replace (b + msecs + (time t - msecs)) with (b + time t) by lia.
      + do 2 (constructor; [cbn; lia|]). done.
    - destruct (insert_timeout_agenda _ b t r (Timeo msecs h a) Hw) as [E Hok]; [lia|cbn; lia|]. by split_and!. }
  destruct H as (E & Hok & Hn & Ht). split; [done|]. split; [|done]. split; [done|]. rewrite E. apply list.Forall_forall.
  intros e [->|He]%agenda_add_elem; [cbn; lia|]. destruct Hw as [_ Hd]. by eapply list.Forall_forall in Hd.
Qed.

(** sys_untimeout removes the first deadline of its handler. *)
Lemma remove_timeout_agenda m b l h a :
  wf m b l -> m <= b + 2 ^ 32 ->
  match remove_timeout l h a with
  | Some l' => agenda b l' = agenda_remove h a (agenda b l) /\ wf m b l' /\ length l = S (length l')
  | None => agenda_remove h a (agenda b l) = agenda b l
  end.
Proof.
  revert b. induction l as [|t r IH]; intros b Hw Hm; [done|]. apply wf_cons in Hw as (Ht & Hd & Hw).
  cbn [remove_timeout agenda agenda_remove fst snd]. destruct (bool_decide (th t = h) && (targ t =? a)).
  - destruct r as [|n r]; [done|]. apply wf_cons in Hw as (Hn & Hdn & Hw). rewrite u32_small by lia.
    assert (E : b + (time n + time t) = b + time t + time n) by lia. cbn [agenda time set_time th targ]. rewrite E.
    split; [done|]. split; [|done]. apply wf_cons. cbn [time set_time]. rewrite E. split_and!; done || lia.
  - specialize (IH (b + time t) Hw ltac:(lia)). destruct (remove_timeout r h a) as [l'|]; cbn [option_map].
    + destruct IH as (E & Hw' & Hl). cbn [agenda length]. rewrite E, Hl. split; [done|]. split; [|done]. by apply wf_cons.
    + by rewrite IH.
Qed.

(** ** The lwIP thread *)

(** Its loop: rounds of the wait, and between them the work on a message,
    which may call tcp_timer_needed. [clk] counts the milliseconds of the
    waits; sys_arch_mbox_fetch returns SYS_ARCH_TIMEOUT after the time it
    was given, and at most that time with a message. *)
Record thread : Type := Thread {
  clk : Z;
  tm : timers;
  ran : list entry;
}.

Inductive thread_step : thread -> thread -> Prop :=
  | ts_timeout b s l t tcp s' :
      fetch_round s SYS_ARCH_TIMEOUT tcp = (Some t, s') ->
      thread_step (Thread b s l) (Thread (b + time t) s' (l ++ [(b + time t, th t, targ t)]))
  | ts_message b s l dt tcp s' t r :
      next_timeout s = t :: r -> 0 <= dt <= time t -> 0 < time t -> dt < SYS_ARCH_TIMEOUT ->
      fetch_round s dt tcp = (None, s') -> thread_step (Thread b s l) (Thread (b + dt) s' l)
  | ts_needed b s l tcp : thread_step (Thread b s l) (Thread b (tcp_timer_needed s tcp) l).

(** The pool of the application has ten elements. *)
Definition thread_init : thread := Thread 0 (sys_timeouts_init (Timers [] 10 false)) [].

(** *** The periodic timers *)

Definition periodic : list sys_timeout_handler := [arp_timer; dhcp_timer_coarse; dhcp_timer_fine; autoip_timer].

Definition interval (h : sys_timeout_handler) : Z :=
  match h with
  | tcpip_tcp_timer => TCP_TMR_INTERVAL
  | arp_timer => ARP_TMR_INTERVAL
  | dhcp_timer_coarse => DHCP_COARSE_TIMER_MSECS
  | dhcp_timer_fine => DHCP_FINE_TIMER_MSECS
  | autoip_timer => AUTOIP_TMR_INTERVAL
  | user_handler _ => 0
  end.

Definition runs_of (h : sys_timeout_handler) (l : list entry) : list entry := filter (fun e => snd (fst e) = h) l.

(** The first [k] runs of a timer on time. *)
Definition on_time (h : sys_timeout_handler) (k : nat) : list entry := map (fun i => (interval h * Z.of_nat i, h, 0)) (seq 1 k).

Definition next_run (l : list entry) (h : sys_timeout_handler) : entry := (interval h * (zlen (runs_of h l) + 1), h, 0).

Definition tcp_entry (tcp : option Z) : list entry := match tcp with Some d => [(d, tcpip_tcp_timer, 0)] | None => [] end.

Definition pending (l : list entry) (tcp : option Z) : list entry := map (next_run l) periodic ++ tcp_entry tcp.

Definition thread_inv (x : thread) : Prop :=
  wf (clk x + 2 ^ 32) (clk x) (next_timeout (tm x)) /\ free_timeo (tm x) + zlen (next_timeout (tm x)) = 10 /\
  (exists tcp, Permutation (agenda (clk x) (next_timeout (tm x))) (pending (ran x) tcp) /\
    (tcpip_tcp_timer_active (tm x) = true <-> is_Some tcp)) /\
  forall h, h ∈ periodic -> runs_of h (ran x) = on_time h (length (runs_of h (ran x))).

Lemma agenda_length b l : length (agenda b l) = length l.
Proof. revert b. induction l as [|t r IH]; intros b; cbn; [done|]. by rewrite IH. Qed.

Lemma free_pos s b l tcp :
  free_timeo s + zlen (next_timeout s) = 10 -> Permutation (agenda b (next_timeout s)) (pending l tcp) -> 5 <= free_timeo s <= 6.
Proof.
  intros Hf Hp. apply Permutation_length in Hp. rewrite agenda_length in Hp. unfold zlen in Hf. rewrite Hp in Hf.
  unfold pending in Hf. rewrite length_app, length_map in Hf. destruct tcp; cbn in Hf; lia.
Qed.

(** A timeout set while the deadlines are [l]. *)
Lemma thread_set s b l h a ms :
  wf (b + 2 ^ 32) b (next_timeout s) -> free_timeo s + zlen (next_timeout s) = 10 ->
  Permutation (agenda b (next_timeout s)) l -> (length l <= 5)%nat -> 0 <= ms < 2 ^ 32 ->
  let s' := sys_timeout s ms h a in
  wf (b + 2 ^ 32) b (next_timeout s') /\ free_timeo s' + zlen (next_timeout s') = 10 /\
  Permutation (agenda b (next_timeout s')) ((b + ms, h, a) :: l) /\ tcpip_tcp_timer_active s' = tcpip_tcp_timer_active s.
Proof.
  intros Hw Hf Hp Hl5 Hms s'. pose proof (Permutation_length Hp) as Hl. rewrite agenda_length in Hl.
  destruct (sys_timeout_agenda s b ms h a Hw Hms) as (E & Hw' & Hf' & Ht'); [unfold zlen in Hf; lia|]. fold s' in E, Hw', Hf', Ht'.
  assert (Hperm : Permutation (agenda b (next_timeout s')) ((b + ms, h, a) :: l)) by (rewrite E, agenda_add_perm; by constructor).
  split; [done|]. split; [|split; [done|congruence]]. apply Permutation_length in Hperm. rewrite agenda_length in Hperm.
  cbn in Hperm. unfold zlen in *. lia.
Qed.

Lemma runs_of_app h l e : runs_of h (l ++ [e]) = runs_of h l ++ (if decide (snd (fst e) = h) then [e] else []).
Proof. unfold runs_of. rewrite list.filter_app, filter_cons. by destruct (decide (snd (fst e) = h)). Qed.

Lemma next_run_app l e h :
  next_run (l ++ [e]) h = (interval h * (zlen (runs_of h l) + (if decide (snd (fst e) = h) then 1 else 0) + 1), h, 0).
Proof. unfold next_run. rewrite runs_of_app, zlen_app. by destruct (decide (snd (fst e) = h)). Qed.

(** A periodic timer that has run and is set again. *)
Lemma pending_run l tcp h rest :
  h ∈ periodic -> Permutation (next_run l h :: rest) (pending l tcp) ->
  Permutation ((due (next_run l h) + interval h, h, 0) :: rest) (pending (l ++ [next_run l h]) tcp).
Proof.
  intros Hh Hp. apply occ_permutation. intros e. apply (occ_perm e) in Hp. unfold pending in *. rewrite occ_app in *.
  set (o := occ e (tcp_entry tcp)) in *. clearbody o.
  set (l' := l ++ [next_run l h]). unfold periodic in *. cbn [map occ] in *.
  assert (E : forall h', next_run l' h' = if decide (h = h') then (due (next_run l h) + interval h, h, 0) else next_run l h').
  { intros h'. unfold l'. rewrite next_run_app. cbn [next_run snd fst due]. destruct (decide (h = h')) as [<-|?].
    - f_equal. f_equal. lia.
    - unfold next_run. by rewrite Z.add_0_r. }
  rewrite !E. clear E. rewrite !elem_of_cons in Hh.
  destruct Hh as [->|[->|[->|[->|Hh%elem_of_nil]]]]; [..|done].
  all: repeat match goal with |- context [decide (?a = ?b)] => destruct (decide (a = b)); try congruence end; lia.
Qed.

(** What a run of another timer leaves. *)
Lemma pending_other l e tcp : snd (fst e) ∉ periodic -> pending (l ++ [e]) tcp = pending l tcp.
Proof.
  intros He. unfold pending. f_equal. apply map_ext_in. intros h Hh%list_elem_of_In. rewrite next_run_app.
  rewrite decide_False by congruence. unfold next_run. by rewrite Z.add_0_r.
Qed.

Lemma on_time_S h k : on_time h (S k) = on_time h k ++ [(interval h * (Z.of_nat k + 1), h, 0)].
Proof.
  unfold on_time. rewrite seq_S, map_app. cbn [map]. by replace (Z.of_nat (1 + k)) with (Z.of_nat k + 1) by lia.
Qed.

Lemma agenda_from b l : times_ok l -> Forall (fun e => b <= due e) (agenda b l).
Proof.
  revert b. induction l as [|t r IH]; intros b; [constructor|]. intros [Ht Hr]%Forall_cons_1. cbn [agenda].
  constructor; [cbn; lia|]. eapply Forall_impl; [|by apply IH]. cbn. lia.
Qed.

(** A deadline of the thread is that of a periodic timer or of TCP. *)
Lemma pending_elem l tcp e :
  e ∈ pending l tcp -> (exists h, h ∈ periodic /\ e = next_run l h) \/ (exists d, tcp = Some d /\ e = (d, tcpip_tcp_timer, 0)).
Proof.
  unfold pending. rewrite elem_of_app. intros [H|H].
  - left. apply list_elem_of_In, in_map_iff in H as (h & <- & Hh%list_elem_of_In). eauto.
  - right. destruct tcp as [d|]; [|by apply elem_of_nil in H]. apply list_elem_of_singleton in H as ->. eauto.
Qed.

Lemma run_periodic s tcp h : h ∈ periodic -> run_handler s tcp h = sys_timeout s (interval h) h 0.
Proof. unfold periodic. rewrite !elem_of_cons, elem_of_nil. by intros [->|[->|[->|[->|[]]]]]. Qed.

Lemma pending_length l tcp : (4 <= length (pending l tcp) <= 5)%nat.
Proof. unfold pending. rewrite length_app, length_map. destruct tcp; cbn; lia. Qed.

Lemma interval_range h : h ∈ periodic -> 0 < interval h < 2 ^ 32.
Proof. unfold periodic. rewrite !elem_of_cons, elem_of_nil. by intros [->|[->|[->|[->|[]]]]]. Qed.

Lemma tcp_not_periodic : tcpip_tcp_timer ∉ periodic.
Proof. unfold periodic. rewrite !elem_of_cons, elem_of_nil. intuition congruence. Qed.

(** The run of the first timeout, at its deadline. *)
Lemma thread_timeout b s l t r tcp :
  thread_inv (Thread b s l) -> next_timeout s = t :: r ->
  let b' := b + time t in
  thread_inv (Thread b' (run_handler (set_timeouts s r (free_timeo s + 1)) tcp (th t)) (l ++ [(b', th t, targ t)])).
Proof.
  intros (Hw & Hf & (d & Hp & Ha) & Hr) Hl b'. cbn [clk tm ran] in *. rewrite Hl in *. rewrite zlen_cons in Hf. cbn [agenda] in Hp. fold b' in Hp.
  apply wf_cons in Hw as (Ht & Hd & Hw). fold b' in Hw. apply (wf_mono _ (b' + 2 ^ 32)) in Hw; [|unfold b'; lia].
  set (s1 := set_timeouts s r (free_timeo s + 1)). set (e := (b', th t, targ t)) in *.
  pose proof (pending_length l d) as Hl5. rewrite <- Hp in Hl5. cbn in Hl5.
  assert (Hset : forall s2 h ms, next_timeout s2 = r -> free_timeo s2 = free_timeo s + 1 -> 0 <= ms < 2 ^ 32 ->
    let s' := sys_timeout s2 ms h 0 in
    wf (b' + 2 ^ 32) b' (next_timeout s') /\ free_timeo s' + zlen (next_timeout s') = 10 /\
    Permutation (agenda b' (next_timeout s')) ((b' + ms, h, 0) :: agenda b' r) /\ tcpip_tcp_timer_active s' = tcpip_tcp_timer_active s2).
  { intros s2 h ms Hn Hf2 Hms. apply thread_set; rewrite ?Hn, ?Hf2; done || lia. }
  destruct (pending_elem l d e) as [(h & Hh & Ee)|(d' & -> & Ee)]; [rewrite <- Hp; by left|..].
  - assert (Hth : th t = h) by (unfold e, next_run in Ee; congruence). rewrite Hth, (run_periodic _ _ _ Hh).
    destruct (Hset s1 h (interval h)) as (H1 & H2 & H3 & H4); [done..|by pose proof (interval_range h Hh); lia|].
    split; [done|]. split; [done|]. cbn [tm ran clk]. rewrite Ee in *. split.
    + exists d. split; [|by rewrite H4]. rewrite H3. pose proof (pending_run l d h _ Hh Hp) as Hq. by rewrite <- Ee in Hq at 1.
    + intros h' Hh'. rewrite runs_of_app. cbn [next_run snd fst]. destruct (decide (h = h')) as [<-|?]; [|by rewrite app_nil_r; apply Hr].
      rewrite length_app, Nat.add_1_r, on_time_S, <- (Hr h Hh). done.
  - assert (Hth : th t = tcpip_tcp_timer) by (unfold e in Ee; congruence). rewrite Hth. cbn [run_handler]. unfold tcpip_tcp_timer_cb.
    assert (Hp' : Permutation (agenda b' r) (pending (l ++ [e]) None)).
    { rewrite pending_other by (rewrite Ee; exact tcp_not_periodic). apply (Permutation_cons_inv (a := e)). rewrite Hp, Ee. unfold pending. cbn [tcp_entry]. solve_perm. }
    assert (Hr' : forall h, h ∈ periodic -> runs_of h (l ++ [e]) = on_time h (length (runs_of h (l ++ [e])))).
    { intros h Hh. rewrite runs_of_app, decide_False; [rewrite app_nil_r; by apply Hr|]. rewrite Ee. cbn. intros <-. by apply tcp_not_periodic. }
    destruct tcp.
    + destruct (Hset s1 tcpip_tcp_timer TCP_TMR_INTERVAL) as (H1 & H2 & H3 & H4); [done..|].
      split; [done|]. split; [done|]. split; [|done]. exists (Some (b' + TCP_TMR_INTERVAL)). cbn [tm ran clk]. split.
      * rewrite H3, Hp'. unfold pending. cbn [tcp_entry]. solve_perm.
      * rewrite H4. cbn. rewrite Ha. split; eauto.
    + split; [done|]. split; [cbn; lia|]. split; [|done]. exists None. split; [done|]. by split; [|intros [? ?]].
Qed.

Lemma on_time_0 h : on_time h 0 = [].
Proof. done. Qed.

Lemma thread_init_inv : thread_inv thread_init.
Proof.
  split; [|split; [done|split]].
  - repeat (apply wf_cons; split; [by vm_compute|split; [by vm_compute|]]). split; constructor.
  - exists None. split; [vm_compute; apply occ_permutation; intros; cbn [occ]; lia|]. by split; [|intros [? ?]].
  - done.
Qed.

(** A wait that a message ends. *)
Lemma thread_message b s l dt tcp s' t r :
  thread_inv (Thread b s l) -> next_timeout s = t :: r -> 0 <= dt <= time t -> 0 < time t -> dt < SYS_ARCH_TIMEOUT ->
  fetch_round s dt tcp = (None, s') -> thread_inv (Thread (b + dt) s' l).
Proof.
  intros (Hw & Hf & Hp & Hr) Hl Hdt Ht Hlt E. cbn [clk tm ran] in *. unfold fetch_round in E. rewrite Hl in *.
  destruct (Z.ltb_spec 0 (time t)), (Z.eqb_spec dt SYS_ARCH_TIMEOUT); try lia. injection E as <-.
  assert (Hleft : (if dt <? time t then u32 (time t - dt) else 0) = time t - dt).
  { apply wf_cons in Hw as (_ & ? & _). destruct (Z.ltb_spec dt (time t)); [|lia]. apply u32_small. lia. }
  rewrite Hleft. apply wf_cons in Hw as (H1 & H2 & Hw).
  assert (Ea : agenda (b + dt) (set_time t (time t - dt) :: r) = agenda b (t :: r)).
  { cbn. by replace (b + dt + (time t - dt)) with (b + time t) by lia. }
  split; [|split; [cbn [tm free_timeo next_timeout set_timeouts]; rewrite zlen_cons in Hf |- *; done|split; [cbn [tm clk ran next_timeout set_timeouts]; by rewrite Ea|done]]].
  cbn [tm clk next_timeout set_timeouts]. apply wf_cons. cbn [time set_time].
  replace (b + dt + (time t - dt)) with (b + time t) by lia. split; [lia|]. split; [lia|]. eapply wf_mono; [|done]. lia.
Qed.

(** The TCP timer is started. *)
Lemma thread_needed b s l tcp : thread_inv (Thread b s l) -> thread_inv (Thread b (tcp_timer_needed s tcp) l).
Proof.
  intros H. unfold tcp_timer_needed. destruct (tcpip_tcp_timer_active s) eqn:E, tcp; cbn [negb andb]; try exact H.
  destruct H as (Hw & Hf & (d & Hp & Ha) & Hr). cbn [clk tm ran] in *. rewrite E in Ha.
  destruct d as [d|]; [assert (false = true) by (apply Ha; eauto); done|]. pose proof (pending_length l None) as Hl5.
  destruct (thread_set (set_active s true) b (pending l None) tcpip_tcp_timer 0 TCP_TMR_INTERVAL) as (H1 & H2 & H3 & H4); try done; [lia|].
  split; [done|]. split; [done|]. split; [|done]. exists (Some (b + TCP_TMR_INTERVAL)). cbn [tm clk ran]. split.
  - rewrite H3. unfold pending. cbn [tcp_entry]. solve_perm.
  - rewrite H4. by split; [eexists|].
Qed.

Lemma thread_step_inv x y : thread_inv x -> thread_step x y -> thread_inv y.
Proof.
  intros Hi Hs. destruct Hs as [b s l t tcp s' E|b s l dt tcp s' t r Hl Hdt Ht Hlt E|b s l tcp].
  - unfold fetch_round in E. destruct (next_timeout s) as [|t' r] eqn:Hl; [done|].
    assert (Ht : (if 0 <? time t' then SYS_ARCH_TIMEOUT else SYS_ARCH_TIMEOUT) = SYS_ARCH_TIMEOUT) by (by destruct (0 <? time t')).
    rewrite Ht, Z.eqb_refl in E. injection E as <- <-. exact (thread_timeout b s l t' r tcp Hi Hl).
  - by eapply thread_message.
  - by apply thread_needed.
Qed.

(** ** The claims *)

Fixpoint ascending (l : list entry) : Prop :=
  match l with
  | e :: ((e' :: _) as r) => due e <= due e' /\ ascending r
  | _ => True
  end.

Lemma agenda_ascending b l : times_ok l -> ascending (agenda b l).
Proof.
  revert b. induction l as [|t r IH]; intros b; [done|]. intros [Ht Hr]%Forall_cons_1. specialize (IH (b + time t) Hr).
  destruct r as [|n r]; [done|]. apply Forall_cons_1 in Hr as [Hn _]. cbn in *. split; [lia|done].
Qed.

(** C35: the list with relative times is an agenda of absolute deadlines, in
    order: sys_timeout enters its deadline behind those at the same time,
    sys_untimeout removes the first deadline of its handler and argument, and
    gives its element back, and the sum of the used and free elements stays.
    With no element free sys_timeout sets nothing. Deadlines are less than
    2^32 ms away; below that no time overflows. *)
Theorem timeouts_refine_agenda s b msecs h a :
  wf (b + 2 ^ 32) b (next_timeout s) -> 0 <= msecs < 2 ^ 32 ->
  let l := agenda b (next_timeout s) in
  let s1 := sys_timeout s msecs h a in
  let s2 := sys_untimeout s h a in
  ascending l /\
  agenda b (next_timeout s1) = (if free_timeo s =? 0 then l else agenda_add (b + msecs, h, a) l) /\
  agenda b (next_timeout s2) = agenda_remove h a l /\
  (wf (b + 2 ^ 32) b (next_timeout s1) /\ wf (b + 2 ^ 32) b (next_timeout s2)) /\
  free_timeo s1 + zlen (next_timeout s1) = free_timeo s + zlen (next_timeout s) /\
  free_timeo s2 + zlen (next_timeout s2) = free_timeo s + zlen (next_timeout s).
Proof.
  intros Hw Hm l s1 s2. split; [apply agenda_ascending, Hw|].
  assert (H1 : agenda b (next_timeout s1) = (if free_timeo s =? 0 then l else agenda_add (b + msecs, h, a) l) /\
    wf (b + 2 ^ 32) b (next_timeout s1) /\ free_timeo s1 + zlen (next_timeout s1) = free_timeo s + zlen (next_timeout s)).
  { destruct (Z.eqb_spec (free_timeo s) 0) as [E|E]; [unfold s1, sys_timeout; by rewrite (proj2 (Z.eqb_eq _ _) E)|].
    destruct (sys_timeout_agenda s b msecs h a Hw Hm E) as (H1 & H2 & H3 & _). fold s1 in H1, H2, H3.
    split; [done|]. split; [done|]. apply (f_equal length) in H1.
    rewrite (Permutation_length (agenda_add_perm _ _)) in H1. cbn in H1. rewrite !agenda_length in H1. unfold zlen. lia. }
  assert (H2 : agenda b (next_timeout s2) = agenda_remove h a l /\ wf (b + 2 ^ 32) b (next_timeout s2) /\
    free_timeo s2 + zlen (next_timeout s2) = free_timeo s + zlen (next_timeout s)).
  { unfold s2, sys_untimeout. pose proof (remove_timeout_agenda _ b (next_timeout s) h a Hw ltac:(lia)) as H.
    destruct (remove_timeout (next_timeout s) h a) as [l'|]; [|by unfold l; rewrite H].
    destruct H as (E & Hw' & Hl). cbn [next_timeout free_timeo set_timeouts]. split_and!; [done..|]. unfold zlen. lia. }
  destruct H1 as (? & ? & ?), H2 as (? & ? & ?). by split_and!.
Qed.

(** A list of two timeouts; a third between them, and the first removed. *)
Lemma timeouts_refine_agenda_witness :
  let s := Timers [Timeo 100 arp_timer 0; Timeo 150 autoip_timer 0] 3 false in
  agenda 7 (next_timeout (sys_timeout s 200 dhcp_timer_fine 5)) =
    [(107, arp_timer, 0); (207, dhcp_timer_fine, 5); (257, autoip_timer, 0)] /\
  agenda 7 (next_timeout (sys_untimeout s arp_timer 0)) = [(257, autoip_timer, 0)].
Proof.
  intros s. assert (Hw : wf (7 + 2 ^ 32) 7 (next_timeout s)) by (repeat constructor; by vm_compute).
  destruct (timeouts_refine_agenda s 7 200 dhcp_timer_fine 5 Hw ltac:(lia)) as (_ & H1 & _).
  destruct (timeouts_refine_agenda s 7 200 arp_timer 0 Hw ltac:(lia)) as (_ & _ & H2 & _).
  split; [exact H1|exact H2].
Defined.

(** C34: in every state the lwIP thread can reach, by timeouts that expire,
    messages that arrive at any time, and TCP starting its timer when it
    wants, each periodic timer (ARP, DHCP coarse and fine, AUTOIP) has run at
    its interval, twice its interval, and so on, each run once and without
    drift, up to now; and the pool of timeouts has elements left. The times are those of the
    waits: the work on messages is taken to need none. *)
Theorem timers_periodic x :
  star thread_step thread_init x ->
  5 <= free_timeo (tm x) /\
  forall h, h ∈ periodic ->
    let k := length (runs_of h (ran x)) in
    runs_of h (ran x) = on_time h k /\ clk x <= interval h * (Z.of_nat k + 1).
Proof.
  intros Hx. assert (Hi : thread_inv x) by (eapply star_invariant; [apply thread_step_inv|apply thread_init_inv|exact Hx]).
  destruct Hi as ([Hok _] & Hf & (d & Hp & _) & Hr). split; [by pose proof (free_pos _ _ _ _ Hf Hp); lia|].
  intros h Hh k. split; [by apply Hr|]. pose proof (agenda_from (clk x) _ Hok) as Hfrom.
  rewrite Hp in Hfrom. rewrite list.Forall_forall in Hfrom. apply (Hfrom (next_run (ran x) h)). unfold pending.
  apply elem_of_app. left. by apply list_elem_of_fmap_2.
Qed.

(** AUTOIP after 100 ms, a message 30 ms later, on which TCP starts. *)
Lemma timers_periodic_witness :
  exists x, star thread_step thread_init x /\ clk x = 130 /\ runs_of autoip_timer (ran x) = on_time autoip_timer 1.
Proof.
  assert (H : exists x, star thread_step thread_init x /\ clk x = 130 /\ length (runs_of autoip_timer (ran x)) = 1%nat).
  { eexists. split; [|split].
    - eapply star_step; [eapply (ts_timeout _ _ _ _ false); vm_compute; reflexivity|].
      eapply star_step; [eapply (ts_message _ _ _ 30 false); [vm_compute; reflexivity|by vm_compute|by vm_compute|by vm_compute|vm_compute; reflexivity]|].
      eapply star_step; [apply (ts_needed _ _ _ true)|]. apply star_refl.
    - by vm_compute.
    - by vm_compute. }
  destruct H as (x & Hx & Hc & Hl). exists x. split; [exact Hx|]. split; [exact Hc|].
  destruct (timers_periodic x Hx) as [_ H]. rewrite <- Hl. apply H. unfold periodic. rewrite !elem_of_cons. tauto.
Defined.

(** sys_check_timeouts takes the time of the call for the time of the
    deadline: what is left of the difference is lost, and a timer that is
    polled drifts. Polled every 60 ms, a timer of 100 ms runs every 120 ms. *)
Lemma check_timeouts_drift :
  exists s1 s2 s3 s4,
    sys_check_timeouts 9 (Timers [Timeo 100 autoip_timer 0] 9 false) 0 60 (fun _ => false) = Ok ([], s1, 0) /\
    sys_check_timeouts 9 s1 0 120 (fun _ => false) = Ok ([Timeo 100 autoip_timer 0], s2, 120) /\
    sys_check_timeouts 9 s2 120 180 (fun _ => false) = Ok ([], s3, 120) /\
    sys_check_timeouts 9 s3 120 240 (fun _ => false) = Ok ([Timeo 100 autoip_timer 0], s4, 240).
Proof. do 4 eexists. repeat split; by vm_compute. Qed.
