(* ===== verification/Netconn.v ===== *)
(** * Connections of the sequential interface: lwip_v1.3.2/src/src/api

    api_msg.c and api_lib.c of lwIP 1.3.2, the version whose interface the
    threads of Project/FreeRTOS/working call: a TCP netconn, the functions
    the lwIP thread runs on it for the application (do_...) and for the
    protocol engine (callbacks). What the engine answers is in [tcp_env]. The
    mailbox holds the packets of recv_tcp, NULL as [None]. *)

From S2P Require Import Prelude.

(** ** Data *)

Definition ERR_OK : Z := 0.
Definition ERR_MEM : Z := -1.
Definition ERR_RTE : Z := -4.
Definition ERR_CLSD : Z := -7.
Definition ERR_VAL : Z := -9.
Definition ERR_IS_FATAL (e : Z) : bool := e <? ERR_RTE.

Inductive netconn_state : Type :=
  | NETCONN_NONE
  | NETCONN_WRITE
  | NETCONN_LISTEN
  | NETCONN_CONNECT
  | NETCONN_CLOSE.

(** A pbuf of a packet: its payload, and the memory after it. *)
Record frag : Type := Frag {
  fr_data : list Z;
  fr_after : list Z;
}.

(** [nc_pcb]: whether pcb.tcp is set; [nc_recv]: whether the callback for
    data is; [op_completed] counts the signals of the semaphore. Three fields
    are not in the code: [nc_taken] are the bytes tcp_write has taken over,
    [nc_broken] says that a write was refused or the connection lost, and
    [nc_posting] that the lwIP thread waits in err_tcp for room in the
    mailbox. *)
Record netconn : Type := Netconn {
  state : netconn_state;
  nc_pcb : bool;
  nc_recv : bool;
  nc_err : Z;
  op_completed : Z;
  recvmbox : list (option (list frag));
  write_msg : option (list Z);
  write_offset : Z;
  nc_taken : list Z;
  nc_broken : bool;
  nc_posting : bool;
}.

Definition set_state (c : netconn) (x : netconn_state) : netconn :=
  Netconn x (nc_pcb c) (nc_recv c) (nc_err c) (op_completed c) (recvmbox c) (write_msg c) (write_offset c) (nc_taken c) (nc_broken c) (nc_posting c).
Definition set_pcb (c : netconn) (x : bool) : netconn :=
  Netconn (state c) x (nc_recv c) (nc_err c) (op_completed c) (recvmbox c) (write_msg c) (write_offset c) (nc_taken c) (nc_broken c) (nc_posting c).
Definition set_recv (c : netconn) (x : bool) : netconn :=
  Netconn (state c) (nc_pcb c) x (nc_err c) (op_completed c) (recvmbox c) (write_msg c) (write_offset c) (nc_taken c) (nc_broken c) (nc_posting c).
Definition set_err (c : netconn) (x : Z) : netconn :=
  Netconn (state c) (nc_pcb c) (nc_recv c) x (op_completed c) (recvmbox c) (write_msg c) (write_offset c) (nc_taken c) (nc_broken c) (nc_posting c).
Definition set_sem (c : netconn) (x : Z) : netconn :=
  Netconn (state c) (nc_pcb c) (nc_recv c) (nc_err c) x (recvmbox c) (write_msg c) (write_offset c) (nc_taken c) (nc_broken c) (nc_posting c).
Definition set_mbox (c : netconn) (x : list (option (list frag))) : netconn :=
  Netconn (state c) (nc_pcb c) (nc_recv c) (nc_err c) (op_completed c) x (write_msg c) (write_offset c) (nc_taken c) (nc_broken c) (nc_posting c).
Definition set_write (c : netconn) (m : option (list Z)) (o : Z) : netconn :=
  Netconn (state c) (nc_pcb c) (nc_recv c) (nc_err c) (op_completed c) (recvmbox c) m o (nc_taken c) (nc_broken c) (nc_posting c).
Definition take_over (c : netconn) (bs : list Z) : netconn :=
  Netconn (state c) (nc_pcb c) (nc_recv c) (nc_err c) (op_completed c) (recvmbox c) (write_msg c) (write_offset c) (nc_taken c ++ bs) (nc_broken c) (nc_posting c).
Definition break (c : netconn) : netconn :=
  Netconn (state c) (nc_pcb c) (nc_recv c) (nc_err c) (op_completed c) (recvmbox c) (write_msg c) (write_offset c) (nc_taken c) true (nc_posting c).
Definition set_posting (c : netconn) (x : bool) : netconn :=
  Netconn (state c) (nc_pcb c) (nc_recv c) (nc_err c) (op_completed c) (recvmbox c) (write_msg c) (write_offset c) (nc_taken c) (nc_broken c) x.

(** sys_sem_signal(conn->op_completed), which is also TCPIP_APIMSG_ACK. *)
Definition signal (c : netconn) : netconn := set_sem c (op_completed c + 1).

(** netconn_alloc, and do_newconn with setup_tcp; also what accept_function
    posts for a new connection. *)
Definition netconn_alloc : netconn := Netconn NETCONN_NONE false false ERR_OK 0 [] None 0 [] false false.
Definition setup_tcp (c : netconn) : netconn := set_recv c true.
Definition do_newconn (c : netconn) : netconn := if nc_pcb c then c else setup_tcp (set_err (set_pcb c true) ERR_OK).

(** What tcp_sndbuf, tcp_write, tcp_output_nagle, tcp_close and tcp_connect
    return. *)
Record tcp_env : Type := TcpEnv {
  snd_buf : Z;
  e_write : Z;
  e_output : Z;
  e_close : Z;
  e_connect : Z;
}.

(** ** For the application *)

Definition do_writemore (c : netconn) (e : tcp_env) : outcome netconn :=
  match write_msg c with
  | None => UB
  | Some data =>
      let diff := zlen data - write_offset c in
      let len := if 0xffff <? diff then 0xffff else u16 diff in
      let len := if snd_buf e <? len then snd_buf e else len in
      if e_write e =? ERR_OK then
        let c := take_over c (take (Z.to_nat len) (drop (Z.to_nat (write_offset c)) data)) in
        let c := set_write c (Some data) (write_offset c + len) in
        let write_finished := write_offset c =? zlen data in
        let c := if write_finished then set_state (set_write c None 0) NETCONN_NONE else c in
        let c := set_err c (e_output e) in
        if write_finished then Ok (signal (set_state c NETCONN_NONE)) else Ok c
      else if e_write e =? ERR_MEM then Ok c
      else Ok (signal (set_state (break (set_err c (e_write e))) NETCONN_NONE))
  end.

Definition do_write (c : netconn) (data : list Z) (e : tcp_env) : outcome netconn :=
  if ERR_IS_FATAL (nc_err c) then Ok (signal (break c))
  else if nc_pcb c then do_writemore (set_write (set_state c NETCONN_WRITE) (Some data) 0) e
  else Ok (signal (break (set_err c ERR_VAL))).

(** When tcp_close fails the callback for data stays reset. *)
Definition do_close_internal (c : netconn) (e : tcp_env) : netconn :=
  let c := set_recv c false in
  if e_close e =? ERR_OK then signal (set_err (set_pcb (set_state c NETCONN_NONE) false) ERR_OK) else c.

Definition do_close (c : netconn) (e : tcp_env) : netconn :=
  if nc_pcb c then do_close_internal (set_state c NETCONN_CLOSE) e else signal (set_err c ERR_VAL).

Definition do_delconn (c : netconn) (e : tcp_env) : netconn :=
  if nc_pcb c then do_close_internal (set_state c NETCONN_CLOSE) e else signal c.

(** The semaphore is signalled by do_connected or err_tcp; nobody does when
    tcp_connect itself fails. *)
Definition do_connect (c : netconn) (e : tcp_env) : netconn :=
  if nc_pcb c then set_err (setup_tcp (set_state c NETCONN_CONNECT)) (e_connect e) else signal c.

(** netconn_recv: [None] while it waits for the mailbox, else the packet or
    NULL. [netbuf]: whether a netbuf is free. The message to the lwIP thread
    that moves the window changes nothing here. *)
Definition netconn_recv (c : netconn) (netbuf : bool) : option (option (list frag) * netconn) :=
  if ERR_IS_FATAL (nc_err c) then Some (None, c)
  else if netbuf then
    match recvmbox c with
    | [] => None
    | None :: r => Some (None, let c := set_mbox c r in if nc_err c =? ERR_OK then set_err c ERR_CLSD else c)
    | Some p :: r => Some (Some p, set_mbox c r)
    end
  else Some (None, set_err c ERR_MEM).

(** ** For the engine *)

(** The error, and the result of the callback. *)
Definition recv_tcp (mbox_size : Z) (c : netconn) (p : option (list frag)) (err : Z) : Z * netconn :=
  let c := set_err c err in
  if mbox_size <=? zlen (recvmbox c) then (ERR_MEM, c) else (ERR_OK, set_mbox c (recvmbox c ++ [p])).

Definition poll_tcp (c : netconn) (e : tcp_env) : outcome netconn :=
  match state c with
  | NETCONN_WRITE => do_writemore c e
  | NETCONN_CLOSE => Ok (do_close_internal c e)
  | _ => Ok c
  end.

Definition sent_tcp (c : netconn) (e : tcp_env) : outcome netconn :=
  match state c with
  | NETCONN_WRITE => do_writemore c e
  | NETCONN_CLOSE => Ok (do_close_internal c e)
  | _ => Ok c
  end.

(** err_tcp once NULL has been posted. The mailbox for new connections is not
    posted to: these connections have none. *)
Definition err_posted (c : netconn) : netconn :=
  let c := set_posting (set_mbox c (recvmbox c ++ [None])) false in
  match state c with
  | NETCONN_CONNECT | NETCONN_WRITE | NETCONN_CLOSE => signal (set_state c NETCONN_NONE)
  | _ => c
  end.

(** sys_mbox_post waits until there is room. *)
Definition err_tcp (mbox_size : Z) (c : netconn) (err : Z) : netconn :=
  let c := break (set_err (set_pcb c false) err) in
  if mbox_size <=? zlen (recvmbox c) then set_posting c true else err_posted c.

Definition do_connected (c : netconn) (err : Z) : netconn :=
  let c := set_err c err in
  let c := if err =? ERR_OK then setup_tcp c else c in
  signal (set_state c NETCONN_NONE).

Inductive tcp_event : Type :=
  | EvRecv (p : option (list frag))
  | EvPoll (e : tcp_env)
  | EvSent (e : tcp_env)
  | EvErr (err : Z)
  | EvConnected (err : Z)
  | EvPost.

(** The callbacks the engine makes on a connection with a pcb, and [EvPost],
    where a waiting err_tcp tries again. tcp_in.c passes ERR_OK with data, and
    reports a connection once. *)
Definition tcp_callback (mbox_size : Z) (c : netconn) (ev : tcp_event) : outcome netconn :=
  if nc_posting c then
    match ev with
    | EvPost => Ok (if mbox_size <=? zlen (recvmbox c) then c else err_posted c)
    | _ => Ok c
    end
  else if nc_pcb c then
    match ev with
    | EvRecv p => if nc_recv c then Ok (snd (recv_tcp mbox_size c p ERR_OK)) else Ok c
    | EvPoll e => poll_tcp c e
    | EvSent e => sent_tcp c e
    | EvErr err => Ok (err_tcp mbox_size c err)
    | EvConnected err => match state c with NETCONN_CONNECT => Ok (do_connected c err) | _ => Ok c end
    | EvPost => Ok c
    end
  else Ok c.

(** ** Theory *)

Definition env_ok (e : tcp_env) : Prop := 0 <= snd_buf e.

(** The engine reports the loss of a connection with a fatal error
    (ERR_ABRT, ERR_RST or ERR_CLSD); a packet has at least one pbuf. *)
Definition event_ok (ev : tcp_event) : Prop :=
  match ev with
  | EvRecv (Some p) => p <> []
  | EvPoll e | EvSent e => env_ok e
  | EvErr err => ERR_IS_FATAL err = true
  | _ => True
  end.

(** A thread waits in netconn_write for [data], after [old]. *)
Record writing (old data : list Z) (c : netconn) : Prop := Writing {
  wr_state : state c = NETCONN_WRITE;
  wr_pcb : nc_pcb c = true;
  wr_posting : nc_posting c = false;
  wr_sem : op_completed c = 0;
  wr_msg : write_msg c = Some data;
  wr_offset : 0 <= write_offset c <= zlen data;
  wr_taken : nc_taken c = old ++ take (Z.to_nat (write_offset c)) data;
}.

(** It is woken: everything is written, or the connection has failed. *)
Record written (old data : list Z) (broken : bool) (c : netconn) : Prop := Written {
  wn_state : state c = NETCONN_NONE;
  wn_sem : op_completed c = 1;
  wn_taken : exists n, nc_taken c = old ++ take n data;
  wn_all : nc_taken c = old ++ data /\ nc_broken c = broken \/ nc_broken c = true /\ nc_err c <> ERR_OK;
}.

(** The lwIP thread waits in err_tcp; the thread is not woken. *)
Record blocked (old data : list Z) (c : netconn) : Prop := Blocked {
  bl_state : state c = NETCONN_WRITE;
  bl_posting : nc_posting c = true;
  bl_pcb : nc_pcb c = false;
  bl_sem : op_completed c = 0;
  bl_taken : exists n, nc_taken c = old ++ take n data;
  bl_broken : nc_broken c = true /\ nc_err c <> ERR_OK;
}.

Lemma fatal_not_ok e : ERR_IS_FATAL e = true -> e <> ERR_OK.
Proof. unfold ERR_IS_FATAL, ERR_RTE, ERR_OK. lia. Qed.

Lemma do_writemore_ok old data c e :
  writing old data c -> env_ok e ->
  exists c', do_writemore c e = Ok c' /\
    ((writing old data c' /\ nc_broken c' = nc_broken c) \/ written old data (nc_broken c) c').
Proof.
  intros [Hs Hp Hpo Hsem Hm Ho Ht] He. unfold env_ok in He. unfold do_writemore. rewrite Hm.
  set (len1 := if 0xffff <? _ then _ else _). assert (H1 : 0 <= len1 <= zlen data - write_offset c).
  { unfold len1, u16. destruct (Z.ltb_spec 0xffff (zlen data - write_offset c)); [lia|]. rewrite Z.mod_small; lia. }
  set (len := if snd_buf e <? len1 then _ else _).
  assert (Hlen : 0 <= len <= zlen data - write_offset c) by (unfold len; destruct (Z.ltb_spec (snd_buf e) len1); lia).
  clearbody len. destruct (Z.eqb_spec (e_write e) ERR_OK) as [Hok|Hok].
  - cbn [write_offset set_write take_over].
    assert (Htk : nc_taken c ++ take (Z.to_nat len) (drop (Z.to_nat (write_offset c)) data) =
      old ++ take (Z.to_nat (write_offset c + len)) data).
    { rewrite Ht, <- app_assoc, take_take_drop. do 2 f_equal. lia. }
    destruct (Z.eqb_spec (write_offset c + len) (zlen data)) as [E|E].
    + eexists. split; [done|]. right. split; cbn; [done|lia|eexists; exact Htk|]. left. split; [|done].
      rewrite Htk, E, take_ge; [done|]. unfold zlen. lia.
    + eexists. split; [done|]. left. split; [|done]. split; cbn; done || lia || exact Htk.
  - destruct (Z.eqb_spec (e_write e) ERR_MEM); (eexists; split; [done|]).
    + left. by split.
    + right. split; cbn; [done|lia|by eexists|by right].
Qed.

(** What netconn_write begins with. *)
Lemma do_write_ok c data e :
  op_completed c = 0 -> (nc_posting c = true -> nc_pcb c = false) -> env_ok e ->
  exists c', do_write c data e = Ok c' /\
    ((writing (nc_taken c) data c' /\ nc_broken c' = nc_broken c) \/ written (nc_taken c) data (nc_broken c) c' \/
     op_completed c' = 1 /\ nc_taken c' = nc_taken c /\ nc_broken c' = true /\ nc_err c' <> ERR_OK /\ state c' = state c).
Proof.
  intros Hs Hpo He. unfold do_write. destruct (ERR_IS_FATAL (nc_err c)) eqn:Hf.
  { eexists. split; [done|]. right; right. apply fatal_not_ok in Hf. cbn. split_and!; done || lia. }
  destruct (nc_pcb c) eqn:Hp.
  - destruct (do_writemore_ok (nc_taken c) data (set_write (set_state c NETCONN_WRITE) (Some data) 0) e) as (c' & E & H); [|done|].
    { split; cbn; try done; [destruct (nc_posting c); [by discriminate Hpo|done]|pose proof (zlen_nonneg data); lia|].
      by rewrite take_0, app_nil_r. }
    exists c'. split; [done|]. tauto.
  - eexists. split; [done|]. right; right. cbn. split_and!; done || lia.
Qed.

(** The callbacks while it waits. *)
Lemma callback_writing m old data c ev :
  writing old data c -> event_ok ev ->
  exists c', tcp_callback m c ev = Ok c' /\
    ((writing old data c' /\ nc_broken c' = nc_broken c) \/ written old data (nc_broken c) c' \/ blocked old data c').
Proof.
  intros Hw He. pose proof Hw as [Hs Hp Hpo Hsem Hm Ho Ht]. unfold tcp_callback. rewrite Hpo, Hp.
  assert (Hmore : forall e, env_ok e -> exists c', do_writemore c e = Ok c' /\
    ((writing old data c' /\ nc_broken c' = nc_broken c) \/ written old data (nc_broken c) c' \/ blocked old data c')).
  { intros e Hee. destruct (do_writemore_ok old data c e Hw Hee) as (c' & E & H). exists c'. split; [done|]. tauto. }
  destruct ev as [p|e|e|err|err|]; cbn in He.
  - assert (H : forall c', c' = c \/ c' = snd (recv_tcp m c p ERR_OK) -> writing old data c' /\ nc_broken c' = nc_broken c).
    { intros c' [->| ->]; [done|]. unfold recv_tcp. cbn. destruct (m <=? zlen (recvmbox c)); by split. }
    destruct (nc_recv c); eexists; (split; [done|]); left; apply H; [by right|by left].
  - unfold poll_tcp. rewrite Hs. by apply Hmore.
  - unfold sent_tcp. rewrite Hs. by apply Hmore.
  - apply fatal_not_ok in He. unfold err_tcp. cbn. destruct (m <=? zlen (recvmbox c)); (eexists; split; [done|]); right.
    + right. split; cbn; [done..|by eexists|done].
    + left. unfold err_posted. cbn. rewrite Hs. split; cbn; [done|lia|by eexists|by right].
  - rewrite Hs. eexists. split; [done|]. by left.
  - eexists. split; [done|]. by left.
Qed.

Lemma callback_blocked m old data c ev :
  blocked old data c ->
  exists c', tcp_callback m c ev = Ok c' /\ (blocked old data c' \/ written old data true c').
Proof.
  intros Hb. pose proof Hb as [Hs Hpo Hp Hsem Ht [Hbr He]]. unfold tcp_callback. rewrite Hpo.
  assert (Hstay : exists c', Ok c = Ok c' /\ (blocked old data c' \/ written old data true c')) by (exists c; by split; [|left]).
  destruct ev; try exact Hstay. destruct (m <=? zlen (recvmbox c)); [exact Hstay|]. eexists. split; [done|]. right.
  unfold err_posted. cbn. rewrite Hs. split; cbn; [done|lia|done|by right].
Qed.

(** A callback while the thread waits, or between the signal and the moment it
    runs: then all of them but the arrival of data. *)
Definition wait_step (m : Z) (c c' : netconn) : Prop :=
  exists ev, event_ok ev /\ (op_completed c <> 0 -> forall p, ev <> EvRecv p) /\ tcp_callback m c ev = Ok c'.

(** The thread has been woken, with [old] and a part of [data] taken over. *)
Record woken_up (old data : list Z) (c : netconn) : Prop := WokenUp {
  wu_state : state c = NETCONN_NONE;
  wu_sem : op_completed c <> 0;
  wu_taken : exists n, nc_taken c = old ++ take n data;
  wu_all : nc_err c = ERR_OK -> nc_taken c = old ++ data;
}.

Lemma written_woken_up old data b c : written old data b c -> woken_up old data c.
Proof. intros [W1 W2 W3 W4]. split; [done|lia|done|]. intros Hx. by destruct W4 as [[-> _]|[_ W4]]. Qed.

Lemma callback_woken_up m old data c ev :
  woken_up old data c -> event_ok ev -> (forall p, ev <> EvRecv p) ->
  exists c', tcp_callback m c ev = Ok c' /\ woken_up old data c'.
Proof.
  intros Hw He Hrecv. pose proof Hw as [Hs Hsem Ht Hall]. unfold tcp_callback.
  assert (Hstay : exists c', Ok c = Ok c' /\ woken_up old data c') by (by exists c).
  destruct (nc_posting c) eqn:Ep.
  - destruct ev; try exact Hstay. destruct (m <=? zlen (recvmbox c)); [exact Hstay|].
    eexists. split; [done|]. unfold err_posted. cbn. rewrite Hs. by split.
  - destruct (nc_pcb c) eqn:Epc; [|exact Hstay]. destruct ev as [p|e|e|err|err|]; cbn in He.
    + by destruct (Hrecv p).
    + unfold poll_tcp. by rewrite Hs.
    + unfold sent_tcp. by rewrite Hs.
    + apply fatal_not_ok in He. eexists. split; [done|]. unfold err_tcp, err_posted. cbn. rewrite Hs.
      by destruct (m <=? zlen (recvmbox c)); split.
    + by rewrite Hs.
    + done.
Qed.

(** C6: netconn_write returns only when it should. For a buffer that nobody
    else writes, on a connection on which nothing else is under way, whatever
    the buffer space, the answers of tcp_write and tcp_output, the data that
    arrives and the moment the connection fails: no callback is undefined;
    what tcp_write has taken over is what it had before and a prefix of the
    data; and if the thread finds ERR_OK when it runs again, all of the data,
    in order and each byte once. Any callback may come while the thread
    waits, and between the signal and the moment the thread runs any but the
    arrival of data: that resets the error the thread reads, which
    [netconn_write_masked] shows. *)
Theorem netconn_write_all m c data e :
  state c = NETCONN_NONE -> op_completed c = 0 -> nc_posting c = false -> env_ok e ->
  exists c1, do_write c data e = Ok c1 /\
    forall c2, star (wait_step m) c1 c2 ->
      (forall ev, event_ok ev -> (op_completed c2 <> 0 -> forall p, ev <> EvRecv p) -> exists c3, tcp_callback m c2 ev = Ok c3) /\
      (exists n, nc_taken c2 = nc_taken c ++ take n data) /\
      (op_completed c2 <> 0 -> nc_err c2 = ERR_OK -> nc_taken c2 = nc_taken c ++ data).
Proof.
  intros Hst Hs Hpo He. destruct (do_write_ok c data e Hs ltac:(congruence) He) as (c1 & E & H). exists c1. split; [done|].
  intros c2 Hrun. set (old := nc_taken c) in *.
  set (I := fun x => writing old data x \/ blocked old data x \/ woken_up old data x).
  assert (Hstep : forall x ev, I x -> event_ok ev -> (op_completed x <> 0 -> forall p, ev <> EvRecv p) ->
    exists y, tcp_callback m x ev = Ok y /\ I y).
  { intros x ev [Hx|[Hx|Hx]] Hev Hr.
    - destruct (callback_writing m _ _ x ev Hx Hev) as (y & Ey & [[Hy _]|[Hy%written_woken_up|Hy]]); exists y; (split; [done|]); unfold I; tauto.
    - destruct (callback_blocked m _ _ x ev Hx) as (y & Ey & [Hy|Hy%written_woken_up]); exists y; (split; [done|]); unfold I; tauto.
    - destruct (callback_woken_up m _ _ x ev Hx Hev) as (y & Ey & Hy); [apply Hr, Hx|]. exists y. split; [done|]. by right; right. }
  assert (HI : I c2).
  { apply (star_invariant (wait_step m) I c1); [| |done].
    - intros x y Hx (ev & Hev & Hr & Ey). destruct (Hstep x ev Hx Hev Hr) as (y' & Ey' & Hy). congruence.
    - destruct H as [[H _]|[H%written_woken_up|(H1 & H2 & _ & H3 & H4)]]; [by left|by right; right|]. right; right.
      split; [congruence|lia|exists O; by rewrite take_0, app_nil_r|done]. }
  split; [intros ev Hev Hr; destruct (Hstep c2 ev HI Hev Hr) as (y & ? & _); by exists y|].
  destruct HI as [[W1 W2 W3 W4 W5 W6 W7]|[[B1 B2 B3 B4 B5 B6]|[U1 U2 U3 U4]]]; split; try done; by eexists.
Qed.

(** A connection that is lost while the thread waits and its mailbox is full
    stops the lwIP thread for good: it waits in err_tcp for room that only
    the thread could make, which waits for its signal. *)
Theorem err_tcp_deadlock m old data c err :
  writing old data c -> m <= zlen (recvmbox c) ->
  exists c1, tcp_callback m c (EvErr err) = Ok c1 /\ forall c2, star (wait_step m) c1 c2 -> nc_posting c2 = true /\ op_completed c2 = 0.
Proof.
  intros [Hs Hp Hpo Hsem _ _ _] Hm. unfold tcp_callback. rewrite Hpo, Hp. unfold err_tcp. cbn.
  replace (m <=? zlen (recvmbox c)) with true by lia. eexists. split; [done|]. intros c2 Hrun.
  assert (H : nc_posting c2 = true /\ op_completed c2 = 0 /\ m <= zlen (recvmbox c2)); [|tauto].
  refine (star_invariant (wait_step m) (fun x => nc_posting x = true /\ op_completed x = 0 /\ m <= zlen (recvmbox x)) _ _ _ _ Hrun).
  - intros x y (H1 & H2 & H3) (ev & _ & _ & E). unfold tcp_callback in E. rewrite H1 in E.
    destruct ev; try by injection E as <-. replace (m <=? zlen (recvmbox x)) with true in E by lia. by injection E as <-.
  - by split_and!.
Qed.

(** Five bytes through a send buffer of three. *)
Lemma netconn_write_all_witness :
  exists c1 c2, do_write (do_newconn netconn_alloc) [1; 2; 3; 4; 5] (TcpEnv 3 ERR_OK ERR_OK ERR_OK ERR_OK) = Ok c1 /\
    tcp_callback 9 c1 (EvSent (TcpEnv 3 ERR_OK ERR_OK ERR_OK ERR_OK)) = Ok c2 /\ nc_taken c1 = [1; 2; 3] /\ nc_taken c2 = [1; 2; 3; 4; 5].
Proof.
  set (e := TcpEnv 3 ERR_OK ERR_OK ERR_OK ERR_OK).
  destruct (netconn_write_all 9 (do_newconn netconn_alloc) [1; 2; 3; 4; 5] e) as (c1 & E & H); [done..|unfold env_ok; cbn; lia|].
  destruct (tcp_callback 9 c1 (EvSent e)) as [c2| |] eqn:E2; [|vm_compute in E; injection E as <-; vm_compute in E2; discriminate..].
  exists c1, c2. split; [done|]. split; [done|]. split; [vm_compute in E; by injection E as <-|].
  apply (H c2); [|vm_compute in E; injection E as <-; vm_compute in E2; by injection E2 as <-..].
  apply star_one. exists (EvSent e). split_and!; [cbn; unfold env_ok; cbn; lia|discriminate|done].
Defined.

(** The result is read from the connection, not from the message: data that
    arrives between the signal and the wake-up replaces the error of the
    write by ERR_OK. *)
Lemma netconn_write_masked :
  exists c1 c2 c3, do_write (do_newconn netconn_alloc) [1; 2; 3] (TcpEnv 2 ERR_OK ERR_OK ERR_OK ERR_OK) = Ok c1 /\
    tcp_callback 9 c1 (EvPoll (TcpEnv 2 (-12) ERR_OK ERR_OK ERR_OK)) = Ok c2 /\ op_completed c2 = 1 /\ nc_err c2 = -12 /\
    tcp_callback 9 c2 (EvRecv (Some [Frag [9] []])) = Ok c3 /\ nc_err c3 = ERR_OK /\ nc_taken c3 = [1; 2].
Proof. do 3 eexists. split; [vm_compute; reflexivity|]. split; [vm_compute; reflexivity|]. by vm_compute. Qed.

(** ** What a thread knows of its connection *)

(** What the thread does with it: nothing, or it waits in a call. *)
Inductive phase : Type :=
  | P_idle
  | P_connect
  | P_write (data : list Z)
  | P_close.

Definition mbox_ok (c : netconn) : Prop :=
  Forall (fun p => p <> Some []) (recvmbox c) /\ (nc_posting c = true -> nc_pcb c = false).

(** Signalled, but not yet running. *)
Definition woken (c : netconn) : Prop := state c = NETCONN_NONE /\ op_completed c = 1.

(** [base]: what should have been taken over before the phase. *)
Definition taken_if (c : netconn) (bs : list Z) : Prop := nc_broken c = false -> nc_taken c = bs.

Definition phase_ok (ph : phase) (base : list Z) (c : netconn) : Prop :=
  mbox_ok c /\
  match ph with
  | P_idle => state c = NETCONN_NONE /\ op_completed c = 0 /\ taken_if c base
  | P_connect => (state c = NETCONN_CONNECT /\ op_completed c = 0 \/ woken c) /\ taken_if c base
  | P_write data =>
      (exists old, writing old data c /\ (nc_broken c = false -> old = base)) \/ (exists old, blocked old data c) \/ woken c /\ taken_if c (base ++ data)
  | P_close => (state c = NETCONN_CLOSE /\ op_completed c = 0 \/ woken c) /\ taken_if c base
  end.

(** After the phase. *)
Definition phase_end (ph : phase) (base : list Z) : list Z :=
  match ph with P_write data => base ++ data | _ => base end.

Lemma written_phase old data base c c' :
  mbox_ok c' -> written old data (nc_broken c) c' -> (nc_broken c = false -> old = base) -> phase_ok (P_write data) base c'.
Proof.
  intros Hm [W1 W2 W3 W4] Hb. split; [done|]. right; right. split; [done|]. intros Hbr.
  destruct W4 as [[-> Hbr']|[? _]]; [|congruence]. rewrite Hb; congruence.
Qed.

Lemma blocked_written_phase old data base c : mbox_ok c -> written old data true c -> phase_ok (P_write data) base c.
Proof.
  intros Hm [W1 W2 W3 W4]. split; [done|]. right; right. split; [done|]. intros Hbr. destruct W4 as [[_ ?]|[? _]]; congruence.
Qed.

Lemma do_writemore_mbox c e c' :
  do_writemore c e = Ok c' -> recvmbox c' = recvmbox c /\ nc_posting c' = nc_posting c /\ nc_pcb c' = nc_pcb c.
Proof.
  unfold do_writemore. destruct (write_msg c); [|done]. destruct (e_write e =? ERR_OK); [|destruct (e_write e =? ERR_MEM); by intros [= <-]].
  destruct (write_offset _ =? _); by intros [= <-].
Qed.

Lemma do_write_phase c data e base :
  phase_ok P_idle base c -> env_ok e -> exists c', do_write c data e = Ok c' /\ phase_ok (P_write data) base c'.
Proof.
  intros (Hm & Hs & Hsem & Ht) He. destruct (do_write_ok c data e Hsem (proj2 Hm) He) as (c' & E & H). exists c'. split; [done|].
  assert (Hm' : mbox_ok c').
  { unfold mbox_ok, do_write in *. destruct (ERR_IS_FATAL (nc_err c)); [by injection E as <-|].
    destruct (nc_pcb c) eqn:Ep; [|by injection E as <-; cbn; rewrite Ep]. apply do_writemore_mbox in E as (-> & -> & ->). by cbn; rewrite Ep. }
  destruct H as [[Hw Hb]|[Hw|(H1 & H2 & H3 & _ & H5)]].
  - split; [done|]. left. exists (nc_taken c). split; [done|]. rewrite Hb. apply Ht.
  - by apply (written_phase (nc_taken c) data base c).
  - split; [done|]. right; right. split; [split; congruence|]. intros ?. congruence.
Qed.

Lemma mbox_keep c c' : mbox_ok c -> recvmbox c' = recvmbox c -> (nc_posting c' = true -> nc_pcb c' = false) -> mbox_ok c'.
Proof. intros [Hm _] E H. split; [by rewrite E|done]. Qed.

Lemma close_internal_mbox c e : mbox_ok c -> mbox_ok (do_close_internal c e).
Proof. intros Hm. unfold do_close_internal. destruct (e_close e =? ERR_OK); apply (mbox_keep c); try done. apply Hm. Qed.

Lemma close_internal_phase c e base :
  mbox_ok c -> state c = NETCONN_CLOSE -> op_completed c = 0 -> taken_if c base -> phase_ok P_close base (do_close_internal c e).
Proof.
  intros Hm Hs Hsem Ht. split; [by apply close_internal_mbox|]. unfold do_close_internal.
  destruct (e_close e =? ERR_OK); (split; [|done]); [right; split; cbn; [done|lia]|by left].
Qed.

Lemma do_close_phase c e base : phase_ok P_idle base c -> phase_ok P_close base (do_close c e).
Proof.
  intros (Hm & Hs & Hsem & Ht). unfold do_close. destruct (nc_pcb c); [by apply close_internal_phase|].
  split; [done|]. split; [right; split; cbn; [done|lia]|done].
Qed.

Lemma do_delconn_phase c e base : phase_ok P_idle base c -> phase_ok P_close base (do_delconn c e).
Proof.
  intros (Hm & Hs & Hsem & Ht). unfold do_delconn. destruct (nc_pcb c); [by apply close_internal_phase|].
  split; [done|]. split; [right; split; cbn; [done|lia]|done].
Qed.

Lemma do_connect_phase c e base : phase_ok P_idle base c -> phase_ok P_connect base (do_connect c e).
Proof.
  intros (Hm & Hs & Hsem & Ht). unfold do_connect. destruct (nc_pcb c); (split; [done|]); (split; [|done]); [by left|].
  right. split; cbn; [done|lia].
Qed.

(** Waking up. *)
Lemma phase_wake ph base c :
  phase_ok ph base c -> ph <> P_idle -> op_completed c <> 0 ->
  phase_ok P_idle (phase_end ph base) (set_sem c (op_completed c - 1)).
Proof.
  intros (Hm & H) Hph Hsem.
  assert (Hw : woken c /\ taken_if c (phase_end ph base)).
  { destruct ph; cbn; [done|..].
    - by destruct H as [[[_ ?]|?] ?].
    - destruct H as [(old & [] & _)|[(old & [])|H]]; done.
    - by destruct H as [[[_ ?]|?] ?]. }
  destruct Hw as [[Hs H1] Ht]. split; [done|]. cbn. split_and!; [done|lia|done].
Qed.

Lemma mbox_posted c : mbox_ok c -> mbox_ok (err_posted c).
Proof.
  intros [Hm _]. unfold err_posted, mbox_ok. cbn. assert (Forall (fun p => p <> Some []) (recvmbox c ++ [None])).
  { apply Forall_app_2; [done|by repeat constructor]. }
  by destruct (state c).
Qed.

Lemma mbox_callback m c ev c' : mbox_ok c -> event_ok ev -> tcp_callback m c ev = Ok c' -> mbox_ok c'.
Proof.
  intros Hm He. unfold tcp_callback. destruct (nc_posting c) eqn:Ep.
  { destruct ev; try by intros [= <-]. intros [= <-]. destruct (m <=? _); [done|by apply mbox_posted]. }
  assert (Hkeep : forall c', recvmbox c' = recvmbox c -> nc_posting c' = nc_posting c -> mbox_ok c').
  { intros x E1 E2. apply (mbox_keep c); [done|done|]. rewrite E2, Ep. discriminate. }
  assert (Hmore : forall e, do_writemore c e = Ok c' -> mbox_ok c').
  { intros e E. apply do_writemore_mbox in E as (E1 & E2 & _). by apply Hkeep. }
  destruct (nc_pcb c); [|by intros [= <-]]. destruct ev as [p|e|e|err|err|].
  - destruct (nc_recv c); [|by intros [= <-]]. unfold recv_tcp. intros [= <-]. destruct (m <=? _); [by apply Hkeep|].
    split; [|cbn; rewrite Ep; discriminate]. cbn. apply Forall_app_2; [apply Hm|]. constructor; [|constructor].
    destruct p as [p|]; cbn in He; congruence.
  - unfold poll_tcp. destruct (state c); try exact (Hmore e); intros [= <-]; done || by apply close_internal_mbox.
  - unfold sent_tcp. destruct (state c); try exact (Hmore e); intros [= <-]; done || by apply close_internal_mbox.
  - intros [= <-]. unfold err_tcp. destruct (m <=? _); [|apply mbox_posted]; by apply (mbox_keep c).
  - destruct (state c); try by intros [= <-]. intros [= <-]. unfold do_connected. destruct (err =? ERR_OK); by apply Hkeep.
  - by intros [= <-].
Qed.

(** A callback leaves a connection alone on which nothing is under way. *)
Lemma callback_none m c ev :
  state c = NETCONN_NONE ->
  exists c', tcp_callback m c ev = Ok c' /\ state c' = NETCONN_NONE /\ op_completed c' = op_completed c /\
    nc_taken c' = nc_taken c /\ (nc_broken c' = false -> nc_broken c = false).
Proof.
  intros Hs. unfold tcp_callback. destruct (nc_posting c).
  { destruct ev; try by exists c. eexists. split; [done|]. unfold err_posted. cbn. rewrite Hs. by destruct (m <=? _). }
  destruct (nc_pcb c); [|by exists c]. destruct ev as [p|e|e|err|err|].
  - destruct (nc_recv c); [|by exists c]. eexists. split; [done|]. unfold recv_tcp. by destruct (m <=? _).
  - unfold poll_tcp. rewrite Hs. by exists c.
  - unfold sent_tcp. rewrite Hs. by exists c.
  - eexists. split; [done|]. unfold err_tcp, err_posted. cbn. rewrite Hs. by destruct (m <=? _).
  - rewrite Hs. by exists c.
  - by exists c.
Qed.

Lemma callback_woken m c ev bs :
  woken c -> taken_if c bs -> exists c', tcp_callback m c ev = Ok c' /\ woken c' /\ taken_if c' bs.
Proof.
  intros [Hs Hsem] Ht. destruct (callback_none m c ev Hs) as (c' & E & H1 & H2 & H3 & H4). exists c'. split; [done|].
  split; [split; congruence|]. intros Hb. rewrite H3. apply Ht. by apply H4.
Qed.

(** The error callback while a thread waits: it is woken, unless the lwIP
    thread waits itself. *)
Lemma posted_woken c bs st :
  state c = st -> st <> NETCONN_NONE -> st <> NETCONN_LISTEN -> op_completed c = 0 -> taken_if c bs ->
  woken (err_posted c) /\ taken_if (err_posted c) bs.
Proof. intros <- H1 H2 Hsem Ht. unfold err_posted. cbn. destruct (state c); try done; (split; [split; cbn; [done|lia]|done]). Qed.

Lemma callback_lost m c bs err st :
  state c = st -> st <> NETCONN_NONE -> st <> NETCONN_LISTEN -> op_completed c = 0 -> taken_if c bs ->
  (state (err_tcp m c err) = st /\ op_completed (err_tcp m c err) = 0 \/ woken (err_tcp m c err)) /\ taken_if (err_tcp m c err) bs.
Proof.
  intros Hs H1 H2 Hsem Ht. unfold err_tcp. destruct (m <=? _); [by split; [left|]|].
  destruct (posted_woken (break (set_err (set_pcb c false) err)) bs st) as [? ?]; try done. by split; [right|].
Qed.

Lemma callback_connecting m c ev bs :
  state c = NETCONN_CONNECT -> op_completed c = 0 -> taken_if c bs ->
  exists c', tcp_callback m c ev = Ok c' /\ (state c' = NETCONN_CONNECT /\ op_completed c' = 0 \/ woken c') /\ taken_if c' bs.
Proof.
  intros Hs Hsem Ht. assert (Hsame : (state c = NETCONN_CONNECT /\ op_completed c = 0 \/ woken c) /\ taken_if c bs) by (split; [by left|done]).
  unfold tcp_callback. destruct (nc_posting c).
  { destruct ev; try by exists c. eexists. split; [done|]. destruct (m <=? _); [done|].
    destruct (posted_woken c bs _ Hs) as [? ?]; try done. by split; [right|]. }
  destruct (nc_pcb c); [|by exists c]. destruct ev as [p|e|e|err|err|].
  - destruct (nc_recv c); [|by exists c]. eexists. split; [done|]. unfold recv_tcp.
    destruct (m <=? _); cbn; (split; [by left|done]).
  - unfold poll_tcp. rewrite Hs. by exists c.
  - unfold sent_tcp. rewrite Hs. by exists c.
  - eexists. split; [done|]. by apply callback_lost.
  - rewrite Hs. eexists. split; [done|]. unfold do_connected. destruct (err =? ERR_OK); (split; [right; split; cbn; [done|lia]|done]).
  - by exists c.
Qed.

Lemma callback_closing m c ev bs :
  state c = NETCONN_CLOSE -> op_completed c = 0 -> taken_if c bs ->
  exists c', tcp_callback m c ev = Ok c' /\ (state c' = NETCONN_CLOSE /\ op_completed c' = 0 \/ woken c') /\ taken_if c' bs.
Proof.
  intros Hs Hsem Ht. assert (Hsame : (state c = NETCONN_CLOSE /\ op_completed c = 0 \/ woken c) /\ taken_if c bs) by (split; [by left|done]).
  assert (Hint : forall e, exists c', Ok (do_close_internal c e) = Ok c' /\ (state c' = NETCONN_CLOSE /\ op_completed c' = 0 \/ woken c') /\ taken_if c' bs).
  { intros e. eexists. split; [done|]. unfold do_close_internal. destruct (e_close e =? ERR_OK); cbn;
      (split; [|done]); [right; split; cbn; [done|lia]|by left]. }
  unfold tcp_callback. destruct (nc_posting c).
  { destruct ev; try by exists c. eexists. split; [done|]. destruct (m <=? _); [done|].
    destruct (posted_woken c bs _ Hs) as [? ?]; try done. by split; [right|]. }
  destruct (nc_pcb c); [|by exists c]. destruct ev as [p|e|e|err|err|].
  - destruct (nc_recv c); [|by exists c]. eexists. split; [done|]. unfold recv_tcp.
    destruct (m <=? _); cbn; (split; [by left|done]).
  - unfold poll_tcp. rewrite Hs. apply Hint.
  - unfold sent_tcp. rewrite Hs. apply Hint.
  - eexists. split; [done|]. by apply callback_lost.
  - rewrite Hs. by exists c.
  - by exists c.
Qed.

(** No callback is undefined, and each keeps what the thread relies on. *)
Lemma callback_phase m ph base c ev :
  phase_ok ph base c -> event_ok ev -> exists c', tcp_callback m c ev = Ok c' /\ phase_ok ph base c'.
Proof.
  intros [Hm H] He.
  assert (Hgoal : exists c', tcp_callback m c ev = Ok c' /\ (mbox_ok c' -> phase_ok ph base c')).
  { destruct ph; cbn in H.
    - destruct H as (Hs & Hsem & Ht). destruct (callback_none m c ev Hs) as (c' & E & H1 & H2 & H3 & H4). exists c'. split; [done|].
      intros Hm'. split; [done|]. split_and!; [done|congruence|]. intros Hb. rewrite H3. apply Ht. by apply H4.
    - destruct H as [[[Hs Hsem]|Hw] Ht].
      + destruct (callback_connecting m c ev base Hs Hsem Ht) as (c' & E & H). exists c'. split; [done|]. by split.
      + destruct (callback_woken m c ev base Hw Ht) as (c' & E & H1 & H2). exists c'. split; [done|]. split; [done|]. split; [by right|done].
    - destruct H as [(old & Hw & Hb)|[[old Hw]|[Hw Ht]]].
      + destruct (callback_writing m old data c ev Hw He) as (c' & E & H). exists c'. split; [done|]. intros Hm'.
        destruct H as [[Hw' Hb']|[Hw'|Hw']]; [|by apply (written_phase old data base c)|by split; [done|]; right; left; exists old].
        split; [done|]. left. exists old. split; [done|]. by rewrite Hb'.
      + destruct (callback_blocked m old data c ev Hw) as (c' & E & H). exists c'. split; [done|]. intros Hm'.
        destruct H as [H|H]; [by split; [done|]; right; left; exists old|by apply (blocked_written_phase old)].
      + destruct (callback_woken m c ev _ Hw Ht) as (c' & E & H1 & H2). exists c'. split; [done|]. split; [done|]. right; right. by split.
    - destruct H as [[[Hs Hsem]|Hw] Ht].
      + destruct (callback_closing m c ev base Hs Hsem Ht) as (c' & E & H). exists c'. split; [done|]. by split.
      + destruct (callback_woken m c ev base Hw Ht) as (c' & E & H1 & H2). exists c'. split; [done|]. split; [done|]. split; [by right|done]. }
  destruct Hgoal as (c' & E & H'). exists c'. split; [done|]. apply H'. by eapply mbox_callback.
Qed.

Lemma netconn_recv_phase c netbuf base r :
  phase_ok P_idle base c -> netconn_recv c netbuf = Some r ->
  phase_ok P_idle base (snd r) /\ forall p, fst r = Some p -> p <> [].
Proof.
  intros ([Hm Hpo] & Hs & Hsem & Ht). unfold netconn_recv. destruct (ERR_IS_FATAL (nc_err c)); [by intros [= <-]|].
  destruct netbuf; [|by intros [= <-]]. destruct (recvmbox c) as [|[p|] rest] eqn:E; [done|..];
    apply Forall_cons_1 in Hm as [Hp Hm]; intros [= <-].
  - split; [done|]. cbn. intros p' [= ->]. congruence.
  - split; [|done]. cbn. by destruct (nc_err c =? ERR_OK).
Qed.

(** *** A connection without a pcb *)

(** Nothing is taken over any more, and no call brings the pcb back. *)
Definition dead (bs : list Z) (c : netconn) : Prop := nc_pcb c = false /\ nc_taken c = bs.

Lemma dead_calls bs c e data m ev :
  dead bs c ->
  dead bs (do_connect c e) /\ dead bs (do_close c e) /\ (forall c', do_write c data e = Ok c' -> dead bs c') /\
  (forall c', tcp_callback m c ev = Ok c' -> dead bs c') /\ dead bs (set_sem c (op_completed c - 1)).
Proof.
  intros [Hp Ht]. unfold do_connect, do_close, do_write, tcp_callback. rewrite Hp. split_and!; try done.
  - intros c'. by destruct (ERR_IS_FATAL (nc_err c)); intros [= <-].
  - intros c'. destruct (nc_posting c); [|by intros [= <-]]. destruct ev; intros [= <-]; try done.
    destruct (m <=? _); [done|]. unfold err_posted. by destruct (state _).
Qed.
