(* ===== verification/EchoThreads.v ===== *)
(** * The threads of the application: Project/FreeRTOS/working/src/tcpecho.c

    tcpecho_thread takes serial numbers over TCP, tcp_sendData_thread posts
    the report for them. They share flag_recv_success, flag_Client,
    recv_serial and the buffer post_packet without protection, and have one
    priority, so that any of them may run next: a world makes a step when a
    thread executes up to its next access to what is shared, or the protocol
    engine calls back, or another task changes the measures. json_Packet_Gen
    reads its globals one by one and writes post_packet byte by byte, strlen
    reads it byte by byte, and netconn_write passes a pointer to it: the lwIP
    thread reads the bytes when it passes them on. A thread that waits makes
    steps that change nothing, and so do all calls into the lwIP thread while
    that waits in err_tcp. *)

From S2P Require Import Prelude Jsmn JsmnTree CStd Json Netconn.

(** ** What the threads share *)

(** [serials], what recv_serial has been set to, is not in the code. *)
Record shared : Type := Shared {
  glob : globals;
  flag_recv_success : Z;
  flag_Client : Z;
  serials : list Z;
}.

Definition set_success (sh : shared) (x : Z) : shared := Shared (glob sh) x (flag_Client sh) (serials sh).
Definition set_client (sh : shared) (x : Z) : shared := Shared (glob sh) (flag_recv_success sh) x (serials sh).
Definition with_serial (g : globals) (n : Z) : globals :=
  Globals n (iot_item_1 g) (iot_item_2 g) (RTC_year g) (RTC_month g) (RTC_day g) (RTC_hour g) (RTC_minute g) (RTC_second g) (post_packet g).
Definition with_packet (g : globals) (p : list Z) : globals :=
  Globals (recv_serial g) (iot_item_1 g) (iot_item_2 g) (RTC_year g) (RTC_month g) (RTC_day g) (RTC_hour g) (RTC_minute g) (RTC_second g) p.
Definition set_serial (sh : shared) (n : Z) : shared :=
  Shared (with_serial (glob sh) n) (flag_recv_success sh) (flag_Client sh) (serials sh ++ [n]).
Definition set_packet (sh : shared) (p : list Z) : shared :=
  Shared (with_packet (glob sh) p) (flag_recv_success sh) (flag_Client sh) (serials sh).
(** New measures and a new time. *)
Definition set_measures (sh : shared) (m : globals) : shared :=
  let g := glob sh in
  Shared (Globals (recv_serial g) (iot_item_1 m) (iot_item_2 m) (RTC_year m) (RTC_month m) (RTC_day m) (RTC_hour m) (RTC_minute m) (RTC_second m)
    (post_packet g)) (flag_recv_success sh) (flag_Client sh) (serials sh).

(** What a step needs from outside: whether memory is found, what the engine
    answers, an error, the uninitialised arrays of json_Packet_Gen. *)
Record io : Type := Io {
  io_ok : bool;
  io_err : Z;
  io_env : tcp_env;
  io_frame : gen_frame;
}.

(** ** tcp_sendData_thread *)

(** The bytes that are still to be read of a message that points to memory
    which is now [mem]. *)
Definition repoint (mem : list Z) (c : netconn) : netconn :=
  match write_msg c with
  | Some d =>
      let n := Z.to_nat (write_offset c) in
      set_write c (Some (take n d ++ drop n (take (length d) mem))) (write_offset c)
  | None => c
  end.

(** json_Packet_Gen: reading the [n]-th of its globals; the buffer it prints
    to is post_packet. *)
Definition read_global (n : nat) (g r : globals) : globals :=
  let f {A} (k : nat) (p : globals -> A) : A := if decide (n = k) then p g else p r in
  Globals (f 0%nat recv_serial) (f 7%nat iot_item_1) (f 8%nat iot_item_2) (f 1%nat RTC_year) (f 2%nat RTC_month) (f 3%nat RTC_day)
    (f 4%nat RTC_hour) (f 5%nat RTC_minute) (f 6%nat RTC_second) (post_packet g).

(** What its last sprintf will write, with the values [r] it has read: the
    text and its terminator. *)
Definition gen_text (r : globals) (fr : gen_frame) : outcome (list Z) :=
  let! (_, g) := json_Packet_Gen r fr in
  let! n := strlen (post_packet g) in
  Ok (take (S (Z.to_nat n)) (post_packet g)).

(** buf_data, on a buffer that is not NULL: strlen at its [n]-th byte goes on
    or returns the length; *dataptr is the buffer. *)
Definition buf_data (buf : list Z) (n : nat) : outcome (nat + Z) :=
  let! c := rd buf (Z.of_nat n) in
  Ok (if c =? 0 then inr (u16 (Z.of_nat n)) else inl (S n)).

Inductive sender_pc : Type :=
  | S_flag | S_new | S_loop | S_renew | S_test
  | S_connect | S_connecting
  | S_wait | S_strlen (n : nat) | S_read (n : nat) | S_put (text : list Z) (n : nat) | S_data (n : nat)
  | S_write (len : Z) | S_writing | S_clear | S_clear2
  | S_close_in | S_closing_in | S_close | S_closing.

(** [s_read]: what json_Packet_Gen has read of the globals. [s_reports], the
    values of the packets passed to netconn_write, is not in the code. *)
Record sender : Type := Sender {
  s_pc : sender_pc;
  sendConn : option netconn;
  errSender : Z;
  errWrite : Z;
  s_read : globals;
  s_reports : list globals;
}.

Definition at_pc (t : sender) (pc : sender_pc) : sender := Sender pc (sendConn t) (errSender t) (errWrite t) (s_read t) (s_reports t).
Definition with_conn (t : sender) (pc : sender_pc) (c : netconn) : sender := Sender pc (Some c) (errSender t) (errWrite t) (s_read t) (s_reports t).
Definition with_errors (t : sender) (pc : sender_pc) (es ew : Z) : sender := Sender pc (sendConn t) es ew (s_read t) (s_reports t).
Definition with_read (t : sender) (pc : sender_pc) (r : globals) : sender := Sender pc (sendConn t) (errSender t) (errWrite t) r (s_reports t).
Definition reported (t : sender) : sender := Sender (s_pc t) (sendConn t) (errSender t) (errWrite t) (s_read t) (s_reports t ++ [s_read t]).

(** sys_thread_new. *)
Definition no_globals : globals := Globals 0 (Fin false 0 0) (Fin false 0 0) 0 0 0 0 0 0 [].
Definition new_sender : sender := Sender S_flag None 0 0 no_globals [].

Definition netconn_new (ok : bool) : option netconn := if ok then Some (do_newconn netconn_alloc) else None.

(** A call into the lwIP thread on the connection; it is never NULL there. *)
Definition conn_call (t : sender) (pc : sender_pc) (f : netconn -> outcome netconn) : outcome sender :=
  match sendConn t with Some c => let! c := f c in Ok (with_conn t pc c) | None => UB end.

(** Waiting for op_completed; [k] continues with conn->err. *)
Definition conn_wait (t : sender) (k : sender -> Z -> sender) : outcome sender :=
  match sendConn t with
  | Some c => if op_completed c =? 0 then Ok t else Ok (k (with_conn t (s_pc t) (set_sem c (op_completed c - 1))) (nc_err c))
  | None => UB
  end.

Definition sender_step (i : io) (sh : shared) (t : sender) : outcome (shared * sender) :=
  let stay r := let! t := r in Ok (sh, t) in
  let packet := post_packet (glob sh) in
  match s_pc t with
  | S_flag => Ok (set_client sh 0, at_pc t S_new)
  | S_new => Ok (sh, Sender S_loop (netconn_new (io_ok i)) (errSender t) (errWrite t) (s_read t) (s_reports t))
  | S_loop => Ok (sh, at_pc t (match sendConn t with None => S_renew | Some _ => S_test end))
  | S_renew => Ok (sh, match netconn_new (io_ok i) with None => t | Some c => with_conn t S_test c end)
  | S_test => Ok (sh, at_pc t (if flag_Client sh =? 1 then S_connect else S_loop))
  | S_connect => stay (conn_call t S_connecting (fun c => Ok (do_connect c (io_env i))))
  | S_connecting =>
      stay (conn_wait t (fun t e =>
        if e =? ERR_OK then with_errors t S_wait e ERR_OK else with_errors t S_connect e (errWrite t)))
  | S_wait =>
      Ok (sh, at_pc t (if errWrite t =? ERR_OK then
                         if errSender t =? ERR_OK then if flag_recv_success sh =? 0 then S_wait else S_strlen 0 else S_close_in
                       else S_close))
  | S_strlen n => let! c := rd packet (Z.of_nat n) in Ok (sh, at_pc t (if c =? 0 then S_read 0 else S_strlen (S n)))
  | S_read n =>
      let r := read_global n (glob sh) (s_read t) in
      if (n <? 8)%nat then Ok (sh, with_read t (S_read (S n)) r)
      else let! text := gen_text r (io_frame i) in Ok (sh, with_read t (S_put text 0) r)
  | S_put text n =>
      match text !! n with
      | None => Ok (sh, at_pc t (S_data 0))
      | Some c => let! p := wr packet (Z.of_nat n) c in Ok (set_packet sh p, at_pc t (S_put text (S n)))
      end
  | S_data n =>
      let! r := buf_data packet n in
      Ok (sh, at_pc t (match r with inl n => S_data n | inr len => S_write len end))
  | S_write len =>
      stay (conn_call (reported t) S_writing (fun c => do_write c (take (Z.to_nat len) packet) (io_env i)))
  | S_writing => stay (conn_wait t (fun t e => with_errors t S_clear (errSender t) e))
  | S_clear => Ok (set_client sh 0, at_pc t S_clear2)
  | S_clear2 => Ok (set_success sh 0, at_pc t S_wait)
  | S_close_in => stay (conn_call t S_closing_in (fun c => Ok (do_close c (io_env i))))
  | S_closing_in => stay (conn_wait t (fun t e => at_pc t (if e =? ERR_OK then S_wait else S_close_in)))
  | S_close => stay (conn_call t S_closing (fun c => Ok (do_close c (io_env i))))
  | S_closing => stay (conn_wait t (fun t e => at_pc t (if e =? ERR_OK then S_loop else S_close)))
  end.

(** ** tcpecho_thread *)

Inductive server_pc : Type :=
  | V_start | V_end | V_accept | V_recv
  | V_frag | V_writing | V_parse | V_flag | V_client | V_spawn | V_next
  | V_close | V_closing | V_delete | V_deleting.

(** [v_conn] is newconn, [v_buf] the pbufs of buf from its ptr. [v_in], the
    bytes received on the connection, is not in the code. *)
Record server : Type := Server {
  v_pc : server_pc;
  v_conn : option netconn;
  v_buf : list frag;
  v_err : Z;
  v_in : list Z;
}.

Definition v_at (v : server) (pc : server_pc) : server := Server pc (v_conn v) (v_buf v) (v_err v) (v_in v).
Definition v_with (v : server) (pc : server_pc) (c : netconn) : server := Server pc (Some c) (v_buf v) (v_err v) (v_in v).

Definition v_call (v : server) (pc : server_pc) (f : netconn -> outcome netconn) : outcome server :=
  match v_conn v with Some c => let! c := f c in Ok (v_with v pc c) | None => UB end.

Definition v_wait (v : server) (k : server -> Z -> server) : outcome server :=
  match v_conn v with
  | Some c => if op_completed c =? 0 then Ok v else Ok (k (v_with v (v_pc v) (set_sem c (op_completed c - 1))) (nc_err c))
  | None => UB
  end.

(** The bytes of the pbufs from ptr. *)
Definition payloads (l : list frag) : list Z := concat (map fr_data l).

(** The result says whether tcp_SendData_init is called. *)
Definition server_step (i : io) (sh : shared) (v : server) : outcome (shared * server * bool) :=
  let stay r := let! v := r in Ok (sh, v, false) in
  match v_pc v with
  | V_start =>
      (* netconn_new, netconn_bind, netconn_listen *)
      Ok (sh, v_at v (if io_ok i && (io_err i =? ERR_OK) then V_accept else V_end), false)
  | V_end => Ok (sh, v, false)
  | V_accept =>
      Ok (sh, match netconn_new (io_ok i) with Some c => Server V_recv (Some c) [] ERR_OK [] | None => v end, false)
  | V_recv =>
      match v_conn v with
      | None => UB
      | Some c =>
          match netconn_recv c (io_ok i) with
          | None => Ok (sh, v, false)
          | Some (None, c) => Ok (sh, v_with v V_close c, false)
          | Some (Some p, c) => Ok (sh, Server V_frag (Some c) p (v_err v) (v_in v ++ payloads p), false)
          end
      end
  | V_frag =>
      match v_buf v with
      | [] => UB
      | f :: _ => stay (v_call v V_writing (fun c => do_write c (fr_data f) (io_env i)))
      end
  | V_writing => stay (v_wait v (fun v e => Server V_parse (v_conn v) (v_buf v) e (v_in v)))
  | V_parse =>
      match v_buf v with
      | [] => UB
      | f :: _ =>
          let! n := str2int (fr_data f ++ fr_after f) in
          Ok (set_serial sh n, v_at v (if 0 <=? n then V_flag else V_next), false)
      end
  | V_flag =>
      let! _ := sprintf (replicate 15 0) "%d" [AInt (recv_serial (glob sh))] in
      Ok (set_success sh 1, v_at v V_client, false)
  | V_client => Ok (set_client sh 1, v_at v V_spawn, false)
  | V_spawn => Ok (sh, v_at v V_next, true)
  | V_next =>
      (* netbuf_next, netbuf_delete *)
      match v_buf v with
      | _ :: f :: r => Ok (sh, Server V_frag (v_conn v) (f :: r) (v_err v) (v_in v), false)
      | _ => Ok (sh, Server V_recv (v_conn v) [] (v_err v) (v_in v), false)
      end
  | V_close => stay (v_call v V_closing (fun c => Ok (do_close c (io_env i))))
  | V_closing => stay (v_wait v (fun v _ => v_at v V_delete))
  | V_delete => stay (v_call v V_deleting (fun c => Ok (do_delconn c (io_env i))))
  | V_deleting => stay (v_wait v (fun v _ => Server V_accept None [] (v_err v) (v_in v)))
  end.

(** ** The world *)

Record world : Type := World {
  w_sh : shared;
  w_server : server;
  w_senders : list sender;
}.

Inductive action : Type :=
  | A_server (i : io)
  | A_sender (k : nat) (i : io)
  | A_tcp_server (ev : tcp_event)
  | A_tcp_sender (k : nat) (ev : tcp_event)
  | A_measure (m : globals).

(** Where a thread calls the lwIP thread. *)
Definition sender_calls (pc : sender_pc) : bool :=
  match pc with S_new | S_renew | S_connect | S_write _ | S_close_in | S_close => true | _ => false end.
Definition server_calls (pc : server_pc) : bool :=
  match pc with V_start | V_frag | V_close | V_delete => true | _ => false end.

(** The lwIP thread waits in err_tcp. *)
Definition waits (c : option netconn) : bool := match c with Some c => nc_posting c | None => false end.
Definition lwip_waits (w : world) : bool := waits (v_conn (w_server w)) || existsb (fun t => waits (sendConn t)) (w_senders w).
Definition is_post (ev : tcp_event) : bool := match ev with EvPost => true | _ => false end.

Definition do_action (mbox_size : Z) (a : action) (w : world) : outcome world :=
  match a with
  | A_server i =>
      if lwip_waits w && server_calls (v_pc (w_server w)) then Ok w else
      let! (p, spawn) := server_step i (w_sh w) (w_server w) in
      Ok (World (fst p) (snd p) (if spawn && io_ok i then w_senders w ++ [new_sender] else w_senders w))
  | A_sender k i =>
      match w_senders w !! k with
      | None => Ok w
      | Some t =>
          if lwip_waits w && sender_calls (s_pc t) then Ok w else
          let! (sh, t) := sender_step i (w_sh w) t in Ok (World sh (w_server w) (<[k := t]> (w_senders w)))
      end
  | A_tcp_server ev =>
      match v_conn (w_server w) with
      | None => Ok w
      | Some c =>
          if lwip_waits w && negb (is_post ev) then Ok w else
          let! c := tcp_callback mbox_size c ev in Ok (World (w_sh w) (v_with (w_server w) (v_pc (w_server w)) c) (w_senders w))
      end
  | A_tcp_sender k ev =>
      match w_senders w !! k with
      | Some t =>
          match sendConn t with
          | Some c =>
              if lwip_waits w && negb (is_post ev) then Ok w else
              let! c := tcp_callback mbox_size (repoint (post_packet (glob (w_sh w))) c) ev in
              Ok (World (w_sh w) (w_server w) (<[k := with_conn t (s_pc t) c]> (w_senders w)))
          | None => Ok w
          end
      | None => Ok w
      end
  | A_measure m => Ok (World (set_measures (w_sh w) m) (w_server w) (w_senders w))
  end.

(** tcpecho_init and the first tcp_SendData_init of main; post_packet is
    static, so it is zero. *)
Definition world_init (g : globals) : world :=
  World (Shared (with_packet g (replicate 450 0)) 0 0 []) (Server V_start None [] 0 []) [new_sender].

(** ** What holds of the shared variables *)

Definition report (g : globals) : list Z := render (packet_tree g) ++ [69; 79; 70; 13; 10].
Definition reports (l : list globals) : list Z := concat (map report l).

(** A report is for a number the server has read. *)
Definition report_ok (ser : list Z) (g : globals) : Prop := globals_ok g /\ recv_serial g ∈ ser.

(** Whatever is printed where, post_packet ends somewhere in its first 266
    bytes. *)
Record shared_ok (sh : shared) : Prop := SharedOk {
  so_glob : globals_ok (glob sh);
  so_last : serials sh <> [] -> recv_serial (glob sh) ∈ serials sh;
  so_flag : flag_recv_success sh <> 0 -> serials sh <> [];
  so_end : post_packet (glob sh) !! 265%nat = Some 0;
}.

(** The server only adds numbers. *)
Definition later (sh sh' : shared) : Prop := exists l, serials sh' = serials sh ++ l.

Lemma later_same sh sh' : serials sh' = serials sh -> later sh sh'.
Proof. intros H. exists []. by rewrite app_nil_r. Qed.

Lemma later_refl sh : later sh sh.
Proof. by apply later_same. Qed.

Lemma later_in sh sh' n : later sh sh' -> n ∈ serials sh -> n ∈ serials sh'.
Proof. intros [l ->] ?. apply elem_of_app. by left. Qed.

Lemma report_ok_later sh sh' g : later sh sh' -> report_ok (serials sh) g -> report_ok (serials sh') g.
Proof. intros Hl [? ?]. split; [done|]. by eapply later_in. Qed.

Lemma later_serials sh sh' : later sh sh' -> serials sh <> [] -> serials sh' <> [].
Proof. intros [l ->] H. by destruct (serials sh). Qed.

#[local] Opaque render packet_tree json_Packet_Gen.

Lemma report_nonzero g : globals_ok g -> Forall (fun c => c <> 0) (report g).
Proof. intros H. apply Forall_app_2; [by apply packet_nonzero|by repeat constructor]. Qed.

Lemma report_len g : globals_ok g -> zlen (report g) <= 265.
Proof. intros H. unfold report. rewrite zlen_app. pose proof (packet_len g H). change (zlen [69; 79; 70; 13; 10]) with 5. lia. Qed.

Lemma report_nat_len g : globals_ok g -> (length (report g) <= 265)%nat.
Proof. intros H. pose proof (report_len g H). unfold zlen in *. lia. Qed.

(** What json_Packet_Gen prints is the report on what it has read. *)
Lemma gen_text_ok g fr : globals_ok g -> frame_ok fr -> gen_text g fr = Ok (report g ++ [0]).
Proof.
  intros Hg Hfr. unfold gen_text. destruct (packet_gen_spec g fr Hfr Hg) as (g' & -> & E). cbn [obind].
  rewrite app_assoc in E. fold (report g) in E. rewrite E, strlen_app by (by apply report_nonzero). cbn [obind]. f_equal.
  unfold zlen. rewrite Nat2Z.id, take_app_ge by lia. by replace (S (length (report g)) - length (report g))%nat with 1%nat by lia.
Qed.

Lemma set_serial_ok sh n : shared_ok sh -> - 2 ^ 31 <= n < 2 ^ 31 -> shared_ok (set_serial sh n).
Proof.
  intros [Hg Hl Hf Hp] Hn. split; cbn [glob serials flag_recv_success set_serial with_serial recv_serial post_packet]; [| | |done].
  - by destruct Hg; split.
  - intros _. apply elem_of_app. right. by apply list_elem_of_singleton.
  - intros _. by destruct (serials sh).
Qed.

Lemma set_measures_ok sh m : shared_ok sh -> globals_ok m -> shared_ok (set_measures sh m).
Proof. intros [Hg Hl Hf Hp] Hm. split; try done. destruct Hg, Hm; by split. Qed.

Lemma set_client_ok sh x : shared_ok sh -> shared_ok (set_client sh x).
Proof. by intros [Hg Hl Hf Hp]; split. Qed.

Lemma set_success_ok sh x : shared_ok sh -> serials sh <> [] \/ x = 0 -> shared_ok (set_success sh x).
Proof. intros [Hg Hl Hf Hp] [H| ->]; split; done. Qed.

(** A byte of a report or its terminator is stored. *)
Lemma set_packet_ok sh g n c :
  shared_ok sh -> globals_ok g -> (report g ++ [0]) !! n = Some c ->
  wr (post_packet (glob sh)) (Z.of_nat n) c = Ok (<[n := c]> (post_packet (glob sh))) /\ shared_ok (set_packet sh (<[n := c]> (post_packet (glob sh)))).
Proof.
  intros [Hg Hl Hf Hp] Hgg Hc. pose proof (ok_post _ Hg) as Hlen. pose proof (report_nat_len g Hgg) as Hr.
  pose proof (lookup_lt_Some _ _ _ Hc) as Hn. rewrite length_app in Hn. cbn in Hn. split.
  - unfold wr. unfold zlen in Hlen. rewrite Hlen. replace ((Z.of_nat n <? 0) || (450 <=? Z.of_nat n)) with false by lia. by rewrite Nat2Z.id.
  - split; cbn [glob serials flag_recv_success set_packet with_packet recv_serial post_packet]; [|done..|].
    + destruct Hg; split; cbn; try done. unfold zlen. by rewrite length_insert.
    + destruct (decide (n = 265%nat)) as [->|]; [|by rewrite list_lookup_insert_ne].
      rewrite list_lookup_insert_eq by (by eapply lookup_lt_Some). rewrite lookup_app_r in Hc by lia.
      by replace (265 - length (report g))%nat with 0%nat in Hc by lia.
Qed.

(** ** What holds of a sender *)

Definition sender_phase (pc : sender_pc) : phase :=
  match pc with
  | S_connecting => P_connect
  | S_closing | S_closing_in => P_close
  | _ => P_idle
  end.

(** Before the first connection. *)
Definition no_conn (pc : sender_pc) : Prop :=
  match pc with S_flag | S_new | S_loop | S_renew => True | _ => False end.

Definition has_conn (pc : sender_pc) : Prop :=
  match pc with S_flag | S_new | S_renew => False | _ => True end.

(** From the first byte written to post_packet until netconn_write returns. *)
Definition in_report (pc : sender_pc) : bool :=
  match pc with S_put _ _ | S_data _ | S_write _ | S_writing => true | _ => false end.

(** The globals that were read before the [n]-th. *)
Record read_ok (ser : list Z) (n : nat) (r : globals) : Prop := ReadOk {
  rd_serial : (0 < n)%nat -> - 2 ^ 31 <= recv_serial r < 2 ^ 31 /\ recv_serial r ∈ ser /\ zlen (post_packet r) = 450;
  rd_year : (1 < n)%nat -> 0 <= RTC_year r < 10000;
  rd_month : (2 < n)%nat -> 0 <= RTC_month r < 100;
  rd_day : (3 < n)%nat -> 0 <= RTC_day r < 100;
  rd_hour : (4 < n)%nat -> 0 <= RTC_hour r < 100;
  rd_minute : (5 < n)%nat -> 0 <= RTC_minute r < 100;
  rd_second : (6 < n)%nat -> 0 <= RTC_second r < 100;
  rd_item_1 : (7 < n)%nat -> prints_below 28 (iot_item_1 r);
  rd_item_2 : (8 < n)%nat -> prints_below 28 (iot_item_2 r);
}.

Lemma read_global_ok sh n r :
  shared_ok sh -> serials sh <> [] -> (n <= 8)%nat -> read_ok (serials sh) n r -> read_ok (serials sh) (S n) (read_global n (glob sh) r).
Proof.
  intros [Hg Hl _ _] Hs Hn [R1 R2 R3 R4 R5 R6 R7 R8 R9]. specialize (Hl Hs). destruct Hg as [G1 G2 G3 G4 G5 G6 G7 G8 G9 G10].
  split; cbn [read_global recv_serial RTC_year RTC_month RTC_day RTC_hour RTC_minute RTC_second iot_item_1 iot_item_2 post_packet]; intros Hk.
  - destruct (decide (n = 0%nat)); [done|]. destruct R1 as (? & ? & _); [lia|]. done.
  - destruct (decide (n = 1%nat)); [done|apply R2; lia].
  - destruct (decide (n = 2%nat)); [done|apply R3; lia].
  - destruct (decide (n = 3%nat)); [done|apply R4; lia].
  - destruct (decide (n = 4%nat)); [done|apply R5; lia].
  - destruct (decide (n = 5%nat)); [done|apply R6; lia].
  - destruct (decide (n = 6%nat)); [done|apply R7; lia].
  - destruct (decide (n = 7%nat)); [done|apply R8; lia].
  - destruct (decide (n = 8%nat)); [done|apply R9; lia].
Qed.

Lemma read_ok_all ser r : read_ok ser 9 r -> report_ok ser r.
Proof.
  intros [R1 R2 R3 R4 R5 R6 R7 R8 R9]. destruct R1 as (? & ? & ?); [lia|]. split; [|done].
  split; [done|apply R8|apply R9|apply R2|apply R3|apply R4|apply R5|apply R6|apply R7|done]; lia.
Qed.

Lemma read_ok_later sh sh' n r : later sh sh' -> read_ok (serials sh) n r -> read_ok (serials sh') n r.
Proof. intros Hl [R1 ? ? ? ? ? ? ? ?]. split; try done. intros Hn. destruct (R1 Hn) as (? & ? & ?). split_and!; try done; try lia. by eapply later_in. Qed.

(** post_packet holds the report on [g]. *)
Definition holds_report (sh : shared) (g : globals) : Prop := exists r, post_packet (glob sh) = report g ++ 0 :: r.

(** What the thread relies on; with [x], when no other thread writes
    post_packet. *)
Definition data_ready (x : bool) (t : sender) (sh : shared) : Prop :=
  match s_pc t with
  | S_strlen n => serials sh <> [] /\ (n <= 265)%nat
  | S_read n => serials sh <> [] /\ (n <= 8)%nat /\ read_ok (serials sh) n (s_read t)
  | S_put text n => report_ok (serials sh) (s_read t) /\ text = report (s_read t) ++ [0] /\ (n <= length text)%nat /\
      (x = true -> take n (post_packet (glob sh)) = take n text)
  | S_data n => report_ok (serials sh) (s_read t) /\ (n <= 265)%nat /\
      (x = true -> holds_report sh (s_read t) /\ (n <= length (report (s_read t)))%nat)
  | S_write len => report_ok (serials sh) (s_read t) /\ (x = true -> holds_report sh (s_read t) /\ len = zlen (report (s_read t)))
  | S_writing => report_ok (serials sh) (s_read t) /\ (x = true -> holds_report sh (s_read t))
  | _ => True
  end.

(** The connection. *)
Definition conn_ok (x : bool) (t : sender) (c : netconn) : Prop :=
  match s_pc t with
  | S_writing => exists base data, phase_ok (P_write data) base c /\ (length data <= 450)%nat /\
      (x = true -> data = report (s_read t) /\ reports (s_reports t) = base ++ data)
  | pc => exists base, phase_ok (sender_phase pc) base c /\ (x = true -> reports (s_reports t) = base)
  end.

Record sender_ok (x : bool) (sh : shared) (t : sender) : Prop := SenderOk {
  sn_reports : Forall (report_ok (serials sh)) (s_reports t);
  sn_ready : data_ready x t sh;
  sn_conn : match sendConn t with
    | None => no_conn (s_pc t) /\ s_reports t = []
    | Some c => has_conn (s_pc t) /\ conn_ok x t c
    end;
}.

(** Other threads' steps: post_packet stays while the thread relies on it. *)
Lemma sender_ok_later x sh sh' t :
  later sh sh' -> (x = true -> in_report (s_pc t) = true -> post_packet (glob sh') = post_packet (glob sh)) ->
  sender_ok x sh t -> sender_ok x sh' t.
Proof.
  intros Hl Hpk [Hr Hd Hc]. pose proof (later_serials sh sh' Hl) as Hs. split; [|clear Hc Hr|done].
  { revert Hr. apply Forall_impl. intros g. by apply report_ok_later. }
  pose proof (report_ok_later sh sh' (s_read t) Hl). unfold data_ready, holds_report in *.
  destruct (s_pc t); try done; cbn [in_report] in Hpk.
  - destruct Hd. auto.
  - destruct Hd as (? & ? & ?). split_and!; auto. by eapply read_ok_later.
  - destruct Hd as (? & ? & ? & Hx). split_and!; auto. intros E. rewrite Hpk; auto.
  - destruct Hd as (? & ? & Hx). split_and!; auto. intros E. rewrite Hpk; auto.
  - destruct Hd as (? & Hx). split_and!; auto. intros E. rewrite Hpk; auto.
  - destruct Hd as (? & Hx). split_and!; auto. intros E. rewrite Hpk; auto.
Qed.

Definition io_fine (i : io) : Prop := env_ok (io_env i) /\ frame_ok (io_frame i).

Lemma reports_app l g : reports (l ++ [g]) = reports l ++ report g.
Proof. unfold reports. rewrite map_app, concat_app. cbn. by rewrite app_nil_r. Qed.

Lemma new_conn_phase : phase_ok P_idle [] (do_newconn netconn_alloc).
Proof. split; [by split; [constructor|]|]. by split_and!. Qed.

Lemma repoint_frame mem c :
  state (repoint mem c) = state c /\ nc_pcb (repoint mem c) = nc_pcb c /\ nc_err (repoint mem c) = nc_err c /\
  op_completed (repoint mem c) = op_completed c /\ recvmbox (repoint mem c) = recvmbox c /\
  nc_taken (repoint mem c) = nc_taken c /\ nc_broken (repoint mem c) = nc_broken c /\ nc_posting (repoint mem c) = nc_posting c.
Proof. unfold repoint. by destruct (write_msg c). Qed.

Lemma repoint_phase mem ph base c : (forall d, ph <> P_write d) -> phase_ok ph base c -> phase_ok ph base (repoint mem c).
Proof.
  intros Hph [Hm H]. destruct (repoint_frame mem c) as (E1 & E2 & E3 & E4 & E5 & E6 & E7 & E8).
  unfold phase_ok, mbox_ok, woken, taken_if in *. rewrite E1, E2, E4, E5, E6, E7, E8. split; [done|]. by destruct ph; try done; destruct (Hph data).
Qed.

(** The bytes of a write under way are those the pointer finds now. *)
Lemma repoint_write mem data base c :
  phase_ok (P_write data) base c -> (length data <= length mem)%nat ->
  exists data', phase_ok (P_write data') base (repoint mem c) /\ length data' = length data /\ (take (length data) mem = data -> data' = data).
Proof.
  intros [Hm H] Hl. destruct (repoint_frame mem c) as (E1 & E2 & E3 & E4 & E5 & E6 & E7 & E8).
  assert (Hm' : mbox_ok (repoint mem c)) by (unfold mbox_ok in *; by rewrite E2, E5, E8).
  destruct H as [(old & Hw & Hb)|[[old Hb]|[Hw Ht]]].
  - destruct Hw as [W1 W2 W3 W4 W5 W6 W7]. set (n := Z.to_nat (write_offset c)) in *.
    assert (Hn : (n <= length data)%nat) by (unfold n, zlen in *; lia).
    set (data' := take n data ++ drop n (take (length data) mem)).
    assert (Hlen : length data' = length data) by (unfold data'; rewrite length_app, length_take, length_drop, length_take; lia).
    exists data'. split; [|split; [done|intros E; unfold data'; by rewrite E, take_drop]].
    split; [done|]. left. exists old. split; [|by rewrite E7].
    split; rewrite ?E1, ?E2, ?E4, ?E6, ?E8; try done; unfold repoint; rewrite W5; cbn; fold n; try done.
    + unfold zlen in *. by rewrite Hlen.
    + unfold data'. by rewrite take_app_le, take_take, Nat.min_id by (rewrite length_take; lia).
  - exists data. split; [|done]. split; [done|]. right; left. exists old. destruct Hb. by split; rewrite ?E1, ?E2, ?E3, ?E4, ?E6, ?E7, ?E8.
  - exists data. split; [|done]. split; [done|]. right; right. unfold woken, taken_if in *. by rewrite E1, E4, E6, E7.
Qed.

Definition step_ok (x : bool) (sh : shared) (t : sender) (r : outcome (shared * sender)) : Prop :=
  exists sh' t', r = Ok (sh', t') /\ shared_ok sh' /\ sender_ok x sh' t' /\ later sh sh' /\
    (in_report (s_pc t) = false -> post_packet (glob sh') = post_packet (glob sh)).

Lemma keep_ok x sh t t' : shared_ok sh -> sender_ok x sh t' -> step_ok x sh t (Ok (sh, t')).
Proof. intros Hs Ht. exists sh, t'. by split_and!; [| | |apply later_refl|]. Qed.

Lemma stay_ok x sh t (r : outcome sender) :
  shared_ok sh -> (exists t', r = Ok t' /\ sender_ok x sh t') -> step_ok x sh t (let! t := r in Ok (sh, t)).
Proof. intros Hs (t' & -> & Ht). by apply keep_ok. Qed.

(** Outside netconn_write. *)
Lemma sender_at x sh pc c e1 e2 rd rs base :
  Forall (report_ok (serials sh)) rs -> data_ready x (Sender pc (Some c) e1 e2 rd rs) sh -> has_conn pc -> pc <> S_writing ->
  phase_ok (sender_phase pc) base c -> (x = true -> reports rs = base) -> sender_ok x sh (Sender pc (Some c) e1 e2 rd rs).
Proof.
  intros Hr Hd Hh Hpc Hp Hb. split; [done|done|]. cbn. split; [done|]. unfold conn_ok. cbn. destruct pc; try done; by exists base.
Qed.

(** A step before there is a connection. *)
Lemma sender_step_new x i sh t :
  shared_ok sh -> sender_ok x sh t -> sendConn t = None -> step_ok x sh t (sender_step i sh t).
Proof.
  intros Hs [Hr Hd Hc] Hn. rewrite Hn in Hc. destruct Hc as [Hno Hrs]. unfold sender_step. destruct t as [pc cn e1 e2 rd rs].
  cbn [s_pc sendConn s_reports errSender errWrite] in *. subst cn rs.
  assert (Hnone : forall sh' pc', no_conn pc' -> data_ready x (Sender pc' None e1 e2 rd []) sh' -> sender_ok x sh' (Sender pc' None e1 e2 rd [])).
  { intros sh' pc' ??. by split; [constructor| |]. }
  assert (Hnew : forall pc', has_conn pc' -> pc' <> S_writing -> sender_phase pc' = P_idle -> data_ready x (Sender pc' (Some (do_newconn netconn_alloc)) e1 e2 rd []) sh ->
    sender_ok x sh (Sender pc' (Some (do_newconn netconn_alloc)) e1 e2 rd [])).
  { intros pc' ? ? Hph ?. apply (sender_at x sh pc' _ e1 e2 rd [] []); try done. rewrite Hph. apply new_conn_phase. }
  destruct pc; try done; unfold at_pc, with_conn; cbn [s_pc sendConn s_reports errSender errWrite s_read].
  - exists (set_client sh 0), (Sender S_new None e1 e2 rd []). split_and!; [done|by apply set_client_ok|by apply Hnone|by apply later_same|done].
  - apply keep_ok; [done|]. unfold netconn_new. destruct (io_ok i); [by apply Hnew|by apply Hnone].
  - apply keep_ok; [done|]. by apply Hnone.
  - apply keep_ok; [done|]. unfold netconn_new. destruct (io_ok i); [by apply Hnew|by apply Hnone].
Qed.

Lemma packet_byte sh n : shared_ok sh -> (n <= 265)%nat ->
  exists c, rd (post_packet (glob sh)) (Z.of_nat n) = Ok c /\ post_packet (glob sh) !! n = Some c /\ (n = 265%nat -> c = 0).
Proof.
  intros [Hg _ _ Hp] Hn. pose proof (ok_post _ Hg) as Hl. unfold zlen in Hl.
  destruct (rd_ok (post_packet (glob sh)) (Z.of_nat n)) as (c & E & Ec); [lia|]. rewrite Nat2Z.id in Ec. exists c. split_and!; try done.
  intros ->. congruence.
Qed.

(** strlen of a report stops at its end. *)
Lemma report_byte g r n c :
  globals_ok g -> (report g ++ 0 :: r) !! n = Some c -> (n <= length (report g))%nat -> (c = 0 <-> n = length (report g)).
Proof.
  intros Hg Hc Hn. destruct (decide (n = length (report g))) as [->|Hne].
  - rewrite lookup_app_r, Nat.sub_diag in Hc by lia. injection Hc as <-. done.
  - rewrite lookup_app_l in Hc by lia. pose proof (Forall_lookup_1 _ _ _ _ (report_nonzero g Hg) Hc). done.
Qed.

(** A step on an idle connection. *)
Lemma sender_step_idle x i sh t c :
  shared_ok sh -> sender_ok x sh t -> sendConn t = Some c -> io_fine i -> sender_phase (s_pc t) = P_idle -> s_pc t <> S_writing ->
  step_ok x sh t (sender_step i sh t).
Proof.
  intros Hs Ht Hcn [He Hf] Hph Hpc. pose proof Ht as [Hr Hd Hc]. rewrite Hcn in Hc. destruct Hc as (Hhas & Hcn').
  destruct t as [pc cn e1 e2 rd rs]. cbn [s_pc sendConn s_reports errSender errWrite s_read] in *. subst cn.
  assert (Hx : exists base, phase_ok P_idle base c /\ (x = true -> reports rs = base)).
  { unfold conn_ok in Hcn'. cbn in Hcn'. destruct pc; try done; destruct Hcn' as (base & ? & ?); by exists base. }
  clear Hcn'. destruct Hx as (base & Hp & Hb).
  assert (Hmove : forall sh' pc' e1' e2' rd', shared_ok sh' -> serials sh' = serials sh -> has_conn pc' -> pc' <> S_writing ->
    (in_report pc = false -> post_packet (glob sh') = post_packet (glob sh)) ->
    data_ready x (Sender pc' (Some c) e1' e2' rd' rs) sh' -> sender_phase pc' = P_idle ->
    step_ok x sh (Sender pc (Some c) e1 e2 rd rs) (Ok (sh', Sender pc' (Some c) e1' e2' rd' rs))).
  { intros sh' pc' e1' e2' rd' Hs' Hl Hh' Hw Hpk Hd' Hph'. exists sh', (Sender pc' (Some c) e1' e2' rd' rs).
    split_and!; [done|done| |by apply later_same|done]. apply (sender_at x sh' pc' c e1' e2' rd' rs base); try done; [by rewrite Hl|by rewrite Hph']. }
  unfold data_ready in Hd. unfold sender_step, conn_call. destruct pc; try done; unfold at_pc, with_read, with_errors, with_conn;
    cbn [s_pc sendConn s_reports errSender errWrite s_read sender_phase reported obind] in *.
  - by apply Hmove.
  - destruct (flag_Client sh =? 1); by apply Hmove.
  - apply keep_ok; [done|]. apply (sender_at x sh _ _ e1 e2 rd rs base); try done. by apply do_connect_phase.
  - destruct (e2 =? ERR_OK); [destruct (e1 =? ERR_OK); [destruct (Z.eqb_spec (flag_recv_success sh) 0)|]|]; apply Hmove; try done.
    split; [by apply so_flag|lia].
  - destruct Hd as [Hser Hn]. destruct (packet_byte sh n Hs Hn) as (b & -> & _ & Hend). cbn [obind].
    destruct (Z.eqb_spec b 0) as [|Hb0]; apply Hmove; try done; unfold data_ready; cbn.
    + split_and!; try done; [lia|]. split; intros ?; lia.
    + split; [done|]. destruct (decide (n = 265%nat)); [by destruct Hb0; apply Hend|lia].
  - destruct Hd as (Hser & Hn & Hrd). pose proof (read_global_ok sh n rd Hs Hser Hn Hrd) as Hrd'. destruct (Nat.ltb_spec n 8).
    + by apply Hmove.
    + replace n with 8%nat in * by lia. apply read_ok_all in Hrd'. rewrite gen_text_ok by (apply Hrd' || done). cbn [obind].
      apply Hmove; try done. unfold data_ready. cbn [s_pc s_read]. split_and!; [done|done|lia|]. by rewrite !take_0.
  - destruct Hd as (Hrd & Htext & Hn & Hx). subst text. destruct ((report rd ++ [0]) !! n) as [b|] eqn:Eb.
    + destruct (set_packet_ok sh rd n b Hs (proj1 Hrd) Eb) as [Ew Hs']. rewrite Ew. cbn [obind]. apply Hmove; try done.
      unfold data_ready. cbn [s_pc s_read serials set_packet]. split_and!; try done; [apply lookup_lt_Some in Eb; lia|].
      intros E. pose proof (ok_post _ (so_glob _ Hs)) as Hlen. pose proof (report_nat_len rd (proj1 Hrd)). unfold zlen in Hlen.
      pose proof (lookup_lt_Some _ _ _ Eb) as Hlt. rewrite length_app in Hlt. cbn in Hlt.
      rewrite (take_S_r _ n b) by (cbn; apply list_lookup_insert_eq; lia). rewrite (take_S_r _ n b) by done. f_equal. cbn.
      rewrite take_insert_ge by lia. by apply Hx.
    + apply Hmove; try done. apply lookup_ge_None in Eb. assert (n = length (report rd ++ [0])) as -> by lia.
      unfold data_ready. cbn [s_pc s_read]. split_and!; [done|lia|]. intros E. specialize (Hx E).
      rewrite (take_ge (report rd ++ [0])) in Hx by lia. split; [|lia]. eexists.
      rewrite <- (take_drop (length (report rd ++ [0])) (post_packet (glob sh))), Hx, <- app_assoc. done.
  - destruct Hd as (Hrd & Hn & Hx). unfold buf_data. destruct (packet_byte sh n Hs Hn) as (b & -> & Eb & Hend). cbn [obind].
    destruct (Z.eqb_spec b 0) as [Hb0|Hb0]; apply Hmove; try done; unfold data_ready; cbn [s_pc s_read].
    + split; [done|]. intros E. destruct (Hx E) as [[r Er] Hle]. split; [by exists r|]. rewrite Er in Eb.
      apply (report_byte rd r n b) in Hb0 as ->; [|apply Hrd|done|done]. rewrite u16_small; [done|]. pose proof (report_nat_len rd (proj1 Hrd)). lia.
    + split_and!; [done|destruct (decide (n = 265%nat)); [by destruct Hb0; apply Hend|lia]|]. intros E. destruct (Hx E) as [[r Er] Hle].
      split; [by exists r|]. rewrite Er in Eb. destruct (decide (n = length (report rd))) as [En|]; [|lia].
      by apply (report_byte rd r n b) in En; [|apply Hrd|..].
  - apply stay_ok; [done|]. destruct Hd as [Hrd Hx]. set (data := take _ _).
    destruct (do_write_phase c data (io_env i) base Hp He) as (c' & -> & Hp'). cbn [obind]. eexists. split; [done|].
    split; cbn [s_reports s_pc sendConn]; [by apply Forall_app_2; [|constructor]|split; [done|]; intros E; by apply Hx|]. split; [done|].
    exists base, data. split; [done|]. split; [unfold data; rewrite length_take; pose proof (ok_post _ (so_glob _ Hs)) as Hlen; unfold zlen in Hlen; lia|].
    intros E. destruct (Hx E) as [[r Er] ->]. cbn [s_read s_reports].
    assert (data = report rd) as ->. { unfold data, zlen. by rewrite Er, Nat2Z.id, take_app_length. }
    split; [done|]. by rewrite reports_app, (Hb E).
  - apply Hmove; try done. by apply set_client_ok.
  - apply Hmove; try done. apply set_success_ok; [done|by right].
  - apply keep_ok; [done|]. apply (sender_at x sh _ _ e1 e2 rd rs base); try done. by apply do_close_phase.
  - apply keep_ok; [done|]. apply (sender_at x sh _ _ e1 e2 rd rs base); try done. by apply do_close_phase.
Qed.

(** A step of a thread that waits in a call. *)
Lemma conn_wait_ok t c ph base k :
  sendConn t = Some c -> phase_ok ph base c -> ph <> P_idle ->
  conn_wait t k = Ok t \/
  exists c', conn_wait t k = Ok (k (with_conn t (s_pc t) c') (nc_err c)) /\ phase_ok P_idle (phase_end ph base) c'.
Proof.
  intros Hc Hp Hph. unfold conn_wait. rewrite Hc. destruct (Z.eqb_spec (op_completed c) 0) as [|Hn]; [by left|].
  right. eexists. split; [done|]. by apply phase_wake.
Qed.

Lemma sender_step_wait x i sh t c :
  shared_ok sh -> sender_ok x sh t -> sendConn t = Some c -> sender_phase (s_pc t) <> P_idle \/ s_pc t = S_writing ->
  step_ok x sh t (sender_step i sh t).
Proof.
  intros Hs Ht Hcn Hph. pose proof Ht as [Hr Hd Hc]. rewrite Hcn in Hc. destruct Hc as (Hhas & Hc).
  destruct t as [pc cn e1 e2 rd rs]. cbn [s_pc sendConn s_reports errSender errWrite s_read] in *. subst cn.
  assert (Hgo : forall ph base k, phase_ok ph base c -> ph <> P_idle ->
    (forall c' err, phase_ok P_idle (phase_end ph base) c' -> sender_ok x sh (k (Sender pc (Some c') e1 e2 rd rs) err)) ->
    step_ok x sh (Sender pc (Some c) e1 e2 rd rs) (let! t := conn_wait (Sender pc (Some c) e1 e2 rd rs) k in Ok (sh, t))).
  { intros ph base k Hp Hne Hk. apply stay_ok; [done|].
    destruct (conn_wait_ok (Sender pc (Some c) e1 e2 rd rs) c ph base k) as [->|(c' & -> & Hp')]; try done; (eexists; split; [done|]); [done|].
    by apply Hk. }
  unfold sender_step, conn_ok in *. cbn [s_pc s_read s_reports] in *. destruct pc; try (by destruct Hph).
  - destruct Hc as (base & Hp & Hb). apply (Hgo P_connect base); try done. intros c' err Hp'. unfold with_errors. cbn.
    destruct (err =? ERR_OK); by apply (sender_at x sh _ _ _ _ _ _ base).
  - destruct Hc as (base & data & Hp & _ & Hb). apply (Hgo (P_write data) base); try done. intros c' err Hp'. unfold with_errors. cbn.
    apply (sender_at x sh _ _ _ _ _ _ (base ++ data)); try done. intros E. by destruct (Hb E).
  - destruct Hc as (base & Hp & Hb). apply (Hgo P_close base); try done. intros c' err Hp'. unfold at_pc. cbn.
    destruct (err =? ERR_OK); by apply (sender_at x sh _ _ _ _ _ _ base).
  - destruct Hc as (base & Hp & Hb). apply (Hgo P_close base); try done. intros c' err Hp'. unfold at_pc. cbn.
    destruct (err =? ERR_OK); by apply (sender_at x sh _ _ _ _ _ _ base).
Qed.

Lemma sender_step_ok x i sh t : shared_ok sh -> sender_ok x sh t -> io_fine i -> step_ok x sh t (sender_step i sh t).
Proof.
  intros Hs Ht Hi. destruct (sendConn t) as [c|] eqn:E; [|by apply sender_step_new].
  destruct (s_pc t) eqn:Ep; try (by eapply sender_step_wait; rewrite ?Ep; [..|left]);
    try (by eapply sender_step_wait; rewrite ?Ep; [..|right]); by eapply sender_step_idle; rewrite ?Ep.
Qed.

Lemma sender_callback x m sh t c ev :
  shared_ok sh -> sender_ok x sh t -> sendConn t = Some c -> event_ok ev ->
  exists c', tcp_callback m (repoint (post_packet (glob sh)) c) ev = Ok c' /\ sender_ok x sh (with_conn t (s_pc t) c').
Proof.
  intros Hs Ht Hc He. pose proof Ht as [Hr Hd Hcn]. rewrite Hc in Hcn. destruct Hcn as (Hh & Hcn).
  assert (Hgo : s_pc t <> S_writing -> forall base, phase_ok (sender_phase (s_pc t)) base c -> (x = true -> reports (s_reports t) = base) ->
    exists c', tcp_callback m (repoint (post_packet (glob sh)) c) ev = Ok c' /\ sender_ok x sh (with_conn t (s_pc t) c')).
  { intros Hpc base Hp Hb. apply (repoint_phase (post_packet (glob sh))) in Hp; [|intros d; by destruct (s_pc t)].
    destruct (callback_phase m _ base _ ev Hp He) as (c' & E & Hp'). exists c'. split; [done|]. destruct t. by apply (sender_at x sh _ _ _ _ _ _ base). }
  unfold conn_ok in Hcn. destruct (s_pc t) eqn:Ep; try (destruct Hcn as (base & Hp & Hb); by apply (Hgo ltac:(done) base)).
  destruct Hcn as (base & data & Hp & Hl & Hb). pose proof (ok_post _ (so_glob _ Hs)) as Hlen. unfold zlen in Hlen.
  destruct (repoint_write (post_packet (glob sh)) data base c Hp) as (data' & Hp2 & Hl' & Hsame); [lia|].
  destruct (callback_phase m _ base _ ev Hp2 He) as (c' & E & Hp'). exists c'. split; [done|].
  split; cbn [with_conn s_reports s_pc sendConn]; [done|unfold data_ready in *; cbn; by rewrite Ep in Hd|]. split; [done|].
  exists base, data'. split; [done|]. split; [lia|]. cbn [s_read s_reports]. intros Ex. destruct (Hb Ex) as [Hdata Hrep].
  rewrite Hsame; [done|]. unfold data_ready in Hd. rewrite Ep in Hd. destruct (proj2 Hd Ex) as [r ->]. by rewrite Hdata, take_app_length.
Qed.

(** ** What holds of the server *)

Definition server_phase (v : server) : phase :=
  match v_pc v with
  | V_writing => P_write (match v_buf v with f :: _ => fr_data f | [] => [] end)
  | V_closing | V_deleting => P_close
  | _ => P_idle
  end.

(** What is still to be written after the phase. *)
Definition to_write (v : server) : list Z :=
  match v_pc v with
  | V_frag => payloads (v_buf v)
  | V_writing | V_parse | V_flag | V_client | V_spawn | V_next => payloads (tail (v_buf v))
  | _ => []
  end.

Definition v_no_conn (pc : server_pc) : Prop := match pc with V_start | V_end | V_accept => True | _ => False end.

Definition has_buf (pc : server_pc) : Prop :=
  match pc with V_frag | V_writing | V_parse | V_flag | V_client | V_spawn | V_next => True | _ => False end.

Record server_ok (sh : shared) (v : server) : Prop := ServerOk {
  vn_buf : has_buf (v_pc v) -> v_buf v <> [];
  vn_serial : v_pc v = V_flag -> serials sh <> [];
  vn_conn : match v_conn v with
    | None => v_no_conn (v_pc v)
    | Some c => ~ v_no_conn (v_pc v) /\ exists base, phase_ok (server_phase v) base c /\ v_in v = phase_end (server_phase v) base ++ to_write v
    end;
}.

Lemma server_ok_later sh sh' v : later sh sh' -> server_ok sh v -> server_ok sh' v.
Proof. intros Hl [Hb Hs Hc]. split; try done. intros E. by eapply later_serials; [|apply Hs]. Qed.

(** The one thing that may go wrong. *)
Definition bad_number (v : server) : Prop :=
  v_pc v = V_parse /\ exists f r, v_buf v = f :: r /\ forall n, str2int (fr_data f ++ fr_after f) <> Ok n.

Definition vstep_ok (sh : shared) (v : server) (r : outcome (shared * server * bool)) : Prop :=
  bad_number v \/ exists sh' v' b, r = Ok (sh', v', b) /\ shared_ok sh' /\ server_ok sh' v' /\ later sh sh'.

Lemma vstay_ok sh v v' : shared_ok sh -> server_ok sh v' -> vstep_ok sh v (let! v := Ok v' in Ok (sh, v, false)).
Proof. intros Hs Hv. right. exists sh, v', false. by split_and!; [| | |apply later_refl]. Qed.

Lemma server_step_new i sh v : shared_ok sh -> server_ok sh v -> v_conn v = None -> vstep_ok sh v (server_step i sh v).
Proof.
  intros Hs [Hb _ Hc] Hn. rewrite Hn in Hc. right. unfold server_step. destruct v as [pc cn buf e inp]. cbn [v_pc v_conn v_buf v_in] in *. subst cn.
  destruct pc; try done.
  - eexists sh, _, false. split; [done|]. split; [done|]. split; [|apply later_refl]. unfold v_at. cbn [v_conn v_buf v_err v_in].
    by destruct (io_ok i && (io_err i =? ERR_OK)); split.
  - eexists sh, _, false. split; [done|]. split; [done|]. split; [by split|apply later_refl].
  - unfold netconn_new. destruct (io_ok i); (eexists sh, _, false; split; [done|]; split; [done|]; split; [|apply later_refl]); [|by split].
    split; try done. split; [cbn; tauto|]. exists []. split; [exact new_conn_phase|done].
Qed.

Lemma str2int_range s n : str2int s = Ok n -> - 2 ^ 31 <= n < 2 ^ 31.
Proof.
  unfold str2int. intros H. apply obind_ok in H as ([puiss str'] & _ & H). apply obind_ok in H as (r & _ & H). by apply chk32_inv in H as [-> ?].
Qed.

(** The serial number fits its text buffer. *)
Lemma serial_sprintf n : - 2 ^ 31 <= n < 2 ^ 31 -> exists r, sprintf (replicate 15 0) "%d" [AInt n] = Ok r.
Proof.
  intros Hn. eexists. apply (sprintf_ok _ _ _ (fmt_d n)); [cbn; by rewrite app_nil_r|]. pose proof (fmt_d_len n Hn).
  rewrite zlen_replicate. lia.
Qed.

Lemma str2int_cases s : (exists n, str2int s = Ok n) \/ forall n, str2int s <> Ok n.
Proof. destruct (str2int s) as [n| |]; [left; by exists n|by right..]. Qed.

Lemma payloads_cons f r : payloads (f :: r) = fr_data f ++ payloads r.
Proof. done. Qed.

(** The number is read. *)
Lemma server_parse i sh c f r e inp base :
  shared_ok sh -> phase_ok P_idle base c -> inp = base ++ payloads r ->
  vstep_ok sh (Server V_parse (Some c) (f :: r) e inp) (server_step i sh (Server V_parse (Some c) (f :: r) e inp)).
Proof.
  intros Hs Hp Hin. unfold server_step. cbn [v_pc v_buf]. destruct (str2int_cases (fr_data f ++ fr_after f)) as [[n En]|Hbad];
    [|left; split; [done|]; by exists f, r].
  rewrite En. cbn [obind]. right. pose proof (str2int_range _ _ En) as Hn. eexists (set_serial sh n), _, false. split; [done|].
  split; [by apply set_serial_ok|]. split; [|by eexists].
  assert (Hne : serials (set_serial sh n) <> []) by (cbn; by destruct (serials sh)).
  unfold v_at. cbn [v_conn v_buf v_err v_in].
  destruct (0 <=? n); split; cbn [v_pc v_buf v_conn]; try done; (split; [cbn; tauto|]; exists base; by split).
Qed.

Lemma server_step_idle i sh v c :
  shared_ok sh -> server_ok sh v -> v_conn v = Some c -> io_fine i -> server_phase v = P_idle -> vstep_ok sh v (server_step i sh v).
Proof.
  intros Hs [Hb Hser Hc] Hcn [He _] Hph. rewrite Hcn in Hc. destruct Hc as (Hno & base & Hp & Hin). destruct v as [pc cn buf e inp].
  cbn [v_pc v_conn v_buf v_in] in *. subst cn. rewrite Hph in Hp, Hin. cbn [phase_end] in Hin.
  assert (Hmove : forall sh' pc' buf' e' b, shared_ok sh' -> later sh sh' -> has_buf pc' = has_buf pc -> buf' = buf -> pc' <> V_flag ->
    ~ v_no_conn pc' -> (forall e2, server_phase (Server pc' (Some c) buf e2 inp) = P_idle) -> to_write (Server pc' (Some c) buf e' inp) = to_write (Server pc (Some c) buf e inp) ->
    vstep_ok sh (Server pc (Some c) buf e inp) (Ok (sh', Server pc' (Some c) buf' e' inp, b))).
  { intros sh' pc' buf' e' b Hs' Hl Hhb -> Hfl Hno' Hph' Htw. right. exists sh', (Server pc' (Some c) buf e' inp), b. split; [done|]. split; [done|]. split; [|done].
    split; cbn [v_pc v_buf v_conn]; [by rewrite Hhb|done|]. split; [done|]. exists base. rewrite Hph'. split; [done|]. cbn [phase_end v_in]. by rewrite Htw. }
  destruct pc; try done; try (cbn in Hno; tauto); try (by destruct buf); cbn [to_write v_pc v_buf has_buf] in *.
  - unfold server_step. cbn [v_pc v_conn]. destruct (netconn_recv c (io_ok i)) as [[[p|] c']|] eqn:Er.
    + destruct (netconn_recv_phase c (io_ok i) base _ Hp Er) as [Hp' Hne]. right. eexists sh, _, false. split; [done|]. split; [done|]. split; [|apply later_refl].
      split; cbn [v_pc v_buf v_conn]; [intros _; by apply Hne|done|]. split; [cbn; tauto|]. exists base. split; [done|].
      cbn [phase_end server_phase v_pc to_write v_buf v_in]. by rewrite Hin, app_nil_r.
    + destruct (netconn_recv_phase c (io_ok i) base _ Hp Er) as [Hp' _]. right. eexists sh, _, false. split; [done|]. split; [done|]. split; [|apply later_refl].
      split; cbn [v_with v_pc v_buf v_conn]; try done. split; [cbn; tauto|]. by exists base.
    + apply Hmove; done || apply later_refl.
  - destruct buf as [|f r]; [by destruct (Hb I)|]. unfold server_step. cbn [v_pc v_buf v_call v_conn].
    destruct (do_write_phase c (fr_data f) (io_env i) base Hp He) as (c' & -> & Hp'). apply vstay_ok; [done|].
    split; cbn [v_with v_pc v_buf v_conn]; try done. split; [cbn; tauto|]. exists base. split; [done|]. cbn [server_phase v_pc v_buf phase_end to_write v_in tail].
    by rewrite Hin, payloads_cons, app_assoc.
  - destruct buf as [|f r]; [by destruct (Hb I)|]. by apply (server_parse i sh c f r e inp base).
  - unfold server_step. cbn [v_pc]. destruct (serial_sprintf (recv_serial (glob sh))) as [r ->]; [apply ok_serial, so_glob, Hs|].
    apply Hmove; try done; [apply set_success_ok; [done|left; by apply Hser]|by apply later_same].
  - unfold server_step. apply Hmove; try done; [by apply set_client_ok|by apply later_same].
  - apply Hmove; done || apply later_refl.
  - unfold server_step. cbn [v_pc v_buf]. destruct buf as [|f r]; [by destruct (Hb I)|]. cbn [tail] in Hin. right.
    assert (Hnext : forall pc' buf', (pc' = V_recv /\ r = [] \/ pc' = V_frag /\ r <> [] /\ buf' = r) -> server_ok sh (Server pc' (Some c) buf' e inp)).
    { intros pc' buf' [[-> ->]|(-> & Hr & ->)]; split; cbn [v_pc v_buf v_conn]; try done; (split; [cbn; tauto|]; exists base; split; [done|]; done). }
    destruct r as [|f2 r]; cbn [tail]; (eexists sh, _, false; split; [done|]; split; [done|]; split; [|apply later_refl]); apply Hnext; [by left|by right].
  - unfold server_step. cbn [v_pc v_call v_conn]. apply vstay_ok; [done|]. split; cbn [v_with v_pc v_buf v_conn]; try done. split; [cbn; tauto|].
    exists base. split; [by apply do_close_phase|done].
  - unfold server_step. cbn [v_pc v_call v_conn]. apply vstay_ok; [done|]. split; cbn [v_with v_pc v_buf v_conn]; try done. split; [cbn; tauto|].
    exists base. split; [by apply do_delconn_phase|done].
Qed.

Lemma server_step_wait i sh v c :
  shared_ok sh -> server_ok sh v -> v_conn v = Some c -> server_phase v <> P_idle -> vstep_ok sh v (server_step i sh v).
Proof.
  intros Hs Hv Hcn Hph. pose proof Hv as [Hb Hser Hc]. rewrite Hcn in Hc. destruct Hc as (Hno & base & Hp & Hin). right.
  assert (Hgo : forall k, (forall c' err, phase_ok P_idle (phase_end (server_phase v) base) c' -> server_ok sh (k (v_with v (v_pc v) c') err)) ->
    exists sh' v' b, (let! v := v_wait v k in Ok (sh, v, false)) = Ok (sh', v', b) /\ shared_ok sh' /\ server_ok sh' v' /\ later sh sh').
  { intros k Hk. unfold v_wait. rewrite Hcn. destruct (Z.eqb_spec (op_completed c) 0) as [|Hn].
    - exists sh, v, false. by split_and!; [| | |apply later_refl].
    - eexists sh, _, false. split; [done|]. split; [done|]. split; [|apply later_refl]. apply Hk. by apply phase_wake. }
  unfold server_step. destruct v as [pc cn buf e inp]. cbn [v_pc v_conn v_buf v_in] in *. subst cn.
  destruct pc; try done; apply Hgo; intros c' err Hp'; unfold v_at; cbn [v_with v_pc v_conn v_buf v_err v_in].
  - split; cbn [v_pc v_buf v_conn]; try done. split; [cbn; tauto|]. eexists. split; [exact Hp'|done].
  - split; cbn [v_pc v_buf v_conn]; try done. split; [cbn; tauto|]. eexists. split; [exact Hp'|done].
  - by split.
Qed.

Lemma server_step_ok i sh v : shared_ok sh -> server_ok sh v -> io_fine i -> vstep_ok sh v (server_step i sh v).
Proof.
  intros Hs Hv Hi. destruct (v_conn v) as [c|] eqn:E; [|by apply server_step_new].
  assert (H : server_phase v = P_idle \/ server_phase v <> P_idle) by (destruct (server_phase v); (by left) || by right).
  destruct H; [by eapply server_step_idle|by eapply server_step_wait].
Qed.

Lemma server_callback m sh v c ev :
  server_ok sh v -> v_conn v = Some c -> event_ok ev ->
  exists c', tcp_callback m c ev = Ok c' /\ server_ok sh (v_with v (v_pc v) c').
Proof.
  intros [Hb Hs Hcn] Hc He. rewrite Hc in Hcn. destruct Hcn as (Hno & base & Hp & Hin).
  destruct (callback_phase m _ base c ev Hp He) as (c' & E & Hp'). exists c'. split; [done|]. split; try done.
  split; [done|]. by exists base.
Qed.

(** ** Steps of the world *)

Definition action_ok (a : action) : Prop :=
  match a with
  | A_server i | A_sender _ i => io_fine i
  | A_tcp_server ev | A_tcp_sender _ ev => event_ok ev
  | A_measure m => globals_ok m
  end.

Definition app_step (m : Z) (w w' : world) : Prop := exists a, action_ok a /\ do_action m a w = Ok w'.

(** With [x], no two threads are between the first byte they write to
    post_packet and the end of their netconn_write. *)
Record world_ok (x : bool) (w : world) : Prop := WorldOk {
  wo_shared : shared_ok (w_sh w);
  wo_server : server_ok (w_sh w) (w_server w);
  wo_senders : Forall (sender_ok x (w_sh w)) (w_senders w);
}.

Definition exclusive (w : world) : Prop :=
  forall j k t u, w_senders w !! j = Some t -> w_senders w !! k = Some u -> in_report (s_pc t) = true -> in_report (s_pc u) = true -> j = k.

Lemma server_step_packet i sh v sh' v' b :
  server_step i sh v = Ok (sh', v', b) -> post_packet (glob sh') = post_packet (glob sh).
Proof.
  unfold server_step. destruct (v_pc v); intros E; try by injection E as <- <- <-.
  all: try by apply obind_ok in E as (? & _ & [= <- <- <-]).
  - destruct (v_conn v); [|done]. destruct (netconn_recv _ _) as [[[p|] c]|]; by injection E as <- <- <-.
  - destruct (v_buf v); [done|]. by apply obind_ok in E as (? & _ & [= <- <- <-]).
  - destruct (v_buf v); [done|]. by apply obind_ok in E as (? & _ & [= <- <- <-]).
  - destruct (v_buf v) as [|? [|? ?]]; by injection E as <- <- <-.
Qed.

Lemma senders_later x sh sh' l :
  later sh sh' -> post_packet (glob sh') = post_packet (glob sh) -> Forall (sender_ok x sh) l -> Forall (sender_ok x sh') l.
Proof. intros Hl Hp. apply Forall_impl. intros t. by apply sender_ok_later. Qed.

Lemma new_sender_ok x sh : sender_ok x sh new_sender.
Proof. by split; [constructor|..]. Qed.

(** Every action is defined, but for the number the server reads, and keeps
    the world in order. *)
Lemma do_action_ok x m a w :
  world_ok x w -> action_ok a -> (x = true -> exclusive w) ->
  (exists w', do_action m a w = Ok w' /\ world_ok x w') \/ (exists i, a = A_server i) /\ bad_number (w_server w).
Proof.
  intros [Hs Hv Ht] Ha Hx. assert (Hstay : exists w', Ok w = Ok w' /\ world_ok x w') by by exists w.
  destruct a as [i|k i|ev|k ev|g]; cbn [do_action action_ok] in *.
  - destruct (lwip_waits w && _); [by left|].
    destruct (server_step_ok i _ _ Hs Hv Ha) as [Hbad|(sh' & v' & b & E & Hs' & Hv' & Hl)]; [right; by split; [exists i|]|left].
    pose proof (server_step_packet _ _ _ _ _ _ E) as Hpk. rewrite E. cbn [obind].
    eexists. split; [done|]. split; cbn [w_sh w_server w_senders fst snd]; [done|done|]. apply (senders_later _ _ _ _ Hl Hpk) in Ht.
    destruct (b && io_ok i); [|done]. apply Forall_app_2; [done|]. constructor; [apply new_sender_ok|constructor].
  - left. destruct (w_senders w !! k) as [t|] eqn:Ek; [|done]. destruct (lwip_waits w && _); [done|]. pose proof (Forall_lookup_1 _ _ _ _ Ht Ek) as Hk.
    destruct (sender_step_ok x i _ t Hs Hk Ha) as (sh' & t' & -> & Hs' & Ht' & Hl & Hpk). eexists. split; [done|].
    split; cbn [w_sh w_server w_senders]; [done|by eapply server_ok_later|]. apply Forall_lookup_2. intros j u Hj.
    destruct (decide (k = j)) as [<-|Hne].
    + rewrite list_lookup_insert_eq in Hj by (by eapply lookup_lt_Some). by injection Hj as <-.
    + rewrite list_lookup_insert_ne in Hj by done. apply (sender_ok_later x (w_sh w)); [done| |by eapply Forall_lookup_1].
      intros E Hu. apply Hpk. destruct (in_report (s_pc t)) eqn:Er; [|done]. destruct Hne. by apply (Hx E k j t u).
  - left. destruct (v_conn (w_server w)) as [c|] eqn:Ec; [|done]. destruct (lwip_waits w && _); [done|].
    destruct (server_callback m _ _ c ev Hv Ec Ha) as (c' & -> & Hv'). eexists. by split.
  - left. destruct (w_senders w !! k) as [t|] eqn:Ek; [|done]. destruct (sendConn t) as [c|] eqn:Ec; [|done]. destruct (lwip_waits w && _); [done|].
    pose proof (Forall_lookup_1 _ _ _ _ Ht Ek) as Hk. destruct (sender_callback x m _ t c ev Hs Hk Ec Ha) as (c' & -> & Ht'). eexists. split; [done|].
    split; [done|done|]. by apply Forall_insert.
  - left. eexists. split; [done|]. split; cbn [w_sh w_server w_senders]; [by apply set_measures_ok|..].
    + eapply server_ok_later; [|done]. by apply later_same.
    + eapply senders_later; [..|done]; [by apply later_same|done].
Qed.

Lemma world_init_ok x g : globals_ok g -> world_ok x (world_init g).
Proof.
  intros Hg. split; [|by split|by constructor; [apply new_sender_ok|constructor]].
  split; cbn; try done. destruct Hg; by split.
Qed.

Lemma app_step_ok x m w w' : (x = true -> exclusive w) -> world_ok x w -> app_step m w w' -> world_ok x w'.
Proof.
  intros Hx Hw (a & Ha & E).
  destruct (do_action_ok x m a w Hw Ha Hx) as [(w1 & E' & H')|[(i & ->) (Hpc & f & r & Hbuf & Hbad)]]; [congruence|].
  exfalso. cbn [do_action] in E. rewrite Hpc, andb_false_r in E. unfold server_step in E. rewrite Hpc, Hbuf in E.
  destruct (str2int (fr_data f ++ fr_after f)) as [n| |]; [by apply (Hbad n)|done|done].
Qed.

Lemma reachable_ok m g w : globals_ok g -> star (app_step m) (world_init g) w -> world_ok false w.
Proof. intros Hg. apply star_invariant; [|by apply world_init_ok]. intros w1 w2. by apply app_step_ok. Qed.

(** ** The claims *)

(** In every world the threads can reach, whatever runs next and whatever
    the protocol engine answers, the step is defined: no NULL or closed
    connection is used, no string is read or printed past its end. The one
    exception is the number of a packet: str2int reads past a payload without
    a terminator, and overflows. *)
Theorem threads_defined m g w a :
  globals_ok g -> star (app_step m) (world_init g) w -> action_ok a ->
  (exists w', do_action m a w = Ok w') \/
  (exists i, a = A_server i) /\ v_pc (w_server w) = V_parse /\
  exists f r, v_buf (w_server w) = f :: r /\ forall n, str2int (fr_data f ++ fr_after f) <> Ok n.
Proof.
  intros Hg Hr Ha. destruct (do_action_ok false m a w (reachable_ok m g w Hg Hr) Ha) as [(w' & E & _)|H]; [done|left; eauto|by right].
Qed.

(** C4: tcpecho_thread echoes. In every world the threads can reach, while the
    connection the server handles has not failed, what it has written to it
    is the beginning of what it has received on it, and when it waits for
    the next packet, all of it; so for every split into packets and pbufs and
    every size of the send buffer. *)
Theorem tcpecho_echoes m g w c :
  globals_ok g -> star (app_step m) (world_init g) w ->
  v_conn (w_server w) = Some c -> nc_broken c = false ->
  nc_taken c `prefix_of` v_in (w_server w) /\ (v_pc (w_server w) = V_recv -> nc_taken c = v_in (w_server w)).
Proof.
  intros Hg Hr Hc Hb. pose proof (wo_server _ _ (reachable_ok m g w Hg Hr)) as [_ _ Hcn]. rewrite Hc in Hcn.
  destruct Hcn as (_ & base & Hph & Hin). set (v := w_server w) in *. destruct Hph as [_ Hph]. split.
  - rewrite Hin. destruct (server_phase v) as [| |data|] eqn:E; cbn [phase_end] in *.
    + destruct Hph as (_ & _ & Ht). rewrite (Ht Hb). by apply prefix_app_r.
    + destruct Hph as [_ Ht]. rewrite (Ht Hb). by apply prefix_app_r.
    + destruct Hph as [(old & [_ _ _ _ _ _ Htk] & Hold)|[(old & [_ _ _ _ _ [Hbr _]])|[_ Ht]]]; [|congruence|rewrite (Ht Hb); by apply prefix_app_r].
      rewrite Htk, (Hold Hb), <- app_assoc. apply prefix_app. apply prefix_app_r. apply prefix_take.
    + destruct Hph as [_ Ht]. rewrite (Ht Hb). by apply prefix_app_r.
  - intros Hpc. unfold server_phase, to_write in *. rewrite Hpc in *. cbn [phase_end] in Hin. destruct Hph as (_ & _ & Ht).
    by rewrite (Ht Hb), Hin, app_nil_r.
Qed.

(** A step after which no two threads are between the first byte they write
    to post_packet and the end of their netconn_write. *)
Definition lone_step (m : Z) (w w' : world) : Prop := app_step m w w' /\ exclusive w'.

Lemma exclusive_init g : exclusive (world_init g).
Proof. intros [|j] [|k] t u Ht Hu; [done|by destruct k|by destruct j|by destruct j]. Qed.

Lemma reachable_lone m g w : globals_ok g -> star (lone_step m) (world_init g) w -> world_ok true w.
Proof.
  intros Hg Hr. enough (H : world_ok true w /\ exclusive w) by apply H.
  refine (star_invariant (lone_step m) (fun w => world_ok true w /\ exclusive w) _ _ _ _ Hr).
  - intros w1 w2 [H1 H2] [Hs He]. split; [|done]. by apply (app_step_ok true m w1).
  - split; [by apply world_init_ok|apply exclusive_init].
Qed.

(** C3: what tcp_sendData_thread sends, as long as no two of these threads use
    post_packet at once. In every world the threads can reach without two of
    them being between the first byte that json_Packet_Gen writes to
    post_packet and the return of netconn_write: every packet a thread has
    passed to its connection is for a number the server has read before and
    for values in their ranges; and while the connection has not failed, what
    is written on it is the beginning of these packets, whole and one after
    the other, and all of them when the thread waits for the next request.
    Nothing in the code ensures the proviso, and without it the claim fails:
    [senders_race]. *)
Theorem senders_report m g w k t c :
  globals_ok g -> star (lone_step m) (world_init g) w ->
  w_senders w !! k = Some t -> sendConn t = Some c ->
  Forall (fun g => recv_serial g ∈ serials (w_sh w) /\ globals_ok g) (s_reports t) /\
  (nc_broken c = false ->
     nc_taken c `prefix_of` concat (map (fun g => render (packet_tree g) ++ [69; 79; 70; 13; 10]) (s_reports t)) /\
     (s_pc t = S_wait -> nc_taken c = concat (map (fun g => render (packet_tree g) ++ [69; 79; 70; 13; 10]) (s_reports t)))).
Proof.
  intros Hg Hr Hk Hc. pose proof (Forall_lookup_1 _ _ _ _ (wo_senders _ _ (reachable_lone m g w Hg Hr)) Hk) as [Hrep _ Hcn].
  rewrite Hc in Hcn. destruct Hcn as (_ & Hcn). split; [revert Hrep; apply Forall_impl; intros g' [? ?]; by split|].
  intros Hb. change (concat _) with (reports (s_reports t)). unfold conn_ok in Hcn.
  destruct (s_pc t) eqn:Epc; cbn [sender_phase] in Hcn;
    try (destruct Hcn as (base & (_ & _ & _ & Ht) & Hx); rewrite (Ht Hb), (Hx eq_refl); by split);
    try (destruct Hcn as (base & (_ & _ & Ht) & Hx); rewrite (Ht Hb), (Hx eq_refl); by split).
  split; [|done]. destruct Hcn as (base & data & [_ Hph] & _ & Hx). destruct (Hx eq_refl) as [_ ->].
  destruct Hph as [(old & [_ _ _ _ _ _ Htk] & Hold)|[(old & [_ _ _ _ _ [Hbr _]])|[_ Ht]]]; [|congruence|by rewrite (Ht Hb)].
  rewrite Htk, (Hold Hb). apply prefix_app, prefix_take.
Qed.

(** *** A sender without a pcb *)

Lemma dead_repoint mem bs c : dead bs c -> dead bs (repoint mem c).
Proof. intros [? ?]. unfold repoint. by destruct (write_msg c). Qed.

Lemma dead_step i sh t sh' t' bs c :
  sender_step i sh t = Ok (sh', t') -> has_conn (s_pc t) -> sendConn t = Some c -> dead bs c ->
  exists c', sendConn t' = Some c' /\ dead bs c'.
Proof.
  intros E Hh Hc Hd.
  assert (Hsame : forall u, sendConn u = sendConn t -> exists c', sendConn u = Some c' /\ dead bs c') by (intros u ->; by exists c).
  assert (Hwait : forall k, (forall u e, sendConn (k u e) = sendConn u) -> (let! t := conn_wait t k in Ok (sh, t)) = Ok (sh', t') ->
    exists c', sendConn t' = Some c' /\ dead bs c').
  { intros k Hk Ek. unfold conn_wait in Ek. rewrite Hc in Ek. destruct (op_completed c =? 0); injection Ek as <- <-; [by apply Hsame|].
    rewrite Hk. eexists. split; [done|]. apply (dead_calls bs c (io_env i) [] 0 (EvErr 0) Hd). }
  assert (Hcall : forall u pc f, sendConn u = sendConn t -> (forall c', f c = Ok c' -> dead bs c') ->
    (let! t := conn_call u pc f in Ok (sh, t)) = Ok (sh', t') -> exists c', sendConn t' = Some c' /\ dead bs c').
  { intros u pc f Hu Hf Ek. unfold conn_call in Ek. rewrite Hu, Hc in Ek. apply obind_ok in Ek as (v & Ev & [= <- <-]).
    apply obind_ok in Ev as (c' & Ec & [= <-]). exists c'. split; [done|]. by apply Hf. }
  destruct (dead_calls bs c (io_env i) [] 0 (EvErr 0) Hd) as (H1 & H2 & _).
  unfold sender_step in E. destruct (s_pc t); try done;
    try (injection E as <- <-; by apply Hsame); try (apply obind_ok in E as (? & _ & [= <- <-]); by apply Hsame).
  - revert E. apply Hcall; [done|]. by intros c' [= <-].
  - revert E. apply Hwait. intros u e. by destruct (e =? ERR_OK).
  - destruct (n <? 8)%nat; [injection E as <- <-|apply obind_ok in E as (? & _ & [= <- <-])]; by apply Hsame.
  - destruct (text !! n); [apply obind_ok in E as (? & _ & [= <- <-])|injection E as <- <-]; by apply Hsame.
  - revert E. apply Hcall; [done|]. intros c'. apply (dead_calls bs c (io_env i) _ 0 (EvErr 0) Hd).
  - revert E. by apply Hwait.
  - revert E. apply Hcall; [done|]. by intros c' [= <-].
  - revert E. by apply Hwait.
  - revert E. apply Hcall; [done|]. by intros c' [= <-].
  - revert E. by apply Hwait.
Qed.

(** The [k]-th sender has a connection without a pcb, with [bs] sent. *)
Definition dead_at (k : nat) (bs : list Z) (w : world) : Prop :=
  exists t c, w_senders w !! k = Some t /\ sendConn t = Some c /\ dead bs c.

Lemma dead_action m a w w' k bs : world_ok false w -> do_action m a w = Ok w' -> dead_at k bs w -> dead_at k bs w'.
Proof.
  intros Hw E (t & c & Hk & Hc & Hd). destruct a as [i|j i|ev|j ev|g]; cbn [do_action] in E.
  - destruct (lwip_waits w && _); [by injection E as <-; exists t, c|].
    apply obind_ok in E as ([p b] & _ & [= <-]). exists t, c. split; [|done]. cbn [w_senders].
    destruct (b && io_ok i); [|done]. by apply lookup_app_l_Some.
  - destruct (w_senders w !! j) as [tj|] eqn:Ej; [|injection E as <-; by exists t, c].
    destruct (lwip_waits w && _); [by injection E as <-; exists t, c|].
    apply obind_ok in E as ([sh' t'] & Es & [= <-]). destruct (decide (j = k)) as [->|Hne].
    + replace tj with t in Es by congruence. pose proof (Forall_lookup_1 _ _ _ _ (wo_senders _ w Hw) Hk) as [_ _ Hcn]. rewrite Hc in Hcn.
      destruct (dead_step i _ t sh' t' bs c Es) as (c' & ? & ?); [by destruct Hcn|done|done|]. exists t', c'. split; [|done].
      cbn [w_senders]. by rewrite list_lookup_insert_eq by (by eapply lookup_lt_Some).
    + exists t, c. split; [|done]. cbn [w_senders]. by rewrite list_lookup_insert_ne.
  - destruct (v_conn (w_server w)); [|injection E as <-; by exists t, c].
    destruct (lwip_waits w && _); [by injection E as <-; exists t, c|]. apply obind_ok in E as (c' & _ & [= <-]). by exists t, c.
  - destruct (w_senders w !! j) as [tj|] eqn:Ej; [|injection E as <-; by exists t, c].
    destruct (sendConn tj) as [cj|] eqn:Ecj; [|injection E as <-; by exists t, c].
    destruct (lwip_waits w && _); [by injection E as <-; exists t, c|]. apply obind_ok in E as (c' & Ec & [= <-]).
    destruct (decide (j = k)) as [->|Hne]; [|exists t, c; split; [|done]; cbn [w_senders]; by rewrite list_lookup_insert_ne].
    exists (with_conn tj (s_pc tj) c'), c'. cbn [w_senders]. rewrite list_lookup_insert_eq by (by eapply lookup_lt_Some).
    split; [done|]. split; [done|]. replace cj with c in Ec by congruence.
    apply (dead_repoint (post_packet (glob (w_sh w)))) in Hd.
    destruct (dead_calls bs _ (TcpEnv 0 0 0 0 0) [] m ev Hd) as (_ & _ & _ & H & _). by apply H.
  - injection E as <-. by exists t, c.
Qed.

(** C5: a thread that has lost its connection never sends again. Once the pcb
    of its connection is gone, because the other side reset it, because it
    was refused, or because the thread closed it, the thread never gets a
    new one (it has no netconn_delete, and netconn_new only for NULL): no
    later run makes it write a byte. *)
Theorem sender_never_recovers m g w w' k t c :
  globals_ok g -> star (app_step m) (world_init g) w -> star (app_step m) w w' ->
  w_senders w !! k = Some t -> sendConn t = Some c -> nc_pcb c = false ->
  exists t' c', w_senders w' !! k = Some t' /\ sendConn t' = Some c' /\ nc_pcb c' = false /\ nc_taken c' = nc_taken c.
Proof.
  intros Hg Hr Hrun Hk Hc Hpcb.
  assert (H : world_ok false w' /\ dead_at k (nc_taken c) w').
  { apply (star_invariant (app_step m) (fun x => world_ok false x /\ dead_at k (nc_taken c) x) w); [| |done].
    - intros w1 w2 [H1 H2] Hs. split; [by apply (app_step_ok false m w1)|]. destruct Hs as (a & _ & E). by eapply dead_action.
    - split; [by apply (reachable_ok m g)|]. by exists t, c. }
  destruct H as [_ (t' & c' & ? & ? & [? ?])]. by exists t', c'.
Qed.

(** *** Runs *)

Fixpoint run (m : Z) (l : list action) (w : world) : outcome world :=
  match l with
  | [] => Ok w
  | a :: l => let! w := do_action m a w in run m l w
  end.

Lemma run_star m l w w' : Forall action_ok l -> run m l w = Ok w' -> star (app_step m) w w'.
Proof.
  intros Hl. revert w. induction Hl as [|a l Ha Hl IH]; intros w E; cbn in E; [injection E as ->; apply star_refl|].
  apply obind_ok in E as (w1 & E1 & E). eapply star_step; [|by apply IH]. by exists a.
Qed.

Definition fine_env : tcp_env := TcpEnv 1000 ERR_OK ERR_OK ERR_OK ERR_OK.
Definition fine_io : io := Io true ERR_OK fine_env sample_frame.

(** The values of json.c, before the first request. *)
Definition start_globals : globals :=
  Globals 0 (Fin false 11639194 (-20)) (Fin false 12687770 (-20)) 2017 7 10 10 15 7 (replicate 450 0).

Lemma start_ok : globals_ok start_globals.
Proof. split; cbn; try lia; try done; (split; [lia|by vm_compute]). Qed.

Definition servers (n : nat) : list action := replicate n (A_server fine_io).
Definition senders (k n : nat) : list action := replicate n (A_sender k fine_io).
(** The send buffer has room for 50 bytes. *)
Definition slow_io : io := Io true ERR_OK (TcpEnv 50 ERR_OK ERR_OK ERR_OK ERR_OK) sample_frame.
Definition slow_senders (k n : nat) : list action := replicate n (A_sender k slow_io).

(** The server takes a connection, and a number up to flag_Client = 1. *)
Definition accepts : list action := servers 2.
Definition number (text : list Z) : list action := A_tcp_server (EvRecv (Some [Frag text [0]])) :: servers 6.

Lemma fine_io_ok : io_fine fine_io.
Proof. split; [by vm_compute|by repeat split]. Qed.

Lemma slow_io_ok : io_fine slow_io.
Proof. split; [by vm_compute|by repeat split]. Qed.

Lemma servers_ok n : Forall action_ok (servers n).
Proof. apply Forall_replicate, fine_io_ok. Qed.
Lemma senders_ok k n : Forall action_ok (senders k n).
Proof. apply Forall_replicate. exact fine_io_ok. Qed.
Lemma slow_senders_ok k n : Forall action_ok (slow_senders k n).
Proof. apply Forall_replicate. exact slow_io_ok. Qed.
Lemma number_ok text : Forall action_ok (number text).
Proof. constructor; [done|apply servers_ok]. Qed.

Ltac run_ok :=
  repeat first [apply servers_ok | apply senders_ok | apply slow_senders_ok | apply number_ok | apply Forall_app_2 | constructor];
  solve [by vm_compute | done].

(** What a run leads to. *)
Definition sent_serials (w : world) : list (list Z) := map (fun t => map recv_serial (s_reports t)) (w_senders w).

(** The thread that is started for a request takes the request away: it
    begins with flag_Client = 0. *)
Definition lost_run : list action := senders 0 4 ++ accepts ++ number (codes "7") ++ servers 2 ++ senders 1 1.

(** A report is sent within 900 steps of its thread. *)
Definition one_report : list action :=
  senders 0 4 ++ accepts ++ number (codes "7") ++ senders 0 3 ++ A_tcp_sender 0 (EvConnected ERR_OK) :: servers 2 ++ senders 1 4 ++
  senders 0 900.

(** Two threads for the second request, one after the other. *)
Definition twice_run : list action :=
  one_report ++ number (codes "8") ++ senders 1 3 ++ A_tcp_sender 1 (EvConnected ERR_OK) :: senders 1 2 ++ senders 0 900 ++ senders 1 900.

(** Two threads for the second request; the first waits in netconn_write
    when the second, with a third number, prints its packet. *)
Definition race_run : list action :=
  one_report ++ number (codes "8") ++ senders 1 3 ++ A_tcp_sender 1 (EvConnected ERR_OK) :: senders 1 2 ++ slow_senders 0 900 ++
  servers 2 ++ number (codes "1234567") ++ senders 1 900 ++ A_tcp_sender 0 (EvSent fine_env) :: senders 0 3.

(** No sender has seen a request, nor will see one before the server's next. *)
Definition unaware (t : sender) : Prop :=
  s_reports t = [] /\ match s_pc t with S_flag | S_new | S_loop | S_renew | S_test => True | _ => False end.
Definition all_unaware (w : world) : Prop := flag_Client (w_sh w) = 0 /\ Forall unaware (w_senders w).

Lemma unaware_step i sh t sh' t' :
  flag_Client sh = 0 -> unaware t -> sender_step i sh t = Ok (sh', t') -> flag_Client sh' = 0 /\ unaware t'.
Proof.
  intros Hf [Hr Hpc] E. unfold sender_step in E. destruct (s_pc t) eqn:Ep; try done; injection E as <- <-; (split; [done|]).
  - by split.
  - by split.
  - by destruct (sendConn t).
  - destruct (netconn_new (io_ok i)); [done|]. split; [done|]. by rewrite Ep.
  - by rewrite Hf.
Qed.

Definition from_server (a : action) : bool := match a with A_server _ => true | _ => false end.

Lemma unaware_action m a w w' : from_server a = false -> do_action m a w = Ok w' -> all_unaware w -> all_unaware w'.
Proof.
  intros Ha E [Hf Hu]. destruct a as [i|j i|ev|j ev|g]; try done; cbn [do_action] in E.
  - destruct (w_senders w !! j) as [t|] eqn:Ej; [|by injection E as <-].
    destruct (lwip_waits w && _); [by injection E as <-|]. apply obind_ok in E as ([sh' t'] & Es & [= <-]).
    destruct (unaware_step i _ t sh' t' Hf (Forall_lookup_1 _ _ _ _ Hu Ej) Es) as [? ?]. split; [done|]. by apply Forall_insert.
  - destruct (v_conn (w_server w)); [|by injection E as <-]. destruct (lwip_waits w && _); [by injection E as <-|]. by apply obind_ok in E as (c' & _ & [= <-]).
  - destruct (w_senders w !! j) as [t|] eqn:Ej; [|by injection E as <-]. destruct (sendConn t); [|by injection E as <-].
    destruct (lwip_waits w && _); [by injection E as <-|]. apply obind_ok in E as (c' & _ & [= <-]). split; [done|]. apply Forall_insert; [done|]. apply (Forall_lookup_1 _ _ _ _ Hu Ej).
  - by injection E as <-.
Qed.

Lemma unaware_run m l w w' : forallb (fun a => negb (from_server a)) l = true -> run m l w = Ok w' -> all_unaware w -> all_unaware w'.
Proof.
  revert w. induction l as [|a l IH]; intros w Hl E Hu; cbn in E; [by injection E as <-|].
  cbn in Hl. apply andb_true_iff in Hl as [Ha%negb_true_iff Hl]. apply obind_ok in E as (w1 & E1 & E).
  apply (IH w1); try done. by eapply unaware_action.
Qed.

(** *** Runs in which one thread at a time uses post_packet *)

Fixpoint lone (l : list sender) : bool :=
  match l with
  | [] => true
  | t :: r => if in_report (s_pc t) then forallb (fun u => negb (in_report (s_pc u))) r else lone r
  end.

Lemma forallb_lookup {A} (f : A -> bool) (l : list A) k u : forallb f l = true -> l !! k = Some u -> f u = true.
Proof. intros Hf Hk. rewrite forallb_forall in Hf. apply Hf. apply list_elem_of_In. by eapply list_elem_of_lookup_2. Qed.

Lemma lone_exclusive w : lone (w_senders w) = true -> exclusive w.
Proof.
  unfold exclusive. generalize (w_senders w) as l. induction l as [|t0 l IH]; intros Hl j k t u Hj Hk Ht Hu; [done|]. cbn in Hl.
  destruct (in_report (s_pc t0)) eqn:E0; destruct j as [|j], k as [|k]; cbn in Hj, Hk; try done.
  - pose proof (forallb_lookup _ _ _ _ Hl Hk) as H. cbn in H. by rewrite Hu in H.
  - pose proof (forallb_lookup _ _ _ _ Hl Hj) as H. cbn in H. by rewrite Ht in H.
  - pose proof (forallb_lookup _ _ _ _ Hl Hj) as H. cbn in H. by rewrite Ht in H.
  - congruence.
  - congruence.
  - f_equal. by apply (IH Hl j k t u).
Qed.

Fixpoint run_lone (m : Z) (l : list action) (w : world) : bool :=
  match l with
  | [] => true
  | a :: l => match do_action m a w with Ok w => lone (w_senders w) && run_lone m l w | _ => false end
  end.

Lemma run_lone_star m l w w' : Forall action_ok l -> run_lone m l w = true -> run m l w = Ok w' -> star (lone_step m) w w'.
Proof.
  intros Hl. revert w. induction Hl as [|a l Ha Hl IH]; intros w Hx E; cbn in Hx, E; [injection E as ->; apply star_refl|].
  apply obind_ok in E as (w1 & E1 & E). rewrite E1 in Hx. apply andb_true_iff in Hx as [Hx1 Hx]. eapply star_step; [|by apply (IH w1)].
  split; [by exists a|by apply lone_exclusive].
Qed.

Lemma lost_run_ok : Forall action_ok lost_run.
Proof. unfold lost_run, accepts. run_ok. Qed.

Lemma twice_run_ok : Forall action_ok twice_run.
Proof. unfold twice_run, one_report, accepts. run_ok. Qed.

Lemma race_run_ok : Forall action_ok race_run.
Proof. unfold race_run, one_report, accepts. run_ok. Qed.

(** [run m l w] leads to a world of which [f] holds. *)
Definition leads_to (l : list action) (f : world -> bool) : bool :=
  match run 6 l (world_init start_globals) with Ok w => f w | _ => false end.

Lemma leads_to_ok l f :
  Forall action_ok l -> leads_to l f = true ->
  exists w, run 6 l (world_init start_globals) = Ok w /\ star (app_step 6) (world_init start_globals) w /\ f w = true.
Proof.
  intros Hl H. unfold leads_to in H. destruct (run 6 l (world_init start_globals)) as [w| |] eqn:E; [|done..].
  exists w. split; [done|]. split; [by eapply run_star|done].
Qed.

(** The [k]-th sender and its connection. *)
Definition sender_is (k : nat) (f : sender -> netconn -> bool) (w : world) : bool :=
  match w_senders w !! k with Some t => match sendConn t with Some c => f t c | None => false end | None => false end.

Lemma sender_is_ok k f w : sender_is k f w = true -> exists t c, w_senders w !! k = Some t /\ sendConn t = Some c /\ f t c = true.
Proof. unfold sender_is. destruct (w_senders w !! k) as [t|]; [|done]. destruct (sendConn t) as [c|] eqn:E; [|done]. intros H. by exists t, c. Qed.

(** Requests and reports do not correspond. There is a run in which the
    server reads one number and the thread it starts for it takes the request
    away from the one that waits, so that no thread sends a report before
    the server's next step, whatever they do; and a run with two numbers in
    which the second is reported by two threads. *)
Theorem requests_lost_and_doubled :
  (exists w, star (app_step 6) (world_init start_globals) w /\ serials (w_sh w) = [7] /\ v_pc (w_server w) = V_recv /\
    forall l w', forallb (fun a => negb (from_server a)) l = true -> run 6 l w = Ok w' -> Forall (fun t => s_reports t = []) (w_senders w')) /\
  (exists w, star (app_step 6) (world_init start_globals) w /\ serials (w_sh w) = [7; 8] /\ sent_serials w = [[7; 8]; [8]]).
Proof.
  split.
  - destruct (run 6 lost_run (world_init start_globals)) as [w| |] eqn:E; [|exfalso; revert E; vm_compute; discriminate..]. exists w.
    split; [exact (run_star 6 lost_run _ _ lost_run_ok E)|].
    assert (H : serials (w_sh w) = [7] /\ v_pc (w_server w) = V_recv /\ all_unaware w).
    { vm_compute in E. injection E as <-. split; [done|]. split; [done|]. split; [done|]. repeat constructor. }
    destruct H as (? & ? & Hu). split; [done|]. split; [done|]. intros l w' Hl Hr.
    destruct (unaware_run 6 l w w' Hl Hr Hu) as [_ H']. revert H'. apply Forall_impl. by intros t [? _].
  - destruct (leads_to_ok twice_run (fun w => bool_decide (serials (w_sh w) = [7; 8]) && bool_decide (sent_serials w = [[7; 8]; [8]])))
      as (w & _ & Hw & H); [exact twice_run_ok|vm_compute; reflexivity|].
    apply andb_true_iff in H as [H1%bool_decide_eq_true H2%bool_decide_eq_true]. by exists w.
Qed.

(** Two threads that use post_packet at once send what is no report. There is
    a run after which a thread whose connection is in order has been told
    that all was written, and what it has sent is not the packets for any
    values one after the other. *)
Theorem senders_race :
  exists w t c, star (app_step 6) (world_init start_globals) w /\ w_senders w !! 0%nat = Some t /\ sendConn t = Some c /\
    nc_broken c = false /\ s_pc t = S_wait /\ errWrite t = ERR_OK /\
    forall l, nc_taken c <> concat (map (fun g => render (packet_tree g) ++ [69; 79; 70; 13; 10]) l).
Proof.
  set (f := fun t c => negb (nc_broken c) && (match s_pc t with S_wait => true | _ => false end) && (errWrite t =? ERR_OK) &&
    match list.last (nc_taken c) with Some b => negb (b =? 10) | None => false end).
  destruct (leads_to_ok race_run (sender_is 0 f)) as (w & _ & Hw & H); [exact race_run_ok|vm_compute; reflexivity|].
  apply sender_is_ok in H as (t & c & Ht & Hc & H). exists w, t, c. unfold f in H.
  apply andb_true_iff in H as [H Hlast]. apply andb_true_iff in H as [H Herr%Z.eqb_eq]. apply andb_true_iff in H as [Hb%negb_true_iff Hpc].
  split_and!; try done; [by destruct (s_pc t)|]. intros l El. change (concat _) with (reports l) in El.
  destruct l as [|g l _] using rev_ind; [by rewrite El in Hlast|].
  rewrite reports_app in El. unfold report in El. rewrite app_assoc in El. rewrite El, last_app in Hlast. done.
Qed.

(** *** The claims at these runs *)

Lemma threads_defined_witness :
  exists w w', run 6 lost_run (world_init start_globals) = Ok w /\ do_action 6 (A_server fine_io) w = Ok w'.
Proof.
  destruct (leads_to_ok lost_run (fun w => match v_pc (w_server w) with V_recv => true | _ => false end)) as (w & E & Hw & H);
    [exact lost_run_ok|vm_compute; reflexivity|]. exists w.
  destruct (threads_defined 6 start_globals w (A_server fine_io) start_ok Hw fine_io_ok) as [[w' H']|(_ & Hpc & _)];
    [exists w'; split; [exact E|exact H']|]. rewrite Hpc in H. discriminate H.
Defined.

Lemma tcpecho_echoes_witness :
  exists w c, star (app_step 6) (world_init start_globals) w /\ v_conn (w_server w) = Some c /\ nc_taken c = codes "7".
Proof.
  destruct (leads_to_ok lost_run (fun w => match v_conn (w_server w), v_pc (w_server w) with
    | Some c, V_recv => negb (nc_broken c) && bool_decide (v_in (w_server w) = codes "7") | _, _ => false end)) as (w & E & Hw & H);
    [exact lost_run_ok|vm_compute; reflexivity|].
  destruct (v_conn (w_server w)) as [c|] eqn:Ec; [|discriminate H]. destruct (v_pc (w_server w)) eqn:Epc; try discriminate H.
  apply andb_true_iff in H as [Hb%negb_true_iff Hin%bool_decide_eq_true]. exists w, c. split; [exact Hw|]. split; [exact Ec|].
  destruct (tcpecho_echoes 6 start_globals w c start_ok Hw Ec Hb) as [_ Ht]. rewrite (Ht Epc). exact Hin.
Defined.

(** The first sender after two requests. *)
Lemma senders_report_witness :
  exists w t c, star (lone_step 6) (world_init start_globals) w /\ w_senders w !! 0%nat = Some t /\ sendConn t = Some c /\
    map recv_serial (s_reports t) = [7; 8] /\ nc_taken c = reports (s_reports t).
Proof.
  destruct (leads_to_ok twice_run (sender_is 0 (fun t c => negb (nc_broken c) && (match s_pc t with S_wait => true | _ => false end) &&
    bool_decide (map recv_serial (s_reports t) = [7; 8])))) as (w & E & _ & H); [exact twice_run_ok|vm_compute; reflexivity|].
  assert (Hw : star (lone_step 6) (world_init start_globals) w).
  { apply (run_lone_star 6 twice_run); [exact twice_run_ok|vm_compute; reflexivity|exact E]. }
  apply sender_is_ok in H as (t & c & Et & Ec & H). apply andb_true_iff in H as [H Hs%bool_decide_eq_true].
  apply andb_true_iff in H as [Hb%negb_true_iff Hpc]. exists w, t, c. split; [exact Hw|]. split; [exact Et|]. split; [exact Ec|]. split; [exact Hs|].
  destruct (senders_report 6 start_globals w 0 t c start_ok Hw Et Ec) as [_ Ht]. apply (proj2 (Ht Hb)). by destruct (s_pc t).
Defined.

(** The connection is refused; then another number arrives. *)
Definition refused_run : list action :=
  senders 0 4 ++ accepts ++ number (codes "7") ++ senders 0 3 ++ [A_tcp_sender 0 (EvErr (-6))].

Lemma refused_run_ok : Forall action_ok refused_run.
Proof. unfold refused_run, accepts. run_ok. Qed.

Definition after_run : list action := servers 2 ++ number (codes "8") ++ senders 0 50.

Lemma after_run_ok : Forall action_ok after_run.
Proof. unfold after_run. run_ok. Qed.

Lemma sender_never_recovers_witness :
  exists w w' t' c', star (app_step 6) (world_init start_globals) w /\ run 6 after_run w = Ok w' /\
    w_senders w' !! 0%nat = Some t' /\ sendConn t' = Some c' /\ nc_taken c' = [].
Proof.
  destruct (leads_to_ok refused_run (fun w => sender_is 0 (fun t c => negb (nc_pcb c) && bool_decide (nc_taken c = [])) w &&
    match run 6 after_run w with Ok _ => true | _ => false end)) as (w & E & Hw & H); [exact refused_run_ok|vm_compute; reflexivity|].
  apply andb_true_iff in H as [H Hrun]. apply sender_is_ok in H as (t & c & Et & Ec & H).
  apply andb_true_iff in H as [Hb%negb_true_iff Htk%bool_decide_eq_true].
  destruct (run 6 after_run w) as [w'| |] eqn:E'; [|discriminate Hrun..]. exists w, w'.
  pose proof (run_star 6 after_run w w' after_run_ok E') as Hafter.
  destruct (sender_never_recovers 6 start_globals w w' 0 t c start_ok Hw Hafter Et Ec Hb) as (t' & c' & H1 & H2 & _ & H4).
  exists t', c'. split; [exact Hw|]. split; [exact E'|]. split; [exact H1|]. split; [exact H2|]. rewrite H4. exact Htk.
Defined.
