(* ===== verification/TcpConn.v ===== *)
(** * Connections as the applications see them: lwip_v1.3.2/src/core/tcp.c

    The applications of Project/Standalone run in the callbacks of lwIP. A
    connection is the part of its control block they set (argument and
    callbacks), the TCP engine below it, the memory they share with it
    (heap, pools and pbufs of [Pbuf]), and the structures the callbacks
    allocate for themselves. The engine (tcp_in.c, tcp_out.c) is an
    interface, [TcpStack]: what it accepts is a stream of bytes, and what it
    does to the memory leaves the packets of others alone. *)

From S2P Require Import Prelude Mem Memp Pbuf.
From stdpp Require Import gmap.
#[local] Open Scope Z_scope.

Abbreviation olist := option_list.

(** ** The fields of struct tcp_pcb the applications set

    An application installs only its own callbacks: [true] is its function,
    [false] is NULL. *)

Record tcp_pcb : Type := Pcb {
  callback_arg : option Z;
  recv : bool;
  sent : bool;
  errf : bool;
  poll : bool;
  pollinterval : Z;
  prio : Z;
}.

Definition tcp_setprio (pcb : tcp_pcb) (n : Z) : tcp_pcb :=
  Pcb (callback_arg pcb) (recv pcb) (sent pcb) (errf pcb) (poll pcb) (pollinterval pcb) n.
Definition tcp_arg (pcb : tcp_pcb) (a : option Z) : tcp_pcb :=
  Pcb a (recv pcb) (sent pcb) (errf pcb) (poll pcb) (pollinterval pcb) (prio pcb).
Definition tcp_recv (pcb : tcp_pcb) (f : bool) : tcp_pcb :=
  Pcb (callback_arg pcb) f (sent pcb) (errf pcb) (poll pcb) (pollinterval pcb) (prio pcb).
Definition tcp_sent (pcb : tcp_pcb) (f : bool) : tcp_pcb :=
  Pcb (callback_arg pcb) (recv pcb) f (errf pcb) (poll pcb) (pollinterval pcb) (prio pcb).
Definition tcp_err (pcb : tcp_pcb) (f : bool) : tcp_pcb :=
  Pcb (callback_arg pcb) (recv pcb) (sent pcb) f (poll pcb) (pollinterval pcb) (prio pcb).
Definition tcp_poll (pcb : tcp_pcb) (f : bool) (n : Z) : tcp_pcb :=
  Pcb (callback_arg pcb) (recv pcb) (sent pcb) (errf pcb) f n (prio pcb).

Definition TCP_PRIO_MIN : Z := 1.
Definition ERR_ABRT : Z := -10.

(** ** Memory with a frame

    The structures of the applications lie in the same heap as the pbufs:
    the invariant of [Pbuf] over [framed fr] says that besides the pbufs the
    regions [fr] are in use. *)

Section Framed.
Context {H : Type} `{!RamHeap H}.

Definition framed_used (fr : list region) (h : H) (us : list region) : Prop :=
  exists us0, Permutation us0 (us ++ fr) /\ ram_used h us0.

Definition framed (fr : list region) : RamHeap H.
Proof.
  refine {| ram_malloc := ram_malloc; ram_free := ram_free; ram_trim := ram_trim; ram_used := framed_used fr |}.
  - intros h us w (us0 & Hp & Hu) Hw. eapply wp_mono; [by apply (ram_malloc_ok h us0)|].
    intros [[p|] h'] Hr; cbn in *; [|by exists us0]. destruct Hr as (n & Hn & Hu'). exists n. split; [done|].
    exists ((p, n) :: us0). split; [|done]. cbn. by apply perm_skip.
  - intros h us us' p n (us0 & Hp & Hu) Hp'. eapply wp_mono; [apply (ram_free_ok h us0 (us' ++ fr) p n Hu); by rewrite Hp, Hp'|].
    intros h' Hu'. by exists (us' ++ fr).
  - intros h us us' p n w (us0 & Hp & Hu) Hp' Hw.
    eapply wp_mono; [apply (ram_trim_ok h us0 (us' ++ fr) p n w Hu); [by rewrite Hp, Hp'|done]|].
    intros [r h'] (E & n' & Hn & Hu'). split; [done|]. exists n'. split; [done|]. by exists ((p, n') :: us' ++ fr).
  - intros h us (us0 & Hp & Hu). apply ram_used_nodup in Hu. rewrite Hp, fmap_app in Hu. by apply NoDup_app in Hu as [? _].
Defined.

Context (memp_num : list Z) (MEMP_PBUF MEMP_PBUF_POOL : Z).

(** The memory is in order: [roots] are the references to pbufs, [fr] the
    regions of the heap in use for other things. *)
Definition minv (fr : list region) (s : pstate) (roots : list pptr) : Prop := @pinv H (framed fr) memp_num s roots.

(** The packets of [roots] are as they were. *)
Definition same_chains (roots : list pptr) (s s' : pstate (H := H)) : Prop :=
  forall p l, p ∈ roots -> chain (store s) (Some p) l None -> chain (store s') (Some p) l None.

(** From a memory in which the engine holds the references [r] to one in
    which it holds [r']: every invariant others rely on is kept, and their
    packets are left alone. *)
Definition quiet (r r' : list pptr) (s s' : pstate (H := H)) : Prop :=
  forall fr roots, minv fr s (r ++ roots) -> minv fr s' (r' ++ roots) /\ same_chains roots s s'.

(** mem_malloc and mem_free for the structures of the applications. *)
Definition mem_malloc_es (s : pstate (H := H)) (n : Z) : outcome (option Z * pstate) :=
  let! (a, h) := ram_malloc (heap s) n in Ok (a, set_heap s h).
Definition mem_free_es (s : pstate (H := H)) (a : Z) : outcome pstate :=
  let! h := ram_free (heap s) (Some a) in Ok (set_heap s h).

Lemma mem_malloc_es_ok fr s roots n :
  minv fr s roots -> 0 < n <= 65532 ->
  exists a s', mem_malloc_es s n = Ok (a, s') /\ store s' = store s /\
    match a with
    | Some a => exists k, minv ((a, k) :: fr) s' roots
    | None => minv fr s' roots
    end.
Proof.
  intros [Hr (us & free & (us0 & Hp & Hu) & Hf & Hk & Hst)] Hn. unfold mem_malloc_es.
  pose proof (ram_malloc_ok _ _ n Hu Hn) as ([a h] & -> & Hres)%wp_ok. cbn [obind fst snd] in *.
  exists a. destruct a as [a|]; eexists; (split; [done|]); (split; [done|]).
  - destruct Hres as (k & _ & Hu'). exists k. split; [done|]. exists us, free. split_and!; try done.
    exists ((a, k) :: us0). split; [|done]. by rewrite Hp, Permutation_middle.
  - split; [done|]. exists us, free. split_and!; try done. by exists us0.
Qed.

Lemma mem_free_es_ok fr s roots a k :
  minv ((a, k) :: fr) s roots -> exists s', mem_free_es s a = Ok s' /\ store s' = store s /\ minv fr s' roots.
Proof.
  intros [Hr (us & free & (us0 & Hp & Hu) & Hf & Hk & Hst)]. unfold mem_free_es.
  assert (Hp' : Permutation us0 ((a, k) :: us ++ fr)) by (by rewrite Hp, Permutation_middle).
  pose proof (ram_free_ok _ _ _ a k Hu Hp') as (h & -> & Hu')%wp_ok. cbn [obind]. eexists. split; [done|]. split; [done|].
  split; [done|]. exists us, free. split_and!; try done. by exists (us ++ fr).
Qed.

Lemma minv_perm fr s roots roots' : Permutation roots roots' -> minv fr s roots -> minv fr s roots'.
Proof. intros Hp. apply pinv_roots. intros q. by apply occ_perm. Qed.
End Framed.

(** ** The engine

    [tcp_write] copies the bytes (the flag TCP_WRITE_FLAG_COPY is set in
    every call); [stream] is what it has accepted so far, [window] what the
    application has said it processed, [refs] the pbufs it holds. *)

Class TcpStack (H : Type) `{!RamHeap H} (memp_num : list Z) (T : Type) : Type := {
  tcp_sndbuf : T -> Z;
  tcp_write : T -> pstate (H := H) -> list mbyte -> Z * T * pstate (H := H);
  tcp_recved : T -> pstate (H := H) -> Z -> T * pstate (H := H);
  tcp_close : T -> pstate (H := H) -> Z * T * pstate (H := H);
  tcp_abort : T -> pstate (H := H) -> T * pstate (H := H);
  refs : T -> list pptr;
  stream : T -> list mbyte;
  window : T -> Z;
  tcp_write_ok t s bs e t' s' : tcp_write t s bs = (e, t', s') ->
    quiet memp_num (refs t) (refs t') s s' /\ window t' = window t /\
    stream t' = if e =? ERR_OK then stream t ++ bs else stream t;
  tcp_recved_ok t s n t' s' : tcp_recved t s n = (t', s') ->
    quiet memp_num (refs t) (refs t') s s' /\ window t' = window t + n /\ stream t' = stream t;
  tcp_close_ok t s e t' s' : tcp_close t s = (e, t', s') ->
    quiet memp_num (refs t) (refs t') s s' /\ stream t' = stream t;
  tcp_abort_ok t s t' s' : tcp_abort t s = (t', s') ->
    quiet memp_num (refs t) (refs t') s s' /\ stream t' = stream t;
}.

(** ** A connection *)

Inductive echo_state : Type := ES_NONE | ES_ACCEPTED | ES_CONNECTED | ES_RECEIVED | ES_CLOSING.

#[export] Instance echo_state_eq_dec : EqDecision echo_state.
Proof. solve_decision. Defined.

(** The structure of the callbacks: struct tcp_echoserver_struct, struct
    tcp_server_struct, struct echoclient. Its field pcb is the connection;
    [es_p] is p (the client: p_tx), the pbufs still to be sent. *)
Record es_struct : Type := Es {
  es_state : echo_state;
  es_p : option pptr;
}.

Section Conn.
Context {H : Type} `{!RamHeap H} {memp_num : list Z} {T : Type} `{!TcpStack H memp_num T}.
Context (MEMP_PBUF MEMP_PBUF_POOL : Z).

(** [tab] has the structures that are allocated, by address; [closed] tells
    whether the application has called tcp_close or tcp_abort. *)
Record conn : Type := Conn {
  pm : pstate (H := H);
  stk : T;
  tab : gmap Z es_struct;
  pcb : tcp_pcb;
  closed : bool;
}.

Definition set_pm (w : conn) (m : pstate (H := H)) : conn := Conn m (stk w) (tab w) (pcb w) (closed w).
Definition set_stk (w : conn) (t : T) (m : pstate (H := H)) : conn := Conn m t (tab w) (pcb w) (closed w).
Definition set_tab (w : conn) (m : gmap Z es_struct) : conn := Conn (pm w) (stk w) m (pcb w) (closed w).
Definition set_pcb (w : conn) (p : tcp_pcb) : conn := Conn (pm w) (stk w) (tab w) p (closed w).
Definition set_closed (w : conn) : conn := Conn (pm w) (stk w) (tab w) (pcb w) true.

(** Access through the pointer es. *)
Definition es_get (w : conn) (a : Z) : outcome es_struct :=
  match tab w !! a with Some es => Ok es | None => UB end.
Definition es_put (w : conn) (a : Z) (es : es_struct) : conn := set_tab w (<[a := es]> (tab w)).
Definition es_deref (w : conn) (arg : option Z) : outcome (Z * es_struct) :=
  match arg with Some a => let! es := es_get w a in Ok (a, es) | None => UB end.

Definition conn_recved (w : conn) (n : Z) : conn :=
  let '(t, m) := tcp_recved (stk w) (pm w) n in set_stk w t m.
Definition conn_close (w : conn) : conn :=
  let '(_, t, m) := tcp_close (stk w) (pm w) in set_closed (set_stk w t m).
Definition conn_abort (w : conn) : conn :=
  let '(t, m) := tcp_abort (stk w) (pm w) in set_closed (set_stk w t m).

(** ** The send loop

    tcp_echoserver_send, tcp_server_send and tcp_echoclient_send have the
    same body, but the client does not call tcp_recved ([ack]). The pbuf at
    the head is written; then es->p moves to the next one, which gets a
    reference, and the head is freed. *)

Definition ref_opt (w : conn) (p : option pptr) : outcome conn :=
  match p with
  | Some q => let! m := pbuf_ref (pm w) (Some q) in Ok (set_pm w m)
  | None => Ok w
  end.

Fixpoint send_loop (ack : bool) (fuel : nat) (w : conn) (a : Z) : outcome conn :=
  match fuel with
  | O => NoFuel
  | S fuel =>
      let! es := es_get w a in
      match es_p es with
      | None => Ok w
      | Some ptr =>
          let! b := get (pm w) ptr in
          if len b <=? tcp_sndbuf (stk w) then
            let! data := read_payload (pm w) b 0 (len b) in
            let '(wr_err, t, m) := tcp_write (stk w) (pm w) data in
            let w := set_stk w t m in
            if wr_err =? ERR_OK then
              let! b := get (pm w) ptr in
              let plen := len b in
              let w := es_put w a (Es (es_state es) (next b)) in
              let! w := ref_opt w (next b) in
              let! (_, m) := pbuf_free MEMP_PBUF MEMP_PBUF_POOL (pm w) (Some ptr) in
              let w := set_pm w m in
              let w := if ack then conn_recved w plen else w in
              send_loop ack fuel w a
            else if wr_err =? ERR_MEM then Ok (es_put w a (Es (es_state es) (Some ptr)))
            else Ok w
          else Ok w
      end
  end.

Definition send (ack : bool) (w : conn) (a : Z) : outcome conn :=
  send_loop ack (S (chain_fuel (pm w))) w a.

(** ** Packets that differ in their counts only *)

Definition same_but_refs (l l' : list (pptr * pbuf)) : Prop :=
  Forall2 (fun x y => fst x = fst y /\ snd y = set_ref (snd x) (ref (snd y))) l l'.

Lemma same_but_refs_refl l : same_but_refs l l.
Proof. induction l as [|[q []] l IH]; constructor; [|exact IH]. done. Qed.

Lemma same_but_refs_contents l l' : same_but_refs l l' -> contents l' = contents l /\ lens l' = lens l.
Proof.
  induction 1 as [|[q b] [q' b'] l l' [_ E] _ [IH1 IH2]]; [done|]. cbn in *. rewrite E, IH1, IH2. by destruct b.
Qed.

(** What the callbacks may do to the pending data: every pbuf owns its
    payload, and no count is about to overflow. *)
Definition pending (s : pstate (H := H)) (p : option pptr) (l : list (pptr * pbuf)) : Prop :=
  chain (store s) p l None /\ Forall (fun x => own (snd x)) l /\ Forall (fun x => ref (snd x) < 65535) (tail l).

Context (Hpool_lt : 0 <= MEMP_PBUF_POOL < zlen memp_num) (Hpbuf_lt : 0 <= MEMP_PBUF < zlen memp_num).

(** The lemmas of [Pbuf] over the heap with its frame. *)
Lemma minv_free fr s p roots :
  minv memp_num fr s (p :: roots) ->
  exists n s', pbuf_free MEMP_PBUF MEMP_PBUF_POOL s (Some p) = Ok (n, s') /\ minv memp_num fr s' roots /\ released s s'.
Proof. exact (@pbuf_free_ok H (framed fr) memp_num MEMP_PBUF MEMP_PBUF_POOL Hpool_lt Hpbuf_lt s p roots). Qed.

Lemma minv_ref fr s p b roots :
  minv memp_num fr s roots -> store s !! p = Some b -> ref b < 65535 ->
  exists s', pbuf_ref s (Some p) = Ok s' /\ minv memp_num fr s' (p :: roots).
Proof. exact (@pbuf_ref_ok H (framed fr) memp_num s p b roots). Qed.

#[local] Opaque pool_fuel.
Lemma pbuf_alloc_framed fr s layer n t :
  @pbuf_alloc H (framed fr) memp_num MEMP_PBUF MEMP_PBUF_POOL s layer n t = pbuf_alloc memp_num MEMP_PBUF MEMP_PBUF_POOL s layer n t.
Proof. reflexivity. Qed.
#[local] Transparent pool_fuel.

Lemma minv_lookup fr s p roots b : minv memp_num fr s roots -> store s !! p = Some b -> 1 <= ref b <= 65535.
Proof. intros [Hr _] Hp. specialize (Hr p). rewrite Hp in Hr. tauto. Qed.

Lemma pchain_delete m p l e q : chain m p l e -> q ∉ (fst <$> l) -> chain (delete q m) p l e.
Proof.
  revert p. induction l as [|[r b] l IH]; intros p; cbn; [done|].
  intros (-> & Hr & Hc) [Hne Hq]%not_elem_of_cons. rewrite lookup_delete_ne by done. auto.
Qed.

Lemma dealloc_store s p b s' : dealloc MEMP_PBUF MEMP_PBUF_POOL s p b = Ok s' -> store s' = delete p (store s).
Proof.
  unfold dealloc. intros E. destruct (negb _); [by injection E as <-|].
  destruct (type b), p; try done; cbn in E; obinv E; by injection E as <-.
Qed.

(** From the pbuf at the head to the next: reference the next, free the
    head. Only the count of the new head may change. *)
Lemma advance_ok fr s p b l roots :
  minv memp_num fr s (p :: roots) -> chain (store s) (Some p) ((p, b) :: l) None -> Forall (fun x => ref (snd x) < 65535) l ->
  exists s1 n s2 l', (match next b with Some q => pbuf_ref s (Some q) | None => Ok s end) = Ok s1 /\
    pbuf_free MEMP_PBUF MEMP_PBUF_POOL s1 (Some p) = Ok (n, s2) /\
    minv memp_num fr s2 (olist (next b) ++ roots) /\ chain (store s2) (next b) l' None /\ same_but_refs l l' /\ tail l' = tail l.
Proof.
  intros Hi Hc Hl. pose proof (chain_nodup _ _ _ Hc) as Hnd. cbn in Hnd. apply NoDup_cons in Hnd as [Hpl Hnd].
  destruct Hc as (_ & Hp & Hc). destruct (next b) as [q|] eqn:Hn.
  2:{ destruct l as [|[]]; [|by destruct Hc]. destruct (minv_free fr s p roots Hi) as (n & s2 & E & Hi2 & _).
      exists s, n, s2, []. split_and!; try done. constructor. }
  destruct l as [|[q0 bq] l]; [done|]. cbn in Hpl, Hnd. apply not_elem_of_cons in Hpl as [Hpq Hpl].
  apply NoDup_cons in Hnd as [Hql _]. destruct Hc as ([= <-] & Hq & Hc). apply Forall_cons_1 in Hl as [Hrq _]. cbn in Hrq.
  destruct (minv_ref fr s q bq (p :: roots) Hi Hq Hrq) as (s1 & E1 & Hi1).
  destruct (minv_free fr s1 p (q :: roots)) as (n & s2 & E2 & Hi2 & _); [by eapply minv_perm; [apply perm_swap|]|].
  pose proof (minv_lookup fr s q _ bq Hi Hq) as Hbq. pose proof (minv_lookup fr s p _ b Hi Hp) as Hb.
  assert (Es1 : s1 = put s q (set_ref bq (ref bq + 1))).
  { unfold pbuf_ref, get in E1. rewrite Hq in E1. cbn [obind] in E1. injection E1 as <-. by rewrite u16_small by lia. }
  pose proof E2 as E2'. rewrite Es1 in E2'. cbn [pbuf_free free_loop] in E2'. unfold get at 1 in E2'. cbn [put set_store store] in E2'.
  rewrite lookup_insert_ne in E2' by done. rewrite Hp in E2'. cbn [obind] in E2'. rewrite (u16_small (ref b - 1)) in E2' by lia.
  assert (exists bq', store s2 = <[q := bq']> (store s2) /\ store s2 !! q = Some bq' /\ bq' = set_ref bq (ref bq') /\
    chain (store s2) (next bq) l None) as (bq' & _ & Hq2 & Ebq & Hc2).
  { destruct (Z.eqb_spec (ref b - 1) 0) as [Eb|Eb].
    - obinv E2'. apply dealloc_store in E as Es3. cbn [put set_store store] in Es3. unfold chain_fuel in E2'. cbn [free_loop] in E2'.
      rewrite Hn in E2'. unfold get in E2'. rewrite Es3, delete_insert_eq, lookup_delete_ne, lookup_insert_eq in E2' by done. cbn [obind] in E2'.
      cbn [ref set_ref] in E2'. rewrite u16_small in E2' by lia. destruct (Z.eqb_spec (ref bq + 1 - 1) 0); [lia|].
      injection E2' as _ <-. eexists. cbn [put set_store store]. rewrite insert_insert_eq, lookup_insert_eq.
      split_and!; [done|done|done|]. apply pchain_insert; [|done]. rewrite Es3, delete_insert_eq.
      apply pchain_delete; [|done]. by apply pchain_insert.
    - injection E2' as _ <-. eexists. cbn [put set_store store]. rewrite lookup_insert_ne, lookup_insert_eq by done.
      split_and!; [|done|done|].
      + symmetry. apply insert_id. by rewrite lookup_insert_ne, lookup_insert_eq.
      + apply pchain_insert; [|done]. by apply pchain_insert. }
  exists s1, n, s2, ((q, bq') :: l). split_and!; try done.
  - cbn. split_and!; try done. rewrite Ebq. done.
  - constructor; [done|]. apply same_but_refs_refl.
Qed.

Lemma same_but_refs_trans l1 l2 l3 : same_but_refs l1 l2 -> same_but_refs l2 l3 -> same_but_refs l1 l3.
Proof.
  intros H12. revert l3. induction H12 as [|[q b] [q' b'] l l' [E1 E2] _ IH]; intros l3 H23; inversion H23 as [|? [q3 b3] ? ? [E3 E4]];
    subst; constructor; [|by apply IH]. cbn in *. subst. split; [done|]. rewrite E4 at 1. by rewrite E2.
Qed.

Lemma same_but_refs_own l l' : same_but_refs l l' -> Forall (fun x => own (snd x)) l -> Forall (fun x => own (snd x)) l'.
Proof.
  induction 1 as [|[q b] [q' b'] l l' [_ E] _ IH]; intros Ho; [done|]. apply Forall_cons_1 in Ho as [Hb Ho].
  constructor; [|by apply IH]. cbn in *. rewrite E. by destruct b.
Qed.

(** Why the loop stops with data left: the buffer is too small for the next
    pbuf, or the last tcp_write failed. *)
Definition blocked (w : conn) (l : list (pptr * pbuf)) : Prop :=
  match l with
  | [] => True
  | (_, b) :: _ => tcp_sndbuf (stk w) < len b \/
      exists t s bs e, tcp_write t s bs = (e, stk w, pm w) /\ e <> ERR_OK
  end.

(** The state of a connection whose structure is at [a]: [p] is still to be
    sent, and consists of [l]; [roots] are the references of the others. *)
Definition conn_ok (fr : list region) (roots : list pptr) (w : conn) (a : Z) (st : echo_state) (p : option pptr)
    (l : list (pptr * pbuf)) : Prop :=
  tab w !! a = Some (Es st p) /\ minv memp_num fr (pm w) (refs (stk w) ++ olist p ++ roots) /\ pending (pm w) p l.

Lemma conn_ok_tab fr roots w a st st' p p' l :
  minv memp_num fr (pm w) (refs (stk w) ++ olist p' ++ roots) -> pending (pm w) p' l -> tab w !! a = Some (Es st p) ->
  conn_ok fr roots (es_put w a (Es st' p')) a st' p' l.
Proof. intros Hi Hp Ht. split; [apply lookup_insert_eq|]. by split. Qed.

(** What a call of the engine does to a connection. *)
Lemma conn_ok_quiet fr roots w a st p l t m :
  conn_ok fr roots w a st p l -> quiet memp_num (refs (stk w)) (refs t) (pm w) m -> conn_ok fr roots (set_stk w t m) a st p l.
Proof.
  intros (Ht & Hi & Hc & Ho & Hr) Hq. destruct (Hq fr (olist p ++ roots) Hi) as [Hi' Hs]. split; [done|]. split; [done|].
  split; [|done]. destruct p as [p|]; [|by destruct l as [|[]]; [|destruct Hc]]. apply Hs; [|done]. by left.
Qed.

(** One round of the loop that is not the last. *)
Lemma send_round fr roots w a st ptr b l :
  conn_ok fr roots w a st (Some ptr) ((ptr, b) :: l) ->
  exists w1 n m l', ref_opt (es_put w a (Es st (next b))) (next b) = Ok w1 /\
    pbuf_free MEMP_PBUF MEMP_PBUF_POOL (pm w1) (Some ptr) = Ok (n, m) /\ stk w1 = stk w /\ pcb w1 = pcb w /\ closed w1 = closed w /\
    tab w1 = <[a := Es st (next b)]> (tab w) /\ conn_ok fr roots (set_pm w1 m) a st (next b) l' /\ same_but_refs l l'.
Proof.
  intros (Ht & Hi & Hc & Ho & Hr). cbn [tail] in Hr.
  assert (Hi0 : minv memp_num fr (pm w) (ptr :: refs (stk w) ++ roots)) by (eapply minv_perm; [|exact Hi]; symmetry; apply Permutation_middle).
  destruct (advance_ok fr (pm w) ptr b l _ Hi0 Hc Hr) as (s1 & n & s2 & l' & E1 & E2 & Hi2 & Hc2 & Hs & Htl).
  apply Forall_cons_1 in Ho as [_ Ho].
  exists (Conn s1 (stk w) (<[a := Es st (next b)]> (tab w)) (pcb w) (closed w)), n, s2, l'. split_and!; try done.
  - unfold ref_opt. destruct (next b); [cbn [es_put set_tab pm]; rewrite E1; done|by injection E1 as <-].
  - split; [apply lookup_insert_eq|]. split.
    + eapply minv_perm; [|exact Hi2]. cbn [stk]. rewrite !app_assoc. by rewrite (Permutation_app_comm (olist (next b))).
    + split; [done|]. split; [by eapply same_but_refs_own|]. rewrite Htl. destruct l; [done|]. by apply Forall_cons_1 in Hr as [_ ?].
Qed.

(** What a send achieves: the pbufs [l1] are written and released, the rest
    is kept, unchanged; nothing else of the connection changes. *)
Definition sent_ok (ack : bool) (fr : list region) (roots : list pptr) (w : conn) (a : Z) (st : echo_state)
    (l : list (pptr * pbuf)) (w' : conn) : Prop :=
  exists p' l1 l2 l2', l = l1 ++ l2 /\ same_but_refs l2 l2' /\
    conn_ok fr roots w' a st p' l2' /\ blocked w' l2' /\
    stream (stk w') = stream (stk w) ++ contents l1 /\ window (stk w') = window (stk w) + (if ack then lens l1 else 0) /\
    pcb w' = pcb w /\ closed w' = closed w /\ tab w' = <[a := Es st p']> (tab w).

Lemma sent_stop ack fr roots w a st p l w' :
  conn_ok fr roots w' a st p l -> blocked w' l -> tab w !! a = Some (Es st p) ->
  stream (stk w') = stream (stk w) -> window (stk w') = window (stk w) ->
  pcb w' = pcb w -> closed w' = closed w -> tab w' = tab w -> sent_ok ack fr roots w a st l w'.
Proof.
  intros Hw Hb Ht Es Ew Ep Ec Et. exists p, [], l, l. cbn. rewrite app_nil_r, Et. split_and!; try done.
  - apply same_but_refs_refl.
  - destruct ack; lia.
  - symmetry. by apply insert_id.
Qed.

Lemma sent_more ack fr roots w a st q b l l' w1 w' :
  sent_ok ack fr roots w1 a st l' w' -> same_but_refs l l' ->
  stream (stk w1) = stream (stk w) ++ bytes_of b -> window (stk w1) = window (stk w) + (if ack then len b else 0) ->
  pcb w1 = pcb w -> closed w1 = closed w -> (exists es, tab w1 = <[a := es]> (tab w)) ->
  sent_ok ack fr roots w a st ((q, b) :: l) w'.
Proof.
  intros (p' & l1 & l2 & l2' & -> & H2 & Hw & Hb & Es & Ew & Ep & Ec & Et) Hl E1 E2 E3 E4 [es E5].
  apply Forall2_app_inv_r in Hl as (k1 & k2 & H3 & H4 & ->).
  exists p', ((q, b) :: k1), k2, l2'. destruct (same_but_refs_contents _ _ H3) as [Hcon Hlen].
  split_and!; try done; try congruence.
  - by eapply same_but_refs_trans.
  - rewrite Es, E1, Hcon, <- app_assoc. done.
  - rewrite Ew, E2, Hlen. cbn [lens]. destruct ack; lia.
  - rewrite Et, E5. apply insert_insert_eq.
Qed.

Lemma conn_ok_recved fr roots w a st p l n :
  conn_ok fr roots w a st p l ->
  let w' := conn_recved w n in conn_ok fr roots w' a st p l /\ stream (stk w') = stream (stk w) /\
    window (stk w') = window (stk w) + n /\ pcb w' = pcb w /\ closed w' = closed w /\ tab w' = tab w.
Proof.
  intros Hw. unfold conn_recved. destruct (tcp_recved (stk w) (pm w) n) as [t m] eqn:E.
  destruct (tcp_recved_ok _ _ _ _ _ E) as (Hq & Ew & Es). split; [by apply conn_ok_quiet|]. done.
Qed.

Lemma send_loop_ok ack fuel fr roots w a st p l :
  conn_ok fr roots w a st p l -> (length l < fuel)%nat ->
  wp (send_loop ack fuel w a) (sent_ok ack fr roots w a st l).
Proof.
  revert w p l. induction fuel as [|fuel IH]; intros w p l Hw Hf; [lia|].
  pose proof Hw as (Ht & Hi & Hc & Ho & Hr). cbn [send_loop]. unfold es_get. rewrite Ht. cbn [obind es_p es_state].
  destruct l as [|[ptr b] l]; [cbn in Hc; subst p; by eapply sent_stop|].
  destruct Hc as (-> & Hp & Hc). unfold get at 1. rewrite Hp. cbn [obind].
  destruct (Z.leb_spec (len b) (tcp_sndbuf (stk w))) as [Hlen|Hlen]; [|eapply sent_stop; [done|by left|done..]].
  apply Forall_cons_1 in Ho as [Hob Ho']. cbn [snd] in Hob. pose proof (bytes_of_len b Hob) as Hbl. pose proof (zlen_nonneg (bytes_of b)).
  rewrite read_own by (done || lia). cbn [obind]. change (Z.to_nat 0) with 0%nat.
  rewrite drop_0, take_ge by (unfold zlen in Hbl; lia).
  destruct (tcp_write (stk w) (pm w) (bytes_of b)) as [[e t] m] eqn:E.
  destruct (tcp_write_ok _ _ _ _ _ _ E) as (Hq & Ew & Es). pose proof (conn_ok_quiet _ _ _ _ _ _ _ _ _ Hw Hq) as Hw1.
  destruct (Z.eqb_spec e ERR_OK) as [->|Hne].
  - pose proof Hw1 as (_ & _ & Hc1 & _). destruct Hc1 as (_ & Hp1 & _). unfold get. rewrite Hp1. cbn [obind].
    destruct (send_round _ _ _ _ _ _ _ _ Hw1) as (w1 & n & m1 & l' & -> & E2 & Ek & Epc & Ecl & Etb & Hw2 & Hsl). cbn [obind].
    rewrite E2. cbn [obind]. set (w2 := set_pm w1 m1) in *.
    assert (Hlen' : (length l' < fuel)%nat) by (pose proof (Forall2_length _ _ _ Hsl); cbn in Hf; lia).
    assert (Hfin : forall w3, conn_ok fr roots w3 a st (next b) l' -> stream (stk w3) = stream (stk w2) ->
      window (stk w3) = window (stk w2) + (if ack then len b else 0) -> pcb w3 = pcb w2 -> closed w3 = closed w2 -> tab w3 = tab w2 ->
      wp (send_loop ack fuel w3 a) (sent_ok ack fr roots w a st ((ptr, b) :: l))).
    { intros w3 Hw3 F1 F2 F3 F4 F5. eapply wp_mono; [by eapply IH|]. intros w' Hs. unfold w2 in *. cbn in *.
      eapply sent_more; [exact Hs|done|..]; rewrite ?F1, ?F2, ?F3, ?F4, ?F5, ?Ek, ?Epc, ?Ecl, ?Etb; cbn; rewrite ?Es, ?Ew; try done. by eexists. }
    destruct ack; [|apply Hfin; done || lia].
    destruct (conn_ok_recved _ _ _ _ _ _ _ (len b) Hw2) as (? & ? & ? & ? & ? & ?). by apply Hfin.
  - destruct (Z.eqb_spec e ERR_MEM); (eapply sent_stop; [| |done|cbn; try done..]).
    + unfold es_put. cbn. rewrite insert_id by done. destruct w. exact Hw1.
    + right. cbn. by eexists _, _, _, e.
    + by apply insert_id.
    + exact Hw1.
    + right. cbn. by eexists _, _, _, e.
Qed.

Lemma send_ok ack fr roots w a st p l :
  conn_ok fr roots w a st p l -> wp (send ack w a) (sent_ok ack fr roots w a st l).
Proof.
  intros Hw. eapply send_loop_ok; [done|]. destruct Hw as (_ & _ & Hc & _). pose proof (chain_length _ _ _ Hc) as Hl.
  destruct p; [|by destruct l as [|[]]; [cbn; lia|destruct Hc]]. unfold chain_fuel. lia.
Qed.

(** ** Freeing the packet of another *)

(** A release changes counts only, and does not raise them. *)
Definition fewer_refs (l l' : list (pptr * pbuf)) : Prop := Forall2 (fun x y => ref (snd y) <= ref (snd x)) l l'.

Lemma released_chain fr (s s' : pstate (H := H)) p l roots :
  minv memp_num fr s' roots -> is_Some (store s' !! p) -> released s s' -> chain (store s) (Some p) l None ->
  exists l', chain (store s') (Some p) l' None /\ same_but_refs l l' /\ fewer_refs l l'.
Proof.
  intros Hi Hp' [_ Hrel]. revert p Hp'. induction l as [|[p0 b] l IH]; [done|]. intros p [b' Hp'] ([= <-] & Hp & Hc).
  destruct (Hrel p b' Hp') as (b0 & Hb0 & Eb & Hle). rewrite Hp in Hb0. injection Hb0 as <-.
  assert (Hn : next b' = next b) by (by rewrite Eb). destruct (next b) as [q|] eqn:En.
  - destruct (@pinv_next H (framed fr) memp_num s' p b' q _ Hi Hp' Hn) as [bq Hq].
    destruct (IH q) as (l' & Hc' & Hs & Hf); [by exists bq|done|].
    exists ((p, b') :: l'). cbn. rewrite Hn. split_and!; try done; by constructor.
  - destruct l as [|[]]; [|by destruct Hc]. exists [(p, b')]. cbn. rewrite Hn. split_and!; try done; by repeat constructor.
Qed.

(** The pending data survives the release of another packet. *)
Lemma pending_released fr (s s' : pstate (H := H)) p l roots :
  minv memp_num fr s' (olist p ++ roots) -> released s s' -> pending s p l ->
  exists l', pending s' p l' /\ contents l' = contents l.
Proof.
  intros Hi Hrel (Hc & Ho & Hr). destruct p as [p|].
  2:{ exists l. destruct l as [|[]]; [|by destruct Hc]. by split; [split|]. }
  destruct (@pinv_root H (framed fr) memp_num s' p _ Hi) as [b Hp]; [by left|].
  destruct (released_chain fr s s' p l _ Hi (ex_intro _ b Hp) Hrel Hc) as (l' & Hc' & Hs & Hf). exists l'.
  destruct (same_but_refs_contents _ _ Hs) as [Hcon _]. split; [|done]. split; [done|]. split; [by eapply same_but_refs_own|].
  destruct Hf as [|x y l l' _ Hf]; [done|]. cbn [tail] in *. clear -Hf Hr. induction Hf as [|x y l l' Hxy _ IH]; [done|].
  apply Forall_cons_1 in Hr as [Hx Hr]. constructor; [lia|auto].
Qed.

(** ** Appending a packet *)

Definition same_data (l l' : list (pptr * pbuf)) : Prop :=
  Forall2 (fun x y => fst x = fst y /\ bytes_of (snd y) = bytes_of (snd x) /\ (own (snd x) -> own (snd y)) /\
    ref (snd y) = ref (snd x)) l l'.

Lemma same_data_contents l l' : same_data l l' -> contents l' = contents l /\ (fst <$> l') = (fst <$> l).
Proof.
  induction 1 as [|[q b] [q' b'] l l' (E1 & E2 & _) _ [IH1 IH2]]; [done|]. cbn in *. by rewrite E1, E2, IH1, IH2.
Qed.

Lemma same_data_own l l' : same_data l l' -> Forall (fun x => own (snd x)) l -> Forall (fun x => own (snd x)) l'.
Proof.
  induction 1 as [|x y l l' (_ & _ & Ho & _) _ IH]; intros Hl; [done|]. apply Forall_cons_1 in Hl as [Hx Hl]. constructor; auto.
Qed.

Lemma same_data_refs l l' : same_data l l' -> Forall (fun x => ref (snd x) < 65535) l -> Forall (fun x => ref (snd x) < 65535) l'.
Proof.
  induction 1 as [|x y l l' (_ & _ & _ & Er) _ IH]; intros Hl; [done|]. apply Forall_cons_1 in Hl as [Hx Hl].
  constructor; [by rewrite Er|auto].
Qed.

Lemma cat_loop_chain fuel (s : pstate (H := H)) p t tb l :
  chain (store s) (Some p) l None -> t ∉ (fst <$> l) -> store s !! t = Some tb -> (length l <= fuel)%nat ->
  exists e s' l0 be, cat_loop fuel s p t = Ok (e, s') /\ chain (store s') (Some p) (l0 ++ [(e, be)]) None /\
    same_data l (l0 ++ [(e, be)]) /\ forall q, q ∉ (fst <$> l) -> store s' !! q = store s !! q.
Proof.
  revert s p l. induction fuel as [|fuel IH]; intros s p l Hc Ht Htb Hl; (destruct l as [|[p0 b] l]; [done|]); cbn [length] in Hl; [lia|].
  pose proof (chain_nodup _ _ _ Hc) as Hnd. cbn in Hnd. apply NoDup_cons in Hnd as [Hpl _].
  destruct Hc as ([= <-] & Hp & Hc). cbn in Ht. apply not_elem_of_cons in Ht as [Htp Htl].
  cbn [cat_loop]. unfold get. rewrite Hp. cbn [obind]. destruct (next b) as [q|] eqn:Hn.
  - rewrite Htb. cbn [obind]. set (b' := set_tot_len b _). set (s1 := put s p b').
    destruct (IH s1 q l) as (e & s' & l0 & be & E & Hc' & Hs & Hst); [by apply pchain_insert|done| |lia|].
    { cbn. by rewrite lookup_insert_ne. }
    exists e, s', ((p, b') :: l0), be. split; [exact E|]. split; [|split].
    + cbn. split; [done|]. split; [rewrite (Hst p Hpl); cbn; by rewrite lookup_insert_eq|]. by rewrite Hn.
    + constructor; [done|exact Hs].
    + intros r. cbn. intros [Hr1 Hr2]%not_elem_of_cons. rewrite (Hst r Hr2). cbn. by rewrite lookup_insert_ne.
  - exists p, s, [], b. destruct l as [|[]]; [|by destruct Hc]. split_and!; try done. constructor; [done|constructor].
Qed.

(** pbuf_chain: the packet at [t] is appended to the packet at [h]. *)
Lemma pbuf_chain_chain fr (s : pstate (H := H)) h t tb l lt roots :
  minv memp_num fr s (t :: roots) -> chain (store s) (Some h) l None -> chain (store s) (Some t) ((t, tb) :: lt) None ->
  (forall q, q ∈ (fst <$> l) -> q ∉ (t :: (fst <$> lt))) -> ref tb < 65535 ->
  exists s' l', pbuf_chain s (Some h) (Some t) = Ok s' /\ minv memp_num fr s' (t :: roots) /\ same_data l l' /\
    chain (store s') (Some h) (l' ++ (t, set_ref tb (ref tb + 1)) :: lt) None.
Proof.
  intros Hi Hc Hct Hdis Href. pose proof (chain_nodup _ _ _ Hct) as Hnd. cbn in Hnd. apply NoDup_cons in Hnd as [Htlt _].
  pose proof Hct as (_ & Htb & Hlt).
  destruct (@pbuf_chain_ok H (framed fr) memp_num s h t tb l roots Hi Hc Htb Href) as (s' & E & Hi'). exists s'.
  assert (Ht : t ∉ (fst <$> l)) by (intros Hin; apply (Hdis t Hin); by left).
  destruct (cat_loop_chain (chain_fuel s) s h t tb l Hc Ht Htb) as (e & s1 & l0 & be & E1 & Hc1 & Hs & Hst);
    [pose proof (chain_length _ _ _ Hc); unfold chain_fuel; lia|].
  assert (Hkeys : (fst <$> l0 ++ [(e, be)]) = (fst <$> l)) by (by destruct (same_data_contents _ _ Hs)).
  assert (Htb1 : store s1 !! t = Some tb) by (by rewrite Hst).
  apply pchain_app in Hc1 as (q & Hc0 & (-> & He & Hne)).
  pose proof E as E'. unfold pbuf_chain in E'. cbn [pbuf_cat] in E'. rewrite E1 in E'. cbn [obind] in E'.
  unfold get in E'. rewrite He, Htb1 in E'. cbn [obind] in E'. set (be' := set_next _ _) in E'.
  assert (Hek : e ∈ (fst <$> l)) by (rewrite <- Hkeys, fmap_app; apply elem_of_app; right; by left).
  assert (Het : e <> t) by (intros ->; done).
  unfold pbuf_ref, get in E'. cbn [put set_store store] in E'. rewrite lookup_insert_ne, Htb1 in E' by done. cbn [obind] in E'.
  assert (Hnd1 : NoDup (fst <$> l)) by by eapply chain_nodup. rewrite <- Hkeys, fmap_app in Hnd1.
  apply NoDup_app in Hnd1 as (_ & Hnd1 & _).
  pose proof (minv_lookup fr s t _ tb Hi Htb) as Hbt.
  exists (l0 ++ [(e, be')]). split; [done|]. split; [done|]. split.
  - apply Forall2_app_inv_r in Hs as (k1 & k2 & S1 & S2 & ->). apply Forall2_app; [done|].
    inversion S2 as [|? ? ? ? S3 S4]; subst. constructor; [exact S3|done].
  - injection E' as <-. rewrite (u16_small (ref tb + 1)) by lia. cbn [put set_store store]. rewrite <- app_assoc. apply pchain_app. exists (Some e). split.
    + apply pchain_insert; [apply pchain_insert; [done|]|].
      * intros Hin. apply (Hnd1 e Hin). by left.
      * intros Hin. apply Ht. rewrite <- Hkeys, fmap_app. apply elem_of_app. by left.
    + cbn. rewrite lookup_insert_ne, lookup_insert_eq by done. split; [done|]. split; [done|].
      rewrite lookup_insert_eq. split; [done|]. split; [done|]. apply pchain_insert; [|done].
      apply pchain_insert; [|intros Hin; apply (Hdis e Hek); by right].
      assert (Hsame : forall q, q ∈ (fst <$> lt) -> store s1 !! q = store s !! q).
      { intros q Hq. apply Hst. intros Hin. apply (Hdis q Hin). by right. }
      clear -Hlt Hsame. revert Hlt. generalize (next tb). induction lt as [|[q b] lt IH]; intros p; cbn; [done|].
      intros (-> & Hq & Hc). split; [done|]. split; [rewrite Hsame; [done|by left]|]. apply IH; [|done].
      intros r Hr. apply Hsame. by right.
Qed.
End Conn.

(** ** A concrete engine: a send buffer of [room] bytes *)

Section Demo.
Context {H : Type} `{!RamHeap H} (memp_num : list Z).

Record demo_tcp : Type := Demo {
  room : Z;
  out : list mbyte;
  processed : Z;
}.

Lemma quiet_refl r (s : pstate (H := H)) : quiet memp_num r r s s.
Proof. intros fr roots Hi. split; [done|]. by intros p l _ Hc. Qed.

#[export] Instance demo_stack : TcpStack H memp_num demo_tcp.
Proof.
  refine {|
    tcp_sndbuf := room;
    tcp_write := fun t s bs =>
      if zlen bs <=? room t then (ERR_OK, Demo (room t - zlen bs) (out t ++ bs) (processed t), s) else (ERR_MEM, t, s);
    tcp_recved := fun t s n => (Demo (room t) (out t) (processed t + n), s);
    tcp_close := fun t s => (ERR_OK, t, s);
    tcp_abort := fun t s => (t, s);
    refs := fun _ => [];
    stream := out;
    window := processed |}.
  - intros t s bs e t' s'. destruct (_ <=? _); intros [= <- <- <-]; split; try done; apply quiet_refl.
  - intros t s n t' s' [= <- <-]. split; [apply quiet_refl|done].
  - intros t s e t' s' [= <- <- <-]. split; [apply quiet_refl|done].
  - intros t s t' s' [= <- <-]. split; [apply quiet_refl|done].
Defined.
End Demo.
