(* ===== verification/TcpEcho.v ===== *)
(** * The echo server: Project/Standalone/tcp_echo_server/src/tcp_echoserver.c

    The callbacks of the server that sends back what it receives, and of the
    serial-number server of tcp_echo_client/src/tcp_server.c, which is the
    same code but for its receive callback ([TcpServer]). The engine calls
    them in any order, as long as they are installed. *)

From S2P Require Import Prelude Mem Memp Pbuf TcpConn.
From stdpp Require Import gmap.
#[local] Open Scope Z_scope.

Section Server.
Context {H : Type} `{!RamHeap H} {memp_num : list Z} {T : Type} `{!TcpStack H memp_num T}.
Context (MEMP_PBUF MEMP_PBUF_POOL : Z).
Implicit Types (w : conn (H := H) (T := T)).

(** ** The callbacks both servers have in common *)

(** tcp_echoserver_accept, with the size of the structure. *)
Definition server_accept (size : Z) w : outcome (Z * conn) :=
  let w := set_pcb w (tcp_setprio (pcb w) TCP_PRIO_MIN) in
  let! (es, m) := mem_malloc_es (pm w) size in
  let w := set_pm w m in
  match es with
  | Some a =>
      let w := es_put w a (Es ES_ACCEPTED None) in
      let w := set_pcb w (tcp_arg (pcb w) (Some a)) in
      let w := set_pcb w (tcp_recv (pcb w) true) in
      let w := set_pcb w (tcp_err (pcb w) true) in
      let w := set_pcb w (tcp_poll (pcb w) true 1) in
      Ok (ERR_OK, w)
  | None => Ok (ERR_MEM, w)
  end.

(** mem_free(es): the structure is gone. *)
Definition es_free w (a : Z) : outcome conn :=
  let! m := mem_free_es (pm w) a in Ok (set_tab (set_pm w m) (delete a (tab w))).

Definition server_error w (arg : option Z) : outcome conn :=
  match arg with Some a => es_free w a | None => Ok w end.

Definition server_connection_close w (es : option Z) : outcome conn :=
  let w := set_pcb w (tcp_arg (pcb w) None) in
  let w := set_pcb w (tcp_sent (pcb w) false) in
  let w := set_pcb w (tcp_recv (pcb w) false) in
  let w := set_pcb w (tcp_err (pcb w) false) in
  let w := set_pcb w (tcp_poll (pcb w) false 0) in
  let! w := match es with Some a => es_free w a | None => Ok w end in
  Ok (conn_close w).

Definition server_send w (a : Z) : outcome conn := send MEMP_PBUF MEMP_PBUF_POOL true w a.

(** What poll and sent do with es: send, or close a connection that is
    closing and has nothing left. *)
Definition server_continue w (a : Z) (es : es_struct) : outcome conn :=
  match es_p es with
  | Some _ => server_send w a
  | None => if decide (es_state es = ES_CLOSING) then server_connection_close w (Some a) else Ok w
  end.

Definition server_poll w (arg : option Z) : outcome (Z * conn) :=
  match arg with
  | Some a => let! es := es_get w a in let! w := server_continue w a es in Ok (ERR_OK, w)
  | None => Ok (ERR_ABRT, conn_abort w)
  end.

Definition server_sent w (arg : option Z) : outcome (Z * conn) :=
  let! (a, es) := es_deref w arg in let! w := server_continue w a es in Ok (ERR_OK, w).

(** ** tcp_echoserver.c *)

Definition tcp_echoserver_accept w : outcome (Z * conn) := server_accept 12 w.
Definition tcp_echoserver_error w (arg : option Z) : outcome conn := server_error w arg.
Definition tcp_echoserver_poll w (arg : option Z) : outcome (Z * conn) := server_poll w arg.
Definition tcp_echoserver_sent w (arg : option Z) : outcome (Z * conn) := server_sent w arg.

(** The branches of the receive callback that the two servers share: a
    packet with an error, and a packet for a connection in another state. *)
Definition recv_failed w (a : Z) (es : es_struct) (p : pptr) (err : Z) : outcome (Z * conn) :=
  let w := es_put w a (Es (es_state es) None) in
  let! (_, m) := pbuf_free MEMP_PBUF MEMP_PBUF_POOL (pm w) (Some p) in Ok (err, set_pm w m).

Definition recv_late w (a : Z) (es : es_struct) (p : pptr) : outcome (Z * conn) :=
  let! b := get (pm w) p in
  let w := conn_recved w (tot_len b) in
  let w := es_put w a (Es (es_state es) None) in
  let! (_, m) := pbuf_free MEMP_PBUF MEMP_PBUF_POOL (pm w) (Some p) in Ok (ERR_OK, set_pm w m).

(** The first packet is sent back at once; tcp_sent is installed. *)
Definition recv_first w (a : Z) (p : pptr) : outcome (Z * conn) :=
  let w := es_put w a (Es ES_RECEIVED (Some p)) in
  let w := set_pcb w (tcp_sent (pcb w) true) in
  let! w := server_send w a in Ok (ERR_OK, w).

Definition recv_append w (ptr p : pptr) : outcome (Z * conn) :=
  let! m := pbuf_chain (pm w) (Some ptr) (Some p) in Ok (ERR_OK, set_pm w m).

(** The end of the stream. [state] is what es->state becomes. *)
Definition recv_fin w (a : Z) (es : es_struct) (state : echo_state) : outcome (Z * conn) :=
  let w := es_put w a (Es state (es_p es)) in
  match es_p es with
  | None => let! w := server_connection_close w (Some a) in Ok (ERR_OK, w)
  | Some _ =>
      let w := set_pcb w (tcp_sent (pcb w) true) in
      let! w := server_send w a in Ok (ERR_OK, w)
  end.

Definition tcp_echoserver_recv w (arg : option Z) (p : option pptr) (err : Z) : outcome (Z * conn) :=
  let! (a, es) := es_deref w arg in
  match p with
  | None => recv_fin w a es ES_CLOSING
  | Some p =>
      if negb (err =? ERR_OK) then recv_failed w a es p err
      else match es_state es with
           | ES_ACCEPTED => recv_first w a p
           | ES_RECEIVED =>
               match es_p es with
               | None =>
                   let w := es_put w a (Es ES_RECEIVED (Some p)) in
                   let! w := server_send w a in Ok (ERR_OK, w)
               | Some ptr => recv_append w ptr p
               end
           | _ => recv_late w a es p
           end
  end.

(** ** What the engine does *)

(** It works on its own, and may be heard of only through the memory. *)
Definition works w (t : T) (m : pstate (H := H)) : Prop :=
  quiet memp_num (refs (stk w)) (refs t) (pm w) m /\ stream t = stream (stk w).

(** It hands over a packet [p] with the bytes [d]: a chain that nobody else
    refers to and that shares no pbuf with the packets of others. *)
Definition delivers w (t : T) (m : pstate (H := H)) (p : pptr) (d : list mbyte) : Prop :=
  stream t = stream (stk w) /\
  forall fr roots, minv memp_num fr (pm w) (refs (stk w) ++ roots) ->
    minv memp_num fr m (refs t ++ p :: roots) /\ same_chains roots (pm w) m /\
    exists b l, chain (store m) (Some p) ((p, b) :: l) None /\ Forall (fun x => own (snd x)) ((p, b) :: l) /\
      Forall (fun x => ref (snd x) = 1) ((p, b) :: l) /\ contents ((p, b) :: l) = d /\
      forall q k, q ∈ roots -> chain (store m) (Some q) k None -> forall x, x ∈ (fst <$> k) -> x ∉ (p :: (fst <$> l)).

Inductive event : Type :=
  | Work
  | Data (d : list mbyte)
  | Bad
  | Fin
  | Sent
  | Poll
  | Error.

(** One call, of a callback that is installed, or work of the engine. *)
Inductive step (recv_cb : conn (H := H) (T := T) -> option Z -> option pptr -> Z -> outcome (Z * conn)) : conn -> event -> conn -> Prop :=
  | step_work w t m : works w t m -> step recv_cb w Work (set_stk w t m)
  | step_data w t m p d e w' : recv (pcb w) = true -> delivers w t m p d ->
      recv_cb (set_stk w t m) (callback_arg (pcb w)) (Some p) ERR_OK = Ok (e, w') -> step recv_cb w (Data d) w'
  | step_bad w t m p d err e w' : recv (pcb w) = true -> delivers w t m p d -> err <> ERR_OK ->
      recv_cb (set_stk w t m) (callback_arg (pcb w)) (Some p) err = Ok (e, w') -> step recv_cb w Bad w'
  | step_fin w e w' : recv (pcb w) = true ->
      recv_cb w (callback_arg (pcb w)) None ERR_OK = Ok (e, w') -> step recv_cb w Fin w'
  | step_sent w e w' : sent (pcb w) = true -> server_sent w (callback_arg (pcb w)) = Ok (e, w') -> step recv_cb w Sent w'
  | step_poll w e w' : poll (pcb w) = true -> server_poll w (callback_arg (pcb w)) = Ok (e, w') -> step recv_cb w Poll w'
  | step_error w w' : errf (pcb w) = true -> server_error w (callback_arg (pcb w)) = Ok w' ->
      step recv_cb w Error (set_closed (set_pcb w' (Pcb None false false false false 0 (prio (pcb w'))))).

Inductive run recv_cb : conn -> list event -> conn -> Prop :=
  | run_nil w : run recv_cb w [] w
  | run_cons w1 e w2 evs w3 : step recv_cb w1 e w2 -> run recv_cb w2 evs w3 -> run recv_cb w1 (e :: evs) w3.

(** The bytes that came in. *)
Fixpoint received (evs : list event) : list mbyte :=
  match evs with
  | [] => []
  | Data d :: evs => d ++ received evs
  | _ :: evs => received evs
  end.

(** ** Invariants *)

Context (Hpool_lt : 0 <= MEMP_PBUF_POOL < zlen memp_num) (Hpbuf_lt : 0 <= MEMP_PBUF < zlen memp_num).

(** The connection is open and its structure is at [a]: [p], of the pbufs
    [l], is still to be sent; [lk] are references the server has lost. *)
Definition alive (fr : list region) (roots lk : list pptr) (a : Z) w (st : echo_state) (p : option pptr) (l : list (pptr * pbuf)) : Prop :=
  (exists k, conn_ok ((a, k) :: fr) (lk ++ roots) w a st p l) /\ callback_arg (pcb w) = Some a /\
  recv (pcb w) = true /\ errf (pcb w) = true /\ poll (pcb w) = true /\ closed w = false.

(** The connection is closed, its structure is freed. *)
Definition dead (fr : list region) (roots lk : list pptr) w : Prop :=
  minv memp_num fr (pm w) (refs (stk w) ++ lk ++ roots) /\
  recv (pcb w) = false /\ sent (pcb w) = false /\ errf (pcb w) = false /\ poll (pcb w) = false /\ closed w = true.

Lemma contents_app l1 l2 : contents (l1 ++ l2) = contents l1 ++ contents l2.
Proof. induction l1 as [|[q b] l1 IH]; [done|]. cbn. by rewrite IH, app_assoc. Qed.

(** Sending moves bytes from the pending data to the stream. *)
Lemma alive_send fr roots lk a w st p l :
  alive fr roots lk a w st p l ->
  wp (server_send w a) (fun w' => exists p' l', alive fr roots lk a w' st p' l' /\
    stream (stk w') ++ contents l' = stream (stk w) ++ contents l /\ (blocked w' l' \/ p' = None) /\ pcb w' = pcb w).
Proof.
  intros ([k Hw] & Ha & Hr & He & Hp & Hc).
  eapply wp_mono; [by apply (send_ok MEMP_PBUF MEMP_PBUF_POOL Hpool_lt Hpbuf_lt true _ _ _ _ _ _ _ Hw)|].
  intros w' (p' & l1 & l2 & l2' & -> & H2 & Hw' & Hb & Es & _ & Ep & Ec & _). exists p', l2'.
  destruct (same_but_refs_contents _ _ H2) as [Hcon _].
  split; [split; [by exists k|]; rewrite Ep, Ec; done|]. split; [|split; [by left|done]].
  by rewrite Es, Hcon, contents_app, app_assoc.
Qed.

(** The pending data may be dropped: its reference is lost. *)
Lemma alive_drop fr roots lk a w st p l st' :
  alive fr roots lk a w st p l -> alive fr roots (olist p ++ lk) a (es_put w a (Es st' None)) st' None [].
Proof.
  intros ([k (Ht & Hi & Hc)] & Hrest). split; [|done]. exists k. split; [apply lookup_insert_eq|].
  split; [by rewrite <- !app_assoc|]. by split_and!.
Qed.

Lemma alive_state fr roots lk a w st p l st' :
  alive fr roots lk a w st p l -> alive fr roots lk a (es_put w a (Es st' p)) st' p l.
Proof. intros ([k (Ht & Hi & Hc)] & Hrest). split; [|done]. exists k. split; [apply lookup_insert_eq|]. by split. Qed.

Lemma alive_sent fr roots lk a w st p l b :
  alive fr roots lk a w st p l -> alive fr roots lk a (set_pcb w (tcp_sent (pcb w) b)) st p l.
Proof. done. Qed.

Lemma alive_close fr roots lk a w st p l :
  alive fr roots lk a w st p l ->
  wp (server_connection_close w (Some a)) (fun w' => dead fr roots (olist p ++ lk) w' /\ tab w' = delete a (tab w) /\
    stream (stk w') = stream (stk w)).
Proof.
  intros ([k (Ht & Hi & Hc)] & Hrest). unfold server_connection_close, es_free. cbn.
  destruct (mem_free_es_ok memp_num fr (pm w) _ a k Hi) as (m & -> & _ & Hi'). cbn. unfold conn_close. cbn.
  destruct (tcp_close (stk w) m) as [[e t] m'] eqn:E. destruct (tcp_close_ok _ _ _ _ _ E) as [Hq Es]. cbn.
  split; [|done]. split; [|done]. rewrite <- app_assoc. by apply Hq.
Qed.

(** Nothing to send, nothing to close. *)
Lemma alive_continue fr roots lk a w st p l :
  alive fr roots lk a w st p l -> st <> ES_CLOSING \/ p <> None ->
  wp (server_continue w a (Es st p)) (fun w' => exists p' l', alive fr roots lk a w' st p' l' /\
    stream (stk w') ++ contents l' = stream (stk w) ++ contents l).
Proof.
  intros Hw Hne. unfold server_continue. cbn [es_p es_state]. destruct p as [p|].
  - eapply wp_mono; [exact (alive_send _ _ _ _ _ _ _ _ Hw)|]. intros w' (p' & l' & ? & ? & _). eauto.
  - rewrite decide_False by tauto. apply wp_ret. by exists None, l.
Qed.

(** A packet that the engine hands over. *)
Lemma conn_delivers fr roots a w st p l t m q d :
  conn_ok fr roots w a st p l -> delivers w t m q d ->
  conn_ok fr (q :: roots) (set_stk w t m) a st p l /\ stream t = stream (stk w) /\
  exists b l2, chain (store m) (Some q) ((q, b) :: l2) None /\ Forall (fun x => own (snd x)) ((q, b) :: l2) /\
    Forall (fun x => ref (snd x) = 1) ((q, b) :: l2) /\ contents ((q, b) :: l2) = d /\
    forall x, x ∈ (fst <$> l) -> x ∉ (q :: (fst <$> l2)).
Proof.
  intros (Ht & Hi & (Hc & Ho & Hrf)) (Es & Hd).
  destruct (Hd _ _ Hi) as (Hi' & Hs & b & l2 & Hc2 & Ho2 & Hr2 & Hcon & Hdis).
  assert (Hc' : chain (store m) p l None).
  { destruct p as [p|]; [|by destruct l as [|[]]; [|destruct Hc]]. apply Hs; [|done]. by left. }
  split; [|split; [done|exists b, l2; split_and!; try done]].
  - split; [done|]. split; [|done]. eapply minv_perm; [|exact Hi'].
    cbn [pm stk set_stk]. solve_perm.
  - destruct p as [p|]; [|by destruct l as [|[]]; [intros x ?%elem_of_nil|destruct Hc]]. apply (Hdis p); [by left|done].
Qed.

Lemma alive_delivers fr roots lk a w st p l t m q d :
  alive fr roots lk a w st p l -> delivers w t m q d ->
  alive fr (q :: roots) lk a (set_stk w t m) st p l /\ stream t = stream (stk w) /\
  exists b l2, chain (store m) (Some q) ((q, b) :: l2) None /\ Forall (fun x => own (snd x)) ((q, b) :: l2) /\
    Forall (fun x => ref (snd x) = 1) ((q, b) :: l2) /\ contents ((q, b) :: l2) = d /\
    forall x, x ∈ (fst <$> l) -> x ∉ (q :: (fst <$> l2)).
Proof.
  intros ([k Hk] & Hrest) Hd. destruct (conn_delivers _ _ _ _ _ _ _ _ _ _ _ Hk Hd) as ((Ht & Hi & Hp) & Hq). split; [|done].
  split; [|done]. exists k. split; [done|]. split; [|done]. eapply minv_perm; [|exact Hi]. cbn [pm stk set_stk]. solve_perm.
Qed.

(** The new packet becomes the pending data. *)
Lemma alive_take fr roots lk a w st l q b l2 st' :
  alive fr (q :: roots) lk a w st None l -> chain (store (pm w)) (Some q) ((q, b) :: l2) None ->
  Forall (fun x => own (snd x)) ((q, b) :: l2) -> Forall (fun x => ref (snd x) = 1) ((q, b) :: l2) ->
  alive fr roots lk a (es_put w a (Es st' (Some q))) st' (Some q) ((q, b) :: l2).
Proof.
  intros ([k (Ht & Hi & Hc)] & Hrest) Hcq Ho Hr. split; [|done]. exists k. split; [apply lookup_insert_eq|].
  split; [|split; [done|split; [done|]]].
  - eapply minv_perm; [|exact Hi]. cbn [pm stk es_put set_tab]. solve_perm.
  - apply Forall_cons_1 in Hr as [_ Hr]. cbn. eapply Forall_impl; [exact Hr|]. cbn. lia.
Qed.

(** The new packet is chained to the pending data, and the reference of the
    server to it is lost. *)
Lemma alive_append fr roots lk a w st ptr l q b l2 :
  alive fr (q :: roots) lk a w st (Some ptr) l -> chain (store (pm w)) (Some q) ((q, b) :: l2) None ->
  Forall (fun x => own (snd x)) ((q, b) :: l2) -> Forall (fun x => ref (snd x) = 1) ((q, b) :: l2) ->
  (forall x, x ∈ (fst <$> l) -> x ∉ (q :: (fst <$> l2))) ->
  wp (recv_append w ptr q) (fun r => exists l', alive fr roots (q :: lk) a (snd r) st (Some ptr) l' /\
    contents l' = contents l ++ contents ((q, b) :: l2) /\ stk (snd r) = stk w).
Proof.
  intros ([k (Ht & Hi & (Hc & Ho & Hrf))] & Hrest) Hcq Hoq Hrq Hdis. unfold recv_append. cbn [olist option_list app] in Hi.
  assert (Hi0 : minv memp_num ((a, k) :: fr) (pm w) (q :: refs (stk w) ++ ptr :: lk ++ roots)).
  { eapply minv_perm; [|exact Hi]. solve_perm. }
  apply Forall_cons_1 in Hrq as [Hb Hr2]. cbn in Hb.
  destruct (pbuf_chain_chain MEMP_PBUF MEMP_PBUF_POOL Hpool_lt Hpbuf_lt _ (pm w) ptr q b l l2 _ Hi0 Hc Hcq Hdis) as (m & l' & -> & Hi' & Hs & Hc'); [lia|]. cbn.
  exists (l' ++ (q, set_ref b (ref b + 1)) :: l2). destruct (same_data_contents _ _ Hs) as [Hcon _].
  split; [|split; [|done]].
  2:{ rewrite contents_app, Hcon. cbn. by destruct b. }
  split; [|done]. exists k. split; [done|]. apply Forall_cons_1 in Hoq as [Hob Hoq]. split; [|split; [done|split]].
  - eapply minv_perm; [|exact Hi']. cbn [pm stk set_pm]. solve_perm.
  - apply Forall_app. split; [by eapply same_data_own|]. constructor; [by destruct b|done].
  - inversion Hs as [|? ? k1 k2 S1 S2]; subst; [done|]. cbn [tail app]. cbn [tail] in Hrf.
    apply Forall_app. split; [by eapply same_data_refs|]. constructor; [cbn; lia|].
    eapply Forall_impl; [exact Hr2|]. cbn. lia.
Qed.

(** ** The callbacks keep the invariant *)

(** A packet arrives at an open connection that is not closing: it is sent
    back or appended to what waits. *)
Lemma recv_data_ok fr roots lk a w st p l t m q d :
  alive fr roots lk a w st p l -> (st = ES_ACCEPTED /\ p = None) \/ st = ES_RECEIVED -> delivers w t m q d ->
  wp (tcp_echoserver_recv (set_stk w t m) (Some a) (Some q) ERR_OK) (fun r => exists p' l' lk',
    alive fr roots (lk' ++ lk) a (snd r) ES_RECEIVED p' l' /\
    stream (stk (snd r)) ++ contents l' = (stream (stk w) ++ contents l) ++ d).
Proof.
  intros Hw Hst Hd. destruct (alive_delivers _ _ _ _ _ _ _ _ _ _ _ _ Hw Hd) as (Hw1 & Es & b & l2 & Hcq & Hoq & Hrq & Hcon & Hdis).
  pose proof Hw1 as ([k (Ht & _ & Hc & _)] & _). rewrite <- Hcon. unfold tcp_echoserver_recv, es_deref, es_get. rewrite Ht.
  cbn [obind]. change (negb (ERR_OK =? ERR_OK)) with false. cbn [es_state es_p].
  assert (Hsend : forall w1, alive fr roots lk a w1 ES_RECEIVED (Some q) ((q, b) :: l2) -> p = None -> stream (stk w1) = stream t ->
    wp (let! w := server_send w1 a in Ok (ERR_OK, w)) (fun r => exists p' l' lk',
      alive fr roots (lk' ++ lk) a (snd r) ES_RECEIVED p' l' /\
      stream (stk (snd r)) ++ contents l' = (stream (stk w) ++ contents l) ++ contents ((q, b) :: l2))).
  { intros w1 Ha -> E1. eapply wp_bind_mono; [exact (alive_send _ _ _ _ _ _ _ _ Ha)|].
    intros w' (p' & l' & Ha' & Es' & _). apply wp_ret. exists p', l', []. split; [done|]. cbn [snd]. rewrite Es', E1, Es.
    destruct l as [|[]]; [|by destruct Hc]. by rewrite app_nil_r. }
  destruct Hst as [[-> ->]| ->].
  - apply Hsend; [|done|done]. apply alive_sent. by eapply alive_take.
  - destruct p as [ptr|].
    + eapply wp_mono; [by eapply alive_append|]. intros [e w'] (l' & Ha' & Hcon' & Ek). exists (Some ptr), l', [q].
      cbn [snd] in *. split; [done|]. rewrite Ek, Hcon'. cbn [stk set_stk]. by rewrite Es, app_assoc.
    + apply Hsend; [|done|done]. by eapply alive_take.
Qed.

(** In the other branches too the memory stays in order: the packet is
    freed, the pending data is lost. *)
Lemma alive_free fr roots lk a w st p l q :
  alive fr (q :: roots) lk a w st p l ->
  wp (let! (_, m) := pbuf_free MEMP_PBUF MEMP_PBUF_POOL (pm w) (Some q) in Ok (set_pm w m)) (fun w' =>
    p = None -> alive fr roots lk a w' st p []).
Proof.
  intros ([k (Ht & Hi & Hc)] & Hrest).
  destruct (minv_free MEMP_PBUF MEMP_PBUF_POOL Hpool_lt Hpbuf_lt ((a, k) :: fr) (pm w) q (refs (stk w) ++ olist p ++ lk ++ roots))
    as (n & m & -> & Hi' & _); [eapply minv_perm; [|exact Hi]; solve_perm|].
  intros ->. split; [|done]. exists k. split; [done|]. split; [done|]. by split_and!.
Qed.

Lemma recv_failed_ok fr roots lk a w st p l q err :
  alive fr (q :: roots) lk a w st p l ->
  wp (recv_failed w a (Es st p) q err) (fun r => alive fr roots (olist p ++ lk) a (snd r) st None []).
Proof.
  intros Hw. apply (alive_drop _ _ _ _ _ _ _ _ st) in Hw. apply alive_free in Hw. unfold recv_failed. cbn [es_state].
  revert Hw. destruct (pbuf_free _ _ _ _) as [[n m]| |]; cbn; auto.
Qed.

Lemma recv_late_ok fr roots lk a w st p l q b l2 :
  alive fr (q :: roots) lk a w st p l -> chain (store (pm w)) (Some q) ((q, b) :: l2) None ->
  wp (recv_late w a (Es st p) q) (fun r => alive fr roots (olist p ++ lk) a (snd r) st None []).
Proof.
  intros ([k Hw] & Hrest) Hcq. unfold recv_late. destruct Hcq as (_ & Hq & _). unfold get. rewrite Hq. cbn [obind es_state].
  destruct (conn_ok_recved _ _ _ _ _ _ _ (tot_len b) Hw) as (Hw' & _ & _ & E1 & E2 & _).
  assert (Ha : alive fr (q :: roots) lk a (conn_recved w (tot_len b)) st p l) by (split; [by exists k|by rewrite E1, E2]).
  apply (alive_drop _ _ _ _ _ _ _ _ st) in Ha. apply alive_free in Ha.
  revert Ha. destruct (pbuf_free _ _ _ _) as [[n m]| |]; cbn; auto.
Qed.

(** The state of a connection in general. *)
Definition server_inv (fr : list region) (roots lk : list pptr) (a : Z) w : Prop :=
  (exists st p l, alive fr roots lk a w st p l /\ (st = ES_ACCEPTED -> p = None)) \/ dead fr roots lk w.

Lemma recv_fin_ok fr roots lk a w st p l :
  alive fr roots lk a w st p l ->
  wp (recv_fin w a (Es st p) ES_CLOSING) (fun r => match p with
    | None => dead fr roots lk (snd r)
    | Some _ => exists p' l', alive fr roots lk a (snd r) ES_CLOSING p' l' /\
        stream (stk (snd r)) ++ contents l' = stream (stk w) ++ contents l
    end).
Proof.
  intros Hw. unfold recv_fin. cbn [es_p]. apply (alive_state _ _ _ _ _ _ _ _ ES_CLOSING) in Hw. destruct p as [p|].
  - pose proof (alive_send _ _ _ _ _ _ _ _ (alive_sent _ _ _ _ _ _ _ _ true Hw)) as Hs. eapply wp_bind_mono; [exact Hs|].
    intros w' (p' & l' & Ha & Es & _). apply wp_ret. by exists p', l'.
  - eapply wp_bind_mono; [exact (alive_close _ _ _ _ _ _ _ _ Hw)|]. intros w' (Hd & _). by apply wp_ret.
Qed.

Lemma continue_inv fr roots lk a w st p l :
  alive fr roots lk a w st p l -> (st = ES_ACCEPTED -> p = None) ->
  wp (server_continue w a (Es st p)) (fun w' => exists lk', server_inv fr roots (lk' ++ lk) a w').
Proof.
  intros Hw Hst. destruct (decide (st = ES_CLOSING /\ p = None)) as [[-> ->]|Hne].
  - eapply wp_mono; [exact (alive_close _ _ _ _ _ _ _ _ Hw)|]. intros w' (Hd & _). exists []. by right.
  - unfold server_continue. cbn [es_p es_state]. destruct p as [p|].
    + eapply wp_mono; [exact (alive_send _ _ _ _ _ _ _ _ Hw)|]. intros w' (p' & l' & Ha & _). exists []. left.
      exists st, p', l'. split; [done|]. intros E. by specialize (Hst E).
    + rewrite decide_False by tauto. apply wp_ret. exists []. left. by exists st, None, l.
Qed.

Lemma error_ok fr roots lk a w st p l :
  alive fr roots lk a w st p l ->
  wp (server_error w (Some a)) (fun w' => minv memp_num fr (pm w') (refs (stk w') ++ (olist p ++ lk) ++ roots)).
Proof.
  intros ([k (Ht & Hi & Hc)] & Hrest). unfold server_error, es_free.
  destruct (mem_free_es_ok memp_num fr (pm w) _ a k Hi) as (m & -> & _ & Hi'). cbn. by rewrite <- app_assoc.
Qed.

(** Any packet, with an error or not. *)
Lemma recv_any_ok fr roots lk a w st p l t m q d err :
  alive fr roots lk a w st p l -> (st = ES_ACCEPTED -> p = None) -> delivers w t m q d ->
  wp (tcp_echoserver_recv (set_stk w t m) (Some a) (Some q) err) (fun r => exists lk', server_inv fr roots (lk' ++ lk) a (snd r)).
Proof.
  intros Hw Hst Hd. destruct (alive_delivers _ _ _ _ _ _ _ _ _ _ _ _ Hw Hd) as (Hw1 & _ & b & l2 & Hcq & _).
  pose proof Hw1 as ([k (Ht & _)] & _).
  assert (Hlost : forall r : outcome (Z * conn), wp r (fun r => alive fr roots (olist p ++ lk) a (snd r) st None []) ->
    wp r (fun r => exists lk', server_inv fr roots (lk' ++ lk) a (snd r))).
  { intros r Hr. eapply wp_mono; [exact Hr|]. intros r' Ha. exists (olist p). left. by exists st, None, []. }
  destruct (Z.eqb_spec err ERR_OK) as [->|Herr].
  - destruct (decide (st = ES_ACCEPTED \/ st = ES_RECEIVED)) as [Hs|Hs].
    + eapply wp_mono; [eapply recv_data_ok; [exact Hw| |exact Hd]|].
      * destruct Hs as [Hs|Hs]; [left; auto|by right].
      * intros r (p' & l' & lk' & Ha & _). exists lk'. left. by exists ES_RECEIVED, p', l'.
    + unfold tcp_echoserver_recv, es_deref, es_get. rewrite Ht. cbn [obind es_state].
      change (negb (ERR_OK =? ERR_OK)) with false. cbn iota.
      assert (Hlate : wp (recv_late (set_stk w t m) a (Es st p) q) (fun r => exists lk', server_inv fr roots (lk' ++ lk) a (snd r)))
        by (apply Hlost; by eapply recv_late_ok).
      destruct st; try tauto; exact Hlate.
  - unfold tcp_echoserver_recv, es_deref, es_get. rewrite Ht. cbn [obind].
    rewrite (proj2 (Z.eqb_neq _ _) Herr). cbn [negb]. apply Hlost. exact (recv_failed_ok _ _ _ _ _ _ _ _ _ err Hw1).
Qed.

Lemma server_inv_work fr roots lk a w t m : server_inv fr roots lk a w -> works w t m -> server_inv fr roots lk a (set_stk w t m).
Proof.
  intros [(st & p & l & ([k Hw] & Hrest) & Hst)|(Hi & Hrest)] [Hq Es].
  - left. exists st, p, l. split; [|done]. split; [|done]. exists k. by apply conn_ok_quiet.
  - right. split; [|done]. by apply Hq.
Qed.

Lemma sent_inv fr roots lk a w st p l :
  alive fr roots lk a w st p l -> (st = ES_ACCEPTED -> p = None) ->
  wp (server_sent w (Some a)) (fun r => exists lk', server_inv fr roots (lk' ++ lk) a (snd r)) /\
  wp (server_poll w (Some a)) (fun r => exists lk', server_inv fr roots (lk' ++ lk) a (snd r)).
Proof.
  intros Hw Hst. pose proof Hw as ([k (Ht & _)] & _). unfold server_sent, server_poll, es_deref, es_get. rewrite Ht. cbn [obind].
  pose proof (continue_inv _ _ _ _ _ _ _ _ Hw Hst) as Hc.
  split; (eapply wp_bind_mono; [exact Hc|]; intros w' Hw'; by apply wp_ret).
Qed.

(** Every event keeps the invariant; the lost references only grow. *)
Lemma step_inv fr roots lk a w ev w' :
  server_inv fr roots lk a w -> step tcp_echoserver_recv w ev w' -> exists lk', server_inv fr roots (lk' ++ lk) a w'.
Proof.
  intros Hw Hs. inversion Hs; subst; [exists []; by apply server_inv_work|..];
    (destruct Hw as [(st & p0 & l & Ha & Hst)|(_ & ? & ? & ? & ? & _)]; [|congruence]);
    pose proof Ha as (_ & Harg & _); rewrite Harg in *.
  - pose proof (recv_any_ok _ _ _ _ _ _ _ _ _ _ _ _ ERR_OK Ha Hst H1) as Hr. rewrite H2 in Hr. exact Hr.
  - pose proof (recv_any_ok _ _ _ _ _ _ _ _ _ _ _ _ err Ha Hst H1) as Hr. rewrite H3 in Hr. exact Hr.
  - pose proof Ha as ([k (Ht & _)] & _). pose proof (recv_fin_ok _ _ _ _ _ _ _ _ Ha) as Hr.
    unfold tcp_echoserver_recv, es_deref, es_get in H1. rewrite Ht in H1. cbn [obind] in H1. rewrite H1 in Hr. cbn in Hr.
    exists []. destruct p0; [|by right]. destruct Hr as (p' & l' & Ha' & _). left. by exists ES_CLOSING, p', l'.
  - destruct (sent_inv _ _ _ _ _ _ _ _ Ha Hst) as [Hr _]. rewrite H1 in Hr. exact Hr.
  - destruct (sent_inv _ _ _ _ _ _ _ _ Ha Hst) as [_ Hr]. rewrite H1 in Hr. exact Hr.
  - pose proof (error_ok _ _ _ _ _ _ _ _ Ha) as Hr. rewrite H1 in Hr. exists (olist p0). right. by split.
Qed.

Lemma run_inv fr roots lk a w evs w' :
  server_inv fr roots lk a w -> run tcp_echoserver_recv w evs w' -> exists lk', server_inv fr roots (lk' ++ lk) a w'.
Proof.
  intros Hw Hr. revert lk Hw. induction Hr as [w|w1 e w2 evs w3 Hs _ IH]; intros lk Hw; [by exists []|].
  destruct (step_inv _ _ _ _ _ _ _ Hw Hs) as [lk1 Hw1]. destruct (IH _ Hw1) as [lk2 Hw2]. exists (lk2 ++ lk1). by rewrite <- app_assoc.
Qed.

Lemma accept_ok fr roots w :
  minv memp_num fr (pm w) (refs (stk w) ++ roots) -> closed w = false ->
  wp (tcp_echoserver_accept w) (fun r => stk (snd r) = stk w /\
    if fst r =? ERR_OK then exists a, alive fr roots [] a (snd r) ES_ACCEPTED None [] else fst r = ERR_MEM).
Proof.
  intros Hi Hc. unfold tcp_echoserver_accept, server_accept. cbn [pm set_pcb].
  destruct (mem_malloc_es_ok memp_num fr (pm w) _ 12 Hi) as (es & m & -> & _ & Hm); [lia|]. cbn [obind].
  destruct es as [a|]; apply wp_ret; (split; [done|]); [|done]. destruct Hm as [k Hm]. exists a. split; [|done].
  exists k. split; [apply lookup_insert_eq|]. split; [done|]. by split_and!.
Qed.

Definition normal (e : event) : Prop := match e with Work | Data _ | Sent | Poll => True | _ => False end.
Definition echoing (st : echo_state) (p : option pptr) : Prop := (st = ES_ACCEPTED /\ p = None) \/ st = ES_RECEIVED.

(** An open connection whose data adds up to [ds]. *)
Definition echoes (fr : list region) (roots : list pptr) (a : Z) w (ds : list mbyte) : Prop :=
  exists st p l lk, alive fr roots lk a w st p l /\ echoing st p /\ stream (stk w) ++ contents l = ds.

Lemma continue_echoes fr roots a w ds st p l lk w' :
  alive fr roots lk a w st p l -> echoing st p -> stream (stk w) ++ contents l = ds ->
  server_continue w a (Es st p) = Ok w' -> echoes fr roots a w' ds.
Proof.
  intros Ha Hst Es E. pose proof (alive_continue _ _ _ _ _ _ _ _ Ha) as Hc. rewrite E in Hc.
  destruct Hst as [[-> ->]| ->]; (specialize (Hc ltac:(by left)); destruct Hc as (p' & l' & Ha' & Es')).
  - unfold server_continue in E. cbn in E. injection E as <-. by exists ES_ACCEPTED, None, l, lk; split; [|split; [left|]].
  - exists ES_RECEIVED, p', l', lk. split; [done|]. split; [by right|]. by rewrite Es'.
Qed.

Lemma step_echoes fr roots a w e w' ds :
  echoes fr roots a w ds -> normal e -> step tcp_echoserver_recv w e w' -> echoes fr roots a w' (ds ++ received [e]).
Proof.
  intros (st & p & l & lk & Ha & Hst & Es) Hne Hs. pose proof Ha as ([k Hw] & Harg & Hrest). pose proof Hw as (Ht & _).
  inversion Hs; subst; cbn in Hne; try done; rewrite ?Harg in *; cbn [received]; rewrite !app_nil_r.
  - exists st, p, l, lk. destruct H0 as [Hq Es']. split; [split; [exists k; by apply conn_ok_quiet|done]|].
    split; [done|]. cbn. by rewrite Es'.
  - pose proof (recv_data_ok _ _ _ _ _ _ _ _ _ _ _ _ Ha Hst H1) as Hd. rewrite H2 in Hd. cbn in Hd.
    destruct Hd as (p' & l' & lk' & Ha' & Es'). exists ES_RECEIVED, p', l', (lk' ++ lk). split; [done|]. split; [by right|done].
  - unfold server_sent, es_deref, es_get in H1. rewrite Ht in H1. cbn [obind] in H1. obinv H1. injection H1 as _ <-.
    by eapply continue_echoes.
  - unfold server_poll, es_get in H1. rewrite Ht in H1. cbn [obind] in H1. obinv H1. injection H1 as _ <-.
    by eapply continue_echoes.
Qed.

Lemma received_cons e evs : received (e :: evs) = received [e] ++ received evs.
Proof. destruct e; cbn; by rewrite ?app_nil_r. Qed.

Lemma run_echoes fr roots a w evs w' ds :
  echoes fr roots a w ds -> Forall normal evs -> run tcp_echoserver_recv w evs w' -> echoes fr roots a w' (ds ++ received evs).
Proof.
  intros He Hn Hr. revert ds He. induction Hr as [w|w1 e w2 evs w3 Hs _ IH]; intros ds He; [by rewrite app_nil_r|].
  apply Forall_cons_1 in Hn as [Hne Hn]. rewrite received_cons, app_assoc. apply (IH Hn). by eapply step_echoes.
Qed.

(** ** What the server does *)

(** C29: the echo server sends back exactly what it receives. Take a connection it has accepted, and any sequence of its
    callbacks (packets, acknowledgements, polls) and of work of the engine, which may refuse data at any time. The bytes the
    engine has accepted for sending, followed by those in the chain that waits in es->p, are the bytes that came in, in
    order: nothing is lost, repeated or reordered; and the connection stays open with its structure allocated. *)
Theorem tcp_echoserver_echoes fr roots w0 w evs w' :
  minv memp_num fr (pm w0) (refs (stk w0) ++ roots) -> closed w0 = false ->
  tcp_echoserver_accept w0 = Ok (ERR_OK, w) -> run tcp_echoserver_recv w evs w' -> Forall normal evs ->
  exists a st p l lk, alive fr roots lk a w' st p l /\ stream (stk w') ++ contents l = stream (stk w0) ++ received evs.
Proof.
  intros Hi Hc E Hr Hn. pose proof (accept_ok _ _ _ Hi Hc) as Ha. rewrite E in Ha. cbn in Ha. destruct Ha as (Ek & a & Ha).
  assert (He : echoes fr roots a w (stream (stk w0))).
  { exists ES_ACCEPTED, None, [], []. split; [done|]. split; [by left|]. by rewrite Ek, app_nil_r. }
  destruct (run_echoes _ _ _ _ _ _ _ He Hn Hr) as (st & p & l & lk & Ha' & _ & Es). by exists a, st, p, l, lk.
Qed.

(** C30: the callbacks of the echo server are safe in every order. After its accept, whatever the engine calls (packets with or
    without an error, the end of the stream, acknowledgements, polls, an error of the connection), every callback that is
    installed is defined: it returns, touches no freed memory and does not free twice; the reference counts of all pbufs stay
    exact, up to references that the server loses, and once the connection is closed its structure is freed and no callback
    is left. *)
Theorem tcp_echoserver_safe fr roots w0 w evs w' :
  minv memp_num fr (pm w0) (refs (stk w0) ++ roots) -> closed w0 = false ->
  tcp_echoserver_accept w0 = Ok (ERR_OK, w) -> run tcp_echoserver_recv w evs w' ->
  exists a lk, server_inv fr roots lk a w' /\
    (recv (pcb w') = true -> (forall t m q d err, delivers w' t m q d ->
       exists r, tcp_echoserver_recv (set_stk w' t m) (callback_arg (pcb w')) (Some q) err = Ok r) /\
       exists r, tcp_echoserver_recv w' (callback_arg (pcb w')) None ERR_OK = Ok r) /\
    (sent (pcb w') = true -> exists r, tcp_echoserver_sent w' (callback_arg (pcb w')) = Ok r) /\
    (poll (pcb w') = true -> exists r, tcp_echoserver_poll w' (callback_arg (pcb w')) = Ok r) /\
    (errf (pcb w') = true -> exists r, tcp_echoserver_error w' (callback_arg (pcb w')) = Ok r).
Proof.
  intros Hi Hc E Hr. pose proof (accept_ok _ _ _ Hi Hc) as Ha. rewrite E in Ha. cbn in Ha. destruct Ha as (Ek & a & Ha).
  destruct (run_inv fr roots [] a w evs w') as [lk Hw']; [left; by exists ES_ACCEPTED, None, []|done|]. rewrite app_nil_r in Hw'.
  exists a, lk. split; [done|]. destruct Hw' as [(st & p & l & Ha' & Hst)|(_ & E1 & E2 & E3 & E4 & _)];
    [|rewrite E1, E2, E3, E4; by split_and!].
  assert (Hwp : forall A (m : outcome A) Q, wp m Q -> exists r, m = Ok r) by (intros A m Q (r & -> & _)%wp_ok; by exists r).
  pose proof Ha' as ([k (Ht & _)] & Harg & _). rewrite Harg. destruct (sent_inv _ _ _ _ _ _ _ _ Ha' Hst) as [Hsent Hpoll].
  split; [intros _; split|split; [|split]].
  - intros t m q d err Hd. eapply Hwp. by eapply recv_any_ok.
  - unfold tcp_echoserver_recv, es_deref, es_get. rewrite Ht. cbn [obind]. eapply Hwp. by eapply recv_fin_ok.
  - intros _. by eapply Hwp.
  - intros _. by eapply Hwp.
  - intros _. eapply Hwp. by eapply error_ok.
Qed.

(** The end of the stream. When the remote host has closed its side, the server closes the connection at once if nothing
    waits. Otherwise it sends on; if the engine takes everything, what was received has been sent back completely, and the
    next acknowledgement (or poll) closes the connection and frees the structure. *)
Theorem tcp_echoserver_closes fr roots lk a w st p l :
  alive fr roots lk a w st p l ->
  exists w1, tcp_echoserver_recv w (callback_arg (pcb w)) None ERR_OK = Ok (ERR_OK, w1) /\
    ((p = None /\ dead fr roots lk w1) \/
     exists p1 l1, alive fr roots lk a w1 ES_CLOSING p1 l1 /\ sent (pcb w1) = true /\
       stream (stk w1) ++ contents l1 = stream (stk w) ++ contents l /\ (blocked w1 l1 \/ p1 = None) /\
       (p1 = None -> exists w2, tcp_echoserver_sent w1 (callback_arg (pcb w1)) = Ok (ERR_OK, w2) /\
          tcp_echoserver_poll w1 (callback_arg (pcb w1)) = Ok (ERR_OK, w2) /\
          dead fr roots lk w2 /\ tab w2 !! a = None /\ stream (stk w2) = stream (stk w) ++ contents l)).
Proof.
  intros Ha. pose proof Ha as ([k (Ht & _ & Hc & _)] & Harg & _). rewrite Harg. unfold tcp_echoserver_recv, es_deref, es_get.
  rewrite Ht. cbn [obind]. unfold recv_fin. cbn [es_p]. apply (alive_state _ _ _ _ _ _ _ _ ES_CLOSING) in Ha.
  destruct p as [p|].
  2:{ pose proof (alive_close _ _ _ _ _ _ _ _ Ha) as (w1 & -> & Hd & _)%wp_ok. cbn [obind]. exists w1. split; [done|]. by left. }
  pose proof (alive_send _ _ _ _ _ _ _ _ (alive_sent _ _ _ _ _ _ _ _ true Ha)) as (w1 & -> & p1 & l1 & Ha1 & Es & Hb & Ep)%wp_ok.
  cbn [obind]. exists w1. split; [done|]. right. exists p1, l1. split; [done|]. split; [by rewrite Ep|]. split; [done|]. split; [done|].
  intros ->. pose proof Ha1 as ([k1 (Ht1 & _ & Hc1 & _)] & Harg1 & _).
  pose proof (alive_close _ _ _ _ _ _ _ _ Ha1) as (w2 & E2 & Hd & Etab & Es2)%wp_ok. exists w2.
  unfold tcp_echoserver_sent, tcp_echoserver_poll, server_sent, server_poll, es_deref, es_get. rewrite Harg1, Ht1. cbn [obind].
  unfold server_continue. cbn [es_p es_state]. rewrite decide_True by done. rewrite E2. cbn [obind].
  split; [done|]. split; [done|]. split; [done|]. rewrite Etab, lookup_delete_eq. split; [done|].
  destruct l1 as [|[]]; [|by destruct Hc1]. rewrite Es2. cbn in Es. by rewrite app_nil_r in Es.
Qed.

(** a second packet that arrives while the first still waits is never released. It is chained to the waiting data, for
    which pbuf_chain takes a reference of its own, and the server does not give up the one it was handed: whatever happens
    to the connection afterwards, also when all data has been sent back and the connection is closed and its structure
    freed, the pbuf stays allocated. *)
Theorem tcp_echoserver_leaks fr roots lk a w ptr l t m q d e w1 evs w2 :
  alive fr roots lk a w ES_RECEIVED (Some ptr) l -> delivers w t m q d ->
  tcp_echoserver_recv (set_stk w t m) (callback_arg (pcb w)) (Some q) ERR_OK = Ok (e, w1) ->
  run tcp_echoserver_recv w1 evs w2 -> is_Some (store (pm w2) !! q).
Proof.
  intros Ha Hd E Hr. destruct (alive_delivers _ _ _ _ _ _ _ _ _ _ _ _ Ha Hd) as (Ha1 & _ & b & l2 & Hcq & Hoq & Hrq & _ & Hdis).
  pose proof Ha as ([k (Ht & _)] & Harg & _). rewrite Harg in E. unfold tcp_echoserver_recv, es_deref, es_get in E.
  cbn [tab set_stk] in E. rewrite Ht in E. cbn [obind es_state es_p] in E. change (negb (ERR_OK =? ERR_OK)) with false in E. cbn iota in E.
  pose proof (alive_append _ _ _ _ _ _ _ _ _ _ _ Ha1 Hcq Hoq Hrq Hdis) as Hp. rewrite E in Hp. destruct Hp as (l' & Ha' & _). cbn in Ha'.
  destruct (run_inv fr roots (q :: lk) a w1 evs w2) as [lk' Hw2]; [left; by exists ES_RECEIVED, (Some ptr), l'|done|].
  assert (exists fr' rs, minv memp_num fr' (pm w2) rs /\ q ∈ rs) as (fr' & rs & [Hrefs _] & Hq).
  { destruct Hw2 as [(st & p & l3 & ([k3 (_ & Hi & _)] & _) & _)|(Hi & _)]; eexists _, _; (split; [exact Hi|]); set_solver. }
  specialize (Hrefs q). destruct (store (pm w2) !! q); [done|]. apply occ_elem in Hq.
  pose proof (occ_nonneg q (links (store (pm w2)))). lia.
Qed.
End Server.

(** ** A concrete connection *)

Section Witnesses.

Abbreviation dconn := (conn (H := memheap) (T := demo_tcp)).
#[local] Existing Instance demo_stack.

Definition pcb0 : tcp_pcb := Pcb None false false false false 0 64.
Definition conn0 : dconn := Conn demo (Demo 4 [] 0) ∅ pcb0 false.

Lemma demo_minv : minv demo_num [] (pm conn0) (refs (memp_num := demo_num) (stk conn0) ++ []).
Proof.
  destruct demo_ok as [Hr (us & free & Hu & Hrest)]. split; [exact Hr|]. exists us, free. split; [|exact Hrest].
  exists us. by rewrite app_nil_r.
Qed.

(** A packet of [bs] in a pbuf of type PBUF_RAM. *)
Definition demo_packet (s : pstate (H := memheap)) (bs : list Z) : option (pptr * pstate (H := memheap)) :=
  match pbuf_alloc demo_num 0 1 s PBUF_RAW (zlen bs) PBUF_RAM with
  | Ok (Some p, s') =>
      match store s' !! p with
      | Some b => Some (p, put s' p (set_bytes b (Some <$> bs)))
      | None => None
      end
  | _ => None
  end.

Lemma links_elem m y b q : m !! y = Some b -> next b = Some q -> 0 < occ q (links m).
Proof.
  intros Hy Hn. apply occ_elem. apply list_elem_of_omap. exists (y, b). split; [by apply elem_of_map_to_list|done].
Qed.

Lemma chain_pred m r k x : chain m (Some r) k None -> x ∈ (fst <$> k) -> x = r \/ exists y b, m !! y = Some b /\ next b = Some x.
Proof.
  revert r. induction k as [|[r0 b] k IH]; intros r; [by intros ? ?%elem_of_nil|]. intros ([= <-] & Hr & Hc) [->|Hx]%elem_of_cons; [by left|].
  right. destruct (next b) as [r2|] eqn:Hn; [|by destruct k as [|[]]; [apply elem_of_nil in Hx|destruct Hc]].
  destruct (IH r2 Hc Hx) as [->|?]; [by exists r, b|done].
Qed.

Lemma demo_delivers (w : dconn) bs p s' b :
  demo_packet (pm w) bs = Some (p, s') -> store s' !! p = Some b -> next b = None -> ref b = 1 ->
  payload b = LBuf 0 -> len b = zlen bs -> zlen bs <= 1000 -> delivers (memp_num := demo_num) w (stk w) s' p (Some <$> bs).
Proof.
  intros E Hp Hn Hr Hpay Hlen Hl. split; [done|]. intros fr roots Hi. unfold demo_packet in E. pose proof (zlen_nonneg bs).
  assert (Ha : exists q0 s0, pbuf_alloc demo_num 0 1 (pm w) PBUF_RAW (zlen bs) PBUF_RAM = Ok (q0, s0) /\ ext s0 = ext (pm w) /\
    match q0 with
    | None => minv demo_num fr s0 (refs (memp_num := demo_num) (stk w) ++ roots)
    | Some p => minv demo_num fr s0 (p :: refs (memp_num := demo_num) (stk w) ++ roots) /\ allocated (pm w) s0 p PBUF_RAM (zlen bs)
    end).
  { refine (@alloc_ram_ok memheap (framed fr) demo_num 0 1 _ _ (pm w) PBUF_RAW (zlen bs) (refs (memp_num := demo_num) (stk w) ++ roots) Hi _); [by vm_compute..|lia]. }
  destruct Ha as (q0 & s0 & E0 & _ & Hq). rewrite E0 in E. destruct q0 as [q0|]; [|done].
  destruct (store s0 !! q0) as [b0|] eqn:Hb0; [|done]. injection E as -> <-. destruct Hq as (Hi0 & Hsub & l0 & Hc0 & _ & Hlens & Hf).
  cbn in Hp. rewrite lookup_insert_eq in Hp. injection Hp as <-.
  destruct l0 as [|[p0 b1] l0]; [done|]. destruct Hc0 as ([= <-] & Hp0 & Hc0). rewrite Hb0 in Hp0. injection Hp0 as <-.
  apply Forall_cons_1 in Hf as [[[Hnew _] Hown] _]. cbn in Hnew, Hown. specialize (Hown ltac:(by left)). cbn in Hn, Hr, Hpay, Hlen.
  assert (Hown' : own (set_bytes b0 (Some <$> bs))) by (unfold own; cbn; rewrite Hpay; unfold zlen in *; rewrite length_fmap; lia).
  assert (Hi' : minv demo_num fr (put s0 p (set_bytes b0 (Some <$> bs))) (p :: refs (memp_num := demo_num) (stk w) ++ roots)).
  { eapply pinv_put; try done; cbn.
    unfold own in Hown. rewrite Hpay in Hown. unfold zlen in *. rewrite length_fmap. lia. }
  split; [eapply minv_perm; [|exact Hi']; solve_perm|]. split.
  - intros r k Hrk Hk. cbn. apply pchain_insert.
    + clear -Hk Hsub. revert Hk. generalize (Some r). induction k as [|[y by'] k IH]; intros o; cbn; [done|].
      intros (-> & Hy & Hk). split; [done|]. split; [by eapply lookup_weaken|auto].
    + intros Hin. apply list_elem_of_fmap in Hin as ([y by'] & -> & Hin). cbn in Hnew. by rewrite (chain_lookup _ _ _ _ _ _ Hk Hin) in Hnew.
  - exists (set_bytes b0 (Some <$> bs)), []. split_and!.
    + cbn. rewrite lookup_insert_eq. by rewrite Hn.
    + by constructor.
    + by constructor.
    + cbn. unfold bytes_of. cbn. rewrite Hpay, Hlen, app_nil_r. change (Z.to_nat 0) with 0%nat. rewrite drop_0, take_ge; [done|].
      unfold zlen. rewrite length_fmap. lia.
    + intros r k Hrk Hk x Hx Hxp%list_elem_of_singleton. subst x. destruct Hi' as [Hrefs _]. specialize (Hrefs p).
      cbn [store put set_store] in Hrefs. rewrite lookup_insert_eq in Hrefs. cbn [ref set_bytes] in Hrefs.
      cbn [occ] in Hrefs. rewrite bool_decide_true, occ_app in Hrefs by done. cbn [Z.b2z] in Hrefs.
      pose proof (occ_nonneg p roots). pose proof (occ_nonneg p (refs (memp_num := demo_num) (stk w))).
      match type of Hrefs with context [occ p (links ?m)] => pose proof (occ_nonneg p (links m)) end.
      destruct (chain_pred _ _ _ _ Hk Hx) as [->|(y & yb & Hy & Hyn)].
      * apply occ_elem in Hrk. lia.
      * pose proof (links_elem _ _ _ _ Hy Hyn). cbn in H3. lia.
Qed.

(** The connection accepts; "Hi" arrives and is sent back; "abc" does not
    fit into the send buffer and waits; "!!" is chained to it. *)
Definition run1 (f : outcome (Z * dconn)) (w : dconn) : dconn := match f with Ok (_, w') => w' | _ => w end.
Definition conn1 : dconn := Eval vm_compute in run1 (tcp_echoserver_accept conn0) conn0.
Definition with_packet (w : dconn) (bs : list Z) : dconn * pptr :=
  match demo_packet (pm w) bs with Some (p, m) => (set_stk w (stk w) m, p) | None => (w, PHeap 0) end.
Definition receive (wp : dconn * pptr) : dconn :=
  run1 (tcp_echoserver_recv (memp_num := demo_num) 0 1 (fst wp) (callback_arg (pcb (fst wp))) (Some (snd wp)) ERR_OK) (fst wp).
Definition pk1 : dconn * pptr := Eval vm_compute in with_packet conn1 [72; 105].
Definition conn2 : dconn := Eval vm_compute in receive pk1.
Definition pk2 : dconn * pptr := Eval vm_compute in with_packet conn2 [97; 98; 99].
Definition conn3 : dconn := Eval vm_compute in receive pk2.
Definition pk3 : dconn * pptr := Eval vm_compute in with_packet conn3 [33; 33].
Definition conn4 : dconn := Eval vm_compute in receive pk3.

Lemma with_packet_step (w w' : dconn) (bs : list Z) (wp : dconn * pptr) b e :
  with_packet w bs = wp -> demo_packet (pm w) bs = Some (snd wp, pm (fst wp)) ->
  store (pm (fst wp)) !! snd wp = Some b -> next b = None -> ref b = 1 -> payload b = LBuf 0 -> len b = zlen bs -> zlen bs <= 1000 ->
  recv (pcb w) = true ->
  tcp_echoserver_recv (memp_num := demo_num) 0 1 (fst wp) (callback_arg (pcb w)) (Some (snd wp)) ERR_OK = Ok (e, w') ->
  step (memp_num := demo_num) 0 1 (tcp_echoserver_recv (memp_num := demo_num) 0 1) w (Data (Some <$> bs)) w' /\
  delivers (memp_num := demo_num) w (stk w) (pm (fst wp)) (snd wp) (Some <$> bs).
Proof.
  intros E Ed Hb Hn Hr Hp Hl Hz Hrecv Er. pose proof (demo_delivers w bs _ _ b Ed Hb Hn Hr Hp Hl Hz) as Hd. split; [|done].
  unfold with_packet in E. rewrite Ed in E. eapply (step_data _ _ _ w (stk w) (pm (fst wp)) (snd wp)); [done|done|].
  assert (Ew : fst wp = set_stk w (stk w) (pm (fst wp))) by (by rewrite <- E). rewrite <- Ew. exact Er.
Qed.

Lemma demo_steps :
  let st := step (memp_num := demo_num) 0 1 (tcp_echoserver_recv (memp_num := demo_num) 0 1) in
  (st conn1 (Data (Some <$> [72; 105])) conn2 /\ delivers (memp_num := demo_num) conn1 (stk conn1) (pm (fst pk1)) (snd pk1) (Some <$> [72; 105])) /\
  (st conn2 (Data (Some <$> [97; 98; 99])) conn3 /\ delivers (memp_num := demo_num) conn2 (stk conn2) (pm (fst pk2)) (snd pk2) (Some <$> [97; 98; 99])) /\
  (st conn3 (Data (Some <$> [33; 33])) conn4 /\ delivers (memp_num := demo_num) conn3 (stk conn3) (pm (fst pk3)) (snd pk3) (Some <$> [33; 33])).
Proof.
  cbv zeta. split; [|split]; [eapply (with_packet_step _ _ _ pk1)|eapply (with_packet_step _ _ _ pk2)|eapply (with_packet_step _ _ _ pk3)].
  all: vm_compute; reflexivity || discriminate.
Qed.

Definition demo_events : list event := [Data (Some <$> [72; 105]); Data (Some <$> [97; 98; 99]); Data (Some <$> [33; 33])].

Lemma demo_accept : tcp_echoserver_accept conn0 = Ok (ERR_OK, conn1).
Proof. vm_compute. reflexivity. Qed.

Lemma demo_run : run (memp_num := demo_num) 0 1 (tcp_echoserver_recv (memp_num := demo_num) 0 1) conn1 demo_events conn4.
Proof.
  destruct demo_steps as ([S1 _] & [S2 _] & [S3 _]).
  eapply run_cons; [exact S1|]. eapply run_cons; [exact S2|]. eapply run_cons; [exact S3|]. apply run_nil.
Qed.

Lemma demo_bounds : 0 <= 1 < zlen demo_num /\ 0 <= 0 < zlen demo_num.
Proof. by vm_compute. Qed.

Lemma tcp_echoserver_echoes_witness :
  exists a st p l lk, alive (memp_num := demo_num) [] [] lk a conn4 st p l /\
    out (stk conn4) ++ contents l = Some <$> [72; 105; 97; 98; 99; 33; 33].
Proof.
  destruct (tcp_echoserver_echoes 0 1 (proj1 demo_bounds) (proj2 demo_bounds) [] [] conn0 conn1 demo_events conn4)
    as (a & st & p & l & lk & Ha & E); [exact demo_minv|reflexivity|exact demo_accept|exact demo_run|repeat constructor|].
  exists a, st, p, l, lk. split; [exact Ha|]. etransitivity; [exact E|reflexivity].
Defined.

Lemma tcp_echoserver_safe_witness :
  exists r, tcp_echoserver_recv (memp_num := demo_num) 0 1 conn4 (callback_arg (pcb conn4)) None ERR_OK = Ok r.
Proof.
  destruct (tcp_echoserver_safe 0 1 (proj1 demo_bounds) (proj2 demo_bounds) [] [] conn0 conn1 demo_events conn4)
    as (a & lk & _ & Hr & _); [exact demo_minv|reflexivity|exact demo_accept|exact demo_run|].
  by apply Hr.
Defined.

(** The invariant of the connection before the last packet. *)
Lemma demo_alive3 : exists a st p l lk, alive (memp_num := demo_num) [] [] lk a conn3 st p l.
Proof.
  pose proof (accept_ok [] [] conn0 demo_minv eq_refl) as Ha. rewrite demo_accept in Ha. destruct Ha as (_ & a & Ha).
  destruct demo_steps as ([S1 _] & [S2 _] & _).
  destruct (run_echoes 0 1 (proj1 demo_bounds) (proj2 demo_bounds) [] [] a conn1
    [Data (Some <$> [72; 105]); Data (Some <$> [97; 98; 99])] conn3 []) as (st & p & l & lk & Ha3 & _).
  - exists ES_ACCEPTED, None, [], []. split; [exact Ha|]. split; [by left|reflexivity].
  - repeat constructor.
  - eapply run_cons; [exact S1|]. eapply run_cons; [exact S2|]. apply run_nil.
  - by exists a, st, p, l, lk.
Qed.

Lemma tcp_echoserver_closes_witness :
  exists w1, tcp_echoserver_recv (memp_num := demo_num) 0 1 conn3 (callback_arg (pcb conn3)) None ERR_OK = Ok (ERR_OK, w1) /\
    closed w1 = false.
Proof.
  destruct demo_alive3 as (a & st & p & l & lk & Ha).
  destruct (tcp_echoserver_closes 0 1 (proj1 demo_bounds) (proj2 demo_bounds) [] [] lk a conn3 st p l Ha) as (w1 & E & _).
  exists w1. split; [exact E|]. vm_compute in E. by injection E as <-.
Defined.

Lemma tcp_echoserver_leaks_witness : is_Some (store (pm conn4) !! snd pk3).
Proof.
  destruct demo_steps as (_ & _ & [_ Hd]). destruct demo_alive3 as (a & st & p & l & lk & Ha).
  pose proof Ha as ([k (Ht & _)] & Harg & _). vm_compute in Harg. injection Harg as <-.
  vm_compute in Ht. injection Ht as <- <-.
  eapply (tcp_echoserver_leaks 0 1 (proj1 demo_bounds) (proj2 demo_bounds) [] [] lk _ conn3 _ l (stk conn3) (pm (fst pk3)) (snd pk3)
    (Some <$> [33; 33]) ERR_OK conn4 [] conn4 Ha Hd); [vm_compute; reflexivity|apply run_nil].
Defined.
End Witnesses.
