(* ===== verification/TcpServer.v ===== *)
(** * The serial-number server: Project/Standalone/tcp_echo_client/src/tcp_server.c, json.c

    The device without an operating system listens for the serial number of
    the next measurement. The server is the echo server of [TcpEcho] with
    another receive callback: the first packet is sent back, from the second
    one the serial number is read and the next report is composed
    (json_Packet_Gen of this project's json.c). *)

From S2P Require Import Prelude CStd Jsmn JsmnTree Json Mem Memp Pbuf TcpConn TcpEcho.
From Stdlib Require String.
From stdpp Require Import gmap.
#[local] Open Scope Z_scope.

(** ** json.c of tcp_echo_client *)

(** The local buffers of its json_Packet_Gen, with any content. *)
Record gen_locals : Type := Locals {
  l_json_packet : list Z;
  l_post_header : list Z;
  l_mac_addr : list Z;
  l_request_serial_no : list Z;
  l_check_Time : list Z;
  l_check_data : list Z;
}.

Definition locals_ok (f : gen_locals) : Prop :=
  zlen (l_json_packet f) = 300 /\ zlen (l_post_header f) = 150 /\ zlen (l_mac_addr f) = 40 /\
  zlen (l_request_serial_no f) = 40 /\ zlen (l_check_Time f) = 40 /\ zlen (l_check_data f) = 100.

#[local] Infix "+++" := String.append (at level 60, right associativity).

Definition set_post (g : globals) (post : list Z) : globals :=
  Globals (recv_serial g) (iot_item_1 g) (iot_item_2 g) (RTC_year g) (RTC_month g) (RTC_day g) (RTC_hour g)
    (RTC_minute g) (RTC_second g) post.
Definition set_serial (g : globals) (n : Z) : globals :=
  Globals n (iot_item_1 g) (iot_item_2 g) (RTC_year g) (RTC_month g) (RTC_day g) (RTC_hour g)
    (RTC_minute g) (RTC_second g) (post_packet g).

Definition json_Packet_Gen (g : globals) (fr : gen_locals) : outcome (Z * globals) :=
  let! mac_addr := sprintf (l_mac_addr fr) (q "'iot_mac_addr':'%02X:%02X:%02X:%02X:%02X:%02X'}") (map AInt MAC_ADDR) in
  let! request_serial_no := sprintf (l_request_serial_no fr) (q "'iot_request_history_id':'%d'") [AInt (recv_serial g)] in
  let! check_Time := sprintf (l_check_Time fr) (q "'check_time':'%.4d-%.2d-%.2d:%.2d:%.2d:%.2d'")
    [AInt (RTC_year g); AInt (RTC_month g); AInt (RTC_day g); AInt (RTC_hour g); AInt (RTC_minute g); AInt (RTC_second g)] in
  let! check_data := sprintf (l_check_data fr) (q "'check_data':[{'iot_item_id':'A001','data':'%f'}]") [AFlt (iot_item_1 g)] in
  let! json_packet := sprintf (l_json_packet fr) "{%s,%s,%s,%s}"
    [AStr mac_addr; AStr request_serial_no; AStr check_Time; AStr check_data] in
  let! contentLength := strlen json_packet in
  let! post_header := sprintf (l_post_header fr)
    ("POST HTTP/1.1" +++ crlf +++ "Host: 192.168.25.36::25261" +++ crlf +++
     "Content-Type: application/json; charset=utf-8Content-Length: %d" +++ crlf) [AInt contentLength] in
  let! post := sprintf (post_packet g) ("%s" +++ crlf +++ " %s" +++ crlf +++ crlf) [AStr post_header; AStr json_packet] in
  Ok (1, set_post g post).

(** *** What it writes *)

(** The globals in their ranges: a calendar date, and a measure below
    10^16. *)
Definition report_ok (g : globals) : Prop :=
  globals_ok (set_post g (replicate 450 0)) /\ prints_below 16 (iot_item_1 g) /\ zlen (post_packet g) = 300.

Definition report_item (g : globals) : list Z :=
  quoted (codes "check_data") ++ 58 :: render (JArr [item_tree "A001" (iot_item_1 g)]).

(** The report: the object is closed after its first member. *)
Definition report_body (g : globals) : list Z :=
  123 :: (mac_text ++ [125]) ++ 44 :: serial_text g ++ 44 :: chk_text g ++ 44 :: report_item g ++ [125].

Definition report_header (n : Z) : list Z :=
  codes ("POST HTTP/1.1" +++ crlf +++ "Host: 192.168.25.36::25261" +++ crlf +++
         "Content-Type: application/json; charset=utf-8Content-Length: ") ++ fmt_d n ++ [13; 10].

Definition report_text (g : globals) : list Z :=
  report_header (zlen (report_body g)) ++ [13; 10; 32] ++ report_body g ++ [13; 10; 13; 10].

Lemma report_item_format x :
  format (q "'check_data':[{'iot_item_id':'A001','data':'%f'}]") [AFlt x] =
  Ok (quoted (codes "check_data") ++ 58 :: render (JArr [item_tree "A001" x])).
Proof.
  unfold item_tree. cbn [render map JsmnTree.join fst snd]. unfold quoted. list_norm. lazy -[fmt_f]. reflexivity.
Qed.

Lemma report_header_format n :
  format ("POST HTTP/1.1" +++ crlf +++ "Host: 192.168.25.36::25261" +++ crlf +++
     "Content-Type: application/json; charset=utf-8Content-Length: %d" +++ crlf) [AInt n] = Ok (report_header n).
Proof. unfold report_header. list_norm. lazy -[fmt_d]. reflexivity. Qed.

Lemma report_post_format m1 m2 t1 t2 :
  cstring m1 = Ok t1 -> cstring m2 = Ok t2 ->
  format ("%s" +++ crlf +++ " %s" +++ crlf +++ crlf) [AStr m1; AStr m2] = Ok (t1 ++ [13; 10; 32] ++ t2 ++ [13; 10; 13; 10]).
Proof.
  intros H1 H2. match goal with |- format ?s _ = _ => let v := eval vm_compute in s in change s with v end.
  cbn -[cstring Z.of_nat]. rewrite H1, H2. reflexivity.
Qed.

Lemma report_item_ok g : report_ok g -> Forall (fun c => c <> 0) (report_item g) /\ zlen (report_item g) <= 71.
Proof.
  intros (_ & Hx & _). split.
  - unfold report_item. cbn [render map JsmnTree.join]. rewrite Forall_app. split; [by apply codes_plain_nonzero|].
    do 2 (constructor; [done|]). rewrite Forall_app. split; [eauto using item_nonzero, prints_finite|by repeat constructor].
  - pose proof (fmt_f_len 16 _ ltac:(lia) Hx). unfold report_item, item_tree. cbn [render map JsmnTree.join fst snd]. unfold quoted.
    repeat (rewrite zlen_app || rewrite zlen_cons || rewrite zlen_nil).
    repeat match goal with |- context [zlen (codes ?s)] =>
      let v := eval vm_compute in (zlen (codes s)) in change (zlen (codes s)) with v end.
    lia.
Qed.

Lemma report_body_ok g : report_ok g -> Forall (fun c => c <> 0) (report_body g) /\ 0 <= zlen (report_body g) <= 183.
Proof.
  intros Hg. destruct (report_item_ok g Hg) as [Hi Hil]. pose proof Hg as (Hr & _).
  pose proof (serial_len _ Hr : zlen (serial_text g) <= 38). pose proof (chk_len _ Hr : zlen (chk_text g) = 34). split.
  - unfold report_body. apply Forall_cons_2; [done|]. apply Forall_app_2; [apply Forall_app_2; [apply mac_nonzero|by repeat constructor]|].
    apply Forall_cons_2; [done|]. apply Forall_app_2; [apply serial_nonzero|]. apply Forall_cons_2; [done|].
    apply Forall_app_2; [apply chk_nonzero|]. apply Forall_cons_2; [done|]. apply Forall_app_2; [done|by repeat constructor].
  - split; [apply zlen_nonneg|]. unfold report_body. repeat (rewrite zlen_cons || rewrite zlen_app).
    change (zlen mac_text) with 34. change (zlen (@nil Z)) with 0. lia.
Qed.

Lemma report_header_ok n : 0 <= n < 1000 -> Forall (fun c => c <> 0) (report_header n) /\ zlen (report_header n) <= 109.
Proof.
  intros Hn. unfold report_header. split.
  - apply Forall_app_2; [vm_compute codes; by repeat constructor|]. apply Forall_app_2; [apply plain_nonzero, fmt_d_plain|by repeat constructor].
  - rewrite !zlen_app. assert (zlen (fmt_d n) <= 3).
    { unfold fmt_d. destruct (Z.ltb_spec n 0); [lia|]. apply dec_len; lia. }
    change (zlen [13; 10]) with 2. match goal with |- zlen ?l + _ <= _ => let v := eval vm_compute in (zlen l) in change (zlen l) with v end. lia.
Qed.

(** With the globals in their ranges nothing overflows. *)
Lemma json_Packet_Gen_report g fr :
  locals_ok fr -> report_ok g ->
  exists rest, json_Packet_Gen g fr = Ok (1, set_post g (report_text g ++ 0 :: rest)) /\
    Forall (fun c => c <> 0) (report_text g) /\ zlen (report_text g) <= 299 /\ zlen (report_text g ++ 0 :: rest) = 300.
Proof.
  intros (Hj & Hp & Hm & Hr & Ht & Hd) Hg. destruct (report_body_ok g Hg) as [Hb0 Hbl]. destruct (report_item_ok g Hg) as [Hi0 Hil].
  destruct (report_header_ok (zlen (report_body g))) as [Hh0 Hhl]; [lia|]. pose proof Hg as (Hgr & _ & Hpost).
  pose proof (serial_len _ Hgr : zlen (serial_text g) <= 38). pose proof (chk_len _ Hgr : zlen (chk_text g) = 34).
  assert (Hrl : zlen (report_text g) <= 299).
  { unfold report_text. rewrite !zlen_app. change (zlen [13; 10; 32]) with 3. change (zlen [13; 10; 13; 10]) with 4. lia. }
  unfold json_Packet_Gen.
  assert (Em : format (q "'iot_mac_addr':'%02X:%02X:%02X:%02X:%02X:%02X'}") (map AInt MAC_ADDR) = Ok (mac_text ++ [125])) by (by vm_compute).
  rewrite (sprintf_ok _ _ _ _ Em) by (rewrite Hm; by vm_compute). cbn [obind].
  rewrite (sprintf_ok _ _ _ _ (serial_format (recv_serial g))) by (fold (serial_text g); lia). cbn [obind]. fold (serial_text g).
  rewrite (sprintf_ok _ _ _ _ (chk_format g)) by lia. cbn [obind].
  rewrite (sprintf_ok _ _ _ _ (report_item_format (iot_item_1 g))) by (fold (report_item g); lia). cbn [obind]. fold (report_item g).
  rewrite (sprintf_ok _ _ _ (report_body g)).
  2: { apply packet_format; apply cstring_app; [|apply serial_nonzero|apply chk_nonzero|done].
       apply Forall_app_2; [apply mac_nonzero|by repeat constructor]. }
  2: lia.
  cbn [obind]. rewrite strlen_app by done. cbn [obind].
  rewrite (sprintf_ok _ _ _ _ (report_header_format _)) by lia. cbn [obind].
  rewrite (sprintf_ok _ _ _ (report_text g)) by (apply report_post_format || lia; by apply cstring_app). cbn [obind].
  eexists. split; [done|]. split; [|split; [done|]].
  - unfold report_text. apply Forall_app_2; [done|]. apply Forall_app_2; [by repeat constructor|]. apply Forall_app_2; [done|by repeat constructor].
  - rewrite zlen_app, zlen_cons. unfold zlen in *. rewrite length_drop. lia.
Qed.

(** ** tcp_server.c *)

(** The globals of the application, and what it has written to USART3. *)
Record application : Type := App {
  gl : globals;
  flag_server_accept : Z;
  flag_err_recv_serial : Z;
  flag_recv_serial : Z;
  usart3_out : list Z;
}.

Section TcpServer.
Context {H : Type} `{!RamHeap H} {memp_num : list Z} {T : Type} `{!TcpStack H memp_num T}.
Context (MEMP_PBUF MEMP_PBUF_POOL : Z).
Implicit Types (w : conn (H := H) (T := T)).

(** The bytes in memory from the payload of a pbuf on, up to the first that
    was never written. *)
Fixpoint written (l : list mbyte) : list Z :=
  match l with
  | Some v :: l => v :: written l
  | _ => []
  end.

Definition payload_memory (m : pstate (H := H)) (b : pbuf) : list Z :=
  match payload b with
  | LNull => []
  | LBuf o => written (drop (Z.to_nat o) (mem_bytes b))
  | LExt x o => match ext m !! x with Some l => written (drop (Z.to_nat o) l) | None => [] end
  end.

Definition tcp_server_accept w : outcome (Z * conn) := server_accept 16 w.
Definition tcp_server_error w (arg : option Z) : outcome conn := server_error w arg.
Definition tcp_server_poll w (arg : option Z) : outcome (Z * conn) := server_poll MEMP_PBUF MEMP_PBUF_POOL w arg.
Definition tcp_server_sent w (arg : option Z) : outcome (Z * conn) := server_sent MEMP_PBUF MEMP_PBUF_POOL w arg.

Definition USART3_log (x : application) (s : list Z) : application :=
  App (gl x) (flag_server_accept x) (flag_err_recv_serial x) (flag_recv_serial x) (usart3_out x ++ s).

(** What is done with a packet that carries a serial number: [mem] is the
    memory from its payload on, [serial_check] the local buffer of 100
    bytes. *)
Definition read_serial (x : application) (mem serial_check : list Z) (fr : gen_locals) : outcome application :=
  let! _ := sprintf serial_check ("Serial no: %s " +++ crlf) [AStr mem] in
  let! n := str2int mem in
  let g := set_serial (gl x) n in
  let x := USART3_log (App g (flag_server_accept x) (flag_err_recv_serial x) (flag_recv_serial x) (usart3_out x))
    (codes ("SYSTEM >> GET Serial" +++ crlf)) in
  if n <=? 0 then Ok (App g (flag_server_accept x) 1 (flag_recv_serial x) (usart3_out x))
  else
    let! (_, g) := json_Packet_Gen g fr in
    Ok (App g (flag_server_accept x) 0 1 (usart3_out x)).

Definition tcp_server_recv w (x : application) (serial_check : list Z) (fr : gen_locals) (arg : option Z) (p : option pptr) (err : Z)
    : outcome (Z * conn * application) :=
  let same (r : outcome (Z * conn)) := let! (e, w) := r in Ok (e, w, x) in
  let! (a, es) := es_deref w arg in
  match p with
  | None => same (recv_fin MEMP_PBUF MEMP_PBUF_POOL w a es (es_state es))
  | Some p =>
      if negb (err =? ERR_OK) then same (recv_failed MEMP_PBUF MEMP_PBUF_POOL w a es p err)
      else match es_state es with
           | ES_ACCEPTED => same (recv_first MEMP_PBUF MEMP_PBUF_POOL w a p)
           | ES_RECEIVED =>
               match es_p es with
               | None =>
                   let w := es_put w a (Es ES_RECEIVED (Some p)) in
                   let! b := get (pm w) p in
                   let! x := read_serial x (payload_memory (pm w) b) serial_check fr in
                   Ok (ERR_OK, w, x)
               | Some ptr => same (recv_append w ptr p)
               end
           | _ => same (recv_late MEMP_PBUF MEMP_PBUF_POOL w a es p)
           end
  end.

(** ** The connection as a whole *)

(** One event, with the application state. *)
Inductive server_step (serial_check : list Z) (fr : gen_locals) : conn * application -> event -> conn * application -> Prop :=
  | sv_work w x t m : works w t m -> server_step serial_check fr (w, x) Work (set_stk w t m, x)
  | sv_data w x t m p d e w' x' : recv (pcb w) = true -> delivers w t m p d ->
      tcp_server_recv (set_stk w t m) x serial_check fr (callback_arg (pcb w)) (Some p) ERR_OK = Ok (e, w', x') ->
      server_step serial_check fr (w, x) (Data d) (w', x')
  | sv_bad w x t m p d err e w' x' : recv (pcb w) = true -> delivers w t m p d -> err <> ERR_OK ->
      tcp_server_recv (set_stk w t m) x serial_check fr (callback_arg (pcb w)) (Some p) err = Ok (e, w', x') ->
      server_step serial_check fr (w, x) Bad (w', x')
  | sv_fin w x e w' x' : recv (pcb w) = true ->
      tcp_server_recv w x serial_check fr (callback_arg (pcb w)) None ERR_OK = Ok (e, w', x') ->
      server_step serial_check fr (w, x) Fin (w', x')
  | sv_sent w x e w' : sent (pcb w) = true -> tcp_server_sent w (callback_arg (pcb w)) = Ok (e, w') ->
      server_step serial_check fr (w, x) Sent (w', x)
  | sv_poll w x e w' : poll (pcb w) = true -> tcp_server_poll w (callback_arg (pcb w)) = Ok (e, w') ->
      server_step serial_check fr (w, x) Poll (w', x).

Inductive server_run serial_check fr : conn * application -> list event -> conn * application -> Prop :=
  | sv_nil s : server_run serial_check fr s [] s
  | sv_cons s1 e s2 evs s3 : server_step serial_check fr s1 e s2 -> server_run serial_check fr s2 evs s3 ->
      server_run serial_check fr s1 (e :: evs) s3.

(** The structure of the connection is allocated, in a state that is not
    ES_CLOSING, and the connection is open. *)
Definition stays (a : Z) w : Prop :=
  callback_arg (pcb w) = Some a /\ closed w = false /\ exists st p, tab w !! a = Some (Es st p) /\ st <> ES_CLOSING.

Lemma ref_opt_other w p w' : ref_opt w p = Ok w' -> tab w' = tab w /\ pcb w' = pcb w /\ closed w' = closed w.
Proof. destruct p as [p|]; cbn; [|by intros [= <-]]. intros E. destruct (let! b := get (pm w) p in _); [|done..]. by injection E as <-. Qed.

Lemma recved_other w n : tab (conn_recved w n) = tab w /\ pcb (conn_recved w n) = pcb w /\ closed (conn_recved w n) = closed w.
Proof. unfold conn_recved. by destruct (tcp_recved _ _ _). Qed.

Lemma send_loop_stays ack fuel w a w' : stays a w -> send_loop MEMP_PBUF MEMP_PBUF_POOL ack fuel w a = Ok w' -> stays a w'.
Proof.
  revert w. induction fuel as [|fuel IH]; intros w Hw E; [done|]. cbn [send_loop] in E.
  pose proof Hw as (Harg & Hcl & st & p & Ht & Hst). unfold es_get in E. rewrite Ht in E. cbn [obind es_p es_state] in E.
  destruct p as [ptr|]; [|by injection E as <-]. obinv E. destruct (len a0 <=? _); [|by injection E as <-]. obinv E.
  destruct (tcp_write _ _ _) as [[e t] m]. destruct (e =? ERR_OK).
  - obinv E. destruct a4 as [n m']. apply ref_opt_other in E3 as (Et & Ep & Ec). apply (IH _) in E; [done|].
    assert (Hs : stays a (set_pm a3 m')).
    { split; [by cbn; rewrite Ep|]. split; [by cbn; rewrite Ec|]. cbn. rewrite Et. exists st, (next a2). split; [apply lookup_insert_eq|done]. }
    destruct ack; [|done]. destruct (recved_other (set_pm a3 m') (len a2)) as (E5 & E6 & E7).
    unfold stays. by rewrite E5, E6, E7.
  - destruct (e =? ERR_MEM); injection E as <-; [|done]. split; [done|]. split; [done|]. exists st, (Some ptr). split; [apply lookup_insert_eq|done].
Qed.

Lemma continue_stays w a es w' : stays a w -> tab w !! a = Some es -> server_continue MEMP_PBUF MEMP_PBUF_POOL w a es = Ok w' -> stays a w'.
Proof.
  intros Hw Ht E. pose proof Hw as (_ & _ & st & p & Ht' & Hst). rewrite Ht in Ht'. injection Ht' as ->.
  unfold server_continue in E. cbn [es_p es_state] in E. destruct p; [by eapply send_loop_stays|].
  rewrite decide_False in E by done. by injection E as <-.
Qed.

Lemma stays_put a w st p : stays a w -> st <> ES_CLOSING -> stays a (es_put w a (Es st p)).
Proof. intros (H1 & H2 & _) Hst. split; [done|]. split; [done|]. exists st, p. split; [apply lookup_insert_eq|done]. Qed.

Lemma recv_stays w x serial_check fr a p err e w' x' :
  stays a w -> tcp_server_recv w x serial_check fr (Some a) (Some p) err = Ok (e, w', x') -> stays a w'.
Proof.
  intros Hw E. pose proof Hw as (_ & _ & st & p0 & Ht & Hst). unfold tcp_server_recv, es_deref, es_get in E.
  rewrite Ht in E. cbn [obind es_state es_p] in E. destruct (negb _).
  - unfold recv_failed in E. cbn [es_state] in E. destruct (pbuf_free _ _ _ _) as [[n m]| |]; try done. injection E as <- <- <-. by apply (stays_put a w).
  - destruct st; try done; cbn iota in E.
    + unfold recv_late in E. cbn [es_state] in E. destruct (get (pm w) p) as [b| |]; try done. cbn [obind] in E.
      destruct (pbuf_free _ _ _ _) as [[n m]| |]; try done. injection E as <- <- <-.
      destruct (recved_other w (tot_len b)) as (E5 & E6 & E7). apply (stays_put a (conn_recved w (tot_len b))); [|done].
      unfold stays. by rewrite E5, E6, E7.
    + unfold recv_first in E. destruct (server_send _ _ _ _) as [w1| |] eqn:Es; try done. injection E as <- <- <-.
      eapply send_loop_stays; [|exact Es]. by apply (stays_put a w).
    + unfold recv_late in E. cbn [es_state] in E. destruct (get (pm w) p) as [b| |]; try done. cbn [obind] in E.
      destruct (pbuf_free _ _ _ _) as [[n m]| |]; try done. injection E as <- <- <-.
      destruct (recved_other w (tot_len b)) as (E5 & E6 & E7). apply (stays_put a (conn_recved w (tot_len b))); [|done].
      unfold stays. by rewrite E5, E6, E7.
    + destruct p0 as [ptr|].
      * unfold recv_append in E. destruct (pbuf_chain _ _ _); try done. by injection E as <- <- <-.
      * destruct (get _ p) as [b| |]; [|discriminate E..]. cbn [obind] in E. destruct (read_serial _ _ _ _); [|discriminate E..].
        injection E as <- <- <-. exact (stays_put a w _ _ Hw Hst).
Qed.

Lemma step_stays serial_check fr a w x e w' x' :
  stays a w -> e <> Fin -> server_step serial_check fr (w, x) e (w', x') -> stays a w'.
Proof.
  intros Hw He Hs. pose proof Hw as (Harg & _ & st & p & Ht & _). inversion Hs; subst; try done; rewrite ?Harg in *.
  - by eapply recv_stays; [|eassumption].
  - by eapply recv_stays; [|eassumption].
  - match goal with E : tcp_server_sent _ _ = _ |- _ => unfold tcp_server_sent, server_sent, es_deref, es_get in E; rewrite Ht in E;
      cbn [obind] in E; obinv E; injection E as _ <- end. by eapply continue_stays.
  - match goal with E : tcp_server_poll _ _ = _ |- _ => unfold tcp_server_poll, server_poll, es_get in E; rewrite Ht in E;
      cbn [obind] in E; obinv E; injection E as _ <- end. by eapply continue_stays.
Qed.

(** Tcp_server.c never closes a connection on which data waits when the remote host closes its side. Unlike
    tcp_echoserver.c its receive callback does not set ES_CLOSING: it sends on, but whatever the engine calls afterwards
    (acknowledgements, polls, more packets; in any number), also when all the data has been sent, the connection stays open and
    its structure allocated. *)
Theorem tcp_server_half_closed (serial_check : list Z) (fr : gen_locals) (a : Z) (w w' : conn) (x x' : application) st p evs :
  callback_arg (pcb w) = Some a -> closed w = false -> tab w !! a = Some (Es st (Some p)) -> st <> ES_CLOSING ->
  server_run serial_check fr (w, x) (Fin :: evs) (w', x') -> Fin ∉ evs ->
  closed w' = false /\ exists st' p', tab w' !! a = Some (Es st' p') /\ st' <> ES_CLOSING.
Proof.
  intros Harg Hcl Ht Hst Hr Hf. assert (Hw : stays a w) by (split; [done|]; split; [done|]; eauto).
  inversion Hr as [|? ? [w1 x1] ? ? Hs Hr1]; subst.
  assert (Hw1 : stays a w1).
  { inversion Hs as [| | |? ? e ? ? Hrecv E| |]; subst. rewrite Harg in E. unfold tcp_server_recv, es_deref, es_get in E. rewrite Ht in E.
    cbn [obind es_state] in E. unfold recv_fin in E. cbn [es_p] in E. destruct (server_send _ _ _ _) as [w2| |] eqn:Es; try done.
    injection E as <- <- <-. eapply send_loop_stays; [|exact Es]. by apply (stays_put a w). }
  clear Hs Hr Hw Ht Harg Hcl. remember (w1, x1) as s1. remember (w', x') as s2. revert w1 x1 Heqs1 Hw1 Heqs2 Hf.
  induction Hr1 as [s|s1 e [w2 x2] evs s3 Hs Hr1 IH]; intros w1 x1 -> Hw1 E2 Hf.
  - injection E2 as <- <-. by destruct Hw1 as (_ & ? & ?).
  - apply not_elem_of_cons in Hf as [Hne Hf]. eapply IH; [done| |done|done]. by eapply step_stays.
Qed.
(** The line for the serial number: eleven characters before the text and
    three after it. *)
Lemma serial_line_format m t :
  cstring m = Ok t -> format ("Serial no: %s " +++ crlf) [AStr m] = Ok (codes "Serial no: " ++ t ++ [32; 13; 10]).
Proof.
  intros Hm. match goal with |- format ?s _ = _ => let v := eval vm_compute in s in change s with v end.
  cbn -[cstring Z.of_nat]. rewrite Hm. reflexivity.
Qed.

Lemma serial_line buf s rest :
  zlen buf = 100 -> Forall (fun c => c <> 0) s ->
  sprintf buf ("Serial no: %s " +++ crlf) [AStr (s ++ 0 :: rest)] =
  if zlen s <=? 85 then Ok ((codes "Serial no: " ++ s ++ [32; 13; 10]) ++ 0 :: drop (S (length (codes "Serial no: " ++ s ++ [32; 13; 10]))) buf)
  else UB.
Proof.
  intros Hb Hs. pose proof (serial_line_format _ _ (cstring_app s rest Hs)) as Hf.
  assert (Hl : zlen (codes "Serial no: " ++ s ++ [32; 13; 10]) = zlen s + 14).
  { rewrite !zlen_app. change (zlen [32; 13; 10]) with 3. change (zlen (codes "Serial no: ")) with 11. lia. }
  destruct (Z.leb_spec (zlen s) 85).
  - apply sprintf_ok; [done|]. lia.
  - eapply sprintf_ub; [done|]. lia.
Qed.

(** What the server does with a serial number, that is with a packet that arrives when the first one has been sent back. A
    text of more than 85 characters is written past the end of the local buffer. Otherwise nothing is sent back or
    acknowledged, the packet is kept, the number is stored, and a number that is not positive raises the error flag; for a
    positive one the report that carries it replaces the packet to post. *)
Theorem tcp_server_reads_serial (serial_check : list Z) (fr : gen_locals) (a : Z) w (x : application) p b s rest :
  tab w !! a = Some (Es ES_RECEIVED None) -> store (pm w) !! p = Some b ->
  payload_memory (pm w) b = s ++ 0 :: rest -> Forall (fun c => c <> 0) s -> zlen serial_check = 100 -> locals_ok fr ->
  if zlen s <=? 85 then
    forall n, str2int (s ++ 0 :: rest) = Ok n -> report_ok (set_serial (gl x) n) ->
    exists x', tcp_server_recv w x serial_check fr (Some a) (Some p) ERR_OK = Ok (ERR_OK, es_put w a (Es ES_RECEIVED (Some p)), x') /\
      usart3_out x' = usart3_out x ++ codes ("SYSTEM >> GET Serial" +++ crlf) /\ flag_server_accept x' = flag_server_accept x /\
      if n <=? 0 then gl x' = set_serial (gl x) n /\ flag_err_recv_serial x' = 1 /\ flag_recv_serial x' = flag_recv_serial x
      else flag_err_recv_serial x' = 0 /\ flag_recv_serial x' = 1 /\
        exists rest', gl x' = set_post (set_serial (gl x) n) (report_text (set_serial (gl x) n) ++ 0 :: rest')
  else tcp_server_recv w x serial_check fr (Some a) (Some p) ERR_OK = UB.
Proof.
  intros Ht Hp Hm Hs Hb Hfr. pose proof (serial_line serial_check s rest Hb Hs) as Hline.
  assert (E : tcp_server_recv w x serial_check fr (Some a) (Some p) ERR_OK =
    let! x := read_serial x (s ++ 0 :: rest) serial_check fr in Ok (ERR_OK, es_put w a (Es ES_RECEIVED (Some p)), x)).
  { unfold tcp_server_recv, es_deref, es_get. rewrite Ht. cbn [obind es_state es_p]. change (negb (ERR_OK =? ERR_OK)) with false.
    cbn iota. unfold get. cbn [pm es_put set_tab]. rewrite Hp. cbn [obind]. by rewrite <- Hm. }
  rewrite E. unfold read_serial. rewrite Hline. destruct (zlen s <=? 85); [|done]. cbn [obind]. intros n -> Hg. cbn [obind].
  destruct (n <=? 0).
  - cbn [obind]. eexists. split; [done|]. by split_and!.
  - destruct (json_Packet_Gen_report _ fr Hfr Hg) as (rest' & -> & _). cbn [obind]. eexists. split; [done|]. split_and!; try done. by exists rest'.
Qed.
End TcpServer.

(** ** A concrete connection: "abc" waits on it, see [TcpEcho] *)

Section Witnesses.
#[local] Existing Instance demo_stack.

Definition globals0 : globals := Globals 0 (Inf false) (Inf false) 0 0 0 0 0 0 [].
Definition app0 : application := App globals0 0 0 0 [].
Definition locals0 : gen_locals := Locals [] [] [] [] [] [].
Definition fin_conn : conn (H := memheap) (T := demo_tcp) := Eval vm_compute in
  match tcp_server_recv (memp_num := demo_num) 0 1 conn3 app0 [] locals0 (callback_arg (pcb conn3)) None ERR_OK with
  | Ok (_, w, _) => w
  | _ => conn3
  end.

Lemma tcp_server_half_closed_witness :
  exists a st p, callback_arg (pcb conn3) = Some a /\ closed fin_conn = false /\ tab fin_conn !! a = Some (Es st p) /\ st <> ES_CLOSING.
Proof.
  destruct (tcp_server_half_closed (memp_num := demo_num) 0 1 [] locals0 (match callback_arg (pcb conn3) with Some a => a | None => 0 end)
    conn3 fin_conn app0 app0 ES_RECEIVED (snd pk2) [Poll]) as (Hc & st & p & Ht & Hst).
  - vm_compute. reflexivity.
  - reflexivity.
  - vm_compute. reflexivity.
  - discriminate.
  - eapply sv_cons; [eapply sv_fin; [reflexivity|vm_compute; reflexivity]|].
    eapply sv_cons; [eapply (sv_poll _ _ _ _ _ _ ERR_OK); [reflexivity|vm_compute; reflexivity]|]. apply sv_nil.
  - intros [E|[]%elem_of_nil]%elem_of_cons. discriminate E.
  - eexists _, st, p. split; [reflexivity|]. split; [exact Hc|]. split; [exact Ht|exact Hst].
Defined.
(** A second packet "42" and a terminator, on a connection that waits for
    nothing. *)
Definition report_globals : globals :=
  Globals 1 (CStd.Fin false 11639194 (-20)) (Inf false) 2017 7 10 10 15 7 (replicate 300 0).
Definition report_locals : gen_locals :=
  Locals (replicate 300 0) (replicate 150 0) (replicate 40 0) (replicate 40 0) (replicate 40 0) (replicate 100 0).
Definition report_app : application := App report_globals 1 0 0 [].
Definition pk42 : conn (H := memheap) (T := demo_tcp) * pptr := Eval vm_compute in with_packet conn2 [52; 50; 0].

Lemma report_globals_ok n : - 2 ^ 31 <= n < 2 ^ 31 -> report_ok (set_serial report_globals n).
Proof.
  intros Hn. split; [|split; [split; [done|by vm_compute]|done]].
  split; cbn [set_post set_serial report_globals recv_serial iot_item_1 iot_item_2 RTC_year RTC_month RTC_day RTC_hour RTC_minute RTC_second
    post_packet]; try lia; done.
Qed.

Lemma tcp_server_reads_serial_witness :
  exists x', tcp_server_recv (memp_num := demo_num) 0 1 (fst pk42) report_app (replicate 100 0) report_locals
      (callback_arg (pcb (fst pk42))) (Some (snd pk42)) ERR_OK =
      Ok (ERR_OK, es_put (fst pk42) (match callback_arg (pcb (fst pk42)) with Some a => a | None => 0 end) (Es ES_RECEIVED (Some (snd pk42))), x') /\
    flag_recv_serial x' = 1 /\ exists rest, post_packet (gl x') = report_text (set_serial report_globals 42) ++ 0 :: rest.
Proof.
  destruct (store (pm (fst pk42)) !! snd pk42) as [b|] eqn:Eb; [|discriminate (ltac:(vm_compute in Eb; exact Eb))].
  assert (Hm : payload_memory (pm (fst pk42)) b = [52; 50] ++ 0 :: []).
  { vm_compute in Eb. injection Eb as <-. vm_compute. reflexivity. }
  pose proof (tcp_server_reads_serial (memp_num := demo_num) 0 1 (replicate 100 0) report_locals
    (match callback_arg (pcb (fst pk42)) with Some a => a | None => 0 end) (fst pk42) report_app (snd pk42) b [52; 50] []) as Hc.
  destruct (Hc ltac:(vm_compute; reflexivity) Eb Hm ltac:(by repeat constructor) eq_refl ltac:(by split_and!)
    42 ltac:(vm_compute; reflexivity) (report_globals_ok 42 ltac:(lia))) as (x' & E & _ & _ & _ & Hf & rest & Hg).
  exists x'. split; [exact E|]. split; [exact Hf|]. exists rest. by rewrite Hg.
Defined.

(** The body of the report is not the JSON it means to be: the object ends
    after its first member, and jsmn rejects what follows. *)
Lemma report_body_malformed :
  exists st t, jsmn_parse jsmn_init (report_body report_globals) (zlen (report_body report_globals))
    (Some (replicate 32 (Tok JSMN_UNDEFINED 0 0 0))) 32 = Ok (JSMN_ERROR_INVAL, st, t).
Proof. eexists _, _. vm_compute. reflexivity. Qed.
End Witnesses.
