(* ===== verification/TcpClient.v ===== *)
(** * The client: Project/Standalone/tcp_echo_client/src/tcp_echoclient.c

    The device connects to the server, posts its report and reads a serial
    number from the answer. Two entry points: [tcp_echoclient_connected]
    stores the request and leaves it to the poll timer,
    [tcp_echoclient_connected_sustained] sends at once. *)

From S2P Require Import Prelude CStd Json Mem Memp Pbuf TcpConn TcpEcho TcpServer.
From Stdlib Require String.
From stdpp Require Import gmap.
#[local] Open Scope Z_scope.

#[local] Infix "+++" := String.append (at level 60, right associativity).

(** The globals of the file beside those of the application. *)
Record client : Type := Client {
  ap : application;
  data : list Z;
  message_count : Z;
  Tcp_flag : Z;
  status_connection : Z;
}.

Definition set_ap (c : client) (x : application) : client := Client x (data c) (message_count c) (Tcp_flag c) (status_connection c).
Definition set_data (c : client) (d : list Z) : client := Client (ap c) d (message_count c) (Tcp_flag c) (status_connection c).
Definition set_Tcp_flag (c : client) (f : Z) : client := Client (ap c) (data c) (message_count c) f (status_connection c).
Definition set_status (c : client) (s : Z) : client := Client (ap c) (data c) (message_count c) (Tcp_flag c) s.
Definition set_message_count (c : client) (n : Z) : client := Client (ap c) (data c) n (Tcp_flag c) (status_connection c).

Definition check_request : String.string := "POST /check HTTP/1.1" +++ crlf +++ "Host: 192.168.1.27" +++ crlf +++ crlf.

(** tcp_echoclient_connect and its sustained form, up to the callback they
    register: [pcb] tells whether tcp_new returned one; the result, whether
    tcp_connect was called. *)
Definition tcp_echoclient_connect (c : client) (pcb : bool) : client * bool :=
  if negb (Tcp_flag c =? 0) then (c, false)
  else if pcb then (set_Tcp_flag c 1, true) else (c, false).

Section Client.
Context {H : Type} `{!RamHeap H} {memp_num : list Z} {T : Type} `{!TcpStack H memp_num T}.
Context (MEMP_PBUF MEMP_PBUF_POOL : Z).
Implicit Types (w : conn (H := H) (T := T)).

Definition tcp_echoclient_send w (a : Z) : outcome conn := send MEMP_PBUF MEMP_PBUF_POOL false w a.

Definition tcp_echoclient_connection_close w (es : option Z) : outcome conn :=
  let w := set_pcb w (tcp_recv (pcb w) false) in
  let w := set_pcb w (tcp_sent (pcb w) false) in
  let w := set_pcb w (tcp_poll (pcb w) false 0) in
  let! w := match es with Some a => es_free w a | None => Ok w end in
  Ok (conn_close w).

Definition tcp_echoclient_poll w (arg : option Z) : outcome (Z * conn) :=
  match arg with
  | Some a =>
      let! es := es_get w a in
      let! w :=
        match es_p es with
        | Some _ => tcp_echoclient_send w a
        | None => if decide (es_state es = ES_CLOSING) then tcp_echoclient_connection_close w (Some a) else Ok w
        end in
      Ok (ERR_OK, w)
  | None => Ok (ERR_ABRT, conn_abort w)
  end.

Definition tcp_echoclient_sent w (arg : option Z) : outcome (Z * conn) :=
  let! (a, es) := es_deref w arg in
  match es_p es with
  | Some _ => let! w := tcp_echoclient_send w a in Ok (ERR_OK, w)
  | None => Ok (ERR_OK, w)
  end.

(** The part the callbacks of a new connection have in common: the text in
    a chain of pool buffers becomes es->p_tx, and the callbacks are
    installed; [false] when there is no buffer. *)
Definition prepare w (a : Z) (st : echo_state) (text : list Z) : outcome (bool * conn) :=
  let! n := CStd.strlen text in
  let! (p, m) := pbuf_alloc memp_num MEMP_PBUF MEMP_PBUF_POOL (pm w) PBUF_TRANSPORT (u16 n) PBUF_POOL in
  let w := es_put (set_pm w m) a (Es st p) in
  match p with
  | Some p =>
      let! n := CStd.strlen text in
      let! (_, m) := pbuf_take (pm w) (Some p) (Some (Some <$> text)) (u16 n) in
      let w := set_pm w m in
      let w := set_pcb w (tcp_arg (pcb w) (Some a)) in
      let w := set_pcb w (tcp_recv (pcb w) true) in
      let w := set_pcb w (tcp_sent (pcb w) true) in
      let w := set_pcb w (tcp_poll (pcb w) true 1) in
      Ok (true, w)
  | None => Ok (false, w)
  end.

Definition tcp_echoclient_connected w (c : client) (err : Z) : outcome (Z * conn * client) :=
  if err =? ERR_OK then
    let! (es, m) := mem_malloc_es (pm w) 12 in
    let w := set_pm w m in
    match es with
    | Some a =>
        if negb (flag_err_recv_serial (ap c) =? 0) then
          let! data := sprintf (data c) check_request [] in
          let c := set_data c data in
          let! (_, w) := prepare w a ES_CONNECTED data in Ok (err, w, c)
        else let! (_, w) := prepare w a ES_CONNECTED (post_packet (gl (ap c))) in Ok (err, w, c)
    | None => let! w := tcp_echoclient_connection_close w None in Ok (ERR_MEM, w, c)
    end
  else let! w := tcp_echoclient_connection_close w None in Ok (err, w, c).

(** [junk] is the state in the memory mem_malloc returns: on a connection
    after the first, es->state is not set. *)
Definition tcp_echoclient_connected_sustained w (c : client) (junk : echo_state) (err : Z) : outcome (Z * conn * client) :=
  let failed (msg : String.string) w ret :=
    let c := set_ap c (USART3_log (ap c) (codes (msg +++ crlf))) in
    let! w := tcp_echoclient_connection_close w None in Ok (ret, w, set_status c 0) in
  if err =? ERR_OK then
    let! (es, m) := mem_malloc_es (pm w) 12 in
    let w := set_pm w m in
    match es with
    | Some a =>
        let first := status_connection c =? 0 in
        let! data := sprintf (data c) check_request [] in
        let c := set_data c data in
        let! (ok, w) := prepare w a (if first then ES_CONNECTED else junk) data in
        if ok then
          let! w := tcp_echoclient_send w a in
          Ok (ERR_OK, w, if first then set_status c 1 else c)
        else Ok (err, w, c)
    | None => failed ("ERROR >> Connection close e1" : String.string) w ERR_MEM
    end
  else failed ("ERROR >> Connection close e2" : String.string) w err.

(** A serial number: [mem] is the memory from the payload on,
    [serial_check] the local buffer of 100 bytes. *)
Definition client_serial w (x : application) (mem serial_check : list Z) (fr : gen_locals) (a : Z) (es : es_struct) : outcome (conn * application) :=
  let! line := sprintf serial_check ("Serial no: %s " +++ crlf) [AStr mem] in
  let! n := str2int mem in
  let g := set_serial (gl x) n in
  let! (w, x) :=
    if n <=? 0 then Ok (w, App g (flag_server_accept x) 1 (flag_recv_serial x) (usart3_out x))
    else
      let! (_, g) := json_Packet_Gen g fr in
      let x := App g (flag_server_accept x) 0 (flag_recv_serial x) (usart3_out x) in
      let! n := CStd.strlen (post_packet g) in
      let! (p, m) := pbuf_alloc memp_num MEMP_PBUF MEMP_PBUF_POOL (pm w) PBUF_TRANSPORT (u16 n) PBUF_POOL in
      let w := es_put (set_pm w m) a (Es (es_state es) p) in
      match p with
      | Some _ => let! w := tcp_echoclient_send w a in Ok (w, x)
      | None => Ok (w, x)
      end in
  let! s := cstring line in
  Ok (w, USART3_log x s).

Definition tcp_echoclient_recv w (c : client) (serial_check : list Z) (fr : gen_locals) (arg : option Z) (p : option pptr) (err : Z)
    : outcome (Z * conn * client) :=
  let! (a, es) := es_deref w arg in
  let c := set_Tcp_flag c 0 in
  match p with
  | None =>
      let w := es_put w a (Es ES_CLOSING (es_p es)) in
      let! w := match es_p es with
                | None => tcp_echoclient_connection_close w (Some a)
                | Some _ => tcp_echoclient_send w a
                end in
      Ok (ERR_OK, w, c)
  | Some p =>
      if negb (err =? ERR_OK) then
        let! (_, m) := pbuf_free MEMP_PBUF MEMP_PBUF_POOL (pm w) (Some p) in Ok (err, set_pm w m, c)
      else
        let! b := get (pm w) p in
        if decide (es_state es = ES_CONNECTED) then
          let c := set_message_count c (u32 (message_count c + 1)) in
          let w := conn_recved w (tot_len b) in
          let! b := get (pm w) p in
          let! (w, x) := client_serial w (ap c) (payload_memory (pm w) b) serial_check fr a es in
          let! (_, m) := pbuf_free MEMP_PBUF MEMP_PBUF_POOL (pm w) (Some p) in Ok (ERR_OK, set_pm w m, set_ap c x)
        else
          let w := conn_recved w (tot_len b) in
          let! (_, m) := pbuf_free MEMP_PBUF MEMP_PBUF_POOL (pm w) (Some p) in Ok (ERR_OK, set_pm w m, c)
  end.

(** ** The connection after the request is stored *)

(** What the engine does until an answer comes. *)
Inductive client_step : conn (H := H) (T := T) -> event -> conn -> Prop :=
  | cl_work w t m : works w t m -> client_step w Work (set_stk w t m)
  | cl_sent w e w' : sent (pcb w) = true -> tcp_echoclient_sent w (callback_arg (pcb w)) = Ok (e, w') -> client_step w Sent w'
  | cl_poll w e w' : poll (pcb w) = true -> tcp_echoclient_poll w (callback_arg (pcb w)) = Ok (e, w') -> client_step w Poll w'.

Inductive client_run : conn -> list event -> conn -> Prop :=
  | cl_nil w : client_run w [] w
  | cl_cons w1 e w2 evs w3 : client_step w1 e w2 -> client_run w2 evs w3 -> client_run w1 (e :: evs) w3.

Context (Hpool_lt : 0 <= MEMP_PBUF_POOL < zlen memp_num) (Hpbuf_lt : 0 <= MEMP_PBUF < zlen memp_num).

Definition installed (a : Z) w : Prop :=
  callback_arg (pcb w) = Some a /\ recv (pcb w) = true /\ sent (pcb w) = true /\ poll (pcb w) = true /\ closed w = false.

(** An open connection with its structure at [a]: [p], of the pbufs [l], is
    still to be sent; [roots] are the references of the others. *)
Definition client_ok (fr : list region) (roots : list pptr) (a : Z) w (st : echo_state) (p : option pptr) (l : list (pptr * pbuf)) : Prop :=
  (exists k, conn_ok ((a, k) :: fr) roots w a st p l) /\ installed a w.

Lemma client_send_ok fr roots a w st p l :
  client_ok fr roots a w st p l ->
  wp (tcp_echoclient_send w a) (fun w' => exists p' l', client_ok fr roots a w' st p' l' /\
    stream (stk w') ++ contents l' = stream (stk w) ++ contents l /\ (blocked w' l' \/ p' = None)).
Proof.
  intros ([k Hw] & Hin). eapply wp_mono; [exact (send_ok MEMP_PBUF MEMP_PBUF_POOL Hpool_lt Hpbuf_lt false _ _ _ _ _ _ _ Hw)|].
  intros w' (p' & l1 & l2 & l2' & -> & H2 & Hw' & Hb & Es & _ & Ep & Ec & _). exists p', l2'.
  destruct (same_but_refs_contents _ _ H2) as [Hcon _]. split; [split; [by exists k|unfold installed; by rewrite Ep, Ec]|].
  split; [by rewrite Es, Hcon, contents_app, app_assoc|by left].
Qed.

(** The chain pbuf_alloc returns, among the packets of others. *)
Definition new_packet (m m' : pstate (H := H)) (p : pptr) (n : Z) (l : list (pptr * pbuf)) : Prop :=
  chain (store m') (Some p) l None /\ tots l 0 /\ lens l = n /\
  Forall (fun x => (store m !! fst x = None /\ blank (snd x)) /\ (PBUF_POOL = PBUF_RAM \/ PBUF_POOL = PBUF_POOL -> own (snd x))) l.

Lemma client_alloc fr roots m n :
  minv memp_num fr m roots -> 0 <= n <= 65535 ->
  exists q m', pbuf_alloc memp_num MEMP_PBUF MEMP_PBUF_POOL m PBUF_TRANSPORT n PBUF_POOL = Ok (q, m') /\
    match q with
    | None => minv memp_num fr m' roots
    | Some p => minv memp_num fr m' (p :: roots) /\ store m ⊆ store m' /\ exists l, new_packet m m' p n l
    end.
Proof.
  intros Hi Hn.
  destruct (@alloc_pool_ok H (framed fr) memp_num MEMP_PBUF MEMP_PBUF_POOL Hpool_lt Hpbuf_lt m PBUF_TRANSPORT n roots Hi Hn)
    as (q & m' & E & _ & Hq).
  rewrite pbuf_alloc_framed in E. exists q, m'. split; [exact E|]. destruct q as [p|]; [|done]. by destruct Hq as (? & ? & ?).
Qed.

Lemma new_packet_pending m m' p n l : new_packet m m' p n l -> pending m' (Some p) l /\ contents l = replicate (Z.to_nat n) None.
Proof.
  intros (Hc & _ & Hl & Hf). assert (Ho : Forall (fun x => own (snd x)) l) by (eapply Forall_impl; [exact Hf|]; cbn; tauto).
  assert (Hb : Forall (fun x => blank (snd x)) l) by (eapply Forall_impl; [exact Hf|]; cbn; tauto).
  split.
  - split; [done|]. split; [done|]. destruct Hb as [|x l _ Hb]; [done|]. cbn. eapply Forall_impl; [exact Hb|]. intros y [E _]. cbn in *. lia.
  - destruct (contents_len _ Ho) as [Hcl _]. rewrite Hl in Hcl. rewrite <- Hcl. unfold zlen. rewrite Nat2Z.id.
    clear -Hb. induction Hb as [|[q b] l [_ Hb] _ IH]; [done|]. cbn. rewrite length_app, replicate_add, <- IH. f_equal.
    unfold bytes_of. cbn in Hb. destruct (payload b) as [|o|]; [done| |].
    + assert (Hf : Forall (eq None) (take (Z.to_nat (len b)) (drop (Z.to_nat o) (mem_bytes b)))) by by apply Forall_take, Forall_drop.
      revert Hf. generalize (take (Z.to_nat (len b)) (drop (Z.to_nat o) (mem_bytes b))). intros bs. induction 1 as [|? ? <- _ IHb]; [done|]. cbn. by f_equal.
    + done.
Qed.

Lemma same_shape_refs l l' :
  same_shape l l' -> Forall (fun x => ref (snd x) < 65535) (tail l) -> Forall (fun x => ref (snd x) < 65535) (tail l').
Proof.
  destruct 1 as [|x y k k' _ Hsh]; [done|]. cbn. clear x y.
  induction Hsh as [|x y k k' (_ & bs & E & _) _ IH]; intros Hr; [done|]. apply Forall_cons_1 in Hr as [Hx Hr]. constructor; [by rewrite E|auto].
Qed.

(** The request is stored. *)
Lemma prepare_ok fr roots a k w st s rest :
  minv memp_num ((a, k) :: fr) (pm w) (refs (stk w) ++ roots) -> closed w = false ->
  Forall (fun c => c <> 0) s -> zlen s <= 65535 ->
  wp (prepare w a st (s ++ 0 :: rest)) (fun r => stk (snd r) = stk w /\
    if fst r then exists p l, client_ok fr roots a (snd r) st p l /\ contents l = Some <$> s
    else minv memp_num ((a, k) :: fr) (pm (snd r)) (refs (stk w) ++ roots) /\ pcb (snd r) = pcb w /\ closed (snd r) = false).
Proof.
  intros Hi Hcl Hs Hl. pose proof (zlen_nonneg s). unfold prepare. rewrite strlen_app by done. cbn [obind]. rewrite u16_small by lia.
  destruct (client_alloc _ _ _ (zlen s) Hi) as (q & m & -> & Hq); [lia|]. cbn [obind].
  destruct q as [p|]; [|by apply wp_ret]. destruct Hq as (Hi1 & _ & l & Hnew).
  pose proof Hnew as (Hc & Hts & Hlen & Hf).
  destruct (@pbuf_take_fills H (framed ((a, k) :: fr)) memp_num (pm w) m p PBUF_POOL (zlen s) (Some <$> s ++ 0 :: rest) l Hc Hts Hlen Hf)
    as (m2 & l' & E & Hc' & Hsh & Hcon & Hinv); [by right|lia|unfold zlen; rewrite length_fmap, length_app; lia|].
  cbn [pm es_put set_tab set_pm]. assert (E' : pbuf_take m (Some p) (Some (Some <$> s ++ 0 :: rest)) (zlen s) = Ok (ERR_OK, m2)) by exact E.
  rewrite E'. cbn [obind]. apply wp_ret. split; [done|]. cbn [fst snd]. exists (Some p), l'. split; [split|].
  - exists k. split; [apply lookup_insert_eq|]. split.
    + specialize (Hinv (p :: refs (stk w) ++ roots) Hi1). eapply minv_perm; [|exact Hinv]. cbn [stk set_pm set_pcb es_put set_tab]. solve_perm.
    + destruct (same_shape_lens _ _ Hsh) as (_ & _ & Ho). split; [done|]. split; [done|].
      apply (same_shape_refs _ _ Hsh). by eapply new_packet_pending.
  - done.
  - rewrite Hcon. rewrite fmap_app. rewrite take_app_le by (unfold zlen; rewrite length_fmap; lia).
    apply take_ge. unfold zlen. rewrite length_fmap. lia.
Qed.
Lemma client_close_none fr roots w :
  minv memp_num fr (pm w) (refs (stk w) ++ roots) ->
  exists w', tcp_echoclient_connection_close w None = Ok w' /\ minv memp_num fr (pm w') (refs (stk w') ++ roots) /\
    closed w' = true /\ recv (pcb w') = false /\ sent (pcb w') = false /\ poll (pcb w') = false /\ stream (stk w') = stream (stk w).
Proof.
  intros Hi. unfold tcp_echoclient_connection_close, conn_close. cbn [obind pm stk set_pcb].
  destruct (tcp_close (stk w) (pm w)) as [[e t] m] eqn:E. destruct (tcp_close_ok _ _ _ _ _ E) as [Hq Es].
  eexists. split; [done|]. split; [by apply Hq|]. by split_and!.
Qed.

(** The pending data of the connection, whatever the engine does. *)
Lemma client_step_ok fr roots a w st p l e w' :
  client_ok fr roots a w st p l -> st <> ES_CLOSING -> client_step w e w' ->
  exists p' l', client_ok fr roots a w' st p' l' /\ stream (stk w') ++ contents l' = stream (stk w) ++ contents l.
Proof.
  intros Hw Hst Hs. pose proof Hw as ([k Hk] & Harg & Hin). pose proof Hk as (Ht & _). destruct Hs as [w t m [Hq Es]|w e w' _ E|w e w' _ E].
  - exists p, l. split; [|by cbn; rewrite Es]. split; [|done]. exists k. by apply conn_ok_quiet.
  - rewrite Harg in E. unfold tcp_echoclient_sent, es_deref, es_get in E. rewrite Ht in E. cbn [obind es_p] in E.
    destruct p as [p|]; [|injection E as _ <-; by exists None, l].
    pose proof (client_send_ok _ _ _ _ _ _ _ Hw) as Hs. destruct (tcp_echoclient_send w a) as [w1| |]; try done.
    injection E as _ <-. destruct Hs as (p' & l' & ? & ? & _). by exists p', l'.
  - rewrite Harg in E. unfold tcp_echoclient_poll, es_get in E. rewrite Ht in E. cbn [obind es_p es_state] in E.
    destruct p as [p|].
    + pose proof (client_send_ok _ _ _ _ _ _ _ Hw) as Hs. destruct (tcp_echoclient_send w a) as [w1| |]; try done.
      injection E as _ <-. destruct Hs as (p' & l' & ? & ? & _). by exists p', l'.
    + rewrite decide_False in E by done. injection E as _ <-. by exists None, l.
Qed.

Lemma client_run_ok fr roots a w st p l evs w' :
  client_ok fr roots a w st p l -> st <> ES_CLOSING -> client_run w evs w' ->
  exists p' l', client_ok fr roots a w' st p' l' /\ stream (stk w') ++ contents l' = stream (stk w) ++ contents l.
Proof.
  intros Hw Hst Hr. revert p l Hw. induction Hr as [w|w1 e w2 evs w3 Hs _ IH]; intros p l Hw; [by exists p, l|].
  destruct (client_step_ok _ _ _ _ _ _ _ _ _ Hw Hst Hs) as (p1 & l1 & Hw1 & E1).
  destruct (IH p1 l1 Hw1) as (p2 & l2 & Hw2 & E2). exists p2, l2. split; [done|]. by rewrite E2.
Qed.

(** What the device posts: the check request after a bad serial number, the
    report otherwise. *)
Definition request_text (c : client) (report : list Z) : list Z :=
  if negb (flag_err_recv_serial (ap c) =? 0) then codes check_request else report.

Lemma check_request_format d :
  zlen d = 100 -> sprintf d check_request [] = Ok (codes check_request ++ 0 :: drop (S (length (codes check_request))) d).
Proof. intros Hd. apply sprintf_ok; [by vm_compute|rewrite Hd; by vm_compute]. Qed.

Lemma check_request_nonzero : Forall (fun c => c <> 0) (codes check_request).
Proof. vm_compute codes. by repeat constructor. Qed.

(** C31: the request of a connection. tcp_echoclient_connected sends nothing. If there is no structure for the connection it is
    closed, with ERR_MEM and its memory in order. If there is no buffer for the request it returns success: the structure
    stays allocated, nothing refers to it and no callback is installed. Otherwise the request (the report, or the check request
    after a bad serial number) is stored, and whatever the engine calls until an answer comes, what has been sent and what is
    pending together are the request: it goes out once, complete and in order. *)
Theorem tcp_echoclient_requests fr roots w (c : client) report rest :
  minv memp_num fr (pm w) (refs (stk w) ++ roots) -> closed w = false -> zlen (data c) = 100 ->
  post_packet (gl (ap c)) = report ++ 0 :: rest -> Forall (fun c => c <> 0) report -> zlen report <= 65535 ->
  exists e w' c', tcp_echoclient_connected w c ERR_OK = Ok (e, w', c') /\ stream (stk w') = stream (stk w) /\
    ((e = ERR_MEM /\ closed w' = true /\ recv (pcb w') = false /\ sent (pcb w') = false /\ poll (pcb w') = false /\
        minv memp_num fr (pm w') (refs (stk w') ++ roots)) \/
     (e = ERR_OK /\ pcb w' = pcb w /\ closed w' = false /\ exists a k, minv memp_num ((a, k) :: fr) (pm w') (refs (stk w') ++ roots)) \/
     (e = ERR_OK /\ exists a, forall evs w2, client_run w' evs w2 -> exists p l, client_ok fr roots a w2 ES_CONNECTED p l /\
        stream (stk w2) ++ contents l = stream (stk w) ++ (Some <$> request_text c report))).
Proof.
  intros Hi Hcl Hd Hpost Hs Hl. unfold tcp_echoclient_connected. change (ERR_OK =? ERR_OK) with true. cbn iota.
  destruct (mem_malloc_es_ok memp_num fr (pm w) _ 12 Hi) as (es & m & -> & _ & Hm); [lia|]. cbn [obind].
  destruct es as [a|].
  2:{ destruct (client_close_none fr roots (set_pm w m) Hm) as (w' & -> & ? & ? & ? & ? & ? & ?). cbn [obind].
      exists ERR_MEM, w', c. split; [done|]. split; [done|]. left. by split_and!. }
  destruct Hm as [k Hm].
  assert (Hgen : forall text tl, Forall (fun c => c <> 0) text -> zlen text <= 65535 -> request_text c report = text ->
    exists b w', prepare (set_pm w m) a ES_CONNECTED (text ++ 0 :: tl) = Ok (b, w') /\ stream (stk w') = stream (stk w) /\
    ((pcb w' = pcb w /\ closed w' = false /\ exists a k, minv memp_num ((a, k) :: fr) (pm w') (refs (stk w') ++ roots)) \/
     exists a, forall evs w2, client_run w' evs w2 -> exists p l, client_ok fr roots a w2 ES_CONNECTED p l /\
        stream (stk w2) ++ contents l = stream (stk w) ++ (Some <$> request_text c report))).
  { intros text tl Ht Htl ->. pose proof (prepare_ok fr roots a k (set_pm w m) ES_CONNECTED text tl Hm Hcl Ht Htl)
      as ([b w'] & E & Ek & Hb)%wp_ok. cbn [fst snd] in *. exists b, w'. split; [done|]. split; [by rewrite Ek|]. destruct b.
    - right. exists a. intros evs w2 Hr. destruct Hb as (p & l & Hw & Hcon).
      destruct (client_run_ok _ _ _ _ _ _ _ _ _ Hw ltac:(done) Hr) as (p2 & l2 & Hw2 & E2). exists p2, l2. split; [done|].
      by rewrite E2, Ek, Hcon.
    - left. destruct Hb as (Hi' & ? & ?). split_and!; try done. exists a, k. by rewrite Ek. }
  unfold request_text in *. destruct (negb _).
  - rewrite check_request_format by done. cbn [obind].
    destruct (Hgen (codes check_request) (drop (S (length (codes check_request))) (data c))) as (b & w' & -> & ? & Hcase);
      [apply check_request_nonzero|by vm_compute|done|]. cbn [obind].
    eexists _, w', _. split; [done|]. split; [done|]. right. by destruct Hcase; [left|right].
  - rewrite Hpost. destruct (Hgen report rest) as (b & w' & -> & ? & Hcase); [done..|]. cbn [obind].
    eexists _, w', _. split; [done|]. split; [done|]. right. by destruct Hcase; [left|right].
Qed.
(** Packets of others, and their memory, after tcp_recved. *)
Lemma client_recved fr roots w a st p l q b l2 n :
  conn_ok fr (q :: roots) w a st p l -> chain (store (pm w)) (Some q) ((q, b) :: l2) None ->
  let w' := conn_recved w n in
  conn_ok fr (q :: roots) w' a st p l /\ store (pm w') !! q = Some b /\ stream (stk w') = stream (stk w) /\
  pcb w' = pcb w /\ closed w' = closed w.
Proof.
  intros Hw Hc w'. destruct (conn_ok_recved _ _ _ _ _ _ _ n Hw) as (Hw' & Es & _ & Ep & Ec & _). split; [done|].
  split; [|by split_and!]. subst w'. unfold conn_recved in *. destruct (tcp_recved (stk w) (pm w) n) as [t m] eqn:E.
  destruct (tcp_recved_ok _ _ _ _ _ E) as (Hq & _). destruct Hw as (_ & Hi & _).
  destruct (Hq _ _ Hi) as [_ Hs]. apply (Hs q ((q, b) :: l2)); [|done]. apply elem_of_app. right. by left.
Qed.

(** es->p_tx is overwritten with a new packet of [n] bytes, none of them
    written, and sent. *)
Lemma client_post fr roots w a st p l n :
  client_ok fr roots a w st p l -> 0 <= n <= 65535 ->
  exists q m, pbuf_alloc memp_num MEMP_PBUF MEMP_PBUF_POOL (pm w) PBUF_TRANSPORT n PBUF_POOL = Ok (q, m) /\
    wp (match q with
        | Some _ => tcp_echoclient_send (es_put (set_pm w m) a (Es st q)) a
        | None => Ok (es_put (set_pm w m) a (Es st q))
        end)
      (fun w' => exists p' l' j, client_ok fr (olist p ++ roots) a w' st p' l' /\
        stream (stk w') ++ contents l' = stream (stk w) ++ replicate j None /\ (j = 0%nat \/ j = Z.to_nat n)).
Proof.
  intros ([k (Ht & Hi & Hp)] & Hin) Hn. destruct (client_alloc _ _ _ n Hi Hn) as (q & m & E & Hq). exists q, m. split; [done|].
  destruct q as [q|].
  - destruct Hq as (Hi' & _ & l2 & Hnew). destruct (new_packet_pending _ _ _ _ _ Hnew) as [Hp2 Hcon].
    eapply wp_mono.
    + apply (client_send_ok fr (olist p ++ roots) a _ st (Some q) l2). split; [|done]. exists k. split; [apply lookup_insert_eq|].
      split; [|done]. eapply minv_perm; [|exact Hi']. cbn [pm stk es_put set_tab set_pm]. solve_perm.
    + intros w' (p' & l' & Hw' & Es & _). exists p', l', (Z.to_nat n). split; [done|]. split; [by rewrite Es, Hcon|by right].
  - apply wp_ret. exists None, [], 0%nat. split; [|by split; [|left]]. split; [|done]. exists k. split; [apply lookup_insert_eq|].
    split; [|by split_and!]. eapply minv_perm; [|exact Hq]. cbn [pm stk es_put set_tab set_pm]. solve_perm.
Qed.

(** The packet that was handed over is freed. *)
Lemma client_free fr roots w a st p l q :
  client_ok fr (q :: roots) a w st p l ->
  exists n m l', pbuf_free MEMP_PBUF MEMP_PBUF_POOL (pm w) (Some q) = Ok (n, m) /\
    client_ok fr roots a (set_pm w m) st p l' /\ contents l' = contents l.
Proof.
  intros ([k (Ht & Hi & Hp)] & Hin).
  assert (Hi' : minv memp_num ((a, k) :: fr) (pm w) (q :: refs (stk w) ++ olist p ++ roots)) by (eapply minv_perm; [|exact Hi]; solve_perm).
  destruct (minv_free MEMP_PBUF MEMP_PBUF_POOL Hpool_lt Hpbuf_lt _ _ _ _ Hi') as (n & m & -> & Hm & Hrel).
  destruct (pending_released (memp_num := memp_num) ((a, k) :: fr) (pm w) m p l (refs (stk w) ++ roots)) as (l' & Hp' & Hcon);
    [eapply minv_perm; [|exact Hm]; solve_perm|done..|].
  exists n, m, l'. split; [done|]. split; [|done]. split; [|done]. by exists k.
Qed.

(** The answer of the client is not its report. A packet with a positive serial number is acknowledged, the number is stored
    and the report is composed; but the report is never copied into the buffer that is then sent. If there is a buffer, as
    many bytes as the report has go out (or wait), and each of them is one the buffer happened to hold, never written since it
    was allocated; what was still to be sent of the request is dropped, and its pbufs are never freed. *)
Theorem tcp_echoclient_answers fr roots a w (c : client) p l (serial_check : list Z) (frm : gen_locals) t m q d b s rest n :
  client_ok fr roots a w ES_CONNECTED p l -> delivers w t m q d -> store m !! q = Some b ->
  payload_memory m b = s ++ 0 :: rest -> Forall (fun c => c <> 0) s -> zlen s <= 85 -> zlen serial_check = 100 ->
  str2int (s ++ 0 :: rest) = Ok n -> 0 < n -> locals_ok frm -> report_ok (set_serial (gl (ap c)) n) ->
  let report := report_text (set_serial (gl (ap c)) n) in
  exists w' c', tcp_echoclient_recv (set_stk w t m) c serial_check frm (callback_arg (pcb w)) (Some q) ERR_OK = Ok (ERR_OK, w', c') /\
    flag_err_recv_serial (ap c') = 0 /\ (exists rest', post_packet (gl (ap c')) = report ++ 0 :: rest') /\
    exists p' l' j, client_ok fr (olist p ++ roots) a w' ES_CONNECTED p' l' /\
      stream (stk w') ++ contents l' = stream (stk w) ++ replicate j None /\ (j = 0%nat \/ j = length report).
Proof.
  intros ([k Hw] & Hin) Hd Hq Hmem Hs Hl Hbuf Hn Hpos Hfr Hrep report.
  destruct (conn_delivers _ _ _ _ _ _ _ _ _ _ _ Hw Hd) as (Hw1 & Es & b0 & l2 & Hcq & Ho & _).
  pose proof Hcq as (_ & Hq0 & _). rewrite Hq in Hq0. injection Hq0 as <-. apply Forall_cons_1 in Ho as [Hob _]. cbn [snd] in Hob.
  destruct (client_recved _ _ _ _ _ _ _ _ _ _ (tot_len b) Hw1 Hcq) as (Hw2 & Hq2 & Es2 & Ep2 & Ec2).
  set (w2 := conn_recved (set_stk w t m) (tot_len b)) in *. pose proof Hin as (Harg & _). rewrite Harg.
  assert (Hc2 : client_ok fr (q :: roots) a w2 ES_CONNECTED p l).
  { split; [by exists k|]. unfold installed. by rewrite Ep2, Ec2. }
  destruct (json_Packet_Gen_report _ frm Hfr Hrep) as (rest' & Egen & Hr0 & Hrl & _). fold report in Egen, Hr0, Hrl. pose proof (zlen_nonneg report).
  destruct (client_post fr (q :: roots) w2 a ES_CONNECTED p l (zlen report) Hc2) as (q3 & m3 & Ealloc & Hpost); [lia|].
  apply wp_ok in Hpost as (w3 & Esend & p3 & l3 & j & Hw3 & Es3 & Hj).
  assert (Hw3' : client_ok fr (q :: olist p ++ roots) a w3 ES_CONNECTED p3 l3).
  { destruct Hw3 as ([k3 (Ht3 & Hi3 & Hp3)] & Hin3). split; [|done]. exists k3. split; [done|]. split; [|done].
    eapply minv_perm; [|exact Hi3]. solve_perm. }
  destruct (client_free _ _ _ _ _ _ _ _ Hw3') as (n4 & m4 & l4 & Efree & Hw4 & Hcon4).
  pose proof Hw as (Ht & _). unfold tcp_echoclient_recv, es_deref, es_get. cbn [tab set_stk]. rewrite Ht. cbn [obind].
  change (negb (ERR_OK =? ERR_OK)) with false. cbn iota. unfold get. cbn [pm set_stk]. rewrite Hq. cbn [obind es_state].
  rewrite decide_True by done. fold w2. rewrite Hq2. cbn [obind].
  assert (Hm2 : payload_memory (pm w2) b = s ++ 0 :: rest).
  { rewrite <- Hmem. unfold payload_memory. unfold own in Hob. by destruct (payload b). }
  rewrite Hm2. unfold client_serial. cbn [ap set_message_count set_Tcp_flag].
  rewrite (serial_line serial_check s rest Hbuf Hs). destruct (Z.leb_spec (zlen s) 85); [|lia]. cbn [obind]. rewrite Hn. cbn [obind].
  destruct (Z.leb_spec n 0); [lia|]. rewrite Egen. cbn [obind post_packet set_post gl]. rewrite strlen_app by done. cbn [obind].
  rewrite u16_small by lia. rewrite Ealloc. cbn [obind es_state].
  assert (Hline : Forall (fun c => c <> 0) (codes "Serial no: " ++ s ++ [32; 13; 10])).
  { apply Forall_app_2; [vm_compute codes; by repeat constructor|]. apply Forall_app_2; [done|by repeat constructor]. }
  destruct q3 as [q3|]; [rewrite Esend|injection Esend as ->]; cbn [obind]; rewrite cstring_app by done; cbn [obind]; rewrite Efree; cbn [obind].
  all: eexists _, _; split; [done|]; split; [done|]; split; [by exists rest'|]; exists p3, l4, j; split; [done|].
  all: unfold zlen in Hj; rewrite Nat2Z.id in Hj; split; [|exact Hj]; rewrite Hcon4, <- Es; exact (eq_trans Es3 (f_equal (fun z => z ++ _) Es2)).
Qed.
End Client.

(** ** A concrete connection *)

Section Witnesses.
#[local] Existing Instance demo_stack.
Abbreviation dconn := (conn (H := memheap) (T := demo_tcp)).

(** After a bad serial number the check request is stored; then "42" and a
    terminator arrive. *)
Definition client0 : client := Client (App report_globals 1 1 0 []) (replicate 100 0) 0 1 0.
Definition client_conn : dconn := Eval vm_compute in
  match tcp_echoclient_connected (memp_num := demo_num) 0 1 conn0 client0 ERR_OK with Ok (_, w, _) => w | _ => conn0 end.
Definition client_addr : Z := match callback_arg (pcb client_conn) with Some a => a | None => 0 end.
Definition answer : dconn * pptr := Eval vm_compute in with_packet client_conn [52; 50; 0].

Lemma client_conn_ok : exists p l, client_ok (memp_num := demo_num) [] [] client_addr client_conn ES_CONNECTED p l.
Proof.
  destruct (mem_malloc_es_ok demo_num [] (pm conn0) _ 12 demo_minv) as (es & m & E & _ & Hm); [lia|].
  destruct es as [a|]; [|vm_compute in E; discriminate E]. destruct Hm as [k Hm].
  pose proof (prepare_ok 0 1 (proj1 demo_bounds) (proj2 demo_bounds) [] [] a k (set_pm conn0 m) ES_CONNECTED (codes check_request)
    (drop (S (length (codes check_request))) (data client0)) Hm eq_refl check_request_nonzero ltac:(by vm_compute)) as ([b w'] & Ep & _ & Hw)%wp_ok.
  vm_compute in E. injection E as <- <-. vm_compute in Ep. injection Ep as <- <-.
  destruct Hw as (p & l & Hw & _). exists p, l. exact Hw.
Qed.

Lemma tcp_echoclient_requests_witness :
  exists e w' c', tcp_echoclient_connected (memp_num := demo_num) 0 1 conn0 client0 ERR_OK = Ok (e, w', c') /\ out (stk w') = [].
Proof.
  destruct (tcp_echoclient_requests 0 1 (proj1 demo_bounds) (proj2 demo_bounds) [] [] conn0 client0 [] (replicate 299 0) demo_minv)
    as (e & w' & c' & E & Es & _); [reflexivity|reflexivity|reflexivity|constructor|by vm_compute|].
  exists e, w', c'. split; [exact E|exact Es].
Defined.

Lemma tcp_echoclient_answers_witness :
  exists e w' c', tcp_echoclient_recv (memp_num := demo_num) 0 1 (fst answer) client0 (replicate 100 0) report_locals
      (callback_arg (pcb client_conn)) (Some (snd answer)) ERR_OK = Ok (e, w', c') /\ flag_err_recv_serial (ap c') = 0.
Proof.
  destruct client_conn_ok as (p & l & Hw). destruct (store (pm (fst answer)) !! snd answer) as [b|] eqn:Eb;
    [|discriminate (ltac:(vm_compute in Eb; exact Eb))].
  assert (Hd : delivers (memp_num := demo_num) client_conn (stk client_conn) (pm (fst answer)) (snd answer) (Some <$> [52; 50; 0])).
  { eapply demo_delivers; [| exact Eb| | | | | ]; vm_compute in Eb; injection Eb as <-; vm_compute; reflexivity || discriminate. }
  assert (Hm : payload_memory (pm (fst answer)) b = [52; 50] ++ 0 :: []).
  { vm_compute in Eb. injection Eb as <-. vm_compute. reflexivity. }
  destruct (tcp_echoclient_answers 0 1 (proj1 demo_bounds) (proj2 demo_bounds) [] [] client_addr client_conn client0 p l
    (replicate 100 0) report_locals (stk client_conn) (pm (fst answer)) (snd answer) (Some <$> [52; 50; 0]) b [52; 50] [] 42 Hw Hd Eb Hm
    ltac:(by repeat constructor) ltac:(by vm_compute) eq_refl ltac:(vm_compute; reflexivity) ltac:(lia) ltac:(by split_and!)
    (report_globals_ok 42 ltac:(lia))) as (w' & c' & E & Hf & _).
  exists ERR_OK, w', c'. split; [exact E|exact Hf].
Defined.
End Witnesses.
