(* ===== verification/Etharp.v ===== *)
(** * Address resolution: src/Utilities/lwip_v1.3.2/src/netif/etharp.c

    The ARP table with the packet each pending entry holds, the functions
    that search, age, fill and use it, and the ARP messages of the device,
    byte for byte. A packet is a value: a chain of pbufs with their bytes
    ([Pbuf] has the store and the copies). The memory and the driver answer
    as they like ([lower]). The configuration is that of
    working/inc/lwipopts.h: one packet per entry (ARP_QUEUEING 0), no static
    entries, no hints; LWIP_DEBUG is defined there (as 0), so that
    etharp_free_entry clears an entry. A failed LWIP_ASSERT is [UB]. *)

From S2P Require Import Prelude CStd IpAddr Checksum Pbuf.

(** ** Configuration: etharp.c, etharp.h, ip_addr.h *)

Definition ERR_BUF : Z := -2.
Definition ERR_RTE : Z := -4.

Definition ARP_TABLE_SIZE : Z := 10.
Definition ARP_MAXAGE : Z := 240.
Definition ARP_AGE_REREQUEST_USED : Z := ARP_MAXAGE - 12.
Definition ARP_MAXPENDING : Z := 2.
Definition HWTYPE_ETHERNET : Z := 1.
Definition ETHARP_HWADDR_LEN : Z := 6.
Definition SIZEOF_ETH_HDR : Z := 14.
Definition SIZEOF_ETHARP_HDR : Z := 28.
Definition SIZEOF_ETHARP_PACKET : Z := SIZEOF_ETH_HDR + SIZEOF_ETHARP_HDR.
Definition ETHTYPE_ARP : Z := 0x0806.
Definition ETHTYPE_IP : Z := 0x0800.
Definition ARP_REQUEST : Z := 1.
Definition ARP_REPLY : Z := 2.
Definition ETHARP_FLAG_TRY_HARD : Z := 1.
Definition ETHARP_FLAG_FIND_ONLY : Z := 2.
Definition ethbroadcast : list Z := [0xff; 0xff; 0xff; 0xff; 0xff; 0xff].
Definition ethzero : list Z := [0; 0; 0; 0; 0; 0].

Definition ip_addr_cmp (addr1 addr2 : Z) : bool := addr1 =? addr2.
Definition ip_addr_isany (addr : Z) : bool := addr =? IPADDR_ANY.
Definition ip_addr_ismulticast (addr : Z) : bool :=
  Z.land addr (lwip_htonl 0xf0000000) =? lwip_htonl 0xe0000000.
Definition ip_addr_islinklocal (addr : Z) : bool :=
  Z.land addr (lwip_htonl 0xffff0000) =? lwip_htonl 0xa9fe0000.
Definition eth_addr_cmp (a1 a2 : list Z) : bool := bool_decide (a1 = a2).

(** ** Structures in packets

    A structure that is laid over the bytes of a packet; 16-bit fields are
    what the processor loads (little endian). *)

Definition load16 (bs : list Z) (i : Z) : outcome Z :=
  let! a := rd bs i in let! b := rd bs (i + 1) in Ok (a + 256 * b).
Definition store16 (v : Z) : list Z := [v mod 256; v / 256 mod 256].
Definition load32 (bs : list Z) (i : Z) : outcome Z :=
  let! a := load16 bs i in let! b := load16 bs (i + 2) in Ok (a + 2 ^ 16 * b).

Record eth_hdr : Type := EthHdr { eth_dest : list Z; eth_src : list Z; eth_type : Z }.

Definition eth_hdr_at (bs : list Z) : outcome eth_hdr :=
  let! d := slice bs 0 6 in let! s := slice bs 6 6 in let! t := load16 bs 12 in Ok (EthHdr d s t).
Definition eth_hdr_bytes (h : eth_hdr) : list Z := eth_dest h ++ eth_src h ++ store16 (eth_type h).

Record etharp_hdr : Type := EtharpHdr {
  hwtype : Z; proto : Z; hwlen : Z; protolen : Z; opcode : Z;
  shwaddr : list Z; sipaddr : Z; dhwaddr : list Z; dipaddr : Z;
}.

Definition etharp_hdr_at (bs : list Z) (o : Z) : outcome etharp_hdr :=
  let! ht := load16 bs o in
  let! pr := load16 bs (o + 2) in
  let! hl := rd bs (o + 4) in
  let! pl := rd bs (o + 5) in
  let! op := load16 bs (o + 6) in
  let! sh := slice bs (o + 8) 6 in
  let! si := load32 bs (o + 14) in
  let! dh := slice bs (o + 18) 6 in
  let! di := load32 bs (o + 24) in
  Ok (EtharpHdr ht pr hl pl op sh si dh di).
Definition etharp_hdr_bytes (h : etharp_hdr) : list Z :=
  store16 (hwtype h) ++ store16 (proto h) ++ [hwlen h; protolen h] ++ store16 (opcode h) ++
  shwaddr h ++ word_bytes (sipaddr h) ++ dhwaddr h ++ word_bytes (dipaddr h).

(** ** Data *)

(** A packet: the identity of its first pbuf, the chain, the bytes that
    pbuf_header can move over for an Ethernet header ([None]: there is no
    room for it), the flags. *)
Record packet : Type := Packet {
  pk_id : Z;
  pk_chain : list (pbuf_type * list Z);
  pk_room : option (list Z);
  pk_flags : Z;
}.

Definition chain_bytes (c : list (pbuf_type * list Z)) : list Z := concat (map snd c).
Definition tot_len (c : list (pbuf_type * list Z)) : Z := zlen (chain_bytes c).

Inductive etharp_state : Type :=
  | ETHARP_STATE_EMPTY
  | ETHARP_STATE_PENDING
  | ETHARP_STATE_STABLE
  | ETHARP_STATE_STABLE_REREQUESTING.

#[export] Instance etharp_state_eq_dec : EqDecision etharp_state.
Proof. solve_decision. Defined.

(** state >= ETHARP_STATE_STABLE *)
Definition is_stable (s : etharp_state) : bool :=
  match s with ETHARP_STATE_STABLE | ETHARP_STATE_STABLE_REREQUESTING => true | _ => false end.
Definition is_empty (s : etharp_state) : bool := match s with ETHARP_STATE_EMPTY => true | _ => false end.
(** state == ETHARP_STATE_STABLE and so on. *)
Definition is_STABLE (s : etharp_state) : bool := match s with ETHARP_STATE_STABLE => true | _ => false end.
Definition is_rerequesting (s : etharp_state) : bool := match s with ETHARP_STATE_STABLE_REREQUESTING => true | _ => false end.
Definition is_pending (s : etharp_state) : bool := match s with ETHARP_STATE_PENDING => true | _ => false end.

(** A pointer to an interface is its number. *)
Record etharp_entry : Type := EtharpEntry {
  ae_q : option packet;
  ae_ipaddr : Z;
  ae_netif : option Z;
  ae_ethaddr : list Z;
  ae_state : etharp_state;
  ae_ctime : Z;
}.

(** The link-local address client of an interface: autoip.h. *)
Inductive autoip_state : Type :=
  | AUTOIP_STATE_OFF
  | AUTOIP_STATE_PROBING
  | AUTOIP_STATE_ANNOUNCING
  | AUTOIP_STATE_BOUND.

#[export] Instance autoip_state_eq_dec : EqDecision autoip_state.
Proof. solve_decision. Defined.

Record autoip : Type := Autoip {
  llipaddr : Z;
  au_state : autoip_state;
  sent_num : Z;
  ttw : Z;
  lastconflict : Z;
  tried_llipaddr : Z;
}.

Record netif : Type := Netif {
  nif_ip_addr : Z;
  nif_netmask : Z;
  nif_gw : Z;
  nif_hwaddr : list Z;
  nif_flags : Z;
  nif_autoip : option autoip;
}.

Definition nif_addr (nf : netif) : netif_addr := NetifAddr (nif_flags nf) (nif_ip_addr nf) (nif_netmask nf).
Definition ip_addr_isbroadcast (addr : Z) (nf : netif) : bool := negb (ip4_addr_isbroadcast addr (nif_addr nf) =? 0).

(** What the functions below do that their callers see: a frame received or
    sent on an interface, a reference to a pbuf taken (pbuf_alloc, pbuf_ref)
    or given up (pbuf_free), a packet passed to ip_input, a call of
    dhcp_arp_reply, a call of tcp_abort. *)
Inductive event : Type :=
  | Rx (n : Z) (p : packet)
  | Out (n : Z) (frame : list Z)
  | Take (id : Z)
  | Drop (id : Z)
  | IpInput (n : Z) (p : packet)
  | DhcpArpReply (n : Z) (addr : Z)
  | TcpAbort (pcb : Z).

(** The memory: the ARP table, the interfaces and the list of them, the
    connections and listeners of TCP with their local addresses, the next
    free identity of a pbuf, the number of questions the layer below has
    answered, and what was done so far. *)
Record world : Type := World {
  arp_table : list etharp_entry;
  etharp_cached_entry : Z;
  netif_at : Z -> netif;
  netif_list : list Z;
  tcp_active : list (Z * Z);
  tcp_listen : list (Z * Z);
  next_id : Z;
  answers : nat;
  log : list event;
}.

Definition set_table (w : world) (t : list etharp_entry) : world :=
  World t (etharp_cached_entry w) (netif_at w) (netif_list w) (tcp_active w) (tcp_listen w) (next_id w) (answers w) (log w).
Definition ETHARP_SET_HINT (w : world) (i : Z) : world :=
  World (arp_table w) i (netif_at w) (netif_list w) (tcp_active w) (tcp_listen w) (next_id w) (answers w) (log w).
Definition set_netif (w : world) (n : Z) (nf : netif) : world :=
  World (arp_table w) (etharp_cached_entry w) (fun m => if m =? n then nf else netif_at w m) (netif_list w)
    (tcp_active w) (tcp_listen w) (next_id w) (answers w) (log w).
Definition emit (w : world) (es : list event) : world :=
  World (arp_table w) (etharp_cached_entry w) (netif_at w) (netif_list w) (tcp_active w) (tcp_listen w) (next_id w) (answers w) (log w ++ es).
Definition asked (w : world) : world :=
  World (arp_table w) (etharp_cached_entry w) (netif_at w) (netif_list w) (tcp_active w) (tcp_listen w) (next_id w) (S (answers w)) (log w).
Definition took (w : world) : world :=
  World (arp_table w) (etharp_cached_entry w) (netif_at w) (netif_list w) (tcp_active w) (tcp_listen w) (next_id w + 1) (answers w)
    (log w ++ [Take (next_id w)]).

Definition modify (w : world) (i : Z) (f : etharp_entry -> etharp_entry) : outcome world :=
  let! e := rd (arp_table w) i in
  let! t := wr (arp_table w) i (f e) in
  Ok (set_table w t).

Definition set_state (s : etharp_state) (e : etharp_entry) : etharp_entry :=
  EtharpEntry (ae_q e) (ae_ipaddr e) (ae_netif e) (ae_ethaddr e) s (ae_ctime e).
Definition set_q (q : option packet) (e : etharp_entry) : etharp_entry :=
  EtharpEntry q (ae_ipaddr e) (ae_netif e) (ae_ethaddr e) (ae_state e) (ae_ctime e).
Definition set_ctime (t : Z) (e : etharp_entry) : etharp_entry :=
  EtharpEntry (ae_q e) (ae_ipaddr e) (ae_netif e) (ae_ethaddr e) (ae_state e) t.
Definition set_ip (ip : Z) (e : etharp_entry) : etharp_entry :=
  EtharpEntry (ae_q e) ip (ae_netif e) (ae_ethaddr e) (ae_state e) (ae_ctime e).

(** The layer below: whether the n-th request for memory succeeds, what
    linkoutput returns when it is the n-th question. *)
Record lower : Type := Lower {
  lw_alloc : nat -> bool;
  lw_link : nat -> Z;
}.

Section Etharp.
Context (lw : lower).

(** ** Frames *)

(** netif->linkoutput(netif, p) *)
Definition linkoutput (w : world) (n : Z) (c : list (pbuf_type * list Z)) : Z * world :=
  (lw_link lw (answers w), emit (asked w) [Out n (chain_bytes c)]).

(** mem_malloc or pbuf_alloc: [true] unless NULL. *)
Definition alloc (w : world) : bool * world := (lw_alloc lw (answers w), asked w).

Definition etharp_send_ip (w : world) (n : Z) (p : packet) (src dst : list Z) : outcome (Z * world) :=
  match pk_chain p with
  | [] => UB
  | (t, payload) :: r =>
      let! payload := splice payload 0 (eth_hdr_bytes (EthHdr dst src (lwip_htons ETHTYPE_IP))) in
      Ok (linkoutput w n ((t, payload) :: r))
  end.

Definition etharp_raw (w : world) (n : Z) (ethsrc_addr ethdst_addr hwsrc_addr : list Z) (ipsrc_addr : Z)
    (hwdst_addr : list Z) (ipdst_addr op : Z) : Z * world :=
  let (ok, w) := alloc w in
  if negb ok then (ERR_MEM, w)
  else
    let id := next_id w in
    let w := took w in
    let ethdst_hwaddr := if ip_addr_islinklocal ipsrc_addr then ethbroadcast else ethdst_addr in
    let hdr := EtharpHdr (lwip_htons HWTYPE_ETHERNET) (lwip_htons ETHTYPE_IP) ETHARP_HWADDR_LEN 4 (lwip_htons op)
                 hwsrc_addr ipsrc_addr hwdst_addr ipdst_addr in
    let payload := eth_hdr_bytes (EthHdr ethdst_hwaddr ethsrc_addr (lwip_htons ETHTYPE_ARP)) ++ etharp_hdr_bytes hdr in
    let (result, w) := linkoutput w n [(PBUF_RAM, payload)] in
    (result, emit w [Drop id]).

Definition etharp_request (w : world) (n : Z) (ipaddr : Z) : Z * world :=
  let hw := nif_hwaddr (netif_at w n) in
  etharp_raw w n hw ethbroadcast hw (nif_ip_addr (netif_at w n)) ethzero ipaddr ARP_REQUEST.

Definition etharp_gratuitous (w : world) (n : Z) : Z * world := etharp_request w n (nif_ip_addr (netif_at w n)).

(** ** The table *)

Definition free_q (e : etharp_entry) : list event := match ae_q e with Some p => [Drop (pk_id p)] | None => [] end.

Definition etharp_free_entry (w : world) (i : Z) : outcome world :=
  let! e := rd (arp_table w) i in
  let w := emit w (free_q e) in
  modify w i (fun e => EtharpEntry None 0 None ethzero ETHARP_STATE_EMPTY 0).

Fixpoint for_each (idxs : list Z) (body : world -> Z -> outcome world) (w : world) : outcome world :=
  match idxs with
  | [] => Ok w
  | i :: idxs => let! w := body w i in for_each idxs body w
  end.

Definition table_indices : list Z := map Z.of_nat (seq 0 (Z.to_nat ARP_TABLE_SIZE)).

Definition tmr_entry (w : world) (i : Z) : outcome world :=
  let! e := rd (arp_table w) i in
  if is_empty (ae_state e) then Ok w
  else
    let ctime := u8 (ae_ctime e + 1) in
    let! w := modify w i (set_ctime ctime) in
    if (ARP_MAXAGE <=? ctime) || (is_pending (ae_state e) && (ARP_MAXPENDING <=? ctime)) then etharp_free_entry w i
    else if is_rerequesting (ae_state e) then modify w i (set_state ETHARP_STATE_STABLE)
    else Ok w.

Definition etharp_tmr (w : world) : outcome world := for_each table_indices tmr_entry w.

Definition cleanup_entry (n : Z) (w : world) (i : Z) : outcome world :=
  let! e := rd (arp_table w) i in
  if negb (is_empty (ae_state e)) && bool_decide (ae_netif e = Some n) then etharp_free_entry w i else Ok w.

Definition etharp_cleanup_netif (w : world) (n : Z) : outcome world := for_each table_indices (cleanup_entry n) w.

(** The local variables of etharp_find_entry's sweep. *)
Record candidates : Type := Candidates {
  old_pending : Z; old_stable : Z; empty : Z; old_queue : Z;
  age_pending : Z; age_stable : Z; age_queue : Z;
}.

Definition no_candidates : candidates :=
  Candidates ARP_TABLE_SIZE ARP_TABLE_SIZE ARP_TABLE_SIZE ARP_TABLE_SIZE 0 0 0.

(** The loop from index [i]: a match, or the candidates. *)
Fixpoint find_sweep (t : list etharp_entry) (i : Z) (ipaddr : option Z) (c : candidates) : Z + candidates :=
  match t with
  | [] => inr c
  | e :: t =>
      if (empty c =? ARP_TABLE_SIZE) && is_empty (ae_state e) then
        find_sweep t (i + 1) ipaddr
          (Candidates (old_pending c) (old_stable c) i (old_queue c) (age_pending c) (age_stable c) (age_queue c))
      else if negb (is_empty (ae_state e)) then
        if match ipaddr with Some a => ip_addr_cmp a (ae_ipaddr e) | None => false end then inl i
        else
          find_sweep t (i + 1) ipaddr
            (if is_pending (ae_state e) then
               match ae_q e with
               | Some _ =>
                   if age_queue c <=? ae_ctime e then
                     Candidates (old_pending c) (old_stable c) (empty c) i (age_pending c) (age_stable c) (ae_ctime e)
                   else c
               | None =>
                   if age_pending c <=? ae_ctime e then
                     Candidates i (old_stable c) (empty c) (old_queue c) (ae_ctime e) (age_stable c) (age_queue c)
                   else c
               end
             else if is_stable (ae_state e) then
               if age_stable c <=? ae_ctime e then
                 Candidates (old_pending c) i (empty c) (old_queue c) (age_pending c) (ae_ctime e) (age_queue c)
               else c
             else c)
      else find_sweep t (i + 1) ipaddr c
  end.

(** [None]: no empty or recyclable entry. *)
Definition recycle (w : world) (c : candidates) : outcome (option (Z * world)) :=
  if empty c <? ARP_TABLE_SIZE then Ok (Some (empty c, w))
  else if old_stable c <? ARP_TABLE_SIZE then
    let! e := rd (arp_table w) (old_stable c) in
    let! _ := guard_ub (bool_decide (ae_q e = None)) in
    let! w := etharp_free_entry w (old_stable c) in Ok (Some (old_stable c, w))
  else if old_pending c <? ARP_TABLE_SIZE then
    let! w := etharp_free_entry w (old_pending c) in Ok (Some (old_pending c, w))
  else if old_queue c <? ARP_TABLE_SIZE then
    let! w := etharp_free_entry w (old_queue c) in Ok (Some (old_queue c, w))
  else Ok None.

Definition etharp_find_entry (w : world) (ipaddr : option Z) (flags : Z) : outcome (Z * world) :=
  match find_sweep (arp_table w) 0 ipaddr no_candidates with
  | inl i => Ok (i, w)
  | inr c =>
      if negb (Z.land flags ETHARP_FLAG_FIND_ONLY =? 0) ||
         ((empty c =? ARP_TABLE_SIZE) && (Z.land flags ETHARP_FLAG_TRY_HARD =? 0))
      then Ok (ERR_MEM, w)
      else
        let! r := recycle w c in
        match r with
        | None => Ok (ERR_MEM, w)
        | Some (i, w) =>
            let! e := rd (arp_table w) i in
            let! _ := guard_ub (is_empty (ae_state e)) in
            let! w := modify w i (fun e => match ipaddr with Some a => set_ip a e | None => e end) in
            let! w := modify w i (set_ctime 0) in
            Ok (i, w)
        end
  end.

Definition etharp_update_arp_entry (w : world) (n : Z) (ipaddr : Z) (ethaddr : list Z) (flags : Z) : outcome (Z * world) :=
  if ip_addr_isany ipaddr || ip_addr_isbroadcast ipaddr (netif_at w n) || ip_addr_ismulticast ipaddr then Ok (ERR_ARG, w)
  else
    let! (i, w) := etharp_find_entry w (Some ipaddr) flags in
    if i <? 0 then Ok (i, w)
    else
      let! w := modify w i (fun e =>
        EtharpEntry (ae_q e) (ae_ipaddr e) (Some n) ethaddr ETHARP_STATE_STABLE 0) in
      let! e := rd (arp_table w) i in
      match ae_q e with
      | None => Ok (ERR_OK, w)
      | Some p =>
          let! w := modify w i (set_q None) in
          let! (_, w) := etharp_send_ip w n p (nif_hwaddr (netif_at w n)) ethaddr in
          Ok (ERR_OK, emit w [Drop (pk_id p)])
      end.

(** The index and what the two return pointers point to, or -1. *)
Definition etharp_find_addr (w : world) (n : Z) (ipaddr : Z) : outcome (Z * option (list Z * Z) * world) :=
  let! (i, w) := etharp_find_entry w (Some ipaddr) ETHARP_FLAG_FIND_ONLY in
  if i <? 0 then Ok (-1, None, w)
  else
    let! e := rd (arp_table w) i in
    if is_stable (ae_state e) then Ok (i, Some (ae_ethaddr e, ae_ipaddr e), w) else Ok (-1, None, w).

(** ** Sending *)

Definition etharp_output_to_arp_index (w : world) (n : Z) (q : packet) (arp_idx : Z) : outcome (Z * world) :=
  let! e := rd (arp_table w) arp_idx in
  let! _ := guard_ub (is_stable (ae_state e)) in
  let! w :=
    if is_STABLE (ae_state e) && (ARP_AGE_REREQUEST_USED <=? ae_ctime e) then
      let (r, w) := etharp_request w n (ae_ipaddr e) in
      if r =? ERR_OK then modify w arp_idx (set_state ETHARP_STATE_STABLE_REREQUESTING) else Ok w
    else Ok w in
  let! e := rd (arp_table w) arp_idx in
  etharp_send_ip w n q (nif_hwaddr (netif_at w n)) (ae_ethaddr e).

(** The loop over the chain: the rest of it from the first pbuf that is not
    PBUF_ROM. It asserts that no pbuf it looks at is the last one of its
    packet and has another behind it (LWIP_ASSERT "no packet queues
    allowed!"); a failed assertion is [UB]. *)
Fixpoint copy_from (c : list (pbuf_type * list Z)) : outcome (list (pbuf_type * list Z)) :=
  match c with
  | [] => Ok []
  | (t, bs) :: r =>
      let! _ := guard_ub (negb (zlen bs =? tot_len c) || match r with [] => true | _ => false end) in
      if bool_decide (t = PBUF_ROM) then copy_from r else Ok c
  end.

(** pbuf_copy to a single pbuf with [room] bytes left. *)
Fixpoint copy_loop (p_from : list (pbuf_type * list Z)) (room : Z) : Z :=
  match p_from with
  | [] => ERR_OK
  | (_, bs) :: r =>
      let room := room - zlen bs in
      match r with
      | [] => ERR_OK
      | (_, bs2) :: r2 =>
          if room =? 0 then ERR_ARG
          else if (zlen bs2 =? tot_len r) && negb (match r2 with [] => true | _ => false end) then ERR_VAL
          else copy_loop r room
      end
  end.

(** pbuf_copy refuses a target that is smaller than its source, and a source
    that goes on behind the end of its packet. *)
Definition pbuf_copy_to (to_len : Z) (p_from : list (pbuf_type * list Z)) : Z :=
  if to_len <? tot_len p_from then ERR_ARG else copy_loop p_from to_len.

(** The packet to queue for [q], or NULL. *)
Definition take_over (w : world) (q : packet) : outcome (option packet * world) :=
  let! p := copy_from (pk_chain q) in
  match p with
  | [] => Ok (Some q, emit w [Take (pk_id q)])
  | _ =>
      let (ok, w) := alloc w in
      if negb ok then Ok (None, w)
      else
        let id := next_id w in
        let w := took w in
        if pbuf_copy_to (tot_len p) (pk_chain q) =? ERR_OK
        then Ok (Some (Packet id [(PBUF_RAM, chain_bytes (pk_chain q))] None 0), w)
        else Ok (None, emit w [Drop id])
  end.

Definition etharp_query (w : world) (n : Z) (ipaddr : Z) (q : option packet) : outcome (Z * world) :=
  let srcaddr := nif_hwaddr (netif_at w n) in
  if ip_addr_isbroadcast ipaddr (netif_at w n) || ip_addr_ismulticast ipaddr || ip_addr_isany ipaddr then Ok (ERR_ARG, w)
  else
    let! (i, w) := etharp_find_entry w (Some ipaddr) ETHARP_FLAG_TRY_HARD in
    if i <? 0 then Ok (i, w)
    else
      let! w := modify w i (fun e => if is_empty (ae_state e) then set_state ETHARP_STATE_PENDING e else e) in
      let! e := rd (arp_table w) i in
      let! _ := guard_ub (is_pending (ae_state e) || is_stable (ae_state e)) in
      let (result, w) :=
        if is_pending (ae_state e) || match q with None => true | Some _ => false end
        then etharp_request w n ipaddr else (ERR_MEM, w) in
      match q with
      | None => Ok (result, w)
      | Some q =>
          let! e := rd (arp_table w) i in
          if is_stable (ae_state e) then etharp_send_ip (ETHARP_SET_HINT w i) n q srcaddr (ae_ethaddr e)
          else if is_pending (ae_state e) then
            let! (p, w) := take_over w q in
            match p with
            | None => Ok (ERR_MEM, w)
            | Some p =>
                let w := emit w (free_q e) in
                let! w := modify w i (set_q (Some p)) in
                Ok (ERR_OK, w)
            end
          else Ok (result, w)
      end.

(** pbuf_header(q, sizeof(struct eth_hdr)): the packet with its payload
    moved, or [None] when it fails. *)
Definition eth_header (q : packet) : outcome (option packet) :=
  match pk_chain q with
  | [] => UB
  | (t, bs) :: r =>
      match pk_room q with
      | None => Ok None
      | Some room => Ok (Some (Packet (pk_id q) ((t, room ++ bs) :: r) None (pk_flags q)))
      end
  end.

Definition mcast_ethaddr (ipaddr : Z) : list Z :=
  match word_bytes ipaddr with
  | [_; b2; b3; b4] => [0x01; 0x00; 0x5e; Z.land b2 0x7f; b3; b4]
  | _ => []
  end.

(** The loop over the table from index [i]. *)
Fixpoint find_stable (t : list etharp_entry) (i : Z) (dst_addr : Z) : option Z :=
  match t with
  | [] => None
  | e :: t => if is_stable (ae_state e) && ip_addr_cmp dst_addr (ae_ipaddr e) then Some i else find_stable t (i + 1) dst_addr
  end.

(** The next hop of a packet with destination [ipaddr]; [None] without a
    gateway. *)
Definition next_hop (nf : netif) (q : packet) (ipaddr : Z) : outcome (option Z) :=
  if negb (ip_addr_netcmp ipaddr (nif_ip_addr nf) (nif_netmask nf)) && negb (ip_addr_islinklocal ipaddr) then
    match pk_chain q with
    | [] => UB
    | (_, payload) :: _ =>
        let! src := load32 payload (SIZEOF_ETH_HDR + 12) in
        if ip_addr_islinklocal src then Ok (Some ipaddr)
        else if ip_addr_isany (nif_gw nf) then Ok None else Ok (Some (nif_gw nf))
    end
  else Ok (Some ipaddr).

Definition etharp_output (w : world) (n : Z) (q : packet) (ipaddr : Z) : outcome (Z * world) :=
  let! q := eth_header q in
  match q with
  | None => Ok (ERR_BUF, w)
  | Some q =>
      let nf := netif_at w n in
      if ip_addr_isbroadcast ipaddr nf then etharp_send_ip w n q (nif_hwaddr nf) ethbroadcast
      else if ip_addr_ismulticast ipaddr then etharp_send_ip w n q (nif_hwaddr nf) (mcast_ethaddr ipaddr)
      else
        let! hop := next_hop nf q ipaddr in
        match hop with
        | None => Ok (ERR_RTE, w)
        | Some dst_addr =>
            let! e := rd (arp_table w) (etharp_cached_entry w) in
            if is_stable (ae_state e) && ip_addr_cmp dst_addr (ae_ipaddr e) then
              etharp_output_to_arp_index w n q (etharp_cached_entry w)
            else
              match find_stable (arp_table w) 0 dst_addr with
              | Some i => etharp_output_to_arp_index (ETHARP_SET_HINT w i) n q i
              | None => etharp_query w n dst_addr (Some q)
              end
        end
  end.

End Etharp.

(** ** Theory: frames *)

(** The bytes of an IP packet behind its Ethernet header, and the frame. *)
Definition body (p : packet) : list Z := drop 14 (chain_bytes (pk_chain p)).
Definition ip_frame (dst src bs : list Z) : list Z := dst ++ src ++ [8; 0] ++ bs.
Definition arp_frame (dst src : list Z) (h : etharp_hdr) : list Z := dst ++ src ++ [8; 6] ++ etharp_hdr_bytes h.

(** No empty pbuf at the end of a chain: the code takes it for a second packet. *)
Definition tidy (c : list (pbuf_type * list Z)) : Prop := forall c' t, c = c' ++ [(t, [])] -> c' = [].

(** The first pbuf holds the Ethernet header. *)
Definition has_header (p : packet) : Prop :=
  match pk_chain p with (_, bs) :: _ => 14 <= zlen bs | [] => False end /\ tidy (pk_chain p).

Lemma tidy_1 x : tidy [x].
Proof. intros [|y c'] t E; [done|]. apply (f_equal length) in E. rewrite length_app in E. cbn in E. lia. Qed.

(** What lies in the first pbuf does not matter, nor how many there are before it. *)
Lemma tidy_first x y r : tidy (x :: r) -> tidy (y :: r).
Proof. intros H [|z c'] t E; [done|]. injection E as -> E. by discriminate (H (x :: c') t ltac:(by rewrite E)). Qed.

Lemma tidy_tail x r : tidy (x :: r) -> r <> [] -> tidy r.
Proof. intros H _ c' t E. by discriminate (H (x :: c') t ltac:(by rewrite E)). Qed.

Lemma tot_len_nonneg c : 0 <= tot_len c.
Proof. apply zlen_nonneg. Qed.

Lemma tot_len_cons t bs r : tot_len ((t, bs) :: r) = zlen bs + tot_len r.
Proof. unfold tot_len, chain_bytes. cbn. apply zlen_app. Qed.

Lemma tidy_tot x r : tidy (x :: r) -> r <> [] -> 0 < tot_len r.
Proof.
  intros H Hr. destruct (exists_last Hr) as (c & [t bs] & ->). unfold tot_len, chain_bytes. rewrite map_app, concat_app. cbn. rewrite app_nil_r, zlen_app.
  destruct bs as [|b bs]; [by discriminate (H (x :: c) t ltac:(done))|]. rewrite zlen_cons. pose proof (zlen_nonneg bs). pose proof (zlen_nonneg (concat (map snd c))). lia.
Qed.

Lemma tidy_more t bs r : tidy ((t, bs) :: r) -> (zlen bs =? tot_len ((t, bs) :: r)) && negb (match r with [] => true | _ => false end) = false.
Proof.
  intros H. destruct r as [|x r]; [by rewrite andb_false_r|]. pose proof (tidy_tot _ _ H ltac:(done)). rewrite tot_len_cons.
  destruct (Z.eqb_spec (zlen bs) (zlen bs + tot_len (x :: r))); [lia|done].
Qed.

Lemma copy_from_ok c : tidy c -> exists r, copy_from c = Ok r /\
  (match c with (t, _) :: _ => t <> PBUF_ROM -> r = c | [] => r = [] end).
Proof.
  induction c as [|[t bs] r IH]; [by exists []|]. intros H. pose proof (tidy_more _ _ _ H) as E. cbn [copy_from].
  assert (negb (zlen bs =? tot_len ((t, bs) :: r)) || match r with [] => true | _ => false end = true) as ->.
  { destruct (zlen bs =? _), r; done. }
  cbn [guard_ub obind]. destruct (bool_decide_reflect (t = PBUF_ROM)); [|by exists ((t, bs) :: r)].
  destruct r as [|x r]; [by exists []|]. destruct (IH (tidy_tail _ _ H ltac:(done))) as (r' & -> & _). by exists r'.
Qed.

Lemma copy_loop_ok c : tidy c -> copy_loop c (tot_len c) = ERR_OK.
Proof.
  induction c as [|[t bs] r IH]; [done|]. intros H. cbn [copy_loop]. destruct r as [|[t2 bs2] r2]; [done|].
  pose proof (tidy_tot _ _ H ltac:(done)) as Hp. pose proof (tidy_tail _ _ H ltac:(done)) as Hr. pose proof (tidy_more _ _ _ Hr) as E. rewrite E.
  rewrite (tot_len_cons t bs). replace (zlen bs + tot_len ((t2, bs2) :: r2) - zlen bs) with (tot_len ((t2, bs2) :: r2)) by lia.
  destruct (Z.eqb_spec (tot_len ((t2, bs2) :: r2)) 0); [lia|]. by apply IH.
Qed.

Lemma pbuf_copy_to_ok c : tidy c -> pbuf_copy_to (tot_len c) c = ERR_OK.
Proof. intros H. unfold pbuf_copy_to. rewrite Z.ltb_irrefl. by apply copy_loop_ok. Qed.

Definition mac (a : list Z) : Prop := length a = 6%nat.

(** [became w t c es w']: [w'] is [w] with the table [t], the hint [c], more
    questions and the events [es]. *)
Record became (w : world) (t : list etharp_entry) (c : Z) (es : list event) (w' : world) : Prop := Became {
  became_table : arp_table w' = t;
  became_cached : etharp_cached_entry w' = c;
  became_log : log w' = log w ++ es;
  became_netif : netif_at w' = netif_at w;
  became_list : netif_list w' = netif_list w;
  became_active : tcp_active w' = tcp_active w;
  became_listen : tcp_listen w' = tcp_listen w;
}.

Lemma became_refl w : became w (arp_table w) (etharp_cached_entry w) [] w.
Proof. split; try done. by rewrite app_nil_r. Qed.

Lemma became_trans w t c es w1 t2 c2 es2 w2 :
  became w t c es w1 -> became w1 t2 c2 es2 w2 -> became w t2 c2 (es ++ es2) w2.
Proof. intros [] []. split; try congruence. by rewrite app_assoc; congruence. Qed.

Lemma became_emit w es : became w (arp_table w) (etharp_cached_entry w) es (emit w es).
Proof. done. Qed.

Lemma became_set_table w t : became w t (etharp_cached_entry w) [] (set_table w t).
Proof. split; try done. by rewrite app_nil_r. Qed.

Section Theory.
Context (lw : lower).

Lemma linkoutput_eq w n c : linkoutput lw w n c = (lw_link lw (answers w), emit (asked w) [Out n (chain_bytes c)]).
Proof. done. Qed.

Lemma etharp_send_ip_eq w n p src dst : has_header p -> mac src -> mac dst ->
  etharp_send_ip lw w n p src dst = Ok (lw_link lw (answers w), emit (asked w) [Out n (ip_frame dst src (body p))]).
Proof.
  unfold has_header, mac, etharp_send_ip, body. destruct p as [id [|[t bs] r] rm fl]; cbn [pk_chain]; [by intros []|]. intros [Hb _] Hs Hd.
  assert (Hl : length (eth_hdr_bytes (EthHdr dst src (lwip_htons ETHTYPE_IP))) = 14%nat).
  { unfold eth_hdr_bytes. cbn [eth_dest eth_src eth_type]. rewrite !length_app, Hs, Hd. done. }
  rewrite splice_ok by (unfold zlen in *; lia). cbn [obind]. rewrite linkoutput_eq, Hl. repeat f_equal.
  unfold chain_bytes. cbn [map concat snd Z.to_nat take app Nat.add]. unfold ip_frame, eth_hdr_bytes. cbn [eth_dest eth_src eth_type].
  rewrite drop_app_le by (unfold zlen in Hb; lia). by rewrite <- !app_assoc.
Qed.

Lemma chain_bytes_1 t bs : chain_bytes [(t, bs)] = bs.
Proof. apply app_nil_r. Qed.

Lemma arp_frame_eq (ed es : list Z) (isrc : Z) h :
  arp_frame (if ip_addr_islinklocal isrc then ethbroadcast else ed) es h =
  chain_bytes [(PBUF_RAM, eth_hdr_bytes (EthHdr (if ip_addr_islinklocal isrc then ethbroadcast else ed) es (lwip_htons ETHTYPE_ARP)) ++ etharp_hdr_bytes h)].
Proof. rewrite chain_bytes_1. unfold arp_frame, eth_hdr_bytes. by rewrite <- !app_assoc. Qed.

(** What an ARP request does. *)
Definition request_hdr (nf : netif) (ip : Z) : etharp_hdr :=
  EtharpHdr (lwip_htons HWTYPE_ETHERNET) (lwip_htons ETHTYPE_IP) ETHARP_HWADDR_LEN 4 (lwip_htons ARP_REQUEST)
    (nif_hwaddr nf) (nif_ip_addr nf) ethzero ip.

Lemma etharp_raw_became w n es ed hs isrc hd id op : exists ev,
  became w (arp_table w) (etharp_cached_entry w) ev (snd (etharp_raw lw w n es ed hs isrc hd id op)) /\
  ((ev = [] /\ lw_alloc lw (answers w) = false /\ fst (etharp_raw lw w n es ed hs isrc hd id op) = ERR_MEM) \/
   (lw_alloc lw (answers w) = true /\
    ev = [Take (next_id w); Out n (arp_frame (if ip_addr_islinklocal isrc then ethbroadcast else ed) es
           (EtharpHdr (lwip_htons HWTYPE_ETHERNET) (lwip_htons ETHTYPE_IP) ETHARP_HWADDR_LEN 4 (lwip_htons op) hs isrc hd id));
      Drop (next_id w)])).
Proof.
  unfold etharp_raw, alloc. destruct (lw_alloc lw (answers w)) eqn:E; cbn [negb].
  - eexists. split; [|right; split; reflexivity].
    rewrite (arp_frame_eq ed es isrc). rewrite linkoutput_eq. split; try done. cbn [snd log emit took asked answers]. by rewrite <- !app_assoc.
  - exists []. split; [|by left]. split; try done. by rewrite app_nil_r.
Qed.


(** ** Theory: the table *)

Definition unicast (ip : Z) : Prop := ip <> 0 /\ ip <> 0xffffffff /\ ip_addr_ismulticast ip = false.

Definition used (e : etharp_entry) : Prop := is_empty (ae_state e) = false.

Record entry_ok (e : etharp_entry) : Prop := EntryOk {
  eo_mac : mac (ae_ethaddr e);
  eo_ip : used e -> unicast (ae_ipaddr e);
  eo_age : used e -> 0 <= ae_ctime e < (if is_pending (ae_state e) then ARP_MAXPENDING else ARP_MAXAGE);
  eo_q : match ae_q e with Some p => ae_state e = ETHARP_STATE_PENDING /\ has_header p | None => True end;
  eo_netif : if is_stable (ae_state e) then ae_netif e <> None else ae_netif e = None;
}.

(** No two entries are for one address. *)
Definition distinct (t : list etharp_entry) : Prop := forall i j a b,
  t !! i = Some a -> t !! j = Some b -> used a -> used b -> ae_ipaddr a = ae_ipaddr b -> i = j.

Record table_ok (t : list etharp_entry) : Prop := TableOk {
  to_size : length t = 10%nat;
  to_entry : Forall entry_ok t;
  to_distinct : distinct t;
}.

Definition no_match (t : list etharp_entry) (ip : Z) : Prop :=
  Forall (fun e => used e -> ae_ipaddr e <> ip) t.

Lemma is_empty_true s : is_empty s = true <-> s = ETHARP_STATE_EMPTY.
Proof. by destruct s. Qed.
Lemma is_pending_true s : is_pending s = true <-> s = ETHARP_STATE_PENDING.
Proof. by destruct s. Qed.
Lemma is_stable_spec s : is_stable s = negb (is_empty s) && negb (is_pending s).
Proof. by destruct s. Qed.

(** *** The sweep of etharp_find_entry *)

(** [old] is the last of the oldest entries of [t] that satisfy P, with its
    age; 10 when there is none. *)
Definition oldest (P : etharp_entry -> bool) (t : list etharp_entry) (old age : Z) : Prop :=
  (old = 10 /\ age = 0 /\ Forall (fun e => P e = false) t) \/
  (exists k e, old = Z.of_nat k /\ t !! k = Some e /\ P e = true /\ ae_ctime e = age /\
    Forall (fun e' => P e' = true -> ae_ctime e' <= age) t).

Definition c_stable (e : etharp_entry) : bool := is_stable (ae_state e).
Definition c_pending (e : etharp_entry) : bool := is_pending (ae_state e) && match ae_q e with None => true | _ => false end.
Definition c_queue (e : etharp_entry) : bool := is_pending (ae_state e) && match ae_q e with None => false | _ => true end.

Lemma oldest_other P t e old age : P e = false -> oldest P t old age -> oldest P (t ++ [e]) old age.
Proof.
  intros HP [(-> & -> & HF)|(k & x & -> & Hk & Hx & <- & HF)].
  - left. split_and!; [done|done|]. apply list.Forall_app. split; [done|]. by constructor.
  - right. exists k, x. split_and!; [done|by apply lookup_app_l_Some|done|done|]. apply list.Forall_app. split; [done|].
    constructor; [congruence|done].
Qed.

Lemma oldest_older P t e old age : P e = true -> age <= ae_ctime e -> oldest P t old age ->
  oldest P (t ++ [e]) (zlen t) (ae_ctime e).
Proof.
  intros HP Hage Ho. right. exists (length t), e. split_and!; [done|by apply list_lookup_middle|done|done|].
  apply list.Forall_app. split; [|by constructor]. destruct Ho as [(_ & _ & HF)|(_ & _ & _ & _ & _ & _ & HF)];
    revert HF; apply Forall_impl; intros x Hx; [congruence|]. intros HPx. specialize (Hx HPx). lia.
Qed.

Lemma oldest_younger P t e old age : 0 <= ae_ctime e < age -> oldest P t old age -> oldest P (t ++ [e]) old age.
Proof.
  intros Hage [(-> & -> & HF)|(k & x & -> & Hk & Hx & <- & HF)]; [lia|].
  right. exists k, x. split_and!; [done|by apply lookup_app_l_Some|done|done|]. apply list.Forall_app. split; [done|].
  constructor; [lia|done].
Qed.

Record swept (t : list etharp_entry) (c : candidates) : Prop := Swept {
  sw_empty : (empty c = 10 /\ Forall used t) \/ (exists k e, empty c = Z.of_nat k /\ t !! k = Some e /\ ~ used e);
  sw_stable : oldest c_stable t (old_stable c) (age_stable c);
  sw_pending : oldest c_pending t (old_pending c) (age_pending c);
  sw_queue : oldest c_queue t (old_queue c) (age_queue c);
}.

Lemma swept_nil : swept [] no_candidates.
Proof. split; left; repeat split; constructor. Qed.

Lemma oldest_cond P t e old age : (P e = true -> 0 <= ae_ctime e) -> oldest P t old age ->
  oldest P (t ++ [e]) (if P e && (age <=? ae_ctime e) then zlen t else old) (if P e && (age <=? ae_ctime e) then ae_ctime e else age).
Proof.
  intros Hc Ho. destruct (P e) eqn:EP; [|by apply oldest_other]. specialize (Hc eq_refl). cbn [andb].
  destruct (Z.leb_spec age (ae_ctime e)); [by eapply oldest_older|by apply oldest_younger].
Qed.

Lemma find_sweep_spec (t2 t1 : list etharp_entry) ip c :
  Forall entry_ok t2 -> (length t1 + length t2 <= 10)%nat -> swept t1 c ->
  match find_sweep t2 (zlen t1) (Some ip) c with
  | inl i => exists k e, i = Z.of_nat k /\ (t1 ++ t2) !! k = Some e /\ used e /\ ae_ipaddr e = ip
  | inr c' => swept (t1 ++ t2) c' /\ no_match t2 ip
  end.
Proof.
  revert t1 c. induction t2 as [|e t2 IH]; intros t1 c He Hlen Hc; cbn [find_sweep].
  { rewrite app_nil_r. split; [done|constructor]. }
  apply list.Forall_cons in He as [He Ht]. cbn [length] in Hlen.
  assert (Hstep : forall c', swept (t1 ++ [e]) c' -> (used e -> ae_ipaddr e <> ip) ->
    match find_sweep t2 (zlen t1 + 1) (Some ip) c' with
    | inl i => exists k e', i = Z.of_nat k /\ (t1 ++ e :: t2) !! k = Some e' /\ used e' /\ ae_ipaddr e' = ip
    | inr c' => swept (t1 ++ e :: t2) c' /\ no_match (e :: t2) ip
    end).
  { intros c' Hc' Hip. specialize (IH (t1 ++ [e]) c' Ht). rewrite length_app, zlen_app, <- app_assoc in IH. cbn [length app] in IH.
    specialize (IH ltac:(lia) Hc'). destruct (find_sweep _ _ _ _); [done|]. destruct IH. split; [done|]. by constructor. }
  clear IH. destruct Hc as [S1 S2 S3 S4].
  assert (Hc1 : forall P, (P e = true -> used e) -> P e = true -> 0 <= ae_ctime e).
  { intros P HP HPe. by destruct (eo_age _ He (HP HPe)). }
  assert (U : used e <-> ae_state e <> ETHARP_STATE_EMPTY).
  { unfold used. split; [intros E1 E2%is_empty_true; congruence|]. intros Hn. destruct (is_empty _) eqn:E; [|done].
    by apply is_empty_true in E. }
  pose proof (oldest_cond c_stable t1 e _ _ ltac:(apply Hc1; unfold c_stable; rewrite U; by destruct (ae_state e)) S2) as T2.
  pose proof (oldest_cond c_pending t1 e _ _ ltac:(apply Hc1; unfold c_pending; rewrite U; by destruct (ae_state e)) S3) as T3.
  pose proof (oldest_cond c_queue t1 e _ _ ltac:(apply Hc1; unfold c_queue; rewrite U; by destruct (ae_state e)) S4) as T4.
  assert (T1 : used e -> (empty c = 10 /\ Forall used (t1 ++ [e])) \/
    (exists k e', empty c = Z.of_nat k /\ (t1 ++ [e]) !! k = Some e' /\ ~ used e')).
  { intros Hu. destruct S1 as [[E HF]|(k & e' & E & Hk & He')]; [left|right].
    - split; [done|]. apply list.Forall_app. split; [done|by constructor].
    - exists k, e'. split_and!; [done|by apply lookup_app_l_Some|done]. }
  unfold c_stable, c_pending, c_queue in T2, T3, T4.
  destruct (is_empty (ae_state e)) eqn:Ee.
  - apply is_empty_true in Ee. rewrite Ee in T2, T3, T4. cbn in T2, T3, T4. rewrite andb_true_r. cbn [negb].
    assert (Hip : used e -> ae_ipaddr e <> ip) by (intros ?%U; congruence).
    destruct (Z.eqb_spec (empty c) ARP_TABLE_SIZE) as [E10|E10]; apply Hstep; try done.
    + split; try done. right. exists (length t1), e. split_and!; [done|by apply list_lookup_middle|by intros ?%U].
    + split; try done. destruct S1 as [[E HF]|(k & e' & E & Hk & He')]; [by destruct E10|]. right. exists k, e'.
      split_and!; [done|by apply lookup_app_l_Some|done].
  - rewrite andb_false_r. cbn [negb]. specialize (T1 Ee). unfold ip_addr_cmp.
    destruct (Z.eqb_spec ip (ae_ipaddr e)) as [Eip|Eip].
    { exists (length t1), e. split_and!; [done|by apply list_lookup_middle|done|done]. }
    apply Hstep; [|congruence]. clear Hstep.
    destruct (ae_state e), (ae_q e); cbn in *; try done; (destruct (Z.leb_spec (age_queue c) (ae_ctime e)) || idtac);
    repeat match goal with |- context [?a <=? ?b] => destruct (a <=? b) end; by split.
Qed.

(** *** Changing an entry *)

Lemma modify_eq w k e f : arp_table w !! k = Some e ->
  modify w (Z.of_nat k) f = Ok (set_table w (<[k := f e]> (arp_table w))).
Proof.
  intros Hk. unfold modify. rewrite (rd_lookup _ _ e) by (try lia; by rewrite Nat2Z.id). cbn [obind].
  apply lookup_lt_Some in Hk. rewrite wr_ok by lia. by rewrite Nat2Z.id.
Qed.

Lemma rd_at {A} (t : list A) k e : t !! k = Some e -> rd t (Z.of_nat k) = Ok e.
Proof. intros Hk. apply rd_lookup; [lia|]. by rewrite Nat2Z.id. Qed.

Definition blank : etharp_entry := EtharpEntry None 0 None ethzero ETHARP_STATE_EMPTY 0.

Lemma etharp_free_entry_eq w k e : arp_table w !! k = Some e ->
  etharp_free_entry w (Z.of_nat k) = Ok (set_table (emit w (free_q e)) (<[k := blank]> (arp_table w))).
Proof. intros Hk. unfold etharp_free_entry. rewrite (rd_at _ _ _ Hk). cbn [obind]. by rewrite (modify_eq _ _ e). Qed.

Lemma became_set w k e es : became w (<[k := e]> (arp_table w)) (etharp_cached_entry w) es
  (set_table (emit w es) (<[k := e]> (arp_table w))).
Proof. by split. Qed.

(** *** Which entry etharp_find_entry takes *)

(** The order in which entries are given up: empty ones, stable ones, pending
    ones without a packet, pending ones with a packet; the older first. *)
Definition rank (e : etharp_entry) : Z :=
  if is_empty (ae_state e) then 0 else if is_stable (ae_state e) then 1
  else match ae_q e with None => 2 | Some _ => 3 end.

Definition least_important (t : list etharp_entry) (e : etharp_entry) : Prop :=
  Forall (fun e' => rank e < rank e' \/ (rank e = rank e' /\ (rank e = 0 \/ ae_ctime e' <= ae_ctime e))) t.

(** The entry that is created in the place of [e]. *)
Definition recycled (e : etharp_entry) (ip : Z) : etharp_entry :=
  if is_empty (ae_state e) then set_ctime 0 (set_ip ip e) else EtharpEntry None ip None ethzero ETHARP_STATE_EMPTY 0.

Inductive found (w : world) (ip flags : Z) : Z -> world -> Prop :=
  | found_match k e : arp_table w !! k = Some e -> used e -> ae_ipaddr e = ip -> found w ip flags (Z.of_nat k) w
  | found_none : no_match (arp_table w) ip ->
      Z.land flags ETHARP_FLAG_FIND_ONLY <> 0 \/ (Z.land flags ETHARP_FLAG_TRY_HARD = 0 /\ Forall used (arp_table w)) ->
      found w ip flags ERR_MEM w
  | found_new k e w' : no_match (arp_table w) ip ->
      Z.land flags ETHARP_FLAG_FIND_ONLY = 0 -> (Z.land flags ETHARP_FLAG_TRY_HARD = 0 -> ~ used e) ->
      arp_table w !! k = Some e -> least_important (arp_table w) e ->
      became w (<[k := recycled e ip]> (arp_table w)) (etharp_cached_entry w) (free_q e) w' ->
      found w ip flags (Z.of_nat k) w'.

Lemma not_used e : ~ used e -> is_empty (ae_state e) = true.
Proof. unfold used. by destruct (is_empty _). Qed.

Lemma used_rank e : used e ->
  c_stable e = (rank e =? 1) /\ c_pending e = (rank e =? 2) /\ c_queue e = (rank e =? 3) /\ 1 <= rank e <= 3.
Proof. unfold used, rank, c_stable, c_pending, c_queue. destruct (ae_state e), (ae_q e); cbn; try done. Qed.

(** The candidate of a class: there is none in the class, or it can be given
    up once the classes before are empty. *)
Lemma oldest_rank P r t old age : oldest P t old age -> length t = 10%nat -> Forall used t ->
  0 < r -> (forall e, used e -> P e = (rank e =? r)) -> Forall (fun e => r <= rank e) t ->
  (old <? ARP_TABLE_SIZE = false /\ Forall (fun e => r + 1 <= rank e) t) \/
  (old <? ARP_TABLE_SIZE = true /\ exists k e, old = Z.of_nat k /\ t !! k = Some e /\ used e /\ P e = true /\ least_important t e).
Proof.
  unfold ARP_TABLE_SIZE. intros Ho Hl Hu Hr HP Hge. rewrite list.Forall_forall in Hu, Hge.
  destruct Ho as [(-> & _ & HF)|(k & e & -> & Hk & Hx & <- & HF)]; rewrite list.Forall_forall in HF; [left|right].
  - split; [done|]. apply list.Forall_forall. intros e He. specialize (HF e He). rewrite HP in HF by by apply Hu.
    apply Z.eqb_neq in HF. specialize (Hge e He). cbn in Hge. lia.
  - assert (e ∈ t) as He by by eapply list_elem_of_lookup_2. apply lookup_lt_Some in Hk as ?.
    split; [apply Z.ltb_lt; lia|]. exists k, e. split_and!; try done; [by apply Hu|].
    rewrite HP in Hx by by apply Hu. apply Z.eqb_eq in Hx. apply list.Forall_forall. intros e' He'.
    specialize (HF e' He'). specialize (Hge e' He'). cbn in *. rewrite HP in HF by by apply Hu.
    destruct (Z.eqb_spec (rank e') r) as [E|E]; [right; split; [congruence|]; right; by apply HF|lia].
Qed.

Lemma least_empty t e : is_empty (ae_state e) = true -> least_important t e.
Proof.
  intros He. apply list.Forall_forall. intros e' _. assert (rank e = 0) as -> by by unfold rank; rewrite He.
  unfold rank. repeat case_match; lia.
Qed.

Lemma stable_no_q e : entry_ok e -> c_stable e = true -> ae_q e = None.
Proof. intros He Hs. pose proof (eo_q e He). unfold c_stable in Hs. destruct (ae_q e), (ae_state e); naive_solver. Qed.

Lemma recycle_spec w c : let t := arp_table w in
  swept t c -> Forall entry_ok t -> length t = 10%nat ->
  exists k e, recycle w c = Ok (Some (Z.of_nat k,
      if is_empty (ae_state e) then w else set_table (emit w (free_q e)) (<[k := blank]> t))) /\
    t !! k = Some e /\ least_important t e /\
    (used e -> empty c = ARP_TABLE_SIZE /\ Forall used t) /\ (~ used e -> empty c <> ARP_TABLE_SIZE).
Proof.
  intros t [S1 S2 S3 S4] Hok Hl. unfold recycle. destruct S1 as [[E1 HF]|(k & e & -> & Hk & He)].
  2:{ apply lookup_lt_Some in Hk as ?. unfold ARP_TABLE_SIZE. replace (Z.of_nat k <? 10) with true by (symmetry; apply Z.ltb_lt; lia).
      exists k, e. rewrite not_used by done. split_and!; try done; [by apply least_empty, not_used|lia]. }
  rewrite E1. change (10 <? ARP_TABLE_SIZE) with false. cbv iota.
  assert (Hpick : forall k e, t !! k = Some e -> used e -> least_important t e ->
    exists k' e', (let! w := etharp_free_entry w (Z.of_nat k) in Ok (Some (Z.of_nat k, w))) = Ok (Some (Z.of_nat k',
      if is_empty (ae_state e') then w else set_table (emit w (free_q e')) (<[k' := blank]> t))) /\
    t !! k' = Some e' /\ least_important t e' /\ (used e' -> 10 = ARP_TABLE_SIZE /\ Forall used t) /\ (~ used e' -> 10 <> ARP_TABLE_SIZE)).
  { intros k e Hk Hu Hv. rewrite (etharp_free_entry_eq _ _ _ Hk). exists k, e. by rewrite Hu. }
  assert (R : forall e, used e -> c_stable e = (rank e =? 1) /\ c_pending e = (rank e =? 2) /\ c_queue e = (rank e =? 3)).
  { intros e He. by destruct (used_rank e He) as (? & ? & ? & _). }
  destruct (oldest_rank _ 1 _ _ _ S2 Hl HF) as [[-> N2]|(-> & k & e & -> & Hk & Hu & HP & Hv)]; [lia|by apply R| | |].
  { revert HF. apply Forall_impl. intros e He. destruct (used_rank e He) as (_ & _ & _ & ?). lia. }
  2:{ fold t. rewrite (rd_at _ _ _ Hk). cbn [obind]. rewrite stable_no_q by (done || (rewrite list.Forall_forall in Hok; apply Hok; by eapply list_elem_of_lookup_2)).
      rewrite bool_decide_eq_true_2 by done. cbn [guard_ub obind]. by apply (Hpick k e). }
  destruct (oldest_rank _ 2 _ _ _ S3 Hl HF) as [[-> N3]|(-> & k & e & -> & Hk & Hu & HP & Hv)]; [lia|by apply R|done| |by apply (Hpick k e)].
  destruct (oldest_rank _ 3 _ _ _ S4 Hl HF) as [[-> N4]|(-> & k & e & -> & Hk & Hu & HP & Hv)]; [lia|by apply R|done| |by apply (Hpick k e)].
  exfalso. destruct t as [|e t']; [done|]. apply list.Forall_cons in N4 as [N4 _], HF as [He _].
  destruct (used_rank e He) as (_ & _ & _ & ?). cbn in N4. lia.
Qed.

Lemma find_new w w' k e ip : entry_ok e -> arp_table w !! k = Some e ->
  w' = (if is_empty (ae_state e) then w else set_table (emit w (free_q e)) (<[k := blank]> (arp_table w))) ->
  exists w1, (let! e := rd (arp_table w') (Z.of_nat k) in
     let! _ := guard_ub (is_empty (ae_state e)) in
     let! w := modify w' (Z.of_nat k) (set_ip ip) in
     let! w := modify w (Z.of_nat k) (set_ctime 0) in Ok (Z.of_nat k, w)) = Ok (Z.of_nat k, w1) /\
    became w (<[k := recycled e ip]> (arp_table w)) (etharp_cached_entry w) (free_q e) w1.
Proof.
  intros Hok Hk Hw. apply lookup_lt_Some in Hk as Hlt. unfold recycled.
  set (b := if is_empty (ae_state e) then e else blank).
  assert (Hb : arp_table w' !! k = Some b /\ is_empty (ae_state b) = true).
  { subst w' b. destruct (is_empty _) eqn:E; [done|]. split; [by apply list_lookup_insert_eq|done]. }
  destruct Hb as [Hb Eb]. rewrite (rd_at _ _ _ Hb). cbn [obind]. rewrite Eb. cbn [guard_ub obind]. rewrite (modify_eq _ _ b) by done. cbn [obind].
  apply lookup_lt_Some in Hb as Hlt'. rewrite (modify_eq _ _ (set_ip ip b)) by by apply list_lookup_insert_eq. cbn [obind].
  eexists. split; [reflexivity|]. subst w' b. unfold free_q. destruct (is_empty (ae_state e)) eqn:E.
  - assert (ae_q e = None) as ->. { pose proof (eo_q e Hok) as Hq. destruct (ae_q e); [destruct Hq as [Hq _]; by rewrite Hq in E|done]. }
    split; try done; cbn; [by rewrite list_insert_insert_eq|by rewrite app_nil_r].
  - split; try done. cbn. by rewrite !list_insert_insert_eq.
Qed.

Lemma etharp_find_entry_spec w ip flags : table_ok (arp_table w) ->
  wp (etharp_find_entry w (Some ip) flags) (fun '(i, w') => found w ip flags i w').
Proof.
  intros [Hl Hok Hd]. unfold etharp_find_entry. pose proof (find_sweep_spec (arp_table w) [] ip no_candidates Hok ltac:(cbn; lia) swept_nil) as Hs.
  cbn [app] in Hs. change (zlen []) with 0 in Hs. destruct (find_sweep _ _ _ _) as [i|c].
  { destruct Hs as (k & e & -> & Hk & Hu & He). by eapply found_match. }
  destruct Hs as [Hs Hn]. destruct (recycle_spec w c Hs Hok Hl) as (k & e & Er & Hk & Hv & Hall & Hne).
  destruct (Z.eqb_spec (Z.land flags ETHARP_FLAG_FIND_ONLY) 0) as [F1|F1]; cbn [negb orb].
  2:{ apply found_none; [done|by left]. }
  destruct ((empty c =? ARP_TABLE_SIZE) && (Z.land flags ETHARP_FLAG_TRY_HARD =? 0)) eqn:F2.
  { apply andb_true_iff in F2 as [F2%Z.eqb_eq F3%Z.eqb_eq]. apply found_none; [done|right]. split; [done|].
    destruct (is_empty (ae_state e)) eqn:E; [|by apply Hall]. exfalso. apply Hne; [|done]. unfold used. congruence. }
  rewrite Er. cbn [obind]. rewrite list.Forall_forall in Hok.
  edestruct (find_new w _ k e ip (Hok e ltac:(by eapply list_elem_of_lookup_2)) Hk eq_refl) as (w1 & E1 & Hb).
  change (fun e => set_ip ip e) with (set_ip ip). rewrite E1. cbn [wp]. apply (found_new _ _ _ _ e); try done.
  intros F3 Hu. destruct (Hall Hu) as [E10 _]. by rewrite E10, F3 in F2.
Qed.

(** *** The invariant *)

Record netif_ok (nf : netif) : Prop := NetifOk { no_mac : mac (nif_hwaddr nf) }.

Record world_ok (w : world) : Prop := WorldOk {
  wo_table : table_ok (arp_table w);
  wo_cached : 0 <= etharp_cached_entry w < ARP_TABLE_SIZE;
  wo_netif : forall n, netif_ok (netif_at w n);
}.

Lemma lookup_ok t k e : table_ok t -> t !! k = Some e -> entry_ok e.
Proof. intros [_ H _] Hk. rewrite list.Forall_forall in H. apply H. by eapply list_elem_of_lookup_2. Qed.

Lemma table_ok_set t k e0 e : table_ok t -> t !! k = Some e0 -> entry_ok e ->
  (used e -> (used e0 /\ ae_ipaddr e0 = ae_ipaddr e) \/ no_match t (ae_ipaddr e)) -> table_ok (<[k := e]> t).
Proof.
  intros [Hl Hok Hd] Hk He Hip. split; [by rewrite length_insert|by apply Forall_insert|].
  assert (Hne : forall j a, j <> k -> t !! j = Some a -> used a -> used e -> ae_ipaddr a <> ae_ipaddr e).
  { intros j a Hjk Hj Ha Hu Ea. destruct (Hip Hu) as [[Hu0 E0]|Hn].
    - apply Hjk. apply (Hd j k a e0); congruence || done.
    - unfold no_match in Hn. rewrite list.Forall_forall in Hn. by apply (Hn a); [eapply list_elem_of_lookup_2|..]. }
  intros i j a b Hi Hj Hua Hub Eab. apply list_lookup_insert_Some in Hi, Hj.
  destruct Hi as [(<- & <- & _)|[Hi1 Hi2]], Hj as [(<- & <- & _)|[Hj1 Hj2]]; try done.
  - exfalso. by apply (Hne j b).
  - exfalso. by apply (Hne i a).
  - by apply (Hd i j a b).
Qed.

Lemma not_used_ok e : mac (ae_ethaddr e) -> ae_state e = ETHARP_STATE_EMPTY -> ae_q e = None -> ae_netif e = None -> entry_ok e.
Proof. intros H1 H2 H3 H4. split; unfold used; rewrite ?H2, ?H3; try done. Qed.

Lemma blank_ok : entry_ok blank.
Proof. by apply not_used_ok. Qed.

Lemma recycled_ok e ip : entry_ok e -> entry_ok (recycled e ip) /\ ae_state (recycled e ip) = ETHARP_STATE_EMPTY /\
  ae_q (recycled e ip) = None /\ ae_ipaddr (recycled e ip) = ip.
Proof.
  intros He. unfold recycled. destruct (is_empty (ae_state e)) eqn:E; [|split; [by apply not_used_ok|done]].
  apply is_empty_true in E. assert (ae_q e = None) as Eq.
  { pose proof (eo_q e He) as Hq. destruct (ae_q e); [destruct Hq; congruence|done]. }
  split; [|done]. pose proof (eo_netif e He) as Hn. rewrite E in Hn. by apply not_used_ok; [apply He|..].
Qed.

Lemma became_ok w t c es w' : became w t c es w' -> world_ok w -> table_ok t -> 0 <= c < ARP_TABLE_SIZE -> world_ok w'.
Proof. intros [E1 E2 _ Hn _ _ _] [_ _ Hnf] Ht Hc. split; [by rewrite E1|by rewrite E2|by rewrite Hn]. Qed.

(** *** etharp_tmr, etharp_cleanup_netif *)

(** A loop whose body changes the entry it is at. *)
Section ForEach.
Context (P : etharp_entry -> Prop) (f : etharp_entry -> etharp_entry) (g : etharp_entry -> list event)
  (at_entry : world -> Z -> outcome world).
Hypothesis at_entry_eq : forall w k e, arp_table w !! k = Some e -> P e -> exists w', at_entry w (Z.of_nat k) = Ok w' /\
  became w (<[k := f e]> (arp_table w)) (etharp_cached_entry w) (g e) w'.

Lemma for_each_from w ts1 ts2 : Forall P ts2 -> arp_table w = ts1 ++ ts2 ->
  exists w', for_each (map Z.of_nat (seq (length ts1) (length ts2))) at_entry w = Ok w' /\
    became w (ts1 ++ map f ts2) (etharp_cached_entry w) (concat (map g ts2)) w'.
Proof.
  revert w ts1. induction ts2 as [|e ts2 IH]; intros w ts1 HP Ht; cbn [length seq map for_each concat].
  { exists w. split; [done|]. rewrite <- Ht. apply became_refl. }
  apply list.Forall_cons in HP as [HPe HP].
  destruct (at_entry_eq w (length ts1) e) as (w1 & -> & B1); [by rewrite Ht, list_lookup_middle|done|]. cbn [obind].
  destruct (IH w1 (ts1 ++ [f e]) HP) as (w2 & E2 & B2).
  { rewrite (became_table _ _ _ _ _ B1), Ht. rewrite insert_app_r_alt, Nat.sub_diag by done. by rewrite <- app_assoc. }
  rewrite length_app, Nat.add_1_r in E2. exists w2. split; [done|]. rewrite <- app_assoc in B2.
  rewrite (became_cached _ _ _ _ _ B1) in B2. by eapply became_trans.
Qed.

Lemma for_each_table w : Forall P (arp_table w) -> length (arp_table w) = 10%nat ->
  exists w', for_each table_indices at_entry w = Ok w' /\
    became w (map f (arp_table w)) (etharp_cached_entry w) (concat (map g (arp_table w))) w'.
Proof. intros HP Hl. destruct (for_each_from w [] (arp_table w) HP eq_refl) as (w' & E & B). rewrite Hl in E. by exists w'. Qed.
End ForEach.

(** An entry one tick later. *)
Definition expires (e : etharp_entry) : bool :=
  negb (is_empty (ae_state e)) &&
  ((ARP_MAXAGE <=? ae_ctime e + 1) || (is_pending (ae_state e) && (ARP_MAXPENDING <=? ae_ctime e + 1))).
Definition aged (e : etharp_entry) : etharp_entry :=
  if is_empty (ae_state e) then e
  else if expires e then blank
  else EtharpEntry (ae_q e) (ae_ipaddr e) (ae_netif e) (ae_ethaddr e)
         (if is_rerequesting (ae_state e) then ETHARP_STATE_STABLE else ae_state e) (ae_ctime e + 1).
Definition expired_q (e : etharp_entry) : list event := if expires e then free_q e else [].

Lemma tmr_entry_eq w k e : arp_table w !! k = Some e -> entry_ok e -> exists w', tmr_entry w (Z.of_nat k) = Ok w' /\
  became w (<[k := aged e]> (arp_table w)) (etharp_cached_entry w) (expired_q e) w'.
Proof.
  intros Hk He. unfold tmr_entry, aged, expired_q, expires. rewrite (rd_at _ _ _ Hk). cbn [obind].
  destruct (is_empty (ae_state e)) eqn:Ee; cbn [negb andb].
  { exists w. split; [done|]. rewrite list_insert_id by done. apply became_refl. }
  assert (u8 (ae_ctime e + 1) = ae_ctime e + 1) as ->.
  { apply u8_small. pose proof (eo_age e He Ee). unfold ARP_MAXPENDING, ARP_MAXAGE in *. destruct (is_pending _); lia. }
  rewrite (modify_eq _ _ e) by done. cbn [obind]. apply lookup_lt_Some in Hk as Hlt.
  pose proof (list_lookup_insert_eq (arp_table w) k (set_ctime (ae_ctime e + 1) e) Hlt) as Hk'.
  destruct ((ARP_MAXAGE <=? ae_ctime e + 1) || _).
  - rewrite (etharp_free_entry_eq _ k (set_ctime (ae_ctime e + 1) e)) by exact Hk'. eexists. split; [reflexivity|]. cbn. rewrite list_insert_insert_eq. by split.
  - destruct (is_rerequesting _).
    + rewrite (modify_eq _ k (set_ctime (ae_ctime e + 1) e)) by exact Hk'. eexists. split; [reflexivity|]. cbn. rewrite list_insert_insert_eq. split; try done. cbn. by rewrite app_nil_r.
    + eexists. split; [reflexivity|]. split; try done. cbn. by rewrite app_nil_r.
Qed.

Lemma aged_ok e : entry_ok e -> entry_ok (aged e) /\ (used (aged e) -> used e /\ ae_ipaddr (aged e) = ae_ipaddr e).
Proof.
  intros He. unfold aged. destruct (is_empty (ae_state e)) eqn:Ee; [split; [done|unfold used; congruence]|].
  destruct (expires e) eqn:Ex; [split; [apply blank_ok|done]|]. split; [|done].
  unfold expires in Ex. rewrite Ee in Ex. cbn in Ex. apply orb_false_iff in Ex as [E1%Z.leb_gt E2].
  destruct He as [H1 H2 H3 H4 H5]. specialize (H3 Ee). specialize (H2 Ee). split; cbn; try done.
  - intros _. destruct (ae_state e); cbn in *; [done|apply Z.leb_gt in E2; lia|lia|lia].
  - destruct (ae_q e); [|done]. destruct H4 as [-> ?]. done.
  - destruct (ae_state e); cbn in *; done.
Qed.

Lemma table_ok_map f t : table_ok t ->
  (forall e, entry_ok e -> entry_ok (f e) /\ (used (f e) -> used e /\ ae_ipaddr (f e) = ae_ipaddr e)) ->
  table_ok (map f t).
Proof.
  intros [Hl Hok Hd] Hf. split; [by rewrite length_map|..].
  - apply Forall_map. revert Hok. apply Forall_impl. intros e He. by apply Hf.
  - intros i j a b Hi Hj Ha Hb Eab. rewrite list_lookup_fmap in Hi, Hj.
    apply fmap_Some in Hi as (x & Hx & ->), Hj as (y & Hy & ->). rewrite list.Forall_forall in Hok.
    destruct (Hf x) as [_ Fx]; [apply Hok; by eapply list_elem_of_lookup_2|].
    destruct (Hf y) as [_ Fy]; [apply Hok; by eapply list_elem_of_lookup_2|].
    destruct (Fx Ha) as [Ux Ex], (Fy Hb) as [Uy Ey]. apply (Hd i j x y); congruence || done.
Qed.

Lemma etharp_tmr_eq w : table_ok (arp_table w) -> exists w', etharp_tmr w = Ok w' /\
  became w (map aged (arp_table w)) (etharp_cached_entry w) (concat (map expired_q (arp_table w))) w' /\
  table_ok (map aged (arp_table w)).
Proof.
  intros Ht. pose proof (to_size _ Ht) as Hl. pose proof (to_entry _ Ht) as Hok.
  destruct (for_each_table entry_ok aged expired_q tmr_entry tmr_entry_eq w Hok Hl) as (w' & E & B).
  exists w'. split_and!; [done..|]. apply table_ok_map; [done|apply aged_ok].
Qed.

Definition of_netif (n : Z) (e : etharp_entry) : bool := negb (is_empty (ae_state e)) && bool_decide (ae_netif e = Some n).
Definition cleaned (n : Z) (e : etharp_entry) : etharp_entry := if of_netif n e then blank else e.
Definition cleaned_q (n : Z) (e : etharp_entry) : list event := if of_netif n e then free_q e else [].

Lemma etharp_cleanup_netif_eq w n : table_ok (arp_table w) -> exists w', etharp_cleanup_netif w n = Ok w' /\
  became w (map (cleaned n) (arp_table w)) (etharp_cached_entry w) (concat (map (cleaned_q n) (arp_table w))) w' /\
  table_ok (map (cleaned n) (arp_table w)).
Proof.
  intros Ht. pose proof (to_size _ Ht) as Hl. pose proof (to_entry _ Ht) as Hok.
  destruct (for_each_table entry_ok (cleaned n) (cleaned_q n) (cleanup_entry n)) with (w := w) as (w' & E & B); [|done..|].
  - clear. intros w k e Hk _. unfold cleanup_entry, cleaned, cleaned_q. rewrite (rd_at _ _ _ Hk). cbn [obind]. fold (of_netif n e).
    destruct (of_netif n e); [rewrite (etharp_free_entry_eq _ _ _ Hk); eexists; split; [reflexivity|apply became_set]|].
    exists w. split; [done|]. rewrite list_insert_id by done. apply became_refl.
  - exists w'. split_and!; [done..|]. apply table_ok_map; [done|]. intros e He. unfold cleaned.
    destruct (of_netif n e); [split; [apply blank_ok|done]|done].
Qed.

(** *** etharp_update_arp_entry *)

(** The packet that waits in [e], sent on interface [n] to [m]. *)
Definition sent_q (n : Z) (hw m : list Z) (e : etharp_entry) : list event :=
  match ae_q e with Some p => [Out n (ip_frame m hw (body p)); Drop (pk_id p)] | None => [] end.

Definition learnt_entry (n ip : Z) (m : list Z) : etharp_entry := EtharpEntry None ip (Some n) m ETHARP_STATE_STABLE 0.

Definition not_unicast (ip : Z) (nf : netif) : bool := ip_addr_isany ip || ip_addr_isbroadcast ip nf || ip_addr_ismulticast ip.

Lemma not_unicast_false ip nf : not_unicast ip nf = false -> unicast ip /\ ip_addr_isbroadcast ip nf = false.
Proof.
  unfold not_unicast, ip_addr_isany. intros [[H1 H2]%orb_false_iff H3]%orb_false_iff. split; [|done].
  split_and!; [by apply Z.eqb_neq|intros ->; done|done].
Qed.

Inductive updated (w : world) (n ip : Z) (m : list Z) (flags : Z) : Z -> world -> Prop :=
  | updated_refused : not_unicast ip (netif_at w n) = true -> updated w n ip m flags ERR_ARG w
  | updated_none : not_unicast ip (netif_at w n) = false -> no_match (arp_table w) ip ->
      Z.land flags ETHARP_FLAG_FIND_ONLY <> 0 \/ (Z.land flags ETHARP_FLAG_TRY_HARD = 0 /\ Forall used (arp_table w)) ->
      updated w n ip m flags ERR_MEM w
  | updated_match k e w' : not_unicast ip (netif_at w n) = false ->
      arp_table w !! k = Some e -> used e -> ae_ipaddr e = ip ->
      became w (<[k := learnt_entry n ip m]> (arp_table w)) (etharp_cached_entry w) (sent_q n (nif_hwaddr (netif_at w n)) m e) w' ->
      updated w n ip m flags ERR_OK w'
  | updated_new k e w' : not_unicast ip (netif_at w n) = false -> no_match (arp_table w) ip ->
      Z.land flags ETHARP_FLAG_FIND_ONLY = 0 -> (Z.land flags ETHARP_FLAG_TRY_HARD = 0 -> ~ used e) ->
      arp_table w !! k = Some e -> least_important (arp_table w) e ->
      became w (<[k := learnt_entry n ip m]> (arp_table w)) (etharp_cached_entry w) (free_q e) w' ->
      updated w n ip m flags ERR_OK w'.

(** The part behind etharp_find_entry. *)
Lemma update_tail w n ip m k e0 : world_ok w -> mac m -> arp_table w !! k = Some e0 -> entry_ok e0 -> ae_ipaddr e0 = ip ->
  wp (let! w := modify w (Z.of_nat k) (fun e => EtharpEntry (ae_q e) (ae_ipaddr e) (Some n) m ETHARP_STATE_STABLE 0) in
      let! e := rd (arp_table w) (Z.of_nat k) in
      match ae_q e with
      | None => Ok (ERR_OK, w)
      | Some p =>
          let! w := modify w (Z.of_nat k) (set_q None) in
          let! (_, w) := etharp_send_ip lw w n p (nif_hwaddr (netif_at w n)) m in
          Ok (ERR_OK, emit w [Drop (pk_id p)])
      end)
    (fun '(r, w') => r = ERR_OK /\ became w (<[k := learnt_entry n ip m]> (arp_table w)) (etharp_cached_entry w)
       (sent_q n (nif_hwaddr (netif_at w n)) m e0) w').
Proof.
  intros [Ht _ Hnf] Hm Hk He <-. rewrite (modify_eq _ _ _ _ Hk). cbn [obind]. apply lookup_lt_Some in Hk as Hlt.
  erewrite rd_at by by apply list_lookup_insert_eq. cbn [obind ae_q]. unfold sent_q, learnt_entry.
  pose proof (eo_q _ He) as Hq. destruct (ae_q e0) as [p|] eqn:Eq.
  - destruct Hq as [_ Hh]. erewrite modify_eq by by apply list_lookup_insert_eq. cbn [obind].
    rewrite etharp_send_ip_eq by (done || apply Hnf). cbn [obind wp]. split; [done|]. cbn. rewrite list_insert_insert_eq.
    split; try done. cbn. by rewrite <- app_assoc.
  - split; [done|]. split; try done. cbn. by rewrite app_nil_r.
Qed.

Lemma etharp_update_arp_entry_spec w n ip m flags : world_ok w -> mac m ->
  wp (etharp_update_arp_entry lw w n ip m flags) (fun '(r, w') => updated w n ip m flags r w').
Proof.
  intros Hw Hm. unfold etharp_update_arp_entry. fold (not_unicast ip (netif_at w n)).
  destruct (not_unicast ip (netif_at w n)) eqn:Eu; [by apply updated_refused|].
  wpb etharp_find_entry_spec; [apply Hw|]. intros (i & w1) Hf. destruct Hf as [k e Hk Hu He|Hn Hc|k e w1 Hn F1 F2 Hk Hv B].
  - destruct (Z.ltb_spec (Z.of_nat k) 0); [lia|]. eapply wp_mono; [by eapply (update_tail w n ip m k e); [..|eapply lookup_ok; [apply Hw|]|]|].
    intros (r & w') [-> B]. by eapply updated_match.
  - cbn. by apply updated_none.
  - destruct (Z.ltb_spec (Z.of_nat k) 0); [lia|]. pose proof (lookup_ok _ _ _ (wo_table _ Hw) Hk) as He.
    destruct (recycled_ok e ip He) as (R1 & R2 & R3 & R4). apply lookup_lt_Some in Hk as Hlt.
    assert (Hk1 : arp_table w1 !! k = Some (recycled e ip)) by (rewrite (became_table _ _ _ _ _ B); by apply list_lookup_insert_eq).
    eapply wp_mono; [eapply (update_tail w1 n ip m k (recycled e ip)); try done|].
    { eapply became_ok; [done|done| |apply Hw]. eapply table_ok_set; [apply Hw|done|done|]. unfold used. by rewrite R2. }
    intros (r & w') [-> B']. eapply updated_new; try done. unfold sent_q in B'. rewrite R3 in B'.
    pose proof (became_trans _ _ _ _ _ _ _ _ _ B B') as BB. rewrite (became_table _ _ _ _ _ B), list_insert_insert_eq, (became_cached _ _ _ _ _ B), app_nil_r in BB.
    done.
Qed.

Lemma learnt_ok n ip m : unicast ip -> mac m -> entry_ok (learnt_entry n ip m).
Proof. intros Hu Hm. by split; cbn. Qed.

Lemma updated_ok w n ip m flags r w' : world_ok w -> mac m -> updated w n ip m flags r w' -> world_ok w'.
Proof.
  intros Hw Hm [|?|k e w1 Hu Hk Hue He B|k e w1 Hu Hn _ _ Hk _ B]; try done; apply not_unicast_false in Hu as [Hu _];
    (eapply became_ok; [done|done| |apply Hw]); (eapply table_ok_set; [apply Hw|done|by apply learnt_ok|intros _]); [left|right]; done.
Qed.

(** *** etharp_request, etharp_output_to_arp_index *)

(** What a request leaves on the link: nothing without memory. *)
Definition request_events (n : Z) (nf : netif) (ip : Z) (ev : list event) : Prop :=
  ev = [] \/ exists id, ev = [Take id; Out n (arp_frame ethbroadcast (nif_hwaddr nf) (request_hdr nf ip)); Drop id].

(** Every request for memory succeeds. *)
Definition plenty : Prop := forall k, lw_alloc lw k = true.

Lemma etharp_request_became w n ip : exists ev,
  became w (arp_table w) (etharp_cached_entry w) ev (snd (etharp_request lw w n ip)) /\
  request_events n (netif_at w n) ip ev /\ (plenty -> ev <> []).
Proof.
  unfold etharp_request. destruct (etharp_raw_became w n (nif_hwaddr (netif_at w n)) ethbroadcast (nif_hwaddr (netif_at w n))
    (nif_ip_addr (netif_at w n)) ethzero ip ARP_REQUEST) as (ev & B & Hev).
  exists ev. split; [done|]. destruct Hev as [(-> & E & _)|(E & ->)].
  - split; [by left|]. intros Hp. by rewrite Hp in E.
  - split; [|done]. right. exists (next_id w). by destruct (ip_addr_islinklocal _).
Qed.

Lemma etharp_output_to_arp_index_spec w n q k e : world_ok w -> arp_table w !! k = Some e -> is_stable (ae_state e) = true -> has_header q ->
  wp (etharp_output_to_arp_index lw w n q (Z.of_nat k)) (fun '(_, w') => exists ev s,
    request_events n (netif_at w n) (ae_ipaddr e) ev /\ is_stable s = true /\
    (ev <> [] -> ARP_AGE_REREQUEST_USED <= ae_ctime e) /\
    became w (<[k := set_state s e]> (arp_table w)) (etharp_cached_entry w)
      (ev ++ [Out n (ip_frame (ae_ethaddr e) (nif_hwaddr (netif_at w n)) (body q))]) w').
Proof.
  intros Hw Hk Hs Hq. unfold etharp_output_to_arp_index. rewrite (rd_at _ _ _ Hk). cbn [obind]. rewrite Hs. cbn [guard_ub obind].
  pose proof (lookup_ok _ _ _ (wo_table _ Hw) Hk) as He. apply lookup_lt_Some in Hk as Hlt.
  assert (Hsend : forall w1 ev s, became w (<[k := set_state s e]> (arp_table w)) (etharp_cached_entry w) ev w1 ->
    request_events n (netif_at w n) (ae_ipaddr e) ev -> is_stable s = true -> (ev <> [] -> ARP_AGE_REREQUEST_USED <= ae_ctime e) ->
    wp (let! e := rd (arp_table w1) (Z.of_nat k) in etharp_send_ip lw w1 n q (nif_hwaddr (netif_at w1 n)) (ae_ethaddr e))
      (fun '(_, w') => exists ev s, request_events n (netif_at w n) (ae_ipaddr e) ev /\ is_stable s = true /\
        (ev <> [] -> ARP_AGE_REREQUEST_USED <= ae_ctime e) /\
        became w (<[k := set_state s e]> (arp_table w)) (etharp_cached_entry w)
          (ev ++ [Out n (ip_frame (ae_ethaddr e) (nif_hwaddr (netif_at w n)) (body q))]) w')).
  { intros w1 ev s B Hev Hs' Hage. rewrite (became_table _ _ _ _ _ B). erewrite rd_at by by apply list_lookup_insert_eq. cbn [obind ae_ethaddr set_state].
    rewrite (became_netif _ _ _ _ _ B), etharp_send_ip_eq by (done || apply He || apply Hw). cbn [wp]. exists ev, s. split_and!; try done.
    eapply became_trans; [exact B|]. destruct B as [<- <- _ _ _ _ _]. done. }
  assert (Hid : <[k := set_state (ae_state e) e]> (arp_table w) = arp_table w) by (apply list_insert_id; rewrite Hk; by destruct e).
  destruct (is_STABLE (ae_state e) && (ARP_AGE_REREQUEST_USED <=? ae_ctime e)) eqn:Et.
  2:{ cbn [obind]. apply (Hsend w [] (ae_state e)); [rewrite Hid; apply became_refl|by left|done|done]. }
  apply andb_true_iff in Et as [_ Hage%Z.leb_le].
  destruct (etharp_request_became w n (ae_ipaddr e)) as (ev & B & Hev & _).
  destruct (etharp_request lw w n (ae_ipaddr e)) as [r w1]. cbn [snd] in B. destruct (r =? ERR_OK).
  - erewrite modify_eq by (rewrite (became_table _ _ _ _ _ B); exact Hk). cbn [obind].
    eapply (Hsend _ ev ETHARP_STATE_STABLE_REREQUESTING); try done. destruct B. split; try done; cbn; congruence.
  - cbn [obind]. apply (Hsend w1 ev (ae_state e)); try done. by rewrite Hid.
Qed.

(** *** etharp_query *)

(** The packet that is queued for [q], and the references to pbufs taken and
    given up on the way. *)
Definition held (q : option packet) (p : option packet) (tk : list event) : Prop :=
  match p with
  | Some p' => tk = [Take (pk_id p')] /\ has_header p' /\ exists q', q = Some q' /\ body p' = body q'
  | None => tk = [] \/ exists id, tk = [Take id; Drop id]
  end.

Definition head_writable (q : packet) : Prop := match pk_chain q with (t, _) :: _ => t <> PBUF_ROM | [] => True end.

Lemma take_over_became w q : has_header q ->
  wp (take_over lw w q) (fun r => exists tk,
    became w (arp_table w) (etharp_cached_entry w) tk (snd r) /\ held (Some q) (fst r) tk /\
    (plenty -> head_writable q -> fst r <> None)).
Proof.
  intros Hq. unfold take_over. destruct (copy_from_ok (pk_chain q)) as (c & -> & Hc); [apply Hq|]. cbn [obind].
  destruct c as [|x c].
  { cbn [wp]. exists [Take (pk_id q)]. split_and!; try done. cbn. split_and!; try done. by exists q. }
  unfold alloc. destruct (lw_alloc lw (answers w)) eqn:Ea; cbn [negb fst snd wp].
  2:{ exists []. split_and!; [split; try done; by rewrite app_nil_r|by left|intros Hp; by rewrite Hp in Ea]. }
  destruct (Z.eqb_spec (pbuf_copy_to (tot_len (x :: c)) (pk_chain q)) ERR_OK) as [Hok|Hno]; cbn [wp fst snd].
  - exists [Take (next_id w)]. split_and!; try done. cbn [held fst]. split_and!; [done| |].
    + split; [|apply tidy_1]. destruct Hq as [Hq _]. cbn [pk_chain]. destruct (pk_chain q) as [|[t bs] r]; [done|]. unfold chain_bytes. cbn. rewrite zlen_app.
      pose proof (zlen_nonneg (concat (map snd r))). lia.
    + exists q. split; [done|]. unfold body. cbn [pk_chain]. by rewrite chain_bytes_1.
  - exists [Take (next_id w); Drop (next_id w)]. split_and!; [split; try done; cbn; by rewrite <- app_assoc|right; by eexists|].
    intros _ Hh. exfalso. destruct Hq as [Hq Ht]. unfold head_writable in Hh. destruct (pk_chain q) as [|[t bs] r] eqn:Eq; [done|].
    rewrite (Hc Hh) in Hno. by apply Hno, pbuf_copy_to_ok.
Qed.

Inductive queried (w : world) (n ip : Z) (q : option packet) : world -> Prop :=
  | queried_refused : not_unicast ip (netif_at w n) = true -> queried w n ip q w
  | queried_stable k e ev w' : arp_table w !! k = Some e -> is_stable (ae_state e) = true -> ae_ipaddr e = ip ->
      match q with
      | Some q => ev = [Out n (ip_frame (ae_ethaddr e) (nif_hwaddr (netif_at w n)) (body q))]
      | None => request_events n (netif_at w n) ip ev
      end ->
      became w (arp_table w) (match q with Some _ => Z.of_nat k | None => etharp_cached_entry w end) ev w' ->
      queried w n ip q w'
  | queried_pending k e e1 es ev tk p w' : not_unicast ip (netif_at w n) = false ->
      arp_table w !! k = Some e ->
      (ae_state e = ETHARP_STATE_PENDING /\ ae_ipaddr e = ip /\ e1 = e /\ es = []) \/
      (no_match (arp_table w) ip /\ least_important (arp_table w) e /\ es = free_q e /\
       e1 = set_state ETHARP_STATE_PENDING (recycled e ip)) ->
      request_events n (netif_at w n) ip ev -> held q p tk ->
      (plenty -> ev <> [] /\ match q with Some q' => head_writable q' -> p <> None | None => True end) ->
      became w (<[k := match p with Some _ => set_q p e1 | None => e1 end]> (arp_table w)) (etharp_cached_entry w)
        (es ++ ev ++ tk ++ match p with Some _ => free_q e1 | None => [] end) w' ->
      queried w n ip q w'.

(** The part of etharp_query behind etharp_find_entry, for a stable entry and
    for a pending one. *)
Definition query_tail (w : world) (n ip k : Z) (q : option packet) (srcaddr : list Z) : outcome (Z * world) :=
  let! e := rd (arp_table w) k in
  let! _ := guard_ub (is_pending (ae_state e) || is_stable (ae_state e)) in
  let (result, w) :=
    if is_pending (ae_state e) || match q with None => true | Some _ => false end
    then etharp_request lw w n ip else (ERR_MEM, w) in
  match q with
  | None => Ok (result, w)
  | Some q =>
      let! e := rd (arp_table w) k in
      if is_stable (ae_state e) then etharp_send_ip lw (ETHARP_SET_HINT w k) n q srcaddr (ae_ethaddr e)
      else if is_pending (ae_state e) then
        let! (p, w) := take_over lw w q in
        match p with
        | None => Ok (ERR_MEM, w)
        | Some p =>
            let w := emit w (free_q e) in
            let! w := modify w k (set_q (Some p)) in
            Ok (ERR_OK, w)
        end
      else Ok (result, w)
  end.

Lemma etharp_query_tail w n ip q : etharp_query lw w n ip q =
  if ip_addr_isbroadcast ip (netif_at w n) || ip_addr_ismulticast ip || ip_addr_isany ip then Ok (ERR_ARG, w)
  else
    let! (i, w1) := etharp_find_entry w (Some ip) ETHARP_FLAG_TRY_HARD in
    if i <? 0 then Ok (i, w1)
    else
      let! w1 := modify w1 i (fun e => if is_empty (ae_state e) then set_state ETHARP_STATE_PENDING e else e) in
      query_tail w1 n ip i q (nif_hwaddr (netif_at w n)).
Proof. done. Qed.

Lemma query_tail_stable w n ip k e q : world_ok w -> arp_table w !! k = Some e -> is_stable (ae_state e) = true -> ae_ipaddr e = ip ->
  match q with Some q => has_header q | None => True end ->
  wp (query_tail w n ip (Z.of_nat k) q (nif_hwaddr (netif_at w n))) (fun '(_, w') => queried w n ip q w').
Proof.
  intros Hw Hk Hs Hip Hq. unfold query_tail. rewrite (rd_at _ _ _ Hk). cbn [obind].
  assert (Hp : is_pending (ae_state e) = false) by by destruct (ae_state e).
  rewrite Hs, Hp. cbn [orb guard_ub obind]. destruct q as [q|].
  - rewrite (rd_at _ _ _ Hk). cbn [obind]. rewrite Hs, etharp_send_ip_eq by (done || apply Hw || apply (lookup_ok _ _ _ (wo_table _ Hw) Hk)).
    cbn [wp]. by eapply (queried_stable _ _ _ _ k e).
  - destruct (etharp_request_became w n ip) as (ev & B & Hev & _). destruct (etharp_request _ _ _ _) as [r w1]. cbn [wp].
    by eapply (queried_stable _ _ _ _ k e).
Qed.

Lemma query_tail_pending w n ip k e q src : arp_table w !! k = Some e -> ae_state e = ETHARP_STATE_PENDING ->
  match q with Some q => has_header q | None => True end ->
  wp (query_tail w n ip (Z.of_nat k) q src) (fun '(_, w') => exists ev tk p,
    request_events n (netif_at w n) ip ev /\ held q p tk /\
    (plenty -> ev <> [] /\ match q with Some q' => head_writable q' -> p <> None | None => True end) /\
    became w (<[k := match p with Some _ => set_q p e | None => e end]> (arp_table w)) (etharp_cached_entry w)
      (ev ++ tk ++ match p with Some _ => free_q e | None => [] end) w').
Proof.
  intros Hk Hs Hq. unfold query_tail. rewrite (rd_at _ _ _ Hk). cbn [obind]. rewrite Hs. cbn [is_pending is_stable orb guard_ub obind].
  destruct (etharp_request_became w n ip) as (ev & B & Hev & Hpl). destruct (etharp_request _ _ _ _) as [r w1]. cbn [snd] in B.
  destruct q as [q|].
  2:{ exists ev, [], None. split_and!; try done; [by left|intros Hp; split; [by apply Hpl|done]|].
      rewrite list_insert_id, !app_nil_r by done. done. }
  rewrite (became_table _ _ _ _ _ B), (rd_at _ _ _ Hk). cbn [obind]. rewrite Hs. cbn [is_pending is_stable].
  wpb (take_over_became w1 q Hq). intros (p & w2) (tk & B2 & Hh & Hpl2). cbn [fst snd] in *.
  pose proof (became_trans _ _ _ _ _ _ _ _ _ B B2) as BB. rewrite (became_table _ _ _ _ _ B), (became_cached _ _ _ _ _ B) in BB.
  destruct p as [p|].
  - erewrite modify_eq by (cbn; rewrite (became_table _ _ _ _ _ BB); exact Hk). cbn [obind wp].
    exists ev, tk, (Some p). split_and!; try done; [intros Hp; split; [by apply Hpl|done]|].
    destruct BB. split; try done; cbn; [congruence|]. rewrite became_log0. by rewrite <- !app_assoc.
  - cbn [wp]. exists ev, tk, None. split_and!; try done; [intros Hp; split; [by apply Hpl|by apply Hpl2]|].
    rewrite list_insert_id, app_nil_r by done. done.
Qed.

Lemma etharp_query_spec w n ip q : world_ok w -> match q with Some q => has_header q | None => True end ->
  wp (etharp_query lw w n ip q) (fun '(_, w') => queried w n ip q w').
Proof.
  intros Hw Hq. rewrite etharp_query_tail.
  replace (_ || _ || _) with (not_unicast ip (netif_at w n)) by (unfold not_unicast; destruct (ip_addr_isany ip), (ip_addr_isbroadcast _ _), (ip_addr_ismulticast _); done).
  destruct (not_unicast ip (netif_at w n)) eqn:Eu; [by apply queried_refused|].
  wpb etharp_find_entry_spec; [apply Hw|]. intros (i & w1) [k e Hk Hu He|Hn [Hc|[Hc _]]|k e w1' Hn F1 F2 Hk Hv B]; try done;
    (destruct (Z.ltb_spec (Z.of_nat k) 0); [lia|]).
  - erewrite modify_eq by done. unfold used in Hu. cbn [obind]. rewrite Hu, list_insert_id by done.
    assert (Ew : set_table w (arp_table w) = w) by by destruct w. rewrite Ew. destruct (is_stable (ae_state e)) eqn:Es; [by eapply query_tail_stable|].
    assert (Ep : ae_state e = ETHARP_STATE_PENDING) by by destruct (ae_state e).
    eapply wp_mono; [by eapply query_tail_pending|]. intros (r & w') (ev & tk & p & H1 & H2 & H3 & H4).
    eapply (queried_pending _ _ _ _ k e e []); try done. by left.
  - pose proof (lookup_ok _ _ _ (wo_table _ Hw) Hk) as He. destruct (recycled_ok e ip He) as (R1 & R2 & R3 & R4). apply lookup_lt_Some in Hk as Hlt.
    erewrite modify_eq by (rewrite (became_table _ _ _ _ _ B); by apply list_lookup_insert_eq). cbn [obind]. rewrite R2. cbn [is_empty].
    rewrite (became_table _ _ _ _ _ B), list_insert_insert_eq.
    eapply wp_mono; [eapply (query_tail_pending _ n ip k (set_state ETHARP_STATE_PENDING (recycled e ip))); [cbn; by apply list_lookup_insert_eq|done|done]|].
    cbn [arp_table set_table etharp_cached_entry netif_at].
    intros (r & w') (ev & tk & p & H1 & H2 & H3 & H4). rewrite list_insert_insert_eq in H4. rewrite (became_netif _ _ _ _ _ B) in H1. eapply (queried_pending _ _ _ _ k e _ (free_q e)); try done; [by right|].
    eapply (became_trans _ (<[k := set_state ETHARP_STATE_PENDING (recycled e ip)]> (arp_table w)) (etharp_cached_entry w)).
    + instantiate (1 := set_table w1' (<[k := set_state ETHARP_STATE_PENDING (recycled e ip)]> (arp_table w))). destruct B. by split.
    + rewrite <- (became_cached _ _ _ _ _ B). done.
Qed.

(** *** etharp_output *)

(** A packet of the IP layer: its header is in the first pbuf, which may have
    room for an Ethernet header in front, and it does not end in an empty
    pbuf. *)
Definition ip_packet (q : packet) : Prop :=
  (match pk_chain q with (_, bs) :: _ => 20 <= zlen bs | [] => False end /\ tidy (pk_chain q)) /\
  match pk_room q with Some room => length room = 14%nat | None => True end.

(** The packet etharp_output works on. *)
Definition moved (q : packet) (room : list Z) : packet :=
  match pk_chain q with
  | (t, bs) :: r => Packet (pk_id q) ((t, room ++ bs) :: r) None (pk_flags q)
  | [] => q
  end.

Lemma eth_header_eq q : ip_packet q ->
  eth_header q = Ok (match pk_room q with Some room => Some (moved q room) | None => None end).
Proof. intros [[Hc _] _]. unfold eth_header, moved. destruct (pk_chain q) as [|[t bs] r]; [done|]. by destruct (pk_room q). Qed.

Lemma moved_header q room : ip_packet q -> pk_room q = Some room ->
  has_header (moved q room) /\ body (moved q room) = chain_bytes (pk_chain q) /\
  (exists t bs r, pk_chain (moved q room) = (t, bs) :: r /\ 34 <= zlen bs).
Proof.
  intros [[Hc Ht] Hr] Er. rewrite Er in Hr. unfold has_header, body, moved. destruct (pk_chain q) as [|[t bs] r]; [done|]. cbn [pk_chain].
  apply (tidy_first _ (t, room ++ bs)) in Ht.
  assert (zlen room = 14) by (unfold zlen; lia). rewrite zlen_app. split_and!; [lia|done| |].
  - unfold chain_bytes. cbn. rewrite <- app_assoc. rewrite drop_app_le by lia. rewrite drop_ge by lia. done.
  - eexists _, _, _. split; [done|]. rewrite zlen_app. lia.
Qed.

Lemma load32_ok bs i : 0 <= i -> i + 4 <= zlen bs -> exists v, load32 bs i = Ok v.
Proof.
  unfold zlen. intros Hi Hl. unfold load32, load16.
  destruct (rd_ok bs i) as (a & -> & _); [lia|]. destruct (rd_ok bs (i + 1)) as (b & -> & _); [lia|].
  destruct (rd_ok bs (i + 2)) as (c & -> & _); [lia|]. destruct (rd_ok bs (i + 2 + 1)) as (d & -> & _); [lia|]. cbn. eauto.
Qed.

Lemma next_hop_ok nf q ip t bs r : pk_chain q = (t, bs) :: r -> 34 <= zlen bs -> exists hop, next_hop nf q ip = Ok hop.
Proof.
  intros Hc Hl. unfold next_hop. rewrite Hc. destruct (load32_ok bs (SIZEOF_ETH_HDR + 12)) as [v ->]; [done|unfold SIZEOF_ETH_HDR; lia|].
  cbn [obind]. repeat case_match; eauto.
Qed.

Lemma find_stable_spec t1 t2 hop :
  match find_stable t2 (zlen t1) hop with
  | Some i => exists k e, i = Z.of_nat k /\ (t1 ++ t2) !! k = Some e /\ is_stable (ae_state e) = true /\ ae_ipaddr e = hop
  | None => Forall (fun e => is_stable (ae_state e) = true -> ae_ipaddr e <> hop) t2
  end.
Proof.
  revert t1. induction t2 as [|e t2 IH]; intros t1; cbn [find_stable]; [constructor|].
  specialize (IH (t1 ++ [e])). rewrite zlen_app, <- app_assoc in IH. unfold ip_addr_cmp.
  destruct (is_stable (ae_state e) && (hop =? ae_ipaddr e)) eqn:E.
  - apply andb_true_iff in E as [E1 E2%Z.eqb_eq]. exists (length t1), e. split_and!; [done|by apply list_lookup_middle|done|done].
  - change (zlen [e]) with 1 in IH. destruct (find_stable t2 (zlen t1 + 1) hop); [done|]. constructor; [|done].
    intros Hs Hh. rewrite Hs, Hh, Z.eqb_refl in E. done.
Qed.

(** The Ethernet destination of a broadcast or multicast. *)
Definition group_mac (nf : netif) (ip : Z) : option (list Z) :=
  if ip_addr_isbroadcast ip nf then Some ethbroadcast
  else if ip_addr_ismulticast ip then Some (mcast_ethaddr ip) else None.

Inductive outputs (w : world) (n : Z) (q : packet) (ip : Z) : world -> Prop :=
  | outputs_refused : pk_room q = None \/ (exists room, pk_room q = Some room /\ group_mac (netif_at w n) ip = None /\
      next_hop (netif_at w n) (moved q room) ip = Ok None) -> outputs w n q ip w
  | outputs_group m w' : pk_room q <> None -> group_mac (netif_at w n) ip = Some m ->
      became w (arp_table w) (etharp_cached_entry w) [Out n (ip_frame m (nif_hwaddr (netif_at w n)) (chain_bytes (pk_chain q)))] w' ->
      outputs w n q ip w'
  | outputs_hit room hop k e ev s c w' : pk_room q = Some room -> group_mac (netif_at w n) ip = None ->
      next_hop (netif_at w n) (moved q room) ip = Ok (Some hop) ->
      arp_table w !! k = Some e -> is_stable (ae_state e) = true -> ae_ipaddr e = hop ->
      request_events n (netif_at w n) hop ev -> is_stable s = true -> (ev <> [] -> ARP_AGE_REREQUEST_USED <= ae_ctime e) ->
      0 <= c < ARP_TABLE_SIZE ->
      became w (<[k := set_state s e]> (arp_table w)) c
        (ev ++ [Out n (ip_frame (ae_ethaddr e) (nif_hwaddr (netif_at w n)) (chain_bytes (pk_chain q)))]) w' ->
      outputs w n q ip w'
  | outputs_miss room hop w' : pk_room q = Some room -> group_mac (netif_at w n) ip = None ->
      next_hop (netif_at w n) (moved q room) ip = Ok (Some hop) ->
      Forall (fun e => is_stable (ae_state e) = true -> ae_ipaddr e <> hop) (arp_table w) ->
      queried w n hop (Some (moved q room)) w' -> outputs w n q ip w'.

Lemma mac_mcast ip : mac (mcast_ethaddr ip).
Proof. done. Qed.

Lemma outputs_to_index w n q ip room hop k e c : world_ok w -> ip_packet q -> pk_room q = Some room ->
  group_mac (netif_at w n) ip = None -> next_hop (netif_at w n) (moved q room) ip = Ok (Some hop) ->
  arp_table w !! k = Some e -> is_stable (ae_state e) = true -> ae_ipaddr e = hop -> 0 <= c < ARP_TABLE_SIZE ->
  wp (etharp_output_to_arp_index lw (ETHARP_SET_HINT w c) n (moved q room) (Z.of_nat k)) (fun '(_, w') => outputs w n q ip w').
Proof.
  intros Hw Hq Er Eg Eh Hk Hs Hip Hc. destruct (moved_header q room Hq Er) as (M1 & M2 & _).
  eapply wp_mono; [apply (etharp_output_to_arp_index_spec _ _ _ k e); [by destruct Hw|done..]|].
  intros (r & w') (ev & s & Hev & Hs' & Hage & B). rewrite M2, Hip in *.
  eapply (outputs_hit _ _ _ _ _ _ k e); try done. destruct B. by split.
Qed.

Lemma etharp_output_spec w n q ip : world_ok w -> ip_packet q ->
  wp (etharp_output lw w n q ip) (fun '(_, w') => outputs w n q ip w').
Proof.
  intros Hw Hq. unfold etharp_output. rewrite eth_header_eq by done. cbn [obind].
  destruct (pk_room q) as [room|] eqn:Er; [|by apply outputs_refused; left].
  destruct (moved_header q room Hq Er) as (M1 & M2 & t & bs & r & Ec & Hl).
  destruct (group_mac (netif_at w n) ip) as [m|] eqn:Eg.
  { assert (mac m /\ (if ip_addr_isbroadcast ip (netif_at w n) then etharp_send_ip lw w n (moved q room) (nif_hwaddr (netif_at w n)) ethbroadcast
      else etharp_send_ip lw w n (moved q room) (nif_hwaddr (netif_at w n)) (mcast_ethaddr ip)) = etharp_send_ip lw w n (moved q room) (nif_hwaddr (netif_at w n)) m) as [Hm E].
    { unfold group_mac in Eg. repeat case_match; try done; injection Eg as <-; (split; [|done]); done || apply mac_mcast. }
    unfold group_mac in Eg. assert (E' : forall X, (if ip_addr_isbroadcast ip (netif_at w n) then etharp_send_ip lw w n (moved q room) (nif_hwaddr (netif_at w n)) ethbroadcast
      else if ip_addr_ismulticast ip then etharp_send_ip lw w n (moved q room) (nif_hwaddr (netif_at w n)) (mcast_ethaddr ip) else X) = etharp_send_ip lw w n (moved q room) (nif_hwaddr (netif_at w n)) m).
    { intros X. rewrite <- E. repeat case_match; done. }
    rewrite E', etharp_send_ip_eq by (done || apply Hw). cbn [wp]. eapply (outputs_group _ _ _ _ m); [congruence|exact Eg|].
    rewrite M2. split; done. }
  assert (ip_addr_isbroadcast ip (netif_at w n) = false /\ ip_addr_ismulticast ip = false) as [E1 E2] by (unfold group_mac in Eg; repeat case_match; done).
  rewrite E1, E2. destruct (next_hop_ok (netif_at w n) (moved q room) ip t bs r Ec Hl) as [[hop|] Eh]; rewrite Eh; cbn [obind].
  2:{ apply outputs_refused. right. by exists room. }
  pose proof (to_size _ (wo_table _ Hw)) as Hsz. pose proof (wo_cached _ Hw) as Hc. unfold ARP_TABLE_SIZE in Hc.
  destruct (rd_ok (arp_table w) (etharp_cached_entry w)) as (e & -> & He); [lia|]. cbn [obind].
  assert (Hself : ETHARP_SET_HINT w (etharp_cached_entry w) = w) by by destruct w.
  destruct (is_stable (ae_state e) && ip_addr_cmp hop (ae_ipaddr e)) eqn:Ehit.
  { apply andb_true_iff in Ehit as [H1 H2%Z.eqb_eq]. rewrite <- Hself at 1. rewrite <- (Z2Nat.id (etharp_cached_entry w)) at 2 by lia.
    by eapply outputs_to_index. }
  pose proof (find_stable_spec [] (arp_table w) hop) as Hf. change (zlen []) with 0 in Hf. cbn [app] in Hf.
  destruct (find_stable (arp_table w) 0 hop) as [i|].
  - destruct Hf as (k & e' & -> & Hk & Hs & Hip). apply lookup_lt_Some in Hk as Hlt. eapply outputs_to_index; try done. unfold ARP_TABLE_SIZE. lia.
  - eapply wp_mono; [by apply (etharp_query_spec w n hop (Some (moved q room)))|]. intros (r' & w') Hqd. by eapply outputs_miss.
Qed.

(** *** The invariant is kept *)

Lemma unchanged_ok w t c es w' : became w t c es w' -> t = arp_table w -> 0 <= c < ARP_TABLE_SIZE -> world_ok w -> world_ok w'.
Proof. intros B -> Hc Hw. eapply became_ok; [done|done|apply Hw|done]. Qed.

Lemma pending_ok e ip : entry_ok e -> unicast ip -> entry_ok (set_state ETHARP_STATE_PENDING (recycled e ip)).
Proof.
  intros He Hu. destruct (recycled_ok e ip He) as (R1 & R2 & R3 & R4). split; cbn; rewrite ?R3, ?R4; try done; [apply R1| |].
  - intros _. unfold recycled. by destruct (is_empty (ae_state e)).
  - pose proof (eo_netif _ R1) as Hn. by rewrite R2 in Hn.
Qed.

Lemma set_q_ok e p : entry_ok e -> ae_state e = ETHARP_STATE_PENDING -> has_header p -> entry_ok (set_q (Some p) e).
Proof. intros [H1 H2 H3 H4 H5] Hs Hh. by split. Qed.

Lemma queried_ok w n ip q w' : world_ok w -> match q with Some q => has_header q | None => True end -> queried w n ip q w' -> world_ok w'.
Proof.
  intros Hw Hq [|k e ev w1 Hk Hs Hip Hev B|k e e1 es ev tk p w1 Hu Hk Hc Hev Hp _ B]; [done|..].
  - eapply unchanged_ok; [done|done| |done]. apply lookup_lt_Some in Hk. rewrite (to_size _ (wo_table _ Hw)) in Hk.
    destruct q; [unfold ARP_TABLE_SIZE; lia|apply Hw].
  - apply not_unicast_false in Hu as [Hu _]. pose proof (lookup_ok _ _ _ (wo_table _ Hw) Hk) as He.
    assert (H1 : entry_ok e1 /\ ae_state e1 = ETHARP_STATE_PENDING /\ ae_ipaddr e1 = ip /\
      ((used e /\ ae_ipaddr e = ip) \/ no_match (arp_table w) ip)).
    { destruct Hc as [(H1 & H2 & -> & _)|(H1 & _ & _ & ->)].
      - split_and!; try done. left. split; [|done]. unfold used. by rewrite H1.
      - split_and!; [by apply pending_ok|done|by apply recycled_ok|by right]. }
    destruct H1 as (O1 & O2 & O3 & O4). eapply became_ok; [done|done| |apply Hw]. eapply table_ok_set; [apply Hw|done| |].
    + destruct p; [|done]. destruct Hp as (_ & Hh & _). by apply set_q_ok.
    + intros _. assert (ae_ipaddr (match p with Some _ => set_q p e1 | None => e1 end) = ip) as -> by (destruct p; exact O3). done.
Qed.

Lemma outputs_ok w n q ip w' : world_ok w -> ip_packet q -> outputs w n q ip w' -> world_ok w'.
Proof.
  intros Hw Hq [|m w1 _ _ B|room hop k e ev s c w1 _ _ _ Hk Hs Hip _ Hs' _ Hc B|room hop w1 Er _ _ _ Hqd]; [done|..].
  - eapply unchanged_ok; [done|done|apply Hw|done].
  - eapply became_ok; [done|done| |done]. pose proof (lookup_ok _ _ _ (wo_table _ Hw) Hk) as He.
    assert (Hns : forall x, is_stable x = true -> is_empty x = false /\ is_pending x = false) by by intros [].
    destruct (Hns _ Hs) as [N1 N2], (Hns _ Hs') as [N3 N4].
    eapply table_ok_set; [apply Hw|done| |by left].
    destruct He as [H1 H2 H3 H4 H5]. split; cbn; unfold used in *; rewrite ?N3, ?N4 in *; cbn; try done; [by intros; apply H2|rewrite N1, N2 in H3; by intros; apply H3| |by rewrite Hs' ; rewrite Hs in H5].
    destruct (ae_q e); [|done]. destruct H4 as [H4 _]. by rewrite H4 in Hs.
  - eapply queried_ok; [done| |done]. by destruct (moved_header q room Hq Er).
Qed.

(** ** Properties *)

(** Etharp_find_entry, for an address. Whatever the table, it returns: the
    entry of the address when there is one; otherwise, when the flags let it
    create one, an entry it has reset, which was the least important one of
    the table (an empty one if there is one, then the oldest stable one, then
    the oldest pending one, those with a packet last), and a packet the entry
    held is freed. It changes nothing else. When it may recycle entries
    (ETHARP_FLAG_TRY_HARD) it never fails. *)
Theorem etharp_find_entry_policy w ip flags : table_ok (arp_table w) ->
  wp (etharp_find_entry w (Some ip) flags) (fun '(i, w') =>
    found w ip flags i w' /\ (flags = ETHARP_FLAG_TRY_HARD -> 0 <= i)).
Proof.
  intros Ht. eapply wp_mono; [by apply etharp_find_entry_spec|]. intros (i & w') Hf. split; [done|].
  intros ->. destruct Hf as [| _ [Hc|[Hc _]]|]; done || lia.
Qed.

(** [j] calls of the timer, five seconds apart. *)
Fixpoint ticks (j : nat) (w : world) : outcome world :=
  match j with O => Ok w | S j => let! w := etharp_tmr w in ticks j w end.

Lemma ticks_blank j w k : table_ok (arp_table w) -> arp_table w !! k = Some blank ->
  wp (ticks j w) (fun w' => arp_table w' !! k = Some blank /\ exists es, log w' = log w ++ es).
Proof.
  revert w. induction j as [|j IH]; intros w Ht Hk; cbn [ticks].
  { split; [done|]. exists []. by rewrite app_nil_r. }
  destruct (etharp_tmr_eq w Ht) as (w1 & -> & B & Ht'). cbn [obind]. eapply wp_mono; [apply IH|].
  - by rewrite (became_table _ _ _ _ _ B).
  - by rewrite (became_table _ _ _ _ _ B), list_lookup_fmap, Hk.
  - intros w' (H1 & es & H2). split; [done|]. rewrite (became_log _ _ _ _ _ B) in H2. eexists. by rewrite H2, <- app_assoc.
Qed.

Definition lifetime (e : etharp_entry) : Z := (if is_pending (ae_state e) then ARP_MAXPENDING else ARP_MAXAGE) - ae_ctime e.

Lemma expires_lifetime e : entry_ok e -> used e -> 0 < lifetime e /\ expires e = (lifetime e =? 1).
Proof.
  intros He Hu. pose proof (eo_age _ He Hu) as Ha. unfold lifetime, expires. unfold used in Hu. rewrite Hu. cbn [negb andb].
  unfold ARP_MAXAGE, ARP_MAXPENDING in *. destruct (is_pending (ae_state e)); cbn [andb orb]; (split; [lia|]); ztests; done || lia.
Qed.

(** How long an entry lives. Between two changes of an entry of the
    table, its age grows by one with every call of etharp_tmr; it is kept,
    with its addresses and the packet that waits in it, until it has reached
    240 calls (20 minutes) when it is resolved, 2 calls when it is pending;
    then it is removed, and a packet that still waits in it is freed. *)
Theorem arp_entry_lives w k e j : table_ok (arp_table w) -> arp_table w !! k = Some e -> used e ->
  wp (ticks j w) (fun w' =>
    (Z.of_nat j < lifetime e -> exists e', arp_table w' !! k = Some e' /\
       ae_ipaddr e' = ae_ipaddr e /\ ae_ethaddr e' = ae_ethaddr e /\ ae_q e' = ae_q e /\ ae_netif e' = ae_netif e /\
       is_stable (ae_state e') = is_stable (ae_state e) /\ ae_ctime e' = ae_ctime e + Z.of_nat j) /\
    (lifetime e <= Z.of_nat j -> arp_table w' !! k = Some blank /\
       match ae_q e with Some p => Drop (pk_id p) ∈ log w' | None => True end)).
Proof.
  revert w e. induction j as [|j IH]; intros w e Ht Hk Hu; pose proof (lookup_ok _ _ _ Ht Hk) as He;
    destruct (expires_lifetime e He Hu) as [Hl Hx]; cbn [ticks].
  { split; [|lia]. intros _. exists e. split_and!; done || lia. }
  destruct (etharp_tmr_eq w Ht) as (w1 & -> & B & Ht'). cbn [obind].
  assert (Hk1 : arp_table w1 !! k = Some (aged e)) by by rewrite (became_table _ _ _ _ _ B), list_lookup_fmap, Hk.
  rewrite <- (became_table _ _ _ _ _ B) in Ht'. unfold aged in Hk1. rewrite Hx in Hk1. pose proof Hu as Hu'. unfold used in Hu'. rewrite Hu' in Hk1.
  destruct (Z.eqb_spec (lifetime e) 1) as [E1|E1].
  - eapply wp_mono; [by apply (ticks_blank j w1 k)|]. intros w' (H1 & es & H2). split; [lia|]. intros _. split; [done|].
    destruct (ae_q e) eqn:Eq; [|done]. rewrite H2, (became_log _ _ _ _ _ B). apply elem_of_app. left. apply elem_of_app. right.
    apply list_elem_of_In, in_concat. exists (expired_q e). split.
    + apply in_map. apply list_elem_of_In. by eapply list_elem_of_lookup_2.
    + unfold expired_q, free_q. rewrite Hx, Eq. by left.
  - set (e1 := EtharpEntry _ _ _ _ _ _) in Hk1.
    assert (F : used e1 /\ lifetime e1 = lifetime e - 1 /\ is_stable (ae_state e1) = is_stable (ae_state e)).
    { subst e1. unfold used, lifetime. cbn. destruct (ae_state e); cbn in *; split_and!; done || lia. }
    destruct F as (F1 & F2 & F3). eapply wp_mono; [by apply (IH w1 e1)|]. intros w' [H1 H2]. rewrite F2 in *. split.
    + intros Hj. destruct H1 as (e' & E1' & ? & ? & ? & ? & ? & ?); [lia|]. exists e'. subst e1. cbn in *. split_and!; try done; [congruence|lia].
    + intros Hj. apply H2. lia.
Qed.

End Theory.

(** ** Examples *)

Lemma blank_table_ok : table_ok (replicate 10 blank).
Proof.
  split; [done| |].
  - apply Forall_replicate, blank_ok.
  - intros i j a b Hi _ Hu. apply lookup_replicate in Hi as [-> _]. done.
Qed.

Definition host (ip : Z) (hwaddr : list Z) (t : list etharp_entry) : world :=
  World t 0 (fun _ => Netif ip 0x00ffffff 0x0100a8c0 hwaddr 0x72 None) [0] [] [] 0 0 [].
Definition kind : lower := Lower (fun _ => true) (fun _ => 0).

Definition waiting : etharp_entry :=
  EtharpEntry (Some (Packet 7 [(PBUF_RAM, replicate 34 0)] None 0)) 0x0b00a8c0 None ethzero ETHARP_STATE_PENDING 0.
Definition a_table : list etharp_entry := <[3%nat := waiting]> (replicate 10 blank).

Lemma a_table_ok : table_ok a_table.
Proof.
  eapply table_ok_set; [apply blank_table_ok|reflexivity|by split; try done; split; [|split; [|apply tidy_1]]|].
  intros _. right. by apply Forall_replicate.
Qed.

Lemma etharp_find_entry_policy_witness : let w := host 0x0a00a8c0 [2; 0; 0; 0; 0; 1] a_table in
  table_ok (arp_table w) /\
  wp (etharp_find_entry w (Some 0x0c00a8c0) ETHARP_FLAG_TRY_HARD) (fun '(i, w') =>
    found w 0x0c00a8c0 ETHARP_FLAG_TRY_HARD i w' /\ (ETHARP_FLAG_TRY_HARD = ETHARP_FLAG_TRY_HARD -> 0 <= i)).
Proof. intros w. split; [apply a_table_ok|]. apply (etharp_find_entry_policy w). apply a_table_ok. Defined.

Lemma arp_entry_lives_witness : let w := host 0x0a00a8c0 [2; 0; 0; 0; 0; 1] a_table in
  lifetime waiting = 2 /\
  wp (ticks 2 w) (fun w' => arp_table w' !! 3%nat = Some blank /\ Drop 7 ∈ log w').
Proof.
  intros w. split; [reflexivity|].
  eapply wp_mono; [apply (arp_entry_lives w 3 waiting 2 a_table_ok eq_refl eq_refl)|].
  intros w' [_ H]. apply H. discriminate.
Defined.

(** An empty datagram behind a separate header is taken for two packets: the
    assertion fails, and without it pbuf_copy refuses the packet. *)
Example empty_tail_refused w : let q := Packet 7 [(PBUF_RAM, replicate 42 0); (PBUF_REF, [])] None 0 in
  take_over kind w q = UB /\ pbuf_copy_to (tot_len (pk_chain q)) (pk_chain q) = ERR_ARG.
Proof. split; reflexivity. Qed.
