(* ===== verification/Autoip.v ===== *)
(** * Interfaces and link-local addresses: src/Utilities/lwip_v1.3.2/src/core/netif.c, core/ipv4/autoip.c

    Setting the addresses of an interface, bringing it up and down, and the
    client that chooses a link-local address (RFC 3927): a state machine over
    a timer of 100 ms, the ARP messages that arrive and the changes of the
    link. *)

From S2P Require Import Prelude CStd IpAddr Checksum Pbuf Etharp.

(** ** netif.h, autoip.h *)

Definition NETIF_FLAG_UP : Z := 0x01.
Definition NETIF_FLAG_LINK_UP : Z := 0x10.
Definition NETIF_FLAG_ETHARP : Z := 0x20.

Definition AUTOIP_TMR_INTERVAL : Z := 100.
Definition AUTOIP_TICKS_PER_SECOND : Z := 1000 / AUTOIP_TMR_INTERVAL.
Definition PROBE_WAIT : Z := 1.
Definition PROBE_MIN : Z := 1.
Definition PROBE_MAX : Z := 2.
Definition PROBE_NUM : Z := 3.
Definition ANNOUNCE_NUM : Z := 2.
Definition ANNOUNCE_INTERVAL : Z := 2.
Definition ANNOUNCE_WAIT : Z := 2.
Definition MAX_CONFLICTS : Z := 10.
Definition RATE_LIMIT_INTERVAL : Z := 60.
Definition DEFEND_INTERVAL : Z := 10.

Definition AUTOIP_NET : Z := 0xA9FE0000.
Definition AUTOIP_RANGE_START : Z := Z.lor AUTOIP_NET 0x0100.
Definition AUTOIP_RANGE_END : Z := Z.lor AUTOIP_NET 0xFEFF.

Definition has_flag (nf : netif) (f : Z) : bool := negb (Z.land (nif_flags nf) f =? 0).
Definition netif_is_up (nf : netif) : bool := has_flag nf NETIF_FLAG_UP.

Definition set_ip_addr (nf : netif) (a : Z) : netif :=
  Netif a (nif_netmask nf) (nif_gw nf) (nif_hwaddr nf) (nif_flags nf) (nif_autoip nf).
Definition set_mask (nf : netif) (a : Z) : netif :=
  Netif (nif_ip_addr nf) a (nif_gw nf) (nif_hwaddr nf) (nif_flags nf) (nif_autoip nf).
Definition set_gateway (nf : netif) (a : Z) : netif :=
  Netif (nif_ip_addr nf) (nif_netmask nf) a (nif_hwaddr nf) (nif_flags nf) (nif_autoip nf).
Definition set_nif_flags (nf : netif) (f : Z) : netif :=
  Netif (nif_ip_addr nf) (nif_netmask nf) (nif_gw nf) (nif_hwaddr nf) f (nif_autoip nf).
Definition set_nif_autoip (nf : netif) (a : option autoip) : netif :=
  Netif (nif_ip_addr nf) (nif_netmask nf) (nif_gw nf) (nif_hwaddr nf) (nif_flags nf) a.

Definition set_tcp (w : world) (act lst : list (Z * Z)) : world :=
  World (arp_table w) (etharp_cached_entry w) (netif_at w) (netif_list w) act lst (next_id w) (answers w) (log w).

Section Autoip.
Context (lw : lower).

(** ** netif.c *)

(** The connections bound to the old address, but those with a link-local
    address, are aborted (tcp_abort takes them off the list); the listeners
    bound to it move. *)
Definition bound_to (old : Z) (pcb : Z * Z) : bool := ip_addr_cmp (pcb.2) old && negb (ip_addr_islinklocal (pcb.2)).

Definition netif_set_ipaddr (w : world) (n : Z) (ipaddr : Z) : world :=
  let nf := netif_at w n in
  let old := nif_ip_addr nf in
  let w :=
    if ip_addr_cmp ipaddr old then w
    else
      let w := emit w (map (fun pcb => TcpAbort pcb.1) (filter (fun pcb => bound_to old pcb = true) (tcp_active w))) in
      set_tcp w (filter (fun pcb => bound_to old pcb = false) (tcp_active w))
        (map (fun l => if negb (ip_addr_isany (l.2)) && ip_addr_cmp (l.2) old then (l.1, ipaddr) else l) (tcp_listen w)) in
  set_netif w n (set_ip_addr nf ipaddr).

Definition netif_set_gw (w : world) (n : Z) (gw : Z) : world := set_netif w n (set_gateway (netif_at w n) gw).
Definition netif_set_netmask (w : world) (n : Z) (netmask : Z) : world := set_netif w n (set_mask (netif_at w n) netmask).
Definition netif_set_addr (w : world) (n : Z) (ipaddr netmask gw : Z) : world :=
  netif_set_gw (netif_set_netmask (netif_set_ipaddr w n ipaddr) n netmask) n gw.

Definition netif_set_up (w : world) (n : Z) : world :=
  let nf := netif_at w n in
  if has_flag nf NETIF_FLAG_UP then w
  else
    let w := set_netif w n (set_nif_flags nf (Z.lor (nif_flags nf) NETIF_FLAG_UP)) in
    let nf := netif_at w n in
    if has_flag nf NETIF_FLAG_LINK_UP && has_flag nf NETIF_FLAG_ETHARP then snd (etharp_gratuitous lw w n) else w.

Definition netif_set_down (w : world) (n : Z) : outcome world :=
  let nf := netif_at w n in
  if has_flag nf NETIF_FLAG_UP then
    let w := set_netif w n (set_nif_flags nf (Z.land (nif_flags nf) (Z.lnot NETIF_FLAG_UP))) in
    if has_flag (netif_at w n) NETIF_FLAG_ETHARP then etharp_cleanup_netif w n else Ok w
  else Ok w.

(** ** autoip.c *)

(** netif->autoip, dereferenced. *)
Definition get_autoip (w : world) (n : Z) : outcome autoip :=
  match nif_autoip (netif_at w n) with Some a => Ok a | None => UB end.
Definition put_autoip (w : world) (n : Z) (a : autoip) : world := set_netif w n (set_nif_autoip (netif_at w n) (Some a)).

(** The structure is the caller's. *)
Definition autoip_set_struct (w : world) (n : Z) : outcome world :=
  let! _ := guard_ub (match nif_autoip (netif_at w n) with None => true | Some _ => false end) in
  Ok (put_autoip w n (Autoip 0 AUTOIP_STATE_OFF 0 0 0 0)).

Definition hw (nf : netif) (i : nat) : Z := nth i (nif_hwaddr nf) 0.

Definition LWIP_AUTOIP_RAND (nf : netif) : Z :=
  u32 (u32 (Z.lor (Z.lor (Z.lor (Z.shiftl (hw nf 5) 24) (Z.shiftl (hw nf 3) 16)) (Z.shiftl (hw nf 2) 8)) (hw nf 4)) +
       match nif_autoip nf with Some a => tried_llipaddr a | None => 0 end).

Definition LWIP_AUTOIP_CREATE_SEED_ADDR (nf : netif) : Z :=
  lwip_htonl (u32 (AUTOIP_RANGE_START + Z.lor (hw nf 4) (Z.shiftl (hw nf 5) 8))).

Definition autoip_create_addr (nf : netif) : outcome Z :=
  match nif_autoip nf with
  | None => UB
  | Some a =>
      let addr := lwip_ntohl (LWIP_AUTOIP_CREATE_SEED_ADDR nf) in
      let addr := u32 (addr + tried_llipaddr a) in
      let addr := Z.lor AUTOIP_NET (Z.land addr 0xffff) in
      let addr := if addr <? AUTOIP_RANGE_START then u32 (addr + (AUTOIP_RANGE_END - AUTOIP_RANGE_START + 1)) else addr in
      let addr := if AUTOIP_RANGE_END <? addr then u32 (addr - (AUTOIP_RANGE_END - AUTOIP_RANGE_START + 1)) else addr in
      let! _ := guard_ub ((AUTOIP_RANGE_START <=? addr) && (addr <=? AUTOIP_RANGE_END)) in
      Ok (lwip_htonl addr)
  end.

Definition autoip_arp_probe (w : world) (n : Z) : outcome (Z * world) :=
  let! a := get_autoip w n in
  let h := nif_hwaddr (netif_at w n) in
  Ok (etharp_raw lw w n h ethbroadcast h IPADDR_ANY ethzero (llipaddr a) ARP_REQUEST).

Definition autoip_arp_announce (w : world) (n : Z) : outcome (Z * world) :=
  let! a := get_autoip w n in
  let h := nif_hwaddr (netif_at w n) in
  Ok (etharp_raw lw w n h ethbroadcast h (llipaddr a) ethzero (llipaddr a) ARP_REQUEST).

Definition IP4_ADDR (a b c d : Z) : Z :=
  Z.lor (Z.lor (Z.lor (Z.shiftl (Z.land d 0xff) 24) (Z.shiftl (Z.land c 0xff) 16)) (Z.shiftl (Z.land b 0xff) 8)) (Z.land a 0xff).

Definition autoip_bind (w : world) (n : Z) : outcome world :=
  let! a := get_autoip w n in
  let w := netif_set_ipaddr w n (llipaddr a) in
  let w := netif_set_netmask w n (IP4_ADDR 255 255 0 0) in
  let w := netif_set_gw w n (IP4_ADDR 0 0 0 0) in
  Ok (netif_set_up w n).

Definition autoip_start_probing (w : world) (n : Z) : outcome world :=
  let! a := get_autoip w n in
  let ttw := u16 (LWIP_AUTOIP_RAND (netif_at w n) mod (PROBE_WAIT * AUTOIP_TICKS_PER_SECOND)) in
  let ttw := if MAX_CONFLICTS <? tried_llipaddr a then RATE_LIMIT_INTERVAL * AUTOIP_TICKS_PER_SECOND else ttw in
  Ok (put_autoip w n (Autoip (llipaddr a) AUTOIP_STATE_PROBING 0 ttw (lastconflict a) (tried_llipaddr a))).

Definition autoip_start (w : world) (n : Z) : outcome (Z * world) :=
  let! w := if netif_is_up (netif_at w n) then netif_set_down w n else Ok w in
  let w := set_netif w n (set_gateway (set_mask (set_ip_addr (netif_at w n) 0) 0) 0) in
  let (ok, w) :=
    match nif_autoip (netif_at w n) with
    | None =>
        let (ok, w) := alloc lw w in
        (ok, if ok then put_autoip w n (Autoip 0 AUTOIP_STATE_OFF 0 0 0 0) else w)
    | Some a => (true, put_autoip w n (Autoip 0 AUTOIP_STATE_OFF 0 0 0 (tried_llipaddr a)))
    end in
  if negb ok then Ok (ERR_MEM, w)
  else
    let! addr := autoip_create_addr (netif_at w n) in
    let! a := get_autoip w n in
    let w := put_autoip w n (Autoip addr (au_state a) (sent_num a) (ttw a) (lastconflict a) (tried_llipaddr a)) in
    let! w := autoip_start_probing w n in
    Ok (ERR_OK, w).

Definition autoip_restart (w : world) (n : Z) : outcome world :=
  let! a := get_autoip w n in
  let w := put_autoip w n (Autoip (llipaddr a) (au_state a) (sent_num a) (ttw a) (lastconflict a) (u8 (tried_llipaddr a + 1))) in
  let! (_, w) := autoip_start w n in
  Ok w.

(** [defend] is 1. *)
Definition autoip_handle_arp_conflict (w : world) (n : Z) : outcome world :=
  let! a := get_autoip w n in
  if 0 <? lastconflict a then autoip_restart w n
  else
    let! (_, w) := autoip_arp_announce w n in
    let! a := get_autoip w n in
    Ok (put_autoip w n (Autoip (llipaddr a) (au_state a) (sent_num a) (ttw a) (DEFEND_INTERVAL * AUTOIP_TICKS_PER_SECOND) (tried_llipaddr a))).

Definition autoip_network_changed (w : world) (n : Z) : outcome world :=
  match nif_autoip (netif_at w n) with
  | Some a =>
      if bool_decide (au_state a = AUTOIP_STATE_OFF) then Ok w
      else let! w := netif_set_down w n in autoip_start_probing w n
  | None => Ok w
  end.

Definition autoip_stop (w : world) (n : Z) : outcome world :=
  let! a := get_autoip w n in
  netif_set_down (put_autoip w n (Autoip (llipaddr a) AUTOIP_STATE_OFF (sent_num a) (ttw a) (lastconflict a) (tried_llipaddr a))) n.

(** The two states of the timer that do something, for a client that has
    waited. *)
Definition probing_tick (w : world) (n : Z) : outcome world :=
  let! a := get_autoip w n in
  if PROBE_NUM <=? sent_num a then
    Ok (put_autoip w n (Autoip (llipaddr a) AUTOIP_STATE_ANNOUNCING 0 (ANNOUNCE_WAIT * AUTOIP_TICKS_PER_SECOND) (lastconflict a) (tried_llipaddr a)))
  else
    let! (_, w) := autoip_arp_probe w n in
    let! a := get_autoip w n in
    let ttw := u16 (LWIP_AUTOIP_RAND (netif_at w n) mod ((PROBE_MAX - PROBE_MIN) * AUTOIP_TICKS_PER_SECOND) + PROBE_MIN * AUTOIP_TICKS_PER_SECOND) in
    Ok (put_autoip w n (Autoip (llipaddr a) (au_state a) (u8 (sent_num a + 1)) ttw (lastconflict a) (tried_llipaddr a))).

Definition announcing_tick (w : world) (n : Z) : outcome world :=
  let! a := get_autoip w n in
  let! w := if sent_num a =? 0 then autoip_bind w n else let! (_, w) := autoip_arp_announce w n in Ok w in
  let! a := get_autoip w n in
  let sent := u8 (sent_num a + 1) in
  let a := Autoip (llipaddr a) (au_state a) sent (ANNOUNCE_INTERVAL * AUTOIP_TICKS_PER_SECOND) (lastconflict a) (tried_llipaddr a) in
  Ok (put_autoip w n (if ANNOUNCE_NUM <=? sent then Autoip (llipaddr a) AUTOIP_STATE_BOUND 0 0 (lastconflict a) (tried_llipaddr a) else a)).

Definition tmr_netif (w : world) (n : Z) : outcome world :=
  match nif_autoip (netif_at w n) with
  | None => Ok w
  | Some a =>
      let a := if 0 <? lastconflict a then Autoip (llipaddr a) (au_state a) (sent_num a) (ttw a) (lastconflict a - 1) (tried_llipaddr a) else a in
      let w := put_autoip w n a in
      let wait := put_autoip w n (Autoip (llipaddr a) (au_state a) (sent_num a) (ttw a - 1) (lastconflict a) (tried_llipaddr a)) in
      match au_state a with
      | AUTOIP_STATE_PROBING => if 0 <? ttw a then Ok wait else probing_tick w n
      | AUTOIP_STATE_ANNOUNCING => if 0 <? ttw a then Ok wait else announcing_tick w n
      | _ => Ok w
      end
  end.

Definition autoip_tmr (w : world) : outcome world := for_each (netif_list w) tmr_netif w.

Definition autoip_arp_reply (w : world) (n : Z) (hdr : etharp_hdr) : outcome world :=
  match nif_autoip (netif_at w n) with
  | None => Ok w
  | Some a =>
      if bool_decide (au_state a = AUTOIP_STATE_OFF) then Ok w
      else
        let netifaddr := nif_hwaddr (netif_at w n) in
        if bool_decide (au_state a = AUTOIP_STATE_PROBING) ||
           (bool_decide (au_state a = AUTOIP_STATE_ANNOUNCING) && (sent_num a =? 0)) then
          if ip_addr_cmp (sipaddr hdr) (llipaddr a) ||
             (ip_addr_cmp (dipaddr hdr) (llipaddr a) && negb (eth_addr_cmp netifaddr (shwaddr hdr)))
          then autoip_restart w n else Ok w
        else if ip_addr_cmp (sipaddr hdr) (llipaddr a) && negb (eth_addr_cmp netifaddr (shwaddr hdr))
        then autoip_handle_arp_conflict w n else Ok w
  end.

End Autoip.

(** ** Theory: steps that only clean up *)

(** The balance of references to a pbuf: taken or received, less given up. *)
Definition ledger1 (id : Z) (e : event) : Z :=
  match e with
  | Rx _ p => Z.b2z (pk_id p =? id)
  | Take i => Z.b2z (i =? id)
  | Drop i => - Z.b2z (i =? id)
  | IpInput _ p => - Z.b2z (pk_id p =? id)
  | _ => 0
  end.
Fixpoint ledger (id : Z) (es : list event) : Z := match es with [] => 0 | e :: es => ledger1 id e + ledger id es end.
Definition refs1 (id : Z) (e : etharp_entry) : Z := match ae_q e with Some p => Z.b2z (pk_id p =? id) | None => 0 end.
Fixpoint refs (id : Z) (t : list etharp_entry) : Z := match t with [] => 0 | e :: t => refs1 id e + refs id t end.

Lemma ledger_app id l1 l2 : ledger id (l1 ++ l2) = ledger id l1 + ledger id l2.
Proof. induction l1; cbn; lia. Qed.

Lemma refs_app id l1 l2 : refs id (l1 ++ l2) = refs id l1 + refs id l2.
Proof. induction l1; cbn; lia. Qed.

Lemma refs_set id t k e0 e : t !! k = Some e0 -> refs id (<[k := e]> t) = refs id t - refs1 id e0 + refs1 id e.
Proof.
  revert k. induction t as [|a t IH]; intros [|k] Hk; try done.
  - injection Hk as ->. cbn. lia.
  - change (<[S k := e]> (a :: t)) with (a :: <[k := e]> t). cbn [refs]. rewrite (IH k Hk). lia.
Qed.

Lemma ledger_free_q id e : ledger id (free_q e) = - refs1 id e.
Proof. unfold free_q, refs1. destruct (ae_q e); cbn; lia. Qed.

(** A frame of the ARP protocol. *)
Definition arp_event (e : event) : Prop :=
  match e with
  | Out _ f => exists dst src h pad, mac dst /\ mac src /\ f = arp_frame dst src h ++ pad
  | Rx _ _ | IpInput _ _ => False
  | _ => True
  end.

Definition etharp_flag (nf : netif) : bool := has_flag nf NETIF_FLAG_ETHARP.

(** [quiet w w']: entries may have been removed from the table, with their
    packets, ARP messages sent, the addresses and the clients of the
    interfaces changed. *)
Record quiet (w w' : world) : Prop := Quiet {
  quiet_entries : forall k e, arp_table w' !! k = Some e -> used e -> arp_table w !! k = Some e;
  quiet_log : exists es, log w' = log w ++ es /\ Forall arp_event es /\
    forall id, ledger id es = refs id (arp_table w') - refs id (arp_table w);
  quiet_netif : forall n, nif_hwaddr (netif_at w' n) = nif_hwaddr (netif_at w n) /\ etharp_flag (netif_at w' n) = etharp_flag (netif_at w n);
  quiet_list : netif_list w' = netif_list w;
  quiet_ok : world_ok w';
}.

Lemma quiet_self w : world_ok w -> quiet w w.
Proof. intros Hw. split; try done. exists []. rewrite app_nil_r. split_and!; [done|constructor|]. intros id. cbn. lia. Qed.

Lemma quiet_trans w w1 w2 : quiet w w1 -> quiet w1 w2 -> quiet w w2.
Proof.
  intros [A1 (es1 & A2 & A3 & A4) A5 A6 A7] [B1 (es2 & B2 & B3 & B4) B5 B6 B7]. split; try done.
  - intros k e Hk Hu. apply A1; [by apply B1|done].
  - exists (es1 ++ es2). rewrite B2, A2, app_assoc. split_and!; [done|by apply list.Forall_app|].
    intros id. rewrite ledger_app, A4, B4. lia.
  - intros n. destruct (A5 n), (B5 n). split; congruence.
  - congruence.
Qed.

Lemma quiet_became w es w' : world_ok w -> became w (arp_table w) (etharp_cached_entry w) es w' ->
  Forall arp_event es -> (forall id, ledger id es = 0) -> quiet w w'.
Proof.
  intros Hw B He Hl. pose proof B as [E1 E2 E3 E4 E5 E6 E7]. split; try done.
  - intros k e. by rewrite E1.
  - exists es. split_and!; [done..|]. intros id. rewrite Hl, E1. lia.
  - intros n. by rewrite E4.
  - eapply unchanged_ok; [done|done|apply Hw|done].
Qed.

Lemma quiet_raw lw w n ethsrc ethdst hwsrc ip hwdst ip' op : world_ok w -> mac ethsrc -> mac ethdst ->
  quiet w (snd (etharp_raw lw w n ethsrc ethdst hwsrc ip hwdst ip' op)).
Proof.
  intros Hw Hs Hd. destruct (etharp_raw_became lw w n ethsrc ethdst hwsrc ip hwdst ip' op) as (ev & B & Hev).
  eapply quiet_became; [done|exact B|..].
  - destruct Hev as [(-> & _)|(_ & ->)]; [constructor|]. repeat constructor. eexists _, _, _, []. rewrite app_nil_r. split_and!; [|exact Hs|done].
    by destruct (ip_addr_islinklocal ip).
  - intros id. destruct Hev as [(-> & _)|(_ & ->)]; cbn; lia.
Qed.

Lemma quiet_request lw w n ip : world_ok w -> quiet w (snd (etharp_request lw w n ip)).
Proof. intros Hw. apply quiet_raw; [done|apply Hw|done]. Qed.

Lemma quiet_set_netif w n nf : world_ok w -> nif_hwaddr nf = nif_hwaddr (netif_at w n) -> etharp_flag nf = etharp_flag (netif_at w n) ->
  quiet w (set_netif w n nf).
Proof.
  intros Hw H1 H2. split; try done.
  - exists []. rewrite app_nil_r. split_and!; [done|constructor|]. intros id. cbn. lia.
  - intros m. cbn. by destruct (Z.eqb_spec m n) as [->|].
  - destruct Hw as [A B C]. split; try done. intros m. cbn. destruct (Z.eqb_spec m n) as [->|]; [|done]. split. rewrite H1. apply C.
Qed.

Lemma cleaned_events n t : Forall arp_event (concat (map (cleaned_q n) t)) /\
  forall id, ledger id (concat (map (cleaned_q n) t)) = refs id (map (cleaned n) t) - refs id t.
Proof.
  induction t as [|e t [IH1 IH2]]; cbn [map concat refs]; [split; [constructor|done]|]. split.
  - apply list.Forall_app. split; [|done]. unfold cleaned_q, free_q. destruct (of_netif n e), (ae_q e); by repeat constructor.
  - intros id. rewrite ledger_app, IH2. unfold cleaned_q, cleaned at 2. destruct (of_netif n e); [rewrite ledger_free_q|]; cbn; lia.
Qed.

Lemma quiet_cleanup w n : world_ok w -> wp (etharp_cleanup_netif w n) (quiet w).
Proof.
  intros Hw. destruct (etharp_cleanup_netif_eq w n (wo_table _ Hw)) as (w' & -> & B & Ht). cbn [wp]. pose proof B as [E1 E2 E3 E4 E5 E6 E7].
  split; try done.
  - intros k e. rewrite E1, list_lookup_fmap. intros (a & Ha & ->)%fmap_Some. unfold cleaned. by destruct (of_netif n a).
  - eexists. rewrite E1. split; [exact E3|]. apply cleaned_events.
  - intros m. by rewrite E4.
  - eapply became_ok; [done|done|done|apply Hw].
Qed.

(** A step behind a quiet one. *)
Lemma wp_quiet w w1 (m : outcome world) : quiet w w1 -> wp m (quiet w1) -> wp m (quiet w).
Proof. intros Q. intros H. eapply wp_mono; [exact H|]. intros w2. by apply quiet_trans. Qed.

Section Quiet.
Context (lw : lower).

Lemma etharp_flag_lor nf : etharp_flag (set_nif_flags nf (Z.lor (nif_flags nf) NETIF_FLAG_UP)) = etharp_flag nf.
Proof.
  unfold etharp_flag, has_flag. cbn. f_equal. f_equal. apply Z.bits_inj'. intros i Hi. rewrite !Z.land_spec, Z.lor_spec.
  destruct (Z.testbit NETIF_FLAG_ETHARP i) eqn:E; [|by rewrite !andb_false_r]. assert (Z.testbit NETIF_FLAG_UP i = false) as ->; [|by rewrite orb_false_r].
  unfold NETIF_FLAG_ETHARP, NETIF_FLAG_UP in *. destruct (Z.eq_dec i 0) as [->|]; [done|]. apply Z.bits_above_log2; cbn; lia.
Qed.

Lemma etharp_flag_ldiff nf : etharp_flag (set_nif_flags nf (Z.land (nif_flags nf) (Z.lnot NETIF_FLAG_UP))) = etharp_flag nf.
Proof.
  unfold etharp_flag, has_flag. cbn. f_equal. f_equal. apply Z.bits_inj'. intros i Hi. rewrite !Z.land_spec, Z.lnot_spec by done.
  destruct (Z.testbit NETIF_FLAG_ETHARP i) eqn:E; [|by rewrite !andb_false_r]. assert (Z.testbit NETIF_FLAG_UP i = false) as ->; [|by rewrite !andb_true_r].
  unfold NETIF_FLAG_ETHARP, NETIF_FLAG_UP in *. destruct (Z.eq_dec i 0) as [->|]; [done|]. apply Z.bits_above_log2; cbn; lia.
Qed.

Lemma quiet_set_ipaddr w n ip : world_ok w -> quiet w (netif_set_ipaddr w n ip).
Proof.
  intros Hw. unfold netif_set_ipaddr. set (w1 := if ip_addr_cmp _ _ then w else _).
  assert (Q : quiet w w1 /\ netif_at w1 = netif_at w).
  { subst w1. destruct (ip_addr_cmp _ _); [by split; [apply quiet_self|]|]. split; [|done].
    eapply (quiet_trans _ (emit w _)); [apply (quiet_became w (map (fun pcb => TcpAbort pcb.1) (filter (fun pcb => bound_to (nif_ip_addr (netif_at w n)) pcb = true) (tcp_active w)))); try done|].
    - apply list.Forall_forall. intros e (x & -> & _)%list_elem_of_fmap. done.
    - intros id. induction (filter _ _); cbn in *; lia.
    - split; try done; [|by destruct Hw]. exists []. rewrite app_nil_r. split_and!; [done|constructor|]. intros id. cbn. lia. }
  destruct Q as [Q E]. eapply quiet_trans; [exact Q|]. rewrite <- E. by apply quiet_set_netif; [apply Q|..].
Qed.

Lemma quiet_up w n : world_ok w -> quiet w (netif_set_up lw w n).
Proof.
  intros Hw. unfold netif_set_up. destruct (has_flag _ _); [by apply quiet_self|].
  set (w1 := set_netif _ _ _). assert (Q : quiet w w1) by (apply quiet_set_netif; [done|done|apply etharp_flag_lor]).
  destruct (has_flag (netif_at w1 n) _ && _); [|done]. eapply quiet_trans; [exact Q|]. apply quiet_request, Q.
Qed.

Lemma quiet_down w n : world_ok w -> wp (netif_set_down w n) (quiet w).
Proof.
  intros Hw. unfold netif_set_down. destruct (has_flag _ _); [|by apply quiet_self].
  set (w1 := set_netif _ _ _). assert (Q : quiet w w1) by (apply quiet_set_netif; [done|done|apply etharp_flag_ldiff]).
  destruct (has_flag (netif_at w1 n) _); [|done]. eapply wp_quiet; [exact Q|]. apply quiet_cleanup, Q.
Qed.

Lemma quiet_put w n a : world_ok w -> quiet w (put_autoip w n a).
Proof. intros Hw. by apply quiet_set_netif. Qed.

(** ** Theory: the client *)

Definition client (w : world) (n : Z) : option autoip := nif_autoip (netif_at w n).

Lemma get_autoip_eq w n a : client w n = Some a -> get_autoip w n = Ok a.
Proof. unfold client, get_autoip. by intros ->. Qed.

Lemma client_put w n a : client (put_autoip w n a) n = Some a.
Proof. unfold client, put_autoip. cbn. by rewrite Z.eqb_refl. Qed.

(** The address of the [tried]-th attempt, in host order. *)
Definition ll_addr (nf : netif) (tried : Z) : Z :=
  let v := Z.land (u32 (lwip_ntohl (LWIP_AUTOIP_CREATE_SEED_ADDR nf) + tried)) 0xffff in
  AUTOIP_NET + (if v <? 0x100 then v + 0xFE00 else if 0xFEFF <? v then v - 0xFE00 else v).

Lemma autoip_net_lor v : 0 <= v < 2 ^ 16 -> Z.lor AUTOIP_NET v = AUTOIP_NET + v.
Proof. intros Hv. change AUTOIP_NET with (0xA9FE * 2 ^ 16). by apply lor_field. Qed.

Lemma ll_addr_range nf tried : AUTOIP_RANGE_START <= ll_addr nf tried <= AUTOIP_RANGE_END.
Proof.
  unfold ll_addr. cbv zeta. set (v := Z.land _ _). assert (0 <= v < 2 ^ 16).
  { subst v. change 0xffff with (Z.ones 16). rewrite Z.land_ones by done. by apply Z.mod_pos_bound. }
  change AUTOIP_RANGE_START with (AUTOIP_NET + 0x100). change AUTOIP_RANGE_END with (AUTOIP_NET + 0xFEFF). ztests.
Qed.

Lemma ll_addr_ntohl nf tried : lwip_ntohl (lwip_htonl (ll_addr nf tried)) = ll_addr nf tried.
Proof.
  unfold lwip_ntohl. apply htonl_htonl. pose proof (ll_addr_range nf tried) as H.
  change AUTOIP_RANGE_START with 0xA9FE0100 in H. change AUTOIP_RANGE_END with 0xA9FEFEFF in H. lia.
Qed.

Lemma autoip_create_addr_eq nf a : nif_autoip nf = Some a -> autoip_create_addr nf = Ok (lwip_htonl (ll_addr nf (tried_llipaddr a))).
Proof.
  intros Ha. unfold autoip_create_addr. rewrite Ha. pose proof (ll_addr_range nf (tried_llipaddr a)) as Hr. revert Hr.
  unfold ll_addr. cbv zeta. set (v := Z.land _ _). assert (Hv : 0 <= v < 2 ^ 16).
  { subst v. change 0xffff with (Z.ones 16). rewrite Z.land_ones by done. by apply Z.mod_pos_bound. }
  rewrite autoip_net_lor by done.
  change AUTOIP_RANGE_START with (AUTOIP_NET + 0x100). change AUTOIP_RANGE_END with (AUTOIP_NET + 0xFEFF).
  set (x := if v <? 0x100 then v + 0xFE00 else if 0xFEFF <? v then v - 0xFE00 else v). intros Hr. unfold AUTOIP_NET in *.
  assert (Hx : (let addr := if 0xA9FE0000 + v <? 0xA9FE0000 + 0x100 then u32 (0xA9FE0000 + v + (0xA9FE0000 + 0xFEFF - (0xA9FE0000 + 0x100) + 1)) else 0xA9FE0000 + v in
    if 0xA9FE0000 + 0xFEFF <? addr then u32 (addr - (0xA9FE0000 + 0xFEFF - (0xA9FE0000 + 0x100) + 1)) else addr) = 0xA9FE0000 + x).
  { subst x. cbv zeta. clear Hr. destruct (Z.ltb_spec v 0x100) as [L1|L1].
    - destruct (Z.ltb_spec (0xA9FE0000 + v) (0xA9FE0000 + 0x100)) as [L2|L2]; [|lia].
      rewrite u32_small by lia. match goal with |- context [?a <? ?b] => destruct (Z.ltb_spec a b) as [L3|L3]; [lia|] end. lia.
    - destruct (Z.ltb_spec (0xA9FE0000 + v) (0xA9FE0000 + 0x100)) as [L2|L2]; [lia|].
      destruct (Z.ltb_spec (0xA9FE0000 + 0xFEFF) (0xA9FE0000 + v)) as [L3|L3], (Z.ltb_spec 0xFEFF v) as [L4|L4]; try lia.
      rewrite u32_small by lia. lia. }
  cbv zeta in Hx. rewrite Hx. replace ((0xA9FE0000 + 0x100 <=? 0xA9FE0000 + x) && (0xA9FE0000 + x <=? 0xA9FE0000 + 0xFEFF)) with true; [done|].
  symmetry. apply andb_true_iff. split; apply Z.leb_le; lia.
Qed.

(** The address depends on the hardware address only. *)
Lemma ll_addr_hw nf nf' tried : nif_hwaddr nf = nif_hwaddr nf' -> ll_addr nf tried = ll_addr nf' tried.
Proof. intros H. unfold ll_addr, LWIP_AUTOIP_CREATE_SEED_ADDR, hw. by rewrite H. Qed.

(** The wait before the first probe, and the one after a probe. *)
Definition first_wait (w : Z) (tried : Z) : Prop := 0 <= w < (if MAX_CONFLICTS <? tried then 601 else 10).

Lemma mod_small_wait x m o : 0 < m -> 0 <= o -> m + o <= 2 ^ 16 -> o <= u16 (x mod m + o) < m + o.
Proof. intros Hm Ho Hs. pose proof (Z.mod_pos_bound x m Hm). rewrite u16_small by lia. lia. Qed.

(** The addresses and flags of interface [n] are unchanged; and those of the
    other interfaces, with their clients. *)
Definition same_at (n : Z) (w w' : world) : Prop :=
  nif_ip_addr (netif_at w' n) = nif_ip_addr (netif_at w n) /\ nif_netmask (netif_at w' n) = nif_netmask (netif_at w n) /\
  nif_gw (netif_at w' n) = nif_gw (netif_at w n) /\ nif_flags (netif_at w' n) = nif_flags (netif_at w n).
Definition same_but (n : Z) (w w' : world) : Prop :=
  (forall m, m <> n -> netif_at w' m = netif_at w m) /\ same_at n w w'.

Lemma same_but_refl n w : same_but n w w.
Proof. done. Qed.

Lemma same_at_trans n w w1 w2 : same_at n w w1 -> same_at n w1 w2 -> same_at n w w2.
Proof. intros (? & ? & ? & ?) (? & ? & ? & ?). unfold same_at. split_and!; congruence. Qed.

Lemma same_at_put n w w' a : same_at n w w' -> same_at n w (put_autoip w' n a).
Proof. unfold same_at. cbn. by rewrite Z.eqb_refl. Qed.

Lemma same_but_put n w w' a : same_but n w w' -> same_but n w (put_autoip w' n a).
Proof.
  intros [H1 H2]. split; [|by apply same_at_put]. intros m Hm. cbn. apply Z.eqb_neq in Hm as E. rewrite E. by apply H1.
Qed.

Lemma autoip_start_probing_spec w n a : world_ok w -> client w n = Some a ->
  wp (autoip_start_probing w n) (fun w' => quiet w w' /\ same_but n w w' /\ log w' = log w /\
    exists t, first_wait t (tried_llipaddr a) /\
      client w' n = Some (Autoip (llipaddr a) AUTOIP_STATE_PROBING 0 t (lastconflict a) (tried_llipaddr a))).
Proof.
  intros Hw Ha. unfold autoip_start_probing. rewrite (get_autoip_eq _ _ _ Ha). cbn [obind wp].
  split_and!; [by apply quiet_put|by apply same_but_put|done|]. eexists. split; [|apply client_put].
  unfold first_wait, MAX_CONFLICTS. pose proof (mod_small_wait (LWIP_AUTOIP_RAND (netif_at w n)) (PROBE_WAIT * AUTOIP_TICKS_PER_SECOND) 0 ltac:(done) ltac:(done) ltac:(done)) as Hm.
  rewrite Z.add_0_r in Hm. change (PROBE_WAIT * AUTOIP_TICKS_PER_SECOND) with 10 in *. change (RATE_LIMIT_INTERVAL * AUTOIP_TICKS_PER_SECOND) with 600.
  destruct (10 <? tried_llipaddr a); lia.
Qed.


#[local] Opaque ll_addr lwip_htonl LWIP_AUTOIP_RAND autoip_create_addr.

Lemma up_off nf : netif_is_up (set_nif_flags nf (Z.land (nif_flags nf) (Z.lnot NETIF_FLAG_UP))) = false.
Proof.
  unfold netif_is_up, has_flag. cbn. apply negb_false_iff, Z.eqb_eq. rewrite <- Z.land_assoc, (Z.land_comm (Z.lnot _)), Z.land_lnot_diag.
  apply Z.land_0_r.
Qed.

Lemma up_on nf : netif_is_up (set_nif_flags nf (Z.lor (nif_flags nf) NETIF_FLAG_UP)) = true.
Proof.
  unfold netif_is_up, has_flag. cbn. apply negb_true_iff, Z.eqb_neq. intros H. apply (f_equal (fun z => Z.testbit z 0)) in H.
  by rewrite Z.land_spec, Z.lor_spec, orb_true_r, Z.bits_0 in H.
Qed.

(** The other interfaces keep their state, [n] its client. *)
Definition others (n : Z) (w w' : world) : Prop := forall m, m <> n -> netif_at w' m = netif_at w m.

Lemma netif_set_down_spec w n : world_ok w ->
  wp (netif_set_down w n) (fun w' => quiet w w' /\ others n w w' /\ client w' n = client w n /\ netif_is_up (netif_at w' n) = false).
Proof.
  intros Hw. pose proof (quiet_down w n Hw) as Hq. unfold netif_set_down in *.
  destruct (has_flag _ _) eqn:E; [|by split_and!]. set (w1 := set_netif _ _ _) in *.
  assert (H1 : others n w w1 /\ client w1 n = client w n /\ netif_is_up (netif_at w1 n) = false).
  { subst w1. split_and!.
    - intros m Hm. cbn. by destruct (Z.eqb_spec m n).
    - unfold client. cbn. by rewrite Z.eqb_refl.
    - cbn. rewrite Z.eqb_refl. apply up_off. }
  destruct H1 as (H1 & H2 & H3). destruct (has_flag (netif_at w1 n) _); [|by split_and!].
  assert (Hw1 : world_ok w1) by (apply (quiet_set_netif w n); [done|done|apply etharp_flag_ldiff]).
  destruct (etharp_cleanup_netif_eq w1 n (wo_table _ Hw1)) as (w' & E' & B & _). rewrite E' in *. cbn [wp] in *.
  pose proof (became_netif _ _ _ _ _ B) as En. unfold others, client in *. rewrite En. done.
Qed.

Definition tries (w : world) (n : Z) : Z := match client w n with Some a => tried_llipaddr a | None => 0 end.

(** The interface and the client when an attempt with [tried] addresses
    behind it begins. *)
Record started (w w' : world) (n tried : Z) : Prop := Started {
  st_quiet : quiet w w';
  st_others : others n w w';
  st_client : exists t, first_wait t tried /\
    client w' n = Some (Autoip (lwip_htonl (ll_addr (netif_at w n) tried)) AUTOIP_STATE_PROBING 0 t 0 tried);
  st_addr : nif_ip_addr (netif_at w' n) = 0 /\ nif_netmask (netif_at w' n) = 0 /\ nif_gw (netif_at w' n) = 0;
  st_down : netif_is_up (netif_at w' n) = false;
}.

Lemma others_trans n w w1 w2 : others n w w1 -> others n w1 w2 -> others n w w2.
Proof. intros H1 H2 m Hm. by rewrite H2, H1. Qed.

Lemma others_set w n nf : others n w (set_netif w n nf).
Proof. intros m Hm. cbn. by destruct (Z.eqb_spec m n). Qed.

Lemma at_set w n nf : netif_at (set_netif w n nf) n = nf.
Proof. cbn. by rewrite Z.eqb_refl. Qed.

(** The part of autoip_start behind the allocation. *)
Lemma start_tail w w2 n a : quiet w w2 -> others n w w2 -> client w2 n = Some a -> au_state a = AUTOIP_STATE_OFF -> lastconflict a = 0 ->
  nif_ip_addr (netif_at w2 n) = 0 /\ nif_netmask (netif_at w2 n) = 0 /\ nif_gw (netif_at w2 n) = 0 -> netif_is_up (netif_at w2 n) = false ->
  wp (let! addr := autoip_create_addr (netif_at w2 n) in
      let! a := get_autoip w2 n in
      let w := put_autoip w2 n (Autoip addr (au_state a) (sent_num a) (ttw a) (lastconflict a) (tried_llipaddr a)) in
      let! w := autoip_start_probing w n in
      Ok (ERR_OK, w)) (fun '(r, w') => r = ERR_OK /\ started w w' n (tried_llipaddr a)).
Proof.
  intros Hq Ho Ha Hs Hl Haddr Hup. rewrite (autoip_create_addr_eq _ a) by done. cbn [obind]. rewrite (get_autoip_eq _ _ _ Ha). cbn [obind].
  set (w3 := put_autoip _ _ _). assert (Q3 : quiet w2 w3) by (apply quiet_put, Hq).
  wpb autoip_start_probing_spec; [apply Q3|apply client_put|]. intros w4 (Q4 & (S1 & S2 & S3 & S4 & S5) & _ & t & Ht & Hc). cbn [wp]. split; [done|].
  cbn [tried_llipaddr llipaddr lastconflict] in *.
  assert (Hhw : ll_addr (netif_at w2 n) (tried_llipaddr a) = ll_addr (netif_at w n) (tried_llipaddr a)) by (apply ll_addr_hw, Hq).
  rewrite Hhw, Hl in Hc. subst w3. unfold put_autoip in *. rewrite at_set in *. cbn in S2, S3, S4, S5. split.
  - eapply quiet_trans; [exact Hq|]. eapply quiet_trans; [exact Q3|exact Q4].
  - eapply others_trans; [exact Ho|]. eapply others_trans; [apply others_set|exact S1].
  - by exists t.
  - rewrite S2, S3, S4. done.
  - unfold netif_is_up, has_flag in *. by rewrite S5.
Qed.

Lemma autoip_start_spec w n : world_ok w ->
  wp (autoip_start lw w n) (fun '(r, w') => (r = ERR_OK /\ started w w' n (tries w n)) \/
    (r = ERR_MEM /\ client w n = None /\ ~ plenty lw /\ quiet w w' /\ others n w w')).
Proof.
  intros Hw. unfold autoip_start.
  assert (H1 : wp (if netif_is_up (netif_at w n) then netif_set_down w n else Ok w)
    (fun w' => quiet w w' /\ others n w w' /\ client w' n = client w n /\ netif_is_up (netif_at w' n) = false)).
  { destruct (netif_is_up (netif_at w n)) eqn:E; [by apply netif_set_down_spec|]. cbn. split_and!; try done. by apply quiet_self. }
  eapply wp_bind_mono; [exact H1|]. clear H1. intros w1 (Q1 & O1 & C1 & U1). set (w2 := set_netif w1 n _).
  assert (Q2 : quiet w1 w2) by (apply quiet_set_netif; [apply Q1|done|done]).
  assert (F2 : client w2 n = client w n /\ (nif_ip_addr (netif_at w2 n) = 0 /\ nif_netmask (netif_at w2 n) = 0 /\ nif_gw (netif_at w2 n) = 0) /\
    netif_is_up (netif_at w2 n) = false) by (subst w2; unfold client in *; rewrite at_set; done).
  destruct F2 as (C2 & A2 & U2). unfold client in C2. rewrite C2.
  assert (Q02 : quiet w w2) by by eapply quiet_trans. assert (O02 : others n w w2) by (eapply others_trans; [exact O1|apply others_set]).
  unfold tries, client. destruct (nif_autoip (netif_at w n)) as [a|] eqn:Ea.
  - cbn [negb]. eapply wp_mono; [apply (start_tail w (put_autoip w2 n (Autoip 0 AUTOIP_STATE_OFF 0 0 0 (tried_llipaddr a))) n (Autoip 0 AUTOIP_STATE_OFF 0 0 0 (tried_llipaddr a))); try done|].
    + eapply quiet_trans; [exact Q02|]. apply quiet_put, Q2.
    + eapply others_trans; [exact O02|apply others_set].
    + apply client_put.
    + unfold put_autoip. rewrite at_set. done.
    + unfold put_autoip. rewrite at_set. done.
    + intros (r & w') H. by left.
  - unfold alloc. destruct (lw_alloc lw (answers w2)) eqn:El; cbn [negb].
    + eapply wp_mono; [apply (start_tail w (put_autoip (asked w2) n (Autoip 0 AUTOIP_STATE_OFF 0 0 0 0)) n (Autoip 0 AUTOIP_STATE_OFF 0 0 0 0)); try done|].
      * eapply quiet_trans; [exact Q02|]. eapply quiet_trans; [|apply quiet_put; destruct Q2 as [_ _ _ _ []]; by split].
        apply (quiet_became _ []); [apply Q2| |constructor|done]. split; try done. by rewrite app_nil_r.
      * eapply others_trans; [exact O02|apply (others_set (asked w2))].
      * apply client_put.
      * unfold put_autoip. rewrite at_set. done.
      * unfold put_autoip. rewrite at_set. done.
      * intros (r & w') H. by left.
    + cbn [wp]. right. split_and!; try done.
      * intros Hp. by rewrite Hp in El.
      * eapply quiet_trans; [exact Q02|]. apply (quiet_became _ []); [apply Q2| |constructor|done]. split; try done. by rewrite app_nil_r.
Qed.

Lemma started_from w w1 w' n tried : quiet w w1 -> others n w w1 -> started w1 w' n tried -> started w w' n tried.
Proof.
  intros Q O [S1 S2 (t & Ht & Hc) S4 S5]. split; try done; [by eapply quiet_trans|by eapply others_trans|].
  exists t. split; [done|]. rewrite Hc. rewrite (ll_addr_hw _ (netif_at w n)); [done|apply Q].
Qed.

Lemma autoip_restart_spec w n a : world_ok w -> client w n = Some a ->
  wp (autoip_restart lw w n) (fun w' => started w w' n (u8 (tried_llipaddr a + 1))).
Proof.
  intros Hw Ha. unfold autoip_restart. rewrite (get_autoip_eq _ _ _ Ha). cbn [obind]. set (w1 := put_autoip _ _ _).
  assert (Q1 : quiet w w1) by by apply quiet_put. assert (C1 : client w1 n = Some (Autoip (llipaddr a) (au_state a) (sent_num a) (ttw a) (lastconflict a) (u8 (tried_llipaddr a + 1)))) by apply client_put.
  wpb autoip_start_spec; [apply Q1|]. intros (r & w') [[_ H]|(_ & H & _)]; [|congruence]. cbn [wp].
  unfold tries in H. rewrite C1 in H. eapply started_from; [exact Q1|apply others_set|exact H].
Qed.

(** What an ARP message does to the client. *)
Definition conflict (a : autoip) (hwaddr : list Z) (h : etharp_hdr) : bool :=
  if bool_decide (au_state a = AUTOIP_STATE_PROBING) || (bool_decide (au_state a = AUTOIP_STATE_ANNOUNCING) && (sent_num a =? 0)) then
    ip_addr_cmp (sipaddr h) (llipaddr a) || (ip_addr_cmp (dipaddr h) (llipaddr a) && negb (eth_addr_cmp hwaddr (shwaddr h)))
  else ip_addr_cmp (sipaddr h) (llipaddr a) && negb (eth_addr_cmp hwaddr (shwaddr h)).

(** The address is in use: probed, and announced at least once. *)
Definition in_use (a : autoip) : bool :=
  match au_state a with
  | AUTOIP_STATE_ANNOUNCING => negb (sent_num a =? 0)
  | AUTOIP_STATE_BOUND => true
  | _ => false
  end.

Definition defended (a : autoip) : autoip :=
  Autoip (llipaddr a) (au_state a) (sent_num a) (ttw a) (DEFEND_INTERVAL * AUTOIP_TICKS_PER_SECOND) (tried_llipaddr a).

Lemma probing_or_waiting a : au_state a <> AUTOIP_STATE_OFF ->
  bool_decide (au_state a = AUTOIP_STATE_PROBING) || (bool_decide (au_state a = AUTOIP_STATE_ANNOUNCING) && (sent_num a =? 0)) = negb (in_use a).
Proof. intros H. unfold in_use. destruct (au_state a); repeat case_bool_decide; cbn; rewrite ?negb_involutive; done. Qed.

Lemma autoip_arp_announce_spec w n a : world_ok w -> client w n = Some a ->
  wp (autoip_arp_announce lw w n) (fun '(_, w') => quiet w w' /\ netif_at w' = netif_at w).
Proof.
  intros Hw Ha. unfold autoip_arp_announce. rewrite (get_autoip_eq _ _ _ Ha). cbn [obind].
  pose proof (quiet_raw lw w n (nif_hwaddr (netif_at w n)) ethbroadcast (nif_hwaddr (netif_at w n)) (llipaddr a) ethzero (llipaddr a) ARP_REQUEST Hw ltac:(apply Hw) ltac:(done)) as Q.
  destruct (etharp_raw_became lw w n (nif_hwaddr (netif_at w n)) ethbroadcast (nif_hwaddr (netif_at w n)) (llipaddr a) ethzero (llipaddr a) ARP_REQUEST) as (ev & B & _).
  destruct (etharp_raw _ _ _ _ _ _ _ _ _ _) as [r w']. cbn [wp snd] in *. split; [done|]. by rewrite (became_netif _ _ _ _ _ B).
Qed.

Inductive replied (w w' : world) (n : Z) (h : etharp_hdr) : Prop :=
  | replied_nothing : w' = w ->
      match client w n with Some a => au_state a = AUTOIP_STATE_OFF \/ conflict a (nif_hwaddr (netif_at w n)) h = false | None => True end ->
      replied w w' n h
  | replied_restart a : client w n = Some a -> au_state a <> AUTOIP_STATE_OFF -> conflict a (nif_hwaddr (netif_at w n)) h = true ->
      (in_use a = true -> 0 < lastconflict a) -> started w w' n (u8 (tried_llipaddr a + 1)) -> replied w w' n h
  | replied_defend a : client w n = Some a -> conflict a (nif_hwaddr (netif_at w n)) h = true ->
      in_use a = true -> lastconflict a <= 0 -> quiet w w' -> same_but n w w' -> client w' n = Some (defended a) -> replied w w' n h.

Lemma autoip_arp_reply_spec w n h : world_ok w -> wp (autoip_arp_reply lw w n h) (fun w' => replied w w' n h).
Proof.
  intros Hw. unfold autoip_arp_reply. fold (client w n). destruct (client w n) as [a|] eqn:Ha; [|apply replied_nothing; [done|by rewrite Ha]].
  case_bool_decide as Eo; [apply replied_nothing; [done|rewrite Ha; by left]|].
  assert (Hno : conflict a (nif_hwaddr (netif_at w n)) h = false -> replied w w n h) by (intros E; apply replied_nothing; [done|rewrite Ha; by right]).
  assert (Hc : conflict a (nif_hwaddr (netif_at w n)) h = if negb (in_use a) then
    ip_addr_cmp (sipaddr h) (llipaddr a) || (ip_addr_cmp (dipaddr h) (llipaddr a) && negb (eth_addr_cmp (nif_hwaddr (netif_at w n)) (shwaddr h)))
    else ip_addr_cmp (sipaddr h) (llipaddr a) && negb (eth_addr_cmp (nif_hwaddr (netif_at w n)) (shwaddr h))) by (unfold conflict; by rewrite probing_or_waiting).
  rewrite probing_or_waiting by done. destruct (in_use a) eqn:Eu; cbn [negb] in *.
  2:{ destruct (_ || _) eqn:Ec; [|by apply Hno]. eapply wp_mono; [by apply autoip_restart_spec|]. intros w' S. eapply replied_restart; done || congruence. }
  destruct (_ && _) eqn:Ec; [|by apply Hno].
  unfold autoip_handle_arp_conflict. rewrite (get_autoip_eq _ _ _ Ha). cbn [obind]. destruct (Z.ltb_spec 0 (lastconflict a)) as [L|L].
  - eapply wp_mono; [by apply autoip_restart_spec|]. intros w' S. by eapply replied_restart.
  - wpb autoip_arp_announce_spec; [done|done|]. intros (r & w1) [Q1 E1].
    assert (C1 : client w1 n = Some a) by (unfold client; by rewrite E1). rewrite (get_autoip_eq _ _ _ C1). cbn [obind wp].
    eapply replied_defend; try done; [eapply quiet_trans; [exact Q1|apply quiet_put, Q1]| |apply client_put].
    apply same_but_put. unfold same_but, same_at. by rewrite E1.
Qed.

Lemma autoip_network_changed_spec w n : world_ok w -> wp (autoip_network_changed w n) (fun w' => quiet w w' /\ others n w w' /\
  match client w n with
  | Some a => if bool_decide (au_state a = AUTOIP_STATE_OFF) then w' = w
      else netif_is_up (netif_at w' n) = false /\ exists t, first_wait t (tried_llipaddr a) /\
        client w' n = Some (Autoip (llipaddr a) AUTOIP_STATE_PROBING 0 t (lastconflict a) (tried_llipaddr a))
  | None => w' = w
  end).
Proof.
  intros Hw. unfold autoip_network_changed. fold (client w n). destruct (client w n) as [a|] eqn:Ha; [|split_and!; try done; by apply quiet_self].
  case_bool_decide; [split_and!; try done; by apply quiet_self|]. wpb netif_set_down_spec; [done|]. intros w1 (Q1 & O1 & C1 & U1).
  rewrite Ha in C1. eapply wp_mono; [apply autoip_start_probing_spec; [apply Q1|done]|]. intros w2 (Q2 & (S1 & _ & _ & _ & S5) & _ & Ht).
  split_and!; [by eapply quiet_trans|by eapply others_trans|unfold netif_is_up, has_flag in *; by rewrite S5|done].
Qed.

(** *** The timer *)

Inductive action : Type := Nothing | Probe | Bind | Announce.

Definition cooled (a : autoip) : autoip :=
  if 0 <? lastconflict a then Autoip (llipaddr a) (au_state a) (sent_num a) (ttw a) (lastconflict a - 1) (tried_llipaddr a) else a.
Definition with_client (a : autoip) (s : autoip_state) (sent t : Z) : autoip :=
  Autoip (llipaddr a) s sent t (lastconflict (cooled a)) (tried_llipaddr a).

Inductive ticked (a : autoip) : action -> autoip -> Prop :=
  | ticked_idle : au_state a = AUTOIP_STATE_OFF \/ au_state a = AUTOIP_STATE_BOUND -> ticked a Nothing (cooled a)
  | ticked_wait : au_state a = AUTOIP_STATE_PROBING \/ au_state a = AUTOIP_STATE_ANNOUNCING -> 0 < ttw a ->
      ticked a Nothing (with_client a (au_state a) (sent_num a) (ttw a - 1))
  | ticked_probe t : au_state a = AUTOIP_STATE_PROBING -> ttw a <= 0 -> sent_num a < PROBE_NUM -> 10 <= t < 20 ->
      ticked a Probe (with_client a AUTOIP_STATE_PROBING (u8 (sent_num a + 1)) t)
  | ticked_enough : au_state a = AUTOIP_STATE_PROBING -> ttw a <= 0 -> PROBE_NUM <= sent_num a ->
      ticked a Nothing (with_client a AUTOIP_STATE_ANNOUNCING 0 20)
  | ticked_bind : au_state a = AUTOIP_STATE_ANNOUNCING -> ttw a <= 0 -> sent_num a = 0 ->
      ticked a Bind (with_client a AUTOIP_STATE_ANNOUNCING 1 20)
  | ticked_announce : au_state a = AUTOIP_STATE_ANNOUNCING -> ttw a <= 0 -> sent_num a <> 0 ->
      ticked a Announce (if ANNOUNCE_NUM <=? u8 (sent_num a + 1) then with_client a AUTOIP_STATE_BOUND 0 0
        else with_client a AUTOIP_STATE_ANNOUNCING (u8 (sent_num a + 1)) 20).

Definition probe_frame (hwaddr : list Z) (ip : Z) : list Z :=
  arp_frame ethbroadcast hwaddr
    (EtharpHdr (lwip_htons HWTYPE_ETHERNET) (lwip_htons ETHTYPE_IP) ETHARP_HWADDR_LEN 4 (lwip_htons ARP_REQUEST) hwaddr IPADDR_ANY ethzero ip).

(** What a tick does besides changing the client. *)
Definition effect (act : action) (a : autoip) (n : Z) (w w' : world) : Prop :=
  match act with
  | Bind => nif_ip_addr (netif_at w' n) = llipaddr a /\ nif_netmask (netif_at w' n) = IP4_ADDR 255 255 0 0 /\
      nif_gw (netif_at w' n) = 0 /\ netif_is_up (netif_at w' n) = true
  | Probe => same_at n w w' /\ (plenty lw -> exists es, log w' = log w ++ es /\ Out n (probe_frame (nif_hwaddr (netif_at w n)) (llipaddr a)) ∈ es)
  | _ => same_at n w w'
  end.

Lemma probing_tick_spec w n a : world_ok w -> client w n = Some a -> au_state a = AUTOIP_STATE_PROBING ->
  wp (probing_tick lw w n) (fun w' => quiet w w' /\ others n w w' /\
    ((sent_num a < PROBE_NUM /\ effect Probe a n w w' /\ exists t, 10 <= t < 20 /\
      client w' n = Some (Autoip (llipaddr a) AUTOIP_STATE_PROBING (u8 (sent_num a + 1)) t (lastconflict a) (tried_llipaddr a))) \/
     (PROBE_NUM <= sent_num a /\ same_at n w w' /\
      client w' n = Some (Autoip (llipaddr a) AUTOIP_STATE_ANNOUNCING 0 20 (lastconflict a) (tried_llipaddr a))))).
Proof.
  intros Hw Ha Hs. unfold probing_tick. rewrite (get_autoip_eq _ _ _ Ha). cbn [obind]. destruct (Z.leb_spec PROBE_NUM (sent_num a)) as [L|L].
  { cbn [wp]. split_and!; [by apply quiet_put|apply others_set|]. right. split_and!; [done|by apply same_at_put|apply client_put]. }
  unfold autoip_arp_probe. rewrite (get_autoip_eq _ _ _ Ha). cbn [obind].
  pose proof (quiet_raw lw w n (nif_hwaddr (netif_at w n)) ethbroadcast (nif_hwaddr (netif_at w n)) IPADDR_ANY ethzero (llipaddr a) ARP_REQUEST Hw ltac:(apply Hw) ltac:(done)) as Q.
  destruct (etharp_raw_became lw w n (nif_hwaddr (netif_at w n)) ethbroadcast (nif_hwaddr (netif_at w n)) IPADDR_ANY ethzero (llipaddr a) ARP_REQUEST) as (ev & B & Hev).
  destruct (etharp_raw _ _ _ _ _ _ _ _ _ _) as [r w1]. cbn [snd obind] in *.
  pose proof (became_netif _ _ _ _ _ B) as En. assert (C1 : client w1 n = Some a) by (unfold client; by rewrite En).
  rewrite (get_autoip_eq _ _ _ C1). cbn [obind wp]. split_and!; [eapply quiet_trans; [exact Q|apply quiet_put, Q]|eapply others_trans; [intros m Hm; by rewrite En|apply others_set]|].
  left. split_and!; [done|..].
  - split; [apply same_at_put; unfold same_at; by rewrite En|]. intros Hp. exists ev. split; [apply (became_log _ _ _ _ _ B)|].
    destruct Hev as [(_ & E & _)|(_ & ->)]; [by rewrite Hp in E|]. right. by left.
  - eexists. split; [|rewrite client_put; by rewrite Hs].
    pose proof (mod_small_wait (LWIP_AUTOIP_RAND (netif_at w1 n)) ((PROBE_MAX - PROBE_MIN) * AUTOIP_TICKS_PER_SECOND) 10 ltac:(done) ltac:(done) ltac:(done)) as Hm.
    exact Hm.
Qed.

Lemma autoip_bind_spec w n a : world_ok w -> client w n = Some a ->
  wp (autoip_bind lw w n) (fun w' => quiet w w' /\ others n w w' /\ client w' n = Some a /\ effect Bind a n w w').
Proof.
  intros Hw Ha. unfold autoip_bind. rewrite (get_autoip_eq _ _ _ Ha). cbn [obind wp].
  set (w1 := netif_set_ipaddr _ _ _). assert (Q1 : quiet w w1) by by apply quiet_set_ipaddr.
  set (w2 := netif_set_netmask _ _ _). assert (Q2 : quiet w1 w2) by (by apply quiet_set_netif; [apply Q1|..]).
  set (w3 := netif_set_gw _ _ _). assert (Q3 : quiet w2 w3) by (by apply quiet_set_netif; [apply Q2|..]).
  pose proof (quiet_up w3 n (quiet_ok _ _ Q3)) as Q4.
  assert (E3 : netif_at w3 n = Netif (llipaddr a) (IP4_ADDR 255 255 0 0) (IP4_ADDR 0 0 0 0) (nif_hwaddr (netif_at w n)) (nif_flags (netif_at w n)) (Some a)).
  { subst w3 w2 w1. unfold netif_set_gw, netif_set_netmask, netif_set_ipaddr. rewrite !at_set. unfold client in Ha. unfold set_gateway, set_mask, set_ip_addr. cbn. by rewrite Ha. }
  assert (O3 : others n w w3).
  { subst w3 w2 w1. unfold netif_set_gw, netif_set_netmask, netif_set_ipaddr. intros m Hm. rewrite !others_set by done.
    by destruct (ip_addr_cmp _ _). }
  assert (H4 : others n w3 (netif_set_up lw w3 n) /\ netif_is_up (netif_at (netif_set_up lw w3 n) n) = true /\
    exists fl, netif_at (netif_set_up lw w3 n) n = set_nif_flags (netif_at w3 n) fl).
  { unfold netif_set_up, netif_is_up. destruct (has_flag (netif_at w3 n) NETIF_FLAG_UP) eqn:Eu.
    { split_and!; [done|done|]. exists (nif_flags (netif_at w3 n)). by destruct (netif_at w3 n). }
    set (w4 := set_netif _ _ _). set (b := _ && _).
    assert (En : netif_at (if b then snd (etharp_gratuitous lw w4 n) else w4) = netif_at w4).
    { destruct b; [|done]. destruct (etharp_request_became lw w4 n (nif_ip_addr (netif_at w4 n))) as (ev & B & _). by apply (became_netif _ _ _ _ _ B). }
    rewrite En. subst w4. rewrite at_set. split_and!; [intros m Hm; rewrite En; by apply others_set|apply up_on|by eexists]. }
  destruct H4 as (O4 & U4 & fl & E4). split_and!.
  - eapply quiet_trans; [exact Q1|]. eapply quiet_trans; [exact Q2|]. eapply quiet_trans; [exact Q3|exact Q4].
  - eapply others_trans; [exact O3|exact O4].
  - unfold client. by rewrite E4, E3.
  - unfold effect. rewrite U4, E4, E3. done.
Qed.

Lemma announcing_tick_spec w n a : world_ok w -> client w n = Some a -> au_state a = AUTOIP_STATE_ANNOUNCING ->
  wp (announcing_tick lw w n) (fun w' => quiet w w' /\ others n w w' /\
    effect (if sent_num a =? 0 then Bind else Announce) a n w w' /\
    client w' n = Some (if ANNOUNCE_NUM <=? u8 (sent_num a + 1) then Autoip (llipaddr a) AUTOIP_STATE_BOUND 0 0 (lastconflict a) (tried_llipaddr a)
      else Autoip (llipaddr a) AUTOIP_STATE_ANNOUNCING (u8 (sent_num a + 1)) 20 (lastconflict a) (tried_llipaddr a))).
Proof.
  intros Hw Ha Hs. unfold announcing_tick. rewrite (get_autoip_eq _ _ _ Ha). cbn [obind].
  apply wp_bind_mono with (Q' := fun w' => quiet w w' /\ others n w w' /\ client w' n = Some a /\ effect (if sent_num a =? 0 then Bind else Announce) a n w w').
  - destruct (sent_num a =? 0); [by apply autoip_bind_spec|]. wpb autoip_arp_announce_spec; [done|done|]. intros (r & w1) [Q E]. cbn [wp].
    unfold others, client, effect, same_at. by rewrite E.
  - intros w1 (Q1 & O1 & C1 & F1). rewrite (get_autoip_eq _ _ _ C1). cbn [obind wp llipaddr lastconflict tried_llipaddr].
    set (a' := if _ : bool then _ else _). split_and!; [eapply quiet_trans; [exact Q1|apply quiet_put, Q1]|eapply others_trans; [exact O1|apply others_set]|..].
    + unfold effect in *. destruct (sent_num a =? 0); [|by apply same_at_put]. unfold put_autoip. by rewrite at_set.
    + rewrite client_put. subst a'. rewrite Hs. done.
Qed.

Lemma effect_from act a a1 n w w1 w' : llipaddr a1 = llipaddr a -> same_at n w w1 -> log w1 = log w -> nif_hwaddr (netif_at w1 n) = nif_hwaddr (netif_at w n) ->
  effect act a1 n w1 w' -> effect act a n w w'.
Proof.
  intros Ell S El Eh He. pose proof (same_at_trans n w w1 w' S) as T. destruct act; unfold effect in *; rewrite <- ?Ell; auto.
  rewrite <- Eh, <- El. destruct He. split; auto.
Qed.

Lemma tmr_netif_spec w n a : world_ok w -> client w n = Some a ->
  wp (tmr_netif lw w n) (fun w' => quiet w w' /\ others n w w' /\ exists act a', ticked a act a' /\ client w' n = Some a' /\ effect act a n w w').
Proof.
  intros Hw Ha. unfold tmr_netif. fold (client w n). rewrite Ha. fold (cooled a).
  assert (Ec : llipaddr (cooled a) = llipaddr a /\ au_state (cooled a) = au_state a /\ sent_num (cooled a) = sent_num a /\
    ttw (cooled a) = ttw a /\ tried_llipaddr (cooled a) = tried_llipaddr a) by (unfold cooled; by destruct (0 <? lastconflict a)).
  destruct Ec as (E1 & E2 & E3 & E4 & E5). set (w1 := put_autoip w n (cooled a)).
  assert (Q1 : quiet w w1) by by apply quiet_put. assert (C1 : client w1 n = Some (cooled a)) by apply client_put.
  assert (S1 : same_at n w w1) by by apply same_at_put. assert (O1 : others n w w1) by apply others_set.
  assert (Eh : nif_hwaddr (netif_at w1 n) = nif_hwaddr (netif_at w n)) by apply Q1.
  rewrite E2. destruct (au_state a) eqn:Es.
  - cbn [wp]. split_and!; [done|done|]. exists Nothing, (cooled a). split_and!; [apply ticked_idle; by left|done|done].
  - rewrite E4. destruct (Z.ltb_spec 0 (ttw a)) as [L|L].
    { cbn [wp]. split_and!; [eapply quiet_trans; [exact Q1|apply quiet_put, Q1]|eapply others_trans; [exact O1|apply others_set]|].
      eexists Nothing, _. split_and!; [apply ticked_wait; [by left|done]|rewrite client_put; unfold with_client; by rewrite E1, E3, E5, Es|by apply same_at_put]. }
    eapply wp_mono; [apply (probing_tick_spec w1 n (cooled a)); [apply Q1|done|congruence]|].
    intros w' (Q' & O' & H). split_and!; [by eapply quiet_trans|by eapply others_trans|]. rewrite E1, E3, E5 in H.
    destruct H as [(Hs & He & t & Ht & Hc)|(Hs & He & Hc)].
    + eexists Probe, _. split_and!; [by apply ticked_probe|exact Hc|]. by eapply effect_from.
    + eexists Nothing, _. split_and!; [by apply ticked_enough|exact Hc|]. by eapply (effect_from Nothing).
  - rewrite E4. destruct (Z.ltb_spec 0 (ttw a)) as [L|L].
    { cbn [wp]. split_and!; [eapply quiet_trans; [exact Q1|apply quiet_put, Q1]|eapply others_trans; [exact O1|apply others_set]|].
      eexists Nothing, _. split_and!; [apply ticked_wait; [by right|done]|rewrite client_put; unfold with_client; by rewrite E1, E3, E5, Es|by apply same_at_put]. }
    eapply wp_mono; [apply (announcing_tick_spec w1 n (cooled a)); [apply Q1|done|congruence]|].
    intros w' (Q' & O' & He & Hc). split_and!; [by eapply quiet_trans|by eapply others_trans|]. rewrite E1, E3, E5 in Hc. rewrite E3 in He.
    destruct (Z.eqb_spec (sent_num a) 0) as [E|E].
    + rewrite E in Hc. eexists Bind, _. split_and!; [by apply ticked_bind|exact Hc|]. by eapply effect_from.
    + eexists Announce, _. split_and!; [by apply ticked_announce|exact Hc|]. by eapply effect_from.
  - cbn [wp]. split_and!; [done|done|]. exists Nothing, (cooled a). split_and!; [apply ticked_idle; by right|done|done].
Qed.

(** *** What happens to the client of one interface *)

Inductive input : Type := Tick | Arp (h : etharp_hdr) | LinkChange.

Definition feed (n : Z) (i : input) (w : world) : outcome world :=
  match i with
  | Tick => autoip_tmr lw w
  | Arp h => autoip_arp_reply lw w n h
  | LinkChange => autoip_network_changed w n
  end.

Lemma tmr_others ms n w : world_ok w -> n ∉ ms ->
  wp (for_each ms (tmr_netif lw) w) (fun w' => quiet w w' /\ netif_at w' n = netif_at w n).
Proof.
  revert w. induction ms as [|m ms IH]; intros w Hw Hn; cbn [for_each]; [split; [by apply quiet_self|done]|].
  apply not_elem_of_cons in Hn as [Hnm Hn]. apply wp_bind_mono with (Q' := fun w' => quiet w w' /\ netif_at w' n = netif_at w n).
  - destruct (client w m) as [a|] eqn:Ea; [|unfold tmr_netif; fold (client w m); rewrite Ea; split; [by apply quiet_self|done]].
    eapply wp_mono; [by apply tmr_netif_spec|]. intros w' (Q & O & _). split; [done|by apply O].
  - intros w1 [Q1 E1]. eapply wp_mono; [apply IH; [apply Q1|done]|]. intros w2 [Q2 E2]. split; [by eapply quiet_trans|congruence].
Qed.

Lemma autoip_tmr_spec w n a : world_ok w -> NoDup (netif_list w) -> n ∈ netif_list w -> client w n = Some a ->
  wp (autoip_tmr lw w) (fun w' => quiet w w' /\ exists act a', ticked a act a' /\ client w' n = Some a' /\ effect act a n w w').
Proof.
  intros Hw Hd Hin Ha. unfold autoip_tmr. apply list_elem_of_split in Hin as (l1 & l2 & El). rewrite El in *.
  assert (N1 : n ∉ l1 /\ n ∉ l2). { apply list.NoDup_app in Hd as (_ & H1 & H2). apply list.NoDup_cons in H2 as [H2 _]. split; [|done]. intros H. apply (H1 n H). by left. }
  destruct N1 as [N1 N2]. clear Hd El.
  assert (Happ : for_each (l1 ++ n :: l2) (tmr_netif lw) w = let! w := for_each l1 (tmr_netif lw) w in let! w := tmr_netif lw w n in for_each l2 (tmr_netif lw) w).
  { clear. revert w. induction l1 as [|m l1 IH]; intros w; cbn [for_each app obind]; [done|]. destruct (tmr_netif lw w m); cbn [obind]; [apply IH|done|done]. }
  rewrite Happ. eapply wp_bind_mono; [by apply (tmr_others l1 n)|]. intros w1 [Q1 E1].
  assert (C1 : client w1 n = Some a) by (unfold client; by rewrite E1).
  eapply wp_bind_mono; [by apply tmr_netif_spec; [apply Q1|]|]. intros w2 (Q2 & _ & act & a' & T & C2 & F).
  eapply wp_mono; [by apply (tmr_others l2 n); [apply Q2|]|]. intros w3 [Q3 E3].
  split; [eapply quiet_trans; [exact Q1|]; by eapply quiet_trans|]. exists act, a'. split_and!; [done|unfold client; by rewrite E3|].
  assert (F' : effect act a n w1 w3).
  { destruct Q3 as [_ (es & Eg & _) _ _ _]. destruct act; unfold effect, same_at in F |- *; rewrite ?E3; try done. destruct F as [F1 F2]. split; [done|].
    intros Hp. destruct (F2 Hp) as (es2 & G1 & G2). exists (es2 ++ es). rewrite Eg, G1, app_assoc. split; [done|]. apply elem_of_app. by left. }
  destruct Q1 as [_ (es & Eg & _) _ _ _]. destruct act; unfold effect, same_at in F' |- *; rewrite ?E1 in F'; try done. destruct F' as [F1 F2]. split; [done|].
  intros Hp. destruct (F2 Hp) as (es2 & G1 & G2). exists (es ++ es2). rewrite G1, Eg, app_assoc. split; [done|]. apply elem_of_app. by right.
Qed.

(** An ARP message that says that another host uses or probes [ip]. *)
Definition disputes (ip : Z) (hwaddr : list Z) (h : etharp_hdr) : bool :=
  ip_addr_cmp (sipaddr h) ip || (ip_addr_cmp (dipaddr h) ip && negb (eth_addr_cmp hwaddr (shwaddr h))).

Definition undisputed (ip : Z) (hwaddr : list Z) (i : input) : Prop :=
  match i with Arp h => disputes ip hwaddr h = false | Tick => True | LinkChange => False end.

Fixpoint timer_calls (ins : list input) : Z :=
  match ins with [] => 0 | Tick :: ins => 1 + timer_calls ins | _ :: ins => timer_calls ins end.

Lemma timer_calls_app l1 l2 : timer_calls (l1 ++ l2) = timer_calls l1 + timer_calls l2.
Proof. induction l1 as [|[] l1 IH]; cbn [timer_calls app]; lia. Qed.

Fixpoint frames_sent (n : Z) (f : list Z) (es : list event) : Z :=
  match es with
  | [] => 0
  | Out m g :: es => Z.b2z ((m =? n) && bool_decide (g = f)) + frames_sent n f es
  | _ :: es => frames_sent n f es
  end.

Lemma frames_sent_app n f l1 l2 : frames_sent n f (l1 ++ l2) = frames_sent n f l1 + frames_sent n f l2.
Proof. induction l1 as [|[] l1 IH]; cbn [frames_sent app]; lia. Qed.

Lemma frames_sent_nonneg n f l : 0 <= frames_sent n f l.
Proof. induction l as [|[] l IH]; cbn [frames_sent]; try lia. destruct (_ && _); cbn; lia. Qed.

Lemma frames_sent_elem n f l : Out n f ∈ l -> 1 <= frames_sent n f l.
Proof.
  intros (l1 & l2 & ->)%list_elem_of_split. rewrite frames_sent_app. cbn [frames_sent]. rewrite Z.eqb_refl, bool_decide_eq_true_2 by done. cbn.
  pose proof (frames_sent_nonneg n f l1). pose proof (frames_sent_nonneg n f l2). lia.
Qed.

(** Whether the input made the client begin anew with an address. *)
Definition restarts (i : input) (before after : option autoip) : bool :=
  match i, before, after with
  | Tick, _, _ => false
  | Arp _, Some a, Some a' => negb (tried_llipaddr a =? tried_llipaddr a')
  | LinkChange, _, _ => true
  | _, _, _ => false
  end.

(** [claims n w ins k]: the client of interface [n] has been started and has
    come to [w]; since it last began to probe, it has been given the inputs
    [ins], the log being of length [k] then. In between the rest of the stack
    does what it likes, but for the addresses and the client of [n]. *)
Inductive claims (n : Z) : world -> list input -> nat -> Prop :=
  | claims_start w w0 : world_ok w -> NoDup (netif_list w) -> n ∈ netif_list w -> 0 <= tries w n < 256 ->
      autoip_start lw w n = Ok (ERR_OK, w0) -> claims n w0 [] (length (log w0))
  | claims_feed w ins k i w' : claims n w ins k -> feed n i w = Ok w' ->
      claims n w' (if restarts i (client w n) (client w' n) then [] else ins ++ [i])
        (if restarts i (client w n) (client w' n) then length (log w') else k)
  | claims_rest w ins k w' : claims n w ins k -> world_ok w' -> netif_list w' = netif_list w -> netif_at w' n = netif_at w n ->
      (exists es, log w' = log w ++ es) -> claims n w' ins k.

(** What has been done for the address before it is used. *)
Record probed (n : Z) (w : world) (k : nat) (a : autoip) (ins : list input) (ticks sent : Z) : Prop := Probed {
  pr_clear : Forall (undisputed (llipaddr a) (nif_hwaddr (netif_at w n))) ins;
  pr_ticks : ticks <= timer_calls ins;
  pr_sent : plenty lw -> sent <= frames_sent n (probe_frame (nif_hwaddr (netif_at w n)) (llipaddr a)) (drop k (log w));
}.

(** Probes are more than a second apart, and the last one two seconds before
    the address is used: with the waits, 55 ticks of 100 ms. *)
Definition client_inv (n : Z) (w : world) (ins : list input) (k : nat) (a : autoip) : Prop :=
  match au_state a with
  | AUTOIP_STATE_PROBING => 0 <= sent_num a <= 3 /\ 0 <= ttw a /\ netif_is_up (netif_at w n) = false /\
      probed n w k a ins (if sent_num a =? 0 then 0 else 11 * sent_num a - ttw a) (sent_num a)
  | AUTOIP_STATE_ANNOUNCING =>
      if sent_num a =? 0 then 0 <= ttw a /\ netif_is_up (netif_at w n) = false /\ probed n w k a ins (54 - ttw a) 3
      else sent_num a = 1 /\ nif_ip_addr (netif_at w n) = llipaddr a /\ nif_netmask (netif_at w n) = IP4_ADDR 255 255 0 0 /\
        exists ins1 ins2, ins = ins1 ++ ins2 /\ probed n w k a ins1 55 3
  | AUTOIP_STATE_BOUND => nif_ip_addr (netif_at w n) = llipaddr a /\ nif_netmask (netif_at w n) = IP4_ADDR 255 255 0 0 /\
        exists ins1 ins2, ins = ins1 ++ ins2 /\ probed n w k a ins1 55 3
  | AUTOIP_STATE_OFF => False
  end.

Record claims_inv (n : Z) (w : world) (ins : list input) (k : nat) : Prop := ClaimsInv {
  ci_ok : world_ok w;
  ci_nodup : NoDup (netif_list w);
  ci_in : n ∈ netif_list w;
  ci_log : (k <= length (log w))%nat;
  ci_client : exists a, client w n = Some a /\ 0 <= tried_llipaddr a < 256 /\
    llipaddr a = lwip_htonl (ll_addr (netif_at w n) (tried_llipaddr a)) /\ client_inv n w ins k a;
}.

Lemma u8_range z : 0 <= u8 z < 256.
Proof. apply Z.mod_pos_bound. done. Qed.

Lemma started_inv n w w' tried : started w w' n tried -> NoDup (netif_list w) -> n ∈ netif_list w -> 0 <= tried < 256 ->
  claims_inv n w' [] (length (log w')).
Proof.
  intros [Q _ (t & Ht & Hc) _ Hup] Hd Hin Htr. split; [apply Q| | |done|].
  - by rewrite (quiet_list _ _ Q).
  - by rewrite (quiet_list _ _ Q).
  - eexists. split; [exact Hc|]. cbn [llipaddr tried_llipaddr]. split; [done|]. split.
    + rewrite (ll_addr_hw _ (netif_at w' n)); [done|symmetry; apply Q].
    + unfold client_inv. cbn [au_state sent_num ttw]. split_and!; [done|done|unfold first_wait in Ht; lia|done|].
      split; [constructor|done|]. intros _. apply frames_sent_nonneg.
Qed.

Lemma probed_mono n w w' k a ins t s : probed n w k a ins t s -> (k <= length (log w))%nat ->
  nif_hwaddr (netif_at w' n) = nif_hwaddr (netif_at w n) -> (exists es, log w' = log w ++ es) -> probed n w' k a ins t s.
Proof.
  intros [H1 H2 H3] Hk Eh (es & El). split; rewrite ?Eh; try done. intros Hp. specialize (H3 Hp).
  rewrite El, drop_app_le, frames_sent_app by done. pose proof (frames_sent_nonneg n (probe_frame (nif_hwaddr (netif_at w n)) (llipaddr a)) es). lia.
Qed.

Lemma probed_more n w k a ins i t s t' : probed n w k a ins t s -> undisputed (llipaddr a) (nif_hwaddr (netif_at w n)) i ->
  t' <= t + (match i with Tick => 1 | _ => 0 end) -> probed n w k a (ins ++ [i]) t' s.
Proof.
  intros [H1 H2 H3] Hi Ht. split; [apply list.Forall_app; split; [done|by constructor]| |done].
  rewrite timer_calls_app. cbn. destruct i; lia.
Qed.

Lemma client_inv_rest n w w' ins k a : client_inv n w ins k a -> (k <= length (log w))%nat ->
  netif_at w' n = netif_at w n -> (exists es, log w' = log w ++ es) -> client_inv n w' ins k a.
Proof.
  intros H Hk En El. assert (P : forall ins' t s, probed n w k a ins' t s -> probed n w' k a ins' t s).
  { intros ins' t s Hp. eapply probed_mono; [done|done|by rewrite En|done]. }
  unfold client_inv in *. rewrite En. destruct (au_state a); [done|naive_solver|destruct (sent_num a =? 0); naive_solver|naive_solver].
Qed.

(** More inputs that do not change the client: they matter only before the
    address is used. *)
Lemma client_inv_input n w ins k a i : client_inv n w ins k a -> match i with Arp _ => True | _ => False end ->
  (in_use a = false -> undisputed (llipaddr a) (nif_hwaddr (netif_at w n)) i) -> client_inv n w (ins ++ [i]) k a.
Proof.
  intros H Hi Hu. assert (P : forall t s, probed n w k a ins t s -> in_use a = false -> probed n w k a (ins ++ [i]) t s).
  { intros t s Hp Hn. eapply probed_more; [done|by apply Hu|]. destruct i; lia. }
  unfold client_inv, in_use in *. destruct (au_state a); [done|naive_solver| |].
  - destruct (sent_num a =? 0); [naive_solver|]. destruct H as (H1 & H2 & H3 & ins1 & ins2 & -> & H4). split_and!; try done.
    exists ins1, (ins2 ++ [i]). by rewrite app_assoc.
  - destruct H as (H2 & H3 & ins1 & ins2 & -> & H4). split_and!; try done. exists ins1, (ins2 ++ [i]). by rewrite app_assoc.
Qed.

Lemma conflict_disputes a hwaddr h : au_state a <> AUTOIP_STATE_OFF -> in_use a = false -> conflict a hwaddr h = disputes (llipaddr a) hwaddr h.
Proof. intros H1 H2. unfold conflict. by rewrite probing_or_waiting, H2. Qed.

Lemma u8_succ_ne t : 0 <= t < 256 -> (t =? u8 (t + 1)) = false.
Proof.
  intros Ht. apply Z.eqb_neq. unfold u8. destruct (Z.eq_dec t 255) as [->|]; [done|]. rewrite Z.mod_small; lia.
Qed.

Lemma client_inv_used n w ins k a : client_inv n w ins k a -> in_use a = true ->
  nif_ip_addr (netif_at w n) = llipaddr a /\ nif_netmask (netif_at w n) = IP4_ADDR 255 255 0 0 /\
  (exists ins1 ins2, ins = ins1 ++ ins2 /\ probed n w k a ins1 55 3) /\ (au_state a = AUTOIP_STATE_ANNOUNCING -> sent_num a = 1).
Proof. unfold client_inv, in_use. destruct (au_state a), (sent_num a =? 0); naive_solver. Qed.

Lemma used_client_inv n w ins k a : nif_ip_addr (netif_at w n) = llipaddr a -> nif_netmask (netif_at w n) = IP4_ADDR 255 255 0 0 ->
  (exists ins1 ins2, ins = ins1 ++ ins2 /\ probed n w k a ins1 55 3) -> in_use a = true ->
  (au_state a = AUTOIP_STATE_ANNOUNCING -> sent_num a = 1) -> client_inv n w ins k a.
Proof. intros H1 H2 H3 Hu H4. unfold client_inv, in_use in *. destruct (au_state a); try done. by rewrite H4. Qed.

(** The same work counts for a client with the same address. *)
Lemma probed_client n w k a a' ins t s : llipaddr a' = llipaddr a -> probed n w k a ins t s -> probed n w k a' ins t s.
Proof. intros E [H1 H2 H3]. split; by rewrite ?E. Qed.

Lemma tick_inv n w w' ins k a a' act : (k <= length (log w))%nat -> quiet w w' -> client_inv n w ins k a ->
  ticked a act a' -> client w' n = Some a' -> effect act a n w w' ->
  llipaddr a' = llipaddr a /\ tried_llipaddr a' = tried_llipaddr a /\ client_inv n w' (ins ++ [Tick]) k a'.
Proof.
  intros Hk Q Hi Ht Hc He. pose proof (quiet_netif _ _ Q n) as [Eh _]. destruct (quiet_log _ _ Q) as (es & El & _).
  assert (Hm : forall ins' t s, probed n w k a ins' t s -> probed n w' k a ins' t s) by (intros; eapply probed_mono; eauto).
  assert (Hm1 : forall t s t', probed n w k a ins t s -> t' <= t + 1 -> probed n w' k a (ins ++ [Tick]) t' s).
  { intros t s t' Hp Ht'. by eapply probed_more; [apply Hm, Hp| |]. }
  assert (Hx : (exists ins1 ins2, ins = ins1 ++ ins2 /\ probed n w k a ins1 55 3) ->
    exists ins1 ins2, ins ++ [Tick] = ins1 ++ ins2 /\ probed n w' k a ins1 55 3).
  { intros (ins1 & ins2 & -> & Hp). exists ins1, (ins2 ++ [Tick]). rewrite app_assoc. split; [done|by apply Hm]. }
  assert (Hup : same_at n w w' -> netif_is_up (netif_at w' n) = netif_is_up (netif_at w n)) by (intros (_ & _ & _ & E); unfold netif_is_up, has_flag; by rewrite E).
  unfold client_inv in Hi. destruct Ht as [Hs|Hs Hw|t Hs Hw Hn Ht|Hs Hw Hn|Hs Hw Hn|Hs Hw Hn].
  - assert (Ec : llipaddr (cooled a) = llipaddr a /\ au_state (cooled a) = au_state a /\ sent_num (cooled a) = sent_num a /\ tried_llipaddr (cooled a) = tried_llipaddr a)
      by (unfold cooled; by destruct (0 <? lastconflict a)). destruct Ec as (E1 & E2 & E3 & E4). split_and!; [done|done|].
    destruct Hs as [Hs|Hs]; rewrite Hs in *; [done|]. destruct Hi as (H1 & H2 & H3). destruct He as (G1 & G2 & _ & _).
    unfold client_inv. rewrite E2, E1, G1, G2. split_and!; [done|done|]. destruct (Hx H3) as (i1 & i2 & -> & Hp). exists i1, i2. split; [done|by eapply (probed_client _ _ _ a)].
  - split_and!; [done|done|]. unfold client_inv. cbn [with_client au_state sent_num ttw]. cbn in He. rewrite (Hup He). destruct He as (G1 & G2 & _).
    destruct Hs as [Hs|Hs]; rewrite Hs in *.
    + destruct Hi as (H1 & H2 & H3 & H4). split_and!; try lia; [done|]. eapply (probed_client _ _ _ a); [done|]. eapply Hm1; [exact H4|]. ztests.
    + destruct (sent_num a =? 0).
      * destruct Hi as (H1 & H2 & H3). split_and!; [lia|done|]. eapply (probed_client _ _ _ a); [done|]. eapply Hm1; [exact H3|lia].
      * destruct Hi as (H1 & H2 & H3 & H4). cbn [llipaddr]. rewrite G1, G2. split_and!; try done. destruct (Hx H4) as (i1 & i2 & -> & Hp). exists i1, i2. split; [done|by eapply (probed_client _ _ _ a)].
  - split_and!; [done|done|]. rewrite Hs in Hi. destruct Hi as (H1 & H2 & H3 & [P1 P2 P3]). destruct He as [G1 G2]. unfold client_inv. cbn [with_client au_state sent_num ttw].
    unfold PROBE_NUM in Hn. assert (ttw a = 0) as E0 by lia. rewrite E0 in P2. rewrite (u8_small (sent_num a + 1)) by lia. rewrite (Hup G1). split_and!; try lia; [done|]. split.
    + cbn [llipaddr with_client]. rewrite Eh. apply list.Forall_app. split; [done|by repeat constructor].
    + rewrite timer_calls_app. cbn [timer_calls]. revert P2. ztests.
    + intros Hp. specialize (P3 Hp). destruct (G2 Hp) as (es' & El' & Hin). cbn [llipaddr with_client]. rewrite Eh, El', drop_app_le, frames_sent_app by done.
      apply frames_sent_elem in Hin. lia.
  - split_and!; [done|done|]. rewrite Hs in Hi. destruct Hi as (H1 & H2 & H3 & H4). unfold client_inv. cbn [with_client au_state sent_num ttw Z.eqb].
    unfold PROBE_NUM in Hn. assert (sent_num a = 3) as E3 by lia. assert (ttw a = 0) as E0 by lia. rewrite E3, E0 in H4. cbn in H4. rewrite (Hup He).
    split_and!; [lia|done|]. eapply (probed_client _ _ _ a); [done|]. eapply Hm1; [exact H4|lia].
  - split_and!; [done|done|]. rewrite Hs, Hn in Hi. destruct Hi as (H1 & H2 & H3). destruct He as (G1 & G2 & _). unfold client_inv. cbn [with_client au_state sent_num ttw Z.eqb llipaddr].
    split_and!; [done|done|done|]. exists (ins ++ [Tick]), []. rewrite app_nil_r. split; [done|]. eapply (probed_client _ _ _ a); [done|]. eapply Hm1; [exact H3|lia].
  - rewrite Hs in Hi. apply Z.eqb_neq in Hn. rewrite Hn in Hi. destruct Hi as (H1 & H2 & H3 & H4). rewrite H1. change (u8 (1 + 1)) with 2. cbn [Z.leb ANNOUNCE_NUM Z.compare].
    change (ANNOUNCE_NUM <=? 2) with true. cbv iota. split_and!; [done|done|]. unfold client_inv. cbn [with_client au_state llipaddr]. destruct He as (G1 & G2 & _). rewrite G1, G2.
    split_and!; [done|done|]. destruct (Hx H4) as (i1 & i2 & -> & Hp). exists i1, i2. split; [done|by eapply (probed_client _ _ _ a)].
Qed.

Lemma claims_claims_inv n w ins k : claims n w ins k -> claims_inv n w ins k.
Proof.
  induction 1 as [w w0 Hw Hd Hin Ht E|w ins k i w' _ IH E|w ins k w' _ IH Hw El En Hl].
  - pose proof (autoip_start_spec w n Hw) as S. rewrite E in S. cbn [wp] in S. destruct S as [[_ S]|[S _]]; [|done]. by eapply started_inv.
  - destruct IH as [Hw Hd Hin Hk (a & Hc & Htr & Ell & Hi)]. rewrite Hc. destruct i as [|h|]; cbn [feed] in E.
    + pose proof (autoip_tmr_spec w n a Hw Hd Hin Hc) as S. rewrite E in S. cbn [wp] in S. destruct S as (Q & act & a' & T & C & F). cbn [restarts].
      destruct (tick_inv n w w' ins k a a' act Hk Q Hi T C F) as (E1 & E2 & Hi'). destruct (quiet_log _ _ Q) as (es & Eg & _).
      split; [apply Q|by rewrite (quiet_list _ _ Q)|by rewrite (quiet_list _ _ Q)|rewrite Eg, length_app; lia|]. exists a'. rewrite E1, E2. split; [done|].
      split; [done|]. split; [|done]. rewrite (ll_addr_hw _ (netif_at w n)); [done|apply Q].
    + pose proof (autoip_arp_reply_spec w n h Hw) as S. rewrite E in S. cbn [wp] in S. destruct S as [-> Hno|a0 C0 Hs Hcf Hl S|a0 C0 Hcf Hu Hl Q Sb C'].
      * rewrite Hc. cbn [restarts]. rewrite Z.eqb_refl. cbn [negb]. rewrite Hc in Hno. split; try done. exists a. split; [done|]. split; [done|]. split; [done|].
        apply client_inv_input; [done|done|]. intros Hu. assert (au_state a <> AUTOIP_STATE_OFF) as Hs by (intros Hs; unfold client_inv in Hi; by rewrite Hs in Hi).
        destruct Hno as [|Hno]; [done|]. cbn. by rewrite <- conflict_disputes.
      * assert (a0 = a) as -> by congruence. pose proof S as [_ _ (t & _ & C') _ _]. rewrite C'. cbn [restarts tried_llipaddr]. rewrite u8_succ_ne by done. cbn [negb].
        eapply started_inv; [exact S|done|done|apply u8_range].
      * assert (a0 = a) as -> by congruence. rewrite C'. cbn [restarts defended tried_llipaddr]. rewrite Z.eqb_refl. cbn [negb]. destruct (quiet_log _ _ Q) as (es & Eg & _).
        split; [apply Q|by rewrite (quiet_list _ _ Q)|by rewrite (quiet_list _ _ Q)|rewrite Eg, length_app; lia|]. exists (defended a). split; [done|]. split; [done|]. split.
        { cbn [defended llipaddr tried_llipaddr]. rewrite (ll_addr_hw _ (netif_at w n)); [done|apply Q]. }
        destruct (client_inv_used _ _ _ _ _ Hi Hu) as (U1 & U2 & (i1 & i2 & -> & Hp) & U3). destruct Sb as (_ & G1 & G2 & _).
        apply used_client_inv; [by rewrite G1|by rewrite G2| |done|done]. exists i1, (i2 ++ [Arp h]). split; [by rewrite app_assoc|].
        eapply (probed_client _ _ _ a); [done|]. eapply probed_mono; [done|done|apply Q|by eexists].
    + pose proof (autoip_network_changed_spec w n Hw) as S. rewrite E in S. cbn [wp] in S. destruct S as (Q & O & S). rewrite Hc in S. cbn [restarts].
      case_bool_decide as Hs; [unfold client_inv in Hi; by rewrite Hs in Hi|]. destruct S as (Hup & t & Ht & C').
      split; [apply Q|by rewrite (quiet_list _ _ Q)|by rewrite (quiet_list _ _ Q)|done|]. eexists. split; [exact C'|]. cbn [llipaddr tried_llipaddr]. split; [done|]. split.
      { rewrite (ll_addr_hw _ (netif_at w n)); [done|apply Q]. }
      unfold client_inv. cbn [au_state sent_num ttw Z.eqb]. split_and!; [done|done|unfold first_wait in Ht; lia|done|]. split; [constructor|done|]. intros _. apply frames_sent_nonneg.
  - destruct IH as [_ Hd Hin Hk (a & Hc & Htr & Ell & Hi)]. split; [done|by rewrite El|by rewrite El| |].
    + destruct Hl as (es & ->). rewrite length_app. lia.
    + exists a. unfold client in *. rewrite En. split_and!; try done; try lia. by eapply client_inv_rest.
Qed.

(** ** Properties *)


(** A sequence of inputs. *)
Fixpoint feeds (n : Z) (ins : list input) (w : world) : outcome world :=
  match ins with [] => Ok w | i :: ins => let! w := feed n i w in feeds n ins w end.

(** The number of ticks until the address is used, at most. *)
Definition remaining (a : autoip) : Z :=
  match au_state a with
  | AUTOIP_STATE_PROBING => ttw a + 1 + (3 - sent_num a) * 20 + 21
  | AUTOIP_STATE_ANNOUNCING => if sent_num a =? 0 then ttw a + 1 else 0
  | _ => 0
  end.

Definition usable (n : Z) (w : world) (a : autoip) (ip : Z) : Prop :=
  in_use a = true /\ (au_state a = AUTOIP_STATE_ANNOUNCING -> sent_num a = 1) /\ netif_is_up (netif_at w n) = true /\ nif_ip_addr (netif_at w n) = ip.

Definition on_the_way (n : Z) (w : world) (ip : Z) (left : Z) : Prop :=
  world_ok w /\ NoDup (netif_list w) /\ n ∈ netif_list w /\ exists a, client w n = Some a /\ llipaddr a = ip /\
    ((in_use a = false /\ au_state a <> AUTOIP_STATE_OFF /\ 0 <= sent_num a <= 3 /\ 0 <= ttw a /\ remaining a <= left) \/ usable n w a ip).

Lemma way_tick n w w' ip left a a' act : on_the_way n w ip left -> quiet w w' -> client w n = Some a -> ticked a act a' -> client w' n = Some a' ->
  effect act a n w w' -> on_the_way n w' ip (left - 1).
Proof.
  intros (Hw & Hd & Hin & a0 & Ha & Ell & Hcase) Q Ha' Ht Hc He. assert (a0 = a) as -> by congruence.
  split; [apply Q|]. rewrite (quiet_list _ _ Q). split; [done|]. split; [done|]. exists a'. split; [done|].
  assert (Hup : same_at n w w' -> netif_is_up (netif_at w' n) = netif_is_up (netif_at w n) /\ nif_ip_addr (netif_at w' n) = nif_ip_addr (netif_at w n))
    by (intros (E0 & _ & _ & E); unfold netif_is_up, has_flag; by rewrite E, E0).
  unfold usable, in_use, remaining in *.
  destruct Ht as [Hs|Hs Hwt|t Hs Hwt Hn Ht|Hs Hwt Hn|Hs Hwt Hn|Hs Hwt Hn]; cbn in He; try (destruct (Hup He) as [G1 G2]; rewrite G1, G2).
  - assert (Ec : llipaddr (cooled a) = llipaddr a /\ au_state (cooled a) = au_state a /\ sent_num (cooled a) = sent_num a)
      by (unfold cooled; by destruct (0 <? lastconflict a)). destruct Ec as (E1 & E2 & E3). rewrite E1, E2, E3. split; [done|]. right.
    destruct Hs as [Hs|Hs]; rewrite Hs in *; naive_solver.
  - split; [done|]. cbn [with_client au_state sent_num ttw]. destruct Hs as [Hs|Hs]; rewrite Hs in *.
    + left. destruct Hcase as [(_ & _ & H3 & H4 & H5)|(H & _)]; [|done]. split_and!; try done; lia.
    + destruct (sent_num a =? 0); [left|right].
      * destruct Hcase as [(_ & _ & H3 & H4 & H5)|(H & _)]; [|done]. split_and!; try done; lia.
      * destruct Hcase as [(H & _)|H]; done.
  - split; [done|]. left. rewrite Hs in Hcase. destruct Hcase as [(_ & _ & H3 & H4 & H5)|(H & _)]; [|done]. cbn [with_client au_state sent_num ttw].
    unfold PROBE_NUM in Hn. rewrite u8_small by lia. split_and!; try done; lia.
  - split; [done|]. left. rewrite Hs in Hcase. destruct Hcase as [(_ & _ & H3 & H4 & H5)|(H & _)]; [|done]. cbn [with_client au_state sent_num ttw Z.eqb].
    unfold PROBE_NUM in Hn. split_and!; try done; lia.
  - split; [done|]. right. cbn [with_client au_state sent_num Z.eqb negb]. destruct He as (-> & _ & _ & ->). done.
  - rewrite Hs in Hcase. apply Z.eqb_neq in Hn. rewrite Hn in Hcase. destruct Hcase as [(H & _)|(_ & H1 & H2 & H3)]; [done|]. rewrite H1 by done.
    change (ANNOUNCE_NUM <=? u8 (1 + 1)) with true. cbv iota. split; [done|]. right. done.
Qed.

Lemma way_feeds n ip ins : forall w left, on_the_way n w ip left -> Forall (undisputed ip (nif_hwaddr (netif_at w n))) ins ->
  wp (feeds n ins w) (fun w' => on_the_way n w' ip (left - timer_calls ins)).
Proof.
  induction ins as [|i ins IH]; intros w left Hway Hu; cbn [feeds timer_calls]; [by rewrite Z.sub_0_r|].
  apply list.Forall_cons in Hu as [Hi Hu]. pose proof Hway as (Hw & Hd & Hin & a & Ha & Ell & Hcase). destruct i as [|h|]; [| |done]; cbn [feed].
  - eapply wp_bind_mono; [by apply autoip_tmr_spec|]. intros w1 (Q & act & a' & T & C & F).
    pose proof (way_tick n w w1 ip left a a' act Hway Q Ha T C F) as Hway'. rewrite Z.sub_add_distr. apply IH; [done|].
    destruct (quiet_netif _ _ Q n) as [-> _]. done.
  - cbn in Hi. eapply wp_bind_mono; [by apply autoip_arp_reply_spec|]. intros w1 [-> _|a0 C0 Hs Hcf Hl S|a0 C0 Hcf Hus Hl Q Sb C']; [by apply IH| |]; exfalso;
      assert (a0 = a) as -> by congruence.
    + destruct (in_use a) eqn:Eu; [unfold conflict in Hcf; rewrite probing_or_waiting, Eu in Hcf by done; cbn [negb] in Hcf; unfold disputes in Hi|rewrite conflict_disputes in Hcf by done].
      * rewrite Ell in Hcf. apply andb_true_iff in Hcf as [Hcf _]. by rewrite Hcf in Hi.
      * rewrite Ell in Hcf. congruence.
    + assert (Hs : au_state a <> AUTOIP_STATE_OFF) by (intros E; unfold in_use in Hus; by rewrite E in Hus).
      unfold conflict in Hcf. rewrite probing_or_waiting, Hus in Hcf by done. cbn [negb] in Hcf. unfold disputes in Hi. rewrite Ell in Hcf.
      apply andb_true_iff in Hcf as [Hcf _]. by rewrite Hcf in Hi.
Qed.

(** C23: the client gets its address. From autoip_start on, up to the tenth
    attempt, when no ARP message disputes the address and the link does not
    change, 91 calls of the timer (9.1 seconds) later at most the interface
    is up with the address, however the other ARP messages come in between. *)
Theorem autoip_binds n w w0 ins : world_ok w -> NoDup (netif_list w) -> n ∈ netif_list w -> 0 <= tries w n <= MAX_CONFLICTS ->
  autoip_start lw w n = Ok (ERR_OK, w0) ->
  exists a, client w0 n = Some a /\
    (Forall (undisputed (llipaddr a) (nif_hwaddr (netif_at w n))) ins -> 91 <= timer_calls ins ->
     wp (feeds n ins w0) (fun w' => netif_is_up (netif_at w' n) = true /\ nif_ip_addr (netif_at w' n) = llipaddr a)).
Proof.
  intros Hw Hd Hin Ht E. pose proof (autoip_start_spec w n Hw) as S. rewrite E in S. cbn [wp] in S. destruct S as [[_ S]|[S _]]; [|done].
  destruct S as [Q _ (t & Hf & Hc) _ Hup]. eexists. split; [exact Hc|]. cbn [llipaddr]. intros Hu Hn.
  set (ip := lwip_htonl _) in *. eapply wp_mono; [apply (way_feeds n ip ins w0 91)|].
  - split; [apply Q|]. rewrite (quiet_list _ _ Q). split; [done|]. split; [done|]. eexists. split; [exact Hc|]. split; [done|]. left.
    unfold in_use, remaining. cbn [au_state sent_num ttw]. unfold first_wait in Hf. destruct (Z.ltb_spec MAX_CONFLICTS (tries w n)); [lia|]. split_and!; try done; lia.
  - destruct (quiet_netif _ _ Q n) as [-> _]. done.
  - intros w' (_ & _ & _ & a' & Ha' & Ell & [(H1 & H2 & H3 & H4 & H5)|(_ & _ & H1 & H2)]); [exfalso|done].
    unfold in_use, remaining in *. destruct (au_state a'); try done; [lia|]. destruct (sent_num a' =? 0); [lia|done].
Qed.

(** [j] conflicts that make the client choose the next address. *)
Fixpoint conflicts (j : nat) (n : Z) (w : world) : outcome world :=
  match j with O => Ok w | S j => let! w := autoip_restart lw w n in conflicts j n w end.

Lemma conflicts_spec j n : forall w a, world_ok w -> client w n = Some a -> first_wait (ttw a) (tried_llipaddr a) ->
  llipaddr a = lwip_htonl (ll_addr (netif_at w n) (tried_llipaddr a)) -> 0 <= tried_llipaddr a < 256 ->
  wp (conflicts j n w) (fun w' => exists a', client w' n = Some a' /\
    tried_llipaddr a' = u8 (tried_llipaddr a + Z.of_nat j) /\ llipaddr a' = lwip_htonl (ll_addr (netif_at w n) (tried_llipaddr a')) /\
    first_wait (ttw a') (tried_llipaddr a')).
Proof.
  induction j as [|j IH]; intros w a Hw Ha Hf Ell Ht; cbn [conflicts].
  { exists a. rewrite Z.add_0_r, u8_small by lia. done. }
  eapply wp_bind_mono; [by apply autoip_restart_spec|]. intros w1 [Q _ (t & Hf' & Hc) _ _].
  eapply wp_mono; [apply (IH w1 _ (quiet_ok _ _ Q) Hc); cbn [llipaddr tried_llipaddr ttw]; [done|f_equal; apply ll_addr_hw; symmetry; apply Q|apply u8_range]|].
  intros w' (a' & Ha' & E1 & E2 & E3). exists a'. split; [done|]. cbn [tried_llipaddr] in E1. split_and!; [|..|done].
  - rewrite E1. unfold u8. rewrite Zplus_mod_idemp_l. f_equal. lia.
  - rewrite E2. f_equal. apply ll_addr_hw. apply Q.
Qed.

(** The count of attempts is eight bits wide, which defeats the limit on
    their rate (RFC 3927, 2.2.1: after ten conflicts, one attempt in 60
    seconds at most). 256 conflicts after a client has tried [t] <= 10
    addresses, it comes back to the address it had, and it waits for less
    than a second before it probes it. So only 256 of the 65024 addresses are
    ever tried. *)
Theorem autoip_forgets_conflicts n w ins k a : claims n w ins k -> client w n = Some a -> tried_llipaddr a <= MAX_CONFLICTS ->
  wp (conflicts 256 n w) (fun w' => exists a', client w' n = Some a' /\ llipaddr a' = llipaddr a /\ 0 <= ttw a' < 10).
Proof.
  intros Hc Ha Ht. destruct (claims_claims_inv _ _ _ _ Hc) as [Hw _ _ _ (a0 & Ha0 & Htr & Ell & _)]. assert (a0 = a) as -> by congruence.
  change 256%nat with (S 255). cbn [conflicts]. eapply wp_bind_mono; [by apply autoip_restart_spec|]. intros w1 [Q _ (t & Hf & Hc1) _ _].
  eapply wp_mono; [apply (conflicts_spec 255 n w1 _ (quiet_ok _ _ Q) Hc1); cbn [llipaddr tried_llipaddr ttw]; [done|f_equal; apply ll_addr_hw; symmetry; apply Q|apply u8_range]|].
  cbn [tried_llipaddr]. intros w' (a' & Ha' & E1 & E2 & E3). exists a'. split; [done|].
  assert (Et : tried_llipaddr a' = tried_llipaddr a).
  { rewrite E1. unfold u8. rewrite Zplus_mod_idemp_l. replace (tried_llipaddr a + 1 + Z.of_nat 255) with (tried_llipaddr a + 1 * 2 ^ 8) by lia.
    rewrite Z.mod_add by done. apply Z.mod_small. lia. }
  rewrite E2, Et. split; [rewrite Ell; f_equal; apply ll_addr_hw, Q|]. rewrite Et in E3. unfold first_wait in E3.
  destruct (Z.ltb_spec MAX_CONFLICTS (tried_llipaddr a)); [lia|done].
Qed.

End Quiet.

(** ** Examples *)

Definition run_or (d : world) (m : outcome world) : world := match m with Ok w => w | _ => d end.
Definition ran {A} (m : outcome A) : bool := match m with Ok _ => true | _ => false end.

Lemma run_or_ok d m : ran m = true -> m = Ok (run_or d m).
Proof. by destruct m. Qed.

Lemma claims_ticks lw n j : forall w w' ins k, claims lw n w ins k -> feeds lw n (replicate j Tick) w = Ok w' ->
  exists ins' k', claims lw n w' ins' k'.
Proof.
  induction j as [|j IH]; intros w w' ins k Hc E; cbn [replicate feeds] in E; [injection E as <-; eauto|].
  destruct (feed lw n Tick w) as [w1| |] eqn:E1; [|done..]. eapply IH; [|exact E]. by eapply claims_feed.
Qed.

(** An interface without an address. *)
Definition unconfigured : world := host 0 [2; 0; 0; 0; 0; 1] (replicate 10 blank).
Definition w_started : world := match autoip_start kind unconfigured 0 with Ok (_, w) => w | _ => unconfigured end.
Definition w_bound : world := run_or unconfigured (feeds kind 0 (replicate 91 Tick) w_started).

Lemma unconfigured_ok : world_ok unconfigured.
Proof. by split; [apply blank_table_ok|..]. Qed.

Lemma starts : autoip_start kind unconfigured 0 = Ok (ERR_OK, w_started).
Proof. unfold w_started. destruct (autoip_start kind unconfigured 0) as [[r w]| |] eqn:E; [|by vm_compute in E..]. do 2 f_equal. by vm_compute in E; injection E as <- _. Qed.

Lemma started_claims : claims kind 0 w_started [] (length (log w_started)).
Proof. eapply claims_start; [apply unconfigured_ok|apply NoDup_singleton|by left|done|apply starts]. Qed.


Lemma autoip_binds_witness : exists a, client w_started 0 = Some a /\
  wp (feeds kind 0 (replicate 91 Tick) w_started) (fun w' => netif_is_up (netif_at w' 0) = true /\ nif_ip_addr (netif_at w' 0) = llipaddr a).
Proof.
  destruct (autoip_binds kind 0 unconfigured w_started (replicate 91 Tick) unconfigured_ok) as (a & Ha & H);
    [apply NoDup_singleton|by left|by vm_compute|exact starts|].
  exists a. split; [exact Ha|]. apply H; [by apply Forall_replicate|by vm_compute].
Defined.

Lemma autoip_forgets_conflicts_witness : exists a, client w_started 0 = Some a /\ tried_llipaddr a = 0 /\
  wp (conflicts kind 256 0 w_started) (fun w' => exists a', client w' 0 = Some a' /\ llipaddr a' = llipaddr a /\ 0 <= ttw a' < 10).
Proof.
  destruct (client w_started 0) as [a|] eqn:E; [|by vm_compute in E]. exists a.
  assert (T : tried_llipaddr a = 0) by (vm_compute in E; by injection E as <-).
  split; [done|]. split; [exact T|]. apply (autoip_forgets_conflicts kind 0 w_started _ _ a started_claims E). by rewrite T.
Defined.
