(* ===== verification/EthInput.v ===== *)
(** * Frames from the network: etharp_arp_input and ethernet_input of src/Utilities/lwip_v1.3.2/src/netif/etharp.c

    The two functions; then every operation of [Etharp], [Autoip] and this
    file as one step ([op], [exec]) and what holds after any sequence of them
    ([reach]): the invariant of the table with a ledger of the references to
    pbufs, and where each packet goes. At the end, two devices on one link. *)

From S2P Require Import Prelude CStd IpAddr Checksum Pbuf Etharp Autoip.

Definition PBUF_FLAG_LLBCAST : Z := 0x08.
Definition PBUF_FLAG_LLMCAST : Z := 0x10.

Section EthInput.
Context (lw : lower).

Definition arp_hdr_ok (h : etharp_hdr) : bool :=
  (hwtype h =? lwip_htons HWTYPE_ETHERNET) && (hwlen h =? ETHARP_HWADDR_LEN) && (protolen h =? 4) && (proto h =? lwip_htons ETHTYPE_IP).

(** The answer to a request, in the pbuf of the request. *)
Definition arp_reply (w : world) (n : Z) (ethaddr payload : list Z) (h : etharp_hdr) : outcome (list Z) :=
  let nf := netif_at w n in
  let ethdst_hwaddr := if ip_addr_islinklocal (nif_ip_addr nf) then ethbroadcast else shwaddr h in
  let h := EtharpHdr (hwtype h) (proto h) (hwlen h) (protolen h) (lwip_htons ARP_REPLY)
             ethaddr (nif_ip_addr nf) (shwaddr h) (sipaddr h) in
  let! eth := eth_hdr_at payload in
  let! payload := splice payload 0 (eth_hdr_bytes (EthHdr ethdst_hwaddr ethaddr (eth_type eth))) in
  splice payload SIZEOF_ETH_HDR (etharp_hdr_bytes h).

Definition etharp_arp_input (w : world) (n : Z) (ethaddr : list Z) (p : packet) : outcome world :=
  match pk_chain p with
  | [] => UB
  | (t, payload) :: rest =>
      if zlen payload <? SIZEOF_ETHARP_PACKET then Ok (emit w [Drop (pk_id p)])
      else
        let! hdr := etharp_hdr_at payload SIZEOF_ETH_HDR in
        if negb (arp_hdr_ok hdr) then Ok (emit w [Drop (pk_id p)])
        else
          let! w := autoip_arp_reply lw w n hdr in
          let nf := netif_at w n in
          let for_us := if ip_addr_isany (nif_ip_addr nf) then false else ip_addr_cmp (dipaddr hdr) (nif_ip_addr nf) in
          let! (_, w) := etharp_update_arp_entry lw w n (sipaddr hdr) (shwaddr hdr)
                           (if for_us then ETHARP_FLAG_TRY_HARD else ETHARP_FLAG_FIND_ONLY) in
          let! w :=
            if opcode hdr =? lwip_htons ARP_REQUEST then
              if for_us then
                let! payload := arp_reply w n ethaddr payload hdr in
                Ok (snd (linkoutput lw w n ((t, payload) :: rest)))
              else Ok w
            else if opcode hdr =? lwip_htons ARP_REPLY then Ok (emit w [DhcpArpReply n (sipaddr hdr)])
            else Ok w in
          Ok (emit w [Drop (pk_id p)])
  end.

(** The flags of the packet from its destination address. *)
Definition ll_flags (dest : list Z) (flags : Z) : Z :=
  if negb (Z.land (nth 0 dest 0) 1 =? 0) then
    if nth 0 dest 0 =? 0x01 then
      if (nth 1 dest 0 =? 0x00) && (nth 2 dest 0 =? 0x5e) then Z.lor flags PBUF_FLAG_LLMCAST else flags
    else if eth_addr_cmp dest ethbroadcast then Z.lor flags PBUF_FLAG_LLBCAST else flags
  else flags.

Definition ethernet_input (w : world) (p : packet) (n : Z) : outcome (Z * world) :=
  match pk_chain p with
  | [] => UB
  | (t, payload) :: rest =>
      let free_and_return := Ok (ERR_OK, emit w [Drop (pk_id p)]) in
      if zlen payload <=? SIZEOF_ETH_HDR then free_and_return
      else
        let! eth := eth_hdr_at payload in
        let flags := ll_flags (eth_dest eth) (pk_flags p) in
        let nf := netif_at w n in
        if eth_type eth =? lwip_htons ETHTYPE_IP then
          if negb (has_flag nf NETIF_FLAG_ETHARP) then free_and_return
          else
            let p := Packet (pk_id p) ((t, drop (Z.to_nat SIZEOF_ETH_HDR) payload) :: rest)
                       (Some (take (Z.to_nat SIZEOF_ETH_HDR) payload)) flags in
            Ok (ERR_OK, emit w [IpInput n p])
        else if eth_type eth =? lwip_htons ETHTYPE_ARP then
          if negb (has_flag nf NETIF_FLAG_ETHARP) then free_and_return
          else
            let! w := etharp_arp_input w n (nif_hwaddr nf) (Packet (pk_id p) (pk_chain p) (pk_room p) flags) in
            Ok (ERR_OK, w)
        else free_and_return
  end.


(** ** Operations and their sequences *)

Inductive op : Type :=
  | OpTimer
  | OpAutoipTimer
  | OpInput (n : Z) (p : packet)
  | OpOutput (n : Z) (q : packet) (ipaddr : Z)
  | OpQuery (n : Z) (ipaddr : Z) (q : option packet)
  | OpFindAddr (n : Z) (ipaddr : Z)
  | OpRequest (n : Z) (ipaddr : Z)
  | OpSetStruct (n : Z)
  | OpStart (n : Z)
  | OpStop (n : Z)
  | OpLinkChange (n : Z)
  | OpSetAddr (n : Z) (ipaddr netmask gw : Z)
  | OpUp (n : Z)
  | OpDown (n : Z).

Definition drop_result {A} (m : outcome (A * world)) : outcome world := let! (_, w) := m in Ok w.

Definition exec (o : op) (w : world) : outcome world :=
  match o with
  | OpTimer => etharp_tmr w
  | OpAutoipTimer => autoip_tmr lw w
  | OpInput n p => drop_result (ethernet_input (emit w [Rx n p]) p n)
  | OpOutput n q ip => drop_result (etharp_output lw w n q ip)
  | OpQuery n ip q => drop_result (etharp_query lw w n ip q)
  | OpFindAddr n ip => drop_result (etharp_find_addr w n ip)
  | OpRequest n ip => Ok (snd (etharp_request lw w n ip))
  | OpSetStruct n => autoip_set_struct w n
  | OpStart n => drop_result (autoip_start lw w n)
  | OpStop n => autoip_stop w n
  | OpLinkChange n => autoip_network_changed w n
  | OpSetAddr n ip mask gw => Ok (netif_set_addr w n ip mask gw)
  | OpUp n => Ok (netif_set_up lw w n)
  | OpDown n => netif_set_down w n
  end.

(** What the callers guarantee. *)
Definition op_ok (w : world) (o : op) : Prop :=
  match o with
  | OpInput _ p => pk_chain p <> []
  | OpOutput _ q _ => ip_packet q
  | OpQuery _ _ q => match q with Some q => has_header q | None => True end
  | OpSetStruct n => client w n = None
  | OpStop n => client w n <> None
  | _ => True
  end.

(** The ARP message in a frame that interface [nf] takes to etharp_arp_input. *)
Definition arp_message (nf : netif) (p : packet) : option etharp_hdr :=
  match pk_chain p with
  | (_, payload) :: _ =>
      if zlen payload <? SIZEOF_ETHARP_PACKET then None
      else
        match eth_hdr_at payload, etharp_hdr_at payload SIZEOF_ETH_HDR with
        | Ok eth, Ok hdr => if (eth_type eth =? lwip_htons ETHTYPE_ARP) && has_flag nf NETIF_FLAG_ETHARP && arp_hdr_ok hdr then Some hdr else None
        | _, _ => None
        end
  | [] => None
  end.

(** What was learnt and what was to be sent: an ARP message from [ip] with
    the Ethernet address [m]; the bytes of a packet for the next hop [hop]. *)
Inductive item : Type :=
  | Heard (ip : Z) (m : list Z)
  | Asked (hop : Z) (bs : list Z).

Definition items (o : op) (w : world) : list item :=
  match o with
  | OpInput n p =>
      match arp_message (netif_at w n) p with
      | Some hdr =>
          match autoip_arp_reply lw (emit w [Rx n p]) n hdr with
          | Ok w1 => if not_unicast (sipaddr hdr) (netif_at w1 n) then [] else [Heard (sipaddr hdr) (shwaddr hdr)]
          | _ => []
          end
      | None => []
      end
  | OpOutput n q ip =>
      match pk_room q with
      | Some room =>
          match next_hop (netif_at w n) (moved q room) ip with
          | Ok (Some hop) => [Asked hop (chain_bytes (pk_chain q))]
          | _ => []
          end
      | None => []
      end
  | OpQuery n ip (Some q) => [Asked ip (body q)]
  | _ => []
  end.

Fixpoint last_heard (h : list item) (ip : Z) : option (list Z) :=
  match h with
  | [] => None
  | Heard a m :: h => match last_heard h ip with Some m' => Some m' | None => if a =? ip then Some m else None end
  | _ :: h => last_heard h ip
  end.

(** The memory after reset, with interfaces that have their hardware
    addresses. *)
Record boot (w : world) : Prop := Boot {
  boot_table : arp_table w = replicate 10 blank;
  boot_cached : etharp_cached_entry w = 0;
  boot_netif : forall n, netif_ok (netif_at w n);
  boot_log : log w = [];
}.

Inductive reach : world -> list item -> Prop :=
  | reach_boot w : boot w -> reach w []
  | reach_step w h o w' : reach w h -> op_ok w o -> exec o w = Ok w' -> reach w' (h ++ items o w).

(** ** Theory *)

Lemma last_heard_app h1 h2 ip : last_heard (h1 ++ h2) ip = match last_heard h2 ip with Some m => Some m | None => last_heard h1 ip end.
Proof. induction h1 as [|[a m|a b] h1 IH]; cbn [app last_heard]; [by destruct (last_heard h2 ip)|rewrite IH; by destruct (last_heard h2 ip)|done]. Qed.

Definition knows (h : list item) (e : etharp_entry) : Prop :=
  (is_stable (ae_state e) = true -> last_heard h (ae_ipaddr e) = Some (ae_ethaddr e)) /\
  match ae_q e with Some p => Asked (ae_ipaddr e) (body p) ∈ h | None => True end.

(** The invariant, while somebody holds [extra id] references to the pbuf
    [id] that are in the log and not in the table. *)
Section Held.
Context (extra : Z -> Z).

Record inv (w : world) (h : list item) : Prop := Inv {
  inv_ok : world_ok w;
  inv_knows : forall k e, arp_table w !! k = Some e -> used e -> knows h e;
  inv_ledger : forall id, ledger id (log w) = refs id (arp_table w) + extra id;
}.

(** An IP frame to a broadcast or multicast address. *)
Definition to_group (o : op) (w : world) (n : Z) (m bs : list Z) : Prop :=
  match o with OpOutput n' q ip => n' = n /\ group_mac (netif_at w n) ip = Some m /\ bs = chain_bytes (pk_chain q) | _ => False end.

Definition resolved (h : list item) (o : op) (w : world) (n : Z) (f : list Z) : Prop :=
  (exists dst src hdr pad, f = arp_frame dst src hdr ++ pad) \/
  exists m bs, f = ip_frame m (nif_hwaddr (netif_at w n)) bs /\
    (to_group o w n m bs \/ exists hop, Asked hop bs ∈ h /\ last_heard h hop = Some m).

(** The events of a step. *)
Definition good (h : list item) (o : op) (w : world) (e : event) : Prop :=
  match e with Out n f => resolved h o w n f | _ => True end.

Definition stepped (o : op) (w : world) (h : list item) (w' : world) : Prop :=
  inv w' h /\ exists es, log w' = log w ++ es /\ Forall (good h o w) es.

Lemma arp_event_good h o w e : arp_event e -> good h o w e.
Proof. destruct e; try done. cbn. intros (d & s & hd & pad & _ & _ & ->). left. eauto. Qed.

Lemma quiet_inv w w' h : quiet w w' -> inv w h -> inv w' h.
Proof.
  intros [Q1 (es & Q2 & _ & Q3) Q4 Q5 Q6] [I1 I2 I3]. split; [done|..].
  - intros k e Hk Hu. by apply (I2 k e); [apply Q1|].
  - intros id. rewrite Q2, ledger_app, Q3, I3. lia.
Qed.

Lemma quiet_stepped o w w' h : quiet w w' -> inv w h -> stepped o w h w'.
Proof.
  intros Q HI. split; [by eapply quiet_inv|]. destruct (quiet_log _ _ Q) as (es & E & Ha & _). exists es. split; [done|].
  revert Ha. apply Forall_impl. intros e. apply arp_event_good.
Qed.

(** A step that changes one entry. *)
Lemma set_stepped o w w' h h' k e0 e c es : inv w h -> became w (<[k := e]> (arp_table w)) c es w' -> world_ok w' ->
  arp_table w !! k = Some e0 -> (forall k' e', k' <> k -> arp_table w !! k' = Some e' -> used e' -> knows h' e') ->
  (used e -> knows h' e) -> (forall id, ledger id es = refs1 id e - refs1 id e0) -> Forall (good h' o w) es -> stepped o w h' w'.
Proof.
  intros [I1 I2 I3] [B1 B2 B3 B4 B5 B6 B7] Hw' Hk Hrest He Hl Hg. split; [|by exists es]. split; [done|..].
  - rewrite B1. intros k' e' [(<- & <- & _)|[Hne Hk']]%list_lookup_insert_Some Hu; [by apply He|]. by apply (Hrest k').
  - intros id. rewrite B3, B1, ledger_app, Hl, I3, (refs_set _ _ _ _ _ Hk). lia.
Qed.

Lemma knows_app h h2 e : knows h e -> last_heard h2 (ae_ipaddr e) = None -> knows (h ++ h2) e.
Proof.
  intros [K1 K2] Hn. split.
  - intros Hs. rewrite last_heard_app, Hn. by apply K1.
  - destruct (ae_q e); [|done]. apply elem_of_app. by left.
Qed.

Lemma Forall_one {A} (P : A -> Prop) x : P x -> Forall P [x].
Proof. by repeat constructor. Qed.

Lemma request_good h o w n nf ip ev : request_events n nf ip ev -> mac (nif_hwaddr nf) -> Forall (good h o w) ev /\ forall id, ledger id ev = 0.
Proof.
  intros [->|(id & ->)] Hm; [split; [constructor|done]|]. split; [|intros i; cbn; lia].
  repeat constructor. eexists _, _, _, []. by rewrite app_nil_r.
Qed.

Lemma entry_used e : entry_ok e -> ae_q e <> None -> used e.
Proof. intros He Hq. pose proof (eo_q e He) as H. destruct (ae_q e); [|done]. unfold used. by destruct H as [-> _]. Qed.

Lemma aged_refs id e : ledger id (expired_q e) = refs1 id (aged e) - refs1 id e.
Proof.
  unfold expired_q, aged. destruct (is_empty (ae_state e)) eqn:Ee; [unfold expires; rewrite Ee; cbn; lia|].
  destruct (expires e); [rewrite ledger_free_q; unfold refs1 at 2; cbn; lia|unfold refs1; cbn; lia].
Qed.


Lemma timer_stepped o w h : inv w h -> wp (etharp_tmr w) (fun w' => stepped o w h w').
Proof.
  intros [I1 I2 I3]. destruct (etharp_tmr_eq w (wo_table _ I1)) as (w' & -> & B & Ht). cbn [wp].
  assert (Hw' : world_ok w') by (eapply became_ok; [exact B|done|done|apply I1]). destruct B as [B1 B2 B3 B4 B5 B6 B7].
  assert (Hes : forall t, Forall (good h o w) (concat (map expired_q t)) /\
    forall id, Forall entry_ok t -> ledger id (concat (map expired_q t)) = refs id (map aged t) - refs id t).
  { clear. intros t. induction t as [|e t [IH1 IH2]]; cbn [map concat refs]; [split; [constructor|done]|]. split.
    - apply list.Forall_app. split; [|done]. unfold expired_q, free_q. destruct (expires e), (ae_q e); by repeat constructor.
    - intros id [He Ht]%list.Forall_cons. rewrite ledger_app, IH2, aged_refs by done. lia. }
  destruct (Hes (arp_table w)) as [Hg Hl]. split; [|by exists (concat (map expired_q (arp_table w)))]. split; [done|..].
  - intros k e. rewrite B1, list_lookup_fmap. intros (a & Ha & ->)%fmap_Some Hu. destruct (aged_ok a) as [_ Hu']; [by eapply lookup_ok; [apply I1|]|].
    destruct (Hu' Hu) as [Hua _]. destruct (I2 k a Ha Hua) as [K1 K2]. unfold aged in *. unfold used in Hua. rewrite Hua in *.
    destruct (expires a); [done|]. split; cbn; [|done]. intros Hs. apply K1. by destruct (ae_state a).
  - intros id. rewrite B3, B1, ledger_app, I3, Hl; [lia|apply I1].
Qed.

Lemma queried_stepped o w h n ip q w' : inv w h -> match q with Some q => has_header q | None => True end ->
  queried lw w n ip q w' -> stepped o w (h ++ match q with Some q => [Asked ip (body q)] | None => [] end) w'.
Proof.
  intros HI Hq Hqd. pose proof (queried_ok _ _ _ _ _ _ (inv_ok _ _ HI) Hq Hqd) as Hw'. pose proof HI as [I1 I2 I3].
  set (h2 := match q with Some q => [Asked ip (body q)] | None => [] end).
  assert (Hn : forall a, last_heard h2 a = None) by by destruct q.
  assert (Hrest : forall k e, arp_table w !! k = Some e -> used e -> knows (h ++ h2) e) by (intros; apply knows_app; eauto).
  assert (Hmac : forall n, mac (nif_hwaddr (netif_at w n))) by (intros; apply I1).
  destruct Hqd as [Hu|k e ev w1 Hk Hs Hip Hev B|k e e1 es ev tk p w1 Hu Hk Hc Hev Hp _ B].
  - split; [|exists []; by rewrite app_nil_r]. split; [done|apply Hrest|done].
  - assert (He : used e) by (unfold used; by destruct (ae_state e)).
    assert (Hid : <[k := e]> (arp_table w) = arp_table w) by by apply list_insert_id. rewrite <- Hid in B.
    assert (Hes : (forall id, ledger id ev = 0) /\ Forall (good (h ++ h2) o w) ev).
    { destruct q as [q|]; [|by destruct (request_good (h ++ h2) o w n _ _ _ Hev (Hmac n))]. subst ev. split; [done|].
      apply Forall_one. right. eexists _, _. split; [done|]. right. exists ip. split; [apply elem_of_app; right; by left|].
      destruct (Hrest k e Hk He) as [K1 _]. rewrite <- Hip. by apply K1. }
    destruct Hes as [Hl Hg]. eapply set_stepped; [done|exact B|done|exact Hk|intros; by eapply Hrest|by apply Hrest with k| |done].
    intros id. rewrite Hl. lia.
  - pose proof (lookup_ok _ _ _ (wo_table _ I1) Hk) as He.
    destruct (request_good (h ++ h2) o w n _ _ _ Hev (Hmac n)) as [Hg Hl].
    assert (H1 : ae_ipaddr e1 = ip /\ is_stable (ae_state e1) = false /\ (forall id, ledger id es = refs1 id e1 - refs1 id e) /\ Forall (good (h ++ h2) o w) es /\
      (match ae_q e1 with Some p => Asked ip (body p) ∈ h ++ h2 | None => True end)).
    { destruct Hc as [(H1 & H2 & -> & ->)|(H1 & _ & -> & ->)].
      - assert (Hue : used e) by (unfold used; by rewrite H1). destruct (Hrest k e Hk Hue) as [_ K2]. rewrite H2 in K2. rewrite H1.
        split_and!; try done. intros id. cbn. lia.
      - destruct (recycled_ok e ip He) as (_ & _ & R3 & R4). cbn [ae_ipaddr ae_state ae_q set_state]. rewrite R3. split_and!; try done.
        + intros id. rewrite ledger_free_q. assert (refs1 id (set_state ETHARP_STATE_PENDING (recycled e ip)) = 0) as -> by (unfold refs1; cbn [ae_q set_state]; by rewrite R3). lia.
        + unfold free_q. destruct (ae_q e); by repeat constructor. }
    destruct H1 as (H1 & H2 & H3 & H4 & H5).
    assert (Hfq : forall e, Forall (good (h ++ h2) o w) (free_q e)) by (intros x; unfold free_q; destruct (ae_q x); by repeat constructor).
    eapply set_stepped; [done|exact B|done|exact Hk|intros; by eapply Hrest|..].
    + intros _. destruct p as [p|]; split; cbn [set_q ae_state ae_ipaddr ae_q ae_ethaddr]; try by rewrite H2.
      * destruct Hp as (_ & _ & q' & -> & ->). rewrite H1. apply elem_of_app. right. by left.
      * by rewrite H1.
    + intros id. rewrite !ledger_app, Hl, H3. destruct p as [p|].
      * destruct Hp as (-> & _). rewrite ledger_free_q. change (refs1 id (set_q (Some p) e1)) with (Z.b2z (pk_id p =? id)). cbn [ledger ledger1]. lia.
      * assert (ledger id tk = 0) as ->; [|cbn; lia]. destruct Hp as [->|(i & ->)]; cbn; lia.
    + rewrite !list.Forall_app. split_and!; [done|done| |by destruct p].
      destruct p as [p|]; [destruct Hp as (-> & _)|destruct Hp as [->|(i & ->)]]; by repeat constructor.
Qed.

Lemma outputs_stepped w h n q ip w' : inv w h -> ip_packet q -> outputs lw w n q ip w' ->
  stepped (OpOutput n q ip) w (h ++ items (OpOutput n q ip) w) w'.
Proof.
  intros HI Hq Ho. pose proof (outputs_ok _ _ _ _ _ _ (inv_ok _ _ HI) Hq Ho) as Hw'. pose proof HI as [I1 I2 I3].
  set (h2 := items _ w). assert (Hn : forall a, last_heard h2 a = None).
  { intros a. subst h2. cbn. destruct (pk_room q); [|done]. by destruct (next_hop _ _ _) as [[]| |]. }
  assert (Hrest : forall k e, arp_table w !! k = Some e -> used e -> knows (h ++ h2) e) by (intros; apply knows_app; eauto).
  destruct Ho as [_|m w1 Hr Hg B|room hop k e ev s c w1 Er Hg Hh Hk Hs Hip Hev Hs' _ Hc B|room hop w1 Er Hg Hh _ Hqd].
  - split; [|exists []; by rewrite app_nil_r]. split; [done|apply Hrest|done].
  - split; [|exists [Out n (ip_frame m (nif_hwaddr (netif_at w n)) (chain_bytes (pk_chain q)))]; split; [apply B|]].
    + split; [done|..].
      * intros k e. rewrite (became_table _ _ _ _ _ B). apply Hrest.
      * intros id. rewrite (became_log _ _ _ _ _ B), (became_table _ _ _ _ _ B), ledger_app, I3. cbn. lia.
    + apply Forall_one. right. eexists _, _. split; [done|]. by left.
  - assert (He : used e) by (unfold used; by destruct (ae_state e)).
    destruct (request_good (h ++ h2) (OpOutput n q ip) w n _ _ _ Hev ltac:(apply I1)) as [Hg' Hl].
    destruct (Hrest k e Hk He) as [K1 K2].
    eapply set_stepped; [done|exact B|done|exact Hk|intros; by eapply Hrest|..].
    + intros _. split; [|done]. intros _. by apply K1.
    + intros id. rewrite ledger_app, Hl. unfold refs1. cbn. lia.
    + apply list.Forall_app. split; [done|]. apply Forall_one. right. eexists _, _. split; [done|]. right. exists hop.
      split; [|rewrite <- Hip; by apply K1]. apply elem_of_app. right. subst h2. cbn. rewrite Er, Hh. by left.
  - destruct (moved_header q room Hq Er) as (M1 & M2 & _).
    pose proof (queried_stepped (OpOutput n q ip) w h n hop (Some (moved q room)) w1 HI M1 Hqd) as S. cbn beta iota in S.
    rewrite M2 in S. subst h2. cbn. by rewrite Er, Hh.
Qed.

(** *** etharp_arp_input *)

Lemma updated_stepped o w0 w h n ip m flags r w' : inv w h -> mac m -> nif_hwaddr (netif_at w n) = nif_hwaddr (netif_at w0 n) ->
  updated w n ip m flags r w' ->
  inv w' (h ++ if not_unicast ip (netif_at w n) then [] else [Heard ip m]) /\
  exists es, log w' = log w ++ es /\ Forall (good (h ++ if not_unicast ip (netif_at w n) then [] else [Heard ip m]) o w0) es.
Proof.
  intros HI Hm Eh Hu. pose proof (updated_ok _ _ _ _ _ _ _ (inv_ok _ _ HI) Hm Hu) as Hw'. pose proof HI as [I1 I2 I3].
  assert (Hother : forall e, used e -> knows h e -> ae_ipaddr e <> ip -> knows (h ++ [Heard ip m]) e).
  { intros e _ Hk Hne. apply knows_app; [done|]. cbn. destruct (Z.eqb_spec ip (ae_ipaddr e)); [congruence|done]. }
  assert (Hnew : knows (h ++ [Heard ip m]) (learnt_entry n ip m)).
  { split; [|done]. intros _. cbn. rewrite last_heard_app. cbn. by rewrite Z.eqb_refl. }
  destruct Hu as [E|E Hn _|k e w1 E Hk Hue He B|k e w1 E Hn _ _ Hk _ B]; rewrite E in *.
  - rewrite app_nil_r. split; [done|]. exists []. by rewrite app_nil_r.
  - split; [|exists []; by rewrite app_nil_r]. split; [done| |done]. intros k e Hk Hue. apply Hother; [done|by eapply I2|].
    unfold no_match in Hn. rewrite list.Forall_forall in Hn. apply Hn; [by eapply list_elem_of_lookup_2|done].
  - destruct (I2 k e Hk Hue) as [_ K2]. pose proof B as [B1 B2 B3 B4 B5 B6 B7]. split.
    + split; [done|..].
      * rewrite B1. intros k' e' [(<- & <- & _)|[Hne Hk']]%list_lookup_insert_Some Hu'; [done|]. apply Hother; [done|by eapply I2|].
        intros E'. apply Hne. symmetry. apply (to_distinct _ (wo_table _ I1) k' k e' e); congruence || done.
      * intros id. rewrite B3, B1, ledger_app, I3, (refs_set _ _ _ _ _ Hk). unfold sent_q, refs1. destruct (ae_q e); cbn; lia.
    + eexists. split; [exact B3|]. unfold sent_q. destruct (ae_q e) as [p|]; [|constructor]. constructor; [|by repeat constructor]. right. rewrite Eh. eexists _, _. split; [done|].
      right. exists ip. split; [apply elem_of_app; left; by rewrite <- He|]. rewrite last_heard_app. cbn. by rewrite Z.eqb_refl.
  - pose proof B as [B1 B2 B3 B4 B5 B6 B7]. split.
    + split; [done|..].
      * rewrite B1. intros k' e' [(<- & <- & _)|[Hne Hk']]%list_lookup_insert_Some Hu'; [done|]. apply Hother; [done|by eapply I2|].
        unfold no_match in Hn. rewrite list.Forall_forall in Hn. apply Hn; [by eapply list_elem_of_lookup_2|done].
      * intros id. rewrite B3, B1, ledger_app, I3, (refs_set _ _ _ _ _ Hk), ledger_free_q. change (refs1 id (learnt_entry n ip m)) with 0. lia.
    + eexists. split; [exact B3|]. unfold free_q. destruct (ae_q e); by repeat constructor.
Qed.

End Held.

Lemma load16_ok bs i : 0 <= i -> i + 2 <= zlen bs -> exists v, load16 bs i = Ok v.
Proof.
  unfold zlen. intros Hi Hl. unfold load16. destruct (rd_ok bs i) as (a & -> & _); [lia|]. destruct (rd_ok bs (i + 1)) as (b & -> & _); [lia|]. cbn. eauto.
Qed.

Lemma slice6 bs i : 0 <= i -> i + 6 <= zlen bs -> exists v, slice bs i 6 = Ok v /\ mac v.
Proof.
  intros Hi Hl. rewrite slice_ok by lia. eexists. split; [done|]. unfold mac. rewrite length_take, length_drop. unfold zlen in Hl. lia.
Qed.

Lemma etharp_hdr_at_ok bs : SIZEOF_ETHARP_PACKET <= zlen bs -> exists h, etharp_hdr_at bs SIZEOF_ETH_HDR = Ok h /\ mac (shwaddr h).
Proof.
  change SIZEOF_ETHARP_PACKET with 42. change SIZEOF_ETH_HDR with 14. intros Hl. unfold etharp_hdr_at.
  destruct (load16_ok bs 14) as [a ->]; [lia|lia|]. destruct (load16_ok bs (14 + 2)) as [b ->]; [lia|lia|].
  destruct (rd_ok bs (14 + 4)) as (c & -> & _); [unfold zlen in Hl; lia|]. destruct (rd_ok bs (14 + 5)) as (d & -> & _); [unfold zlen in Hl; lia|].
  destruct (load16_ok bs (14 + 6)) as [e ->]; [lia|lia|]. destruct (slice6 bs (14 + 8)) as (f & -> & Hf); [lia|lia|].
  destruct (load32_ok bs (14 + 14)) as [g ->]; [lia|lia|]. destruct (slice6 bs (14 + 18)) as (i & -> & Hi); [lia|lia|].
  destruct (load32_ok bs (14 + 24)) as [j ->]; [lia|lia|]. cbn. by eexists.
Qed.

Lemma eth_hdr_at_ok bs : SIZEOF_ETH_HDR <= zlen bs -> exists d s t, eth_hdr_at bs = Ok (EthHdr d s t) /\ mac d /\ mac s.
Proof.
  change SIZEOF_ETH_HDR with 14. intros Hl. unfold eth_hdr_at. destruct (slice6 bs 0) as (d & -> & Hd); [lia|lia|].
  destruct (slice6 bs 6) as (s & -> & Hs); [lia|lia|]. destruct (load16_ok bs 12) as [t ->]; [lia|lia|]. cbn. by eexists _, _, _.
Qed.

Lemma hdr_bytes_length h : mac (shwaddr h) -> mac (dhwaddr h) -> length (etharp_hdr_bytes h) = 28%nat.
Proof. intros H1 H2. unfold etharp_hdr_bytes. rewrite !length_app, H1, H2. done. Qed.

(** The reply of interface [nf] to the message [h]. *)
Definition reply_hdr (nf : netif) (ethaddr : list Z) (h : etharp_hdr) : etharp_hdr :=
  EtharpHdr (hwtype h) (proto h) (hwlen h) (protolen h) (lwip_htons ARP_REPLY) ethaddr (nif_ip_addr nf) (shwaddr h) (sipaddr h).
Definition reply_dest (nf : netif) (h : etharp_hdr) : list Z :=
  if ip_addr_islinklocal (nif_ip_addr nf) then ethbroadcast else shwaddr h.

Lemma arp_reply_eq w n ethaddr payload h d s : SIZEOF_ETHARP_PACKET <= zlen payload -> mac ethaddr -> mac (shwaddr h) ->
  eth_hdr_at payload = Ok (EthHdr d s (lwip_htons ETHTYPE_ARP)) ->
  arp_reply w n ethaddr payload h =
    Ok (arp_frame (reply_dest (netif_at w n) h) ethaddr (reply_hdr (netif_at w n) ethaddr h) ++ drop 42 payload).
Proof.
  change SIZEOF_ETHARP_PACKET with 42. unfold zlen. intros Hl Hm Hs Heth. unfold arp_reply. rewrite Heth. cbn [obind eth_type].
  fold (reply_hdr (netif_at w n) ethaddr h) (reply_dest (netif_at w n) h).
  assert (Hd : mac (reply_dest (netif_at w n) h)) by (unfold reply_dest; by destruct (ip_addr_islinklocal _)).
  set (E := eth_hdr_bytes _). assert (HE : length E = 14%nat).
  { subst E. unfold eth_hdr_bytes. cbn [eth_dest eth_src eth_type]. rewrite !length_app, Hd, Hm. done. }
  set (H := etharp_hdr_bytes _). assert (HH : length H = 28%nat) by by apply hdr_bytes_length.
  rewrite splice_ok by (unfold zlen; lia). cbn [obind]. change (Z.to_nat 0) with 0%nat. rewrite take_0. cbn [app Nat.add]. rewrite HE.
  change SIZEOF_ETH_HDR with 14. rewrite splice_ok by (unfold zlen; rewrite ?length_app, ?length_drop; lia).
  rewrite HH. change (Z.to_nat 14) with 14%nat. rewrite take_app_le, take_ge by lia.
  rewrite drop_app_ge by lia. rewrite HE. change (14 + 28 - 14)%nat with 28%nat. rewrite drop_drop. change (14 + 28)%nat with 42%nat.
  unfold arp_frame. subst E H. unfold eth_hdr_bytes. cbn [eth_dest eth_src eth_type]. by rewrite <- !app_assoc.
Qed.

Definition is_for_us (nf : netif) (h : etharp_hdr) : bool :=
  if ip_addr_isany (nif_ip_addr nf) then false else ip_addr_cmp (dipaddr h) (nif_ip_addr nf).

(** What the message itself makes the device do. *)
Definition answer (n : Z) (nf : netif) (ethaddr : list Z) (h : etharp_hdr) (pad : list Z) : list event :=
  if opcode h =? lwip_htons ARP_REQUEST then
    if is_for_us nf h then [Out n (arp_frame (reply_dest nf h) ethaddr (reply_hdr nf ethaddr h) ++ pad)] else []
  else if opcode h =? lwip_htons ARP_REPLY then [DhcpArpReply n (sipaddr h)] else [].

Lemma replied_quiet w w' n h : world_ok w -> replied w w' n h -> quiet w w'.
Proof. intros Hw [-> _|a _ _ _ _ S|a _ _ _ _ Q _ _]; [by apply quiet_self|apply S|done]. Qed.

Lemma etharp_arp_input_spec w n ethaddr p t payload rest d s h : world_ok w -> mac ethaddr -> pk_chain p = (t, payload) :: rest ->
  SIZEOF_ETHARP_PACKET <= zlen payload -> eth_hdr_at payload = Ok (EthHdr d s (lwip_htons ETHTYPE_ARP)) ->
  etharp_hdr_at payload SIZEOF_ETH_HDR = Ok h -> arp_hdr_ok h = true -> mac (shwaddr h) ->
  wp (etharp_arp_input w n ethaddr p) (fun w' => exists w1 r w2,
    autoip_arp_reply lw w n h = Ok w1 /\ replied w w1 n h /\
    updated w1 n (sipaddr h) (shwaddr h) (if is_for_us (netif_at w1 n) h then ETHARP_FLAG_TRY_HARD else ETHARP_FLAG_FIND_ONLY) r w2 /\
    became w2 (arp_table w2) (etharp_cached_entry w2)
      (answer n (netif_at w2 n) ethaddr h (drop 42 payload ++ chain_bytes rest) ++ [Drop (pk_id p)]) w').
Proof.
  intros Hw Hm Hc Hl Heth Hh Hok Hs. unfold etharp_arp_input. rewrite Hc. destruct (Z.ltb_spec (zlen payload) SIZEOF_ETHARP_PACKET); [lia|].
  rewrite Hh. cbn [obind]. rewrite Hok. cbn [negb].
  pose proof (autoip_arp_reply_spec lw w n h Hw) as Hr. destruct (autoip_arp_reply lw w n h) as [w1| |]; [|done..]. cbn [wp obind] in *.
  pose proof (replied_quiet _ _ _ _ Hw Hr) as Q1. fold (is_for_us (netif_at w1 n) h).
  wpb etharp_update_arp_entry_spec; [apply Q1|done|]. intros (r & w2) Hu.
  assert (En : netif_at w2 = netif_at w1) by (destruct Hu as [| |k e w' _ _ _ _ B|k e w' _ _ _ _ _ _ B]; try done; apply B).
  assert (Hres : forall w3, became w2 (arp_table w2) (etharp_cached_entry w2) (answer n (netif_at w2 n) ethaddr h (drop 42 payload ++ chain_bytes rest)) w3 ->
    wp (Ok (emit w3 [Drop (pk_id p)])) (fun w' => exists w1' r w2', Ok w1 = Ok w1' /\ replied w w1' n h /\
    updated w1' n (sipaddr h) (shwaddr h) (if is_for_us (netif_at w1' n) h then ETHARP_FLAG_TRY_HARD else ETHARP_FLAG_FIND_ONLY) r w2' /\
    became w2' (arp_table w2') (etharp_cached_entry w2') (answer n (netif_at w2' n) ethaddr h (drop 42 payload ++ chain_bytes rest) ++ [Drop (pk_id p)]) w')).
  { intros w3 B. exists w1, r, w2. split_and!; try done. eapply became_trans; [exact B|]. destruct B as [<- <- _ _ _ _ _]. done. }
  destruct (opcode h =? lwip_htons ARP_REQUEST) eqn:Eq; [destruct (is_for_us (netif_at w1 n) h) eqn:Ef|destruct (opcode h =? lwip_htons ARP_REPLY) eqn:Ep].
  - rewrite (arp_reply_eq w2 n ethaddr payload h d s) by done. cbn [obind]. apply Hres. unfold answer. rewrite Eq, En, Ef, linkoutput_eq. split; try done.
    cbn [snd log emit asked chain_bytes map concat]. unfold chain_bytes. cbn [map concat snd]. by rewrite <- !app_assoc.
  - apply Hres. unfold answer. rewrite Eq, En, Ef. apply became_refl.
  - apply Hres. unfold answer. rewrite Eq, Ep. apply became_emit.
  - apply Hres. unfold answer. rewrite Eq, Ep. apply became_refl.
Qed.

(** *** Whole steps *)

Lemma arp_message_some nf p h : arp_message nf p = Some h -> exists t payload rest d s,
  pk_chain p = (t, payload) :: rest /\ SIZEOF_ETHARP_PACKET <= zlen payload /\
  eth_hdr_at payload = Ok (EthHdr d s (lwip_htons ETHTYPE_ARP)) /\ etharp_hdr_at payload SIZEOF_ETH_HDR = Ok h /\
  has_flag nf NETIF_FLAG_ETHARP = true /\ arp_hdr_ok h = true /\ mac (shwaddr h).
Proof.
  unfold arp_message. destruct (pk_chain p) as [|[t payload] rest]; [done|]. destruct (Z.ltb_spec (zlen payload) SIZEOF_ETHARP_PACKET) as [|L]; [done|].
  destruct (eth_hdr_at payload) as [[d s ty]| |] eqn:E1; [|done..]. destruct (etharp_hdr_at_ok payload L) as (h' & E2 & Hm). rewrite E2.
  destruct (_ && _ && _) eqn:E3; [|done]. intros [= ->]. apply andb_true_iff in E3 as [[E3%Z.eqb_eq E4]%andb_true_iff E5]. cbn in E3. subst ty.
  by exists t, payload, rest, d, s.
Qed.

Definition with_flags (p : packet) (fl : Z) : packet := Packet (pk_id p) (pk_chain p) (pk_room p) fl.

Lemma ethernet_input_arp w p n h : arp_message (netif_at w n) p = Some h -> exists fl,
  ethernet_input w p n = let! w := etharp_arp_input w n (nif_hwaddr (netif_at w n)) (with_flags p fl) in Ok (ERR_OK, w).
Proof.
  intros Hm. destruct (arp_message_some _ _ _ Hm) as (t & payload & rest & d & s & Hc & Hl & Heth & _ & Hf & _). unfold ethernet_input. rewrite Hc.
  change SIZEOF_ETHARP_PACKET with 42 in Hl. destruct (Z.leb_spec (zlen payload) SIZEOF_ETH_HDR) as [L|L]; [change SIZEOF_ETH_HDR with 14 in L; lia|].
  rewrite Heth. cbn [obind eth_type eth_dest]. rewrite Hf. change (lwip_htons ETHTYPE_ARP =? lwip_htons ETHTYPE_IP) with false.
  rewrite Z.eqb_refl. cbn [negb]. exists (ll_flags d (pk_flags p)). unfold with_flags. by rewrite Hc.
Qed.

(** A frame without an ARP message is dropped or passed on. *)
Lemma ethernet_input_other w p n : pk_chain p <> [] -> arp_message (netif_at w n) p = None -> exists e,
  ethernet_input w p n = Ok (ERR_OK, emit w [e]) /\ (e = Drop (pk_id p) \/ exists p', e = IpInput n p' /\ pk_id p' = pk_id p).
Proof.
  intros Hp Hm. unfold ethernet_input, arp_message in *. destruct (pk_chain p) as [|[t payload] rest] eqn:Hc; [done|].
  destruct (Z.leb_spec (zlen payload) SIZEOF_ETH_HDR) as [L|L]; [eexists; split; [done|by left]|].
  destruct (eth_hdr_at_ok payload) as (d & s & ty & Heth & _ & _); [lia|]. rewrite Heth in *. cbn [obind eth_type eth_dest] in *.
  destruct (Z.eqb_spec ty (lwip_htons ETHTYPE_IP)) as [->|E1].
  { destruct (has_flag _ _); cbn [negb]; (eexists; split; [done|]); [right; by eexists|by left]. }
  destruct (ty =? lwip_htons ETHTYPE_ARP); [|eexists; split; [done|by left]].
  destruct (has_flag _ _) eqn:Ef; cbn [negb andb] in *; [|eexists; split; [done|by left]].
  unfold etharp_arp_input. cbn [pk_chain pk_id]. destruct (Z.ltb_spec (zlen payload) SIZEOF_ETHARP_PACKET) as [L2|L2]; [eexists; split; [done|by left]|].
  destruct (etharp_hdr_at_ok payload L2) as (hdr & Eh & _). rewrite Eh in *. cbn [obind].
  destruct (arp_hdr_ok hdr); [done|]. eexists; split; [done|by left].
Qed.

Lemma answer_good o w0 n nf ethaddr hdr pad h : Forall (good h o w0) (answer n nf ethaddr hdr pad).
Proof.
  unfold answer. repeat case_match; try by repeat constructor. apply Forall_one. left. by eexists _, _, _, _.
Qed.

Lemma ledger_answer id n nf ethaddr hdr pad : ledger id (answer n nf ethaddr hdr pad) = 0.
Proof. unfold answer. by repeat case_match. Qed.

(** Between operations the table holds what is held. *)
Definition none (id : Z) : Z := 0.

Lemma input_stepped w h n p : inv none w h -> pk_chain p <> [] ->
  wp (exec (OpInput n p) w) (fun w' => stepped none (OpInput n p) w (h ++ items (OpInput n p) w) w').
Proof.
  intros HI Hp. pose proof HI as [I1 I2 I3]. unfold none in I3. cbn [exec]. set (wr := emit w [Rx n p]).
  assert (Hwr : inv (fun id => Z.b2z (pk_id p =? id)) wr h).
  { split; [by destruct I1|done|]. intros id. cbn. rewrite ledger_app, I3. cbn. lia. }
  destruct (arp_message (netif_at w n) p) as [hdr|] eqn:Em.
  2:{ destruct (ethernet_input_other wr p n Hp Em) as (e & -> & He). cbn [obind wp drop_result items]. rewrite Em, app_nil_r.
      split; [split; [by destruct I1|done|]|exists [Rx n p; e]; cbn; rewrite <- app_assoc; split; [done|]].
      - intros id. unfold none. cbn. rewrite <- app_assoc, ledger_app, I3. cbn. destruct He as [->|(p' & -> & E)]; cbn; rewrite ?E; lia.
      - constructor; [done|]. apply Forall_one. by destruct He as [->|(p' & -> & _)]. }
  destruct (ethernet_input_arp wr p n hdr Em) as (fl & ->). assert (Hdr : forall m : outcome world, drop_result (let! w := m in Ok (ERR_OK, w)) = m) by by intros [].
  rewrite Hdr. clear Hdr. destruct (arp_message_some _ _ _ Em) as (t & payload & rest & d & s & Hc & Hl & Heth & Hh & Hf & Hok & Hm).
  eapply wp_mono; [eapply (etharp_arp_input_spec wr n _ (with_flags p fl) t payload rest d s hdr); try done; [apply Hwr|apply I1]|].
  intros w' (w1 & r & w2 & Ea & Hr & Hu & B). pose proof (replied_quiet wr w1 n hdr (inv_ok _ _ _ Hwr) Hr) as Q1.
  pose proof (quiet_inv _ _ _ _ Q1 Hwr) as HI1. destruct (quiet_log _ _ Q1) as (es1 & E1 & G1 & _).
  destruct (updated_stepped _ (OpInput n p) w w1 h n _ _ _ r w2 HI1 Hm (proj1 (quiet_netif _ _ Q1 n)) Hu) as (HI2 & es2 & E2 & G2).
  assert (Ei : items (OpInput n p) w = if not_unicast (sipaddr hdr) (netif_at w1 n) then [] else [Heard (sipaddr hdr) (shwaddr hdr)]) by (cbn; rewrite Em; fold wr; by rewrite Ea).
  rewrite Ei. set (h' := h ++ _) in *. destruct B as [B1 B2 B3 B4 B5 B6 B7]. pose proof HI2 as [J1 J2 J3].
  set (ans := answer _ _ _ _ _) in *. split; [split|].
  - destruct J1 as [K1 K2 K3]. split; [by rewrite B1|by rewrite B2|by rewrite B4].
  - intros k e. rewrite B1. apply J2.
  - intros id. rewrite B3, B1, !ledger_app, J3. subst ans. rewrite ledger_answer. unfold none. cbn. lia.
  - exists ([Rx n p] ++ es1 ++ es2 ++ ans ++ [Drop (pk_id p)]). split.
    + rewrite B3, E2, E1. cbn [log emit]. subst wr. cbn [log emit]. by rewrite <- !app_assoc.
    + rewrite !list.Forall_app. split_and!; [by apply Forall_one| |done|apply answer_good|by apply Forall_one].
      revert G1. apply Forall_impl. intros e. apply arp_event_good.
Qed.

Lemma wp_drop {A} (m : outcome (A * world)) Q : wp m (fun '(_, w') => Q w') -> wp (drop_result m) Q.
Proof. by destruct m as [[]| |]. Qed.

Lemma set_addr_quiet w n ip mask gw : world_ok w -> quiet w (netif_set_addr w n ip mask gw).
Proof.
  intros Hw. unfold netif_set_addr. pose proof (quiet_set_ipaddr w n ip Hw) as Q1. set (w1 := netif_set_ipaddr w n ip) in *.
  assert (Q2 : quiet w1 (netif_set_netmask w1 n mask)) by (apply quiet_set_netif; [apply Q1|done|done]).
  eapply quiet_trans; [exact Q1|]. eapply quiet_trans; [exact Q2|]. apply quiet_set_netif; [apply Q2|done|done].
Qed.

Lemma find_addr_quiet w n ip : world_ok w -> wp (drop_result (etharp_find_addr w n ip)) (fun w' => w' = w).
Proof.
  intros Hw. apply wp_drop. unfold etharp_find_addr. wpb etharp_find_entry_spec; [apply Hw|].
  intros (i & w1) [k e Hk _ _|_ _|k e w1' _ F _ _ _ _]; [|done|done]. destruct (Z.ltb_spec (Z.of_nat k) 0); [lia|].
  rewrite (rd_at _ _ _ Hk). cbn [obind]. by destruct (is_stable _).
Qed.

Lemma tmr_quiet ms : forall w, world_ok w -> wp (for_each ms (tmr_netif lw) w) (quiet w).
Proof.
  induction ms as [|m ms IH]; intros w Hw; cbn [for_each]; [by apply quiet_self|]. apply wp_bind_mono with (Q' := quiet w).
  - destruct (client w m) as [a|] eqn:Ea; [|unfold tmr_netif; fold (client w m); rewrite Ea; by apply quiet_self].
    eapply wp_mono; [by apply tmr_netif_spec|]. by intros w' (Q & _).
  - intros w1 Q1. eapply wp_quiet; [exact Q1|]. apply IH, Q1.
Qed.

Lemma step_stepped w h o : inv none w h -> op_ok w o -> wp (exec o w) (fun w' => stepped none o w (h ++ items o w) w').
Proof.
  intros HI Ho. pose proof (inv_ok _ _ _ HI) as Hw.
  assert (Hq : forall m, wp m (quiet w) -> items o w = [] -> wp m (fun w' => stepped none o w (h ++ items o w) w')).
  { intros m Hm ->. rewrite app_nil_r. eapply wp_mono; [exact Hm|]. intros w' Q. by apply quiet_stepped. }
  destruct o as [| |n p|n q ip|n ip q|n ip|n ip|n|n|n|n|n ip mask gw|n|n]; cbn [exec op_ok] in *.
  - cbn [items]. rewrite app_nil_r. by apply timer_stepped.
  - apply Hq; [|done]. by apply tmr_quiet.
  - by apply input_stepped.
  - apply wp_drop. eapply wp_mono; [by apply etharp_output_spec|]. intros (r & w') H. by apply outputs_stepped.
  - apply wp_drop. eapply wp_mono; [by apply etharp_query_spec|]. intros (r & w') H.
    replace (items (OpQuery n ip q) w) with (match q with Some q => [Asked ip (body q)] | None => [] end) by by destruct q. by eapply queried_stepped.
  - apply Hq; [|done]. eapply wp_mono; [by apply find_addr_quiet|]. intros w' ->. by apply quiet_self.
  - apply Hq; [|done]. by apply quiet_request.
  - apply Hq; [|done]. unfold autoip_set_struct. fold (client w n). rewrite Ho. by apply quiet_put.
  - apply Hq; [|done]. apply wp_drop. eapply wp_mono; [by apply autoip_start_spec|]. intros (r & w') [[_ S]|(_ & _ & _ & Q & _)]; [apply S|done].
  - apply Hq; [|done]. unfold autoip_stop. destruct (client w n) as [a|] eqn:Ea; [|done]. rewrite (get_autoip_eq _ _ _ Ea). cbn [obind].
    set (w1 := put_autoip _ _ _). assert (Q1 : quiet w w1) by by apply quiet_put. eapply wp_quiet; [exact Q1|]. eapply wp_mono; [apply netif_set_down_spec, Q1|]. by intros w' [Q _].
  - apply Hq; [|done]. eapply wp_mono; [by apply autoip_network_changed_spec|]. by intros w' [Q _].
  - apply Hq; [|done]. by apply set_addr_quiet.
  - apply Hq; [|done]. by apply quiet_up.
  - apply Hq; [|done]. eapply wp_mono; [by apply netif_set_down_spec|]. by intros w' [Q _].
Qed.

Lemma reach_inv w h : reach w h -> inv none w h.
Proof.
  induction 1 as [w [B1 B2 B3 B4]|w h o w' _ IH Ho E].
  - split.
    + split; [rewrite B1; apply blank_table_ok|by rewrite B2|done].
    + intros k e. rewrite B1. intros [-> _]%lookup_replicate. done.
    + intros id. by rewrite B4, B1.
  - pose proof (step_stepped w h o IH Ho) as S. rewrite E in S. apply S.
Qed.

(** ** Properties *)

(** C20: the ARP module is safe in every order of use. From reset on, whatever
    operations come (frames of any content, packets to send, queries, the two
    timers, changes of addresses and links) from callers that keep to
    [op_ok], whatever the memory and the driver answer: the next operation is
    defined - no access outside the table, no failed assertion - and
    afterwards no two entries are for one address, packets wait in pending
    entries only, ages are in their bounds; and every reference to a pbuf
    that was taken or received has been given up, but for the one of each
    packet that waits in the table. The callers ([op_ok]) pass frames of at
    least one pbuf; to etharp_output, packets with the 20 bytes of the IP
    header in the first pbuf, with no room in front of it or the 14 bytes of
    an Ethernet header; to etharp_query, packets with these 14 bytes in the
    first pbuf; neither of them a chain that ends in an empty pbuf (which
    fails the assertion of etharp.c:1086: [empty_tail_refused]);
    autoip_set_struct comes only for an interface without AUTOIP data, and
    autoip_stop only for one that has them. *)
Theorem arp_safe w h o : reach w h -> op_ok w o -> exists w', exec o w = Ok w' /\ table_ok (arp_table w') /\
  forall id, ledger id (log w') = refs id (arp_table w').
Proof.
  intros Hr Ho. pose proof (step_stepped w h o (reach_inv w h Hr) Ho) as S. destruct (exec o w) as [w'| |]; [|done..].
  destruct S as [[S1 S2 S3] _]. exists w'. split_and!; [done|apply S1|]. intros id. rewrite S3. unfold none. lia.
Qed.

(** C21: every packet goes where its next hop said. Whatever has happened
    since reset, every frame an operation sends is an ARP message, or carries
    an IP packet. That packet goes out unchanged behind its Ethernet header:
    to the group address when it was for a broadcast or multicast address;
    otherwise it was given to etharp_output or etharp_query for some next
    hop, now or earlier, and goes to the Ethernet address in the last ARP
    message from this next hop. The callers keep to [op_ok]. *)
Theorem arp_frames_resolved w h o w' : reach w h -> op_ok w o -> exec o w = Ok w' ->
  exists es, log w' = log w ++ es /\
    forall n f, Out n f ∈ es -> resolved (h ++ items o w) o w n f.
Proof.
  intros Hr Ho E. pose proof (step_stepped w h o (reach_inv w h Hr) Ho) as S. rewrite E in S. destruct S as [_ (es & El & Hg)].
  exists es. split; [done|]. intros n f Hf. rewrite list.Forall_forall in Hg. exact (Hg _ Hf).
Qed.

(** Taking an interface down leaves its pending entries in the table, with
    their packets: etharp_query does not record the interface. *)
Theorem arp_pending_survives_down w h n w' k e : reach w h -> exec (OpDown n) w = Ok w' ->
  arp_table w !! k = Some e -> ae_state e = ETHARP_STATE_PENDING -> arp_table w' !! k = Some e.
Proof.
  intros Hr E Hk Hs. pose proof (inv_ok _ _ _ (reach_inv w h Hr)) as Hw. cbn [exec] in E. unfold netif_set_down in E.
  destruct (has_flag _ _); [|by injection E as <-]. set (w1 := set_netif _ _ _) in E. destruct (has_flag (netif_at w1 n) _); [|by injection E as <-].
  destruct (etharp_cleanup_netif_eq w1 n (wo_table _ Hw)) as (w2 & E2 & B & _). rewrite E2 in E. injection E as <-.
  rewrite (became_table _ _ _ _ _ B), list_lookup_fmap. cbn. rewrite Hk. cbn. unfold cleaned, of_netif.
  pose proof (eo_netif _ (lookup_ok _ _ _ (wo_table _ Hw) Hk)) as Hn. rewrite Hs in Hn. cbn in Hn. rewrite Hn, bool_decide_eq_false_2 by done. by rewrite andb_false_r.
Qed.

End EthInput.

(** ** Two hosts *)

Lemma load16_at bs i a b : rd bs i = Ok a -> rd bs (i + 1) = Ok b -> load16 bs i = Ok (a + 256 * b).
Proof. intros H1 H2. unfold load16. by rewrite H1, H2. Qed.

Lemma word16 v : 0 <= v < 2 ^ 16 -> v mod 256 + 256 * (v / 256 mod 256) = v.
Proof.
  intros Hv. rewrite (Z.mod_small (v / 256)) by (split; [apply Z.div_pos; lia|apply Z.div_lt_upper_bound; lia]).
  pose proof (Z.div_mod v 256). lia.
Qed.

Record hdr_ranges (h : etharp_hdr) : Prop := HdrRanges {
  hr_hwtype : 0 <= hwtype h < 2 ^ 16;
  hr_proto : 0 <= proto h < 2 ^ 16;
  hr_opcode : 0 <= opcode h < 2 ^ 16;
  hr_shwaddr : mac (shwaddr h);
  hr_dhwaddr : mac (dhwaddr h);
  hr_sipaddr : 0 <= sipaddr h < 2 ^ 32;
  hr_dipaddr : 0 <= dipaddr h < 2 ^ 32;
}.

Ltac six l := destruct l as [|?b0 [|?b1 [|?b2 [|?b3 [|?b4 [|?b5 [|]]]]]]]; try done.

(** Reading a message gives what was written. *)
Lemma arp_frame_read dst src h pad : mac dst -> mac src -> hdr_ranges h ->
  eth_hdr_at (arp_frame dst src h ++ pad) = Ok (EthHdr dst src (lwip_htons ETHTYPE_ARP)) /\
  etharp_hdr_at (arp_frame dst src h ++ pad) SIZEOF_ETH_HDR = Ok h /\
  SIZEOF_ETHARP_PACKET <= zlen (arp_frame dst src h ++ pad).
Proof.
  intros Hd Hs [R1 R2 R3 R4 R5 R6 R7]. destruct h as [ht pr hl pl op sh si dh di]. cbn [hwtype proto opcode shwaddr dhwaddr sipaddr dipaddr] in *.
  unfold mac in *. six dst. six src. six sh. six dh.
  set (l := arp_frame _ _ _ ++ pad). assert (Hl : 42 <= zlen l).
  { subst l. unfold zlen. rewrite length_app. change (length (arp_frame _ _ _)) with 42%nat. lia. }
  assert (Hrd : forall i x, 0 <= i -> l !! Z.to_nat i = Some x -> rd l i = Ok x) by (intros; by apply rd_lookup).
  split_and!; [| |exact Hl].
  - unfold eth_hdr_at. rewrite (slice_ok l 0 6), (slice_ok l 6 6) by lia. erewrite load16_at by (apply Hrd; [lia|reflexivity]). reflexivity.
  - unfold etharp_hdr_at, load32. change SIZEOF_ETH_HDR with 14.
    rewrite (slice_ok l (14 + 8) 6), (slice_ok l (14 + 18) 6) by lia.
    rewrite (load16_at l 14 (ht mod 256) (ht / 256 mod 256)) by (apply Hrd; [lia|reflexivity]).
    rewrite (load16_at l (14 + 2) (pr mod 256) (pr / 256 mod 256)) by (apply Hrd; [lia|reflexivity]).
    rewrite (Hrd (14 + 4) hl), (Hrd (14 + 5) pl) by (lia || reflexivity).
    rewrite (load16_at l (14 + 6) (op mod 256) (op / 256 mod 256)) by (apply Hrd; [lia|reflexivity]).
    rewrite (load16_at l (14 + 14) (si mod 256) (si / 2 ^ 8 mod 256)) by (apply Hrd; [lia|reflexivity]).
    rewrite (load16_at l (14 + 14 + 2) (si / 2 ^ 16 mod 256) (si / 2 ^ 24 mod 256)) by (apply Hrd; [lia|reflexivity]).
    rewrite (load16_at l (14 + 24) (di mod 256) (di / 2 ^ 8 mod 256)) by (apply Hrd; [lia|reflexivity]).
    rewrite (load16_at l (14 + 24 + 2) (di / 2 ^ 16 mod 256) (di / 2 ^ 24 mod 256)) by (apply Hrd; [lia|reflexivity]).
    cbn [obind]. rewrite !word16 by done.
    assert (W : forall x, 0 <= x < 2 ^ 32 -> x mod 256 + 256 * (x / 2 ^ 8 mod 256) + 2 ^ 16 * (x / 2 ^ 16 mod 256 + 256 * (x / 2 ^ 24 mod 256)) = x).
    { intros x Hx. rewrite (word_bytes_val x Hx) at 5. lia. }
    rewrite !W by done. reflexivity.
Qed.

Definition sent (w w' : world) (n : Z) (f : list Z) : Prop := exists es, log w' = log w ++ es /\ Out n f ∈ es.

Definition resolves (w : world) (ip : Z) (m : list Z) : Prop :=
  exists k e, arp_table w !! k = Some e /\ is_stable (ae_state e) = true /\ ae_ipaddr e = ip /\ ae_ethaddr e = m.

(** A pbuf with the frame [f], and what the link padded it with. *)
Definition carries (p : packet) (f : list Z) : Prop := exists t pad, pk_chain p = [(t, f ++ pad)].

Lemma input_learns lw w h0 n p hdr t payload rest : inv none w h0 -> arp_message (netif_at w n) p = Some hdr ->
  pk_chain p = (t, payload) :: rest -> nif_autoip (netif_at w n) = None -> is_for_us (netif_at w n) hdr = true ->
  not_unicast (sipaddr hdr) (netif_at w n) = false ->
  exists w' es, exec lw (OpInput n p) w = Ok w' /\ log w' = log w ++ es /\ resolves w' (sipaddr hdr) (shwaddr hdr) /\
    (forall k e, arp_table w !! k = Some e -> used e -> ae_ipaddr e = sipaddr hdr ->
       forall x, x ∈ sent_q n (nif_hwaddr (netif_at w n)) (shwaddr hdr) e -> x ∈ es) /\
    (forall x, x ∈ answer n (netif_at w n) (nif_hwaddr (netif_at w n)) hdr (drop 42 payload ++ chain_bytes rest) -> x ∈ es).
Proof.
  intros HI Hm Hc Ha Hus Huni. set (wr := emit w [Rx n p]). cbn [exec]. fold wr.
  destruct (ethernet_input_arp lw wr p n hdr Hm) as (fl & ->).
  destruct (arp_message_some _ _ _ Hm) as (t' & payload' & rest' & d & s & Hc' & Hl & Heth & Hh & _ & Hok & Hmac).
  rewrite Hc in Hc'. injection Hc' as <- <- <-.
  pose proof (etharp_arp_input_spec lw wr n (nif_hwaddr (netif_at w n)) (with_flags p fl) t payload rest d s hdr ltac:(by destruct HI as [[] _ _])
    ltac:(apply HI) Hc Hl Heth Hh Hok Hmac) as S.
  change (nif_hwaddr (netif_at wr n)) with (nif_hwaddr (netif_at w n)).
  destruct (etharp_arp_input lw wr n _ _) as [w'| |]; [|done..]. cbn [obind wp drop_result] in *.
  destruct S as (w1 & r & w2 & E1 & _ & Hu & B).
  assert (w1 = wr) as -> by (unfold autoip_arp_reply in E1; change (netif_at wr n) with (netif_at w n) in E1; rewrite Ha in E1; congruence). clear E1.
  change (netif_at wr n) with (netif_at w n) in Hu. rewrite Hus in Hu.
  assert (Hres : forall k es, (k < length (arp_table w))%nat -> became wr (<[k := learnt_entry n (sipaddr hdr) (shwaddr hdr)]> (arp_table w)) (etharp_cached_entry w) es w2 ->
    (forall k e, arp_table w !! k = Some e -> used e -> ae_ipaddr e = sipaddr hdr ->
       forall x, x ∈ sent_q n (nif_hwaddr (netif_at w n)) (shwaddr hdr) e -> x ∈ es) ->
    exists w'' es, Ok w' = Ok w'' /\ log w'' = log w ++ es /\ resolves w'' (sipaddr hdr) (shwaddr hdr) /\
      (forall k e, arp_table w !! k = Some e -> used e -> ae_ipaddr e = sipaddr hdr ->
         forall x, x ∈ sent_q n (nif_hwaddr (netif_at w n)) (shwaddr hdr) e -> x ∈ es) /\
      (forall x, x ∈ answer n (netif_at w n) (nif_hwaddr (netif_at w n)) hdr (drop 42 payload ++ chain_bytes rest) -> x ∈ es)).
  { intros k es Hk B2 Hq. destruct B as [C1 C2 C3 C4 _ _ _]. rewrite (became_netif _ _ _ _ _ B2) in C3.
    change (netif_at wr n) with (netif_at w n) in C3. rewrite (became_log _ _ _ _ _ B2) in C3. cbn [log wr emit] in C3. rewrite <- !app_assoc in C3.
    eexists w', _. split; [done|]. split; [exact C3|]. split; [|split].
    - exists k, (learnt_entry n (sipaddr hdr) (shwaddr hdr)). rewrite C1, (became_table _ _ _ _ _ B2). split; [by apply list_lookup_insert_eq|done].
    - intros k' e Hk' Hue He x Hx. apply elem_of_app. right. apply elem_of_app. left. by eapply Hq.
    - intros x Hx. apply elem_of_app. right. apply elem_of_app. right. apply elem_of_app. by left. }
  pose proof (wo_table _ (inv_ok _ _ _ HI)) as Ht.
  destruct Hu as [E|_ _ [E|[E _]]|k e w3 _ Hk Hue He B2|k e w3 _ Hn _ _ Hk _ B2]; try done; [change (netif_at wr n) with (netif_at w n) in E; congruence|..].
  - apply (Hres k _ (lookup_lt_Some _ _ _ Hk) B2). intros k' e' Hk' Hue' He' x Hx.
    assert (k' = k) as -> by (eapply (to_distinct _ Ht k' k e' e); congruence || done). cbn in Hk. rewrite Hk in Hk'. by injection Hk' as <-.
  - apply (Hres k _ (lookup_lt_Some _ _ _ Hk) B2). intros k' e' Hk' Hue' He' x Hx. exfalso.
    unfold no_match in Hn. rewrite list.Forall_forall in Hn. eapply (Hn e'); [by eapply list_elem_of_lookup_2|done|done].
Qed.

(** Interfaces [na] of [a] and [nb] of [b] on one link, as [a] sees it. *)
Record neighbours (a : world) (na : Z) (b : world) (nb : Z) : Prop := Neighbours {
  nb_arp : etharp_flag (netif_at a na) = true /\ etharp_flag (netif_at b nb) = true;
  nb_autoip : nif_autoip (netif_at a na) = None /\ nif_autoip (netif_at b nb) = None;
  nb_ip : 0 <= nif_ip_addr (netif_at a na) < 2 ^ 32 /\ 0 <= nif_ip_addr (netif_at b nb) < 2 ^ 32;
  nb_unicast : not_unicast (nif_ip_addr (netif_at b nb)) (netif_at a na) = false /\
    not_unicast (nif_ip_addr (netif_at a na)) (netif_at b nb) = false;
  nb_local : ip_addr_netcmp (nif_ip_addr (netif_at b nb)) (nif_ip_addr (netif_at a na)) (nif_netmask (netif_at a na)) = true;
}.

Lemma moved_writable q room : head_writable q -> head_writable (moved q room).
Proof. unfold head_writable, moved. destruct (pk_chain q) as [|[t bs] r] eqn:E; [by rewrite E|done]. Qed.

(** The first packet for a neighbour: it waits, and a request goes out. *)
Lemma output_asks lw w h n q room ip : inv none w h -> plenty lw -> ip_packet q -> pk_room q = Some room -> head_writable q ->
  not_unicast ip (netif_at w n) = false -> ip_addr_netcmp ip (nif_ip_addr (netif_at w n)) (nif_netmask (netif_at w n)) = true ->
  Forall (fun e => is_stable (ae_state e) = true -> ae_ipaddr e <> ip) (arp_table w) ->
  exists w', exec lw (OpOutput n q ip) w = Ok w' /\ netif_at w' = netif_at w /\
    sent w w' n (arp_frame ethbroadcast (nif_hwaddr (netif_at w n)) (request_hdr (netif_at w n) ip)) /\
    exists k e p, arp_table w' !! k = Some e /\ used e /\ ae_ipaddr e = ip /\ ae_q e = Some p /\ body p = chain_bytes (pk_chain q).
Proof.
  intros HI Hp Hq Er Hh Hu Hnet Hns. pose proof (inv_ok _ _ _ HI) as Hw. cbn [exec].
  pose proof (etharp_output_spec lw w n q ip Hw Hq) as S. destruct (etharp_output lw w n q ip) as [[r w']| |]; [|done..]. cbn [wp drop_result obind] in *.
  exists w'. split; [done|]. destruct (not_unicast_false _ _ Hu) as [[_ [_ Hmc]] Hb].
  assert (Eh : next_hop (netif_at w n) (moved q room) ip = Ok (Some ip)) by (unfold next_hop; by rewrite Hnet).
  assert (Eg : group_mac (netif_at w n) ip = None) by (unfold group_mac; by rewrite Hb, Hmc).
  destruct (moved_header q room Hq Er) as (M1 & M2 & _). rewrite list.Forall_forall in Hns.
  destruct S as [[E|(room' & E1 & _ & E2)]|m w1 _ Hg _|room' hop k e ev s c w1 E1 _ E2 Hk Hs Hip _ _ _ _ _|room' hop w1 E1 _ E2 Hs Hqd]; try congruence.
  { exfalso. assert (room' = room) as -> by congruence. apply (Hns e); [by eapply list_elem_of_lookup_2|done|congruence]. }
  assert (room' = room) as -> by congruence. assert (hop = ip) as -> by congruence.
  destruct Hqd as [E|k e ev w1 Hk Hse Hip _ _|k e e1 es ev tk p w1 _ Hk Hc Hev Hheld Hpl B]; [congruence| |].
  { exfalso. by apply (Hns e); [eapply list_elem_of_lookup_2|..]. }
  destruct (Hpl Hp) as [Hne Hsome]. pose proof (moved_writable q room Hh) as Hhw.
  specialize (Hsome Hhw). destruct p as [p|]; [|done]. destruct Hheld as (-> & _ & q' & [= <-] & Hbody). rewrite M2 in Hbody.
  split; [apply B|]. apply lookup_lt_Some in Hk as Hlt. split.
  - eexists. split; [apply B|]. destruct Hev as [->|(i & ->)]; [done|]. apply elem_of_app. right. apply elem_of_app. left. right. by left.
  - exists k, (set_q (Some p) e1), p. rewrite (became_table _ _ _ _ _ B). split; [by apply list_lookup_insert_eq|].
    pose proof (lookup_ok _ _ _ (wo_table _ Hw) Hk) as He. unfold used. cbn [set_q ae_state ae_ipaddr ae_q].
    destruct Hc as [(Hst & <- & -> & _)|(_ & _ & _ & ->)]; [by rewrite Hst|]. destruct (recycled_ok e ip He) as (_ & _ & _ & R4). done.
Qed.

Lemma carries_message p dst src h nf : carries p (arp_frame dst src h) -> mac dst -> mac src -> hdr_ranges h -> arp_hdr_ok h = true -> etharp_flag nf = true ->
  arp_message nf p = Some h.
Proof.
  intros (t & pad & Hc) Hd Hs Hr Hok Hf. unfold arp_message. rewrite Hc. destruct (arp_frame_read dst src h pad Hd Hs Hr) as (-> & -> & Hl).
  destruct (Z.ltb_spec (zlen (arp_frame dst src h ++ pad)) SIZEOF_ETHARP_PACKET); [lia|]. cbn [eth_type]. unfold etharp_flag in Hf. by rewrite Hf, Hok, Z.eqb_refl.
Qed.


(** ** Examples *)

Definition host_a : world := host 0x0a00a8c0 [2; 0; 0; 0; 0; 1] (replicate 10 blank).
Definition host_b : world := host 0x0b00a8c0 [2; 0; 0; 0; 0; 2] (replicate 10 blank).
Definition a_packet : packet := Packet 7 [(PBUF_RAM, replicate 20 0)] (Some (replicate 14 0)) 0.
Definition to_b : op := OpOutput 0 a_packet 0x0b00a8c0.

Lemma a_packet_ok : ip_packet a_packet.
Proof. split; [split; [done|apply tidy_1]|done]. Qed.

Lemma host_boot ip hw : mac hw -> boot (host ip hw (replicate 10 blank)).
Proof. by split. Qed.

Lemma arp_safe_witness : reach kind host_a [] /\ op_ok host_a to_b /\
  exists w', exec kind to_b host_a = Ok w' /\ table_ok (arp_table w') /\ forall id, ledger id (log w') = refs id (arp_table w').
Proof.
  assert (H : reach kind host_a []) by by apply reach_boot, host_boot.
  split; [exact H|]. assert (O : op_ok host_a to_b) by exact a_packet_ok. split; [exact O|]. exact (arp_safe kind host_a [] to_b H O).
Defined.

Lemma arp_frames_resolved_witness : exists w', exec kind to_b host_a = Ok w' /\ length (log w') = 4%nat /\ exists es, log w' = log host_a ++ es /\
  forall n f, Out n f ∈ es -> resolved ([] ++ items kind to_b host_a) to_b host_a n f.
Proof.
  assert (E : exec kind to_b host_a = Ok (run_or host_a (exec kind to_b host_a))) by (apply run_or_ok; vm_compute; reflexivity).
  eexists. split; [exact E|]. split; [vm_compute; reflexivity|].
  exact (arp_frames_resolved kind host_a [] to_b _ (reach_boot _ _ (host_boot _ [2; 0; 0; 0; 0; 1] eq_refl)) a_packet_ok E).
Defined.

