(* ===== verification/Ip.v ===== *)
(** * The IP layer: src/Utilities/lwip_v1.3.2/src/core/ipv4/ip.c, icmp.c

    Routing, sending (ip_output, ip_output_if), the decisions of ip_input and
    the answers of icmp.c. A pbuf is its bytes with the memory around them;
    the configuration is that of working/inc/lwipopts.h: no fragments, no
    forwarding, no multicast groups, checksums of IP and UDP by the Ethernet
    controller, those of ICMP in software. *)

From S2P Require Import Prelude CStd Mem IpAddr Checksum Pbuf Etharp Autoip.

Definition IP_HLEN : Z := 20.
Definition IP_PROTO_ICMP : Z := 1.
Definition IP_PROTO_TCP : Z := 6.
Definition IP_PROTO_UDP : Z := 17.
Definition IP_OFFMASK : Z := 0x1fff.
Definition IP_MF : Z := 0x2000.
Definition ICMP_ER : Z := 0.
Definition ICMP_DUR : Z := 3.
Definition ICMP_ECHO : Z := 8.
Definition ICMP_DUR_PROTO : Z := 2.
Definition ICMP_DUR_PORT : Z := 3.
Definition ICMP_TTL : Z := 255.
Definition ICMP_DEST_UNREACH_DATASIZE : Z := 8.
Definition SIZEOF_ICMP_ECHO_HDR : Z := 8.
Definition DHCP_CLIENT_PORT : Z := 68.
Definition DHCP_SERVER_PORT : Z := 67.

(** ** Packets

    The chain of a packet; in front of the data of its first pbuf there is
    memory that pbuf_header can move over, behind it memory that the code
    can read. *)

Record pbufs : Type := Pbufs {
  pb_id : Z;
  pb_room : list Z;
  pb_chain : list (pbuf_type * list Z);
  pb_slack : list Z;
  pb_flags : Z;
}.

Definition first (p : pbufs) : list Z := match pb_chain p with (_, bs) :: _ => bs | [] => [] end.
Definition data (p : pbufs) : list Z := chain_bytes (pb_chain p).
Definition pb_tot_len (p : pbufs) : Z := zlen (data p).
(** What a pointer to the payload can read. *)
Definition memory (p : pbufs) : list Z := first p ++ pb_slack p.

(** pbuf_header(p, k) and pbuf_header(p, -k) for k >= 0; [None] when it
    returns 1. *)
Definition header_up (p : pbufs) (k : Z) : option pbufs :=
  if k =? 0 then Some p else
  match pb_chain p with
  | (t, bs) :: r =>
      if bool_decide (t = PBUF_RAM) || bool_decide (t = PBUF_POOL) then
        if k <=? zlen (pb_room p) then
          let at_k := Z.to_nat (zlen (pb_room p) - k) in
          Some (Pbufs (pb_id p) (take at_k (pb_room p)) ((t, drop at_k (pb_room p) ++ bs) :: r) (pb_slack p) (pb_flags p))
        else None
      else None
  | [] => None
  end.

Definition header_down (p : pbufs) (k : Z) : option pbufs :=
  match pb_chain p with
  | (t, bs) :: r =>
      if k <=? zlen bs then
        Some (Pbufs (pb_id p) (pb_room p ++ take (Z.to_nat k) bs) ((t, drop (Z.to_nat k) bs) :: r) (pb_slack p) (pb_flags p))
      else None
  | [] => None
  end.

Fixpoint trim (c : list (pbuf_type * list Z)) (n : Z) : list (pbuf_type * list Z) :=
  match c with
  | [] => []
  | (t, bs) :: r => if zlen bs <? n then (t, bs) :: trim r (n - zlen bs) else [(t, take (Z.to_nat n) bs)]
  end.

(** pbuf_realloc *)
Definition realloc (p : pbufs) (new_len : Z) : pbufs :=
  if pb_tot_len p <=? new_len then p
  else Pbufs (pb_id p) (pb_room p) (trim (pb_chain p) new_len) (drop (Z.to_nat new_len) (first p) ++ pb_slack p) (pb_flags p).

(** Writing over the payload. *)
Definition store_payload (p : pbufs) (i : Z) (bs : list Z) : outcome pbufs :=
  match pb_chain p with
  | (t, payload) :: r =>
      let! payload := splice payload i bs in
      Ok (Pbufs (pb_id p) (pb_room p) ((t, payload) :: r) (pb_slack p) (pb_flags p))
  | [] => UB
  end.

(** pbuf_alloc(layer, n, PBUF_RAM). Nothing reads the new memory before it
    is written. *)
Definition headroom (l : pbuf_layer) : Z := LWIP_MEM_ALIGN_SIZE (SIZEOF_STRUCT_PBUF + layer_offset l) - SIZEOF_STRUCT_PBUF.
Definition alloc_ram (id : Z) (l : pbuf_layer) (n : Z) : pbufs :=
  Pbufs id (replicate (Z.to_nat (headroom l)) 0) [(PBUF_RAM, replicate (Z.to_nat n) 0)] [] 0.

(** The packet as [Etharp] sees it. *)
Definition to_packet (p : pbufs) : packet :=
  let room :=
    match pb_chain p with
    | (t, _) :: _ =>
        if (bool_decide (t = PBUF_RAM) || bool_decide (t = PBUF_POOL)) && (SIZEOF_ETH_HDR <=? zlen (pb_room p))
        then Some (drop (Z.to_nat (zlen (pb_room p) - SIZEOF_ETH_HDR)) (pb_room p)) else None
    | [] => None
    end in
  Packet (pb_id p) (pb_chain p) room (pb_flags p).

(** A packet that [EthInput.ethernet_input] hands over, in a pool buffer. *)
Definition of_packet (p : packet) (slack : list Z) : pbufs :=
  Pbufs (pk_id p) (default [] (pk_room p)) (pk_chain p) slack (pk_flags p).

Record ip_hdr : Type := IpHdr {
  ih_v_hl : Z; ih_tos : Z; ih_len : Z; ih_id : Z; ih_offset : Z; ih_ttl : Z; ih_proto : Z; ih_chksum : Z;
  ih_src : Z; ih_dest : Z;
}.

Definition ip_hdr_at (bs : list Z) : outcome ip_hdr :=
  let! vhl := rd bs 0 in
  let! tos := rd bs 1 in
  let! len := load16 bs 2 in
  let! id := load16 bs 4 in
  let! off := load16 bs 6 in
  let! ttl := rd bs 8 in
  let! pr := rd bs 9 in
  let! ck := load16 bs 10 in
  let! src := load32 bs 12 in
  let! dst := load32 bs 16 in
  Ok (IpHdr vhl tos len id off ttl pr ck src dst).
Definition ip_hdr_bytes (h : ip_hdr) : list Z :=
  [ih_v_hl h; ih_tos h] ++ store16 (ih_len h) ++ store16 (ih_id h) ++ store16 (ih_offset h) ++
  [ih_ttl h; ih_proto h] ++ store16 (ih_chksum h) ++ word_bytes (ih_src h) ++ word_bytes (ih_dest h).

Definition IPH_V (h : ip_hdr) : Z := Z.shiftr (ih_v_hl h) 4.
Definition IPH_HL (h : ip_hdr) : Z := Z.land (ih_v_hl h) 0x0f.

(** ** State: the layers below, ip_id, netif_default *)

Record ipw : Type := IpW { base : world; ip_id : Z; netif_default : option Z }.
Definition set_base (w : ipw) (b : world) : ipw := IpW b (ip_id w) (netif_default w).
Definition nif (w : ipw) (n : Z) : netif := netif_at (base w) n.
(** pbuf_free of a packet nobody else refers to, pbuf_alloc. *)
Definition free (w : ipw) (id : Z) : ipw := set_base w (emit (base w) [Drop id]).

Section Ip.
Context (lw : lower).

Definition ip_alloc (w : ipw) (l : pbuf_layer) (n : Z) : option pbufs * ipw :=
  let (ok, b) := alloc lw (base w) in
  if ok then (Some (alloc_ram (next_id b) l n), set_base w (took b)) else (None, set_base w b).

(** ** ip.c *)

Definition ip_route (w : ipw) (dest : Z) : option Z :=
  match find (fun n => netif_is_up (nif w n) && ip_addr_netcmp dest (nif_ip_addr (nif w n)) (nif_netmask (nif w n))) (netif_list (base w)) with
  | Some n => Some n
  | None =>
      match netif_default w with
      | Some n => if netif_is_up (nif w n) then Some n else None
      | None => None
      end
  end.

(** [dest] is [None] for IP_HDRINCL, [src] 0 for NULL too; netif->output is
    etharp_output. *)
Definition ip_output_if (w : ipw) (p : pbufs) (src : Z) (dest : option Z) (ttl tos proto : Z) (n : Z) : outcome (Z * ipw) :=
  match dest with
  | Some dest =>
      match header_up p IP_HLEN with
      | None => Ok (ERR_BUF, w)
      | Some p =>
          let src := if ip_addr_isany src then nif_ip_addr (nif w n) else src in
          let hdr := IpHdr (Z.lor (Z.shiftl 4 4) (IP_HLEN / 4)) tos (lwip_htons (u16 (pb_tot_len p))) (lwip_htons (ip_id w)) 0 ttl proto 0 src dest in
          let! p := store_payload p 0 (ip_hdr_bytes hdr) in
          let w := IpW (base w) (u16 (ip_id w + 1)) (netif_default w) in
          let! (e, b) := etharp_output lw (base w) n (to_packet p) dest in
          Ok (e, set_base w b)
      end
  | None =>
      let! hdr := ip_hdr_at (memory p) in
      let! (e, b) := etharp_output lw (base w) n (to_packet p) (ih_dest hdr) in
      Ok (e, set_base w b)
  end.

Definition ip_output (w : ipw) (p : pbufs) (src : Z) (dest : Z) (ttl tos proto : Z) : outcome (Z * ipw) :=
  match ip_route w dest with
  | None => Ok (ERR_RTE, w)
  | Some n => ip_output_if w p src (Some dest) ttl tos proto n
  end.

(** The test of the loop over the interfaces. *)
Definition accepts (dest : Z) (nf : netif) : bool :=
  netif_is_up nf && negb (ip_addr_isany (nif_ip_addr nf)) &&
  (ip_addr_cmp dest (nif_ip_addr nf) || ip_addr_isbroadcast dest nf ||
   match nif_autoip nf with Some a => ip_addr_cmp dest (llipaddr a) | None => false end).

(** The interface the packet is for: [inp] first, then the list without it. *)
Definition find_netif (w : ipw) (inp dest : Z) : option Z :=
  find (fun n => accepts dest (nif w n)) (inp :: List.filter (fun n => negb (n =? inp)) (netif_list (base w))).

(** Where ip_input takes the packet: freed, or to an upper layer with the
    addresses current_iphdr_src and current_iphdr_dest. *)
Inductive upper : Type :=
  | Freed
  | ToUpper (proto : Z) (p : pbufs) (src dest : Z).

(** ip_input up to the switch over the protocol; there are no raw pcbs. *)
Definition ip_demux (w : ipw) (p : pbufs) (inp : Z) : outcome (upper * ipw) :=
  let drop := Ok (Freed, free w (pb_id p)) in
  let! vhl := rd (memory p) 0 in
  if negb (Z.shiftr vhl 4 =? 4) then drop
  else
    let! h := ip_hdr_at (memory p) in
    let iphdr_hlen := IPH_HL h * 4 in
    let iphdr_len := lwip_htons (ih_len h) in
    if (zlen (first p) <? iphdr_hlen) || (pb_tot_len p <? iphdr_len) then drop
    else
      let mem := memory p in
      let p := realloc p iphdr_len in
      let dest := ih_dest h in
      let src := ih_src h in
      let! (netif, check_ip_src) :=
        match find_netif w inp dest with
        | Some n => Ok (Some n, true)
        | None =>
            if ih_proto h =? IP_PROTO_UDP then
              let! port := load16 mem (iphdr_hlen + 2) in
              if port =? lwip_htons DHCP_CLIENT_PORT then Ok (Some inp, false) else Ok (None, true)
            else Ok (None, true)
        end in
      if check_ip_src && negb (ip_addr_isany src) && (ip_addr_isbroadcast src (nif w inp) || ip_addr_ismulticast src) then drop
      else
        match netif with
        | None => drop
        | Some _ =>
            if negb (Z.land (ih_offset h) (lwip_htons (Z.lor IP_OFFMASK IP_MF)) =? 0) then drop
            else Ok (ToUpper (ih_proto h) p src dest, w)
        end.

(** ** icmp.c *)

(** inet_chksum of the bytes of a pbuf, inet_chksum_pbuf of a chain of
    them: [Checksum.inet_chksum_is_rfc1071]. *)
Definition chksum_of (bs : list Z) : Z := lwip_htons (rfc1071 bs).

Definition icmp_send_response (w : ipw) (p : pbufs) (type code : Z) : outcome ipw :=
  match ip_alloc w PBUF_IP (SIZEOF_ICMP_ECHO_HDR + IP_HLEN + ICMP_DEST_UNREACH_DATASIZE) with
  | (None, w) => Ok w
  | (Some q, w) =>
      let! hdr := ip_hdr_at (memory p) in
      let! copy := slice (memory p) 0 (IP_HLEN + ICMP_DEST_UNREACH_DATASIZE) in
      let! q := store_payload q 0 ([type; code] ++ store16 0 ++ store16 0 ++ store16 0 ++ copy) in
      let! q := store_payload q 2 (store16 (chksum_of (first q))) in
      let! (_, w) := ip_output w q 0 (ih_src hdr) ICMP_TTL 0 IP_PROTO_ICMP in
      Ok (free w (pb_id q))
  end.

Definition icmp_dest_unreach (w : ipw) (p : pbufs) (t : Z) : outcome ipw := icmp_send_response w p ICMP_DUR t.

(** The packet that the answer to an echo request is built in: [p], or a
    copy of it with room for the headers; [None] when a buffer is missing. *)
Definition echo_buffer (w : ipw) (p : pbufs) (hlen : Z) : option pbufs * ipw :=
  match header_up p (PBUF_IP_HLEN + PBUF_LINK_HLEN) with
  | Some _ => (Some p, w)
  | None =>
      match header_up p hlen with
      | None => (None, w)
      | Some p =>
          let (r, w) := ip_alloc w PBUF_LINK (pb_tot_len p) in
          match r with
          | None => (None, w)
          | Some r =>
              match header_down (Pbufs (pb_id r) (pb_room r) [(PBUF_RAM, data p)] (pb_slack r) (pb_flags r)) hlen with
              | None => (None, w)
              | Some r => (Some r, free w (pb_id p))
              end
          end
      end
  end.

(** The checksum of the reply from that of the request. *)
Definition echo_chksum (chksum : Z) : Z :=
  if lwip_htons (0xffff - Z.shiftl ICMP_ECHO 8) <=? chksum then u16 (chksum + lwip_htons (Z.shiftl ICMP_ECHO 8) + 1)
  else u16 (chksum + lwip_htons (Z.shiftl ICMP_ECHO 8)).

(** Behind the checks: [p] is at the ICMP header, which may overlap the IP
    header when [hlen] is small. *)
Definition icmp_echo_reply (w : ipw) (p : pbufs) (hlen inp src dest : Z) : outcome ipw :=
  match header_up p hlen with
  | None => Ok (free w (pb_id p))
  | Some p =>
      let! p := store_payload p 12 (word_bytes dest) in
      let! p := store_payload p 16 (word_bytes src) in
      let! p := store_payload p hlen [ICMP_ER] in
      let! chksum := load16 (memory p) (hlen + 2) in
      let! p := store_payload p (hlen + 2) (store16 (echo_chksum chksum)) in
      let! p := store_payload p 8 [ICMP_TTL] in
      let! p := store_payload p 10 (store16 0) in
      let! (_, w) := ip_output_if w p dest None ICMP_TTL 0 IP_PROTO_ICMP inp in
      Ok (free w (pb_id p))
  end.

Definition icmp_input (w : ipw) (p : pbufs) (inp src dest : Z) : outcome ipw :=
  let! hdr := ip_hdr_at (memory p) in
  let hlen := IPH_HL hdr * 4 in
  match header_down p hlen with
  | None => Ok (free w (pb_id p))
  | Some p =>
      if pb_tot_len p <? 4 then Ok (free w (pb_id p))
      else
        let! type := rd (memory p) 0 in
        if type =? ICMP_ECHO then
          if ip_addr_ismulticast dest || ip_addr_isbroadcast dest (nif w inp) then Ok (free w (pb_id p))
          else if pb_tot_len p <? SIZEOF_ICMP_ECHO_HDR then Ok (free w (pb_id p))
          else if negb (chksum_of (data p) =? 0) then Ok (free w (pb_id p))
          else
            match echo_buffer w p hlen with
            | (None, w) => Ok (free w (pb_id p))
            | (Some p, w) => icmp_echo_reply w p hlen inp src dest
            end
        else Ok (free w (pb_id p))
  end.

End Ip.

(** ** Theory: packets *)

(** The headers are written into memory of the packet, and the packet does not
    end in an empty pbuf behind others. *)
Definition ram (p : pbufs) : Prop :=
  match pb_chain p with (t, _) :: _ => t = PBUF_RAM \/ t = PBUF_POOL | [] => False end /\ tidy (pb_chain p).

(** A header written in front of the data. *)
Definition push (p : pbufs) (hdr : list Z) : pbufs :=
  match pb_chain p with
  | (t, bs) :: r => Pbufs (pb_id p) (take (length (pb_room p) - length hdr) (pb_room p)) ((t, hdr ++ bs) :: r) (pb_slack p) (pb_flags p)
  | [] => p
  end.

Lemma header_up_store p hdr : ram p -> hdr <> [] -> zlen hdr <= zlen (pb_room p) -> exists q,
  header_up p (zlen hdr) = Some q /\ pb_tot_len q = zlen hdr + pb_tot_len p /\ store_payload q 0 hdr = Ok (push p hdr).
Proof.
  unfold ram, header_up, push. destruct (pb_chain p) as [|[t bs] r] eqn:Ec; [by intros []|]. intros [Ht _] Hh Hl.
  assert (0 < zlen hdr) by (destruct hdr; [done|]; rewrite zlen_cons; pose proof (zlen_nonneg hdr); lia). destruct (Z.eqb_spec (zlen hdr) 0); [lia|].
  assert (bool_decide (t = PBUF_RAM) || bool_decide (t = PBUF_POOL) = true) as -> by by destruct Ht as [-> | ->].
  destruct (Z.leb_spec (zlen hdr) (zlen (pb_room p))); [|lia]. eexists. split; [done|]. unfold zlen in *.
  replace (Z.to_nat (Z.of_nat (length (pb_room p)) - Z.of_nat (length hdr))) with (length (pb_room p) - length hdr)%nat by lia.
  assert (Hd : length (drop (length (pb_room p) - length hdr) (pb_room p)) = length hdr) by (rewrite length_drop; lia). split.
  - unfold pb_tot_len, data, chain_bytes. cbn [pb_chain map concat snd]. rewrite Ec. cbn [map concat snd]. rewrite !zlen_app. unfold zlen. lia.
  - unfold store_payload. cbn [pb_chain pb_id pb_room pb_slack pb_flags]. rewrite splice_ok by (unfold zlen; rewrite ?length_app; lia). cbn [obind].
    change (Z.to_nat 0) with 0%nat. rewrite take_0. cbn [app Nat.add]. rewrite drop_app_ge, Hd, Nat.sub_diag, drop_0 by lia. done.
Qed.

Lemma push_data p hdr : ram p -> data (push p hdr) = hdr ++ data p.
Proof. unfold ram, push, data, chain_bytes. destruct (pb_chain p) as [|[t bs] r]; [by intros []|]. intros _. cbn [pb_chain map concat snd]. by rewrite app_assoc. Qed.

Lemma push_ram p hdr : ram p -> ram (push p hdr).
Proof.
  unfold ram, push. destruct (pb_chain p) as [|[t bs] r]; [by intros []|]. intros [? Ht]. split; [done|]. by eapply tidy_first.
Qed.

Lemma push_room p hdr : ram p -> zlen hdr <= zlen (pb_room p) -> zlen (pb_room (push p hdr)) = zlen (pb_room p) - zlen hdr.
Proof. unfold ram, push. destruct (pb_chain p) as [|[t bs] r]; [by intros []|]. intros _ H. cbn. unfold zlen in *. rewrite length_take. lia. Qed.

Lemma push_id p hdr : pb_id (push p hdr) = pb_id p.
Proof. unfold push. by destruct (pb_chain p) as [|[t bs] r]. Qed.

Lemma push_first p hdr : ram p -> first (push p hdr) = hdr ++ first p.
Proof. unfold ram, push, first. destruct (pb_chain p) as [|[t bs] r]; [by intros []|done]. Qed.

Lemma word_bytes_length a : length (word_bytes a) = 4%nat.
Proof. done. Qed.

Lemma ip_hdr_bytes_length h : length (ip_hdr_bytes h) = 20%nat.
Proof. done. Qed.

Lemma to_packet_ok p : ram p -> 20 <= zlen (first p) -> 14 <= zlen (pb_room p) ->
  ip_packet (to_packet p) /\ pk_room (to_packet p) <> None /\ pk_id (to_packet p) = pb_id p /\ chain_bytes (pk_chain (to_packet p)) = data p.
Proof.
  unfold ram, first, to_packet, ip_packet, data. destruct (pb_chain p) as [|[t bs] r]; [by intros []|]. intros [Ht Htidy] Hf Hr. cbn [pk_chain pk_room pk_id].
  assert (bool_decide (t = PBUF_RAM) || bool_decide (t = PBUF_POOL) = true) as -> by by destruct Ht as [-> | ->].
  change SIZEOF_ETH_HDR with 14. destruct (Z.leb_spec 14 (zlen (pb_room p))); [|lia]. cbn [andb]. split_and!; try done.
  rewrite length_drop. unfold zlen in *. lia.
Qed.

(** ** Theory: what sending does to the layers below *)

Record carried (b b' : world) : Prop := Carried {
  ca_ok : world_ok b';
  ca_netif : netif_at b' = netif_at b;
  ca_list : netif_list b' = netif_list b;
  ca_log : exists es, log b' = log b ++ es;
}.

Lemma carried_refl b : world_ok b -> carried b b.
Proof. intros Hb. split; try done. exists []. by rewrite app_nil_r. Qed.

Lemma carried_trans b b1 b2 : carried b b1 -> carried b1 b2 -> carried b b2.
Proof.
  intros [_ A2 A3 (es & A4)] [B1 B2 B3 (es' & B4)]. split; [done|congruence|congruence|]. exists (es ++ es'). by rewrite B4, A4, app_assoc.
Qed.

Lemma carried_became b t c es b' : became b t c es b' -> world_ok b' -> carried b b'.
Proof. intros [] Hb. split; try done. by exists es. Qed.

Lemma emit_ok b es : world_ok b -> world_ok (emit b es).
Proof. by intros []. Qed.

Lemma carried_emit b es : world_ok b -> carried b (emit b es).
Proof. intros Hb. eapply carried_became; [apply became_emit|by apply emit_ok]. Qed.

Section Carried.
Context (lw : lower).

Lemma queried_carried b n ip q b' : world_ok b -> match q with Some q => has_header q | None => True end -> queried lw b n ip q b' -> carried b b'.
Proof.
  intros Hb Hq Hqd. pose proof (queried_ok _ _ _ _ _ _ Hb Hq Hqd) as Hb'.
  destruct Hqd as [|k e ev w1 _ _ _ _ B|k e e1 es ev tk p w1 _ _ _ _ _ _ B]; [by apply carried_refl|by eapply carried_became..].
Qed.

Lemma outputs_carried b n q ip b' : world_ok b -> ip_packet q -> outputs lw b n q ip b' -> carried b b'.
Proof.
  intros Hb Hq Ho. pose proof (outputs_ok _ _ _ _ _ _ Hb Hq Ho) as Hb'.
  destruct Ho as [|m w1 _ _ B|room hop k e ev s c w1 _ _ _ _ _ _ _ _ _ _ B|room hop w1 Er _ _ _ Hqd]; [by apply carried_refl|by eapply carried_became..|].
  eapply queried_carried; [done| |exact Hqd]. by apply moved_header.
Qed.

(** The header that ip_output_if builds for [len] bytes of data. *)
Definition output_hdr (w : ipw) (n len src dst ttl tos proto : Z) : ip_hdr :=
  IpHdr 0x45 tos (lwip_htons (u16 (IP_HLEN + len))) (lwip_htons (ip_id w)) 0 ttl proto 0
    (if ip_addr_isany src then nif_ip_addr (nif w n) else src) dst.

(** The packet [q] that goes down with the bytes [bs], and the state after
    it. *)
Record ip_sent (w : ipw) (n id dst : Z) (bs : list Z) (w' : ipw) : Prop := IpSent {
  is_out : exists q, pk_id q = id /\ pk_room q <> None /\ ip_packet q /\ chain_bytes (pk_chain q) = bs /\ outputs lw (base w) n q dst (base w');
  is_id : ip_id w' = u16 (ip_id w + 1);
  is_default : netif_default w' = netif_default w;
}.

Lemma ip_sent_carried w n id dst bs w' : world_ok (base w) -> ip_sent w n id dst bs w' -> carried (base w) (base w').
Proof. intros Hw [(q & _ & _ & Hq & _ & Ho) _ _]. by eapply outputs_carried. Qed.

Lemma ip_output_if_spec w p src dst ttl tos proto n : world_ok (base w) -> ram p -> 34 <= zlen (pb_room p) ->
  wp (ip_output_if lw w p src (Some dst) ttl tos proto n) (fun '(_, w') =>
    ip_sent w n (pb_id p) dst (ip_hdr_bytes (output_hdr w n (pb_tot_len p) src dst ttl tos proto) ++ data p) w').
Proof.
  intros Hw Hp Hr. unfold ip_output_if. set (hdr := output_hdr w n (pb_tot_len p) src dst ttl tos proto).
  assert (Hl : zlen (ip_hdr_bytes hdr) = 20) by (unfold zlen; by rewrite ip_hdr_bytes_length).
  destruct (header_up_store p (ip_hdr_bytes hdr) Hp) as (q & Eu & Et & Es); [done|lia|]. rewrite Hl in Eu, Et.
  change IP_HLEN with 20 at 1. rewrite Eu, Et. change (Z.lor (Z.shiftl 4 4) (IP_HLEN / 4)) with 0x45.
  unfold output_hdr, IP_HLEN in hdr. fold hdr. rewrite Es. cbn [obind base].
  destruct (to_packet_ok (push p (ip_hdr_bytes hdr))) as (K1 & K2 & K3 & K4).
  - by apply push_ram.
  - rewrite push_first, zlen_app by done. pose proof (zlen_nonneg (first p)). lia.
  - rewrite push_room by (done || lia). lia.
  - pose proof (etharp_output_spec lw (base w) n (to_packet (push p (ip_hdr_bytes hdr))) dst Hw K1) as Ho.
    destruct (etharp_output _ _ _ _ _) as [[e b]| |]; [|done..]. cbn [wp obind] in *. split; [|done|done].
    exists (to_packet (push p (ip_hdr_bytes hdr))). rewrite K3, K4, push_id, push_data by done. by split_and!.
Qed.

(** A packet for a group leaves at once. *)
Lemma ip_sent_group w n id dst bs w' m : ip_sent w n id dst bs w' -> group_mac (nif w n) dst = Some m ->
  arp_table (base w') = arp_table (base w) /\ log (base w') = log (base w) ++ [Out n (ip_frame m (nif_hwaddr (nif w n)) bs)].
Proof.
  intros [(q & _ & Hr & Hq & <- & Ho) _ _] Hm. unfold nif in *.
  destruct Ho as [[H|(room & _ & H & _)]|m' w1 _ Hm' B|room hop k e ev s c w1 _ H|room hop w1 _ H]; try congruence.
  assert (m' = m) as -> by congruence. split; apply B.
Qed.

End Carried.
