(* ===== verification/Udp.v ===== *)
(** * UDP: src/Utilities/lwip_v1.3.2/src/core/udp.c

    The protocol control blocks and their list, binding and connecting,
    sending, and the choice of the block that receives a datagram. The pool
    of the blocks is [Memp]'s: an allocation succeeds while one of the
    MEMP_NUM_UDP_PCB elements is free. *)

From S2P Require Import Prelude CStd Mem IpAddr Checksum Pbuf Etharp Autoip Ip.
From stdpp Require Import gmap.
#[local] Open Scope Z_scope.

Definition ERR_USE : Z := -8.
Definition UDP_HLEN : Z := 8.
Definition UDP_TTL : Z := 255.
Definition UDP_FLAGS_CONNECTED : Z := 0x04.
Definition SOF_BROADCAST : Z := 0x20.
Definition MEMP_NUM_UDP_PCB : Z := 6.
Definition UDP_LOCAL_PORT_RANGE_START : Z := 0xc000.
Definition UDP_LOCAL_PORT_RANGE_END : Z := 0xffff.

(** The callback of a block with its argument: dhcp_recv of an interface, or
    one of an application. *)
Inductive recv_fn : Type :=
  | DhcpRecv (n : Z)
  | AppRecv (f arg : Z).

Record udp_pcb : Type := UdpPcb {
  u_local_ip : Z;
  u_remote_ip : Z;
  u_so_options : Z;
  u_tos : Z;
  u_ttl : Z;
  u_flags : Z;
  u_local_port : Z;
  u_remote_port : Z;
  u_recv : option recv_fn;
}.

(** The list udp_pcbs, udp_port, the blocks in use by their addresses, the
    address of the next one. *)
Record udpw : Type := UdpW {
  ip : ipw;
  udp_pcbs : list Z;
  udp_port : Z;
  pcb_at : gmap Z udp_pcb;
  next_pcb : Z;
}.

Definition set_ipw (w : udpw) (i : ipw) : udpw := UdpW i (udp_pcbs w) (udp_port w) (pcb_at w) (next_pcb w).
Definition set_pcbs (w : udpw) (l : list Z) : udpw := UdpW (ip w) l (udp_port w) (pcb_at w) (next_pcb w).
Definition set_pcb (w : udpw) (a : Z) (p : udp_pcb) : udpw := UdpW (ip w) (udp_pcbs w) (udp_port w) (<[a := p]> (pcb_at w)) (next_pcb w).
Definition get_pcb (w : udpw) (a : Z) : outcome udp_pcb := match pcb_at w !! a with Some p => Ok p | None => UB end.

Definition set_local (p : udp_pcb) (ipaddr port : Z) : udp_pcb :=
  UdpPcb ipaddr (u_remote_ip p) (u_so_options p) (u_tos p) (u_ttl p) (u_flags p) port (u_remote_port p) (u_recv p).
Definition set_remote (p : udp_pcb) (ipaddr port flags : Z) : udp_pcb :=
  UdpPcb (u_local_ip p) ipaddr (u_so_options p) (u_tos p) (u_ttl p) flags (u_local_port p) port (u_recv p).
Definition set_recv (p : udp_pcb) (f : option recv_fn) : udp_pcb :=
  UdpPcb (u_local_ip p) (u_remote_ip p) (u_so_options p) (u_tos p) (u_ttl p) (u_flags p) (u_local_port p) (u_remote_port p) f.
Definition ip_set_option (p : udp_pcb) (opt : Z) : udp_pcb :=
  UdpPcb (u_local_ip p) (u_remote_ip p) (Z.lor (u_so_options p) opt) (u_tos p) (u_ttl p) (u_flags p) (u_local_port p) (u_remote_port p) (u_recv p).

(** The loops over the list: the block at every element, in order. *)
Fixpoint pcbs_of (w : udpw) (l : list Z) : outcome (list (Z * udp_pcb)) :=
  match l with
  | [] => Ok []
  | a :: l => let! p := get_pcb w a in let! ps := pcbs_of w l in Ok ((a, p) :: ps)
  end.

(** ** Ports *)

(** From the label again; [n] counts the ports in use. *)
Fixpoint new_port_loop (fuel : nat) (ps : list (Z * udp_pcb)) (port n : Z) : outcome (Z * Z) :=
  match fuel with
  | O => NoFuel
  | S fuel =>
      let port := if port =? UDP_LOCAL_PORT_RANGE_END then UDP_LOCAL_PORT_RANGE_START else u16 (port + 1) in
      if existsb (fun ap => u_local_port ap.2 =? port) ps then
        let n := u16 (n + 1) in
        if UDP_LOCAL_PORT_RANGE_END - UDP_LOCAL_PORT_RANGE_START <? n then Ok (0, port) else new_port_loop fuel ps port n
      else Ok (port, port)
  end.

Definition udp_new_port (w : udpw) : outcome (Z * udpw) :=
  let! ps := pcbs_of w (udp_pcbs w) in
  let! (r, port) := new_port_loop (Z.to_nat 0x4001) ps (udp_port w) 0 in
  Ok (r, UdpW (ip w) (udp_pcbs w) port (pcb_at w) (next_pcb w)).

(** The loop of udp_bind: [true] when another block has the address and the
    port. *)
Definition in_use (pcb ipaddr port : Z) (ap : Z * udp_pcb) : bool :=
  negb (ap.1 =? pcb) && (u_local_port ap.2 =? port) &&
  (ip_addr_isany (u_local_ip ap.2) || ip_addr_isany ipaddr || ip_addr_cmp (u_local_ip ap.2) ipaddr).

Definition udp_bind (w : udpw) (pcb ipaddr port : Z) : outcome (Z * udpw) :=
  let! ps := pcbs_of w (udp_pcbs w) in
  if existsb (in_use pcb ipaddr port) ps then Ok (ERR_USE, w)
  else
    let rebind := existsb (Z.eqb pcb) (udp_pcbs w) in
    let! p := get_pcb w pcb in
    let w := set_pcb w pcb (set_local p ipaddr (u_local_port p)) in
    let! (port, w) := if port =? 0 then udp_new_port w else Ok (port, w) in
    if port =? 0 then Ok (ERR_USE, w)
    else
      let! p := get_pcb w pcb in
      let w := set_pcb w pcb (set_local p ipaddr port) in
      Ok (ERR_OK, if rebind then w else set_pcbs w (pcb :: udp_pcbs w)).

Definition udp_connect (w : udpw) (pcb ipaddr port : Z) : outcome (Z * udpw) :=
  let! p := get_pcb w pcb in
  let! (e, w) := if u_local_port p =? 0 then udp_bind w pcb (u_local_ip p) (u_local_port p) else Ok (ERR_OK, w) in
  if negb (e =? ERR_OK) then Ok (e, w)
  else
    let! p := get_pcb w pcb in
    let w := set_pcb w pcb (set_remote p ipaddr port (Z.lor (u_flags p) UDP_FLAGS_CONNECTED)) in
    Ok (ERR_OK, if existsb (Z.eqb pcb) (udp_pcbs w) then w else set_pcbs w (pcb :: udp_pcbs w)).

Definition udp_disconnect (w : udpw) (pcb : Z) : outcome udpw :=
  let! p := get_pcb w pcb in
  Ok (set_pcb w pcb (set_remote p IPADDR_ANY 0 (Z.land (u_flags p) (Z.lnot UDP_FLAGS_CONNECTED)))).

Definition udp_recv (w : udpw) (pcb : Z) (f : option recv_fn) : outcome udpw :=
  let! p := get_pcb w pcb in
  Ok (set_pcb w pcb (set_recv p f)).

Definition udp_remove (w : udpw) (pcb : Z) : outcome udpw :=
  let! _ := get_pcb w pcb in
  let l :=
    match udp_pcbs w with
    | a :: r => if a =? pcb then r else a :: List.filter (fun b => negb (b =? pcb)) r
    | [] => []
    end in
  Ok (UdpW (ip w) l (udp_port w) (delete pcb (pcb_at w)) (next_pcb w)).

Definition udp_new (w : udpw) : option Z * udpw :=
  if Z.of_nat (size (pcb_at w)) <? MEMP_NUM_UDP_PCB then
    let pcb := next_pcb w in
    (Some pcb, UdpW (ip w) (udp_pcbs w) (udp_port w) (<[pcb := UdpPcb 0 0 0 0 UDP_TTL 0 0 0 None]> (pcb_at w)) (pcb + 1))
  else (None, w).

Section Udp.
Context (lw : lower).

(** ** Sending *)

Definition udp_hdr_bytes (src dest len chksum : Z) : list Z := store16 src ++ store16 dest ++ store16 len ++ store16 chksum.

(** The packet with room for the UDP header: [p] itself, or a pbuf in front
    of it. *)
Definition udp_header (w : udpw) (p : pbufs) : option (pbufs * bool) * udpw :=
  match header_up p UDP_HLEN with
  | Some q => (Some (q, false), w)
  | None =>
      let (q, i) := ip_alloc lw (ip w) PBUF_IP UDP_HLEN in
      (match q with
       | Some q => Some (Pbufs (pb_id q) (pb_room q) (pb_chain q ++ (if pb_tot_len p =? 0 then [] else pb_chain p)) (pb_slack q) (pb_flags q), true)
       | None => None
       end, set_ipw w i)
  end.

(** The end of udp_sendto_if: the extra pbuf is given back. *)
Definition udp_done (w : udpw) (q : pbufs) (extra : bool) : udpw := if extra then set_ipw w (free (ip w) (pb_id q)) else w.

Definition udp_sendto_if (w : udpw) (pcb : Z) (p : pbufs) (dst_ip dst_port : Z) (n : Z) : outcome (Z * udpw) :=
  let! u := get_pcb w pcb in
  let! (e, w) := if u_local_port u =? 0 then udp_bind w pcb (u_local_ip u) (u_local_port u) else Ok (ERR_OK, w) in
  if negb (e =? ERR_OK) then Ok (e, w)
  else
    let! u := get_pcb w pcb in
    match udp_header w p with
    | (None, w) => Ok (ERR_MEM, w)
    | (Some (q, extra), w) =>
        let nf := nif (ip w) n in
        if negb (ip_addr_isany (u_local_ip u)) && negb (ip_addr_cmp (u_local_ip u) (nif_ip_addr nf)) then Ok (ERR_VAL, udp_done w q extra)
        else
          let src_ip := if ip_addr_isany (u_local_ip u) then nif_ip_addr nf else u_local_ip u in
          let! q := store_payload q 0 (udp_hdr_bytes (lwip_htons (u_local_port u)) (lwip_htons dst_port) (lwip_htons (u16 (pb_tot_len q))) 0) in
          let! (e, i) := ip_output_if lw (ip w) q src_ip (Some dst_ip) (u_ttl u) (u_tos u) IP_PROTO_UDP n in
          Ok (e, udp_done (set_ipw w i) q extra)
    end.

Definition udp_sendto (w : udpw) (pcb : Z) (p : pbufs) (dst_ip dst_port : Z) : outcome (Z * udpw) :=
  match ip_route (ip w) dst_ip with
  | None => Ok (ERR_RTE, w)
  | Some n => udp_sendto_if w pcb p dst_ip dst_port n
  end.

Definition udp_send (w : udpw) (pcb : Z) (p : pbufs) : outcome (Z * udpw) :=
  let! u := get_pcb w pcb in
  udp_sendto w pcb p (u_remote_ip u) (u_remote_port u).

(** ** Receiving *)

(** A datagram: ports, addresses, whether the destination is a broadcast
    address, the netmask of the interface. *)
Record datagram : Type := Datagram {
  dg_src : Z; dg_dest : Z; dg_src_ip : Z; dg_dest_ip : Z; dg_broadcast : bool; dg_netmask : Z;
}.

Definition local_match (d : datagram) (p : udp_pcb) : bool :=
  (u_local_port p =? dg_dest d) &&
  ((negb (dg_broadcast d) && ip_addr_isany (u_local_ip p)) || ip_addr_cmp (u_local_ip p) (dg_dest_ip d) ||
   (dg_broadcast d && (ip_addr_isany (u_local_ip p) || ip_addr_netcmp (u_local_ip p) (dg_dest_ip d) (dg_netmask d)))).

Definition remote_match (d : datagram) (p : udp_pcb) : bool :=
  (u_remote_port p =? dg_src d) && (ip_addr_isany (u_remote_ip p) || ip_addr_cmp (u_remote_ip p) (dg_src_ip d)).

Definition connected (p : udp_pcb) : bool := negb (Z.land (u_flags p) UDP_FLAGS_CONNECTED =? 0).

(** The loop: the first full match with the blocks in front of it, and the
    first unconnected block that matches locally. *)
Fixpoint match_loop (d : datagram) (front : list Z) (ps : list (Z * udp_pcb)) (uncon_pcb : option Z) : option (Z * list Z * list Z) * option Z :=
  match ps with
  | [] => (None, uncon_pcb)
  | (a, p) :: ps =>
      if local_match d p then
        let uncon_pcb := match uncon_pcb with None => if connected p then None else Some a | Some _ => uncon_pcb end in
        if remote_match d p then (Some (a, front, map fst ps), uncon_pcb) else match_loop d (front ++ [a]) ps uncon_pcb
      else match_loop d (front ++ [a]) ps uncon_pcb
  end.

(** The block of a datagram that is not for the DHCP client; a full match
    moves to the front of the list. *)
Definition lookup_pcb (w : udpw) (d : datagram) : outcome (option Z * udpw) :=
  let! ps := pcbs_of w (udp_pcbs w) in
  match match_loop d [] ps None with
  | (Some (a, front, rest), _) => Ok (Some a, match front with [] => w | _ => set_pcbs w (a :: front ++ rest) end)
  | (None, uncon_pcb) => Ok (uncon_pcb, w)
  end.

(** What udp_input ends with: nothing, or the call of the receive callback
    of a block with the packet, the address and the port of the sender. *)
Inductive delivery : Type :=
  | Nobody
  | Deliver (f : recv_fn) (pcb : Z) (p : pbufs) (addr port : Z).

(** [dhcp_pcb] is inp->dhcp->pcb. *)
Definition udp_input (w : udpw) (p : pbufs) (inp src_ip dest_ip : Z) (dhcp_pcb : option Z) : outcome (delivery * udpw) :=
  let discard := Ok (Nobody, set_ipw w (free (ip w) (pb_id p))) in
  let! vhl := rd (memory p) 0 in
  let hlen := Z.land vhl 0x0f * 4 in
  if pb_tot_len p <? hlen + UDP_HLEN then discard
  else
    match header_down p hlen with
    | None => discard
    | Some p =>
        let! src := load16 (memory p) 0 in
        let! dest := load16 (memory p) 2 in
        let nf := nif (ip w) inp in
        let d := Datagram (lwip_htons src) (lwip_htons dest) src_ip dest_ip (ip_addr_isbroadcast dest_ip nf) (nif_netmask nf) in
        let! (pcb, w) :=
          if dg_dest d =? DHCP_CLIENT_PORT then
            if dg_src d =? DHCP_SERVER_PORT then
              match dhcp_pcb with
              | Some a =>
                  let! u := get_pcb w a in
                  Ok (if ip_addr_isany (u_remote_ip u) || ip_addr_cmp (u_remote_ip u) src_ip then Some a else None, w)
              | None => Ok (None, w)
              end
            else Ok (None, w)
          else lookup_pcb w d in
        if match pcb with Some _ => true | None => false end || ip_addr_cmp (nif_ip_addr nf) dest_ip then
          match header_down p UDP_HLEN with
          | None => Ok (Nobody, set_ipw w (free (ip w) (pb_id p)))
          | Some q =>
              match pcb with
              | Some a =>
                  let! u := get_pcb w a in
                  match u_recv u with
                  | Some f => Ok (Deliver f a q src_ip (dg_src d), w)
                  | None => Ok (Nobody, set_ipw w (free (ip w) (pb_id p)))
                  end
              | None =>
                  let! i :=
                    if negb (dg_broadcast d) && negb (ip_addr_ismulticast dest_ip) then
                      icmp_dest_unreach lw (ip w) (default q (header_up q (hlen + UDP_HLEN))) ICMP_DUR_PORT
                    else Ok (ip w) in
                  Ok (Nobody, set_ipw w (free i (pb_id p)))
              end
          end
        else Ok (Nobody, set_ipw w (free (ip w) (pb_id p)))
    end.

End Udp.

(** ** Theory: sending *)

Lemma udp_hdr_bytes_length a b c d : length (udp_hdr_bytes a b c d) = 8%nat.
Proof. done. Qed.

(** The datagram with the data [bs], and the packet of it. *)
Definition udp_text (sport dport : Z) (bs : list Z) : list Z :=
  udp_hdr_bytes (lwip_htons sport) (lwip_htons dport) (lwip_htons (u16 (8 + zlen bs))) 0 ++ bs.
Definition udp_packet (w : ipw) (n : Z) (u : udp_pcb) (dst dport : Z) (bs : list Z) : list Z :=
  ip_hdr_bytes (output_hdr w n (8 + zlen bs) (nif_ip_addr (nif w n)) dst (u_ttl u) (u_tos u) IP_PROTO_UDP) ++ udp_text (u_local_port u) dport bs.

(** A block that is bound to any address sends from the address of the
    interface; the packet [p] has room for the headers. *)
Lemma udp_sendto_if_spec lw w a u p dst dport n : world_ok (base (ip w)) -> pcb_at w !! a = Some u -> u_local_port u <> 0 -> u_local_ip u = 0 ->
  ram p -> 42 <= zlen (pb_room p) ->
  wp (udp_sendto_if lw w a p dst dport n) (fun '(_, w') => exists i,
    ip_sent lw (ip w) n (pb_id p) dst (udp_packet (ip w) n u dst dport (data p)) i /\ w' = set_ipw w i).
Proof.
  intros Hw Ha Hp Hl Hr Hroom. unfold udp_sendto_if, get_pcb. rewrite Ha. cbn [obind].
  destruct (Z.eqb_spec (u_local_port u) 0); [done|]. cbn [obind]. change (negb (ERR_OK =? ERR_OK)) with false. cbn match. rewrite Ha. cbn [obind].
  set (hdr := udp_hdr_bytes (lwip_htons (u_local_port u)) (lwip_htons dport) (lwip_htons (u16 (8 + zlen (data p)))) 0).
  destruct (header_up_store p hdr Hr) as (q & Eu & Et & Es); [done|change (zlen hdr) with 8; lia|]. change (zlen hdr) with 8 in Eu, Et.
  unfold udp_header. change UDP_HLEN with 8. rewrite Eu. cbn match. rewrite Hl. change (ip_addr_isany 0) with true. cbn [negb andb]. cbn match.
  unfold pb_tot_len at 2 in Et. rewrite Et. fold hdr. rewrite Es. cbn [obind].
  assert (Er : zlen (pb_room (push p hdr)) = zlen (pb_room p) - 8) by (rewrite push_room; [done|done|change (zlen hdr) with 8; lia]).
  pose proof (ip_output_if_spec lw (ip w) (push p hdr) (nif_ip_addr (nif (ip w) n)) dst (u_ttl u) (u_tos u) IP_PROTO_UDP n Hw (push_ram p hdr Hr) ltac:(lia)) as Ho.
  destruct (ip_output_if lw (ip w) (push p hdr) _ _ _ _ _ _) as [[e i]| |]; [|done..]. cbn [wp obind udp_done] in *. exists i. split; [|done].
  rewrite push_id in Ho. unfold pb_tot_len in Ho. rewrite push_data, zlen_app in Ho by done. change (zlen hdr) with 8 in Ho. exact Ho.
Qed.

(** ** Theory: the list of the blocks *)

(** The blocks in the list are in use and bound; there are no more than the
    pool has. *)
Record udp_ok (u : udpw) : Prop := UdpOk {
  uo_nodup : NoDup (udp_pcbs u);
  uo_list : Forall (fun a => exists p, pcb_at u !! a = Some p /\ u_local_port p <> 0) (udp_pcbs u);
  uo_next : forall a, is_Some (pcb_at u !! a) -> a < next_pcb u;
  uo_size : Z.of_nat (size (pcb_at u)) <= MEMP_NUM_UDP_PCB;
  uo_port : UDP_LOCAL_PORT_RANGE_START <= udp_port u <= UDP_LOCAL_PORT_RANGE_END;
}.

Lemma pcbs_of_ok u l : Forall (fun a => exists p, pcb_at u !! a = Some p /\ u_local_port p <> 0) l -> exists ps,
  pcbs_of u l = Ok ps /\ map fst ps = l /\ forall ap, ap ∈ ps -> pcb_at u !! ap.1 = Some ap.2 /\ u_local_port ap.2 <> 0.
Proof.
  induction 1 as [|a l (p & Hp & Hn) _ (ps & E1 & E2 & E3)]; [exists []; split_and!; [done|done|intros ap H; by apply elem_of_nil in H]|].
  exists ((a, p) :: ps). cbn. unfold get_pcb. rewrite Hp. cbn [obind]. rewrite E1. cbn [obind]. split_and!; [done|by rewrite E2|].
  intros ap [->|H]%elem_of_cons; [done|by apply E3].
Qed.

Lemma list_size u : udp_ok u -> (length (udp_pcbs u) <= 6)%nat.
Proof.
  intros [H1 H2 _ H4 _]. change MEMP_NUM_UDP_PCB with 6 in H4. rewrite <- (size_dom (D := gset Z)) in H4.
  assert (list_to_set (udp_pcbs u) ⊆@{gset Z} dom (pcb_at u)) as Hs%subseteq_size.
  { intros a Ha. apply elem_of_list_to_set in Ha. rewrite list.Forall_forall in H2. destruct (H2 a Ha) as (p & Hp & _). by apply elem_of_dom_2 in Hp. }
  rewrite size_list_to_set in Hs by done. lia.
Qed.

(** *** A free port *)

Definition next_port (p : Z) : Z := if p =? UDP_LOCAL_PORT_RANGE_END then UDP_LOCAL_PORT_RANGE_START else u16 (p + 1).
Definition dynamic (p : Z) : Prop := UDP_LOCAL_PORT_RANGE_START <= p <= UDP_LOCAL_PORT_RANGE_END.

Lemma next_port_val p : dynamic p -> next_port p = 0xc000 + (p - 0xc000 + 1) mod 0x4000.
Proof.
  unfold dynamic, next_port, UDP_LOCAL_PORT_RANGE_START, UDP_LOCAL_PORT_RANGE_END. intros Hp. destruct (Z.eqb_spec p 0xffff) as [->|]; [done|].
  rewrite u16_small, Z.mod_small by lia. lia.
Qed.

Lemma iter_port_val k p : dynamic p -> Nat.iter k next_port p = 0xc000 + (p - 0xc000 + Z.of_nat k) mod 0x4000.
Proof.
  intros Hp. induction k as [|k IH]; [change (Nat.iter 0 next_port p) with p|change (Nat.iter (S k) next_port p) with (next_port (Nat.iter k next_port p))].
  - unfold dynamic, UDP_LOCAL_PORT_RANGE_START, UDP_LOCAL_PORT_RANGE_END in Hp. rewrite Z.mod_small by lia. lia.
  - rewrite IH. pose proof (Z.mod_pos_bound (p - 0xc000 + Z.of_nat k) 0x4000). rewrite next_port_val by (unfold dynamic, UDP_LOCAL_PORT_RANGE_START, UDP_LOCAL_PORT_RANGE_END; lia).
    f_equal. replace (0xc000 + _ - 0xc000 + 1) with ((p - 0xc000 + Z.of_nat k) mod 0x4000 + 1) by lia. rewrite Z.add_mod_idemp_l by lia. f_equal. lia.
Qed.

(** Of six ports that follow one another and one more, one is not among the
    ports in use. *)
Lemma some_port_free (used : list Z) p : dynamic p -> (length used <= 6)%nat -> exists k, (k <= 6)%nat /\ Nat.iter (S k) next_port p ∉ used.
Proof.
  intros Hp Hl. destruct (decide (Forall (fun k => Nat.iter (S k) next_port p ∈ used) (seq 0 7))) as [H|H].
  - exfalso. set (ports := map (fun k => Nat.iter (S k) next_port p) (seq 0 7)).
    assert (Hn : List.NoDup ports).
    { apply NoDup_ListNoDup. unfold ports. change (map ?f ?l) with (f <$> l). apply NoDup_fmap_2_strong; [|apply NoDup_seq].
      intros i j Hi%elem_of_seq Hj%elem_of_seq E. rewrite !iter_port_val in E by done.
      unfold dynamic, UDP_LOCAL_PORT_RANGE_START, UDP_LOCAL_PORT_RANGE_END in Hp.
      assert (E' : (p - 0xc000 + Z.of_nat (S i)) mod 0x4000 = (p - 0xc000 + Z.of_nat (S j)) mod 0x4000) by lia. clear E.
      pose proof (Z.div_mod (p - 0xc000 + Z.of_nat (S i)) 0x4000). pose proof (Z.div_mod (p - 0xc000 + Z.of_nat (S j)) 0x4000). lia. }
    assert (Hi : incl ports used).
    { intros x Hx. rewrite list.Forall_forall in H. apply in_map_iff in Hx as (k & <- & Hk). apply list_elem_of_In, H. by apply list_elem_of_In. }
    pose proof (NoDup_incl_length Hn Hi) as L. unfold ports in L. rewrite length_map, length_seq in L. lia.
  - apply not_Forall_Exists in H; [|intros ?; apply _]. apply list.Exists_exists in H as (k & Hk%elem_of_seq & Hn). exists k. split; [lia|done].
Qed.

Lemma new_port_loop_spec ps k : forall fuel port n, dynamic port -> 0 <= n -> n + Z.of_nat k < 0x3fff -> (k < fuel)%nat ->
  Nat.iter (S k) next_port port ∉ map (fun ap => u_local_port ap.2) ps ->
  wp (new_port_loop fuel ps port n) (fun '(r, port') => port' = r /\ dynamic r /\ r ∉ map (fun ap => u_local_port ap.2) ps).
Proof.
  assert (Hd : forall p, dynamic p -> dynamic (next_port p)).
  { intros p Hp. rewrite next_port_val by done. pose proof (Z.mod_pos_bound (p - 0xc000 + 1) 0x4000).
    unfold dynamic, UDP_LOCAL_PORT_RANGE_START, UDP_LOCAL_PORT_RANGE_END. lia. }
  induction k as [|k IH]; intros [|fuel] port n Hp Hn Hk Hf Hfree; try lia; cbn [new_port_loop]; fold (next_port port).
  - change (Nat.iter 1 next_port port) with (next_port port) in Hfree. destruct (existsb _ ps) eqn:E; [|cbn [wp]; by split_and!; [|apply Hd|]].
    exfalso. apply existsb_exists in E as (ap & Hin & E%Z.eqb_eq). apply Hfree. rewrite <- E. apply list_elem_of_In. by apply (in_map (fun ap => u_local_port ap.2)).
  - destruct (existsb _ ps) eqn:E.
    + rewrite u16_small by lia. change (UDP_LOCAL_PORT_RANGE_END - UDP_LOCAL_PORT_RANGE_START) with 0x3fff. destruct (Z.ltb_spec 0x3fff (n + 1)); [lia|].
      apply IH; [by apply Hd|lia|lia|lia|]. by rewrite Nat.iter_succ_r in Hfree.
    + cbn [wp]. split_and!; [done|by apply Hd|]. intros Hin. apply list_elem_of_In, in_map_iff in Hin as (ap & E1 & E2).
      rewrite <- not_true_iff_false, existsb_exists in E. apply E. exists ap. split; [done|]. by apply Z.eqb_eq.
Qed.

(** A port that no other block has, of the blocks [ps]. *)
Definition unused (u : udpw) (port : Z) : Prop := forall a p, a ∈ udp_pcbs u -> pcb_at u !! a = Some p -> u_local_port p <> port.

(** Udp_new_port always finds a port: of the dynamic range and that no
    block in the list has, whatever the last one was; nothing but the
    variable udp_port changes. *)
Theorem udp_new_port_free u : udp_ok u ->
  wp (udp_new_port u) (fun '(r, u') => UDP_LOCAL_PORT_RANGE_START <= r <= UDP_LOCAL_PORT_RANGE_END /\ unused u r /\
    u' = UdpW (ip u) (udp_pcbs u) r (pcb_at u) (next_pcb u)).
Proof.
  intros H. unfold udp_new_port. destruct (pcbs_of_ok u _ (uo_list _ H)) as (ps & -> & E2 & E3). cbn [obind].
  pose proof (list_size u H) as Hl. rewrite <- E2, length_map in Hl.
  destruct (some_port_free (map (fun ap => u_local_port ap.2) ps) (udp_port u)) as (k & Hk & Hfree); [apply H|by rewrite length_map|].
  wpb (new_port_loop_spec ps k); [apply H|lia|lia| |exact Hfree|].
  - change 0x4001 with (Z.of_nat 7 + 0x3ffa). rewrite Z2Nat.inj_add by lia. lia.
  - intros (r & port) (-> & Hr & Hn). cbn [wp]. split_and!; [apply Hr|apply Hr| |done]. intros a p Ha Hp E. apply Hn. rewrite <- E2 in Ha.
    apply list_elem_of_In, in_map_iff in Ha as (ap & <- & Hin). apply list_elem_of_In in Hin as Hin'. destruct (E3 ap Hin') as [E4 _].
    assert (ap.2 = p) as <- by congruence. apply list_elem_of_In. apply in_map_iff. exists ap. by split.
Qed.

(** *** Binding *)

(** Two bindings that udp_bind keeps apart. *)
Definition clash (p q : udp_pcb) : Prop :=
  u_local_port p = u_local_port q /\ (u_local_ip p = 0 \/ u_local_ip q = 0 \/ u_local_ip p = u_local_ip q).

Lemma isany_spec a : ip_addr_isany a = true <-> a = 0.
Proof. unfold ip_addr_isany. apply Z.eqb_eq. Qed.

(** The block [a] of [u] with a new binding. *)
Record bound (u : udpw) (a ipaddr port : Z) (p : udp_pcb) (u' : udpw) : Prop := Bound {
  bd_ok : udp_ok u';
  bd_ip : ip u' = ip u;
  bd_next : next_pcb u' = next_pcb u;
  bd_list : udp_pcbs u' = if existsb (Z.eqb a) (udp_pcbs u) then udp_pcbs u else a :: udp_pcbs u;
  bd_at : exists port', port' <> 0 /\ (port <> 0 -> port' = port) /\ pcb_at u' = <[a := set_local p ipaddr port']> (pcb_at u) /\
    forall b q, b <> a -> b ∈ udp_pcbs u -> pcb_at u !! b = Some q -> ~ clash (set_local p ipaddr port') q;
}.

Lemma size_insert_same (m : gmap Z udp_pcb) a p q : m !! a = Some p -> size (<[a := q]> m) = size m.
Proof. intros H. by rewrite map_size_insert, H. Qed.

Lemma udp_ok_put u a p q l port : udp_ok u -> pcb_at u !! a = Some p -> UDP_LOCAL_PORT_RANGE_START <= port <= UDP_LOCAL_PORT_RANGE_END -> NoDup l ->
  (forall b, b ∈ l -> b = a /\ u_local_port q <> 0 \/ b <> a /\ b ∈ udp_pcbs u) -> udp_ok (UdpW (ip u) l port (<[a := q]> (pcb_at u)) (next_pcb u)).
Proof.
  intros [H1 H2 H3 H4 H5] Ha Hport Hl Hin. rewrite list.Forall_forall in H2. split; cbn; [done| | | |done].
  - apply list.Forall_forall. intros b Hb. destruct (Hin b Hb) as [[-> Hq]|[Hne Hbl]]; [exists q; by rewrite lookup_insert_eq|]. rewrite lookup_insert_ne by done. by apply H2.
  - intros b. destruct (decide (b = a)) as [->|]; [intros _; apply H3; by rewrite Ha|]. rewrite lookup_insert_ne by done. apply H3.
  - by erewrite size_insert_same.
Qed.

Lemma listed a l : existsb (Z.eqb a) l = true <-> a ∈ l.
Proof. rewrite existsb_exists, list_elem_of_In. split; [intros (b & H & ->%Z.eqb_eq); done|intros H; exists a; split; [done|apply Z.eqb_refl]]. Qed.

Lemma udp_bind_spec u a p ipaddr port : udp_ok u -> pcb_at u !! a = Some p ->
  wp (udp_bind u a ipaddr port) (fun '(e, u') => (e = ERR_OK /\ bound u a ipaddr port p u') \/
    (e = ERR_USE /\ u' = u /\ port <> 0 /\ exists b q, b <> a /\ b ∈ udp_pcbs u /\ pcb_at u !! b = Some q /\ clash (set_local p ipaddr port) q)).
Proof.
  intros H Ha. unfold udp_bind. destruct (pcbs_of_ok u _ (uo_list _ H)) as (ps & -> & E2 & E3). cbn [obind].
  assert (Hps : forall b q, b ∈ udp_pcbs u -> pcb_at u !! b = Some q -> (b, q) ∈ ps).
  { intros b q Hb Hq. rewrite <- E2 in Hb. apply list_elem_of_In, in_map_iff in Hb as ([b' q'] & E & Hin). cbn in E. subst b'.
    apply list_elem_of_In in Hin. destruct (E3 _ Hin) as [E4 _]. cbn in E4. by assert (q' = q) as <- by congruence. }
  assert (Hcl : forall b q, in_use a ipaddr port (b, q) = true <-> b <> a /\ clash (set_local p ipaddr port) q).
  { intros b q. unfold in_use, clash. cbn [fst snd set_local u_local_port u_local_ip]. unfold ip_addr_cmp. rewrite !andb_true_iff, negb_true_iff, !orb_true_iff, !isany_spec, !Z.eqb_eq, Z.eqb_neq.
    intuition congruence. }
  destruct (existsb _ ps) eqn:Ex.
  { cbn [wp]. right. split_and!; [done|done| |]; apply existsb_exists in Ex as ([b q] & Hin & Hu); apply list_elem_of_In in Hin; apply E3 in Hin as Hq; cbn in Hq; destruct Hq as [Hq Hn];
      apply Hcl in Hu as [Hb Hu].
    - destruct Hu as [Hu _]. cbn in Hu. congruence.
    - exists b, q. split_and!; [done| |done|done]. rewrite <- E2. apply list_elem_of_In, in_map_iff. exists (b, q). split; [done|by apply list_elem_of_In]. }
  unfold get_pcb. rewrite Ha. cbn [obind]. set (w1 := set_pcb u a _).
  assert (Hin : forall b q, u_local_port q = u_local_port p \/ u_local_port q <> 0 -> b ∈ udp_pcbs u -> b = a /\ u_local_port q <> 0 \/ b <> a /\ b ∈ udp_pcbs u).
  { intros b q Hq Hb. destruct (decide (b = a)) as [->|]; [|by right]. left. split; [done|]. destruct Hq as [->|]; [|done].
    pose proof (uo_list _ H) as Hl. rewrite list.Forall_forall in Hl. destruct (Hl a Hb) as (p' & Hp' & Hn). congruence. }
  assert (H1 : udp_ok w1).
  { apply (udp_ok_put u a p _ (udp_pcbs u) (udp_port u) H Ha); [apply H|apply H|]. intros b. apply Hin. by left. }
  set (chosen := if port =? 0 then udp_new_port w1 else Ok (port, w1)).
  assert (Hc : wp chosen (fun '(port', w2) => port' <> 0 /\ (port <> 0 -> port' = port) /\
    (exists up, w2 = UdpW (ip w1) (udp_pcbs w1) up (pcb_at w1) (next_pcb w1) /\ UDP_LOCAL_PORT_RANGE_START <= up <= UDP_LOCAL_PORT_RANGE_END) /\
    forall b q, b <> a -> b ∈ udp_pcbs u -> pcb_at u !! b = Some q -> ~ clash (set_local p ipaddr port') q)).
  { subst chosen. destruct (Z.eqb_spec port 0) as [->|Hp0].
    - eapply wp_mono; [by apply udp_new_port_free|]. intros (r & w2) (Hr & Hu & ->). split_and!; [|done| |].
      + unfold UDP_LOCAL_PORT_RANGE_START in Hr. lia.
      + by exists r.
      + intros b q Hb Hbl Hq [Hcl' _]. cbn in Hcl'. apply (Hu b q); [done| |done]. unfold w1, set_pcb. cbn. by rewrite lookup_insert_ne.
    - cbn [wp]. split_and!; [done|done| |].
      + exists (udp_port u). split; [done|apply H].
      + intros b q Hb Hbl Hq Hcl'. rewrite <- not_true_iff_false, existsb_exists in Ex. apply Ex. exists (b, q). split; [apply list_elem_of_In; by apply Hps|]. by apply Hcl. }
  wpb Hc. intros (port' & w2) (K1 & K2 & (up & -> & K3) & K4). destruct (Z.eqb_spec port' 0); [done|].
  unfold get_pcb. cbn [pcb_at w1 set_pcb]. rewrite lookup_insert_eq. cbn [obind wp]. left. split; [done|].
  assert (Em : set_local (set_local p ipaddr (u_local_port p)) ipaddr port' = set_local p ipaddr port') by done. rewrite Em.
  assert (Hok : forall l, NoDup l -> (forall b, b ∈ l -> b = a \/ b ∈ udp_pcbs u) -> udp_ok (UdpW (ip u) l up (<[a := set_local p ipaddr port']> (pcb_at u)) (next_pcb u))).
  { intros l Hl Hi. apply (udp_ok_put u a p); try done. intros b Hb. destruct (Hi b Hb) as [->|]; [by left|]. apply Hin; [by right|done]. }
  unfold set_pcb, set_pcbs, w1. cbn [ip udp_pcbs udp_port pcb_at next_pcb]. rewrite !insert_insert_eq.
  destruct (existsb (Z.eqb a) (udp_pcbs u)) eqn:El; split; cbn [ip udp_pcbs udp_port pcb_at next_pcb]; rewrite ?El; try done; try (by exists port').
  - apply Hok; [apply H|by right].
  - apply Hok; [|by intros b [->|]%elem_of_cons; [left|right]]. apply list.NoDup_cons. split; [|apply H]. rewrite <- listed.
    change (existsb (Z.eqb a) (udp_pcbs u) <> true). by rewrite El.
Qed.

Lemma udp_connect_spec u a p ipaddr port : udp_ok u -> pcb_at u !! a = Some p -> (u_local_port p <> 0 -> a ∈ udp_pcbs u) ->
  wp (udp_connect u a ipaddr port) (fun '(e, u') => e = ERR_OK /\ udp_ok u' /\ ip u' = ip u /\ next_pcb u' = next_pcb u /\
    exists lport, lport <> 0 /\ (u_local_port p <> 0 -> lport = u_local_port p) /\
      pcb_at u' = <[a := set_remote (set_local p (u_local_ip p) lport) ipaddr port (Z.lor (u_flags p) UDP_FLAGS_CONNECTED)]> (pcb_at u) /\
      udp_pcbs u' = if u_local_port p =? 0 then (if existsb (Z.eqb a) (udp_pcbs u) then udp_pcbs u else a :: udp_pcbs u) else udp_pcbs u).
Proof.
  intros H Ha Hin. unfold udp_connect, get_pcb at 1. rewrite Ha. cbn [obind].
  assert (Hb : wp (if u_local_port p =? 0 then udp_bind u a (u_local_ip p) (u_local_port p) else Ok (ERR_OK, u)) (fun '(e, u1) => e = ERR_OK /\
    udp_ok u1 /\ ip u1 = ip u /\ next_pcb u1 = next_pcb u /\ a ∈ udp_pcbs u1 /\
    udp_pcbs u1 = (if u_local_port p =? 0 then (if existsb (Z.eqb a) (udp_pcbs u) then udp_pcbs u else a :: udp_pcbs u) else udp_pcbs u) /\
    exists lport, lport <> 0 /\ (u_local_port p <> 0 -> lport = u_local_port p) /\ pcb_at u1 = <[a := set_local p (u_local_ip p) lport]> (pcb_at u))).
  { destruct (Z.eqb_spec (u_local_port p) 0) as [E|E].
    - rewrite E. eapply wp_mono; [by apply udp_bind_spec|]. intros (e & u1) [[-> B]|(_ & _ & C & _)]; [|done]. destruct B as [B1 B2 B3 B4 (lp & B5 & _ & B6 & _)].
      split_and!; try done; [|by exists lp]. rewrite B4. destruct (existsb (Z.eqb a) (udp_pcbs u)) eqn:El; [by apply listed|by left].
    - cbn [wp]. split_and!; try done; [by apply Hin|]. exists (u_local_port p). split_and!; [done|done|]. rewrite insert_id; [done|]. rewrite Ha. by destruct p. }
  wpb Hb. intros (e & u1) (-> & K1 & K2 & K3 & K4 & K5 & (lp & K6 & K7 & K8)). change (negb (ERR_OK =? ERR_OK)) with false. cbn match.
  unfold get_pcb. assert (Ha1 : pcb_at u1 !! a = Some (set_local p (u_local_ip p) lp)) by by rewrite K8, lookup_insert_eq. rewrite Ha1. cbn [obind].
  set (q := set_remote _ _ _ _). assert (existsb (Z.eqb a) (udp_pcbs (set_pcb u1 a q)) = true) as -> by by apply listed. cbn [wp]. split_and!; try done.
  - apply (udp_ok_put u1 a (set_local p (u_local_ip p) lp)); try done; [apply K1|apply K1|]. intros b Hb'. destruct (decide (b = a)) as [->|]; [by left|by right].
  - exists lp. split_and!; try done. unfold set_pcb. cbn [pcb_at]. by rewrite K8, insert_insert_eq.
Qed.

Lemma udp_recv_spec u a p f : udp_ok u -> pcb_at u !! a = Some p -> udp_recv u a f = Ok (set_pcb u a (set_recv p f)) /\ udp_ok (set_pcb u a (set_recv p f)).
Proof.
  intros H Ha. unfold udp_recv, get_pcb. rewrite Ha. split; [done|]. apply (udp_ok_put u a p); try done; [apply H|apply H|]. intros b Hb.
  destruct (decide (b = a)) as [->|]; [left|by right]. split; [done|]. pose proof (uo_list _ H) as Hl. rewrite list.Forall_forall in Hl. destruct (Hl a Hb) as (p' & Hp' & Hn).
  cbn. congruence.
Qed.

Lemma udp_new_spec u : udp_ok u -> match udp_new u with
  | (None, u') => u' = u
  | (Some a, u') => udp_ok u' /\ pcb_at u !! a = None /\ a ∉ udp_pcbs u /\
      u' = UdpW (ip u) (udp_pcbs u) (udp_port u) (<[a := UdpPcb 0 0 0 0 UDP_TTL 0 0 0 None]> (pcb_at u)) (a + 1)
  end.
Proof.
  intros H. unfold udp_new. destruct (Z.ltb_spec (Z.of_nat (size (pcb_at u))) MEMP_NUM_UDP_PCB) as [Hs|]; [|done].
  destruct H as [H1 H2 H3 H4 H5]. assert (Hn : pcb_at u !! next_pcb u = None).
  { destruct (pcb_at u !! next_pcb u) eqn:E; [|done]. assert (next_pcb u < next_pcb u) by (apply H3; by rewrite E). lia. }
  rewrite list.Forall_forall in H2. assert (Hl : next_pcb u ∉ udp_pcbs u) by (intros Hb; destruct (H2 _ Hb) as (p & Hp & _); congruence).
  split_and!; try done. split; cbn; try done.
  - apply list.Forall_forall. intros b Hb. destruct (H2 b Hb) as (p & Hp & Hpp). exists p. rewrite lookup_insert_ne by congruence. done.
  - intros b. destruct (decide (b = next_pcb u)) as [->|]; [lia|]. rewrite lookup_insert_ne by done. intros Hb. specialize (H3 b Hb). lia.
  - rewrite map_size_insert_None by done. lia.
Qed.

Lemma udp_remove_spec u a p : udp_ok u -> pcb_at u !! a = Some p -> exists l,
  udp_remove u a = Ok (UdpW (ip u) l (udp_port u) (delete a (pcb_at u)) (next_pcb u)) /\ (forall b, b ∈ l <-> b <> a /\ b ∈ udp_pcbs u) /\
  udp_ok (UdpW (ip u) l (udp_port u) (delete a (pcb_at u)) (next_pcb u)).
Proof.
  intros [H1 H2 H3 H4 H5] Ha. unfold udp_remove, get_pcb. rewrite Ha. cbn [obind]. eexists. split; [done|].
  set (l := match udp_pcbs u with [] => [] | _ => _ end).
  assert (Hl : l = List.filter (fun b => negb (b =? a)) (udp_pcbs u)).
  { subst l. destruct (udp_pcbs u) as [|b r]; [done|]. cbn [List.filter]. apply list.NoDup_cons in H1 as [Hb _]. destruct (Z.eqb_spec b a) as [->|]; [|done]. cbn [negb].
    clear -Hb. induction r as [|c r IH]; [done|]. cbn [List.filter]. destruct (Z.eqb_spec c a) as [->|]; cbn [negb]; [exfalso; apply Hb; by left|].
    f_equal. apply IH. intros Hr. apply Hb. by right. }
  assert (Hin : forall b, b ∈ l <-> b <> a /\ b ∈ udp_pcbs u).
  { intros b. rewrite Hl, list_elem_of_In, filter_In, <- list_elem_of_In, negb_true_iff, Z.eqb_neq. tauto. }
  split; [done|]. rewrite list.Forall_forall in H2. split; cbn [ip udp_pcbs udp_port pcb_at next_pcb]; try done.
  - rewrite Hl. apply NoDup_ListNoDup, List.NoDup_filter, NoDup_ListNoDup, H1.
  - apply list.Forall_forall. intros b [Hb Hb']%Hin. rewrite lookup_delete_ne by done. by apply H2.
  - intros b. destruct (decide (b = a)) as [->|]; [by rewrite lookup_delete_eq; intros []|]. rewrite lookup_delete_ne by done. apply H3.
  - rewrite map_size_delete_Some by (by eexists). lia.
Qed.

(** ** Theory: the block of a datagram *)

Definition full_match (d : datagram) (ap : Z * udp_pcb) : bool := local_match d ap.2 && remote_match d ap.2.
Definition half_match (d : datagram) (ap : Z * udp_pcb) : bool := local_match d ap.2 && negb (connected ap.2).

Lemma match_loop_spec d ps : forall front uncon, exists uncon',
  match find (full_match d) ps with
  | Some (a, _) => exists ps1 ps2, ps1 ++ a :: ps2 = map fst ps /\ match_loop d front ps uncon = (Some (a, front ++ ps1, ps2), uncon')
  | None => match_loop d front ps uncon = (None, match uncon with Some _ => uncon | None => fst <$> find (half_match d) ps end)
  end.
Proof.
  induction ps as [|[a p] ps IH]; intros front uncon; cbn [match_loop find map fst]; [exists None; by destruct uncon|].
  unfold full_match at 1, half_match at 1. cbn [snd]. destruct (local_match d p) eqn:El; cbn [andb].
  - destruct (remote_match d p) eqn:Er.
    + eexists. exists [], (map fst ps). by rewrite app_nil_r.
    + destruct (IH (front ++ [a]) (match uncon with Some _ => uncon | None => if connected p then None else Some a end)) as (u' & H). exists u'.
      destruct (find (full_match d) ps) as [[b q]|].
      * destruct H as (ps1 & ps2 & H1 & H2). exists (a :: ps1), ps2. rewrite <- app_assoc in H2. split; [by rewrite <- H1|]. exact H2.
      * rewrite H. destruct uncon; [done|]. by destruct (connected p).
  - destruct (IH (front ++ [a]) uncon) as (u' & H). exists u'. destruct (find (full_match d) ps) as [[b q]|]; [|done].
    destruct H as (ps1 & ps2 & H1 & H2). exists (a :: ps1), ps2. rewrite <- app_assoc in H2. split; [by rewrite <- H1|exact H2].
Qed.

(** The first block that matches fully takes the datagram, or else the first
    unconnected one that matches locally; the list is only reordered. *)
Lemma lookup_pcb_spec (u : udpw) (d : datagram) : udp_ok u -> exists (ps : list (Z * udp_pcb)) (l : list Z), pcbs_of u (udp_pcbs u) = Ok ps /\ map fst ps = udp_pcbs u /\ l ≡ₚ udp_pcbs u /\
  (forall ap, ap ∈ ps -> pcb_at u !! ap.1 = Some ap.2) /\
  lookup_pcb u d = Ok (match find (full_match d) ps with Some ap => Some ap.1 | None => fst <$> find (half_match d) ps end, set_pcbs u l).
Proof.
  intros H. destruct (pcbs_of_ok u _ (uo_list _ H)) as (ps & E1 & E2 & E3).
  destruct (match_loop_spec d ps [] None) as (u' & Hm). unfold lookup_pcb. rewrite E1. cbn [obind].
  assert (Hs : set_pcbs u (udp_pcbs u) = u) by by destruct u.
  destruct (find (full_match d) ps) as [[a p]|] eqn:Ef.
  - destruct Hm as (ps1 & ps2 & H1 & ->). exists ps. cbn [fst app]. destruct ps1 as [|b ps1].
    + exists (udp_pcbs u). split_and!; try done; [intros ap Hap; by apply E3|]. by rewrite Ef, Hs.
    + exists (a :: (b :: ps1) ++ ps2). split_and!; try done; [|intros ap Hap; by apply E3|by rewrite Ef]. rewrite <- E2, <- H1. solve_perm.
  - exists ps, (udp_pcbs u). rewrite Hm. split_and!; try done; [intros ap Hap; by apply E3|]. by rewrite Ef, Hs.
Qed.

Lemma udp_ok_perm u l : udp_ok u -> l ≡ₚ udp_pcbs u -> udp_ok (set_pcbs u l).
Proof. intros [H1 H2 H3 H4 H5] Hp. split; cbn; try done; by rewrite Hp. Qed.

(** A block that alone matches locally. *)
Lemma lookup_only (u : udpw) (d : datagram) (a : Z) p : udp_ok u -> a ∈ udp_pcbs u -> pcb_at u !! a = Some p -> local_match d p = true ->
  (connected p = true -> remote_match d p = true) ->
  (forall b q, b ∈ udp_pcbs u -> pcb_at u !! b = Some q -> local_match d q = true -> b = a) -> exists l : list Z, l ≡ₚ udp_pcbs u /\
  lookup_pcb u d = Ok (Some a, set_pcbs u l).
Proof.
  intros H Ha Hp Hl Hr Hone. destruct (lookup_pcb_spec u d H) as (ps & l & _ & E2 & El & E3 & ->). exists l. split; [done|]. do 2 f_equal.
  assert (Hin : (a, p) ∈ ps).
  { rewrite <- E2 in Ha. apply list_elem_of_In, in_map_iff in Ha as ([a' q] & <- & Hq%list_elem_of_In). cbn in *. pose proof (E3 _ Hq) as Hq'. cbn in Hq'. congruence. }
  assert (K : forall f, (forall ap, f ap = true -> local_match d ap.2 = true) -> forall ap, find f ps = Some ap -> ap.1 = a).
  { intros f Hf [b q] [Hb Hfb]%find_some. apply list_elem_of_In in Hb. apply (Hone b q); [|by apply (E3 _ Hb)|by apply (Hf (b, q))].
    rewrite <- E2. apply list_elem_of_In, in_map_iff. exists (b, q). by rewrite <- list_elem_of_In. }
  assert (Hnone : forall f, find f ps = None -> f (a, p) = false) by (intros f Hf; eapply find_none; [done|by apply list_elem_of_In]).
  destruct (find (full_match d) ps) as [ap|] eqn:E; [f_equal; apply (K _ ltac:(intros x [? _]%andb_prop; done) _ E)|].
  apply Hnone in E. unfold full_match in E. cbn in E. rewrite Hl in E. cbn in E.
  destruct (find (half_match d) ps) as [ap|] eqn:E'; [cbn; f_equal; apply (K _ ltac:(intros x [? _]%andb_prop; done) _ E')|].
  apply Hnone in E'. unfold half_match in E'. cbn in E'. rewrite Hl in E'. destruct (connected p); [|done]. by rewrite Hr in E.
Qed.
