(* ===== verification/DhcpMsg.v ===== *)
(** * DHCP messages: the options of src/Utilities/lwip_v1.3.2/src/core/dhcp.c

    How dhcp_parse_reply finds the options in a message that is spread over a
    chain of pbufs, and how dhcp_option and its companions write them. A pbuf
    is the list of its bytes. The configuration is that of
    working/inc/lwipopts.h: two DNS servers at most, no host name, no boot
    file. *)

From S2P Require Import Prelude IpAddr Checksum Pbuf Etharp.

(** ** dhcp.h, dhcp.c *)

Definition DNS_MAX_SERVERS : Z := 2.
Definition DHCP_OPTION_IDX_OVERLOAD : Z := 0.
Definition DHCP_OPTION_IDX_MSG_TYPE : Z := 1.
Definition DHCP_OPTION_IDX_SERVER_ID : Z := 2.
Definition DHCP_OPTION_IDX_LEASE_TIME : Z := 3.
Definition DHCP_OPTION_IDX_T1 : Z := 4.
Definition DHCP_OPTION_IDX_T2 : Z := 5.
Definition DHCP_OPTION_IDX_SUBNET_MASK : Z := 6.
Definition DHCP_OPTION_IDX_ROUTER : Z := 7.
Definition DHCP_OPTION_IDX_DNS_SERVER : Z := 8.
Definition DHCP_OPTION_IDX_MAX : Z := DHCP_OPTION_IDX_DNS_SERVER + DNS_MAX_SERVERS.

Definition DHCP_CHADDR_LEN : Z := 16.
Definition DHCP_SNAME_LEN : Z := 64.
Definition DHCP_FILE_LEN : Z := 128.
Definition DHCP_MIN_OPTIONS_LEN : Z := 68.
Definition DHCP_OPTIONS_LEN : Z := DHCP_MIN_OPTIONS_LEN.
Definition DHCP_XID_OFS : Z := 4.
Definition DHCP_YIADDR_OFS : Z := 16.
Definition DHCP_CHADDR_OFS : Z := 28.
Definition DHCP_SNAME_OFS : Z := 44.
Definition DHCP_FILE_OFS : Z := 108.
Definition DHCP_MSG_LEN : Z := 236.
Definition DHCP_OPTIONS_OFS : Z := DHCP_MSG_LEN + 4.

Definition DHCP_OPTION_PAD : Z := 0.
Definition DHCP_OPTION_SUBNET_MASK : Z := 1.
Definition DHCP_OPTION_ROUTER : Z := 3.
Definition DHCP_OPTION_DNS_SERVER : Z := 6.
Definition DHCP_OPTION_BROADCAST : Z := 28.
Definition DHCP_OPTION_REQUESTED_IP : Z := 50.
Definition DHCP_OPTION_LEASE_TIME : Z := 51.
Definition DHCP_OPTION_OVERLOAD : Z := 52.
Definition DHCP_OPTION_MESSAGE_TYPE : Z := 53.
Definition DHCP_OPTION_SERVER_ID : Z := 54.
Definition DHCP_OPTION_PARAMETER_REQUEST_LIST : Z := 55.
Definition DHCP_OPTION_MAX_MSG_SIZE : Z := 57.
Definition DHCP_OPTION_T1 : Z := 58.
Definition DHCP_OPTION_T2 : Z := 59.
Definition DHCP_OPTION_END : Z := 255.

Definition DHCP_OVERLOAD_FILE : Z := 1.
Definition DHCP_OVERLOAD_SNAME : Z := 2.
Definition DHCP_OVERLOAD_SNAME_FILE : Z := 3.

(** ** Received options: dhcp_rx_options_val, dhcp_rx_options_given *)

Record rx_options : Type := RxOptions { options_val : list Z; options_given : list bool }.

Definition dhcp_option_given (r : rx_options) (idx : Z) : bool := nth (Z.to_nat idx) (options_given r) false.
Definition dhcp_get_option_value (r : rx_options) (idx : Z) : Z := nth (Z.to_nat idx) (options_val r) 0.
Definition dhcp_got_option (r : rx_options) (idx : Z) : rx_options :=
  RxOptions (options_val r) (<[Z.to_nat idx := true]> (options_given r)).
Definition dhcp_clear_option (r : rx_options) (idx : Z) : rx_options :=
  RxOptions (options_val r) (<[Z.to_nat idx := false]> (options_given r)).
Definition dhcp_clear_all_options (r : rx_options) : rx_options :=
  RxOptions (options_val r) (replicate (Z.to_nat DHCP_OPTION_IDX_MAX) false).
Definition dhcp_set_option_value (r : rx_options) (idx val : Z) : rx_options :=
  RxOptions (<[Z.to_nat idx := val]> (options_val r)) (options_given r).

(** ** dhcp_parse_reply *)

Definition chain := list (list Z).
Definition chain_len (p : chain) : Z := zlen (concat p).

(** pbuf_copy_partial into the four bytes of a u32_t. *)
Definition copy_value (q : chain) (value : list Z) (len offset : Z) : list Z :=
  let bs := take (Z.to_nat len) (drop (Z.to_nat offset) (concat q)) in
  bs ++ drop (length bs) value.

Definition word_of (value : list Z) : Z :=
  nth 0 value 0 + 2 ^ 8 * nth 1 value 0 + 2 ^ 16 * nth 2 value 0 + 2 ^ 24 * nth 3 value 0.

(** The switch: the length, the length to decode and the index, or the
    return of ERR_VAL. *)
Definition option_case (op len : Z) : option (Z * Z * Z) :=
  let exact (n idx : Z) := if len =? n then Some (len, len, idx) else None in
  if op =? DHCP_OPTION_PAD then Some (0, 0, -1)
  else if op =? DHCP_OPTION_SUBNET_MASK then exact 4 DHCP_OPTION_IDX_SUBNET_MASK
  else if op =? DHCP_OPTION_ROUTER then if 4 <=? len then Some (len, 4, DHCP_OPTION_IDX_ROUTER) else None
  else if op =? DHCP_OPTION_DNS_SERVER then
    if len mod 4 =? 0 then
      let decode_len := Z.min len (4 * DNS_MAX_SERVERS) in
      if decode_len <=? len then Some (len, decode_len, DHCP_OPTION_IDX_DNS_SERVER) else None
    else None
  else if op =? DHCP_OPTION_LEASE_TIME then exact 4 DHCP_OPTION_IDX_LEASE_TIME
  else if op =? DHCP_OPTION_OVERLOAD then exact 1 DHCP_OPTION_IDX_OVERLOAD
  else if op =? DHCP_OPTION_MESSAGE_TYPE then exact 1 DHCP_OPTION_IDX_MSG_TYPE
  else if op =? DHCP_OPTION_SERVER_ID then exact 4 DHCP_OPTION_IDX_SERVER_ID
  else if op =? DHCP_OPTION_T1 then exact 4 DHCP_OPTION_IDX_T1
  else if op =? DHCP_OPTION_T2 then exact 4 DHCP_OPTION_IDX_T2
  else Some (len, 0, -1).

(** From the label decode_next. *)
Fixpoint decode_next (fuel : nat) (q : chain) (r : rx_options) (value : list Z) (val_offset decode_len decode_idx : Z) : outcome (Z * rx_options) :=
  match fuel with
  | O => NoFuel
  | S fuel =>
      let! _ := guard_ub ((0 <=? decode_idx) && (decode_idx <? DHCP_OPTION_IDX_MAX)) in
      if dhcp_option_given r decode_idx then Ok (ERR_OK, r)
      else
        let value := copy_value q value (Z.min decode_len 4) val_offset in
        if 4 <? decode_len then
          if negb (decode_len mod 4 =? 0) then Ok (ERR_VAL, r)
          else
            let r := dhcp_set_option_value (dhcp_got_option r decode_idx) decode_idx (lwip_htonl (word_of value)) in
            decode_next fuel q r value (u16 (val_offset + 4)) (u8 (decode_len - 4)) (decode_idx + 1)
        else if decode_len =? 4 then
          Ok (ERR_OK, dhcp_set_option_value (dhcp_got_option r decode_idx) decode_idx (lwip_ntohl (word_of value)))
        else if decode_len =? 1 then
          Ok (ERR_OK, dhcp_set_option_value (dhcp_got_option r decode_idx) decode_idx (nth 0 value 0))
        else Ok (ERR_VAL, r)
  end.

(** The byte behind the code of an option. *)
Definition option_len (q : chain) (offset : Z) : outcome Z :=
  match q with
  | [] => UB
  | options :: next =>
      if offset + 1 <? zlen options then rd options (offset + 1)
      else match next with b :: _ => rd b 0 | [] => Ok 0 end
  end.

(** The loop over the options, in the pbuf at the head of [q]. *)
Fixpoint options_loop (fuel : nat) (q : chain) (offset offset_max : Z) (r : rx_options) : outcome (Z * rx_options) :=
  match fuel, q with
  | O, _ => NoFuel
  | _, [] => Ok (ERR_OK, r)
  | S fuel, options :: next =>
      let! op := rd options offset in
      if (op =? DHCP_OPTION_END) || negb (offset <? offset_max) then Ok (ERR_OK, r)
      else
        let val_offset := u16 (offset + 2) in
        let! len := option_len q offset in
        match option_case op len with
        | None => Ok (ERR_VAL, r)
        | Some (len, decode_len, decode_idx) =>
            let offset := if op =? DHCP_OPTION_PAD then u16 (offset - 1) else offset in
            let offset := u16 (offset + len + 2) in
            let! (e, r) :=
              if 0 <? decode_len then decode_next 64 q r [0; 0; 0; 0] val_offset decode_len decode_idx else Ok (ERR_OK, r) in
            if negb (e =? ERR_OK) then Ok (e, r)
            else if zlen options <=? offset then
              let offset := u16 (offset - zlen options) in
              let offset_max := u16 (offset_max - zlen options) in
              if (offset <? offset_max) && negb (offset_max =? 0) then
                match next with [] => UB | _ => options_loop fuel next offset offset_max r end
              else Ok (ERR_OK, r)
            else options_loop fuel q offset offset_max r
        end
  end.

(** The loop behind the label again, that looks for the pbuf. *)
Fixpoint seek (q : chain) (options_idx options_idx_max : Z) : option (chain * Z * Z) :=
  match q with
  | [] => None
  | b :: next =>
      if zlen b <=? options_idx then seek next (u16 (options_idx - zlen b)) (u16 (options_idx_max - zlen b))
      else Some (q, options_idx, options_idx_max)
  end.

Definition parse_pass (p : chain) (options_idx options_idx_max : Z) (r : rx_options) : outcome (Z * rx_options) :=
  match seek p options_idx options_idx_max with
  | None => Ok (ERR_BUF, r)
  | Some (q, offset, offset_max) => options_loop (S (Z.to_nat (chain_len p))) q offset offset_max r
  end.

(** The flags parse_file_as_options and parse_sname_as_options after a pass. *)
Definition overloaded (file sname : bool) (r : rx_options) : bool * bool * rx_options :=
  if dhcp_option_given r DHCP_OPTION_IDX_OVERLOAD then
    let overload := dhcp_get_option_value r DHCP_OPTION_IDX_OVERLOAD in
    let r := dhcp_clear_option r DHCP_OPTION_IDX_OVERLOAD in
    if overload =? DHCP_OVERLOAD_FILE then (true, sname, r)
    else if overload =? DHCP_OVERLOAD_SNAME then (file, true, r)
    else if overload =? DHCP_OVERLOAD_SNAME_FILE then (true, true, r)
    else (file, sname, r)
  else (file, sname, r).

(** From the label again; [fuel] bounds the jumps to it. *)
Fixpoint parse_again (fuel : nat) (p : chain) (options_idx options_idx_max : Z) (file sname : bool) (r : rx_options) : outcome (Z * rx_options) :=
  match fuel with
  | O => NoFuel
  | S fuel =>
      let! (e, r) := parse_pass p options_idx options_idx_max r in
      if negb (e =? ERR_OK) then Ok (e, r)
      else
        let '(file, sname, r) := overloaded file sname r in
        if file then parse_again fuel p DHCP_FILE_OFS (DHCP_FILE_OFS + DHCP_FILE_LEN) false sname r
        else if sname then parse_again fuel p DHCP_SNAME_OFS (DHCP_SNAME_OFS + DHCP_SNAME_LEN) file false r
        else Ok (ERR_OK, r)
  end.

(** dhcp_parse_reply, but for the assignment of msg_in. *)
Definition parse_reply (fuel : nat) (p : chain) (r : rx_options) : outcome (Z * rx_options) :=
  let r := dhcp_clear_all_options r in
  match p with
  | [] => UB
  | b :: _ =>
      if zlen b <? DHCP_SNAME_OFS then Ok (ERR_BUF, r)
      else parse_again fuel p DHCP_OPTIONS_OFS (u16 (chain_len p)) false false r
  end.

(** ** Theory: positions in a chain *)

(** What the driver delivers: no empty pbuf, pbufs of at least 257 bytes (the
    longest option) but for the last, no more than an Ethernet frame. *)
Record shaped (p : chain) : Prop := Shaped {
  sh_pbufs : forall pre b next, p = pre ++ b :: next -> b <> [] /\ (next <> [] -> 257 <= zlen b);
  sh_some : p <> [];
  sh_len : chain_len p <= 2 ^ 15;
  sh_bytes : Forall (fun x => 0 <= x < 256) (concat p);
}.

Lemma chain_len_app p1 p2 : chain_len (p1 ++ p2) = chain_len p1 + chain_len p2.
Proof. unfold chain_len. by rewrite concat_app, zlen_app. Qed.

Lemma chain_len_cons b p : chain_len (b :: p) = zlen b + chain_len p.
Proof. unfold chain_len. cbn [concat]. by rewrite zlen_app. Qed.

Lemma chain_len_nonneg p : 0 <= chain_len p.
Proof. apply zlen_nonneg. Qed.

(** [offset] in the pbuf at the head of [q] is the byte [pos] of [p]; the same
    for [omax] and [mx]. *)
Record located (p q : chain) (offset omax pos mx : Z) : Prop := Located {
  lo_pre : exists pre b next, q = b :: next /\ p = pre ++ q /\ offset = pos - chain_len pre /\ omax = mx - chain_len pre /\
    0 <= offset < zlen b /\ 0 <= omax;
  lo_mx : mx = chain_len p \/ (q = p /\ mx <= zlen (hd [] p));
}.

Lemma located_byte p q b next offset omax pos mx x : located p q offset omax pos mx -> q = b :: next ->
  concat p !! Z.to_nat pos = Some x -> rd b offset = Ok x.
Proof.
  intros [(pre & b' & next' & E & -> & E1 & _ & Ho & _) _] -> Hx. injection E as <- <-. apply rd_lookup; [lia|].
  rewrite concat_app in Hx. pose proof (chain_len_nonneg pre). unfold chain_len, zlen in *.
  rewrite lookup_app_r in Hx by lia. cbn [concat] in Hx. rewrite lookup_app_l in Hx by lia. rewrite <- Hx. f_equal. lia.
Qed.

Lemma located_drop p q offset omax pos mx k : located p q offset omax pos mx -> 0 <= k ->
  drop (Z.to_nat (offset + k)) (concat q) = drop (Z.to_nat (pos + k)) (concat p).
Proof.
  intros [(pre & b & next & E & -> & E1 & _ & Ho & _) _] Hk. rewrite concat_app. pose proof (chain_len_nonneg pre). unfold chain_len, zlen in *.
  rewrite drop_app_ge by lia. f_equal. lia.
Qed.

Lemma located_range p q offset omax pos mx : shaped p -> located p q offset omax pos mx ->
  0 <= pos < chain_len p /\ 0 <= offset <= pos /\ 0 <= omax <= mx /\ mx <= chain_len p.
Proof.
  intros Hp [(pre & b & next & E & Ep & E1 & E2 & Ho & Hm) M]. pose proof (chain_len_nonneg pre). pose proof (chain_len_nonneg next).
  assert (Et : chain_len p = chain_len pre + zlen b + chain_len next) by (rewrite Ep, E, chain_len_app, chain_len_cons; lia).
  assert (mx <= chain_len p); [|split_and!; lia]. destruct M as [->|[-> Hmx]]; [lia|].
  rewrite E in Hmx. cbn [hd] in Hmx. lia.
Qed.

Lemma option_len_at p q offset omax pos mx : shaped p -> located p q offset omax pos mx ->
  option_len q offset = Ok (nth (Z.to_nat (pos + 1)) (concat p) 0).
Proof.
  intros Hp [(pre & b & next & -> & Ep & E1 & _ & Ho & _) _]. unfold option_len. pose proof (chain_len_nonneg pre).
  assert (Hn : forall l2, nth (Z.to_nat (pos + 1)) (concat pre ++ l2) 0 = nth (Z.to_nat (offset + 1)) l2 0).
  { intros l2. unfold chain_len, zlen in *. rewrite app_nth2 by lia. f_equal. lia. }
  rewrite Ep, concat_app, Hn. cbn [concat]. destruct (Z.ltb_spec (offset + 1) (zlen b)) as [L|L]; unfold zlen in *.
  - rewrite app_nth1 by lia. apply rd_lookup; [lia|].
    destruct (lookup_lt_is_Some_2 b (Z.to_nat (offset + 1))) as [x Hx]; [lia|]. by rewrite (nth_lookup_Some _ _ 0 _ Hx).
  - rewrite app_nth2 by lia. replace (Z.to_nat (offset + 1) - length b)%nat with 0%nat by lia.
    destruct next as [|b2 next]; [done|]. destruct (sh_pbufs _ Hp (pre ++ [b]) b2 next) as [Hb2 _]; [by rewrite Ep, <- app_assoc|].
    by destruct b2.
Qed.

(** The way to the next option: what the loop does with its position behind
    an option that ends at [pos']. *)
Lemma advance p q offset omax pos mx pos' b next : shaped p -> located p q offset omax pos mx -> q = b :: next ->
  pos < pos' <= pos + 257 -> pos' < mx -> exists q' o' m', located p q' o' m' pos' mx /\
  forall fuel r,
    (if zlen b <=? offset + (pos' - pos) then
       if (u16 (offset + (pos' - pos) - zlen b) <? u16 (omax - zlen b)) && negb (u16 (omax - zlen b) =? 0) then
         match next with [] => UB | _ => options_loop fuel next (u16 (offset + (pos' - pos) - zlen b)) (u16 (omax - zlen b)) r end
       else Ok (ERR_OK, r)
     else options_loop fuel q (offset + (pos' - pos)) omax r) = options_loop fuel q' o' m' r.
Proof.
  intros Hp L Eq Hpos Hmx. pose proof (located_range _ _ _ _ _ _ Hp L) as (R1 & R2 & R3 & R4). pose proof (sh_len _ Hp) as R5.
  destruct L as [(pre & b' & next' & E & Ep & E1 & E2 & Ho & Hm) M]. rewrite Eq in E. injection E as <- <-. subst q.
  destruct (Z.leb_spec (zlen b) (offset + (pos' - pos))) as [Hc|Hc].
  - assert (mx = chain_len p) as Emx. { destruct M as [->|[<- M]]; [done|]. cbn [hd] in M. destruct pre; [|apply (f_equal length) in Ep; rewrite length_app in Ep; cbn in Ep; lia]. unfold chain_len in E1. cbn in E1. lia. }
    pose proof (chain_len_nonneg pre). pose proof (chain_len_nonneg next).
    assert (Et : chain_len p = chain_len pre + zlen b + chain_len next) by (rewrite Ep, chain_len_app, chain_len_cons; lia).
    rewrite !u16_small by lia. destruct (Z.ltb_spec (offset + (pos' - pos) - zlen b) (omax - zlen b)); [|lia].
    destruct (Z.eqb_spec (omax - zlen b) 0); [lia|]. cbn [negb andb].
    destruct next as [|b2 next]; [change (chain_len []) with 0 in Et; lia|]. exists (b2 :: next), (offset + (pos' - pos) - zlen b), (omax - zlen b). split; [|done].
    split; [|by left]. exists (pre ++ [b]), b2, next. rewrite chain_len_app, <- app_assoc. change (chain_len [b]) with (zlen (b ++ [])). rewrite app_nil_r.
    split_and!; try done; try lia.
    assert (Hn : next <> [] \/ next = []) by (destruct next; auto). destruct Hn as [Hn| ->].
    + destruct (sh_pbufs _ Hp (pre ++ [b]) b2 next) as [_ Hb2]; [by rewrite Ep, <- app_assoc|]. specialize (Hb2 Hn).
      destruct (sh_pbufs _ Hp pre b (b2 :: next)) as [_ Hb]; [done|]. lia.
    + rewrite chain_len_cons in Et. change (chain_len []) with 0 in Et. lia.
  - exists (b :: next), (offset + (pos' - pos)), omax. split; [|done]. split; [|done]. exists pre, b, next. split_and!; try done; lia.
Qed.

(** Behind the last byte the loop ends. *)
Lemma advance_end p q offset omax pos pos' b next : shaped p -> located p q offset omax pos (chain_len p) -> q = b :: next ->
  pos < pos' <= pos + 257 -> chain_len p <= pos' -> forall fuel r,
    (if zlen b <=? offset + (pos' - pos) then
       if (u16 (offset + (pos' - pos) - zlen b) <? u16 (omax - zlen b)) && negb (u16 (omax - zlen b) =? 0) then
         match next with [] => UB | _ => options_loop fuel next (u16 (offset + (pos' - pos) - zlen b)) (u16 (omax - zlen b)) r end
       else Ok (ERR_OK, r)
     else options_loop fuel q (offset + (pos' - pos)) omax r) = Ok (ERR_OK, r).
Proof.
  intros Hp L Eq Hpos Hmx fuel r. pose proof (located_range _ _ _ _ _ _ Hp L) as (R1 & R2 & R3 & R4). pose proof (sh_len _ Hp) as R5.
  destruct L as [(pre & b' & next' & E & Ep & E1 & E2 & Ho & Hm) _]. rewrite Eq in E. injection E as <- <-. subst q.
  pose proof (chain_len_nonneg pre). pose proof (chain_len_nonneg next).
  assert (Et : chain_len p = chain_len pre + zlen b + chain_len next) by (rewrite Ep, chain_len_app, chain_len_cons; lia).
  destruct (Z.leb_spec (zlen b) (offset + (pos' - pos))); [|lia]. rewrite !u16_small by lia.
  destruct (Z.ltb_spec (offset + (pos' - pos) - zlen b) (omax - zlen b)); [lia|done].
Qed.

(** ** Theory: values *)

Definition be_of (v : list Z) : Z := be32 (nth 0 v 0) (nth 1 v 0) (nth 2 v 0) (nth 3 v 0).

(** The values an option carries, by index. *)
Definition entries (c : Z) (v : list Z) : list (Z * Z) :=
  if c =? DHCP_OPTION_SUBNET_MASK then [(DHCP_OPTION_IDX_SUBNET_MASK, be_of v)]
  else if c =? DHCP_OPTION_ROUTER then [(DHCP_OPTION_IDX_ROUTER, be_of v)]
  else if c =? DHCP_OPTION_DNS_SERVER then
    if zlen v =? 0 then [] else
    (DHCP_OPTION_IDX_DNS_SERVER, be_of v) :: (if 8 <=? zlen v then [(DHCP_OPTION_IDX_DNS_SERVER + 1, be_of (drop 4 v))] else [])
  else if c =? DHCP_OPTION_LEASE_TIME then [(DHCP_OPTION_IDX_LEASE_TIME, be_of v)]
  else if c =? DHCP_OPTION_OVERLOAD then [(DHCP_OPTION_IDX_OVERLOAD, nth 0 v 0)]
  else if c =? DHCP_OPTION_MESSAGE_TYPE then [(DHCP_OPTION_IDX_MSG_TYPE, nth 0 v 0)]
  else if c =? DHCP_OPTION_SERVER_ID then [(DHCP_OPTION_IDX_SERVER_ID, be_of v)]
  else if c =? DHCP_OPTION_T1 then [(DHCP_OPTION_IDX_T1, be_of v)]
  else if c =? DHCP_OPTION_T2 then [(DHCP_OPTION_IDX_T2, be_of v)]
  else [].

Definition known (r : rx_options) (idx v : Z) : rx_options := dhcp_set_option_value (dhcp_got_option r idx) idx v.

(** The first value for an index counts. *)
Fixpoint learn (r : rx_options) (es : list (Z * Z)) : rx_options :=
  match es with
  | [] => r
  | (idx, v) :: es => if dhcp_option_given r idx then r else learn (known r idx v) es
  end.

Lemma decode_next_eq fuel q r value off dl idx : decode_next (S fuel) q r value off dl idx =
  let! _ := guard_ub ((0 <=? idx) && (idx <? DHCP_OPTION_IDX_MAX)) in
  if dhcp_option_given r idx then Ok (ERR_OK, r)
  else
    let value := copy_value q value (Z.min dl 4) off in
    if 4 <? dl then
      if negb (dl mod 4 =? 0) then Ok (ERR_VAL, r)
      else decode_next fuel q (known r idx (lwip_htonl (word_of value))) value (u16 (off + 4)) (u8 (dl - 4)) (idx + 1)
    else if dl =? 4 then Ok (ERR_OK, known r idx (lwip_ntohl (word_of value)))
    else if dl =? 1 then Ok (ERR_OK, known r idx (nth 0 value 0))
    else Ok (ERR_VAL, r).
Proof. done. Qed.

Lemma be_of_range v : Forall (fun x => 0 <= x < 256) v -> 0 <= be_of v < 2 ^ 32.
Proof.
  intros Hv. assert (H : forall i, 0 <= nth i v 0 < 256).
  { intros i. destruct (nth_lookup_or_length v i 0) as [E|E]; [|by rewrite nth_overflow]. rewrite list.Forall_lookup in Hv. by apply (Hv i). }
  apply be32_range; apply H.
Qed.

Lemma word_of_be a b c d : 0 <= a < 256 -> 0 <= b < 256 -> 0 <= c < 256 -> 0 <= d < 256 -> lwip_htonl (word_of [a; b; c; d]) = be32 a b c d.
Proof.
  intros Ha Hb Hc Hd. assert (E : word_of [a; b; c; d] = be32 d c b a) by (unfold word_of, be32; cbn [nth]; lia). rewrite E.
  rewrite htonl_val by by apply be32_range. pose proof (be32_bytes d c b a Hd Hc Hb Ha) as B. unfold word_bytes in B. injection B as -> -> -> ->. done.
Qed.

Lemma copy_value_eq q value n off bs rest : drop (Z.to_nat off) (concat q) = bs ++ rest -> zlen bs = n ->
  copy_value q value n off = bs ++ drop (length bs) value.
Proof. intros E Hn. unfold copy_value. rewrite E, take_app_le, take_ge by (unfold zlen in *; lia). done. Qed.

Lemma decode_word fuel q r value off idx v rest : drop (Z.to_nat off) (concat q) = v ++ rest -> length v = 4%nat ->
  length value = 4%nat -> Forall (fun x => 0 <= x < 256) v -> 0 <= idx < DHCP_OPTION_IDX_MAX ->
  decode_next (S fuel) q r value off 4 idx = Ok (ERR_OK, learn r [(idx, be_of v)]).
Proof.
  intros E Hv Hl Hb Hi. rewrite decode_next_eq. destruct (Z.leb_spec 0 idx), (Z.ltb_spec idx DHCP_OPTION_IDX_MAX); try lia. cbn [andb guard_ub obind learn].
  destruct (dhcp_option_given r idx); [done|]. change (Z.min 4 4) with 4. rewrite (copy_value_eq q value 4 off v rest) by (done || by unfold zlen; rewrite Hv).
  rewrite drop_ge, app_nil_r by lia. cbn zeta. change (4 <? 4) with false. change (4 =? 4) with true. cbn match. repeat f_equal.
  destruct v as [|a [|b [|c [|d []]]]]; try done. decompose_Forall_hyps. by apply word_of_be.
Qed.

Lemma decode_byte fuel q r value off idx x rest : drop (Z.to_nat off) (concat q) = x :: rest -> 0 <= idx < DHCP_OPTION_IDX_MAX ->
  decode_next (S fuel) q r value off 1 idx = Ok (ERR_OK, learn r [(idx, x)]).
Proof.
  intros E Hi. rewrite decode_next_eq. destruct (Z.leb_spec 0 idx), (Z.ltb_spec idx DHCP_OPTION_IDX_MAX); try lia. cbn [andb guard_ub obind learn].
  destruct (dhcp_option_given r idx); [done|]. change (Z.min 1 4) with 1. by rewrite (copy_value_eq q value 1 off [x] rest).
Qed.

Lemma decode_two fuel q r value off idx v w rest : drop (Z.to_nat off) (concat q) = v ++ w ++ rest -> length v = 4%nat -> length w = 4%nat ->
  length value = 4%nat -> Forall (fun x => 0 <= x < 256) v -> Forall (fun x => 0 <= x < 256) w -> 0 <= idx -> idx + 1 < DHCP_OPTION_IDX_MAX -> 0 <= off < 2 ^ 15 + 2 ->
  decode_next (S (S fuel)) q r value off 8 idx = Ok (ERR_OK, learn r [(idx, be_of v); (idx + 1, be_of w)]).
Proof.
  intros E Hv Hw Hl Hbv Hbw Hi Hi' Ho. rewrite decode_next_eq. destruct (Z.leb_spec 0 idx), (Z.ltb_spec idx DHCP_OPTION_IDX_MAX); try lia. cbn [andb guard_ub obind].
  change (learn r [(idx, be_of v); (idx + 1, be_of w)]) with (if dhcp_option_given r idx then r else learn (known r idx (be_of v)) [(idx + 1, be_of w)]).
  destruct (dhcp_option_given r idx); [done|]. change (Z.min 8 4) with 4. rewrite (copy_value_eq q value 4 off v (w ++ rest)) by (done || by unfold zlen; rewrite Hv).
  rewrite drop_ge, app_nil_r by lia. cbn zeta. change (4 <? 8) with true. change (negb (8 mod 4 =? 0)) with false. change (u8 (8 - 4)) with 4. cbn match.
  rewrite u16_small by lia. rewrite (decode_word fuel q _ v (off + 4) (idx + 1) w rest); try done; [|..|lia].
  - repeat f_equal. destruct v as [|a [|b [|c [|d []]]]]; try done. decompose_Forall_hyps. by apply word_of_be.
  - rewrite Z2Nat.inj_add, <- drop_drop, E by lia. change (Z.to_nat 4) with 4%nat. rewrite <- Hv. by rewrite drop_app_length.
Qed.

(** What the switch and the decoder make of an option. *)
Lemma decode_option q r c v rest off len dl idx : drop (Z.to_nat off) (concat q) = v ++ rest -> Forall (fun x => 0 <= x < 256) v ->
  0 <= off < 2 ^ 15 + 2 -> c <> DHCP_OPTION_PAD -> option_case c (zlen v) = Some (len, dl, idx) ->
  len = zlen v /\ (if 0 <? dl then decode_next 64 q r [0; 0; 0; 0] off dl idx else Ok (ERR_OK, r)) = Ok (ERR_OK, learn r (entries c v)).
Proof.
  intros E Hb Ho Hc. unfold option_case, entries. destruct (Z.eqb_spec c DHCP_OPTION_PAD); [done|].
  assert (E4 : forall i, (if zlen v =? 4 then Some (zlen v, zlen v, i) else None) = Some (len, dl, idx) -> 0 <= i < DHCP_OPTION_IDX_MAX ->
    len = zlen v /\ (if 0 <? dl then decode_next 64 q r [0; 0; 0; 0] off dl idx else Ok (ERR_OK, r)) = Ok (ERR_OK, learn r [(i, be_of v)])).
  { intros i. destruct (Z.eqb_spec (zlen v) 4) as [E4|]; [|done]. intros [= <- <- <-] Hi. rewrite E4. split; [done|].
    change (0 <? 4) with true. cbn match. eapply decode_word; try done. unfold zlen in E4. lia. }
  assert (E1 : forall i, (if zlen v =? 1 then Some (zlen v, zlen v, i) else None) = Some (len, dl, idx) -> 0 <= i < DHCP_OPTION_IDX_MAX ->
    len = zlen v /\ (if 0 <? dl then decode_next 64 q r [0; 0; 0; 0] off dl idx else Ok (ERR_OK, r)) = Ok (ERR_OK, learn r [(i, nth 0 v 0)])).
  { intros i. destruct (Z.eqb_spec (zlen v) 1) as [E1|]; [|done]. intros [= <- <- <-] Hi. rewrite E1. split; [done|].
    change (0 <? 1) with true. cbn match. destruct v as [|x [|]]; [done| |unfold zlen in E1; cbn in E1; lia]. by eapply decode_byte. }
  destruct (c =? DHCP_OPTION_SUBNET_MASK); [intros H; by apply E4|].
  destruct (c =? DHCP_OPTION_ROUTER).
  { destruct (Z.leb_spec 4 (zlen v)) as [L|]; [|done]. intros [= <- <- <-]. split; [done|]. change (0 <? 4) with true. cbn match.
    rewrite <- (take_drop 4 v) in E. rewrite <- app_assoc in E. assert (Hl4 : length (take 4 v) = 4%nat) by (rewrite length_take; unfold zlen in L; lia).
    rewrite (decode_word _ q r _ off _ (take 4 v) (drop 4 v ++ rest)); try done; [|by apply Forall_take].
    do 4 f_equal. unfold be_of. destruct v as [|a1 [|b1 [|c1 [|d1 v]]]]; done. }
  destruct (c =? DHCP_OPTION_DNS_SERVER).
  { change (4 * DNS_MAX_SERVERS) with 8. destruct (Z.eqb_spec (zlen v mod 4) 0) as [Em|]; [|done]. destruct (_ <=? _); [|done].
    intros [= <- <- <-]. split; [done|]. pose proof (zlen_nonneg v). destruct (Z.eqb_spec (zlen v) 0) as [E0|N0]; [by rewrite E0|].
    assert (4 <= zlen v) by (apply Z.mod_divide in Em as [k Ek]; lia).
    destruct (Z.leb_spec 8 (zlen v)) as [L|L].
    - rewrite Z.min_r by lia. change (0 <? 8) with true. cbn match.
      rewrite <- (take_drop 4 v), <- app_assoc, <- (take_drop 4 (drop 4 v)), <- app_assoc in E.
      rewrite (decode_two _ q r _ off _ (take 4 v) (take 4 (drop 4 v)) (drop 4 (drop 4 v) ++ rest)); try done;
        [|rewrite ?length_take, ?length_drop; unfold zlen in *; lia|rewrite ?length_take, ?length_drop; unfold zlen in *; lia|by apply Forall_take|by apply Forall_take, Forall_drop].
      do 4 f_equal. all: destruct v as [|a1 [|b1 [|c1 [|d1 [|a2 [|b2 [|c2 [|d2 v]]]]]]]]; done.
    - assert (zlen v = 4) as E4' by (apply Z.mod_divide in Em as [k Ek]; lia). rewrite E4'. change (0 <? Z.min 4 8) with true. cbn match.
      eapply decode_word; try done. unfold zlen in E4'. lia. }
  destruct (c =? DHCP_OPTION_LEASE_TIME); [intros H; by apply E4|].
  destruct (c =? DHCP_OPTION_OVERLOAD); [intros H; by apply E1|].
  destruct (c =? DHCP_OPTION_MESSAGE_TYPE); [intros H; by apply E1|].
  destruct (c =? DHCP_OPTION_SERVER_ID); [intros H; by apply E4|].
  destruct (c =? DHCP_OPTION_T1); [intros H; by apply E4|].
  destruct (c =? DHCP_OPTION_T2); [intros H; by apply E4|].
  by intros [= <- <- <-].
Qed.

(** ** Theory: the text of options *)

Inductive field : Type := Pad | Opt (c : Z) (v : list Z).

Definition encode_field (f : field) : list Z := match f with Pad => [DHCP_OPTION_PAD] | Opt c v => c :: zlen v :: v end.
Definition encode_all (fs : list field) : list Z := concat (map encode_field fs).

(** A field as RFC 2132 defines it, for the options the client knows. *)
Definition field_ok (f : field) : Prop :=
  match f with
  | Pad => True
  | Opt c v => 0 < c < DHCP_OPTION_END /\ zlen v < 256 /\ Forall (fun x => 0 <= x < 256) v /\ option_case c (zlen v) <> None
  end.

Definition learn_field (r : rx_options) (f : field) : rx_options := match f with Pad => r | Opt c v => learn r (entries c v) end.
Definition learn_all (r : rx_options) (fs : list field) : rx_options := fold_left learn_field fs r.

Lemma options_loop_eq fuel b next offset omax r : options_loop (S fuel) (b :: next) offset omax r =
  let! op := rd b offset in
  if (op =? DHCP_OPTION_END) || negb (offset <? omax) then Ok (ERR_OK, r)
  else
    let! len := option_len (b :: next) offset in
    match option_case op len with
    | None => Ok (ERR_VAL, r)
    | Some (len, dl, idx) =>
        let o' := u16 ((if op =? DHCP_OPTION_PAD then u16 (offset - 1) else offset) + len + 2) in
        let! (e, r) := if 0 <? dl then decode_next 64 (b :: next) r [0; 0; 0; 0] (u16 (offset + 2)) dl idx else Ok (ERR_OK, r) in
        if negb (e =? ERR_OK) then Ok (e, r)
        else if zlen b <=? o' then
          if (u16 (o' - zlen b) <? u16 (omax - zlen b)) && negb (u16 (omax - zlen b) =? 0) then
            match next with [] => UB | _ => options_loop fuel next (u16 (o' - zlen b)) (u16 (omax - zlen b)) r end
          else Ok (ERR_OK, r)
        else options_loop fuel (b :: next) o' omax r
    end.
Proof. done. Qed.

Lemma u16_pad offset : 0 <= offset < 2 ^ 15 -> u16 (u16 (offset - 1) + 0 + 2) = offset + 1.
Proof.
  intros Ho. unfold u16. rewrite Z.add_0_r, Zplus_mod_idemp_l. rewrite Z.mod_small; lia.
Qed.

(** One field. *)
Lemma loop_field fuel p q offset omax pos mx r f rest : shaped p -> located p q offset omax pos mx -> field_ok f ->
  drop (Z.to_nat pos) (concat p) = encode_field f ++ rest -> pos + zlen (encode_field f) < mx ->
  exists q' o' m', located p q' o' m' (pos + zlen (encode_field f)) mx /\
    options_loop (S fuel) q offset omax r = options_loop fuel q' o' m' (learn_field r f).
Proof.
  intros Hp L Hf E Hmx. pose proof (located_range _ _ _ _ _ _ Hp L) as (R1 & R2 & R3 & R4). pose proof (sh_len _ Hp) as R5.
  pose proof L as L'. destruct L' as [(pre & b & next & Eq & Ep & E1 & E2 & Ho & _) _]. subst q.
  assert (Hop : forall x y, encode_field f = x :: y -> rd b offset = Ok x).
  { intros x y Ex. eapply located_byte; [exact L|done|]. rewrite <- (Nat.add_0_r (Z.to_nat pos)), <- lookup_drop, E, Ex. done. }
  assert (Hlt : (offset <? omax) = true) by (apply Z.ltb_lt; pose proof (zlen_nonneg (encode_field f)); lia).
  rewrite options_loop_eq. destruct f as [|c v]; cbn [encode_field learn_field field_ok] in *.
  - rewrite (Hop DHCP_OPTION_PAD []) by done. cbn [obind]. rewrite Hlt. change (DHCP_OPTION_PAD =? DHCP_OPTION_END) with false. cbn [negb orb].
    rewrite (option_len_at _ _ _ _ _ _ Hp L). cbn [obind]. unfold option_case. change (DHCP_OPTION_PAD =? DHCP_OPTION_PAD) with true. cbn match zeta.
    change (0 <? 0) with false. cbn [obind]. change (negb (ERR_OK =? ERR_OK)) with false. cbn match. rewrite u16_pad by lia.
    destruct (advance _ _ _ _ _ _ (pos + 1) b next Hp L eq_refl ltac:(lia) ltac:(change (zlen [DHCP_OPTION_PAD]) with 1 in Hmx; lia)) as (q' & o' & m' & L2 & H).
    exists q', o', m'. split; [exact L2|]. specialize (H fuel r). replace (pos + 1 - pos) with 1 in H by lia. exact H.
  - destruct Hf as (Hc & Hv & Hb & Hk). rewrite (Hop c (zlen v :: v)) by done. cbn [obind]. rewrite Hlt. destruct (Z.eqb_spec c DHCP_OPTION_END); [lia|]. cbn [negb orb].
    assert (Hlen : nth (Z.to_nat (pos + 1)) (concat p) 0 = zlen v).
    { apply nth_lookup_Some. replace (Z.to_nat (pos + 1)) with (Z.to_nat pos + 1)%nat by lia. by rewrite <- lookup_drop, E. }
    rewrite (option_len_at _ _ _ _ _ _ Hp L), Hlen. cbn [obind]. destruct (option_case c (zlen v)) as [[[len dl] idx]|] eqn:Eo; [|done].
    rewrite (u16_small (offset + 2)) by lia.
    destruct (decode_option (b :: next) r c v rest (offset + 2) len dl idx) as [-> ->]; [|done|lia|intros ->; change DHCP_OPTION_PAD with 0 in Hc; lia|done|].
    { rewrite (located_drop _ _ _ _ _ _ 2 L) by lia. replace (Z.to_nat (pos + 2)) with (Z.to_nat pos + 2)%nat by lia. by rewrite <- drop_drop, E. }
    cbn [obind]. change (negb (ERR_OK =? ERR_OK)) with false. cbn match zeta. destruct (Z.eqb_spec c DHCP_OPTION_PAD) as [->|]; [change DHCP_OPTION_PAD with 0 in Hc; lia|].
    rewrite !zlen_cons in *. pose proof (zlen_nonneg v) as Hv0. rewrite (u16_small (offset + zlen v + 2)) by lia.
    destruct (advance _ _ _ _ _ _ (pos + (zlen v + 1 + 1)) b next Hp L eq_refl ltac:(lia) ltac:(lia)) as (q' & o' & m' & L2 & H).
    exists q', o', m'. split; [exact L2|]. specialize (H fuel (learn r (entries c v))).
    replace (offset + zlen v + 2) with (offset + (pos + (zlen v + 1 + 1) - pos)) by lia. exact H.
Qed.

(** Fields up to the end marker. *)
Lemma loop_fields fs : forall fuel p q offset omax pos mx r rest, shaped p -> located p q offset omax pos mx -> Forall field_ok fs ->
  drop (Z.to_nat pos) (concat p) = encode_all fs ++ DHCP_OPTION_END :: rest -> pos + zlen (encode_all fs) < mx -> (length fs < fuel)%nat ->
  options_loop fuel q offset omax r = Ok (ERR_OK, learn_all r fs).
Proof.
  induction fs as [|f fs IH]; intros fuel p q offset omax pos mx r rest Hp L Hf E Hmx Hfuel; (destruct fuel as [|fuel]; [cbn in Hfuel; lia|]).
  - pose proof L as L'. destruct L' as [(pre & b & next & -> & _) _]. rewrite options_loop_eq.
    rewrite (located_byte _ _ b next _ _ _ _ DHCP_OPTION_END L eq_refl); [done|].
    rewrite <- (Nat.add_0_r (Z.to_nat pos)), <- lookup_drop, E. done.
  - apply list.Forall_cons in Hf as [Hf Hfs]. unfold encode_all in *. cbn [map concat] in *. rewrite zlen_app in Hmx.
    rewrite <- app_assoc in E. pose proof (zlen_nonneg (concat (map encode_field fs))).
    destruct (loop_field fuel _ _ _ _ _ _ r f _ Hp L Hf E ltac:(lia)) as (q' & o' & m' & L' & ->).
    cbn [learn_all fold_left]. eapply IH; try done; [|lia|cbn in Hfuel; lia].
    pose proof (located_range _ _ _ _ _ _ Hp L). rewrite Z2Nat.inj_add, <- drop_drop, E by (lia || apply zlen_nonneg).
    unfold zlen. rewrite Nat2Z.id. apply drop_app_length.
Qed.

(** ** Theory: passes *)

Lemma seek_located p : forall pre q idx mx, p = pre ++ q -> mx = chain_len p -> 0 <= idx -> idx < chain_len p -> chain_len p <= 2 ^ 15 -> chain_len pre <= idx ->
  exists q' o m, seek q (idx - chain_len pre) (mx - chain_len pre) = Some (q', o, m) /\ located p q' o m idx mx.
Proof.
  intros pre q. revert pre. induction q as [|b q IH]; intros pre idx mx Ep -> Hi Hlt Hlen Hpre.
  - rewrite Ep, app_nil_r in Hlt. lia.
  - cbn [seek]. assert (Et : chain_len p = chain_len pre + zlen b + chain_len q) by (rewrite Ep, chain_len_app, chain_len_cons; lia).
    pose proof (chain_len_nonneg q). pose proof (chain_len_nonneg pre). destruct (Z.leb_spec (zlen b) (idx - chain_len pre)) as [L|L].
    + pose proof (zlen_nonneg b). rewrite !u16_small by lia. replace (idx - chain_len pre - zlen b) with (idx - chain_len (pre ++ [b])) by (rewrite chain_len_app, chain_len_cons; change (chain_len []) with 0; lia).
      replace (chain_len p - chain_len pre - zlen b) with (chain_len p - chain_len (pre ++ [b])) by (rewrite chain_len_app, chain_len_cons; change (chain_len []) with 0; lia).
      apply IH; try done; [by rewrite Ep, <- app_assoc|]. rewrite chain_len_app, chain_len_cons. change (chain_len []) with 0. lia.
    + eexists _, _, _. split; [done|]. split; [|by left]. exists pre, b, q. split_and!; try done; lia.
Qed.

Lemma encode_length fs : (length fs <= length (encode_all fs))%nat.
Proof.
  unfold encode_all. induction fs as [|f fs IH]; cbn [map concat length]; [lia|]. rewrite length_app. destruct f; cbn [encode_field length]; lia.
Qed.

(** A pass over the options field. *)
Lemma pass_options p fs rest r : shaped p -> Forall field_ok fs -> drop 240 (concat p) = encode_all fs ++ DHCP_OPTION_END :: rest ->
  parse_pass p DHCP_OPTIONS_OFS (u16 (chain_len p)) r = Ok (ERR_OK, learn_all r fs).
Proof.
  intros Hp Hf E. pose proof (sh_len _ Hp) as Hl. pose proof (chain_len_nonneg p). rewrite u16_small by lia.
  assert (Hlen : chain_len p = 240 + zlen (encode_all fs) + 1 + zlen rest).
  { apply (f_equal (@zlen Z)) in E. rewrite zlen_app, zlen_cons in E. unfold chain_len, zlen in *. rewrite length_drop in E. lia. }
  pose proof (zlen_nonneg (encode_all fs)). pose proof (zlen_nonneg rest). unfold parse_pass. change DHCP_OPTIONS_OFS with 240.
  destruct (seek_located p [] p 240 (chain_len p)) as (q & o & m & Es & L); [done|done|lia|lia|lia|change (chain_len []) with 0; lia|].
  change (chain_len []) with 0 in Es. rewrite !Z.sub_0_r in Es. rewrite Es.
  eapply loop_fields; try done; [lia|]. pose proof (encode_length fs). unfold zlen in *. lia.
Qed.

(** A pass over a field of the message that holds options, in the first pbuf. *)
Lemma pass_field p b next idx mx fs rest r : shaped p -> p = b :: next -> Forall field_ok fs -> 0 <= idx -> mx < zlen b ->
  drop (Z.to_nat idx) (concat p) = encode_all fs ++ DHCP_OPTION_END :: rest -> idx + zlen (encode_all fs) < mx ->
  parse_pass p idx mx r = Ok (ERR_OK, learn_all r fs).
Proof.
  intros Hp -> Hf Hi Hmx E Hfit. pose proof (zlen_nonneg (encode_all fs)). unfold parse_pass. cbn [seek]. destruct (Z.leb_spec (zlen b) idx); [lia|].
  eapply loop_fields; try done.
  - split; [|right; split; [done|cbn; lia]]. exists [], b, next. change (chain_len []) with 0. split_and!; try done; lia.
  - rewrite chain_len_cons. pose proof (chain_len_nonneg next). pose proof (encode_length fs). unfold zlen in *. lia.
Qed.

(** ** Theory: what is known after a pass *)

Record holds (r : rx_options) (es : list (Z * Z)) : Prop := Holds {
  ho_given : length (options_given r) = 10%nat;
  ho_val : length (options_val r) = 10%nat;
  ho_iff : forall i v, dhcp_option_given r i = true /\ dhcp_get_option_value r i = v /\ 0 <= i <-> (i, v) ∈ es;
}.

Lemma known_given r i v j : length (options_given r) = 10%nat -> 0 <= i < 10 -> 0 <= j ->
  dhcp_option_given (known r i v) j = if j =? i then true else dhcp_option_given r j.
Proof.
  intros Hl Hi Hj. unfold dhcp_option_given. cbn. destruct (Z.eqb_spec j i) as [->|].
  - apply nth_lookup_Some. apply list_lookup_insert_eq. lia.
  - assert (Hn : Z.to_nat i <> Z.to_nat j) by lia. unfold dhcp_option_given.
    destruct (options_given r !! Z.to_nat j) as [x|] eqn:E.
    + rewrite (nth_lookup_Some _ _ _ _ E). apply nth_lookup_Some. by rewrite list_lookup_insert_ne.
    + apply lookup_ge_None in E. rewrite !nth_overflow; rewrite ?length_insert; done || lia.
Qed.

Lemma known_value r i v j : length (options_val r) = 10%nat -> 0 <= i < 10 -> 0 <= j ->
  dhcp_get_option_value (known r i v) j = if j =? i then v else dhcp_get_option_value r j.
Proof.
  intros Hl Hi Hj. unfold dhcp_get_option_value. cbn. destruct (Z.eqb_spec j i) as [->|].
  - apply nth_lookup_Some. apply list_lookup_insert_eq. lia.
  - assert (Hn : Z.to_nat i <> Z.to_nat j) by lia.
    destruct (options_val r !! Z.to_nat j) as [x|] eqn:E.
    + rewrite (nth_lookup_Some _ _ _ _ E). apply nth_lookup_Some. by rewrite list_lookup_insert_ne.
    + apply lookup_ge_None in E. rewrite !nth_overflow; rewrite ?length_insert; done || lia.
Qed.

Lemma known_holds r es i v : holds r es -> 0 <= i < 10 -> i ∉ map fst es -> holds (known r i v) (es ++ [(i, v)]).
Proof.
  intros [H1 H2 H3] Hi Hn. split; [by cbn; rewrite length_insert|by cbn; rewrite length_insert|].
  intros j w. rewrite elem_of_app, list_elem_of_singleton. destruct (Z_lt_le_dec j 0) as [Hj|Hj].
  - split; [intros (_ & _ & ?); lia|]. intros [H|[= -> ->]]; [|lia]. apply H3 in H as (_ & _ & ?). lia.
  - rewrite known_given, known_value by done. destruct (Z.eqb_spec j i) as [->|Hji].
    + split; [intros (_ & -> & _); by right|]. intros [H|[= ->]]; [|done]. exfalso. apply Hn. apply list_elem_of_fmap. by exists (i, w).
    + rewrite H3. split; [by left|]. by intros [?|[= -> ->]].
Qed.

Lemma learn_holds new : forall r es, holds r es -> Forall (fun e => 0 <= e.1 < 10) new -> NoDup (map fst (es ++ new)) -> holds (learn r new) (es ++ new).
Proof.
  induction new as [|[i v] new IH]; intros r es Hr Hi Hd; [by rewrite app_nil_r|]. apply list.Forall_cons in Hi as [Hi Hin]. cbn [fst] in Hi.
  rewrite map_app in Hd. cbn [map fst] in Hd. apply list.NoDup_app in Hd as (D1 & D2 & D3).
  assert (Hni : i ∉ map fst es) by (intros H; apply (D2 i H); by left).
  cbn [learn]. destruct (dhcp_option_given r i) eqn:Eg.
  - exfalso. apply Hni. apply list_elem_of_fmap. exists (i, dhcp_get_option_value r i). split; [done|]. apply (ho_iff _ _ Hr). split_and!; [done|done|apply Hi].
  - change ((i, v) :: new) with ([(i, v)] ++ new). rewrite app_assoc. apply IH; [by apply known_holds|done|].
    rewrite <- app_assoc, map_app. apply list.NoDup_app. split_and!; [done|intros x Hx; apply D2, Hx|done].
Qed.

Definition values (fs : list field) : list (Z * Z) := concat (map (fun f => match f with Pad => [] | Opt c v => entries c v end) fs).

Lemma entries_range c v : Forall (fun e => 0 <= e.1 < 10) (entries c v).
Proof. unfold entries. repeat case_match; repeat constructor; cbn; done. Qed.

Lemma learn_all_holds fs : forall r es, holds r es -> NoDup (map fst (es ++ values fs)) -> holds (learn_all r fs) (es ++ values fs).
Proof.
  induction fs as [|f fs IH]; intros r es Hr Hd; [by rewrite app_nil_r|]. unfold values in *. cbn [map concat learn_all fold_left] in *.
  rewrite app_assoc in *. apply IH; [|done]. destruct f as [|c v]; [by rewrite app_nil_r|]. apply learn_holds; [done|apply entries_range|].
  rewrite map_app in Hd. by apply list.NoDup_app in Hd as [Hd _].
Qed.

Lemma holds_clear_all r : length (options_val r) = 10%nat -> holds (dhcp_clear_all_options r) [].
Proof.
  intros Hl. split; [done|done|]. intros i v. split; [|by intros ?%not_elem_of_nil]. intros (H & _ & _). unfold dhcp_option_given in H. cbn in H.
  change (replicate (Z.to_nat DHCP_OPTION_IDX_MAX) false) with (replicate 10 false) in H.
  destruct (nth_in_or_default (Z.to_nat i) (replicate 10 false) false) as [Hin|E]; [|congruence].
  apply list_elem_of_In in Hin. rewrite H in Hin. by apply elem_of_replicate in Hin as [? _].
Qed.

Definition not_overload (e : Z * Z) : bool := negb (e.1 =? DHCP_OPTION_IDX_OVERLOAD).

Lemma clear_holds r es : holds r es -> holds (dhcp_clear_option r DHCP_OPTION_IDX_OVERLOAD) (List.filter not_overload es).
Proof.
  intros [H1 H2 H3]. split; [by cbn; rewrite length_insert|done|]. intros i v.
  rewrite list_elem_of_In, filter_In, <- list_elem_of_In, <- H3. unfold not_overload. cbn [fst].
  change (dhcp_get_option_value (dhcp_clear_option r DHCP_OPTION_IDX_OVERLOAD) i) with (dhcp_get_option_value r i).
  unfold dhcp_option_given, dhcp_clear_option. cbn [options_given]. change (Z.to_nat DHCP_OPTION_IDX_OVERLOAD) with 0%nat.
  change DHCP_OPTION_IDX_OVERLOAD with 0. destruct (options_given r) as [|g gs]; [done|]. cbn [insert list_insert].
  destruct (Z.eqb_spec i 0) as [->|]; [cbn; split; [by intros []|by intros []]|].
  destruct (Z_lt_le_dec i 0); [split; intros; lia|]. destruct (Z.to_nat i) eqn:E; [lia|]. cbn. tauto.
Qed.

(** The value of the overload option, 0 without one. *)
Definition overload (fs : list field) : Z :=
  match find (fun e => e.1 =? DHCP_OPTION_IDX_OVERLOAD) (values fs) with Some (_, v) => v | None => 0 end.
Definition uses_file (fs : list field) : bool := (overload fs =? DHCP_OVERLOAD_FILE) || (overload fs =? DHCP_OVERLOAD_SNAME_FILE).
Definition uses_sname (fs : list field) : bool := (overload fs =? DHCP_OVERLOAD_SNAME) || (overload fs =? DHCP_OVERLOAD_SNAME_FILE).

Lemma overloaded_after r fs : holds r (values fs) -> NoDup (map fst (values fs)) -> exists r',
  overloaded false false r = (uses_file fs, uses_sname fs, r') /\ holds r' (List.filter not_overload (values fs)).
Proof.
  intros Hr Hd. unfold overloaded, uses_file, uses_sname, overload.
  destruct (find _ (values fs)) as [[i v]|] eqn:Ef.
  - apply find_some in Ef as [Hin Ei]. cbn in Ei. apply Z.eqb_eq in Ei as ->. apply list_elem_of_In, (ho_iff _ _ Hr) in Hin as (Hg & Hv & _).
    rewrite Hg, Hv. exists (dhcp_clear_option r DHCP_OPTION_IDX_OVERLOAD). split; [|by apply clear_holds].
    unfold DHCP_OVERLOAD_FILE, DHCP_OVERLOAD_SNAME, DHCP_OVERLOAD_SNAME_FILE.
    destruct (Z.eqb_spec v 1) as [->|]; [done|]. destruct (Z.eqb_spec v 2) as [->|]; [done|]. by destruct (Z.eqb_spec v 3).
  - pose proof (find_none _ _ Ef) as Hn. assert (dhcp_option_given r DHCP_OPTION_IDX_OVERLOAD = false) as ->.
    { destruct (dhcp_option_given r _) eqn:E; [|done]. assert (Hin : (DHCP_OPTION_IDX_OVERLOAD, dhcp_get_option_value r DHCP_OPTION_IDX_OVERLOAD) ∈ values fs) by (by apply (ho_iff _ _ Hr)).
      apply list_elem_of_In, Hn in Hin. done. }
    exists r. split; [done|]. assert (List.filter not_overload (values fs) = values fs) as ->; [|done].
    clear Hr Hd Ef. induction (values fs) as [|e es IH]; [done|]. cbn [List.filter]. unfold not_overload at 1. rewrite (Hn e) by by left. cbn [negb].
    f_equal. apply IH. intros x Hx. apply Hn. by right.
Qed.

Lemma not_overloaded file sname r es : holds r es -> DHCP_OPTION_IDX_OVERLOAD ∉ map fst es -> overloaded file sname r = (file, sname, r).
Proof.
  intros Hr Hn. unfold overloaded. destruct (dhcp_option_given r _) eqn:E; [|done]. exfalso. apply Hn, list_elem_of_fmap.
  exists (DHCP_OPTION_IDX_OVERLOAD, dhcp_get_option_value r DHCP_OPTION_IDX_OVERLOAD). split; [done|]. by apply (ho_iff _ _ Hr).
Qed.

(** A message with the options [main], and [file] and [sname] in the fields
    of these names where [main] says so. *)
Record message (p : chain) (main file sname : list field) : Prop := Message {
  me_main : exists rest, drop 240 (concat p) = encode_all main ++ DHCP_OPTION_END :: rest;
  me_file : uses_file main = true -> exists rest, drop 108 (concat p) = encode_all file ++ DHCP_OPTION_END :: rest /\ 108 + zlen (encode_all file) < 236;
  me_sname : uses_sname main = true -> exists rest, drop 44 (concat p) = encode_all sname ++ DHCP_OPTION_END :: rest /\ 44 + zlen (encode_all sname) < 108;
  me_first : 236 < zlen (hd [] p);
  me_fields : Forall field_ok main /\ Forall field_ok file /\ Forall field_ok sname;
  me_nested : (DHCP_OPTION_IDX_OVERLOAD ∉ map fst (values file)) /\ (DHCP_OPTION_IDX_OVERLOAD ∉ map fst (values sname));
}.

Definition fields_of (main file sname : list field) : list field :=
  main ++ (if uses_file main then file else []) ++ (if uses_sname main then sname else []).

Lemma values_app fs1 fs2 : values (fs1 ++ fs2) = values fs1 ++ values fs2.
Proof. unfold values. by rewrite map_app, concat_app. Qed.

Lemma filter_overload_notin es : DHCP_OPTION_IDX_OVERLOAD ∉ map fst (List.filter not_overload es).
Proof.
  intros ([i v] & Ei & H)%list_elem_of_fmap. apply list_elem_of_In, filter_In in H as [_ H]. cbn in Ei. subst i. done.
Qed.

Lemma parse_again_eq fuel p idx mx file sname r : parse_again (S fuel) p idx mx file sname r =
  let! (e, r) := parse_pass p idx mx r in
  if negb (e =? ERR_OK) then Ok (e, r)
  else
    let '(file, sname, r) := overloaded file sname r in
    if file then parse_again fuel p DHCP_FILE_OFS (DHCP_FILE_OFS + DHCP_FILE_LEN) false sname r
    else if sname then parse_again fuel p DHCP_SNAME_OFS (DHCP_SNAME_OFS + DHCP_SNAME_LEN) file false r
    else Ok (ERR_OK, r).
Proof. done. Qed.

(** One more field that holds options. *)
Lemma pass_again fuel p b next idx mx fs rest r es file sname : shaped p -> p = b :: next -> Forall field_ok fs -> 0 <= idx -> mx < zlen b ->
  drop (Z.to_nat idx) (concat p) = encode_all fs ++ DHCP_OPTION_END :: rest -> idx + zlen (encode_all fs) < mx ->
  holds r es -> NoDup (map fst (es ++ values fs)) -> DHCP_OPTION_IDX_OVERLOAD ∉ map fst es -> DHCP_OPTION_IDX_OVERLOAD ∉ map fst (values fs) ->
  exists r', holds r' (es ++ values fs) /\
    parse_again (S fuel) p idx mx file sname r =
      if file then parse_again fuel p DHCP_FILE_OFS (DHCP_FILE_OFS + DHCP_FILE_LEN) false sname r'
      else if sname then parse_again fuel p DHCP_SNAME_OFS (DHCP_SNAME_OFS + DHCP_SNAME_LEN) file false r'
      else Ok (ERR_OK, r').
Proof.
  intros Hp Ep Hf Hi Hmx E Hfit Hr Hd N1 N2. exists (learn_all r fs). pose proof (learn_all_holds fs r es Hr Hd) as H. split; [done|].
  rewrite parse_again_eq, (pass_field p b next idx mx fs rest r) by done. cbn [obind]. change (negb (ERR_OK =? ERR_OK)) with false. cbn match.
  rewrite (not_overloaded _ _ _ _ H); [done|]. rewrite map_app, elem_of_app. by intros [].
Qed.

Lemma nodup_filter (f : Z * Z -> bool) es fs : NoDup (map fst (es ++ fs)) -> NoDup (map fst (List.filter f es ++ fs)).
Proof.
  rewrite !map_app. induction es as [|e es IH]; [done|]. cbn [List.filter map app]. intros [Hx Hrest]%list.NoDup_cons.
  specialize (IH Hrest). destruct (f e); [|done]. cbn [map app]. apply list.NoDup_cons. split; [|done].
  intros Hin. apply Hx. rewrite elem_of_app in *. destruct Hin as [Hin|]; [left|by right].
  apply list_elem_of_fmap in Hin as (y & -> & Hy). apply list_elem_of_fmap. exists y. split; [done|].
  rewrite list_elem_of_In, filter_In in Hy. rewrite list_elem_of_In. apply Hy.
Qed.

Lemma filter_no_overload fs : DHCP_OPTION_IDX_OVERLOAD ∉ map fst (values fs) -> List.filter not_overload (values fs) = values fs.
Proof.
  intros Hn. induction (values fs) as [|e es IH]; [done|]. cbn [map] in Hn. apply not_elem_of_cons in Hn as [Hn1 Hn2]. cbn [List.filter].
  unfold not_overload at 1. destruct (Z.eqb_spec e.1 DHCP_OPTION_IDX_OVERLOAD); [congruence|]. cbn [negb]. by rewrite IH.
Qed.

(** The passes over file and sname. *)
Lemma pass_fields fuel p b next main file sname r es : shaped p -> p = b :: next -> message p main file sname ->
  holds r es -> DHCP_OPTION_IDX_OVERLOAD ∉ map fst es ->
  NoDup (map fst (es ++ values (if uses_file main then file else []) ++ values (if uses_sname main then sname else []))) ->
  exists r', holds r' (es ++ values (if uses_file main then file else []) ++ values (if uses_sname main then sname else [])) /\
    (if uses_file main then parse_again (S (S fuel)) p DHCP_FILE_OFS (DHCP_FILE_OFS + DHCP_FILE_LEN) false (uses_sname main) r
     else if uses_sname main then parse_again (S (S fuel)) p DHCP_SNAME_OFS (DHCP_SNAME_OFS + DHCP_SNAME_LEN) false false r
     else Ok (ERR_OK, r)) = Ok (ERR_OK, r').
Proof.
  intros Hp Ep [_ Hfile Hsname Hfirst (_ & F2 & F3) (N1 & N2)] Hr Hn Hd. assert (Hb : 236 < zlen b) by by rewrite Ep in Hfirst.
  assert (Hs : forall fuel r es, uses_sname main = true -> holds r es -> NoDup (map fst (es ++ values sname)) -> DHCP_OPTION_IDX_OVERLOAD ∉ map fst es ->
    exists r', holds r' (es ++ values sname) /\ parse_again (S fuel) p DHCP_SNAME_OFS (DHCP_SNAME_OFS + DHCP_SNAME_LEN) false false r = Ok (ERR_OK, r')).
  { intros fuel' r' es' Us Hr' Hd' Hn'. destruct (Hsname Us) as (rest & Es & Ls).
    apply (pass_again fuel' p b next DHCP_SNAME_OFS (DHCP_SNAME_OFS + DHCP_SNAME_LEN) sname rest r' es' false false); try done.
    change (DHCP_SNAME_OFS + DHCP_SNAME_LEN) with 108. lia. }
  destruct (uses_file main) eqn:Uf.
  - destruct (Hfile eq_refl) as (rest & Ef & Lf). rewrite app_assoc in *. pose proof Hd as Hd'. rewrite map_app in Hd'. apply list.NoDup_app in Hd' as [Hdf _].
    destruct (pass_again (S fuel) p b next DHCP_FILE_OFS (DHCP_FILE_OFS + DHCP_FILE_LEN) file rest r es false (uses_sname main)) as (r2 & H2 & ->); try done.
    destruct (uses_sname main) eqn:Us; [|exists r2; by rewrite app_nil_r].
    apply (Hs fuel); try done. rewrite map_app, elem_of_app. by intros [].
  - cbn [values map concat app]. change (values []) with (@nil (Z * Z)) in *. cbn [app] in *.
    destruct (uses_sname main) eqn:Us; [by apply (Hs (S fuel))|]. exists r. by rewrite app_nil_r.
Qed.

(** C10: dhcp_parse_reply finds the options a server wrote (RFC 2132). For
    every message of at most 32768 bytes in pbufs that the driver may deliver
    (the first of more than 236 bytes, none empty, and all but the last of at
    least 257), with well-formed options in the options field and, where the
    overload option says so, in the fields file and sname, each field closed
    by an end marker inside it and the last two without an overload option of
    their own (with it, see [dhcp_parse_hangs]): it succeeds, and the options
    it knows have the values of the text, no more and no less, when no option
    occurs twice. In smaller pbufs an option may end behind the next one, and
    dhcp_parse_reply reads there ([small_pbufs_overrun]). *)
Theorem dhcp_options_roundtrip fuel p main file sname r : shaped p -> message p main file sname ->
  NoDup (map fst (values (fields_of main file sname))) -> length (options_val r) = 10%nat ->
  exists r', parse_reply (S (S (S fuel))) p r = Ok (ERR_OK, r') /\
    forall i v, 0 <= i -> i <> DHCP_OPTION_IDX_OVERLOAD ->
      (dhcp_option_given r' i = true /\ dhcp_get_option_value r' i = v <-> (i, v) ∈ values (fields_of main file sname)).
Proof.
  intros Hp Hm Hd Hl. pose proof Hm as [(rest & Em) _ _ Hfirst (F1 & _) (N1 & N2)].
  pose proof (sh_some _ Hp) as Hne. destruct p as [|b next] eqn:Ep; [done|]. rewrite <- Ep in *. assert (Hb : 236 < zlen b) by by rewrite Ep in Hfirst.
  unfold fields_of in *. rewrite !values_app in *.
  assert (Hdm : NoDup (map fst (values main))) by (rewrite map_app in Hd; by apply list.NoDup_app in Hd as [Hd _]).
  unfold parse_reply. rewrite Ep. destruct (Z.ltb_spec (zlen b) DHCP_SNAME_OFS) as [L|_]; [change DHCP_SNAME_OFS with 44 in L; lia|]. rewrite <- Ep.
  set (r0 := dhcp_clear_all_options r). pose proof (learn_all_holds main r0 [] (holds_clear_all r Hl) Hdm) as H1. cbn [app] in H1.
  destruct (overloaded_after _ _ H1 Hdm) as (r1 & E1 & H1').
  destruct (pass_fields fuel p b next main file sname r1 _ Hp Ep Hm H1' (filter_overload_notin _) (nodup_filter _ _ _ Hd)) as (r' & H' & E').
  exists r'. split.
  - rewrite parse_again_eq, (pass_options p main rest r0 Hp F1 Em). cbn [obind]. change (negb (ERR_OK =? ERR_OK)) with false. cbn match. rewrite E1.
    destruct (uses_file main); exact E'.
  - intros i v Hi Hne'. pose proof (ho_iff _ _ H' i v) as X. rewrite !elem_of_app in *. rewrite list_elem_of_In, filter_In, <- list_elem_of_In in X.
    unfold not_overload in X. cbn [fst] in X. destruct (Z.eqb_spec i DHCP_OPTION_IDX_OVERLOAD); [done|]. cbn [negb] in X. tauto.
Qed.

(** ** Theory: any content *)

Lemma decode_next_total fuel q idx : forall r value off dl, 0 <= idx < DHCP_OPTION_IDX_MAX -> dl <= 4 ->
  exists x, decode_next (S fuel) q r value off dl idx = Ok x.
Proof.
  intros r value off dl Hi Hd. rewrite decode_next_eq. destruct (Z.leb_spec 0 idx), (Z.ltb_spec idx DHCP_OPTION_IDX_MAX); try lia. cbn [andb guard_ub obind].
  destruct (dhcp_option_given r idx); [eauto|]. cbn zeta. destruct (Z.ltb_spec 4 dl); [lia|]. destruct (dl =? 4); [eauto|]. destruct (dl =? 1); eauto.
Qed.

Lemma decode_total q r op len len' dl idx off value : 0 <= len < 256 -> option_case op len = Some (len', dl, idx) -> 0 < dl ->
  0 <= len' <= len /\ exists x, decode_next 64 q r value off dl idx = Ok x.
Proof.
  unfold option_case. intros Hl Hc Hd.
  destruct (op =? DHCP_OPTION_PAD); [injection Hc as <- <- <-; lia|].
  assert (E4 : forall n i, (if len =? n then Some (len, len, i) else None) = Some (len', dl, idx) -> n <= 4 -> 0 <= i < DHCP_OPTION_IDX_MAX ->
    0 <= len' <= len /\ exists x, decode_next 64 q r value off dl idx = Ok x).
  { intros n i. destruct (Z.eqb_spec len n) as [->|]; [|done]. intros [= <- <- <-] Hn Hi. split; [lia|]. by apply decode_next_total. }
  destruct (op =? DHCP_OPTION_SUBNET_MASK); [by eapply E4|].
  destruct (op =? DHCP_OPTION_ROUTER); [destruct (4 <=? len); [|done]; injection Hc as <- <- <-; split; [lia|by apply decode_next_total]|].
  destruct (op =? DHCP_OPTION_DNS_SERVER).
  { change (4 * DNS_MAX_SERVERS) with 8 in Hc. destruct (_ =? 0) eqn:Em; [|done]. destruct (_ <=? _); [|done]. injection Hc as <- <- <-. split; [lia|].
    change 64%nat with (S 63). rewrite decode_next_eq. change ((0 <=? DHCP_OPTION_IDX_DNS_SERVER) && (DHCP_OPTION_IDX_DNS_SERVER <? DHCP_OPTION_IDX_MAX)) with true. cbn [guard_ub obind].
    destruct (dhcp_option_given r _); [eauto|]. cbn zeta. destruct (Z.ltb_spec 4 (Z.min len 8)) as [L|L]; [|destruct (_ =? 4); [eauto|destruct (_ =? 1); eauto]].
    destruct (negb _); [eauto|]. apply decode_next_total; [done|]. rewrite u8_small by lia. lia. }
  destruct (op =? DHCP_OPTION_LEASE_TIME); [by eapply E4|]. destruct (op =? DHCP_OPTION_OVERLOAD); [by eapply E4|].
  destruct (op =? DHCP_OPTION_MESSAGE_TYPE); [by eapply E4|]. destruct (op =? DHCP_OPTION_SERVER_ID); [by eapply E4|].
  destruct (op =? DHCP_OPTION_T1); [by eapply E4|]. destruct (op =? DHCP_OPTION_T2); [by eapply E4|]. injection Hc as <- <- <-. lia.
Qed.

Lemma option_case_len op len len' dl idx : 0 <= len < 256 -> option_case op len = Some (len', dl, idx) ->
  0 <= len' < 256 /\ (op = DHCP_OPTION_PAD -> len' = 0 /\ dl = 0).
Proof.
  unfold option_case. intros Hl. destruct (Z.eqb_spec op DHCP_OPTION_PAD) as [->|Hn]; [intros [= <- <- <-]; lia|].
  intros H. split; [|done]. repeat (case_match; try done); injection H as <- <- <-; lia.
Qed.

Lemma byte_at p pos : shaped p -> 0 <= nth (Z.to_nat pos) (concat p) 0 < 256.
Proof.
  intros Hp. destruct (nth_lookup_or_length (concat p) (Z.to_nat pos) 0) as [E|E]; [|by rewrite nth_overflow].
  pose proof (sh_bytes _ Hp) as Hb. rewrite list.Forall_lookup in Hb. by apply (Hb (Z.to_nat pos)).
Qed.

Lemma options_loop_total fuel : forall p q offset omax pos r, shaped p -> located p q offset omax pos (chain_len p) -> chain_len p - pos < Z.of_nat fuel ->
  exists x, options_loop fuel q offset omax r = Ok x.
Proof.
  induction fuel as [|fuel IH]; intros p q offset omax pos r Hp L Hf; pose proof (located_range _ _ _ _ _ _ Hp L) as (R1 & R2 & R3 & R4); [lia|]. pose proof (sh_len _ Hp) as R5.
  pose proof L as L'. destruct L' as [(pre & b & next & -> & Ep & E1 & E2 & Ho & _) _]. rewrite options_loop_eq.
  destruct (rd_ok b offset) as (op & -> & _); [unfold zlen in Ho; lia|]. cbn [obind]. destruct (_ || _); [eauto|].
  rewrite (option_len_at _ _ _ _ _ _ Hp L). cbn [obind]. set (len := nth _ _ 0). pose proof (byte_at p (pos + 1) Hp) as Hlen. fold len in Hlen.
  destruct (option_case op len) as [[[len' dl] idx]|] eqn:Ec; [|eauto]. destruct (option_case_len _ _ _ _ _ Hlen Ec) as [Hl' Hpad].
  assert (Hd : exists e r', (if 0 <? dl then decode_next 64 (b :: next) r [0; 0; 0; 0] (u16 (offset + 2)) dl idx else Ok (ERR_OK, r)) = Ok (e, r')).
  { destruct (Z.ltb_spec 0 dl); [|eauto]. destruct (decode_total (b :: next) r op len len' dl idx (u16 (offset + 2)) [0; 0; 0; 0] Hlen Ec) as (_ & [e r'] & E); eauto. }
  destruct Hd as (e & r' & ->). cbn [obind]. destruct (negb _); [eauto|]. cbn zeta.
  assert (Hk : exists k, u16 ((if op =? DHCP_OPTION_PAD then u16 (offset - 1) else offset) + len' + 2) = offset + (pos + k - pos) /\ 1 <= k <= 257).
  { destruct (Z.eqb_spec op DHCP_OPTION_PAD) as [E|].
    - destruct (Hpad E) as [-> _]. exists 1. rewrite u16_pad by lia. lia.
    - exists (len' + 2). rewrite u16_small by lia. lia. }
  destruct Hk as (k & -> & Hk). destruct (Z_lt_le_dec (pos + k) (chain_len p)) as [Hlt|Hge].
  - destruct (advance _ _ _ _ _ _ (pos + k) b next Hp L eq_refl ltac:(lia) Hlt) as (q' & o' & m' & L' & H). rewrite H. eapply IH; [done|exact L'|lia].
  - rewrite (advance_end _ _ _ _ _ (pos + k) b next Hp L eq_refl) by lia. eauto.
Qed.

Lemma pass_options_total p r : shaped p -> exists x, parse_pass p DHCP_OPTIONS_OFS (u16 (chain_len p)) r = Ok x.
Proof.
  intros Hp. pose proof (sh_len _ Hp). pose proof (chain_len_nonneg p). rewrite u16_small by lia. unfold parse_pass. change DHCP_OPTIONS_OFS with 240.
  destruct (Z_lt_le_dec 240 (chain_len p)) as [Hl|Hl].
  - destruct (seek_located p [] p 240 (chain_len p)) as (q & o & m & Es & L); [done|done|lia|lia|lia|change (chain_len []) with 0; lia|].
    change (chain_len []) with 0 in Es. rewrite !Z.sub_0_r in Es. rewrite Es. eapply options_loop_total; [done|exact L|]. unfold chain_len, zlen in *. lia.
  - assert (Hs : forall q i m, chain_len q <= i -> i < 2 ^ 16 -> seek q i m = None).
    { clear. induction q as [|b q IH]; intros i m Hq Hi; [done|]. rewrite chain_len_cons in Hq. pose proof (chain_len_nonneg q). pose proof (zlen_nonneg b).
      cbn [seek]. destruct (Z.leb_spec (zlen b) i); [|lia]. rewrite (u16_small (i - zlen b)) by lia. apply IH; lia. }
    rewrite Hs by lia. eauto.
Qed.

(** C11: dhcp_parse_reply is safe on every content of the options field. For a
    message of any bytes, in a chain of pbufs as the driver delivers it, the
    pass over the options reads inside the pbufs and ends; without an
    overload option the function returns. *)
Theorem dhcp_parse_safe p r : shaped p -> exists e r1,
  parse_pass p DHCP_OPTIONS_OFS (u16 (chain_len p)) (dhcp_clear_all_options r) = Ok (e, r1) /\
  (dhcp_option_given r1 DHCP_OPTION_IDX_OVERLOAD = false -> forall fuel, exists e' r', parse_reply (S fuel) p r = Ok (e', r')).
Proof.
  intros Hp. destruct (pass_options_total p (dhcp_clear_all_options r) Hp) as ([e r1] & E). exists e, r1. split; [done|]. intros Hn fuel.
  unfold parse_reply. pose proof (sh_some _ Hp) as Hne. destruct p as [|b next] eqn:Ep; [done|]. rewrite <- Ep in *. destruct (_ <? _); [eauto|].
  rewrite parse_again_eq, E. cbn [obind]. destruct (negb _); [eauto|]. unfold overloaded. rewrite Hn. eauto.
Qed.

(** The array of the values keeps its length. *)
Lemma decode_next_length fuel : forall q r value off dl idx e r', decode_next fuel q r value off dl idx = Ok (e, r') ->
  length (options_val r') = length (options_val r).
Proof.
  induction fuel as [|fuel IH]; intros q r value off dl idx e r'; cbn [decode_next]; [done|].
  destruct (guard_ub _); [|done..]. cbn [obind]. destruct (dhcp_option_given r idx); [by intros [= <- <-]|].
  destruct (4 <? dl).
  - destruct (negb _); [by intros [= <- <-]|]. intros H. apply IH in H. rewrite H. cbn. by rewrite length_insert.
  - destruct (dl =? 4); [intros [= <- <-]; cbn; by rewrite length_insert|]. destruct (dl =? 1); intros [= <- <-]; [cbn; by rewrite length_insert|done].
Qed.

Lemma options_loop_length fuel : forall q off omax r e r', options_loop fuel q off omax r = Ok (e, r') -> length (options_val r') = length (options_val r).
Proof.
  induction fuel as [|fuel IH]; intros q off omax r e r'; [by destruct q|]. destruct q as [|b next]; [by intros [= <- <-]|]. cbn [options_loop].
  destruct (rd b off) as [op| |]; [|done..]. cbn [obind]. destruct (_ || _); [by intros [= <- <-]|].
  destruct (option_len (b :: next) off) as [len| |]; [|done..]. cbn [obind]. destruct (option_case op len) as [[[len' dl] idx]|]; [|by intros [= <- <-]].
  set (dec := if 0 <? dl then _ else _). assert (Hdec : forall e1 r1, dec = Ok (e1, r1) -> length (options_val r1) = length (options_val r)).
  { subst dec. intros e1 r1. destruct (0 <? dl); [apply decode_next_length|by intros [= <- <-]]. }
  destruct dec as [[e1 r1]| |]; [|done..]. specialize (Hdec e1 r1 eq_refl). cbn [obind]. destruct (negb _); [by intros [= <- <-]|].
  destruct (_ <=? _).
  - destruct (_ && _); [|by intros [= <- <-]]. destruct next; [done|]. intros H. apply IH in H. congruence.
  - intros H. apply IH in H. congruence.
Qed.

Lemma parse_again_length fuel : forall p idx mx file sname r e r', parse_again fuel p idx mx file sname r = Ok (e, r') -> length (options_val r') = length (options_val r).
Proof.
  induction fuel as [|fuel IH]; intros p idx mx file sname r e r'; [done|]. rewrite parse_again_eq. unfold parse_pass.
  set (m := match seek p idx mx with None => _ | _ => _ end). assert (Hm : forall e1 r1, m = Ok (e1, r1) -> length (options_val r1) = length (options_val r)).
  { subst m. intros e1 r1. destruct (seek p idx mx) as [[[q off] omax]|]; [apply options_loop_length|by intros [= <- <-]]. }
  destruct m as [[e1 r1]| |]; [|done..]. specialize (Hm e1 r1 eq_refl). cbn [obind]. destruct (negb _); [by intros [= <- <-]|].
  assert (Ho : length (options_val (overloaded file sname r1).2) = length (options_val r1)) by (unfold overloaded; repeat case_match; done).
  destruct (overloaded file sname r1) as [[file' sname'] r2]. cbn in Ho. destruct file'; [intros H; apply IH in H; congruence|].
  destruct sname'; [intros H; apply IH in H; congruence|]. intros [= <- <-]. congruence.
Qed.

Lemma parse_reply_length fuel p r e r' : parse_reply fuel p r = Ok (e, r') -> length (options_val r') = length (options_val r).
Proof.
  unfold parse_reply. destruct p as [|b next]; [done|]. destruct (_ <? _); [by intros [= <- <-]|]. intros H. by apply parse_again_length in H.
Qed.

(** ** Theory: what a message can do to the client *)

(** The state of the options behind the pass over a message that puts
    options into its field file. *)
Lemma overloaded_main p main rest r : shaped p -> Forall field_ok main -> drop 240 (concat p) = encode_all main ++ DHCP_OPTION_END :: rest ->
  NoDup (map fst (values main)) -> uses_file main = true -> length (options_val r) = 10%nat -> 236 < zlen (hd [] p) -> exists r1,
  holds r1 (List.filter not_overload (values main)) /\
  forall fuel, parse_reply (S fuel) p r = parse_again fuel p DHCP_FILE_OFS (DHCP_FILE_OFS + DHCP_FILE_LEN) false (uses_sname main) r1.
Proof.
  intros Hp Hf E Hd Hu Hl Hb. pose proof (learn_all_holds main _ [] (holds_clear_all r Hl) Hd) as H1. cbn [app] in H1.
  destruct (overloaded_after _ _ H1 Hd) as (r1 & E1 & H1'). exists r1. split; [done|]. intros fuel.
  unfold parse_reply. pose proof (sh_some _ Hp) as Hne. destruct p as [|b next] eqn:Ep; [done|]. rewrite <- Ep in *. rewrite Ep in Hb. cbn [hd] in Hb.
  destruct (Z.ltb_spec (zlen b) DHCP_SNAME_OFS) as [L|_]; [change DHCP_SNAME_OFS with 44 in L; lia|].
  rewrite parse_again_eq, (pass_options p main rest _ Hp Hf E). cbn [obind]. change (negb (ERR_OK =? ERR_OK)) with false. cbn match. by rewrite E1, Hu.
Qed.

Lemma hanging_pass p b next rest : shaped p -> p = b :: next -> 236 < zlen b ->
  drop 108 (concat p) = [DHCP_OPTION_OVERLOAD; 1; DHCP_OVERLOAD_FILE; DHCP_OPTION_END] ++ rest ->
  forall fuel sname r, length (options_given r) = 10%nat -> length (options_val r) = 10%nat -> dhcp_option_given r DHCP_OPTION_IDX_OVERLOAD = false ->
  parse_again fuel p DHCP_FILE_OFS (DHCP_FILE_OFS + DHCP_FILE_LEN) false sname r = NoFuel.
Proof.
  intros Hp Ep Hb E fuel. induction fuel as [|fuel IH]; intros sname r Hg Hv Hn; [done|].
  rewrite parse_again_eq, (pass_field p b next _ _ [Opt DHCP_OPTION_OVERLOAD [DHCP_OVERLOAD_FILE]] rest r Hp Ep); try done.
  2: { by repeat constructor. }
  cbn [obind]. change (negb (ERR_OK =? ERR_OK)) with false. cbn match. cbn [learn_all fold_left learn_field].
  change (entries DHCP_OPTION_OVERLOAD [DHCP_OVERLOAD_FILE]) with [(DHCP_OPTION_IDX_OVERLOAD, DHCP_OVERLOAD_FILE)].
  cbn [learn]. rewrite Hn. unfold overloaded. rewrite known_given, known_value by done. rewrite Z.eqb_refl.
  change (DHCP_OVERLOAD_FILE =? DHCP_OVERLOAD_FILE) with true. cbn match.
  apply IH; [by cbn; rewrite !length_insert|by cbn; rewrite !length_insert|].
  unfold dhcp_option_given. cbn. apply nth_lookup_Some. apply list_lookup_insert_eq. rewrite length_insert, Hg. compute. lia.
Qed.

(** C12: one message stops the device. When the options say that the field
    file holds options and that field says it again, dhcp_parse_reply reads
    it for ever: no number of passes is enough. *)
Theorem dhcp_parse_hangs p main r : shaped p -> Forall field_ok main -> NoDup (map fst (values main)) -> uses_file main = true ->
  length (options_val r) = 10%nat -> 236 < zlen (hd [] p) ->
  (exists rest, drop 240 (concat p) = encode_all main ++ DHCP_OPTION_END :: rest) ->
  (exists rest, drop 108 (concat p) = [DHCP_OPTION_OVERLOAD; 1; DHCP_OVERLOAD_FILE; DHCP_OPTION_END] ++ rest) ->
  forall fuel, parse_reply fuel p r = NoFuel.
Proof.
  intros Hp Hf Hd Hu Hl Hb (rest & E) (rest' & E') fuel.
  destruct (overloaded_main p main rest r Hp Hf E Hd Hu Hl Hb) as (r1 & H1 & Heq). destruct p as [|b next] eqn:Ep; [by apply sh_some in Hp|].
  destruct fuel as [|fuel]; [unfold parse_reply; destruct (Z.ltb_spec (zlen b) DHCP_SNAME_OFS) as [L|]; [change DHCP_SNAME_OFS with 44 in L; cbn in Hb; lia|done]|].
  rewrite Heq. eapply (hanging_pass _ b next); try done; [apply H1|apply H1|].
  destruct (dhcp_option_given r1 _) eqn:Eg; [|done]. exfalso. apply (filter_overload_notin (values main)), list_elem_of_fmap.
  exists (DHCP_OPTION_IDX_OVERLOAD, dhcp_get_option_value r1 DHCP_OPTION_IDX_OVERLOAD). split; [done|]. by apply (ho_iff _ _ H1).
Qed.

(** An option in the field file that ends behind the packet makes
    dhcp_parse_reply follow a NULL pointer: offset_max wraps. *)
Theorem dhcp_parse_overrun fuel b main rest r c n : shaped [b] -> Forall field_ok main -> NoDup (map fst (values main)) -> uses_file main = true ->
  length (options_val r) = 10%nat -> drop 240 b = encode_all main ++ DHCP_OPTION_END :: rest ->
  b !! 108%nat = Some c -> b !! 109%nat = Some n -> c <> DHCP_OPTION_END -> c <> DHCP_OPTION_PAD -> option_case c n = Some (n, 0, -1) ->
  zlen b <= 110 + n -> parse_reply (S (S fuel)) [b] r = UB.
Proof.
  intros Hp Hf Hd Hu Hl E Hc Hn Hce Hcp Hk Hz.
  assert (E' : drop 240 (concat [b]) = encode_all main ++ DHCP_OPTION_END :: rest) by (cbn; by rewrite app_nil_r).
  assert (Hb : 236 < zlen b) by (apply (f_equal length) in E; rewrite length_drop, length_app in E; cbn in E; unfold zlen; lia).
  destruct (overloaded_main [b] main rest r Hp Hf E' Hd Hu Hl Hb) as (r1 & H1 & Heq). rewrite Heq, parse_again_eq.
  unfold parse_pass. cbn [seek]. change DHCP_FILE_OFS with 108. destruct (Z.leb_spec (zlen b) 108); [lia|]. rewrite options_loop_eq.
  rewrite (rd_lookup b 108 c) by done. cbn [obind]. destruct (Z.eqb_spec c DHCP_OPTION_END); [done|]. change (negb (108 <? 108 + DHCP_FILE_LEN)) with false. cbn [orb].
  unfold option_len. destruct (Z.ltb_spec (108 + 1) (zlen b)); [|lia]. rewrite (rd_lookup b (108 + 1) n) by done. cbn [obind]. rewrite Hk.
  change (0 <? 0) with false. cbn [obind]. change (negb (ERR_OK =? ERR_OK)) with false. cbn match zeta. destruct (Z.eqb_spec c DHCP_OPTION_PAD); [done|].
  assert (Hnb : 0 <= n < 256) by (pose proof (sh_bytes _ Hp) as Hby; rewrite list.Forall_lookup in Hby; apply (Hby 109%nat); cbn; by rewrite app_nil_r).
  rewrite (u16_small (108 + n + 2)) by lia. destruct (Z.leb_spec (zlen b) (108 + n + 2)); [|lia]. rewrite u16_small by lia.
  change (108 + DHCP_FILE_LEN) with 236. assert (u16 (236 - zlen b) = 65536 + 236 - zlen b) as ->.
  { unfold u16. symmetry. apply (Z.mod_unique _ _ (-1)); lia. }
  destruct (Z.ltb_spec (108 + n + 2 - zlen b) (65536 + 236 - zlen b)); [|lia]. by destruct (Z.eqb_spec (65536 + 236 - zlen b) 0); [lia|].
Qed.

(** ** Witnesses: an offer of 250.1.168.192 and two messages that put options
    elsewhere *)

Definition none_given : rx_options := RxOptions (replicate 10 0) (replicate 10 false).
Definition offer_fields : list field :=
  [Opt DHCP_OPTION_MESSAGE_TYPE [2]; Pad; Opt DHCP_OPTION_SERVER_ID [192; 168; 1; 1]; Opt DHCP_OPTION_OVERLOAD [DHCP_OVERLOAD_FILE]].
Definition file_fields : list field :=
  [Opt DHCP_OPTION_DNS_SERVER [8; 8; 8; 8; 8; 8; 4; 4; 1; 1; 1; 1]; Opt 12 [112; 99]; Opt DHCP_OPTION_LEASE_TIME [0; 0; 14; 16]].

(** A message from its fields file and options. *)
Definition raw_message (file options : list Z) : list Z := replicate 108 0 ++ file ++ replicate (128 - length file) 0 ++ [99; 130; 83; 99] ++ options.

Definition a_reply : chain := [raw_message (encode_all file_fields ++ [DHCP_OPTION_END]) (encode_all offer_fields ++ [DHCP_OPTION_END])].
Definition a_killer : chain := [raw_message [DHCP_OPTION_OVERLOAD; 1; DHCP_OVERLOAD_FILE; DHCP_OPTION_END] (encode_all offer_fields ++ [DHCP_OPTION_END])].

Lemma shaped_one b : b <> [] -> zlen b <= 2 ^ 15 -> Forall (fun x => 0 <= x < 256) b -> shaped [b].
Proof.
  intros Hb Hl Hby. split; [|done|unfold chain_len; cbn [concat]; by rewrite app_nil_r|cbn [concat]; by rewrite app_nil_r].
  intros [|b1 pre] b2 next E; [|by destruct pre]. cbn [app] in E. injection E as <- <-. done.
Qed.

Lemma bytes_dec bs : forallb (fun x => (0 <=? x) && (x <? 256)) bs = true -> Forall (fun x => 0 <= x < 256) bs.
Proof. intros H. rewrite forallb_forall in H. apply List.Forall_forall. intros x Hx. specialize (H x Hx). lia. Qed.

Lemma shaped_dec b : (match b with [] => false | _ => true end) && (zlen b <=? 2 ^ 15) && forallb (fun x => (0 <=? x) && (x <? 256)) b = true -> shaped [b].
Proof.
  intros [[H1 H2]%andb_prop H3]%andb_prop. apply shaped_one; [by destruct b|lia|by apply bytes_dec].
Qed.

Lemma dhcp_options_roundtrip_witness : exists r', parse_reply 3 a_reply none_given = Ok (ERR_OK, r') /\
  dhcp_option_given r' DHCP_OPTION_IDX_LEASE_TIME = true /\ dhcp_get_option_value r' DHCP_OPTION_IDX_LEASE_TIME = 3600.
Proof.
  destruct (dhcp_options_roundtrip 0 a_reply offer_fields file_fields [] none_given) as (r' & E & H).
  - apply shaped_dec. vm_compute. reflexivity.
  - split.
    + exists []. vm_compute. reflexivity.
    + intros _. eexists. split; [vm_compute; reflexivity|vm_compute; reflexivity].
    + intros H. vm_compute in H. discriminate.
    + vm_compute. reflexivity.
    + split_and!; repeat constructor; cbn; try (intros ?; discriminate); lia.
    + split; vm_compute; intros H; repeat (apply elem_of_cons in H as [H|H]; [discriminate|]); by apply not_elem_of_nil in H.
  - apply (bool_decide_unpack _). vm_compute. exact I.
  - reflexivity.
  - exists r'. split; [exact E|]. apply H; [vm_compute; discriminate|discriminate|]. vm_compute. apply list_elem_of_In. cbn. tauto.
Defined.

Lemma dhcp_parse_safe_witness : exists e r1,
  parse_pass a_reply DHCP_OPTIONS_OFS (u16 (chain_len a_reply)) (dhcp_clear_all_options none_given) = Ok (e, r1).
Proof.
  destruct (dhcp_parse_safe a_reply none_given) as (e & r1 & E & _); [apply shaped_dec; vm_compute; reflexivity|]. by exists e, r1.
Defined.

Lemma dhcp_parse_hangs_witness : parse_reply 1000 a_killer none_given = NoFuel.
Proof.
  apply (dhcp_parse_hangs a_killer offer_fields none_given).
  - apply shaped_dec. vm_compute. reflexivity.
  - repeat constructor; cbn; try (intros ?; discriminate); lia.
  - apply (bool_decide_unpack _). vm_compute. exact I.
  - vm_compute. reflexivity.
  - reflexivity.
  - vm_compute. reflexivity.
  - exists []. vm_compute. reflexivity.
  - eexists. vm_compute. reflexivity.
Defined.

(** An option that goes on behind the next pbuf: the driver does not deliver
    such small pbufs. *)
Definition a_scattered : chain := [raw_message [] [12; 10; 0; 0]; [0; 0; 0; 0]; [0; 0; 0; 0]; [DHCP_OPTION_END]].

Example small_pbufs_overrun : parse_reply 3 a_scattered none_given = UB.
Proof. vm_compute. reflexivity. Qed.
