(* ===== verification/Dhcp.v ===== *)
(** * The DHCP client: src/Utilities/lwip_v1.3.2/src/core/dhcp.c

    The state machine of the client of an interface (RFC 2131): the messages
    it builds and sends, the answers it takes, its two timers and the calls
    of the application. The options of a message are in [DhcpMsg], sending in
    [Udp], the address check in [Etharp]. A failed LWIP_ASSERT is undefined
    behaviour. *)

From S2P Require Import Prelude CStd Mem IpAddr Checksum Pbuf Etharp Autoip Ip Udp DhcpMsg.
From stdpp Require Import gmap.
#[local] Open Scope Z_scope.

(** ** dhcp.h *)

Definition DHCP_COARSE_TIMER_SECS : Z := 60.
Definition DHCP_FINE_TIMER_MSECS : Z := 500.
Definition DHCP_MAX_MSG_LEN_MIN_REQUIRED : Z := 576.
Definition DHCP_MIN_REPLY_LEN : Z := 44.
Definition REBOOT_TRIES : Z := 2.
Definition NETIF_FLAG_DHCP : Z := 0x08.
Definition DHCP_BOOTREQUEST : Z := 1.
Definition DHCP_BOOTREPLY : Z := 2.
Definition DHCP_DISCOVER : Z := 1.
Definition DHCP_OFFER : Z := 2.
Definition DHCP_REQUEST : Z := 3.
Definition DHCP_DECLINE : Z := 4.
Definition DHCP_ACK : Z := 5.
Definition DHCP_NAK : Z := 6.
Definition DHCP_RELEASE : Z := 7.
Definition DHCP_INFORM : Z := 8.
Definition DHCP_HTYPE_ETH : Z := 1.
Definition DHCP_MAGIC_COOKIE : Z := 0x63825363.
Definition SIZEOF_DHCP_MSG : Z := DHCP_OPTIONS_OFS + DHCP_OPTIONS_LEN.

(** The values of the field state; DHCP_INFORM, which dhcp_inform stores
    there, is DHCP_CHECKING as a state. *)
Inductive dhcp_state : Type :=
  | DHCP_OFF
  | DHCP_REQUESTING
  | DHCP_INIT
  | DHCP_REBOOTING
  | DHCP_REBINDING
  | DHCP_RENEWING
  | DHCP_SELECTING
  | DHCP_INFORMING
  | DHCP_CHECKING
  | DHCP_PERMANENT
  | DHCP_BOUND
  | DHCP_BACKING_OFF.

#[export] Instance dhcp_state_eq_dec : EqDecision dhcp_state.
Proof. solve_decision. Defined.

(** ** struct dhcp, struct dhcp_msg *)

Record lease : Type := Lease {
  server_ip_addr : Z;
  offered_ip_addr : Z;
  offered_sn_mask : Z;
  offered_gw_addr : Z;
  offered_t0_lease : Z;
  offered_t1_renew : Z;
  offered_t2_rebind : Z;
  subnet_mask_given : bool;
}.

(** [d_p_out] is p_out, to whose payload msg_out points; [d_msg_in] what
    msg_in points to. *)
Record dhcp : Type := Dhcp {
  d_xid : Z;
  d_pcb : option Z;
  d_msg_in : option (list Z);
  d_state : dhcp_state;
  d_tries : Z;
  d_p_out : option pbufs;
  d_options_out_len : Z;
  d_request_timeout : Z;
  d_t1_timeout : Z;
  d_t2_timeout : Z;
  d_lease : lease;
}.

Record dhcp_msg : Type := DhcpMsg {
  dm_op : Z; dm_htype : Z; dm_hlen : Z; dm_hops : Z; dm_xid : Z; dm_secs : Z; dm_flags : Z;
  dm_ciaddr : Z; dm_yiaddr : Z; dm_siaddr : Z; dm_giaddr : Z;
  dm_chaddr : list Z; dm_sname : list Z; dm_file : list Z; dm_cookie : Z; dm_options : list Z;
}.

Definition dhcp_msg_bytes (m : dhcp_msg) : list Z :=
  [dm_op m; dm_htype m; dm_hlen m; dm_hops m] ++ word_bytes (dm_xid m) ++ store16 (dm_secs m) ++ store16 (dm_flags m) ++
  word_bytes (dm_ciaddr m) ++ word_bytes (dm_yiaddr m) ++ word_bytes (dm_siaddr m) ++ word_bytes (dm_giaddr m) ++
  dm_chaddr m ++ dm_sname m ++ dm_file m ++ word_bytes (dm_cookie m) ++ dm_options m.

Definition no_lease : lease := Lease 0 0 0 0 0 0 0 false.
(** memset(dhcp, 0, sizeof(struct dhcp)) *)
Definition dhcp_zero : dhcp := Dhcp 0 None None DHCP_OFF 0 None 0 0 0 0 no_lease.

Definition set_xid (d : dhcp) (x : Z) : dhcp :=
  Dhcp x (d_pcb d) (d_msg_in d) (d_state d) (d_tries d) (d_p_out d) (d_options_out_len d) (d_request_timeout d) (d_t1_timeout d) (d_t2_timeout d) (d_lease d).
Definition set_dpcb (d : dhcp) (p : option Z) : dhcp :=
  Dhcp (d_xid d) p (d_msg_in d) (d_state d) (d_tries d) (d_p_out d) (d_options_out_len d) (d_request_timeout d) (d_t1_timeout d) (d_t2_timeout d) (d_lease d).
Definition set_msg_in (d : dhcp) (m : option (list Z)) : dhcp :=
  Dhcp (d_xid d) (d_pcb d) m (d_state d) (d_tries d) (d_p_out d) (d_options_out_len d) (d_request_timeout d) (d_t1_timeout d) (d_t2_timeout d) (d_lease d).
Definition set_tries (d : dhcp) (t : Z) : dhcp :=
  Dhcp (d_xid d) (d_pcb d) (d_msg_in d) (d_state d) t (d_p_out d) (d_options_out_len d) (d_request_timeout d) (d_t1_timeout d) (d_t2_timeout d) (d_lease d).
Definition set_out (d : dhcp) (p : option pbufs) (len : Z) : dhcp :=
  Dhcp (d_xid d) (d_pcb d) (d_msg_in d) (d_state d) (d_tries d) p len (d_request_timeout d) (d_t1_timeout d) (d_t2_timeout d) (d_lease d).
Definition set_request_timeout (d : dhcp) (t : Z) : dhcp :=
  Dhcp (d_xid d) (d_pcb d) (d_msg_in d) (d_state d) (d_tries d) (d_p_out d) (d_options_out_len d) t (d_t1_timeout d) (d_t2_timeout d) (d_lease d).
Definition set_t12 (d : dhcp) (t1 t2 : Z) : dhcp :=
  Dhcp (d_xid d) (d_pcb d) (d_msg_in d) (d_state d) (d_tries d) (d_p_out d) (d_options_out_len d) (d_request_timeout d) t1 t2 (d_lease d).
Definition set_lease (d : dhcp) (l : lease) : dhcp :=
  Dhcp (d_xid d) (d_pcb d) (d_msg_in d) (d_state d) (d_tries d) (d_p_out d) (d_options_out_len d) (d_request_timeout d) (d_t1_timeout d) (d_t2_timeout d) l.
Definition set_offered_ip (l : lease) (a : Z) : lease :=
  Lease (server_ip_addr l) a (offered_sn_mask l) (offered_gw_addr l) (offered_t0_lease l) (offered_t1_renew l) (offered_t2_rebind l) (subnet_mask_given l).
Definition set_server (l : lease) (a : Z) : lease :=
  Lease a (offered_ip_addr l) (offered_sn_mask l) (offered_gw_addr l) (offered_t0_lease l) (offered_t1_renew l) (offered_t2_rebind l) (subnet_mask_given l).

Definition dhcp_set_state (d : dhcp) (new_state : dhcp_state) : dhcp :=
  if bool_decide (new_state = d_state d) then d
  else Dhcp (d_xid d) (d_pcb d) (d_msg_in d) new_state 0 (d_p_out d) (d_options_out_len d) 0 (d_t1_timeout d) (d_t2_timeout d) (d_lease d).

(** tries++ and the request timeout of [msecs]. *)
Definition dhcp_retry (d : dhcp) (msecs : Z -> Z) : dhcp :=
  let d := set_tries d (u8 (d_tries d + 1)) in
  set_request_timeout d (u16 ((u16 (msecs (d_tries d)) + DHCP_FINE_TIMER_MSECS - 1) / DHCP_FINE_TIMER_MSECS)).
(** The waiting times of the messages, by the number of tries. *)
Definition msecs_discover (tries : Z) : Z := (if tries <? 6 then Z.shiftl 1 tries else 60) * 1000.
Definition msecs_renew (tries : Z) : Z := if tries <? 10 then tries * 2000 else 20 * 1000.
Definition msecs_rebind (tries : Z) : Z := if tries <? 10 then tries * 1000 else 10 * 1000.

(** ** State: the layers below, netif->dhcp, netif->mtu, the static variable
    xid of dhcp_create_msg, the received options *)

Record dw : Type := DW {
  udp : udpw;
  dhcp_at : Z -> option dhcp;
  mtu : Z -> Z;
  xid : Z;
  rx : rx_options;
}.

Definition set_udp (w : dw) (u : udpw) : dw := DW u (dhcp_at w) (mtu w) (xid w) (rx w).
Definition put_dhcp (w : dw) (n : Z) (d : option dhcp) : dw :=
  DW (udp w) (fun m => if m =? n then d else dhcp_at w m) (mtu w) (xid w) (rx w).
Definition get_dhcp (w : dw) (n : Z) : outcome dhcp := match dhcp_at w n with Some d => Ok d | None => UB end.
Definition low (w : dw) : world := base (ip (udp w)).
Definition set_low (w : dw) (b : world) : dw := set_udp w (set_ipw (udp w) (set_base (ip (udp w)) b)).
Definition dnif (w : dw) (n : Z) : netif := netif_at (low w) n.
Definition set_nif (w : dw) (n : Z) (nf : netif) : dw := set_low w (set_netif (low w) n nf).
Definition dfree (w : dw) (id : Z) : dw := set_low w (emit (low w) [Drop id]).

(** ** Building messages *)

Definition put_option_bytes (d : dhcp) (bs : list Z) : outcome dhcp :=
  let! _ := guard_ub (d_options_out_len d + zlen bs <=? DHCP_OPTIONS_LEN) in
  match d_p_out d with
  | None => UB
  | Some p =>
      let! p := store_payload p (DHCP_OPTIONS_OFS + d_options_out_len d) bs in
      Ok (set_out d (Some p) (d_options_out_len d + zlen bs))
  end.

Definition dhcp_option (d : dhcp) (option_type option_len : Z) : outcome dhcp :=
  let! _ := guard_ub (d_options_out_len d + 2 + option_len <=? DHCP_OPTIONS_LEN) in
  put_option_bytes d [option_type; option_len].
Definition dhcp_option_byte (d : dhcp) (value : Z) : outcome dhcp := put_option_bytes d [value].
Definition dhcp_option_short (d : dhcp) (value : Z) : outcome dhcp :=
  put_option_bytes d [Z.shiftr (Z.land value 0xff00) 8; Z.land value 0x00ff].
Definition dhcp_option_long (d : dhcp) (value : Z) : outcome dhcp :=
  put_option_bytes d [Z.shiftr (Z.land value 0xff000000) 24; Z.shiftr (Z.land value 0x00ff0000) 16;
                      Z.shiftr (Z.land value 0x0000ff00) 8; Z.land value 0x000000ff].

(** The loop of dhcp_option_trailer. *)
Fixpoint padding (fuel : nat) (d : dhcp) : outcome dhcp :=
  match fuel with
  | O => NoFuel
  | S fuel =>
      let len := d_options_out_len d in
      if ((len <? DHCP_MIN_OPTIONS_LEN) || negb (Z.land len 3 =? 0)) && (len <? DHCP_OPTIONS_LEN) then
        let! d := put_option_bytes d [0] in padding fuel d
      else Ok d
  end.

Definition dhcp_option_trailer (d : dhcp) : outcome dhcp :=
  let! d := put_option_bytes d [DHCP_OPTION_END] in
  padding (S (Z.to_nat DHCP_OPTIONS_LEN)) d.

Definition iota (n : Z) : list Z := map (fun i => u8 (Z.of_nat i)) (seq 0 (Z.to_nat n)).

(** The address that a message of type [message_type] has as ciaddr. *)
Definition ciaddr_for (message_type : Z) (s : dhcp_state) (ip_addr : Z) : Z :=
  if (message_type =? DHCP_INFORM) || (message_type =? DHCP_DECLINE) ||
     ((message_type =? DHCP_REQUEST) && (bool_decide (s = DHCP_RENEWING) || bool_decide (s = DHCP_REBINDING)))
  then ip_addr else 0.

Section Dhcp.
Context (lw : lower).

Definition dhcp_create_msg (w : dw) (n : Z) (d : dhcp) (message_type : Z) : outcome (Z * dhcp * dw) :=
  let! _ := guard_ub (match d_p_out d with None => true | Some _ => false end) in
  let (p, i) := ip_alloc lw (ip (udp w)) PBUF_TRANSPORT SIZEOF_DHCP_MSG in
  let w := set_udp w (set_ipw (udp w) i) in
  match p with
  | None => Ok (ERR_MEM, d, w)
  | Some p =>
      let w := if d_tries d =? 0 then DW (udp w) (dhcp_at w) (mtu w) (u32 (xid w + 1)) (rx w) else w in
      let d := set_xid d (xid w) in
      let nf := dnif w n in
      let chaddr := nif_hwaddr nf ++ replicate (Z.to_nat (DHCP_CHADDR_LEN - zlen (nif_hwaddr nf))) 0 in
      let msg := DhcpMsg DHCP_BOOTREQUEST DHCP_HTYPE_ETH (zlen (nif_hwaddr nf)) 0 (lwip_htonl (d_xid d)) 0 0
                   (ciaddr_for message_type (d_state d) (nif_ip_addr nf)) 0 0 0 chaddr
                   (replicate (Z.to_nat DHCP_SNAME_LEN) 0) (replicate (Z.to_nat DHCP_FILE_LEN) 0)
                   (lwip_htonl DHCP_MAGIC_COOKIE) (iota DHCP_OPTIONS_LEN) in
      let! p := store_payload p 0 (dhcp_msg_bytes msg) in
      let d := set_out d (Some p) 0 in
      let! d := dhcp_option d DHCP_OPTION_MESSAGE_TYPE 1 in
      let! d := dhcp_option_byte d message_type in
      Ok (ERR_OK, d, w)
  end.

Definition dhcp_delete_msg (w : dw) (d : dhcp) : outcome (dhcp * dw) :=
  match d_p_out d with
  | None => UB
  | Some p => Ok (set_out d None (d_options_out_len d), dfree w (pb_id p))
  end.

(** The end that the messages share: the trailer, pbuf_realloc,
    udp_sendto_if and dhcp_delete_msg. *)
Definition send_msg (w : dw) (n : Z) (d : dhcp) (pcb : option Z) (dst_ip : Z) : outcome (dhcp * dw) :=
  let! d := dhcp_option_trailer d in
  match d_p_out d, pcb with
  | Some p, Some a =>
      let p := realloc p (SIZEOF_DHCP_MSG - DHCP_OPTIONS_LEN + d_options_out_len d) in
      let d := set_out d (Some p) (d_options_out_len d) in
      let! (_, u) := udp_sendto_if lw (udp w) a p dst_ip DHCP_SERVER_PORT n in
      dhcp_delete_msg (set_udp w u) d
  | _, _ => UB
  end.

Definition option_max_msg_size (d : dhcp) (size : Z) : outcome dhcp :=
  let! d := dhcp_option d DHCP_OPTION_MAX_MSG_SIZE 2 in dhcp_option_short d size.
Definition option_address (d : dhcp) (code addr : Z) : outcome dhcp :=
  let! d := dhcp_option d code 4 in dhcp_option_long d (lwip_ntohl addr).
Definition option_parameters (d : dhcp) : outcome dhcp :=
  let! d := dhcp_option d DHCP_OPTION_PARAMETER_REQUEST_LIST 4 in
  let! d := dhcp_option_byte d DHCP_OPTION_SUBNET_MASK in
  let! d := dhcp_option_byte d DHCP_OPTION_ROUTER in
  let! d := dhcp_option_byte d DHCP_OPTION_BROADCAST in
  dhcp_option_byte d DHCP_OPTION_DNS_SERVER.

(** A function that sends a message: dhcp_create_msg, the options [opts],
    [send_msg]; then, sent or not, the retry. *)
Definition transmit (w : dw) (n : Z) (message_type : Z) (opts : dhcp -> outcome dhcp) (dst_ip : dhcp -> Z) (msecs : Z -> Z) : outcome (Z * dw) :=
  let! d := get_dhcp w n in
  let! (result, d, w) := dhcp_create_msg w n d message_type in
  let! (d, w) :=
    if result =? ERR_OK then let! d := opts d in send_msg w n d (d_pcb d) (dst_ip d) else Ok (d, w) in
  Ok (result, put_dhcp w n (Some (dhcp_retry d msecs))).

Definition update (w : dw) (n : Z) (f : dhcp -> dhcp) : outcome dw :=
  let! d := get_dhcp w n in Ok (put_dhcp w n (Some (f d))).

(** ** The messages *)

Definition to_broadcast (d : dhcp) : Z := IPADDR_BROADCAST.
Definition to_server (d : dhcp) : Z := server_ip_addr (d_lease d).

Definition dhcp_discover (w : dw) (n : Z) : outcome (Z * dw) :=
  let! w := update w n (fun d => dhcp_set_state (set_lease d (set_offered_ip (d_lease d) IPADDR_ANY)) DHCP_SELECTING) in
  transmit w n DHCP_DISCOVER (fun d => let! d := option_max_msg_size d (mtu w n) in option_parameters d) to_broadcast msecs_discover.

Definition dhcp_select (w : dw) (n : Z) : outcome (Z * dw) :=
  let! w := update w n (fun d => dhcp_set_state d DHCP_REQUESTING) in
  transmit w n DHCP_REQUEST (fun d =>
    let! d := option_max_msg_size d (mtu w n) in
    let! d := option_address d DHCP_OPTION_REQUESTED_IP (offered_ip_addr (d_lease d)) in
    let! d := option_address d DHCP_OPTION_SERVER_ID (server_ip_addr (d_lease d)) in
    option_parameters d) to_broadcast msecs_discover.

Definition dhcp_renew (w : dw) (n : Z) : outcome (Z * dw) :=
  let! w := update w n (fun d => dhcp_set_state d DHCP_RENEWING) in
  transmit w n DHCP_REQUEST (fun d => option_max_msg_size d (mtu w n)) to_server msecs_renew.

Definition dhcp_rebind (w : dw) (n : Z) : outcome (Z * dw) :=
  let! w := update w n (fun d => dhcp_set_state d DHCP_REBINDING) in
  transmit w n DHCP_REQUEST (fun d => option_max_msg_size d (mtu w n)) to_broadcast msecs_rebind.

Definition dhcp_reboot (w : dw) (n : Z) : outcome (Z * dw) :=
  let! w := update w n (fun d => dhcp_set_state d DHCP_REBOOTING) in
  transmit w n DHCP_REQUEST (fun d =>
    let! d := option_max_msg_size d 576 in
    option_address d DHCP_OPTION_REQUESTED_IP (offered_ip_addr (d_lease d))) to_broadcast msecs_rebind.

Definition dhcp_decline (w : dw) (n : Z) : outcome (Z * dw) :=
  let! w := update w n (fun d => dhcp_set_state d DHCP_BACKING_OFF) in
  transmit w n DHCP_DECLINE (fun d => option_address d DHCP_OPTION_REQUESTED_IP (offered_ip_addr (d_lease d))) to_broadcast (fun _ => 10 * 1000).

(** The interface is taken down and its addresses are removed. *)
Definition clear_addresses (w : dw) (n : Z) : outcome dw :=
  let! b := netif_set_down (low w) n in
  let b := netif_set_ipaddr b n IPADDR_ANY in
  let b := netif_set_gw b n IPADDR_ANY in
  Ok (set_low w (netif_set_netmask b n IPADDR_ANY)).

Definition dhcp_release (w : dw) (n : Z) : outcome (Z * dw) :=
  let! w := update w n (fun d =>
    set_lease (dhcp_set_state d DHCP_OFF) (Lease 0 0 0 0 0 0 0 (subnet_mask_given (d_lease d)))) in
  let! (result, w) := transmit w n DHCP_RELEASE Ok to_server msecs_rebind in
  let! w := clear_addresses w n in
  Ok (result, w).

(** ** Answers *)

Definition dhcp_handle_nak (w : dw) (n : Z) : outcome dw :=
  let! w := clear_addresses w n in
  let! w := update w n (fun d => dhcp_set_state d DHCP_BACKING_OFF) in
  let! (_, w) := dhcp_discover w n in
  Ok w.

Definition dhcp_check (w : dw) (n : Z) : outcome dw :=
  let! w := update w n (fun d => dhcp_set_state d DHCP_CHECKING) in
  let! d := get_dhcp w n in
  let! (_, b) := etharp_query lw (low w) n (offered_ip_addr (d_lease d)) None in
  update (set_low w b) n (fun d => dhcp_retry d (fun _ => 500)).

Definition dhcp_handle_offer (w : dw) (n : Z) : outcome dw :=
  if dhcp_option_given (rx w) DHCP_OPTION_IDX_SERVER_ID then
    let! d := get_dhcp w n in
    match d_msg_in d with
    | None => UB
    | Some m =>
        let! yiaddr := load32 m DHCP_YIADDR_OFS in
        let l := set_server (d_lease d) (lwip_htonl (dhcp_get_option_value (rx w) DHCP_OPTION_IDX_SERVER_ID)) in
        let! (_, w) := dhcp_select (put_dhcp w n (Some (set_lease d (set_offered_ip l yiaddr)))) n in
        Ok w
    end
  else Ok w.

(** What dhcp_handle_ack makes of the options and yiaddr. *)
Definition acked_lease (l : lease) (r : rx_options) (yiaddr : Z) : lease :=
  let t0 := if dhcp_option_given r DHCP_OPTION_IDX_LEASE_TIME then dhcp_get_option_value r DHCP_OPTION_IDX_LEASE_TIME else offered_t0_lease l in
  let t1 := if dhcp_option_given r DHCP_OPTION_IDX_T1 then dhcp_get_option_value r DHCP_OPTION_IDX_T1 else t0 / 2 in
  let t2 := if dhcp_option_given r DHCP_OPTION_IDX_T2 then dhcp_get_option_value r DHCP_OPTION_IDX_T2 else t0 in
  let given := dhcp_option_given r DHCP_OPTION_IDX_SUBNET_MASK in
  let sn_mask := if given then lwip_htonl (dhcp_get_option_value r DHCP_OPTION_IDX_SUBNET_MASK) else 0 in
  let gw := if dhcp_option_given r DHCP_OPTION_IDX_ROUTER then lwip_htonl (dhcp_get_option_value r DHCP_OPTION_IDX_ROUTER) else 0 in
  Lease (server_ip_addr l) yiaddr sn_mask gw t0 t1 t2 given.

Definition dhcp_handle_ack (w : dw) (n : Z) : outcome dw :=
  let! d := get_dhcp w n in
  match d_msg_in d with
  | None => UB
  | Some m =>
      let! yiaddr := load32 m DHCP_YIADDR_OFS in
      Ok (put_dhcp w n (Some (set_lease d (acked_lease (d_lease d) (rx w) yiaddr))))
  end.

(** A lease time in ticks of the coarse timer; the timer keeps its value for
    an infinite time. *)
Definition lease_ticks (secs timer : Z) : Z :=
  if secs =? 0xffffffff then timer
  else
    let timeout := u32 (secs + DHCP_COARSE_TIMER_SECS / 2) / DHCP_COARSE_TIMER_SECS in
    let t := u16 (if 0xffff <? timeout then 0xffff else timeout) in
    if t =? 0 then 1 else t.

Definition class_mask (ip_addr : Z) : Z :=
  let first_octet := Z.land ip_addr 0xff in
  if first_octet <=? 127 then lwip_htonl 0xff000000
  else if 192 <=? first_octet then lwip_htonl 0xffffff00 else lwip_htonl 0xffff0000.

Definition bound_mask (l : lease) : Z := if subnet_mask_given l then offered_sn_mask l else class_mask (offered_ip_addr l).
Definition bound_gw (l : lease) : Z :=
  if ip_addr_isany (offered_gw_addr l) then Z.lor (Z.land (offered_ip_addr l) (bound_mask l)) (lwip_htonl 1) else offered_gw_addr l.

Definition dhcp_bind (w : dw) (n : Z) : outcome dw :=
  match dhcp_at w n with
  | None => Ok w
  | Some d =>
      let l := d_lease d in
      let t1 := lease_ticks (offered_t1_renew l) (d_t1_timeout d) in
      let t2 := lease_ticks (offered_t2_rebind l) (d_t2_timeout d) in
      let t1 := if (t2 <=? t1) && (0 <? t2) then 0 else t1 in
      let b := netif_set_ipaddr (low w) n (offered_ip_addr l) in
      let b := netif_set_netmask b n (bound_mask l) in
      let b := netif_set_gw b n (bound_gw l) in
      let b := netif_set_up lw b n in
      Ok (put_dhcp (set_low w b) n (Some (dhcp_set_state (set_t12 d t1 t2) DHCP_BOUND)))
  end.

(** An address that somebody else answered for. *)
Definition dhcp_arp_reply (w : dw) (n addr : Z) : outcome dw :=
  match dhcp_at w n with
  | Some d =>
      if bool_decide (d_state d = DHCP_CHECKING) && ip_addr_cmp addr (offered_ip_addr (d_lease d)) then
        let! (_, w) := dhcp_decline w n in Ok w
      else Ok w
  | None => Ok w
  end.

(** The part of dhcp_recv behind the option DHCP message type. *)
Definition dhcp_dispatch (w : dw) (n : Z) (msg_type : Z) : outcome dw :=
  let! d := get_dhcp w n in
  let st := d_state d in
  let is_any (l : list dhcp_state) := existsb (fun s => bool_decide (st = s)) l in
  if msg_type =? DHCP_ACK then
    if is_any [DHCP_REQUESTING] then let! w := dhcp_handle_ack w n in dhcp_check w n
    else if is_any [DHCP_REBOOTING; DHCP_REBINDING; DHCP_RENEWING] then dhcp_bind w n
    else Ok w
  else if (msg_type =? DHCP_NAK) && is_any [DHCP_REBOOTING; DHCP_REQUESTING; DHCP_REBINDING; DHCP_RENEWING] then dhcp_handle_nak w n
  else if (msg_type =? DHCP_OFFER) && is_any [DHCP_SELECTING] then
    let! w := update w n (fun d => set_request_timeout d 0) in dhcp_handle_offer w n
  else Ok w.

(** Passes of dhcp_parse_reply; a message that needs more never ends. *)
Definition parse_fuel : nat := 8.

Definition dhcp_recv (w : dw) (n : Z) (p : pbufs) : outcome dw :=
  let! d := get_dhcp w n in
  let! _ := guard_ub (match d_msg_in d with None => true | Some _ => false end) in
  let reply := first p in
  let! w :=
    if zlen reply <? DHCP_MIN_REPLY_LEN then Ok w
    else
      let! op := rd reply 0 in
      if negb (op =? DHCP_BOOTREPLY) then Ok w
      else
        let hwaddr := nif_hwaddr (dnif w n) in
        let! chaddr := slice reply DHCP_CHADDR_OFS (zlen hwaddr) in
        if negb (bool_decide (hwaddr = chaddr)) then Ok w
        else
          let! reply_xid := load32 reply DHCP_XID_OFS in
          if negb (lwip_ntohl reply_xid =? d_xid d) then Ok w
          else
            let! (e, r) := parse_reply parse_fuel (map snd (pb_chain p)) (rx w) in
            let w := DW (udp w) (dhcp_at w) (mtu w) (xid w) r in
            let! w := update w n (fun d => set_msg_in d (Some reply)) in
            if negb (e =? ERR_OK) then Ok w
            else if negb (dhcp_option_given r DHCP_OPTION_IDX_MSG_TYPE) then Ok w
            else dhcp_dispatch w n (u8 (dhcp_get_option_value r DHCP_OPTION_IDX_MSG_TYPE)) in
  let! w := update w n (fun d => set_msg_in d None) in
  Ok (dfree w (pb_id p)).

(** ** Timers *)

Definition discard_result (m : outcome (Z * dw)) : outcome dw := let! (_, w) := m in Ok w.

Definition release_and_discover (w : dw) (n : Z) : outcome dw :=
  let! (_, w) := dhcp_release w n in discard_result (dhcp_discover w n).

Definition dhcp_timeout (w : dw) (n : Z) : outcome dw :=
  let! d := get_dhcp w n in
  match d_state d with
  | DHCP_BACKING_OFF | DHCP_SELECTING => discard_result (dhcp_discover w n)
  | DHCP_REQUESTING => if d_tries d <=? 5 then discard_result (dhcp_select w n) else release_and_discover w n
  | DHCP_CHECKING => if d_tries d <=? 1 then dhcp_check w n else dhcp_bind w n
  | DHCP_RENEWING => discard_result (dhcp_renew w n)
  | DHCP_REBINDING => if d_tries d <=? 8 then discard_result (dhcp_rebind w n) else release_and_discover w n
  | DHCP_REBOOTING => if d_tries d <? REBOOT_TRIES then discard_result (dhcp_reboot w n) else discard_result (dhcp_discover w n)
  | _ => Ok w
  end.

Definition leased (s : dhcp_state) : bool := match s with DHCP_REQUESTING | DHCP_BOUND | DHCP_RENEWING => true | _ => false end.
Definition dhcp_t1_timeout (w : dw) (n : Z) : outcome dw :=
  let! d := get_dhcp w n in if leased (d_state d) then discard_result (dhcp_renew w n) else Ok w.
Definition dhcp_t2_timeout (w : dw) (n : Z) : outcome dw :=
  let! d := get_dhcp w n in if leased (d_state d) then discard_result (dhcp_rebind w n) else Ok w.

(** The bodies of the loops over the interfaces. *)
Definition fine_tmr_netif (w : dw) (n : Z) : outcome dw :=
  match dhcp_at w n with
  | None => Ok w
  | Some d =>
      if 1 <? d_request_timeout d then Ok (put_dhcp w n (Some (set_request_timeout d (d_request_timeout d - 1))))
      else if d_request_timeout d =? 1 then dhcp_timeout (put_dhcp w n (Some (set_request_timeout d 0))) n
      else Ok w
  end.

Definition coarse_tmr_netif (w : dw) (n : Z) : outcome dw :=
  match dhcp_at w n with
  | None => Ok w
  | Some d =>
      let t1 := d_t1_timeout d in
      let t2 := d_t2_timeout d in
      if t2 =? 1 then dhcp_t2_timeout (put_dhcp w n (Some (set_t12 d t1 (u16 (t2 - 1))))) n
      else
        let w := put_dhcp w n (Some (set_t12 d (u16 (t1 - 1)) (u16 (t2 - 1)))) in
        if t1 =? 1 then dhcp_t1_timeout w n else Ok w
  end.

Fixpoint each_netif (ns : list Z) (body : dw -> Z -> outcome dw) (w : dw) : outcome dw :=
  match ns with [] => Ok w | n :: ns => let! w := body w n in each_netif ns body w end.

Definition dhcp_fine_tmr (w : dw) : outcome dw := each_netif (netif_list (low w)) fine_tmr_netif w.
Definition dhcp_coarse_tmr (w : dw) : outcome dw := each_netif (netif_list (low w)) coarse_tmr_netif w.

(** ** Calls of the application *)

Definition dhcp_set_struct (w : dw) (n : Z) : outcome dw :=
  let! _ := guard_ub (match dhcp_at w n with None => true | Some _ => false end) in
  Ok (put_dhcp w n (Some dhcp_zero)).

Definition dhcp_cleanup (w : dw) (n : Z) : dw := put_dhcp w n None.

Definition clear_dhcp_flag (w : dw) (n : Z) : dw :=
  set_nif w n (set_nif_flags (dnif w n) (Z.land (nif_flags (dnif w n)) (Z.lnot NETIF_FLAG_DHCP))).

Definition dhcp_stop (w : dw) (n : Z) : outcome dw :=
  let w := clear_dhcp_flag w n in
  match dhcp_at w n with
  | None => Ok w
  | Some d =>
      let! u := match d_pcb d with Some a => udp_remove (udp w) a | None => Ok (udp w) end in
      let! _ := guard_ub (match d_msg_in d with None => true | Some _ => false end) in
      Ok (put_dhcp (set_udp w u) n (Some (dhcp_set_state (set_dpcb d None) DHCP_OFF)))
  end.

(** The structure that dhcp_start works with: a new one, or the old one
    without its block; [false] when there is no memory. *)
Definition start_struct (w : dw) (n : Z) : outcome (bool * dw) :=
  match dhcp_at w n with
  | None => let (ok, b) := alloc lw (low w) in Ok (ok, set_low w b)
  | Some d =>
      let! u := match d_pcb d with Some a => udp_remove (udp w) a | None => Ok (udp w) end in
      let! _ := guard_ub (match d_p_out d, d_msg_in d with None, None => true | _, _ => false end) in
      Ok (true, set_udp w u)
  end.

(** The new block [a] of the client: bound, connected, with its callback. *)
Definition start_block (u : udpw) (a n : Z) : outcome udpw :=
  let! p := get_pcb u a in
  let u := set_pcb u a (ip_set_option p SOF_BROADCAST) in
  let! (_, u) := udp_bind u a IPADDR_ANY DHCP_CLIENT_PORT in
  let! (_, u) := udp_connect u a IPADDR_ANY DHCP_SERVER_PORT in
  udp_recv u a (Some (DhcpRecv n)).

Definition dhcp_start (w : dw) (n : Z) : outcome (Z * dw) :=
  let w := clear_dhcp_flag w n in
  if negb (has_flag (dnif w n) NETIF_FLAG_ETHARP) then Ok (ERR_ARG, w)
  else if mtu w n <? DHCP_MAX_MSG_LEN_MIN_REQUIRED then Ok (ERR_MEM, w)
  else
    let! (ok, w) := start_struct w n in
    if negb ok then Ok (ERR_MEM, w)
    else
      let (pcb, u) := udp_new (udp w) in
      let w := put_dhcp (set_udp w u) n (Some (set_dpcb dhcp_zero pcb)) in
      match pcb with
      | None => Ok (ERR_MEM, w)
      | Some a =>
          let! u := start_block (udp w) a n in
          let! (result, w) := dhcp_discover (set_udp w u) n in
          if negb (result =? ERR_OK) then let! w := dhcp_stop w n in Ok (ERR_MEM, w)
          else Ok (result, set_nif w n (set_nif_flags (dnif w n) (Z.lor (nif_flags (dnif w n)) NETIF_FLAG_DHCP)))
      end.

(** The structure is on the stack. *)
Definition dhcp_inform (w : dw) (n : Z) : outcome dw :=
  let d := dhcp_set_state dhcp_zero DHCP_CHECKING in
  let! (pcb, d, w) :=
    match match dhcp_at w n with Some d' => d_pcb d' | None => None end with
    | Some a => Ok (Some a, d, w)
    | None =>
        let (pcb, u) := udp_new (udp w) in
        match pcb with
        | None => Ok (None, d, set_udp w u)
        | Some a =>
            let! p := get_pcb u a in
            let! (_, u) := udp_bind (set_pcb u a (ip_set_option p SOF_BROADCAST)) a IPADDR_ANY DHCP_CLIENT_PORT in
            Ok (Some a, set_dpcb d (Some a), set_udp w u)
        end
    end in
  match pcb with
  | None => Ok w
  | Some a =>
      let! (result, d, w) := dhcp_create_msg w n d DHCP_INFORM in
      let! (d, w) :=
        if result =? ERR_OK then
          let! d := option_max_msg_size d (mtu w n) in send_msg w n d (Some a) IPADDR_BROADCAST
        else Ok (d, w) in
      match d_pcb d with
      | Some a => let! u := udp_remove (udp w) a in Ok (set_udp w u)
      | None => Ok w
      end
  end.

Definition dhcp_network_changed (w : dw) (n : Z) : outcome dw :=
  match dhcp_at w n with
  | None => Ok w
  | Some d =>
      match d_state d with
      | DHCP_REBINDING | DHCP_RENEWING | DHCP_BOUND | DHCP_REBOOTING =>
          let! b := netif_set_down (low w) n in
          let! w := update (set_low w b) n (fun d => set_tries d 0) in
          discard_result (dhcp_reboot w n)
      | DHCP_OFF => Ok w
      | _ =>
          let! w := update w n (fun d => set_tries d 0) in
          discard_result (dhcp_discover w n)
      end
  end.

End Dhcp.

(** ** Theory: the text of a message *)

(** A message under construction: the fields [hd] up to the options, the
    options [opts] so far. *)
Definition draft (d : dhcp) (id : Z) (hd opts : list Z) : dhcp :=
  set_out d (Some (Pbufs id (replicate (Z.to_nat (headroom PBUF_TRANSPORT)) 0)
    [(PBUF_RAM, hd ++ opts ++ drop (length opts) (iota DHCP_OPTIONS_LEN))] [] 0)) (zlen opts).

Lemma iota_length : length (iota DHCP_OPTIONS_LEN) = 68%nat.
Proof. reflexivity. Qed.

Lemma put_draft d id hd opts bs : length hd = 240%nat -> zlen opts + zlen bs <= 68 ->
  put_option_bytes (draft d id hd opts) bs = Ok (draft d id hd (opts ++ bs)).
Proof.
  intros Hh Hl. unfold put_option_bytes, draft. cbn [d_options_out_len d_p_out set_out]. change DHCP_OPTIONS_LEN with 68 at 1.
  destruct (Z.leb_spec (zlen opts + zlen bs) 68); [|lia]. cbn [guard_ub obind]. change DHCP_OPTIONS_OFS with 240.
  pose proof iota_length as Hi. generalize dependent (iota DHCP_OPTIONS_LEN). intros tail Hi.
  assert (zlen hd = 240) by (unfold zlen; lia). pose proof (zlen_nonneg opts). pose proof (zlen_nonneg bs).
  unfold store_payload. cbn [pb_chain pb_id pb_room pb_slack pb_flags].
  assert (Ht : zlen (drop (length opts) tail) = 68 - zlen opts) by (unfold zlen in *; rewrite length_drop; lia).
  rewrite splice_ok by (rewrite ?zlen_app; lia). cbn [obind]. unfold set_out. cbn. rewrite zlen_app. do 6 f_equal.
  assert (En : Z.to_nat (240 + zlen opts) = (length hd + length opts)%nat) by (unfold zlen in *; lia). rewrite En.
  rewrite take_app_add, take_app_length, <- !app_assoc. do 3 f_equal.
  rewrite <- Nat.add_assoc, drop_app_add, drop_app_add, drop_drop, length_app. done.
Qed.

Definition be2 (v : Z) : list Z := [v / 256; v mod 256].

Lemma land_ff00 v : 0 <= v < 2 ^ 16 -> Z.shiftr (Z.land v 0xff00) 8 = v / 256.
Proof.
  intros Hv. change 0xff00 with (255 * 2 ^ 8). rewrite land_byte, Z.shiftr_div_pow2 by lia. rewrite Z.div_mul by lia. apply Z.mod_small.
  split; [apply Z.div_pos; lia|apply Z.div_lt_upper_bound; lia].
Qed.

Lemma option_max_msg_size_draft d id hd opts v : length hd = 240%nat -> zlen opts + 4 <= 68 -> 0 <= v < 2 ^ 16 ->
  option_max_msg_size (draft d id hd opts) v = Ok (draft d id hd (opts ++ encode_field (Opt DHCP_OPTION_MAX_MSG_SIZE (be2 v)))).
Proof.
  intros Hh Hl Hv. unfold option_max_msg_size, dhcp_option, dhcp_option_short. cbn [draft set_out d_options_out_len].
  change DHCP_OPTIONS_LEN with 68. destruct (Z.leb_spec (zlen opts + 2 + 2) 68); [|lia]. cbn [guard_ub obind].
  rewrite put_draft by (done || (change (zlen _) with 2 at 2; lia)). cbn [obind]. rewrite put_draft, <- app_assoc, land_ff00; [|done|done|].
  - change 0x00ff with (Z.ones 8). by rewrite Z.land_ones by lia.
  - rewrite zlen_app. change (zlen _) with 2 at 2. change (zlen _) with 2 at 2. lia.
Qed.

Lemma option_long_bytes a : 0 <= a < 2 ^ 32 ->
  [Z.shiftr (Z.land (lwip_ntohl a) 0xff000000) 24; Z.shiftr (Z.land (lwip_ntohl a) 0x00ff0000) 16;
   Z.shiftr (Z.land (lwip_ntohl a) 0x0000ff00) 8; Z.land (lwip_ntohl a) 0x000000ff] = word_bytes a.
Proof.
  intros Ha. unfold lwip_ntohl. rewrite htonl_val by done. pose proof (byte_mod a). pose proof (byte_mod (a / 2 ^ 8)). pose proof (byte_mod (a / 2 ^ 16)). pose proof (byte_mod (a / 2 ^ 24)).
  pose proof (be32_bytes _ _ _ _ H H0 H1 H2) as B. unfold word_bytes in *. set (v := be32 _ _ _ _) in *. injection B as B1 B2 B3 B4.
  change 0xff000000 with (255 * 2 ^ 24). change 0x00ff0000 with (255 * 2 ^ 16). change 0x0000ff00 with (255 * 2 ^ 8). change 0x000000ff with (255 * 2 ^ 0).
  rewrite !land_byte, !Z.shiftr_div_pow2, !Z.div_mul by lia. change (2 ^ 0) with 1. rewrite Z.div_1_r, Z.mul_1_r. by rewrite B1, B2, B3, B4.
Qed.

Lemma option_address_draft d id hd opts c a : length hd = 240%nat -> zlen opts + 6 <= 68 -> 0 <= a < 2 ^ 32 ->
  option_address (draft d id hd opts) c a = Ok (draft d id hd (opts ++ encode_field (Opt c (word_bytes a)))).
Proof.
  intros Hh Hl Hv. unfold option_address, dhcp_option, dhcp_option_long. cbn [draft set_out d_options_out_len].
  change DHCP_OPTIONS_LEN with 68. destruct (Z.leb_spec (zlen opts + 2 + 4) 68); [|lia]. cbn [guard_ub obind].
  rewrite put_draft by (done || (change (zlen _) with 2 at 2; lia)). cbn [obind]. rewrite option_long_bytes by done.
  rewrite put_draft, <- app_assoc; [done|done|]. rewrite zlen_app. change (zlen [c; 4]) with 2. change (zlen (word_bytes a)) with 4. lia.
Qed.

Definition parameters : field :=
  Opt DHCP_OPTION_PARAMETER_REQUEST_LIST [DHCP_OPTION_SUBNET_MASK; DHCP_OPTION_ROUTER; DHCP_OPTION_BROADCAST; DHCP_OPTION_DNS_SERVER].

Lemma option_parameters_draft d id hd opts : length hd = 240%nat -> zlen opts + 6 <= 68 ->
  option_parameters (draft d id hd opts) = Ok (draft d id hd (opts ++ encode_field parameters)).
Proof.
  intros Hh Hl. unfold option_parameters, dhcp_option, dhcp_option_byte. cbn [draft set_out d_options_out_len].
  change DHCP_OPTIONS_LEN with 68. destruct (Z.leb_spec (zlen opts + 2 + 4) 68); [|lia]. cbn [guard_ub obind].
  assert (H1 : forall x : Z, zlen [x] = 1) by done. assert (H2 : forall x y : Z, zlen [x; y] = 2) by done.
  rewrite put_draft by (rewrite ?zlen_app, ?H1, ?H2; done || lia). cbn [obind].
  do 3 (rewrite put_draft by (rewrite ?zlen_app, ?H1, ?H2; done || lia); cbn [obind]).
  rewrite put_draft by (rewrite ?zlen_app, ?H1, ?H2; done || lia). by rewrite <- !app_assoc.
Qed.

Lemma padding_draft d id hd : length hd = 240%nat -> forall k fuel opts, zlen opts + Z.of_nat k = 68 -> (k < fuel)%nat ->
  padding fuel (draft d id hd opts) = Ok (draft d id hd (opts ++ replicate k 0)).
Proof.
  intros Hh k. induction k as [|k IH]; intros [|fuel] opts Hl Hf; try lia; cbn [padding].
  - cbn [draft set_out d_options_out_len]. change DHCP_OPTIONS_LEN with 68. change DHCP_MIN_OPTIONS_LEN with 68.
    destruct (Z.ltb_spec (zlen opts) 68); [lia|]. rewrite andb_false_r. by rewrite app_nil_r.
  - cbn [draft set_out d_options_out_len]. change DHCP_OPTIONS_LEN with 68 at 1. change DHCP_MIN_OPTIONS_LEN with 68.
    destruct (Z.ltb_spec (zlen opts) 68); [|lia]. cbn [orb andb]. rewrite put_draft by (done || (change (zlen [0]) with 1; lia)). cbn [obind].
    rewrite IH, <- app_assoc; [done| |lia]. rewrite zlen_app. change (zlen [0]) with 1. lia.
Qed.

(** The options field of a message with the options [fs]. *)
Definition options_text (fs : list field) : list Z :=
  encode_all fs ++ DHCP_OPTION_END :: replicate (68 - S (length (encode_all fs))) 0.

Lemma options_text_length fs : zlen (encode_all fs) <= 67 -> zlen (options_text fs) = 68.
Proof. intros H. unfold options_text, zlen in *. rewrite length_app. cbn [length]. rewrite length_replicate. lia. Qed.

Lemma trailer_draft d id hd fs : length hd = 240%nat -> zlen (encode_all fs) <= 67 ->
  dhcp_option_trailer (draft d id hd (encode_all fs)) = Ok (draft d id hd (options_text fs)).
Proof.
  intros Hh Hl. unfold dhcp_option_trailer. rewrite put_draft by (done || (change (zlen [_]) with 1; lia)). cbn [obind].
  rewrite (padding_draft d id hd Hh (68 - S (length (encode_all fs)))).
  - unfold options_text. by rewrite <- app_assoc.
  - rewrite zlen_app. change (zlen [DHCP_OPTION_END]) with 1. unfold zlen in *. lia.
  - change (Z.to_nat DHCP_OPTIONS_LEN) with 68%nat. lia.
Qed.

(** The fields of a message up to the options. *)
Definition message_head (hwaddr : list Z) (x ciaddr : Z) : list Z :=
  [DHCP_BOOTREQUEST; DHCP_HTYPE_ETH; zlen hwaddr; 0] ++ word_bytes (lwip_htonl x) ++ store16 0 ++ store16 0 ++
  word_bytes ciaddr ++ word_bytes 0 ++ word_bytes 0 ++ word_bytes 0 ++
  (hwaddr ++ replicate (Z.to_nat (DHCP_CHADDR_LEN - zlen hwaddr)) 0) ++ replicate (Z.to_nat DHCP_SNAME_LEN) 0 ++
  replicate (Z.to_nat DHCP_FILE_LEN) 0 ++ word_bytes (lwip_htonl DHCP_MAGIC_COOKIE).

Lemma message_head_length hwaddr x c : mac hwaddr -> length (message_head hwaddr x c) = 240%nat.
Proof. intros H. unfold message_head, zlen. rewrite !length_app, !length_replicate, H. reflexivity. Qed.

(** The transaction of the next message. *)
Definition next_xid (w : dw) (d : dhcp) : Z := if d_tries d =? 0 then u32 (xid w + 1) else xid w.

(** The state of the layers below with the pbuf of the message. *)
Definition with_msg (w : dw) : ipw := set_base (ip (udp w)) (took (asked (low w))).

Definition type_field (message_type : Z) : field := Opt DHCP_OPTION_MESSAGE_TYPE [message_type].

Section Theory.
Context (lw : lower).

Lemma create_msg_eq w n d type : d_p_out d = None -> mac (nif_hwaddr (dnif w n)) ->
  dhcp_create_msg lw w n d type =
    if lw_alloc lw (answers (low w)) then
      Ok (ERR_OK,
        draft (set_xid d (next_xid w d)) (next_id (low w))
          (message_head (nif_hwaddr (dnif w n)) (next_xid w d) (ciaddr_for type (d_state d) (nif_ip_addr (dnif w n)))) (encode_all [type_field type]),
        DW (set_ipw (udp w) (with_msg w)) (dhcp_at w) (mtu w) (next_xid w d) (rx w))
    else Ok (ERR_MEM, d, set_low w (asked (low w))).
Proof.
  intros Hd Hm. unfold dhcp_create_msg, ip_alloc, alloc. rewrite Hd. cbn [guard_ub obind]. fold (low w).
  destruct (lw_alloc lw (answers (low w))); [|done]. cbn match. fold (with_msg w).
  set (w1 := if d_tries d =? 0 then _ else _).
  assert (w1 = DW (set_ipw (udp w) (with_msg w)) (dhcp_at w) (mtu w) (next_xid w d) (rx w)) as -> by (subst w1; unfold next_xid; by destruct (d_tries d =? 0)).
  cbn [xid]. set (x := next_xid w d). cbn zeta. cbn [d_xid set_xid].
  change (dnif (DW (set_ipw (udp w) (with_msg w)) (dhcp_at w) (mtu w) x (rx w)) n) with (dnif w n).
  change (d_state (set_xid d x)) with (d_state d).
  set (hd := message_head (nif_hwaddr (dnif w n)) x (ciaddr_for type (d_state d) (nif_ip_addr (dnif w n)))).
  assert (Hh : length hd = 240%nat) by by apply message_head_length.
  set (bytes := dhcp_msg_bytes _). assert (Eb : bytes = hd ++ iota DHCP_OPTIONS_LEN).
  { subst bytes hd. unfold dhcp_msg_bytes, message_head. cbn [dm_op dm_htype dm_hlen dm_hops dm_xid dm_secs dm_flags dm_ciaddr dm_yiaddr dm_siaddr dm_giaddr dm_chaddr dm_sname dm_file dm_cookie dm_options].
    by rewrite <- !app_assoc. }
  assert (Hs : store_payload (alloc_ram (next_id (low w)) PBUF_TRANSPORT SIZEOF_DHCP_MSG) 0 bytes =
    Ok (Pbufs (next_id (low w)) (replicate (Z.to_nat (headroom PBUF_TRANSPORT)) 0) [(PBUF_RAM, hd ++ [] ++ drop 0 (iota DHCP_OPTIONS_LEN))] [] 0)).
  { unfold store_payload, alloc_ram. cbn [pb_chain pb_id pb_room pb_slack pb_flags]. change (Z.to_nat SIZEOF_DHCP_MSG) with 308%nat.
    assert (Hb : length bytes = 308%nat) by (rewrite Eb, length_app, Hh, iota_length; done).
    rewrite splice_ok by (unfold zlen; rewrite ?length_replicate, ?Hb; lia). cbn [obind]. change (Z.to_nat 0) with 0%nat.
    rewrite take_0, Hb, drop_ge, app_nil_r, Eb by (rewrite length_replicate; lia). done. }
  change (next_id (asked (low w))) with (next_id (low w)). rewrite Hs. cbn [obind].
  change (set_out (set_xid d x) (Some _) 0) with (draft (set_xid d x) (next_id (low w)) hd []).
  unfold dhcp_option, dhcp_option_byte. change (guard_ub _) with (Ok tt). cbn [obind].
  rewrite put_draft by done. cbn [obind]. rewrite put_draft by done. reflexivity.
Qed.

(** The UDP data of a message. *)
Definition message_text (hwaddr : list Z) (x ciaddr : Z) (fs : list field) : list Z := message_head hwaddr x ciaddr ++ options_text fs.

(** The block of a client: bound to a port of any address. *)
Definition good_pcb (u : udpw) (a : Z) (p : udp_pcb) : Prop := pcb_at u !! a = Some p /\ u_local_port p <> 0 /\ u_local_ip p = 0.

Lemma send_msg_spec w n d id hd fs a p dst : world_ok (low w) -> length hd = 240%nat -> zlen (encode_all fs) <= 67 -> good_pcb (udp w) a p ->
  wp (send_msg lw w n (draft d id hd (encode_all fs)) (Some a) dst) (fun '(d', w') => d' = set_out d None 68 /\ exists i,
    ip_sent lw (ip (udp w)) n id dst (udp_packet (ip (udp w)) n p dst DHCP_SERVER_PORT (hd ++ options_text fs)) i /\
    w' = set_udp w (set_ipw (udp w) (free i id))).
Proof.
  intros Hw Hh Hl (Ha & Hp & Hip). unfold send_msg. rewrite trailer_draft by done. cbn [obind draft set_out d_p_out d_options_out_len].
  rewrite options_text_length by done. pose proof (options_text_length fs Hl) as Hol.
  assert (drop (length (options_text fs)) (iota DHCP_OPTIONS_LEN) = []) as -> by (apply drop_ge; rewrite iota_length; unfold zlen in Hol; lia).
  rewrite app_nil_r. set (q := Pbufs _ _ _ _ _). assert (Hd : data q = hd ++ options_text fs) by (unfold data, chain_bytes; cbn; by rewrite app_nil_r).
  assert (realloc q (SIZEOF_DHCP_MSG - DHCP_OPTIONS_LEN + 68) = q) as ->.
  { unfold realloc, pb_tot_len. rewrite Hd, zlen_app, Hol. replace (zlen hd) with 240 by (unfold zlen; lia). by change (240 + 68 <=? SIZEOF_DHCP_MSG - DHCP_OPTIONS_LEN + 68) with true. }
  pose proof (udp_sendto_if_spec lw (udp w) a p q dst DHCP_SERVER_PORT n Hw Ha Hp Hip ltac:(split; [by left|apply tidy_1]) ltac:(by vm_compute)) as Hs.
  destruct (udp_sendto_if _ _ _ _ _ _ _) as [[e u]| |]; [|done..]. cbn [wp obind] in *. destruct Hs as (i & Hi & ->). rewrite Hd in Hi.
  split; [done|]. exists i. by split.
Qed.

(** What the functions that send a message do: without memory only the
    retry, otherwise one datagram. *)
Inductive transmitted (w : dw) (n : Z) (d : dhcp) (p : udp_pcb) (type : Z) (fs : list field) (dst : Z) (msecs : Z -> Z) : Z -> dw -> Prop :=
  | transmitted_nomem : lw_alloc lw (answers (low w)) = false ->
      transmitted w n d p type fs dst msecs ERR_MEM (put_dhcp (set_low w (asked (low w))) n (Some (dhcp_retry d msecs)))
  | transmitted_sent i : lw_alloc lw (answers (low w)) = true ->
      ip_sent lw (with_msg w) n (next_id (low w)) dst
        (udp_packet (with_msg w) n p dst DHCP_SERVER_PORT
          (message_text (nif_hwaddr (dnif w n)) (next_xid w d) (ciaddr_for type (d_state d) (nif_ip_addr (dnif w n))) (type_field type :: fs))) i ->
      transmitted w n d p type fs dst msecs ERR_OK
        (put_dhcp (DW (set_ipw (udp w) (free i (next_id (low w)))) (dhcp_at w) (mtu w) (next_xid w d) (rx w)) n
          (Some (dhcp_retry (set_out (set_xid d (next_xid w d)) None 68) msecs))).

Lemma transmit_spec w n d a p type opts fs dst msecs : world_ok (low w) -> dhcp_at w n = Some d -> d_p_out d = None -> d_pcb d = Some a ->
  good_pcb (udp w) a p ->
  (forall id hd, length hd = 240%nat -> opts (draft (set_xid d (next_xid w d)) id hd (encode_all [type_field type])) =
    Ok (draft (set_xid d (next_xid w d)) id hd (encode_all (type_field type :: fs)))) ->
  zlen (encode_all (type_field type :: fs)) <= 67 -> (forall id hd o, dst (draft (set_xid d (next_xid w d)) id hd o) = dst d) ->
  wp (transmit lw w n type opts dst msecs) (fun '(r, w') => transmitted w n d p type fs (dst d) msecs r w').
Proof.
  intros Hw Hd Ho Hpcb Hg Hopts Hl Hdst. unfold transmit, get_dhcp. rewrite Hd. cbn [obind].
  assert (Hm : mac (nif_hwaddr (dnif w n))) by apply Hw. rewrite create_msg_eq by done.
  destruct (lw_alloc lw (answers (low w))) eqn:Ea; cbn [obind].
  2:{ change (ERR_MEM =? ERR_OK) with false. cbn [obind wp]. by apply transmitted_nomem. }
  change (ERR_OK =? ERR_OK) with true. cbn match. set (hd := message_head _ _ _). assert (Hh : length hd = 240%nat) by by apply message_head_length.
  rewrite (Hopts _ _ Hh). cbn [obind]. rewrite Hdst. change (d_pcb (draft (set_xid d (next_xid w d)) (next_id (low w)) hd (encode_all (type_field type :: fs)))) with (d_pcb d). rewrite Hpcb.
  set (w1 := DW _ _ _ _ _). pose proof (send_msg_spec w1 n (set_xid d (next_xid w d)) (next_id (low w)) hd (type_field type :: fs) a p (dst d)) as Hs.
  specialize (Hs ltac:(by destruct Hw) Hh Hl Hg). destruct (send_msg lw _ _ _ _ _) as [[d' w']| |]; [|done..]. cbn [wp obind] in *.
  destruct Hs as (-> & i & Hi & ->). apply (transmitted_sent w n d p type fs (dst d) msecs i Ea). exact Hi.
Qed.

(** The options of the messages. *)
Definition fields_discover (mtu : Z) : list field := [Opt DHCP_OPTION_MAX_MSG_SIZE (be2 mtu); parameters].
Definition fields_select (mtu : Z) (l : lease) : list field :=
  [Opt DHCP_OPTION_MAX_MSG_SIZE (be2 mtu); Opt DHCP_OPTION_REQUESTED_IP (word_bytes (offered_ip_addr l));
   Opt DHCP_OPTION_SERVER_ID (word_bytes (server_ip_addr l)); parameters].
Definition fields_renew (mtu : Z) : list field := [Opt DHCP_OPTION_MAX_MSG_SIZE (be2 mtu)].
Definition fields_reboot (l : lease) : list field :=
  [Opt DHCP_OPTION_MAX_MSG_SIZE (be2 576); Opt DHCP_OPTION_REQUESTED_IP (word_bytes (offered_ip_addr l))].
Definition fields_decline (l : lease) : list field := [Opt DHCP_OPTION_REQUESTED_IP (word_bytes (offered_ip_addr l))].

Lemma update_eq w n f d : dhcp_at w n = Some d -> update w n f = Ok (put_dhcp w n (Some (f d))).
Proof. intros H. unfold update, get_dhcp. by rewrite H. Qed.

Lemma put_at w n d : dhcp_at (put_dhcp w n d) n = d.
Proof. cbn. by rewrite Z.eqb_refl. Qed.

Lemma set_state_p_out d s : d_p_out (dhcp_set_state d s) = d_p_out d /\ d_pcb (dhcp_set_state d s) = d_pcb d /\ d_lease (dhcp_set_state d s) = d_lease d /\
  d_msg_in (dhcp_set_state d s) = d_msg_in d /\ d_state (dhcp_set_state d s) = s /\ d_t1_timeout (dhcp_set_state d s) = d_t1_timeout d /\
  d_t2_timeout (dhcp_set_state d s) = d_t2_timeout d /\ d_xid (dhcp_set_state d s) = d_xid d.
Proof. unfold dhcp_set_state. destruct (bool_decide _) eqn:E; [apply bool_decide_eq_true in E; by rewrite E|done]. Qed.

(** ** Theory: the messages *)

Definition addr32 (a : Z) : Prop := 0 <= a < 2 ^ 32.

(** A client that can send: its block [p] at [a], no message under way. *)
Record sender (w : dw) (n : Z) (d : dhcp) (a : Z) (p : udp_pcb) : Prop := Sender {
  se_low : world_ok (low w);
  se_at : dhcp_at w n = Some d;
  se_out : d_p_out d = None;
  se_pcb : d_pcb d = Some a;
  se_good : good_pcb (udp w) a p;
  se_mtu : 0 <= mtu w n < 2 ^ 16;
  se_addr : addr32 (offered_ip_addr (d_lease d)) /\ addr32 (server_ip_addr (d_lease d));
}.

Lemma sender_update w n d a p f : sender w n d a p -> d_p_out (f d) = d_p_out d -> d_pcb (f d) = d_pcb d ->
  addr32 (offered_ip_addr (d_lease (f d))) /\ addr32 (server_ip_addr (d_lease (f d))) -> sender (put_dhcp w n (Some (f d))) n (f d) a p.
Proof. intros [H1 H2 H3 H4 H5 H6 H7] E1 E2 E3. split; try done; [apply put_at|congruence|congruence]. Qed.

Lemma sending_spec w n d a p f type opts fs dst msecs : sender w n d a p -> sender (put_dhcp w n (Some (f d))) n (f d) a p ->
  (forall x id hd, length hd = 240%nat -> opts (put_dhcp w n (Some (f d))) (draft (set_xid (f d) x) id hd (encode_all [type_field type])) =
    Ok (draft (set_xid (f d) x) id hd (encode_all (type_field type :: fs)))) ->
  zlen (encode_all (type_field type :: fs)) <= 67 -> (forall x id hd o, dst (draft (set_xid (f d) x) id hd o) = dst (f d)) ->
  wp (let! w := update w n f in transmit lw w n type (opts w) dst msecs)
    (fun '(r, w') => transmitted (put_dhcp w n (Some (f d))) n (f d) p type fs (dst (f d)) msecs r w').
Proof.
  intros [_ Hd _ _ _ _ _] [H1 H2 H3 H4 H5 _ _] Ho Hl Hdst. rewrite (update_eq _ _ _ _ Hd). cbn [obind].
  apply (transmit_spec _ _ _ a); try done; intros; by apply Ho.
Qed.

Ltac draft_step := (rewrite option_max_msg_size_draft by done) || (rewrite option_address_draft by done) || (rewrite option_parameters_draft by done).

(** The state in which a message is built. *)
Definition selecting (d : dhcp) : dhcp := dhcp_set_state (set_lease d (set_offered_ip (d_lease d) IPADDR_ANY)) DHCP_SELECTING.
Definition released (d : dhcp) : dhcp := set_lease (dhcp_set_state d DHCP_OFF) (Lease 0 0 0 0 0 0 0 (subnet_mask_given (d_lease d))).

Lemma sender_state w n d a p s : sender w n d a p -> sender (put_dhcp w n (Some (dhcp_set_state d s))) n (dhcp_set_state d s) a p.
Proof.
  intros H. destruct (set_state_p_out d s) as (E1 & E2 & E3 & _). apply (sender_update _ _ _ _ _ (fun d => dhcp_set_state d s) H); [done|done|]. rewrite E3. apply H.
Qed.

Lemma sender_selecting w n d a p : sender w n d a p -> sender (put_dhcp w n (Some (selecting d))) n (selecting d) a p.
Proof.
  intros H. destruct (set_state_p_out (set_lease d (set_offered_ip (d_lease d) IPADDR_ANY)) DHCP_SELECTING) as (E1 & E2 & E3 & _).
  apply (sender_update _ _ _ _ _ selecting H); unfold selecting; rewrite ?E1, ?E2, ?E3; try done. split; [done|apply H].
Qed.

Lemma sender_released w n d a p : sender w n d a p -> sender (put_dhcp w n (Some (released d))) n (released d) a p.
Proof.
  intros H. destruct (set_state_p_out d DHCP_OFF) as (E1 & E2 & E3 & _). apply (sender_update _ _ _ _ _ released H); [done|done|]. by split.
Qed.

Lemma dhcp_discover_spec w n d a p : sender w n d a p -> wp (dhcp_discover lw w n) (fun '(r, w') =>
  transmitted (put_dhcp w n (Some (selecting d))) n (selecting d) p DHCP_DISCOVER (fields_discover (mtu w n)) IPADDR_BROADCAST msecs_discover r w').
Proof.
  intros H. pose proof (se_mtu _ _ _ _ _ H). unfold dhcp_discover.
  apply (sending_spec w n d a p selecting DHCP_DISCOVER _ (fields_discover (mtu w n)) to_broadcast); [done|by apply sender_selecting| |done|done].
  intros x id hd Hh. change (mtu (put_dhcp _ _ _)) with (mtu w). draft_step. cbn [obind]. draft_step. reflexivity.
Qed.

Lemma dhcp_select_spec w n d a p : sender w n d a p -> let d1 := dhcp_set_state d DHCP_REQUESTING in wp (dhcp_select lw w n) (fun '(r, w') =>
  transmitted (put_dhcp w n (Some d1)) n d1 p DHCP_REQUEST (fields_select (mtu w n) (d_lease d)) IPADDR_BROADCAST msecs_discover r w').
Proof.
  intros H d1. pose proof (se_mtu _ _ _ _ _ H). destruct (se_addr _ _ _ _ _ H). unfold dhcp_select.
  destruct (set_state_p_out d DHCP_REQUESTING) as (_ & _ & El & _).
  apply (sending_spec w n d a p (fun d => dhcp_set_state d DHCP_REQUESTING) DHCP_REQUEST _ (fields_select (mtu w n) (d_lease d)) to_broadcast); [done|by apply sender_state| |done|done].
  intros x id hd Hh. change (mtu (put_dhcp _ _ _)) with (mtu w). draft_step. cbn [obind].
  change (d_lease (draft (set_xid (dhcp_set_state d DHCP_REQUESTING) x) id hd _)) with (d_lease (dhcp_set_state d DHCP_REQUESTING)). rewrite El.
  draft_step. cbn [obind]. change (d_lease (draft (set_xid (dhcp_set_state d DHCP_REQUESTING) x) id hd _)) with (d_lease (dhcp_set_state d DHCP_REQUESTING)). rewrite El.
  draft_step. cbn [obind]. draft_step. reflexivity.
Qed.


Lemma dhcp_renew_spec w n d a p : sender w n d a p -> let d1 := dhcp_set_state d DHCP_RENEWING in wp (dhcp_renew lw w n) (fun '(r, w') =>
  transmitted (put_dhcp w n (Some d1)) n d1 p DHCP_REQUEST (fields_renew (mtu w n)) (server_ip_addr (d_lease d)) msecs_renew r w').
Proof.
  intros H d1. pose proof (se_mtu _ _ _ _ _ H). unfold dhcp_renew.
  replace (server_ip_addr (d_lease d)) with (to_server (dhcp_set_state d DHCP_RENEWING)) by (unfold to_server; by destruct (set_state_p_out d DHCP_RENEWING) as (_ & _ & -> & _)).
  apply (sending_spec w n d a p (fun d => dhcp_set_state d DHCP_RENEWING) DHCP_REQUEST (fun w d => option_max_msg_size d (mtu w n)) (fields_renew (mtu w n)) to_server);
    [done|by apply sender_state| |done|done].
  intros x id hd Hh. change (mtu (put_dhcp _ _ _)) with (mtu w). draft_step. reflexivity.
Qed.

Lemma dhcp_rebind_spec w n d a p : sender w n d a p -> let d1 := dhcp_set_state d DHCP_REBINDING in wp (dhcp_rebind lw w n) (fun '(r, w') =>
  transmitted (put_dhcp w n (Some d1)) n d1 p DHCP_REQUEST (fields_renew (mtu w n)) IPADDR_BROADCAST msecs_rebind r w').
Proof.
  intros H d1. pose proof (se_mtu _ _ _ _ _ H). unfold dhcp_rebind.
  apply (sending_spec w n d a p (fun d => dhcp_set_state d DHCP_REBINDING) DHCP_REQUEST (fun w d => option_max_msg_size d (mtu w n)) (fields_renew (mtu w n)) to_broadcast);
    [done|by apply sender_state| |done|done].
  intros x id hd Hh. change (mtu (put_dhcp _ _ _)) with (mtu w). draft_step. reflexivity.
Qed.

Lemma dhcp_reboot_spec w n d a p : sender w n d a p -> let d1 := dhcp_set_state d DHCP_REBOOTING in wp (dhcp_reboot lw w n) (fun '(r, w') =>
  transmitted (put_dhcp w n (Some d1)) n d1 p DHCP_REQUEST (fields_reboot (d_lease d)) IPADDR_BROADCAST msecs_rebind r w').
Proof.
  intros H d1. destruct (se_addr _ _ _ _ _ H). unfold dhcp_reboot. destruct (set_state_p_out d DHCP_REBOOTING) as (_ & _ & El & _).
  apply (sending_spec w n d a p (fun d => dhcp_set_state d DHCP_REBOOTING) DHCP_REQUEST
    (fun w d => let! d := option_max_msg_size d 576 in option_address d DHCP_OPTION_REQUESTED_IP (offered_ip_addr (d_lease d))) (fields_reboot (d_lease d)) to_broadcast);
    [done|by apply sender_state| |done|done].
  intros x id hd Hh. draft_step. cbn [obind].
  change (d_lease (draft (set_xid (dhcp_set_state d DHCP_REBOOTING) x) id hd _)) with (d_lease (dhcp_set_state d DHCP_REBOOTING)). rewrite El. draft_step. reflexivity.
Qed.

Lemma dhcp_decline_spec w n d a p : sender w n d a p -> let d1 := dhcp_set_state d DHCP_BACKING_OFF in wp (dhcp_decline lw w n) (fun '(r, w') =>
  transmitted (put_dhcp w n (Some d1)) n d1 p DHCP_DECLINE (fields_decline (d_lease d)) IPADDR_BROADCAST (fun _ => 10 * 1000) r w').
Proof.
  intros H d1. destruct (se_addr _ _ _ _ _ H). unfold dhcp_decline. destruct (set_state_p_out d DHCP_BACKING_OFF) as (_ & _ & El & _).
  apply (sending_spec w n d a p (fun d => dhcp_set_state d DHCP_BACKING_OFF) DHCP_DECLINE
    (fun w d => option_address d DHCP_OPTION_REQUESTED_IP (offered_ip_addr (d_lease d))) (fields_decline (d_lease d)) to_broadcast);
    [done|by apply sender_state| |done|done].
  intros x id hd Hh.
  change (d_lease (draft (set_xid (dhcp_set_state d DHCP_BACKING_OFF) x) id hd _)) with (d_lease (dhcp_set_state d DHCP_BACKING_OFF)). rewrite El. draft_step. reflexivity.
Qed.

(** The first part of dhcp_release: the message goes to no server. *)
Lemma release_spec w n d a p : sender w n d a p -> wp (let! w := update w n released in transmit lw w n DHCP_RELEASE Ok to_server msecs_rebind) (fun '(r, w') =>
  transmitted (put_dhcp w n (Some (released d))) n (released d) p DHCP_RELEASE [] 0 msecs_rebind r w').
Proof.
  intros H. change 0 with (to_server (released d)).
  apply (sending_spec w n d a p released DHCP_RELEASE (fun _ d => Ok d) [] to_server); [done|by apply sender_released|done|done|done].
Qed.

End Theory.

(** C13: lease times in the coarse timer. A time of [secs] seconds runs the
    timer for the nearest number of minutes, at least one and at most 65535:
    no time stops it. But the sum in dhcp_bind wraps: one of the last thirty
    finite values, 136 years, is one minute. *)
Theorem lease_ticks_bounds secs timer : 0 <= secs < 2 ^ 32 - 1 ->
  lease_ticks secs timer = (if secs <? 2 ^ 32 - 30 then Z.max 1 (Z.min 65535 ((secs + 30) / 60)) else 1) /\
  1 <= lease_ticks secs timer <= 65535.
Proof.
  intros Hs. assert (E : lease_ticks secs timer = if secs <? 2 ^ 32 - 30 then Z.max 1 (Z.min 65535 ((secs + 30) / 60)) else 1).
  { unfold lease_ticks. destruct (Z.eqb_spec secs 0xffffffff); [lia|]. change (DHCP_COARSE_TIMER_SECS / 2) with 30. change DHCP_COARSE_TIMER_SECS with 60.
    destruct (Z.ltb_spec secs (2 ^ 32 - 30)).
    - rewrite u32_small by lia. pose proof (Z.div_pos (secs + 30) 60 ltac:(lia) ltac:(lia)). set (m := (secs + 30) / 60) in *.
      destruct (Z.ltb_spec 0xffff m); [rewrite Z.min_l by lia; done|]. rewrite u16_small by lia. destruct (Z.eqb_spec m 0); lia.
    - assert (u32 (secs + 30) = secs + 30 - 2 ^ 32) as -> by (unfold u32; symmetry; apply (Z.mod_unique _ _ 1); lia).
      rewrite (Z.div_small (secs + 30 - 2 ^ 32) 60) by lia. done. }
  split; [done|]. rewrite E. destruct (secs <? 2 ^ 32 - 30); lia.
Qed.

Lemma lease_ticks_bounds_witness : lease_ticks 3600 0 = 60 /\ lease_ticks (2 ^ 32 - 2) 0 = 1.
Proof.
  split; [destruct (lease_ticks_bounds 3600 0) as [E _]|destruct (lease_ticks_bounds (2 ^ 32 - 2) 0) as [E _]]; try lia; by rewrite E.
Defined.
