(* ===== verification/DhcpInv.v ===== *)
(** * What the DHCP client keeps true

    The invariant of the state of [Dhcp]: the client has no message under way
    between two calls, its block is in the list of [Udp] and its own, the
    addresses of its lease are 32-bit words; and the calls of the client that
    keep it, from the sending functions to dhcp_recv, the timers and the
    functions of the application. *)

From S2P Require Import Prelude CStd Mem IpAddr Checksum Pbuf Etharp Autoip Ip Udp DhcpMsg Dhcp.
From stdpp Require Import gmap.
#[local] Open Scope Z_scope.

(** ** Theory: the invariant *)

(** The client of an interface. [busy] is an interface whose client is in dhcp_recv. *)
Record client_ok (u : udpw) (busy : bool) (d : dhcp) : Prop := ClientOk {
  co_out : d_p_out d = None;
  co_in : match d_msg_in d with Some m => busy = true /\ 44 <= zlen m /\ Forall byte m | None => True end;
  co_pcb : match d_pcb d with Some a => exists p, good_pcb u a p | None => d_state d = DHCP_OFF end;
  co_addr : addr32 (offered_ip_addr (d_lease d)) /\ addr32 (server_ip_addr (d_lease d));
}.

(** Every client has a block of its own, a block calls the client it is of. *)
Record dhcp_ok (busy : Z -> bool) (w : dw) : Prop := DhcpOk {
  do_low : world_ok (low w);
  do_mtu : forall n, 0 <= mtu w n < 2 ^ 16;
  do_udp : udp_ok (udp w);
  do_client : forall n d, dhcp_at w n = Some d -> client_ok (udp w) (busy n) d;
  do_own : forall n m d d' a, dhcp_at w n = Some d -> dhcp_at w m = Some d' -> d_pcb d = Some a -> d_pcb d' = Some a -> n = m;
  do_recv : forall a p n, pcb_at (udp w) !! a = Some p -> u_recv p = Some (DhcpRecv n) -> exists d, dhcp_at w n = Some d /\ d_pcb d = Some a;
  do_rx : length (options_val (rx w)) = 10%nat;
}.

(** [step n w w']: only the client of [n] and the layers below have changed,
    its block is the same. *)
Record step (busy : Z -> bool) (n : Z) (w w' : dw) : Prop := Step {
  st_ok : dhcp_ok busy w';
  st_udp : exists i, udp w' = set_ipw (udp w) i;
  st_here : match dhcp_at w n with
    | Some d => exists d', dhcp_at w' n = Some d' /\ d_pcb d' = d_pcb d /\ d_msg_in d' = d_msg_in d
    | None => dhcp_at w' n = None
    end;
  st_other : forall m, m <> n -> dhcp_at w' m = dhcp_at w m;
  st_mtu : mtu w' = mtu w;
  st_flag : forall m, etharp_flag (dnif w' m) = etharp_flag (dnif w m);
}.

(** What no call changes: the clients that there are stay, and so do the MTU
    and the kind of the interfaces. *)
Record kept (w w' : dw) : Prop := Kept {
  kp_client : forall m, is_Some (dhcp_at w m) -> is_Some (dhcp_at w' m);
  kp_mtu : mtu w' = mtu w;
  kp_flag : forall m, etharp_flag (dnif w' m) = etharp_flag (dnif w m);
}.

#[export] Instance kept_preorder : PreOrder kept.
Proof.
  split; [by intros w; split|]. intros w1 w2 w3 [A1 A2 A3] [B1 B2 B3]. split; [auto|congruence|intros m; by rewrite B3].
Qed.

Lemma step_kept busy n w w' : step busy n w w' -> kept w w'.
Proof.
  intros [_ _ S3 S4 S5 S6]. split; [|done|done]. intros m Hm. destruct (decide (m = n)) as [->|Hne]; [|by rewrite S4].
  destruct Hm as [d Hd]. rewrite Hd in S3. destruct S3 as (d' & E & _). by exists d'.
Qed.

Lemma kept_put w n d : kept w (put_dhcp w n (Some d)).
Proof. split; [|done|done]. intros m Hm. cbn. destruct (m =? n); [by exists d|done]. Qed.

Lemma kept_udp w u : ip u = ip (udp w) -> kept w (set_udp w u).
Proof. intros E. split; [done|done|]. intros m. unfold dnif, low. cbn. by rewrite E. Qed.

Section Theory.
Context (lw : lower).

Lemma queried_netif b n a q b' : queried lw b n a q b' -> netif_at b' = netif_at b.
Proof. by intros [|? ? ? ? ? ? ? ? B|? ? ? ? ? ? ? ? ? ? ? ? ? ? B]; [|apply B..]. Qed.

Lemma step_refl busy n w : dhcp_ok busy w -> step busy n w w.
Proof. intros H. split; try done; [by exists (ip (udp w)); destruct w as [[]]|]. destruct (dhcp_at w n) as [d|]; [by exists d|done]. Qed.

Lemma step_trans busy n w w1 w2 : step busy n w w1 -> step busy n w1 w2 -> step busy n w w2.
Proof.
  intros [_ (i & A2) A3 A4 A5 A6] [B1 (j & B2) B3 B4 B5 B6]. split; [done|exists j; by rewrite B2, A2| | |congruence|intros m; by rewrite B6].
  - destruct (dhcp_at w n) as [d|]; [|by rewrite A3 in B3]. destruct A3 as (d1 & E1 & E2 & E3). rewrite E1 in B3.
    destruct B3 as (d2 & F1 & F2 & F3). exists d2. split_and!; congruence.
  - intros m Hm. by rewrite B4, A4.
Qed.

Lemma client_ok_udp u i busy d : client_ok u busy d -> client_ok (set_ipw u i) busy d.
Proof. intros []. by split. Qed.

(** The layers below change, and the variables of the file. *)
Lemma ip_ok busy w i x r : dhcp_ok busy w -> world_ok (base i) -> length (options_val r) = 10%nat -> dhcp_ok busy (DW (set_ipw (udp w) i) (dhcp_at w) (mtu w) x r).
Proof.
  intros [H1 H2 [U1 U2 U3 U4 U5] H4 H5 H6 H7] Hi Hr. split; try done. intros m d Hd. by apply client_ok_udp, H4.
Qed.

Definition same_flag (b b' : world) : Prop := forall m, etharp_flag (netif_at b' m) = etharp_flag (netif_at b m).

Lemma step_ip busy n w i x r : dhcp_ok busy w -> world_ok (base i) -> same_flag (low w) (base i) -> length (options_val r) = 10%nat ->
  step busy n w (DW (set_ipw (udp w) i) (dhcp_at w) (mtu w) x r).
Proof.
  intros H Hi Hf Hr. split; [by apply ip_ok|by exists i| |done|done|done]. cbn. destruct (dhcp_at w n) as [d|]; [by exists d|done].
Qed.

Lemma step_low busy n w b : dhcp_ok busy w -> world_ok b -> same_flag (low w) b -> step busy n w (set_low w b).
Proof. intros H Hb Hf. apply step_ip; [done|done|done|apply H]. Qed.

Lemma step_quiet busy n w b : dhcp_ok busy w -> quiet (low w) b -> step busy n w (set_low w b).
Proof. intros H Q. apply step_low; [done|apply Q|]. intros m. apply Q. Qed.

(** The client changes, but its block does not. *)
Lemma ok_put busy busy' w n d d' : dhcp_ok busy w -> dhcp_at w n = Some d -> d_pcb d' = d_pcb d -> client_ok (udp w) (busy' n) d' ->
  (forall m, m <> n -> busy' m = busy m) -> dhcp_ok busy' (put_dhcp w n (Some d')).
Proof.
  intros [H1 H2 H3 H4 H5 H6 H7] Hd E1 C Hb. split; try done.
  - intros m dm. cbn. destruct (Z.eqb_spec m n) as [->|]; [by intros [= <-]|]. rewrite Hb by done. apply H4.
  - intros m k dm dk a. cbn. destruct (Z.eqb_spec m n) as [->|]; destruct (Z.eqb_spec k n) as [->|]; try done.
    + intros [= <-] Hk Ha Hka. rewrite E1 in Ha. by eapply H5.
    + intros Hm [= <-] Ha Hka. rewrite E1 in Hka. by eapply H5.
    + by apply H5.
  - intros a p k Ha Hk. destruct (H6 a p k Ha Hk) as (dk & F1 & F2). cbn. destruct (Z.eqb_spec k n) as [->|]; [|by exists dk].
    exists d'. split; [done|]. congruence.
Qed.

Lemma step_put busy n w d d' : dhcp_ok busy w -> dhcp_at w n = Some d -> d_pcb d' = d_pcb d -> d_p_out d' = None -> d_msg_in d' = d_msg_in d ->
  (d_pcb d = None -> d_state d' = DHCP_OFF) -> addr32 (offered_ip_addr (d_lease d')) /\ addr32 (server_ip_addr (d_lease d')) ->
  step busy n w (put_dhcp w n (Some d')).
Proof.
  intros H Hd E1 E2 E3 E4 E5. destruct (do_client _ _ H _ _ Hd) as [_ C2 C3 _]. split; try done.
  - apply (ok_put busy busy w n d); try done. split; [done|by rewrite E3| |done]. rewrite E1. destruct (d_pcb d); [done|by apply E4].
  - by exists (ip (udp w)); destruct w as [[]].
  - rewrite Hd. exists d'. by rewrite put_at.
  - intros m Hm. cbn. by destruct (Z.eqb_spec m n).
Qed.

Lemma ok_sender busy w n d a : dhcp_ok busy w -> dhcp_at w n = Some d -> d_pcb d = Some a -> exists p, sender w n d a p.
Proof.
  intros [H1 H2 H3 H4 H5 _ _] Hd Ha. destruct (H4 _ _ Hd) as [C1 C2 C3 C4]. rewrite Ha in C3. destruct C3 as [p Hp]. by exists p.
Qed.

Lemma retry_same d msecs : d_pcb (dhcp_retry d msecs) = d_pcb d /\ d_p_out (dhcp_retry d msecs) = d_p_out d /\ d_msg_in (dhcp_retry d msecs) = d_msg_in d /\
  d_state (dhcp_retry d msecs) = d_state d /\ d_lease (dhcp_retry d msecs) = d_lease d.
Proof. done. Qed.

Lemma transmitted_step busy w n d a p type fs dst msecs r w' : dhcp_ok busy w -> sender w n d a p ->
  transmitted lw w n d p type fs dst msecs r w' -> step busy n w w'.
Proof.
  intros Hok [S1 S2 S3 S4 S5 S6 S7] [Ha|i Ha Hi].
  - eapply (step_trans _ _ _ (set_low w (asked (low w)))); [apply step_low; [done|by destruct S1|done]|].
    apply (step_put busy n _ d); try done; [eapply (st_ok _ n), step_low; [done|by destruct S1|done]|by rewrite S4].
  - assert (Hc : carried (base (with_msg w)) (base i)) by (eapply ip_sent_carried; [|exact Hi]; by destruct S1). pose proof (ca_ok _ _ Hc) as Hb.
    set (w1 := DW (set_ipw (udp w) (free i (next_id (low w)))) (dhcp_at w) (mtu w) (next_xid w d) (rx w)).
    assert (Hs1 : step busy n w w1).
    { apply step_ip; [done|by apply emit_ok| |apply Hok]. intros m. change (etharp_flag (netif_at (base i) m) = etharp_flag (netif_at (low w) m)). by rewrite (ca_netif _ _ Hc). }
    eapply step_trans; [exact Hs1|]. apply (step_put busy n _ d); try done; [apply Hs1|by rewrite S4].
Qed.

(** A client that has its block. *)
Record live (busy : Z -> bool) (n : Z) (w : dw) : Prop := Live {
  li_ok : dhcp_ok busy w;
  li_pcb : exists d a, dhcp_at w n = Some d /\ d_pcb d = Some a;
}.

Lemma live_step busy n w w' : live busy n w -> step busy n w w' -> live busy n w'.
Proof.
  intros [H (d & a & Hd & Ha)] [S1 _ S3 _ _]. split; [done|]. rewrite Hd in S3. destruct S3 as (d' & E1 & E2 & _). exists d', a. by rewrite E2.
Qed.

Lemma step_bind busy n w (m : outcome dw) k : live busy n w -> wp m (step busy n w) ->
  (forall w1, live busy n w1 -> wp (k w1) (step busy n w1)) -> wp (obind m k) (step busy n w).
Proof.
  intros Hl Hm Hk. wpb Hm. intros w1 H1. eapply wp_mono; [apply Hk; by eapply live_step|]. intros w2. by eapply step_trans.
Qed.

Lemma step_discard busy n w m : wp m (fun '(_, w') => step busy n w w') -> wp (discard_result m) (step busy n w).
Proof. unfold discard_result. intros H. wpb H. by intros [r w']. Qed.

Lemma step_after busy n w w1 m : step busy n w w1 -> wp m (step busy n w1) -> wp m (step busy n w).
Proof. intros H1 Hm. eapply wp_mono; [exact Hm|]. intros w2. by apply step_trans. Qed.

(** A change of the client's fields other than its block. *)
Lemma step_update busy n w f : live busy n w -> (forall d, d_pcb (f d) = d_pcb d /\ d_p_out (f d) = d_p_out d /\ d_msg_in (f d) = d_msg_in d /\ d_lease (f d) = d_lease d) ->
  wp (update w n f) (step busy n w).
Proof.
  intros [H (d & a & Hd & Ha)] Hf. rewrite (update_eq _ _ _ _ Hd). destruct (Hf d) as (E1 & E2 & E3 & E4).
  destruct (do_client _ _ H _ _ Hd) as [C1 _ _ C4]. cbn [wp]. apply (step_put busy n w d); rewrite ?E1, ?E2, ?E3, ?E4; try done. congruence.
Qed.

Lemma sent_step busy w n d d1 a p p' type fs dst msecs r w' : dhcp_ok busy w -> sender w n d a p -> sender (put_dhcp w n (Some d1)) n d1 a p' ->
  d_msg_in d1 = d_msg_in d -> transmitted lw (put_dhcp w n (Some d1)) n d1 p type fs dst msecs r w' -> step busy n w w'.
Proof.
  intros H S S1 E T. assert (Hs : step busy n w (put_dhcp w n (Some d1))).
  { destruct S as [_ Hd _ Ha _ _ _]. destruct S1 as [_ _ B3 B4 _ _ B7]. apply (step_put busy n w d); try done; [congruence|congruence]. }
  eapply step_trans; [exact Hs|]. assert (p' = p) as ->.
  { destruct S as [_ _ _ _ (P1 & _) _ _]. destruct S1 as [_ _ _ _ (P2 & _) _ _]. change (udp (put_dhcp w n (Some d1))) with (udp w) in P2. congruence. }
  eapply transmitted_step; [by apply Hs|exact S1|exact T].
Qed.

Lemma selecting_msg_in d : d_msg_in (selecting d) = d_msg_in d.
Proof. apply (set_state_p_out (set_lease d _)). Qed.
Lemma set_state_msg_in d s : d_msg_in (dhcp_set_state d s) = d_msg_in d.
Proof. apply set_state_p_out. Qed.

Ltac sending spec snd same :=
  intros [H (d & a & Hd & Ha)]; destruct (ok_sender _ _ _ _ _ H Hd Ha) as [p S]; eapply wp_mono; [by eapply spec|]; intros (r & w') T;
  eapply (sent_step _ _ _ d); [done|exact S|by eapply snd|apply same|exact T].

Lemma discover_step busy n w : live busy n w -> wp (dhcp_discover lw w n) (fun '(_, w') => step busy n w w').
Proof. sending dhcp_discover_spec sender_selecting selecting_msg_in. Qed.
Lemma select_step busy n w : live busy n w -> wp (dhcp_select lw w n) (fun '(_, w') => step busy n w w').
Proof. sending dhcp_select_spec sender_state set_state_msg_in. Qed.
Lemma renew_step busy n w : live busy n w -> wp (dhcp_renew lw w n) (fun '(_, w') => step busy n w w').
Proof. sending dhcp_renew_spec sender_state set_state_msg_in. Qed.
Lemma rebind_step busy n w : live busy n w -> wp (dhcp_rebind lw w n) (fun '(_, w') => step busy n w w').
Proof. sending dhcp_rebind_spec sender_state set_state_msg_in. Qed.
Lemma reboot_step busy n w : live busy n w -> wp (dhcp_reboot lw w n) (fun '(_, w') => step busy n w w').
Proof. sending dhcp_reboot_spec sender_state set_state_msg_in. Qed.
Lemma decline_step busy n w : live busy n w -> wp (dhcp_decline lw w n) (fun '(_, w') => step busy n w w').
Proof. sending dhcp_decline_spec sender_state set_state_msg_in. Qed.

Lemma clear_step busy n w : dhcp_ok busy w -> wp (clear_addresses w n) (step busy n w).
Proof.
  intros H. unfold clear_addresses. wpb (quiet_down (low w) n); [apply H|]. intros b Hb. cbn [wp].
  apply step_quiet; [done|]. set (b1 := netif_set_ipaddr b n IPADDR_ANY). assert (Q1 : quiet b b1) by (apply quiet_set_ipaddr, Hb).
  set (b2 := netif_set_gw b1 n IPADDR_ANY). assert (Q2 : quiet b1 b2) by (apply quiet_set_netif; [apply Q1|done|done]).
  eapply quiet_trans; [exact Hb|]. eapply quiet_trans; [exact Q1|]. eapply quiet_trans; [exact Q2|]. apply quiet_set_netif; [apply Q2|done|done].
Qed.

Lemma release_step busy n w : live busy n w -> wp (dhcp_release lw w n) (fun '(_, w') => step busy n w w').
Proof.
  intros Hl. pose proof Hl as [H (d & a & Hd & Ha)]. destruct (ok_sender _ _ _ _ _ H Hd Ha) as [p S]. unfold dhcp_release.
  pose proof (release_spec lw _ _ _ _ _ S) as Hr. fold released. rewrite (update_eq _ _ _ _ Hd) in Hr |- *. cbn [obind] in *.
  wpb Hr. intros (r & w1) T. assert (S1 : step busy n w w1).
  { eapply (sent_step _ _ _ d); [done|exact S|by eapply sender_released|apply set_state_msg_in|exact T]. }
  wpb (clear_step busy n w1); [apply S1|]. intros w2 S2. cbn [wp]. by eapply step_trans.
Qed.

(** ** Answers *)

Lemma htonl_addr x : addr32 (lwip_htonl x).
Proof. unfold lwip_htonl, addr32. apply u32_range. Qed.

Lemma load16_range bs i : Forall byte bs -> 0 <= i -> i + 2 <= zlen bs -> wp (load16 bs i) (fun x => 0 <= x < 2 ^ 16).
Proof.
  intros Hb Hi Hl. unfold zlen in Hl. unfold load16. rewrite list.Forall_forall in Hb.
  assert (K : forall j x, bs !! j = Some x -> 0 <= x < 256) by (intros j x Hx; apply Hb; by eapply list_elem_of_lookup_2).
  wpr. intros x1 K1%K. wpr. intros x2 K2%K. cbn [wp]. lia.
Qed.

Lemma load32_addr bs i : Forall byte bs -> 0 <= i -> i + 4 <= zlen bs -> wp (load32 bs i) addr32.
Proof.
  intros Hb Hi Hl. unfold load32. wpb (load16_range bs i); [done|done|lia|]. intros x1 H1.
  wpb (load16_range bs (i + 2)); [done|lia|lia|]. intros x2 H2. cbn in *. unfold addr32. lia.
Qed.

(** A change of the lease. *)
Lemma step_lease busy n w d d' : live busy n w -> dhcp_at w n = Some d -> d_pcb d' = d_pcb d -> d_p_out d' = d_p_out d -> d_msg_in d' = d_msg_in d ->
  addr32 (offered_ip_addr (d_lease d')) /\ addr32 (server_ip_addr (d_lease d')) -> step busy n w (put_dhcp w n (Some d')).
Proof.
  intros [H (d0 & a & Hd & Ha)] Hd' E1 E2 E3 E4. assert (d0 = d) as -> by congruence.
  apply (step_put busy n w d); try done; [|congruence]. rewrite E2. by apply (do_client _ _ H n).
Qed.

Lemma live_at busy n w : live busy n w -> exists d, dhcp_at w n = Some d /\ client_ok (udp w) (busy n) d.
Proof. intros [H (d & a & Hd & Ha)]. exists d. split; [done|]. by apply (do_client _ _ H). Qed.

Lemma step_retry busy n w msecs : live busy n w -> wp (update w n (fun d => dhcp_retry d msecs)) (step busy n w).
Proof. intros Hl. by apply step_update. Qed.

Lemma step_state busy n w s : live busy n w -> wp (update w n (fun d => dhcp_set_state d s)) (step busy n w).
Proof. intros Hl. apply step_update; [done|]. intros d. destruct (set_state_p_out d s) as (E1 & E2 & E3 & E4 & _). by split_and!. Qed.

Lemma check_step busy n w : live busy n w -> wp (dhcp_check lw w n) (step busy n w).
Proof.
  intros Hl. unfold dhcp_check. apply step_bind; [done|by apply step_state|]. intros w1 Hl1.
  destruct (live_at _ _ _ Hl1) as (d & Hd & _). unfold get_dhcp. rewrite Hd. cbn [obind].
  pose proof (do_low _ _ (li_ok _ _ _ Hl1)) as Hw. wpb (etharp_query_spec lw (low w1) n (offered_ip_addr (d_lease d)) None); [done|done|]. intros (r & b) Hq.
  assert (S : step busy n w1 (set_low w1 b)) by (apply step_low; [apply Hl1|by eapply (queried_ok _ _ _ _ None _ Hw)|intros m; by rewrite (queried_netif _ _ _ _ _ Hq)]).
  eapply step_after; [exact S|]. apply step_retry. by eapply live_step.
Qed.

Lemma nak_step busy n w : live busy n w -> wp (dhcp_handle_nak lw w n) (step busy n w).
Proof.
  intros Hl. unfold dhcp_handle_nak. apply step_bind; [done|apply clear_step, Hl|]. intros w1 Hl1.
  apply step_bind; [done|by apply step_state|]. intros w2 Hl2. apply step_discard. by apply discover_step.
Qed.

Lemma offer_step busy n w d m : live busy n w -> dhcp_at w n = Some d -> d_msg_in d = Some m -> wp (dhcp_handle_offer lw w n) (step busy n w).
Proof.
  intros Hl Hd Hm. unfold dhcp_handle_offer, get_dhcp. destruct (dhcp_option_given _ _); [|by apply step_refl; apply Hl]. rewrite Hd. cbn [obind]. rewrite Hm.
  destruct (do_client _ _ (li_ok _ _ _ Hl) n d Hd) as [_ C _ [C1 C2]]. rewrite Hm in C. destruct C as (_ & Hlen & Hb).
  wpb (load32_addr m DHCP_YIADDR_OFS); [done|done|change DHCP_YIADDR_OFS with 16; lia|]. intros y Hy. set (d' := set_lease d _).
  assert (S : step busy n w (put_dhcp w n (Some d'))) by (apply (step_lease busy n w d); try done; split; [done|apply htonl_addr]).
  eapply step_after; [exact S|]. apply step_discard, select_step. by eapply live_step.
Qed.

Lemma ack_step busy n w d m : live busy n w -> dhcp_at w n = Some d -> d_msg_in d = Some m -> wp (dhcp_handle_ack w n) (step busy n w).
Proof.
  intros Hl Hd Hm. unfold dhcp_handle_ack, get_dhcp. rewrite Hd. cbn [obind]. rewrite Hm.
  destruct (do_client _ _ (li_ok _ _ _ Hl) n d Hd) as [_ C _ [C1 C2]]. rewrite Hm in C. destruct C as (_ & Hlen & Hb).
  wpb (load32_addr m DHCP_YIADDR_OFS); [done|done|change DHCP_YIADDR_OFS with 16; lia|]. intros y Hy. cbn [wp].
  by apply (step_lease busy n w d).
Qed.

Lemma bind_step busy n w : live busy n w -> wp (dhcp_bind lw w n) (step busy n w).
Proof.
  intros Hl. destruct (live_at _ _ _ Hl) as (d & Hd & [C1 C2 C3 C4]). unfold dhcp_bind. rewrite Hd. cbn [wp].
  set (b1 := netif_set_ipaddr _ _ _). assert (Q1 : quiet (low w) b1) by (apply quiet_set_ipaddr, (do_low _ _ (li_ok _ _ _ Hl))).
  set (b2 := netif_set_netmask _ _ _). assert (Q2 : quiet b1 b2) by (apply quiet_set_netif; [apply Q1|done|done]).
  set (b3 := netif_set_gw _ _ _). assert (Q3 : quiet b2 b3) by (apply quiet_set_netif; [apply Q2|done|done]).
  set (b4 := netif_set_up _ _ _). assert (Q4 : quiet b3 b4) by apply quiet_up, Q3.
  assert (S : step busy n w (set_low w b4)) by (apply step_quiet; [apply Hl|]; do 3 (eapply quiet_trans; [eassumption|]); exact Q4). eapply step_trans; [exact S|].
  set (d1 := set_t12 _ _ _). destruct (set_state_p_out d1 DHCP_BOUND) as (E1 & E2 & E3 & E4 & _).
  apply (step_lease busy n _ d); [by eapply live_step|done|done|done|done|]. by rewrite E3.
Qed.

Lemma arp_reply_step busy n w addr : dhcp_ok busy w -> wp (dhcp_arp_reply lw w n addr) (step busy n w).
Proof.
  intros H. unfold dhcp_arp_reply. destruct (dhcp_at w n) as [d|] eqn:Hd; [|by apply step_refl].
  destruct (bool_decide _) eqn:Es; [|by apply step_refl]. destruct (ip_addr_cmp _ _); [|by apply step_refl].
  apply step_discard, decline_step. split; [done|]. exists d. destruct (do_client _ _ H _ _ Hd) as [_ _ C _].
  destruct (d_pcb d) as [a|]; [by exists a|]. apply bool_decide_eq_true in Es. congruence.
Qed.

(** ** dhcp_recv *)

Lemma dispatch_step busy n w d m type : live busy n w -> dhcp_at w n = Some d -> d_msg_in d = Some m -> wp (dhcp_dispatch lw w n type) (step busy n w).
Proof.
  intros Hl Hd Hm. unfold dhcp_dispatch, get_dhcp. rewrite Hd. cbn [obind]. pose proof (step_refl busy n w (li_ok _ _ _ Hl)) as Hr.
  destruct (type =? DHCP_ACK).
  - destruct (existsb _ _); [|destruct (existsb _ _); [by apply bind_step|done]].
    apply step_bind; [done|by eapply ack_step|]. intros w1 Hl1. by apply check_step.
  - destruct (_ && _); [by apply nak_step|]. destruct (_ && _); [|done]. unfold update, get_dhcp. rewrite Hd. cbn [obind]. set (d1 := set_request_timeout d 0).
    assert (S : step busy n w (put_dhcp w n (Some d1))) by (apply (step_lease busy n w d); try done; apply (do_client _ _ (li_ok _ _ _ Hl) n d Hd)).
    eapply step_after; [exact S|]. apply (offer_step busy n _ d1 m); [by eapply live_step|by rewrite put_at|done].
Qed.

Definition idle : Z -> bool := fun _ => false.
Definition receiving (n : Z) : Z -> bool := fun m => m =? n.

Lemma ok_in w n d : dhcp_ok idle w -> dhcp_at w n = Some d -> d_msg_in d = None.
Proof. intros H Hd. destruct (do_client _ _ H _ _ Hd) as [_ C _ _]. destruct (d_msg_in d); [by destruct C|done]. Qed.

Lemma update_msg_in w n d m : dhcp_at w n = Some d -> update w n (fun d => set_msg_in d m) = Ok (put_dhcp w n (Some (set_msg_in d m))).
Proof. apply update_eq. Qed.

(** A message comes in and is given back. *)
Lemma recv_in n w d m : live idle n w -> dhcp_at w n = Some d -> 44 <= zlen m -> Forall byte m ->
  live (receiving n) n (put_dhcp w n (Some (set_msg_in d (Some m)))).
Proof.
  intros Hl Hd Hlen Hm. destruct (do_client _ _ (li_ok _ _ _ Hl) n d Hd) as [C1 C2 C3 C4]. split.
  - apply (ok_put idle _ w n d); try done; [apply Hl|split; try done|].
    + split; [unfold receiving; lia|done].
    + intros k Hk. unfold receiving, idle. lia.
  - destruct Hl as [_ (d0 & a & Hd0 & Ha)]. exists (set_msg_in d (Some m)), a. rewrite put_at. split; [done|]. change (d_pcb (set_msg_in d (Some m))) with (d_pcb d). congruence.
Qed.

Lemma recv_out n w d m w2 : live idle n w -> dhcp_at w n = Some d -> step (receiving n) n (put_dhcp w n (Some (set_msg_in d (Some m)))) w2 ->
  wp (update w2 n (fun d => set_msg_in d None)) (step idle n w).
Proof.
  intros Hl Hd [S1 S2 S3 S4 S5]. rewrite put_at in S3. destruct S3 as (d2 & E1 & E2 & E3). rewrite (update_eq _ _ _ _ E1). cbn [wp].
  destruct (do_client _ _ S1 n d2 E1) as [C1 C2 C3 C4]. split; try done.
  - apply (ok_put (receiving n) idle w2 n d2); try done. intros k Hk. unfold receiving, idle. lia.
  - rewrite Hd, put_at. eexists. split; [done|]. split; [done|]. by rewrite (ok_in w n d) by (done || apply Hl).
  - intros k Hk. cbn. destruct (Z.eqb_spec k n); [done|]. rewrite S4 by done. cbn. by destruct (Z.eqb_spec k n).
Qed.

(** A packet from the driver whose options the client can parse: of any
    content that does not put an overload option into file or sname. *)
Record parses (p : pbufs) : Prop := Parses {
  pa_shape : shaped (map snd (pb_chain p));
  pa_total : forall r, length (options_val r) = 10%nat -> exists x, parse_reply parse_fuel (map snd (pb_chain p)) r = Ok x;
}.

Lemma parses_first p : parses p -> Forall byte (first p).
Proof.
  intros [[_ _ _ H] _]. unfold first. destruct (pb_chain p) as [|[t bs] c]; [constructor|]. cbn [map snd concat] in H. by apply list.Forall_app in H as [H _].
Qed.

Lemma step_rx busy n w r : dhcp_ok busy w -> length (options_val r) = 10%nat -> step busy n w (DW (udp w) (dhcp_at w) (mtu w) (xid w) r).
Proof. intros H Hr. pose proof (step_ip busy n w (ip (udp w)) (xid w) r H (do_low _ _ H) (fun _ => eq_refl) Hr) as S. by destruct w as [[]]. Qed.

(** dhcp_recv up to the label free_pbuf_and_return. *)
Definition recv_body (w : dw) (n : Z) (p : pbufs) (d : dhcp) : outcome dw :=
  let reply := first p in
  if zlen reply <? DHCP_MIN_REPLY_LEN then Ok w
  else
    let! op := rd reply 0 in
    if negb (op =? DHCP_BOOTREPLY) then Ok w
    else
      let hwaddr := nif_hwaddr (dnif w n) in
      let! chaddr := slice reply DHCP_CHADDR_OFS (zlen hwaddr) in
      if negb (bool_decide (hwaddr = chaddr)) then Ok w
      else
        let! reply_xid := load32 reply DHCP_XID_OFS in
        if negb (lwip_ntohl reply_xid =? d_xid d) then Ok w
        else
          let! (e, r) := parse_reply parse_fuel (map snd (pb_chain p)) (rx w) in
          let w := DW (udp w) (dhcp_at w) (mtu w) (xid w) r in
          let! w := update w n (fun d => set_msg_in d (Some reply)) in
          if negb (e =? ERR_OK) then Ok w
          else if negb (dhcp_option_given r DHCP_OPTION_IDX_MSG_TYPE) then Ok w
          else dhcp_dispatch lw w n (u8 (dhcp_get_option_value r DHCP_OPTION_IDX_MSG_TYPE)).

Lemma recv_eq w n p d : dhcp_at w n = Some d -> d_msg_in d = None ->
  dhcp_recv lw w n p = (let! w := recv_body w n p d in let! w := update w n (fun d => set_msg_in d None) in Ok (dfree w (pb_id p))).
Proof. intros Hd Hm. unfold dhcp_recv, get_dhcp. rewrite Hd. cbn [obind]. by rewrite Hm. Qed.

Definition closes (n : Z) (w w' : dw) : Prop := wp (update w' n (fun d => set_msg_in d None)) (step idle n w).

Lemma recv_body_spec w n p d : live idle n w -> parses p -> dhcp_at w n = Some d -> wp (recv_body w n p d) (closes n w).
Proof.
  intros Hl Hp Hd. pose proof (ok_in w n d (li_ok _ _ _ Hl) Hd) as Hin. destruct (do_client _ _ (li_ok _ _ _ Hl) n d Hd) as [_ _ _ C4].
  assert (Hr : closes n w w).
  { unfold closes. rewrite (update_eq _ _ _ _ Hd). cbn [wp]. by apply (step_lease idle n w d). }
  unfold recv_body. destruct (Z.ltb_spec (zlen (first p)) DHCP_MIN_REPLY_LEN) as [|Hlen]; [done|]. change DHCP_MIN_REPLY_LEN with 44 in Hlen.
  pose proof (no_mac _ (wo_netif _ (do_low _ _ (li_ok _ _ _ Hl)) n)) as Hm. unfold mac in Hm. change (netif_at (low w) n) with (dnif w n) in Hm. pose proof (parses_first p Hp) as Hb.
  wpr; [unfold zlen in *; lia|]. intros op _. destruct (negb (op =? _)); [done|].
  rewrite slice_ok; [|done|unfold zlen; lia|change DHCP_CHADDR_OFS with 28; unfold zlen in *; lia]. cbn [obind]. destruct (negb (bool_decide _)); [done|].
  wpb (load32_addr (first p) DHCP_XID_OFS); [done|done|change DHCP_XID_OFS with 4; lia|]. intros x _. destruct (negb (_ =? d_xid d)); [done|].
  destruct (pa_total _ Hp (rx w)) as ([e r] & Er); [apply Hl|]. pose proof (parse_reply_length _ _ _ _ _ Er) as Hlen'. rewrite (do_rx _ _ (li_ok _ _ _ Hl)) in Hlen'. rewrite Er. cbn [obind]. set (w0 := DW _ _ _ _ r).
  pose proof (step_rx idle n w r (li_ok _ _ _ Hl) Hlen') as S0. fold w0 in S0. pose proof (live_step _ _ _ _ Hl S0) as Hl0.
  assert (Hd0 : dhcp_at w0 n = Some d) by done. rewrite (update_eq _ _ _ _ Hd0). cbn [obind].
  pose proof (recv_in n w0 d (first p) Hl0 Hd0 Hlen Hb) as Hl1. set (w1 := put_dhcp w0 n _) in *.
  assert (Hout : forall w2, step (receiving n) n w1 w2 -> closes n w w2).
  { intros w2 S. eapply wp_mono; [by apply (recv_out n w0 d (first p) w2)|]. intros w3. by apply step_trans. }
  destruct (negb (e =? ERR_OK)); [by apply Hout, step_refl, Hl1|]. destruct (negb _); [by apply Hout, step_refl, Hl1|].
  eapply wp_mono; [apply (dispatch_step (receiving n) n w1 (set_msg_in d (Some (first p))) (first p)); [done|apply put_at|done]|]. exact Hout.
Qed.

Lemma recv_step n w p : live idle n w -> parses p -> wp (dhcp_recv lw w n p) (step idle n w).
Proof.
  intros Hl Hp. destruct (live_at _ _ _ Hl) as (d & Hd & C). pose proof (ok_in w n d (li_ok _ _ _ Hl) Hd) as Hin.
  rewrite (recv_eq w n p d Hd Hin). wpb (recv_body_spec w n p d); [done..|]. intros w1 H1. unfold closes in H1. wpb H1. intros w2 S. cbn [wp].
  eapply step_trans; [exact S|]. apply step_low; [apply S|by apply emit_ok, S|done].
Qed.

(** ** Timers *)

(** Between two calls: no block only when the client is off. *)
Lemma idle_live w n d : dhcp_ok idle w -> dhcp_at w n = Some d -> (d_pcb d = None /\ d_state d = DHCP_OFF) \/ live idle n w.
Proof.
  intros H Hd. destruct (do_client _ _ H _ _ Hd) as [_ _ C _]. destruct (d_pcb d) as [a|] eqn:Ha; [right; split; [done|by exists d, a]|by left].
Qed.

Lemma restart_step busy n w : live busy n w -> wp (release_and_discover lw w n) (step busy n w).
Proof.
  intros Hl. unfold release_and_discover. wpb (release_step busy n w); [done|]. intros (r & w1) S. eapply step_after; [exact S|].
  apply step_discard, discover_step. by eapply live_step.
Qed.

Lemma timeout_step n w d : dhcp_ok idle w -> dhcp_at w n = Some d -> wp (dhcp_timeout lw w n) (step idle n w).
Proof.
  intros H Hd. unfold dhcp_timeout, get_dhcp. rewrite Hd. cbn [obind]. pose proof (step_refl idle n w H) as Hr.
  destruct (idle_live w n d H Hd) as [[_ ->]|Hl]; [done|].
  destruct (d_state d); try done; repeat (case_match; try done);
    first [apply step_discard; by (apply discover_step || apply select_step || apply renew_step || apply rebind_step || apply reboot_step)
          |by apply restart_step|by apply check_step|by apply bind_step].
Qed.

Lemma lease_timer_step n w d : dhcp_ok idle w -> dhcp_at w n = Some d ->
  wp (dhcp_t1_timeout lw w n) (step idle n w) /\ wp (dhcp_t2_timeout lw w n) (step idle n w).
Proof.
  intros H Hd. unfold dhcp_t1_timeout, dhcp_t2_timeout, get_dhcp. rewrite Hd. cbn [obind]. pose proof (step_refl idle n w H) as Hr.
  destruct (idle_live w n d H Hd) as [[_ ->]|Hl]; [done|].
  destruct (leased _); [|done]. split; apply step_discard; by (apply renew_step || apply rebind_step).
Qed.

Lemma step_timer n w d d' : dhcp_ok idle w -> dhcp_at w n = Some d -> d_pcb d' = d_pcb d -> d_p_out d' = d_p_out d -> d_msg_in d' = d_msg_in d ->
  d_state d' = d_state d -> d_lease d' = d_lease d -> step idle n w (put_dhcp w n (Some d')).
Proof.
  intros H Hd E1 E2 E3 E4 E5. destruct (do_client _ _ H _ _ Hd) as [C1 _ C3 C4]. apply (step_put idle n w d); try done; [congruence| |by rewrite E5].
  intros E. rewrite E in C3. congruence.
Qed.

Lemma fine_step n w : dhcp_ok idle w -> wp (fine_tmr_netif lw w n) (step idle n w).
Proof.
  intros H. unfold fine_tmr_netif. destruct (dhcp_at w n) as [d|] eqn:Hd; [|by apply step_refl].
  destruct (1 <? _); [cbn [wp]; by apply (step_timer n w d)|]. destruct (_ =? 1); [|by apply step_refl].
  assert (S : step idle n w (put_dhcp w n (Some (set_request_timeout d 0)))) by by apply (step_timer n w d).
  eapply step_after; [exact S|]. eapply timeout_step; [apply S|apply put_at].
Qed.

Lemma coarse_step n w : dhcp_ok idle w -> wp (coarse_tmr_netif lw w n) (step idle n w).
Proof.
  intros H. unfold coarse_tmr_netif. destruct (dhcp_at w n) as [d|] eqn:Hd; [|by apply step_refl].
  assert (S : forall t1 t2, step idle n w (put_dhcp w n (Some (set_t12 d t1 t2)))) by (intros; by apply (step_timer n w d)).
  destruct (_ =? 1).
  - eapply step_after; [apply S|]. eapply lease_timer_step; [eapply st_ok, S|apply put_at].
  - destruct (_ =? 1); [|apply S]. eapply step_after; [apply S|]. eapply lease_timer_step; [eapply st_ok, S|apply put_at].
Qed.

Lemma each_netif_kept ns body w : (forall n w, dhcp_ok idle w -> wp (body w n) (step idle n w)) -> dhcp_ok idle w ->
  wp (each_netif ns body w) (fun w' => dhcp_ok idle w' /\ kept w w').
Proof.
  intros Hb. revert w. induction ns as [|n ns IH]; intros w H; [done|]. cbn [each_netif]. wpb (Hb n w H). intros w1 S.
  eapply wp_mono; [apply IH, S|]. intros w2 [H2 K2]. split; [done|]. etrans; [by eapply step_kept|done].
Qed.

Lemma each_netif_ok ns body w : (forall n w, dhcp_ok idle w -> wp (body w n) (step idle n w)) -> dhcp_ok idle w -> wp (each_netif ns body w) (dhcp_ok idle).
Proof. intros Hb H. eapply wp_mono; [by apply each_netif_kept|]. by intros w' []. Qed.

(** ** Calls of the application *)

Lemma ok_ext busy w w' : dhcp_ok busy w -> (forall m, dhcp_at w' m = dhcp_at w m) -> udp w' = udp w -> mtu w' = mtu w -> rx w' = rx w -> dhcp_ok busy w'.
Proof.
  intros [H1 H2 H3 H4 H5 H6 H7] E1 E2 E3 E4. split; unfold low in *; rewrite ?E2, ?E3, ?E4; try done.
  - intros m d. rewrite E1. apply H4.
  - intros m k d d' a. rewrite !E1. apply H5.
  - intros a p k Ha Hk. rewrite E1. by eapply H6.
Qed.

(** The client of [n] and the blocks change, but not those of the other
    clients. *)
Lemma ok_replace w n u d' : dhcp_ok idle w -> world_ok (base (ip u)) -> udp_ok u ->
  (forall m d a p, m <> n -> dhcp_at w m = Some d -> d_pcb d = Some a -> good_pcb (udp w) a p -> good_pcb u a p) ->
  (forall d, d' = Some d -> client_ok u false d /\ forall m dm, m <> n -> dhcp_at w m = Some dm -> d_pcb d <> None -> d_pcb dm <> d_pcb d) ->
  (forall a p k, pcb_at u !! a = Some p -> u_recv p = Some (DhcpRecv k) ->
    if k =? n then exists d, d' = Some d /\ d_pcb d = Some a else pcb_at (udp w) !! a = Some p) ->
  dhcp_ok idle (put_dhcp (set_udp w u) n d').
Proof.
  intros [H1 H2 H3 H4 H5 H6 H7] Hb Hu Ho Hd Hr. split; try done.
  - intros m d. cbn. destruct (Z.eqb_spec m n) as [->|Hm]; [intros E; by apply Hd|]. intros Hmd. destruct (H4 _ _ Hmd) as [C1 C2 C3 C4].
    split; [done|by destruct (d_msg_in d)| |done]. destruct (d_pcb d) as [a|] eqn:Ea; [|done]. destruct C3 as (p & Hp). exists p. by apply (Ho m d).
  - intros m k dm dk a. cbn. destruct (Z.eqb_spec m n) as [->|Hm]; destruct (Z.eqb_spec k n) as [->|Hk]; try done.
    + intros E Hk' Ea Eb. exfalso. destruct (Hd dm E) as [_ X]. apply (X k dk); congruence.
    + intros Hm' E Ea Eb. exfalso. destruct (Hd dk E) as [_ X]. apply (X m dm); congruence.
    + by apply H5.
  - intros a p k Ha Hk. pose proof (Hr a p k Ha Hk) as X. cbn. destruct (Z.eqb_spec k n) as [->|]; [done|]. by apply (H6 a p).
Qed.

Lemma set_netif_ok b n nf : world_ok b -> nif_hwaddr nf = nif_hwaddr (netif_at b n) -> world_ok (set_netif b n nf).
Proof.
  intros [H1 H2 H3] E. split; [done|done|]. intros m. cbn. destruct (m =? n); [|apply H3]. split. rewrite E. apply H3.
Qed.

Lemma etharp_flag_off nf : etharp_flag (set_nif_flags nf (Z.land (nif_flags nf) (Z.lnot NETIF_FLAG_DHCP))) = etharp_flag nf.
Proof.
  unfold etharp_flag, has_flag. cbn [nif_flags set_nif_flags]. rewrite <- Z.land_assoc. by change (Z.land (Z.lnot NETIF_FLAG_DHCP) NETIF_FLAG_ETHARP) with NETIF_FLAG_ETHARP.
Qed.

Lemma etharp_flag_on nf : etharp_flag (set_nif_flags nf (Z.lor (nif_flags nf) NETIF_FLAG_DHCP)) = etharp_flag nf.
Proof.
  unfold etharp_flag, has_flag. cbn [nif_flags set_nif_flags]. rewrite Z.land_lor_distr_l. change (Z.land NETIF_FLAG_DHCP NETIF_FLAG_ETHARP) with 0. by rewrite Z.lor_0_r.
Qed.

Lemma clear_flag_step busy n w : dhcp_ok busy w -> step busy n w (clear_dhcp_flag w n).
Proof.
  intros H. apply step_low; [done|by apply set_netif_ok; [apply H|]|]. intros m. cbn. destruct (Z.eqb_spec m n) as [->|]; [|done]. apply etharp_flag_off.
Qed.

(** The block of a client is taken away. *)
Lemma detach w n d : dhcp_ok idle w -> dhcp_at w n = Some d ->
  wp (match d_pcb d with Some a => udp_remove (udp w) a | None => Ok (udp w) end)
    (fun u => ip u = ip (udp w) /\ udp_ok u /\ forall d', (forall d1, d' = Some d1 -> client_ok u false d1 /\ d_pcb d1 = None) -> dhcp_ok idle (put_dhcp (set_udp w u) n d')).
Proof.
  intros H Hd. destruct (do_client _ _ H _ _ Hd) as [_ _ C _]. destruct (d_pcb d) as [a|] eqn:Ea.
  - destruct C as (p & Hp & _). destruct (udp_remove_spec (udp w) a p (do_udp _ _ H) Hp) as (l & -> & Hl & Hok). cbn [wp]. split; [done|]. split; [done|].
    intros d' Hd'. apply ok_replace; try done; [apply H| | |].
    + intros m dm b q Hm Hdm Hb (G1 & G2 & G3). split; [|done]. cbn. rewrite lookup_delete_ne; [done|]. intros ->. apply Hm. by eapply (do_own _ _ H m n).
    + intros d1 E. destruct (Hd' d1 E) as [K1 K2]. by split; [|intros; congruence].
    + intros b q k. cbn. intros Hb Hk. destruct (decide (b = a)) as [->|Hne]; [by rewrite lookup_delete_eq in Hb|]. rewrite lookup_delete_ne in Hb by done.
      destruct (Z.eqb_spec k n) as [->|]; [|done]. destruct (do_recv _ _ H b q n Hb Hk) as (d2 & K1 & K2). congruence.
  - cbn [wp]. split; [done|]. split; [apply H|]. intros d' Hd'. apply ok_replace; try done; [apply H|apply H| |].
    + intros d1 E. destruct (Hd' d1 E) as [K1 K2]. by split; [|intros; congruence].
    + intros b q k Hb Hk. destruct (Z.eqb_spec k n) as [->|]; [|done]. destruct (do_recv _ _ H b q n Hb Hk) as (d2 & K1 & K2). congruence.
Qed.

Lemma stop_ok w n : dhcp_ok idle w -> wp (dhcp_stop w n) (fun w' => dhcp_ok idle w' /\ kept w w' /\
  match dhcp_at w' n with Some d => d_pcb d = None | None => True end /\
  low w' = low (clear_dhcp_flag w n) /\ forall m, m <> n -> dhcp_at w' m = dhcp_at w m).
Proof.
  intros H. unfold dhcp_stop. pose proof (clear_flag_step idle n w H) as S. set (w1 := clear_dhcp_flag w n) in *. pose proof (st_ok _ _ _ _ S) as H1.
  pose proof (step_kept _ _ _ _ S) as K.
  destruct (dhcp_at w1 n) as [d|] eqn:Hd; [|cbn [wp]; by rewrite Hd]. wpb (detach w1 n d H1 Hd). intros u (Ei & _ & Hu).
  rewrite (ok_in w1 n d H1 Hd). cbn [guard_ub obind wp]. destruct (do_client _ _ H1 _ _ Hd) as [C1 C2 _ C4].
  destruct (set_state_p_out (set_dpcb d None) DHCP_OFF) as (E1 & E2 & E3 & E4 & E5 & _). split_and!.
  - apply Hu. intros d1 [= <-]. split; [|done]. split; rewrite ?E1, ?E2, ?E3, ?E4, ?E5; try done; cbn; by rewrite (ok_in w1 n d H1 Hd).
  - etrans; [exact K|]. etrans; [by apply kept_udp|apply kept_put].
  - rewrite put_at. by rewrite E2.
  - unfold low. cbn. by rewrite Ei.
  - intros m Hm. cbn. by destruct (Z.eqb_spec m n).
Qed.

(** The new block of a client: port 68 unless another block has it. *)
Definition client_pcb (port n : Z) : udp_pcb := UdpPcb 0 0 SOF_BROADCAST 0 UDP_TTL UDP_FLAGS_CONNECTED port DHCP_SERVER_PORT (Some (DhcpRecv n)).

Lemma start_block_spec u a u' n : udp_ok u -> udp_new u = (Some a, u') ->
  wp (start_block u' a n) (fun u4 => udp_ok u4 /\ ip u4 = ip u /\ exists port, port <> 0 /\
    pcb_at u4 = <[a := client_pcb port n]> (pcb_at u) /\ pcb_at u !! a = None /\ (unused u DHCP_CLIENT_PORT -> port = DHCP_CLIENT_PORT)).
Proof.
  intros H E. pose proof (udp_new_spec u H) as N. rewrite E in N. destruct N as (N1 & N2 & N3 & ->). set (u1 := UdpW _ _ _ _ _) in *.
  set (p0 := UdpPcb 0 0 0 0 UDP_TTL 0 0 0 None) in *. assert (Hp0 : pcb_at u1 !! a = Some p0) by apply lookup_insert_eq.
  unfold start_block, get_pcb. rewrite Hp0. cbn [obind]. set (p1 := ip_set_option p0 SOF_BROADCAST). set (u2 := set_pcb u1 a p1).
  assert (H2 : udp_ok u2).
  { apply (udp_ok_put u1 a p0); try done; [apply N1|apply N1|]. intros b Hb. right. split; [|done]. by intros ->. }
  assert (Hp1 : pcb_at u2 !! a = Some p1) by apply lookup_insert_eq.
  assert (Hb : wp (udp_bind u2 a IPADDR_ANY DHCP_CLIENT_PORT) (fun '(_, u3) => udp_ok u3 /\ ip u3 = ip u /\ exists port,
    pcb_at u3 = <[a := set_local p1 0 port]> (pcb_at u) /\ (port <> 0 -> a ∈ udp_pcbs u3) /\ (unused u DHCP_CLIENT_PORT -> port = DHCP_CLIENT_PORT))).
  { assert (Em : forall q, <[a := q]> (pcb_at u2) = <[a := q]> (pcb_at u)) by (intros q; unfold u2, set_pcb, u1; cbn [pcb_at]; by rewrite !insert_insert_eq).
    eapply wp_mono; [by apply udp_bind_spec|]. intros (e & u3) [(-> & [B1 B2 B3 B4 (port & B5 & B6 & B7 & B8)])|(-> & -> & _ & (b & q & K1 & K2 & K3 & K4))].
    - split; [done|]. split; [done|]. exists port. rewrite B7, Em. split; [done|]. split; [|intros _; by apply B6]. intros _. rewrite B4.
      destruct (existsb (Z.eqb a) (udp_pcbs u2)) eqn:El; [by apply listed|by left].
    - split; [done|]. split; [done|]. exists 0. split; [|split; [done|]].
      + unfold u2, set_pcb, u1. cbn [pcb_at]. by rewrite insert_insert_eq.
      + intros Hu. exfalso. destruct K4 as [K4 _]. unfold u2, set_pcb, u1 in K3. cbn [pcb_at] in K3. rewrite !lookup_insert_ne in K3 by done. apply (Hu b q); [exact K2|done|done]. }
  wpb Hb. intros (e & u3) (H3 & Hi3 & (port & Hp3 & Hl3 & Hu3)). assert (Hp2 : pcb_at u3 !! a = Some (set_local p1 0 port)) by (rewrite Hp3; apply lookup_insert_eq).
  wpb (udp_connect_spec u3 a _ IPADDR_ANY DHCP_SERVER_PORT H3 Hp2 Hl3). intros (e' & u4) (-> & H4 & Hi4 & _ & (lp & L1 & L2 & L3 & _)).
  set (p3 := set_remote _ _ _ _) in *. assert (Hp4 : pcb_at u4 !! a = Some p3) by (rewrite L3; apply lookup_insert_eq).
  destruct (udp_recv_spec u4 a p3 (Some (DhcpRecv n)) H4 Hp4) as [-> H5]. cbn [wp]. split; [done|]. split; [cbn; congruence|]. exists lp.
  split; [done|]. split; [unfold set_pcb; cbn [pcb_at]; by rewrite L3, Hp3, !insert_insert_eq|]. split; [done|]. intros Hu. rewrite L2; [by apply Hu3|]. cbn. by rewrite Hu3.
Qed.

(** A client with a new block. *)
Lemma attach w n d u a port : dhcp_ok idle w -> dhcp_at w n = Some d -> d_pcb d = None -> udp_ok u -> ip u = ip (udp w) -> port <> 0 ->
  pcb_at u = <[a := client_pcb port n]> (pcb_at (udp w)) -> pcb_at (udp w) !! a = None ->
  dhcp_ok idle (put_dhcp (set_udp w u) n (Some (set_dpcb dhcp_zero (Some a)))).
Proof.
  intros H Hd Hn Hu Hi Hport Ep Ha. apply ok_replace; try done; [by rewrite Hi; apply H| | |].
  - intros m dm b q Hm Hdm Hb (G1 & G2 & G3). split; [|done]. rewrite Ep, lookup_insert_ne by (intros ->; congruence). done.
  - intros d1 [= <-]. split.
    + split; try done. cbn. exists (client_pcb port n). split; [by rewrite Ep, lookup_insert_eq|done].
    + intros m dm Hm Hdm _ Eq. cbn in Eq. destruct (do_client _ _ H m dm Hdm) as [_ _ C _]. rewrite Eq in C. destruct C as (q & (G1 & _)). congruence.
  - intros b q k Hb Hk. rewrite Ep in Hb. destruct (decide (b = a)) as [->|].
    + rewrite lookup_insert_eq in Hb. injection Hb as <-. cbn in Hk. injection Hk as <-. rewrite Z.eqb_refl. by exists (set_dpcb dhcp_zero (Some a)).
    + rewrite lookup_insert_ne in Hb by done. destruct (Z.eqb_spec k n) as [->|]; [|done]. destruct (do_recv _ _ H b q n Hb Hk) as (d2 & K1 & K2). congruence.
Qed.

Lemma zero_ok u : client_ok u false dhcp_zero.
Proof. by split. Qed.

Lemma asked_ok b : world_ok b -> world_ok (asked b).
Proof. by intros []. Qed.

(** There was no client: one without a block is added. *)
Lemma add_client w n : dhcp_ok idle w -> dhcp_at w n = None -> dhcp_ok idle (put_dhcp w n (Some dhcp_zero)).
Proof.
  intros H Hd. apply (ok_ext _ (put_dhcp (set_udp w (udp w)) n (Some dhcp_zero))); [|done..]. apply ok_replace; try done; [apply H|apply H| |].
  - intros d [= <-]. split; [apply zero_ok|done].
  - intros a p k Ha Hk. destruct (Z.eqb_spec k n) as [->|]; [|done]. destruct (do_recv _ _ H a p n Ha Hk) as (d & E & _). congruence.
Qed.

Lemma start_struct_spec w n : dhcp_ok idle w ->
  wp (start_struct lw w n) (fun '(ok, w1) => (if ok then dhcp_ok idle (put_dhcp w1 n (Some dhcp_zero)) else dhcp_ok idle w1) /\ kept w w1 /\
    (lw_alloc lw (answers (low w)) = true -> ok = true)).
Proof.
  intros H. unfold start_struct. destruct (dhcp_at w n) as [d|] eqn:Hd.
  - wpb (detach w n d H Hd). intros u (Ei & _ & Hu). destruct (do_client _ _ H _ _ Hd) as [-> _ _ _]. rewrite (ok_in w n d H Hd). cbn [guard_ub obind wp].
    split_and!; [|by apply kept_udp|done]. apply Hu. intros d1 [= <-]. by split; [apply zero_ok|].
  - unfold alloc. assert (H1 : dhcp_ok idle (set_low w (asked (low w)))) by (eapply (st_ok _ n), step_low; [done|by apply asked_ok, H|done]).
    destruct (lw_alloc _ _); cbn [wp]; [|done]. by split_and!; [apply add_client|..].
Qed.

Lemma set_flag_step w n : dhcp_ok idle w -> step idle n w (set_nif w n (set_nif_flags (dnif w n) (Z.lor (nif_flags (dnif w n)) NETIF_FLAG_DHCP))).
Proof. intros H. pose proof (etharp_flag_on (dnif w n)) as Hf. apply step_low; [done|by apply set_netif_ok; [apply H|]|]. intros m. cbn. by destruct (Z.eqb_spec m n) as [->|]. Qed.

Lemma block_live w n a u : dhcp_ok idle (put_dhcp w n (Some dhcp_zero)) -> udp_new (udp w) = (Some a, u) ->
  wp (start_block u a n) (fun u4 => live idle n (set_udp (put_dhcp (set_udp w u) n (Some (set_dpcb dhcp_zero (Some a)))) u4) /\ ip u4 = ip (udp w) /\
    exists port, pcb_at u4 !! a = Some (client_pcb port n) /\ (unused (udp w) DHCP_CLIENT_PORT -> port = DHCP_CLIENT_PORT)).
Proof.
  intros H E. set (z := put_dhcp w n (Some dhcp_zero)) in *. pose proof (do_udp _ _ H) as Hu. change (udp z) with (udp w) in Hu.
  eapply wp_mono; [by apply (start_block_spec (udp w) a u n)|]. intros u4 (U1 & U2 & (port & U3 & U4 & U5 & U6)).
  pose proof (attach z n dhcp_zero u4 a port H (put_at _ _ _) eq_refl U1 U2 U3 U4 U5) as Hz4. split; [|split; [done|exists port; by rewrite U4, lookup_insert_eq]].
  split; [|exists (set_dpcb dhcp_zero (Some a)), a; split; [cbn; by rewrite Z.eqb_refl|done]].
  eapply ok_ext; [exact Hz4|intros m; cbn; by destruct (m =? n)|done..].
Qed.

(** There is a client, running or not, when there was memory for it. *)
Lemma dhcp_start_ok w n : dhcp_ok idle w -> wp (dhcp_start lw w n) (fun '(_, w') => dhcp_ok idle w' /\ kept w w' /\
  (etharp_flag (dnif w n) = true -> DHCP_MAX_MSG_LEN_MIN_REQUIRED <= mtu w n -> lw_alloc lw (answers (low w)) = true -> is_Some (dhcp_at w' n))).
Proof.
  intros H. unfold dhcp_start. pose proof (clear_flag_step idle n w H) as S1. set (w1 := clear_dhcp_flag w n) in *.
  pose proof (st_ok _ _ _ _ S1) as H1. pose proof (step_kept _ _ _ _ S1) as K1. pose proof (kp_flag _ _ K1 n) as Ef. unfold etharp_flag at 1 in Ef.
  destruct (has_flag (dnif w1 n) NETIF_FLAG_ETHARP); cbn [negb]; [|by rewrite <- Ef].
  change (mtu w1 n) with (mtu w n). destruct (Z.ltb_spec (mtu w n) DHCP_MAX_MSG_LEN_MIN_REQUIRED); [by split_and!; [..|intros; lia]|].
  wpb (start_struct_spec w1 n H1). intros (ok & w2) (H2 & K2 & Hok). destruct ok; cbn [negb].
  2:{ split_and!; [done|by etrans|]. intros _ _ Ha. by discriminate Hok. }
  assert (K12 : kept w w2) by by etrans. clear K1 K2.
  set (z := put_dhcp w2 n (Some dhcp_zero)) in *. pose proof (do_udp _ _ H2) as Hu. change (udp z) with (udp w2) in Hu.
  pose proof (udp_new_spec (udp w2) Hu) as N. destruct (udp_new (udp w2)) as [[a|] u] eqn:En.
  - change (udp (put_dhcp (set_udp w2 u) n (Some (set_dpcb dhcp_zero (Some a))))) with u.
    wpb (block_live w2 n a u H2 En). intros u4 (Hl & Ei & _). set (w3 := put_dhcp (set_udp w2 u) n _) in *. set (w4 := set_udp _ u4) in *.
    assert (K4 : kept w w4).
    { etrans; [exact K12|]. assert (Eu : ip u = ip (udp w2)) by (by destruct N as (_ & _ & _ & ->)).
      etrans; [exact (kept_udp w2 u Eu)|]. etrans; [apply kept_put|]. apply kept_udp. cbn. by rewrite Eu. }
    wpb (discover_step idle n w4 Hl). intros (r & w5) S. pose proof (step_kept _ _ _ _ S) as K5. assert (Hd : is_Some (dhcp_at w5 n)).
    { apply (kp_client _ _ K5). cbn. rewrite Z.eqb_refl. by eexists. }
    assert (K45 : kept w w5) by by etrans. destruct (negb (r =? ERR_OK)).
    + wpb (stop_ok w5 n); [apply S|]. intros w6 (H6 & K6 & _). cbn [wp]. split_and!; [done|by etrans|]. intros _ _ _. by apply (kp_client _ _ K6).
    + pose proof (set_flag_step w5 n (st_ok _ _ _ _ S)) as S6. cbn [wp]. split_and!; [apply S6|etrans; [done|by eapply step_kept]|done].
  - subst u. cbn [wp]. split_and!.
    + eapply ok_ext; [exact H2| |done|done|done]; intros m; cbn; by destruct (m =? n).
    + etrans; [exact K12|]. etrans; [exact (kept_udp w2 _ eq_refl)|apply kept_put].
    + intros _ _ _. cbn. rewrite Z.eqb_refl. by eexists.
Qed.

Lemma network_changed_step w n : dhcp_ok idle w -> wp (dhcp_network_changed lw w n) (step idle n w).
Proof.
  intros H. unfold dhcp_network_changed. destruct (dhcp_at w n) as [d|] eqn:Hd; [|by apply step_refl].
  destruct (idle_live w n d H Hd) as [[_ ->]|Hl]; [by apply step_refl|].
  assert (Hd1 : wp (let! w := update w n (fun d => set_tries d 0) in discard_result (dhcp_discover lw w n)) (step idle n w)).
  { apply step_bind; [done|by apply step_update|]. intros w1 Hl1. by apply step_discard, discover_step. }
  assert (Hd2 : wp (let! b := netif_set_down (low w) n in let! w := update (set_low w b) n (fun d => set_tries d 0) in discard_result (dhcp_reboot lw w n)) (step idle n w)).
  { wpb (quiet_down (low w) n); [apply H|]. intros b Hb. assert (S : step idle n w (set_low w b)) by by apply step_quiet.
    eapply step_after; [exact S|]. pose proof (live_step _ _ _ _ Hl S) as Hl1. apply step_bind; [done|by apply step_update|]. intros w1 Hl2. by apply step_discard, reboot_step. }
  destruct (d_state d); try done. by apply step_refl.
Qed.

Lemma set_struct_ok w n : dhcp_ok idle w -> dhcp_at w n = None -> wp (dhcp_set_struct w n) (dhcp_ok idle).
Proof. intros H Hd. unfold dhcp_set_struct. rewrite Hd. cbn [guard_ub obind wp]. by apply add_client. Qed.

(** Behind dhcp_stop. *)
Lemma cleanup_ok w n d : dhcp_ok idle w -> dhcp_at w n = Some d -> d_pcb d = None -> dhcp_ok idle (dhcp_cleanup w n).
Proof.
  intros H Hd Hn. pose proof (detach w n d H Hd) as D. rewrite Hn in D. destruct D as (_ & _ & D). unfold dhcp_cleanup.
  eapply ok_ext; [by apply (D None)|done..].
Qed.

(** A block without a port gets one when it sends. *)
Lemma send_unbound w n d a p dst : udp_ok (udp w) -> pcb_at (udp w) !! a = Some p -> u_local_ip p = 0 -> exists u1 port, port <> 0 /\
  (u_local_port p <> 0 -> u1 = udp w /\ port = u_local_port p) /\ udp_ok u1 /\ ip u1 = ip (udp w) /\ pcb_at u1 = <[a := set_local p 0 port]> (pcb_at (udp w)) /\
  send_msg lw w n d (Some a) dst = send_msg lw (set_udp w u1) n d (Some a) dst.
Proof.
  intros H Ha Hip. destruct (decide (u_local_port p = 0)) as [E|E].
  - pose proof (udp_bind_spec (udp w) a p 0 0 H Ha) as B. destruct (udp_bind (udp w) a 0 0) as [[e u1]| |] eqn:Eb; [|done..]. cbn [wp] in B.
    destruct B as [[-> [B1 B2 B3 B4 (port & B5 & _ & B6 & _)]]|(_ & _ & B & _)]; [|done]. exists u1, port. split_and!; try done.
    unfold send_msg. destruct (dhcp_option_trailer d) as [d'| |]; [|done..]. cbn [obind]. destruct (d_p_out d') as [q|]; [|done].
    set (q' := realloc q _). unfold udp_sendto_if, get_pcb. cbn [set_udp udp]. rewrite Ha. cbn [obind]. rewrite E, Hip. change (0 =? 0) with true. cbn match. rewrite Eb.
    assert (Ha1 : pcb_at u1 !! a = Some (set_local p 0 port)) by (rewrite B6; apply lookup_insert_eq). rewrite Ha1. cbn [obind]. change (u_local_port (set_local p 0 port)) with port.
    destruct (Z.eqb_spec port 0); [done|]. cbn [obind]. change (negb (ERR_OK =? ERR_OK)) with false. cbn match. by rewrite Ha1.
  - exists (udp w), (u_local_port p). split_and!; try done. rewrite insert_id; [done|]. rewrite Ha, <- Hip. by destruct p.
Qed.

Lemma mac_at w n : world_ok (low w) -> mac (nif_hwaddr (dnif w n)).
Proof. intros H. apply H. Qed.

Lemma inform_send w n d a p : world_ok (low w) -> udp_ok (udp w) -> 0 <= mtu w n < 2 ^ 16 -> pcb_at (udp w) !! a = Some p -> u_local_ip p = 0 -> d_p_out d = None ->
  wp (let! (result, d, w) := dhcp_create_msg lw w n d DHCP_INFORM in
      if result =? ERR_OK then let! d := option_max_msg_size d (mtu w n) in send_msg lw w n d (Some a) IPADDR_BROADCAST else Ok (d, w))
    (fun '(d', w') => d_pcb d' = d_pcb d /\ dhcp_at w' = dhcp_at w /\ mtu w' = mtu w /\ rx w' = rx w /\ world_ok (low w') /\ udp_ok (udp w') /\
      exists port, (u_local_port p <> 0 -> exists i, udp w' = set_ipw (udp w) i) /\ pcb_at (udp w') = <[a := set_local p 0 port]> (pcb_at (udp w))).
Proof.
  intros Hw Hu Hmtu Ha Hip Hd. rewrite create_msg_eq by (done || by apply mac_at).
  assert (Hid : <[a := set_local p 0 (u_local_port p)]> (pcb_at (udp w)) = pcb_at (udp w)) by (rewrite insert_id; [done|]; rewrite Ha, <- Hip; by destruct p).
  destruct (lw_alloc lw (answers (low w))); cbn [obind].
  2:{ change (ERR_MEM =? ERR_OK) with false. cbn [wp]. split_and!; try done; [by apply asked_ok|by destruct Hu|]. exists (u_local_port p). rewrite Hid. split; [|done]. intros _. by eexists. }
  change (ERR_OK =? ERR_OK) with true. cbn match. set (w1 := DW _ _ _ _ _). set (x := next_xid w d). set (hd := message_head _ _ _).
  assert (Hh : length hd = 240%nat) by by apply message_head_length, mac_at. change (mtu w1) with (mtu w).
  rewrite option_max_msg_size_draft by done. cbn [obind]. set (fs := [type_field DHCP_INFORM; Opt DHCP_OPTION_MAX_MSG_SIZE (be2 (mtu w n))]).
  change (_ ++ encode_field (Opt DHCP_OPTION_MAX_MSG_SIZE (be2 (mtu w n)))) with (encode_all fs).
  assert (Hu1 : udp_ok (udp w1)) by by destruct Hu. destruct (send_unbound w1 n (draft (set_xid d x) (next_id (low w)) hd (encode_all fs)) a p IPADDR_BROADCAST Hu1 Ha Hip)
    as (u1 & port & K1 & K2 & K3 & K4 & K5 & ->).
  assert (Hw1 : world_ok (low (set_udp w1 u1))) by (unfold low; cbn; rewrite K4; by destruct Hw).
  assert (Hg : good_pcb (udp (set_udp w1 u1)) a (set_local p 0 port)) by (split; [cbn; by rewrite K5, lookup_insert_eq|done]).
  eapply wp_mono; [by apply (send_msg_spec lw (set_udp w1 u1) n (set_xid d x) (next_id (low w)) hd fs a (set_local p 0 port))|].
  intros (d' & w') (-> & i & Hi & ->). split_and!; try done.
  - apply emit_ok. eapply ip_sent_carried; [|exact Hi]. done.
  - by destruct K3.
  - exists port. split; [|done]. intros Hp. destruct (K2 Hp) as [-> ->]. by eexists.
Qed.

(** The blocks are the same, but for their order. *)
Lemma ok_blocks w w' : dhcp_ok idle w -> (forall m, dhcp_at w' m = dhcp_at w m) -> mtu w' = mtu w -> rx w' = rx w -> world_ok (low w') -> udp_ok (udp w') ->
  pcb_at (udp w') = pcb_at (udp w) -> dhcp_ok idle w'.
Proof.
  intros [H1 H2 H3 H4 H5 H6 H7] E1 E2 E2' Hw Hu E3. split; rewrite ?E2, ?E2'; try done.
  - intros m d. rewrite E1. intros Hd. destruct (H4 _ _ Hd) as [C1 C2 C3 C4]. split; try done. unfold good_pcb in *. by rewrite E3.
  - intros m k d d' a. rewrite !E1. apply H5.
  - intros a p k. rewrite E3, E1. apply H6.
Qed.

Lemma inform_ok w n : dhcp_ok idle w -> wp (dhcp_inform lw w n) (dhcp_ok idle).
Proof.
  intros H. unfold dhcp_inform. set (d0 := dhcp_set_state dhcp_zero DHCP_CHECKING).
  destruct (match dhcp_at w n with Some d' => d_pcb d' | None => None end) as [a|] eqn:Ea.
  - cbn [obind]. destruct (dhcp_at w n) as [d|] eqn:Hd; [|done]. destruct (do_client _ _ H _ _ Hd) as [_ _ C _]. rewrite Ea in C. destruct C as (p & P1 & P2 & P3).
    pose proof (inform_send w n d0 a p (do_low _ _ H) (do_udp _ _ H) (do_mtu _ _ H n) P1 P3 eq_refl) as S. revert S.
    destruct (dhcp_create_msg _ _ _ _ _) as [[[r d1] w1]| |]; cbn [obind]; [|done..]. intros S. wpb S. intros (d2 & w2) (E1 & E2 & E3 & E3' & E4 & E5 & (port & E6 & _)).
    change (d_pcb d0) with (@None Z) in E1. rewrite E1. cbn [wp]. destruct (E6 P2) as (i & E7).
    apply (ok_ext _ (set_udp w (set_ipw (udp w) i))); [|intros m; by rewrite E2|done|done|done].
    assert (Hi : world_ok (base i)) by (unfold low in E4; by rewrite E7 in E4). by apply (ip_ok idle w i (xid w) (rx w) H Hi), H.
  - pose proof (udp_new_spec (udp w) (do_udp _ _ H)) as N. destruct (udp_new (udp w)) as [[a|] u]; cbn [obind].
    2:{ subst u. cbn [wp]. eapply ok_ext; [exact H|done..]. }
    destruct N as (N1 & N2 & N3 & ->). set (u1 := UdpW _ _ _ _ _) in *. set (p0 := UdpPcb 0 0 0 0 UDP_TTL 0 0 0 None) in *.
    assert (Hp0 : pcb_at u1 !! a = Some p0) by apply lookup_insert_eq. unfold get_pcb. rewrite Hp0. cbn [obind].
    set (p1 := ip_set_option p0 SOF_BROADCAST). set (u2 := set_pcb u1 a p1).
    assert (H2 : udp_ok u2).
    { apply (udp_ok_put u1 a p0); try done; [apply N1|apply N1|]. intros b Hb. right. split; [|done]. by intros ->. }
    assert (Hp1 : pcb_at u2 !! a = Some p1) by apply lookup_insert_eq.
    assert (Em : forall q, <[a := q]> (pcb_at u2) = <[a := q]> (pcb_at (udp w))) by (intros q; unfold u2, set_pcb, u1; cbn [pcb_at]; by rewrite !insert_insert_eq).
    assert (Hb : wp (udp_bind u2 a IPADDR_ANY DHCP_CLIENT_PORT) (fun '(_, u3) => udp_ok u3 /\ ip u3 = ip (udp w) /\ exists p, pcb_at u3 = <[a := p]> (pcb_at (udp w)) /\ u_local_ip p = 0)).
    { eapply wp_mono; [by apply udp_bind_spec|]. intros (e & u3) [(-> & [B1 B2 B3 B4 (port & B5 & B6 & B7 & B8)])|(-> & -> & _)].
      - split; [done|]. split; [done|]. exists (set_local p1 0 port). by rewrite B7, Em.
      - split; [done|]. split; [done|]. exists p1. split; [|done]. unfold u2, set_pcb, u1. cbn [pcb_at]. by rewrite insert_insert_eq. }
    revert Hb. destruct (udp_bind _ _ _ _) as [[e u3]| |]; [|done..]. intros (H3 & I3 & (p & P3 & L3)). cbn [obind].
    set (w3 := set_udp w u3). set (d1 := set_dpcb d0 (Some a)).
    assert (Hl3 : world_ok (low w3)) by (unfold low; cbn; rewrite I3; apply H). assert (Hp3 : pcb_at (udp w3) !! a = Some p) by (cbn; by rewrite P3, lookup_insert_eq).
    pose proof (inform_send w3 n d1 a p Hl3 H3 (do_mtu _ _ H n) Hp3 L3 eq_refl) as S. revert S.
    destruct (dhcp_create_msg _ _ _ _ _) as [[[r d2] w4]| |]; cbn [obind]; [|done..]. intros S. wpb S. intros (d3 & w5) (E1 & E2 & E3 & E3' & E4 & E5 & (port & _ & E6)).
    change (d_pcb d1) with (Some a) in E1. rewrite E1. assert (Hp5 : pcb_at (udp w5) !! a = Some (set_local p 0 port)) by by rewrite E6, lookup_insert_eq.
    destruct (udp_remove_spec (udp w5) a _ E5 Hp5) as (l & -> & _ & Hok). cbn [obind wp]. apply (ok_blocks w); try done.
    + intros m. cbn. by rewrite E2.
    + cbn [udp set_udp pcb_at]. rewrite E6. cbn [udp w3 set_udp]. rewrite P3, insert_insert_eq, delete_insert_id; done.
Qed.

(** ** All calls *)

(** What the rest of the system calls: the application, the receive callback
    of a block, etharp.c, the timers; [Others] is what other code makes of the
    layers below and of its own blocks. *)
Inductive call : Type :=
  | Start (n : Z)
  | Stop (n : Z)
  | SetStruct (n : Z)
  | Cleanup (n : Z)
  | Inform (n : Z)
  | NetworkChanged (n : Z)
  | Renew (n : Z)
  | Release (n : Z)
  | Receive (n : Z) (p : pbufs)
  | ArpReply (n addr : Z)
  | FineTmr
  | CoarseTmr
  | Others (u : udpw).

Definition client_call (w : dw) (c : call) : outcome dw :=
  match c with
  | Start n => discard_result (dhcp_start lw w n)
  | Stop n => dhcp_stop w n
  | SetStruct n => dhcp_set_struct w n
  | Cleanup n => Ok (dhcp_cleanup w n)
  | Inform n => dhcp_inform lw w n
  | NetworkChanged n => dhcp_network_changed lw w n
  | Renew n => discard_result (dhcp_renew lw w n)
  | Release n => discard_result (dhcp_release lw w n)
  | Receive n p => dhcp_recv lw w n p
  | ArpReply n addr => dhcp_arp_reply lw w n addr
  | FineTmr => dhcp_fine_tmr lw w
  | CoarseTmr => dhcp_coarse_tmr lw w
  | Others u => Ok (set_udp w u)
  end.

Definition has_block (w : dw) (n : Z) : Prop := exists d a, dhcp_at w n = Some d /\ d_pcb d = Some a.

(** What the caller has to see to. *)
Definition allowed (w : dw) (c : call) : Prop :=
  match c with
  | SetStruct n => dhcp_at w n = None
  | Cleanup n => exists d, dhcp_at w n = Some d /\ d_pcb d = None
  | Renew n | Release n => has_block w n
  | Receive n p => has_block w n /\ parses p
  | Others u => world_ok (base (ip u)) /\ udp_ok u /\
      (forall n d a, dhcp_at w n = Some d -> d_pcb d = Some a -> pcb_at u !! a = pcb_at (udp w) !! a) /\
      (forall a p n, pcb_at u !! a = Some p -> u_recv p = Some (DhcpRecv n) -> pcb_at (udp w) !! a = Some p)
  | _ => True
  end.

(** Before the first call there is no client. *)
Record initial (w : dw) : Prop := Initial {
  in_low : world_ok (low w);
  in_mtu : forall n, 0 <= mtu w n < 2 ^ 16;
  in_udp : udp_ok (udp w);
  in_client : forall n, dhcp_at w n = None;
  in_recv : forall a p n, pcb_at (udp w) !! a = Some p -> u_recv p <> Some (DhcpRecv n);
  in_rx : length (options_val (rx w)) = 10%nat;
}.

Inductive reachable : dw -> Prop :=
  | reach_initial w : initial w -> reachable w
  | reach_call w c w' : reachable w -> allowed w c -> client_call w c = Ok w' -> reachable w'.

Lemma others_ok w u : dhcp_ok idle w -> allowed w (Others u) -> dhcp_ok idle (set_udp w u).
Proof.
  intros [H1 H2 H3 H4 H5 H6 H7] (A1 & A2 & A3 & A4). split; try done.
  - intros n d Hd. destruct (H4 n d Hd) as [C1 C2 C3 C4]. split; try done. destruct (d_pcb d) as [a|] eqn:Ea; [|done].
    destruct C3 as (p & P1 & P2). exists p. split; [|done]. cbn. by rewrite (A3 n d a).
  - intros a p n Ha Hp. apply (H6 a p n); [|done]. by apply (A4 a p n).
Qed.

Lemma wp_step_ok n w m : wp m (step idle n w) -> wp m (dhcp_ok idle).
Proof. intros H. eapply wp_mono; [exact H|]. intros w' S. apply S. Qed.

Lemma call_ok w c : dhcp_ok idle w -> allowed w c -> wp (client_call w c) (dhcp_ok idle).
Proof.
  intros H Ha. assert (Hb : forall n, has_block w n -> live idle n w) by (intros n (d & a & Hd); split; [done|by exists d, a]).
  destruct c; cbn [client_call allowed] in *.
  - unfold discard_result. wpb (dhcp_start_ok w n H). by intros (r & w1) [? _].
  - eapply wp_mono; [by apply stop_ok|]. by intros w1 [].
  - by apply set_struct_ok.
  - destruct Ha as (d & Hd & Hn). by eapply cleanup_ok.
  - by apply inform_ok.
  - by eapply wp_step_ok, network_changed_step.
  - by eapply wp_step_ok, step_discard, renew_step, Hb.
  - by eapply wp_step_ok, step_discard, release_step, Hb.
  - destruct Ha as [Ha Hp]. eapply wp_step_ok, recv_step; [by apply Hb|done].
  - by eapply wp_step_ok, arp_reply_step.
  - apply each_netif_ok; [apply fine_step|done].
  - apply each_netif_ok; [apply coarse_step|done].
  - by apply others_ok.
Qed.

Lemma initial_ok w : initial w -> dhcp_ok idle w.
Proof.
  intros [H1 H2 H3 H4 H5 H6]. split; try done; [intros n d|intros n m d d' a|intros a p n Ha Hp; by destruct (H5 a p n)]; rewrite H4; done.
Qed.

Lemma client_reachable_ok w : reachable w -> dhcp_ok idle w.
Proof.
  induction 1 as [w H|w c w' _ IH Ha E]; [by apply initial_ok|]. pose proof (call_ok w c IH Ha) as X. by rewrite E in X.
Qed.


End Theory.

(** ** Messages of a server *)

Lemma parses_message p main file sname : shaped (map snd (pb_chain p)) -> message (map snd (pb_chain p)) main file sname ->
  NoDup (map fst (values (fields_of main file sname))) -> parses p.
Proof.
  intros Hs Hm Hd. split; [done|]. intros r Hr. destruct (dhcp_options_roundtrip 5 _ main file sname r Hs Hm Hd Hr) as (r' & E & _).
  by exists (ERR_OK, r').
Qed.

(** A BOOTREPLY for the client with the address [hwaddr], in one pbuf. *)
Definition reply_bytes (hwaddr : list Z) (x yiaddr : Z) (fs : list field) : list Z :=
  [DHCP_BOOTREPLY; DHCP_HTYPE_ETH; zlen hwaddr; 0] ++ word_bytes (lwip_htonl x) ++ replicate 8 0 ++ word_bytes yiaddr ++ replicate 8 0 ++
  hwaddr ++ replicate (Z.to_nat (DHCP_CHADDR_LEN - zlen hwaddr)) 0 ++ replicate 192 0 ++ word_bytes (lwip_htonl DHCP_MAGIC_COOKIE) ++
  encode_all fs ++ [DHCP_OPTION_END].
Definition reply_packet (id : Z) (bs : list Z) : pbufs := Pbufs id [] [(PBUF_POOL, bs)] [] 0.

Definition server_fields (type : Z) : list field :=
  [Opt DHCP_OPTION_MESSAGE_TYPE [type]; Opt DHCP_OPTION_SERVER_ID [192; 168; 1; 1]; Opt DHCP_OPTION_LEASE_TIME [0; 0; 14; 16];
   Opt DHCP_OPTION_SUBNET_MASK [255; 255; 255; 0]].

Definition w_cold : dw := DW (UdpW (IpW unconfigured 0 (Some 0)) [] 0xc000 ∅ 1) (fun _ => None) (fun _ => 1500) 0xABCD0000 none_given.
Definition offered : Z := 0x3201a8c0.

Lemma cold_initial : initial w_cold.
Proof.
  split; try done; [apply unconfigured_ok|].
  split; cbn; [apply NoDup_nil_2|constructor|intros a [x Hx]; by rewrite lookup_empty in Hx|by rewrite map_size_empty|by unfold UDP_LOCAL_PORT_RANGE_START, UDP_LOCAL_PORT_RANGE_END].
Qed.

Definition state_or (d : dw) (m : outcome dw) : dw := match m with Ok w => w | _ => d end.
Lemma state_or_ok d m : match m with Ok _ => true | _ => false end = true -> m = Ok (state_or d m).
Proof. by destruct m. Qed.

Definition w_selecting : dw := state_or w_cold (client_call kind w_cold (Start 0)).

Lemma starts_selecting : client_call kind w_cold (Start 0) = Ok w_selecting.
Proof. apply state_or_ok. vm_compute. reflexivity. Qed.

Lemma selecting_reachable : reachable kind w_selecting.
Proof. eapply (reach_call _ _ (Start 0)); [apply reach_initial, cold_initial|done|apply starts_selecting]. Qed.

Definition an_offer : pbufs := reply_packet 100 (reply_bytes [2; 0; 0; 0; 0; 1] 0xABCD0001 offered (server_fields DHCP_OFFER)).

Lemma offer_parses : parses an_offer.
Proof.
  apply (parses_message _ (server_fields DHCP_OFFER) [] []); [apply shaped_dec; vm_compute; reflexivity|split|].
  - exists []. vm_compute. reflexivity.
  - intros H. vm_compute in H. discriminate.
  - intros H. vm_compute in H. discriminate.
  - vm_compute. reflexivity.
  - split_and!; repeat constructor; cbn; try (intros ?; discriminate); lia.
  - split; vm_compute; apply not_elem_of_nil.
  - apply (bool_decide_unpack _). vm_compute. exact I.
Qed.


(** The rule for dhcp_renew: behind dhcp_stop it follows the pointer to the
    block, which is NULL. *)
Definition w_stopped : dw := state_or w_selecting (client_call kind w_selecting (Stop 0)).

Example renew_stopped_crashes : client_call kind w_selecting (Stop 0) = Ok w_stopped /\ client_call kind w_stopped (Renew 0) = UB.
Proof. split; [apply state_or_ok|]; vm_compute; reflexivity. Qed.
