(* ===== verification/DhcpBind.v ===== *)
(** * How the DHCP client obtains an address

    What the client of [Dhcp] makes of the answers of a server: an OFFER is
    requested, an ACK is checked with ARP, and the interface is configured
    when nobody answers; when somebody does, the address is declined. The
    waiting times between messages. *)

From S2P Require Import Prelude CStd Mem IpAddr Checksum Pbuf Etharp Autoip Ip Udp DhcpMsg Dhcp DhcpInv.
From stdpp Require Import gmap.
#[local] Open Scope Z_scope.

(** A message of a server to the client with the transaction [x] on an
    interface with the address [hwaddr]; [es] are the options, by index. *)
Record answer (x : Z) (hwaddr : list Z) (type yiaddr : Z) (es : list (Z * Z)) (p : pbufs) : Prop := Answer {
  an_fields : exists main file sname, shaped (map snd (pb_chain p)) /\ message (map snd (pb_chain p)) main file sname /\
    values (fields_of main file sname) = es;
  an_once : NoDup (map fst es);
  an_type : (DHCP_OPTION_IDX_MSG_TYPE, type) ∈ es /\ 0 <= type < 256;
  an_op : rd (first p) 0 = Ok DHCP_BOOTREPLY;
  an_chaddr : slice (first p) DHCP_CHADDR_OFS (zlen hwaddr) = Ok hwaddr;
  an_xid : exists v, load32 (first p) DHCP_XID_OFS = Ok v /\ lwip_ntohl v = x;
  an_yiaddr : load32 (first p) DHCP_YIADDR_OFS = Ok yiaddr;
}.

(** The options that the client has found. *)
Definition found (r : rx_options) (es : list (Z * Z)) : Prop :=
  forall i v, 0 <= i -> i <> DHCP_OPTION_IDX_OVERLOAD -> (dhcp_option_given r i = true /\ dhcp_get_option_value r i = v <-> (i, v) ∈ es).

Lemma found_in r es i v : found r es -> 0 < i -> (i, v) ∈ es -> dhcp_option_given r i = true /\ dhcp_get_option_value r i = v.
Proof. intros H Hi Hin. apply H; [lia| |done]. unfold DHCP_OPTION_IDX_OVERLOAD. lia. Qed.

Lemma found_out r es i : found r es -> 0 < i -> (forall v, (i, v) ∉ es) -> dhcp_option_given r i = false.
Proof.
  intros H Hi Hn. destruct (dhcp_option_given r i) eqn:E; [|done]. destruct (Hn (dhcp_get_option_value r i)). apply H; [lia| |done].
  unfold DHCP_OPTION_IDX_OVERLOAD. lia.
Qed.

Lemma answer_first x hw type y es p : answer x hw type y es p -> 236 < zlen (first p).
Proof. intros [(main & file & sname & _ & Hm & _) _ _ _ _ _ _]. apply me_first in Hm. unfold first. by destruct (pb_chain p) as [|[]]. Qed.

Section Bind.
Context (lw : lower).
Hypothesis memory_left : forall k, lw_alloc lw k = true.

Definition with_rx (w : dw) (r : rx_options) : dw := DW (udp w) (dhcp_at w) (mtu w) (xid w) r.

Lemma recv_answer w n d type y es p : live idle n w -> dhcp_at w n = Some d -> answer (d_xid d) (nif_hwaddr (dnif w n)) type y es p -> exists r,
  found r es /\ length (options_val r) = 10%nat /\
  dhcp_recv lw w n p = (let! w := dhcp_dispatch lw (put_dhcp (with_rx w r) n (Some (set_msg_in d (Some (first p))))) n type in
                        let! w := update w n (fun d => set_msg_in d None) in Ok (dfree w (pb_id p))).
Proof.
  intros Hl Hd Ha. pose proof (answer_first _ _ _ _ _ _ Ha) as Hlen. pose proof Ha as [(main & file & sname & Hs & Hm & He) Hn (Ht & Htr) Hop Hc (v & Hv & Hx) Hy].
  pose proof (do_rx _ _ (li_ok _ _ _ Hl)) as Hrx. rewrite <- He in Hn.
  destruct (dhcp_options_roundtrip 5 _ main file sname (rx w) Hs Hm Hn Hrx) as (r & Er & Hf). rewrite He in Hf. fold (found r es) in Hf.
  exists r. split; [done|]. split; [rewrite <- Hrx; by eapply parse_reply_length|].
  rewrite (recv_eq lw w n p d Hd (ok_in w n d (li_ok _ _ _ Hl) Hd)). unfold recv_body. change DHCP_MIN_REPLY_LEN with 44.
  destruct (Z.ltb_spec (zlen (first p)) 44); [lia|]. rewrite Hop. cbn [obind]. change (negb (DHCP_BOOTREPLY =? DHCP_BOOTREPLY)) with false. cbn match.
  rewrite Hc. cbn [obind]. rewrite bool_decide_eq_true_2 by done. cbn [negb]. rewrite Hv. cbn [obind]. rewrite Hx, Z.eqb_refl. cbn [negb].
  change parse_fuel with 8%nat. rewrite Er. cbn [obind]. unfold with_rx.
  rewrite (update_eq (DW (udp w) (dhcp_at w) (mtu w) (xid w) r) n (fun d => set_msg_in d (Some (first p))) d) by done. cbn [obind].
  change (negb (ERR_OK =? ERR_OK)) with false. cbn match. destruct (found_in r es DHCP_OPTION_IDX_MSG_TYPE type Hf eq_refl Ht) as [-> ->]. cbn [negb]. by rewrite u8_small.
Qed.

(** The frame that carries a message of a client in the state [s]: to
    everybody. *)
Definition message_frame (w : dw) (n : Z) (s : dhcp_state) (p : udp_pcb) (x type : Z) (fs : list field) : list Z :=
  let hw := nif_hwaddr (dnif w n) in
  ip_frame ethbroadcast hw (udp_packet (ip (udp w)) n p IPADDR_BROADCAST DHCP_SERVER_PORT
    (message_text hw x (ciaddr_for type s (nif_ip_addr (dnif w n))) (type_field type :: fs))).

(** The world [w'] behind a message to everybody. *)
Record said (w : dw) (n : Z) (d : dhcp) (p : udp_pcb) (type : Z) (fs : list field) (msecs : Z -> Z) (w' : dw) : Prop := Said {
  sd_at : dhcp_at w' n = Some (dhcp_retry (set_out (set_xid d (next_xid w d)) None 68) msecs);
  sd_xid : xid w' = next_xid w d;
  sd_netif : netif_at (low w') = netif_at (low w);
  sd_list : netif_list (low w') = netif_list (low w);
  sd_table : arp_table (low w') = arp_table (low w);
  sd_blocks : pcb_at (udp w') = pcb_at (udp w);
  sd_rx : rx w' = rx w;
  sd_log : log (low w') = log (low w) ++ [Take (next_id (low w)); Out n (message_frame w n (d_state d) p (next_xid w d) type fs); Drop (next_id (low w))];
}.

Lemma group_everybody nf : group_mac nf IPADDR_BROADCAST = Some ethbroadcast.
Proof. done. Qed.

Lemma transmitted_said w n d p type fs msecs r w' : world_ok (low w) -> transmitted lw w n d p type fs IPADDR_BROADCAST msecs r w' ->
  r = ERR_OK /\ said w n d p type fs msecs w'.
Proof.
  intros Hw [Ha|i Ha Hi]; [by rewrite memory_left in Ha|]. split; [done|].
  destruct (ip_sent_group lw _ _ _ _ _ _ ethbroadcast Hi (group_everybody _)) as [Et El].
  assert (Hw' : world_ok (base (with_msg w))) by by destruct Hw.
  pose proof (ip_sent_carried lw (with_msg w) n _ _ _ i Hw' Hi) as [_ C2 C3 _]. split; try done.
  - apply put_at.
  - cbn. rewrite El. cbn. by rewrite <- !app_assoc.
Qed.

Lemma sending_said w n d a p d1 type fs msecs (m : outcome (Z * dw)) : live idle n w -> sender w n d a p ->
  wp m (fun '(r, w') => transmitted lw (put_dhcp w n (Some d1)) n d1 p type fs IPADDR_BROADCAST msecs r w') ->
  wp m (fun '(r, w') => r = ERR_OK /\ said (put_dhcp w n (Some d1)) n d1 p type fs msecs w').
Proof. intros Hl S Hm. eapply wp_mono; [exact Hm|]. intros (r & w') T. apply transmitted_said; [apply Hl|done]. Qed.

(** What an answer leaves behind: the client [d'] in the state [st], with the
    lease [l], its first waiting time of [ticks]; the interfaces as they
    were. *)
Record phase (w w' : dw) (n : Z) (d' : dhcp) (st : dhcp_state) (tries ticks : Z) (l : lease) : Prop := Phase {
  ph_live : live idle n w';
  ph_at : dhcp_at w' n = Some d';
  ph_state : d_state d' = st;
  ph_tries : d_tries d' = tries;
  ph_ticks : d_request_timeout d' = ticks;
  ph_lease : d_lease d' = l;
  ph_netif : netif_at (low w') = netif_at (low w);
  ph_list : netif_list (low w') = netif_list (low w);
}.

Lemma set_state_new d s : d_state d <> s -> d_tries (dhcp_set_state d s) = 0 /\ d_request_timeout (dhcp_set_state d s) = 0.
Proof. intros H. unfold dhcp_set_state. by rewrite bool_decide_eq_false_2. Qed.

(** The end of dhcp_recv. *)
Lemma recv_done w n d id : dhcp_at w n = Some d ->
  (let! w := update w n (fun d => set_msg_in d None) in Ok (dfree w id)) = Ok (dfree (put_dhcp w n (Some (set_msg_in d None))) id).
Proof. intros Hd. by rewrite (update_eq _ _ _ _ Hd). Qed.

Lemma answer_parses x hw type y es m : answer x hw type y es m -> parses m.
Proof. intros [(main & file & sname & Hs & Hm & He) Hn _ _ _ _ _]. eapply parses_message; [done|exact Hm|by rewrite He]. Qed.

Lemma answer_yiaddr x hw type y es m : answer x hw type y es m -> addr32 y.
Proof.
  intros H. pose proof (answer_first _ _ _ _ _ _ H). pose proof (parses_first _ (answer_parses _ _ _ _ _ _ H)) as Hb.
  pose proof (load32_addr (first m) DHCP_YIADDR_OFS Hb ltac:(done)) as W. rewrite (an_yiaddr _ _ _ _ _ _ H) in W. apply W. change DHCP_YIADDR_OFS with 16. lia.
Qed.

Lemma live_sender busy w n d a p : live busy n w -> dhcp_at w n = Some d -> d_pcb d = Some a -> pcb_at (udp w) !! a = Some p -> sender w n d a p.
Proof. intros Hl Hd Ha Hp. destruct (ok_sender _ _ _ _ _ (li_ok _ _ _ Hl) Hd Ha) as [q S]. destruct (se_good _ _ _ _ _ S) as (Hq & _). by assert (q = p) as <- by congruence. Qed.

(** What the client says, from its state [w] with the transaction [x]: the
    frame, and its pbuf taken and given back. *)
Definition sending (w : dw) (n : Z) (f : list Z) : list event := [Take (next_id (low w)); Out n f; Drop (next_id (low w))].

Lemma offer_spec w n d a p m y srv es : live idle n w -> dhcp_at w n = Some d -> d_pcb d = Some a -> pcb_at (udp w) !! a = Some p ->
  d_state d = DHCP_SELECTING -> answer (d_xid d) (nif_hwaddr (dnif w n)) DHCP_OFFER y es m -> (DHCP_OPTION_IDX_SERVER_ID, srv) ∈ es ->
  let l := set_offered_ip (set_server (d_lease d) (lwip_htonl srv)) y in
  wp (dhcp_recv lw w n m) (fun w' => exists d', phase w w' n d' DHCP_REQUESTING 1 4 l /\
    d_pcb d' = Some a /\ pcb_at (udp w') = pcb_at (udp w) /\ d_xid d' = u32 (xid w + 1) /\
    log (low w') = log (low w) ++ sending w n (message_frame w n DHCP_REQUESTING p (u32 (xid w + 1)) DHCP_REQUEST (fields_select (mtu w n) l)) ++ [Drop (pb_id m)]).
Proof.
  intros Hl Hd Ha Hp Hst Han Hsrv l. pose proof (recv_step lw n w m Hl (answer_parses _ _ _ _ _ _ Han)) as Hstep.
  destruct (recv_answer w n d _ _ _ _ Hl Hd Han) as (r & Hf & Hr & Erecv). rewrite Erecv in *.
  set (d1 := set_msg_in d (Some (first m))) in *. set (w1 := put_dhcp (with_rx w r) n (Some d1)) in *.
  set (d3 := set_lease (set_request_timeout d1 0) l). set (w2 := put_dhcp w1 n (Some (set_request_timeout d1 0))).
  set (w3 := put_dhcp w2 n (Some d3)).
  assert (Edis : dhcp_dispatch lw w1 n DHCP_OFFER = (let! (_, w) := dhcp_select lw w3 n in Ok w)).
  { unfold dhcp_dispatch, get_dhcp. unfold w1 at 1. rewrite put_at. cbn [obind]. change (d_state d1) with (d_state d). rewrite Hst. cbn match.
    change (DHCP_OFFER =? DHCP_ACK) with false. change (DHCP_OFFER =? DHCP_NAK) with false. change (DHCP_OFFER =? DHCP_OFFER) with true. cbn [andb existsb].
    rewrite bool_decide_eq_true_2 by done. cbn [orb]. rewrite (update_eq w1 n _ d1) by apply put_at. cbn [obind]. fold w2. unfold dhcp_handle_offer.
    change (rx w2) with r. destruct (found_in r es DHCP_OPTION_IDX_SERVER_ID srv Hf eq_refl Hsrv) as [-> ->]. unfold get_dhcp, w2 at 1. rewrite put_at. cbn [obind].
    change (d_msg_in (set_request_timeout d1 0)) with (Some (first m)). cbn match. rewrite (an_yiaddr _ _ _ _ _ _ Han). reflexivity. }
  rewrite Edis in *. pose proof (live_sender _ _ _ _ _ _ Hl Hd Ha Hp) as S. pose proof (answer_yiaddr _ _ _ _ _ _ Han) as Hy.
  assert (S3 : sender w3 n d3 a p).
  { destruct S as [S1 S2 S3 S4 S5 S6 S7]. split; try done; [apply put_at|split; [done|apply htonl_addr]]. }
  pose proof (dhcp_select_spec lw w3 n d3 a p S3) as Hsel. cbn zeta in Hsel. destruct (dhcp_select lw w3 n) as [[res w4]| |]; [|done..]. cbn [wp obind] in *.
  destruct (transmitted_said (put_dhcp w3 n (Some (dhcp_set_state d3 DHCP_REQUESTING))) _ _ _ _ _ _ _ _ (do_low _ _ (li_ok _ _ _ Hl)) Hsel) as [_ [T1 T2 T3 T4 T5 T6 T7 T8]].
  assert (Hne : d_state d3 <> DHCP_REQUESTING) by (change (d_state d3) with (d_state d); by rewrite Hst).
  destruct (set_state_new d3 DHCP_REQUESTING Hne) as [Q1 Q2]. destruct (set_state_p_out d3 DHCP_REQUESTING) as (_ & Q3 & Q4 & _ & Q5 & _).
  rewrite (recv_done w4 n _ _ T1) in *. cbn [wp] in *. eexists. split.
  - split; [by eapply live_step|apply put_at|done|..]; cbn; rewrite ?Q1, ?Q4, ?T3, ?T4; done.
  - assert (Ex : next_xid (put_dhcp w3 n (Some (dhcp_set_state d3 DHCP_REQUESTING))) (dhcp_set_state d3 DHCP_REQUESTING) = u32 (xid w + 1)) by (unfold next_xid; by rewrite Q1).
    rewrite Ex in *. split; [etransitivity; [exact Q3|exact Ha]|]. split; [exact T6|]. split; [done|].
    change (log (low (dfree (put_dhcp w4 n _) (pb_id m)))) with (log (low w4) ++ [Drop (pb_id m)]). rewrite T8, Q5, <- app_assoc. reflexivity.
Qed.

(** ** The acknowledged lease *)

(** An option by its index. *)
Definition offered_option (es : list (Z * Z)) (i : Z) : option Z := option_map snd (find (fun e => e.1 =? i) es).

Lemma offered_in es i v : NoDup (map fst es) -> (i, v) ∈ es -> offered_option es i = Some v.
Proof.
  intros Hn Hin. unfold offered_option. destruct (find _ es) as [[j u]|] eqn:E.
  - apply find_some in E as [Hin' Ej]. cbn in Ej. apply Z.eqb_eq in Ej as ->. cbn. f_equal. apply list_elem_of_In in Hin'.
    apply elem_of_Permutation in Hin as (es' & Hp). rewrite Hp in Hin', Hn. cbn in Hn. apply list.NoDup_cons in Hn as [Hi _].
    apply elem_of_cons in Hin' as [[= ->]|Hin']; [done|]. exfalso. apply Hi, list_elem_of_fmap. by exists (i, u).
  - apply list_elem_of_In in Hin. pose proof (find_none _ _ E _ Hin) as X. cbn in X. by rewrite Z.eqb_refl in X.
Qed.

Lemma offered_out es i : (forall v, (i, v) ∉ es) -> offered_option es i = None.
Proof.
  intros Hn. unfold offered_option. destruct (find _ es) as [[j u]|] eqn:E; [|done]. apply find_some in E as [Hin Ej]. cbn in Ej. apply Z.eqb_eq in Ej as ->.
  destruct (Hn u). by apply list_elem_of_In.
Qed.

Lemma found_offered r es i : found r es -> NoDup (map fst es) -> 0 < i ->
  dhcp_option_given r i = (match offered_option es i with Some _ => true | None => false end) /\
  (forall v, offered_option es i = Some v -> dhcp_get_option_value r i = v).
Proof.
  intros Hf Hn Hi. destruct (offered_option es i) as [v|] eqn:E.
  - assert (Hin : (i, v) ∈ es).
    { unfold offered_option in E. destruct (find _ es) as [[j u]|] eqn:Ef; [|done]. apply find_some in Ef as [Hin Ej]. cbn in *. apply Z.eqb_eq in Ej. apply list_elem_of_In in Hin. congruence. }
    destruct (found_in r es i v Hf Hi Hin) as [-> Hv]. split; [done|]. intros u [= <-]. done.
  - split; [|done]. apply (found_out r es i Hf Hi). intros v Hin. by rewrite (offered_in es i v) in E.
Qed.

(** The lease that an ACK with the options [es] gives. *)
Definition leased_by (l : lease) (es : list (Z * Z)) (y : Z) : lease :=
  let or0 (i : Z) := match offered_option es i with Some v => lwip_htonl v | None => 0 end in
  let t0 := default (offered_t0_lease l) (offered_option es DHCP_OPTION_IDX_LEASE_TIME) in
  Lease (server_ip_addr l) y (or0 DHCP_OPTION_IDX_SUBNET_MASK) (or0 DHCP_OPTION_IDX_ROUTER) t0
    (default (t0 / 2) (offered_option es DHCP_OPTION_IDX_T1)) (default t0 (offered_option es DHCP_OPTION_IDX_T2))
    (match offered_option es DHCP_OPTION_IDX_SUBNET_MASK with Some _ => true | None => false end).

Lemma acked_leased l r es y : found r es -> NoDup (map fst es) -> acked_lease l r y = leased_by l es y.
Proof.
  intros Hf Hn. unfold acked_lease, leased_by.
  assert (K : forall i, 0 < i -> dhcp_option_given r i = (match offered_option es i with Some _ => true | None => false end) /\
    (forall v, offered_option es i = Some v -> dhcp_get_option_value r i = v)) by (intros; by apply found_offered).
  destruct (K DHCP_OPTION_IDX_LEASE_TIME eq_refl) as [-> K0]. destruct (K DHCP_OPTION_IDX_T1 eq_refl) as [-> K1].
  destruct (K DHCP_OPTION_IDX_T2 eq_refl) as [-> K2]. destruct (K DHCP_OPTION_IDX_SUBNET_MASK eq_refl) as [-> K3].
  destruct (K DHCP_OPTION_IDX_ROUTER eq_refl) as [-> K4].
  destruct (offered_option es DHCP_OPTION_IDX_LEASE_TIME) eqn:E0; destruct (offered_option es DHCP_OPTION_IDX_T1) eqn:E1;
    destruct (offered_option es DHCP_OPTION_IDX_T2) eqn:E2; destruct (offered_option es DHCP_OPTION_IDX_SUBNET_MASK) eqn:E3;
    destruct (offered_option es DHCP_OPTION_IDX_ROUTER) eqn:E4; cbn [default];
    rewrite ?(K0 _ eq_refl), ?(K1 _ eq_refl), ?(K2 _ eq_refl), ?(K3 _ eq_refl), ?(K4 _ eq_refl); done.
Qed.

(** ** Checking the address *)

Lemma check_spec w n d : world_ok (low w) -> dhcp_at w n = Some d -> wp (dhcp_check lw w n) (fun w' => exists b,
  queried lw (low w) n (offered_ip_addr (d_lease d)) None b /\
  w' = put_dhcp (set_low (put_dhcp w n (Some (dhcp_set_state d DHCP_CHECKING))) b) n (Some (dhcp_retry (dhcp_set_state d DHCP_CHECKING) (fun _ => 500)))).
Proof.
  intros Hw Hd. unfold dhcp_check. rewrite (update_eq _ _ _ _ Hd). cbn [obind]. set (d1 := dhcp_set_state d DHCP_CHECKING). set (w1 := put_dhcp w n (Some d1)).
  assert (El : d_lease d1 = d_lease d) by by destruct (set_state_p_out d DHCP_CHECKING) as (_ & _ & ? & _).
  unfold get_dhcp, w1 at 1. rewrite put_at. cbn [obind]. rewrite El. change (low w1) with (low w).
  wpb (etharp_query_spec lw (low w) n (offered_ip_addr (d_lease d)) None); [done|done|]. intros (e & b) Hq.
  rewrite (update_eq (set_low w1 b) n _ d1) by apply put_at. cbn [wp]. by exists b.
Qed.

Lemma ack_spec w n d m y es : live idle n w -> dhcp_at w n = Some d -> d_state d = DHCP_REQUESTING ->
  answer (d_xid d) (nif_hwaddr (dnif w n)) DHCP_ACK y es m ->
  wp (dhcp_recv lw w n m) (fun w' => exists d' b, phase w w' n d' DHCP_CHECKING 1 1 (leased_by (d_lease d) es y) /\
    queried lw (low w) n y None b /\ log (low w') = log b ++ [Drop (pb_id m)]).
Proof.
  intros Hl Hd Hst Han. pose proof (recv_step lw n w m Hl (answer_parses _ _ _ _ _ _ Han)) as Hstep.
  destruct (recv_answer w n d _ _ _ _ Hl Hd Han) as (r & Hf & Hr & Erecv). rewrite Erecv in *.
  set (d1 := set_msg_in d (Some (first m))) in *. set (w1 := put_dhcp (with_rx w r) n (Some d1)) in *.
  set (l := leased_by (d_lease d) es y). set (d2 := set_lease d1 l). set (w2 := put_dhcp w1 n (Some d2)).
  assert (Edis : dhcp_dispatch lw w1 n DHCP_ACK = dhcp_check lw w2 n).
  { unfold dhcp_dispatch, get_dhcp. unfold w1 at 1. rewrite put_at. cbn [obind]. change (d_state d1) with (d_state d). rewrite Hst. cbn match.
    change (DHCP_ACK =? DHCP_ACK) with true. cbn [existsb]. rewrite bool_decide_eq_true_2 by done. cbn [orb]. unfold dhcp_handle_ack, get_dhcp, w1 at 1.
    rewrite put_at. cbn [obind]. change (d_msg_in d1) with (Some (first m)). cbn match. rewrite (an_yiaddr _ _ _ _ _ _ Han). cbn [obind].
    change (rx w1) with r. change (d_lease d1) with (d_lease d). by rewrite (acked_leased _ r es y Hf (an_once _ _ _ _ _ _ Han)). }
  rewrite Edis in *. pose proof (do_low _ _ (li_ok _ _ _ Hl)) as Hw.
  pose proof (check_spec w2 n d2 Hw (put_at _ _ _)) as Hc. destruct (dhcp_check lw w2 n) as [w3| |]; [|done..]. cbn [wp obind] in Hc, Hstep |- *.
  destruct Hc as (b & Hq & ->). set (d3 := dhcp_retry _ _) in *.
  rewrite (recv_done _ n d3) in * by apply put_at. cbn [wp] in *. exists (set_msg_in d3 None), b.
  assert (Hne : d_state d2 <> DHCP_CHECKING) by (change (d_state d2) with (d_state d); by rewrite Hst).
  destruct (set_state_new d2 DHCP_CHECKING Hne) as [Q1 Q2]. destruct (set_state_p_out d2 DHCP_CHECKING) as (_ & Q3 & Q4 & _ & Q5 & _).
  destruct (queried_carried lw (low w) n y None b Hw I Hq) as [C1 C2 C3 C4]. split; [|by split].
  split; [by eapply live_step|apply put_at|exact Q5| |done|exact Q4|exact C2|exact C3]. change (u8 (d_tries (dhcp_set_state d2 DHCP_CHECKING) + 1) = 1). by rewrite Q1.
Qed.

(** ** Configuring the interface *)

Lemma set_up_at b n : others n b (netif_set_up lw b n) /\ netif_is_up (netif_at (netif_set_up lw b n) n) = true /\
  (exists fl, netif_at (netif_set_up lw b n) n = set_nif_flags (netif_at b n) fl) /\ netif_list (netif_set_up lw b n) = netif_list b.
Proof.
  unfold netif_set_up. destruct (has_flag (netif_at b n) NETIF_FLAG_UP) eqn:Eu.
  { split_and!; [done|done| |done]. exists (nif_flags (netif_at b n)). by destruct (netif_at b n). }
  set (b1 := set_netif _ _ _). set (t := _ && _).
  assert (En : netif_at (if t then snd (etharp_gratuitous lw b1 n) else b1) = netif_at b1 /\ netif_list (if t then snd (etharp_gratuitous lw b1 n) else b1) = netif_list b1).
  { destruct t; [|done]. destruct (etharp_request_became lw b1 n (nif_ip_addr (netif_at b1 n))) as (ev & B & _). split; apply B. }
  destruct En as [En El]. split_and!; [intros m Hm; rewrite En; by apply others_set|rewrite En; subst b1; rewrite at_set; apply up_on| |by rewrite El].
  rewrite En. subst b1. rewrite at_set. by eexists.
Qed.

(** The interface [n] of [w'] has the address [a], the mask and the gateway,
    is up, and is otherwise what it was; the other interfaces too. *)
Record configured (w w' : dw) (n a mask gw : Z) : Prop := Configured {
  cf_addr : nif_ip_addr (dnif w' n) = a;
  cf_mask : nif_netmask (dnif w' n) = mask;
  cf_gw : nif_gw (dnif w' n) = gw;
  cf_up : netif_is_up (dnif w' n) = true;
  cf_hwaddr : nif_hwaddr (dnif w' n) = nif_hwaddr (dnif w n);
  cf_autoip : nif_autoip (dnif w' n) = nif_autoip (dnif w n);
  cf_others : forall m, m <> n -> dnif w' m = dnif w m;
}.

Lemma bind_spec w n d : dhcp_at w n = Some d -> wp (dhcp_bind lw w n) (fun w' => exists d', dhcp_at w' n = Some d' /\ d_state d' = DHCP_BOUND /\
  d_lease d' = d_lease d /\ d_t2_timeout d' = lease_ticks (offered_t2_rebind (d_lease d)) (d_t2_timeout d) /\
  configured w w' n (offered_ip_addr (d_lease d)) (bound_mask (d_lease d)) (bound_gw (d_lease d)) /\ netif_list (low w') = netif_list (low w)).
Proof.
  intros Hd. unfold dhcp_bind. rewrite Hd. cbn [wp]. set (l := d_lease d).
  set (b1 := netif_set_ipaddr (low w) n (offered_ip_addr l)). set (b2 := netif_set_netmask b1 n (bound_mask l)). set (b3 := netif_set_gw b2 n (bound_gw l)).
  destruct (set_up_at b3 n) as (O4 & U4 & (fl & E4) & L4). set (b4 := netif_set_up lw b3 n) in *.
  assert (E3 : netif_at b3 n = set_gateway (set_mask (set_ip_addr (dnif w n) (offered_ip_addr l)) (bound_mask l)) (bound_gw l)).
  { subst b3 b2 b1. unfold netif_set_gw, netif_set_netmask, netif_set_ipaddr. by rewrite !at_set. }
  assert (O3 : others n (low w) b3 /\ netif_list b3 = netif_list (low w)).
  { subst b3 b2 b1. unfold netif_set_gw, netif_set_netmask, netif_set_ipaddr. split; [|by destruct (ip_addr_cmp _ _)].
    intros m Hm. rewrite !others_set by done. by destruct (ip_addr_cmp _ _). }
  destruct O3 as [O3 L3]. set (t1 := if _ && _ then 0 else _). set (t2 := lease_ticks (offered_t2_rebind l) (d_t2_timeout d)).
  eexists. split; [apply put_at|]. destruct (set_state_p_out (set_t12 d t1 t2) DHCP_BOUND) as (_ & _ & -> & _ & -> & _ & -> & _).
  split; [done|]. split; [done|]. split; [done|]. split; [|change (netif_list b4 = netif_list (low w)); by rewrite L4].
  split; unfold dnif; change (low (put_dhcp (set_low w b4) n _)) with b4; rewrite ?E4, ?E3; try done; [by rewrite <- E3, <- E4|].
  intros m Hm. rewrite O4 by done. by apply O3.
Qed.

Lemma get_put w n d : get_dhcp (put_dhcp w n (Some d)) n = Ok d.
Proof. unfold get_dhcp. by rewrite put_at. Qed.

Lemma tick_fires w n d : dhcp_at w n = Some d -> d_request_timeout d = 1 -> fine_tmr_netif lw w n = dhcp_timeout lw (put_dhcp w n (Some (set_request_timeout d 0))) n.
Proof. intros Hd Ht. unfold fine_tmr_netif. by rewrite Hd, Ht. Qed.

Lemma fine_one w n Q : netif_list (low w) = [n] -> wp (fine_tmr_netif lw w n) Q -> wp (dhcp_fine_tmr lw w) Q.
Proof. intros Hl H. unfold dhcp_fine_tmr. rewrite Hl. cbn [each_netif]. wpb H. done. Qed.

(** A fine tick while the address is checked. *)
Lemma tick_checks w n d k : live idle n w -> dhcp_at w n = Some d -> d_state d = DHCP_CHECKING -> d_request_timeout d = 1 -> d_tries d = k -> 0 <= k <= 1 ->
  wp (fine_tmr_netif lw w n) (fun w' => exists d', phase w w' n d' DHCP_CHECKING (k + 1) 1 (d_lease d)).
Proof.
  intros Hl Hd Hst Ht Hk Hk1. pose proof (fine_step lw n w (li_ok _ _ _ Hl)) as Hstep. pose proof (do_low _ _ (li_ok _ _ _ Hl)) as Hw.
  set (d1 := set_request_timeout d 0). set (w1 := put_dhcp w n (Some d1)).
  assert (Ef : fine_tmr_netif lw w n = dhcp_check lw w1 n).
  { rewrite (tick_fires w n d Hd Ht). fold d1 w1. unfold dhcp_timeout, w1 at 1. rewrite get_put. cbn [obind]. change (d_state d1) with (d_state d). change (d_tries d1) with (d_tries d).
    rewrite Hst, Hk. by destruct (Z.leb_spec k 1); [|lia]. }
  rewrite Ef in *.
  pose proof (check_spec w1 n d1 Hw (put_at _ _ _)) as Hc. destruct (dhcp_check lw w1 n) as [w2| |]; [|done..]. cbn [wp] in *. destruct Hc as (b & Hq & ->).
  eexists. destruct (queried_carried lw (low w) n _ None b Hw I Hq) as [C1 C2 C3 C4].
  assert (Es : dhcp_set_state d1 DHCP_CHECKING = d1) by (unfold dhcp_set_state; rewrite bool_decide_eq_true_2; [done|by rewrite <- Hst]).
  rewrite Es in *. split; [by eapply live_step|apply put_at|exact Hst| |done|done|exact C2|exact C3]. change (u8 (d_tries d + 1) = k + 1). rewrite Hk. apply u8_small. lia.
Qed.

Lemma tick_binds w n d : live idle n w -> dhcp_at w n = Some d -> d_state d = DHCP_CHECKING -> d_request_timeout d = 1 -> 1 < d_tries d ->
  wp (fine_tmr_netif lw w n) (fun w' => exists d', dhcp_at w' n = Some d' /\ d_state d' = DHCP_BOUND /\ d_lease d' = d_lease d /\
    configured w w' n (offered_ip_addr (d_lease d)) (bound_mask (d_lease d)) (bound_gw (d_lease d)) /\ netif_list (low w') = netif_list (low w)).
Proof.
  intros Hl Hd Hst Ht Hk. rewrite (tick_fires w n d Hd Ht). set (d1 := set_request_timeout d 0). set (w1 := put_dhcp w n (Some d1)).
  unfold dhcp_timeout, w1 at 1. rewrite get_put. cbn [obind].
  change (d_state d1) with (d_state d). rewrite Hst. change (d_tries d1) with (d_tries d). destruct (Z.leb_spec (d_tries d) 1); [lia|].
  eapply wp_mono; [apply (bind_spec w1 n d1), put_at|]. intros w' (d' & H1 & H2 & H3 & _ & H5 & H6).
  exists d'. split; [done|]. split; [done|]. split; [done|]. split; [by destruct H5|done].
Qed.

(** ** From dhcp_start to an address *)

Lemma message_frame_same w w' n s p x type fs : nif_hwaddr (dnif w' n) = nif_hwaddr (dnif w n) -> nif_ip_addr (dnif w' n) = nif_ip_addr (dnif w n) ->
  ip_id (ip (udp w')) = ip_id (ip (udp w)) -> message_frame w' n s p x type fs = message_frame w n s p x type fs.
Proof.
  intros E1 E2 E3. unfold message_frame, udp_packet, output_hdr. rewrite E1, E3. unfold dnif, low in *. unfold nif. by rewrite E2.
Qed.

(** The client [d'] after dhcp_start: it has asked for an offer. *)
Record started (w w' : dw) (n a : Z) (d' : dhcp) : Prop := Started {
  sa_live : live idle n w';
  sa_at : dhcp_at w' n = Some d';
  sa_pcb : d_pcb d' = Some a /\ pcb_at (udp w') !! a = Some (client_pcb DHCP_CLIENT_PORT n);
  sa_state : d_state d' = DHCP_SELECTING;
  sa_ticks : d_request_timeout d' = 4;
  sa_tries : d_tries d' = 1;
  sa_xid : d_xid d' = u32 (xid w + 1) /\ xid w' = u32 (xid w + 1);
  sa_netif : exists fl, dnif w' n = set_nif_flags (dnif w n) fl;
  sa_clients : forall m, m <> n -> dhcp_at w' m = dhcp_at w m;
  sa_others : forall m, m <> n -> dnif w' m = dnif w m;
  sa_list : netif_list (low w') = netif_list (low w);
  sa_lease : d_lease d' = no_lease;
  sa_log : log (low w') = log (low w) ++
    sending w n (message_frame w n DHCP_SELECTING (client_pcb DHCP_CLIENT_PORT n) (u32 (xid w + 1)) DHCP_DISCOVER (fields_discover (mtu w n)));
}.

(** The interface can run a client: there is none, a block and port 68 are
    free, the flags and the MTU are right. *)
Record ready (w : dw) (n : Z) : Prop := Ready {
  rd_none : dhcp_at w n = None;
  rd_block : Z.of_nat (size (pcb_at (udp w))) < MEMP_NUM_UDP_PCB;
  rd_port : unused (udp w) DHCP_CLIENT_PORT;
  rd_flag : has_flag (dnif w n) NETIF_FLAG_ETHARP = true;
  rd_mtu : DHCP_MAX_MSG_LEN_MIN_REQUIRED <= mtu w n;
}.

Lemma cleared_flag nf : has_flag nf NETIF_FLAG_ETHARP = true -> has_flag (set_nif_flags nf (Z.land (nif_flags nf) (Z.lnot NETIF_FLAG_DHCP))) NETIF_FLAG_ETHARP = true.
Proof.
  unfold has_flag. cbn [nif_flags set_nif_flags]. rewrite <- Z.land_assoc. by change (Z.land (Z.lnot NETIF_FLAG_DHCP) NETIF_FLAG_ETHARP) with NETIF_FLAG_ETHARP.
Qed.

Lemma start_spec w n : dhcp_ok idle w -> ready w n -> wp (dhcp_start lw w n) (fun '(r, w') => r = ERR_OK /\ exists a d', started w w' n a d').
Proof.
  intros H [R1 R2 R3 R4 R5]. pose proof (dhcp_start_ok lw w n H) as Hok. unfold dhcp_start in *.
  pose proof (st_ok _ _ _ _ (clear_flag_step idle n w H)) as H1. set (w1 := clear_dhcp_flag w n) in *.
  assert (E1 : dnif w1 n = set_nif_flags (dnif w n) (Z.land (nif_flags (dnif w n)) (Z.lnot NETIF_FLAG_DHCP))) by apply at_set.
  rewrite E1, (cleared_flag _ R4) in *. cbn [negb] in *. change (mtu w1 n) with (mtu w n) in *. destruct (Z.ltb_spec (mtu w n) DHCP_MAX_MSG_LEN_MIN_REQUIRED); [lia|].
  unfold start_struct in *. change (dhcp_at w1 n) with (dhcp_at w n) in *. rewrite R1 in *. unfold alloc in *. rewrite memory_left in *. cbn [obind negb] in *.
  set (w2 := set_low w1 (asked (low w1))) in *.
  assert (H2 : dhcp_ok idle w2) by (eapply (st_ok _ n), step_low; [done|by apply asked_ok, H1|done]).
  assert (Eu : udp w2 = set_ipw (udp w) (ip (udp w2))) by done.
  assert (En : udp_new (udp w2) = (Some (next_pcb (udp w)), snd (udp_new (udp w2)))).
  { unfold udp_new. change (pcb_at (udp w2)) with (pcb_at (udp w)). destruct (Z.ltb_spec (Z.of_nat (size (pcb_at (udp w)))) MEMP_NUM_UDP_PCB); [done|lia]. }
  destruct (udp_new (udp w2)) as [o u] eqn:Enew. cbn [snd] in En. injection En as ->. set (a := next_pcb (udp w)) in *.
  set (w3 := put_dhcp (set_udp w2 u) n (Some (set_dpcb dhcp_zero (Some a)))) in *. change (udp w3) with u in *.
  pose proof (block_live w2 n a u (add_client w2 n H2 R1) Enew) as B. destruct (start_block u a n) as [u4| |]; [|done..]. cbn [wp obind] in B, Hok |- *.
  destruct B as (Hl & Ei & (port & Ep & Eport)). rewrite (Eport R3) in Ep. fold w3 in Hl. set (w4 := set_udp w3 u4) in *. set (d4 := set_dpcb dhcp_zero (Some a)) in *.
  assert (Hd4 : dhcp_at w4 n = Some d4) by apply put_at. assert (El4 : low w4 = asked (low w1)) by (change (base (ip u4) = asked (low w1)); by rewrite Ei).
  pose proof (live_sender _ _ _ _ _ _ Hl Hd4 eq_refl Ep) as S. pose proof (dhcp_discover_spec lw w4 n d4 a _ S) as Hdis.
  pose proof (discover_step lw idle n w4 Hl) as Hstep. destruct (dhcp_discover lw w4 n) as [[r w5]| |]; [|done..]. cbn [wp obind] in Hdis, Hok, Hstep |- *.
  destruct (transmitted_said (put_dhcp w4 n (Some (selecting d4))) _ _ _ _ _ _ _ _ (do_low _ _ (li_ok _ _ _ Hl)) Hdis) as [-> [T1 T2 T3 T4 T5 T6 T7 T8]].
  change (negb (ERR_OK =? ERR_OK)) with false in *. cbn match in *. cbn [wp] in *. split; [done|]. set (w6 := set_nif w5 n _) in *.
  change (low (put_dhcp w4 n (Some (selecting d4)))) with (low w4) in *. rewrite El4 in *.
  assert (E6 : dnif w6 n = set_nif_flags (dnif w5 n) (Z.lor (nif_flags (dnif w5 n)) NETIF_FLAG_DHCP)) by apply at_set.
  assert (E5 : dnif w5 = dnif w1) by (unfold dnif; by rewrite T3).
  exists a, (dhcp_retry (set_out (set_xid (selecting d4) (u32 (xid w + 1))) None 68) msecs_discover). split; try done.
  - eapply live_step; [eapply live_step; [exact Hl|exact Hstep]|]. apply set_flag_step, Hstep.
  - split; [done|]. change (pcb_at (udp w6)) with (pcb_at (udp w5)). by rewrite T6.
  - rewrite E6, E5, E1. by eexists.
  - intros m Hm. change (dhcp_at w5 m = dhcp_at w m). rewrite (st_other _ _ _ _ Hstep m Hm). cbn. by destruct (Z.eqb_spec m n).
  - intros m Hm. unfold w6, dnif, set_nif. change (netif_at (set_netif (low w5) n (set_nif_flags (dnif w5 n) (Z.lor (nif_flags (dnif w5 n)) NETIF_FLAG_DHCP))) m = netif_at (low w) m).
    rewrite others_set by done. change (dnif w5 m = dnif w m). rewrite E5. by apply others_set.
  - change (log (low w6)) with (log (low w5)). rewrite T8. unfold sending. change (next_id (asked (low w1))) with (next_id (low w)).
    rewrite (message_frame_same w (put_dhcp w4 n (Some (selecting d4))) n); [done|..].
    + unfold dnif. change (low (put_dhcp w4 n (Some (selecting d4)))) with (low w4). rewrite El4. change (nif_hwaddr (dnif w1 n) = nif_hwaddr (dnif w n)). by rewrite E1.
    + unfold dnif. change (low (put_dhcp w4 n (Some (selecting d4)))) with (low w4). rewrite El4. change (nif_ip_addr (dnif w1 n) = nif_ip_addr (dnif w n)). by rewrite E1.
    + change (ip_id (ip u4) = ip_id (ip (udp w))). by rewrite Ei.
Qed.

(** C8: from dhcp_start to an address (RFC 2131, figure 5). On the only
    interface, which can run a client (it has none, a UDP block and port 68
    are free, the flags and the MTU are right), and with memory for every
    message: dhcp_start returns ERR_OK and broadcasts exactly a DISCOVER; when
    a server offers an address to it, the client broadcasts exactly a REQUEST
    for that address and server; when the server acknowledges it and nobody
    answers the two ARP questions for the address until two ticks of the fine
    timer have passed, the interface is up with the address that was
    acknowledged, the mask and the gateway of the options or their defaults,
    and the client is BOUND to the lease. The other interfaces are as they
    were. The two messages of the server are well formed, with pbufs of at
    least 257 bytes but for the last. *)
Theorem dhcp_obtains_address w n m1 m2 y1 y2 srv es1 es2 : reachable lw w -> ready w n -> netif_list (low w) = [n] ->
  answer (u32 (xid w + 1)) (nif_hwaddr (dnif w n)) DHCP_OFFER y1 es1 m1 -> (DHCP_OPTION_IDX_SERVER_ID, srv) ∈ es1 ->
  answer (u32 (u32 (xid w + 1) + 1)) (nif_hwaddr (dnif w n)) DHCP_ACK y2 es2 m2 ->
  let p := client_pcb DHCP_CLIENT_PORT n in
  let l1 := set_offered_ip (set_server no_lease (lwip_htonl srv)) y1 in
  let l2 := leased_by l1 es2 y2 in
  wp (dhcp_start lw w n) (fun '(r, w1) => r = ERR_OK /\
    log (low w1) = log (low w) ++ sending w n (message_frame w n DHCP_SELECTING p (u32 (xid w + 1)) DHCP_DISCOVER (fields_discover (mtu w n))) /\
    wp (dhcp_recv lw w1 n m1) (fun w2 =>
      log (low w2) = log (low w1) ++
        sending w1 n (message_frame w1 n DHCP_REQUESTING p (u32 (u32 (xid w + 1) + 1)) DHCP_REQUEST (fields_select (mtu w1 n) l1)) ++ [Drop (pb_id m1)] /\
      wp (let! w := dhcp_recv lw w2 n m2 in
          let! w := dhcp_fine_tmr lw w in
          dhcp_fine_tmr lw w)
        (fun w' => configured w w' n y2 (bound_mask l2) (bound_gw l2) /\
          exists d, dhcp_at w' n = Some d /\ d_state d = DHCP_BOUND /\ d_lease d = l2))).
Proof.
  intros Hr Hrd Hlist A1 Hsrv A2 p l1 l2. pose proof (client_reachable_ok lw w Hr) as H.
  eapply wp_mono; [exact (start_spec w n H Hrd)|]. intros (r & w1) (-> & a & d1 & [S1 S2 (S3 & S3') S4 S5 _ (S6 & S6') S7 _ S8 S9 S10 S11]).
  split; [done|]. split; [exact S11|].
  assert (Ehw : nif_hwaddr (dnif w1 n) = nif_hwaddr (dnif w n)) by by destruct S7 as [fl0 ->].
  assert (Eau : nif_autoip (dnif w1 n) = nif_autoip (dnif w n)) by by destruct S7 as [fl0 ->].
  clear S7. rename Ehw into S7. rewrite <- S6 in A1. rewrite <- S7 in A1.
  eapply wp_mono; [exact (offer_spec w1 n d1 a _ m1 y1 srv es1 S1 S2 S3 S3' S4 A1 Hsrv)|]. intros w2 (d2 & [P1 P2 P3 P4 P5 P6 P7 P8] & _ & _ & Px & Plog).
  split; [by rewrite Plog, S6', S10|].
  assert (E2 : dnif w2 = dnif w1) by (unfold dnif; by rewrite P7). rewrite S6' in Px. rewrite <- Px, <- S7 in A2. rewrite <- E2 in A2.
  wpb (ack_spec w2 n d2 m2 y2 es2 P1 P2 P3 A2). intros w3 (d3 & b & [Q1 Q2 Q3 Q4 Q5 Q6 Q7 Q8] & _ & _).
  assert (L3 : netif_list (low w3) = [n]) by by rewrite Q8, P8, S9, Hlist.
  assert (T3 : 0 <= 1 <= 1) by lia.
  wpb (fine_one w3 n _ L3 (tick_checks w3 n d3 1 Q1 Q2 Q3 Q5 Q4 T3)). intros w4 (d4 & [U1 U2 U3 U4 U5 U6 U7 U8]).
  assert (L4 : netif_list (low w4) = [n]) by by rewrite U8. assert (T4 : 1 < d_tries d4) by (rewrite U4; lia).
  eapply wp_mono; [apply (fine_one w4 n _ L4 (tick_binds w4 n d4 U1 U2 U3 U5 T4))|]. intros w5 (d5 & V1 & V2 & V3 & [W1 W2 W3 W4 W5 W5' W6] & _).
  rewrite U6, Q6, P6, S10 in *. fold l1 in V3, W2, W3. fold l2 in V3, W2, W3. split; [|by exists d5]. assert (E4 : dnif w4 = dnif w1) by (unfold dnif; by rewrite U7, Q7, P7).
  split; try done; [by rewrite W5, E4|by rewrite W5', E4|]. intros m Hm. by rewrite W6, E4, S8.
Qed.

(** ** An address that is taken *)

(** C9: when somebody answers for the address while it is checked, the
    client does not take it: with memory for the message (every allocation
    succeeds), it broadcasts exactly one DECLINE of that address, leaves the
    interfaces alone and waits ten seconds (20 ticks) before it starts again. *)
Theorem dhcp_declines_taken w n d a p : reachable lw w -> dhcp_at w n = Some d -> d_state d = DHCP_CHECKING -> d_pcb d = Some a -> pcb_at (udp w) !! a = Some p ->
  wp (dhcp_arp_reply lw w n (offered_ip_addr (d_lease d))) (fun w' => exists d',
    phase w w' n d' DHCP_BACKING_OFF 1 20 (d_lease d) /\
    log (low w') = log (low w) ++ sending w n (message_frame w n DHCP_BACKING_OFF p (u32 (xid w + 1)) DHCP_DECLINE (fields_decline (d_lease d)))).
Proof.
  intros Hr Hd Hst Ha Hp. pose proof (client_reachable_ok lw w Hr) as H. assert (Hl : live idle n w) by (split; [done|by exists d, a]).
  pose proof (arp_reply_step lw idle n w (offered_ip_addr (d_lease d)) H) as Hstep. unfold dhcp_arp_reply in *. rewrite Hd in *.
  rewrite bool_decide_eq_true_2 in * by done. unfold ip_addr_cmp in *. rewrite Z.eqb_refl in *. cbn [andb] in *.
  pose proof (dhcp_decline_spec lw w n d a p (live_sender _ _ _ _ _ _ Hl Hd Ha Hp)) as Hs. cbn zeta in Hs.
  destruct (dhcp_decline lw w n) as [[r w1]| |]; [|done..]. cbn [wp obind] in *.
  set (d1 := dhcp_set_state d DHCP_BACKING_OFF) in *.
  destruct (transmitted_said (put_dhcp w n (Some d1)) _ _ _ _ _ _ _ _ (do_low _ _ H) Hs) as [_ [T1 T2 T3 T4 T5 T6 T7 T8]].
  assert (Hne : d_state d <> DHCP_BACKING_OFF) by by rewrite Hst.
  destruct (set_state_new d DHCP_BACKING_OFF Hne) as [Q1 Q2]. destruct (set_state_p_out d DHCP_BACKING_OFF) as (_ & Q3 & Q4 & _ & Q5 & _).
  fold d1 in Q1, Q2, Q3, Q4, Q5. eexists. split.
  - split; [by eapply live_step|exact T1|exact Q5| |done|exact Q4|exact T3|exact T4]. change (u8 (d_tries d1 + 1) = 1). by rewrite Q1.
  - rewrite T8, Q5. unfold next_xid. by rewrite Q1.
Qed.

(** ** Waiting *)

Fixpoint fine_ticks (k : nat) (w : dw) : outcome dw :=
  match k with O => Ok w | S k => let! w := dhcp_fine_tmr lw w in fine_ticks k w end.

(** The waiting time behind the DISCOVER number [k], in ticks. *)
Definition discover_wait (k : Z) : Z := 2 * (if k <? 6 then 2 ^ k else 60).

Lemma retry_discover d : d_request_timeout (dhcp_retry d msecs_discover) = discover_wait (u8 (d_tries d + 1)).
Proof.
  set (k := u8 (d_tries d + 1)). assert (Hk : 0 <= k < 256) by apply u8_range.
  change (u16 ((u16 (msecs_discover k) + DHCP_FINE_TIMER_MSECS - 1) / DHCP_FINE_TIMER_MSECS) = discover_wait k).
  unfold msecs_discover, discover_wait. destruct (Z.ltb_spec k 6); [|done].
  assert (k = 0 \/ k = 1 \/ k = 2 \/ k = 3 \/ k = 4 \/ k = 5) as [->|[->|[->|[->|[->| ->]]]]] by lia; done.
Qed.

Lemma discover_wait_range k : 0 <= k -> 2 <= discover_wait k <= 120.
Proof.
  intros Hk. unfold discover_wait. destruct (Z.ltb_spec k 6); [|lia].
  assert (k = 0 \/ k = 1 \/ k = 2 \/ k = 3 \/ k = 4 \/ k = 5) as [->|[->|[->|[->|[->| ->]]]]] by lia; lia.
Qed.

(** Ticks that only count down, to [t]. *)
Record waited (w : dw) (n : Z) (d : dhcp) (t : Z) (w' : dw) : Prop := Waited {
  wt_live : live idle n w';
  wt_at : dhcp_at w' n = Some (set_request_timeout d t);
  wt_udp : udp w' = udp w;
  wt_mtu : mtu w' = mtu w;
  wt_xid : xid w' = xid w;
}.

Lemma wait_ticks k : forall w n d t, live idle n w -> dhcp_at w n = Some d -> netif_list (low w) = [n] -> d_request_timeout d = Z.of_nat k + t -> 1 <= t ->
  wp (fine_ticks k w) (waited w n d t).
Proof.
  induction k as [|k IH]; intros w n d t Hl Hd Hn Hk Ht; cbn [fine_ticks].
  - cbn [wp]. split; try done. rewrite Hd. assert (d_request_timeout d = t) as <- by lia. by destruct d.
  - assert (Ef : wp (dhcp_fine_tmr lw w) (fun w1 => w1 = put_dhcp w n (Some (set_request_timeout d (d_request_timeout d - 1))))).
    { apply (fine_one w n _ Hn). unfold fine_tmr_netif. rewrite Hd. by destruct (Z.ltb_spec 1 (d_request_timeout d)); [|lia]. }
    wpb Ef. intros w1 ->. set (d1 := set_request_timeout d _). set (w1 := put_dhcp w n (Some d1)).
    assert (S : step idle n w w1) by by apply (step_timer n w d d1 (li_ok _ _ _ Hl)).
    assert (Ht1 : d_request_timeout d1 = Z.of_nat k + t) by (change (d_request_timeout d - 1 = Z.of_nat k + t); lia).
    eapply wp_mono; [by apply (IH w1 n d1 t (live_step _ _ _ _ Hl S)); [apply put_at|..]|]. intros w2 [W1 W2 W3 W4 W5]. by split.
Qed.

Lemma fine_ticks_add k : forall j w Q, wp (fine_ticks k w) (fun w1 => wp (fine_ticks j w1) Q) -> wp (fine_ticks (k + j) w) Q.
Proof.
  induction k as [|k IH]; intros j w Q H; [done|]. cbn [fine_ticks Nat.add] in *. destruct (dhcp_fine_tmr lw w) as [w1| |]; [|done..]. cbn [obind] in *. by apply IH.
Qed.

(** The tick at which the waiting time is over. *)
Lemma asks_again w n d a p : live idle n w -> netif_list (low w) = [n] -> dhcp_at w n = Some d -> d_pcb d = Some a -> pcb_at (udp w) !! a = Some p ->
  (d_state d = DHCP_SELECTING \/ d_state d = DHCP_BACKING_OFF) -> d_request_timeout d = 1 ->
  wp (dhcp_fine_tmr lw w) (fun w' => exists d',
    phase w w' n d' DHCP_SELECTING (if bool_decide (d_state d = DHCP_SELECTING) then u8 (d_tries d + 1) else 1) (discover_wait (d_tries d')) (set_offered_ip (d_lease d) 0) /\
    d_pcb d' = Some a /\ pcb_at (udp w') = pcb_at (udp w) /\ 2 <= discover_wait (d_tries d') <= 120 /\
    log (low w') = log (low w) ++ sending w n (message_frame w n DHCP_SELECTING p (d_xid d') DHCP_DISCOVER (fields_discover (mtu w n)))).
Proof.
  intros Hl Hn Hd Ha Hp Hst Ht. eapply (fine_one w n _ Hn). set (d2 := set_request_timeout d 0). set (w2 := put_dhcp w n (Some d2)).
  assert (Ef : fine_tmr_netif lw w n = discard_result (dhcp_discover lw w2 n)).
  { rewrite (tick_fires w n d Hd Ht). fold d2 w2. unfold dhcp_timeout, w2 at 1. rewrite get_put. cbn [obind].
    change (d_state d2) with (d_state d). by destruct Hst as [-> | ->]. }
  pose proof (fine_step lw n w (li_ok _ _ _ Hl)) as Hstep. rewrite Ef in *.
  assert (S2 : step idle n w w2) by by apply (step_timer n w d d2 (li_ok _ _ _ Hl)).
  pose proof (live_step _ _ _ _ Hl S2) as Hl2.
  pose proof (dhcp_discover_spec lw w2 n d2 a p (live_sender _ _ _ _ _ _ Hl2 (put_at _ _ _) Ha Hp)) as Hs. unfold discard_result in *.
  destruct (dhcp_discover lw w2 n) as [[r w3]| |]; [|done..]. cbn [wp obind] in *.
  destruct (transmitted_said (put_dhcp w2 n (Some (selecting d2))) _ _ _ _ _ _ _ _ (do_low _ _ (li_ok _ _ _ Hl2)) Hs) as [_ [T1 T2 T3 T4 T5 T6 T7 T8]].
  destruct (set_state_p_out (set_lease d2 (set_offered_ip (d_lease d2) IPADDR_ANY)) DHCP_SELECTING) as (_ & Q2 & Q4 & _ & Q5 & _). fold (selecting d2) in Q2, Q4, Q5.
  assert (Q1 : u8 (d_tries (selecting d2) + 1) = if bool_decide (d_state d = DHCP_SELECTING) then u8 (d_tries d + 1) else 1).
  { unfold selecting, dhcp_set_state. change (d_state (set_lease d2 _)) with (d_state d). by destruct Hst as [-> | ->]. }
  eexists. split_and!.
  - split; [exact (live_step _ _ _ _ Hl Hstep)|exact T1|exact Q5|exact Q1|apply retry_discover|exact Q4|exact T3|exact T4].
  - change (d_pcb (selecting d2) = Some a). by rewrite Q2.
  - exact T6.
  - apply discover_wait_range, u8_range.
  - apply discover_wait_range, u8_range.
  - rewrite T8, Q5. reflexivity.
Qed.

(** The client does not give up. While it looks for a server, or backs
    off, and nothing comes in, exactly when its waiting time is over it
    broadcasts one DISCOVER; its next waiting time is two seconds, four, eight
    and so on, never more than a minute. *)
Theorem dhcp_keeps_asking w n d a p : reachable lw w -> netif_list (low w) = [n] -> dhcp_at w n = Some d -> d_pcb d = Some a -> pcb_at (udp w) !! a = Some p ->
  (d_state d = DHCP_SELECTING \/ d_state d = DHCP_BACKING_OFF) -> 1 <= d_request_timeout d ->
  wp (fine_ticks (Z.to_nat (d_request_timeout d)) w) (fun w' => exists d',
    phase w w' n d' DHCP_SELECTING (if bool_decide (d_state d = DHCP_SELECTING) then u8 (d_tries d + 1) else 1) (discover_wait (d_tries d')) (set_offered_ip (d_lease d) 0) /\
    2 <= discover_wait (d_tries d') <= 120 /\
    log (low w') = log (low w) ++ sending w n (message_frame w n DHCP_SELECTING p (d_xid d') DHCP_DISCOVER (fields_discover (mtu w n)))).
Proof.
  intros Hr Hn Hd Ha Hp Hst Ht. pose proof (client_reachable_ok lw w Hr) as H. assert (Hl : live idle n w) by (split; [done|by exists d, a]).
  replace (Z.to_nat (d_request_timeout d)) with (Z.to_nat (d_request_timeout d - 1) + 1)%nat by lia. apply fine_ticks_add.
  eapply wp_mono; [apply (wait_ticks _ w n d 1 Hl Hd Hn); lia|]. intros w1 [W1 W2 W3 W4 W5]. set (d1 := set_request_timeout d 1) in *. cbn [fine_ticks].
  assert (Elow : low w1 = low w) by (unfold low; by rewrite W3).
  eapply wp_bind_mono; [apply (asks_again w1 n d1 a p W1); [by rewrite Elow|done|done|by rewrite W3|done|done]|].
  intros w2 (d2 & [P1 P2 P3 P4 P5 P6 P7 P8] & _ & _ & Hw & Hlog). cbn [wp]. rewrite Elow in *. exists d2. split_and!; try apply Hw.
  - by split.
  - rewrite Hlog, W4. unfold sending. rewrite Elow. do 4 f_equal. apply message_frame_same; [unfold dnif; by rewrite Elow..|by rewrite W3].
Qed.

(** ** Times *)

(** The 256th RENEW of a client stops its fine timer. *)
Theorem dhcp_renew_stalls d : d_tries d = 255 -> d_request_timeout (dhcp_retry d msecs_renew) = 0 /\
  forall k w n, dhcp_at w n = Some (dhcp_retry d msecs_renew) -> netif_list (low w) = [n] -> fine_ticks k w = Ok w.
Proof.
  intros Hd. assert (E : d_request_timeout (dhcp_retry d msecs_renew) = 0).
  { unfold dhcp_retry. cbn [d_request_timeout set_request_timeout d_tries set_tries]. rewrite Hd. reflexivity. }
  split; [done|]. intros k w n Hw Hn. induction k as [|k IH]; [done|]. cbn [fine_ticks]. unfold dhcp_fine_tmr. rewrite Hn. cbn [each_netif].
  unfold fine_tmr_netif. rewrite Hw, E. done.
Qed.

(** An offer that does not name its server stops the client, too: it stays in
    SELECTING without a timer. *)
Theorem dhcp_offer_without_server w n d y es m : live idle n w -> dhcp_at w n = Some d -> d_state d = DHCP_SELECTING ->
  answer (d_xid d) (nif_hwaddr (dnif w n)) DHCP_OFFER y es m -> (forall v, (DHCP_OPTION_IDX_SERVER_ID, v) ∉ es) -> netif_list (low w) = [n] ->
  wp (dhcp_recv lw w n m) (fun w' => exists d', phase w w' n d' DHCP_SELECTING (d_tries d) 0 (d_lease d) /\ forall k, fine_ticks k w' = Ok w').
Proof.
  intros Hl Hd Hst Han Hsrv Hn. pose proof (recv_step lw n w m Hl (answer_parses _ _ _ _ _ _ Han)) as Hstep.
  destruct (recv_answer w n d _ _ _ _ Hl Hd Han) as (r & Hf & Hr & Erecv). rewrite Erecv in *.
  set (d1 := set_msg_in d (Some (first m))) in *. set (w1 := put_dhcp (with_rx w r) n (Some d1)) in *. set (d2 := set_request_timeout d1 0).
  assert (Edis : dhcp_dispatch lw w1 n DHCP_OFFER = Ok (put_dhcp w1 n (Some d2))).
  { unfold dhcp_dispatch, w1 at 1. rewrite get_put. cbn [obind]. change (d_state d1) with (d_state d). rewrite Hst. cbn match.
    change (DHCP_OFFER =? DHCP_ACK) with false. change (DHCP_OFFER =? DHCP_NAK) with false. change (DHCP_OFFER =? DHCP_OFFER) with true. cbn [andb existsb].
    rewrite bool_decide_eq_true_2 by done. cbn [orb]. rewrite (update_eq w1 n _ d1) by apply put_at. cbn [obind]. unfold dhcp_handle_offer.
    change (rx (put_dhcp w1 n (Some (set_request_timeout d1 0)))) with r. by rewrite (found_out r es DHCP_OPTION_IDX_SERVER_ID Hf eq_refl Hsrv). }
  rewrite Edis in *. cbn [obind] in *. rewrite (recv_done _ n d2) in * by apply put_at. cbn [wp] in *. set (w2 := dfree _ _) in *.
  exists (set_msg_in d2 None). split; [split; try done; [by eapply live_step|apply put_at]|].
  intros k. induction k as [|k IH]; [done|]. cbn [fine_ticks]. unfold dhcp_fine_tmr. change (netif_list (low w2)) with (netif_list (low w)). rewrite Hn. cbn [each_netif].
  assert (Ef : fine_tmr_netif lw w2 n = Ok w2).
  { unfold fine_tmr_netif. change (dhcp_at w2 n) with (dhcp_at (put_dhcp (put_dhcp w1 n (Some d2)) n (Some (set_msg_in d2 None))) n). by rewrite put_at. }
  by rewrite Ef.
Qed.

End Bind.

(** ** Witnesses: the exchange with the server 192.168.1.1 for 192.168.1.50 *)

Lemma cold_ready : ready w_cold 0.
Proof. split; try done; intros a p Ha; by apply elem_of_nil in Ha. Qed.

Definition server_values (type : Z) : list (Z * Z) := values (server_fields type).
Definition server_reply (id x yiaddr type : Z) : pbufs := reply_packet id (reply_bytes [2; 0; 0; 0; 0; 1] x yiaddr (server_fields type)).

#[local] Instance outcome_eq_dec `{EqDecision A} : EqDecision (outcome A).
Proof. solve_decision. Defined.

(** Everything of an answer that evaluation decides. *)
Definition answer_dec (x : Z) (hwaddr : list Z) (yiaddr : Z) (fs : list field) (p : pbufs) : bool :=
  let bs := first p in
  (match pb_chain p with [_] => true | _ => false end) && (match bs with [] => false | _ => true end) && (zlen bs <=? 2 ^ 15) &&
  forallb (fun x => (0 <=? x) && (x <? 256)) bs &&
  bool_decide (drop 240 bs = encode_all fs ++ [DHCP_OPTION_END]) && (236 <? zlen bs) && negb (uses_file fs) && negb (uses_sname fs) &&
  bool_decide (NoDup (map fst (values fs))) && bool_decide (rd bs 0 = Ok DHCP_BOOTREPLY) &&
  bool_decide (slice bs DHCP_CHADDR_OFS (zlen hwaddr) = Ok hwaddr) && bool_decide (load32 bs DHCP_YIADDR_OFS = Ok yiaddr) &&
  match load32 bs DHCP_XID_OFS with Ok v => lwip_ntohl v =? x | _ => false end.

Lemma answer_by x hwaddr type yiaddr fs p : answer_dec x hwaddr yiaddr fs p = true -> Forall field_ok fs ->
  (DHCP_OPTION_IDX_MSG_TYPE, type) ∈ values fs -> 0 <= type < 256 -> answer x hwaddr type yiaddr (values fs) p.
Proof.
  unfold answer_dec. intros H Hf Ht Htr. repeat match goal with X : _ && _ = true |- _ => apply andb_prop in X as [X ?] end.
  repeat match goal with X : bool_decide _ = true |- _ => apply bool_decide_eq_true in X end.
  repeat match goal with X : negb _ = true |- _ => apply negb_true_iff in X end.
  unfold first in *. destruct p as [pid room chain slack fl]. cbn [pb_chain] in *. destruct chain as [|[t bs] []]; try done.
  assert (Hs : shaped [bs]) by (apply shaped_one; [by destruct bs|lia|by apply bytes_dec]).
  assert (Hfo : fields_of fs [] [] = fs) by (unfold fields_of; match goal with A : uses_file fs = false, B : uses_sname fs = false |- _ => rewrite A, B end; by rewrite !app_nil_r).
  split; cbn [pb_chain]; try done.
  - exists fs, [], []. split; [done|]. split; [|by rewrite Hfo]. split; cbn [concat map snd hd]; rewrite ?app_nil_r.
    + by exists [].
    + congruence.
    + congruence.
    + lia.
    + done.
    + split; apply not_elem_of_nil.
  - unfold first. cbn [pb_chain]. destruct (load32 bs DHCP_XID_OFS) as [v| |]; [|done..]. exists v. split; [done|]. lia.
Qed.

Lemma server_fields_ok type : 0 <= type < 256 -> Forall field_ok (server_fields type).
Proof. intros Ht. repeat constructor; cbn; try (intros ?; discriminate); lia. Qed.

Lemma dhcp_obtains_address_witness :
  wp (dhcp_start kind w_cold 0) (fun '(r, w1) => r = ERR_OK /\ length (log (low w_cold)) < length (log (low w1)) /\
    wp (dhcp_recv kind w1 0 (server_reply 100 0xABCD0001 offered DHCP_OFFER)) (fun w2 =>
      wp (let! w := dhcp_recv kind w2 0 (server_reply 101 0xABCD0002 offered DHCP_ACK) in
          let! w := dhcp_fine_tmr kind w in
          dhcp_fine_tmr kind w)
        (fun w' => configured w_cold w' 0 offered (IP4_ADDR 255 255 255 0) (IP4_ADDR 192 168 1 1))))%nat.
Proof.
  eapply wp_mono; [apply (dhcp_obtains_address kind (fun _ => eq_refl) w_cold 0 (server_reply 100 0xABCD0001 offered DHCP_OFFER) (server_reply 101 0xABCD0002 offered DHCP_ACK)
    offered offered (be_of [192; 168; 1; 1]) (server_values DHCP_OFFER) (server_values DHCP_ACK))|].
  - apply reach_initial, cold_initial.
  - apply cold_ready.
  - reflexivity.
  - apply answer_by; [vm_compute; reflexivity|by apply server_fields_ok|by left|by vm_compute].
  - right. by left.
  - apply answer_by; [vm_compute; reflexivity|by apply server_fields_ok|by left|by vm_compute].
  - intros [r w1] (-> & E & H). split; [reflexivity|]. split; [rewrite E, length_app; vm_compute; repeat constructor|].
    eapply wp_mono; [exact H|]. intros w2 [_ H2]. eapply wp_mono; [exact H2|]. intros w' [H3 _]. exact H3.
Defined.

Definition received (w : dw) (p : pbufs) : dw := state_or w (client_call kind w (Receive 0 p)).
Definition w_requesting : dw := received w_selecting (server_reply 100 0xABCD0001 offered DHCP_OFFER).
Definition w_checking : dw := received w_requesting (server_reply 101 0xABCD0002 offered DHCP_ACK).

Lemma answer_by_server id x type : answer_dec x [2; 0; 0; 0; 0; 1] offered (server_fields type) (server_reply id x offered type) = true -> 0 <= type < 256 ->
  parses (server_reply id x offered type).
Proof.
  intros H Ht. eapply answer_parses. apply (answer_by x [2; 0; 0; 0; 0; 1] type offered (server_fields type)); [done|by apply server_fields_ok|by left|done].
Qed.

Lemma reach_receive w p : reachable kind w -> has_block w 0 -> parses p -> match client_call kind w (Receive 0 p) with Ok _ => true | _ => false end = true ->
  reachable kind (received w p).
Proof. intros Hr Hb Hp H. eapply (reach_call _ w (Receive 0 p)); [done|by split|]. by apply state_or_ok. Qed.

Definition has_block_dec (w : dw) : bool := match dhcp_at w 0 with Some d => match d_pcb d with Some _ => true | None => false end | None => false end.
Lemma has_block_by w : has_block_dec w = true -> has_block w 0.
Proof. unfold has_block_dec, has_block. destruct (dhcp_at w 0) as [d|]; [|done]. destruct (d_pcb d) as [a|] eqn:E; [|done]. by exists d, a. Qed.

Lemma requesting_reachable : reachable kind w_requesting.
Proof.
  apply reach_receive; [apply selecting_reachable|apply has_block_by; vm_compute; reflexivity| |vm_compute; reflexivity].
  apply (answer_by_server 100 0xABCD0001); [vm_compute; reflexivity|by vm_compute].
Qed.

Lemma checking_reachable : reachable kind w_checking.
Proof.
  apply reach_receive; [apply requesting_reachable|apply has_block_by; vm_compute; reflexivity| |vm_compute; reflexivity].
  apply (answer_by_server 101 0xABCD0002); [vm_compute; reflexivity|by vm_compute].
Qed.

Lemma dhcp_declines_taken_witness : exists d, dhcp_at w_checking 0 = Some d /\ offered_ip_addr (d_lease d) = offered /\
  wp (dhcp_arp_reply kind w_checking 0 offered) (fun w' => exists d', dhcp_at w' 0 = Some d' /\ d_state d' = DHCP_BACKING_OFF /\
    netif_at (low w') = netif_at (low w_checking)).
Proof.
  destruct (dhcp_at w_checking 0) as [d|] eqn:E; [|by vm_compute in E]. exists d. split; [done|].
  assert (Hd : offered_ip_addr (d_lease d) = offered /\ d_state d = DHCP_CHECKING /\ d_pcb d = Some 1) by (vm_compute in E; injection E as <-; vm_compute; done).
  destruct Hd as (H1 & H2 & H3). split; [done|].
  pose proof (dhcp_declines_taken kind (fun _ => eq_refl) w_checking 0 d 1 (client_pcb DHCP_CLIENT_PORT 0) checking_reachable E H2 H3) as H.
  rewrite H1 in H. eapply wp_mono; [apply H; vm_compute; reflexivity|]. intros w' (d' & [P1 P2 P3 P4 P5 P6 P7 P8] & _).
  exists d'. exact (conj P2 (conj P3 P7)).
Defined.

Lemma dhcp_keeps_asking_witness : exists d, dhcp_at w_selecting 0 = Some d /\ d_request_timeout d = 4 /\
  wp (fine_ticks kind 4 w_selecting) (fun w' => exists d', dhcp_at w' 0 = Some d' /\ d_state d' = DHCP_SELECTING /\ d_request_timeout d' = 8).
Proof.
  destruct (dhcp_at w_selecting 0) as [d|] eqn:E; [|by vm_compute in E]. exists d. split; [done|].
  assert (Hd : d_request_timeout d = 4 /\ d_state d = DHCP_SELECTING /\ d_pcb d = Some 1 /\ d_tries d = 1) by (vm_compute in E; injection E as <-; vm_compute; done).
  destruct Hd as (H1 & H2 & H3 & H4). split; [done|].
  pose proof (dhcp_keeps_asking kind (fun _ => eq_refl) w_selecting 0 d 1 (client_pcb DHCP_CLIENT_PORT 0) selecting_reachable) as H. rewrite H1, H2, H4 in H.
  eapply wp_mono; [apply H; [vm_compute; reflexivity|done|done|vm_compute; reflexivity|by left|lia]|].
  intros w' (d' & [P1 P2 P3 P4 P5 P6 P7 P8] & _). exists d'. split; [exact P2|]. split; [exact P3|]. rewrite P5, P4. reflexivity.
Defined.
