(* ===== verification/Net.v ===== *)
(** * The stack from a frame upwards: ip_input of src/Utilities/lwip_v1.3.2/src/core/ipv4/ip.c and the layers it calls

    [EthInput], [Ip], [Udp] and [Dhcp] put together: the protocols of a
    packet, the receive callback of a datagram, the calls of etharp.c to
    ip_input and dhcp_arp_reply. A TCP segment and the callback of an
    application are results of the functions here. Theorems: a datagram that
    one device sends reaches the block of another with its data; an echo
    request is answered; no packet harms the device. *)

From S2P Require Import Prelude CStd Mem IpAddr Checksum Pbuf Etharp Autoip EthInput Ip Udp DhcpMsg Dhcp DhcpInv.
From stdpp Require Import gmap.
#[local] Open Scope Z_scope.

(** What is left to do with a packet: nothing, tcp_input, or the receive
    callback [f] of a block with the argument [arg]. *)
Inductive handled : Type :=
  | Handled
  | Segment (p : pbufs) (src dest : Z)
  | Callback (f arg pcb : Z) (p : pbufs) (addr port : Z).

Section Net.
Context (lw : lower).

Definition set_ip (w : dw) (i : ipw) : dw := set_udp w (set_ipw (udp w) i).

Definition dhcp_pcb (w : dw) (n : Z) : option Z := match dhcp_at w n with Some d => d_pcb d | None => None end.

(** The call of pcb->recv at the end of udp_input. *)
Definition recv_call (w : dw) (dl : delivery) : outcome (handled * dw) :=
  match dl with
  | Nobody => Ok (Handled, w)
  | Deliver (DhcpRecv n) _ p _ _ => let! w := dhcp_recv lw w n p in Ok (Handled, w)
  | Deliver (AppRecv f arg) pcb p addr port => Ok (Callback f arg pcb p addr port, w)
  end.

(** The switch of ip_input over the protocol. *)
Definition to_upper (w : dw) (inp proto : Z) (p : pbufs) (src dest : Z) : outcome (handled * dw) :=
  if proto =? IP_PROTO_UDP then
    let! (dl, u) := udp_input lw (udp w) p inp src dest (dhcp_pcb w inp) in
    recv_call (set_udp w u) dl
  else if proto =? IP_PROTO_TCP then Ok (Segment p src dest, w)
  else if proto =? IP_PROTO_ICMP then
    let! i := icmp_input lw (ip (udp w)) p inp src dest in Ok (Handled, set_ip w i)
  else
    let! i :=
      if negb (ip_addr_isbroadcast dest (dnif w inp)) && negb (ip_addr_ismulticast dest)
      then icmp_dest_unreach lw (ip (udp w)) p ICMP_DUR_PROTO else Ok (ip (udp w)) in
    Ok (Handled, set_ip w (free i (pb_id p))).

Definition ip_input (w : dw) (p : pbufs) (inp : Z) : outcome (handled * dw) :=
  let! (u, i) := ip_demux (ip (udp w)) p inp in
  let w := set_ip w i in
  match u with
  | Freed => Ok (Handled, w)
  | ToUpper proto p src dest => to_upper w inp proto p src dest
  end.

(** The calls that etharp.c makes, in order; only a pbuf_free follows them.
    [slack] is what lies behind the first pbuf of the frame. *)
Fixpoint calls (slack : list Z) (es : list event) (w : dw) : outcome (handled * dw) :=
  match es with
  | [] => Ok (Handled, w)
  | IpInput n p :: _ => ip_input w (of_packet p slack) n
  | DhcpArpReply n addr :: es => let! w := dhcp_arp_reply lw w n addr in calls slack es w
  | _ :: es => calls slack es w
  end.

Definition frame_input (w : dw) (p : packet) (slack : list Z) (n : Z) : outcome (handled * dw) :=
  let b := low w in
  let! (_, b') := ethernet_input lw b p n in
  calls slack (drop (length (log b)) (log b')) (set_low w b').

End Net.

(** ** Theory: headers *)

Lemma rd_app1 (l r : list Z) i x : rd l i = Ok x -> rd (l ++ r) i = Ok x.
Proof. intros [Hi Hx]%rd_inv. apply rd_lookup; [lia|]. by apply lookup_app_l_Some. Qed.

Lemma load16_app l r i x : load16 l i = Ok x -> load16 (l ++ r) i = Ok x.
Proof.
  unfold load16. destruct (rd l i) as [a| |] eqn:E1; [|done..]. destruct (rd l (i + 1)) as [b| |] eqn:E2; [|done..].
  by rewrite (rd_app1 _ r _ _ E1), (rd_app1 _ r _ _ E2).
Qed.

Lemma load32_app l r i x : load32 l i = Ok x -> load32 (l ++ r) i = Ok x.
Proof.
  unfold load32. destruct (load16 l i) as [a| |] eqn:E1; [|done..]. destruct (load16 l (i + 2)) as [b| |] eqn:E2; [|done..].
  by rewrite (load16_app _ r _ _ E1), (load16_app _ r _ _ E2).
Qed.

Lemma bytes16 v : 0 <= v < 2 ^ 16 -> v mod 256 + 256 * (v / 256 mod 256) = v.
Proof. intros Hv. rewrite (Z.mod_small (v / 256)) by (split; [apply Z.div_pos; lia|apply Z.div_lt_upper_bound; lia]). pose proof (Z.div_mod v 256). lia. Qed.

Lemma bytes32 v : addr32 v -> v mod 256 + 256 * (v / 2 ^ 8 mod 256) + 2 ^ 16 * (v / 2 ^ 16 mod 256 + 256 * (v / 2 ^ 24 mod 256)) = v.
Proof. intros Hv. pose proof (word_bytes_val v Hv). lia. Qed.

(** The fields fit. *)
Record hdr_ok (h : ip_hdr) : Prop := HdrOk {
  ho_len : 0 <= ih_len h < 2 ^ 16;
  ho_id : 0 <= ih_id h < 2 ^ 16;
  ho_offset : 0 <= ih_offset h < 2 ^ 16;
  ho_chksum : 0 <= ih_chksum h < 2 ^ 16;
  ho_src : addr32 (ih_src h);
  ho_dest : addr32 (ih_dest h);
}.

Lemma ip_hdr_read h rest : hdr_ok h -> ip_hdr_at (ip_hdr_bytes h ++ rest) = Ok h.
Proof.
  intros [H1 H2 H3 H4 H5 H6]. unfold ip_hdr_at.
  erewrite (rd_app1 (ip_hdr_bytes h) rest 0) by reflexivity. cbn [obind]. erewrite (rd_app1 (ip_hdr_bytes h) rest 1) by reflexivity. cbn [obind].
  erewrite (load16_app (ip_hdr_bytes h) rest 2) by reflexivity. cbn [obind]. erewrite (load16_app (ip_hdr_bytes h) rest 4) by reflexivity. cbn [obind].
  erewrite (load16_app (ip_hdr_bytes h) rest 6) by reflexivity. cbn [obind]. erewrite (rd_app1 (ip_hdr_bytes h) rest 8) by reflexivity. cbn [obind].
  erewrite (rd_app1 (ip_hdr_bytes h) rest 9) by reflexivity. cbn [obind]. erewrite (load16_app (ip_hdr_bytes h) rest 10) by reflexivity. cbn [obind].
  erewrite (load32_app (ip_hdr_bytes h) rest 12) by reflexivity. cbn [obind]. erewrite (load32_app (ip_hdr_bytes h) rest 16) by reflexivity. cbn [obind].
  rewrite !bytes16, !bytes32 by done. by destruct h.
Qed.

(** ** Theory: chains *)

Lemma trim_bytes c n : 0 <= n -> chain_bytes (trim c n) = take (Z.to_nat n) (chain_bytes c).
Proof.
  unfold chain_bytes. revert n. induction c as [|[t bs] c IH]; intros n Hn; cbn [trim map concat snd]; [by rewrite take_nil|].
  destruct (Z.ltb_spec (zlen bs) n); cbn [map concat snd].
  - rewrite IH by lia. unfold zlen in *. rewrite take_app_ge by lia. do 2 f_equal. lia.
  - unfold zlen in *. rewrite app_nil_r, take_app_le by lia. done.
Qed.

Lemma trim_first p n : 0 <= n -> first (realloc p n) = take (Z.to_nat n) (first p).
Proof.
  intros Hn. unfold realloc, first, pb_tot_len, data, chain_bytes. destruct (Z.leb_spec (zlen (concat (map snd (pb_chain p)))) n) as [H|H].
  - destruct (pb_chain p) as [|[t bs] r]; [by rewrite take_nil|]. cbn [map concat snd] in H. unfold zlen in H. rewrite length_app in H. rewrite take_ge by lia. done.
  - cbn [pb_chain]. destruct (pb_chain p) as [|[t bs] r]; cbn [trim]; [by rewrite take_nil|]. destruct (Z.ltb_spec (zlen bs) n); unfold zlen in *; [|done].
    rewrite take_ge by lia. done.
Qed.

Lemma realloc_data p n : 0 <= n -> data (realloc p n) = take (Z.to_nat n) (data p).
Proof.
  intros Hn. unfold realloc. destruct (Z.leb_spec (pb_tot_len p) n) as [H|H].
  - unfold pb_tot_len, zlen in H. rewrite take_ge by lia. done.
  - unfold data. cbn [pb_chain]. by apply trim_bytes.
Qed.

(** Cutting a packet leaves no empty pbuf at its end. *)
Lemma trim_end c n : (forall c' t, c <> c' ++ [(t, [])]) -> 0 < n -> forall c' t, trim c n <> c' ++ [(t, [])].
Proof.
  revert n. induction c as [|[t bs] c IH]; intros n Hc Hn c' t' E; cbn [trim] in E; [by destruct c'|].
  destruct (Z.ltb_spec (zlen bs) n) as [Hl|Hl].
  - destruct c' as [|x c'].
    + injection E as -> -> E. destruct c as [|[t2 bs2] c]; [by apply (Hc [] t')|]. cbn [trim] in E. by destruct (_ <? _).
    + injection E as _ E. revert E. apply IH; [|lia]. intros c2 t2 ->. by apply (Hc ((t, bs) :: c2) t2).
  - destruct c' as [|x c']; [|by destruct c']. injection E as -> E. apply (f_equal length) in E. rewrite length_take in E. cbn in E. unfold zlen in *. lia.
Qed.

Lemma tidy_trim c n : tidy c -> tidy (trim c n).
Proof.
  intros H. destruct c as [|[t bs] c]; [exact H|]. cbn [trim]. destruct (Z.ltb_spec (zlen bs) n); [|apply tidy_1].
  intros [|x c'] t' E; [done|]. injection E as _ E. exfalso. revert E. apply trim_end; [|lia]. intros c2 t2 ->.
  by discriminate (H ((t, bs) :: c2) t2 eq_refl).
Qed.

Lemma realloc_same p n : pb_id (realloc p n) = pb_id p /\ pb_room (realloc p n) = pb_room p /\ pb_flags (realloc p n) = pb_flags p /\
  (ram p -> ram (realloc p n)).
Proof.
  unfold realloc. destruct (_ <=? _); [done|]. split_and!; try done. unfold ram. cbn [pb_chain]. intros [Ht Hd]. split; [|by apply tidy_trim].
  destruct (pb_chain p) as [|[t bs] r]; [done|]. cbn. by destruct (_ <? _).
Qed.

(** The bytes at the start of a packet are in its first pbuf. *)
Lemma first_starts p bs rest : data p = bs ++ rest -> zlen bs <= zlen (first p) -> exists r r', first p = bs ++ r /\ rest = r ++ r'.
Proof.
  unfold data, chain_bytes, first. destruct (pb_chain p) as [|[t b] c]; cbn [map concat snd]; intros E Hl.
  - exists [], rest. destruct bs as [|x bs]; [|unfold zlen in Hl; cbn in Hl; lia]. by split.
  - unfold zlen in Hl. assert (b = bs ++ drop (length bs) b) as E1.
    { rewrite <- (take_drop (length bs) b) at 1. f_equal. rewrite <- (take_app_le b (concat (map snd c))), E by lia. by rewrite take_app_length. }
    exists (drop (length bs) b), (concat (map snd c)). split; [done|]. rewrite E1, <- app_assoc in E. by apply app_inv_head in E.
Qed.

Lemma first_le p : zlen (first p) <= zlen (data p).
Proof. unfold data, first, chain_bytes. destruct (pb_chain p) as [|[t b] c]; [done|]. cbn [map concat snd]. rewrite zlen_app. pose proof (zlen_nonneg (concat (map snd c))). lia. Qed.

(** Stepping over a header that the first pbuf holds. *)
Lemma header_down_ok p hdr rest : data p = hdr ++ rest -> hdr <> [] -> zlen hdr <= zlen (first p) -> exists q,
  header_down p (zlen hdr) = Some q /\ data q = rest /\ first p = hdr ++ first q /\ pb_slack q = pb_slack p /\ pb_id q = pb_id p /\
  pb_room q = pb_room p ++ hdr /\ (ram p -> ram q).
Proof.
  intros E Hne Hl. destruct (first_starts p hdr rest E Hl) as (r & r' & E1 & E2). unfold header_down, data, first, ram in *.
  destruct (pb_chain p) as [|[t b] c]; [by destruct hdr|]. cbn [snd] in *. subst b. rewrite zlen_app. pose proof (zlen_nonneg r).
  destruct (Z.leb_spec (zlen hdr) (zlen hdr + zlen r)); [|lia]. eexists. split; [done|]. cbn [pb_chain pb_slack pb_id pb_room]. unfold chain_bytes, zlen in *. rewrite Nat2Z.id.
  rewrite take_app_length, drop_app_length. split_and!; try done; [|intros [? Ht]; split; [done|by eapply tidy_first]].
  cbn [map concat snd] in *. rewrite <- app_assoc in E. by apply app_inv_head in E.
Qed.

(** A packet that is read from the start: its first pbuf holds [hdr]. *)
Lemma memory_starts p hdr rest : data p = hdr ++ rest -> zlen hdr <= zlen (first p) -> exists m, memory p = hdr ++ m.
Proof. intros E Hl. destruct (first_starts p hdr rest E Hl) as (r & r' & E1 & _). exists (r ++ pb_slack p). unfold memory. by rewrite E1, <- app_assoc. Qed.

(** ** Theory: ip_input *)

(** The source is one that packets may have. *)
Definition source_ok (src : Z) (nf : netif) : Prop := src = 0 \/ (ip_addr_isbroadcast src nf = false /\ ip_addr_ismulticast src = false).

(** A packet with a header without options. *)
Record plain (h : ip_hdr) (len : Z) : Prop := Plain {
  pl_ok : hdr_ok h;
  pl_v_hl : ih_v_hl h = 0x45;
  pl_len : lwip_htons (ih_len h) = 20 + len;
  pl_whole : Z.land (ih_offset h) (lwip_htons (Z.lor IP_OFFMASK IP_MF)) = 0;
}.

Lemma demux_plain w p inp h body pad : plain h (zlen body) -> data p = ip_hdr_bytes h ++ body ++ pad -> 20 <= zlen (first p) ->
  (find_netif w inp (ih_dest h) <> None /\ source_ok (ih_src h) (nif w inp) \/
   find_netif w inp (ih_dest h) = None /\ ih_proto h = IP_PROTO_UDP /\ load16 (memory p) 22 = Ok (lwip_htons DHCP_CLIENT_PORT)) ->
  ip_demux w p inp = Ok (ToUpper (ih_proto h) (realloc p (20 + zlen body)) (ih_src h) (ih_dest h), w).
Proof.
  intros [Hok Hv Hlen Hw] E Hf Hc. assert (Hh : zlen (ip_hdr_bytes h) = 20) by done.
  destruct (memory_starts p _ _ E ltac:(lia)) as (m & Em). unfold ip_demux. rewrite Em at 1.
  assert (rd (ip_hdr_bytes h ++ m) 0 = Ok 0x45) as -> by (apply rd_app1; cbn; by rewrite Hv). cbn [obind].
  change (negb (Z.shiftr 0x45 4 =? 4)) with false. cbn match. rewrite Em at 1. rewrite ip_hdr_read by done. cbn [obind]. unfold IPH_HL. rewrite Hv.
  change (Z.land 0x45 0x0f * 4) with 20. rewrite Hlen. unfold pb_tot_len. rewrite E, !zlen_app, Hh. pose proof (zlen_nonneg body). pose proof (zlen_nonneg pad).
  destruct (Z.ltb_spec (zlen (first p)) 20); [lia|]. destruct (Z.ltb_spec (20 + (zlen body + zlen pad)) (20 + zlen body)); [lia|]. cbn [orb].
  destruct Hc as [[Hn Hs]|(Hn & Hp & Hport)].
  - destruct (find_netif w inp (ih_dest h)) as [m'|]; [|done]. cbn [obind].
    assert (true && negb (ip_addr_isany (ih_src h)) && (ip_addr_isbroadcast (ih_src h) (nif w inp) || ip_addr_ismulticast (ih_src h)) = false) as ->.
    { destruct Hs as [-> | [-> ->]]; [done|]. cbn. by rewrite andb_false_r. } by rewrite Hw.
  - rewrite Hn, Hp, Z.eqb_refl. change (20 + 2) with 22. rewrite Hport. cbn [obind]. rewrite Z.eqb_refl. cbn [obind andb]. by rewrite Hw.
Qed.

(** ** Theory: datagrams *)

Lemma htons_htons x : 0 <= x < 2 ^ 16 -> lwip_htons (lwip_htons x) = x.
Proof.
  intros Hx. rewrite (lwip_htons_swap x), swap_val by lia. pose proof (Z.div_mod x 256 ltac:(lia)). pose proof (Z.mod_pos_bound x 256 ltac:(lia)).
  assert (0 <= x / 256 < 256) by (split; [apply Z.div_pos; lia|apply Z.div_lt_upper_bound; lia]).
  set (a := x mod 256) in *. set (b := x / 256) in *. rewrite lwip_htons_swap, swap_val by lia.
  rewrite <- (Z.mod_unique (256 * a + b) 256 a b), <- (Z.div_unique (256 * a + b) 256 a b) by lia. lia.
Qed.

Lemma htons_range x : 0 <= lwip_htons x < 2 ^ 16.
Proof. unfold lwip_htons. apply u16_range. Qed.

(** The text of a datagram, read. *)
Lemma udp_text_read s d bs rest : 0 <= s < 2 ^ 16 -> 0 <= d < 2 ^ 16 ->
  load16 (udp_text s d bs ++ rest) 0 = Ok (lwip_htons s) /\ load16 (udp_text s d bs ++ rest) 2 = Ok (lwip_htons d).
Proof.
  intros Hs Hd. unfold udp_text. rewrite <- app_assoc. split; erewrite load16_app by reflexivity; by rewrite bytes16 by apply htons_range.
Qed.

Lemma udp_text_length s d bs : zlen (udp_text s d bs) = 8 + zlen bs.
Proof. unfold udp_text. rewrite zlen_app. done. Qed.

(** The datagram that udp_input sees. *)
Definition seen (nf : netif) (s d src dest : Z) : datagram := Datagram s d src dest (ip_addr_isbroadcast dest nf) (nif_netmask nf).

(** The packet [p] brings the datagram [s], [d], [bs] from [src] to [dest]. *)
Record brings (p : pbufs) (src dest s d : Z) (bs : list Z) : Prop := Brings {
  br_text : exists h pad, plain h (8 + zlen bs) /\ ih_proto h = IP_PROTO_UDP /\ ih_src h = src /\ ih_dest h = dest /\
    data p = ip_hdr_bytes h ++ udp_text s d bs ++ pad;
  br_first : 28 <= zlen (first p);
  br_ports : 0 <= s < 2 ^ 16 /\ 0 <= d < 2 ^ 16;
}.

Lemma udp_open p src dest s d bs : brings p src dest s d bs -> exists h q1 q,
  data (realloc p (28 + zlen bs)) = ip_hdr_bytes h ++ udp_text s d bs /\ rd (memory (realloc p (28 + zlen bs))) 0 = Ok 0x45 /\
  header_down (realloc p (28 + zlen bs)) 20 = Some q1 /\ load16 (memory q1) 0 = Ok (lwip_htons s) /\ load16 (memory q1) 2 = Ok (lwip_htons d) /\
  header_down q1 8 = Some q /\ data q = bs /\ pb_id q = pb_id p.
Proof.
  intros [(h & pad & [_ Hv _ _] & _ & _ & _ & E) Hf [Hs Hd]]. set (r := realloc p (28 + zlen bs)). pose proof (zlen_nonneg bs). exists h.
  assert (Er : data r = ip_hdr_bytes h ++ udp_text s d bs).
  { unfold r. rewrite realloc_data, E by lia. rewrite app_assoc. apply take_app_length'. rewrite length_app, ip_hdr_bytes_length.
    pose proof (udp_text_length s d bs) as Hu. unfold zlen in Hu |- *. lia. }
  assert (Hr : 28 <= zlen (first r)) by (unfold r; rewrite trim_first by lia; unfold zlen in *; rewrite length_take; lia).
  destruct (header_down_ok r _ _ Er) as (q1 & H1 & E1 & F1 & _ & I1 & _ & _); [done|change (20 <= zlen (first r)); lia|]. change (zlen (ip_hdr_bytes h)) with 20 in H1.
  unfold udp_text in E1. assert (L1 : 8 <= zlen (first q1)) by (rewrite F1, zlen_app in Hr; change (zlen (ip_hdr_bytes h)) with 20 in Hr; lia).
  destruct (header_down_ok q1 _ _ E1) as (q & H2 & E2 & _ & _ & I2 & _ & _); [done|done|]. change (zlen (udp_hdr_bytes _ _ _ _)) with 8 in H2.
  exists q1, q. destruct (memory_starts r _ _ Er ltac:(change (20 <= zlen (first r)); lia)) as (m & Em).
  destruct (memory_starts q1 _ _ E1 L1) as (m1 & Em1). split_and!; try done.
  - rewrite Em. erewrite rd_app1; [done|]. cbn. by rewrite Hv.
  - rewrite Em1. erewrite load16_app by reflexivity. by rewrite bytes16 by apply htons_range.
  - rewrite Em1. erewrite load16_app by reflexivity. by rewrite bytes16 by apply htons_range.
  - rewrite I2, I1. unfold r. apply realloc_same.
Qed.

Lemma seen_ports nf s d src dest : 0 <= s < 2 ^ 16 -> 0 <= d < 2 ^ 16 ->
  Datagram (lwip_htons (lwip_htons s)) (lwip_htons (lwip_htons d)) src dest (ip_addr_isbroadcast dest nf) (nif_netmask nf) = seen nf s d src dest.
Proof. intros Hs Hd. by rewrite !htons_htons. Qed.

(** Block [a] of an application takes the datagrams from [src], [s] to
    [dest], [d] that come in on [inp], and no other block does. *)
Record listens (u : udpw) (inp src s dest d a f arg : Z) : Prop := Listens {
  ls_port : d <> DHCP_CLIENT_PORT;
  ls_block : exists q, pcb_at u !! a = Some q /\ u_recv q = Some (AppRecv f arg) /\
    local_match (seen (nif (ip u) inp) s d src dest) q = true /\
    (connected q = true -> remote_match (seen (nif (ip u) inp) s d src dest) q = true);
  ls_listed : a ∈ udp_pcbs u;
  ls_only : forall b q, b ∈ udp_pcbs u -> pcb_at u !! b = Some q -> local_match (seen (nif (ip u) inp) s d src dest) q = true -> b = a;
}.

(** udp_input of a datagram of an application. *)
Lemma udp_input_app lw u p inp src dest s d bs dp a f arg : brings p src dest s d bs -> udp_ok u -> listens u inp src s dest d a f arg ->
  exists p' l, udp_input lw u (realloc p (28 + zlen bs)) inp src dest dp = Ok (Deliver (AppRecv f arg) a p' src s, set_pcbs u l) /\
    data p' = bs /\ pb_id p' = pb_id p /\ l ≡ₚ udp_pcbs u.
Proof.
  intros Hb Hu [Hd (q & Hq & Hf & Hl & Hr) Ha Hone]. destruct (udp_open _ _ _ _ _ _ Hb) as (h & q1 & q2 & E & Ev & H1 & P1 & P2 & H2 & E2 & I2).
  destruct (br_ports _ _ _ _ _ _ Hb) as [Bs Bd]. destruct (lookup_only u _ a q Hu Ha Hq Hl Hr Hone) as (l & El & Elook).
  exists q2, l. split; [|done]. unfold udp_input. rewrite Ev. cbn [obind]. change (Z.land 0x45 0x0f * 4) with 20.
  unfold pb_tot_len. rewrite E, zlen_app, udp_text_length. change (zlen (ip_hdr_bytes h)) with 20. change UDP_HLEN with 8. pose proof (zlen_nonneg bs).
  destruct (Z.ltb_spec (20 + (8 + zlen bs)) (20 + 8)); [lia|]. rewrite H1, P1. cbn [obind]. rewrite P2. cbn [obind].
  rewrite seen_ports by done. cbn [dg_dest dg_src seen]. fold (seen (nif (ip u) inp) s d src dest).
  destruct (Z.eqb_spec d DHCP_CLIENT_PORT); [done|]. rewrite Elook. cbn [obind orb]. rewrite H2. unfold get_pcb. cbn [pcb_at set_pcbs]. rewrite Hq. cbn [obind].
  by rewrite Hf.
Qed.

(** udp_input of a datagram of a server of the DHCP client [a] of [inp]. *)
Lemma udp_input_dhcp lw u p inp src dest bs a q : brings p src dest DHCP_SERVER_PORT DHCP_CLIENT_PORT bs ->
  pcb_at u !! a = Some q -> u_remote_ip q = 0 -> u_recv q = Some (DhcpRecv inp) ->
  exists p', udp_input lw u (realloc p (28 + zlen bs)) inp src dest (Some a) = Ok (Deliver (DhcpRecv inp) a p' src DHCP_SERVER_PORT, u) /\
    data p' = bs /\ pb_id p' = pb_id p.
Proof.
  intros Hb Hq Hip Hf. destruct (udp_open _ _ _ _ _ _ Hb) as (h & q1 & q2 & E & Ev & H1 & P1 & P2 & H2 & E2 & I2).
  exists q2. split; [|done]. unfold udp_input. rewrite Ev. cbn [obind]. change (Z.land 0x45 0x0f * 4) with 20.
  unfold pb_tot_len. rewrite E, zlen_app, udp_text_length. change (zlen (ip_hdr_bytes h)) with 20. change UDP_HLEN with 8. pose proof (zlen_nonneg bs).
  destruct (Z.ltb_spec (20 + (8 + zlen bs)) (20 + 8)); [lia|]. rewrite H1, P1. cbn [obind]. rewrite P2. cbn [obind].
  rewrite seen_ports by done. cbn [dg_dest dg_src seen]. rewrite !Z.eqb_refl. unfold get_pcb. rewrite Hq. cbn [obind]. rewrite Hip.
  change (ip_addr_isany 0) with true. cbn [orb obind]. rewrite H2, Hq. cbn [obind]. by rewrite Hf.
Qed.

(** What udp_sendto_if puts on the wire brings its data. *)
Lemma output_plain ws n len src dst ttl tos proto : 0 <= len -> 20 + len < 2 ^ 16 -> 0 <= ip_id ws < 2 ^ 16 -> addr32 src -> addr32 (nif_ip_addr (nif ws n)) -> addr32 dst ->
  plain (output_hdr ws n len src dst ttl tos proto) len.
Proof.
  intros H1 H2 H3 H4 H5 H6. split; [split|..]; cbn; try apply htons_range; try done; [by destruct (ip_addr_isany src)|]. rewrite u16_small by (change IP_HLEN with 20; lia).
  apply htons_htons. change IP_HLEN with 20. lia.
Qed.

Lemma sent_brings ws n u dst dport bs p pad : 28 + zlen bs < 2 ^ 16 -> 0 <= ip_id ws < 2 ^ 16 -> addr32 (nif_ip_addr (nif ws n)) -> addr32 dst ->
  0 <= u_local_port u < 2 ^ 16 -> 0 <= dport < 2 ^ 16 -> data p = udp_packet ws n u dst dport bs ++ pad -> 28 <= zlen (first p) ->
  brings p (nif_ip_addr (nif ws n)) dst (u_local_port u) dport bs.
Proof.
  intros Hl Hi Hs Hd Hu Hp E Hf. pose proof (zlen_nonneg bs). split; [|done..].
  exists (output_hdr ws n (8 + zlen bs) (nif_ip_addr (nif ws n)) dst (u_ttl u) (u_tos u) IP_PROTO_UDP), pad. split_and!; try done.
  - apply output_plain; (done || lia).
  - cbn. by destruct (ip_addr_isany _).
Qed.

Lemma set_ip_same w : set_ip w (ip (udp w)) = w.
Proof. by destruct w as [[]]. Qed.

Lemma accepted w inp dest : accepts dest (nif w inp) = true -> find_netif w inp dest <> None.
Proof. intros H. unfold find_netif. cbn [find]. by rewrite H. Qed.

Lemma ip_input_udp lw w p inp src dest s d bs : brings p src dest s d bs ->
  (accepts dest (dnif w inp) = true /\ source_ok src (dnif w inp) \/ find_netif (ip (udp w)) inp dest = None /\ d = DHCP_CLIENT_PORT) ->
  ip_input lw w p inp = (let! (dl, u) := udp_input lw (udp w) (realloc p (28 + zlen bs)) inp src dest (dhcp_pcb w inp) in recv_call lw (set_udp w u) dl).
Proof.
  intros Hb Hc. destruct Hb as [(h & pad & Hh & Hp & <- & <- & E) Hf [Hs Hd]]. unfold ip_input. pose proof (udp_text_length s d bs) as Hl.
  rewrite (demux_plain (ip (udp w)) p inp h (udp_text s d bs) pad); [|by rewrite Hl|done|lia|].
  - cbn [obind]. rewrite set_ip_same. unfold to_upper. rewrite Hp, Hl. change (IP_PROTO_UDP =? IP_PROTO_UDP) with true. cbn match.
    by replace (20 + (8 + zlen bs)) with (28 + zlen bs) by lia.
  - destruct Hc as [[Ha Hso]|[Ha ->]]; [left|right]; (split; [|try split]); try done; [by apply accepted|].
    destruct (first_starts p (ip_hdr_bytes h ++ udp_hdr_bytes (lwip_htons s) (lwip_htons DHCP_CLIENT_PORT) (lwip_htons (u16 (8 + zlen bs))) 0) (bs ++ pad)) as (r & r' & E1 & _).
    { rewrite E. unfold udp_text. by rewrite <- !app_assoc. } { exact Hf. }
    unfold memory. rewrite E1, <- app_assoc. by erewrite load16_app by reflexivity.
Qed.

(** C17: a datagram arrives. When a program sends data on a block (udp_sendto_if),
    the packet that goes down to the link, read by another device with
    whatever padding the link adds, ends in the receive callback of the block
    there that is bound to the port, with exactly the data that were sent,
    and the address and the port of the sender; nothing else of the receiver
    changes but the order of its list of blocks. The buffer has room for the
    headers and is no chain that ends in an empty pbuf. *)
Theorem udp_datagram_arrives lw us b v pk dst dport n :
  world_ok (base (ip us)) -> pcb_at us !! b = Some v -> u_local_ip v = 0 -> ram pk -> 42 <= zlen (pb_room pk) ->
  28 + zlen (data pk) < 2 ^ 16 -> 0 <= ip_id (ip us) < 2 ^ 16 -> addr32 (nif_ip_addr (nif (ip us) n)) -> addr32 dst ->
  0 < u_local_port v < 2 ^ 16 -> 0 <= dport < 2 ^ 16 ->
  wp (udp_sendto_if lw us b pk dst dport n) (fun '(_, us') => exists text, ip_sent lw (ip us) n (pb_id pk) dst text (ip us') /\
    forall lw' w inp p pad a f arg, let src := nif_ip_addr (nif (ip us) n) in
    data p = text ++ pad -> 28 <= zlen (first p) -> accepts dst (dnif w inp) = true -> source_ok src (dnif w inp) -> udp_ok (udp w) ->
    listens (udp w) inp src (u_local_port v) dst dport a f arg ->
    exists p' l, ip_input lw' w p inp = Ok (Callback f arg a p' src (u_local_port v), set_udp w (set_pcbs (udp w) l)) /\
      data p' = data pk /\ pb_id p' = pb_id p /\ l ≡ₚ udp_pcbs (udp w)).
Proof.
  intros Hw Hb Hip Hram Hroom Hlen Hid Hsrc Hdst Hs Hd. eapply wp_mono; [apply (udp_sendto_if_spec lw us b v pk dst dport n); (done || lia)|].
  intros [e us'] (i & Hi & ->). exists (udp_packet (ip us) n v dst dport (data pk)). split; [exact Hi|]. intros lw' w inp p pad a f arg src E Hf Hacc Hso Hu Hls.
  assert (Hs' : 0 <= u_local_port v < 2 ^ 16) by lia. pose proof (sent_brings _ _ _ _ _ _ _ _ Hlen Hid Hsrc Hdst Hs' Hd E Hf) as Hbr.
  destruct (udp_input_app lw' (udp w) p inp _ _ _ _ _ (dhcp_pcb w inp) a f arg Hbr Hu Hls) as (p' & l & Eu & E1 & E2 & E3).
  exists p', l. split; [|done]. rewrite (ip_input_udp lw' w p inp src dst (u_local_port v) dport (data pk) Hbr) by by left. fold src in Eu. by rewrite Eu.
Qed.

(** ** Theory: answers of a DHCP server *)

(** The client of [inp] waits for answers. *)
Definition waits (w : dw) (inp : Z) : Prop := exists d a q, dhcp_at w inp = Some d /\ d_pcb d = Some a /\ pcb_at (udp w) !! a = Some q /\
  u_remote_ip q = 0 /\ u_recv q = Some (DhcpRecv inp).

(** An answer reaches the client when the interface has its address already,
    and when no interface has the address the packet is for. *)
Lemma ip_input_dhcp lw w p inp src dest bs : brings p src dest DHCP_SERVER_PORT DHCP_CLIENT_PORT bs -> waits w inp ->
  (accepts dest (dnif w inp) = true /\ source_ok src (dnif w inp) \/ find_netif (ip (udp w)) inp dest = None) ->
  exists p', ip_input lw w p inp = (let! w := dhcp_recv lw w inp p' in Ok (Handled, w)) /\ data p' = bs /\ pb_id p' = pb_id p.
Proof.
  intros Hb (d & a & q & Hd & Ha & Hq & Hip & Hf) Hc. destruct (udp_input_dhcp lw (udp w) p inp src dest bs a q Hb Hq Hip Hf) as (p' & Eu & E1 & E2).
  exists p'. split; [|done]. rewrite (ip_input_udp lw w p inp src dest _ _ bs Hb) by (destruct Hc as [?|?]; [by left|by right]).
  assert (dhcp_pcb w inp = Some a) as -> by (unfold dhcp_pcb; by rewrite Hd). rewrite Eu. cbn [obind recv_call]. by destruct w.
Qed.

(** ** Theory: echo requests *)

(** The answer to an echo request: the type, the checksum; the rest is the
    same. *)
Definition echo_reply (icmp : list Z) : list Z :=
  match icmp with
  | _ :: code :: k1 :: k2 :: rest => ICMP_ER :: code :: store16 (echo_chksum (k1 + 256 * k2)) ++ rest
  | _ => icmp
  end.

Lemma echo_chksum_val k : 0 <= k < 2 ^ 16 -> echo_chksum k = (if 0xfff7 <=? k then k + 8 - 65535 else k + 8).
Proof.
  intros Hk. unfold echo_chksum. change (lwip_htons (0xffff - Z.shiftl ICMP_ECHO 8)) with 0xfff7. change (lwip_htons (Z.shiftl ICMP_ECHO 8)) with 8.
  destruct (Z.leb_spec 0xfff7 k); [|by apply u16_small; lia]. unfold u16. symmetry. apply (Z.mod_unique _ _ 1); lia.
Qed.

Lemma le_num_zero bs : Forall byte bs -> le_num bs = 0 <-> Forall (eq 0) bs.
Proof.
  induction 1 as [|b bs Hb Hbs IH]; [by split|]. cbn [le_num]. pose proof (le_num_nonneg bs Hbs). unfold byte in Hb. rewrite list.Forall_cons, <- IH. lia.
Qed.

(** The checksum of the answer is right exactly when some byte of the answer
    other than the checksum is not zero. *)
Lemma echo_reply_sum code k1 k2 rest : Forall byte (ICMP_ECHO :: code :: k1 :: k2 :: rest) -> chksum_of (ICMP_ECHO :: code :: k1 :: k2 :: rest) = 0 ->
  (chksum_of (echo_reply (ICMP_ECHO :: code :: k1 :: k2 :: rest)) = 0 <-> ~ Forall (eq 0) (code :: rest)).
Proof.
  intros Hb Hc. unfold chksum_of in *. apply (rfc1071_zero _ Hb) in Hc. apply list.Forall_cons in Hb as [_ Hb]. apply list.Forall_cons in Hb as [Hcode Hb].
  apply list.Forall_cons in Hb as [H1 Hb]. apply list.Forall_cons in Hb as [H2 Hb]. unfold byte in Hcode, H1, H2. pose proof (le_num_nonneg rest Hb) as Hn.
  set (k := k1 + 256 * k2). assert (Hk : 0 <= k < 2 ^ 16) by lia. pose proof (echo_chksum_val k Hk) as Ev. set (v := echo_chksum k) in *.
  assert (Hv : 0 <= v < 2 ^ 16) by (rewrite Ev; destruct (Z.leb_spec 0xfff7 k); lia).
  assert (Hr : Forall byte (echo_reply (ICMP_ECHO :: code :: k1 :: k2 :: rest))).
  { cbn [echo_reply app store16]. fold k v. repeat constructor; try done; try apply Z.mod_pos_bound; unfold ICMP_ER; lia. }
  rewrite (rfc1071_zero _ Hr). cbn [echo_reply app store16 le_num] in *. fold k v. pose proof (bytes16 v Hv) as E16.
  rewrite list.Forall_cons, <- (le_num_zero rest Hb). destruct Hc as (C1 & C2 & C3 & (e & C4)). change ICMP_ECHO with 8 in *. change ICMP_ER with 0.
  set (new := 0 + 256 * (code + 256 * (v mod 256 + 256 * (v / 256 mod 256 + 256 * le_num rest)))).
  assert (En : new = 256 * code + 65536 * v + 65536 * 65536 * le_num rest) by (unfold new; lia).
  assert (Ec : 8 + 256 * code + 65536 * k + 65536 * 65536 * le_num rest = 65535 + 65535 * e) by lia.
  split.
  - intros (_ & _ & H & _) [Hz1 Hz2]. assert (k = 0xfff7) by lia. rewrite H0 in Ev. cbn in Ev. lia.
  - intros Hz. split_and!; [lia|lia| |].
    + split; [|lia]. intros Hz'. destruct Hz. split; lia.
    + exists (if 0xfff7 <=? k then e + 8 - 65536 else e + 8). rewrite En, Ev. destruct (Z.leb_spec 0xfff7 k); lia.
Qed.

(** Writing over bytes of the first pbuf. *)
Lemma store_at p t c pre old new post : pb_chain p = (t, pre ++ old ++ post) :: c -> length new = length old -> forall i, i = zlen pre ->
  store_payload p i new = Ok (Pbufs (pb_id p) (pb_room p) ((t, pre ++ new ++ post) :: c) (pb_slack p) (pb_flags p)).
Proof.
  intros E Hl i ->. unfold store_payload. rewrite E. unfold zlen. rewrite splice_ok by (unfold zlen; rewrite ?length_app; lia). cbn [obind].
  rewrite Nat2Z.id, take_app_length, drop_app_add, Hl, drop_app_length. done.
Qed.

(** The header of the answer. *)
Definition echo_hdr (h : ip_hdr) : ip_hdr :=
  IpHdr (ih_v_hl h) (ih_tos h) (ih_len h) (ih_id h) (ih_offset h) ICMP_TTL (ih_proto h) 0 (ih_dest h) (ih_src h).

(** An echo request for an address of the interface. *)
Record pings (w : dw) (inp : Z) (p : pbufs) (h : ip_hdr) (code k1 k2 : Z) (rest : list Z) : Prop := Pings {
  pi_hdr : plain h (4 + zlen rest);
  pi_proto : ih_proto h = IP_PROTO_ICMP;
  pi_data : exists pad, data p = ip_hdr_bytes h ++ (ICMP_ECHO :: code :: k1 :: k2 :: rest) ++ pad;
  pi_ram : ram p;
  pi_first : 24 <= zlen (first p);
  pi_room : 14 <= zlen (pb_room p);
  pi_accepts : accepts (ih_dest h) (dnif w inp) = true;
  pi_single : ip_addr_isbroadcast (ih_dest h) (dnif w inp) = false /\ ip_addr_ismulticast (ih_dest h) = false;
  pi_source : source_ok (ih_src h) (dnif w inp);
  pi_length : 4 <= zlen rest;
  pi_sum : chksum_of (ICMP_ECHO :: code :: k1 :: k2 :: rest) = 0;
  pi_bytes : Forall byte (ICMP_ECHO :: code :: k1 :: k2 :: rest);
}.

Lemma header_up_back p hdr rest : data p = hdr ++ rest -> ram p -> hdr <> [] -> zlen hdr <= zlen (first p) -> exists q,
  header_down p (zlen hdr) = Some q /\ header_up q (zlen hdr) = Some p.
Proof.
  intros E Hr Hne Hl. destruct (first_starts p hdr rest E Hl) as (r & r' & E1 & _). unfold header_down, header_up, first, ram in *.
  destruct p as [id room [|[t b] c] slack fl]; [by destruct Hr|]. destruct Hr as [Hr _]. cbn [pb_chain snd pb_room pb_id pb_slack pb_flags] in *. subst b. rewrite zlen_app. pose proof (zlen_nonneg r).
  destruct (Z.leb_spec (zlen hdr) (zlen hdr + zlen r)); [|lia]. eexists. split; [done|]. cbn [pb_chain pb_room pb_id pb_slack pb_flags].
  assert (0 < zlen hdr) by (destruct hdr; [done|]; rewrite zlen_cons; pose proof (zlen_nonneg hdr); lia). destruct (Z.eqb_spec (zlen hdr) 0); [lia|].
  assert (bool_decide (t = PBUF_RAM) || bool_decide (t = PBUF_POOL) = true) as -> by by destruct Hr as [-> | ->].
  unfold zlen. rewrite Nat2Z.id, take_app_length, drop_app_length, length_app. destruct (Z.leb_spec (Z.of_nat (length hdr)) (Z.of_nat (length room + length hdr))); [|lia].
  replace (Z.to_nat (Z.of_nat (length room + length hdr) - Z.of_nat (length hdr))) with (length room) by lia. by rewrite take_app_length, drop_app_length.
Qed.

(** icmp_echo_reply writes the answer over the request. *)
Lemma echo_reply_spec lw w p q h code k1 k2 rest inp : world_ok (base w) -> hdr_ok h -> data p = ip_hdr_bytes h ++ ICMP_ECHO :: code :: k1 :: k2 :: rest -> ram p ->
  24 <= zlen (first p) -> 14 <= zlen (pb_room p) -> 0 <= k1 < 256 -> 0 <= k2 < 256 -> header_up q 20 = Some p ->
  wp (icmp_echo_reply lw w q 20 inp (ih_src h) (ih_dest h)) (fun w' => exists k b, pk_id k = pb_id p /\
    chain_bytes (pk_chain k) = ip_hdr_bytes (echo_hdr h) ++ echo_reply (ICMP_ECHO :: code :: k1 :: k2 :: rest) /\
    outputs lw (base w) inp k (ih_src h) b /\ w' = free (set_base w b) (pb_id p)).
Proof.
  intros Hw Hh E Hr Hf Hroom H1 H2 Hq. unfold icmp_echo_reply. rewrite Hq.
  destruct (first_starts p (ip_hdr_bytes h ++ [ICMP_ECHO; code; k1; k2]) rest) as (r & r' & E1 & E2); [by rewrite <- app_assoc|exact Hf|].
  destruct p as [id room [|[t b] c] slack fl]; [done|]. unfold first in E1. cbn [pb_chain snd] in E1. subst b. rewrite <- app_assoc in *. cbn [app] in *.
  set (hd := [ih_v_hl h; ih_tos h] ++ store16 (ih_len h) ++ store16 (ih_id h) ++ store16 (ih_offset h)).
  set (src := word_bytes (ih_src h)). set (dst := word_bytes (ih_dest h)). set (ck := store16 (ih_chksum h)). set (icmp := ICMP_ECHO :: code :: k1 :: k2 :: r).
  erewrite (store_at _ t c (hd ++ [ih_ttl h; ih_proto h] ++ ck) src dst (dst ++ icmp)) by reflexivity. cbn [obind pb_id pb_room pb_slack pb_flags].
  erewrite (store_at _ t c (hd ++ [ih_ttl h; ih_proto h] ++ ck ++ dst) dst src icmp) by reflexivity. cbn [obind pb_id pb_room pb_slack pb_flags].
  erewrite (store_at _ t c (hd ++ [ih_ttl h; ih_proto h] ++ ck ++ dst ++ src) [ICMP_ECHO] [ICMP_ER] (code :: k1 :: k2 :: r)) by reflexivity. cbn [obind pb_id pb_room pb_slack pb_flags].
  change (20 + 2) with 22. unfold memory, first. cbn [pb_chain pb_slack snd].
  assert (load16 (((hd ++ [ih_ttl h; ih_proto h] ++ ck ++ dst ++ src) ++ [ICMP_ER] ++ code :: k1 :: k2 :: r) ++ slack) 22 = Ok (k1 + 256 * k2)) as -> by reflexivity.
  cbn [obind]. set (v := echo_chksum (k1 + 256 * k2)).
  erewrite (store_at _ t c (hd ++ [ih_ttl h; ih_proto h] ++ ck ++ dst ++ src ++ [ICMP_ER; code]) [k1; k2] (store16 v) r) by reflexivity. cbn [obind pb_id pb_room pb_slack pb_flags].
  set (reply := ICMP_ER :: code :: store16 v ++ r).
  erewrite (store_at _ t c hd [ih_ttl h] [ICMP_TTL] ([ih_proto h] ++ ck ++ dst ++ src ++ reply)) by reflexivity. cbn [obind pb_id pb_room pb_slack pb_flags].
  erewrite (store_at _ t c (hd ++ [ICMP_TTL; ih_proto h]) ck (store16 0) (dst ++ src ++ reply)) by reflexivity. cbn [obind pb_id pb_room pb_slack pb_flags].
  set (p := Pbufs id room ((t, (hd ++ [ICMP_TTL; ih_proto h]) ++ store16 0 ++ dst ++ src ++ reply) :: c) slack fl).
  assert (Ep : data p = ip_hdr_bytes (echo_hdr h) ++ echo_reply (ICMP_ECHO :: code :: k1 :: k2 :: rest)).
  { assert (Ec : chain_bytes c = r').
    { unfold data, chain_bytes in E. cbn [pb_chain map concat snd] in E. rewrite E2 in E. apply (app_inv_head (ip_hdr_bytes h ++ [ICMP_ECHO; code; k1; k2] ++ r)).
      rewrite <- !app_assoc in *. exact E. }
    unfold p, data. cbn [pb_chain]. unfold chain_bytes in *. cbn [map concat snd]. rewrite Ec, E2. reflexivity. }
  assert (Ef : first p = ip_hdr_bytes (echo_hdr h) ++ reply) by reflexivity.
  assert (Hrp : ram p) by (destruct Hr as [Hr Ht]; split; [exact Hr|by eapply tidy_first]).
  destruct (to_packet_ok p) as (K1 & K2 & K3 & K4); [exact Hrp|rewrite Ef, zlen_app; change (zlen (ip_hdr_bytes (echo_hdr h))) with 20; pose proof (zlen_nonneg reply); lia|done|].
  assert (Em : memory p = ip_hdr_bytes (echo_hdr h) ++ reply ++ slack) by reflexivity.
  assert (Hh' : hdr_ok (echo_hdr h)) by (destruct Hh; split; (done || lia)).
  unfold ip_output_if. rewrite Em, ip_hdr_read by done. cbn [obind]. change (ih_dest (echo_hdr h)) with (ih_src h).
  pose proof (etharp_output_spec lw (base w) inp (to_packet p) (ih_src h) Hw K1) as Ho. destruct (etharp_output _ _ _ _ _) as [[e b]| |]; [|done..].
  cbn [wp obind] in *. exists (to_packet p), b. split_and!; [by rewrite K3|by rewrite K4|done|done].
Qed.

(** C18: an echo request is answered (RFC 1122, 3.2.2.6). For a request to an
    address of the interface with a right checksum, the device gives one
    packet to the layer below, in the buffer of the request: from that address to
    the sender, an echo reply with the identifier, the number and the data of
    the request. Its checksum is right, but for the one request whose other
    bytes are all zero, where the code writes 0 for 0xffff. The buffer of the
    request has room for an Ethernet header, as the driver leaves it, and is no
    chain that ends in an empty pbuf. *)
Theorem ping_answered lw w inp p h code k1 k2 rest : world_ok (low w) -> pings w inp p h code k1 k2 rest ->
  let icmp := ICMP_ECHO :: code :: k1 :: k2 :: rest in
  wp (ip_input lw w p inp) (fun '(r, w') => r = Handled /\ exists k b, pk_id k = pb_id p /\
    chain_bytes (pk_chain k) = ip_hdr_bytes (echo_hdr h) ++ echo_reply icmp /\
    outputs lw (low w) inp k (ih_src h) b /\ w' = dfree (set_low w b) (pb_id p)) /\
  (chksum_of (echo_reply icmp) = 0 <-> ~ Forall (eq 0) (code :: rest)).
Proof.
  intros Hw [Hh Hp (pad & E) Hr Hf Hroom Ha [Hb Hm] Hs Hl Hc Hby] icmp. split; [|by apply echo_reply_sum].
  assert (Hl' : zlen icmp = 4 + zlen rest) by (unfold icmp; rewrite !zlen_cons; lia). fold icmp in E, Hc. unfold ip_input.
  rewrite (demux_plain (ip (udp w)) p inp h icmp pad); [|by rewrite Hl'|done|lia|left; split; [by apply accepted|done]]. cbn [obind].
  rewrite set_ip_same. unfold to_upper. rewrite Hp. change (IP_PROTO_ICMP =? IP_PROTO_UDP) with false. change (IP_PROTO_ICMP =? IP_PROTO_TCP) with false.
  change (IP_PROTO_ICMP =? IP_PROTO_ICMP) with true. cbn match. set (p1 := realloc p (20 + zlen icmp)).
  destruct (realloc_same p (20 + zlen icmp)) as (I1 & R1 & _ & Q1). fold p1 in I1, R1, Q1. pose proof (zlen_nonneg rest).
  assert (E1 : data p1 = ip_hdr_bytes h ++ icmp).
  { unfold p1. rewrite realloc_data, E by lia. rewrite app_assoc. apply take_app_length'. rewrite length_app, ip_hdr_bytes_length. unfold zlen. lia. }
  assert (Hf1 : 24 <= zlen (first p1)) by (unfold p1; rewrite trim_first by lia; unfold zlen in *; rewrite length_take; lia).
  destruct (memory_starts p1 _ _ E1) as (m & Em); [change (20 <= zlen (first p1)); lia|].
  destruct (header_up_back p1 _ _ E1 (Q1 Hr)) as (p2 & D2 & U2); [done|change (20 <= zlen (first p1)); lia|].
  destruct (header_down_ok p1 _ _ E1) as (p2' & D2' & E2 & F2 & _ & I2 & R2 & Q2); [done|change (20 <= zlen (first p1)); lia|]. rewrite D2 in D2'. injection D2' as <-.
  change (zlen (ip_hdr_bytes h)) with 20 in *. unfold icmp_input. rewrite Em. rewrite ip_hdr_read by apply (pl_ok _ _ Hh). cbn [obind].
  unfold IPH_HL. rewrite (pl_v_hl _ _ Hh). change (Z.land 0x45 0x0f * 4) with 20. rewrite D2. unfold pb_tot_len. rewrite E2, Hl'.
  destruct (Z.ltb_spec (4 + zlen rest) 4); [lia|]. assert (L2 : 4 <= zlen (first p2)) by (rewrite F2, zlen_app in Hf1; change (zlen (ip_hdr_bytes h)) with 20 in Hf1; lia).
  destruct (memory_starts p2 [ICMP_ECHO; code; k1; k2] rest) as (m2 & Em2); [done|done|]. assert (rd (memory p2) 0 = Ok ICMP_ECHO) as -> by by rewrite Em2. cbn [obind].
  change (nif (ip (udp w)) inp) with (dnif w inp). rewrite Z.eqb_refl, Hm, Hb. cbn [orb]. change SIZEOF_ICMP_ECHO_HDR with 8. destruct (Z.ltb_spec (4 + zlen rest) 8); [lia|]. rewrite Hc. change (negb (0 =? 0)) with false. cbn match.
  assert (echo_buffer lw (ip (udp w)) p2 20 = (Some p2, ip (udp w))) as ->.
  { unfold echo_buffer. assert (header_up p2 (PBUF_IP_HLEN + PBUF_LINK_HLEN) <> None) as Hu; [|by destruct (header_up p2 (PBUF_IP_HLEN + PBUF_LINK_HLEN))].
    change (PBUF_IP_HLEN + PBUF_LINK_HLEN) with 34. unfold header_up. destruct (34 =? 0); [done|]. pose proof (Q2 (Q1 Hr)) as [Hr2 _].
    destruct (pb_chain p2) as [|[t bs] c]; [done|]. assert (bool_decide (t = PBUF_RAM) || bool_decide (t = PBUF_POOL) = true) as -> by by destruct Hr2 as [-> | ->].
    rewrite R2, zlen_app, R1. change (zlen (ip_hdr_bytes h)) with 20. destruct (Z.leb_spec 34 (zlen (pb_room p) + 20)); [done|lia]. }
  apply list.Forall_cons in Hby as [_ Hby]. apply list.Forall_cons in Hby as [_ Hby]. apply list.Forall_cons in Hby as [B1 Hby]. apply list.Forall_cons in Hby as [B2 _].
  rewrite <- R1 in Hroom. wpb (echo_reply_spec lw (ip (udp w)) p1 p2 h code k1 k2 rest inp Hw (pl_ok _ _ Hh) E1 (Q1 Hr) Hf1 Hroom B1 B2 U2).
  intros i (k & b & K1 & K2 & K3 & ->). cbn [wp]. split; [done|]. exists k, b. split_and!; [congruence|done|done|]. by rewrite I1.
Qed.

(** ** Theory: any packet *)

(** The buffer of a packet goes on behind its first pbuf, and the first pbuf
    holds the first [n] bytes unless it holds all. The driver delivers
    packets that are readable for 128 bytes and more. *)
Record readable (n : Z) (p : pbufs) : Prop := Readable {
  re_ram : ram p;
  re_memory : n <= zlen (memory p);
  re_first : zlen (first p) = zlen (data p) \/ n <= zlen (first p);
}.

Lemma readable_le n m p : n <= m -> readable m p -> readable n p.
Proof. intros Hn [H1 H2 H3]. split; [done|lia|lia]. Qed.

Lemma realloc_memory p n : 0 <= n -> memory (realloc p n) = memory p \/ pb_tot_len p <= n.
Proof.
  intros Hn. unfold memory. destruct (Z.leb_spec (pb_tot_len p) n) as [H|H]; [by right|left]. rewrite trim_first by lia.
  unfold realloc. destruct (Z.leb_spec (pb_tot_len p) n); [lia|]. cbn [pb_slack]. by rewrite app_assoc, take_drop.
Qed.

Lemma readable_realloc k p n : 0 <= n -> readable k p -> readable k (realloc p n).
Proof.
  intros Hn [H1 H2 H3]. destruct (realloc_same p n) as (_ & _ & _ & Hr). split; [by apply Hr|..].
  - destruct (realloc_memory p n Hn) as [-> |H]; [done|]. unfold realloc. by destruct (Z.leb_spec (pb_tot_len p) n); [|lia].
  - rewrite trim_first, realloc_data by lia. pose proof (first_le p) as Hle. unfold zlen in *. rewrite !length_take. lia.
Qed.

Lemma header_down_readable k p n q : 0 <= n -> readable k p -> header_down p n = Some q ->
  readable (k - n) q /\ pb_tot_len q = pb_tot_len p - n /\ n <= zlen (first p) /\ pb_id q = pb_id p /\ zlen (pb_room q) = zlen (pb_room p) + n /\
  memory q = drop (Z.to_nat n) (memory p).
Proof.
  intros Hn [H1 H2 H3] E. unfold header_down, ram, memory, pb_tot_len, data, chain_bytes, first in *. destruct (pb_chain p) as [|[t b] c] eqn:Ec; [done|]. destruct H1 as [H1 Hd].
  destruct (Z.leb_spec n (zlen b)) as [Hl|]; [|done]. injection E as <-. unfold zlen in *. cbn [pb_chain map concat snd pb_slack pb_id pb_room] in *.
  rewrite !length_app in *. rewrite length_drop, length_take. split_and!; [split; cbn|lia|lia|done|lia|]; try done.
  - split; [done|by eapply tidy_first].
  - unfold memory, first. cbn [pb_chain snd pb_slack]. unfold zlen. rewrite length_app, length_drop. lia.
  - unfold first, data, chain_bytes, zlen. cbn [pb_chain map concat snd]. rewrite length_app, length_drop. lia.
  - by rewrite drop_app_le by lia.
Qed.

Lemma header_up_readable k p n q : 0 <= n -> readable k p -> header_up p n = Some q ->
  readable k q /\ n <= zlen (first q) /\ pb_id q = pb_id p /\ zlen (first q) = n + zlen (first p).
Proof.
  intros Hn [H1 H2 H3] E. unfold header_up, ram, memory, data, chain_bytes in *. destruct (Z.eqb_spec n 0) as [->|].
  { injection E as <-. split; [done|]. pose proof (zlen_nonneg (first p)). split; [lia|]. split; [done|lia]. }
  destruct (pb_chain p) as [|[t b] c] eqn:Ec; [done|]. destruct H1 as [H1 Htd]. assert (Ef : first p = b) by (unfold first; by rewrite Ec). rewrite Ef in *.
  destruct (_ || _); [|done]. destruct (Z.leb_spec n (zlen (pb_room p))) as [Hl|]; [|done].
  injection E as <-. unfold zlen in *. cbn [map concat snd] in *. rewrite !length_app in *.
  assert (Hd : length (drop (Z.to_nat (Z.of_nat (length (pb_room p)) - n)) (pb_room p)) = Z.to_nat n) by (rewrite length_drop; lia).
  assert (Hram : forall b', tidy ((t, b') :: c)) by (intros b'; by eapply tidy_first).
  split_and!; [split; [split; [done|apply Hram]|..]|..]; unfold memory, first, data, chain_bytes, zlen; cbn [pb_chain map concat snd pb_slack pb_id]; rewrite ?length_app, ?Hd; lia || done.
Qed.

Lemma hdr_reads bs : 20 <= zlen bs -> exists h, ip_hdr_at bs = Ok h /\ rd bs 0 = Ok (ih_v_hl h).
Proof.
  intros Hl. unfold ip_hdr_at. destruct (rd_ok bs 0) as (a & -> & _); [unfold zlen in Hl; lia|]. destruct (rd_ok bs 1) as (b & -> & _); [unfold zlen in Hl; lia|].
  destruct (load16_ok bs 2) as (c & ->); [lia|lia|]. destruct (load16_ok bs 4) as (d & ->); [lia|lia|]. destruct (load16_ok bs 6) as (e & ->); [lia|lia|].
  destruct (rd_ok bs 8) as (f & -> & _); [unfold zlen in Hl; lia|]. destruct (rd_ok bs 9) as (g & -> & _); [unfold zlen in Hl; lia|].
  destruct (load16_ok bs 10) as (i & ->); [lia|lia|]. destruct (load32_ok bs 12) as (j & ->); [lia|lia|]. destruct (load32_ok bs 16) as (k & ->); [lia|lia|].
  cbn [obind]. eexists. split; done.
Qed.

Section Safety.
Context (lw : lower).

(** What sending leaves: the layers below are in order, the rest is as it
    was. *)
Definition below (w w' : dw) : Prop := exists i l, carried (base (ip (udp w))) (base i) /\ l ≡ₚ udp_pcbs (udp w) /\ w' = set_udp w (set_pcbs (set_ipw (udp w) i) l).

Lemma ip_output_ok w p src dst ttl tos proto : world_ok (base w) -> ram p -> 34 <= zlen (pb_room p) ->
  wp (ip_output lw w p src dst ttl tos proto) (fun '(_, i) => carried (base w) (base i)).
Proof.
  intros Hw Hp Hr. unfold ip_output. destruct (ip_route w dst) as [n|]; [|by apply carried_refl]. eapply wp_mono; [by apply ip_output_if_spec|].
  intros [e i] Hi. by apply (ip_sent_carried _ _ _ _ _ _ _ Hw Hi).
Qed.

Lemma alloc_ok w l n q w' : world_ok (base w) -> ip_alloc lw w l n = (q, w') -> carried (base w) (base w') /\
  match q with Some q => exists id, q = alloc_ram id l n | None => True end.
Proof.
  intros Hw. unfold ip_alloc, alloc. destruct (lw_alloc lw _); intros [= <- <-]; (split; [|by eexists || done]).
  - destruct Hw. split; try done. by eexists.
  - destruct Hw. split; try done. exists []. by rewrite app_nil_r.
Qed.

Lemma store_ok p i bs : 0 <= i -> i + zlen bs <= zlen (first p) -> pb_chain p <> [] -> exists q, store_payload p i bs = Ok q /\
  pb_id q = pb_id p /\ pb_room q = pb_room p /\ pb_slack q = pb_slack p /\ zlen (first q) = zlen (first p) /\ (ram p -> ram q) /\ pb_chain q <> [].
Proof.
  unfold store_payload, first, ram. destruct (pb_chain p) as [|[t b] c]; [done|]. intros Hi Hl _. rewrite splice_ok by done. cbn [obind]. eexists. split; [done|]. cbn.
  split_and!; try done; [|intros [? Ht]; split; [done|by eapply tidy_first]]. unfold zlen in *. rewrite !length_app, length_take, length_drop. lia.
Qed.

Lemma ram_chain p : ram p -> pb_chain p <> [].
Proof. unfold ram. destruct (pb_chain p); [by intros []|done]. Qed.

Lemma icmp_send_response_ok w p type code : world_ok (base w) -> 28 <= zlen (memory p) -> wp (icmp_send_response lw w p type code) (fun i => carried (base w) (base i)).
Proof.
  intros Hw Hm. unfold icmp_send_response. destruct (ip_alloc _ _ _ _) as [q i] eqn:Ea. apply alloc_ok in Ea as [Hi Hq]; [|done].
  destruct q as [q|]; [|done]. destruct Hq as (id & ->). destruct (hdr_reads (memory p)) as (h & -> & _); [lia|]. cbn [obind].
  change (IP_HLEN + ICMP_DEST_UNREACH_DATASIZE) with 28. rewrite slice_ok by lia. cbn [obind]. change (Z.to_nat 28) with 28%nat. change (Z.to_nat 0) with 0%nat. rewrite drop_0.
  assert (Ht : length (take 28 (memory p)) = 28%nat) by (rewrite length_take; unfold zlen in Hm; lia). generalize dependent (take 28 (memory p)). intros bs Ht.
  match goal with |- context [alloc_ram id PBUF_IP ?n] => change n with 36; set (q := alloc_ram id PBUF_IP 36) end.
  assert (Hl : zlen (first q) = 36) by done. assert (Hr : ram q) by (split; [by left|apply tidy_1]). assert (Hroom : zlen (pb_room q) = 36) by reflexivity.
  assert (Hb : zlen ([type; code] ++ store16 0 ++ store16 0 ++ store16 0 ++ bs) = 36) by (unfold zlen; rewrite !length_app, Ht; done).
  destruct (store_ok q 0 ([type; code] ++ store16 0 ++ store16 0 ++ store16 0 ++ bs)) as (q1 & -> & _ & R1 & _ & L1 & Q1 & C1); [done|lia|done|].
  cbn [obind]. match goal with |- context [store_payload q1 2 ?x] => destruct (store_ok q1 2 x) as (q2 & -> & _ & R2 & _ & L2 & Q2 & C2) end; [done|change (zlen (store16 (chksum_of (first q1)))) with 2; lia|done|].
  cbn [obind]. wpb (ip_output_ok i q2); [apply Hi|by apply Q2, Q1|rewrite R2, R1; lia|]. intros [e i'] Hi'. cbn [wp].
  eapply carried_trans; [exact Hi|]. eapply carried_trans; [exact Hi'|]. apply carried_emit, Hi'.
Qed.

Lemma to_packet_ip p : ram p -> 20 <= zlen (first p) -> ip_packet (to_packet p).
Proof.
  unfold ram, first, to_packet, ip_packet. destruct (pb_chain p) as [|[t bs] r]; [by intros []|]. intros [Ht Htd] Hf. cbn [pk_chain pk_room]. split; [done|].
  change SIZEOF_ETH_HDR with 14. destruct (_ || _); [|done]. destruct (Z.leb_spec 14 (zlen (pb_room p))); [|done]. cbn [andb]. rewrite length_drop. unfold zlen in *. lia.
Qed.

Lemma icmp_echo_reply_ok w p hlen inp src dest : world_ok (base w) -> 20 <= hlen -> ram p -> 8 <= zlen (first p) ->
  wp (icmp_echo_reply lw w p hlen inp src dest) (fun i => carried (base w) (base i)).
Proof.
  intros Hw Hh Hp Hd. unfold icmp_echo_reply. destruct (header_up p hlen) as [p1|] eqn:Eu; [|by apply carried_emit].
  assert (Hp0 : readable 0 p) by (split; [done|apply zlen_nonneg|right; lia]). assert (Hh0 : 0 <= hlen) by lia.
  destruct (header_up_readable 0 p hlen p1 Hh0 Hp0 Eu) as ([R1 _ _] & Hf & _ & Hf'). pose proof (ram_chain _ R1) as C1.
  destruct (store_ok p1 12 (word_bytes dest)) as (p2 & -> & _ & _ & _ & L2 & Q2 & C2); [lia|change (zlen (word_bytes dest)) with 4; lia|done|]. cbn [obind].
  destruct (store_ok p2 16 (word_bytes src)) as (p3 & -> & _ & _ & _ & L3 & Q3 & C3); [lia|change (zlen (word_bytes src)) with 4; lia|done|]. cbn [obind].
  destruct (store_ok p3 hlen [ICMP_ER]) as (p4 & -> & _ & _ & _ & L4 & Q4 & C4); [lia|change (zlen [ICMP_ER]) with 1; lia|done|]. cbn [obind].
  destruct (load16_ok (memory p4) (hlen + 2)) as (ck & ->); [lia|unfold memory; rewrite zlen_app; pose proof (zlen_nonneg (pb_slack p4)); lia|]. cbn [obind].
  destruct (store_ok p4 (hlen + 2) (store16 (echo_chksum ck))) as (p5 & -> & _ & _ & _ & L5 & Q5 & C5); [lia|change (zlen (store16 (echo_chksum ck))) with 2; lia|done|]. cbn [obind].
  destruct (store_ok p5 8 [ICMP_TTL]) as (p6 & -> & _ & _ & _ & L6 & Q6 & C6); [lia|change (zlen [ICMP_TTL]) with 1; lia|done|]. cbn [obind].
  destruct (store_ok p6 10 (store16 0)) as (p7 & -> & _ & _ & _ & L7 & Q7 & C7); [lia|change (zlen (store16 0)) with 2; lia|done|]. cbn [obind].
  unfold ip_output_if. destruct (hdr_reads (memory p7)) as (h & -> & _); [unfold memory; rewrite zlen_app; pose proof (zlen_nonneg (pb_slack p7)); lia|]. cbn [obind].
  assert (Hip : ip_packet (to_packet p7)) by (apply to_packet_ip; [auto 10|lia]).
  pose proof (etharp_output_spec lw (base w) inp (to_packet p7) (ih_dest h) Hw Hip) as Ho. destruct (etharp_output _ _ _ _ _) as [[e b]| |]; [|done..].
  cbn [wp obind] in *. assert (Hc : carried (base w) b) by (eapply (outputs_carried lw (base w)); [done| |exact Ho]; done).
  eapply carried_trans; [exact Hc|]. apply carried_emit, Hc.
Qed.

Lemma echo_buffer_ok w p hlen q w' : world_ok (base w) -> 20 <= hlen -> ram p -> 8 <= zlen (first p) -> echo_buffer lw w p hlen = (q, w') ->
  carried (base w) (base w') /\ match q with Some q => ram q /\ 8 <= zlen (first q) | None => True end.
Proof.
  intros Hw Hh Hp Hd. unfold echo_buffer. destruct (header_up p (PBUF_IP_HLEN + PBUF_LINK_HLEN)); [intros [= <- <-]; split; [by apply carried_refl|done]|].
  destruct (header_up p hlen) as [p1|] eqn:Eu; [|intros [= <- <-]; split; [by apply carried_refl|done]].
  assert (Hp0 : readable 0 p) by (split; [done|apply zlen_nonneg|right; lia]). assert (Hh0 : 0 <= hlen) by lia.
  destruct (header_up_readable 0 p hlen p1 Hh0 Hp0 Eu) as (_ & _ & _ & Hf). pose proof (first_le p1).
  destruct (ip_alloc _ _ _ _) as [r i] eqn:Ea. apply alloc_ok in Ea as [Hi Hr]; [|done]. destruct r as [r|]; [|by intros [= <- <-]].
  destruct (header_down _ _) as [k|] eqn:Ek; [|by intros [= <- <-]]. intros [= <- <-]. split; [eapply carried_trans; [exact Hi|apply carried_emit, Hi]|].
  unfold header_down in Ek. cbn [pb_chain pb_id pb_room pb_slack pb_flags] in Ek. destruct (hlen <=? zlen (data p1)); [|done]. injection Ek as <-. split; [split; [by left|apply tidy_1]|].
  unfold first at 1. cbn [pb_chain]. unfold zlen in *. rewrite length_drop. lia.
Qed.

Lemma icmp_input_ok w p inp src dest : world_ok (base w) -> readable 128 p -> (forall h, ip_hdr_at (memory p) = Ok h -> 5 <= IPH_HL h) ->
  wp (icmp_input lw w p inp src dest) (fun i => carried (base w) (base i)).
Proof.
  intros Hw Hp Hhl. unfold icmp_input. destruct (hdr_reads (memory p)) as (h & E & _); [pose proof (re_memory _ _ Hp); lia|]. rewrite E. cbn [obind].
  specialize (Hhl h E). assert (Hh : 20 <= IPH_HL h * 4 <= 60).
  { split; [lia|]. unfold IPH_HL. change 0x0f with (Z.ones 4). rewrite Z.land_ones by lia. pose proof (Z.mod_pos_bound (ih_v_hl h) (2 ^ 4) ltac:(lia)). lia. }
  set (hlen := IPH_HL h * 4) in *. assert (H0 : 0 <= hlen) by lia.
  destruct (header_down p hlen) as [p1|] eqn:Ed; [|by apply carried_emit].
  destruct (header_down_readable 128 p hlen p1 H0 Hp Ed) as ([R1 M1 F1] & _ & _ & _).
  destruct (Z.ltb_spec (pb_tot_len p1) 4); [by apply carried_emit|]. destruct (rd_ok (memory p1) 0) as (ty & -> & _); [unfold zlen in M1; lia|]. cbn [obind].
  destruct (ty =? ICMP_ECHO); [|by apply carried_emit]. destruct (_ || _); [by apply carried_emit|].
  change SIZEOF_ICMP_ECHO_HDR with 8. destruct (Z.ltb_spec (pb_tot_len p1) 8); [by apply carried_emit|].
  destruct (negb _); [by apply carried_emit|]. destruct (echo_buffer lw w p1 hlen) as [q i] eqn:Eb. unfold pb_tot_len in *.
  apply echo_buffer_ok in Eb as [Hi Hq]; [|done|lia|done|lia]. destruct q as [q|]; [|eapply carried_trans; [exact Hi|apply carried_emit, Hi]].
  eapply wp_mono; [apply icmp_echo_reply_ok; [apply Hi|lia|apply Hq|apply Hq]|]. intros i'. by apply carried_trans.
Qed.

(** The block of a callback belongs to its client, and the packet is what is
    behind the headers. *)
Definition delivered (u : udpw) (p : pbufs) (hlen : Z) (dl : delivery) : Prop :=
  match dl with
  | Nobody => True
  | Deliver f a q _ _ => (exists b, pcb_at u !! a = Some b /\ u_recv b = Some f) /\ exists q1, header_down p hlen = Some q1 /\ header_down q1 UDP_HLEN = Some q
  end.

Lemma udp_input_ok u p inp src dest dp vhl : world_ok (base (ip u)) -> udp_ok u -> readable 128 p -> rd (memory p) 0 = Ok vhl ->
  match dp with Some a => is_Some (pcb_at u !! a) | None => True end ->
  wp (udp_input lw u p inp src dest dp) (fun '(dl, u') => delivered u p (Z.land vhl 0x0f * 4) dl /\
    exists i l, carried (base (ip u)) (base i) /\ l ≡ₚ udp_pcbs u /\ u' = set_pcbs (set_ipw u i) l).
Proof.
  intros Hw Hu Hp Ev Hdp. unfold udp_input. rewrite Ev. cbn [obind]. set (hlen := Z.land vhl 0x0f * 4).
  assert (Hsame : forall i, carried (base (ip u)) (base i) -> exists i' l, carried (base (ip u)) (base i') /\ l ≡ₚ udp_pcbs u /\ set_ipw u i = set_pcbs (set_ipw u i') l) by (intros i Hi; by exists i, (udp_pcbs u)).
  assert (Hdrop : exists i l, carried (base (ip u)) (base i) /\ l ≡ₚ udp_pcbs u /\ set_ipw u (free (ip u) (pb_id p)) = set_pcbs (set_ipw u i) l) by (by apply Hsame, carried_emit).
  destruct (_ <? _); [done|]. assert (Hh : 0 <= hlen <= 60).
  { unfold hlen. change 0x0f with (Z.ones 4). rewrite Z.land_ones by lia. pose proof (Z.mod_pos_bound vhl (2 ^ 4) ltac:(lia)). lia. }
  destruct (header_down p hlen) as [p1|] eqn:Ed; [|done]. destruct (header_down_readable 128 p hlen p1 (proj1 Hh) Hp Ed) as (R1 & _ & _ & I1 & _).
  pose proof (re_memory _ _ R1). destruct (load16_ok (memory p1) 0) as (s & ->); [lia|lia|]. destruct (load16_ok (memory p1) 2) as (d & ->); [lia|lia|]. cbn [obind].
  set (dg := Datagram _ _ _ _ _ _). set (look := if dg_dest dg =? DHCP_CLIENT_PORT then _ else _).
  assert (Hlook : wp look (fun '(o, u') => match o with Some a => is_Some (pcb_at u !! a) | None => True end /\ exists l, l ≡ₚ udp_pcbs u /\ u' = set_pcbs u l)).
  { assert (Hs : exists l, l ≡ₚ udp_pcbs u /\ u = set_pcbs u l) by (exists (udp_pcbs u); by destruct u).
    unfold look. destruct (dg_dest dg =? DHCP_CLIENT_PORT).
    - destruct (dg_src dg =? DHCP_SERVER_PORT); [|done]. destruct dp as [a|]; [|done]. unfold get_pcb. destruct Hdp as [b Hb]. rewrite Hb. cbn [wp obind]. split; [|done].
      by destruct (_ || _).
    - destruct (lookup_pcb_spec u dg Hu) as (ps & l & _ & _ & Hl & Hps & ->). cbn [wp]. split; [|by exists l].
      assert (K : forall f ap, find f ps = Some ap -> is_Some (pcb_at u !! ap.1)) by (intros f ap [Hin _]%find_some; exists ap.2; apply Hps, list_elem_of_In, Hin).
      destruct (find (full_match dg) ps) as [ap|] eqn:E1; [by apply (K _ _ E1)|]. destruct (find (half_match dg) ps) as [ap|] eqn:E2; [by apply (K _ _ E2)|done]. }
  wpb Hlook. intros (o & u1) (Ho & l & Hl & ->).
  assert (Hdrop1 : exists i l0, carried (base (ip u)) (base i) /\ l0 ≡ₚ udp_pcbs u /\ set_ipw (set_pcbs u l) (free (ip u) (pb_id p1)) = set_pcbs (set_ipw u i) l0)
    by (exists (free (ip u) (pb_id p1)), l; split_and!; [by apply carried_emit|done|done]).
  destruct (_ || _); [|done]. destruct (header_down p1 UDP_HLEN) as [q|] eqn:Eq; [|done].
  destruct (header_down_readable 68 p1 UDP_HLEN q) as (R2 & _ & _ & _); [done|by eapply readable_le; [|exact R1]; lia|done|].
  destruct o as [a|].
  - destruct Ho as [b Hb]. unfold get_pcb. cbn [pcb_at set_pcbs]. rewrite Hb. cbn [obind]. destruct (u_recv b) as [f|] eqn:Ef; [|done]. cbn [wp]. split.
    + split; [by exists b|]. exists p1. by split.
    + exists (ip u), l. split; [by apply carried_refl|]. by destruct u.
  - assert (Hm : 28 <= zlen (memory (default q (header_up q (hlen + UDP_HLEN))))).
    { change UDP_HLEN with 8. destruct (header_up q (hlen + 8)) as [q2|] eqn:Eu; [change (default q (Some q2)) with q2|change (default q None) with q]; [|pose proof (re_memory _ _ R2); change UDP_HLEN with 8 in *; lia].
      assert (H8 : 0 <= hlen + 8) by lia. destruct (header_up_readable _ _ _ _ H8 R2 Eu) as (R3 & _). pose proof (re_memory _ _ R3). change UDP_HLEN with 8 in *. lia. }
    apply wp_bind_mono with (Q' := fun i => carried (base (ip u)) (base i));
      [|intros i Hi; cbn [wp]; split; [done|exists (free i (pb_id p1)), l; split_and!; [eapply carried_trans; [exact Hi|apply carried_emit, Hi]|done|done]]].
    destruct (_ && _); [|by apply carried_refl]. by apply icmp_send_response_ok.
Qed.

(** A frame changes no client and no interface when every client is stopped
    and AUTOIP is not used. *)
Definition stopped (w : dw) : Prop := (forall m d, dhcp_at w m = Some d -> d_pcb d = None) /\ (forall m, nif_autoip (dnif w m) = None).
Definition undisturbed (w w' : dw) : Prop :=
  dhcp_at w' = dhcp_at w /\ netif_at (low w') = netif_at (low w) /\ netif_list (low w') = netif_list (low w).
Definition framed (w w' : dw) : Prop := kept w w' /\ (stopped w -> undisturbed w w').

Lemma stopped_undisturbed w w' : undisturbed w w' -> stopped w -> stopped w'.
Proof. intros (E1 & E2 & _) [H1 H2]. unfold stopped, dnif. by rewrite E1, E2. Qed.

#[local] Instance framed_preorder : PreOrder framed.
Proof.
  split; [intros w; split; [reflexivity|by intros _]|]. intros w1 w2 w3 [K1 U1] [K2 U2]. split; [by etrans|]. intros H.
  pose proof (U1 H) as U. destruct (U2 (stopped_undisturbed _ _ U H)) as (? & ? & ?), U as (? & ? & ?). split_and!; congruence.
Qed.

Lemma live_framed n w w' : live idle n w -> kept w w' -> framed w w'.
Proof. intros [_ (d & a & Hd & Ha)] K. split; [done|]. intros [H _]. rewrite (H _ _ Hd) in Ha. done. Qed.

Lemma below_ok w w' : dhcp_ok idle w -> below w w' -> dhcp_ok idle w' /\ framed w w'.
Proof.
  intros H (i & l & Hi & Hl & ->). split.
  - pose proof (ip_ok idle w i (xid w) (rx w) H (ca_ok _ _ Hi) (do_rx _ _ H)) as [H1 H2 H3 H4 H5 H6 H7]. split; try done.
    + by apply (udp_ok_perm (set_ipw (udp w) i)).
    + intros n d Hd. destruct (H4 n d Hd) as [C1 C2 C3 C4]. by split.
  - split.
    + split; [done|done|]. intros m. unfold dnif, low. cbn. by rewrite (ca_netif _ _ Hi).
    + intros _. split_and!; [done|apply Hi..].
Qed.

(** What dhcp_recv gets of a packet, from the header [h]. *)
Definition message_of (h : ip_hdr) (p : pbufs) : option pbufs :=
  match header_down (realloc p (lwip_htons (ih_len h))) (IPH_HL h * 4) with Some q => header_down q UDP_HLEN | None => None end.

(** ip_demux of a packet with a header [h] of at least 20 bytes. *)
Lemma demux_ok w p inp h : world_ok (base w) -> readable 128 p -> ip_hdr_at (memory p) = Ok h ->
  wp (ip_demux w p inp) (fun '(u, w') => match u with
    | Freed => w' = free w (pb_id p)
    | ToUpper proto q src dest => w' = w /\ q = realloc p (lwip_htons (ih_len h)) /\ src = ih_src h /\ dest = ih_dest h end).
Proof.
  intros Hw Hp Eh. unfold ip_demux. pose proof (re_memory _ _ Hp) as Hm. destruct (hdr_reads (memory p)) as (h' & Eh' & ->); [lia|]. rewrite Eh in Eh'. injection Eh' as <-.
  cbn [obind]. destruct (negb _); [done|]. rewrite Eh. cbn [obind]. set (hlen := IPH_HL h * 4).
  assert (Hh : 0 <= hlen <= 60).
  { unfold hlen, IPH_HL. change 0x0f with (Z.ones 4). rewrite Z.land_ones by lia. pose proof (Z.mod_pos_bound (ih_v_hl h) (2 ^ 4) ltac:(lia)). lia. }
  destruct (_ || _); [done|]. apply wp_bind_mono with (Q' := fun _ => True).
  - destruct (find_netif w inp (ih_dest h)); [done|]. destruct (ih_proto h =? IP_PROTO_UDP); [|done].
    destruct (load16_ok (memory p) (hlen + 2)) as (x & ->); [lia|lia|]. cbn [obind wp]. by destruct (_ =? _).
  - intros [nf check] _. destruct (_ && _); [done|]. destruct nf; [|done]. by destruct (negb _).
Qed.

(** Any packet with an IP header of at least 20 bytes, as long as the options
    of a message to the DHCP client can be parsed. *)
Lemma ip_input_ok w inp p h : dhcp_ok idle w -> readable 128 p -> ip_hdr_at (memory p) = Ok h -> 5 <= IPH_HL h ->
  (forall q, message_of h p = Some q -> parses q) ->
  wp (ip_input lw w p inp) (fun '(r, w') => (dhcp_ok idle w' /\ framed w w') /\ match r with Callback _ _ a _ _ _ => is_Some (pcb_at (udp w') !! a) | _ => True end).
Proof.
  intros H Hp Eh Hhl Hpar. pose proof (do_low _ _ H) as Hw. unfold ip_input. wpb (demux_ok (ip (udp w)) p inp h Hw Hp Eh). intros [[|proto q src dest] w1].
  { intros ->. cbn [wp]. split; [|done]. apply (below_ok w); [done|]. exists (free (ip (udp w)) (pb_id p)), (udp_pcbs (udp w)). by split_and!; [apply carried_emit| |]. }
  intros (-> & -> & -> & ->). rewrite set_ip_same. assert (H0 : 0 <= lwip_htons (ih_len h)) by apply htons_range.
  set (q := realloc p (lwip_htons (ih_len h))). pose proof (readable_realloc 128 p _ H0 Hp) as Hq. fold q in Hq.
  assert (Eq : forall h', ip_hdr_at (memory q) = Ok h' -> h' = h).
  { unfold q. destruct (realloc_memory p _ H0) as [-> |Hl]; [congruence|]. unfold realloc. destruct (Z.leb_spec (pb_tot_len p) (lwip_htons (ih_len h))); [|lia]. congruence. }
  destruct (hdr_reads (memory q)) as (h' & Eh' & Ev); [pose proof (re_memory _ _ Hq); lia|]. rewrite (Eq h' Eh') in *.
  assert (Hset : forall i, carried (base (ip (udp w))) (base i) -> dhcp_ok idle (set_ip w i) /\ framed w (set_ip w i)).
  { intros i Hi. apply (below_ok w); [done|]. exists i, (udp_pcbs (udp w)). by split_and!. }
  unfold to_upper. destruct (proto =? IP_PROTO_UDP).
  - wpb (udp_input_ok (udp w) q inp (ih_src h) (ih_dest h) (dhcp_pcb w inp) (ih_v_hl h) Hw (do_udp _ _ H) Hq Ev).
    { unfold dhcp_pcb. destruct (dhcp_at w inp) as [d|] eqn:Ed; [|done]. pose proof (co_pcb _ _ _ (do_client _ _ H _ _ Ed)) as Hc. destruct (d_pcb d) as [a|]; [|done].
      destruct Hc as (b & Hb & _). by exists b. }
    intros [dl u1] (Hdl & i & l & Hi & Hl & ->). assert (H1 : dhcp_ok idle (set_udp w (set_pcbs (set_ipw (udp w) i) l)) /\ framed w (set_udp w (set_pcbs (set_ipw (udp w) i) l))) by (apply (below_ok w); [done|by exists i, l]).
    destruct H1 as [H1 K1].
    destruct dl as [|[n|f arg] a k addr port]; cbn [recv_call]; [done| |].
    + destruct Hdl as [(b & Hb & Hf) (q1 & D1 & D2)]. destruct (do_recv _ _ H a b n Hb Hf) as (d & Hd & Ha).
      wpb (recv_step lw n (set_udp w (set_pcbs (set_ipw (udp w) i) l)) k); [split; [done|by exists d, a]| |].
      * apply Hpar. unfold message_of. fold q. fold (IPH_HL h) in D1. by rewrite D1.
      * intros w2 S. cbn [wp]. split_and!; [apply S|etrans; [exact K1|]|done]. eapply live_framed; [|by eapply step_kept]. split; [done|by exists d, a].
    + destruct Hdl as [(b & Hb & Hf) _]. cbn [wp]. split_and!; [done|done|]. by exists b.
  - destruct (proto =? IP_PROTO_TCP); [done|]. destruct (proto =? IP_PROTO_ICMP).
    + wpb (icmp_input_ok (ip (udp w)) q inp (ih_src h) (ih_dest h) Hw Hq); [by intros h'' ->%Eq|]. intros i Hi. cbn [wp]. split; [by apply Hset|done].
    + apply wp_bind_mono with (Q' := fun i => carried (base (ip (udp w))) (base i));
        [|intros i Hi; cbn [wp]; split; [apply Hset; eapply carried_trans; [exact Hi|apply carried_emit, Hi]|done]].
      destruct (_ && _); [|by apply carried_refl]. apply icmp_send_response_ok; [done|]. pose proof (re_memory _ _ Hq). lia.
Qed.

(** The packet in a frame, as ethernet_input passes it on. *)
Definition stripped (p : packet) (slack : list Z) (fl : Z) : pbufs :=
  of_packet match pk_chain p with
  | (t, payload) :: rest => Packet (pk_id p) ((t, drop 14 payload) :: rest) (Some (take 14 payload)) fl
  | [] => p
  end slack.

Definition not_ip (e : event) : Prop := match e with IpInput _ _ => False | _ => True end.

(** A frame is for ip_input, or it is handled in etharp.c. *)
Lemma updated_netif b n a m flags r b' : updated b n a m flags r b' -> netif_at b' = netif_at b /\ netif_list b' = netif_list b.
Proof. by intros [| |? ? ? ? ? ? ? B|? ? ? ? ? ? ? ? ? B]; [..|split; apply B|split; apply B]. Qed.

Lemma replied_static b b' n h : replied b b' n h -> nif_autoip (netif_at b n) = None -> b' = b.
Proof. intros [-> _|a Ha _ _ _ _|a Ha _ _ _ _ _ _] E; [done|unfold client in Ha; congruence..]. Qed.

Lemma ethernet_input_ok b p n : world_ok b -> pk_chain p <> [] -> wp (ethernet_input lw b p n) (fun '(_, b') => world_ok b' /\ same_flag b b' /\ (nif_autoip (netif_at b n) = None -> netif_at b' = netif_at b /\ netif_list b' = netif_list b) /\ exists es, log b' = log b ++ es /\
  (Forall not_ip es \/ exists q fl, es = [IpInput n q] /\ forall slack, of_packet q slack = stripped p slack fl)).
Proof.
  intros Hb Hp. destruct (arp_message (netif_at b n) p) as [h|] eqn:Em.
  - destruct (ethernet_input_arp lw b p n h Em) as (fl & ->). destruct (arp_message_some _ _ _ Em) as (t & payload & rest & d & s & Hc & Hl & Heth & Hh & Hf & Hok & Hm).
    wpb (etharp_arp_input_spec lw b n (nif_hwaddr (netif_at b n)) (with_flags p fl) t payload rest d s h); try done; [apply (wo_netif _ Hb)|].
    intros b' (w1 & r & w2 & _ & Hr & Hu & [B1 B2 B3 B4 B5 _ _]). cbn [wp]. pose proof (replied_quiet b w1 n h Hb Hr) as Q.
    pose proof (updated_ok _ _ _ _ _ _ _ (quiet_ok _ _ Q) Hm Hu) as [K1 K2 K3]. split; [split; [by rewrite B1|by rewrite B2|by rewrite B4]|].
    split; [intros m; rewrite B4, (proj1 (updated_netif _ _ _ _ _ _ _ Hu)); apply Q|].
    split.
    { intros Ea. destruct (updated_netif _ _ _ _ _ _ _ Hu) as [E1 E2]. rewrite B4, B5, E1, E2. by rewrite (replied_static _ _ _ _ Hr Ea). }
    destruct (quiet_log _ _ Q) as (es1 & L1 & F1 & _).
    assert (L2 : exists es2, log w2 = log w1 ++ es2 /\ Forall not_ip es2).
    { destruct Hu as [| |k e w' _ _ _ _ B|k e w' _ _ _ _ _ _ B]; [by exists []; rewrite app_nil_r|by exists []; rewrite app_nil_r|eexists; split; [apply B|]..].
      - unfold sent_q. destruct (ae_q e); repeat constructor.
      - unfold free_q. destruct (ae_q e); repeat constructor. }
    destruct L2 as (es2 & L2 & F2). exists (es1 ++ es2 ++ answer n (netif_at w2 n) (nif_hwaddr (netif_at b n)) h (drop 42 payload ++ chain_bytes rest) ++ [Drop (pk_id (with_flags p fl))]).
    split; [by rewrite B3, L2, L1, <- !app_assoc|left]. rewrite !list.Forall_app. split_and!; [|done| |by repeat constructor].
    + apply (list.Forall_impl _ _ _ F1). by intros [].
    + unfold answer. repeat case_match; repeat constructor.
  - unfold ethernet_input, arp_message in *. destruct (pk_chain p) as [|[t payload] rest] eqn:Hc; [done|].
    assert (Hdrop : world_ok (emit b [Drop (pk_id p)]) /\ same_flag b (emit b [Drop (pk_id p)]) /\ (nif_autoip (netif_at b n) = None -> netif_at (emit b [Drop (pk_id p)]) = netif_at b /\ netif_list (emit b [Drop (pk_id p)]) = netif_list b) /\ exists es, log (emit b [Drop (pk_id p)]) = log b ++ es /\ (Forall not_ip es \/ exists q fl, es = [IpInput n q] /\ forall slack, of_packet q slack = stripped p slack fl)).
    { split; [by apply emit_ok|]. split; [done|]. split; [done|]. eexists. split; [done|left]. repeat constructor. }
    destruct (Z.leb_spec (zlen payload) SIZEOF_ETH_HDR) as [L|L]; [done|]. destruct (eth_hdr_at_ok payload) as (d & s & ty & Heth & _ & _); [lia|].
    rewrite Heth in *. cbn [obind eth_type eth_dest] in *. destruct (Z.eqb_spec ty (lwip_htons ETHTYPE_IP)) as [->|E1].
    + destruct (has_flag _ _); cbn [negb]; [|done]. cbn [wp]. split; [by apply emit_ok|]. split; [done|]. split; [done|]. eexists. split; [done|right]. eexists _, _. split; [done|]. intros slack. unfold stripped. by rewrite Hc.
    + destruct (ty =? lwip_htons ETHTYPE_ARP); [|done]. destruct (has_flag _ _) eqn:Ef; cbn [negb]; [|done].
      unfold etharp_arp_input. cbn [pk_chain pk_id]. destruct (Z.ltb_spec (zlen payload) SIZEOF_ETHARP_PACKET) as [L2|L2]; [done|].
      destruct (etharp_hdr_at_ok payload L2) as (h' & Hh' & _). rewrite Hh' in *. cbn [obind andb] in *. destruct (arp_hdr_ok h'); [done|]. done.
Qed.

Lemma arp_reply_framed w n addr : dhcp_ok idle w -> wp (dhcp_arp_reply lw w n addr) (fun w' => dhcp_ok idle w' /\ framed w w').
Proof.
  intros H. pose proof (arp_reply_step lw idle n w addr H) as S. unfold dhcp_arp_reply in *. destruct (dhcp_at w n) as [d|] eqn:Hd; [|by split].
  destruct (idle_live w n d H Hd) as [[_ Es]|Hl]; [by rewrite Es in *; split|]. eapply wp_mono; [exact S|]. intros w' S'. split; [apply S'|].
  eapply live_framed; [exact Hl|by eapply step_kept].
Qed.

Lemma calls_ok slack es w : dhcp_ok idle w -> Forall not_ip es -> wp (calls lw slack es w) (fun '(_, w') => dhcp_ok idle w' /\ framed w w').
Proof.
  intros H He. revert w H. induction He as [|e es Hn _ IH]; intros w H; [done|]. destruct e; try done; cbn [calls]; try by apply IH.
  wpb (arp_reply_framed w n addr H). intros w1 [H1 F1]. eapply wp_mono; [by apply IH|]. intros [r w2] [H2 F2]. split; [done|]. by etrans.
Qed.

(** A frame that the device can read with an IP header that is not shorter than 20
    bytes and options that the DHCP client can parse. *)
Record frame_ok (p : packet) (slack : list Z) : Prop := FrameOk {
  fo_chain : pk_chain p <> [];
  fo_read : forall fl, readable 128 (stripped p slack fl);
  fo_header : forall fl h, ip_hdr_at (memory (stripped p slack fl)) = Ok h ->
    5 <= IPH_HL h /\ forall q, message_of h (stripped p slack fl) = Some q -> parses q;
}.

(** No frame harms the device: ethernet_input and all it calls return, read
    and write inside the frame, and leave every part in order. *)
Lemma frame_input_framed w n p slack : dhcp_ok idle w -> frame_ok p slack -> wp (frame_input lw w p slack n) (fun '(_, w') => dhcp_ok idle w' /\ framed w w').
Proof.
  intros H [Hp Hr Hh]. unfold frame_input. wpb (ethernet_input_ok (low w) p n (do_low _ _ H) Hp). intros [e b] (Hb & Hf & Ha & es & El & He). rewrite El, drop_app_length.
  pose proof (step_low idle n w b H Hb Hf) as S. pose proof (st_ok _ _ _ _ S) as H1.
  assert (F1 : framed w (set_low w b)) by (split; [by eapply step_kept|]; intros [_ Hs]; split; [done|apply Ha, Hs]).
  assert (Hk : wp (calls lw slack es (set_low w b)) (fun '(_, w') => dhcp_ok idle w' /\ framed (set_low w b) w')).
  { destruct He as [He|(q & fl & -> & Eq)]; [by apply calls_ok|]. cbn [calls]. rewrite Eq.
    destruct (hdr_reads (memory (stripped p slack fl))) as (h & E & _); [pose proof (re_memory _ _ (Hr fl)); lia|]. destruct (Hh fl h E) as [H5 Hpar].
    eapply wp_mono; [by apply (ip_input_ok (set_low w b) n (stripped p slack fl) h)|]. by intros [r w'] ((? & ?) & _). }
  eapply wp_mono; [exact Hk|]. intros [r w'] [H' K']. split; [done|by etrans].
Qed.

End Safety.

(** ** Witnesses: 192.168.1.10 and 192.168.1.20 on one link *)

Definition host_a : Z := IP4_ADDR 192 168 1 10.
Definition host_b : Z := IP4_ADDR 192 168 1 20.
Definition ipw_of (m a : Z) : ipw :=
  let b := host a [2; 0; 0; 0; 0; m] (replicate 10 blank) in IpW (set_netif b 0 (set_nif_flags (netif_at b 0) 0x73)) 7 (Some 0).

(** A sends from port 5000; on B a program listens at port 7. *)
Definition sender_pcb : udp_pcb := UdpPcb 0 0 0 0 UDP_TTL 0 5000 0 None.
Definition echo_pcb : udp_pcb := UdpPcb 0 0 0 0 UDP_TTL 0 7 0 (Some (AppRecv 1 2)).
Definition udp_of (i : ipw) (p : udp_pcb) : udpw := UdpW i [1] 0xc000 {[ 1 := p ]} 2.
Definition host_b_dw : dw := DW (udp_of (ipw_of 2 host_b) echo_pcb) (fun _ => None) (fun _ => 1500) 0xABCD0000 none_given.
Definition hello : pbufs := Pbufs 50 (replicate 42 0) [(PBUF_RAM, [104; 105])] [] 0.
Definition on_wire : list Z := udp_packet (ipw_of 1 host_a) 0 sender_pcb host_b 7 [104; 105].
Definition at_b : pbufs := Pbufs 60 (replicate 14 0) [(PBUF_POOL, on_wire ++ replicate 16 0)] (replicate 200 0) 0.

Lemma udp_of_ok i p : u_local_port p <> 0 -> udp_ok (udp_of i p).
Proof.
  intros Hp. split; cbn; [apply NoDup_singleton|constructor; [|constructor]; exists p; by rewrite lookup_singleton_eq| |by rewrite map_size_singleton|by unfold UDP_LOCAL_PORT_RANGE_START, UDP_LOCAL_PORT_RANGE_END].
  intros a [q Hq]. apply lookup_singleton_Some in Hq as [<- _]. lia.
Qed.

Lemma host_ok m a : world_ok (base (ipw_of m a)).
Proof. split; [apply blank_table_ok|done|]. intros n. cbn. by destruct (n =? 0). Qed.

Lemma b_listens : listens (udp host_b_dw) 0 host_a 5000 host_b 7 1 1 2.
Proof.
  split; [done| |by left|].
  - exists echo_pcb. by split_and!; [apply lookup_singleton_eq|..].
  - intros b q Hb _ _. cbn in Hb. by apply list_elem_of_singleton in Hb.
Qed.

Lemma udp_datagram_arrives_witness :
  wp (udp_sendto_if kind (udp_of (ipw_of 1 host_a) sender_pcb) 1 hello host_b 7 0) (fun '(_, us) => exists text, ip_sent kind (ipw_of 1 host_a) 0 50 host_b text (ip us) /\
    (data at_b = text ++ replicate 16 0 -> exists p' l, data p' = [104; 105] /\
      ip_input kind host_b_dw at_b 0 = Ok (Callback 1 2 1 p' host_a 5000, set_udp host_b_dw (set_pcbs (udp host_b_dw) l)))).
Proof.
  eapply wp_mono; [apply (udp_datagram_arrives kind (udp_of (ipw_of 1 host_a) sender_pcb) 1 sender_pcb hello host_b 7 0)|].
  - apply host_ok.
  - apply lookup_singleton_eq.
  - done.
  - split; [by left|apply tidy_1].
  - by vm_compute.
  - by vm_compute.
  - by split.
  - by vm_compute.
  - by vm_compute.
  - by vm_compute.
  - by split.
  - intros [e us] (text & Ht & H). exists text. split; [exact Ht|]. intros E.
    destruct (H kind host_b_dw 0 at_b (replicate 16 0) 1 1 2 E) as (p' & l & H1 & H2 & _ & _).
    + vm_compute. discriminate.
    + vm_compute. reflexivity.
    + right. split; vm_compute; reflexivity.
    + by apply udp_of_ok.
    + exact b_listens.
    + exists p', l. split; [exact H2|exact H1].
Defined.

(** B is asked with ping -s 4. *)
Definition ping_hdr : ip_hdr := IpHdr 0x45 0 (lwip_htons 32) 5 0 64 IP_PROTO_ICMP 0 host_a host_b.
Definition ping_rest : list Z := [0; 9; 0; 1; 222; 173; 190; 239].
Definition ping : pbufs := Pbufs 60 (replicate 14 0) [(PBUF_POOL, ip_hdr_bytes ping_hdr ++ ICMP_ECHO :: 0 :: 90 :: 88 :: ping_rest)] (replicate 200 0) 0.

Lemma ping_answered_witness : pings host_b_dw 0 ping ping_hdr 0 90 88 ping_rest /\
  wp (ip_input kind host_b_dw ping 0) (fun '(r, w') => r = Handled) /\ chksum_of (echo_reply (ICMP_ECHO :: 0 :: 90 :: 88 :: ping_rest)) = 0.
Proof.
  assert (H : pings host_b_dw 0 ping ping_hdr 0 90 88 ping_rest).
  { split; try (vm_compute; (reflexivity || discriminate)).
    - split; [split|..]; vm_compute; (reflexivity || (split; (reflexivity || discriminate))).
    - exists []. rewrite app_nil_r. reflexivity.
    - split; [by right|apply tidy_1].
    - split; vm_compute; reflexivity.
    - right. split; vm_compute; reflexivity.
    - repeat constructor; unfold ICMP_ECHO; lia. }
  split; [exact H|]. destruct (ping_answered kind host_b_dw 0 ping ping_hdr 0 90 88 ping_rest (host_ok 2 host_b) H) as [H1 H2]. split.
  - eapply wp_mono; [exact H1|]. by intros [r w'] [? _].
  - apply H2. intros X. apply list.Forall_cons in X as [_ X]. apply list.Forall_cons in X as [_ X]. apply list.Forall_cons in X as [X _]. discriminate X.
Defined.
