(* ===== verification/Netconf.v ===== *)
(** * The network configuration: src/Project/FreeRTOS/working/src/netconf.c

    The start of the stack, the interface of the board (the state that
    ethernetif_init and netif_add of core/netif.c leave), and the two threads
    that work on it, over the layers of [Net]: the thread of the stack
    (tcpip_thread of api/tcpip.c), which takes frames and lets the timers of
    core/timers.c run, and the thread of the application that looks for an
    address (LwIP_DHCP_task), which calls the stack directly. A run is a list
    of turns of the two in any order; a turn is not interrupted by another.
    Nothing in the code sees to that for the calls of LwIP_DHCP_task: the
    stack is not locked, and its thread has the higher priority. Theorems: a
    run is safe whatever frames come; without a server the device takes its
    static address; an address from a server is never renewed. *)

From S2P Require Import Prelude CStd Mem IpAddr Checksum Pbuf Etharp Autoip EthInput Ip Udp DhcpMsg Dhcp DhcpInv DhcpBind Net.
From stdpp Require Import gmap.
#[local] Open Scope Z_scope.

(** ** main.h, netconf.c, netif.h *)

Definition STATIC_ADDR : Z := IP4_ADDR 192 168 1 10.
Definition NETMASK_ADDR : Z := IP4_ADDR 255 255 255 0.
Definition GW_ADDR : Z := IP4_ADDR 192 168 1 1.
Definition MAC_ADDR : list Z := [0xA0; 0xCA; 0x11; 0x1A; 0x17; 0xFF].
Definition MAX_DHCP_TRIES : Z := 5.
Definition NETIF_FLAG_ETHERNET : Z := 0x40.

Inductive DHCP_State_TypeDef : Type :=
  | DHCP_START
  | DHCP_WAIT_ADDRESS
  | DHCP_ADDRESS_ASSIGNED
  | DHCP_TIMEOUT.

(** The state of LwIP_DHCP_task over the stack; [upper] is what ip_input
    leaves to TCP and to applications. *)
Record app : Type := App {
  net : dw;
  DHCP_state : DHCP_State_TypeDef;
  upper : list handled;
}.

Definition set_net (a : app) (w : dw) : app := App w (DHCP_state a) (upper a).
Definition set_dhcp_state (a : app) (w : dw) (s : DHCP_State_TypeDef) : app := App w s (upper a).
Definition add_upper (a : app) (w : dw) (h : handled) : app := App w (DHCP_state a) (upper a ++ [h]).

(** The turns of the two threads. [Packet_in] is a message of the thread
    ethernetif_input with the pbuf that low_level_input has filled, and what
    lies behind the first pbuf; without a pbuf when the frame has an error or
    the pool is empty. *)
Inductive turn : Type :=
  | Packet_in (frame : option (packet * list Z))
  | Arp_timer
  | Dhcp_timer_coarse
  | Dhcp_timer_fine
  | Dhcp_task.

Section Netconf.
Context (lw : lower).

(** ** The interface *)

(** What low_level_init writes into the structure of the interface. *)
Definition low_level_init (w : dw) (n : Z) : dw :=
  let nf := dnif w n in
  let w := set_nif w n (Netif (nif_ip_addr nf) (nif_netmask nf) (nif_gw nf) MAC_ADDR
    (Z.lor NETIF_FLAG_BROADCAST NETIF_FLAG_ETHARP) (nif_autoip nf)) in
  DW (udp w) (dhcp_at w) (fun m => if m =? n then 1500 else mtu w m) (xid w) (rx w).

Definition ethernetif_init (w : dw) (n : Z) : Z * dw := (ERR_OK, low_level_init w n).

Definition netif_add (w : dw) (n ipaddr netmask gw : Z) (init : dw -> Z -> Z * dw) : option Z * dw :=
  let w := put_dhcp (set_nif w n (Netif IPADDR_ANY IPADDR_ANY IPADDR_ANY (nif_hwaddr (dnif w n)) 0 None)) n None in
  let w := set_low w (netif_set_addr (low w) n ipaddr netmask gw) in
  let (e, w) := init w n in
  if negb (e =? ERR_OK) then (None, w)
  else
    let b := low w in
    (Some n, set_low w (World (arp_table b) (etharp_cached_entry b) (netif_at b) (n :: netif_list b) (tcp_active b) (tcp_listen b) (next_id b) (answers b) (log b))).

Definition netif_set_default (w : dw) (n : option Z) : dw := set_ip w (IpW (low w) (ip_id (ip (udp w))) n).

(** ** netconf.c *)

Section Config.
Context (USE_DHCP : bool) (netif : Z).

(** Behind tcpip_init. *)
Definition LwIP_Init (w : dw) : dw :=
  let '(ipaddr, netmask, gw) := if USE_DHCP then (0, 0, 0) else (STATIC_ADDR, NETMASK_ADDR, GW_ADDR) in
  let (_, w) := netif_add w netif ipaddr netmask gw ethernetif_init in
  let w := netif_set_default w (Some netif) in
  set_low w (netif_set_up lw (low w) netif).

(** A pass of the loop of LwIP_DHCP_task, up to its vTaskDelay; in the last
    two states the task is deleted. *)
Definition LwIP_DHCP_task (a : app) : outcome app :=
  let w := net a in
  match DHCP_state a with
  | DHCP_START =>
      let! (_, w) := dhcp_start lw w netif in
      Ok (set_dhcp_state a w DHCP_WAIT_ADDRESS)
  | DHCP_WAIT_ADDRESS =>
      let IPaddress := nif_ip_addr (dnif w netif) in
      if negb (IPaddress =? 0) then
        let! w := dhcp_stop w netif in
        Ok (set_dhcp_state a w DHCP_ADDRESS_ASSIGNED)
      else
        let! d := get_dhcp w netif in
        if MAX_DHCP_TRIES <? d_tries d then
          let! w := dhcp_stop w netif in
          Ok (set_dhcp_state a (set_low w (netif_set_addr (low w) netif STATIC_ADDR NETMASK_ADDR GW_ADDR)) DHCP_TIMEOUT)
        else Ok a
  | DHCP_ADDRESS_ASSIGNED | DHCP_TIMEOUT => Ok a
  end.

Definition searching (s : DHCP_State_TypeDef) : bool := match s with DHCP_START | DHCP_WAIT_ADDRESS => true | _ => false end.

(** The case TCPIP_MSG_INPKT of tcpip_thread. ethernetif_input posts the
    result of low_level_input without a test, and ethernet_input reads the
    length of the pbuf first. *)
Definition tcpip_thread_inpkt (a : app) (frame : option (packet * list Z)) : outcome app :=
  match frame with
  | None => UB
  | Some (p, slack) =>
      let! (h, w) :=
        if has_flag (dnif (net a) netif) (Z.lor NETIF_FLAG_ETHARP NETIF_FLAG_ETHERNET)
        then frame_input lw (net a) p slack netif
        else ip_input lw (net a) (of_packet p slack) netif in
      Ok (add_upper a w h)
  end.

Definition arp_timer (a : app) : outcome app := let! b := etharp_tmr (low (net a)) in Ok (set_net a (set_low (net a) b)).
Definition dhcp_timer_coarse (a : app) : outcome app := let! w := dhcp_coarse_tmr lw (net a) in Ok (set_net a w).
Definition dhcp_timer_fine (a : app) : outcome app := let! w := dhcp_fine_tmr lw (net a) in Ok (set_net a w).

(** main creates the task with USE_DHCP only. *)
Definition take_turn (a : app) (t : turn) : outcome app :=
  match t with
  | Packet_in frame => tcpip_thread_inpkt a frame
  | Arp_timer => arp_timer a
  | Dhcp_timer_coarse => dhcp_timer_coarse a
  | Dhcp_timer_fine => dhcp_timer_fine a
  | Dhcp_task => if USE_DHCP then LwIP_DHCP_task a else Ok a
  end.

Fixpoint run (a : app) (ts : list turn) : outcome app :=
  match ts with [] => Ok a | t :: ts => let! a := take_turn a t in run a ts end.

(** What main leaves when it starts the scheduler. *)
Definition boot (w : dw) : app := App (LwIP_Init w) DHCP_START [].

End Config.
End Netconf.

(** ** Theory: LwIP_Init *)

Section Theory.
Context (lw : lower) (netif : Z).
(** The heap and the pools are large enough. *)
Hypothesis memory_left : forall k, lw_alloc lw k = true.

Lemma initial_nif w nf : initial w -> length (nif_hwaddr nf) = 6%nat -> initial (set_nif w netif nf).
Proof.
  intros [H1 H2 H3 H4 H5 H6] Hm. split; try done; [|by destruct H3]. destruct H1 as [W1 W2 W3]. split; [done|done|]. intros m. cbn. by destruct (m =? netif).
Qed.

(** The interface behind LwIP_Init, with the address [ip]. *)
Record ready_for (w w' : dw) (ip mask gw : Z) : Prop := ReadyFor {
  rf_ok : dhcp_ok idle w';
  rf_mtu : mtu w' netif = 1500;
  rf_flag : etharp_flag (dnif w' netif) = true;
  rf_client : forall m, dhcp_at w' m = None;
  rf_blocks : pcb_at (udp w') = pcb_at (udp w) /\ udp_pcbs (udp w') = udp_pcbs (udp w);
  rf_addr : nif_ip_addr (dnif w' netif) = ip /\ nif_netmask (dnif w' netif) = mask /\ nif_gw (dnif w' netif) = gw;
  rf_up : netif_is_up (dnif w' netif) = true;
  rf_autoip : nif_autoip (dnif w' netif) = None;
  rf_others : forall m, m <> netif -> dnif w' m = dnif w m;
  rf_list : netif_list (low w') = netif :: netif_list (low w);
}.

Lemma set_addr_spec b ip mask gw : world_ok b -> let b' := netif_set_addr b netif ip mask gw in
  quiet b b' /\ others netif b b' /\ netif_at b' netif = set_gateway (set_mask (set_ip_addr (netif_at b netif) ip) mask) gw.
Proof.
  intros Hb b'. subst b'. unfold netif_set_addr.
  set (b1 := netif_set_ipaddr b netif ip). assert (Q1 : quiet b b1) by by apply quiet_set_ipaddr.
  assert (E1 : others netif b b1 /\ netif_at b1 netif = set_ip_addr (netif_at b netif) ip).
  { subst b1. unfold netif_set_ipaddr. rewrite at_set. split; [|done]. intros m Hm. rewrite others_set by done. by destruct (ip_addr_cmp _ _). }
  destruct E1 as [O1 E1]. set (b2 := netif_set_netmask b1 netif mask). assert (Q2 : quiet b1 b2) by (apply quiet_set_netif; [apply Q1|done|done]).
  split; [|split].
  - eapply quiet_trans; [exact Q1|]. eapply quiet_trans; [exact Q2|]. apply quiet_set_netif; [apply Q2|done|done].
  - intros m Hm. subst b2. unfold netif_set_gw, netif_set_netmask. rewrite !others_set by done. by apply O1.
  - subst b2. unfold netif_set_gw, netif_set_netmask. rewrite !at_set. by rewrite E1.
Qed.

Lemma init_spec (USE_DHCP : bool) w : initial w ->
  if USE_DHCP then ready_for w (LwIP_Init lw USE_DHCP netif w) 0 0 0
  else ready_for w (LwIP_Init lw USE_DHCP netif w) STATIC_ADDR NETMASK_ADDR GW_ADDR.
Proof.
  intros H. assert (G : forall ip mask gw : Z,
    ready_for w (let (_, w) := netif_add w netif ip mask gw ethernetif_init in let w := netif_set_default w (Some netif) in set_low w (netif_set_up lw (low w) netif)) ip mask gw).
  2:{ unfold LwIP_Init. destruct USE_DHCP; apply G. }
  intros ip mask gw. unfold netif_add, ethernetif_init. set (nf0 := Netif _ _ _ _ _ _). set (w0 := put_dhcp (set_nif w netif nf0) netif None).
  assert (H0 : world_ok (low w0)) by (apply set_netif_ok; [apply H|done]).
  destruct (set_addr_spec (low w0) ip mask gw H0) as (Q1 & O1 & E1). set (b1 := netif_set_addr (low w0) netif ip mask gw) in *.
  change (negb (ERR_OK =? ERR_OK)) with false. cbn match. set (w2 := low_level_init (set_low w0 b1) netif).
  set (b3 := World _ _ _ _ _ _ _ _ _). set (w3 := netif_set_default _ _).
  assert (E3 : netif_at b3 netif = Netif ip mask gw MAC_ADDR 0x22 None).
  { change (netif_at b3 netif) with (netif_at (low w2) netif). unfold w2, low_level_init. set (nf := Netif _ _ _ _ _ _). change (netif_at (set_netif b1 netif nf) netif = Netif ip mask gw MAC_ADDR 0x22 None).
    rewrite at_set. unfold nf. change (dnif (set_low w0 b1) netif) with (netif_at b1 netif). rewrite E1.
    change (netif_at (low w0) netif) with (netif_at (set_netif (low w) netif nf0) netif). by rewrite at_set. }
  assert (O3 : others netif (low w) b3).
  { intros m Hm. transitivity (netif_at b1 m); [exact (others_set b1 netif _ m Hm)|]. rewrite O1 by done. exact (others_set (low w) netif nf0 m Hm). }
  assert (Hb3 : world_ok b3).
  { destruct (quiet_ok _ _ Q1) as [W1 W2 W3]. split; [exact W1|exact W2|]. intros m. destruct (decide (m = netif)) as [->|Hm]; [by rewrite E3|]. rewrite O3 by done. by apply H. }
  destruct (set_up_at lw b3 netif) as (O4 & U4 & (fl & E4) & L4). pose proof (quiet_up lw b3 netif Hb3) as Q4. change (low w3) with b3. set (b4 := netif_set_up lw b3 netif) in *.
  assert (H4 : initial (set_low w3 b4)).
  { destruct H as [I1 I2 I3 I4 I5 I6]. split; try done.
    - apply Q4.
    - intros m. cbn. by destruct (m =? netif).
    - by destruct I3.
    - intros m. cbn. by destruct (m =? netif). }
  split.
  - by apply initial_ok.
  - cbn. by rewrite Z.eqb_refl.
  - change (etharp_flag (netif_at b4 netif) = true). destruct (quiet_netif _ _ Q4 netif) as [_ ->]. by rewrite E3.
  - apply H4.
  - done.
  - change (nif_ip_addr (netif_at b4 netif) = ip /\ nif_netmask (netif_at b4 netif) = mask /\ nif_gw (netif_at b4 netif) = gw). by rewrite E4, E3.
  - exact U4.
  - change (nif_autoip (netif_at b4 netif) = None). by rewrite E4, E3.
  - intros m Hm. transitivity (netif_at b3 m); [by apply O4|by apply O3].
  - change (netif_list b4 = netif :: netif_list (low w)). rewrite L4. change (netif :: netif_list b1 = netif :: netif_list (low w)). f_equal. rewrite (quiet_list _ _ Q1). done.
Qed.

(** ** Theory: a run is safe *)

(** The client is there while the state machine waits for an address. *)
Record fit (w : dw) (s : DHCP_State_TypeDef) : Prop := Fit {
  fi_ok : dhcp_ok idle w;
  fi_flag : etharp_flag (dnif w netif) = true;
  fi_mtu : DHCP_MAX_MSG_LEN_MIN_REQUIRED <= mtu w netif;
  fi_client : s = DHCP_WAIT_ADDRESS -> is_Some (dhcp_at w netif);
}.
Definition app_ok (a : app) : Prop := fit (net a) (DHCP_state a).

Lemma fit_kept w w' s : fit w s -> dhcp_ok idle w' -> kept w w' -> fit w' s.
Proof. intros [F1 F2 F3 F4] H [K1 K2 K3]. split; [done|by rewrite K3|by rewrite K2|]. intros E. by apply K1, F4. Qed.

Lemma fit_done w s s' : fit w s -> s' <> DHCP_WAIT_ADDRESS -> fit w s'.
Proof. intros [F1 F2 F3 F4] H. by split. Qed.

Lemma quiet_kept w b : quiet (low w) b -> kept w (set_low w b).
Proof. intros Q. split; [done|done|]. intros m. apply Q. Qed.

Lemma set_addr_fit w s ip mask gw : fit w s -> fit (set_low w (netif_set_addr (low w) netif ip mask gw)) s.
Proof.
  intros F. destruct (set_addr_spec (low w) ip mask gw (do_low _ _ (fi_ok _ _ F))) as (Q & _ & _).
  eapply fit_kept; [exact F| |by apply quiet_kept]. eapply st_ok, (step_quiet idle netif); [apply F|exact Q].
Qed.

Lemma task_ok a : app_ok a -> wp (LwIP_DHCP_task lw netif a) app_ok.
Proof.
  intros F. unfold app_ok in *. unfold LwIP_DHCP_task. destruct (DHCP_state a) eqn:Es.
  - wpb (dhcp_start_ok lw (net a) netif (fi_ok _ _ F)). intros [r w1] (H1 & K1 & Hc). cbn [wp]. pose proof (fit_kept _ _ _ F H1 K1) as [F1 F2 F3 _]. split; [done|done|done|].
    intros _. apply Hc; [apply F|apply F|apply memory_left].
  - assert (Hstop : forall s', s' <> DHCP_WAIT_ADDRESS -> wp (dhcp_stop (net a) netif) (fun w => fit w s')).
    { intros s' Hs. eapply wp_mono; [apply stop_ok, F|]. intros w1 (H1 & K1 & _). eapply fit_done; [by eapply fit_kept|done]. }
    destruct (negb _).
    + wpb (Hstop DHCP_ADDRESS_ASSIGNED); [done|]. intros w1 F1. exact F1.
    + destruct (fi_client _ _ F eq_refl) as [d Hd]. unfold get_dhcp. rewrite Hd. cbn [obind]. destruct (_ <? _); [|by cbn [wp]; rewrite Es].
      wpb (Hstop DHCP_TIMEOUT); [done|]. intros w1 F1. cbn [wp]. by apply set_addr_fit.
  - cbn [wp]. by rewrite Es.
  - cbn [wp]. by rewrite Es.
Qed.

Lemma timer_fit ns body a : (forall n w, dhcp_ok idle w -> wp (body w n) (step idle n w)) -> app_ok a ->
  wp (each_netif ns body (net a)) (fun w => fit w (DHCP_state a)).
Proof.
  intros Hb F. eapply wp_mono; [apply each_netif_kept; [exact Hb|apply F]|]. intros w [H K]. by eapply fit_kept.
Qed.

Lemma arp_tmr_carried b : world_ok b -> wp (etharp_tmr b) (carried b).
Proof.
  intros Hb. destruct (etharp_tmr_eq b (wo_table _ Hb)) as (b' & -> & B & Ht). cbn [wp]. eapply carried_became; [exact B|]. eapply became_ok; [exact B|done|done|apply Hb].
Qed.

Lemma carried_step w b : dhcp_ok idle w -> carried (low w) b -> step idle netif w (set_low w b).
Proof. intros H C. apply step_low; [done|apply C|]. intros m. by rewrite (ca_netif _ _ C). Qed.

Lemma ethernet_flags nf : etharp_flag nf = true -> has_flag nf (Z.lor NETIF_FLAG_ETHARP NETIF_FLAG_ETHERNET) = true.
Proof.
  unfold etharp_flag, has_flag. rewrite !negb_true_iff, !Z.eqb_neq. intros H E. apply H. rewrite Z.land_lor_distr_r in E. by apply Z.lor_eq_0_iff in E as [E _].
Qed.

Lemma turn_packet a p slack : etharp_flag (dnif (net a) netif) = true ->
  tcpip_thread_inpkt lw netif a (Some (p, slack)) = let! (h, w) := frame_input lw (net a) p slack netif in Ok (add_upper a w h).
Proof. intros H. unfold tcpip_thread_inpkt. by rewrite ethernet_flags. Qed.

(** A frame without a pbuf: the thread of the stack follows a NULL pointer. *)
Example no_pbuf_crashes USE_DHCP a ts : run lw USE_DHCP netif a (Packet_in None :: ts) = UB.
Proof. reflexivity. Qed.

(** What comes in: a frame that can be read, in a pbuf. *)
Definition turn_ok (t : turn) : Prop := match t with Packet_in None => False | Packet_in (Some (p, slack)) => frame_ok p slack | _ => True end.

Lemma turn_safe (USE_DHCP : bool) a t : app_ok a -> turn_ok t -> wp (take_turn lw USE_DHCP netif a t) app_ok.
Proof.
  intros F Ht. destruct t as [[[p slack]|]| | | |]; cbn [take_turn turn_ok] in *.
  - rewrite turn_packet by apply F. pose proof (frame_input_framed lw (net a) netif p slack (fi_ok _ _ F) Ht) as Hf.
    destruct (frame_input lw (net a) p slack netif) as [[h w]| |]; [|done..]. cbn [wp obind] in *. destruct Hf as [H [K _]]. by eapply (fit_kept (net a)).
  - done.
  - unfold arp_timer. wpb (arp_tmr_carried (low (net a)) (do_low _ _ (fi_ok _ _ F))). intros b C.
    pose proof (carried_step _ _ (fi_ok _ _ F) C) as S. eapply fit_kept; [exact F|apply S|by eapply step_kept].
  - unfold dhcp_timer_coarse. wpb (timer_fit (netif_list (low (net a))) (coarse_tmr_netif lw) a (fun n w => coarse_step lw n w) F). intros w F1. exact F1.
  - unfold dhcp_timer_fine. wpb (timer_fit (netif_list (low (net a))) (fine_tmr_netif lw) a (fun n w => fine_step lw n w) F). intros w F1. exact F1.
  - destruct USE_DHCP; [by apply task_ok|done].
Qed.

Lemma run_safe (USE_DHCP : bool) a ts : app_ok a -> Forall turn_ok ts -> wp (run lw USE_DHCP netif a ts) app_ok.
Proof.
  intros F Hi. revert a F. induction Hi as [|t ts Ht _ IH]; intros a F; [done|]. cbn [run]. wpb (turn_safe USE_DHCP a t F Ht). apply IH.
Qed.

Lemma netconf_boot_ok (USE_DHCP : bool) w : initial w -> app_ok (boot lw USE_DHCP netif w).
Proof.
  intros H. pose proof (init_spec USE_DHCP w H) as I. unfold app_ok, boot. cbn [net DHCP_state].
  destruct USE_DHCP; destruct I as [I1 I2 I3 _ _ _ _ _ _ _]; (split; [done|done|by rewrite I2|done]).
Qed.

(** C14: the network part of the program is safe, from LwIP_Init on, with
    DHCP and without: whatever turns the thread of the stack and
    LwIP_DHCP_task take, in any order (frames of any bytes, the timers of ARP
    and DHCP at any moment, passes of the task), ethernet_input and all it
    calls (ARP, IP, UDP, ICMP, the DHCP client, and the answers they send),
    the timers and the state machine of netconf.c return, read and write
    inside the frames and follow no NULL pointer. A TCP segment and a datagram
    for a program are handed out as results: what TCP and the programs do with
    them, and their calls into the stack, are not part of it. Provided that a call of the
    task into the stack is not interrupted by the thread of the stack; that
    every allocation of the stack succeeds; that every frame has got a pbuf
    (without one the thread of the stack follows a NULL pointer), of the pool
    or the heap and with no empty piece at its end, whose first piece has 128
    readable bytes behind the Ethernet header, as the buffers of the pool
    have, and holds the whole frame or that many bytes of it; that an IP
    header is not shorter than 20 bytes; and that the DHCP client can parse
    the options of a message to its port. *)
Theorem netconf_main_safe (USE_DHCP : bool) w ts : initial w -> Forall turn_ok ts ->
  wp (run lw USE_DHCP netif (boot lw USE_DHCP netif w) ts) (fun a => dhcp_ok idle (net a)).
Proof. intros H Hi. eapply wp_mono; [by apply run_safe; [apply netconf_boot_ok|]|]. intros a F. apply F. Qed.

(** ** Theory: the way to an address *)

(** The interface is the only one, with the only client, without AUTOIP. *)
Record alone (w : dw) : Prop := Alone {
  al_ok : dhcp_ok idle w;
  al_list : netif_list (low w) = [netif];
  al_clients : forall m, m <> netif -> dhcp_at w m = None;
  al_autoip : forall m, nif_autoip (dnif w m) = None;
  al_flag : etharp_flag (dnif w netif) = true;
}.

Lemma alone_same w w' : alone w -> dhcp_ok idle w' -> netif_list (low w') = netif_list (low w) -> (forall m, nif_autoip (dnif w' m) = nif_autoip (dnif w m)) ->
  (forall m, m <> netif -> dhcp_at w' m = dhcp_at w m) -> etharp_flag (dnif w' netif) = etharp_flag (dnif w netif) -> alone w'.
Proof. intros [A0 A1 A2 A3 A4] H E1 E2 E3 E4. split; [done|congruence|intros m Hm; rewrite E3; auto|intros m; by rewrite E2|by rewrite E4]. Qed.

Lemma alone_low w b : alone w -> carried (low w) b -> alone (set_low w b).
Proof.
  intros A C. assert (E : forall m, dnif (set_low w b) m = dnif w m) by (intros m; unfold dnif; by rewrite <- (ca_netif _ _ C)).
  apply (alone_same w); [done|eapply st_ok, carried_step; [apply A|done]|apply C| |done|by rewrite E]. intros m. by rewrite E.
Qed.

Lemma alone_put w d d' : alone w -> dhcp_at w netif = Some d -> d_pcb d' = d_pcb d -> d_p_out d' = d_p_out d -> d_msg_in d' = d_msg_in d ->
  d_state d' = d_state d -> d_lease d' = d_lease d -> alone (put_dhcp w netif (Some d')).
Proof.
  intros A Hd E1 E2 E3 E4 E5. apply (alone_same w); [done|by eapply (st_ok _ netif), (step_timer netif w d d'); [apply A|..]|done|done| |done]. intros m Hm. cbn. by destruct (Z.eqb_spec m netif).
Qed.

Lemma coarse_spec w d : netif_list (low w) = [netif] -> dhcp_at w netif = Some d -> leased (d_state d) = false ->
  exists t1 t2, dhcp_coarse_tmr lw w = Ok (put_dhcp w netif (Some (set_t12 d t1 t2))).
Proof.
  intros Hn Hd Hs. unfold dhcp_coarse_tmr. rewrite Hn. cbn [each_netif]. unfold coarse_tmr_netif. rewrite Hd.
  destruct (_ =? 1); [|destruct (_ =? 1)]; unfold dhcp_t1_timeout, dhcp_t2_timeout; rewrite ?get_put; cbn [obind]; (change (d_state (set_t12 d _ _)) with (d_state d) || idtac); rewrite ?Hs; by eexists _, _.
Qed.

(** Nothing looks for an address: the interface is [nf] and stays it. *)
Record resting (w : dw) (nf : Etharp.netif) : Prop := Resting {
  re_alone : alone w;
  re_off : forall d, dhcp_at w netif = Some d -> d_pcb d = None;
  re_netif : dnif w netif = nf;
}.

Lemma resting_off w nf d : resting w nf -> dhcp_at w netif = Some d -> d_state d = DHCP_OFF.
Proof.
  intros R Hd. destruct (do_client _ _ (al_ok _ (re_alone _ _ R)) _ _ Hd) as [_ _ C _]. by rewrite (re_off _ _ R _ Hd) in C.
Qed.

Lemma resting_low w nf b : resting w nf -> carried (low w) b -> resting (set_low w b) nf.
Proof. intros [R1 R2 R3] C. split; [by apply alone_low|done|]. rewrite <- R3. unfold dnif. by rewrite <- (ca_netif _ _ C). Qed.

Lemma resting_put w nf d d' : resting w nf -> dhcp_at w netif = Some d -> d_pcb d' = d_pcb d -> d_p_out d' = d_p_out d -> d_msg_in d' = d_msg_in d ->
  d_state d' = d_state d -> d_lease d' = d_lease d -> resting (put_dhcp w netif (Some d')) nf.
Proof.
  intros [R1 R2 R3] Hd E1 E2 E3 E4 E5. split; [by eapply alone_put| |done]. intros x. rewrite put_at. intros [= <-]. rewrite E1. by apply R2.
Qed.

Lemma resting_stopped w nf : resting w nf -> stopped w.
Proof.
  intros [[A0 A1 A2 A3 _] R2 R3]. split; [|done]. intros m d Hd. destruct (decide (m = netif)) as [->|Hm]; [by apply R2|]. by rewrite A2 in Hd.
Qed.

Lemma resting_timers w nf : resting w nf -> wp (dhcp_fine_tmr lw w) (fun w' => resting w' nf) /\ wp (dhcp_coarse_tmr lw w) (fun w' => resting w' nf).
Proof.
  intros R. pose proof (al_list _ (re_alone _ _ R)) as Hn. destruct (dhcp_at w netif) as [d|] eqn:Hd.
  - pose proof (resting_off _ _ _ R Hd) as Es. split.
    + apply (fine_one lw w netif _ Hn). unfold fine_tmr_netif. rewrite Hd. destruct (1 <? _); [by apply (resting_put w nf d)|]. destruct (_ =? 1); [|done].
      unfold dhcp_timeout. rewrite get_put. cbn [obind]. change (d_state (set_request_timeout d 0)) with (d_state d). rewrite Es. by apply (resting_put w nf d).
    + destruct (coarse_spec w d Hn Hd) as (t1 & t2 & ->); [by rewrite Es|]. by apply (resting_put w nf d).
  - split; [apply (fine_one lw w netif _ Hn)|unfold dhcp_coarse_tmr; rewrite Hn; cbn [each_netif]]; unfold fine_tmr_netif, coarse_tmr_netif; by rewrite Hd.
Qed.

Definition rests (nf : Etharp.netif) (s : DHCP_State_TypeDef) (a : app) : Prop := resting (net a) nf /\ DHCP_state a = s.

Lemma alone_arp w : alone w -> wp (etharp_tmr (low w)) (fun b => carried (low w) b).
Proof. intros A. apply arp_tmr_carried, A. Qed.

(** Whatever frames come. *)
Lemma turn_resting a t nf s : searching s = false -> etharp_flag nf = true -> rests nf s a -> turn_ok t -> wp (take_turn lw true netif a t) (rests nf s).
Proof.
  intros Hs Hf [R E] Ht. destruct t as [[[p slack]|]| | | |]; cbn [take_turn turn_ok] in *.
  - rewrite turn_packet by (by rewrite (re_netif _ _ R)). pose proof (frame_input_framed lw (net a) netif p slack (al_ok _ (re_alone _ _ R)) Ht) as Hfr.
    destruct (frame_input lw (net a) p slack netif) as [[h w]| |]; [|done..]. cbn [wp obind] in *.
    destruct Hfr as [H [_ U]]. split; [|done]. destruct (U (resting_stopped _ _ R)) as (U1 & U2 & U3). destruct R as [R1 R2 R3].
    split; [|intros d; cbn [net add_upper]; rewrite U1; apply R2|].
    + apply (alone_same (net a)); [done|done|done| | |]; cbn [net add_upper]; [intros m; unfold dnif; by rewrite U2|intros m _; by rewrite U1|unfold dnif; by rewrite U2].
    + cbn [net add_upper]. rewrite <- R3. unfold dnif. by rewrite U2.
  - done.
  - unfold arp_timer. wpb (alone_arp (net a) (re_alone _ _ R)). intros b C. split; [by apply resting_low|done].
  - unfold dhcp_timer_coarse. by wpb (proj2 (resting_timers _ _ R)).
  - unfold dhcp_timer_fine. by wpb (proj1 (resting_timers _ _ R)).
  - unfold LwIP_DHCP_task. rewrite E. destruct s; [discriminate Hs..|by split|by split].
Qed.

Lemma run_resting a nf s ts : searching s = false -> etharp_flag nf = true -> rests nf s a -> Forall turn_ok ts -> wp (run lw true netif a ts) (rests nf s).
Proof.
  intros Hs Hf R Hi. revert a R. induction Hi as [|t ts Ht _ IH]; intros a R; [done|]. cbn [run]. eapply wp_bind_mono; [by apply turn_resting|exact IH].
Qed.

(** dhcp_stop: what is left is at rest but for the flag. *)
Definition without_dhcp (nf : Etharp.netif) : Etharp.netif := set_nif_flags nf (Z.land (nif_flags nf) (Z.lnot NETIF_FLAG_DHCP)).

Lemma stop_rests w : alone w -> wp (dhcp_stop w netif) (fun w' => resting w' (without_dhcp (dnif w netif))).
Proof.
  intros A. eapply wp_mono; [apply stop_ok, A|]. intros w' (H & K & Hp & El & Ec).
  assert (Ea : dnif w' netif = without_dhcp (dnif w netif)) by (unfold dnif; rewrite El; apply at_set). split.
  - apply (alone_same w); [done|done|by rewrite El| |done|apply K]. intros m. destruct (decide (m = netif)) as [->|Hm]; [by rewrite Ea|].
    unfold dnif. rewrite El. f_equal. exact (others_set (low w) netif _ m Hm).
  - intros d Hd. by rewrite Hd in Hp.
  - exact Ea.
Qed.

(** ** An address from a server *)

(** The client has asked twice whether somebody has the address [d] offers. *)
Record checked (w : dw) (d : dhcp) : Prop := Checked {
  ck_alone : alone w;
  ck_at : dhcp_at w netif = Some d;
  ck_state : d_state d = DHCP_CHECKING;
  ck_block : d_pcb d <> None;
  ck_ticks : d_request_timeout d = 1;
  ck_tries : 1 < d_tries d;
  ck_addr : offered_ip_addr (d_lease d) <> 0;
}.

(** The address, the mask and the gateway of the lease [l]. *)
Definition leases (l : lease) (nf : Etharp.netif) : Prop :=
  nif_ip_addr nf = offered_ip_addr l /\ nif_netmask nf = bound_mask l /\ nif_gw nf = bound_gw l.

Lemma checked_low w d b : checked w d -> carried (low w) b -> checked (set_low w b) d.
Proof. intros [C1 C2 C3 C4 C5 C6 C7] C. split; try done. by apply alone_low. Qed.

Lemma checked_fine w d : checked w d -> wp (dhcp_fine_tmr lw w) (fun w' => alone w' /\ leases (d_lease d) (dnif w' netif)).
Proof.
  intros [A Hd Hs Hb Ht Hk Ha]. assert (Hl : live idle netif w) by (split; [apply A|]; destruct (d_pcb d) as [b|] eqn:Eb; [by exists d, b|done]).
  pose proof (fine_step lw netif w (al_ok _ A)) as S. pose proof (tick_binds lw w netif d Hl Hd Hs Ht Hk) as B. apply (fine_one lw w netif _ (al_list _ A)).
  destruct (fine_tmr_netif lw w netif) as [w'| |]; [|done..]. cbn [wp] in *. destruct B as (d' & _ & _ & _ & [C1 C2 C3 C4 C5 C6 C7] & L). split; [|done].
  apply (alone_same w); [done|apply S|done| |apply S|by eapply step_kept]. intros m. destruct (decide (m = netif)) as [->|Hm]; [done|by rewrite C7].
Qed.

(** C16: an address is used, and its lease is forgotten. When nobody has
    answered for the address that a server has leased, the next fine tick
    gives it to the interface with the mask and the gateway of the lease, and
    the pass of LwIP_DHCP_task behind it stops the DHCP client. Whatever turns
    follow, frames of any bytes and however many ticks, the interface keeps
    the three, and there is no client that would renew the lease: not when it
    runs out, nor when the server takes it back. Provided that the interface
    is an Ethernet interface, the only one and without AUTOIP, that the address
    is not 0, that the task is not interrupted by the thread of the stack, that
    allocations succeed, and that the frames are as for a safe run (in a pbuf,
    readable, with an IP header of at least 20 bytes and options that can be
    parsed). *)
Theorem netconf_keeps_address a d ts : checked (net a) d -> DHCP_state a = DHCP_WAIT_ADDRESS -> Forall turn_ok ts ->
  wp (run lw true netif a (Dhcp_timer_fine :: Dhcp_task :: ts)) (fun a' =>
    DHCP_state a' = DHCP_ADDRESS_ASSIGNED /\ leases (d_lease d) (dnif (net a') netif) /\
    forall m d', dhcp_at (net a') m = Some d' -> d_state d' = DHCP_OFF /\ d_pcb d' = None).
Proof.
  intros C Hs Hi. cbn [run take_turn]. unfold dhcp_timer_fine. eapply wp_bind_mono with (Q' := fun a1 => alone (net a1) /\ leases (d_lease d) (dnif (net a1) netif) /\ DHCP_state a1 = DHCP_WAIT_ADDRESS).
  { wpb (checked_fine _ _ C). intros w [A L]. by cbn. }
  intros a1 (A & L & E). eapply wp_bind_mono with (Q' := fun a2 => exists nf, leases (d_lease d) nf /\ etharp_flag nf = true /\ rests nf DHCP_ADDRESS_ASSIGNED a2).
  { unfold LwIP_DHCP_task. rewrite E. destruct (Z.eqb_spec (nif_ip_addr (dnif (net a1) netif)) 0) as [E0|_]; [exfalso; apply (ck_addr _ _ C); destruct L; congruence|]. cbn [negb].
    wpb (stop_rests (net a1) A). intros w' R. cbn [wp]. exists (without_dhcp (dnif (net a1) netif)). split; [exact L|]. split; [|by split]. rewrite <- (re_netif _ _ R). apply R. }
  intros a2 (nf & L2 & Hf & R). eapply wp_mono; [by apply (run_resting a2 nf DHCP_ADDRESS_ASSIGNED ts)|]. intros a3 [R3 S3]. split_and!; [done|by rewrite (re_netif _ _ R3)|].
  intros m d' Hm. destruct (decide (m = netif)) as [->|Hne]; [split; [by eapply resting_off|by apply (re_off _ _ R3)]|]. by rewrite (al_clients _ (re_alone _ _ R3)) in Hm.
Qed.

(** ** No server *)

Record starting (w : dw) : Prop := Starting {
  sr_alone : alone w;
  sr_ready : ready w netif;
  sr_addr : nif_ip_addr (dnif w netif) = 0;
}.

(** The ticks up to the DISCOVER number [k]. *)
Definition ticks_before (k : Z) : Z := if k <=? 6 then 2 ^ (k + 1) - 4 else 124 + 120 * (k - 6).

Lemma small_tries k : 1 <= k <= 5 -> k = 1 \/ k = 2 \/ k = 3 \/ k = 4 \/ k = 5.
Proof. lia. Qed.

Lemma ticks_next k : 1 <= k -> ticks_before (k + 1) = ticks_before k + discover_wait k.
Proof.
  intros Hk. unfold ticks_before, discover_wait. destruct (Z.leb_spec 6 k).
  - destruct (Z.ltb_spec k 6), (Z.leb_spec (k + 1) 6), (Z.leb_spec k 6); try lia. by replace k with 6 by lia.
  - by destruct (small_tries k) as [->|[->|[->|[->| ->]]]]; [lia|..].
Qed.

Lemma sixth_discover k t : 1 <= k -> 1 <= t <= discover_wait k -> (MAX_DHCP_TRIES <? k) = (124 <=? ticks_before k + discover_wait k - t).
Proof.
  intros Hk Ht. unfold MAX_DHCP_TRIES. destruct (Z.leb_spec 6 k).
  - unfold ticks_before, discover_wait in *. destruct (Z.ltb_spec k 6); [lia|]. destruct (Z.ltb_spec 5 k); [|lia]. symmetry. apply Z.leb_le.
    destruct (Z.leb_spec k 6); [replace k with 6 by lia; cbn; lia|lia].
  - destruct (Z.ltb_spec 5 k); [lia|]. symmetry. apply Z.leb_gt. pose proof (ticks_next k Hk). assert (ticks_before (k + 1) <= 124); [|lia].
    by destruct (small_tries k) as [->|[->|[->|[->| ->]]]]; [lia|..].
Qed.

(** The client asks for offers, [n] fine ticks after its first DISCOVER. *)
Inductive asking (w : dw) (n : Z) : Prop :=
  | Asking d a p : alone w -> nif_ip_addr (dnif w netif) = 0 -> dhcp_at w netif = Some d -> d_pcb d = Some a -> pcb_at (udp w) !! a = Some p ->
      d_state d = DHCP_SELECTING -> 1 <= d_tries d <= 255 -> 1 <= d_request_timeout d <= discover_wait (d_tries d) ->
      n = ticks_before (d_tries d) + discover_wait (d_tries d) - d_request_timeout d -> asking w n.

Definition static (nf : Etharp.netif) : Prop := nif_ip_addr nf = STATIC_ADDR /\ nif_netmask nf = NETMASK_ADDR /\ nif_gw nf = GW_ADDR.

(** Where the search for an address is, without a frame: before the first
    pass of the task; [n] fine ticks behind it; given up at a pass behind the
    124th tick. The count of DISCOVERs is a byte: at the tick 30124 it is 0
    again. *)
Inductive search : Type :=
  | Unasked
  | Asked (n : Z)
  | Settled
  | Overflown.

Definition advance (s : search) (t : turn) : search :=
  match s, t with
  | Unasked, Dhcp_task => Asked 0
  | Asked n, Dhcp_timer_fine => if n + 1 <? 30124 then Asked (n + 1) else Overflown
  | Asked n, Dhcp_task => if 124 <=? n then Settled else s
  | _, _ => s
  end.

Inductive progress (a : app) : search -> Prop :=
  | progress_start : starting (net a) -> DHCP_state a = DHCP_START -> progress a Unasked
  | progress_ask n : asking (net a) n -> DHCP_state a = DHCP_WAIT_ADDRESS -> progress a (Asked n)
  | progress_static nf : rests nf DHCP_TIMEOUT a -> etharp_flag nf = true -> static nf -> progress a Settled.

Definition is_packet (t : turn) : bool := match t with Packet_in _ => true | _ => false end.

Lemma asking_live w n : asking w n -> live idle netif w.
Proof. intros [d a p A _ Hd Ha _ _ _ _ _]. split; [apply A|by exists d, a]. Qed.

Lemma starting_low w b : starting w -> carried (low w) b -> starting (set_low w b).
Proof.
  intros [A [R1 R2 R3 R4 R5] Ha] C. assert (E : dnif (set_low w b) = dnif w) by (unfold dnif; by rewrite <- (ca_netif _ _ C)).
  split; [by apply alone_low| |by rewrite E]. split; try done. by rewrite E.
Qed.

Lemma asking_low w n b : asking w n -> carried (low w) b -> asking (set_low w b) n.
Proof.
  intros [d a p A Ha Hd Hp Hb Hs Hk Ht Hr] C. assert (E : dnif (set_low w b) = dnif w) by (unfold dnif; by rewrite <- (ca_netif _ _ C)).
  apply (Asking _ _ d a p); try done; [by apply alone_low|by rewrite E].
Qed.

Lemma starting_timers w : starting w -> dhcp_coarse_tmr lw w = Ok w /\ dhcp_fine_tmr lw w = Ok w.
Proof.
  intros S. pose proof (al_list _ (sr_alone _ S)) as Hn. pose proof (rd_none _ _ (sr_ready _ S)) as E.
  unfold dhcp_coarse_tmr, dhcp_fine_tmr. rewrite Hn. cbn [each_netif]. unfold coarse_tmr_netif, fine_tmr_netif. by rewrite E.
Qed.

Lemma asking_coarse w n : asking w n -> wp (dhcp_coarse_tmr lw w) (fun w' => asking w' n).
Proof.
  intros [d a p A Ha Hd Hp Hb Hs Hk Ht Hr]. destruct (coarse_spec w d (al_list _ A) Hd) as (t1 & t2 & ->); [by rewrite Hs|]. cbn [wp].
  apply (Asking _ _ (set_t12 d t1 t2) a p); try done; [by apply (alone_put w d)|apply put_at].
Qed.

Lemma asking_fine w n : n + 1 < 30124 -> asking w n -> wp (dhcp_fine_tmr lw w) (fun w' => asking w' (n + 1)).
Proof.
  intros Hn2 Hask. pose proof (asking_live _ _ Hask) as Hl. destruct Hask as [d a p A Ha Hd Hp Hb Hs Hk Ht Hr]. pose proof (al_list _ A) as Hn.
  destruct (decide (d_request_timeout d = 1)) as [E1|E1].
  - pose proof (asks_again lw memory_left w netif d a p Hl Hn Hd Hp Hb (or_introl Hs) E1) as Hag.
    pose proof (fine_one lw w netif _ Hn (fine_step lw netif w (al_ok _ A))) as Hst.
    destruct (dhcp_fine_tmr lw w) as [w'| |]; [|done..]. cbn [wp] in *. destruct Hag as (d' & [P1 P2 P3 P4 P5 P6 P7 P8] & Q1 & Q2 & Q3 & _).
    rewrite bool_decide_eq_true_2 in P4 by done. pose proof (ticks_next (d_tries d) (proj1 Hk)) as Hx.
    assert (Hlt : d_tries d < 255) by (destruct (Z.eq_dec (d_tries d) 255) as [E|]; [rewrite E in *; change (ticks_before (255 + 1)) with 30124 in Hx; lia|lia]).
    rewrite u8_small in P4 by lia. assert (E : dnif w' = dnif w) by (unfold dnif; by rewrite P7).
    assert (A' : alone w') by (apply (alone_same w); [done|apply Hst|done|intros m; by rewrite E|apply Hst|by rewrite E]).
    apply (Asking _ _ d' a p); try done; [by rewrite E|by rewrite Q2|lia|lia|]. rewrite P5, P4. lia.
  - assert (Ef : wp (dhcp_fine_tmr lw w) (fun w1 => w1 = put_dhcp w netif (Some (set_request_timeout d (d_request_timeout d - 1))))).
    { apply (fine_one lw w netif _ Hn). unfold fine_tmr_netif. rewrite Hd. by destruct (Z.ltb_spec 1 (d_request_timeout d)); [|lia]. }
    eapply wp_mono; [exact Ef|]. intros w1 ->.
    apply (Asking _ _ (set_request_timeout d (d_request_timeout d - 1)) a p); try done; [by apply (alone_put w d)|apply put_at|cbn; lia|cbn; lia].
Qed.

Lemma task_start a : starting (net a) -> DHCP_state a = DHCP_START -> wp (LwIP_DHCP_task lw netif a) (fun a' => progress a' (Asked 0)).
Proof.
  intros [A R Ha] Hs. unfold LwIP_DHCP_task. rewrite Hs. pose proof (dhcp_start_ok lw (net a) netif (al_ok _ A)) as Hk.
  pose proof (start_spec lw memory_left (net a) netif (al_ok _ A) R) as Hsp. destruct (dhcp_start lw (net a) netif) as [[e w']| |]; [|done..]. cbn [wp obind] in *.
  destruct Hk as (_ & K & _). destruct Hsp as (-> & b & d & [S1 S2 [S3 S3'] S4 S5 S6 S7 [fl S8] S9 S10 S11 S12 S13]). apply progress_ask; [|done]. cbn [net set_dhcp_state].
  apply (Asking _ _ d b (client_pcb DHCP_CLIENT_PORT netif)); try done; [|by rewrite S8|lia|rewrite S5, S6; by split|by rewrite S5, S6].
  apply (alone_same (net a)); [done|apply S1|done| |done|apply K]. intros m. destruct (decide (m = netif)) as [->|Hm]; [by rewrite S8|by rewrite S10].
Qed.

Lemma set_addr_rests w nf : resting w nf -> exists nf', resting (set_low w (netif_set_addr (low w) netif STATIC_ADDR NETMASK_ADDR GW_ADDR)) nf' /\ static nf'.
Proof.
  intros [A R2 R3]. pose proof (set_addr_spec (low w) STATIC_ADDR NETMASK_ADDR GW_ADDR (do_low _ _ (al_ok _ A))) as (Q & O & E). set (b := netif_set_addr _ _ _ _ _) in *.
  eexists. split; [split; [|exact R2|exact E]|by split_and!]. apply (alone_same w); [done|eapply (st_ok _ netif), step_quiet; [apply A|done]|apply Q| |done|apply Q].
  intros m. unfold dnif. change (low (set_low w b)) with b. destruct (decide (m = netif)) as [->|Hm]; [by rewrite E|by rewrite O].
Qed.

Lemma task_ask a n : asking (net a) n -> DHCP_state a = DHCP_WAIT_ADDRESS ->
  wp (LwIP_DHCP_task lw netif a) (fun a' => progress a' (if 124 <=? n then Settled else Asked n)).
Proof.
  intros Hask Hs. pose proof Hask as [d b p A Ha Hd Hp Hb Hst Hk Ht Hr]. unfold LwIP_DHCP_task. rewrite Hs, Ha. change (negb (0 =? 0)) with false. cbn match.
  unfold get_dhcp. rewrite Hd. cbn [obind]. rewrite (sixth_discover _ _ (proj1 Hk) Ht), <- Hr. destruct (124 <=? n); [|by apply progress_ask].
  wpb (stop_rests (net a) A). intros w R. cbn [wp]. destruct (set_addr_rests w _ R) as (nf & R' & Hnf).
  apply (progress_static _ nf); [by split| |done]. rewrite <- (re_netif _ _ R'). apply R'.
Qed.

Lemma turn_progress a s t : progress a s -> is_packet t = false -> advance s t <> Overflown -> wp (take_turn lw true netif a t) (fun a' => progress a' (advance s t)).
Proof.
  intros [S E|n K E|nf R Hf Hnf] Ht Ho.
  3:{ assert (Hok : turn_ok t) by by destruct t. eapply wp_mono; [by apply (turn_resting a t nf DHCP_TIMEOUT)|]. intros a' R'.
      change (advance Settled t) with Settled. by apply (progress_static _ nf). }
  - destruct t; [done|..]; cbn [take_turn advance].
    + unfold arp_timer. wpb (alone_arp (net a) (sr_alone _ S)). intros b C. apply progress_start; [by apply starting_low|done].
    + unfold dhcp_timer_coarse. rewrite (proj1 (starting_timers _ S)). by apply progress_start.
    + unfold dhcp_timer_fine. rewrite (proj2 (starting_timers _ S)). by apply progress_start.
    + by apply task_start.
  - destruct t; [done|..]; cbn [take_turn advance] in *.
    + unfold arp_timer. assert (A : alone (net a)) by by destruct K. wpb (alone_arp (net a) A). intros b C. apply progress_ask; [by apply asking_low|done].
    + unfold dhcp_timer_coarse. wpb (asking_coarse _ _ K). intros w K'. by apply progress_ask.
    + unfold dhcp_timer_fine. destruct (Z.ltb_spec (n + 1) 30124); [|done]. wpb (asking_fine (net a) n ltac:(done) K). intros w K'. by apply progress_ask.
    + by apply task_ask.
Qed.

Lemma overflown ts : foldl advance Overflown ts = Overflown.
Proof. by induction ts as [|[] ts]. Qed.

Lemma silent_run ts : forall a s, progress a s -> forallb (fun t => negb (is_packet t)) ts = true -> foldl advance s ts <> Overflown ->
  wp (run lw true netif a ts) (fun a' => progress a' (foldl advance s ts)).
Proof.
  induction ts as [|t ts IH]; intros a s P Hq Ho; [done|]. cbn [forallb foldl run] in *. apply andb_prop in Hq as [Ht%negb_true_iff Hq].
  assert (H1 : advance s t <> Overflown) by (intros E; rewrite E, overflown in Ho; done). eapply wp_bind_mono; [by apply turn_progress|]. intros a1 P1. by apply IH.
Qed.

(** The memory behind a reset. *)
Record power_on (w : dw) : Prop := PowerOn {
  po_initial : initial w;
  po_list : netif_list (low w) = [];
  po_block : Z.of_nat (size (pcb_at (udp w))) < MEMP_NUM_UDP_PCB;
  po_port : unused (udp w) DHCP_CLIENT_PORT;
  po_autoip : forall m, nif_autoip (dnif w m) = None;
}.

Lemma boot_progress w : power_on w -> progress (boot lw true netif w) Unasked.
Proof.
  intros [P1 P2 P3 P4 P5]. destruct (init_spec true w P1) as [I1 I2 I3 I4 [I5 I5'] (I6 & _) I7 I8 I9 I10]. apply progress_start; [|done]. cbn [net boot].
  split; [split| |exact I6]; try done.
  - by rewrite I10, P2.
  - intros m. destruct (decide (m = netif)) as [->|Hm]; [done|by rewrite I9].
  - split; [done|by rewrite I5|unfold unused; by rewrite I5, I5'|done|by rewrite I2].
Qed.

(** C15: without a server the device gets its static address. From reset on,
    with DHCP and without a frame from the network, in whatever order the
    timers and the passes of LwIP_DHCP_task come: up to its first pass behind
    the 124th fine tick (62 seconds and six DISCOVERs after its first pass)
    the task searches and the interface has no address; from that pass on the
    interface has the static address, mask and gateway, and keeps them
    whatever turns follow, with the frames of a safe run (in a pbuf,
    readable, with an IP header of at least 20 bytes and options that can be
    parsed). Provided that a pass comes before the 30124th tick (four hours),
    that the task is not interrupted by the thread of the stack, and that
    every allocation of the stack succeeds. *)
Theorem netconf_falls_back w ts : power_on w -> forallb (fun t => negb (is_packet t)) ts = true -> foldl advance Unasked ts <> Overflown ->
  wp (run lw true netif (boot lw true netif w) ts) (fun a =>
    match foldl advance Unasked ts with
    | Settled => DHCP_state a = DHCP_TIMEOUT /\ static (dnif (net a) netif) /\
        forall later, Forall turn_ok later -> wp (run lw true netif a later) (fun a' => dnif (net a') netif = dnif (net a) netif)
    | _ => searching (DHCP_state a) = true /\ nif_ip_addr (dnif (net a) netif) = 0
    end).
Proof.
  intros H Hq Ho. eapply wp_mono; [by apply (silent_run ts _ Unasked), Ho; [apply boot_progress|]|]. intros a P.
  destruct P as [S E|n [d b p A Ha _ _ _ _ _ _ _] E|nf [R E] Hf Hnf]; [by rewrite E; split; [|apply S]|by rewrite E|].
  rewrite (re_netif _ _ R). split_and!; [done|done|]. intros later Hi. eapply wp_mono; [by apply (run_resting a nf DHCP_TIMEOUT later)|].
  intros a' [R' _]. apply R'.
Qed.

End Theory.

(** ** Witnesses *)

Definition w_reset : dw := DW (UdpW (IpW (World (replicate 10 blank) 0 (fun _ => Netif 0 0 0 (replicate 6 0) 0 None) [] [] [] 1 0 []) 0 None) [] 0xc000 ∅ 1)
  (fun _ => None) (fun _ => 0) 0xABCD0000 none_given.

Lemma reset_power_on : power_on w_reset.
Proof.
  split; try done.
  - split; try done; [split; [apply blank_table_ok|done|done]|].
    split; cbn; [apply NoDup_nil_2|constructor|intros a [x Hx]; by rewrite lookup_empty in Hx|by rewrite map_size_empty|by unfold UDP_LOCAL_PORT_RANGE_START, UDP_LOCAL_PORT_RANGE_END].
Qed.

(** Fine ticks, with a pass of the task every 250 ms. *)
Definition half_seconds (k : nat) : list turn := Dhcp_task :: concat (replicate k [Dhcp_task; Dhcp_timer_fine; Dhcp_task]).

Lemma netconf_falls_back_witness : foldl advance Unasked (half_seconds 124) = Settled /\
  wp (run kind true 0 (boot kind true 0 w_reset) (half_seconds 124)) (fun a => DHCP_state a = DHCP_TIMEOUT /\ nif_ip_addr (dnif (net a) 0) = 0x0a01a8c0).
Proof.
  assert (E : foldl advance Unasked (half_seconds 124) = Settled) by (vm_compute; reflexivity). split; [exact E|].
  assert (Hq : forallb (fun t => negb (is_packet t)) (half_seconds 124) = true) by (vm_compute; reflexivity).
  assert (Ho : foldl advance Unasked (half_seconds 124) <> Overflown) by (rewrite E; discriminate).
  pose proof (netconf_falls_back kind 0 (fun _ => eq_refl) w_reset (half_seconds 124) reset_power_on Hq Ho) as H. rewrite E in H.
  eapply wp_mono; [exact H|]. intros a (H1 & (H2 & _) & _). split; [exact H1|]. rewrite H2. reflexivity.
Defined.

(** The server 192.168.1.1 offers 192.168.1.50 to the board. *)
Definition board_reply (id x type : Z) : pbufs := reply_packet id (reply_bytes MAC_ADDR x offered (server_fields type)).
Definition board_frame (id x type : Z) : packet :=
  let m := first (board_reply id x type) in
  Packet id [(PBUF_POOL, replicate 6 255 ++ [2; 0; 0; 0; 0; 9] ++ [8; 0] ++
    ip_hdr_bytes (IpHdr 0x45 0 (lwip_htons (28 + zlen m)) 1 0 64 IP_PROTO_UDP 0 (IP4_ADDR 192 168 1 1) IPADDR_BROADCAST) ++
    udp_text DHCP_SERVER_PORT DHCP_CLIENT_PORT m)] None 0.
Definition frame_slack : list Z := replicate 200 0.

Lemma board_parses id x type : type = DHCP_OFFER \/ type = DHCP_ACK -> x = 0xABCD0001 \/ x = 0xABCD0002 -> parses (board_reply id x type).
Proof.
  intros Ht Hx. apply (parses_message _ (server_fields type) [] []); [|split|].
  - apply shaped_dec. destruct Ht as [-> | ->], Hx as [-> | ->]; vm_compute; reflexivity.
  - exists []. destruct Ht as [-> | ->], Hx as [-> | ->]; vm_compute; reflexivity.
  - intros H. destruct Ht as [-> | ->]; vm_compute in H; discriminate.
  - intros H. destruct Ht as [-> | ->]; vm_compute in H; discriminate.
  - destruct Ht as [-> | ->], Hx as [-> | ->]; vm_compute; reflexivity.
  - destruct Ht as [-> | ->]; (split_and!; repeat constructor; cbn; try (intros ?; discriminate); lia).
  - destruct Ht as [-> | ->]; split; vm_compute; apply not_elem_of_nil.
  - destruct Ht as [-> | ->]; apply (bool_decide_unpack _); vm_compute; exact I.
Qed.

Lemma board_frame_ok id x type : type = DHCP_OFFER \/ type = DHCP_ACK -> x = 0xABCD0001 \/ x = 0xABCD0002 -> frame_ok (board_frame id x type) frame_slack.
Proof.
  intros Ht Hx. pose proof (board_parses id x type Ht Hx) as [P1 P2]. split.
  - discriminate.
  - intros fl. destruct Ht as [-> | ->], Hx as [-> | ->]; (split; [split; [by right|apply tidy_1]|vm_compute; discriminate|right; vm_compute; discriminate]).
  - intros fl h E.
    assert (G : IPH_HL h = 5 /\ forall q, message_of h (stripped (board_frame id x type) frame_slack fl) = Some q -> map snd (pb_chain q) = map snd (pb_chain (board_reply id x type))).
    { destruct Ht as [-> | ->], Hx as [-> | ->]; vm_compute in E; injection E as <-; (split; [reflexivity|]); intros q Eq; vm_compute in Eq; injection Eq as <-; vm_compute; reflexivity. }
    destruct G as [-> G]. split; [done|]. intros q Eq. split; rewrite (G q Eq); [exact P1|exact P2].
Qed.

(** From reset to the second question for the address. *)
Definition board_turns : list turn :=
  [Dhcp_task; Packet_in (Some (board_frame 60 0xABCD0001 DHCP_OFFER, frame_slack)); Dhcp_task; Packet_in (Some (board_frame 61 0xABCD0002 DHCP_ACK, frame_slack));
   Arp_timer; Dhcp_timer_fine; Dhcp_task].
Definition a_boot : app := boot kind true 0 w_reset.
Definition a_checked : app := match run kind true 0 a_boot board_turns with Ok a => a | _ => a_boot end.

Lemma board_turns_ok : Forall turn_ok board_turns.
Proof.
  repeat (apply list.Forall_cons_2; [first [exact I|apply board_frame_ok; [by left|by left]|apply board_frame_ok; [by right|by right]]|]). by apply list.Forall_nil_2.
Qed.

Lemma board_runs : run kind true 0 a_boot board_turns = Ok a_checked.
Proof.
  unfold a_checked. assert (H : match run kind true 0 a_boot board_turns with Ok _ => true | _ => false end = true) by (vm_compute; reflexivity).
  revert H. generalize (run kind true 0 a_boot board_turns). intros [a| |]; [done|discriminate|discriminate].
Qed.

Lemma netconf_main_safe_witness : run kind true 0 a_boot board_turns = Ok a_checked /\ dhcp_ok idle (net a_checked).
Proof.
  pose proof board_runs as E. split; [exact E|]. pose proof (netconf_main_safe kind 0 (fun _ => eq_refl) true w_reset board_turns (po_initial _ reset_power_on) board_turns_ok) as H.
  fold a_boot in H. rewrite E in H. exact H.
Defined.

Lemma board_checked : exists d, checked 0 (net a_checked) d /\ offered_ip_addr (d_lease d) = offered.
Proof.
  assert (H : dhcp_ok idle (net a_checked)).
  { pose proof (run_safe kind 0 (fun _ => eq_refl) true a_boot board_turns (netconf_boot_ok kind 0 true w_reset (po_initial _ reset_power_on)) board_turns_ok) as F.
    rewrite board_runs in F. apply F. }
  destruct (dhcp_at (net a_checked) 0) as [d|] eqn:E; [|vm_compute in E; discriminate]. exists d.
  assert (Hd : d_state d = DHCP_CHECKING /\ d_pcb d = Some 1 /\ d_request_timeout d = 1 /\ d_tries d = 2 /\ offered_ip_addr (d_lease d) = offered)
    by (vm_compute in E; injection E as <-; vm_compute; done).
  destruct Hd as (H1 & H2 & H3 & H4 & H5). split; [|exact H5]. split; [|exact E|exact H1|by rewrite H2|exact H3|by rewrite H4|by rewrite H5].
  split; [exact H|vm_compute; reflexivity| | |vm_compute; reflexivity].
  - intros [|m|m] Hm; [destruct (Hm eq_refl)|vm_compute; reflexivity|vm_compute; reflexivity].
  - intros [|m|m]; vm_compute; reflexivity.
Qed.

Lemma netconf_keeps_address_witness : exists d, offered_ip_addr (d_lease d) = offered /\
  wp (run kind true 0 a_checked (Dhcp_timer_fine :: Dhcp_task :: board_turns)) (fun a' => nif_ip_addr (dnif (net a') 0) = offered /\ DHCP_state a' = DHCP_ADDRESS_ASSIGNED).
Proof.
  destruct board_checked as (d & Hc & Hd). exists d. split; [exact Hd|]. eapply wp_mono; [apply (netconf_keeps_address kind 0 a_checked d board_turns Hc)|].
  - vm_compute. reflexivity.
  - exact board_turns_ok.
  - intros a' (H1 & (H2 & _) & _). split; [by rewrite H2|exact H1].
Defined.
